(* ===== verification/_CoqProject ===== *)
-Q . S2P
Prelude.v
PyStr.v
PyVal.v
Sha256.v
Doubles.v
PyOrder.v
Money.v
Signing.v
ChainTx.v
Ledger.v
LedgerFacts.v
Validation.v
ChainStore.v
ChainOps.v
StoreFacts.v
ChainFacts.v
Apportion.v
SettlementData.v
Funding.v
Validators.v
Settlement.v
Demo.v
ChainProps.v
PeerPayload.v
PeerFacts.v
ChainSync.v
ChainSyncProps.v
ValidatorProps.v
FundingProps.v
SettlementProps.v
Slashing.v
SlashingProps.v
Payouts.v
PayoutProps.v
PayoutCredit.v
FinalityProps.v
Envelope.v
EnvelopeProps.v
PayoutWitness.v
EventBuffer.v
EventLog.v
Topology.v
RuntimeState.v
RuntimeProps.v
Replication.v
ReplicationProps.v
Election.v
ElectionProps.v
WorkerPlan.v
WorkerProps.v
LayerAllocation.v
NetworkRoutes.v
NetworkModelPolicy.v
RouteHealth.v
ShardAssignment.v
PlacementRoutes.v
Placement.v
MasterCommands.v
MasterProps.v
PlanProps.v
RouteProps.v
OverlayProps.v
PlacementProps.v
Pricing.v
Eligibility.v
Jobs.v
JobExecution.v
JobProps.v
JobRunProps.v
JobPriceProps.v
JobWitness.v
Transport.v
TransportBatch.v
TransportPlan.v
TransportEnvelope.v
TransportAudit.v
TransportFacts.v
TransportProps.v
TransportPlanProps.v
TransportAuditProps.v
