(* ===== verification/Prelude.v ===== *)
(** * CAI: a verification development

    CAI is a network of computers that run language models together and pay each other for
    it.  The repository has two Python programs.  [src/src/cai_compute_chain/] is the compute
    chain: wallets, a ledger of signed transactions in blocks, validators, settlements that
    pay the workers of a job, and the exchange of chains between peers.  [src/cai/src/cai/] is
    the cluster: nodes elect a master, the master orders events in a log, every node replays
    the log into its copy of the state, and workers act on that state.

    This library translates the core of both into Rocq functions and proves what they
    promise.  Definitions are executable and keep the names of the source; a call that may
    raise is a function into [result] (below), an operation that writes returns the store it
    leaves together with its result, so that what was written before an exception stays.

    ** Parts of the program and the files that model them

    Ground layer.
    - [Prelude] (this file): the error monad, the operations on lists the parts share.
    - [PyStr], [PyVal]: Python's strings, integers and JSON values, and canonical
      [json.dumps] with sorted keys.  [Sha256]: [hashlib.sha256].  [Doubles]: binary64
      arithmetic.  [PyOrder]: the order of tuples that [sorted], [min] and [max] use.

    The compute chain.
    - [Money]: [model.py] (networks, presets, [MoneyPolicy]) and [wallet.py] (addresses, coin
      amounts).  [Signing]: [wallet_signing.py].
    - [ChainTx], [Ledger], [ChainStore], [ChainOps], [ChainSync]: [chain.py] in five parts:
      records and hashes; indexes, genesis and [validate_chain_blocks]; the files; the
      operations that append; the chains of peers.  A file is the JSON document it holds.
    - [PeerPayload]: [peer_payload.py].
    - [Validators]: [validators.py] (registry, penalties, bonds, committees).  [Apportion]:
      its split of fees, and [job_reward_distribution.py].
    - [SettlementData], [Settlement], [Slashing], [Payouts], [Envelope]:
      [settlement.py] (records; the chain entries of an applied settlement and their audit;
      attestations and finality; evidence and penalties; opening, accounting, payouts and
      application; signed envelopes and proposals).
    - [Funding]: [economics.py] (prices, reserve limits, the funding decision).
    - [Pricing]: the curated models of [model.py], the automatic quote of [economics.py] and
      [job_pricing.py].  [Eligibility]: [job_reward_distribution.py], the snapshots of
      [job_instance_placement.py] and [job_worker_eligibility.py].
    - [Jobs]: [job_storage.py], and of [jobs.py] the creation of a job and the repair of stopped
      ones.  [JobExecution]: [job_execution_attempts.py] and [execute_job_intent]: its checks,
      the attempts, the price of the run, receipt, settlement, votes and end of the job.
    - The owned transport, which carries the layers of a run from node to node:
      [cai_owned_transport_*.py] and [decentralized_compute.py].  [Transport]: ids, checks, the
      store of sessions and replays, creation of a session.  [TransportBatch]: recording, claims
      with leases, heartbeats, failure, time-outs and marks of batches.  [TransportPlan]: how
      layers are cut among executors, the DAG of stages and its check.  [TransportEnvelope]:
      signed payloads, the replay cache, frames and batch envelopes.  [TransportAudit]: receipts,
      the proof of an execution, its audit, completion and the notices of it.

    The cluster.
    - [EventBuffer]: [utils/event_buffer.py] and [utils/keyed_backoff.py].  [EventLog]:
      [utils/disk_event_log.py].
    - [Topology], [RuntimeState]: [shared/topology.py], the types under [shared/types/] and
      [shared/apply.py]: the replicated state and one function per event.
    - [Replication]: the event processor of [master/main.py], the inbound side of
      [routing/event_router.py] with its request tasks, and the loops that apply events.
    - [Election]: [shared/election.py], one function per task segment between two awaits.
    - [WorkerPlan]: [worker/plan.py] and the state machine of
      [worker/runner/llama_cpp/runner.py].
    - [NetworkRoutes]: [shared/network_routes.py] (direct sockets, overlay, relays).
      [NetworkModelPolicy]: [shared/network_model_policy.py].  [RouteHealth]:
      [route_health.py] of the chain package, whose records the placement reads.
    - [LayerAllocation], [ShardAssignment], [PlacementRoutes]: [master/placement_utils.py]
      (layers per node; shards; candidate cycles and transports).  [Placement]:
      [master/placement.py].
    - [MasterCommands]: the command processor and the plan loop of [master/main.py].

    The facts of the chain are in files of their own ([LedgerFacts], [Validation], [StoreFacts],
    [ChainFacts], [PeerFacts]), those of the transport in [TransportFacts].  The main theorems of a component [X] are in
    [XProps] ([PayoutCredit], [JobRunProps], [JobPriceProps], [TransportPlanProps] and
    [TransportAuditProps] too), those of a small one at
    the end of its file.  [Demo] evaluates a concrete chain; [PayoutWitness] and [JobWitness]
    apply theorems to concrete inputs, as the last part of other files does.

    ** How the parts interact

    The chain calls the signatures through the class [Signing.SignatureBackend] and reads
    policies of [Money].  Settlements and funding rounds write only through
    [append_chain_block]; so does a merged peer chain, through [save_chain_blocks].
    Validators read the bonds the chain locks; finality counts the bond of the committee they
    form.  A job's funding decision opens its settlement ([Payouts.record_funding_settlement]),
    the rewards of [Apportion] become its payouts, and its application writes the local
    ledger, the wallets and, through [Settlement], the chain.  A job composes
    all of these: [Pricing] and [Funding] reserve its cost, [JobExecution] runs it on the
    cluster, [Eligibility] decides who is paid from the snapshot of its instance and [Pricing] prices the
    tokens used; its settlement is then opened, signed, voted on and applied.  An attestation ends with the
    application of the settlement it finalised ([Payouts.record_validator_attestation]); so the
    theorems about votes, envelopes and jobs share one interface, the class
    [EnvelopeProps.SettlementFrame] of relations between a stored settlement and its successor:
    each operation on settlements is [kept_by] every instance, and envelopes ([EnvelopeProps])
    and jobs ([JobRunProps]) are instances.  The proof of a completed session of the transport
    names the executors; a job that ran over it pays exactly these.  The replicas of the cluster
    compose [EventBuffer], [EventLog] and [RuntimeState]; the planner of a worker reads the
    replicated state.
    A command of the master calls [Placement], which reads the topology, the routes and the
    records of [RouteHealth]; the events it returns change the state through [RuntimeState].

    ** What the theorems show

    - Chain: [validate_chain_blocks] decides a declarative notion of valid chain; an append
      keeps a valid chain valid, is durable, is idempotent and moves exactly the coins it
      says; a refused append writes nothing; balances conserve the supply; the index agrees
      with the blocks; nonces are not reused; the mainnet genesis block is the pinned one.
    - Signatures and peers: which keys may authorise what, including two places where the
      code binds no key; a merge writes only valid chains.
    - Validators and settlements: splits are exact; quorums intersect; votes refine a map in
      which the first vote stands; a decided settlement stays decided; a quorum of accepting
      members finalises in any interleaving, with and without application after the vote;
      entries are recorded once and balance.
    - Payouts: the settlement opened for a job accepts the rewards the job computed, the
      accounting decides exactness, and a payout is credited once however the calls that pay
      are interleaved.  A signed envelope keeps verifying; a proposal needs no signature of
      its payer.
    - Jobs: the attempts of a job end, each with a record; a job executed to its end leaves one
      settlement, exact, with its payouts, in the files after votes and synchronisation; the
      repair completes the jobs with a receipt and fails the old ones without; a first run that
      stopped after its settlement is completed by it; a price by tokens is covered by the
      reservation; a run settles exactly when its participants are eligible; with an execution proof its receipts decide who is paid, and the tokens of
      a pipeline are counted once.
    - Penalties: however a refresh ends, the registry changes only by penalties with a quorum,
      once per case; over a run of calls that return a case is applied once.
    - Funding: the plan books the first payment of the preference that the purses can bear and
      the daily allowances permit, by what chain and settlements say was spent.
    - Transport: a lease protects a batch from other runtimes until it expires; a claim, and a
      look for time-outs, have exactly the outcome their conditions call for; a signed payload is
      accepted once; a plan that is built is accepted and partitions the layers, and an accepted
      one is the plan of its participants; completing a session proves every batch but
      the final output of an executor.
    - Replication: the disk log refines a list; states reached by events are well formed;
      whatever the network loses, repeats or reorders, a replica's state is the replay of a
      prefix of the master's log, and it catches up within twice as many fair rounds as the log
      is long, though at most one uncancelled request is under way.
    - Election: in every state of a network of electing nodes a candidate follows only
      candidates; equal candidate lists elect the same master.
    - Workers: the runners of an instance all become ready under every interleaving of their
      planners, each with old knowledge of the others.
    - Placement: a placed instance runs on nodes of one candidate cycle with the required
      nodes, enough memory and proven routes; its shards partition the layers of the model;
      the overlay candidates are the connected components of the overlay; relay routes are
      exactly the two-step paths; route records follow the history of probes.
    - Master: a command's events have the effect the command asks for and change nothing else;
      a plan round gives up silent nodes and the instances they were part of.

    ** Bounds and fuel

    Python integers are unbounded and so is [Z]; the words of SHA-256 are reduced modulo
    [2^32], and the binary64 results the funding compares are rounded as Python rounds them
    ([Doubles.true_div]).  Recursion is structural except in four places: the drain of an
    [OrderedBuffer] has [drain_fuel], the size of its store plus one (each round removes an
    entry; [drain_terminates] shows that more gives the same), and the digits of an integer
    have one unit of fuel per binary digit ([PyStr.digits_fuel]); raising a node to its minimum
    of layers takes at most the layers it lacks ([LayerAllocation.raise_to_minimum]); and the
    search of the overlay visits every node at most once ([OverlayProps.search_ends]).  The election and the
    workers are step relations; [enough_steps] of [WorkerProps] bounds the run of an instance
    by seven changes of status for each runner, each followed by one report per node.

    ** Parameters

    Third-party or operating-system code enters as an argument: the two signature algorithms
    (with the law that a signature made with a key verifies), the serialiser of the event log
    (with the law that it reads back what it wrote), the enumeration of simple cycles and the
    order of Python's sets and dicts, fresh ids and ports, the parser of URLs, which chunks of
    a model a node holds, the readiness of the routes of the owned runtime, [datetime.fromisoformat], clocks, environment
    variables, the keys and unlocked key material of wallets, the lottery of a committee, and
    whether a worker has the files of a shard.  For a job: what the cluster answers (instances,
    responses, the network audit made of its state, the summaries of nodes, the capability
    records and votes), the age of an ISO time, and the texts of exceptions.  For the transport:
    [datetime.isoformat] with its inverse, [gzip] with its inverse, the sending of receipts and
    random ids.

    ** Not modelled

    HTTP requests and servers, sockets, processes, key files and their encryption, logging,
    the command line and the desktop shell: they are I/O around the modelled parts.
    Floating-point prices are exact rationals or integers of the smallest unit, as each file
    says.  A job is modelled on a node that is not itself a validator, and without the
    task-level transport, which runs a job over the owned runtime.  Of the transport, a call
    reads the clock once, durations are whole seconds, JSON numbers are integers and JSON texts
    ASCII, and the items of a session are dicts; the network submission, the dispatch of a plan,
    the readiness of executors and the envelope of the last output are not modelled, nor is the
    runtime process ([cai_owned_runtime.py]).  A mark of the leased batch itself is modelled but
    outside the theorem on leases: it asks for none ([TransportProps.mark_ignores_lease]).  The distribution of models
    ([model_distribution.py]) is mostly file and network operations and is not modelled. *)
From stdpp Require Export base gmap strings list fin_maps sorting.
From Stdlib Require Export ZArith Lia.
From Stdlib Require Import Ascii.
Set Default Proof Using "Type".

(** ** Errors as values

    A Python call that may raise is a function into [result]. *)

Inductive exn : Type :=
| ValueError (msg : string)
| TypeError
| KeyError (key : string)
| IndexError
| AttributeError
| AssertionError
| OverflowError
| ConflictingAttestationError (attestation_id : string)
| OtherError (type_name msg : string).

Inductive result (A : Type) : Type :=
| Ok (a : A)
| Err (e : exn).
Arguments Ok {A} _.
Arguments Err {A} _.

#[export] Instance exn_eq_dec : EqDecision exn.
Proof. solve_decision. Defined.

#[export] Instance result_ret : MRet result := @Ok.
#[export] Instance result_bind : MBind result := fun A B f m =>
  match m with Ok a => f a | Err e => Err e end.

Definition is_ok {A} (r : result A) : bool :=
  match r with Ok _ => true | Err _ => false end.

#[export] Instance Ok_inj A : Inj (=) (=) (@Ok A).
Proof. by intros x y [=]. Qed.

(** [for] loops that may raise: a left fold in the error monad. *)
Fixpoint foldM {A B} (f : B → A → result B) (b : B) (l : list A) : result B :=
  match l with
  | [] => Ok b
  | x :: l' => match f b x with Ok b' => foldM f b' l' | Err e => Err e end
  end.

(** List comprehensions whose body may raise. *)
Fixpoint mapM_r {A B} (f : A → result B) (l : list A) : result (list B) :=
  match l with
  | [] => Ok []
  | x :: l' =>
      match f x with
      | Err e => Err e
      | Ok y => match mapM_r f l' with Ok ys => Ok (y :: ys) | Err e => Err e end
      end
  end.

Lemma bind_ok {A B} (m : result A) (f : A → result B) (b : B) :
  m ≫= f = Ok b ↔ ∃ a, m = Ok a ∧ f a = Ok b.
Proof. destruct m as [a|e]; cbn; split; [eauto|by intros (? & [= ->] & ?)|done|by intros (? & ? & ?)]. Qed.

Lemma mapM_r_ok {A B} (f : A → result B) (l : list A) (l' : list B) :
  mapM_r f l = Ok l' ↔ Forall2 (λ x y, f x = Ok y) l l'.
Proof.
  revert l'. induction l as [|x l IH]; intros l'; cbn; split.
  - intros [= <-]. constructor.
  - intros H. by inversion H.
  - destruct (f x) eqn:E; [|done]. destruct (mapM_r f l) eqn:E'; [|done].
    intros [= <-]. constructor; [done|]. by apply IH.
  - intros H. inversion H as [|? y ? ys Hy Hys]; subst. apply IH in Hys. by rewrite Hy, Hys.
Qed.

Lemma foldM_app {A B} (f : B → A → result B) b l1 l2 :
  foldM f b (l1 ++ l2) = foldM f b l1 ≫= λ b', foldM f b' l2.
Proof. revert b; induction l1 as [|x l1 IH]; intros b; cbn; [done|]. by destruct (f b x). Qed.

(** The first element of a list with a property, if there is one. *)
Definition first_such {A} (P : A → Prop) (l : list A) (o : option A) : Prop :=
  match o with
  | Some x => ∃ l1 l2, l = l1 ++ x :: l2 ∧ P x ∧ Forall (λ y, ¬ P y) l1
  | None => Forall (λ y, ¬ P y) l
  end.

Lemma first_nil {A} (P : A → Prop) : first_such P [] None.
Proof. constructor. Qed.

Lemma first_cons {A} (P : A → Prop) x l o :
  (P x ∧ o = Some x) ∨ (¬ P x ∧ first_such P l o) → first_such P (x :: l) o.
Proof.
  intros [[Hx ->]|[Hx Hl]]; [exists [], l; by split_and!|]. destruct o as [y|]; cbn in *; [|by constructor].
  destruct Hl as (l1 & l2 & -> & Hy & Hl1). exists (x :: l1), l2. split_and!; [done|done|by constructor].
Qed.

Lemma first_such_elem {A} (P : A → Prop) l x : first_such P l (Some x) → x ∈ l ∧ P x.
Proof. intros (l1 & l2 & -> & Hx & _). set_solver. Qed.

Lemma find_first {A} (P : A → Prop) (f : A → bool) l :
  (∀ x, f x = true ↔ P x) → first_such P l (List.find f l).
Proof.
  intros Hf. induction l as [|x l IH]; [constructor|]. cbn. apply first_cons.
  destruct (f x) eqn:E; [left|right]; rewrite <- Hf, E; done.
Qed.

(** [enumerate(l)] *)
Fixpoint enumerate_from {A} (n : nat) (l : list A) : list (nat * A) :=
  match l with [] => [] | x :: l' => (n, x) :: enumerate_from (S n) l' end.
Abbreviation enumerate := (enumerate_from 0).

Lemma enumerate_from_snoc {A} n (l : list A) x :
  enumerate_from n (l ++ [x]) = enumerate_from n l ++ [(n + length l, x)]%nat.
Proof.
  revert n. induction l as [|y l IH]; intros n; cbn; [by rewrite Nat.add_0_r|].
  rewrite IH. do 4 f_equal. lia.
Qed.

(** ** Filters *)

Lemma filter_ext_in {A} (P Q : A → Prop) `{∀ x, Decision (P x), ∀ x, Decision (Q x)} (l : list A) :
  Forall (λ x, P x ↔ Q x) l → filter P l = filter Q l.
Proof.
  induction 1 as [|x l Hx Hl IH]; [done|]. rewrite !filter_cons, IH.
  destruct (decide (P x)), (decide (Q x)); tauto.
Qed.

Lemma filter_none {A} (P : A → Prop) `{∀ x, Decision (P x)} (l : list A) :
  Forall (λ x, ¬ P x) l → filter P l = [].
Proof. induction 1; [done|]. by rewrite filter_cons_False. Qed.

Lemma filter_map_length {A B} (f : A → B) (P : B → Prop) `{∀ x, Decision (P x)} (l : list A) :
  length (filter P (map f l)) = length (filter (λ x, P (f x)) l).
Proof.
  induction l as [|x l IH]; [done|]. cbn [map]. rewrite !filter_cons.
  destruct (decide (P (f x))); cbn; by rewrite IH.
Qed.

(** ** Stable sorting, as Python's [sorted] with a total preorder key test *)

Section sort.
Context {A : Type} (leb : A → A → bool).

Fixpoint insert_sorted (x : A) (l : list A) : list A :=
  match l with
  | [] => [x]
  | y :: l' => if leb x y then x :: l else y :: insert_sorted x l'
  end.

Fixpoint py_sorted (l : list A) : list A :=
  match l with
  | [] => []
  | x :: l' => insert_sorted x (py_sorted l')
  end.

Lemma insert_sorted_perm x l : insert_sorted x l ≡ₚ x :: l.
Proof.
  induction l as [|y l IH]; cbn; [done|]. destruct (leb x y); [done|].
  rewrite IH. constructor.
Qed.

Lemma py_sorted_perm l : py_sorted l ≡ₚ l.
Proof. induction l as [|x l IH]; cbn; [done|]. by rewrite insert_sorted_perm, IH. Qed.

Lemma py_sorted_length l : length (py_sorted l) = length l.
Proof. by rewrite (Permutation_length (py_sorted_perm l)). Qed.

Lemma elem_of_py_sorted x l : x ∈ py_sorted l ↔ x ∈ l.
Proof. by rewrite py_sorted_perm. Qed.

(** A list already in order is left as it is (stability). *)
Lemma py_sorted_id l : StronglySorted (λ x y, leb x y = true) l → py_sorted l = l.
Proof.
  induction 1 as [|x l Hl IH Hx]; cbn; [done|]. rewrite IH.
  destruct l as [|y l]; cbn; [done|]. inversion Hx as [|? ? Hxy]; subst. by rewrite Hxy.
Qed.

Context (leb_total : ∀ x y, leb x y = true ∨ leb y x = true).
Context (leb_trans : ∀ x y z, leb x y = true → leb y z = true → leb x z = true).

Lemma insert_sorted_sorted x l :
  StronglySorted (λ x y, leb x y = true) l →
  StronglySorted (λ x y, leb x y = true) (insert_sorted x l).
Proof using leb_total leb_trans.
  induction 1 as [|y l Hl IH Hy]; cbn; [repeat constructor|].
  destruct (leb x y) eqn:E.
  - constructor; [by constructor|]. constructor; [done|].
    eapply Forall_impl; [exact Hy|]. cbn; eauto.
  - assert (leb y x = true) by (destruct (leb_total x y); congruence).
    constructor; [done|]. rewrite insert_sorted_perm. by constructor.
Qed.

Lemma py_sorted_sorted l : StronglySorted (λ x y, leb x y = true) (py_sorted l).
Proof using leb_total leb_trans.
  induction l as [|x l IH]; cbn; [constructor|]. by apply insert_sorted_sorted.
Qed.
End sort.

Section stable_sort.
Context {A : Type} (leb : A → A → bool).
Context (leb_total : ∀ x y, leb x y = true ∨ leb y x = true).
Context (leb_trans : ∀ x y z, leb x y = true → leb y z = true → leb x z = true).

Lemma filter_insert_sorted (P : A → Prop) `{∀ x, Decision (P x)} x l :
  StronglySorted (λ x y, leb x y = true) l →
  filter P (insert_sorted leb x l)
  = if decide (P x) then insert_sorted leb x (filter P l) else filter P l.
Proof using leb_trans.
  induction 1 as [|y l Hl IH Hy]; cbn [insert_sorted]; [by rewrite filter_cons|].
  destruct (leb x y) eqn:E.
  - rewrite (filter_cons P x). case_decide; [|done].
    assert (Forall (λ z, leb x z = true) (filter P (y :: l))) as Hall.
    { apply Forall_forall. intros z [_ [->|Hz]%elem_of_cons]%list_elem_of_filter; [done|].
      rewrite Forall_forall in Hy. by eapply leb_trans, Hy. }
    destruct (filter P (y :: l)) as [|z l']; [done|]. cbn. inversion Hall as [|? ? Hz]; subst. by rewrite Hz.
  - rewrite !(filter_cons P y). destruct (decide (P y)); [|exact IH]. rewrite IH.
    destruct (decide (P x)); [|done]. cbn. by rewrite E.
Qed.

(** Sorting is stable: it commutes with leaving elements out. *)
Lemma filter_py_sorted (P : A → Prop) `{∀ x, Decision (P x)} l :
  filter P (py_sorted leb l) = py_sorted leb (filter P l).
Proof using leb_total leb_trans.
  induction l as [|x l IH]; [done|]. cbn [py_sorted].
  rewrite filter_insert_sorted by (by apply py_sorted_sorted). rewrite IH, filter_cons. by case_decide.
Qed.
End stable_sort.

Lemma find_head_filter {A} (f : A → bool) (l : list A) : List.find f l = head (filter (λ x, f x = true) l).
Proof.
  induction l as [|x l IH]; [done|]. cbn [List.find]. rewrite filter_cons.
  destruct (f x); [by rewrite decide_True|]. by rewrite decide_False.
Qed.

(** ** Sums of integers over lists and finite maps *)

Fixpoint sumZ (l : list Z) : Z :=
  match l with [] => 0%Z | x :: l' => (x + sumZ l')%Z end.

Lemma sumZ_app l1 l2 : sumZ (l1 ++ l2) = (sumZ l1 + sumZ l2)%Z.
Proof. induction l1 as [|x l1 IH]; cbn in *; lia. Qed.

#[export] Instance sumZ_perm : Proper ((≡ₚ) ==> (=)) sumZ.
Proof. intros l1 l2 H. induction H; cbn in *; lia. Qed.

Lemma sumZ_nonneg l : Forall (λ x, 0 ≤ x)%Z l → (0 ≤ sumZ l)%Z.
Proof. induction 1; cbn in *; lia. Qed.

Lemma sumZ_elem_le l x : Forall (λ x, 0 ≤ x)%Z l → x ∈ l → (x ≤ sumZ l)%Z.
Proof.
  induction 1 as [|y l Hy Hl IH]; [set_solver|].
  pose proof (sumZ_nonneg l Hl). rewrite elem_of_cons. cbn in *. intros [->|Hx]; [lia|].
  specialize (IH Hx). lia.
Qed.

Lemma sumZ_map_mul {A} (f : A → Z) (c : Z) l :
  sumZ (map (λ x, c * f x)%Z l) = (c * sumZ (map f l))%Z.
Proof. induction l as [|x l IH]; cbn in *; lia. Qed.

Lemma sumZ_map_add {A} (f g : A → Z) l :
  sumZ (map (λ x, f x + g x)%Z l) = (sumZ (map f l) + sumZ (map g l))%Z.
Proof. induction l as [|x l IH]; cbn in *; lia. Qed.

Definition map_sum {K} `{Countable K} (m : gmap K Z) : Z := map_fold (λ _ v a, v + a)%Z 0%Z m.

Section map_sum.
Context {K : Type} `{Countable K}.
Implicit Types m : gmap K Z.

Lemma map_sum_insert_None m k v :
  m !! k = None → map_sum (<[k:=v]> m) = (v + map_sum m)%Z.
Proof. intros Hk. unfold map_sum. rewrite map_fold_insert_L; [done|lia|done]. Qed.

Lemma map_sum_delete m k :
  map_sum m = (default 0 (m !! k) + map_sum (delete k m))%Z.
Proof.
  destruct (m !! k) as [v|] eqn:E; cbn.
  - rewrite <- (insert_delete_id m k v) at 1 by done.
    by rewrite map_sum_insert_None by apply lookup_delete_eq.
  - by rewrite delete_id.
Qed.

(** Adding [d] to one entry adds [d] to the total: the arithmetic core of every
    supply argument below. *)
Lemma map_sum_add m k d :
  map_sum (<[k := (default 0 (m !! k) + d)%Z]> m) = (map_sum m + d)%Z.
Proof.
  rewrite (map_sum_delete m k), (map_sum_delete (<[k:=_]> m) k).
  rewrite lookup_insert_eq, delete_insert_eq. cbn. lia.
Qed.

Lemma map_sum_to_list m : map_sum m = sumZ (map snd (map_to_list m)).
Proof.
  induction m as [|k v m Hk IH] using map_ind; [by rewrite map_to_list_empty|].
  rewrite map_sum_insert_None, map_to_list_insert by done. cbn. by rewrite IH.
Qed.

Lemma map_sum_lookup_le m k v :
  map_Forall (λ _ x, 0 ≤ x)%Z m → m !! k = Some v → (v ≤ map_sum m)%Z.
Proof.
  intros Hpos Hk. rewrite map_sum_to_list. apply sumZ_elem_le.
  - apply Forall_forall. intros x. rewrite list_elem_of_In, in_map_iff.
    intros ([k' v'] & <- & Hin). apply list_elem_of_In, elem_of_map_to_list in Hin. eauto.
  - apply list_elem_of_In, in_map_iff. exists (k, v). split; [done|].
    by apply list_elem_of_In, elem_of_map_to_list.
Qed.
End map_sum.

(** ** Automation *)

Create HintDb cai discriminated.
Create Rewrite HintDb cai.
#[export] Hint Resolve lookup_insert_eq lookup_delete_eq : cai.

(** Case analysis on the scrutinee of a [match] or [if] in a hypothesis, keeping the
    equation. *)
Ltac case_in H :=
  match type of H with
  | context [match ?x with _ => _ end] => destruct x eqn:?
  end.

(** Booleans of the source's conditions to propositions. *)
Ltac bool_to_prop :=
  repeat match goal with
  | H : (_ && _) = true |- _ => apply andb_true_iff in H; destruct H
  | H : (_ || _) = false |- _ => apply orb_false_iff in H; destruct H
  | H : negb _ = true |- _ => apply negb_true_iff in H
  | H : negb _ = false |- _ => apply negb_false_iff in H
  | H : bool_decide _ = true |- _ => apply bool_decide_eq_true in H
  | H : bool_decide _ = false |- _ => apply bool_decide_eq_false in H
  | H : (_ <? _)%Z = true |- _ => apply Z.ltb_lt in H
  | H : (_ <? _)%Z = false |- _ => apply Z.ltb_ge in H
  | H : (_ <=? _)%Z = true |- _ => apply Z.leb_le in H
  | H : (_ <=? _)%Z = false |- _ => apply Z.leb_gt in H
  | H : (_ =? _)%Z = true |- _ => apply Z.eqb_eq in H
  | H : (_ =? _)%Z = false |- _ => apply Z.eqb_neq in H
  end.
