(* ===== verification/PyStr.v ===== *)
(** * Python strings and integers

    The string operations the sources use ([str.strip], [str.lower], [str.startswith],
    slicing, [str.partition], [int(str)], [str(int)], zero-padded formatting and the
    lexicographic order of [str]), on strings of ASCII characters. *)
From Stdlib Require Import Ascii.
From S2P Require Import Prelude.
Local Open Scope Z_scope.

Definition code (c : ascii) : Z := Z.of_N (N_of_ascii c).

(** [str.isspace] on ASCII: tab to carriage return, the separators 0x1c-0x1f, space. *)
Definition is_space (c : ascii) : bool :=
  let n := code c in
  ((9 <=? n) && (n <=? 13)) || ((28 <=? n) && (n <=? 32)).

Fixpoint lstrip (s : string) : string :=
  match s with
  | String c s' => if is_space c then lstrip s' else s
  | EmptyString => EmptyString
  end.

Fixpoint rstrip (s : string) : string :=
  match s with
  | EmptyString => EmptyString
  | String c s' =>
      match rstrip s' with
      | EmptyString => if is_space c then EmptyString else String c EmptyString
      | r => String c r
      end
  end.

Definition strip (s : string) : string := rstrip (lstrip s).

Definition lower_char (c : ascii) : ascii :=
  let n := code c in
  if (65 <=? n) && (n <=? 90) then ascii_of_N (Z.to_N (n + 32)) else c.

Fixpoint lower (s : string) : string :=
  match s with
  | EmptyString => EmptyString
  | String c s' => String (lower_char c) (lower s')
  end.

Fixpoint startswith (p s : string) : bool :=
  match p, s with
  | EmptyString, _ => true
  | String c p', String d s' => Ascii.eqb c d && startswith p' s'
  | String _ _, EmptyString => false
  end.

(** [s[n:]] and [s[:n]] for a non-negative [n]. *)
Fixpoint drop_str (n : nat) (s : string) : string :=
  match n, s with
  | O, _ => s
  | S n', String _ s' => drop_str n' s'
  | S _, EmptyString => EmptyString
  end.

Fixpoint take_str (n : nat) (s : string) : string :=
  match n, s with
  | O, _ => EmptyString
  | S n', String c s' => String c (take_str n' s')
  | S _, EmptyString => EmptyString
  end.

(** [str.lstrip("@")]. *)
Fixpoint lstrip_char (c : ascii) (s : string) : string :=
  match s with
  | String d s' => if Ascii.eqb c d then lstrip_char c s' else s
  | EmptyString => EmptyString
  end.

(** [s.partition(sep)] for a one-character separator: the parts before and after the
    first occurrence; [("s", "")] when there is none. *)
Fixpoint partition1 (sep : ascii) (s : string) : string * string :=
  match s with
  | EmptyString => (EmptyString, EmptyString)
  | String c s' =>
      if Ascii.eqb c sep then (EmptyString, s')
      else let '(a, b) := partition1 sep s' in (String c a, b)
  end.

Fixpoint repeat_char (c : ascii) (n : nat) : string :=
  match n with O => EmptyString | S n' => String c (repeat_char c n') end.

(** ** Decimal integers *)

Definition digit_val (c : ascii) : option Z :=
  let n := code c in
  if (48 <=? n) && (n <=? 57) then Some (n - 48) else None.

Definition digit_char (d : Z) : ascii := ascii_of_N (Z.to_N (d + 48)).

(** Digits with single underscores between them, as [int()] accepts them. *)
Fixpoint parse_digits (acc : Z) (s : string) : option Z :=
  match s with
  | EmptyString => Some acc
  | String c s' =>
      match digit_val c with
      | Some d => parse_digits (10 * acc + d) s'
      | None =>
          if Ascii.eqb c "_"%char then
            match s' with
            | String c' s'' =>
                match digit_val c' with
                | Some d => parse_digits (10 * acc + d) s''
                | None => None
                end
            | EmptyString => None
            end
          else None
      end
  end.

Definition parse_unsigned (s : string) : option Z :=
  match s with
  | String c s' => match digit_val c with Some d => parse_digits d s' | None => None end
  | EmptyString => None
  end.

(** [int(s)]; [None] is the [ValueError]. *)
Definition int_of_str (s : string) : option Z :=
  match strip s with
  | EmptyString => None
  | String c s' =>
      if Ascii.eqb c "-"%char then Z.opp <$> parse_unsigned s'
      else if Ascii.eqb c "+"%char then parse_unsigned s'
      else parse_unsigned (String c s')
  end.

Fixpoint digits_fuel (fuel : nat) (n : Z) (acc : string) : string :=
  match fuel with
  | O => acc
  | S fuel' =>
      let acc' := String (digit_char (n mod 10)) acc in
      if n / 10 =? 0 then acc' else digits_fuel fuel' (n / 10) acc'
  end.

(** Decimal digits of a non-negative integer; [Z.log2 n + 1] bits bound the digits. *)
Definition str_of_nonneg (n : Z) : string := digits_fuel (S (Z.to_nat (Z.log2 n))) n "".

(** [str(n)]. *)
Definition str_of_Z (n : Z) : string :=
  if n <? 0 then String "-"%char (str_of_nonneg (- n)) else str_of_nonneg n.

(** [f"{n:0wd}"] for a non-negative [n]. *)
Definition zfill (w : nat) (n : Z) : string :=
  let s := str_of_nonneg n in
  repeat_char "0"%char (w - String.length s) +:+ s.

(** ** Order of [str] *)

Definition str_leb (s t : string) : bool := String.leb s t.
Definition str_ltb (s t : string) : bool := String.ltb s t.

(** ** Lemmas *)

Lemma str_app_cons c s t : String c s +:+ t = String c (s +:+ t).
Proof. reflexivity. Qed.

Lemma str_app_nil_l t : "" +:+ t = t.
Proof. reflexivity. Qed.

Lemma str_app_nil_r s : s +:+ "" = s.
Proof. induction s as [|c s IH]; [done|]. by rewrite str_app_cons, IH. Qed.

Lemma str_app_assoc s t u : s +:+ (t +:+ u) = (s +:+ t) +:+ u.
Proof. induction s as [|c s IH]; [done|]. by rewrite !str_app_cons, IH. Qed.

Lemma str_compare_trans_lt (s t u : string) :
  String.compare s t = Lt → String.compare t u = Lt → String.compare s u = Lt.
Proof.
  revert t u. induction s as [|a s IH]; intros [|b t] [|c u]; cbn; try done.
  unfold Ascii.compare.
  destruct (N.compare_spec (N_of_ascii a) (N_of_ascii b)) as [E1|E1|E1]; try done;
  destruct (N.compare_spec (N_of_ascii b) (N_of_ascii c)) as [E2|E2|E2]; try done;
  destruct (N.compare_spec (N_of_ascii a) (N_of_ascii c)) as [E3|E3|E3]; try done; try lia.
  eauto.
Qed.

Lemma str_compare_refl (s : string) : String.compare s s = Eq.
Proof. induction s as [|a s IH]; cbn; [done|]. unfold Ascii.compare. by rewrite N.compare_refl. Qed.

Lemma str_leb_spec (s t : string) :
  str_leb s t = true ↔ s = t ∨ String.compare s t = Lt.
Proof.
  unfold str_leb, String.leb. destruct (String.compare s t) eqn:E; split; auto.
  - intros _. left. by apply String.compare_eq_iff.
  - done.
  - intros [->|?]; [|done]. by rewrite str_compare_refl in E.
Qed.

Lemma str_leb_refl (s : string) : str_leb s s = true.
Proof. apply str_leb_spec. by left. Qed.

Lemma str_leb_total (s t : string) : str_leb s t = true ∨ str_leb t s = true.
Proof. apply String.leb_total. Qed.

Lemma str_leb_trans (s t u : string) :
  str_leb s t = true → str_leb t u = true → str_leb s u = true.
Proof.
  rewrite !str_leb_spec. intros [->|H1] [->|H2]; auto. right.
  by eapply str_compare_trans_lt.
Qed.

Lemma str_leb_antisym (s t : string) : str_leb s t = true → str_leb t s = true → s = t.
Proof. apply String.leb_antisym. Qed.

Lemma str_ltb_leb (s t : string) : str_ltb s t = negb (str_leb t s).
Proof.
  unfold str_ltb, str_leb, String.ltb, String.leb. rewrite (String.compare_antisym t s).
  by destruct (String.compare s t).
Qed.

#[export] Hint Resolve str_leb_refl str_leb_total str_leb_trans str_leb_antisym : cai.

(** [strip] returns a string that neither starts nor ends with white space. *)
Lemma rstrip_idem s : rstrip (rstrip s) = rstrip s.
Proof.
  induction s as [|c s IH]; cbn; [done|].
  destruct (rstrip s) as [|d r] eqn:E.
  - destruct (is_space c) eqn:Hc; cbn; [done|]. by rewrite Hc.
  - cbn in *. by rewrite IH.
Qed.

Lemma lstrip_idem s : lstrip (lstrip s) = lstrip s.
Proof. induction s as [|c s IH]; cbn; [done|]. destruct (is_space c) eqn:E; [done|]. cbn. by rewrite E. Qed.

Lemma lstrip_rstrip s : lstrip s = s → lstrip (rstrip s) = rstrip s.
Proof.
  destruct s as [|c s]; [done|]. cbn. destruct (is_space c) eqn:E.
  - intros H. exfalso. assert (∀ t, (String.length (lstrip t) ≤ String.length t)%nat) as Hl.
    { clear. induction t as [|c t IH]; cbn; [done|]. destruct (is_space c); cbn; lia. }
    specialize (Hl s). rewrite H in Hl. cbn in Hl. lia.
  - intros _. destruct (rstrip s); cbn; by rewrite E.
Qed.

Lemma strip_idem s : strip (strip s) = strip s.
Proof. unfold strip. rewrite lstrip_rstrip by apply lstrip_idem. apply rstrip_idem. Qed.

#[export] Hint Rewrite strip_idem rstrip_idem lstrip_idem : cai.

Lemma ascii_code_lt a : (N_of_ascii a < 256)%N.
Proof. destruct a as [[] [] [] [] [] [] [] []]; vm_compute; reflexivity. Qed.

Lemma lower_char_space c : is_space (lower_char c) = is_space c.
Proof. destruct c as [[] [] [] [] [] [] [] []]; reflexivity. Qed.

Lemma lower_char_idem c : lower_char (lower_char c) = lower_char c.
Proof. destruct c as [[] [] [] [] [] [] [] []]; reflexivity. Qed.

Lemma lower_idem s : lower (lower s) = lower s.
Proof. induction s as [|c s IH]; cbn; [done|]. by rewrite lower_char_idem, IH. Qed.

Lemma lstrip_lower s : lstrip (lower s) = lower (lstrip s).
Proof. induction s as [|c s IH]; cbn; [done|]. rewrite lower_char_space. by destruct (is_space c). Qed.

Lemma rstrip_lower s : rstrip (lower s) = lower (rstrip s).
Proof.
  induction s as [|c s IH]; cbn; [done|]. rewrite IH, lower_char_space.
  destruct (rstrip s); cbn; [|done]. by destruct (is_space c).
Qed.

Lemma strip_lower s : strip (lower s) = lower (strip s).
Proof. unfold strip. by rewrite lstrip_lower, rstrip_lower. Qed.

(** *** Printing and parsing decimal integers *)

Lemma digit_val_char d : 0 ≤ d < 10 → digit_val (digit_char d) = Some d.
Proof.
  intros Hd. assert (d ∈ seqZ 0 10) as Hin by (apply elem_of_seqZ; lia).
  revert Hin. vm_compute seqZ. intros Hin.
  repeat (apply elem_of_cons in Hin as [->|Hin]; [reflexivity|]). by apply elem_of_nil in Hin.
Qed.

(** All characters of a decimal rendering are digits. *)
Fixpoint all_digits (s : string) : bool :=
  match s with
  | EmptyString => true
  | String c s' => (if digit_val c is Some _ then true else false) && all_digits s'
  end.

Fixpoint digits_val (acc : Z) (s : string) : Z :=
  match s with
  | EmptyString => acc
  | String c s' => digits_val (10 * acc + default 0 (digit_val c)) s'
  end.

Lemma parse_digits_all acc s : all_digits s = true → parse_digits acc s = Some (digits_val acc s).
Proof.
  revert acc. induction s as [|c s IH]; intros acc; cbn; [done|].
  destruct (digit_val c) as [d|]; cbn; [|done]. apply IH.
Qed.

Lemma parse_unsigned_all s :
  s ≠ EmptyString → all_digits s = true → parse_unsigned s = Some (digits_val 0 s).
Proof.
  destruct s as [|c s]; [done|]. intros _. cbn.
  destruct (digit_val c) as [d|] eqn:E; cbn; [|done]. intros H.
  rewrite parse_digits_all by done. repeat f_equal. 
Qed.

Lemma digits_val_app acc s t : digits_val acc (s +:+ t) = digits_val (digits_val acc s) t.
Proof. revert acc. induction s as [|c s IH]; intros acc; [done|]. rewrite str_app_cons. apply IH. Qed.

Lemma all_digits_app s t : all_digits (s +:+ t) = all_digits s && all_digits t.
Proof. induction s as [|c s IH]; [done|]. rewrite str_app_cons. cbn. by rewrite IH, andb_assoc. Qed.

Lemma digits_val_pow acc s :
  digits_val acc s = acc * 10 ^ Z.of_nat (String.length s) + digits_val 0 s.
Proof.
  revert acc. induction s as [|c s IH]; intros acc; [cbn; lia|].
  assert (String.length (String c s) = S (String.length s)) as -> by done.
  rewrite Nat2Z.inj_succ, Z.pow_succ_r by lia.
  cbn [digits_val]. rewrite IH, (IH (10 * 0 + _)). lia.
Qed.

Lemma digits_fuel_spec fuel n acc :
  0 ≤ n → (n < 2 ^ Z.of_nat fuel) → (0 < fuel)%nat →
  ∃ p, digits_fuel fuel n acc = p +:+ acc ∧ all_digits p = true ∧ digits_val 0 p = n ∧
       p ≠ EmptyString ∧ (0 < n → ∃ c p', p = String c p' ∧ digit_val c ≠ Some 0).
Proof.
  revert n acc. induction fuel as [|fuel IH]; intros n acc Hn Hlt Hf; [lia|].
  cbn [digits_fuel].
  assert (0 ≤ n mod 10 < 10) as Hm by (apply Z.mod_pos_bound; lia).
  destruct (Z.eqb_spec (n / 10) 0) as [E|E].
  - exists (String (digit_char (n mod 10)) EmptyString). cbn.
    rewrite digit_val_char by done. split_and!; try done.
    + cbn. pose proof (Z.div_mod n 10 ltac:(lia)). lia.
    + intros Hpos. eexists _, _. split; [done|]. rewrite digit_val_char by done. intros [= Hz].
      pose proof (Z.div_mod n 10 ltac:(lia)). lia.
  - assert (0 < n / 10) by (pose proof (Z.div_pos n 10); lia).
    assert (n / 10 < 2 ^ Z.of_nat fuel) as Hlt'.
    { rewrite Nat2Z.inj_succ, Z.pow_succ_r in Hlt by lia.
      apply Z.div_lt_upper_bound; lia. }
    assert (0 < fuel)%nat as Hf'. { destruct fuel; [cbn in Hlt'|]; lia. }
    destruct (IH (n / 10) (String (digit_char (n mod 10)) acc)) as (p & Hp & Hd & Hv & Hne & Hnz);
      [lia|done|done|].
    exists (p +:+ String (digit_char (n mod 10)) EmptyString). split_and!.
    + by rewrite Hp, <- str_app_assoc, str_app_cons, str_app_nil_l.
    + rewrite all_digits_app, Hd. cbn. by rewrite digit_val_char by done.
    + rewrite digits_val_app, Hv. cbn. rewrite digit_val_char by done. cbn.
      pose proof (Z.div_mod n 10 ltac:(lia)). lia.
    + by destruct p.
    + intros _. destruct Hnz as (c & p' & -> & Hc); [done|]. by eexists _, _.
Qed.

Lemma str_of_nonneg_spec n :
  0 ≤ n → all_digits (str_of_nonneg n) = true ∧ digits_val 0 (str_of_nonneg n) = n ∧
          str_of_nonneg n ≠ EmptyString.
Proof.
  intros Hn. unfold str_of_nonneg.
  destruct (digits_fuel_spec (S (Z.to_nat (Z.log2 n))) n "") as (p & -> & ? & ? & ? & _); [done| |lia|].
  - rewrite Nat2Z.inj_succ, Z2Nat.id by apply Z.log2_nonneg.
    destruct (decide (n = 0)) as [->|]; [done|]. apply Z.log2_spec. lia.
  - by rewrite str_app_nil_r.
Qed.

Lemma all_digits_strip s : all_digits s = true → strip s = s.
Proof.
  assert (∀ c d, digit_val c = Some d → is_space c = false) as Hsp.
  { intros c d. unfold digit_val, is_space. intros H. case_in H; [|done]. bool_to_prop. lia. }
  intros Hs. unfold strip. assert (lstrip s = s) as ->.
  { destruct s as [|c s]; [done|]. cbn in *. destruct (digit_val c) eqn:E; [|done]. by erewrite Hsp. }
  induction s as [|c s IH]; [done|]. cbn in *. destruct (digit_val c) eqn:E; [|done].
  rewrite IH by done. destruct s; [|done]. by erewrite Hsp.
Qed.

Lemma digit_not_sign c d : digit_val c = Some d → Ascii.eqb c "-"%char = false ∧ Ascii.eqb c "+"%char = false.
Proof. destruct c as [[] [] [] [] [] [] [] []]; vm_compute; naive_solver. Qed.

Lemma int_of_digits s :
  s ≠ EmptyString → all_digits s = true → int_of_str s = Some (digits_val 0 s).
Proof.
  intros Hne Hd. unfold int_of_str. rewrite all_digits_strip by done.
  pose proof (parse_unsigned_all s Hne Hd) as Hp.
  destruct s as [|c s]; [done|]. cbn in Hd. destruct (digit_val c) as [d|] eqn:E; [|done].
  destruct (digit_not_sign c d E) as [-> ->]. done.
Qed.

(** [int(str(n)) == n]. *)
Lemma int_of_str_of_Z n : int_of_str (str_of_Z n) = Some n.
Proof.
  unfold str_of_Z. destruct (Z.ltb_spec n 0).
  - destruct (str_of_nonneg_spec (- n)) as (Hd & Hv & Hne); [lia|].
    revert Hd Hv Hne. generalize (str_of_nonneg (- n)). intros s Hd Hv Hne.
    assert (rstrip s = s) as Hs.
    { pose proof (all_digits_strip s Hd) as Hs. unfold strip in Hs. by rewrite <- Hs, rstrip_idem. }
    unfold int_of_str, strip. change (lstrip (String "-" s)) with (String "-" s).
    cbn [rstrip]. rewrite Hs. destruct s as [|c s]; [done|].
    rewrite Ascii.eqb_refl, parse_unsigned_all, Hv by done. cbn. f_equal. lia.
  - destruct (str_of_nonneg_spec n) as (Hd & Hv & Hne); [lia|].
    rewrite int_of_digits by done. by rewrite Hv.
Qed.

Lemma repeat_char_zero_spec n :
  all_digits (repeat_char "0" n) = true ∧ digits_val 0 (repeat_char "0" n) = 0.
Proof. induction n as [|n IH]; cbn in *; naive_solver. Qed.

Lemma zfill_spec w n :
  0 ≤ n → all_digits (zfill w n) = true ∧ digits_val 0 (zfill w n) = n ∧ zfill w n ≠ EmptyString.
Proof.
  intros Hn. destruct (str_of_nonneg_spec n Hn) as (Hd & Hv & Hne). unfold zfill.
  set (k := (w - String.length _)%nat). destruct (repeat_char_zero_spec k) as [H1 H2].
  rewrite all_digits_app, digits_val_app, H1, H2. split_and!; [done|done|].
  destruct k; cbn; [by rewrite str_app_nil_l|done].
Qed.

Lemma str_length_app s t : String.length (s +:+ t) = (String.length s + String.length t)%nat.
Proof. induction s as [|c s IH]; [done|]. rewrite str_app_cons. cbn. by rewrite IH. Qed.

Lemma repeat_char_length c n : String.length (repeat_char c n) = n.
Proof. induction n as [|n IH]; cbn; [done|]. by rewrite IH. Qed.

Lemma take_str_all n s : (String.length s ≤ n)%nat → take_str n s = s.
Proof. revert n. induction s as [|c s IH]; intros [|n]; cbn; intros H; try done; try lia. by rewrite IH by lia. Qed.

Lemma take_str_app_l n s t : String.length s = n → take_str n (s +:+ t) = s.
Proof. intros <-. induction s as [|c s IH]; [by destruct t|]. rewrite str_app_cons. cbn. by rewrite IH. Qed.

(** ** Characters of a string *)

(** [fragment in s] *)
Fixpoint contains (fragment s : string) : bool :=
  startswith fragment s || match s with EmptyString => false | String _ s' => contains fragment s' end.

(** [all(p(ch) for ch in s)] *)
Fixpoint all_chars (p : ascii → bool) (s : string) : bool :=
  match s with EmptyString => true | String c s' => p c && all_chars p s' end.

Definition not_space (c : ascii) : bool := negb (is_space c).
Definition plain (c : ascii) : bool := negb (is_space c) && Ascii.eqb (lower_char c) c.

Lemma all_chars_app p s t : all_chars p (s +:+ t) = all_chars p s && all_chars p t.
Proof. induction s as [|c s IH]; [done|]. rewrite str_app_cons. cbn. by rewrite IH, andb_assoc. Qed.

Lemma all_chars_take p n s : all_chars p s = true → all_chars p (take_str n s) = true.
Proof.
  revert n. induction s as [|c s IH]; intros [|n]; [done..|]. cbn. rewrite !andb_true_iff.
  intros [Hc Hs]. split; [done|]. by apply IH.
Qed.

Lemma all_chars_weaken (p q : ascii → bool) s :
  (∀ c, p c = true → q c = true) → all_chars p s = true → all_chars q s = true.
Proof. intros Hpq. induction s; cbn; [done|]. rewrite !andb_true_iff. intuition. Qed.

Lemma strip_no_space s : all_chars not_space s = true → strip s = s.
Proof.
  intros Hs. unfold strip. assert (lstrip s = s) as ->.
  { destruct s as [|c s]; [done|]. cbn in *. unfold not_space in Hs. bool_to_prop. by destruct (is_space c). }
  induction s as [|c s IH]; [done|]. cbn in *. unfold not_space at 1 in Hs. bool_to_prop.
  rewrite IH by done. destruct (is_space c); [done|]. by destruct s.
Qed.

Lemma lower_plain s : all_chars plain s = true → lower s = s.
Proof.
  induction s as [|c s IH]; cbn; [done|]. unfold plain at 1. intros Hs. bool_to_prop.
  rewrite IH by done. f_equal. by apply Ascii.eqb_eq.
Qed.

Lemma plain_not_space s : all_chars plain s = true → all_chars not_space s = true.
Proof. apply all_chars_weaken. unfold plain, not_space. by intros c [Hc _]%andb_true_iff. Qed.
