(* ===== verification/PyVal.v ===== *)
(** * Python values of JSON documents

    The dynamically typed values that the chain layer reads from and writes to its JSON
    files and peer payloads ([dict[str, Any]] in the sources): [None], [bool], [int],
    [str], [list] and [dict] with string keys in insertion order.  JSON numbers are
    integers: the payloads modelled here carry atomic (integer) amounts.  The module also
    gives [json.dumps(..., sort_keys=True, separators=(",", ":"), ensure_ascii=False)],
    the canonical form every hash and signature of the program is computed over. *)
From Stdlib Require Import Ascii.
From S2P Require Import Prelude.
From S2P Require Import PyStr.
Local Open Scope Z_scope.

#[warnings="-register-all"]
Inductive pyval : Type :=
| VNone
| VBool (b : bool)
| VInt (z : Z)
| VStr (s : string)
| VList (l : list pyval)
| VDict (d : list (string * pyval)).

(** Induction over nested lists and dictionaries. *)
Lemma pyval_ind' (P : pyval → Prop) :
  P VNone → (∀ b, P (VBool b)) → (∀ z, P (VInt z)) → (∀ s, P (VStr s)) →
  (∀ l, Forall P l → P (VList l)) →
  (∀ d, Forall (λ kv, P kv.2) d → P (VDict d)) →
  ∀ v, P v.
Proof.
  intros Hn Hb Hi Hs Hl Hd. fix IH 1.
  intros [|b|z|s|l|d]; [exact Hn|apply Hb|apply Hi|apply Hs| |].
  - apply Hl. induction l as [|x l IHl]; constructor; [apply IH|exact IHl].
  - apply Hd. induction d as [|[k x] d IHd]; constructor; [apply IH|exact IHd].
Qed.

Fixpoint pyval_eqb (v w : pyval) {struct v} : bool :=
  match v, w with
  | VNone, VNone => true
  | VBool b, VBool c => Bool.eqb b c
  | VInt x, VInt y => Z.eqb x y
  | VStr s, VStr t => String.eqb s t
  | VList l, VList m =>
      (fix go (l m : list pyval) : bool :=
         match l, m with
         | [], [] => true
         | x :: l', y :: m' => pyval_eqb x y && go l' m'
         | _, _ => false
         end) l m
  | VDict d, VDict e =>
      (fix go (d e : list (string * pyval)) : bool :=
         match d, e with
         | [], [] => true
         | (k, x) :: d', (k', y) :: e' => String.eqb k k' && pyval_eqb x y && go d' e'
         | _, _ => false
         end) d e
  | _, _ => false
  end.

Lemma pyval_eqb_eq v w : pyval_eqb v w = true ↔ v = w.
Proof.
  revert w. induction v as [|b|z|s|l IH|d IH] using pyval_ind'; intros [|c|y|t|m|e]; cbn;
    try (split; congruence).
  - rewrite Bool.eqb_true_iff. split; congruence.
  - rewrite Z.eqb_eq. split; congruence.
  - rewrite String.eqb_eq. split; congruence.
  - revert m. induction IH as [|x l Hx Hl IHl]; intros [|y m]; try (split; congruence).
    rewrite andb_true_iff, Hx, IHl. split; [intros [-> [= ->]]|intros [= -> ->]]; done.
  - revert e. induction IH as [|[k x] d Hx Hd IHd]; intros [|[k' y] e]; try (split; congruence).
    cbn in Hx. rewrite !andb_true_iff, String.eqb_eq, Hx, IHd.
    split; [intros [[-> ->] [= ->]]|intros [= -> -> ->]]; done.
Qed.

#[export] Instance pyval_eq_dec : EqDecision pyval.
Proof.
  intros v w. destruct (pyval_eqb v w) eqn:E; [left|right].
  - by apply pyval_eqb_eq.
  - intros H. apply pyval_eqb_eq in H. congruence.
Defined.

Abbreviation pydict := (list (string * pyval)) (only parsing).

(** ** Dictionaries *)

Fixpoint dlookup (k : string) (d : pydict) : option pyval :=
  match d with
  | [] => None
  | (k', v) :: d' => if String.eqb k k' then Some v else dlookup k d'
  end.

(** [d.get(k)] *)
Definition dget (k : string) (d : pydict) : pyval := default VNone (dlookup k d).

(** [k in d] *)
Definition dmem (k : string) (d : pydict) : bool :=
  match dlookup k d with Some _ => true | None => false end.

(** [d[k] = v]: in place when the key is present, appended otherwise. *)
Fixpoint dset (k : string) (v : pyval) (d : pydict) : pydict :=
  match d with
  | [] => [(k, v)]
  | (k', v') :: d' => if String.eqb k k' then (k, v) :: d' else (k', v') :: dset k v d'
  end.

(** [d.pop(k, None)] *)
Definition dpop (k : string) (d : pydict) : pydict :=
  filter (λ kv, negb (String.eqb k kv.1)) d.

(** [isinstance(v, dict)] and its payload. *)
Definition as_dict (v : pyval) : option pydict :=
  match v with VDict d => Some d | _ => None end.

Definition as_list (v : pyval) : option (list pyval) :=
  match v with VList l => Some l | _ => None end.

(** ** Truth value, [or], [str()] and [int()] *)

Definition truthy (v : pyval) : bool :=
  match v with
  | VNone => false
  | VBool b => b
  | VInt z => negb (z =? 0)
  | VStr s => negb (String.eqb s "")
  | VList l => match l with [] => false | _ => true end
  | VDict d => match d with [] => false | _ => true end
  end.

(** [v or w] *)
Definition py_or (v w : pyval) : pyval := if truthy v then v else w.

Fixpoint join (sep : string) (l : list string) : string :=
  match l with
  | [] => ""
  | [s] => s
  | s :: l' => s +:+ sep +:+ join sep l'
  end.

Definition hex_digit (d : Z) : ascii :=
  if d <? 10 then ascii_of_N (Z.to_N (d + 48)) else ascii_of_N (Z.to_N (d + 87)).

Definition hex2 (n : Z) : string :=
  String (hex_digit (n / 16)) (String (hex_digit (n mod 16)) "").

(** [repr(str)]: the quote is the single one unless the string has a single quote and no
    double quote. *)
Definition quote1 : ascii := "'"%char.
Definition quote2 : ascii := ascii_of_N 34.
Definition backslash : ascii := ascii_of_N 92.

Fixpoint has_char (c : ascii) (s : string) : bool :=
  match s with
  | EmptyString => false
  | String d s' => Ascii.eqb c d || has_char c s'
  end.

Definition repr_char (q c : ascii) : string :=
  let n := code c in
  if Ascii.eqb c q || Ascii.eqb c backslash then String backslash (String c "")
  else if n =? 9 then String backslash "t"
  else if n =? 10 then String backslash "n"
  else if n =? 13 then String backslash "r"
  else if (n <? 32) || (n =? 127) then String backslash ("x" +:+ hex2 n)
  else String c "".

Fixpoint repr_body (q : ascii) (s : string) : string :=
  match s with
  | EmptyString => ""
  | String c s' => repr_char q c +:+ repr_body q s'
  end.

Definition repr_str (s : string) : string :=
  let q := if has_char quote1 s && negb (has_char quote2 s) then quote2 else quote1 in
  String q (repr_body q s +:+ String q "").

Fixpoint py_repr (v : pyval) : string :=
  match v with
  | VNone => "None"
  | VBool true => "True"
  | VBool false => "False"
  | VInt z => str_of_Z z
  | VStr s => repr_str s
  | VList l => "[" +:+ join ", " (map py_repr l) +:+ "]"
  | VDict d =>
      "{" +:+ join ", " (map (λ kv, repr_str kv.1 +:+ ": " +:+ py_repr kv.2) d) +:+ "}"
  end.

(** [str(v)] *)
Definition py_str (v : pyval) : string :=
  match v with VStr s => s | _ => py_repr v end.

(** [int(v)] *)
Definition py_int (v : pyval) : result Z :=
  match v with
  | VInt z => Ok z
  | VBool b => Ok (if b then 1 else 0)
  | VStr s =>
      match int_of_str s with
      | Some z => Ok z
      | None =>
          Err (ValueError ("invalid literal for int() with base 10: " +:+ repr_str s))
      end
  | _ => Err TypeError
  end.

(** [str(v or "").strip()] *)
Definition str_or_strip (v : pyval) : string := strip (py_str (py_or v (VStr ""))).

(** ** Canonical JSON *)

Definition json_char (c : ascii) : string :=
  let n := code c in
  if Ascii.eqb c quote2 || Ascii.eqb c backslash then String backslash (String c "")
  else if n =? 8 then String backslash "b"
  else if n =? 9 then String backslash "t"
  else if n =? 10 then String backslash "n"
  else if n =? 12 then String backslash "f"
  else if n =? 13 then String backslash "r"
  else if n <? 32 then String backslash ("u00" +:+ hex2 n)
  else String c "".

Fixpoint json_body (s : string) : string :=
  match s with
  | EmptyString => ""
  | String c s' => json_char c +:+ json_body s'
  end.

Definition json_str (s : string) : string := String quote2 (json_body s +:+ String quote2 "").

Definition key_leb {A} (x y : string * A) : bool := str_leb x.1 y.1.

Fixpoint canonical (v : pyval) : string :=
  match v with
  | VNone => "null"
  | VBool true => "true"
  | VBool false => "false"
  | VInt z => str_of_Z z
  | VStr s => json_str s
  | VList l => "[" +:+ join "," (map canonical l) +:+ "]"
  | VDict d =>
      "{" +:+
      join "," (map (λ kt : string * string, json_str kt.1 +:+ ":" +:+ kt.2)
                    (py_sorted key_leb (map (λ kv, (kv.1, canonical kv.2)) d)))
      +:+ "}"
  end.

(** ** Conversions to containers *)

Fixpoint chars (s : string) : list pyval :=
  match s with EmptyString => [] | String c s' => VStr (String c "") :: chars s' end.

(** [list(v)] *)
Definition py_list (v : pyval) : result (list pyval) :=
  match v with
  | VList l => Ok l
  | VDict d => Ok (map (λ kv, VStr kv.1) d)
  | VStr s => Ok (chars s)
  | _ => Err TypeError
  end.

(** An item of a sequence given to [dict()]: a pair with a string key. *)
Definition pair_item (v : pyval) : result (string * pyval) :=
  match v with
  | VList [VStr k; x] => Ok (k, x)
  | VStr (String a (String b EmptyString)) => Ok (String a "", VStr (String b ""))
  | VList _ | VStr _ | VDict _ => Err (ValueError "dictionary update sequence element")
  | _ => Err TypeError
  end.

(** [dict(v)] *)
Definition py_dict (v : pyval) : result pydict :=
  match v with
  | VDict d => Ok d
  | VList l =>
      kvs ← mapM_r pair_item l; Ok (foldl (λ d kv, dset kv.1 kv.2 d) [] kvs)
  | VStr EmptyString => Ok []
  | VStr _ => Err (ValueError "dictionary update sequence element")
  | _ => Err TypeError
  end.

(** [d[k]] *)
Definition dindex (k : string) (d : pydict) : result pyval :=
  match dlookup k d with Some v => Ok v | None => Err (KeyError k) end.

Definition is_none (v : pyval) : bool := match v with VNone => true | _ => false end.

(** [int(d.get(k) or 0)] *)
Definition int_field (k : string) (d : pydict) : result Z := py_int (py_or (dget k d) (VInt 0)).

(** [d.get(k1) or d.get(k2)] *)
Definition either (k1 k2 : string) (d : pydict) : pyval := py_or (dget k1 d) (dget k2 d).

(** ** Dictionary lemmas *)

Lemma dlookup_nodup (d : pydict) k v : NoDup d.*1 → (k, v) ∈ d → dlookup k d = Some v.
Proof.
  induction d as [|[k' v'] d IH]; cbn; [intros _ H; by apply elem_of_nil in H|].
  rewrite NoDup_cons, elem_of_cons. intros [Hk Hd] [[= -> ->]|Hin]; [by rewrite String.eqb_refl|].
  destruct (String.eqb_spec k k') as [->|]; [|by apply IH].
  destruct Hk. apply list_elem_of_fmap. by exists (k', v).
Qed.

Lemma dlookup_None (d : pydict) k : k ∉ d.*1 → dlookup k d = None.
Proof.
  induction d as [|[k' v'] d IH]; cbn; [done|]. rewrite not_elem_of_cons. intros [Hne Hin].
  destruct (String.eqb_spec k k'); [done|]. by apply IH.
Qed.
