(* ===== verification/Sha256.v ===== *)
(** * SHA-256

    [hashlib.sha256] on a byte string, with [hexdigest].  Words are integers in
    [0, 2^32), additions reduced modulo [2^32]. *)
From Stdlib Require Import Ascii.
From S2P Require Import Prelude.
From S2P Require Import PyStr.
From S2P Require Import PyVal.
Local Open Scope Z_scope.

Definition w32 (x : Z) : Z := Z.land x 4294967295.

Definition rotr (n x : Z) : Z := Z.lor (Z.shiftr x n) (w32 (Z.shiftl x (32 - n))).

Definition K256 : list Z :=
  [1116352408; 1899447441; 3049323471; 3921009573; 961987163; 1508970993; 2453635748;
   2870763221; 3624381080; 310598401; 607225278; 1426881987; 1925078388; 2162078206;
   2614888103; 3248222580; 3835390401; 4022224774; 264347078; 604807628; 770255983;
   1249150122; 1555081692; 1996064986; 2554220882; 2821834349; 2952996808; 3210313671;
   3336571891; 3584528711; 113926993; 338241895; 666307205; 773529912; 1294757372;
   1396182291; 1695183700; 1986661051; 2177026350; 2456956037; 2730485921; 2820302411;
   3259730800; 3345764771; 3516065817; 3600352804; 4094571909; 275423344; 430227734;
   506948616; 659060556; 883997877; 958139571; 1322822218; 1537002063; 1747873779;
   1955562222; 2024104815; 2227730452; 2361852424; 2428436474; 2756734187; 3204031479;
   3329325298].

Definition H256 : list Z :=
  [1779033703; 3144134277; 1013904242; 2773480762; 1359893119; 2600822924; 528734635;
   1541459225].

Fixpoint bytes_of_str (s : string) : list Z :=
  match s with EmptyString => [] | String c s' => code c :: bytes_of_str s' end.

(** Big-endian bytes of a 64-bit length. *)
Definition be64 (n : Z) : list Z :=
  map (λ i, Z.land (Z.shiftr n (8 * i)) 255) [7; 6; 5; 4; 3; 2; 1; 0].

Definition pad (m : list Z) : list Z :=
  let l := Z.of_nat (length m) in
  m ++ [128] ++ replicate (Z.to_nat ((55 - l) mod 64)) 0 ++ be64 (8 * l).

Fixpoint words (l : list Z) : list Z :=
  match l with
  | a :: b :: c :: d :: l' =>
      (Z.shiftl a 24 + Z.shiftl b 16 + Z.shiftl c 8 + d) :: words l'
  | _ => []
  end.

Definition ssig0 x := Z.lxor (Z.lxor (rotr 7 x) (rotr 18 x)) (Z.shiftr x 3).
Definition ssig1 x := Z.lxor (Z.lxor (rotr 17 x) (rotr 19 x)) (Z.shiftr x 10).
Definition bsig0 x := Z.lxor (Z.lxor (rotr 2 x) (rotr 13 x)) (rotr 22 x).
Definition bsig1 x := Z.lxor (Z.lxor (rotr 6 x) (rotr 11 x)) (rotr 25 x).

(** The message schedule, newest word first. *)
Fixpoint schedule (n : nat) (w : list Z) : list Z :=
  match n with
  | O => w
  | S n' =>
      schedule n'
        (w32 (ssig1 (nth 1 w 0) + nth 6 w 0 + ssig0 (nth 14 w 0) + nth 15 w 0) :: w)
  end.

Definition round (st : Z * Z * Z * Z * Z * Z * Z * Z) (kw : Z * Z) :=
  let '(a, b, c, d, e, f, g, h) := st in
  let ch := Z.lxor (Z.land e f) (Z.land (4294967295 - e) g) in
  let maj := Z.lxor (Z.lxor (Z.land a b) (Z.land a c)) (Z.land b c) in
  let t1 := h + bsig1 e + ch + kw.1 + kw.2 in
  let t2 := bsig0 a + maj in
  (w32 (t1 + t2), a, b, c, w32 (d + t1), e, f, g).

Definition compress (h : list Z) (block : list Z) : list Z :=
  match h with
  | [a; b; c; d; e; f; g; i] =>
      let w := rev (schedule 48 (rev block)) in
      let '(a', b', c', d', e', f', g', i') :=
        fold_left round (zip K256 w) (a, b, c, d, e, f, g, i) in
      map w32 [a + a'; b + b'; c + c'; d + d'; e + e'; f + f'; g + g'; i + i']
  | _ => h
  end.

Fixpoint blocks_of (n : nat) (l : list Z) : list (list Z) :=
  match n with
  | O => []
  | S n' => take 16 l :: blocks_of n' (drop 16 l)
  end.

Definition sha256_words (m : list Z) : list Z :=
  let w := words (pad m) in
  fold_left compress (blocks_of (length w `div` 16) w) H256.

Definition hex32 (x : Z) : string :=
  hex2 (Z.land (Z.shiftr x 24) 255) +:+ hex2 (Z.land (Z.shiftr x 16) 255) +:+
  hex2 (Z.land (Z.shiftr x 8) 255) +:+ hex2 (Z.land x 255).

(** [hashlib.sha256(s.encode("utf-8")).hexdigest()] *)
Definition sha256_hexdigest (s : string) : string :=
  String.concat "" (map hex32 (sha256_words (bytes_of_str s))).

(** The FIPS 180-2 test vectors. *)
Example sha256_empty :
  sha256_hexdigest "" = "e3b0c44298fc1c149afbf4c8996fb92427ae41e4649b934ca495991b7852b855".
Proof. vm_compute. reflexivity. Qed.

Example sha256_abc :
  sha256_hexdigest "abc" = "ba7816bf8f01cfea414140de5dae2223b00361a396177a9cb410ff61f20015ad".
Proof. vm_compute. reflexivity. Qed.

Example sha256_two_blocks :
  sha256_hexdigest "abcdbcdecdefdefgefghfghighijhijkijkljklmklmnlmnomnopnopq" =
  "248d6a61d20638b8e5c026930c3e6039a33ce45964ff2167f6ecedd419db06c1".
Proof. vm_compute. reflexivity. Qed.

(** A digest is never blank: it starts with a hexadecimal digit. *)

Lemma hex_digit_not_space d : 0 ≤ d < 16 → is_space (hex_digit d) = false.
Proof.
  intros Hd. assert (∀ k : nat, (k < 16)%nat → is_space (hex_digit (Z.of_nat k)) = false) as Hk.
  { intros k Hk. do 16 (destruct k as [|k]; [reflexivity|]). lia. }
  specialize (Hk (Z.to_nat d) ltac:(lia)). by rewrite Z2Nat.id in Hk by lia.
Qed.

Lemma compress_length h b : length (compress h b) = length h.
Proof.
  unfold compress. do 8 (destruct h as [|? h]; [done|]). destruct h; [|done].
  by destruct (fold_left _ _ _) as [[[[[[[? ?] ?] ?] ?] ?] ?] ?].
Qed.

Lemma sha256_words_length m : length (sha256_words m) = 8%nat.
Proof.
  unfold sha256_words. generalize (blocks_of (length (words (pad m)) `div` 16) (words (pad m))).
  intros l. assert (∀ h, length (fold_left compress l h) = length h) as Hf.
  { induction l as [|b l IH]; intros h; cbn; [done|]. by rewrite IH, compress_length. }
  by rewrite Hf.
Qed.

Lemma rstrip_nonempty c s : is_space c = false → rstrip (String c s) ≠ "".
Proof. intros Hc. cbn. rewrite Hc. by destruct (rstrip s). Qed.

Lemma sha256_head s : ∃ c t, sha256_hexdigest s = String c t ∧ is_space c = false.
Proof.
  unfold sha256_hexdigest. pose proof (sha256_words_length (bytes_of_str s)) as Hl.
  destruct (sha256_words _) as [|w ws]; [done|]. cbn [map].
  assert (∃ c t, hex32 w = String c t ∧ is_space c = false) as (c & t & Hw & Hc).
  { unfold hex32, hex2. rewrite str_app_cons. eexists _, _. split; [done|].
    apply hex_digit_not_space. change 255 with (Z.ones 8). rewrite Z.land_ones by lia.
    pose proof (Z.mod_pos_bound (Z.shiftr w 24) (2 ^ 8) ltac:(lia)).
    change (2 ^ 8) with 256 in *. Z.to_euclidean_division_equations; lia. }
  exists c. destruct (map hex32 ws) as [|y l] eqn:E; cbn [String.concat].
  - by exists t.
  - rewrite Hw. eexists. split; [reflexivity|done].
Qed.

Lemma sha256_not_blank s : String.eqb (strip (sha256_hexdigest s)) "" = false.
Proof.
  destruct (sha256_head s) as (c & t & -> & Hc). apply String.eqb_neq. unfold strip. cbn [lstrip].
  rewrite Hc. by apply rstrip_nonempty.
Qed.

Lemma sha256_nonempty s : sha256_hexdigest s ≠ "".
Proof. destruct (sha256_head s) as (c & t & -> & _). done. Qed.
