(* ===== verification/Doubles.v ===== *)
(** * Binary64 arithmetic

    What the sources compute with Python's floats: the quotient of two integers and the
    product of a float and an integer, rounded to 53 significant bits with ties to even, and
    the text of a float.  A finite float is the rational it stands for.  Subnormal numbers do
    not occur for the operands that are modelled (bytes of memory, counts of layers, amounts). *)
From Stdlib Require Import QArith Qabs Ascii.
From S2P Require Import Prelude.
From S2P Require Import PyStr.
Local Open Scope Z_scope.
Set Default Proof Using "Type".

(** The quotient of two positive integers, scaled by the power of two that leaves it at least
    53 bits: [a / b = (n / d) * 2^e]. *)
Definition scaled (a b e : Z) : Z * Z :=
  if 0 <=? e then (a, Z.shiftl b e) else (Z.shiftl a (- e), b).

Definition quotient_exponent (a b : Z) : Z :=
  let e0 := Z.log2 a - Z.log2 b - 52 in
  let '(n0, d0) := scaled a b e0 in
  if n0 / d0 <? 2 ^ 52 then e0 - 1 else e0.

(** The nearest integer to [n / d], ties to even. *)
Definition round_half_even (n d : Z) : Z :=
  let q := n / d in
  let r := n mod d in
  if (d <? 2 * r) || ((2 * r =? d) && Z.odd q) then q + 1 else q.

Definition pow2_mul (m e : Z) : Q :=
  if 0 <=? e then inject_Z (Z.shiftl m e) else (m # Z.to_pos (Z.shiftl 1 (- e)))%Q.

(** [a / b] of two positive integers. *)
Definition true_div (a b : Z) : Q :=
  let e := quotient_exponent a b in
  let '(n, d) := scaled a b e in
  pow2_mul (round_half_even n d) e.

(** [a / b] of any integer and a positive one. *)
Definition double_div (a b : Z) : Q :=
  if a =? 0 then 0%Q else if 0 <? a then true_div a b else Qopp (true_div (- a) b).

(** [f * n] of a float and an integer, which is converted first. *)
Definition double_mul (x y : Q) : Q := double_div (Qnum x * Qnum y) (Zpos (Qden x * Qden y)).
Definition double_of_Z (n : Z) : Q := double_div n 1.
Definition double_of_Q (x : Q) : Q := double_div (Qnum x) (Zpos (Qden x)).
Definition double_mul_Z (f : Q) (n : Z) : Q := double_mul f (double_of_Z n).

Definition double_add (x y : Q) : Q := double_of_Q (x + y).
Definition double_sub (x y : Q) : Q := double_of_Q (x - y).

(** [sum] of a list of floats, compensated as Python 3.12 and later compute it. *)
Definition sum_step (st : Q * Q) (x : Q) : Q * Q :=
  let '(f, c) := st in
  let t := double_add f x in
  let lost :=
    if Qle_bool (Qabs x) (Qabs f) then double_add (double_sub f t) x
    else double_add (double_sub x t) f in
  (t, double_add c lost).
Definition sum_floats (l : list Q) : Q :=
  let '(f, c) := foldl sum_step (0%Q, 0%Q) l in double_add f c.

(** [int(x)]: towards zero. *)
Definition int_of (x : Q) : Z := Z.quot (Qnum x) (Zpos (Qden x)).

(** [round(x)] *)
Definition round_of (x : Q) : Z := round_half_even (Qnum x) (Zpos (Qden x)).

(** ** [float(s)] *)

Inductive py_float := Fin (x : Q) | Inf (negative : bool) | NaN.

Fixpoint split_once (c : ascii) (s : string) : string * option string :=
  match s with
  | "" => ("", None)
  | String a s' =>
      if Ascii.eqb a c then ("", Some s')
      else let '(l, r) := split_once c s' in (String a l, r)
  end.

Fixpoint count_digits (s : string) : Z :=
  match s with
  | "" => 0
  | String c s' => match digit_val c with Some _ => 1 | None => 0 end + count_digits s'
  end.

(** An integer or fraction part, which may be missing. *)
Definition float_part (s : option string) : option (Z * Z) :=
  match s with
  | None | Some "" => Some (0, 0)
  | Some s => v ← parse_unsigned s; Some (v, count_digits s)
  end.

Definition float_exponent (s : option string) : option Z :=
  match s with
  | None => Some 0
  | Some (String c s' as s) =>
      if Ascii.eqb c "-"%char then Z.opp <$> parse_unsigned s'
      else if Ascii.eqb c "+"%char then parse_unsigned s'
      else parse_unsigned s
  | Some "" => None
  end.

(** A number without a sign, in lower case. *)
Definition unsigned_float (s : string) : option Q :=
  let '(mantissa, ex) := split_once "e"%char s in
  let '(int_part, frac_part) := split_once "."%char mantissa in
  '(i, ni) ← float_part (Some int_part);
  '(f, nf) ← float_part frac_part;
  e ← float_exponent ex;
  if (ni =? 0) && (nf =? 0) then None
  else
    let m := i * 10 ^ nf + f in
    let e := e - nf in
    Some (if 0 <=? e then double_div (m * 10 ^ e) 1 else double_div m (10 ^ (- e))).

Definition signed_float (negative : bool) (s : string) : option py_float :=
  if String.eqb s "inf" || String.eqb s "infinity" then Some (Inf negative)
  else if String.eqb s "nan" then Some NaN
  else
    x ← unsigned_float s;
    Some (if Qle_bool (inject_Z (2 ^ 1024)) x then Inf negative
          else Fin (if negative then Qopp x else x)).

(** [float(s)]; [None] is the [ValueError]. *)
Definition float_of_str (s : string) : option py_float :=
  match lower (strip s) with
  | "" => None
  | String c s' as s =>
      if Ascii.eqb c "-"%char then signed_float true s'
      else if Ascii.eqb c "+"%char then signed_float false s'
      else signed_float false s
  end.

(** Ten tenths are one; added one by one they are not. *)
Example sum_floats_demo :
  let tenths := repeat (double_div 1 10) 10 in
  Qeq_bool (sum_floats tenths) 1 = true ∧ Qeq_bool (foldl double_add 0%Q tenths) 1 = false.
Proof. vm_compute. split; reflexivity. Qed.

Example float_of_str_demo :
  float_of_str " 1_5.25e1 " = Some (Fin (double_div 1525 10)) ∧ float_of_str "." = None
  ∧ float_of_str "-Infinity" = Some (Inf true) ∧ float_of_str "1e400" = Some (Inf false)
  ∧ float_of_str "e5" = None ∧ float_of_str "1." = Some (Fin (double_div 1 1)).
Proof. vm_compute. repeat split. Qed.

(** ** The rounding error *)

(** [x] is [a / b] up to one part in [2^53]. *)
Definition near (x : Q) (a b : Z) : Prop :=
  Z.abs (Qnum x * b - a * Zpos (Qden x)) * 2 ^ 53 ≤ a * Zpos (Qden x).

Lemma round_half_even_error n d : 0 < d → 2 * Z.abs (d * round_half_even n d - n) ≤ d.
Proof.
  intros Hd. unfold round_half_even.
  pose proof (Z.div_mod n d ltac:(lia)). pose proof (Z.mod_pos_bound n d Hd).
  destruct (Z.ltb_spec d (2 * (n mod d))); cbn; [lia|].
  destruct (Z.eqb_spec (2 * (n mod d)) d); cbn; [destruct (Z.odd _); lia|lia].
Qed.

Lemma scaled_pos a b e : 0 < a → 0 < b → 0 < (scaled a b e).1 ∧ 0 < (scaled a b e).2.
Proof.
  intros Ha Hb. unfold scaled. destruct (Z.leb_spec 0 e); cbn; rewrite ?Z.shiftl_mul_pow2 by lia;
    split; try lia; apply Z.mul_pos_pos; lia.
Qed.

(** At the chosen exponent the quotient has at least 53 bits. *)
Lemma scaled_large a b :
  0 < a → 0 < b →
  2 ^ 52 * (scaled a b (quotient_exponent a b)).2 ≤ (scaled a b (quotient_exponent a b)).1.
Proof.
  intros Ha Hb. unfold quotient_exponent. set (e0 := Z.log2 a - Z.log2 b - 52).
  destruct (scaled a b e0) as [n0 d0] eqn:E0.
  pose proof (scaled_pos a b e0 Ha Hb) as Hp. rewrite E0 in Hp. cbn in Hp.
  destruct (Z.ltb_spec (n0 / d0) (2 ^ 52)) as [Hlt|Hge].
  - clear Hlt n0 d0 E0 Hp. unfold scaled.
    pose proof (Z.log2_spec a Ha) as [Ha1 _]. pose proof (Z.log2_spec b Hb) as [_ Hb2].
    pose proof (Z.log2_nonneg a). pose proof (Z.log2_nonneg b).
    destruct (Z.leb_spec 0 (e0 - 1)) as [He|He]; cbn [fst snd]; rewrite Z.shiftl_mul_pow2 by lia.
    + transitivity (2 ^ 52 * (2 ^ Z.succ (Z.log2 b) * 2 ^ (e0 - 1))).
      { apply Z.mul_le_mono_nonneg_l; [lia|]. apply Z.mul_le_mono_nonneg_r; lia. }
      rewrite <- !Z.pow_add_r by lia. etrans; [|exact Ha1]. apply Z.pow_le_mono_r; lia.
    + transitivity (2 ^ 52 * 2 ^ Z.succ (Z.log2 b)); [apply Z.mul_le_mono_nonneg_l; lia|].
      transitivity (2 ^ Z.log2 a * 2 ^ (- (e0 - 1))); [|apply Z.mul_le_mono_nonneg_r; lia].
      rewrite <- !Z.pow_add_r by lia. apply Z.pow_le_mono_r; lia.
  - rewrite E0. cbn [fst snd]. pose proof (Z.div_mod n0 d0 ltac:(lia)).
    pose proof (Z.mod_pos_bound n0 d0 ltac:(lia)). nia.
Qed.

Lemma pow2_mul_near m e a b n d :
  0 < a → 0 < b → (n, d) = scaled a b e → 2 ^ 53 * Z.abs (d * m - n) ≤ n → near (pow2_mul m e) a b.
Proof.
  intros Ha Hb Hs Herr. unfold scaled in Hs. unfold near, pow2_mul.
  destruct (Z.leb_spec 0 e) as [He|He].
  - injection Hs as -> ->. cbn [Qnum Qden inject_Z]. rewrite Z.shiftl_mul_pow2 in Herr |- * by lia.
    replace (m * 2 ^ e * b - a * 1) with (b * 2 ^ e * m - a) by lia. lia.
  - injection Hs as -> ->. cbn [Qnum Qden].
    assert (0 < 2 ^ (- e)) by (apply Z.pow_pos_nonneg; lia).
    rewrite Z.shiftl_mul_pow2 in Herr by lia.
    rewrite Z2Pos.id by (rewrite Z.shiftl_mul_pow2; lia). rewrite Z.shiftl_mul_pow2 by lia.
    rewrite Z.mul_1_l. replace (m * b - a * 2 ^ (- e)) with (b * m - a * 2 ^ (- e)) by lia. lia.
Qed.

Lemma true_div_near a b : 0 < a → 0 < b → near (true_div a b) a b.
Proof.
  intros Ha Hb. unfold true_div. set (e := quotient_exponent a b).
  destruct (scaled a b e) as [n d] eqn:E.
  pose proof (scaled_pos a b e Ha Hb) as Hp. pose proof (scaled_large a b Ha Hb) as Hl.
  fold e in Hl. rewrite E in Hp, Hl. cbn [fst snd] in Hp, Hl.
  apply (pow2_mul_near _ _ _ _ n d); [done..|].
  pose proof (round_half_even_error n d ltac:(lia)). lia.
Qed.

Lemma double_div_near a b : 0 ≤ a → 0 < b → near (double_div a b) a b.
Proof.
  intros Ha Hb. unfold double_div. destruct (Z.eqb_spec a 0) as [->|Hn]; [unfold near; cbn; lia|].
  destruct (Z.ltb_spec 0 a); [|lia]. by apply true_div_near.
Qed.

Lemma near_nonneg x a b : near x a b → 0 ≤ a → 0 < b → 0 ≤ Qnum x.
Proof. unfold near. intros Hn Ha Hb. nia. Qed.
