(* ===== verification/PyOrder.v ===== *)
(** * Orders of Python tuples

    [sorted], [min] and [max] with a key: the keys are tuples of integers and strings, compared
    from left to right. *)
From S2P Require Import Prelude.
From S2P Require Import PyStr.
Local Open Scope Z_scope.
Set Default Proof Using "Type".

Inductive key_part := KI (n : Z) | KS (s : string).
Definition sort_key : Type := list key_part.

(** Parts of different types are not compared in the sources. *)
Definition part_compare (a b : key_part) : comparison :=
  match a, b with
  | KI x, KI y => x ?= y
  | KS s, KS t => String.compare s t
  | KI _, KS _ => Lt
  | KS _, KI _ => Gt
  end.

Fixpoint key_compare (a b : sort_key) : comparison :=
  match a, b with
  | [], [] => Eq
  | [], _ => Lt
  | _, [] => Gt
  | x :: a', y :: b' => match part_compare x y with Eq => key_compare a' b' | c => c end
  end.

Definition sort_key_leb (x y : sort_key) : bool :=
  match key_compare x y with Gt => false | _ => true end.

Definition sorted_by {A} (key : A → sort_key) : list A → list A :=
  py_sorted (λ x y, sort_key_leb (key x) (key y)).

(** [sorted(s, key=str)] of a set of ids. *)
Definition sorted_ids (s : gset string) : list string := py_sorted str_leb (elements s).

(** [min(x :: l)] and [max(x :: l)] in an order: the first of the extreme elements. *)
Definition first_min {A} (leb : A → A → bool) (x : A) (l : list A) : A :=
  foldl (λ best y, if leb best y then best else y) x l.
Definition first_max {A} (leb : A → A → bool) (x : A) (l : list A) : A :=
  foldl (λ best y, if leb y best then best else y) x l.

Lemma part_compare_eq a b : part_compare a b = Eq → a = b.
Proof.
  destruct a, b; cbn; [|done..|]; intros H.
  - apply Z.compare_eq in H. congruence.
  - apply String.compare_eq_iff in H. congruence.
Qed.

Lemma part_compare_antisym a b : part_compare b a = CompOpp (part_compare a b).
Proof. destruct a, b; cbn; [apply Z.compare_antisym|done..|apply String.compare_antisym]. Qed.

Lemma part_compare_lt_trans a b c :
  part_compare a b = Lt → part_compare b c = Lt → part_compare a c = Lt.
Proof.
  destruct a, b, c; cbn; try done.
  - rewrite !Z.compare_lt_iff. lia.
  - apply str_compare_trans_lt.
Qed.

Lemma key_compare_eq a : ∀ b, key_compare a b = Eq → a = b.
Proof.
  induction a as [|x a IH]; intros [|y b]; cbn; [done..|].
  destruct (part_compare x y) eqn:E; [|done..]. apply part_compare_eq in E as ->.
  intros Hab. f_equal; auto.
Qed.

Lemma key_compare_antisym a : ∀ b, key_compare b a = CompOpp (key_compare a b).
Proof.
  induction a as [|x a IH]; intros [|y b]; cbn; [done..|].
  rewrite (part_compare_antisym x y). destruct (part_compare x y); cbn; auto.
Qed.

Lemma key_compare_lt_trans a : ∀ b c,
  key_compare a b = Lt → key_compare b c = Lt → key_compare a c = Lt.
Proof.
  induction a as [|x a IH]; intros [|y b] [|z c]; cbn; try done.
  destruct (part_compare x y) eqn:E1; [apply part_compare_eq in E1 as ->| |done].
  - destruct (part_compare y z); eauto.
  - destruct (part_compare y z) eqn:E2; [apply part_compare_eq in E2 as <-| |done]; intros _ _.
    + by rewrite E1.
    + by rewrite (part_compare_lt_trans _ _ _ E1 E2).
Qed.

Lemma sort_key_leb_total x y : sort_key_leb x y = true ∨ sort_key_leb y x = true.
Proof.
  unfold sort_key_leb. rewrite (key_compare_antisym x y). destruct (key_compare x y); cbn; auto.
Qed.

Lemma sort_key_leb_trans x y z :
  sort_key_leb x y = true → sort_key_leb y z = true → sort_key_leb x z = true.
Proof.
  unfold sort_key_leb.
  destruct (key_compare x y) eqn:E1; [apply key_compare_eq in E1 as ->; done| |done].
  destruct (key_compare y z) eqn:E2; [|by rewrite (key_compare_lt_trans _ _ _ E1 E2)|done].
  apply key_compare_eq in E2 as <-. by rewrite E1.
Qed.

Lemma elem_of_sorted_ids x (s : gset string) : x ∈ sorted_ids s ↔ x ∈ s.
Proof. unfold sorted_ids. by rewrite elem_of_py_sorted, elem_of_elements. Qed.

Lemma NoDup_sorted_ids (s : gset string) : NoDup (sorted_ids s).
Proof. unfold sorted_ids. rewrite py_sorted_perm. apply NoDup_elements. Qed.

Lemma elem_of_sorted_by {A} (key : A → sort_key) x l : x ∈ sorted_by key l ↔ x ∈ l.
Proof. apply elem_of_py_sorted. Qed.

Lemma sorted_by_perm {A} (key : A → sort_key) l : sorted_by key l ≡ₚ l.
Proof. apply py_sorted_perm. Qed.

Section extremes.
Context {A : Type} (leb : A → A → bool).

Lemma first_min_elem x l : first_min leb x l ∈ x :: l.
Proof.
  unfold first_min. revert x. induction l as [|y l IH]; intros x; cbn; [set_solver|].
  destruct (leb x y); [specialize (IH x)|specialize (IH y)]; set_solver.
Qed.

Lemma first_max_elem x l : first_max leb x l ∈ x :: l.
Proof.
  unfold first_max. revert x. induction l as [|y l IH]; intros x; cbn; [set_solver|].
  destruct (leb y x); [specialize (IH x)|specialize (IH y)]; set_solver.
Qed.

Context (leb_total : ∀ x y, leb x y = true ∨ leb y x = true).
Context (leb_trans : ∀ x y z, leb x y = true → leb y z = true → leb x z = true).

Lemma first_min_le x l y : y ∈ x :: l → leb (first_min leb x l) y = true.
Proof using leb_total leb_trans.
  unfold first_min. revert x y. induction l as [|z l IH]; intros x y Hy; cbn.
  - apply list_elem_of_singleton in Hy as ->. by destruct (leb_total x x).
  - destruct (leb x z) eqn:E.
    + apply elem_of_cons in Hy as [->|[->|Hy]%elem_of_cons]; [apply IH; set_solver| |apply IH; set_solver].
      eapply leb_trans; [apply (IH x x); set_solver|done].
    + assert (leb z x = true) by (destruct (leb_total x z); congruence).
      apply elem_of_cons in Hy as [->|Hy]; [|by apply IH].
      eapply leb_trans; [apply (IH z z); set_solver|done].
Qed.
End extremes.
