(* ===== verification/Money.v ===== *)
(** * Network identity, policies and coin amounts

    [model.py]: the chain networks, their presets, the environment-dependent defaults,
    [MoneyPolicy] and [WalletPolicy]; [wallet.py]: address normalisation and the
    conversions between decimal coin strings and integer atomic amounts. *)
From Stdlib Require Import Ascii QArith.
From S2P Require Import Prelude.
From S2P Require Import PyStr.
From S2P Require Import PyVal.
Local Open Scope Z_scope.
Set Default Proof Using "Type".

(** ** model.py: networks and environment *)

Inductive ChainNetwork := MAINNET | TESTNET.

#[export] Instance chain_network_eq_dec : EqDecision ChainNetwork.
Proof. solve_decision. Defined.

(** The [StrEnum] value. *)
Definition network_value (n : ChainNetwork) : string :=
  match n with MAINNET => "mainnet" | TESTNET => "testnet" end.

Definition _CHAIN_NETWORK_ALIASES : list (string * ChainNetwork) :=
  [("mainnet", MAINNET); ("main", MAINNET); ("prod", MAINNET); ("production", MAINNET);
   ("testnet", TESTNET); ("test", TESTNET); ("staging", TESTNET)].

(** The process environment, as [os.getenv] reads it. *)
Abbreviation Environ := (string → option string) (only parsing).

(** [str(os.getenv(a) or os.getenv(b) or "")] and its one-variable form. *)
Definition env_or (env : Environ) (names : list string) : string :=
  foldr (λ n acc, match env n with
                  | Some s => if String.eqb s "" then acc else s
                  | None => acc
                  end) "" names.

Definition flag_words : list string := ["1"; "true"; "yes"; "on"].
Definition strict_flag_words : list string := flag_words ++ ["strict"; "required"].

Definition _env_flag (env : Environ) (name : string) (dflt : bool) : bool :=
  match env name with
  | None => dflt
  | Some raw => bool_decide (lower (strip raw) ∈ flag_words)
  end.

Definition _env_flag_or_none (env : Environ) (name : string) : option bool :=
  match env name with
  | None => None
  | Some raw => Some (bool_decide (lower (strip raw) ∈ strict_flag_words))
  end.

Definition alias_lookup (s : string) : ChainNetwork :=
  match list_find (λ kv, kv.1 = s) _CHAIN_NETWORK_ALIASES with
  | Some (_, (_, n)) => n
  | None => MAINNET
  end.

(** [resolve_active_chain_network(value)]: the argument is [None], a string or an
    enumeration member. *)
Inductive network_arg := NoNetwork | NetworkName (s : string) | NetworkMember (n : ChainNetwork).

Definition resolve_active_chain_network (env : Environ) (value : network_arg) : ChainNetwork :=
  match value with
  | NetworkMember n => n
  | NetworkName s => alias_lookup (lower (strip s))
  | NoNetwork => alias_lookup (lower (strip (env_or env ["CAI_CHAIN_NETWORK"; "CAI_NETWORK"])))
  end.

Record ChainNetworkPreset := {
  namespace : string;
  bootstrap_peers : list string;
  preset_trusted_validator_addresses : list string;
  default_api_port : Z;
  default_libp2p_port : Z;
  default_cai_home_dirname : string;
  preset_wallet_data_dirname : string;
  preset_developer_treasury_wallet_id : string;
  preset_developer_treasury_address : string;
  preset_ai_development_wallet_id : string;
  preset_ai_development_address : string
}.

Definition CHAIN_NETWORK_PRESETS (n : ChainNetwork) : ChainNetworkPreset :=
  match n with
  | MAINNET => {|
      namespace := "cai-ai-net";
      bootstrap_peers := ["/ip4/192.145.29.212/tcp/52416"];
      preset_trusted_validator_addresses :=
        ["2dabc2bfc0e6182aade1e5c17633d191fc290e3bd94b6153ab0992c79078a8ec"];
      default_api_port := 52415;
      default_libp2p_port := 52418;
      default_cai_home_dirname := ".cai";
      preset_wallet_data_dirname := ".cai-local";
      preset_developer_treasury_wallet_id := "f566089781403edca18c2d06c9c0af8a";
      preset_developer_treasury_address :=
        "6d9c5fc0ab4f5ad786881d1848800f778dc8f21473ebcff514181dfb50023881";
      preset_ai_development_wallet_id := "d614b61241fa972c34cf7c256848dc3d";
      preset_ai_development_address := "d7fbe14450f1a91363fb9585393ccd38" |}
  | TESTNET => {|
      namespace := "cai-ai-testnet";
      bootstrap_peers := [];
      preset_trusted_validator_addresses := [];
      default_api_port := 52515;
      default_libp2p_port := 52518;
      default_cai_home_dirname := ".cai-testnet";
      preset_wallet_data_dirname := ".cai-local-testnet";
      preset_developer_treasury_wallet_id := "855ecd31ec15064d9787560bc0e44ccc";
      preset_developer_treasury_address := "c45112f1eb695a79732dc622e16e0423";
      preset_ai_development_wallet_id := "4b41845b6ba0422fdee9a2dc435101d1";
      preset_ai_development_address := "d96d56a8fd63fb352009bf17d05c7d96" |}
  end.

Definition active_chain_preset (env : Environ) : ChainNetworkPreset :=
  CHAIN_NETWORK_PRESETS (resolve_active_chain_network env NoNetwork).

Definition _env_or_preset (env : Environ) (name value : string) : string :=
  let configured := strip (env_or env [name]) in
  if String.eqb configured "" then value else configured.

Fixpoint split_commas (s : string) : list string :=
  match s with
  | EmptyString => [""]
  | String c s' =>
      let r := split_commas s' in
      if Ascii.eqb c ","%char || (code c =? 10) then "" :: r
      else match r with
           | [] => [String c ""]
           | h :: t => String c h :: t
           end
  end.

(** [_split_peer_env]: new lines count as commas, blank entries are dropped. *)
Definition _split_peer_env (raw : option string) : list string :=
  match raw with
  | None => []
  | Some s => filter (λ p, negb (String.eqb p "")) (map strip (split_commas s))
  end.

(** [dict.fromkeys(...)]: the first occurrence of each key, in order. *)
Fixpoint dedup_keep_first (seen : list string) (l : list string) : list string :=
  match l with
  | [] => []
  | x :: l' =>
      if bool_decide (x ∈ seen) then dedup_keep_first seen l'
      else x :: dedup_keep_first (x :: seen) l'
  end.

Lemma elem_of_dedup x l : ∀ seen, x ∈ dedup_keep_first seen l ↔ x ∈ l ∧ x ∉ seen.
Proof.
  induction l as [|y l IH]; intros seen; cbn [dedup_keep_first]; [set_solver|].
  case_bool_decide as Hy; rewrite ?elem_of_cons, IH.
  - split; [intros [? ?]; split; [by right|done]|]. intros [[->|?] ?]; done.
  - destruct (decide (x = y)) as [->|Hne]; [split; [intros _; split; [by left|done]|by left]|].
    rewrite elem_of_cons. naive_solver.
Qed.

Lemma dedup_keep_first_id l : ∀ seen, NoDup l → (∀ x, x ∈ l → x ∉ seen) → dedup_keep_first seen l = l.
Proof.
  induction l as [|x l IH]; intros seen Hd Hs; [done|]. apply NoDup_cons in Hd as [Hx Hd].
  cbn [dedup_keep_first]. rewrite bool_decide_eq_false_2 by (apply Hs; by left). f_equal.
  apply IH; [done|]. intros y Hy. pose proof (Hs y). set_solver.
Qed.

Lemma dedup_keep_first_nodup l : ∀ seen, NoDup (dedup_keep_first seen l).
Proof.
  induction l as [|x l IH]; intros seen; cbn [dedup_keep_first]; [constructor|].
  case_bool_decide; [apply IH|]. constructor; [|apply IH]. rewrite elem_of_dedup. set_solver.
Qed.

Definition default_trusted_validator_addresses (env : Environ) : list string :=
  let configured := _split_peer_env (env "CAI_TRUSTED_VALIDATOR_ADDRESSES") in
  let extra := _split_peer_env (env "CAI_EXTRA_TRUSTED_VALIDATOR_ADDRESSES") in
  let base := match configured with
              | [] => preset_trusted_validator_addresses (active_chain_preset env)
              | _ => configured
              end in
  dedup_keep_first [] (base ++ extra).

Definition default_developer_treasury_wallet_id (env : Environ) : string :=
  _env_or_preset env "CAI_DEVELOPER_TREASURY_WALLET_ID"
    (preset_developer_treasury_wallet_id (active_chain_preset env)).

Definition default_developer_treasury_address (env : Environ) : string :=
  _env_or_preset env "CAI_DEVELOPER_TREASURY_ADDRESS"
    (preset_developer_treasury_address (active_chain_preset env)).

(** ** model.py: MoneyPolicy *)

Record MoneyPolicy := {
  chain_network : ChainNetwork;
  currency_code : string;
  currency_name : string;
  reward_token_code : string;
  decimals : nat;
  total_supply_coins : Z;
  compute_reserve_share : Q;
  compute_reserve_coins : Z;
  project_treasury_share : Q;
  project_treasury_coins : Z;
  developer_treasury_share : Q;
  developer_treasury_coins : Z;
  developer_contribution_fund_share : Q;
  developer_contribution_fund_coins : Z;
  developer_treasury_wallet_id : string;
  developer_treasury_address : string;
  ai_development_wallet_id : string;
  ai_development_address : string;
  ai_development_fee_bps : Z;
  daily_user_reserve_limit_enabled : bool;
  daily_user_reserve_limit_coins : string;
  daily_ip_reserve_limit_enabled : bool;
  daily_ip_reserve_limit_coins : string;
  reserve_funds_compute_first : bool;
  user_can_fund_jobs_from_wallet : bool;
  tx_fee_paid_by_initiator : bool;
  default_tx_fee_coins : string;
  validator_settlement_fee_bps : Z;
  validator_min_bond_coins : string;
  validator_committee_target_size : Z;
  validator_committee_selection_mode : string;
  validator_jail_slash_bps : Z;
  validator_conflicting_attestation_slash_bps : Z;
  validator_unbonding_seconds : Z;
  validator_unjail_cooldown_seconds : Z;
  automatic_pricing_enabled : bool;
  automatic_token_pricing_enabled : bool;
  automatic_price_floor_coins : string;
  automatic_price_cap_coins : string;
  automatic_price_per_input_token_coins : string;
  automatic_price_per_output_token_coins : string;
  automatic_price_default_reserved_output_tokens : Z;
  automatic_price_prompt_unit_chars : Z;
  automatic_price_per_prompt_unit_coins : string;
  automatic_price_target_connections : Z;
  automatic_price_low_load_threshold : Q;
  automatic_price_high_load_threshold : Q;
  automatic_price_low_load_discount_bps : Z;
  automatic_price_high_load_surcharge_bps : Z;
  automatic_price_connection_scarcity_surcharge_bps : Z;
  automatic_price_healthy_network_discount_bps : Z;
  automatic_price_unreachable_safety_bps : Z;
  automatic_price_non_default_model_premium_bps : Z;
  automatic_price_reserve_guard_bps : Z;
  automatic_price_reserve_critical_bps : Z
}.

(** [MoneyPolicy(chain_network=net)]: the remaining fields take their defaults; the
    treasury identities follow the environment's active network, not [net].  The float
    fields hold the exact values of the doubles the literals denote. *)
Definition money_policy_of (env : Environ) (net : ChainNetwork) : MoneyPolicy := {|
  chain_network := net;
  currency_code := "CAICN";
  currency_name := "CAI Network Credit";
  reward_token_code := "CAICN";
  decimals := 8;
  total_supply_coins := 1000000000;
  compute_reserve_share := 7656119366529843 # 9007199254740992;
  compute_reserve_coins := 850000000;
  project_treasury_share := 3602879701896397 # 72057594037927936;
  project_treasury_coins := 50000000;
  developer_treasury_share := 3602879701896397 # 72057594037927936;
  developer_treasury_coins := 50000000;
  developer_contribution_fund_share := 3602879701896397 # 36028797018963968;
  developer_contribution_fund_coins := 100000000;
  developer_treasury_wallet_id := default_developer_treasury_wallet_id env;
  developer_treasury_address := default_developer_treasury_address env;
  ai_development_wallet_id := preset_ai_development_wallet_id (active_chain_preset env);
  ai_development_address := preset_ai_development_address (active_chain_preset env);
  ai_development_fee_bps := 0;
  daily_user_reserve_limit_enabled := true;
  daily_user_reserve_limit_coins := "1.00000000";
  daily_ip_reserve_limit_enabled := true;
  daily_ip_reserve_limit_coins := "1.00000000";
  reserve_funds_compute_first := true;
  user_can_fund_jobs_from_wallet := true;
  tx_fee_paid_by_initiator := true;
  default_tx_fee_coins := "0.00010000";
  validator_settlement_fee_bps := 200;
  validator_min_bond_coins := "10000.00000000";
  validator_committee_target_size := 3;
  validator_committee_selection_mode := "stake_weighted_lottery";
  validator_jail_slash_bps := 500;
  validator_conflicting_attestation_slash_bps := 2000;
  validator_unbonding_seconds := 86400;
  validator_unjail_cooldown_seconds := 21600;
  automatic_pricing_enabled := true;
  automatic_token_pricing_enabled := true;
  automatic_price_floor_coins := "0.00100000";
  automatic_price_cap_coins := "0.00500000";
  automatic_price_per_input_token_coins := "0.00000300";
  automatic_price_per_output_token_coins := "0.00000600";
  automatic_price_default_reserved_output_tokens := 128;
  automatic_price_prompt_unit_chars := 256;
  automatic_price_per_prompt_unit_coins := "0.00025000";
  automatic_price_target_connections := 2;
  automatic_price_low_load_threshold := 3152519739159347 # 9007199254740992;
  automatic_price_high_load_threshold := 7656119366529843 # 9007199254740992;
  automatic_price_low_load_discount_bps := 500;
  automatic_price_high_load_surcharge_bps := 1500;
  automatic_price_connection_scarcity_surcharge_bps := 1200;
  automatic_price_healthy_network_discount_bps := 500;
  automatic_price_unreachable_safety_bps := 500;
  automatic_price_non_default_model_premium_bps := 2500;
  automatic_price_reserve_guard_bps := 500;
  automatic_price_reserve_critical_bps := 1000
|}.

(** [MoneyPolicy()]. *)
Definition default_money_policy (env : Environ) : MoneyPolicy :=
  money_policy_of env (resolve_active_chain_network env NoNetwork).

(** ** model.py: WalletPolicy (the fields that steer validation) *)

Record WalletPolicy := {
  wp_chain_network : ChainNetwork;
  require_post_quantum_wallet_signatures : bool;
  require_hybrid_peer_payload_signatures : bool;
  trusted_validator_addresses : list string
}.

Definition default_require_hybrid_peer_payload_signatures (env : Environ) : bool :=
  match _env_flag_or_none env "CAI_REQUIRE_HYBRID_PEER_PAYLOAD_SIGNATURES" with
  | Some b => b
  | None => bool_decide (resolve_active_chain_network env NoNetwork = MAINNET)
  end.

(** [WalletPolicy(chain_network=net, ...)] after [__post_init__], for the given values of
    the two requirement arguments ([None] when omitted). *)
Definition wallet_policy_of (env : Environ) (net : ChainNetwork) (pq hybrid : option bool)
  : WalletPolicy := {|
  wp_chain_network := net;
  require_post_quantum_wallet_signatures :=
    match pq with
    | Some b => b
    | None =>
        match _env_flag_or_none env "CAI_REQUIRE_POST_QUANTUM_SIGNATURES" with
        | Some b => b
        | None => bool_decide (net = MAINNET)
        end
    end;
  require_hybrid_peer_payload_signatures :=
    match hybrid with
    | Some b => b
    | None =>
        match _env_flag_or_none env "CAI_REQUIRE_HYBRID_PEER_PAYLOAD_SIGNATURES" with
        | Some b => b
        | None => default_require_hybrid_peer_payload_signatures env
        end
    end;
  trusted_validator_addresses := default_trusted_validator_addresses env
|}.

(** [WalletPolicy()]. *)
Definition default_wallet_policy (env : Environ) : WalletPolicy :=
  wallet_policy_of env (resolve_active_chain_network env NoNetwork) None None.

(** ** wallet.py: addresses and amounts *)

Definition normalize_address (address : string) : string :=
  let normalized := lower (strip address) in
  if startswith "cai_" normalized then drop_str 4 normalized else normalized.

Definition int_value_error (s : string) : exn :=
  ValueError ("invalid literal for int() with base 10: " +:+ repr_str s).

Definition coins_to_atomic (value : string) (mp : MoneyPolicy) : result Z :=
  let '(whole0, fraction0) := partition1 "."%char value in
  let whole := if String.eqb whole0 "" then "0" else whole0 in
  let fraction :=
    take_str (decimals mp) (fraction0 +:+ repeat_char "0"%char (decimals mp)) in
  let negative := startswith "-" whole in
  let sign := if negative then -1 else 1 in
  let whole_digits := if negative then drop_str 1 whole else whole in
  match int_of_str whole_digits with
  | None => Err (int_value_error whole_digits)
  | Some w =>
      let fraction' := if String.eqb fraction "" then "0" else fraction in
      match int_of_str fraction' with
      | None => Err (int_value_error fraction')
      | Some f => Ok (sign * (w * 10 ^ Z.of_nat (decimals mp) + f))
      end
  end.

Definition atomic_to_coins (value : Z) (mp : MoneyPolicy) : string :=
  let sign := if value <? 0 then "-" else "" in
  let abs_value := Z.abs value in
  let scale := 10 ^ Z.of_nat (decimals mp) in
  let whole := abs_value / scale in
  let fraction := abs_value mod scale in
  sign +:+ str_of_nonneg whole +:+ "." +:+ zfill (decimals mp) fraction.

(** ** Lemmas *)

Lemma partition1_app sep s t :
  has_char sep s = false → partition1 sep (s +:+ String sep t) = (s, t).
Proof.
  induction s as [|c s IH]; cbn [has_char].
  - intros _. rewrite str_app_nil_l. cbn. by rewrite Ascii.eqb_refl.
  - intros H. bool_to_prop. rewrite str_app_cons. cbn. rewrite Ascii.eqb_sym, H, IH by done. done.
Qed.

Lemma has_char_app c s t : has_char c (s +:+ t) = has_char c s || has_char c t.
Proof.
  induction s as [|d s IH]; [done|]. rewrite str_app_cons. cbn. by rewrite IH, orb_assoc.
Qed.

Lemma all_digits_no_char c s :
  digit_val c = None → all_digits s = true → has_char c s = false.
Proof.
  intros Hc. induction s as [|d s IH]; [done|]. cbn.
  destruct (digit_val d) eqn:E; [|done]. cbn. intros Hs. rewrite IH by done.
  destruct (Ascii.eqb_spec c d); [congruence|done].
Qed.

Lemma digit_val_bounds c d : digit_val c = Some d → 0 ≤ d < 10.
Proof. unfold digit_val. intros H. case_in H; [|done]. injection H as <-. bool_to_prop. lia. Qed.

Lemma digits_val_nonneg acc s : 0 ≤ acc → 0 ≤ digits_val acc s.
Proof.
  revert acc. induction s as [|c s IH]; intros acc Hacc; cbn [digits_val]; [done|]. apply IH.
  destruct (digit_val c) as [d|] eqn:E; [apply digit_val_bounds in E|]; cbn [from_option id]; lia.
Qed.

(** A rendering of [n < 10^w] fits in [w] characters. *)
Lemma str_of_nonneg_length n (w : nat) :
  0 ≤ n < 10 ^ Z.of_nat w → (0 < w)%nat → (String.length (str_of_nonneg n) ≤ w)%nat.
Proof.
  intros Hn Hw. destruct (decide (n = 0)) as [->|Hnz].
  { vm_compute str_of_nonneg. cbn. lia. }
  unfold str_of_nonneg.
  destruct (digits_fuel_spec (S (Z.to_nat (Z.log2 n))) n "") as (p & -> & Hd & Hv & _ & Hlead); [lia| |lia|].
  { rewrite Nat2Z.inj_succ, Z2Nat.id by apply Z.log2_nonneg. apply Z.log2_spec. lia. }
  rewrite str_app_nil_r. destruct Hlead as (c & p' & -> & Hc); [lia|].
  cbn [all_digits digits_val String.length] in *.
  destruct (digit_val c) as [d|] eqn:E; [|done]. apply digit_val_bounds in E as Hb.
  assert (1 ≤ d) by (assert (d ≠ 0) by congruence; lia). cbn [from_option id] in Hv.
  rewrite digits_val_pow in Hv. pose proof (digits_val_nonneg 0 p' ltac:(lia)).
  assert (10 ^ Z.of_nat (String.length p') < 10 ^ Z.of_nat w) as Hlt by nia.
  apply Z.pow_lt_mono_r_iff in Hlt; lia.
Qed.

Lemma zfill_length w n :
  0 ≤ n < 10 ^ Z.of_nat w → (0 < w)%nat → String.length (zfill w n) = w.
Proof.
  intros Hn Hw. unfold zfill. rewrite str_length_app, repeat_char_length.
  pose proof (str_of_nonneg_length n w Hn Hw). lia.
Qed.

Lemma startswith_digits s : all_digits s = true → s ≠ "" → startswith "-" s = false.
Proof.
  destruct s as [|c s]; [done|]. cbn [all_digits startswith].
  destruct (digit_val c) eqn:E; [|done]. intros _ _.
  destruct (digit_not_sign c _ E) as [H _]. by rewrite Ascii.eqb_sym, H.
Qed.

(** The fixed-point form of [normalize_address]: trimmed, lower case, no [cai_] prefix. *)
Definition normalized (a : string) : Prop := normalize_address a = a.

#[export] Instance normalized_dec a : Decision (normalized a).
Proof. unfold normalized. apply _. Defined.

(** The coin string of an amount parses back to the amount, for every policy. *)
Lemma coins_roundtrip (v : Z) (mp : MoneyPolicy) :
  coins_to_atomic (atomic_to_coins v mp) mp = Ok v.
Proof.
  unfold atomic_to_coins. set (scale := 10 ^ Z.of_nat (decimals mp)).
  assert (0 < scale) by (unfold scale; lia).
  assert (0 ≤ Z.abs v / scale) as Hq by (apply Z.div_pos; lia).
  assert (0 ≤ Z.abs v mod scale < scale) as Hr by (apply Z.mod_pos_bound; lia).
  destruct (str_of_nonneg_spec _ Hq) as (Hqd & Hqv & Hqne).
  destruct (zfill_spec (decimals mp) _ (proj1 Hr)) as (Hrd & Hrv & Hrne).
  set (w := str_of_nonneg _) in *. set (fr := zfill _ _) in *.
  assert (partition1 "." ((if v <? 0 then "-" else "") +:+ w +:+ "." +:+ fr)
          = ((if v <? 0 then "-" else "") +:+ w, fr)) as Hp.
  { rewrite str_app_assoc. change ("." +:+ fr) with (String "." fr).
    apply partition1_app. rewrite has_char_app, (all_digits_no_char "." w) by done.
    by destruct (v <? 0). }
  unfold coins_to_atomic. rewrite Hp.
  assert (take_str (decimals mp) (fr +:+ repeat_char "0" (decimals mp))
          = if decide (decimals mp = 0%nat) then "" else fr) as Htake.
  { case_decide as Hd; [by rewrite Hd|]. apply take_str_app_l, zfill_length; [done|lia]. }
  rewrite Htake. clear Htake Hp.
  assert (int_of_str (if String.eqb (if decide (decimals mp = 0%nat) then "" else fr) "" then "0"
          else if decide (decimals mp = 0%nat) then "" else fr) = Some (Z.abs v mod scale)) as Hf.
  { case_decide as Hd.
    - unfold scale. rewrite Hd. cbn. by rewrite Z.mod_1_r.
    - destruct (String.eqb_spec fr "") as [|]; [done|]. rewrite int_of_digits, Hrv by done. done. }
  rewrite Hf. pose proof (int_of_digits w Hqne Hqd) as Hw. rewrite Hqv in Hw.
  pose proof (Z.div_mod (Z.abs v) scale ltac:(lia)) as Hdm.
  destruct (Z.ltb_spec v 0).
  - change ("-" +:+ w) with (String "-" w).
    change (String.eqb (String "-" w) "") with false. cbv iota beta.
    change (startswith "-" (String "-" w)) with (startswith "" w). cbn [startswith drop_str].
    rewrite Hw. f_equal. fold scale. lia.
  - rewrite str_app_nil_l. destruct (String.eqb_spec w "") as [|]; [done|].
    rewrite startswith_digits, Hw by done. f_equal. fold scale. lia.
Qed.
