(* ===== verification/Signing.v ===== *)
(** * Wallet signatures and addresses

    [wallet_signing.py]: base64 decoding, the address a public key stands for and the
    verification of signed payloads.  The two signature algorithms are third-party code:
    they enter as the operations of the class [SignatureBackend]; that signing and
    verifying agree is the class [SignatureLaws]. *)
From Stdlib Require Import Ascii.
From S2P Require Import Prelude.
From S2P Require Import PyStr.
From S2P Require Import PyVal.
From S2P Require Import Sha256.
Local Open Scope Z_scope.
Set Default Proof Using "Type".

(** ** Schemes *)

Definition SIGNING_SCHEME_ED25519 : string := "ed25519-v1".
Definition SIGNING_SCHEME_ML_DSA_65 : string := "ml-dsa-65-v1".
Definition SIGNING_SCHEME_HYBRID_ED25519_ML_DSA_65 : string := "hybrid-ed25519-ml-dsa-65-v1".
Definition ADDRESS_SCHEME_ED25519 : string := "ed25519-pubkey-sha256-v1".
Definition ADDRESS_SCHEME_HYBRID_ED25519_ML_DSA_65 : string :=
  "hybrid-ed25519-ml-dsa-65-sha256-v1".
Definition ADDRESS_SCHEME_HYBRID_ED25519_ML_DSA_65_256 : string :=
  "hybrid-ed25519-ml-dsa-65-sha256-256-v1".
Definition DEFAULT_WALLET_HYBRID_ADDRESS_SCHEME : string :=
  ADDRESS_SCHEME_HYBRID_ED25519_ML_DSA_65_256.
Definition HYBRID_ADDRESS_SCHEMES : list string :=
  [ADDRESS_SCHEME_HYBRID_ED25519_ML_DSA_65; ADDRESS_SCHEME_HYBRID_ED25519_ML_DSA_65_256].
Definition ADDRESS_SCHEME_FIXED_WALLET_ID_SHA256 : string := "fixed-wallet-id-sha256-v1".

(** ** base64 ([base64.b64encode], [base64.b64decode] in its default, lenient mode) *)

Definition b64_char (n : Z) : ascii :=
  ascii_of_N (Z.to_N
    (if n <? 26 then n + 65
     else if n <? 52 then n + 71
     else if n <? 62 then n - 4
     else if n =? 62 then 43 else 47)).

Definition b64_value (c : ascii) : option Z :=
  let n := code c in
  if (65 <=? n) && (n <=? 90) then Some (n - 65)
  else if (97 <=? n) && (n <=? 122) then Some (n - 71)
  else if (48 <=? n) && (n <=? 57) then Some (n + 4)
  else if n =? 43 then Some 62
  else if n =? 47 then Some 63
  else None.

Definition b64_sextets (a b c : Z) : list Z :=
  [a / 4; (a mod 4) * 16 + b / 16; (b mod 16) * 4 + c / 64; c mod 64].

Fixpoint encode_bytes (l : list Z) : string :=
  match l with
  | [] => ""
  | [a] => foldr String "==" (map b64_char (take 2 (b64_sextets a 0 0)))
  | [a; b] => foldr String "=" (map b64_char (take 3 (b64_sextets a b 0)))
  | a :: b :: c :: l' => foldr String (encode_bytes l') (map b64_char (b64_sextets a b c))
  end.

Definition b64_error : exn := ValueError "Incorrect padding".

(** The decoder's loop: position in the quad, pending bits, pad characters seen since the
    last data character.  Characters outside the alphabet are skipped; a complete pad
    sequence ends the input. *)
Fixpoint b64_loop (quad_pos leftchar pads : Z) (s : string) : result (list Z) :=
  match s with
  | EmptyString => if quad_pos =? 0 then Ok [] else Err b64_error
  | String c s' =>
      if Ascii.eqb c "="%char then
        if quad_pos <? 2 then b64_loop quad_pos leftchar pads s'
        else if 4 <=? quad_pos + (pads + 1) then Ok []
        else b64_loop quad_pos leftchar (pads + 1) s'
      else
        match b64_value c with
        | None => b64_loop quad_pos leftchar pads s'
        | Some v =>
            if quad_pos =? 0 then b64_loop 1 v 0 s'
            else if quad_pos =? 1 then
              r ← b64_loop 2 (v mod 16) 0 s'; Ok ((leftchar * 4 + v / 16) :: r)
            else if quad_pos =? 2 then
              r ← b64_loop 3 (v mod 4) 0 s'; Ok ((leftchar * 16 + v / 4) :: r)
            else
              r ← b64_loop 0 0 0 s'; Ok ((leftchar * 64 + v) :: r)
        end
  end.

Fixpoint is_ascii (s : string) : bool :=
  match s with EmptyString => true | String c s' => (code c <? 128) && is_ascii s' end.

(** [payload.encode("ascii")] raises on other characters. *)
Definition decode_bytes (payload : string) : result (list Z) :=
  if is_ascii payload then b64_loop 0 0 0 payload
  else Err (ValueError "ordinal not in range(128)").

(** ** Addresses *)

Fixpoint str_of_bytes (l : list Z) : string :=
  match l with [] => "" | b :: l' => String (ascii_of_N (Z.to_N b)) (str_of_bytes l') end.

Definition address_from_public_key_b64 (public_key_b64 : string) : result string :=
  raw ← decode_bytes public_key_b64;
  Ok (take_str 32 (sha256_hexdigest (str_of_bytes raw))).

Definition hybrid_address_from_public_keys_b64
    (ed25519_public_key_b64 pq_public_key_b64 address_scheme : string) : result string :=
  let normalized_scheme := strip address_scheme in
  if bool_decide (normalized_scheme ∈ HYBRID_ADDRESS_SCHEMES) then
    let payload := canonical (VDict
      [("address_scheme", VStr normalized_scheme);
       ("ed25519_public_key_b64", VStr (strip ed25519_public_key_b64));
       ("pq_public_key_b64", VStr (strip pq_public_key_b64))]) in
    let digest := sha256_hexdigest payload in
    Ok (if String.eqb normalized_scheme ADDRESS_SCHEME_HYBRID_ED25519_ML_DSA_65
        then take_str 32 digest else digest)
  else Err (ValueError ("Unsupported hybrid address scheme: " +:+ address_scheme)).

(** ** Signatures *)

(** What the two signature libraries offer.  A key or signature the library rejects by
    raising is one that does not verify; an ML-DSA backend that is not installed verifies
    nothing. *)
Class SignatureBackend := {
  ed25519_public : list Z → result (list Z);
  ed25519_sign : list Z → string → result (list Z);
  ed25519_verify : list Z → list Z → string → bool;
  mldsa65_public : list Z → result (list Z);
  mldsa65_sign : list Z → string → result (list Z);
  mldsa65_verify : list Z → string → list Z → bool
}.

Section signatures.
Context `{SignatureBackend}.

Definition sign_payload_b64 (signing_seed : list Z) (payload : pyval) : result string :=
  signature ← ed25519_sign signing_seed (canonical payload); Ok (encode_bytes signature).

Definition public_key_b64_from_seed (signing_seed : list Z) : result string :=
  public_key ← ed25519_public signing_seed; Ok (encode_bytes public_key).

Definition sign_payload_mldsa65_b64 (private_key_b64 : string) (payload : pyval)
  : result string :=
  private_key ← decode_bytes private_key_b64;
  signature ← mldsa65_sign private_key (canonical payload);
  Ok (encode_bytes signature).

Definition mldsa65_public_key_b64_from_private_key_b64 (private_key_b64 : string)
  : result string :=
  private_key ← decode_bytes private_key_b64;
  public_key ← mldsa65_public private_key;
  Ok (encode_bytes public_key).

Definition verify_payload_signature (public_key_b64 signature_b64 : string) (payload : pyval)
  : bool :=
  match decode_bytes public_key_b64, decode_bytes signature_b64 with
  | Ok public_key, Ok signature => ed25519_verify public_key signature (canonical payload)
  | _, _ => false
  end.

Definition verify_payload_mldsa65_signature
    (public_key_b64 signature_b64 : string) (payload : pyval) : bool :=
  match decode_bytes public_key_b64, decode_bytes signature_b64 with
  | Ok public_key, Ok signature => mldsa65_verify public_key (canonical payload) signature
  | _, _ => false
  end.

Definition verify_hybrid_payload_signature
    (ed25519_public_key_b64 ed25519_signature_b64 pq_public_key_b64 pq_signature_b64 : string)
    (payload : pyval) : bool :=
  verify_payload_signature ed25519_public_key_b64 ed25519_signature_b64 payload
  && verify_payload_mldsa65_signature pq_public_key_b64 pq_signature_b64 payload.
End signatures.

(** Bytes. *)
Definition is_byte (b : Z) : Prop := 0 ≤ b < 256.

(** The documented contract of the signature libraries: a signature made with a private
    key verifies under its public key, keys and signatures are byte strings, and a
    signature is never empty. *)
Class SignatureLaws `{SignatureBackend} := {
  ed25519_sign_verify : ∀ seed pk sg m,
    ed25519_public seed = Ok pk → ed25519_sign seed m = Ok sg → ed25519_verify pk sg m = true;
  ed25519_public_bytes : ∀ seed pk, ed25519_public seed = Ok pk → Forall is_byte pk;
  ed25519_sign_bytes : ∀ seed m sg, ed25519_sign seed m = Ok sg → Forall is_byte sg;
  mldsa65_sign_verify : ∀ sk pk sg m,
    mldsa65_public sk = Ok pk → mldsa65_sign sk m = Ok sg → mldsa65_verify pk m sg = true;
  mldsa65_public_bytes : ∀ sk pk, mldsa65_public sk = Ok pk → Forall is_byte pk;
  mldsa65_sign_bytes : ∀ sk m sg, mldsa65_sign sk m = Ok sg → Forall is_byte sg;
  ed25519_sign_nonempty : ∀ seed m, ed25519_sign seed m ≠ Ok [];
  mldsa65_sign_nonempty : ∀ sk m, mldsa65_sign sk m ≠ Ok []
}.

(** ** base64 round trip *)

Lemma b64_value_char n : 0 ≤ n < 64 → b64_value (b64_char n) = Some n.
Proof.
  intros Hn. assert (∀ k : nat, (k < 64)%nat → b64_value (b64_char (Z.of_nat k)) = Some (Z.of_nat k)) as Hk.
  { intros k Hk. do 64 (destruct k as [|k]; [reflexivity|]). lia. }
  specialize (Hk (Z.to_nat n) ltac:(lia)). by rewrite Z2Nat.id in Hk by lia.
Qed.

Lemma b64_char_facts n :
  0 ≤ n < 64 → Ascii.eqb (b64_char n) "=" = false ∧ (code (b64_char n) <? 128) = true.
Proof.
  intros Hn. assert (∀ k : nat, (k < 64)%nat →
    Ascii.eqb (b64_char (Z.of_nat k)) "=" = false ∧ (code (b64_char (Z.of_nat k)) <? 128) = true) as Hk.
  { intros k Hk. do 64 (destruct k as [|k]; [split; reflexivity|]). lia. }
  specialize (Hk (Z.to_nat n) ltac:(lia)). by rewrite Z2Nat.id in Hk by lia.
Qed.

Lemma b64_char_ascii n : 0 ≤ n < 64 → (code (b64_char n) <? 128) = true.
Proof. intros Hn. apply b64_char_facts, Hn. Qed.

(** Three bytes at a time. *)
Lemma list_ind3 {A} (P : list A → Prop) :
  P [] → (∀ a, P [a]) → (∀ a b, P [a; b]) → (∀ a b c l, P l → P (a :: b :: c :: l)) → ∀ l, P l.
Proof.
  intros H0 H1 H2 H3. fix IH 1. intros [|a [|b [|c l]]]; [done|apply H1|apply H2|].
  apply H3, IH.
Qed.

Ltac b64_side := unfold is_byte in *; Z.to_euclidean_division_equations; lia.

(** One data character of the decoder, at each position of the quad. *)
Lemma b64_loop_data q l p n s :
  0 ≤ n < 64 →
  b64_loop q l p (String (b64_char n) s) =
    (if q =? 0 then b64_loop 1 n 0 s
     else if q =? 1 then r ← b64_loop 2 (n mod 16) 0 s; Ok ((l * 4 + n / 16) :: r)
     else if q =? 2 then r ← b64_loop 3 (n mod 4) 0 s; Ok ((l * 16 + n / 4) :: r)
     else r ← b64_loop 0 0 0 s; Ok ((l * 64 + n) :: r)).
Proof.
  intros Hn. destruct (b64_char_facts n Hn) as [He _]. cbn [b64_loop].
  by rewrite He, b64_value_char.
Qed.

Ltac b64_steps :=
  rewrite !b64_loop_data by b64_side;
  change (0 =? 0) with true; change (1 =? 0) with false; change (1 =? 1) with true;
  change (2 =? 0) with false; change (2 =? 1) with false; change (2 =? 2) with true;
  change (3 =? 0) with false; change (3 =? 1) with false; change (3 =? 2) with false;
  cbv iota.

Lemma b64_loop_encode l : Forall is_byte l → b64_loop 0 0 0 (encode_bytes l) = Ok l.
Proof.
  induction l as [|a|a b|a b c l IH] using list_ind3; rewrite ?Forall_cons.
  - done.
  - intros [Ha _]. cbn [encode_bytes b64_sextets map take foldr]. b64_steps.
    change (b64_loop 2 ?l 0 "==") with (Ok (A:=list Z) []).
    unfold mbind, result_bind. f_equal. f_equal; b64_side.
  - intros (Ha & Hb & _). cbn [encode_bytes b64_sextets map take foldr]. b64_steps.
    change (b64_loop 3 ?l 0 "=") with (Ok (A:=list Z) []).
    unfold mbind, result_bind. f_equal. f_equal; [b64_side|f_equal; b64_side].
  - intros (Ha & Hb & Hc & Hl). cbn [encode_bytes b64_sextets map foldr]. b64_steps.
    rewrite IH by done. unfold mbind, result_bind.
    f_equal. f_equal; [b64_side|f_equal; [b64_side|f_equal; b64_side]].
Qed.

Lemma encode_bytes_ascii l : Forall is_byte l → is_ascii (encode_bytes l) = true.
Proof.
  induction l as [|a|a b|a b c l IH] using list_ind3; rewrite ?Forall_cons.
  - done.
  - intros [Ha _]. cbn [encode_bytes b64_sextets map take foldr is_ascii].
    rewrite !b64_char_ascii by b64_side. done.
  - intros (Ha & Hb & _). cbn [encode_bytes b64_sextets map take foldr is_ascii].
    rewrite !b64_char_ascii by b64_side. done.
  - intros (Ha & Hb & Hc & Hl). cbn [encode_bytes b64_sextets map foldr is_ascii].
    rewrite !b64_char_ascii by b64_side. by apply IH.
Qed.

Lemma decode_encode_bytes l : Forall is_byte l → decode_bytes (encode_bytes l) = Ok l.
Proof. intros Hl. unfold decode_bytes. by rewrite encode_bytes_ascii, b64_loop_encode. Qed.

(** ** Signing and verifying agree *)

Section sign_verify.
Context {backend : SignatureBackend} {laws : SignatureLaws}.

Lemma sign_verify_payload seed pk_b64 sg_b64 payload :
  public_key_b64_from_seed seed = Ok pk_b64 → sign_payload_b64 seed payload = Ok sg_b64 →
  verify_payload_signature pk_b64 sg_b64 payload = true.
Proof using laws.
  unfold public_key_b64_from_seed, sign_payload_b64. rewrite !bind_ok.
  intros (pk & Hpk & Hpkb) (sg & Hsg & Hsgb). apply (inj Ok) in Hpkb as <-. apply (inj Ok) in Hsgb as <-.
  unfold verify_payload_signature.
  rewrite !decode_encode_bytes by eauto using ed25519_public_bytes, ed25519_sign_bytes.
  by eapply ed25519_sign_verify.
Qed.

Lemma sign_verify_mldsa65 sk_b64 pk_b64 sg_b64 payload :
  mldsa65_public_key_b64_from_private_key_b64 sk_b64 = Ok pk_b64 →
  sign_payload_mldsa65_b64 sk_b64 payload = Ok sg_b64 →
  verify_payload_mldsa65_signature pk_b64 sg_b64 payload = true.
Proof using laws.
  unfold mldsa65_public_key_b64_from_private_key_b64, sign_payload_mldsa65_b64.
  destruct (decode_bytes sk_b64) as [sk|e]; [|done]. cbn [mbind result_bind].
  destruct (mldsa65_public sk) as [pk|e] eqn:Hpk; [|done].
  destruct (mldsa65_sign sk (canonical payload)) as [sg|e] eqn:Hsg; [|done].
  cbn [mbind result_bind]. intros [= <-] [= <-]. unfold verify_payload_mldsa65_signature.
  rewrite !decode_encode_bytes by eauto using mldsa65_public_bytes, mldsa65_sign_bytes.
  by eapply mldsa65_sign_verify.
Qed.
End sign_verify.

(** ** A concrete backend

    A transparent stand-in for the two signature libraries, on which concrete executions
    are evaluated: the public key is the seed, the signature is a tag byte, the key and the
    message. *)
Module Transparent.
Definition byte (b : Z) : Z := b mod 256.
Definition key (seed : list Z) : list Z := map byte seed.
Definition stamp (seed : list Z) (m : string) : list Z := 1 :: key seed ++ map byte (bytes_of_str m).

#[export] Instance backend : SignatureBackend := {|
  ed25519_public := λ seed, Ok (key seed);
  ed25519_sign := λ seed m, Ok (stamp seed m);
  ed25519_verify := λ pk sg m, bool_decide (sg = 1 :: pk ++ map byte (bytes_of_str m));
  mldsa65_public := λ sk, Ok (key sk);
  mldsa65_sign := λ sk m, Ok (stamp sk m);
  mldsa65_verify := λ pk m sg, bool_decide (sg = 1 :: pk ++ map byte (bytes_of_str m))
|}.

Lemma byte_is_byte l : Forall is_byte (map byte l).
Proof.
  induction l as [|b l IH]; cbn; constructor; [|done]. unfold is_byte, byte.
  apply Z.mod_pos_bound. lia.
Qed.

Lemma stamp_bytes seed m : Forall is_byte (stamp seed m).
Proof.
  constructor; [unfold is_byte; lia|]. apply Forall_app. split; apply byte_is_byte.
Qed.

#[export] Instance laws : SignatureLaws.
Proof.
  split.
  - intros seed pk sg m [= <-] [= <-]. by apply bool_decide_eq_true.
  - intros seed pk [= <-]. apply byte_is_byte.
  - intros seed m sg [= <-]. apply stamp_bytes.
  - intros sk pk sg m [= <-] [= <-]. by apply bool_decide_eq_true.
  - intros sk pk [= <-]. apply byte_is_byte.
  - intros sk m sg [= <-]. apply stamp_bytes.
  - done.
  - done.
Qed.
End Transparent.
