(* ===== verification/ChainTx.v ===== *)
(** * Chain transactions and blocks

    [chain.py], first part: the transaction and block records, the canonical payloads they
    are hashed and signed over, transaction identifiers, transaction signatures, and the
    roots and hashes of blocks. *)
From Stdlib Require Import Ascii.
From S2P Require Import Prelude.
From S2P Require Import PyStr.
From S2P Require Import PyVal.
From S2P Require Import Sha256.
From S2P Require Import Money.
From S2P Require Import Signing.
Local Open Scope Z_scope.
Set Default Proof Using "Type".

Definition GENESIS_PREVIOUS_HASH : string := repeat_char "0"%char 64.
Definition GENESIS_CREATED_AT : string := "2026-01-01T00:00:00+00:00".
Definition CHAIN_SCHEMA_VERSION : Z := 1.
Definition CHAIN_INDEX_SCHEMA_VERSION : Z := 1.
Definition CHAIN_SNAPSHOT_SCHEMA_VERSION : Z := 1.
Definition DEFAULT_CHAIN_SNAPSHOT_INTERVAL : Z := 100.

(** Fields that every constructor of the program coerces have their type; the ones it
    passes through ([settlement_id], [payout_id], [wallet_id], [note]) stay dynamic. *)
Record ChainTransaction := {
  tx_id : string;
  tx_created_at : string;
  tx_type : string;
  address : string;
  delta_atomic : Z;
  settlement_id : pyval;
  payout_id : pyval;
  wallet_id : pyval;
  counterparty_address : option string;
  note : pyval;
  nonce : option string;
  tx_chain_id : string;
  tx_schema_version : Z;
  public_key_b64 : option string;
  signature_b64 : option string;
  metadata : list (string * pyval)
}.

Record ChainBlock := {
  block_id : string;
  height : Z;
  created_at : string;
  previous_hash : string;
  validator_id : pyval;
  transactions : list ChainTransaction;
  block_hash : string;
  chain_id : string;
  schema_version : Z;
  tx_root : string;
  state_root : string;
  validator_public_key_b64 : option string;
  validator_signature_b64 : option string
}.

#[export] Instance chain_transaction_eq_dec : EqDecision ChainTransaction.
Proof. solve_decision. Defined.
#[export] Instance chain_block_eq_dec : EqDecision ChainBlock.
Proof. solve_decision. Defined.

(** [s or t] on strings, and optional strings as Python values. *)
Definition or_str (s t : string) : string := if String.eqb s "" then t else s.
Definition or_opt (s : option string) (t : string) : string := or_str (default "" s) t.
Definition val_opt (s : option string) : pyval :=
  match s with Some x => VStr x | None => VNone end.
Definition filled (s : option string) : bool :=
  match s with Some x => negb (String.eqb x "") | None => false end.

(** [dataclasses.asdict(tx)] *)
Definition asdict_tx (tx : ChainTransaction) : list (string * pyval) :=
  [("tx_id", VStr (tx_id tx));
   ("created_at", VStr (tx_created_at tx));
   ("tx_type", VStr (tx_type tx));
   ("address", VStr (address tx));
   ("delta_atomic", VInt (delta_atomic tx));
   ("settlement_id", settlement_id tx);
   ("payout_id", payout_id tx);
   ("wallet_id", wallet_id tx);
   ("counterparty_address", val_opt (counterparty_address tx));
   ("note", note tx);
   ("nonce", val_opt (nonce tx));
   ("chain_id", VStr (tx_chain_id tx));
   ("schema_version", VInt (tx_schema_version tx));
   ("public_key_b64", val_opt (public_key_b64 tx));
   ("signature_b64", val_opt (signature_b64 tx));
   ("metadata", VDict (metadata tx))].

Definition asdict_block (b : ChainBlock) : list (string * pyval) :=
  [("block_id", VStr (block_id b));
   ("height", VInt (height b));
   ("created_at", VStr (created_at b));
   ("previous_hash", VStr (previous_hash b));
   ("validator_id", validator_id b);
   ("transactions", VList (map (λ tx, VDict (asdict_tx tx)) (transactions b)));
   ("block_hash", VStr (block_hash b));
   ("chain_id", VStr (chain_id b));
   ("schema_version", VInt (schema_version b));
   ("tx_root", VStr (tx_root b));
   ("state_root", VStr (state_root b));
   ("validator_public_key_b64", val_opt (validator_public_key_b64 b));
   ("validator_signature_b64", val_opt (validator_signature_b64 b))].

Definition _money_policy_for_wallet_policy (env : Environ) (wallet_policy : option WalletPolicy)
    (money_policy : option MoneyPolicy) : MoneyPolicy :=
  match money_policy, wallet_policy with
  | Some mp, _ => mp
  | None, Some wp => money_policy_of env (wp_chain_network wp)
  | None, None => default_money_policy env
  end.

Definition _default_chain_id (env : Environ) : string :=
  network_value (chain_network (default_money_policy env)).

(** The chain identifier of the node's own network. *)
Definition active_chain_id (env : Environ) (policy : option WalletPolicy) : string :=
  network_value (chain_network (_money_policy_for_wallet_policy env policy None)).

Section tx.
Context (env : Environ).

Definition _transaction_payload (tx : ChainTransaction) : list (string * pyval) :=
  let payload := asdict_tx tx in
  let payload := dset "address" (VStr (normalize_address (address tx))) payload in
  let payload :=
    match counterparty_address tx with
    | Some c =>
        if String.eqb c "" then payload
        else dset "counterparty_address" (VStr (normalize_address c)) payload
    | None => payload
    end in
  let payload := dset "delta_atomic" (VInt (delta_atomic tx)) payload in
  let payload := dset "chain_id" (VStr (or_str (tx_chain_id tx) (_default_chain_id env))) payload in
  dset "schema_version"
    (VInt (if tx_schema_version tx =? 0 then CHAIN_SCHEMA_VERSION else tx_schema_version tx))
    payload.

Definition transaction_signing_payload (tx : ChainTransaction) : list (string * pyval) :=
  let payload := dset "signature_b64" VNone (_transaction_payload tx) in
  dset "metadata" (VDict (dpop "pq_signature_b64" (metadata tx))) payload.

Definition signable_wallet_transaction_types : list string := ["wallet_transfer_debit"].

Definition signature_required (tx : ChainTransaction) : bool :=
  truthy (dget "signature_required" (metadata tx))
  || bool_decide (tx_type tx ∈ signable_wallet_transaction_types).

(** The message of a failed check. *)
Definition tx_fail (tx : ChainTransaction) (what : string) : bool * option string :=
  (false, Some ("transaction " +:+ tx_id tx +:+ what)).

Definition verify_chain_transaction_signature `{SignatureBackend}
    (policy : option WalletPolicy) (tx : ChainTransaction) : result (bool * option string) :=
  let md := metadata tx in
  if negb (signature_required tx) then Ok (true, None)
  else if negb (filled (public_key_b64 tx)) then Ok (tx_fail tx " is missing public_key_b64")
  else if negb (filled (signature_b64 tx)) then Ok (tx_fail tx " is missing signature_b64")
  else
  let public_key := default "" (public_key_b64 tx) in
  let signature := default "" (signature_b64 tx) in
  let address_scheme := str_or_strip (dget "address_scheme" md) in
  if String.eqb address_scheme "" then Ok (tx_fail tx " is missing address scheme")
  else
  let active_policy := default (default_wallet_policy env) policy in
  let requires_post_quantum := require_post_quantum_wallet_signatures active_policy in
  let pq_public_key_b64 := str_or_strip (dget "pq_public_key_b64" md) in
  let pq_signature_b64 := str_or_strip (dget "pq_signature_b64" md) in
  let pq_signature_scheme := str_or_strip (dget "pq_signature_scheme" md) in
  let payload := VDict (transaction_signing_payload tx) in
  if String.eqb address_scheme ADDRESS_SCHEME_ED25519 then
    if requires_post_quantum then Ok (tx_fail tx " requires a post-quantum signature")
    else
      expected_address ← address_from_public_key_b64 public_key;
      if negb (String.eqb (normalize_address (address tx)) expected_address)
      then Ok (tx_fail tx " public key does not match address")
      else if negb (verify_payload_signature public_key signature payload)
      then Ok (tx_fail tx " has invalid signature")
      else Ok (true, None)
  else if bool_decide (address_scheme ∈ HYBRID_ADDRESS_SCHEMES) then
    if negb (String.eqb pq_signature_scheme "")
       && negb (String.eqb pq_signature_scheme SIGNING_SCHEME_ML_DSA_65)
    then Ok (tx_fail tx " has unsupported post-quantum signature scheme")
    else if String.eqb pq_public_key_b64 "" || String.eqb pq_signature_b64 ""
    then Ok (tx_fail tx " is missing post-quantum signature")
    else
      expected_address ←
        hybrid_address_from_public_keys_b64 public_key pq_public_key_b64 address_scheme;
      if negb (String.eqb (normalize_address (address tx)) expected_address)
      then Ok (tx_fail tx " public keys do not match address")
      else if negb (verify_hybrid_payload_signature public_key signature
                      pq_public_key_b64 pq_signature_b64 payload)
      then Ok (tx_fail tx " has invalid hybrid signature")
      else Ok (true, None)
  else if String.eqb address_scheme ADDRESS_SCHEME_FIXED_WALLET_ID_SHA256 then
    let signing_scheme := str_or_strip (dget "signing_scheme" md) in
    if negb (String.eqb signing_scheme SIGNING_SCHEME_HYBRID_ED25519_ML_DSA_65)
    then Ok (tx_fail tx " fixed address requires hybrid signing scheme")
    else if negb (String.eqb pq_signature_scheme SIGNING_SCHEME_ML_DSA_65)
    then Ok (tx_fail tx " has unsupported post-quantum signature scheme")
    else if String.eqb pq_public_key_b64 "" || String.eqb pq_signature_b64 ""
    then Ok (tx_fail tx " is missing post-quantum signature")
    else if negb (verify_hybrid_payload_signature public_key signature
                    pq_public_key_b64 pq_signature_b64 payload)
    then Ok (tx_fail tx " has invalid hybrid signature")
    else Ok (true, None)
  else Ok (tx_fail tx " has unsupported address scheme").

(** ** Transaction construction *)

Definition deterministic_tx_id (tx_type address : string) (delta_atomic : Z)
    (settlement_id payout_id wallet_id : pyval) (counterparty_address nonce public_key_b64
     chain_id : option string) (schema_version : Z) : string :=
  let resolved_chain_id := or_opt chain_id (_default_chain_id env) in
  let payload := VDict
    [("chain_id", VStr resolved_chain_id);
     ("schema_version", VInt schema_version);
     ("tx_type", VStr tx_type);
     ("address", VStr (normalize_address address));
     ("delta_atomic", VInt delta_atomic);
     ("settlement_id", settlement_id);
     ("payout_id", payout_id);
     ("wallet_id", wallet_id);
     ("counterparty_address",
        if filled counterparty_address
        then VStr (normalize_address (default "" counterparty_address)) else VNone);
     ("nonce", val_opt nonce);
     ("public_key_b64", if filled public_key_b64 then val_opt public_key_b64 else VNone)] in
  take_str 32 (sha256_hexdigest (canonical payload)).

(** [make_chain_transaction]; [now] is the clock's reading, used when [created_at] is
    omitted. *)
Definition make_chain_transaction (now : string) (tx_type address : string)
    (delta_atomic : Z) (settlement_id payout_id wallet_id : pyval)
    (counterparty_address : option string) (note : pyval)
    (nonce public_key_b64 signature_b64 : option string) (metadata : list (string * pyval))
    (tx_id created_at chain_id : option string) (schema_version : Z) : ChainTransaction :=
  let normalized_address := normalize_address address in
  let resolved_chain_id :=
    if filled chain_id then default "" chain_id
    else py_str (py_or (dget "network" metadata) (VStr (_default_chain_id env))) in
  let resolved_tx_id :=
    or_opt tx_id
      (deterministic_tx_id tx_type normalized_address delta_atomic settlement_id payout_id
         wallet_id counterparty_address nonce public_key_b64 (Some resolved_chain_id)
         schema_version) in
  {| tx_id := resolved_tx_id;
     tx_created_at := or_opt created_at now;
     tx_type := tx_type;
     address := normalized_address;
     delta_atomic := delta_atomic;
     settlement_id := settlement_id;
     payout_id := payout_id;
     wallet_id := wallet_id;
     counterparty_address :=
       if filled counterparty_address
       then Some (normalize_address (default "" counterparty_address)) else None;
     note := note;
     nonce := nonce;
     tx_chain_id := resolved_chain_id;
     tx_schema_version := schema_version;
     public_key_b64 := if filled public_key_b64 then public_key_b64 else None;
     signature_b64 := if filled signature_b64 then signature_b64 else None;
     metadata := metadata |}.

(** ** Block hash and transaction root *)

Definition tx_payload_list (txs : list ChainTransaction) : pyval :=
  VList (map (λ tx, VDict (_transaction_payload tx)) txs).

Definition _block_hash_payload (b : ChainBlock) : list (string * pyval) :=
  [("chain_id", VStr (or_str (chain_id b) (_default_chain_id env)));
   ("schema_version",
      VInt (if schema_version b =? 0 then CHAIN_SCHEMA_VERSION else schema_version b));
   ("block_id", VStr (block_id b));
   ("height", VInt (height b));
   ("created_at", VStr (created_at b));
   ("previous_hash", VStr (previous_hash b));
   ("validator_id", validator_id b);
   ("transactions", tx_payload_list (transactions b))].

Definition compute_block_hash (b : ChainBlock) : string :=
  sha256_hexdigest (canonical (VDict (_block_hash_payload b))).

Definition compute_transaction_root (txs : list ChainTransaction) : string :=
  sha256_hexdigest (canonical (tx_payload_list txs)).
End tx.
