(* ===== verification/Ledger.v ===== *)
(** * The ledger: balances, genesis and chain validation

    [chain.py], second part: the balance and locked-bond indexes computed from blocks, the
    state root, the genesis block, and [validate_chain_blocks]. *)
From Stdlib Require Import Ascii.
From S2P Require Import Prelude.
From S2P Require Import PyStr.
From S2P Require Import PyVal.
From S2P Require Import Sha256.
From S2P Require Import Money.
From S2P Require Import Signing.
From S2P Require Import ChainTx.
Local Open Scope Z_scope.
Set Default Proof Using "Type".

(** ** Balance index *)

Abbreviation balances := (gmap string Z) (only parsing).

Definition balance_of (m : gmap string Z) (a : string) : Z := default 0 (m !! a).

(** One transaction of the loop: a transaction id already seen is skipped. *)
Definition balance_step (st : gset string * gmap string Z) (tx : ChainTransaction) :=
  let '(seen_tx_ids, m) := st in
  if bool_decide (tx_id tx ∈ seen_tx_ids) then st
  else
    let a := normalize_address (address tx) in
    ({[ tx_id tx ]} ∪ seen_tx_ids, <[a := balance_of m a + delta_atomic tx]> m).

(** [chain_balance_index(blocks=blocks)] *)
Definition chain_balance_index (blocks : list ChainBlock) : gmap string Z :=
  (foldl (λ st b, foldl balance_step st (transactions b)) (∅, ∅) blocks).2.

(** [sorted(m.items())] for a dictionary with string keys. *)
Definition sorted_items {A} (m : gmap string A) : list (string * A) :=
  py_sorted key_leb (map_to_list m).

Definition compute_state_root_from_balances (m : gmap string Z) : string :=
  let payload :=
    map (λ kv : string * Z,
           VDict [("address", VStr (normalize_address kv.1)); ("balance_atomic", VInt kv.2)])
        (filter (λ kv, kv.2 ≠ 0) (sorted_items m)) in
  sha256_hexdigest (canonical (VList payload)).

Definition compute_chain_state_root (blocks : list ChainBlock) : string :=
  compute_state_root_from_balances (chain_balance_index blocks).

(** ** Locked validator bonds *)

Definition _validator_id_from_bond_metadata (tx : ChainTransaction) : option string :=
  let raw :=
    py_or (py_or (dget "validator_id" (metadata tx)) (dget "validator_address" (metadata tx)))
          (dget "validatorAddress" (metadata tx)) in
  match raw with
  | VNone => None
  | _ =>
      let validator_id := normalize_address (py_str raw) in
      if String.eqb validator_id "" then None else Some validator_id
  end.

Definition bond_tx_types : list string := ["validator_bond_lock"; "validator_bond_pool_debit"].

(** The incremental form, used when the index file is built. *)
Definition _apply_validator_bond_index_delta (locked : gmap string Z) (tx : ChainTransaction)
  : gmap string Z :=
  if negb (bool_decide (tx_type tx ∈ bond_tx_types)) then locked
  else
    match _validator_id_from_bond_metadata tx with
    | None => locked
    | Some v =>
        let delta :=
          if String.eqb (tx_type tx) "validator_bond_lock"
          then Z.max 0 (- delta_atomic tx) else delta_atomic tx in
        if delta =? 0 then locked else <[v := balance_of locked v + delta]> locked
    end.

(** The loop body of [validator_locked_bond_index]. *)
Definition locked_bond_step (st : gset string * gmap string Z) (tx : ChainTransaction) :=
  let '(seen_tx_ids, locked_by_validator) := st in
  if bool_decide (tx_id tx ∈ seen_tx_ids) then st
  else
    let seen_tx_ids := {[ tx_id tx ]} ∪ seen_tx_ids in
    if negb (bool_decide (tx_type tx ∈ bond_tx_types)) then (seen_tx_ids, locked_by_validator)
    else
      match _validator_id_from_bond_metadata tx with
      | None => (seen_tx_ids, locked_by_validator)
      | Some v =>
          let delta :=
            if String.eqb (tx_type tx) "validator_bond_lock"
            then Z.max 0 (- delta_atomic tx) else delta_atomic tx in
          if delta =? 0 then (seen_tx_ids, locked_by_validator)
          else (seen_tx_ids,
                <[v := balance_of locked_by_validator v + delta]> locked_by_validator)
      end.

(** [validator_locked_bond_index(blocks=blocks)] *)
Definition validator_locked_bond_index (blocks : list ChainBlock) : gmap string Z :=
  (foldl (λ st b, foldl locked_bond_step st (transactions b)) (∅, ∅) blocks).2.

(** ** System addresses *)

Definition system_address (prefix : string) (mp : MoneyPolicy) : string :=
  normalize_address (prefix +:+ ":" +:+ network_value (chain_network mp)).

Definition compute_reserve_chain_address := system_address "system:compute-reserve".
Definition developer_contribution_fund_chain_address :=
  system_address "system:developer-contribution-fund".
Definition tx_fee_pool_chain_address := system_address "system:tx-fee-pool".
Definition validator_settlement_fee_pool_chain_address :=
  system_address "system:validator-settlement-fee-pool".
Definition validator_bond_pool_chain_address := system_address "system:validator-bond-pool".
Definition validator_slash_pool_chain_address := system_address "system:validator-slash-pool".

(** ** Supply *)

Definition expected_total_supply_atomic (env : Environ) (policy : option WalletPolicy)
    (money_policy : option MoneyPolicy) : result Z :=
  let mp := _money_policy_for_wallet_policy env policy money_policy in
  coins_to_atomic (str_of_Z (total_supply_coins mp)) mp.

Definition _chain_total_balance_atomic (blocks : list ChainBlock) : Z :=
  map_sum (chain_balance_index blocks).

Definition _validate_chain_supply_invariant (env : Environ) (blocks : list ChainBlock)
    (policy : option WalletPolicy) (money_policy : option MoneyPolicy) : result (option string) :=
  match blocks with
  | [] => Ok None
  | _ =>
      let total_atomic := _chain_total_balance_atomic blocks in
      expected_atomic ← expected_total_supply_atomic env policy money_policy;
      Ok (if total_atomic =? expected_atomic then None
          else Some ("chain total supply invariant failed: total_balance_atomic="
                     +:+ str_of_Z total_atomic +:+ " expected_total_supply_atomic="
                     +:+ str_of_Z expected_atomic))
  end.

(** ** Genesis *)

Definition genesis_metadata (mp : MoneyPolicy) : list (string * pyval) :=
  [("network", VStr (network_value (chain_network mp)));
   ("reward_token_code", VStr (reward_token_code mp))].

(** [make_chain_transaction] as the three genesis allocations call it. *)
Definition genesis_tx (env : Environ) (mp : MoneyPolicy) (tx_type address : string)
    (delta_atomic : Z) (wallet_id note : string) : ChainTransaction :=
  make_chain_transaction env "" tx_type address delta_atomic VNone VNone (VStr wallet_id) None
    (VStr note) None None None (genesis_metadata mp) None (Some GENESIS_CREATED_AT)
    (Some (network_value (chain_network mp))) CHAIN_SCHEMA_VERSION.

Definition genesis_chain_transactions (env : Environ) (mp : MoneyPolicy)
  : result (list ChainTransaction) :=
  let net := network_value (chain_network mp) in
  reserve_atomic ← coins_to_atomic (str_of_Z (compute_reserve_coins mp)) mp;
  developer_treasury_atomic ← coins_to_atomic (str_of_Z (developer_treasury_coins mp)) mp;
  developer_contribution_fund_atomic ←
    coins_to_atomic (str_of_Z (developer_contribution_fund_coins mp)) mp;
  Ok [genesis_tx env mp "genesis_compute_reserve_credit" (compute_reserve_chain_address mp)
        reserve_atomic ("system-compute-reserve-" +:+ net)
        "Genesis allocation for the CAI compute reserve. This is the chain source of reserve-funded jobs.";
      genesis_tx env mp "genesis_developer_contribution_fund_credit"
        (developer_contribution_fund_chain_address mp)
        developer_contribution_fund_atomic ("system-developer-contribution-fund-" +:+ net)
        "Genesis allocation for the developer contribution fund. Distribution is governed by the public contribution rules.";
      genesis_tx env mp "genesis_developer_treasury_credit" (developer_treasury_address mp)
        developer_treasury_atomic (developer_treasury_wallet_id mp)
        "Genesis allocation for the fixed founder treasury wallet."].

(** The assignments [block.state_root = ...] and [block.block_hash = ...]. *)
Definition with_state_root (b : ChainBlock) (root : string) : ChainBlock :=
  {| block_id := block_id b; height := height b; created_at := created_at b;
     previous_hash := previous_hash b; validator_id := validator_id b;
     transactions := transactions b; block_hash := block_hash b; chain_id := chain_id b;
     schema_version := schema_version b; tx_root := tx_root b; state_root := root;
     validator_public_key_b64 := validator_public_key_b64 b;
     validator_signature_b64 := validator_signature_b64 b |}.

Definition with_tx_root (b : ChainBlock) (root : string) : ChainBlock :=
  {| block_id := block_id b; height := height b; created_at := created_at b;
     previous_hash := previous_hash b; validator_id := validator_id b;
     transactions := transactions b; block_hash := block_hash b; chain_id := chain_id b;
     schema_version := schema_version b; tx_root := root; state_root := state_root b;
     validator_public_key_b64 := validator_public_key_b64 b;
     validator_signature_b64 := validator_signature_b64 b |}.

Definition with_block_hash (b : ChainBlock) (h : string) : ChainBlock :=
  {| block_id := block_id b; height := height b; created_at := created_at b;
     previous_hash := previous_hash b; validator_id := validator_id b;
     transactions := transactions b; block_hash := h; chain_id := chain_id b;
     schema_version := schema_version b; tx_root := tx_root b; state_root := state_root b;
     validator_public_key_b64 := validator_public_key_b64 b;
     validator_signature_b64 := validator_signature_b64 b |}.

(** A new block is built with an empty hash and state root, then receives its state root
    (over the chain it extends) and its hash. *)
Definition seal_block (env : Environ) (prefix : list ChainBlock) (block : ChainBlock) : ChainBlock :=
  let block := with_state_root block (compute_chain_state_root (prefix ++ [block])) in
  with_block_hash block (compute_block_hash env block).

Definition make_genesis_block (env : Environ) (mp : MoneyPolicy) : result ChainBlock :=
  txs ← genesis_chain_transactions env mp;
  let net := network_value (chain_network mp) in
  let block_id := take_str 32 (sha256_hexdigest (canonical (VDict
    [("kind", VStr "genesis");
     ("network", VStr net);
     ("height", VInt 0);
     ("created_at", VStr GENESIS_CREATED_AT);
     ("previous_hash", VStr GENESIS_PREVIOUS_HASH);
     ("validator_id", VStr "genesis");
     ("tx_ids", VList (map (λ tx, VStr (tx_id tx)) txs))]))) in
  Ok (seal_block env []
    {| block_id := block_id; height := 0; created_at := GENESIS_CREATED_AT;
       previous_hash := GENESIS_PREVIOUS_HASH; validator_id := VStr "genesis";
       transactions := txs; block_hash := ""; chain_id := net;
       schema_version := CHAIN_SCHEMA_VERSION; tx_root := compute_transaction_root env txs;
       state_root := ""; validator_public_key_b64 := None; validator_signature_b64 := None |}).

Definition expected_genesis_hash (env : Environ) (policy : option WalletPolicy)
    (money_policy : option MoneyPolicy) : result string :=
  block ← make_genesis_block env (_money_policy_for_wallet_policy env policy money_policy);
  Ok (block_hash block).

(** ** Validation *)

(** [sorted(blocks, key=lambda item: (item.height, item.created_at, item.block_hash))] *)
Definition block_leb (a b : ChainBlock) : bool :=
  (height a <? height b)
  || ((height a =? height b)
      && (str_ltb (created_at a) (created_at b)
          || (String.eqb (created_at a) (created_at b) && str_leb (block_hash a) (block_hash b)))).

Definition sort_blocks : list ChainBlock → list ChainBlock := py_sorted block_leb.

Definition blank (s : string) : bool := String.eqb (strip s) "".

(** [if c: errors.append(msg)] *)
Definition err_if (c : bool) (msg : string) : list string := if c then [msg] else [].

Definition nonce_key (tx : ChainTransaction) (n : string) : string * string :=
  (normalize_address (address tx), n).

(** [_chain_transaction_nonces] *)
Definition tx_nonce_keys (txs : list ChainTransaction) : list (string * string) :=
  omap (λ tx, nonce_key tx <$> nonce tx) txs.

Definition _chain_transaction_nonces (blocks : list ChainBlock) : gset (string * string) :=
  list_to_set (blocks ≫= λ b, tx_nonce_keys (transactions b)).

(** The loop's variables. *)
Record VState := {
  v_errors : list string;
  v_seen_block_hashes : gset string;
  v_seen_tx_ids : gset string;
  v_seen_nonces : gset (string * string);
  v_prefix_blocks : list ChainBlock;
  v_previous_block : option ChainBlock
}.

Section validate.
Context `{SignatureBackend} (env : Environ) (policy : option WalletPolicy).

(** The body of the inner loop over a block's transactions. *)
Definition validate_tx (b : ChainBlock) (st : list string * gset (string * string))
    (tx : ChainTransaction) : result (list string * gset (string * string)) :=
  let '(errors, seen_nonces) := st in
  let e_chain :=
    if blank (tx_chain_id tx) then ["transaction " +:+ tx_id tx +:+ " has empty chain_id"]
    else err_if (negb (String.eqb (tx_chain_id tx) (chain_id b)))
           ("transaction " +:+ tx_id tx +:+ " chain_id does not match block") in
  let e_schema :=
    err_if (negb (tx_schema_version tx =? CHAIN_SCHEMA_VERSION))
      ("transaction " +:+ tx_id tx +:+ " has unsupported schema_version") in
  sg ← verify_chain_transaction_signature env policy tx;
  let e_signature :=
    err_if (negb sg.1)
      (or_opt sg.2 ("transaction " +:+ tx_id tx +:+ " has invalid signature")) in
  Ok (match nonce tx with
      | None => (errors ++ e_chain ++ e_schema ++ e_signature, seen_nonces)
      | Some n =>
          let key := nonce_key tx n in
          let e_nonce :=
            err_if (bool_decide (key ∈ seen_nonces))
              ("transaction " +:+ tx_id tx +:+ " reuses nonce " +:+ n +:+ " for address "
               +:+ address tx) in
          (errors ++ e_chain ++ e_schema ++ e_signature ++ e_nonce, {[ key ]} ∪ seen_nonces)
      end).

(** [for tx_id in tx_ids: ...] *)
Definition validate_tx_id (st : list string * gset string) (id : string) :=
  let '(errors, seen_tx_ids) := st in
  (errors ++ err_if (bool_decide (id ∈ seen_tx_ids))
               ("transaction " +:+ id +:+ " appears in multiple blocks"),
   {[ id ]} ∪ seen_tx_ids).

Definition block_msg (index : nat) (what : string) : string :=
  "block[" +:+ str_of_Z (Z.of_nat index) +:+ "]" +:+ what.

(** The errors about a block's own header, before its hash is looked at. *)
Definition header_errors (expected_chain_id : string) (index : nat) (b : ChainBlock) :=
  (if blank (chain_id b) then [block_msg index " has empty chain_id"]
   else err_if (negb (String.eqb (chain_id b) expected_chain_id))
          (block_msg index " has mismatched chain_id"))
  ++ err_if (negb (schema_version b =? CHAIN_SCHEMA_VERSION))
       (block_msg index " has unsupported schema_version").

(** The errors about the block's place in the chain. *)
Definition link_errors (genesis_hash : string) (previous : option ChainBlock) (index : nat)
    (b : ChainBlock) : list string :=
  match index with
  | O =>
      err_if (negb (height b =? 0)) (block_msg index " must start at height 0")
      ++ err_if (negb (String.eqb (previous_hash b) GENESIS_PREVIOUS_HASH))
           (block_msg index " has invalid genesis previous_hash")
      ++ err_if (negb (String.eqb (block_hash b) genesis_hash))
           (block_msg index (" genesis_hash " +:+ block_hash b +:+ " does not match expected "
                             +:+ genesis_hash))
  | S _ =>
      match previous with
      | None => []
      | Some p =>
          err_if (negb (height b =? height p + 1))
            (block_msg index (" height " +:+ str_of_Z (height b) +:+ " does not follow "
                              +:+ str_of_Z (height p + 1 - 1)))
          ++ err_if (negb (String.eqb (previous_hash b) (block_hash p)))
               (block_msg index " previous_hash does not match parent")
      end
  end.

(** The errors about the list of transaction ids and the transaction root. *)
Definition content_errors (index : nat) (b : ChainBlock) (tx_ids : list string) : list string :=
  err_if (bool_decide (tx_ids = [])) (block_msg index " has no transactions")
  ++ err_if (existsb (λ i, String.eqb i "") tx_ids) (block_msg index " has empty transaction id")
  ++ err_if (negb (bool_decide (length tx_ids = size (list_to_set tx_ids : gset string))))
       (block_msg index " has duplicate transaction ids")
  ++ (if blank (tx_root b) then [block_msg index " has empty tx_root"]
      else err_if (negb (String.eqb (tx_root b) (compute_transaction_root env (transactions b))))
             (block_msg index " has invalid tx_root")).

Definition state_root_errors (index : nat) (prefix : list ChainBlock) (b : ChainBlock) :=
  if blank (state_root b) then [block_msg index " has empty state_root"]
  else err_if (negb (String.eqb (state_root b) (compute_chain_state_root (prefix ++ [b]))))
         (block_msg index " has invalid state_root").

(** The body of the loop over the ordered blocks. *)
Definition validate_block (expected_chain_id genesis_hash : string) (st : VState)
    (ib : nat * ChainBlock) : result VState :=
  let '(index, b) := ib in
  let errors := v_errors st ++ header_errors expected_chain_id index b in
  if blank (block_hash b) then
    Ok {| v_errors := errors ++ [block_msg index " has empty block_hash"];
          v_seen_block_hashes := v_seen_block_hashes st;
          v_seen_tx_ids := v_seen_tx_ids st;
          v_seen_nonces := v_seen_nonces st;
          v_prefix_blocks := v_prefix_blocks st;
          v_previous_block := v_previous_block st |}
  else
    let errors := errors
      ++ err_if (bool_decide (block_hash b ∈ v_seen_block_hashes st))
           (block_msg index (" duplicates block_hash " +:+ block_hash b))
      ++ err_if (negb (String.eqb (compute_block_hash env b) (block_hash b)))
           (block_msg index " has invalid block_hash")
      ++ link_errors genesis_hash (v_previous_block st) index b in
    let tx_ids := map (λ tx, strip (tx_id tx)) (transactions b) in
    let errors := errors ++ content_errors index b tx_ids in
    en ← foldM (validate_tx b) (errors, v_seen_nonces st) (transactions b);
    let et := foldl validate_tx_id (en.1, v_seen_tx_ids st) tx_ids in
    Ok {| v_errors := et.1 ++ state_root_errors index (v_prefix_blocks st) b;
          v_seen_block_hashes := {[ block_hash b ]} ∪ v_seen_block_hashes st;
          v_seen_tx_ids := et.2;
          v_seen_nonces := en.2;
          v_prefix_blocks := v_prefix_blocks st ++ [b];
          v_previous_block := Some b |}.

Definition v_init : VState :=
  {| v_errors := []; v_seen_block_hashes := ∅; v_seen_tx_ids := ∅; v_seen_nonces := ∅;
     v_prefix_blocks := []; v_previous_block := None |}.

Definition negative_entries (what suffix : string) (m : gmap string Z) : list string :=
  map (λ kv : string * Z, what +:+ kv.1 +:+ suffix) (filter (λ kv, kv.2 < 0) (sorted_items m)).

Definition validate_chain_blocks (blocks : list ChainBlock) : result (list string) :=
  match blocks with
  | [] => Ok []
  | _ =>
      let ordered_blocks := sort_blocks blocks in
      let expected_chain_id := active_chain_id env policy in
      genesis_hash ← expected_genesis_hash env policy None;
      st ← foldM (validate_block expected_chain_id genesis_hash) v_init
             (enumerate ordered_blocks);
      supply_error ← _validate_chain_supply_invariant env ordered_blocks policy None;
      Ok (v_errors st
          ++ negative_entries "address " " has negative balance"
               (chain_balance_index ordered_blocks)
          ++ match supply_error with Some e => [e] | None => [] end
          ++ negative_entries "validator " " has negative locked bond"
               (validator_locked_bond_index ordered_blocks))
  end.
End validate.
