(* ===== verification/LedgerFacts.v ===== *)
(** * Facts about the ledger's indexes

    What the balance and bond indexes compute, independently of how they loop: balances are
    sums of the deltas of the distinct transactions, and the total is the sum of all
    deltas.  The incremental bond index of the index file is the one recomputed from
    blocks. *)
From Stdlib Require Import Ascii.
From S2P Require Import Prelude.
From S2P Require Import PyStr.
From S2P Require Import PyVal.
From S2P Require Import Sha256.
From S2P Require Import Money.
From S2P Require Import Signing.
From S2P Require Import ChainTx.
From S2P Require Import Ledger.
Local Open Scope Z_scope.
Set Default Proof Using "Type".

Definition chain_txs (blocks : list ChainBlock) : list ChainTransaction :=
  blocks ≫= transactions.

Lemma foldl_bind {A B C} (f : C → B → C) (g : A → list B) (l : list A) (c : C) :
  foldl (λ c x, foldl f c (g x)) c l = foldl f c (l ≫= g).
Proof. revert c. induction l as [|x l IH]; intros c; cbn; [done|]. by rewrite IH, foldl_app. Qed.

Lemma chain_txs_app l1 l2 : chain_txs (l1 ++ l2) = chain_txs l1 ++ chain_txs l2.
Proof. apply bind_app. Qed.

Lemma err_if_nil c msg : err_if c msg = [] ↔ c = false.
Proof. by destruct c. Qed.

Lemma chain_txs_singleton b : chain_txs [b] = transactions b.
Proof. unfold chain_txs. cbn. by rewrite app_nil_r. Qed.

(** The transactions that are counted: the first one with each id. *)
Fixpoint fresh_txs (seen : gset string) (txs : list ChainTransaction) : list ChainTransaction :=
  match txs with
  | [] => []
  | tx :: txs' =>
      if bool_decide (tx_id tx ∈ seen) then fresh_txs seen txs'
      else tx :: fresh_txs ({[ tx_id tx ]} ∪ seen) txs'
  end.

Definition counted (blocks : list ChainBlock) : list ChainTransaction :=
  fresh_txs ∅ (chain_txs blocks).

Definition deltas (txs : list ChainTransaction) : Z := sumZ (map delta_atomic txs).

(** The transactions of one (normalised) address. *)
Definition of_address (a : string) (txs : list ChainTransaction) : list ChainTransaction :=
  filter (λ tx, normalize_address (address tx) = a) txs.

Definition tx_ids_of (txs : list ChainTransaction) : list string := map tx_id txs.

#[global] Arguments of_address : simpl never.
#[global] Arguments deltas : simpl never.

Lemma of_address_cons a tx txs :
  deltas (of_address a (tx :: txs))
  = (if decide (normalize_address (address tx) = a) then delta_atomic tx else 0)
    + deltas (of_address a txs).
Proof. unfold of_address. rewrite filter_cons. case_decide; unfold deltas; cbn; lia. Qed.

Lemma deltas_cons tx txs : deltas (tx :: txs) = delta_atomic tx + deltas txs.
Proof. done. Qed.

Lemma deltas_app l1 l2 : deltas (l1 ++ l2) = deltas l1 + deltas l2.
Proof. unfold deltas. by rewrite map_app, sumZ_app. Qed.

Lemma fresh_txs_nodup seen txs :
  NoDup (tx_ids_of txs) → (∀ i, i ∈ tx_ids_of txs → i ∉ seen) → fresh_txs seen txs = txs.
Proof.
  revert seen. induction txs as [|tx txs IH]; intros seen; cbn; [done|].
  rewrite NoDup_cons. intros [Hn Hd] Hs. rewrite bool_decide_eq_false_2 by set_solver.
  f_equal. apply IH; set_solver.
Qed.

Lemma counted_nodup blocks : NoDup (tx_ids_of (chain_txs blocks)) → counted blocks = chain_txs blocks.
Proof. intros H. apply fresh_txs_nodup; set_solver. Qed.

Lemma balance_of_insert m a d b :
  balance_of (<[a := balance_of m a + d]> m) b = balance_of m b + (if decide (a = b) then d else 0).
Proof.
  unfold balance_of. case_decide as Hab; [subst; rewrite lookup_insert_eq|rewrite lookup_insert_ne by done];
    cbn; lia.
Qed.

Lemma balance_fold_seen st txs :
  (foldl balance_step st txs).1 = list_to_set (tx_ids_of txs) ∪ st.1.
Proof.
  revert st. induction txs as [|tx txs IH]; intros [seen m]; cbn; [set_solver|].
  rewrite IH. case_bool_decide; cbn; set_solver.
Qed.

Lemma balance_fold_lookup seen m txs a :
  balance_of (foldl balance_step (seen, m) txs).2 a
  = balance_of m a + deltas (of_address a (fresh_txs seen txs)).
Proof.
  revert seen m. induction txs as [|tx txs IH]; intros seen m; cbn; [change (deltas _) with 0; lia|].
  case_bool_decide; cbn; rewrite IH; [done|]. rewrite balance_of_insert, of_address_cons. lia.
Qed.

Lemma balance_fold_total seen m txs :
  map_sum (foldl balance_step (seen, m) txs).2 = map_sum m + deltas (fresh_txs seen txs).
Proof.
  revert seen m. induction txs as [|tx txs IH]; intros seen m; cbn; [change (deltas _) with 0; lia|].
  case_bool_decide; cbn; rewrite IH; [done|].
  unfold balance_of. rewrite map_sum_add, deltas_cons. lia.
Qed.

Lemma chain_balance_index_flat blocks :
  chain_balance_index blocks = (foldl balance_step (∅, ∅) (chain_txs blocks)).2.
Proof. unfold chain_balance_index. by rewrite foldl_bind. Qed.

(** The balance of an address is the sum of the deltas of its counted transactions. *)
Lemma chain_balance_lookup blocks a :
  balance_of (chain_balance_index blocks) a = deltas (of_address a (counted blocks)).
Proof. rewrite chain_balance_index_flat, balance_fold_lookup. unfold balance_of. by rewrite lookup_empty. Qed.

Lemma chain_balance_total blocks :
  map_sum (chain_balance_index blocks) = deltas (counted blocks).
Proof. rewrite chain_balance_index_flat, balance_fold_total. done. Qed.

(** Extending a chain by a block. *)
Lemma chain_balance_index_snoc blocks b :
  chain_balance_index (blocks ++ [b])
  = (foldl balance_step (list_to_set (tx_ids_of (chain_txs blocks)), chain_balance_index blocks)
       (transactions b)).2.
Proof.
  rewrite !chain_balance_index_flat, chain_txs_app, chain_txs_singleton, foldl_app.
  pose proof (balance_fold_seen (∅, ∅) (chain_txs blocks)) as Hs. cbn in Hs.
  destruct (foldl balance_step (∅, ∅) (chain_txs blocks)) as [seen m]. cbn in *.
  by rewrite Hs, union_empty_r_L.
Qed.

(** ** Bonds *)

(** The loop of [validator_locked_bond_index] is the incremental update on the transactions
    not seen before. *)
Lemma locked_bond_step_incremental st tx :
  locked_bond_step st tx
  = if bool_decide (tx_id tx ∈ st.1) then st
    else ({[ tx_id tx ]} ∪ st.1, _apply_validator_bond_index_delta st.2 tx).
Proof.
  destruct st as [seen m]. unfold locked_bond_step, _apply_validator_bond_index_delta. cbn.
  case_bool_decide; [done|]. destruct (negb _); [done|].
  destruct (_validator_id_from_bond_metadata tx); [|done]. by destruct (_ =? 0).
Qed.

Lemma locked_bond_fold seen m txs :
  (foldl locked_bond_step (seen, m) txs).2
  = foldl _apply_validator_bond_index_delta m (fresh_txs seen txs).
Proof.
  revert seen m. induction txs as [|tx txs IH]; intros seen m; [done|].
  cbn [foldl fresh_txs]. rewrite locked_bond_step_incremental. cbn [fst snd].
  case_bool_decide; cbn; by rewrite IH.
Qed.

Lemma validator_locked_bond_index_counted blocks :
  validator_locked_bond_index blocks = foldl _apply_validator_bond_index_delta ∅ (counted blocks).
Proof. unfold validator_locked_bond_index. by rewrite foldl_bind, locked_bond_fold. Qed.

(** ** Sorted items of a map *)

Lemma elem_of_sorted_items {A} (m : gmap string A) k v :
  (k, v) ∈ sorted_items m ↔ m !! k = Some v.
Proof. unfold sorted_items. by rewrite elem_of_py_sorted, elem_of_map_to_list. Qed.

Lemma negative_entries_nil what suffix m :
  negative_entries what suffix m = [] ↔ map_Forall (λ _ v, 0 ≤ v) m.
Proof.
  unfold negative_entries. split.
  - intros H k v Hk. destruct (Z.lt_ge_cases v 0) as [Hlt|]; [|done]. exfalso.
    assert ((k, v) ∈ filter (λ kv : string * Z, kv.2 < 0) (sorted_items m)) as Hin.
    { apply list_elem_of_filter. split; [done|]. by apply elem_of_sorted_items. }
    apply map_eq_nil in H. rewrite H in Hin. by apply elem_of_nil in Hin.
  - intros H. replace (filter _ _) with (@nil (string * Z)); [done|]. symmetry.
    apply elem_of_nil_inv. intros [k v]. rewrite list_elem_of_filter, elem_of_sorted_items.
    intros [Hlt Hk]. apply H in Hk. cbn in *. lia.
Qed.

(** ** Amounts *)

Lemma str_of_Z_no_dot z : has_char "." (str_of_Z z) = false.
Proof.
  unfold str_of_Z. destruct (z <? 0) eqn:E; bool_to_prop.
  - destruct (str_of_nonneg_spec (- z)) as (Hd & _); [lia|].
    change ("-" +:+ ?s) with (String "-" s). cbn [has_char]. by rewrite all_digits_no_char.
  - destruct (str_of_nonneg_spec z) as (Hd & _); [lia|]. by rewrite all_digits_no_char.
Qed.

(** A whole number of coins, written by [str()]. *)
Lemma coins_to_atomic_whole z mp :
  coins_to_atomic (str_of_Z z) mp = Ok (z * 10 ^ Z.of_nat (decimals mp)).
Proof.
  assert (∀ s, has_char "." s = false → partition1 "." s = (s, "")) as Hp.
  { induction s as [|c s IH]; [done|]. cbn [has_char partition1]. intros H. bool_to_prop.
    rewrite (Ascii.eqb_sym c). by rewrite H, IH. }
  unfold coins_to_atomic. rewrite Hp by apply str_of_Z_no_dot.
  rewrite str_app_nil_l, take_str_all by (by rewrite repeat_char_length).
  assert (int_of_str (if String.eqb (repeat_char "0" (decimals mp)) "" then "0"
                      else repeat_char "0" (decimals mp)) = Some 0) as Hz.
  { destruct (decimals mp) as [|n]; [done|]. cbn [repeat_char String.eqb].
    change (String "0" (repeat_char "0" n)) with (repeat_char "0" (S n)).
    destruct (repeat_char_zero_spec (S n)) as (Hd & Hv). rewrite int_of_digits by done. by rewrite Hv. }
  unfold str_of_Z. destruct (z <? 0) eqn:E; bool_to_prop.
  - destruct (str_of_nonneg_spec (- z)) as (Hd & Hv & Hne); [lia|].
    change ("-" +:+ ?s) with (String "-" s). cbn [String.eqb startswith drop_str Ascii.eqb Bool.eqb].
    change (startswith "" _) with true. cbn [andb]. cbv iota. rewrite int_of_digits by done.
    rewrite Hz, Hv. f_equal. lia.
  - destruct (str_of_nonneg_spec z) as (Hd & Hv & Hne); [lia|].
    destruct (String.eqb_spec (str_of_nonneg z) ""); [done|].
    rewrite startswith_digits, int_of_digits by done. rewrite Hz, Hv. f_equal. lia.
Qed.
