(* ===== verification/Validation.v ===== *)
(** * What [validate_chain_blocks] decides

    A declarative specification of a valid chain ([valid_block], [valid_blocks],
    [valid_chain]) and the proof that [validate_chain_blocks] reports no error exactly on
    the chains that satisfy it. *)
From Stdlib Require Import Ascii.
From S2P Require Import Prelude.
From S2P Require Import PyStr.
From S2P Require Import PyVal.
From S2P Require Import Sha256.
From S2P Require Import Money.
From S2P Require Import Signing.
From S2P Require Import ChainTx.
From S2P Require Import Ledger.
From S2P Require Import LedgerFacts.
Local Open Scope Z_scope.
Set Default Proof Using "Type".

Definition stripped_ids (txs : list ChainTransaction) : list string :=
  map (λ tx, strip (tx_id tx)) txs.

Section spec.
Context `{SignatureBackend} (env : Environ) (policy : option WalletPolicy).

(** A transaction that may be in block [b]. *)
Record valid_tx (b : ChainBlock) (tx : ChainTransaction) : Prop := {
  vt_chain : tx_chain_id tx = chain_id b;
  vt_schema : tx_schema_version tx = CHAIN_SCHEMA_VERSION;
  vt_signature : ∃ msg, verify_chain_transaction_signature env policy tx = Ok (true, msg)
}.

(** The block's place: the policy's genesis block, or the successor of the last block. *)
Definition linked (pre : list ChainBlock) (b : ChainBlock) : Prop :=
  match last pre with
  | None =>
      height b = 0 ∧ previous_hash b = GENESIS_PREVIOUS_HASH
      ∧ expected_genesis_hash env policy None = Ok (block_hash b)
  | Some p => height b = height p + 1 ∧ previous_hash b = block_hash p
  end.

(** Block [b] may follow the blocks [pre]. *)
Record valid_block (pre : list ChainBlock) (b : ChainBlock) : Prop := {
  vb_chain : chain_id b = active_chain_id env policy;
  vb_schema : schema_version b = CHAIN_SCHEMA_VERSION;
  vb_hash : block_hash b = compute_block_hash env b;
  vb_new_hash : block_hash b ∉ map block_hash pre;
  vb_linked : linked pre b;
  vb_nonempty : transactions b ≠ [];
  vb_ids : Forall (λ i, i ≠ "") (stripped_ids (transactions b));
  vb_ids_unique : NoDup (stripped_ids (transactions b));
  vb_ids_new : ∀ i, i ∈ stripped_ids (transactions b) → i ∉ stripped_ids (chain_txs pre);
  vb_tx_root : tx_root b = compute_transaction_root env (transactions b);
  vb_txs : Forall (valid_tx b) (transactions b);
  vb_nonces_unique : NoDup (tx_nonce_keys (transactions b));
  vb_nonces_new : ∀ k, k ∈ tx_nonce_keys (transactions b) → k ∉ tx_nonce_keys (chain_txs pre);
  vb_state_root : state_root b = compute_chain_state_root (pre ++ [b])
}.

Inductive valid_blocks : list ChainBlock → Prop :=
| valid_blocks_nil : valid_blocks []
| valid_blocks_snoc pre b : valid_blocks pre → valid_block pre b → valid_blocks (pre ++ [b]).

Record valid_chain (blocks : list ChainBlock) : Prop := {
  vc_blocks : valid_blocks blocks;
  vc_balances : map_Forall (λ _ v, 0 ≤ v) (chain_balance_index blocks);
  vc_supply :
    expected_total_supply_atomic env policy None = Ok (map_sum (chain_balance_index blocks));
  vc_bonds : map_Forall (λ _ v, 0 ≤ v) (validator_locked_bond_index blocks)
}.
End spec.

(** ** Small facts *)

Lemma app_nil_iff {A} (l1 l2 : list A) : l1 ++ l2 = [] ↔ l1 = [] ∧ l2 = [].
Proof. split; [apply app_eq_nil|by intros [-> ->]]. Qed.

Lemma str_eqb_false s t : negb (String.eqb s t) = false ↔ s = t.
Proof. rewrite negb_false_iff. apply String.eqb_eq. Qed.

Lemma z_eqb_false x y : negb (x =? y) = false ↔ x = y.
Proof. rewrite negb_false_iff. apply Z.eqb_eq. Qed.

#[export] Hint Rewrite @app_nil_iff err_if_nil str_eqb_false z_eqb_false @bool_decide_eq_false : cai.

Lemma active_chain_id_not_blank env policy : blank (active_chain_id env policy) = false.
Proof. unfold active_chain_id. by destruct (chain_network _). Qed.

Lemma blank_sha s : blank (sha256_hexdigest s) = false.
Proof. apply sha256_not_blank. Qed.

Lemma stripped_ids_app l1 l2 : stripped_ids (l1 ++ l2) = stripped_ids l1 ++ stripped_ids l2.
Proof. apply map_app. Qed.

Lemma tx_nonce_keys_app l1 l2 : tx_nonce_keys (l1 ++ l2) = tx_nonce_keys l1 ++ tx_nonce_keys l2.
Proof. apply omap_app. Qed.

(** ** The inner loops *)

Definition nonce_new (seen : gset (string * string)) (tx : ChainTransaction) : Prop :=
  ∀ n, nonce tx = Some n → nonce_key tx n ∉ seen.

Definition add_nonce (tx : ChainTransaction) (seen : gset (string * string)) :=
  match nonce tx with None => seen | Some n => {[ nonce_key tx n ]} ∪ seen end.

Lemma tx_nonce_keys_cons tx txs :
  tx_nonce_keys (tx :: txs)
  = match nonce tx with None => [] | Some n => [nonce_key tx n] end ++ tx_nonce_keys txs.
Proof. unfold tx_nonce_keys. cbn. by destruct (nonce tx). Qed.

Lemma nonces_cons_iff seen tx txs :
  nonce_new seen tx ∧ NoDup (tx_nonce_keys txs)
    ∧ (∀ k, k ∈ tx_nonce_keys txs → k ∉ add_nonce tx seen)
  ↔ NoDup (tx_nonce_keys (tx :: txs)) ∧ (∀ k, k ∈ tx_nonce_keys (tx :: txs) → k ∉ seen).
Proof.
  rewrite tx_nonce_keys_cons. unfold nonce_new, add_nonce. destruct (nonce tx) as [n|]; cbn.
  - rewrite NoDup_cons. set_solver.
  - naive_solver.
Qed.

Lemma validate_tx_ids_spec ids : ∀ errors seen,
  (foldl validate_tx_id (errors, seen) ids).2 = list_to_set ids ∪ seen ∧
  ((foldl validate_tx_id (errors, seen) ids).1 = []
   ↔ errors = [] ∧ NoDup ids ∧ (∀ i, i ∈ ids → i ∉ seen)).
Proof.
  induction ids as [|i ids IH]; intros errors seen.
  - cbn. split; [set_solver|]. pose proof (NoDup_nil_2 (A:=string)). set_solver by eauto.
  - cbn [foldl validate_tx_id]. destruct (IH (errors ++ err_if (bool_decide (i ∈ seen))
      ("transaction " +:+ i +:+ " appears in multiple blocks")) ({[i]} ∪ seen)) as [-> ->].
    split; [set_solver|]. autorewrite with cai. rewrite NoDup_cons. set_solver.
Qed.

Section loops.
Context `{SignatureBackend} (env : Environ) (policy : option WalletPolicy).

(** [valid_tx] as the loop tests it, block chain id not yet known to be non-blank. *)
Definition clean_tx (b : ChainBlock) (tx : ChainTransaction) : Prop :=
  blank (tx_chain_id tx) = false ∧ valid_tx env policy b tx.

Lemma validate_tx_spec b errors seen tx st :
  validate_tx env policy b (errors, seen) tx = Ok st →
  st.2 = add_nonce tx seen ∧ (st.1 = [] ↔ errors = [] ∧ clean_tx b tx ∧ nonce_new seen tx).
Proof.
  unfold validate_tx, clean_tx, nonce_new, add_nonce.
  destruct (verify_chain_transaction_signature env policy tx) as [[ok msg]|] eqn:E; [|done].
  cbn. intros Hst. split; [destruct (nonce tx); by injection Hst as <-|].
  assert (valid_tx env policy b tx ↔ tx_chain_id tx = chain_id b
          ∧ tx_schema_version tx = CHAIN_SCHEMA_VERSION ∧ ok = true) as ->.
  { split; [intros [Hc Hs [m Hm]]; rewrite E in Hm; by simplify_eq|].
    intros (Hc & Hs & ->). split; [done|done|]. by exists msg. }
  destruct (nonce tx) as [n|]; injection Hst as <-; cbn [fst];
    destruct (blank (tx_chain_id tx)); cbn; autorewrite with cai; rewrite ?negb_false_iff;
    naive_solver.
Qed.

Lemma validate_tx_total b st tx : clean_tx b tx → ∃ st', validate_tx env policy b st tx = Ok st'.
Proof.
  intros [_ [_ _ [msg Hm]]]. destruct st as [errors seen]. unfold validate_tx. rewrite Hm. cbn. eauto.
Qed.

Lemma validate_txs_spec b txs : ∀ errors seen st,
  foldM (validate_tx env policy b) (errors, seen) txs = Ok st →
  st.2 = list_to_set (tx_nonce_keys txs) ∪ seen ∧
  (st.1 = [] ↔ errors = [] ∧ Forall (clean_tx b) txs ∧ NoDup (tx_nonce_keys txs)
               ∧ (∀ k, k ∈ tx_nonce_keys txs → k ∉ seen)).
Proof.
  induction txs as [|tx txs IH]; intros errors seen st.
  - intros [= <-]. cbn. split; [set_solver|]. pose proof (NoDup_nil_2 (A:=string * string)).
    set_solver by eauto.
  - cbn [foldM]. destruct (validate_tx _ _ _ _ _) as [[e1 s1]|] eqn:E; [|done].
    apply validate_tx_spec in E as [Hs1 He1]. cbn in Hs1, He1. subst s1. intros Hf.
    apply IH in Hf as [-> Herr]. split.
    + rewrite tx_nonce_keys_cons. unfold add_nonce. destruct (nonce tx); cbn; set_solver.
    + rewrite Herr, He1, Forall_cons, <- nonces_cons_iff. naive_solver.
Qed.

Lemma validate_txs_total b txs st :
  Forall (clean_tx b) txs → ∃ st', foldM (validate_tx env policy b) st txs = Ok st'.
Proof.
  intros Hall. revert st. induction Hall as [|tx txs Htx Hall IH]; intros st; cbn; [eauto|].
  destruct (validate_tx_total b st tx Htx) as [st' ->]. apply IH.
Qed.

End loops.

(** ** The loop over blocks *)

(** What the loop's variables hold after the blocks [pre]. *)
Record loop_state (pre : list ChainBlock) (st : VState) : Prop := {
  ls_hashes : v_seen_block_hashes st = list_to_set (map block_hash pre);
  ls_ids : v_seen_tx_ids st = list_to_set (stripped_ids (chain_txs pre));
  ls_nonces : v_seen_nonces st = list_to_set (tx_nonce_keys (chain_txs pre));
  ls_prefix : v_prefix_blocks st = pre;
  ls_previous : v_previous_block st = last pre
}.

Lemma loop_state_snoc pre st b e s t :
  loop_state pre st →
  s = list_to_set (tx_nonce_keys (transactions b)) ∪ v_seen_nonces st →
  t = list_to_set (stripped_ids (transactions b)) ∪ v_seen_tx_ids st →
  loop_state (pre ++ [b])
    {| v_errors := e; v_seen_block_hashes := {[ block_hash b ]} ∪ v_seen_block_hashes st;
       v_seen_tx_ids := t; v_seen_nonces := s; v_prefix_blocks := v_prefix_blocks st ++ [b];
       v_previous_block := Some b |}.
Proof.
  intros [Hh Hi Hn Hp Hl] -> ->.
  split; cbn; rewrite ?Hh, ?Hi, ?Hn, ?Hp, ?chain_txs_app, ?chain_txs_singleton, ?map_app,
    ?stripped_ids_app, ?tx_nonce_keys_app, ?last_snoc, ?list_to_set_app_L; set_solver.
Qed.

Section blocks.
Context `{SignatureBackend} (env : Environ) (policy : option WalletPolicy).
Context (genesis_hash : string).
Context (Hgenesis : expected_genesis_hash env policy None = Ok genesis_hash).

Lemma header_errors_nil index b :
  header_errors (active_chain_id env policy) index b = []
  ↔ chain_id b = active_chain_id env policy ∧ schema_version b = CHAIN_SCHEMA_VERSION.
Proof.
  unfold header_errors. pose proof (active_chain_id_not_blank env policy).
  destruct (blank (chain_id b)) eqn:E; autorewrite with cai; [|done].
  split; [naive_solver|]. intros [Hc _]. congruence.
Qed.

Lemma link_errors_nil pre b :
  link_errors genesis_hash (last pre) (length pre) b = [] ↔ linked env policy pre b.
Proof using Hgenesis.
  unfold link_errors, linked. destruct pre as [|p pre _] using rev_ind; cbn.
  - autorewrite with cai. rewrite Hgenesis. naive_solver.
  - rewrite last_snoc, length_app. cbn. rewrite Nat.add_1_r. by autorewrite with cai.
Qed.

Lemma content_errors_nil index b :
  NoDup (stripped_ids (transactions b)) →
  content_errors env index b (stripped_ids (transactions b)) = []
  ↔ transactions b ≠ [] ∧ Forall (λ i, i ≠ "") (stripped_ids (transactions b))
    ∧ tx_root b = compute_transaction_root env (transactions b).
Proof.
  intros Hnd. unfold content_errors. autorewrite with cai.
  rewrite (size_list_to_set (C:=gset string)), bool_decide_eq_true_2 by done.
  assert (existsb (λ i, String.eqb i "") (stripped_ids (transactions b)) = false
          ↔ Forall (λ i, i ≠ "") (stripped_ids (transactions b))) as ->.
  { clear. induction (stripped_ids _) as [|i l IH]; cbn; [by split|].
    rewrite orb_false_iff, Forall_cons, IH, String.eqb_neq. done. }
  assert (stripped_ids (transactions b) ≠ [] ↔ transactions b ≠ []) as ->
    by (by destruct (transactions b)).
  destruct (blank (tx_root b)) eqn:E; autorewrite with cai; [|cbn; naive_solver].
  split; [naive_solver|]. intros (_ & _ & Hr). rewrite Hr in E. unfold compute_transaction_root in E. by rewrite blank_sha in E.
Qed.

Lemma state_root_errors_nil index pre b :
  state_root_errors index pre b = [] ↔ state_root b = compute_chain_state_root (pre ++ [b]).
Proof.
  unfold state_root_errors. destruct (blank (state_root b)) eqn:E; autorewrite with cai; [|done].
  split; [done|]. intros Hr. rewrite Hr in E. unfold compute_chain_state_root, compute_state_root_from_balances in E.
  by rewrite blank_sha in E.
Qed.

Lemma clean_tx_valid b txs :
  blank (chain_id b) = false →
  Forall (clean_tx env policy b) txs ↔ Forall (valid_tx env policy b) txs.
Proof.
  intros Hb. unfold clean_tx. rewrite !Forall_forall. split; [naive_solver|].
  intros Hall tx Htx. split; [|by apply Hall]. by rewrite (vt_chain _ _ _ _ (Hall tx Htx)).
Qed.

Local Abbreviation step := (validate_block env policy (active_chain_id env policy) genesis_hash).

(** The errors only grow. *)
Lemma validate_block_grows st ib st' : step st ib = Ok st' → v_errors st' = [] → v_errors st = [].
Proof.
  destruct ib as [index b]. unfold validate_block. destruct (blank (block_hash b)).
  - intros [= <-]. cbn. autorewrite with cai. naive_solver.
  - rewrite bind_ok. intros ([e s] & Hf & [= <-]). cbn. autorewrite with cai. intros [Het _].
    apply validate_txs_spec in Hf as [_ He].
    destruct (validate_tx_ids_spec (stripped_ids (transactions b)) e (v_seen_tx_ids st)) as [_ Hi].
    apply Hi in Het as [-> _]. destruct He as [He _]. specialize (He eq_refl).
    destruct He as [He _]. autorewrite with cai in He. naive_solver.
Qed.

(** The test made on one block, as a conjunction. *)
Definition block_test (pre : list ChainBlock) (b : ChainBlock) (st : VState) : Prop :=
  v_errors st = [] ∧ valid_block env policy pre b.

(** One block: no error remains exactly when there was none and the block is valid. *)
Lemma validate_block_spec pre st b st' :
  loop_state pre st → step st (length pre, b) = Ok st' →
  (v_errors st' = [] ↔ block_test pre b st)
  ∧ (v_errors st' = [] → loop_state (pre ++ [b]) st').
Proof using Hgenesis.
  intros Hls. pose proof Hls as [Hh Hi Hn Hp Hl]. unfold validate_block, block_test.
  destruct (blank (block_hash b)) eqn:Eb.
  { intros [= <-]. cbn. autorewrite with cai. split; [|naive_solver]. split; [naive_solver|].
    intros [_ [_ _ Hhash]]. rewrite Hhash in Eb. unfold compute_block_hash in Eb.
    by rewrite blank_sha in Eb. }
  rewrite bind_ok. intros ([e s] & Hf & [= <-]). cbn.
  apply validate_txs_spec in Hf as [Hs He]. cbn in Hs, He.
  destruct (validate_tx_ids_spec (stripped_ids (transactions b)) e (v_seen_tx_ids st)) as [Hi2 Hi1].
  split; [|intros _; by apply loop_state_snoc].
  autorewrite with cai. change (map (λ tx, strip (tx_id tx)) ?l) with (stripped_ids l).
  rewrite Hi1, He. autorewrite with cai. rewrite header_errors_nil, Hl, link_errors_nil, Hp,
    state_root_errors_nil, Hh, Hi, Hn.
  setoid_rewrite elem_of_list_to_set.
  split.
  - intros ((Hall & Hnd & Hnew) & Hsr). rewrite content_errors_nil in Hall by done.
    destruct_and!. rewrite clean_tx_valid in * by
      (match goal with Hc : chain_id b = _ |- _ => rewrite Hc end; apply active_chain_id_not_blank).
    split; [done|]. by split.
  - intros [Herr []]. rewrite content_errors_nil by done.
    rewrite clean_tx_valid by (by rewrite vb_chain0; apply active_chain_id_not_blank).
    by split_and!.
Qed.

Lemma validate_block_total pre st b :
  valid_block env policy pre b → ∃ st', step st (length pre, b) = Ok st'.
Proof.
  intros Hb. unfold validate_block. destruct (blank (block_hash b)); [eauto|].
  destruct (validate_txs_total env policy b (transactions b)
    ((((v_errors st ++ header_errors (active_chain_id env policy) (length pre) b)
      ++ err_if (bool_decide (block_hash b ∈ v_seen_block_hashes st))
           (block_msg (length pre) (" duplicates block_hash " +:+ block_hash b))
      ++ err_if (negb (String.eqb (compute_block_hash env b) (block_hash b)))
           (block_msg (length pre) " has invalid block_hash")
      ++ link_errors genesis_hash (v_previous_block st) (length pre) b)
      ++ content_errors env (length pre) b (stripped_ids (transactions b))), v_seen_nonces st))
    as [st' Hst'].
  - apply clean_tx_valid; [|apply Hb]. rewrite (vb_chain _ _ _ _ Hb).
    apply active_chain_id_not_blank.
  - unfold stripped_ids in Hst'. rewrite Hst'. cbn. eauto.
Qed.

Local Abbreviation run := (foldM step v_init).

Lemma loop_state_init : loop_state [] v_init.
Proof. by split. Qed.

Lemma validate_loop_sound blocks : ∀ st,
  run (enumerate blocks) = Ok st → v_errors st = [] →
  valid_blocks env policy blocks ∧ loop_state blocks st.
Proof using Hgenesis.
  induction blocks as [|b blocks IH] using rev_ind; intros st.
  - intros [= <-] _. split; [constructor|apply loop_state_init].
  - rewrite enumerate_from_snoc, foldM_app, bind_ok. cbn [foldM]. intros (st1 & Hpre & Hst) Herr.
    destruct (step st1 _) as [st2|] eqn:Hstep; [|done]. injection Hst as ->.
    destruct (IH st1 Hpre) as [Hv Hls]; [by eapply validate_block_grows|].
    apply validate_block_spec in Hstep as [Hiff Hls']; [|done].
    split; [|by apply Hls']. constructor; [done|]. by apply Hiff.
Qed.

Lemma validate_loop_complete blocks :
  valid_blocks env policy blocks →
  ∃ st, run (enumerate blocks) = Ok st ∧ v_errors st = [] ∧ loop_state blocks st.
Proof using Hgenesis.
  induction 1 as [|pre b Hpre (st & Hrun & Herr & Hls) Hb].
  - exists v_init. split_and!; [done..|apply loop_state_init].
  - rewrite enumerate_from_snoc, foldM_app, Hrun. cbn [mbind result_bind foldM Nat.add].
    destruct (validate_block_total pre st b Hb) as [st' Hst']. rewrite Hst'.
    apply validate_block_spec in Hst' as [Hiff Hls']; [|done].
    assert (v_errors st' = []) by (by apply Hiff). eauto.
Qed.
End blocks.

(** ** The main equivalence *)

Lemma genesis_total env mp : ∃ g, make_genesis_block env mp = Ok g.
Proof.
  unfold make_genesis_block, genesis_chain_transactions. rewrite !coins_to_atomic_whole.
  cbn [mbind result_bind]. eauto.
Qed.

Lemma expected_genesis_hash_total env policy mp : ∃ h, expected_genesis_hash env policy mp = Ok h.
Proof.
  unfold expected_genesis_hash. destruct (genesis_total env (_money_policy_for_wallet_policy env policy mp))
    as [g ->]. cbn. eauto.
Qed.

Definition supply_of (mp : MoneyPolicy) : Z :=
  total_supply_coins mp * 10 ^ Z.of_nat (decimals mp).

Lemma expected_total_supply_ok env policy mp :
  expected_total_supply_atomic env policy mp
  = Ok (supply_of (_money_policy_for_wallet_policy env policy mp)).
Proof. apply coins_to_atomic_whole. Qed.

Lemma sort_blocks_nil blocks : sort_blocks blocks = [] ↔ blocks = [].
Proof.
  split; [|by intros ->]. intros Hs. apply Permutation_nil. rewrite <- Hs. apply py_sorted_perm.
Qed.

Section main.
Context `{SignatureBackend} (env : Environ) (policy : option WalletPolicy).

Lemma supply_error_none blocks :
  blocks ≠ [] →
  ∃ e, _validate_chain_supply_invariant env blocks policy None = Ok e
       ∧ (e = None ↔ expected_total_supply_atomic env policy None
                     = Ok (map_sum (chain_balance_index blocks))).
Proof.
  intros Hne. unfold _validate_chain_supply_invariant, _chain_total_balance_atomic.
  destruct blocks as [|b blocks]; [done|]. rewrite expected_total_supply_ok. cbn [mbind result_bind].
  eexists. split; [done|]. destruct (_ =? _) eqn:E; bool_to_prop; [by rewrite E|].
  split; [done|]. intros Hs. destruct E. by injection Hs.
Qed.

Lemma validate_chain_blocks_spec blocks :
  validate_chain_blocks env policy blocks = Ok []
  ↔ blocks = [] ∨ valid_chain env policy (sort_blocks blocks).
Proof.
  destruct (decide (blocks = [])) as [->|Hne]; [by split; [left|]|].
  destruct (expected_genesis_hash_total env policy None) as [gh Hgh].
  destruct (supply_error_none (sort_blocks blocks)) as (e & He & Hsupply);
    [by rewrite sort_blocks_nil|].
  transitivity (valid_chain env policy (sort_blocks blocks)); [|naive_solver].
  unfold validate_chain_blocks. destruct blocks as [|b0 bs]; [done|].
  set (ob := sort_blocks _) in *. rewrite Hgh. cbn [mbind result_bind]. split.
  - destruct (foldM _ _ _) as [st|] eqn:Hrun; [|done]. rewrite He. cbn [mbind result_bind].
    intros [= Herr]. rewrite !app_nil_iff, !negative_entries_nil in Herr.
    destruct Herr as (Herr & Hbal & Hsup & Hbond).
    apply (validate_loop_sound env policy gh Hgh) in Hrun as [Hv _]; [|done].
    split; [done..| |done]. apply Hsupply. by destruct e.
  - intros [Hv Hbal Hsup Hbond].
    apply (validate_loop_complete env policy gh Hgh) in Hv as (st & -> & Herr & _).
    rewrite He. cbn [mbind result_bind]. apply Hsupply in Hsup as ->. f_equal.
    by rewrite !app_nil_iff, !negative_entries_nil.
Qed.
End main.
