(* ===== verification/ChainStore.v ===== *)
(** * The stored chain

    [chain.py], third part: reading blocks back from the chain document, the index and
    snapshot documents, appending blocks, the genesis block of a node, and the operations
    that record transactions.

    A file is the JSON object it holds ([None] when it does not exist); the chain file has
    the size and modification time [os.stat] reports.  An operation that may write is a
    function from the store to the store it leaves and its result, so that what was
    written before an exception stays written. *)
From Stdlib Require Import Ascii.
From S2P Require Import Prelude.
From S2P Require Import PyStr.
From S2P Require Import PyVal.
From S2P Require Import Sha256.
From S2P Require Import Money.
From S2P Require Import Signing.
From S2P Require Import ChainTx.
From S2P Require Import Ledger.
Local Open Scope Z_scope.
Set Default Proof Using "Type".

(** ** The store and its monad *)

Record ChainStore := {
  chain_file : option (list (string * pyval));
  chain_stat : Z * Z;
  index_file : option (list (string * pyval));
  snapshots_file : option (list (string * pyval))
}.

Definition M (A : Type) : Type := ChainStore → ChainStore * result A.

#[export] Instance M_ret : MRet M := fun _ a s => (s, Ok a).
#[export] Instance M_bind : MBind M := fun _ _ f m s =>
  match m s with (s', Ok a) => f a s' | (s', Err e) => (s', Err e) end.

Definition lift {A} (r : result A) : M A := λ s, (s, r).
Definition read {A} (f : ChainStore → result A) : M A := λ s, (s, f s).
Definition modify (f : ChainStore → ChainStore) : M unit := λ s, (f s, Ok tt).

(** What an operation takes from outside: the clock, a random token, the size and
    modification time the chain file gets when it is written. *)
Record Tick := { now : string; token : string; new_stat : Z * Z }.

Section store.
Context `{SignatureBackend} (env : Environ) (policy : option WalletPolicy).

(** ** Reading records back *)

Definition _coerce_transaction (now : string) (raw : pyval) (default_chain_id : option string)
  : result ChainTransaction :=
  raw ← py_dict raw;
  metadata ← py_dict (py_or (dget "metadata" raw) (VDict []));
  let chain_id :=
    py_str (py_or (py_or (py_or (dget "chain_id" raw) (dget "network" metadata))
                         (val_opt default_chain_id))
                  (VStr (_default_chain_id env))) in
  tx_id ← dindex "tx_id" raw;
  tx_type ← dindex "tx_type" raw;
  address ← dindex "address" raw;
  delta_atomic ← dindex "delta_atomic" raw;
  delta_atomic ← py_int delta_atomic;
  schema_version ← py_int (py_or (dget "schema_version" raw) (VInt CHAIN_SCHEMA_VERSION));
  let opt_str k := let v := dget k raw in if is_none v then None else Some (py_str v) in
  Ok {| tx_id := py_str tx_id;
        tx_created_at := py_str (py_or (dget "created_at" raw) (VStr now));
        tx_type := py_str tx_type;
        address := normalize_address (py_str address);
        delta_atomic := delta_atomic;
        settlement_id := dget "settlement_id" raw;
        payout_id := dget "payout_id" raw;
        wallet_id := dget "wallet_id" raw;
        counterparty_address :=
          if truthy (dget "counterparty_address" raw)
          then Some (normalize_address (py_str (dget "counterparty_address" raw))) else None;
        note := dget "note" raw;
        nonce := opt_str "nonce";
        tx_chain_id := chain_id;
        tx_schema_version := schema_version;
        public_key_b64 := opt_str "public_key_b64";
        signature_b64 := opt_str "signature_b64";
        metadata := metadata |}.

Definition _coerce_block (now : string) (raw : pyval) (default_chain_id : option string)
  : result ChainBlock :=
  match raw with
  | VDict raw =>
      let chain_id :=
        py_str (py_or (py_or (dget "chain_id" raw) (val_opt default_chain_id))
                      (VStr (_default_chain_id env))) in
      block_id ← dindex "block_id" raw;
      height ← dindex "height" raw;
      height ← py_int height;
      items ← py_list (py_or (dget "transactions" raw) (VList []));
      transactions ← mapM_r (λ item, _coerce_transaction now item (Some chain_id)) items;
      schema_version ← py_int (py_or (dget "schema_version" raw) (VInt CHAIN_SCHEMA_VERSION));
      let block :=
        {| block_id := py_str block_id;
           height := height;
           created_at := py_str (py_or (dget "created_at" raw) (VStr now));
           previous_hash :=
             py_str (py_or (dget "previous_hash" raw) (VStr GENESIS_PREVIOUS_HASH));
           validator_id := dget "validator_id" raw;
           transactions := transactions;
           block_hash := py_str (py_or (dget "block_hash" raw) (VStr ""));
           chain_id := chain_id;
           schema_version := schema_version;
           tx_root := py_str (py_or (py_or (dget "tx_root" raw) (dget "txRoot" raw)) (VStr ""));
           state_root :=
             py_str (py_or (py_or (dget "state_root" raw) (dget "stateRoot" raw)) (VStr ""));
           validator_public_key_b64 := None;
           validator_signature_b64 := None |} in
      Ok (if String.eqb (block_hash block) ""
          then with_block_hash block (compute_block_hash env block) else block)
  | _ => Err AttributeError
  end.

(** One step of [_fill_missing_block_roots]; [prefix] holds the blocks before. *)
Definition fill_roots (prefix : list ChainBlock) (block : ChainBlock) : ChainBlock :=
  let block :=
    if String.eqb (tx_root block) ""
    then with_tx_root block (compute_transaction_root env (transactions block)) else block in
  if String.eqb (state_root block) ""
  then with_state_root block (compute_chain_state_root (prefix ++ [block])) else block.

Definition _fill_missing_block_roots (blocks : list ChainBlock) : list ChainBlock :=
  foldl (λ prefix block, prefix ++ [fill_roots prefix block]) [] blocks.

Definition list_chain_blocks (now : string) (st : ChainStore) : result (list ChainBlock) :=
  match chain_file st with
  | None => Ok []
  | Some raw =>
      items ← py_list (py_or (dget "blocks" raw) (VList []));
      blocks ← mapM_r (λ item, _coerce_block now item (Some (active_chain_id env policy))) items;
      Ok (_fill_missing_block_roots (sort_blocks blocks))
  end.

(** ** The index and snapshot documents *)

Definition _chain_snapshot_interval : Z :=
  let raw := strip (env_or env ["CAI_CHAIN_SNAPSHOT_INTERVAL"]) in
  if String.eqb raw "" then DEFAULT_CHAIN_SNAPSHOT_INTERVAL
  else match int_of_str raw with
       | Some z => Z.max 1 z
       | None => DEFAULT_CHAIN_SNAPSHOT_INTERVAL
       end.

Definition _chain_file_stat_payload (st : ChainStore) : list (string * pyval) :=
  match chain_file st with
  | None => [("path", VStr "chain.json"); ("exists", VBool false); ("size", VInt 0);
             ("mtimeNs", VInt 0)]
  | Some _ => [("path", VStr "chain.json"); ("exists", VBool true);
               ("size", VInt (chain_stat st).1); ("mtimeNs", VInt (chain_stat st).2)]
  end.

Definition _index_matches_current_chain_file (payload : list (string * pyval))
    (st : ChainStore) : result bool :=
  v ← py_int (py_or (dget "schemaVersion" payload) (VInt 0));
  if negb (v =? CHAIN_INDEX_SCHEMA_VERSION) then Ok false else
  c ← py_int (py_or (dget "chainSchemaVersion" payload) (VInt 0));
  if negb (c =? CHAIN_SCHEMA_VERSION) then Ok false else
  if negb (String.eqb (py_str (py_or (dget "chainId" payload) (VStr "")))
                      (active_chain_id env policy)) then Ok false else
  match chain_file st with
  | None => Ok false
  | Some _ =>
      let recorded := default [] (as_dict (dget "chainFile" payload)) in
      if negb (truthy (dget "exists" recorded)) then Ok false else
      size ← py_int (py_or (dget "size" recorded) (VInt (-1)));
      if negb (size =? (chain_stat st).1) then Ok false else
      mtime ← py_int (py_or (dget "mtimeNs" recorded) (VInt (-1)));
      Ok (mtime =? (chain_stat st).2)
  end.

(** Entries that do not convert are dropped; keys are normalised. *)
Definition int_mapping_step (m : gmap string Z) (kv : string * pyval) : gmap string Z :=
  let k := normalize_address kv.1 in
  if String.eqb k "" then m
  else match py_int kv.2 with Ok z => <[k := z]> m | Err _ => m end.

Definition _int_mapping (raw : pyval) : gmap string Z :=
  match raw with VDict d => foldl int_mapping_step ∅ d | _ => ∅ end.

Definition _chain_index_balances (index_payload : list (string * pyval)) : gmap string Z :=
  _int_mapping (dget "balancesAtomic" index_payload).

Definition _chain_index_validator_locked_bonds (index_payload : list (string * pyval)) :=
  _int_mapping (dget "validatorLockedBondAtomic" index_payload).

(** [dict(sorted(m.items()))] as a JSON object. *)
Definition int_dict (m : gmap string Z) : pyval :=
  VDict (map (λ kv : string * Z, (kv.1, VInt kv.2)) (sorted_items m)).

Definition _build_chain_snapshot_payload (block : ChainBlock) (balances bonds : gmap string Z)
    (transaction_count : nat) : list (string * pyval) :=
  [("schemaVersion", VInt CHAIN_SNAPSHOT_SCHEMA_VERSION);
   ("chainSchemaVersion", VInt CHAIN_SCHEMA_VERSION);
   ("chainId", VStr (or_str (chain_id block) (_default_chain_id env)));
   ("height", VInt (height block));
   ("blockHash", VStr (block_hash block));
   ("createdAt", VStr (created_at block));
   ("stateRoot", VStr (state_root block));
   ("txRoot", VStr (tx_root block));
   ("transactionCount", VInt (Z.of_nat transaction_count));
   ("balanceAddressCount", VInt (Z.of_nat (size balances)));
   ("nonZeroBalanceAddressCount",
      VInt (Z.of_nat (length (filter (λ kv, kv.2 ≠ 0) (map_to_list balances)))));
   ("totalBalanceAtomic", VInt (map_sum balances));
   ("balancesAtomic", int_dict balances);
   ("validatorLockedBondAtomic", int_dict bonds)].

Definition _chain_transaction_history_entry (block : ChainBlock) (tx : ChainTransaction)
    (balance_after_atomic : option Z) : list (string * pyval) :=
  let payload := asdict_tx tx in
  let payload := dset "block_height" (VInt (height block)) payload in
  let payload := dset "block_hash" (VStr (block_hash block)) payload in
  let payload := dset "block_created_at" (VStr (created_at block)) payload in
  match balance_after_atomic with
  | Some z => dset "balance_after_atomic" (VInt z) payload
  | None => payload
  end.

(** The variables of the loop of [_build_chain_index_payloads]. *)
Record IndexState := {
  ix_balances : gmap string Z;
  ix_bonds : gmap string Z;
  ix_seen : gset string;
  ix_transactions : gmap string pyval;
  ix_address_history : gmap string (list pyval);
  ix_settlement_history : gmap string (list pyval);
  ix_snapshots : list pyval
}.

Definition push_history (k : string) (e : pyval) (m : gmap string (list pyval)) :=
  <[k := default [] (m !! k) ++ [e]]> m.

Definition index_tx (block : ChainBlock) (ix : IndexState) (it : nat * ChainTransaction)
  : IndexState :=
  let '(tx_index, tx) := it in
  if bool_decide (tx_id tx ∈ ix_seen ix) then ix
  else
    let a := normalize_address (address tx) in
    let balance := balance_of (ix_balances ix) a + delta_atomic tx in
    {| ix_balances := <[a := balance]> (ix_balances ix);
       ix_bonds := _apply_validator_bond_index_delta (ix_bonds ix) tx;
       ix_seen := {[ tx_id tx ]} ∪ ix_seen ix;
       ix_address_history :=
         push_history a (VDict (_chain_transaction_history_entry block tx (Some balance)))
           (ix_address_history ix);
       ix_settlement_history :=
         if truthy (settlement_id tx)
         then push_history (py_str (settlement_id tx))
                (VDict (_chain_transaction_history_entry block tx None))
                (ix_settlement_history ix)
         else ix_settlement_history ix;
       ix_transactions :=
         <[tx_id tx := VDict
            [("blockHeight", VInt (height block));
             ("blockHash", VStr (block_hash block));
             ("blockCreatedAt", VStr (created_at block));
             ("txIndex", VInt (Z.of_nat tx_index));
             ("address", VStr a);
             ("txType", VStr (tx_type tx));
             ("settlementId", settlement_id tx)]]> (ix_transactions ix);
       ix_snapshots := ix_snapshots ix |}.

(** [tip_index] is the position of the last block. *)
Definition index_block (interval : Z) (tip_index : nat) (ix : IndexState)
    (ib : nat * ChainBlock) : IndexState :=
  let '(i, block) := ib in
  let ix := foldl (index_tx block) ix (enumerate (transactions block)) in
  if (height block mod interval =? 0) || bool_decide (i = tip_index) then
    {| ix_balances := ix_balances ix; ix_bonds := ix_bonds ix; ix_seen := ix_seen ix;
       ix_transactions := ix_transactions ix; ix_address_history := ix_address_history ix;
       ix_settlement_history := ix_settlement_history ix;
       ix_snapshots := ix_snapshots ix ++
         [VDict (_build_chain_snapshot_payload block (ix_balances ix) (ix_bonds ix)
                   (size (ix_seen ix)))] |}
  else ix.

Definition index_init : IndexState :=
  {| ix_balances := ∅; ix_bonds := ∅; ix_seen := ∅; ix_transactions := ∅;
     ix_address_history := ∅; ix_settlement_history := ∅; ix_snapshots := [] |}.

Definition index_blocks (ordered : list ChainBlock) : IndexState :=
  foldl (index_block _chain_snapshot_interval (pred (length ordered))) index_init
    (enumerate ordered).

Definition tip_field {A} (f : A → pyval) (tip : option A) : pyval :=
  match tip with Some b => f b | None => VNone end.

Definition snapshot_field (k : string) (latest : option pyval) : pyval :=
  match latest with Some (VDict d) => dget k d | _ => VNone end.

Definition _build_chain_index_payloads (now : string) (st : ChainStore)
    (blocks : list ChainBlock) : result (list (string * pyval) * list (string * pyval)) :=
  let ordered := sort_blocks blocks in
  let tip := last ordered in
  let ix := index_blocks ordered in
  validation_errors ← validate_chain_blocks env policy ordered;
  let latest := last (ix_snapshots ix) in
  let index_payload :=
    [("schemaVersion", VInt CHAIN_INDEX_SCHEMA_VERSION);
     ("chainSchemaVersion", VInt CHAIN_SCHEMA_VERSION);
     ("chainId", VStr (active_chain_id env policy));
     ("indexedAt", VStr now);
     ("chainFile", VDict (_chain_file_stat_payload st));
     ("blockCount", VInt (Z.of_nat (length ordered)));
     ("transactionCount", VInt (Z.of_nat (size (ix_seen ix))));
     ("tipHeight", tip_field (λ b, VInt (height b)) tip);
     ("tipHash", tip_field (λ b, VStr (block_hash b)) tip);
     ("tipCreatedAt", tip_field (λ b, VStr (created_at b)) tip);
     ("tipTxRoot", tip_field (λ b, VStr (tx_root b)) tip);
     ("tipStateRoot", tip_field (λ b, VStr (state_root b)) tip);
     ("valid", VBool (bool_decide (validation_errors = [])));
     ("validationErrors", VList (map VStr (take 20 validation_errors)));
     ("balancesAtomic", int_dict (ix_balances ix));
     ("validatorLockedBondAtomic", int_dict (ix_bonds ix));
     ("transactionIndex", VDict (sorted_items (ix_transactions ix)));
     ("addressHistory",
        VDict (map (λ kv : string * list pyval, (kv.1, VList kv.2))
                   (sorted_items (ix_address_history ix))));
     ("settlementHistory",
        VDict (map (λ kv : string * list pyval, (kv.1, VList kv.2))
                   (sorted_items (ix_settlement_history ix))));
     ("snapshotInterval", VInt _chain_snapshot_interval);
     ("snapshotCount", VInt (Z.of_nat (length (ix_snapshots ix))));
     ("latestSnapshotHeight", snapshot_field "height" latest);
     ("latestSnapshotHash", snapshot_field "blockHash" latest);
     ("latestSnapshotStateRoot", snapshot_field "stateRoot" latest)] in
  let snapshots_payload :=
    [("schemaVersion", VInt CHAIN_SNAPSHOT_SCHEMA_VERSION);
     ("chainSchemaVersion", VInt CHAIN_SCHEMA_VERSION);
     ("chainId", VStr (active_chain_id env policy));
     ("createdAt", VStr now);
     ("chainFile", VDict (_chain_file_stat_payload st));
     ("snapshotInterval", VInt _chain_snapshot_interval);
     ("latest", default VNone latest);
     ("snapshots", VList (ix_snapshots ix))] in
  Ok (index_payload, snapshots_payload).

Definition put_chain (doc : list (string * pyval)) (stat : Z * Z) (st : ChainStore) :=
  {| chain_file := Some doc; chain_stat := stat; index_file := index_file st;
     snapshots_file := snapshots_file st |}.

Definition put_indexes (ip : list (string * pyval) * list (string * pyval)) (st : ChainStore) :=
  {| chain_file := chain_file st; chain_stat := chain_stat st; index_file := Some ip.1;
     snapshots_file := Some ip.2 |}.

(** [rebuild_chain_indexes(policy, blocks=blocks)] *)
Definition rebuild_chain_indexes (t : Tick) (blocks : list ChainBlock)
  : M (list (string * pyval)) :=
  ip ← read (λ st, _build_chain_index_payloads (now t) st blocks);
  _ ← modify (put_indexes ip);
  mret ip.1.

Definition load_chain_index (st : ChainStore) : list (string * pyval) :=
  default [] (index_file st).

(** [load_or_rebuild_chain_index(policy)] *)
Definition load_or_rebuild_chain_index (t : Tick) : M (list (string * pyval)) := λ st,
  let cached := load_chain_index st in
  (matches ← lift (_index_matches_current_chain_file cached st);
   if (matches : bool) then mret cached
   else match chain_file st with
        | None => mret []
        | Some _ =>
            blocks ← read (list_chain_blocks (now t));
            match blocks with
            | [] => mret []
            | _ => rebuild_chain_indexes t blocks
            end
        end) st.

Definition save_chain_blocks (t : Tick) (blocks : list ChainBlock) : M unit :=
  _ ← modify (put_chain [("blocks", VList (map (λ b, VDict (asdict_block b)) blocks))]
                (new_stat t));
  _ ← rebuild_chain_indexes t blocks;
  mret tt.
End store.
