(* ===== verification/ChainOps.v ===== *)
(** * Operations on the stored chain

    [chain.py], fourth part: appending blocks, installing the genesis block, recording
    single transactions and developer-fund rounds, balances and histories read through the
    index, and the exported payload. *)
From Stdlib Require Import Ascii.
From S2P Require Import Prelude.
From S2P Require Import PyStr.
From S2P Require Import PyVal.
From S2P Require Import Sha256.
From S2P Require Import Money.
From S2P Require Import Signing.
From S2P Require Import ChainTx.
From S2P Require Import Ledger.
From S2P Require Import ChainStore.
Local Open Scope Z_scope.
Set Default Proof Using "Type".

Definition raise {A} (msg : string) : M A := lift (Err (ValueError msg)).

Definition with_chain_id (tx : ChainTransaction) (c : string) : ChainTransaction :=
  {| tx_id := tx_id tx; tx_created_at := tx_created_at tx; tx_type := tx_type tx;
     address := address tx; delta_atomic := delta_atomic tx; settlement_id := settlement_id tx;
     payout_id := payout_id tx; wallet_id := wallet_id tx;
     counterparty_address := counterparty_address tx; note := note tx; nonce := nonce tx;
     tx_chain_id := c; tx_schema_version := tx_schema_version tx;
     public_key_b64 := public_key_b64 tx; signature_b64 := signature_b64 tx;
     metadata := metadata tx |}.

Definition chain_tx_ids (blocks : list ChainBlock) : gset string :=
  list_to_set (blocks ≫= λ b, map tx_id (transactions b)).

Section ops.
Context `{SignatureBackend} (env : Environ) (policy : option WalletPolicy).

Local Abbreviation net := (active_chain_id env policy).

Definition chain_transaction_ids (now : string) (st : ChainStore) : result (gset string) :=
  blocks ← list_chain_blocks env policy now st; Ok (chain_tx_ids blocks).

(** ** Appending *)

(** The loop over the new transactions: an empty chain id is filled in, then the chain,
    the schema, the signature and the nonce are checked. *)
Definition check_new_tx (existing_nonces : gset (string * string))
    (acc : list ChainTransaction * gset (string * string)) (tx : ChainTransaction)
  : result (list ChainTransaction * gset (string * string)) :=
  let '(done, new_nonces) := acc in
  let tx := if String.eqb (tx_chain_id tx) "" then with_chain_id tx net else tx in
  if negb (String.eqb (tx_chain_id tx) net) then
    Err (ValueError ("Refusing transaction for chain '" +:+ tx_chain_id tx +:+ "' on '"
                     +:+ net +:+ "'."))
  else if negb (tx_schema_version tx =? CHAIN_SCHEMA_VERSION) then
    Err (ValueError ("Unsupported transaction schema_version "
                     +:+ str_of_Z (tx_schema_version tx) +:+ "."))
  else
    sg ← verify_chain_transaction_signature env policy tx;
    if negb sg.1 then
      Err (ValueError (or_opt sg.2 "Invalid chain transaction signature."))
    else
      match nonce tx with
      | None => Ok (done ++ [tx], new_nonces)
      | Some n =>
          let key := nonce_key tx n in
          if bool_decide (key ∈ existing_nonces) || bool_decide (key ∈ new_nonces) then
            Err (ValueError ("Refusing duplicate nonce '" +:+ n +:+ "' for address '"
                             +:+ address tx +:+ "'."))
          else Ok (done ++ [tx], {[ key ]} ∪ new_nonces)
      end.

Definition new_block_id (t : Tick) (height : Z) (previous_hash : string)
    (txs : list ChainTransaction) : string :=
  take_str 32 (sha256_hexdigest (canonical (VDict
    [("height", VInt height);
     ("chain_id", VStr net);
     ("schema_version", VInt CHAIN_SCHEMA_VERSION);
     ("previous_hash", VStr previous_hash);
     ("tx_ids", VList (map (λ tx, VStr (tx_id tx)) txs));
     ("nonce", VStr (token t))]))).

(** The block [append_chain_block] builds on [blocks]. *)
Definition next_block (t : Tick) (blocks : list ChainBlock) (validator_id : pyval)
    (txs : list ChainTransaction) : ChainBlock :=
  let previous_hash :=
    match last blocks with Some p => block_hash p | None => GENESIS_PREVIOUS_HASH end in
  let height := match last blocks with Some p => height p + 1 | None => 0 end in
  seal_block env blocks
    {| block_id := new_block_id t height previous_hash txs;
       height := height; created_at := now t; previous_hash := previous_hash;
       validator_id := validator_id; transactions := txs; block_hash := "";
       chain_id := net; schema_version := CHAIN_SCHEMA_VERSION;
       tx_root := compute_transaction_root env txs; state_root := "";
       validator_public_key_b64 := None; validator_signature_b64 := None |}.

Definition append_chain_block (t : Tick) (transactions : list ChainTransaction)
    (validator_id : pyval) : M (option ChainBlock) :=
  match transactions with
  | [] => mret None
  | _ =>
      blocks ← read (list_chain_blocks env policy (now t));
      let existing_tx_ids := chain_tx_ids blocks in
      let existing_nonces := _chain_transaction_nonces blocks in
      let new_transactions := filter (λ tx, tx_id tx ∉ existing_tx_ids) transactions in
      match new_transactions with
      | [] => mret None
      | _ =>
          checked ← lift (foldM (check_new_tx existing_nonces) ([], ∅) new_transactions);
          let block := next_block t blocks validator_id checked.1 in
          let blocks := blocks ++ [block] in
          supply_error ← lift (_validate_chain_supply_invariant env blocks policy None);
          match supply_error with
          | Some e => raise e
          | None =>
              validation_errors ← lift (validate_chain_blocks env policy blocks);
              match validation_errors with
              | _ :: _ =>
                  raise ("Refusing chain block that would make local chain invalid: "
                         +:+ join "; " (take 3 validation_errors))
              | [] =>
                  _ ← save_chain_blocks env policy t blocks;
                  mret (Some block)
              end
          end
      end
  end.

(** ** Genesis *)

Definition all_genesis (txs : list ChainTransaction) : bool :=
  forallb (λ tx, startswith "genesis_" (tx_type tx)) txs.

Definition _is_stale_genesis_only_chain (local_blocks : list ChainBlock)
    (expected_genesis_block : ChainBlock) : bool :=
  match local_blocks with
  | [g] =>
      if negb (height g =? 0) || negb (String.eqb (previous_hash g) GENESIS_PREVIOUS_HASH)
         || negb (bool_decide (validator_id g = VStr "genesis"))
         || String.eqb (block_hash g) (block_hash expected_genesis_block)
      then false else all_genesis (transactions g)
  | _ => false
  end.

Definition tx_id_set (txs : list ChainTransaction) : gset string := list_to_set (map tx_id txs).

(** The case of a single local block that carries the genesis transactions. *)
Definition is_own_genesis (b g : ChainBlock) : bool :=
  (height b =? 0) && String.eqb (previous_hash b) GENESIS_PREVIOUS_HASH
  && bool_decide (validator_id b = VStr "genesis")
  && bool_decide (tx_id_set (transactions b) = tx_id_set (transactions g)).

Definition ensure_chain_genesis (t : Tick) (money_policy : option MoneyPolicy) : M Z :=
  let mp := _money_policy_for_wallet_policy env policy money_policy in
  genesis_block ← lift (make_genesis_block env mp);
  existing_blocks ← read (list_chain_blocks env policy (now t));
  let continue :=
    match existing_blocks with
    | [] => mret 0
    | existing_genesis :: _ =>
        if negb (String.eqb (block_hash existing_genesis) (block_hash genesis_block)) then
          raise ("Local chain genesis_hash " +:+ block_hash existing_genesis
                 +:+ " does not match expected " +:+ block_hash genesis_block
                 +:+ " for network " +:+ network_value (chain_network mp)
                 +:+ ". Reset or migrate the local chain state before recording new blocks.")
        else
          existing_tx_ids ← read (chain_transaction_ids (now t));
          let missing :=
            filter (λ tx, tx_id tx ∉ existing_tx_ids) (transactions genesis_block) in
          block ← append_chain_block t missing (VStr "genesis");
          mret (match block with
                | Some b => Z.of_nat (length (transactions b))
                | None => 0
                end)
    end in
  match existing_blocks with
  | [] =>
      _ ← save_chain_blocks env policy t [genesis_block];
      mret (Z.of_nat (length (transactions genesis_block)))
  | [b] =>
      if _is_stale_genesis_only_chain [b] genesis_block then
        _ ← save_chain_blocks env policy t [genesis_block]; mret 0
      else if is_own_genesis b genesis_block then
        if negb (String.eqb (block_hash b) (block_hash genesis_block)) then
          _ ← save_chain_blocks env policy t [genesis_block]; mret 0
        else mret 0
      else continue
  | _ => continue
  end.

Definition record_chain_transaction (t : Tick) (tx : ChainTransaction) (validator_id : pyval)
  : M bool :=
  _ ← (if startswith "genesis_" (tx_type tx) then mret 0 else ensure_chain_genesis t None);
  ids ← read (chain_transaction_ids (now t));
  if bool_decide (tx_id tx ∈ ids) then mret false
  else
    block ← append_chain_block t [tx] validator_id;
    mret (match block with Some _ => true | None => false end).

(** ** Reading through the index *)

(** [chain_balance_index(policy)] *)
Definition stored_balance_index (t : Tick) : M (gmap string Z) :=
  index_payload ← load_or_rebuild_chain_index env policy t;
  match index_payload with
  | [] => read (λ st, blocks ← list_chain_blocks env policy (now t) st;
                      Ok (chain_balance_index blocks))
  | _ => mret (_chain_index_balances index_payload)
  end.

(** [validator_locked_bond_index(policy)] *)
Definition stored_locked_bond_index (t : Tick) : M (gmap string Z) :=
  index_payload ← load_or_rebuild_chain_index env policy t;
  match index_payload with
  | [] => read (λ st, blocks ← list_chain_blocks env policy (now t) st;
                      Ok (validator_locked_bond_index blocks))
  | _ => mret (_chain_index_validator_locked_bonds index_payload)
  end.

Definition chain_balance_atomic (t : Tick) (address : string) : M Z :=
  m ← stored_balance_index t; mret (balance_of m (normalize_address address)).

(** [block_count] of the index: is there a chain? *)
Definition chain_is_initialized (t : Tick) : M bool :=
  index_payload ← load_or_rebuild_chain_index env policy t;
  n ← lift (py_int (py_or (dget "blockCount" index_payload) (VInt 0)));
  mret (0 <? n).

(** [wallet_chain_balance_or_local_atomic]: [wallet] is the address and local balance. *)
Definition wallet_chain_balance_or_local_atomic (t : Tick) (wallet : option (string * Z)) : M Z :=
  match wallet with
  | None => mret 0
  | Some (wallet_address, spendable_balance_atomic) =>
      index_payload ← load_or_rebuild_chain_index env policy t;
      n ← lift (py_int (py_or (dget "blockCount" index_payload) (VInt 0)));
      mret (if 0 <? n
            then balance_of (_chain_index_balances index_payload) (normalize_address wallet_address)
            else spendable_balance_atomic)
  end.

(** [history[: max(0, int(limit))]], after the optional reversal. *)
Definition present_history (newest_first : bool) (limit : option Z) (history : list pyval) :=
  let history := if newest_first then rev history else history in
  match limit with Some n => take (Z.to_nat (Z.max 0 n)) history | None => history end.

(** The loop of [chain_address_history] over blocks, used without an index. *)
Definition address_history_step (a : string) (allowed : option (list string))
    (block : ChainBlock) (acc : gset string * Z * list pyval) (tx : ChainTransaction) :=
  let '(seen, balance_after, history) := acc in
  if bool_decide (tx_id tx ∈ seen) then acc
  else
    let seen := {[ tx_id tx ]} ∪ seen in
    if negb (String.eqb (normalize_address (address tx)) a) then (seen, balance_after, history)
    else
      let balance_after := balance_after + delta_atomic tx in
      if match allowed with Some l => negb (bool_decide (tx_type tx ∈ l)) | None => false end
      then (seen, balance_after, history)
      else (seen, balance_after,
            history ++ [VDict (_chain_transaction_history_entry block tx (Some balance_after))]).

Definition address_history_of_blocks (a : string) (allowed : option (list string))
    (blocks : list ChainBlock) : list pyval :=
  (foldl (λ acc b, foldl (address_history_step a allowed b) acc (transactions b))
     (∅, 0, []) blocks).2.

Definition entry_type (d : list (string * pyval)) : string :=
  py_str (py_or (py_or (dget "tx_type" d) (dget "txType" d)) (VStr "")).

Definition chain_address_history (t : Tick) (address : string) (tx_types : option (list string))
    (limit : option Z) (newest_first : bool) : M (list pyval) :=
  let a := normalize_address address in
  index_payload ← load_or_rebuild_chain_index env policy t;
  match as_list (dget a (default [] (as_dict (dget "addressHistory" index_payload)))) with
  | Some indexed =>
      let history := omap as_dict indexed in
      let history :=
        match tx_types with
        | Some l => filter (λ d, entry_type d ∈ l) history
        | None => history
        end in
      mret (present_history newest_first limit (map VDict history))
  | None =>
      blocks ← read (list_chain_blocks env policy (now t));
      mret (present_history newest_first limit (address_history_of_blocks a tx_types blocks))
  end.

(** ** Developer fund *)

Definition fund_round_id (tx : ChainTransaction) : option string :=
  if startswith "developer_fund_distribution_" (tx_type tx) then
    let r := py_str (py_or (py_or (dget "round_id" (metadata tx)) (payout_id tx)) (VStr "")) in
    if String.eqb r "" then None else Some r
  else None.

Definition developer_fund_distribution_round_ids (now : string) (st : ChainStore)
  : result (gset string) :=
  blocks ← list_chain_blocks env policy now st;
  Ok (list_to_set (blocks ≫= λ b, omap fund_round_id (transactions b))).

Record FundRecipient := {
  fr_github : string;
  fr_address : string;
  fr_amount_atomic : Z;
  fr_amount_coins : string;
  fr_category : string;
  fr_reason : string
}.

(** One recipient of the round: [acc] holds the prepared ones, the addresses seen and the
    total. *)
Definition prepare_recipient (acc : list FundRecipient * gset string * Z)
    (ir : nat * list (string * pyval)) : result (list FundRecipient * gset string * Z) :=
  let '(prepared, seen_addresses, total_atomic) := acc in
  let '(index, recipient) := ir in
  let github := lower (lstrip_char "@"%char (str_or_strip (dget "github" recipient))) in
  let address := normalize_address (py_str (py_or (dget "address" recipient) (VStr ""))) in
  amount_atomic ← py_int (py_or (dget "amount_atomic" recipient) (VInt 0));
  if String.eqb github "" then
    Err (ValueError ("Developer fund recipient[" +:+ str_of_Z (Z.of_nat index)
                     +:+ "] is missing github."))
  else if String.eqb address "" then
    Err (ValueError ("Developer fund recipient '" +:+ github +:+ "' is missing address."))
  else if amount_atomic <=? 0 then
    Err (ValueError ("Developer fund recipient '" +:+ github +:+ "' amount must be positive."))
  else if bool_decide (address ∈ seen_addresses) then
    Err (ValueError ("Developer fund recipient address '" +:+ address +:+ "' is duplicated."))
  else
    Ok (prepared ++
          [{| fr_github := github; fr_address := address; fr_amount_atomic := amount_atomic;
              fr_amount_coins := py_str (py_or (dget "amount_coins" recipient) (VStr ""));
              fr_category :=
                or_str (strip (py_str (py_or (dget "category" recipient) (VStr "general"))))
                  "general";
              fr_reason := str_or_strip (dget "reason" recipient) |}],
        {[ address ]} ∪ seen_addresses, total_atomic + amount_atomic).

Definition fund_debit_tx (t : Tick) (mp : MoneyPolicy) (round_id : string)
    (base_metadata : list (string * pyval)) (recipient_count : nat) (total_atomic : Z) :=
  let n := network_value (chain_network mp) in
  make_chain_transaction env (now t) "developer_fund_distribution_debit"
    (developer_contribution_fund_chain_address mp) (- total_atomic) VNone (VStr round_id)
    (VStr ("system-developer-contribution-fund-" +:+ n)) None
    (VStr "Developer contribution fund distribution debit.")
    (Some ("developer-fund:" +:+ round_id +:+ ":debit")) None None
    (base_metadata ++ [("recipient_count", VInt (Z.of_nat recipient_count));
                       ("total_amount_atomic", VInt total_atomic)])
    None None (Some n) CHAIN_SCHEMA_VERSION.

Definition fund_credit_tx (t : Tick) (mp : MoneyPolicy) (round_id : string)
    (base_metadata : list (string * pyval)) (r : FundRecipient) :=
  make_chain_transaction env (now t) "developer_fund_distribution_credit" (fr_address r)
    (fr_amount_atomic r) VNone (VStr (round_id +:+ ":" +:+ fr_github r)) VNone
    (Some (developer_contribution_fund_chain_address mp))
    (VStr "Developer contribution fund distribution credit.")
    (Some ("developer-fund:" +:+ round_id +:+ ":credit:" +:+ fr_github r)) None None
    (base_metadata ++ [("github", VStr (fr_github r)); ("amount_coins", VStr (fr_amount_coins r));
                       ("category", VStr (fr_category r)); ("reason", VStr (fr_reason r))])
    None None (Some (network_value (chain_network mp))) CHAIN_SCHEMA_VERSION.

Definition record_developer_fund_distribution (t : Tick) (round_id : string)
    (recipients : list (list (string * pyval))) (round_hash participants_hash : string)
    (source_commit : option string) (validator_id : pyval) (money_policy : option MoneyPolicy)
  : M ChainBlock :=
  let mp := _money_policy_for_wallet_policy env policy money_policy in
  let normalized_round_id := strip round_id in
  if String.eqb normalized_round_id "" then raise "Developer fund round_id is required."
  else if String.eqb (strip round_hash) "" then raise "Developer fund round_hash is required."
  else if String.eqb (strip participants_hash) ""
  then raise "Developer fund participants_hash is required."
  else
    _ ← ensure_chain_genesis t (Some mp);
    round_ids ← read (developer_fund_distribution_round_ids (now t));
    if bool_decide (normalized_round_id ∈ round_ids) then
      raise ("Developer fund round '" +:+ normalized_round_id +:+ "' was already distributed.")
    else
      prepared ← lift (foldM prepare_recipient ([], ∅, 0) (enumerate recipients));
      let '(prepared_recipients, _, total_atomic) := prepared in
      match prepared_recipients with
      | [] => raise "Developer fund distribution requires at least one recipient."
      | _ =>
          fund_balance_atomic ←
            chain_balance_atomic t (developer_contribution_fund_chain_address mp);
          if fund_balance_atomic <? total_atomic
          then raise "Developer fund distribution exceeds available fund balance."
          else
            let base_metadata :=
              [("round_id", VStr normalized_round_id);
               ("round_hash", VStr round_hash);
               ("participants_hash", VStr participants_hash);
               ("network", VStr (network_value (chain_network mp)));
               ("reward_token_code", VStr (reward_token_code mp))]
              ++ (if filled source_commit
                  then [("source_commit", val_opt source_commit)] else []) in
            block ← append_chain_block t
              (fund_debit_tx t mp normalized_round_id base_metadata
                 (length prepared_recipients) total_atomic
               :: map (fund_credit_tx t mp normalized_round_id base_metadata)
                      prepared_recipients)
              validator_id;
            match block with
            | None => raise "Developer fund distribution was not recorded."
            | Some b => mret b
            end
      end.
End ops.
