(* ===== verification/StoreFacts.v ===== *)
(** * Writing and reading back the chain, and appending to it

    Blocks whose fields are in the form the program produces survive a save and a load; the
    index document agrees with the indexes recomputed from blocks; what a successful append
    establishes and what a refused one leaves behind. *)
From Stdlib Require Import Ascii.
From S2P Require Import Prelude.
From S2P Require Import PyStr.
From S2P Require Import PyVal.
From S2P Require Import Sha256.
From S2P Require Import Money.
From S2P Require Import Signing.
From S2P Require Import ChainTx.
From S2P Require Import Ledger.
From S2P Require Import LedgerFacts.
From S2P Require Import Validation.
From S2P Require Import ChainStore.
From S2P Require Import ChainOps.
Local Open Scope Z_scope.
Set Default Proof Using "Type".

(** ** Order of blocks *)

Lemma block_leb_total a b : block_leb a b = true ∨ block_leb b a = true.
Proof.
  unfold block_leb. destruct (Z.lt_trichotomy (height a) (height b)) as [Hl|[He|Hl]].
  - left. by rewrite (proj2 (Z.ltb_lt _ _) Hl).
  - rewrite He, Z.ltb_irrefl, Z.eqb_refl, !str_ltb_leb. cbn.
    destruct (str_leb (created_at b) (created_at a)) eqn:E1,
      (str_leb (created_at a) (created_at b)) eqn:E2; cbn; auto.
    pose proof (str_leb_antisym _ _ E1 E2) as ->. rewrite String.eqb_refl. cbn.
    apply str_leb_total.
  - right. by rewrite (proj2 (Z.ltb_lt _ _) Hl).
Qed.

Lemma block_leb_spec a b :
  block_leb a b = true ↔ height a < height b ∨ (height a = height b ∧
    ((str_leb (created_at a) (created_at b) = true ∧ created_at a ≠ created_at b)
     ∨ (created_at a = created_at b ∧ str_leb (block_hash a) (block_hash b) = true))).
Proof.
  unfold block_leb. rewrite orb_true_iff, andb_true_iff, orb_true_iff, andb_true_iff, Z.ltb_lt,
    Z.eqb_eq, String.eqb_eq, str_ltb_leb, negb_true_iff.
  assert (str_leb (created_at b) (created_at a) = false
          ↔ str_leb (created_at a) (created_at b) = true ∧ created_at a ≠ created_at b) as ->; [|done].
  split.
  - intros Hf. destruct (str_leb_total (created_at a) (created_at b)) as [Ht|Ht]; [|congruence].
    split; [done|]. intros He. rewrite He in *. by rewrite str_leb_refl in Hf.
  - intros [Ht Hne]. apply not_true_iff_false. intros Ht'. destruct Hne. by apply str_leb_antisym.
Qed.

Lemma block_leb_trans a b c :
  block_leb a b = true → block_leb b c = true → block_leb a c = true.
Proof.
  rewrite !block_leb_spec. intros H1 H2. destruct H1 as [H1|[E1 H1]], H2 as [H2|[E2 H2]];
    [left; lia|left; lia|left; lia|right]. split; [lia|].
  destruct H1 as [[L1 N1]|[C1 L1]], H2 as [[L2 N2]|[C2 L2]].
  - left. split; [by eapply str_leb_trans|]. intros He. rewrite He in *. destruct N2.
    by apply str_leb_antisym.
  - left. by rewrite <- C2.
  - left. by rewrite C1.
  - right. split; [congruence|]. by eapply str_leb_trans.
Qed.

Definition block_sorted : list ChainBlock → Prop := StronglySorted (λ a b, block_leb a b = true).

Lemma sort_blocks_sorted l : block_sorted (sort_blocks l).
Proof. apply py_sorted_sorted; [apply block_leb_total|apply block_leb_trans]. Qed.

Lemma sort_blocks_id l : block_sorted l → sort_blocks l = l.
Proof. apply py_sorted_id. Qed.

Lemma sort_blocks_idem l : sort_blocks (sort_blocks l) = sort_blocks l.
Proof. apply sort_blocks_id, sort_blocks_sorted. Qed.

(** A block above all the others goes last. *)
Lemma block_sorted_snoc l b :
  block_sorted l → (∀ p, p ∈ l → height p < height b) → block_sorted (l ++ [b]).
Proof.
  induction 1 as [|x l Hl IH Hx]; intros Hh; cbn; [repeat constructor|].
  constructor; [apply IH; set_solver|]. apply Forall_app. split; [done|]. repeat constructor.
  apply block_leb_spec. left. apply Hh. set_solver.
Qed.

(** ** Records that survive a save and a load *)

Definition stable_tx (tx : ChainTransaction) : Prop :=
  tx_created_at tx ≠ "" ∧ normalized (address tx)
  ∧ match counterparty_address tx with Some c => c ≠ "" ∧ normalized c | None => True end
  ∧ tx_chain_id tx ≠ "" ∧ tx_schema_version tx ≠ 0.

Definition stable_block (b : ChainBlock) : Prop :=
  created_at b ≠ "" ∧ previous_hash b ≠ "" ∧ block_hash b ≠ "" ∧ chain_id b ≠ ""
  ∧ schema_version b ≠ 0 ∧ tx_root b ≠ "" ∧ state_root b ≠ ""
  ∧ validator_public_key_b64 b = None ∧ validator_signature_b64 b = None
  ∧ Forall stable_tx (transactions b).

#[export] Instance stable_tx_dec tx : Decision (stable_tx tx).
Proof. unfold stable_tx. destruct (counterparty_address tx); apply _. Defined.
#[export] Instance stable_block_dec b : Decision (stable_block b).
Proof. unfold stable_block. apply _. Defined.

Lemma py_or_str s v : s ≠ "" → py_or (VStr s) v = VStr s.
Proof. intros Hs. unfold py_or, truthy. by rewrite (proj2 (String.eqb_neq _ _) Hs). Qed.

Lemma py_or_int z v : z ≠ 0 → py_or (VInt z) v = VInt z.
Proof. intros Hz. unfold py_or, truthy. by rewrite (proj2 (Z.eqb_neq _ _) Hz). Qed.

Lemma py_dict_or_empty (d : list (string * pyval)) : py_dict (py_or (VDict d) (VDict [])) = Ok d.
Proof. by destruct d. Qed.

Lemma opt_str_val (o : option string) :
  (if is_none (val_opt o) then None else Some (py_str (val_opt o))) = o.
Proof. by destruct o. Qed.

Lemma coerce_transaction_asdict env now tx d :
  stable_tx tx → _coerce_transaction env now (VDict (asdict_tx tx)) d = Ok tx.
Proof.
  intros (Hc & Ha & Hcp & Hci & Hsv). unfold _coerce_transaction. cbn [py_dict mbind result_bind].
  change (dget "metadata" (asdict_tx tx)) with (VDict (metadata tx)). rewrite py_dict_or_empty.
  cbn [mbind result_bind].
  change (dindex "tx_id" (asdict_tx tx)) with (Ok (VStr (tx_id tx))).
  change (dindex "tx_type" (asdict_tx tx)) with (Ok (VStr (tx_type tx))).
  change (dindex "address" (asdict_tx tx)) with (Ok (VStr (address tx))).
  change (dindex "delta_atomic" (asdict_tx tx)) with (Ok (VInt (delta_atomic tx))).
  cbn [mbind result_bind py_int].
  change (dget "schema_version" (asdict_tx tx)) with (VInt (tx_schema_version tx)).
  change (dget "created_at" (asdict_tx tx)) with (VStr (tx_created_at tx)).
  change (dget "chain_id" (asdict_tx tx)) with (VStr (tx_chain_id tx)).
  change (dget "nonce" (asdict_tx tx)) with (val_opt (nonce tx)).
  change (dget "public_key_b64" (asdict_tx tx)) with (val_opt (public_key_b64 tx)).
  change (dget "signature_b64" (asdict_tx tx)) with (val_opt (signature_b64 tx)).
  change (dget "counterparty_address" (asdict_tx tx)) with (val_opt (counterparty_address tx)).
  rewrite !opt_str_val, !py_or_str, py_or_int by done. cbn [py_int mbind result_bind py_str].
  rewrite Ha. destruct tx as [i c t a dl sid pid wid cp nt nn ci sv pk sg md].
  cbn [counterparty_address tx_id tx_created_at tx_type address delta_atomic settlement_id payout_id
       wallet_id note nonce tx_chain_id tx_schema_version public_key_b64 signature_b64 metadata] in *.
  destruct cp as [cp|]; [|done]. destruct Hcp as [Hne Hcp]. cbn [val_opt truthy py_str].
  rewrite (proj2 (String.eqb_neq _ _) Hne), Hcp. done.
Qed.

Lemma coerce_transactions_asdict env now txs d :
  Forall stable_tx txs →
  mapM_r (λ item, _coerce_transaction env now item d) (map (λ tx, VDict (asdict_tx tx)) txs) = Ok txs.
Proof.
  intros Hall. apply mapM_r_ok. induction Hall as [|tx txs Htx Hall IH]; constructor; [|done].
  by apply coerce_transaction_asdict.
Qed.

Lemma coerce_block_asdict env now b d :
  stable_block b → _coerce_block env now (VDict (asdict_block b)) d = Ok b.
Proof.
  intros (Hca & Hph & Hbh & Hci & Hsv & Htr & Hsr & Hpk & Hsg & Htx). unfold _coerce_block.
  change (dindex "block_id" (asdict_block b)) with (Ok (VStr (block_id b))).
  change (dindex "height" (asdict_block b)) with (Ok (VInt (height b))).
  cbn [mbind result_bind py_int].
  change (dget "transactions" (asdict_block b))
    with (VList (map (λ tx, VDict (asdict_tx tx)) (transactions b))).
  assert (∀ l, py_list (py_or (VList l) (VList [])) = Ok l) as -> by (by intros []).
  cbn [mbind result_bind]. rewrite coerce_transactions_asdict by done. cbn [mbind result_bind].
  change (dget "schema_version" (asdict_block b)) with (VInt (schema_version b)).
  change (dget "created_at" (asdict_block b)) with (VStr (created_at b)).
  change (dget "previous_hash" (asdict_block b)) with (VStr (previous_hash b)).
  change (dget "block_hash" (asdict_block b)) with (VStr (block_hash b)).
  change (dget "chain_id" (asdict_block b)) with (VStr (chain_id b)).
  change (dget "tx_root" (asdict_block b)) with (VStr (tx_root b)).
  change (dget "state_root" (asdict_block b)) with (VStr (state_root b)).
  rewrite !py_or_str, py_or_int by done. cbn [py_int mbind result_bind py_str ChainTx.block_hash].
  rewrite (proj2 (String.eqb_neq _ _) Hbh).
  destruct b. cbn in *. by rewrite Hpk, Hsg.
Qed.

Lemma fill_roots_id env pre b : stable_block b → fill_roots env pre b = b.
Proof.
  intros (_ & _ & _ & _ & _ & Htr & Hsr & _). unfold fill_roots.
  by rewrite (proj2 (String.eqb_neq _ _) Htr), (proj2 (String.eqb_neq _ _) Hsr).
Qed.

Lemma fill_missing_id env blocks :
  Forall stable_block blocks → _fill_missing_block_roots env blocks = blocks.
Proof.
  intros Hall. unfold _fill_missing_block_roots.
  assert (∀ pre, foldl (λ p b, p ++ [fill_roots env p b]) pre blocks = pre ++ blocks) as Hf; [|apply Hf].
  induction Hall as [|b blocks Hb Hall IH]; intros pre; cbn; [by rewrite app_nil_r|].
  by rewrite fill_roots_id, IH, <- app_assoc.
Qed.

(** The document [save_chain_blocks] writes. *)
Definition chain_doc (blocks : list ChainBlock) : list (string * pyval) :=
  [("blocks", VList (map (λ b, VDict (asdict_block b)) blocks))].

Lemma list_saved_blocks env policy now st blocks :
  chain_file st = Some (chain_doc blocks) → Forall stable_block blocks →
  list_chain_blocks env policy now st = Ok (sort_blocks blocks).
Proof.
  intros Hf Hall. unfold list_chain_blocks. rewrite Hf.
  change (dget "blocks" (chain_doc blocks)) with (VList (map (λ b, VDict (asdict_block b)) blocks)).
  assert (∀ l, py_list (py_or (VList l) (VList [])) = Ok l) as -> by (by intros []).
  cbn [mbind result_bind].
  assert (mapM_r (λ item, _coerce_block env now item (Some (active_chain_id env policy)))
            (map (λ b, VDict (asdict_block b)) blocks) = Ok blocks) as ->.
  { apply mapM_r_ok. clear Hf. induction Hall; constructor; auto using coerce_block_asdict. }
  cbn [mbind result_bind]. rewrite fill_missing_id; [done|].
  unfold sort_blocks. by rewrite py_sorted_perm.
Qed.

(** * The index document agrees with the chain

    The single pass that builds the index maintains exactly the balance index, the
    locked-bond index and the address histories that are computed from blocks; reading the
    balances back from the document gives the same map. *)


(** ** The pass over the blocks *)

(** A loop over the index state that is simulated, transaction by transaction, by a loop
    over a smaller state. *)
Section simulation.
Context {S : Type} (R : IndexState → S → Prop) (step : ChainBlock → S → ChainTransaction → S).
Context (R_tx : ∀ b ix s i tx, R ix s → R (index_tx b ix (i, tx)) (step b s tx)).
Context (R_snap : ∀ ix snaps s, R ix s →
  R {| ix_balances := ix_balances ix; ix_bonds := ix_bonds ix; ix_seen := ix_seen ix;
       ix_transactions := ix_transactions ix; ix_address_history := ix_address_history ix;
       ix_settlement_history := ix_settlement_history ix; ix_snapshots := snaps |} s).

Lemma simulate_txs b txs : ∀ n ix s,
  R ix s → R (foldl (index_tx b) ix (enumerate_from n txs)) (foldl (step b) s txs).
Proof using R_tx. induction txs as [|tx txs IH]; intros n ix s HR; cbn [enumerate_from foldl]; auto. Qed.

Lemma simulate_block env interval tip ix s i b :
  R ix s → R (index_block env interval tip ix (i, b)) (foldl (step b) s (transactions b)).
Proof using R_tx R_snap.
  intros HR. unfold index_block. pose proof (simulate_txs b (transactions b) 0 ix s HR).
  case_match; [by apply R_snap|done].
Qed.

Lemma simulate_blocks env interval tip blocks : ∀ n ix s,
  R ix s →
  R (foldl (index_block env interval tip) ix (enumerate_from n blocks))
    (foldl (λ s b, foldl (step b) s (transactions b)) s blocks).
Proof using R_tx R_snap.
  induction blocks as [|b blocks IH]; intros n ix s HR; cbn [enumerate_from foldl]; [done|].
  apply IH. by apply simulate_block.
Qed.
End simulation.

Lemma index_balances env blocks :
  ix_balances (index_blocks env blocks) = chain_balance_index blocks.
Proof.
  unfold index_blocks, chain_balance_index.
  refine (proj2 (simulate_blocks (λ ix s, ix_seen ix = s.1 ∧ ix_balances ix = s.2)
    (λ _, balance_step) _ _ env _ _ blocks 0 index_init (∅, ∅) _)); [..|done].
  - intros b ix [seen m] i tx. cbn [fst snd]. intros [<- <-]. unfold index_tx, balance_step.
    by case_bool_decide.
  - done.
Qed.

Lemma index_bonds env blocks :
  ix_bonds (index_blocks env blocks) = validator_locked_bond_index blocks.
Proof.
  unfold index_blocks, validator_locked_bond_index.
  refine (proj2 (simulate_blocks (λ ix s, ix_seen ix = s.1 ∧ ix_bonds ix = s.2)
    (λ _, locked_bond_step) _ _ env _ _ blocks 0 index_init (∅, ∅) _)); [..|done].
  - intros b ix [seen m] i tx. cbn [fst snd]. intros [<- <-]. rewrite locked_bond_step_incremental. unfold index_tx. cbn.
    by case_bool_decide.
  - done.
Qed.

Lemma index_seen env blocks :
  ix_seen (index_blocks env blocks) = list_to_set (tx_ids_of (chain_txs blocks)).
Proof.
  transitivity (foldl (λ st b, foldl balance_step st (transactions b)) (∅, ∅) blocks).1.
  - refine (proj1 (simulate_blocks (λ ix s, ix_seen ix = s.1 ∧ ix_balances ix = s.2)
      (λ _, balance_step) _ _ env _ _ blocks 0 index_init (∅, ∅) _)); [..|done].
    + intros b ix [seen m] i tx. cbn [fst snd]. intros [<- <-]. unfold index_tx, balance_step. by case_bool_decide.
    + done.
  - rewrite foldl_bind, balance_fold_seen. cbn. by rewrite union_empty_r_L.
Qed.

(** The history kept for an address in the index is the one computed from the blocks. *)
Lemma index_history env blocks a :
  default [] (ix_address_history (index_blocks env blocks) !! a)
  = address_history_of_blocks a None blocks.
Proof.
  unfold index_blocks, address_history_of_blocks.
  refine (proj2 (proj2 (simulate_blocks (λ ix s, ix_seen ix = s.1.1
    ∧ balance_of (ix_balances ix) a = s.1.2 ∧ default [] (ix_address_history ix !! a) = s.2)
    (address_history_step a None) _ _ env _ _ blocks 0 index_init (∅, 0, []) _))); [..|done].
  - intros b ix [[seen bal] h] i tx. cbn [fst snd]. intros (<- & <- & <-). unfold index_tx, address_history_step. cbn.
    case_bool_decide; [done|]. destruct (String.eqb_spec (normalize_address (address tx)) a) as [<-|Hne];
      cbn; (split; [done|]); unfold push_history.
    + rewrite balance_of_insert, lookup_insert_eq. rewrite decide_True by done. done.
    + rewrite balance_of_insert, lookup_insert_ne, decide_False by done. split; [lia|done].
  - done.
Qed.

(** The running balance of a history ends at the address's balance. *)
Lemma address_history_balance a allowed blocks :
  (foldl (λ acc b, foldl (address_history_step a allowed b) acc (transactions b)) (∅, 0, []) blocks).1.2
  = balance_of (chain_balance_index blocks) a.
Proof.
  unfold chain_balance_index.
  assert (∀ acc st, acc.1.1 = st.1 → acc.1.2 = balance_of st.2 a →
    let acc' := foldl (λ acc b, foldl (address_history_step a allowed b) acc (transactions b)) acc blocks in
    let st' := foldl (λ st b, foldl balance_step st (transactions b)) st blocks in
    acc'.1.2 = balance_of st'.2 a) as Hgen; [|by apply (Hgen (∅, 0, []) (∅, ∅))].
  induction blocks as [|b blocks IH]; intros acc st H1 H2; cbn; [done|].
  assert (∀ txs acc st, acc.1.1 = st.1 → acc.1.2 = balance_of st.2 a →
    (foldl (address_history_step a allowed b) acc txs).1.1 = (foldl balance_step st txs).1
    ∧ (foldl (address_history_step a allowed b) acc txs).1.2
      = balance_of (foldl balance_step st txs).2 a) as Htx.
  { clear. induction txs as [|tx txs IH]; intros [[seen bal] h] [seen' m] H1 H2; cbn in *; [done|].
    subst. apply IH; case_bool_decide; cbn; try done;
      destruct (String.eqb_spec (normalize_address (address tx)) a) as [<-|Hne]; cbn; try done;
      try (by case_match).
    - rewrite balance_of_insert, decide_True by done. by case_match.
    - rewrite balance_of_insert, decide_False by done. lia. }
  destruct (Htx (transactions b) acc st H1 H2) as [H1' H2']. by apply IH.
Qed.

(** ** Reading integer maps back *)

Lemma foldl_insert_list {A} (l : list (string * A)) (acc : gmap string A) :
  NoDup l.*1 → foldl (λ m kv, <[kv.1 := kv.2]> m) acc l = list_to_map l ∪ acc.
Proof.
  revert acc. induction l as [|[k v] l IH]; intros acc; cbn; [by rewrite map_empty_union|].
  rewrite NoDup_cons. intros [Hk Hnd]. rewrite IH by done.
  rewrite <- insert_union_r, insert_union_l; [done|]. by apply not_elem_of_list_to_map_1.
Qed.

Lemma sorted_items_to_map {A} (m : gmap string A) :
  NoDup (sorted_items m).*1 ∧ list_to_map (sorted_items m) = m.
Proof.
  unfold sorted_items. assert (NoDup (py_sorted key_leb (map_to_list m)).*1) as Hnd.
  { rewrite py_sorted_perm. apply NoDup_fst_map_to_list. }
  split; [done|]. rewrite (list_to_map_proper _ (map_to_list m)) by (done || apply py_sorted_perm).
  apply list_to_map_to_list.
Qed.

Definition readable_key (k : string) : Prop := normalized k ∧ k ≠ "".

Lemma int_mapping_fold (l : list (string * Z)) acc :
  Forall (λ kv, readable_key kv.1) l →
  foldl int_mapping_step acc (map (λ kv : string * Z, (kv.1, VInt kv.2)) l)
  = foldl (λ m kv, <[kv.1 := kv.2]> m) acc l.
Proof.
  intros Hall. revert acc. induction Hall as [|[k v] l [Hk Hne] Hall IH]; intros acc; cbn; [done|].
  rewrite <- IH. unfold int_mapping_step at 2. cbn. cbn in Hk, Hne. rewrite Hk.
  by rewrite (proj2 (String.eqb_neq _ _) Hne).
Qed.

Lemma int_mapping_int_dict (m : gmap string Z) :
  map_Forall (λ k _, readable_key k) m → _int_mapping (int_dict m) = m.
Proof.
  intros Hm. unfold _int_mapping, int_dict. destruct (sorted_items_to_map m) as [Hnd Hmap].
  rewrite int_mapping_fold, foldl_insert_list, Hmap by
    (done || (apply Forall_forall; intros [k v] Hkv; apply elem_of_sorted_items in Hkv; eauto)).
  apply map_union_empty.
Qed.

(** The keys of the balance index are addresses of transactions. *)
Lemma chain_balance_keys blocks a v :
  chain_balance_index blocks !! a = Some v →
  ∃ tx, tx ∈ chain_txs blocks ∧ normalize_address (address tx) = a.
Proof.
  rewrite chain_balance_index_flat.
  assert (∀ st, st.2 !! a = None → (foldl balance_step st (chain_txs blocks)).2 !! a = Some v →
    ∃ tx, tx ∈ chain_txs blocks ∧ normalize_address (address tx) = a) as Hgen;
    [|apply Hgen, lookup_empty].
  induction (chain_txs blocks) as [|tx txs IH]; intros [seen m] Hm; cbn; [cbn in Hm; congruence|].
  destruct (decide (normalize_address (address tx) = a)) as [Ha|Ha]; [set_solver|].
  case_bool_decide; intros Hf; apply IH in Hf as (tx' & Hin & Ha'); cbn; try set_solver.
  by rewrite lookup_insert_ne.
Qed.

Lemma stable_readable blocks :
  Forall (λ tx, normalized (address tx) ∧ address tx ≠ "") (chain_txs blocks) →
  map_Forall (λ k _, readable_key k) (chain_balance_index blocks).
Proof.
  intros Hall k v Hk. apply chain_balance_keys in Hk as (tx & Htx & <-).
  rewrite Forall_forall in Hall. destruct (Hall tx Htx) as [Hn Hne]. by rewrite Hn.
Qed.

(** ** Histories read back from the index document *)

Lemma dlookup_sorted_items {A} (f : A → pyval) (m : gmap string A) k :
  dlookup k (map (λ kv : string * A, (kv.1, f kv.2)) (sorted_items m)) = f <$> m !! k.
Proof.
  assert ((map (λ kv : string * A, (kv.1, f kv.2)) (sorted_items m)).*1 = (sorted_items m).*1) as Hfst.
  { rewrite <- list_fmap_compose. by apply list_fmap_ext. }
  destruct (m !! k) as [v|] eqn:E; cbn.
  - apply dlookup_nodup; [rewrite Hfst; apply sorted_items_to_map|].
    apply list_elem_of_fmap. exists (k, v). split; [done|]. by apply elem_of_sorted_items.
  - apply dlookup_None. rewrite Hfst. intros Hin. apply list_elem_of_fmap in Hin as ([k' v] & -> & Hin).
    apply elem_of_sorted_items in Hin. cbn in E. congruence.
Qed.

(** The last entry of a history carries the current balance. *)
Lemma address_history_last a blocks e :
  last (address_history_of_blocks a None blocks) = Some e →
  ∃ d, e = VDict d ∧ dget "balance_after_atomic" d = VInt (balance_of (chain_balance_index blocks) a).
Proof.
  unfold address_history_of_blocks. rewrite <- (address_history_balance a None blocks).
  set (P := λ acc : gset string * Z * list pyval, ∀ e, last acc.2 = Some e →
    ∃ d, e = VDict d ∧ dget "balance_after_atomic" d = VInt acc.1.2).
  assert (P (foldl (λ acc b, foldl (address_history_step a None b) acc (transactions b)) (∅, 0, []) blocks))
    as HP; [|by apply HP].
  assert (∀ b acc tx, P acc → P (address_history_step a None b acc tx)) as Hstep.
  { intros b [[seen bal] h] tx HP e'. unfold address_history_step.
    case_bool_decide; [apply HP|]. case_match; [apply HP|]. cbn. rewrite last_snoc.
    intros [= <-]. eauto. }
  assert (∀ b txs acc, P acc → P (foldl (address_history_step a None b) acc txs)) as Htxs.
  { intros b txs. induction txs as [|tx txs IH]; intros acc HP; cbn; auto. }
  assert (P (∅, 0, [])) as H0 by (intros e' He'; discriminate He').
  revert H0. generalize ((∅, 0, []) : gset string * Z * list pyval).
  induction blocks as [|b blocks IH]; intros acc HP; cbn; auto.
Qed.

(** * Appending to the chain

    What a successful append establishes and what a refused one leaves behind. *)

(** ** The store monad *)

Lemma M_bind_eq {A B} (m : M A) (f : A → M B) s :
  (m ≫= f) s = match m s with (s', Ok a) => f a s' | (s', Err e) => (s', Err e) end.
Proof. done. Qed.

Lemma lift_bind_ok {A B} (a : A) (f : A → M B) s : (lift (Ok a) ≫= f) s = f a s.
Proof. done. Qed.

Lemma read_bind_ok {A B} (g : ChainStore → result A) (f : A → M B) s a :
  g s = Ok a → (read g ≫= f) s = f a s.
Proof. intros Hg. rewrite M_bind_eq. unfold read. by rewrite Hg. Qed.

(** ** Stored blocks are sorted *)

Definition same_key (a b : ChainBlock) : Prop :=
  height a = height b ∧ created_at a = created_at b ∧ block_hash a = block_hash b.

Lemma fill_roots_key env pre b : same_key b (fill_roots env pre b).
Proof. unfold fill_roots. by repeat case_match. Qed.

Lemma fill_missing_keys env blocks :
  Forall2 same_key blocks (_fill_missing_block_roots env blocks).
Proof.
  unfold _fill_missing_block_roots.
  assert (∀ pre, ∃ l, foldl (λ p b, p ++ [fill_roots env p b]) pre blocks = pre ++ l
                      ∧ Forall2 same_key blocks l) as Hgen.
  { induction blocks as [|b blocks IH]; intros pre; cbn.
    - exists []. by rewrite app_nil_r.
    - destruct (IH (pre ++ [fill_roots env pre b])) as (l & -> & Hl).
      exists (fill_roots env pre b :: l). rewrite <- app_assoc. split; [done|].
      constructor; [apply fill_roots_key|done]. }
  destruct (Hgen []) as (l & -> & Hl). done.
Qed.

Lemma block_leb_same_key a a' b b' :
  same_key a a' → same_key b b' → block_leb a b = block_leb a' b'.
Proof. intros (H1 & H2 & H3) (H4 & H5 & H6). unfold block_leb. congruence. Qed.

Lemma block_sorted_same_key l l' : Forall2 same_key l l' → block_sorted l → block_sorted l'.
Proof.
  intros Hall. induction Hall as [|a a' l l' Ha Hl IH]; intros Hs; [constructor|].
  inversion Hs as [|? ? Hs' Hfa]; subst. constructor; [by apply IH|]. clear IH Hs Hs'.
  induction Hl as [|b b' l l' Hb Hl IH]; inversion Hfa; subst; constructor; auto.
  by rewrite <- (block_leb_same_key a a' b b').
Qed.

Lemma list_chain_blocks_sorted env policy now st blocks :
  list_chain_blocks env policy now st = Ok blocks → block_sorted blocks.
Proof.
  unfold list_chain_blocks. destruct (chain_file st); [|intros [= <-]; constructor].
  rewrite bind_ok. intros (items & _ & H). apply bind_ok in H as (bs & _ & [= <-]).
  eapply block_sorted_same_key; [apply fill_missing_keys|apply sort_blocks_sorted].
Qed.

(** The last block of a sorted list is the highest. *)
Lemma block_sorted_last l b p : block_sorted l → last l = Some b → p ∈ l → height p ≤ height b.
Proof.
  induction 1 as [|x l Hl IH Hx]; [done|]. rewrite elem_of_cons. intros Hlast [->|Hp].
  - destruct l as [|y l]; [by injection Hlast as ->|]. change (last (y :: l) = Some b) in Hlast.
    apply last_Some_elem_of in Hlast. rewrite Forall_forall in Hx. apply Hx, block_leb_spec in Hlast. lia.
  - apply IH; [|done]. destruct l; [by apply elem_of_nil in Hp|done].
Qed.

(** ** Valid chains *)

Section valid.
Context `{SignatureBackend} (env : Environ) (policy : option WalletPolicy).

Lemma valid_blocks_height blocks i b :
  valid_blocks env policy blocks → blocks !! i = Some b → height b = Z.of_nat i.
Proof.
  intros Hv. revert i b. induction Hv as [|pre b' Hv IH Hb]; intros i b; [done|].
  rewrite lookup_app_Some. intros [Hi|[Hle Hi]]; [by apply IH|].
  apply list_lookup_singleton_Some in Hi as [Hi ->].
  pose proof (vb_linked _ _ _ _ Hb) as Hl. unfold linked in Hl.
  destruct (last pre) as [p|] eqn:Elast.
  - destruct Hl as [-> _]. rewrite last_lookup in Elast. pose proof (lookup_lt_Some _ _ _ Elast).
    apply IH in Elast as ->. lia.
  - apply last_None in Elast as ->. cbn in Hle, Hi. destruct Hl as [-> _]. lia.
Qed.

Lemma valid_blocks_prefix blocks b :
  valid_blocks env policy (blocks ++ [b]) → valid_blocks env policy blocks.
Proof.
  intros Hv. inversion Hv as [Hn|pre b' Hpre Hb Heq]; [by destruct blocks|].
  by apply app_inj_tail in Heq as [-> _].
Qed.

Lemma valid_blocks_link blocks i b b' :
  valid_blocks env policy blocks → blocks !! i = Some b → blocks !! S i = Some b' →
  previous_hash b' = block_hash b.
Proof.
  intros Hv. induction Hv as [|pre b0 Hv IH Hb]; [done|]. intros Hi HSi.
  apply lookup_app_Some in HSi as [HSi|[Hle HSi]].
  - rewrite lookup_app_l in Hi by (apply lookup_lt_Some in HSi; lia). by apply IH.
  - apply list_lookup_singleton_Some in HSi as [HSi ->].
    rewrite lookup_app_l in Hi by lia.
    pose proof (vb_linked _ _ _ _ Hb) as Hl. unfold linked in Hl.
    rewrite last_lookup in Hl. replace (pred (length pre)) with i in Hl by lia.
    rewrite Hi in Hl. apply Hl.
Qed.

Lemma valid_blocks_hash blocks i b :
  valid_blocks env policy blocks → blocks !! i = Some b → block_hash b = compute_block_hash env b.
Proof.
  intros Hv. revert i b. induction Hv as [|pre b' Hv IH Hb]; intros i b; [done|].
  rewrite lookup_app_Some. intros [Hi|[Hle Hi]]; [by eapply IH|].
  apply list_lookup_singleton_Some in Hi as [_ <-]. apply Hb.
Qed.

Lemma valid_blocks_sorted blocks : valid_blocks env policy blocks → block_sorted blocks.
Proof.
  induction 1 as [|pre b Hv IH Hb]; [constructor|]. apply block_sorted_snoc; [done|].
  intros p Hp. apply list_elem_of_lookup in Hp as [i Hi].
  assert (valid_blocks env policy (pre ++ [b])) as Hv' by (by constructor).
  rewrite (valid_blocks_height pre i p), (valid_blocks_height (pre ++ [b]) (length pre) b).
  - apply lookup_lt_Some in Hi. lia.
  - done.
  - by rewrite lookup_app_r, Nat.sub_diag by lia.
  - done.
  - done.
Qed.

Lemma valid_blocks_stripped blocks :
  valid_blocks env policy blocks → NoDup (stripped_ids (chain_txs blocks)).
Proof.
  induction 1 as [|pre b Hv IH Hb]; [constructor|].
  rewrite chain_txs_app, chain_txs_singleton, stripped_ids_app. apply NoDup_app.
  split; [done|]. split; [|apply Hb]. intros i Hi Hi'. by eapply (vb_ids_new _ _ _ _ Hb).
Qed.

Lemma valid_blocks_nonces blocks :
  valid_blocks env policy blocks → NoDup (tx_nonce_keys (chain_txs blocks)).
Proof.
  induction 1 as [|pre b Hv IH Hb]; [constructor|].
  rewrite chain_txs_app, chain_txs_singleton, tx_nonce_keys_app. apply NoDup_app.
  split; [done|]. split; [|apply Hb]. intros i Hi Hi'. by eapply (vb_nonces_new _ _ _ _ Hb).
Qed.

Lemma valid_blocks_ids blocks :
  valid_blocks env policy blocks → NoDup (tx_ids_of (chain_txs blocks)).
Proof.
  intros Hv. apply (NoDup_fmap_1 strip). apply valid_blocks_stripped in Hv.
  unfold stripped_ids in Hv. unfold tx_ids_of. by rewrite <- list_fmap_compose.
Qed.

Lemma valid_blocks_counted blocks :
  valid_blocks env policy blocks → counted blocks = chain_txs blocks.
Proof. intros Hv. by apply counted_nodup, valid_blocks_ids. Qed.

(** The supply of a valid chain is the policy's. *)
Lemma valid_chain_total blocks :
  valid_chain env policy blocks →
  deltas (chain_txs blocks) = supply_of (_money_policy_for_wallet_policy env policy None).
Proof.
  intros [Hv _ Hs _]. rewrite <- valid_blocks_counted by done. rewrite <- chain_balance_total.
  rewrite expected_total_supply_ok in Hs. by apply (inj Ok) in Hs.
Qed.

(** A valid extension of a valid chain moves coins and creates none. *)
Lemma valid_extension_zero_sum blocks b :
  valid_chain env policy (blocks ++ [b]) → valid_chain env policy blocks →
  deltas (transactions b) = 0.
Proof.
  intros Hv Hv0. apply valid_chain_total in Hv, Hv0.
  rewrite chain_txs_app, chain_txs_singleton, deltas_app in Hv. lia.
Qed.

(** The balances of an extension are the old ones plus the block's deltas. *)
Lemma valid_extension_balance blocks b a :
  valid_blocks env policy (blocks ++ [b]) →
  balance_of (chain_balance_index (blocks ++ [b])) a
  = balance_of (chain_balance_index blocks) a + deltas (of_address a (transactions b)).
Proof.
  intros Hv. pose proof (valid_blocks_prefix blocks b Hv) as Hv0.
  rewrite !chain_balance_lookup, !valid_blocks_counted by done.
  rewrite chain_txs_app, chain_txs_singleton. unfold of_address. by rewrite filter_app, deltas_app.
Qed.

Lemma valid_chain_balance_bounds blocks a :
  valid_chain env policy blocks →
  0 ≤ balance_of (chain_balance_index blocks) a
    ≤ supply_of (_money_policy_for_wallet_policy env policy None).
Proof.
  intros [_ Hb Hs _]. rewrite expected_total_supply_ok in Hs. apply (inj Ok) in Hs as ->.
  pose proof (sumZ_nonneg (map snd (map_to_list (chain_balance_index blocks)))) as Hnn.
  unfold balance_of. destruct (_ !! a) as [v|] eqn:E; cbn.
  - split; [by eapply Hb|by eapply map_sum_lookup_le].
  - split; [lia|]. rewrite map_sum_to_list. apply Hnn. apply Forall_map, Forall_forall.
    intros [k v] Hkv. apply elem_of_map_to_list in Hkv. by eapply Hb.
Qed.

Lemma validate_sorted blocks :
  validate_chain_blocks env policy (sort_blocks blocks) = validate_chain_blocks env policy blocks.
Proof.
  destruct blocks as [|x xs]; [done|].
  destruct (sort_blocks (x :: xs)) as [|b bs] eqn:E; [by apply (proj1 (sort_blocks_nil _)) in E|].
  assert (sort_blocks (b :: bs) = sort_blocks (x :: xs)) as Heq by (rewrite <- E; apply sort_blocks_idem).
  unfold validate_chain_blocks. by rewrite Heq.
Qed.

Lemma validate_sorted_iff blocks :
  blocks ≠ [] → block_sorted blocks →
  validate_chain_blocks env policy blocks = Ok [] ↔ valid_chain env policy blocks.
Proof. intros Hne Hs. rewrite validate_chain_blocks_spec, sort_blocks_id by done. naive_solver. Qed.
End valid.

(** ** Saving *)

Section save.
Context `{SignatureBackend} (env : Environ) (policy : option WalletPolicy).

(** What is on disk after saving [blocks]. *)
Definition saved (t : Tick) (blocks : list ChainBlock) (st : ChainStore) : Prop :=
  chain_file st = Some (chain_doc blocks) ∧ chain_stat st = new_stat t
  ∧ ∃ ip, _build_chain_index_payloads env policy (now t)
            (put_chain (chain_doc blocks) (new_stat t) st) blocks = Ok ip
          ∧ index_file st = Some ip.1 ∧ snapshots_file st = Some ip.2.

Lemma build_index_total now st blocks errors :
  validate_chain_blocks env policy blocks = Ok errors →
  ∃ ip, _build_chain_index_payloads env policy now st blocks = Ok ip.
Proof.
  intros Hv. unfold _build_chain_index_payloads. rewrite validate_sorted, Hv.
  cbn [mbind result_bind]. eauto.
Qed.

Lemma build_index_stat now st st' blocks :
  chain_file st = chain_file st' → chain_stat st = chain_stat st' →
  _build_chain_index_payloads env policy now st blocks
  = _build_chain_index_payloads env policy now st' blocks.
Proof.
  intros Hf Hs. unfold _build_chain_index_payloads, _chain_file_stat_payload. by rewrite Hf, Hs.
Qed.

Lemma save_chain_blocks_ok t blocks st errors :
  validate_chain_blocks env policy blocks = Ok errors →
  ∃ st', save_chain_blocks env policy t blocks st = (st', Ok tt) ∧ saved t blocks st'.
Proof.
  intros Hv. unfold save_chain_blocks. rewrite M_bind_eq. cbn [modify]. rewrite M_bind_eq.
  unfold rebuild_chain_indexes. rewrite M_bind_eq. unfold read.
  destruct (build_index_total (now t) (put_chain (chain_doc blocks) (new_stat t) st) blocks errors Hv)
    as [ip Hip].
  unfold chain_doc in Hip |- *. rewrite Hip. eexists. split; [reflexivity|]. unfold saved. cbn.
  split; [done|]. split; [done|]. exists ip. split; [|done].
  erewrite build_index_stat; [exact Hip|done|done].
Qed.
End save.

(** ** Appending *)

Section append.
Context `{SignatureBackend} (env : Environ) (policy : option WalletPolicy).

Definition fill_chain_id (tx : ChainTransaction) : ChainTransaction :=
  if String.eqb (tx_chain_id tx) "" then with_chain_id tx (active_chain_id env policy) else tx.

Lemma fill_chain_id_keeps tx :
  tx_id (fill_chain_id tx) = tx_id tx ∧ delta_atomic (fill_chain_id tx) = delta_atomic tx
  ∧ address (fill_chain_id tx) = address tx.
Proof. unfold fill_chain_id. by case_match. Qed.

Lemma check_new_tx_ok nonces acc tx acc' :
  check_new_tx env policy nonces acc tx = Ok acc' → acc'.1 = acc.1 ++ [fill_chain_id tx].
Proof.
  destruct acc as [l n]. unfold check_new_tx. fold (fill_chain_id tx).
  case_match; [done|]. case_match; [done|]. rewrite bind_ok. intros (sg & _ & Hr).
  case_match; [done|]. case_match; [|by injection Hr as <-]. case_match; [done|].
  by injection Hr as <-.
Qed.

Lemma check_new_txs_ok nonces txs : ∀ acc acc',
  foldM (check_new_tx env policy nonces) acc txs = Ok acc' →
  acc'.1 = acc.1 ++ map fill_chain_id txs.
Proof.
  induction txs as [|tx txs IH]; intros acc acc'; cbn [foldM map].
  - intros [= ->]. by rewrite app_nil_r.
  - destruct (check_new_tx _ _ _ _ _) as [a|] eqn:E; [|done]. apply check_new_tx_ok in E.
    intros Hf. apply IH in Hf as ->. by rewrite E, <- app_assoc.
Qed.

Definition new_txs (blocks : list ChainBlock) (txs : list ChainTransaction) :=
  filter (λ tx, tx_id tx ∉ chain_tx_ids blocks) txs.

Lemma next_block_ids t blocks vid txs :
  tx_ids_of (transactions (next_block env policy t blocks vid (map fill_chain_id txs)))
  = tx_ids_of txs.
Proof.
  cbn. unfold tx_ids_of. rewrite map_map. apply map_ext. intros tx. apply fill_chain_id_keeps.
Qed.

(** The three outcomes of [append_chain_block]. *)
Inductive append_outcome (t : Tick) (txs : list ChainTransaction) (vid : pyval) (st : ChainStore)
  : ChainStore → result (option ChainBlock) → Prop :=
| append_nothing : append_outcome t txs vid st st (Ok None)
| append_refused e : append_outcome t txs vid st st (Err e)
| append_done blocks st' :
    list_chain_blocks env policy (now t) st = Ok blocks →
    new_txs blocks txs ≠ [] →
    let b := next_block env policy t blocks vid (map fill_chain_id (new_txs blocks txs)) in
    validate_chain_blocks env policy (blocks ++ [b]) = Ok [] →
    saved env policy t (blocks ++ [b]) st' →
    append_outcome t txs vid st st' (Ok (Some b)).

Lemma append_chain_block_cases t txs vid st st' r :
  append_chain_block env policy t txs vid st = (st', r) → append_outcome t txs vid st st' r.
Proof.
  unfold append_chain_block. destruct txs as [|tx0 txs0]; [intros [= <- <-]; constructor|].
  generalize (tx0 :: txs0). clear tx0 txs0. intros txs. rewrite M_bind_eq. unfold read.
  destruct (list_chain_blocks env policy (now t) st) as [blocks|e] eqn:Hl;
    [|intros [= <- <-]; constructor].
  fold (new_txs blocks txs). destruct (new_txs blocks txs) as [|n0 ns] eqn:Hn;
    [intros [= <- <-]; constructor|]. rewrite <- Hn. rewrite M_bind_eq. unfold lift at 1.
  destruct (foldM _ _ _) as [checked|e] eqn:Hc; [|intros [= <- <-]; constructor].
  apply check_new_txs_ok in Hc. rewrite app_nil_l in Hc. rewrite Hc. set (b := next_block _ _ _ _ _ _).
  rewrite M_bind_eq. unfold lift at 1.
  destruct (_validate_chain_supply_invariant _ _ _ _) as [[e|]|e];
    [intros [= <- <-]; constructor| |intros [= <- <-]; constructor].
  rewrite M_bind_eq. unfold lift.
  destruct (validate_chain_blocks env policy (blocks ++ [b])) as [[|e es]|e] eqn:Hv;
    [|intros [= <- <-]; constructor..].
  rewrite M_bind_eq. destruct (save_chain_blocks_ok env policy t (blocks ++ [b]) st [] Hv)
    as (st1 & Hs & Hsaved). rewrite Hs. intros [= <- <-].
  apply append_done; [done|by rewrite Hn|done|done].
Qed.

Lemma append_inv t txs vid st st' b :
  append_chain_block env policy t txs vid st = (st', Ok (Some b)) →
  ∃ blocks, list_chain_blocks env policy (now t) st = Ok blocks
    ∧ new_txs blocks txs ≠ []
    ∧ b = next_block env policy t blocks vid (map fill_chain_id (new_txs blocks txs))
    ∧ valid_chain env policy (blocks ++ [b]) ∧ saved env policy t (blocks ++ [b]) st'.
Proof.
  intros Ha. apply append_chain_block_cases in Ha. inversion Ha as [| |blocks st'' Hl Hn b' Hv Hs]; subst.
  exists blocks. split_and!; [done..| |done].
  apply validate_sorted_iff; [by destruct blocks| |done].
  apply block_sorted_snoc; [by eapply list_chain_blocks_sorted|]. intros p Hp.
  cbn. destruct (last blocks) as [l|] eqn:El.
  - apply list_chain_blocks_sorted in Hl. pose proof (block_sorted_last blocks l p Hl El Hp). lia.
  - apply last_None in El as ->. by apply elem_of_nil in Hp.
Qed.

Lemma append_other t txs vid st st' r :
  append_chain_block env policy t txs vid st = (st', r) → (∀ b, r ≠ Ok (Some b)) → st' = st.
Proof.
  intros Ha Hr. apply append_chain_block_cases in Ha. inversion Ha; subst; [done..|]. by edestruct Hr.
Qed.
End append.
