(* ===== verification/ChainFacts.v ===== *)
(** * Reload, balances and genesis of the stored chain

    Lemmas about sequences of operations on a stored chain: what is read back after an
    append, what the index says, and when installing the genesis block does nothing. *)
From Stdlib Require Import Ascii.
From S2P Require Import Prelude.
From S2P Require Import PyStr.
From S2P Require Import PyVal.
From S2P Require Import Sha256.
From S2P Require Import Money.
From S2P Require Import Signing.
From S2P Require Import ChainTx.
From S2P Require Import Ledger.
From S2P Require Import LedgerFacts.
From S2P Require Import Validation.
From S2P Require Import ChainStore.
From S2P Require Import ChainOps.
From S2P Require Import StoreFacts.
Local Open Scope Z_scope.
Set Default Proof Using "Type".

Lemma list_chain_blocks_file env policy now st st' :
  chain_file st = chain_file st' →
  list_chain_blocks env policy now st = list_chain_blocks env policy now st'.
Proof. intros Hf. unfold list_chain_blocks. by rewrite Hf. Qed.

Lemma active_chain_id_nonempty env policy : active_chain_id env policy ≠ "".
Proof. unfold active_chain_id. by destruct (chain_network _). Qed.

Section facts.
Context `{SignatureBackend} (env : Environ) (policy : option WalletPolicy).

Lemma fill_chain_id_stable tx : stable_tx tx → fill_chain_id env policy tx = tx.
Proof.
  intros (_ & _ & _ & Hc & _). unfold fill_chain_id. by rewrite (proj2 (String.eqb_neq _ _) Hc).
Qed.

Lemma fill_chain_ids_stable txs :
  Forall stable_tx txs → map (fill_chain_id env policy) txs = txs.
Proof.
  induction 1 as [|tx txs Htx Hall IH]; cbn; [done|]. by rewrite fill_chain_id_stable, IH.
Qed.

Lemma next_block_stable t blocks vid txs :
  now t ≠ "" → Forall stable_block blocks → Forall stable_tx txs →
  stable_block (next_block env policy t blocks vid txs).
Proof.
  intros Hnow Hall Htxs. unfold next_block, seal_block, stable_block.
  cbn [with_state_root with_block_hash created_at previous_hash block_hash chain_id schema_version
       tx_root state_root validator_public_key_b64 validator_signature_b64 transactions].
  split; [exact Hnow|]. split; [|split; [apply sha256_nonempty|split; [apply active_chain_id_nonempty|]]].
  2: { split; [discriminate|]. split; [apply sha256_nonempty|]. split; [apply sha256_nonempty|].
       split; [reflexivity|]. split; [reflexivity|exact Htxs]. }
  destruct (last blocks) as [p|] eqn:El; [|done]. apply last_Some_elem_of in El.
  rewrite Forall_forall in Hall. by apply Hall in El as (_ & _ & ? & _).
Qed.

Lemma new_txs_forall (P : ChainTransaction → Prop) blocks txs :
  Forall P txs → Forall P (new_txs blocks txs).
Proof.
  intros Hall. unfold new_txs. rewrite Forall_forall in *. intros tx Htx.
  apply list_elem_of_filter in Htx as [_ Htx]. auto.
Qed.

(** After a save of a valid chain in stable form, the same blocks are read back. *)
Lemma saved_reload t now' blocks st :
  saved env policy t blocks st → Forall stable_block blocks → valid_blocks env policy blocks →
  list_chain_blocks env policy now' st = Ok blocks.
Proof.
  intros (Hf & _) Hs Hv. rewrite (list_saved_blocks env policy now' st blocks Hf Hs).
  by rewrite sort_blocks_id by (by eapply valid_blocks_sorted).
Qed.

Lemma append_reload_spec t now' txs vid st st' b blocks :
  now t ≠ "" → list_chain_blocks env policy (now t) st = Ok blocks →
  Forall stable_block blocks → Forall stable_tx txs →
  append_chain_block env policy t txs vid st = (st', Ok (Some b)) →
  list_chain_blocks env policy now' st' = Ok (blocks ++ [b])
  ∧ transactions b = new_txs blocks txs ∧ stable_block b.
Proof.
  intros Hnow Hl Hstable Htxs Ha. apply append_inv in Ha as (blocks' & Hl' & _ & Hb & Hv & Hs).
  rewrite Hl in Hl'. apply (inj Ok) in Hl' as <-.
  rewrite fill_chain_ids_stable in Hb by (by apply new_txs_forall).
  assert (stable_block b) as Hsb.
  { rewrite Hb. apply next_block_stable; [done..|by apply new_txs_forall]. }
  split_and!; [|by rewrite Hb|done].
  eapply saved_reload; [done| |apply Hv]. apply Forall_app. by split; [|constructor].
Qed.

(** ** Balances read through the index *)

Lemma build_index_balances now st blocks ip :
  _build_chain_index_payloads env policy now st blocks = Ok ip →
  dget "balancesAtomic" ip.1 = int_dict (chain_balance_index (sort_blocks blocks))
  ∧ dget "validatorLockedBondAtomic" ip.1
    = int_dict (validator_locked_bond_index (sort_blocks blocks))
  ∧ ip.1 ≠ [].
Proof.
  unfold _build_chain_index_payloads. rewrite bind_ok. intros (errors & _ & [= <-]).
  split_and!; [| |done].
  - transitivity (int_dict (ix_balances (index_blocks env (sort_blocks blocks)))); [done|].
    by rewrite index_balances.
  - transitivity (int_dict (ix_bonds (index_blocks env (sort_blocks blocks)))); [done|].
    by rewrite index_bonds.
Qed.

Lemma build_index_history now st blocks ip a :
  _build_chain_index_payloads env policy now st blocks = Ok ip →
  default [] (as_list (dget a (default [] (as_dict (dget "addressHistory" ip.1)))))
  = address_history_of_blocks a None (sort_blocks blocks).
Proof.
  unfold _build_chain_index_payloads. rewrite bind_ok. intros (errors & _ & [= <-]).
  transitivity (default [] (as_list (dget a (map (λ kv : string * list pyval, (kv.1, VList kv.2))
    (sorted_items (ix_address_history (index_blocks env (sort_blocks blocks)))))))); [done|].
  unfold dget. rewrite dlookup_sorted_items, <- (index_history env).
  by destruct (ix_address_history (index_blocks env (sort_blocks blocks)) !! a).
Qed.

Definition readable_chain (blocks : list ChainBlock) : Prop :=
  Forall (λ tx, normalized (address tx) ∧ address tx ≠ "") (chain_txs blocks).

Lemma index_matches_total ip st b :
  _index_matches_current_chain_file env policy ip st = Ok b → chain_file st ≠ None ∨ b = false.
Proof.
  unfold _index_matches_current_chain_file. rewrite bind_ok. intros (v & _ & Hr).
  case_match; [injection Hr as <-; by right|]. apply bind_ok in Hr as (c & _ & Hr).
  case_match; [injection Hr as <-; by right|]. case_match; [injection Hr as <-; by right|].
  destruct (chain_file st); [by left|]. injection Hr as <-. by right.
Qed.

(** The index document written with the chain can always be examined. *)
Lemma saved_index_matches t blocks st :
  saved env policy t blocks st →
  ∃ b, _index_matches_current_chain_file env policy (load_chain_index st) st = Ok b.
Proof.
  intros (Hf & Hst & ip & Hip & Hi & _). unfold load_chain_index. rewrite Hi. cbn [default from_option id].
  unfold _build_chain_index_payloads in Hip. apply bind_ok in Hip as (errors & _ & Hip).
  apply (inj Ok) in Hip as <-. unfold _index_matches_current_chain_file. cbn [fst].
  change (dget "schemaVersion" _) with (VInt CHAIN_INDEX_SCHEMA_VERSION).
  change (dget "chainSchemaVersion" _) with (VInt CHAIN_SCHEMA_VERSION).
  cbn [py_or truthy CHAIN_INDEX_SCHEMA_VERSION CHAIN_SCHEMA_VERSION py_int mbind result_bind Z.eqb negb Pos.eqb].
  case_match; [eauto|]. rewrite Hf.
  change (dget "chainFile" _)
    with (VDict (_chain_file_stat_payload (put_chain (chain_doc blocks) (new_stat t) st))).
  cbn [as_dict default from_option id _chain_file_stat_payload put_chain chain_file chain_stat].
  change (truthy (dget "exists" _)) with true. cbn [negb].
  change (dget "size" _) with (VInt (new_stat t).1).
  change (dget "mtimeNs" _) with (VInt (new_stat t).2).
  assert (∀ z, ∃ z', py_int (py_or (VInt z) (VInt (-1))) = Ok z') as Hz.
  { intros z. unfold py_or. case_match; cbn; eauto. }
  destruct (Hz (new_stat t).1) as [z1 ->], (Hz (new_stat t).2) as [z2 ->].
  cbn [mbind result_bind]. case_match; eauto.
Qed.

Lemma load_index_saved t t' blocks st :
  saved env policy t blocks st → Forall stable_block blocks → valid_chain env policy blocks →
  blocks ≠ [] →
  ∃ st' ip, load_or_rebuild_chain_index env policy t' st = (st', Ok ip) ∧ ip ≠ []
    ∧ dget "balancesAtomic" ip = int_dict (chain_balance_index blocks)
    ∧ dget "validatorLockedBondAtomic" ip = int_dict (validator_locked_bond_index blocks)
    ∧ chain_file st' = chain_file st.
Proof.
  intros Hsaved Hs Hv Hne. pose proof (saved_reload t (now t') blocks st Hsaved Hs (vc_blocks _ _ _ Hv)) as Hl.
  assert (block_sorted blocks) as Hsorted by (eapply valid_blocks_sorted, Hv).
  destruct (saved_index_matches t blocks st Hsaved) as [b Hb].
  unfold load_or_rebuild_chain_index. rewrite Hb, lift_bind_ok.
  destruct Hsaved as (Hf & Hst & ip & Hip & Hi & _). destruct b.
  - exists st, (load_chain_index st). unfold load_chain_index. rewrite Hi. cbn [default from_option id].
    apply build_index_balances in Hip as (Hb1 & Hb2 & Hne'). rewrite sort_blocks_id in Hb1, Hb2 by done.
    by split_and!.
  - rewrite Hf, (read_bind_ok _ _ _ blocks Hl). destruct blocks as [|b0 bs]; [done|].
    unfold rebuild_chain_indexes.
    destruct (build_index_total env policy (now t') st (b0 :: bs) []) as [ip' Hip'].
    { by apply validate_sorted_iff. }
    rewrite (read_bind_ok _ _ _ ip' Hip'). eexists _, _. split; [reflexivity|].
    apply build_index_balances in Hip' as (Hb1 & Hb2 & Hne'). rewrite sort_blocks_id in Hb1, Hb2 by done.
    by split_and!.
Qed.

Lemma stored_balances_saved t t' blocks st :
  saved env policy t blocks st → Forall stable_block blocks → valid_chain env policy blocks →
  blocks ≠ [] → readable_chain blocks →
  ∃ st', stored_balance_index env policy t' st = (st', Ok (chain_balance_index blocks))
    ∧ chain_file st' = chain_file st.
Proof.
  intros Hsaved Hs Hv Hne Hr.
  destruct (load_index_saved t t' blocks st Hsaved Hs Hv Hne) as (st' & ip & Hload & Hip & Hbal & _ & Hf).
  exists st'. split; [|done]. unfold stored_balance_index. rewrite M_bind_eq, Hload.
  destruct ip as [|kv ip]; [done|]. unfold _chain_index_balances. rewrite Hbal.
  rewrite int_mapping_int_dict by (by apply stable_readable). done.
Qed.

(** ** Genesis *)

Lemma genesis_hash_of g :
  make_genesis_block env (_money_policy_for_wallet_policy env policy None) = Ok g →
  expected_genesis_hash env policy None = Ok (block_hash g).
Proof. intros Hg. unfold expected_genesis_hash. by rewrite Hg. Qed.

Lemma new_txs_all_known blocks txs :
  (∀ tx, tx ∈ txs → tx_id tx ∈ chain_tx_ids blocks) → new_txs blocks txs = [].
Proof.
  intros Hall. unfold new_txs. apply elem_of_nil_inv. intros tx.
  rewrite list_elem_of_filter. intros [Hn Htx]. by apply Hn, Hall.
Qed.

Lemma new_txs_all_new blocks txs :
  Forall (λ tx, tx_id tx ∉ chain_tx_ids blocks) txs → new_txs blocks txs = txs.
Proof.
  unfold new_txs. induction 1 as [|tx txs Htx Hall IH]; [done|].
  by rewrite filter_cons_True, IH.
Qed.

Lemma chain_tx_ids_spec blocks i :
  i ∈ chain_tx_ids blocks ↔ ∃ tx, tx ∈ chain_txs blocks ∧ tx_id tx = i.
Proof.
  unfold chain_tx_ids, chain_txs. rewrite elem_of_list_to_set, list_elem_of_bind. split.
  - intros (b & Hi & Hb). apply list_elem_of_fmap in Hi as (tx & -> & Htx).
    exists tx. split; [|done]. apply list_elem_of_bind. eauto.
  - intros (tx & Htx & <-). apply list_elem_of_bind in Htx as (b & Htx & Hb).
    exists b. split; [|done]. by apply list_elem_of_fmap_2.
Qed.

(** Transactions that are all on the chain add nothing. *)
Lemma append_known t txs vid st blocks :
  list_chain_blocks env policy (now t) st = Ok blocks → new_txs blocks txs = [] →
  append_chain_block env policy t txs vid st = (st, Ok None).
Proof.
  intros Hl Hn. unfold append_chain_block. destruct txs as [|tx txs]; [done|].
  rewrite (read_bind_ok _ _ _ _ Hl). unfold new_txs in Hn. by rewrite Hn.
Qed.

Lemma new_txs_recorded blocks b txs :
  transactions b = new_txs blocks txs → new_txs (blocks ++ [b]) txs = [].
Proof.
  intros Hb. apply new_txs_all_known. intros tx Htx. apply chain_tx_ids_spec.
  destruct (decide (tx_id tx ∈ chain_tx_ids blocks)) as [Hin|Hout].
  - apply chain_tx_ids_spec in Hin as (tx' & Htx' & <-). exists tx'.
    rewrite chain_txs_app. set_solver.
  - exists tx. split; [|done]. rewrite chain_txs_app, chain_txs_singleton, Hb.
    apply elem_of_app. right. by apply list_elem_of_filter.
Qed.

(** A chain that starts with the policy's genesis block is left alone. *)
Lemma ensure_genesis_noop t g rest st :
  make_genesis_block env (_money_policy_for_wallet_policy env policy None) = Ok g →
  list_chain_blocks env policy (now t) st = Ok (g :: rest) →
  ensure_chain_genesis env policy t None st = (st, Ok 0).
Proof.
  intros Hg Hl. unfold ensure_chain_genesis. rewrite Hg, lift_bind_ok.
  rewrite (read_bind_ok _ _ _ _ Hl).
  assert (filter (λ tx, tx_id tx ∉ chain_tx_ids (g :: rest)) (transactions g) = []) as Hmiss.
  { apply (new_txs_all_known (g :: rest)). intros tx Htx. apply chain_tx_ids_spec. exists tx.
    split; [|done]. apply list_elem_of_bind. exists g. set_solver. }
  assert (chain_transaction_ids env policy (now t) st = Ok (chain_tx_ids (g :: rest))) as Hids.
  { unfold chain_transaction_ids. by rewrite Hl. }
  destruct rest as [|b rest].
  - unfold _is_stale_genesis_only_chain. rewrite String.eqb_refl, orb_true_r.
    destruct (is_own_genesis g g); [done|]. cbn [negb]. cbv iota.
    by rewrite (read_bind_ok _ _ _ _ Hids), Hmiss.
  - rewrite String.eqb_refl. cbn [negb]. cbv iota. by rewrite (read_bind_ok _ _ _ _ Hids), Hmiss.
Qed.

(** On an empty store the genesis block is installed. *)
Lemma ensure_genesis_fresh t st g errors :
  chain_file st = None →
  make_genesis_block env (_money_policy_for_wallet_policy env policy None) = Ok g →
  validate_chain_blocks env policy [g] = Ok errors →
  ∃ st', ensure_chain_genesis env policy t None st
         = (st', Ok (Z.of_nat (length (transactions g)))) ∧ saved env policy t [g] st'.
Proof.
  intros Hf Hg Hv. unfold ensure_chain_genesis. rewrite Hg, lift_bind_ok.
  assert (list_chain_blocks env policy (now t) st = Ok []) as Hl.
  { unfold list_chain_blocks. by rewrite Hf. }
  rewrite (read_bind_ok _ _ _ _ Hl), M_bind_eq.
  destruct (save_chain_blocks_ok env policy t [g] st errors Hv) as (st' & -> & Hs). eauto.
Qed.

(** ** Signatures *)

Lemma filled_some o : filled o = true → ∃ s, o = Some s.
Proof. destruct o; [eauto|done]. Qed.

Lemma verify_signature_cases tx msg :
  signature_required tx = true →
  verify_chain_transaction_signature env policy tx = Ok (true, msg) →
  ∃ pk sg, public_key_b64 tx = Some pk ∧ signature_b64 tx = Some sg
    ∧ let scheme := str_or_strip (dget "address_scheme" (metadata tx)) in
      let pq_pk := str_or_strip (dget "pq_public_key_b64" (metadata tx)) in
      let pq_sg := str_or_strip (dget "pq_signature_b64" (metadata tx)) in
      let payload := VDict (transaction_signing_payload env tx) in
      verify_payload_signature pk sg payload = true
      ∧ ((scheme = ADDRESS_SCHEME_ED25519
          ∧ require_post_quantum_wallet_signatures (default (default_wallet_policy env) policy) = false
          ∧ address_from_public_key_b64 pk = Ok (normalize_address (address tx)))
         ∨ (verify_payload_mldsa65_signature pq_pk pq_sg payload = true
            ∧ ((scheme ∈ HYBRID_ADDRESS_SCHEMES
                ∧ hybrid_address_from_public_keys_b64 pk pq_pk scheme
                  = Ok (normalize_address (address tx)))
               ∨ scheme = ADDRESS_SCHEME_FIXED_WALLET_ID_SHA256))).
Proof.
  intros Hreq. unfold verify_chain_transaction_signature. rewrite Hreq. cbn [negb].
  destruct (filled (public_key_b64 tx)) eqn:Epk; [|done]. destruct (filled (signature_b64 tx)) eqn:Esg; [|done].
  apply filled_some in Epk as [pk ->]. apply filled_some in Esg as [sg ->]. cbn [negb default from_option id].
  cbn zeta. intros Hok. exists pk, sg. split; [done|]. split; [done|]. revert Hok.
  case_match; [done|]. case_match eqn:Eed.
  - case_match eqn:Epq; [done|]. rewrite bind_ok. intros (a & Ha & Hr). do 2 (case_match; [done|]).
    bool_to_prop. apply String.eqb_eq in Eed. rewrite String.eqb_eq in *. subst a. auto.
  - case_bool_decide as Ehy.
    + case_match; [done|]. case_match; [done|]. rewrite bind_ok. intros (a & Ha & Hr).
      do 2 (case_match; [done|]). bool_to_prop. rewrite String.eqb_eq in *. subst a.
      unfold verify_hybrid_payload_signature in *. bool_to_prop. auto 10.
    + case_match eqn:Efix; [|done]. do 4 (case_match; [done|]). intros _. bool_to_prop.
      apply String.eqb_eq in Efix. unfold verify_hybrid_payload_signature in *. bool_to_prop. auto 10.
Qed.
End facts.

(** * Developer-fund rounds *)


Definition amounts (rs : list FundRecipient) : Z := sumZ (map fr_amount_atomic rs).

Lemma prepare_recipient_ok p s tot ir p' s' tot' :
  prepare_recipient (p, s, tot) ir = Ok (p', s', tot') →
  ∃ r, (p' = p ++ [r]) ∧ tot' = tot + fr_amount_atomic r ∧ 0 < fr_amount_atomic r
       ∧ (fr_address r ∉ s) ∧ s' = {[ fr_address r ]} ∪ s.
Proof.
  destruct ir as [index recipient]. unfold prepare_recipient. rewrite bind_ok.
  intros (amount & _ & Hr). do 4 (case_match; [done|]). bool_to_prop. injection Hr as <- <- <-.
  eexists. split_and!; [done|done|cbn; lia|done|done].
Qed.

(** The prepared recipients have positive amounts and distinct addresses; the total is
    their sum. *)
Lemma prepare_recipients_ok l : ∀ p s tot p' s' tot',
  foldM prepare_recipient (p, s, tot) l = Ok (p', s', tot') →
  ∃ new, (p' = p ++ new) ∧ tot' = tot + amounts new
    ∧ Forall (λ r, 0 < fr_amount_atomic r) new
    ∧ NoDup (map fr_address new) ∧ (∀ a, a ∈ map fr_address new → a ∉ s).
Proof.
  induction l as [|ir l IH]; intros p s tot p' s' tot'; cbn [foldM].
  - intros [= <- <- <-]. exists []. split_and!; [by rewrite app_nil_r|cbn; lia|constructor|constructor|].
    intros a Ha. by apply elem_of_nil in Ha.
  - destruct (prepare_recipient _ ir) as [[[p1 s1] t1]|] eqn:E; [|done].
    apply prepare_recipient_ok in E as (r & -> & -> & Hpos & Hnew & ->). intros Hf.
    apply IH in Hf as (new & -> & -> & Hall & Hnd & Hs). exists (r :: new).
    split_and!; [by rewrite <- app_assoc|unfold amounts; cbn; lia|by constructor| |].
    + cbn. apply NoDup_cons. split; [|done]. intros Hin. apply Hs in Hin. set_solver.
    + intros a. cbn. rewrite elem_of_cons. intros [->|Ha]; [done|]. apply Hs in Ha. set_solver.
Qed.

(** Dropping credits loses money. *)
Lemma filter_positive_sum (P : ChainTransaction → Prop) `{∀ x, Decision (P x)} cs :
  Forall (λ tx, 0 < delta_atomic tx) cs →
  0 ≤ deltas (filter P cs) ≤ deltas cs
  ∧ (deltas (filter P cs) = deltas cs → filter P cs = cs)
  ∧ (deltas (filter P cs) = 0 → filter P cs = []).
Proof.
  induction 1 as [|tx cs Htx Hall IH]; [done|]. rewrite filter_cons, deltas_cons.
  destruct IH as (IH1 & IH2 & IH3). case_decide; rewrite ?deltas_cons.
  - split_and!; [lia|lia| |lia]. intros He. f_equal. apply IH2. lia.
  - split_and!; [lia|lia|lia|done].
Qed.

Lemma balanced_subset_is_all (P : ChainTransaction → Prop) `{∀ x, Decision (P x)} d cs :
  Forall (λ tx, 0 < delta_atomic tx) cs → delta_atomic d = - deltas cs →
  deltas (filter P (d :: cs)) = 0 → filter P (d :: cs) ≠ [] → filter P (d :: cs) = d :: cs.
Proof.
  intros Hpos Hd. destruct (filter_positive_sum P cs Hpos) as (Hb & Hall & Hnone).
  rewrite filter_cons. case_decide; [|by intros Hz Hne; apply Hnone in Hz].
  rewrite deltas_cons. intros Hz _. f_equal. apply Hall. lia.
Qed.

Section fund.
Context `{SignatureBackend} (env : Environ) (policy : option WalletPolicy).

Lemma make_tx_chain_id now ty a d s p w cp nt n pk sg md i ca c v :
  c ≠ "" → tx_chain_id (make_chain_transaction env now ty a d s p w cp nt n pk sg md i ca (Some c) v) = c.
Proof. intros Hc. cbn. by rewrite (proj2 (String.eqb_neq _ _) Hc). Qed.

Lemma network_value_nonempty n : network_value n ≠ "".
Proof. by destruct n. Qed.

Lemma fill_chain_id_filled tx : tx_chain_id tx ≠ "" → fill_chain_id env policy tx = tx.
Proof. intros Hc. unfold fill_chain_id. by rewrite (proj2 (String.eqb_neq _ _) Hc). Qed.

Lemma fill_chain_ids_filled txs :
  Forall (λ tx, tx_chain_id tx ≠ "") txs → map (fill_chain_id env policy) txs = txs.
Proof.
  induction 1 as [|tx txs Htx Hall IH]; cbn; [done|]. by rewrite fill_chain_id_filled, IH.
Qed.

Lemma fund_address_normalized money :
  normalize_address (developer_contribution_fund_chain_address money)
  = developer_contribution_fund_chain_address money.
Proof.
  unfold developer_contribution_fund_chain_address, system_address.
  by destruct (chain_network money).
Qed.

Local Abbreviation mp := (_money_policy_for_wallet_policy env policy None).

(** The metadata every transaction of a round carries. *)
Definition round_metadata (round_id round_hash participants_hash : string)
    (source_commit : option string) : list (string * pyval) :=
  [("round_id", VStr round_id); ("round_hash", VStr round_hash);
   ("participants_hash", VStr participants_hash);
   ("network", VStr (network_value (chain_network mp)));
   ("reward_token_code", VStr (reward_token_code mp))]
  ++ (if filled source_commit then [("source_commit", val_opt source_commit)] else []).

Definition round_txs (t : Tick) (round_id : string) (base : list (string * pyval))
    (rs : list FundRecipient) : list ChainTransaction :=
  fund_debit_tx env t mp round_id base (length rs) (amounts rs)
  :: map (fund_credit_tx env t mp round_id base) rs.

Lemma round_credits t rid base rs :
  deltas (map (fund_credit_tx env t mp rid base) rs) = amounts rs.
Proof. unfold deltas, amounts. by rewrite map_map. Qed.

Lemma round_txs_chain_ids t rid base rs :
  Forall (λ tx, tx_chain_id tx ≠ "") (round_txs t rid base rs).
Proof.
  assert (∀ n, network_value n ≠ "") as Hn by (by intros []).
  apply Forall_cons. split; [|apply Forall_forall; intros tx Htx;
    apply list_elem_of_fmap in Htx as (r & -> & _)];
    unfold fund_debit_tx, fund_credit_tx; rewrite make_tx_chain_id; apply Hn.
Qed.

(** A block appended for a round holds the debit and every credit. *)
Lemma append_round t vid st st' b rs rid base blocks :
  list_chain_blocks env policy (now t) st = Ok blocks → valid_chain env policy blocks →
  Forall (λ r, 0 < fr_amount_atomic r) rs →
  append_chain_block env policy t (round_txs t rid base rs) vid st = (st', Ok (Some b)) →
  transactions b = round_txs t rid base rs ∧ valid_chain env policy (blocks ++ [b]).
Proof.
  intros Hl Hv Hpos Ha. apply append_inv in Ha as (blocks' & Hl' & Hne & Hb & Hv' & _).
  rewrite Hl in Hl'. apply (inj Ok) in Hl' as <-. split; [|done].
  assert (new_txs blocks (round_txs t rid base rs) = round_txs t rid base rs) as Hall.
  { apply balanced_subset_is_all; [..|exact Hne].
    - apply Forall_map. exact Hpos.
    - rewrite round_credits. done.
    - pose proof (valid_extension_zero_sum env policy blocks b Hv' Hv) as Hz. revert Hz.
      rewrite Hb. unfold deltas. cbn [transactions next_block seal_block with_block_hash with_state_root].
      rewrite map_map. erewrite map_ext; [|intros tx; apply fill_chain_id_keeps]. done. }
  rewrite Hb, Hall. cbn [transactions next_block seal_block with_block_hash with_state_root].
  apply fill_chain_ids_filled, round_txs_chain_ids.
Qed.

Lemma ensure_genesis_some t :
  ensure_chain_genesis env policy t (Some mp) = ensure_chain_genesis env policy t None.
Proof. done. Qed.

(** A recorded round: what was checked and what the block holds. *)
Lemma record_fund_spec t t0 rid recipients rh ph commit vid g rest st st' b :
  make_genesis_block env mp = Ok g →
  saved env policy t0 (g :: rest) st → Forall stable_block (g :: rest) →
  valid_chain env policy (g :: rest) → readable_chain (g :: rest) →
  record_developer_fund_distribution env policy t rid recipients rh ph commit vid None st
  = (st', Ok b) →
  ∃ rs s, foldM prepare_recipient ([], ∅, 0) (enumerate recipients) = Ok (rs, s, amounts rs)
    ∧ Forall (λ r, 0 < fr_amount_atomic r) rs
    ∧ amounts rs ≤ balance_of (chain_balance_index (g :: rest))
                     (developer_contribution_fund_chain_address mp)
    ∧ transactions b = round_txs t (strip rid) (round_metadata (strip rid) rh ph commit) rs
    ∧ valid_chain env policy ((g :: rest) ++ [b]).
Proof.
  intros Hg Hsaved Hstable Hv Hread. set (blocks := g :: rest) in *.
  assert (∀ now, list_chain_blocks env policy now st = Ok blocks) as Hl.
  { intros now. eapply saved_reload; [done..|apply Hv]. }
  unfold record_developer_fund_distribution. do 3 (case_match; [done|]).
  rewrite ensure_genesis_some, M_bind_eq, (ensure_genesis_noop _ _ _ _ _ _ Hg (Hl _)).
  destruct (developer_fund_distribution_round_ids env policy (now t) st) as [ids|e] eqn:Hids;
    [|rewrite M_bind_eq; unfold read; by rewrite Hids].
  rewrite (read_bind_ok _ _ _ _ Hids). case_bool_decide; [done|].
  rewrite M_bind_eq. unfold lift at 1.
  destruct (foldM prepare_recipient ([], ∅, 0) (enumerate recipients)) as [[[rs s] total]|e] eqn:Hp; [|done].
  destruct (prepare_recipients_ok _ _ _ _ _ _ _ Hp) as (new & Hrs & Htot & Hpos & _).
  rewrite app_nil_l in Hrs. subst new. rewrite Z.add_0_l in Htot. subst total.
  destruct rs as [|r0 rs0]; [done|]. set (rs := r0 :: rs0) in *.
  unfold chain_balance_atomic. rewrite !M_bind_eq.
  destruct (stored_balances_saved env policy t0 t blocks st Hsaved Hstable Hv ltac:(done) Hread)
    as (st1 & -> & Hf1). cbn [mret M_ret].
  rewrite fund_address_normalized.
  case_match; [done|]. bool_to_prop. rewrite M_bind_eq.
  fold (round_metadata (strip rid) rh ph commit).
  fold (round_txs t (strip rid) (round_metadata (strip rid) rh ph commit) rs).
  destruct (append_chain_block env policy t _ vid st1) as [st2 [[b'|]|e]] eqn:Ha; [|done..].
  intros [= <- <-].
  apply (append_round t vid st1 st2 b' rs _ _ blocks) in Ha as [Htx Hv']; [|..|done].
  - eauto 10.
  - rewrite <- (Hl (now t)). by apply list_chain_blocks_file.
  - done.
Qed.
End fund.
