(* ===== verification/Apportion.v ===== *)
(** * Proportional splits

    [validators.split_amount_by_validator_bond] (validator fees by bond) and
    [job_reward_distribution.distribute_worker_reward] (worker rewards by layers): both give
    every party the floor of its proportional share and hand the remaining units to the
    largest remainders. *)
From Stdlib Require Import Ascii.
From S2P Require Import Prelude.
From S2P Require Import PyStr.
From S2P Require Import PyVal.
From S2P Require Import Money.
From S2P Require Import Ledger.
Local Open Scope Z_scope.
Set Default Proof Using "Type".

(** ** validators.py: split_amount_by_validator_bond *)

Definition _normalize_validator_id (value : string) : string :=
  let normalized := lower (strip value) in
  if startswith "cai_" normalized then drop_str 4 normalized else normalized.

Record ValidatorFeeShare := {
  fs_validator_id : string;
  fs_bonded_atomic : Z;
  fs_amount_atomic : Z
}.

(** The bonds by normalised validator id: entries that are blank or not positive are
    skipped, ids that normalise to the same one are added up. *)
Fixpoint alookup (k : string) (d : list (string * Z)) : option Z :=
  match d with
  | [] => None
  | (k', v) :: d' => if String.eqb k k' then Some v else alookup k d'
  end.

Definition add_bond (raw_bonds : list (string * Z)) (m : gmap string Z) (raw_id : string)
  : gmap string Z :=
  let validator_id := _normalize_validator_id raw_id in
  if String.eqb validator_id "" then m
  else
    let bonded_atomic :=
      Z.max 0 (match alookup raw_id raw_bonds with
               | Some b => b
               | None => default 0 (alookup validator_id raw_bonds)
               end) in
    if bonded_atomic <=? 0 then m
    else <[validator_id := balance_of m validator_id + bonded_atomic]> m.

Definition bond_table (raw_bonds : list (string * Z)) (validator_ids : option (list string))
  : gmap string Z :=
  let candidate_ids :=
    match validator_ids with
    | Some (i :: ids) => i :: ids
    | _ => map fst raw_bonds
    end in
  foldl (add_bond raw_bonds) ∅ candidate_ids.

(** A row of the table of shares, with its remainder. *)
Record share_row := {
  sr_validator_id : string;
  sr_bonded_atomic : Z;
  sr_amount_atomic : Z;
  sr_remainder : Z
}.

Definition first_share (amount_atomic total_bonded_atomic : Z) (kv : string * Z) : share_row :=
  {| sr_validator_id := kv.1; sr_bonded_atomic := kv.2;
     sr_amount_atomic := amount_atomic * kv.2 / total_bonded_atomic;
     sr_remainder := amount_atomic * kv.2 mod total_bonded_atomic |}.

Definition bump_share (s : share_row) : share_row :=
  {| sr_validator_id := sr_validator_id s; sr_bonded_atomic := sr_bonded_atomic s;
     sr_amount_atomic := sr_amount_atomic s + 1; sr_remainder := sr_remainder s |}.

(** The order of the units that are left: larger remainder first, then validator id. *)
Definition remainder_leb (x y : Z * string) : bool :=
  (y.1 <? x.1) || ((x.1 =? y.1) && str_leb x.2 y.2).

Definition share_key (shares : list share_row) (i : nat) : Z * string :=
  match shares !! i with Some s => (sr_remainder s, sr_validator_id s) | None => (0, "") end.

Definition index_leb (shares : list share_row) (i j : nat) : bool :=
  remainder_leb (share_key shares i) (share_key shares j).

Definition split_amount_by_validator_bond (amount_atomic : Z)
    (bonded_atomic_by_validator_id : list (string * Z)) (validator_ids : option (list string))
  : list ValidatorFeeShare :=
  let amount_atomic := Z.max 0 amount_atomic in
  if amount_atomic <=? 0 then []
  else
    let raw_bonds := bonded_atomic_by_validator_id in
    let bonded_by_validator := bond_table raw_bonds validator_ids in
    let total_bonded_atomic := map_sum bonded_by_validator in
    if total_bonded_atomic <=? 0 then []
    else
      let shares :=
        map (first_share amount_atomic total_bonded_atomic) (sorted_items bonded_by_validator) in
      let allocated_atomic := sumZ (map sr_amount_atomic shares) in
      let remainder_atomic := amount_atomic - allocated_atomic in
      let winners :=
        take (Z.to_nat remainder_atomic)
          (py_sorted (index_leb shares) (seq 0 (length shares))) in
      let shares := foldl (λ l i, alter bump_share i l) shares winners in
      map (λ s, {| fs_validator_id := sr_validator_id s; fs_bonded_atomic := sr_bonded_atomic s;
                   fs_amount_atomic := sr_amount_atomic s |})
          (filter (λ s, 0 < sr_amount_atomic s) shares).

(** ** job_reward_distribution.py: distribute_worker_reward *)

(** A participant of the job: [layer_count] is [None] when the key is missing. *)
Record Participant := {
  pa_node_id : string;
  pa_runner_id : pyval;
  pa_layer_start : option Z;
  pa_layer_end : option Z;
  pa_layer_count : option Z
}.

Record RewardShare := {
  rw_node_id : string;
  rw_runner_id : pyval;
  rw_layer_start : option Z;
  rw_layer_end : option Z;
  rw_layer_count : Z;
  rw_share_bps : Z;
  rw_reward_atomic : Z
}.

Definition layer_weight (p : Participant) : Z := Z.max (default 1 (pa_layer_count p)) 1.

Definition raw_part (total_reward total_weight : Z) (p : Participant) : Z * Z * Participant :=
  let raw_value := total_reward * layer_weight p in
  (raw_value / total_weight, raw_value mod total_weight, p).

Definition part_leb (x y : Z * Z * Participant) : bool :=
  remainder_leb (x.1.2, pa_node_id x.2) (y.1.2, pa_node_id y.2).

Definition bump_part (x : Z * Z * Participant) : Z * Z * Participant :=
  (x.1.1 + 1, x.1.2, x.2).

(** [for index in range(remainder): raw_parts[index % len(raw_parts)] = ...] *)
Definition bump_parts (remainder : nat) (parts : list (Z * Z * Participant)) :=
  foldl (λ l i, alter bump_part (i mod length l)%nat l) parts (seq 0 remainder).

(** The order of the result: by first layer, entries without one last, then node id. *)
Definition reward_leb (x y : RewardShare) : bool :=
  let key (r : RewardShare) :=
    match rw_layer_start r with Some z => (false, z) | None => (true, 10 ^ 9) end in
  let '(nx, zx) := key x in
  let '(ny, zy) := key y in
  if Bool.eqb nx ny
  then (zx <? zy) || ((zx =? zy) && str_leb (rw_node_id x) (rw_node_id y))
  else negb nx.

Definition distribute_worker_reward (total_reward_atomic : Z) (participants : list Participant)
  : list RewardShare :=
  if (total_reward_atomic <=? 0) || bool_decide (participants = []) then []
  else
    let total_weight0 := sumZ (map layer_weight participants) in
    let total_weight :=
      if total_weight0 <=? 0 then Z.of_nat (length participants) else total_weight0 in
    let raw_parts := map (raw_part total_reward_atomic total_weight) participants in
    let allocated := sumZ (map (λ x, x.1.1) raw_parts) in
    let remainder := total_reward_atomic - allocated in
    let raw_parts := bump_parts (Z.to_nat remainder) (py_sorted part_leb raw_parts) in
    py_sorted reward_leb
      (map (λ x, {| rw_node_id := pa_node_id x.2; rw_runner_id := pa_runner_id x.2;
                    rw_layer_start := pa_layer_start x.2; rw_layer_end := pa_layer_end x.2;
                    rw_layer_count := layer_weight x.2;
                    rw_share_bps := layer_weight x.2 * 10000 / total_weight;
                    rw_reward_atomic := x.1.1 |}) raw_parts).

(** ** The arithmetic of largest remainders *)

(** What the floors leave over: at least nothing, less than one unit per party. *)
Lemma floors_leave (A : Z) (ws : list Z) :
  0 ≤ A → Forall (λ w, 0 ≤ w) ws → 0 < sumZ ws →
  0 ≤ A - sumZ (map (λ w, A * w / sumZ ws) ws) < Z.of_nat (length ws).
Proof.
  intros HA Hws HW. set (W := sumZ ws).
  assert (sumZ (map (λ w, A * w mod W) ws) = W * (A - sumZ (map (λ w, A * w / W) ws))) as Hsum.
  { assert (∀ l, sumZ (map (λ w, A * w mod W) l) = A * sumZ l - W * sumZ (map (λ w, A * w / W) l)) as Hl.
    { induction l as [|w l IH]; cbn [map sumZ]; [lia|]. rewrite IH.
      pose proof (Z.div_mod (A * w) W ltac:(lia)). lia. }
    rewrite Hl. fold W. lia. }
  assert (0 ≤ sumZ (map (λ w, A * w mod W) ws) ≤ Z.of_nat (length ws) * (W - 1)) as Hb.
  { clear -HW. fold W in HW. clearbody W. induction ws as [|w ws IH]; cbn [map sumZ length]; [lia|].
    pose proof (Z.mod_pos_bound (A * w) W ltac:(lia)). lia. }
  assert (ws ≠ []) by (intros ->; cbn in HW; lia).
  assert (0 < Z.of_nat (length ws)) by (destruct ws; [done|cbn; lia]). nia.
Qed.

(** Adding one unit at each of a list of distinct positions. *)
Section bump.
Context {A : Type} (amount : A → Z) (bump : A → A).
Context (Hbump : ∀ x, amount (bump x) = amount x + 1).

Lemma alter_sum (i : nat) (l : list A) :
  (i < length l)%nat → sumZ (map amount (alter bump i l)) = sumZ (map amount l) + 1.
Proof using Hbump.
  revert i. induction l as [|x l IH]; intros [|i] Hi; cbn in *; [lia..|rewrite Hbump; lia|].
  rewrite (IH i) by lia. lia.
Qed.

Lemma bumps_sum (ks : list nat) (l : list A) :
  Forall (λ i, (i < length l)%nat) ks →
  sumZ (map amount (foldl (λ l i, alter bump i l) l ks))
  = sumZ (map amount l) + Z.of_nat (length ks).
Proof using Hbump.
  revert l. induction ks as [|i ks IH]; intros l; cbn [foldl length]; [lia|].
  rewrite Forall_cons. intros [Hi His]. rewrite IH, alter_sum by (rewrite ?length_alter; done). lia.
Qed.

Lemma bumps_lookup (ks : list nat) (l : list A) (j : nat) :
  NoDup ks →
  foldl (λ l i, alter bump i l) l ks !! j
  = if decide (j ∈ ks) then bump <$> l !! j else l !! j.
Proof.
  revert l. induction ks as [|i ks IH]; intros l; cbn [foldl].
  - intros _. rewrite decide_False by (apply not_elem_of_nil). done.
  - rewrite NoDup_cons. intros [Hi Hnd]. rewrite IH by done. destruct (decide (i = j)) as [->|Hij].
    + rewrite decide_False by done. rewrite decide_True by (apply elem_of_cons; by left).
      apply list_lookup_alter_eq.
    + rewrite list_lookup_alter_ne by done.
      destruct (decide (j ∈ ks)) as [Hj|Hj]; [rewrite decide_True by (apply elem_of_cons; by right)|
        rewrite decide_False by (rewrite elem_of_cons; intros [He|He]; [by destruct Hij|done])]; done.
Qed.
End bump.

Lemma bumps_length {A} (bump : A → A) (ks : list nat) (l : list A) :
  length (foldl (λ l i, alter bump i l) l ks) = length l.
Proof. revert l. induction ks as [|k ks IH]; intros l; cbn; [done|]. by rewrite IH, length_alter. Qed.

(** Dropping zeros from non-negative amounts keeps the sum. *)
Lemma sum_filter_pos {A} (f : A → Z) (l : list A) :
  Forall (λ x, 0 ≤ f x) l → sumZ (map f (filter (λ x, 0 < f x) l)) = sumZ (map f l).
Proof.
  induction 1 as [|x l Hx Hl IH]; [done|]. rewrite filter_cons. case_decide; cbn [map sumZ]; lia.
Qed.

(** ** Validator fee shares *)

Lemma bond_table_positive raw ids : map_Forall (λ _ b, 0 < b) (bond_table raw ids).
Proof.
  unfold bond_table. generalize (match ids with Some (i :: l) => i :: l | _ => map fst raw end).
  intros l. assert (∀ m, map_Forall (λ _ b, 0 < b) m → map_Forall (λ _ b, 0 < b) (foldl (add_bond raw) m l))
    as Hgen; [|apply Hgen, map_Forall_empty].
  induction l as [|i l IH]; intros m Hm; cbn [foldl]; [done|]. apply IH. unfold add_bond.
  case_match; [done|]. set (b := Z.max 0 _). case_match eqn:Hb; [done|]. bool_to_prop.
  apply map_Forall_insert_2; [|done]. unfold balance_of.
  destruct (m !! _normalize_validator_id i) as [v|] eqn:E; cbn; [specialize (Hm _ _ E); cbn in Hm|]; lia.
Qed.

Section split.
Context (amount : Z) (m : gmap string Z).
Context (Hamount : 0 < amount) (Hpos : map_Forall (λ _ b, 0 < b) m) (Htotal : 0 < map_sum m).

Definition share_rows : list share_row := map (first_share amount (map_sum m)) (sorted_items m).
Definition share_winners : list nat :=
  take (Z.to_nat (amount - sumZ (map sr_amount_atomic share_rows)))
    (py_sorted (index_leb share_rows) (seq 0 (length share_rows))).
Definition final_rows : list share_row :=
  foldl (λ l i, alter bump_share i l) share_rows share_winners.

Lemma sorted_items_snd_sum : sumZ (map snd (sorted_items m)) = map_sum m.
Proof.
  rewrite map_sum_to_list. unfold sorted_items. apply sumZ_perm, Permutation_map, py_sorted_perm.
Qed.

Lemma share_rows_leave :
  0 ≤ amount - sumZ (map sr_amount_atomic share_rows) < Z.of_nat (length share_rows).
Proof using Hamount Hpos Htotal.
  pose proof (floors_leave amount (map snd (sorted_items m))) as Hf.
  rewrite sorted_items_snd_sum, !map_map, length_map in Hf. unfold share_rows.
  rewrite map_map, length_map. apply Hf; [lia| |done].
  apply Forall_forall. intros x Hx. apply list_elem_of_fmap in Hx as ([k v] & -> & Hkv).
  unfold sorted_items in Hkv. rewrite elem_of_py_sorted, elem_of_map_to_list in Hkv.
  specialize (Hpos _ _ Hkv). cbn in *. lia.
Qed.

Lemma share_winners_ok :
  NoDup share_winners ∧ Forall (λ i, (i < length share_rows)%nat) share_winners
  ∧ Z.of_nat (length share_winners) = amount - sumZ (map sr_amount_atomic share_rows).
Proof using Hamount Hpos Htotal.
  pose proof share_rows_leave as Hl. unfold share_winners.
  set (perm := py_sorted (index_leb share_rows) (seq 0 (length share_rows))).
  assert (perm ≡ₚ seq 0 (length share_rows)) as Hperm by apply py_sorted_perm.
  assert (length perm = length share_rows) as Hlen by (rewrite Hperm; apply length_seq).
  split_and!.
  - apply (sublist_NoDup _ perm); [rewrite Hperm; apply NoDup_seq|apply sublist_take].
  - apply Forall_take. rewrite Hperm. apply Forall_forall. intros i Hi.
    apply elem_of_seq in Hi. lia.
  - rewrite length_take. lia.
Qed.

Lemma final_rows_sum : sumZ (map sr_amount_atomic final_rows) = amount.
Proof using Hamount Hpos Htotal.
  destruct share_winners_ok as (_ & Hlt & Hlen). unfold final_rows.
  rewrite (bumps_sum sr_amount_atomic bump_share) by done. lia.
Qed.

(** Every row keeps its validator and bond; its amount is the floor of the proportional
    share, or one more. *)
Lemma final_rows_quota s :
  s ∈ final_rows →
  m !! sr_validator_id s = Some (sr_bonded_atomic s)
  ∧ let q := amount * sr_bonded_atomic s / map_sum m in
    0 ≤ q ≤ sr_amount_atomic s ∧ sr_amount_atomic s ≤ q + 1.
Proof using Hamount Hpos Htotal.
  intros Hs. apply list_elem_of_lookup in Hs as [j Hj]. unfold final_rows in Hj.
  destruct share_winners_ok as (Hnd & _). rewrite bumps_lookup in Hj by done.
  assert (∃ s0, share_rows !! j = Some s0 ∧ (s = s0 ∨ s = bump_share s0)) as (s0 & H0 & Hs0).
  { destruct (decide (j ∈ share_winners)); [|eauto]. apply fmap_Some in Hj as (s0 & ? & ->). eauto. }
  unfold share_rows in H0. rewrite list_lookup_fmap in H0.
  apply fmap_Some in H0 as ([k v] & Hkv & ->).
  apply list_elem_of_lookup_2 in Hkv. unfold sorted_items in Hkv.
  rewrite elem_of_py_sorted, elem_of_map_to_list in Hkv. specialize (Hpos _ _ Hkv) as Hv. cbn in Hv.
  assert (0 ≤ amount * v / map_sum m) by (apply Z.div_pos; nia).
  destruct Hs0 as [-> | ->]; cbn; (split; [done|lia]).
Qed.

Lemma final_rows_ids : NoDup (map sr_validator_id final_rows).
Proof using Hamount Hpos Htotal.
  assert (map sr_validator_id final_rows = (sorted_items m).*1) as ->.
  { unfold final_rows. transitivity (map sr_validator_id share_rows).
    - generalize share_winners. intros ks. generalize share_rows.
      induction ks as [|k ks IH]; intros l; cbn [foldl]; [done|]. rewrite IH. clear IH.
      revert k. induction l as [|x l IH]; intros [|k]; cbn; [done..|]. by rewrite IH.
    - unfold share_rows. rewrite map_map. done. }
  unfold sorted_items. rewrite py_sorted_perm. apply NoDup_fst_map_to_list.
Qed.
End split.

Lemma split_by_bond_spec (amount : Z) (bonds : list (string * Z)) (ids : option (list string))
    (Hamount : 0 < amount) (Htotal : 0 < map_sum (bond_table bonds ids)) :
  let shares := split_amount_by_validator_bond amount bonds ids in
  let m := bond_table bonds ids in
  sumZ (map fs_amount_atomic shares) = amount
  ∧ NoDup (map fs_validator_id shares)
  ∧ Forall (λ s, m !! fs_validator_id s = Some (fs_bonded_atomic s)
             ∧ 0 < fs_amount_atomic s
             ∧ amount * fs_bonded_atomic s / map_sum m ≤ fs_amount_atomic s
               ≤ amount * fs_bonded_atomic s / map_sum m + 1) shares.
Proof.
  cbn zeta. unfold split_amount_by_validator_bond. rewrite Z.max_r by lia.
  rewrite (proj2 (Z.leb_gt _ _) Hamount), (proj2 (Z.leb_gt _ _) Htotal).
  set (m := bond_table bonds ids) in *. pose proof (bond_table_positive bonds ids) as Hpos. fold m in Hpos.
  fold (share_rows amount m). fold (share_winners amount m). fold (final_rows amount m).
  pose proof (final_rows_quota amount m Hamount Hpos Htotal) as Hq. rewrite !map_map.
  change (λ x : share_row, fs_amount_atomic _) with sr_amount_atomic.
  change (λ x : share_row, fs_validator_id _) with sr_validator_id.
  assert (Forall (λ s, 0 ≤ sr_amount_atomic s) (final_rows amount m)) as Hnn.
  { apply Forall_forall. intros s Hs. apply Hq in Hs as [_ Hs]. cbn zeta in Hs. lia. }
  split_and!.
  - rewrite sum_filter_pos by done. by apply final_rows_sum.
  - eapply sublist_NoDup; [by apply (final_rows_ids amount m)|].
    apply fmap_sublist, sublist_filter.
  - apply Forall_map, Forall_forall. intros s Hs. apply list_elem_of_filter in Hs as [Hs0 Hs].
    apply Hq in Hs as [Hm Hs]. cbn zeta in Hs. cbn. repeat split; [done|lia..].
Qed.

(** C7: a validator fee is split exactly: the shares sum to the amount, name distinct
    validators of the bond table, are positive, and each is the floor of
    [amount * bond / total] or one unit more. *)
Theorem split_by_bond_exact (amount : Z) (bonds : list (string * Z)) (ids : option (list string))
    (Hamount : 0 < amount) (Htotal : 0 < map_sum (bond_table bonds ids)) :
  let shares := split_amount_by_validator_bond amount bonds ids in
  let m := bond_table bonds ids in
  sumZ (map fs_amount_atomic shares) = amount
  ∧ NoDup (map fs_validator_id shares)
  ∧ Forall (λ s, m !! fs_validator_id s = Some (fs_bonded_atomic s)
             ∧ 0 < fs_amount_atomic s
             ∧ amount * fs_bonded_atomic s / map_sum m ≤ fs_amount_atomic s
               ≤ amount * fs_bonded_atomic s / map_sum m + 1) shares.
Proof. by apply split_by_bond_spec. Qed.

Lemma split_by_bond_exact_witness :
  let bonds := [("cai_Alice", 3); ("bob", 3); ("carol", 1); ("dave", 0)] in
  let shares := split_amount_by_validator_bond 100 bonds None in
  sumZ (map fs_amount_atomic shares) = 100
  ∧ map (λ s, (fs_validator_id s, fs_amount_atomic s)) shares
    = [("alice", 43); ("bob", 43); ("carol", 14)].
Proof.
  split; [apply (split_by_bond_exact 100 _ None); [lia|vm_compute; reflexivity]|vm_compute; reflexivity].
Defined.

(** ** Worker rewards *)

Section rewards.
Context (total : Z) (ps : list Participant) (Htotal : 0 < total) (Hps : ps ≠ []).

Definition weights : Z := sumZ (map layer_weight ps).

Lemma weights_pos : 0 < weights.
Proof using Hps.
  unfold weights. destruct ps as [|p l]; [done|]. cbn [map sumZ].
  assert (0 ≤ sumZ (map layer_weight l)).
  { apply sumZ_nonneg, Forall_map, Forall_forall. intros x _. unfold layer_weight. cbn. lia. }
  unfold layer_weight at 1. lia.
Qed.

Definition parts : list (Z * Z * Participant) :=
  py_sorted part_leb (map (raw_part total weights) ps).

Definition leftover : Z := total - sumZ (map (λ x, x.1.1) (map (raw_part total weights) ps)).

Lemma leftover_bounds : 0 ≤ leftover < Z.of_nat (length ps).
Proof using Htotal Hps.
  pose proof (floors_leave total (map layer_weight ps)) as Hf. fold weights in Hf.
  unfold leftover. rewrite map_map, length_map in Hf. rewrite map_map. apply Hf; [lia| |apply weights_pos].
  apply Forall_map, Forall_forall. intros x _. unfold layer_weight. cbn. lia.
Qed.

(** The units left over are handed out once each: the index never wraps around. *)
Lemma bump_parts_direct (k : nat) (l : list (Z * Z * Participant)) :
  (k ≤ length l)%nat → bump_parts k l = foldl (λ l i, alter bump_part i l) l (seq 0 k).
Proof.
  intros Hk. unfold bump_parts.
  assert (∀ ks l', length l' = length l → Forall (λ i, (i < length l)%nat) ks →
    foldl (λ l i, alter bump_part (i mod length l)%nat l) l' ks
    = foldl (λ l i, alter bump_part i l) l' ks) as Hgen.
  { induction ks as [|i ks IH]; intros l' Hl' Hks; cbn [foldl]; [done|].
    apply Forall_cons in Hks as [Hi Hks]. rewrite Hl', Nat.mod_small by done.
    apply IH; [by rewrite length_alter|done]. }
  apply Hgen; [done|]. apply Forall_forall. intros i Hi. apply elem_of_seq in Hi. lia.
Qed.

Definition paid : list (Z * Z * Participant) := bump_parts (Z.to_nat leftover) parts.

Lemma parts_length : length parts = length ps.
Proof. unfold parts. by rewrite py_sorted_length, length_map. Qed.

Lemma paid_direct : paid = foldl (λ l i, alter bump_part i l) parts (seq 0 (Z.to_nat leftover)).
Proof using Htotal Hps.
  apply bump_parts_direct. rewrite parts_length. pose proof leftover_bounds. lia.
Qed.

Lemma paid_sum : sumZ (map (λ x, x.1.1) paid) = total.
Proof using Htotal Hps.
  pose proof leftover_bounds as Hl. rewrite paid_direct.
  rewrite (bumps_sum (λ x : Z * Z * Participant, x.1.1) bump_part).
  - unfold parts. rewrite (Permutation_map _ (py_sorted_perm part_leb _)).
    rewrite length_seq. unfold leftover in *. lia.
  - done.
  - apply Forall_forall. intros i Hi. apply elem_of_seq in Hi. rewrite parts_length. lia.
Qed.

Lemma paid_participants : map snd paid ≡ₚ ps.
Proof using Htotal Hps.
  rewrite paid_direct. transitivity (map snd parts).
  - generalize (seq 0 (Z.to_nat leftover)). intros ks. generalize parts.
    induction ks as [|k ks IH]; intros l; cbn [foldl]; [done|]. rewrite IH. clear IH.
    assert (map snd (alter bump_part k l) = map snd l) as ->; [|done].
    revert k. induction l as [|x l IH]; intros [|k]; cbn; [done..|]. by rewrite IH.
  - unfold parts. rewrite (Permutation_map _ (py_sorted_perm part_leb _)), map_map. cbn.
    by rewrite map_id.
Qed.

Lemma paid_quota x :
  x ∈ paid →
  let q := total * layer_weight x.2 / weights in 0 ≤ q ≤ x.1.1 ∧ x.1.1 ≤ q + 1.
Proof using Htotal Hps.
  intros Hx. rewrite paid_direct in Hx. apply list_elem_of_lookup in Hx as [j Hj].
  rewrite bumps_lookup in Hj by apply NoDup_seq.
  assert (∃ x0, parts !! j = Some x0 ∧ (x = x0 ∨ x = bump_part x0)) as (x0 & H0 & Hx0).
  { destruct (decide _); [|eauto]. apply fmap_Some in Hj as (x0 & ? & ->). eauto. }
  apply list_elem_of_lookup_2 in H0. unfold parts in H0. rewrite elem_of_py_sorted in H0.
  apply list_elem_of_fmap in H0 as (p & -> & _). pose proof weights_pos.
  assert (0 ≤ total * layer_weight p / weights).
  { apply Z.div_pos; [|done]. unfold layer_weight. nia. }
  destruct Hx0 as [-> | ->]; cbn; lia.
Qed.
End rewards.

(** A worker reward is distributed exactly: the rewards sum to the total, every
    participant gets exactly one entry, and its reward is the floor of
    [total * layers / all layers] or one unit more. *)
Theorem distribute_worker_reward_exact (total : Z) (ps : list Participant)
    (Htotal : 0 < total) (Hps : ps ≠ []) :
  let rs := distribute_worker_reward total ps in
  sumZ (map rw_reward_atomic rs) = total
  ∧ map rw_node_id rs ≡ₚ map pa_node_id ps
  ∧ Forall (λ r, total * rw_layer_count r / weights ps ≤ rw_reward_atomic r
                 ≤ total * rw_layer_count r / weights ps + 1) rs.
Proof.
  cbn zeta. unfold distribute_worker_reward. rewrite (proj2 (Z.leb_gt _ _) Htotal).
  rewrite bool_decide_eq_false_2 by done. cbn [orb]. fold (weights ps).
  rewrite (proj2 (Z.leb_gt _ _) (weights_pos ps Hps)).
  fold (leftover total ps). fold (parts total ps). fold (paid total ps).
  split_and!.
  - rewrite (Permutation_map _ (py_sorted_perm reward_leb _)), map_map. by apply paid_sum.
  - rewrite (Permutation_map _ (py_sorted_perm reward_leb _)), map_map.
    rewrite <- (paid_participants total ps) at 2 by done. by rewrite map_map.
  - rewrite py_sorted_perm. apply Forall_map, Forall_forall. intros x Hx.
    apply (paid_quota total ps) in Hx; [|done..]. cbn zeta in Hx. cbn. lia.
Qed.

Lemma distribute_worker_reward_exact_witness :
  let p n l := {| pa_node_id := n; pa_runner_id := VNone; pa_layer_start := Some l;
                  pa_layer_end := None; pa_layer_count := Some 5 |} in
  let rs := distribute_worker_reward 100 [p "b" 10; p "a" 0; p "c" 5] in
  sumZ (map rw_reward_atomic rs) = 100
  ∧ map (λ r, (rw_node_id r, rw_reward_atomic r)) rs = [("a", 34); ("c", 33); ("b", 33)].
Proof.
  split; [|vm_compute; reflexivity].
  apply (distribute_worker_reward_exact 100); [lia|discriminate].
Defined.
