(* ===== verification/SettlementData.v ===== *)
(** * Ledgers, wallets, settlements and payouts as data

    The records of [wallet.py] and [settlement.py] the settlement layer reads and writes.
    The wallet's key material and the ledger's treasury identities are left out: nothing
    here reads them. *)
From Stdlib Require Import Ascii.
From S2P Require Import Prelude.
From S2P Require Import PyStr.
From S2P Require Import PyVal.
From S2P Require Import Money.
From S2P Require Import ChainTx.
Local Open Scope Z_scope.
Set Default Proof Using "Type".

(** [LedgerState] *)
Record LedgerState := {
  compute_reserve_balance_atomic : Z;
  project_treasury_balance_atomic : Z;
  ai_development_fee_pool_atomic : Z;
  validator_fee_pool_atomic : Z;
  validator_slashed_atomic : Z;
  tx_fee_pool_atomic : Z;
  worker_distributed_atomic : Z;
  settlements_applied : Z
}.

(** [WalletRecord] *)
Record WalletRecord := {
  wr_wallet_id : string;
  wr_address : string;
  spendable_balance_atomic : Z;
  validator_reserved_atomic : Z
}.

(** [SettlementRecord] *)
Record SettlementRecord := {
  sr_settlement_id : string;
  sr_created_at : string;
  sr_source_wallet_id : string;
  sr_source_wallet_address : string;
  sr_funding_source : string;
  sr_compute_cost_atomic : Z;
  sr_tx_fee_atomic : Z;
  sr_settlement_fee_atomic : Z;
  sr_worker_reward_atomic : Z;
  sr_committee_selection_seed : option string;
  sr_committee_target_size : Z;
  sr_committee_selection_mode : string;
  sr_committee_validator_ids : list string;
  sr_committee_bonded : list (string * Z);
  sr_committee_total_bonded_atomic : Z;
  sr_committee_quorum_bond_atomic : Z;
  sr_reward_token_code : option string;
  sr_ai_development_fee_atomic : Z;
  sr_ai_development_wallet_id : option string;
  sr_ai_development_address : option string;
  sr_ai_development_credited_wallet_id : option string;
  sr_accepted_attestations : Z;
  sr_rejected_attestations : Z;
  sr_accepted_bond_atomic : Z;
  sr_rejected_bond_atomic : Z;
  sr_status : string;
  sr_note : option string;
  sr_source_wallet_debit_atomic : Z;
  sr_reserve_debit_atomic : Z;
  sr_reserve_limit_identity_keys : list string;
  sr_reserve_client_ip_hash : option string;
  sr_applied_at : option string;
  sr_applied_by_validator_id : option string;
  sr_balance_audit : list (string * pyval)
}.

(** [ValidatorAttestation] *)
Record ValidatorAttestation := {
  at_attestation_id : string;
  at_created_at : string;
  at_settlement_id : string;
  at_validator_id : string;
  at_accepted : bool;
  at_note : option string
}.

(** [WorkerPayoutRecord] *)
Record WorkerPayoutRecord := {
  wp_payout_id : string;
  wp_created_at : string;
  wp_settlement_id : string;
  wp_receipt_id : string;
  wp_model_id : string;
  wp_node_id : string;
  wp_runner_id : option string;
  wp_layer_start : option Z;
  wp_layer_end : option Z;
  wp_layer_count : Z;
  wp_share_bps : Z;
  wp_reward_atomic : Z;
  wp_reward_token_code : option string;
  wp_recipient_address : option string;
  wp_credited_wallet_id : option string;
  wp_status : string;
  wp_note : option string
}.

#[export] Instance settlement_record_eq_dec : EqDecision SettlementRecord.
Proof. solve_decision. Defined.
#[export] Instance attestation_eq_dec : EqDecision ValidatorAttestation.
Proof. solve_decision. Defined.

(** The files are read newest first; [list.sort(reverse=True)] keeps the order of equals. *)
Definition newest_first {A} (created : A → string) : list A → list A :=
  py_sorted (λ x y, str_leb (created y) (created x)).

Definition list_settlements (file : list SettlementRecord) : list SettlementRecord :=
  newest_first sr_created_at file.

(** [list_attestations(settlement_id=i)] *)
Definition list_attestations (i : string) (file : list ValidatorAttestation)
  : list ValidatorAttestation :=
  newest_first at_created_at (filter (λ a, at_settlement_id a = i) file).

Definition list_worker_payouts (i : option string) (file : list WorkerPayoutRecord)
  : list WorkerPayoutRecord :=
  newest_first wp_created_at
    match i with
    | Some i => filter (λ p, wp_settlement_id p = i) file
    | None => file
    end.

Definition resolve_settlement (i : string) (file : list SettlementRecord) : option SettlementRecord :=
  List.find (λ s, String.eqb (sr_settlement_id s) i) (list_settlements file).

(** A [SettlementRecord] with the vote counts and the status [refresh_settlement_finality]
    computes. *)
Definition with_votes (s : SettlementRecord) (accepted rejected accepted_bond rejected_bond : Z)
    (status : string) : SettlementRecord := {|
  sr_settlement_id := sr_settlement_id s; sr_created_at := sr_created_at s;
  sr_source_wallet_id := sr_source_wallet_id s;
  sr_source_wallet_address := sr_source_wallet_address s;
  sr_funding_source := sr_funding_source s; sr_compute_cost_atomic := sr_compute_cost_atomic s;
  sr_tx_fee_atomic := sr_tx_fee_atomic s; sr_settlement_fee_atomic := sr_settlement_fee_atomic s;
  sr_worker_reward_atomic := sr_worker_reward_atomic s;
  sr_committee_selection_seed := sr_committee_selection_seed s;
  sr_committee_target_size := sr_committee_target_size s;
  sr_committee_selection_mode := sr_committee_selection_mode s;
  sr_committee_validator_ids := sr_committee_validator_ids s;
  sr_committee_bonded := sr_committee_bonded s;
  sr_committee_total_bonded_atomic := sr_committee_total_bonded_atomic s;
  sr_committee_quorum_bond_atomic := sr_committee_quorum_bond_atomic s;
  sr_reward_token_code := sr_reward_token_code s;
  sr_ai_development_fee_atomic := sr_ai_development_fee_atomic s;
  sr_ai_development_wallet_id := sr_ai_development_wallet_id s;
  sr_ai_development_address := sr_ai_development_address s;
  sr_ai_development_credited_wallet_id := sr_ai_development_credited_wallet_id s;
  sr_accepted_attestations := accepted; sr_rejected_attestations := rejected;
  sr_accepted_bond_atomic := accepted_bond; sr_rejected_bond_atomic := rejected_bond;
  sr_status := status; sr_note := sr_note s;
  sr_source_wallet_debit_atomic := sr_source_wallet_debit_atomic s;
  sr_reserve_debit_atomic := sr_reserve_debit_atomic s;
  sr_reserve_limit_identity_keys := sr_reserve_limit_identity_keys s;
  sr_reserve_client_ip_hash := sr_reserve_client_ip_hash s; sr_applied_at := sr_applied_at s;
  sr_applied_by_validator_id := sr_applied_by_validator_id s;
  sr_balance_audit := sr_balance_audit s |}.
