(* ===== verification/Funding.v ===== *)
(** * Prices and funding

    [economics.py]: the fee quote, the token price with its floor and cap, the multipliers,
    the daily reserve allowance and the funding plan of a job.  The allowance is metered per
    identity (wallet, address and address prefix) over the settlements and the chain. *)
From Stdlib Require Import Ascii QArith.
From S2P Require Import Prelude.
From S2P Require Import PyStr.
From S2P Require Import PyVal.
From S2P Require Import Sha256.
From S2P Require Import Doubles.
From S2P Require Import Money.
From S2P Require Import Signing.
From S2P Require Import ChainTx.
From S2P Require Import Ledger.
From S2P Require Import ChainStore.
From S2P Require Import ChainOps.
From S2P Require Import SettlementData.
Local Open Scope Z_scope.
Set Default Proof Using "Type".

Inductive PaymentPreference := AUTO | RESERVE_ONLY | WALLET_ONLY.
Inductive FundingSource := RESERVE | WALLET.

#[export] Instance funding_source_eq_dec : EqDecision FundingSource.
Proof. solve_decision. Defined.

Definition funding_source_value (f : FundingSource) : string :=
  match f with RESERVE => "reserve" | WALLET => "wallet" end.

Record FeeQuote := {
  fq_compute_cost_atomic : Z;
  fq_tx_fee_atomic : Z;
  fq_settlement_fee_atomic : Z;
  fq_ai_development_fee_atomic : Z;
  fq_worker_reward_atomic : Z
}.

(** [_default_tx_fee_atomic]: no sign is read. *)
Definition _default_tx_fee_atomic (mp : MoneyPolicy) : result Z :=
  let '(whole0, fraction0) := partition1 "."%char (default_tx_fee_coins mp) in
  let whole := or_str whole0 "0" in
  let fraction :=
    take_str (decimals mp) (fraction0 +:+ repeat_char "0"%char (decimals mp)) in
  w ← py_int (VStr whole);
  f ← py_int (VStr (or_str fraction "0"));
  Ok (w * 10 ^ Z.of_nat (decimals mp) + f).

Definition build_fee_quote (compute_cost_atomic : Z) (mp : MoneyPolicy) (tx_fee_atomic : option Z)
  : result FeeQuote :=
  resolved_tx_fee ← (match tx_fee_atomic with Some f => Ok f | None => _default_tx_fee_atomic mp end);
  let settlement_fee := compute_cost_atomic * validator_settlement_fee_bps mp / 10000 in
  let ai_development_fee := compute_cost_atomic * ai_development_fee_bps mp / 10000 in
  let worker_reward := Z.max (compute_cost_atomic - settlement_fee - ai_development_fee) 0 in
  Ok {| fq_compute_cost_atomic := compute_cost_atomic; fq_tx_fee_atomic := resolved_tx_fee;
        fq_settlement_fee_atomic := settlement_fee;
        fq_ai_development_fee_atomic := ai_development_fee;
        fq_worker_reward_atomic := worker_reward |}.

(** ** Token prices *)

Definition estimate_prompt_token_upper_bound (prompt : string) : Z :=
  Z.max (Z.of_nat (String.length (strip prompt))) 1.

Definition resolve_reserved_output_tokens (max_output_tokens : option Z) (mp : MoneyPolicy) : Z :=
  match max_output_tokens with
  | Some n => if 0 <? n then n
              else Z.max (automatic_price_default_reserved_output_tokens mp) 1
  | None => Z.max (automatic_price_default_reserved_output_tokens mp) 1
  end.

Record TokenPricedCost := {
  tc_compute_cost_atomic : Z;
  tc_base_price_atomic : Z;
  tc_was_capped : bool
}.

(** [x if x is not None else coins_to_atomic(coins)] *)
Definition price_or (x : option Z) (coins : string) (mp : MoneyPolicy) : result Z :=
  match x with Some v => Ok v | None => coins_to_atomic coins mp end.

Definition calculate_token_priced_cost (prompt_tokens completion_tokens : option Z)
    (final_multiplier_bps : Z) (mp : MoneyPolicy)
    (input_token_price_atomic output_token_price_atomic floor_atomic cap_atomic : option Z)
  : result TokenPricedCost :=
  input_price ← price_or input_token_price_atomic (automatic_price_per_input_token_coins mp) mp;
  output_price ← price_or output_token_price_atomic (automatic_price_per_output_token_coins mp) mp;
  floor ← price_or floor_atomic (automatic_price_floor_coins mp) mp;
  cap ← price_or cap_atomic (automatic_price_cap_coins mp) mp;
  let base_price_atomic :=
    Z.max (default 0 prompt_tokens) 0 * input_price
    + Z.max (default 0 completion_tokens) 0 * output_price in
  let raw := base_price_atomic * Z.max final_multiplier_bps 1000 / 10000 in
  Ok {| tc_compute_cost_atomic := Z.min (Z.max raw floor) cap;
        tc_base_price_atomic := base_price_atomic; tc_was_capped := cap <? raw |}.

(** ** Multipliers *)

Record NetworkStatePricingSnapshot := {
  reachable : bool;
  topology_connections : Z;
  average_cpu_usage : option Q
}.

Definition _load_multiplier_bps (snapshot : NetworkStatePricingSnapshot) (mp : MoneyPolicy)
    (minimum_worker_shards : Z) : Z :=
  if negb (reachable snapshot) then 10000 + automatic_price_unreachable_safety_bps mp
  else
    let min_connections := Z.max (automatic_price_target_connections mp) minimum_worker_shards in
    let n := topology_connections snapshot in
    let factor :=
      if n <? min_connections
      then 10000 + automatic_price_connection_scarcity_surcharge_bps mp
      else if min_connections <? n
      then Z.max (10000 - automatic_price_healthy_network_discount_bps mp) 1000
      else 10000 in
    match average_cpu_usage snapshot with
    | None => factor
    | Some u =>
        if Qle_bool (automatic_price_high_load_threshold mp) u
        then factor + automatic_price_high_load_surcharge_bps mp
        else if Qle_bool u (automatic_price_low_load_threshold mp) && (min_connections <=? n)
        then Z.max (factor - automatic_price_low_load_discount_bps mp) 1000
        else factor
    end.

(** The double [0.10]; [0.25] is exact. *)
Definition double_0_10 : Q := 3602879701896397 # 36028797018963968.

Definition _reserve_multiplier_bps (compute_reserve_balance : Z) (mp : MoneyPolicy) : Z :=
  let initial_reserve_atomic := compute_reserve_coins mp * 10 ^ Z.of_nat (decimals mp) in
  if initial_reserve_atomic <=? 0 then 10000
  else
    let ratio_le (bound : Q) : bool :=
      (compute_reserve_balance <=? 0)
      || Qle_bool (true_div compute_reserve_balance initial_reserve_atomic) bound in
    if ratio_le double_0_10 then 10000 + automatic_price_reserve_critical_bps mp
    else if ratio_le (1 # 4)%Q then 10000 + automatic_price_reserve_guard_bps mp
    else 10000.

(** The product of the three multipliers, and the price in the token mode. *)
Definition final_multiplier (model_bps load_bps reserve_bps : Z) : Z :=
  Z.max (model_bps * load_bps * reserve_bps / (10000 * 10000)) 1000.

(** ** The daily reserve allowance *)

Definition daily_limit (enabled : bool) (coins : string) (mp : MoneyPolicy) : result (option Z) :=
  if negb enabled then Ok None
  else
    let limit := strip coins in
    if String.eqb limit "" then Ok None
    else v ← coins_to_atomic limit mp; Ok (Some (Z.max v 0)).

Definition _daily_user_reserve_limit_atomic (mp : MoneyPolicy) : result (option Z) :=
  daily_limit (daily_user_reserve_limit_enabled mp) (daily_user_reserve_limit_coins mp) mp.

Definition _daily_ip_reserve_limit_atomic (mp : MoneyPolicy) : result (option Z) :=
  daily_limit (daily_ip_reserve_limit_enabled mp) (daily_ip_reserve_limit_coins mp) mp.

Definition _daily_reserve_limit_for_identity_key (identity_key : string) (mp : MoneyPolicy)
  : result (option Z) :=
  let normalized := strip identity_key in
  if startswith "ip:" normalized || startswith "ip-prefix:" normalized
  then _daily_ip_reserve_limit_atomic mp else _daily_user_reserve_limit_atomic mp.

Definition wallet_key (wallet_id : string) : string := "wallet:" +:+ strip wallet_id.

Definition _reserve_limit_identity_keys_from_metadata (metadata : list (string * pyval))
    (fallback_wallet_id : string) : list string :=
  let fallback :=
    if String.eqb (strip fallback_wallet_id) "" then [] else [wallet_key fallback_wallet_id] in
  match dget "reserve_limit_identity_keys" metadata with
  | VList raw =>
      match filter (λ k, negb (String.eqb (strip k) "")) (map py_str raw) with
      | [] => fallback
      | keys => keys
      end
  | _ => fallback
  end.

Definition _reserve_compute_cost_from_metadata (metadata : list (string * pyval))
    (fallback_atomic : Z) : Z :=
  match py_int (dget "compute_cost_atomic" metadata) with
  | Ok v => Z.max v 0
  | Err _ => Z.max fallback_atomic 0
  end.

Section allowance.
Context (env : Environ) (policy : option WalletPolicy).
(** [datetime.fromisoformat(value).astimezone(UTC).date() == today]; a value the library
    rejects is on no day. *)
Context (is_today : string → bool).

(** The part of one transaction in today's spending of an identity. *)
Definition chain_spend (key : string) (tx : ChainTransaction) : Z :=
  if negb (String.eqb (tx_type tx) "settlement_compute_reserve_debit") then 0
  else
    let keys := _reserve_limit_identity_keys_from_metadata (metadata tx)
                  (py_str (py_or (dget "source_wallet_id" (metadata tx)) (VStr ""))) in
    if negb (bool_decide (key ∈ keys)) then 0
    else if negb (is_today (tx_created_at tx)) then 0
    else _reserve_compute_cost_from_metadata (metadata tx) (Z.abs (delta_atomic tx)).

Definition _daily_user_reserve_spent_today_from_chain (key : string)
    (blocks : result (list ChainBlock)) : result Z :=
  match blocks with
  | Err (ValueError _) => Ok 0
  | Err e => Err e
  | Ok blocks => Ok (sumZ (map (chain_spend key) (blocks ≫= transactions)))
  end.

Definition settlement_spend (key : string) (s : SettlementRecord) : Z :=
  let keys :=
    match filter (λ k, negb (String.eqb (strip k) "")) (sr_reserve_limit_identity_keys s) with
    | [] => [wallet_key (sr_source_wallet_id s)]
    | keys => keys
    end in
  if negb (bool_decide (key ∈ keys)) then 0
  else if negb (String.eqb (lower (strip (sr_funding_source s))) "reserve") then 0
  else if negb (is_today (sr_created_at s)) then 0
  else sr_compute_cost_atomic s.

Definition _daily_user_reserve_spent_today_from_settlements (key : string)
    (file : list SettlementRecord) : Z :=
  sumZ (map (settlement_spend key) (list_settlements file)).

(** [_daily_reserve_spent_today_by_identity]: the keys with what each spent today. *)
Definition _daily_reserve_spent_today_by_identity (wallet_id : string) (keys : list string)
    (blocks : result (list ChainBlock)) (file : list SettlementRecord)
  : result (list (string * Z)) :=
  let keys := match keys with [] => [wallet_key wallet_id] | _ => keys end in
  mapM_r (λ key,
    c ← _daily_user_reserve_spent_today_from_chain key blocks;
    Ok (key, Z.max c (_daily_user_reserve_spent_today_from_settlements key file))) keys.
End allowance.

(** [d.get(key, 0)] *)
Definition spent_of (spent : list (string * Z)) (key : string) : Z :=
  match List.find (λ kv, String.eqb kv.1 key) spent with Some kv => kv.2 | None => 0 end.

(** [max(values or [0])] and [min(values)] *)
Definition max_or_zero (l : list Z) : Z :=
  match l with [] => 0 | x :: l' => foldl Z.max x l' end.
Definition min_of (l : list Z) : option Z :=
  match l with [] => None | x :: l' => Some (foldl Z.min x l') end.

Section client.
(** [str(ipaddress.ip_address(raw))] and the network of the address, when it is one. *)
Context (ip_address : string → option string) (ip_network : string → option string).

Definition normalize_reserve_client_ip (value : option string) : option string :=
  let raw := lower (strip (default "" value)) in
  if String.eqb raw "" || String.eqb raw "unknown" then None
  else match ip_address raw with Some a => Some a | None => Some raw end.

Definition reserve_client_ip_hash (value : option string) : option string :=
  ip ← normalize_reserve_client_ip value; Some (sha256_hexdigest ("ip:" +:+ ip)).

Definition reserve_client_ip_prefix_hash (value : option string) : option string :=
  ip ← normalize_reserve_client_ip value;
  network ← ip_network ip;
  Some (sha256_hexdigest ("ip-prefix:" +:+ network)).

Definition build_reserve_limit_identity_keys (wallet_id : string) (reserve_client_ip : option string)
    (mp : MoneyPolicy) : result (list string) :=
  let client_hash := reserve_client_ip_hash reserve_client_ip in
  ip_keys ←
    (match client_hash with
     | None => Ok []
     | Some h =>
         limit ← _daily_ip_reserve_limit_atomic mp;
         Ok (match limit with
             | None => []
             | Some _ =>
                 ("ip:" +:+ h)
                 :: match reserve_client_ip_prefix_hash reserve_client_ip with
                    | Some p => ["ip-prefix:" +:+ p]
                    | None => []
                    end
             end)
     end);
  Ok (filter (λ k, negb (String.eqb k "") && negb (String.eqb k "wallet:"))
        (wallet_key wallet_id :: ip_keys)).
End client.

(** ** The funding plan *)

Record FundingDecision := {
  fd_can_fund : bool;
  fd_reason : string;
  fd_payment_preference : PaymentPreference;
  fd_funding_source : option FundingSource;
  fd_fee_quote : FeeQuote;
  fd_reserve_before_atomic : Z;
  fd_reserve_after_atomic : Z;
  fd_wallet_before_atomic : Z;
  fd_wallet_after_atomic : Z;
  fd_daily_reserve_limit_atomic : option Z;
  fd_daily_reserve_spent_today_atomic : Z;
  fd_daily_reserve_remaining_atomic : option Z;
  fd_reserve_limit_identity_keys : list string;
  fd_reserve_client_ip_hash : option string
}.

(** What the plan is made from: the two balances, and the limit of each identity that has
    one with what the identity spent today. *)
Record FundingInputs := {
  fi_preference : PaymentPreference;
  fi_quote : FeeQuote;
  fi_reserve : Z;
  fi_wallet : Z;
  fi_identity_keys : list string;
  fi_client_hash : option string;
  fi_spent : list (string * Z);
  fi_limits : list (string * Z);
  fi_fallback_limit : option Z
}.

Definition fi_daily_limit (fi : FundingInputs) : option Z :=
  match min_of (map snd (fi_limits fi)) with Some m => Some m | None => fi_fallback_limit fi end.

Definition fi_remaining (fi : FundingInputs) : option Z :=
  min_of (map (λ kl : string * Z, Z.max (kl.2 - spent_of (fi_spent fi) kl.1) 0) (fi_limits fi)).

Definition fi_exceeded (fi : FundingInputs) : bool :=
  existsb (λ kl : string * Z,
    kl.2 <? spent_of (fi_spent fi) kl.1 + fq_compute_cost_atomic (fi_quote fi)) (fi_limits fi).

(** [FundingDecision(...)] and [_reject(...)] with the arguments every branch shares. *)
Definition decide_funding (fi : FundingInputs) (source : option FundingSource) (reason : string)
    (reserve_after wallet_after : Z) (remaining : option Z) : FundingDecision := {|
  fd_can_fund := match source with Some _ => true | None => false end;
  fd_reason := reason;
  fd_payment_preference := fi_preference fi;
  fd_funding_source := source;
  fd_fee_quote := fi_quote fi;
  fd_reserve_before_atomic := fi_reserve fi;
  fd_reserve_after_atomic := reserve_after;
  fd_wallet_before_atomic := fi_wallet fi;
  fd_wallet_after_atomic := wallet_after;
  fd_daily_reserve_limit_atomic := fi_daily_limit fi;
  fd_daily_reserve_spent_today_atomic := max_or_zero (map snd (fi_spent fi));
  fd_daily_reserve_remaining_atomic := remaining;
  fd_reserve_limit_identity_keys := fi_identity_keys fi;
  fd_reserve_client_ip_hash := fi_client_hash fi |}.

Definition reject_funding (fi : FundingInputs) (reason : string) : FundingDecision :=
  decide_funding fi None reason (fi_reserve fi) (fi_wallet fi) (fi_remaining fi).

(** The decision of [plan_funding] on its inputs. *)
Definition funding_decision (fi : FundingInputs) (mp : MoneyPolicy) : FundingDecision :=
  let q := fi_quote fi in
  let compute := fq_compute_cost_atomic q in
  let tx_fee := fq_tx_fee_atomic q in
  let reserve := fi_reserve fi in
  let wallet := fi_wallet fi in
  let metered_remaining := (λ r, Z.max (r - compute) 0) <$> fi_remaining fi in
  let by_reserve reason reserve_after wallet_after :=
    decide_funding fi (Some RESERVE) reason reserve_after wallet_after metered_remaining in
  let by_wallet reason :=
    decide_funding fi (Some WALLET) reason reserve (wallet - (compute + tx_fee)) (fi_remaining fi) in
  let exceeded := fi_exceeded fi in
  match fi_preference fi with
  | RESERVE_ONLY =>
      if exceeded then
        reject_funding fi
          ("Daily reserve allowance of " +:+ atomic_to_coins (default 0 (fi_daily_limit fi)) mp +:+ " "
           +:+ currency_code mp +:+ " would be exceeded. Already reserve-funded today: "
           +:+ atomic_to_coins (max_or_zero (map snd (fi_spent fi))) mp +:+ ".")
      else if reserve <? compute then
        reject_funding fi "Reserve balance is insufficient for the requested compute cost."
      else if wallet <? tx_fee then
        reject_funding fi "Wallet balance is insufficient to pay the transaction fee."
      else by_reserve "Compute is funded by reserve, tx fee by wallet." (reserve - compute)
             (wallet - tx_fee)
  | WALLET_ONLY =>
      if wallet <? compute + tx_fee then
        reject_funding fi "Wallet balance is insufficient to fund compute cost and tx fee."
      else by_wallet "Compute and tx fee are funded by wallet."
  | AUTO =>
      if negb exceeded && (compute <=? reserve) && (tx_fee <=? wallet) then
        by_reserve "Auto mode selected reserve for compute and wallet for tx fee."
          (reserve - compute) (wallet - tx_fee)
      else if negb exceeded && (compute + tx_fee <=? reserve) then
        by_reserve "Auto mode selected reserve for compute and tx fee."
          (reserve - (compute + tx_fee)) wallet
      else if compute + tx_fee <=? wallet then
        by_wallet
          (if exceeded
           then "Auto mode fell back to wallet funding after daily reserve allowance was exhausted."
           else "Auto mode fell back to wallet funding.")
      else
        reject_funding fi
          (if exceeded
           then "Daily reserve allowance is exhausted and wallet balance is insufficient to fund this compute job."
           else "Neither reserve+wallet nor wallet-only path can fund this compute job.")
  end.

Section plan.
Context `{SignatureBackend} (env : Environ) (wallet_policy : option WalletPolicy).
Context (is_today : string → bool) (ip_address ip_network : string → option string).

(** The limits of the identities that have one. *)
Definition identity_limit (mp : MoneyPolicy) (key : string) : result (option (string * Z)) :=
  limit ← _daily_reserve_limit_for_identity_key key mp;
  Ok (match limit with Some v => Some (key, v) | None => None end).

Definition identity_limits (mp : MoneyPolicy) (keys : list string) : result (list (string * Z)) :=
  limits ← mapM_r (identity_limit mp) keys; Ok (omap (M:=list) (λ x : option (string * Z), x) limits).

Definition plan_funding (now : string) (st : ChainStore) (settlements : list SettlementRecord)
    (ledger : LedgerState) (wallet : WalletRecord) (compute_cost_atomic : Z)
    (payment_preference : PaymentPreference) (mp : MoneyPolicy) (tx_fee_atomic : option Z)
    (reserve_client_ip : option string) (reserve_limit_identity_keys : option (list string))
    (reserve_client_hash : option string) : result FundingDecision :=
  fee_quote ← build_fee_quote compute_cost_atomic mp tx_fee_atomic;
  fallback ← _daily_user_reserve_limit_atomic mp;
  let provided :=
    filter (λ k, negb (String.eqb (strip k) "")) (default [] reserve_limit_identity_keys) in
  keys ←
    (match provided with
     | [] => build_reserve_limit_identity_keys ip_address ip_network (wr_wallet_id wallet)
               reserve_client_ip mp
     | _ => Ok provided
     end);
  let client_hash :=
    if String.eqb (strip (default "" reserve_client_hash)) ""
    then reserve_client_ip_hash ip_address reserve_client_ip
    else Some (strip (default "" reserve_client_hash)) in
  spent ← _daily_reserve_spent_today_by_identity is_today (wr_wallet_id wallet) keys
            (list_chain_blocks env wallet_policy now st) settlements;
  limits ← identity_limits mp keys;
  Ok (funding_decision
        {| fi_preference := payment_preference; fi_quote := fee_quote;
           fi_reserve := compute_reserve_balance_atomic ledger;
           fi_wallet := spendable_balance_atomic wallet; fi_identity_keys := keys;
           fi_client_hash := client_hash; fi_spent := spent; fi_limits := limits;
           fi_fallback_limit := fallback |} mp).
End plan.

(** [apply_funding_decision] *)
Definition apply_funding_decision (ledger : LedgerState) (wallet : WalletRecord)
    (decision : FundingDecision) : result (LedgerState * WalletRecord) :=
  if negb (fd_can_fund decision) || bool_decide (fd_funding_source decision = None)
  then Err (ValueError "Cannot apply an unfunded decision.")
  else
    let q := fd_fee_quote decision in
    Ok ({| compute_reserve_balance_atomic := fd_reserve_after_atomic decision;
           project_treasury_balance_atomic := project_treasury_balance_atomic ledger;
           ai_development_fee_pool_atomic :=
             ai_development_fee_pool_atomic ledger + fq_ai_development_fee_atomic q;
           validator_fee_pool_atomic := validator_fee_pool_atomic ledger + fq_settlement_fee_atomic q;
           validator_slashed_atomic := validator_slashed_atomic ledger;
           tx_fee_pool_atomic := tx_fee_pool_atomic ledger + fq_tx_fee_atomic q;
           worker_distributed_atomic := worker_distributed_atomic ledger + fq_worker_reward_atomic q;
           settlements_applied := settlements_applied ledger + 1 |},
        {| wr_wallet_id := wr_wallet_id wallet; wr_address := wr_address wallet;
           spendable_balance_atomic := fd_wallet_after_atomic decision;
           validator_reserved_atomic := validator_reserved_atomic wallet |}).
