(* ===== verification/Validators.v ===== *)
(** * Validators and committees

    [validators.py]: the local registry of validators, the bonds the chain backs, remote
    penalties, and the committees that finalise settlements.  The registry file is the list
    of its records. *)
From Stdlib Require Import Ascii QArith.
From S2P Require Import Prelude.
From S2P Require Import PyStr.
From S2P Require Import PyVal.
From S2P Require Import Money.
From S2P Require Import Signing.
From S2P Require Import ChainTx.
From S2P Require Import Ledger.
From S2P Require Import ChainStore.
From S2P Require Import ChainOps.
From S2P Require Import Apportion.
Local Open Scope Z_scope.
Set Default Proof Using "Type".

(** ** Records *)

(** [ValidatorLifecycleState] *)
Definition UNBONDED : string := "unbonded".
Definition BONDED : string := "bonded".
Definition UNBONDING : string := "unbonding".
Definition JAILED : string := "jailed".

Record ValidatorRecord := {
  vr_validator_id : string;
  vr_wallet_id : pyval;
  vr_address : string;
  vr_state : string;
  vr_bonded_atomic : Z;
  vr_static_ip_confirmed : bool;
  vr_current_node_id : option string;
  vr_advertised_api_host : option string;
  vr_advertised_data_host : option string;
  vr_activated_at : option string;
  vr_ha_enabled : bool;
  vr_active_replica_node_id : option string;
  vr_active_replica_lease_until : option string;
  vr_replica_node_ids : list string;
  vr_unbonding_started_at : option string;
  vr_unbonding_available_at : option string;
  vr_jailed_at : option string;
  vr_unjail_available_at : option string;
  vr_last_slash_atomic : Z;
  vr_total_slashed_atomic : Z;
  vr_source : string;
  vr_source_url : option string;
  vr_last_seen_at : option string;
  vr_updated_at : option string
}.

#[export] Instance validator_record_eq_dec : EqDecision ValidatorRecord.
Proof. solve_decision. Defined.

Definition state_rank (state : string) : Z :=
  if String.eqb state BONDED then 0
  else if String.eqb state UNBONDING then 1
  else if String.eqb state JAILED then 2
  else if String.eqb state UNBONDED then 3
  else 99.

Definition record_leb (a b : ValidatorRecord) : bool :=
  let ra := state_rank (vr_state a) in
  let rb := state_rank (vr_state b) in
  (ra <? rb) || ((ra =? rb) && str_leb (vr_validator_id a) (vr_validator_id b)).

(** The registry file holds the records in the order they were saved. *)
Definition list_validator_records (file : list ValidatorRecord) : list ValidatorRecord :=
  py_sorted record_leb file.

Definition get_validator_record (validator_id : string) (file : list ValidatorRecord)
  : option ValidatorRecord :=
  List.find (λ r, String.eqb (vr_validator_id r) validator_id) (list_validator_records file).

(** ** Updating the registry *)

(** [_merged_replica_node_ids]: groups flattened, trimmed, blanks and repetitions dropped. *)
Definition _merged_replica_node_ids (groups : list (list string)) : list string :=
  dedup_keep_first []
    (filter (λ s, negb (String.eqb s "")) (map strip (List.concat groups))).

(** The keyword arguments of [sync_validator_record]. *)
Record SyncArgs := {
  sa_validator_id : string;
  sa_wallet_id : pyval;
  sa_address : string;
  sa_state : string;
  sa_bonded_atomic : Z;
  sa_static_ip_confirmed : bool;
  sa_current_node_id : option string;
  sa_advertised_api_host : option string;
  sa_advertised_data_host : option string;
  sa_ha_enabled : option bool;
  sa_ha_role : string;
  sa_active_replica_node_id : option string;
  sa_active_replica_lease_until : option string;
  sa_replica_node_ids : list string;
  sa_unbonding_started_at : option string;
  sa_unbonding_available_at : option string;
  sa_jailed_at : option string;
  sa_unjail_available_at : option string;
  sa_last_slash_atomic : Z;
  sa_total_slashed_atomic : Z;
  sa_source : string;
  sa_source_url : option string;
  sa_last_seen_at : option string;
  sa_updated_at : option string
}.

(** [x if x is not None else y] *)
Definition some_or {A} (x y : option A) : option A := match x with Some _ => x | None => y end.

Definition opt_list {A} (x : option A) : list A := match x with Some a => [a] | None => [] end.

(** [s or now] on an optional string. *)
Definition or_now (s : option string) (now : string) : option string :=
  if filled s then s else Some now.

(** The record that replaces [previous]. *)
Definition synced_record (now : string) (a : SyncArgs) (previous : option ValidatorRecord)
  : ValidatorRecord :=
  let activated0 := previous ≫= vr_activated_at in
  let activated_at :=
    if String.eqb (sa_state a) BONDED && bool_decide (activated0 = None)
    then Some now else activated0 in
  let normalized_ha_role := lower (strip (sa_ha_role a)) in
  let record_ha_enabled :=
    match sa_ha_enabled a, previous with
    | None, Some p => vr_ha_enabled p
    | Some b, _ => b
    | None, None => false
    end in
  let current := some_or (sa_current_node_id a) (previous ≫= vr_current_node_id) in
  let active := some_or (sa_active_replica_node_id a) (previous ≫= vr_active_replica_node_id) in
  let lease := some_or (sa_active_replica_lease_until a) (previous ≫= vr_active_replica_lease_until) in
  let replicas :=
    _merged_replica_node_ids
      [default [] (vr_replica_node_ids <$> previous); sa_replica_node_ids a;
       opt_list (sa_current_node_id a); opt_list (previous ≫= vr_current_node_id)] in
  let passive := String.eqb normalized_ha_role "passive" in
  let keep (new : option string) (old : ValidatorRecord → option string) :=
    match previous with
    | Some p => if record_ha_enabled && passive then old p else new
    | None => new
    end in
  {| vr_validator_id := sa_validator_id a;
     vr_wallet_id := sa_wallet_id a;
     vr_address := sa_address a;
     vr_state := sa_state a;
     vr_bonded_atomic := Z.max 0 (sa_bonded_atomic a);
     vr_static_ip_confirmed := sa_static_ip_confirmed a;
     vr_current_node_id := keep current vr_current_node_id;
     vr_advertised_api_host := some_or (sa_advertised_api_host a) (previous ≫= vr_advertised_api_host);
     vr_advertised_data_host :=
       some_or (sa_advertised_data_host a) (previous ≫= vr_advertised_data_host);
     vr_activated_at := activated_at;
     vr_ha_enabled := record_ha_enabled;
     vr_active_replica_node_id :=
       if record_ha_enabled then keep active vr_active_replica_node_id else None;
     vr_active_replica_lease_until :=
       if record_ha_enabled then keep lease vr_active_replica_lease_until else None;
     vr_replica_node_ids := if record_ha_enabled then replicas else [];
     vr_unbonding_started_at := sa_unbonding_started_at a;
     vr_unbonding_available_at := sa_unbonding_available_at a;
     vr_jailed_at := sa_jailed_at a;
     vr_unjail_available_at := sa_unjail_available_at a;
     vr_last_slash_atomic := Z.max 0 (sa_last_slash_atomic a);
     vr_total_slashed_atomic :=
       Z.max (sa_total_slashed_atomic a) (default 0 (vr_total_slashed_atomic <$> previous));
     vr_source := sa_source a;
     vr_source_url := sa_source_url a;
     vr_last_seen_at := or_now (sa_last_seen_at a) now;
     vr_updated_at := or_now (sa_updated_at a) now |}.

(** [existing[index] = record] at the first record with the id, or [append]. *)
Fixpoint put_record (record : ValidatorRecord) (l : list ValidatorRecord) : list ValidatorRecord :=
  match l with
  | [] => [record]
  | r :: l' =>
      if String.eqb (vr_validator_id r) (vr_validator_id record) then record :: l'
      else r :: put_record record l'
  end.

(** The registry file after the call, and the record. *)
Definition sync_validator_record (now : string) (a : SyncArgs) (file : list ValidatorRecord)
  : list ValidatorRecord * ValidatorRecord :=
  let existing := list_validator_records file in
  let previous := List.find (λ r, String.eqb (vr_validator_id r) (sa_validator_id a)) existing in
  let record := synced_record now a previous in
  (put_record record existing, record).

(** The arguments that carry a record over unchanged. *)
Definition sync_of_record (r : ValidatorRecord) : SyncArgs := {|
  sa_validator_id := vr_validator_id r; sa_wallet_id := vr_wallet_id r;
  sa_address := vr_address r; sa_state := vr_state r; sa_bonded_atomic := vr_bonded_atomic r;
  sa_static_ip_confirmed := vr_static_ip_confirmed r; sa_current_node_id := vr_current_node_id r;
  sa_advertised_api_host := vr_advertised_api_host r;
  sa_advertised_data_host := vr_advertised_data_host r;
  sa_ha_enabled := None; sa_ha_role := "standalone"; sa_active_replica_node_id := None;
  sa_active_replica_lease_until := None; sa_replica_node_ids := [];
  sa_unbonding_started_at := vr_unbonding_started_at r;
  sa_unbonding_available_at := vr_unbonding_available_at r;
  sa_jailed_at := vr_jailed_at r; sa_unjail_available_at := vr_unjail_available_at r;
  sa_last_slash_atomic := vr_last_slash_atomic r;
  sa_total_slashed_atomic := vr_total_slashed_atomic r; sa_source := vr_source r;
  sa_source_url := vr_source_url r; sa_last_seen_at := vr_last_seen_at r;
  sa_updated_at := None |}.

(** The penalty's effect on a record: jailing clears the bond, slashing lowers it. *)
Definition penalty_args (slash_atomic : Z) (jailed : bool) (observed_at source_url : option string)
    (e : ValidatorRecord) : SyncArgs :=
  let slash := Z.max 0 slash_atomic in
  let a := sync_of_record e in
  {| sa_validator_id := sa_validator_id a; sa_wallet_id := sa_wallet_id a;
     sa_address := sa_address a;
     sa_state := if jailed then JAILED else vr_state e;
     sa_bonded_atomic :=
       if jailed then 0
       else if 0 <? slash then Z.max 0 (vr_bonded_atomic e - slash) else vr_bonded_atomic e;
     sa_static_ip_confirmed := sa_static_ip_confirmed a;
     sa_current_node_id := sa_current_node_id a;
     sa_advertised_api_host := sa_advertised_api_host a;
     sa_advertised_data_host := sa_advertised_data_host a;
     sa_ha_enabled := None; sa_ha_role := "standalone"; sa_active_replica_node_id := None;
     sa_active_replica_lease_until := None; sa_replica_node_ids := [];
     sa_unbonding_started_at := if jailed then None else vr_unbonding_started_at e;
     sa_unbonding_available_at := if jailed then None else vr_unbonding_available_at e;
     sa_jailed_at :=
       if jailed then (if filled observed_at then observed_at else vr_jailed_at e)
       else vr_jailed_at e;
     sa_unjail_available_at := sa_unjail_available_at a;
     sa_last_slash_atomic := if 0 <? slash then slash else vr_last_slash_atomic e;
     sa_total_slashed_atomic :=
       if 0 <? slash then vr_total_slashed_atomic e + slash else vr_total_slashed_atomic e;
     sa_source := vr_source e;
     sa_source_url := if filled (vr_source_url e) then vr_source_url e else source_url;
     sa_last_seen_at := vr_last_seen_at e; sa_updated_at := None |}.

(** Nothing the penalty would change. *)
Definition penalty_is_noop (a : SyncArgs) (e : ValidatorRecord) : bool :=
  String.eqb (sa_state a) (vr_state e)
  && (sa_bonded_atomic a =? vr_bonded_atomic e)
  && bool_decide (sa_unbonding_started_at a = vr_unbonding_started_at e)
  && bool_decide (sa_unbonding_available_at a = vr_unbonding_available_at e)
  && bool_decide (sa_jailed_at a = vr_jailed_at e)
  && (sa_last_slash_atomic a =? vr_last_slash_atomic e)
  && (sa_total_slashed_atomic a =? vr_total_slashed_atomic e).

Definition apply_remote_validator_penalty_to_registry (now validator_id : string)
    (slash_atomic : Z) (jailed : bool) (observed_at source_url : option string)
    (file : list ValidatorRecord) : list ValidatorRecord * bool :=
  let normalized_validator_id := lower (strip validator_id) in
  if String.eqb normalized_validator_id "" then (file, false)
  else
    match get_validator_record normalized_validator_id file with
    | None => (file, false)
    | Some existing =>
        if String.eqb (vr_source existing) "local" then (file, false)
        else
          let a := penalty_args slash_atomic jailed observed_at source_url existing in
          if penalty_is_noop a existing then (file, false)
          else ((sync_validator_record now a file).1, true)
    end.

(** ** Bonds the chain backs *)

Definition _chain_backed_validator_record (record : ValidatorRecord) (locked_bonds : gmap string Z)
  : ValidatorRecord :=
  if negb (String.eqb (vr_state record) BONDED) then record
  else
    let locked_atomic := balance_of locked_bonds (_normalize_validator_id (vr_validator_id record)) in
    if (0 <? vr_bonded_atomic record) && (vr_bonded_atomic record <=? locked_atomic) then record
    else
      {| vr_validator_id := vr_validator_id record; vr_wallet_id := vr_wallet_id record;
         vr_address := vr_address record; vr_state := UNBONDED; vr_bonded_atomic := 0;
         vr_static_ip_confirmed := vr_static_ip_confirmed record;
         vr_current_node_id := vr_current_node_id record;
         vr_advertised_api_host := vr_advertised_api_host record;
         vr_advertised_data_host := vr_advertised_data_host record;
         vr_activated_at := vr_activated_at record; vr_ha_enabled := vr_ha_enabled record;
         vr_active_replica_node_id := vr_active_replica_node_id record;
         vr_active_replica_lease_until := vr_active_replica_lease_until record;
         vr_replica_node_ids := vr_replica_node_ids record;
         vr_unbonding_started_at := vr_unbonding_started_at record;
         vr_unbonding_available_at := vr_unbonding_available_at record;
         vr_jailed_at := vr_jailed_at record;
         vr_unjail_available_at := vr_unjail_available_at record;
         vr_last_slash_atomic := vr_last_slash_atomic record;
         vr_total_slashed_atomic := vr_total_slashed_atomic record;
         vr_source := vr_source record; vr_source_url := vr_source_url record;
         vr_last_seen_at := vr_last_seen_at record; vr_updated_at := vr_updated_at record |}.

(** The locked bonds by normalised validator id, negative ones as zero. *)
Definition normalized_locked_bonds (index : gmap string Z) : gmap string Z :=
  foldl (λ (m : gmap string Z) (kv : string * Z),
           <[_normalize_validator_id kv.1 := Z.max 0 kv.2]> m) ∅ (sorted_items index).

Section chain.
Context `{SignatureBackend} (env : Environ) (policy : option WalletPolicy).

Definition _chain_locked_bonds_by_validator (t : Tick) : M (gmap string Z) :=
  index ← stored_locked_bond_index env policy t;
  let locked_bonds := normalized_locked_bonds index in
  let total_locked_atomic := map_sum locked_bonds in
  if total_locked_atomic <=? 0 then mret ∅
  else
    let mp := money_policy_of env (wp_chain_network (default (default_wallet_policy env) policy)) in
    pool_atomic ← chain_balance_atomic env policy t (validator_bond_pool_chain_address mp);
    mret (if pool_atomic =? total_locked_atomic then locked_bonds else ∅).

Definition list_effective_validator_records (t : Tick) (file : list ValidatorRecord)
  : M (list ValidatorRecord) :=
  locked_bonds ← _chain_locked_bonds_by_validator t;
  mret (map (λ r, _chain_backed_validator_record r locked_bonds) (list_validator_records file)).

Definition list_bonded_validators (t : Tick) (file : list ValidatorRecord) : M (list ValidatorRecord) :=
  records ← list_effective_validator_records t file;
  mret (filter (λ r, vr_state r = BONDED ∧ 0 < vr_bonded_atomic r) records).
End chain.

(** ** Committees *)

Record ValidatorCommitteeSnapshot := {
  cs_validator_ids : list string;
  cs_bonded : gmap string Z;
  cs_total_bonded_atomic : Z;
  cs_quorum_bond_atomic : Z
}.

Definition _quorum_bond_atomic (total_bonded_atomic : Z) : Z :=
  if total_bonded_atomic <=? 0 then 0 else (2 * total_bonded_atomic + 2) / 3.

(** [{item.validator_id: item.bonded_atomic for item in bonded}] *)
Definition bonded_map (bonded : list ValidatorRecord) : gmap string Z :=
  foldl (λ (m : gmap string Z) (r : ValidatorRecord),
           <[vr_validator_id r := vr_bonded_atomic r]> m) ∅ bonded.

Definition committee_of (selected : list ValidatorRecord) : ValidatorCommitteeSnapshot :=
  let m := bonded_map selected in
  let total := map_sum m in
  {| cs_validator_ids := map fst (sorted_items m); cs_bonded := m;
     cs_total_bonded_atomic := total; cs_quorum_bond_atomic := _quorum_bond_atomic total |}.

(** [build_validator_committee_snapshot] on the bonded validators. *)
Definition build_validator_committee_snapshot : list ValidatorRecord → ValidatorCommitteeSnapshot :=
  committee_of.

(** The lottery ranks validators by a key computed in floating point from the seed, the
    validator id and the weight ([math.log(u) / weight], with [u] from SHA-256); the key is
    an argument, as an exact rational. *)
Section lottery.
Context (lottery_key : string → string → Z → Q).

(** [sorted(ranked, key=(key, validator_id), reverse=True)] *)
Definition ranked_leb (x y : Q * ValidatorRecord) : bool :=
  if Qeq_bool x.1 y.1 then str_leb (vr_validator_id y.2) (vr_validator_id x.2)
  else Qle_bool y.1 x.1.

Definition _select_weighted_committee (bonded : list ValidatorRecord) (desired_size : Z)
    (selection_seed : string) : list ValidatorRecord :=
  let ranked :=
    map (λ r, (lottery_key selection_seed (vr_validator_id r) (Z.max 1 (vr_bonded_atomic r)), r))
        bonded in
  map snd (take (Z.to_nat desired_size) (py_sorted ranked_leb ranked)).

Definition select_validator_committee_snapshot (selection_seed : string) (target_size : option Z)
    (mp : MoneyPolicy) (bonded : list ValidatorRecord) : ValidatorCommitteeSnapshot :=
  match bonded with
  | [] =>
      {| cs_validator_ids := []; cs_bonded := ∅; cs_total_bonded_atomic := 0;
         cs_quorum_bond_atomic := 0 |}
  | _ =>
      let n := Z.of_nat (length bonded) in
      let desired0 := default (validator_committee_target_size mp) target_size in
      let desired1 := if desired0 <=? 0 then n else desired0 in
      let desired_size := Z.min desired1 n in
      committee_of
        (if n <=? desired_size then bonded
         else _select_weighted_committee bonded desired_size selection_seed)
  end.
End lottery.
