(* ===== verification/Settlement.v ===== *)
(** * Settlements on the chain

    [settlement.py], first part: the chain transactions of an applied settlement, the audit
    of the balances they change, and the accounting check of the workers' payouts. *)
From Stdlib Require Import Ascii.
From S2P Require Import Prelude.
From S2P Require Import PyStr.
From S2P Require Import PyVal.
From S2P Require Import Sha256.
From S2P Require Import Money.
From S2P Require Import Signing.
From S2P Require Import ChainTx.
From S2P Require Import Ledger.
From S2P Require Import ChainStore.
From S2P Require Import ChainOps.
From S2P Require Import Apportion.
From S2P Require Import SettlementData.
From S2P Require Import Validators.
Local Open Scope Z_scope.
Set Default Proof Using "Type".

(** ** The store of the settlement layer *)

(** The chain and the files of settlements, payouts, attestations and validators, and the
    reward addresses of the node configuration. *)
Record SettlementStore := {
  s_chain : ChainStore;
  s_settlements : list SettlementRecord;
  s_payouts : list WorkerPayoutRecord;
  s_attestations : list ValidatorAttestation;
  s_validators : list ValidatorRecord;
  s_rewards : gmap string string
}.

Definition SM (A : Type) : Type := SettlementStore → SettlementStore * result A.

#[export] Instance SM_ret : MRet SM := fun _ a s => (s, Ok a).
#[export] Instance SM_bind : MBind SM := fun _ _ f m s =>
  match m s with (s', Ok a) => f a s' | (s', Err e) => (s', Err e) end.

Definition with_chain (s : SettlementStore) (c : ChainStore) : SettlementStore :=
  {| s_chain := c; s_settlements := s_settlements s; s_payouts := s_payouts s;
     s_attestations := s_attestations s; s_validators := s_validators s; s_rewards := s_rewards s |}.

Definition on_chain {A} (m : M A) : SM A := λ s,
  let '(c, r) := m (s_chain s) in (with_chain s c, r).

Definition sget {A} (f : SettlementStore → A) : SM A := λ s, (s, Ok (f s)).

Definition sraise {A} (e : exn) : SM A := λ s, (s, Err e).

Definition save_settlements (l : list SettlementRecord) : SM unit := λ s,
  ({| s_chain := s_chain s; s_settlements := l; s_payouts := s_payouts s;
      s_attestations := s_attestations s; s_validators := s_validators s;
      s_rewards := s_rewards s |}, Ok tt).

Definition save_worker_payouts (l : list WorkerPayoutRecord) : SM unit := λ s,
  ({| s_chain := s_chain s; s_settlements := s_settlements s; s_payouts := l;
      s_attestations := s_attestations s; s_validators := s_validators s;
      s_rewards := s_rewards s |}, Ok tt).

Definition save_attestations (l : list ValidatorAttestation) : SM unit := λ s,
  ({| s_chain := s_chain s; s_settlements := s_settlements s; s_payouts := s_payouts s;
      s_attestations := l; s_validators := s_validators s; s_rewards := s_rewards s |}, Ok tt).

(** ** The history of a settlement *)

Definition settlement_history_of_blocks (settlement_id : string) (blocks : list ChainBlock)
  : list pyval :=
  (foldl (λ acc b,
     foldl (λ (acc : gset string * list pyval) tx,
       let '(seen, history) := acc in
       if bool_decide (tx_id tx ∈ seen) then acc
       else
         let seen := {[ tx_id tx ]} ∪ seen in
         if negb (String.eqb (str_or_strip (ChainTx.settlement_id tx)) settlement_id)
         then (seen, history)
         else (seen, history ++ [VDict (_chain_transaction_history_entry b tx None)]))
       acc (transactions b)) (∅, []) blocks).2.

Section history.
Context `{SignatureBackend} (env : Environ) (policy : option WalletPolicy).

Definition chain_settlement_history (t : Tick) (settlement_id : string) (limit : option Z)
    (newest_first : bool) : M (list pyval) :=
  let sid := strip settlement_id in
  index_payload ← load_or_rebuild_chain_index env policy t;
  match as_list (dget sid (default [] (as_dict (dget "settlementHistory" index_payload)))) with
  | Some indexed => mret (present_history newest_first limit (map VDict (omap as_dict indexed)))
  | None =>
      blocks ← read (list_chain_blocks env policy (now t));
      mret (present_history newest_first limit (settlement_history_of_blocks sid blocks))
  end.

Definition has_chain_activity_for_address (now address : string) (st : ChainStore) : result bool :=
  blocks ← list_chain_blocks env policy now st;
  Ok (existsb (λ tx, String.eqb (normalize_address (ChainTx.address tx)) (normalize_address address))
        (blocks ≫= transactions)).
End history.

(** ** The entries of a settlement *)

Definition _validator_fee_payout_split (s : SettlementRecord) (amount_atomic : option Z)
  : list ValidatorFeeShare :=
  split_amount_by_validator_bond
    (match amount_atomic with
     | Some a => Z.max 0 a
     | None => Z.max 0 (sr_settlement_fee_atomic s)
     end)
    (sr_committee_bonded s) (Some (sr_committee_validator_ids s)).

Definition _optional_int (v : pyval) : option Z :=
  match py_int v with Ok z => Some z | Err _ => None end.

Definition _settlement_execution_pricing_audit (s : SettlementRecord) : list (string * pyval) :=
  match dget "execution" (sr_balance_audit s) with
  | VDict execution => match dget "pricing" execution with VDict p => p | _ => [] end
  | _ => []
  end.

Definition _settlement_reserved_compute_atomic (s : SettlementRecord) : option Z :=
  _optional_int (dget "reserved_compute_cost_atomic" (_settlement_execution_pricing_audit s)).

Definition _settlement_reservation_surplus_atomic (s : SettlementRecord) : Z :=
  match _optional_int (dget "reservation_surplus_atomic" (_settlement_execution_pricing_audit s)) with
  | Some v => Z.max 0 v
  | None =>
      match _settlement_reserved_compute_atomic s with
      | None => 0
      | Some reserved => Z.max 0 (reserved - sr_compute_cost_atomic s)
      end
  end.

(** A target of the balance audit. *)
Record AuditTarget := {
  au_role : string;
  au_address : string;
  au_wallet_id : pyval;
  au_validator_id : pyval;
  au_node_id : pyval;
  au_payout_id : pyval;
  au_expected_delta_atomic : Z
}.

Definition target (role address : string) (wallet_id : pyval) (delta : Z) : AuditTarget :=
  {| au_role := role; au_address := address; au_wallet_id := wallet_id; au_validator_id := VNone;
     au_node_id := VNone; au_payout_id := VNone; au_expected_delta_atomic := delta |}.

Definition VStrs (l : list string) : pyval := VList (map VStr l).

Section entries.
Context (env : Environ) (now : string) (mp : MoneyPolicy).
Context (s : SettlementRecord).

Local Abbreviation sid := (sr_settlement_id s).
Local Abbreviation net := (network_value (chain_network mp)).

(** [make_chain_transaction] with the arguments every entry shares. *)
Definition entry_tx (tx_type address : string) (delta : Z) (payout_id wallet_id : pyval)
    (note nonce_suffix : string) (md : list (string * pyval)) : ChainTransaction :=
  make_chain_transaction env now tx_type address delta (VStr sid) payout_id wallet_id None
    (VStr note) (Some (sid +:+ ":" +:+ nonce_suffix)) None None md None None (Some net)
    CHAIN_SCHEMA_VERSION.

Definition reward_code_field : string * pyval :=
  ("reward_token_code", VStr (reward_token_code mp)).
Definition funding_source_field : string * pyval := ("funding_source", VStr (sr_funding_source s)).
Definition source_fields : list (string * pyval) :=
  [("source_wallet_id", VStr (sr_source_wallet_id s));
   ("source_wallet_address", VStr (sr_source_wallet_address s))].
Definition committee_fields : list (string * pyval) :=
  [("committee_validator_ids", VStrs (sr_committee_validator_ids s));
   ("committee_quorum_bond_atomic", VInt (sr_committee_quorum_bond_atomic s))].

Definition wallet_debit_entries : list (AuditTarget * ChainTransaction) :=
  let debit := Z.max 0 (sr_source_wallet_debit_atomic s) in
  let source_address := strip (sr_source_wallet_address s) in
  let wid := VStr (sr_source_wallet_id s) in
  if (0 <? debit) && negb (String.eqb source_address "") then
    [(target "source_wallet" source_address wid (- debit),
      entry_tx "settlement_wallet_debit" source_address (- debit) VNone wid
        ("Wallet debit for finalized settlement " +:+ sid +:+ ".") "wallet-debit"
        [reward_code_field; funding_source_field])]
  else [].

Definition surplus_entries : list (AuditTarget * ChainTransaction) :=
  let surplus := _settlement_reservation_surplus_atomic s in
  let source_address := strip (sr_source_wallet_address s) in
  let wid := VStr (sr_source_wallet_id s) in
  if (0 <? surplus) && negb (String.eqb source_address "") then
    [(target "reservation_surplus_release" source_address wid 0,
      entry_tx "settlement_reservation_surplus_release" source_address 0 VNone wid
        ("Reservation surplus released for finalized settlement " +:+ sid +:+ ".")
        "reservation-surplus-release"
        [reward_code_field; funding_source_field;
         ("reserved_compute_cost_atomic",
            match _settlement_reserved_compute_atomic s with Some z => VInt z | None => VNone end);
         ("actual_compute_cost_atomic", VInt (sr_compute_cost_atomic s));
         ("reservation_surplus_atomic", VInt surplus)])]
  else [].

Definition reserve_debit_entries : list (AuditTarget * ChainTransaction) :=
  let debit := Z.max 0 (sr_reserve_debit_atomic s) in
  let reserve_address := compute_reserve_chain_address mp in
  let wid := VStr ("system-compute-reserve-" +:+ net) in
  if 0 <? debit then
    [(target "compute_reserve" reserve_address wid (- debit),
      entry_tx "settlement_compute_reserve_debit" reserve_address (- debit) VNone wid
        ("Compute reserve debit for finalized settlement " +:+ sid +:+ ".") "reserve-debit"
        ([reward_code_field; funding_source_field] ++ source_fields
         ++ [("compute_cost_atomic", VInt (sr_compute_cost_atomic s));
             ("reserve_debit_atomic", VInt debit);
             ("reserve_limit_identity_keys", VStrs (sr_reserve_limit_identity_keys s));
             ("reserve_client_ip_hash",
                match sr_reserve_client_ip_hash s with Some h => VStr h | None => VNone end)]))]
  else [].

(** A validator's share of a fee. *)
Definition validator_entry (validators : list ValidatorRecord) (role tx_type nonce_prefix what : string)
    (total_bonded : Z) (share : ValidatorFeeShare) : AuditTarget * ChainTransaction :=
  let vid := fs_validator_id share in
  let wid := match get_validator_record vid validators with
             | Some r => vr_wallet_id r
             | None => VNone
             end in
  ({| au_role := role; au_address := vid; au_wallet_id := wid; au_validator_id := VStr vid;
      au_node_id := VNone; au_payout_id := VNone;
      au_expected_delta_atomic := fs_amount_atomic share |},
   entry_tx tx_type vid (fs_amount_atomic share) VNone wid
     ("Validator " +:+ what +:+ " fee payout for " +:+ sid +:+ ".") (nonce_prefix +:+ ":" +:+ vid)
     ([reward_code_field; funding_source_field] ++ source_fields
      ++ [("validator_id", VStr vid); ("validator_bonded_atomic", VInt (fs_bonded_atomic share));
          ("committee_total_bonded_atomic", VInt total_bonded)]
      ++ committee_fields ++ [("distribution", VStr "committee_bond_weighted")])).

(** A pool credit of the older scheme is on the chain already. *)
Definition legacy_credit_recorded (tx_type pool_address : string) (history : list pyval) : bool :=
  existsb (λ item,
    match item with
    | VDict d =>
        bool_decide (dget "tx_type" d = VStr tx_type)
        && String.eqb (normalize_address (py_str (py_or (dget "address" d) (VStr ""))))
             (normalize_address pool_address)
    | _ => false
    end) history.
Definition share_sum (shares : list ValidatorFeeShare) : Z := sumZ (map fs_bonded_atomic shares).

(** A fee goes to the committee's members by bond, or to the pool when the committee has no
    bond or the pool was credited before. *)
Definition fee_entries (history : list pyval) (fee : Z)
    (shares : list ValidatorFeeShare) (pool_address : string) (pool_tx_type : string)
    (by_share : ValidatorFeeShare → AuditTarget * ChainTransaction)
    (to_pool : AuditTarget * ChainTransaction) : list (AuditTarget * ChainTransaction) :=
  if 0 <? fee then
    match shares with
    | _ :: _ =>
        if negb (legacy_credit_recorded pool_tx_type pool_address history)
        then map by_share shares else [to_pool]
    | [] => [to_pool]
    end
  else [].

Definition tx_fee_entries (validators : list ValidatorRecord) (history : list pyval)
  : list (AuditTarget * ChainTransaction) :=
  let fee := Z.max 0 (sr_tx_fee_atomic s) in
  let pool := tx_fee_pool_chain_address mp in
  let shares := _validator_fee_payout_split s (Some fee) in
  let wid := VStr ("system-tx-fee-pool-" +:+ net) in
  fee_entries history fee shares pool "settlement_tx_fee_credit"
    (validator_entry validators "validator_tx_fee" "validator_tx_fee_payout" "tx-fee" "tx"
       (share_sum shares))
    (target "tx_fee_pool" pool wid fee,
     entry_tx "settlement_tx_fee_credit" pool fee VNone wid
       ("Transaction fee from finalized settlement " +:+ sid +:+ ".") "tx-fee"
       ([reward_code_field; funding_source_field] ++ source_fields
        ++ [("distribution", VStr "legacy_pool")])).

Definition settlement_fee_entries (validators : list ValidatorRecord) (history : list pyval)
  : list (AuditTarget * ChainTransaction) :=
  let fee := Z.max 0 (sr_settlement_fee_atomic s) in
  let pool := validator_settlement_fee_pool_chain_address mp in
  let shares := _validator_fee_payout_split s None in
  let wid := VStr ("system-validator-settlement-fee-pool-" +:+ net) in
  fee_entries history fee shares pool "settlement_validator_fee_credit"
    (validator_entry validators "validator_settlement_fee" "validator_settlement_fee_payout"
       "validator-settlement-fee" "settlement" (share_sum shares))
    (target "validator_settlement_fee_pool" pool wid fee,
     entry_tx "settlement_validator_fee_credit" pool fee VNone wid
       ("Validator settlement fee from finalized settlement " +:+ sid +:+ ".")
       "validator-settlement-fee"
       ([reward_code_field; funding_source_field] ++ source_fields ++ committee_fields
        ++ [("distribution", VStr "legacy_pool")])).

Definition ai_fee_entries : list (AuditTarget * ChainTransaction) :=
  let fee := Z.max 0 (sr_ai_development_fee_atomic s) in
  let ai_address := strip (default "" (sr_ai_development_address s)) in
  let wid := val_opt (sr_ai_development_wallet_id s) in
  if (0 <? fee) && negb (String.eqb ai_address "") then
    [(target "ai_development_fund" ai_address wid fee,
      entry_tx "ai_development_fee_credit" ai_address fee VNone wid
        ("AI development fee from finalized settlement " +:+ sid +:+ ".") "ai-development-fee"
        [reward_code_field])]
  else [].

(** The recipient of a payout: its own address, or the node's configured reward address. *)
Definition payout_recipient (rewards : gmap string string) (p : WorkerPayoutRecord) : string :=
  or_opt (wp_recipient_address p) (default "" (rewards !! wp_node_id p)).

Definition worker_entry (rewards : gmap string string) (p : WorkerPayoutRecord)
  : option (AuditTarget * ChainTransaction) :=
  let recipient := payout_recipient rewards p in
  if String.eqb recipient "" then None
  else
    let reward := Z.max 0 (wp_reward_atomic p) in
    let wid := val_opt (wp_credited_wallet_id p) in
    Some
      ({| au_role := "worker_reward"; au_address := recipient; au_wallet_id := wid;
          au_validator_id := VNone; au_node_id := VStr (wp_node_id p);
          au_payout_id := VStr (wp_payout_id p); au_expected_delta_atomic := reward |},
       entry_tx "worker_reward_credit" recipient reward (VStr (wp_payout_id p)) wid
         ("Worker reward for node " +:+ wp_node_id p +:+ ".")
         ("worker-reward:" +:+ wp_payout_id p)
         [("node_id", VStr (wp_node_id p)); ("runner_id", val_opt (wp_runner_id p));
          ("model_id", VStr (wp_model_id p)); ("share_bps", VInt (wp_share_bps p));
          ("reward_token_code",
             VStr (or_opt (wp_reward_token_code p) (reward_token_code mp)))]).

(** All entries, in the order they are recorded. *)
Definition settlement_entries (validators : list ValidatorRecord) (rewards : gmap string string)
    (history : list pyval) (payouts : list WorkerPayoutRecord)
  : list (AuditTarget * ChainTransaction) :=
  wallet_debit_entries ++ surplus_entries ++ reserve_debit_entries
  ++ tx_fee_entries validators history ++ settlement_fee_entries validators history
  ++ ai_fee_entries ++ omap (worker_entry rewards) payouts.
End entries.

(** ** Recording them *)

(** The ids and nonces a history holds. *)
Definition history_tx_ids (history : list pyval) : gset string :=
  list_to_set (omap (λ item,
    match item with
    | VDict d => let i := str_or_strip (dget "tx_id" d) in if String.eqb i "" then None else Some i
    | _ => None
    end) history).

Definition history_nonces (history : list pyval) : gset (string * string) :=
  list_to_set (omap (λ item,
    match item with
    | VDict d =>
        if negb (is_none (dget "nonce" d)) && negb (String.eqb (str_or_strip (dget "address" d)) "")
        then Some (normalize_address (py_str (dget "address" d)), py_str (dget "nonce" d)) else None
    | _ => None
    end) history).

(** [_record_if_missing]: the pending transactions with the ids and nonces taken. *)
Definition record_if_missing
    (acc : list ChainTransaction * gset string * gset (string * string)) (tx : ChainTransaction) :=
  let '(pending, ids, nonces) := acc in
  let id := strip (tx_id tx) in
  if negb (String.eqb id "") && bool_decide (id ∈ ids) then acc
  else
    let ids' := if String.eqb id "" then ids else {[ id ]} ∪ ids in
    match nonce tx with
    | None => (pending ++ [tx], ids', nonces)
    | Some n =>
        if bool_decide (nonce_key tx n ∈ nonces) then acc
        else (pending ++ [tx], ids', {[ nonce_key tx n ]} ∪ nonces)
    end.

Definition pending_transactions (history : list pyval) (txs : list ChainTransaction)
  : list ChainTransaction :=
  (foldl record_if_missing ([], history_tx_ids history, history_nonces history) txs).1.1.

Definition with_recipient (p : WorkerPayoutRecord) (address : string) : WorkerPayoutRecord :=
  {| wp_payout_id := wp_payout_id p; wp_created_at := wp_created_at p;
     wp_settlement_id := wp_settlement_id p; wp_receipt_id := wp_receipt_id p;
     wp_model_id := wp_model_id p; wp_node_id := wp_node_id p; wp_runner_id := wp_runner_id p;
     wp_layer_start := wp_layer_start p; wp_layer_end := wp_layer_end p;
     wp_layer_count := wp_layer_count p; wp_share_bps := wp_share_bps p;
     wp_reward_atomic := wp_reward_atomic p; wp_reward_token_code := wp_reward_token_code p;
     wp_recipient_address := Some address; wp_credited_wallet_id := wp_credited_wallet_id p;
     wp_status := wp_status p; wp_note := wp_note p |}.

(** The recipient of a payout is written to the first record with its id. *)
Fixpoint set_recipient (payout_id address : string) (l : list WorkerPayoutRecord) :=
  match l with
  | [] => []
  | p :: l' =>
      if String.eqb (wp_payout_id p) payout_id then with_recipient p address :: l'
      else p :: set_recipient payout_id address l'
  end.

Definition update_recipient (rewards : gmap string string)
    (acc : list WorkerPayoutRecord * bool) (p : WorkerPayoutRecord) :=
  let recipient := payout_recipient rewards p in
  if String.eqb recipient "" || bool_decide (wp_recipient_address p = Some recipient) then acc
  else
    (set_recipient (wp_payout_id p) recipient acc.1,
     acc.2 || bool_decide (wp_payout_id p ∈ map wp_payout_id acc.1)).

Section record.
Context `{SignatureBackend} (env : Environ) (policy : option WalletPolicy).

(** One line of the audit: the balance after, and the balance before computed from it. *)
Definition audit_entry (balance_after : Z) (a : AuditTarget) : pyval :=
  let balance_before := balance_after - au_expected_delta_atomic a in
  VDict
    [("role", VStr (au_role a)); ("address", VStr (strip (au_address a)));
     ("wallet_id", au_wallet_id a); ("validator_id", au_validator_id a);
     ("node_id", au_node_id a); ("payout_id", au_payout_id a);
     ("balance_before_atomic", VInt balance_before); ("balance_after_atomic", VInt balance_after);
     ("expected_delta_atomic", VInt (au_expected_delta_atomic a));
     ("actual_delta_atomic", VInt (balance_after - balance_before));
     ("delta_matches_expected",
        VBool (balance_after - balance_before =? au_expected_delta_atomic a))].

Fixpoint audit_entries (t : Tick) (targets : list AuditTarget) : M (list pyval) :=
  match targets with
  | [] => mret []
  | a :: targets' =>
      if String.eqb (strip (au_address a)) "" then audit_entries t targets'
      else
        balance ← chain_balance_atomic env policy t (strip (au_address a));
        rest ← audit_entries t targets';
        mret (audit_entry balance a :: rest)
  end.

Definition entry_matches (e : pyval) : bool :=
  match e with VDict d => truthy (dget "delta_matches_expected" d) | _ => false end.

Definition with_balance_audit (s : SettlementRecord) (audit : list (string * pyval))
  : SettlementRecord := {|
  sr_settlement_id := sr_settlement_id s; sr_created_at := sr_created_at s;
  sr_source_wallet_id := sr_source_wallet_id s;
  sr_source_wallet_address := sr_source_wallet_address s;
  sr_funding_source := sr_funding_source s; sr_compute_cost_atomic := sr_compute_cost_atomic s;
  sr_tx_fee_atomic := sr_tx_fee_atomic s; sr_settlement_fee_atomic := sr_settlement_fee_atomic s;
  sr_worker_reward_atomic := sr_worker_reward_atomic s;
  sr_committee_selection_seed := sr_committee_selection_seed s;
  sr_committee_target_size := sr_committee_target_size s;
  sr_committee_selection_mode := sr_committee_selection_mode s;
  sr_committee_validator_ids := sr_committee_validator_ids s;
  sr_committee_bonded := sr_committee_bonded s;
  sr_committee_total_bonded_atomic := sr_committee_total_bonded_atomic s;
  sr_committee_quorum_bond_atomic := sr_committee_quorum_bond_atomic s;
  sr_reward_token_code := sr_reward_token_code s;
  sr_ai_development_fee_atomic := sr_ai_development_fee_atomic s;
  sr_ai_development_wallet_id := sr_ai_development_wallet_id s;
  sr_ai_development_address := sr_ai_development_address s;
  sr_ai_development_credited_wallet_id := sr_ai_development_credited_wallet_id s;
  sr_accepted_attestations := sr_accepted_attestations s;
  sr_rejected_attestations := sr_rejected_attestations s;
  sr_accepted_bond_atomic := sr_accepted_bond_atomic s;
  sr_rejected_bond_atomic := sr_rejected_bond_atomic s;
  sr_status := sr_status s; sr_note := sr_note s;
  sr_source_wallet_debit_atomic := sr_source_wallet_debit_atomic s;
  sr_reserve_debit_atomic := sr_reserve_debit_atomic s;
  sr_reserve_limit_identity_keys := sr_reserve_limit_identity_keys s;
  sr_reserve_client_ip_hash := sr_reserve_client_ip_hash s; sr_applied_at := sr_applied_at s;
  sr_applied_by_validator_id := sr_applied_by_validator_id s; sr_balance_audit := audit |}.

(** [settlements[index] = ...] at the first record with the id. *)
Fixpoint update_settlement (i : string) (f : SettlementRecord → SettlementRecord)
    (l : list SettlementRecord) : list SettlementRecord :=
  match l with
  | [] => []
  | s :: l' => if String.eqb (sr_settlement_id s) i then f s :: l' else s :: update_settlement i f l'
  end.

Definition _save_settlement_balance_audit (s : SettlementRecord) (audit : list (string * pyval))
  : SM unit :=
  settlements ← sget (λ st, list_settlements (s_settlements st));
  match List.find (λ x, String.eqb (sr_settlement_id x) (sr_settlement_id s)) settlements with
  | None => mret tt
  | Some _ =>
      save_settlements
        (update_settlement (sr_settlement_id s) (λ x, with_balance_audit x audit) settlements)
  end.

Definition _record_settlement_chain_balance_audit (t : Tick) (s : SettlementRecord)
    (targets : list AuditTarget) (recorded_transactions : Z) : SM unit :=
  entries ← on_chain (audit_entries t targets);
  match entries with
  | [] => mret tt
  | _ =>
      _save_settlement_balance_audit s
        (dset "chain_balances"
           (VDict [("schema_version", VInt 1);
                   ("recorded_transactions", VInt recorded_transactions);
                   ("addresses", VList entries);
                   ("all_expected_deltas_match", VBool (forallb entry_matches entries))])
           (sr_balance_audit s))
  end.

(** [settlement.status != "applied" and not settlement.applied_at] *)
Definition is_applied (s : SettlementRecord) : bool :=
  String.eqb (sr_status s) "applied" || filled (sr_applied_at s).

Definition record_chain_entries_for_settlement (t : Tick) (mp : MoneyPolicy) (s : SettlementRecord)
  : SM Z :=
  if negb (is_applied s) then mret 0
  else
    _ ← on_chain (ensure_chain_genesis env policy t (Some mp));
    history ← on_chain (chain_settlement_history env policy t (sr_settlement_id s) None true);
    validators ← sget s_validators;
    rewards ← sget s_rewards;
    payouts ← sget (λ st, list_worker_payouts (Some (sr_settlement_id s)) (s_payouts st));
    all_payouts ← sget (λ st, list_worker_payouts None (s_payouts st));
    let entries := settlement_entries env (now t) mp s validators rewards history payouts in
    let pending := pending_transactions history (map snd entries) in
    let '(updated, changed) := foldl (update_recipient rewards) (all_payouts, false) payouts in
    _ ← (if (changed : bool) then save_worker_payouts updated else mret tt);
    _ ← (match pending with
         | [] => mret tt
         | _ => _ ← on_chain (append_chain_block env policy t pending
                                (val_opt (sr_applied_by_validator_id s))); mret tt
         end);
    _ ← _record_settlement_chain_balance_audit t s (map fst entries) (Z.of_nat (length pending));
    mret (Z.of_nat (length pending)).

Definition record_chain_entries_for_finalized_settlements (t : Tick) (mp : MoneyPolicy)
    (only_if_chain_recorded : bool) : SM Z :=
  settlements ← sget (λ st, list_settlements (s_settlements st));
  (fix go (l : list SettlementRecord) : SM Z :=
     match l with
     | [] => mret 0
     | s :: l' =>
         if negb (is_applied s) then go l'
         else
           skip ← (if only_if_chain_recorded then
                     h ← on_chain (chain_settlement_history env policy t (sr_settlement_id s)
                                     (Some 1) true);
                     mret (bool_decide (h = []))
                   else mret false);
           n ← (if (skip : bool) then mret 0 else record_chain_entries_for_settlement t mp s);
           rest ← go l';
           mret (n + rest)
     end) settlements.
End record.

(** * Finality of settlements

    [settlement.py], second part: the attestations of the committee's validators and the
    status they give a settlement. *)


(** ** Counting *)

(** The counters of [refresh_settlement_finality]. *)
Record Tally := {
  ta_accepted_bond : Z;
  ta_rejected_bond : Z;
  ta_accepted_count : Z;
  ta_rejected_count : Z;
  ta_seen : gset string
}.

Definition tally_init : Tally :=
  {| ta_accepted_bond := 0; ta_rejected_bond := 0; ta_accepted_count := 0;
     ta_rejected_count := 0; ta_seen := ∅ |}.

(** Only a committee member's first attestation in the list counts. *)
Definition tally_step (committee : list (string * Z)) (ta : Tally) (a : ValidatorAttestation)
  : Tally :=
  match alookup (at_validator_id a) committee with
  | None => ta
  | Some bond =>
      if bool_decide (at_validator_id a ∈ ta_seen ta) then ta
      else
        let yes := at_accepted a in
        {| ta_accepted_bond := ta_accepted_bond ta + (if yes then bond else 0);
           ta_rejected_bond := ta_rejected_bond ta + (if yes then 0 else bond);
           ta_accepted_count := ta_accepted_count ta + (if yes then 1 else 0);
           ta_rejected_count := ta_rejected_count ta + (if yes then 0 else 1);
           ta_seen := {[ at_validator_id a ]} ∪ ta_seen ta |}
  end.

Definition tally (committee : list (string * Z)) (l : list ValidatorAttestation) : Tally :=
  foldl (tally_step committee) tally_init l.

Definition quorum_status (quorum accepted_bond rejected_bond : Z) (applied_at : option string)
  : string :=
  if quorum <=? 0 then "pending"
  else if quorum <=? accepted_bond then (if filled applied_at then "applied" else "finalized")
  else if quorum <=? rejected_bond then "rejected"
  else "pending".

(** The settlement with the counts of its attestations and the status they give it. *)
Definition refreshed (attestations : list ValidatorAttestation) (s : SettlementRecord)
  : SettlementRecord :=
  let ta := tally (sr_committee_bonded s) (list_attestations (sr_settlement_id s) attestations) in
  with_votes s (ta_accepted_count ta) (ta_rejected_count ta) (ta_accepted_bond ta)
    (ta_rejected_bond ta)
    (quorum_status (sr_committee_quorum_bond_atomic s) (ta_accepted_bond ta) (ta_rejected_bond ta)
       (sr_applied_at s)).

Definition refresh_settlement_finality (settlement_id : string) : SM (option SettlementRecord) :=
  settlements ← sget (λ st, list_settlements (s_settlements st));
  attestations ← sget s_attestations;
  match List.find (λ s, String.eqb (sr_settlement_id s) settlement_id) settlements with
  | None => mret None
  | Some s =>
      _ ← save_settlements (update_settlement settlement_id (refreshed attestations) settlements);
      mret (Some (refreshed attestations s))
  end.

(** ** Attesting *)

(** [record_validator_attestation] up to the application of the settlement: the attestation it
    returns and the settlement after its refresh; [attestation_id] and [now] are the random token
    and the clock. *)
Definition record_attestation (attestation_id now settlement_id validator_id : string)
    (accepted : bool) (note : option string) : SM (ValidatorAttestation * option SettlementRecord) :=
  settlement ← sget (λ st, resolve_settlement settlement_id (s_settlements st));
  let committee := match settlement with Some s => sr_committee_validator_ids s | None => [] end in
  if negb (bool_decide (committee = [])) && negb (bool_decide (validator_id ∈ committee)) then
    sraise (ValueError "Validator is not a member of this settlement committee.")
  else
    file ← sget s_attestations;
    match filter (λ a, at_validator_id a = validator_id) (list_attestations settlement_id file) with
    | item :: _ =>
        if Bool.eqb (at_accepted item) accepted then
          settlement ← refresh_settlement_finality settlement_id; mret (item, settlement)
        else sraise (ConflictingAttestationError (at_attestation_id item))
    | [] =>
        let attestation :=
          {| at_attestation_id := attestation_id; at_created_at := now;
             at_settlement_id := settlement_id; at_validator_id := validator_id;
             at_accepted := accepted; at_note := note |} in
        _ ← save_attestations (file ++ [attestation]);
        settlement ← refresh_settlement_finality settlement_id;
        mret (attestation, settlement)
    end.
