(* ===== verification/Demo.v ===== *)
(** * A concrete chain

    The genesis chain of an unconfigured mainnet node and one transfer appended to it,
    evaluated; the executions the properties are exercised on. *)
From Stdlib Require Import Ascii.
From S2P Require Import Prelude.
From S2P Require Import PyStr.
From S2P Require Import PyVal.
From S2P Require Import Sha256.
From S2P Require Import Money.
From S2P Require Import Signing.
From S2P Require Import ChainTx.
From S2P Require Import Ledger.
From S2P Require Import LedgerFacts.
From S2P Require Import Validation.
From S2P Require Import ChainStore.
From S2P Require Import ChainOps.
From S2P Require Import StoreFacts.
From S2P Require Import ChainFacts.
From S2P Require Import Apportion.
From S2P Require Import Validators.
Import Signing.Transparent.
Local Open Scope Z_scope.
Set Default Proof Using "Type".

(** No environment variable is set. *)
Definition no_env : Environ := λ _, None.
Definition mainnet_money : MoneyPolicy := default_money_policy no_env.

Definition empty_store : ChainStore :=
  {| chain_file := None; chain_stat := (0, 0); index_file := None; snapshots_file := None |}.

Definition tick1 : Tick := {| now := "2026-02-01T00:00:00+00:00"; token := "00"; new_stat := (4096, 1) |}.
Definition tick2 : Tick := {| now := "2026-02-02T00:00:00+00:00"; token := "01"; new_stat := (8192, 2) |}.

Definition default_block : ChainBlock :=
  {| block_id := ""; height := 0; created_at := ""; previous_hash := ""; validator_id := VNone;
     transactions := []; block_hash := ""; chain_id := ""; schema_version := 0; tx_root := "";
     state_root := ""; validator_public_key_b64 := None; validator_signature_b64 := None |}.

Definition genesis : ChainBlock :=
  match make_genesis_block no_env mainnet_money with Ok g => g | Err _ => default_block end.

Lemma genesis_made : make_genesis_block no_env mainnet_money = Ok genesis.
Proof. unfold genesis. by destruct (genesis_total no_env mainnet_money) as [g ->]. Qed.

Lemma genesis_validates : validate_chain_blocks no_env None [genesis] = Ok [].
Proof. vm_compute. reflexivity. Qed.

Definition pay (tx_type address : string) (delta : Z) (md : list (string * pyval))
  : ChainTransaction :=
  make_chain_transaction no_env (now tick2) tx_type address delta VNone VNone VNone None VNone
    (Some ("demo:" +:+ tx_type)) None None md None None (Some "mainnet") CHAIN_SCHEMA_VERSION.

(** A validator's bond moves from the reserve to the bond pool. *)
Definition transfer : list ChainTransaction :=
  [pay "validator_bond_lock" (compute_reserve_chain_address mainnet_money) (-5)
     [("validator_id", VStr "val1")];
   pay "validator_bond_pool_credit" (validator_bond_pool_chain_address mainnet_money) 5 []].

Definition demo_validator (id : string) (bond : Z) : ValidatorRecord :=
  {| vr_validator_id := id; vr_wallet_id := VNone; vr_address := id; vr_state := BONDED;
     vr_bonded_atomic := bond; vr_static_ip_confirmed := true; vr_current_node_id := None;
     vr_advertised_api_host := None; vr_advertised_data_host := None; vr_activated_at := None;
     vr_ha_enabled := false; vr_active_replica_node_id := None;
     vr_active_replica_lease_until := None; vr_replica_node_ids := [];
     vr_unbonding_started_at := None; vr_unbonding_available_at := None; vr_jailed_at := None;
     vr_unjail_available_at := None; vr_last_slash_atomic := 0; vr_total_slashed_atomic := 0;
     vr_source := "peer"; vr_source_url := None; vr_last_seen_at := None; vr_updated_at := None |}.

(** One validator backed by the locked bond, one that claims a bond it does not have. *)
Definition demo_validators : list ValidatorRecord := [demo_validator "val1" 5; demo_validator "val2" 9].

Definition genesis_store : ChainStore := (ensure_chain_genesis no_env None tick1 None empty_store).1.

Definition appended : ChainStore * result (option ChainBlock) :=
  append_chain_block no_env None tick2 transfer VNone genesis_store.

Definition appended_something (r : result (option ChainBlock)) : bool :=
  match r with Ok (Some _) => true | _ => false end.
Definition bonded_is (l : list ValidatorRecord) (r : result (list ValidatorRecord)) : bool :=
  match r with Ok l' => bool_decide (l' = l) | Err _ => false end.

(** The append and a read of the bonds it locked, evaluated together. *)
Lemma appended_and_bonded :
  (let ap := append_chain_block no_env None tick2 transfer VNone genesis_store in
   appended_something ap.2
   && bonded_is [demo_validator "val1" 5]
        (list_bonded_validators no_env None tick1 demo_validators ap.1).2) = true.
Proof. vm_compute. reflexivity. Qed.

Lemma appended_ok : appended_something appended.2 = true.
Proof. exact (proj1 (andb_prop _ _ appended_and_bonded)). Qed.

Lemma bonded_is_ok l (p : ChainStore * result (list ValidatorRecord)) :
  bonded_is l p.2 = true → ∃ st, p = (st, Ok l).
Proof.
  destruct p as [st [l'|e]]; cbn [bonded_is snd]; [|done].
  intros Hb%bool_decide_eq_true_1. subst. by exists st.
Qed.

Lemma demo_bonded :
  ∃ st, list_bonded_validators no_env None tick1 demo_validators appended.1
        = (st, Ok [demo_validator "val1" 5]).
Proof. exact (bonded_is_ok _ _ (proj2 (andb_prop _ _ appended_and_bonded))). Qed.

Definition block_of (r : result (option ChainBlock)) : ChainBlock :=
  match r with Ok (Some b) => b | _ => default_block end.
Definition appended_block : ChainBlock := block_of appended.2.

Lemma appended_run :
  append_chain_block no_env None tick2 transfer VNone genesis_store
  = (appended.1, Ok (Some appended_block)).
Proof.
  pose proof appended_ok as Hok. revert Hok. unfold appended_block, appended.
  destruct (append_chain_block no_env None tick2 transfer VNone genesis_store) as [st [[b|]|e]];
    cbn [fst snd block_of appended_something]; [reflexivity|discriminate..].
Qed.

Lemma genesis_stable : stable_block genesis.
Proof. apply (bool_decide_eq_true_1 _). vm_compute. reflexivity. Qed.

Lemma genesis_all_stable : Forall stable_block [genesis].
Proof. apply Forall_singleton, genesis_stable. Qed.

Lemma transfer_stable : Forall stable_tx transfer.
Proof. apply (bool_decide_eq_true_1 _). vm_compute. reflexivity. Qed.

Lemma genesis_valid : valid_chain no_env None [genesis].
Proof.
  pose proof genesis_validates as Hv. apply validate_chain_blocks_spec in Hv as [|Hv]; [done|].
  by rewrite sort_blocks_id in Hv by (repeat constructor).
Qed.

Lemma genesis_installed :
  ensure_chain_genesis no_env None tick1 None empty_store = (genesis_store, Ok 3)
  ∧ saved no_env None tick1 [genesis] genesis_store.
Proof.
  destruct (ensure_genesis_fresh no_env None tick1 empty_store genesis []) as (st & Hrun & Hs);
    [done|apply genesis_made|apply genesis_validates|].
  unfold genesis_store. rewrite Hrun. split; [|done].
  assert (length (transactions genesis) = 3%nat) as -> by (vm_compute; reflexivity). reflexivity.
Qed.

Lemma genesis_listed now : list_chain_blocks no_env None now genesis_store = Ok [genesis].
Proof.
  eapply saved_reload; [apply genesis_installed|apply genesis_all_stable|apply genesis_valid].
Qed.

(** The transfer's transactions, evaluated once. *)
Lemma genesis_ids_fresh : new_txs [genesis] transfer = transfer.
Proof.
  apply new_txs_all_new. apply (bool_decide_eq_true_1 _). vm_compute. reflexivity.
Qed.

Lemma appended_facts :
  (∀ now, list_chain_blocks no_env None now appended.1 = Ok [genesis; appended_block])
  ∧ transactions appended_block = transfer ∧ stable_block appended_block.
Proof.
  assert (∀ now, list_chain_blocks no_env None now appended.1 = Ok ([genesis] ++ [appended_block])
    ∧ transactions appended_block = new_txs [genesis] transfer ∧ stable_block appended_block) as Hall.
  { intros now. apply (append_reload_spec no_env None tick2 now transfer VNone genesis_store);
      [discriminate|apply genesis_listed|apply genesis_all_stable|apply transfer_stable|apply appended_run]. }
  split; [intros now; apply Hall|]. rewrite <- genesis_ids_fresh. apply (Hall "").
Qed.

Lemma appended_readable : readable_chain [genesis; appended_block].
Proof.
  destruct appended_facts as (_ & Htx & _).
  unfold readable_chain, chain_txs. cbn [mbind list_bind]. rewrite Htx, app_nil_r.
  apply Forall_app. split; apply (bool_decide_eq_true_1 _); vm_compute; reflexivity.
Qed.

(** The ids and nonces of the two blocks. *)
Lemma demo_txs : chain_txs [genesis; appended_block] = transactions genesis ++ transfer.
Proof.
  destruct appended_facts as (_ & Htx & _). unfold chain_txs. cbn [mbind list_bind].
  by rewrite Htx, app_nil_r.
Qed.

(** ** A developer-fund round on the genesis chain *)

Definition round_recipients : list (list (string * pyval)) :=
  [[("github", VStr "@Alice"); ("address", VStr "cai_alice"); ("amount_atomic", VInt 700)];
   [("github", VStr "bob"); ("address", VStr "bob"); ("amount_atomic", VInt 300)]].

Definition round_run : ChainStore * result ChainBlock :=
  record_developer_fund_distribution no_env None tick2 "round-1" round_recipients "rh" "ph" None
    VNone None genesis_store.

Lemma round_ok : is_ok round_run.2 = true.
Proof. vm_compute. reflexivity. Qed.

Definition ok_block (r : result ChainBlock) : ChainBlock :=
  match r with Ok b => b | Err _ => default_block end.
Definition round_block : ChainBlock := ok_block round_run.2.

Lemma round_run_eq :
  record_developer_fund_distribution no_env None tick2 "round-1" round_recipients "rh" "ph" None
    VNone None genesis_store = (round_run.1, Ok round_block).
Proof.
  pose proof round_ok as Hok. revert Hok. unfold round_block, round_run.
  destruct (record_developer_fund_distribution _ _ _ _ _ _ _ _ _ _ _) as [st [b|e]];
    cbn [fst snd is_ok ok_block]; [reflexivity|discriminate].
Qed.

Lemma genesis_readable : readable_chain [genesis].
Proof. apply (bool_decide_eq_true_1 _). vm_compute. reflexivity. Qed.

(** ** Signed debits *)

(** A testnet node does not ask for post-quantum signatures by default. *)
Definition testnet_policy : option WalletPolicy := Some (wallet_policy_of no_env TESTNET None None).

Definition demo_seed : list Z := [1; 2; 3; 4].

(** A wallet debit of [address], signed with the demonstration key under the given scheme. *)
Definition unsigned_debit (address : string) (md : list (string * pyval)) : ChainTransaction :=
  make_chain_transaction no_env (now tick2) "wallet_transfer_debit" address (-7) VNone VNone VNone
    None VNone (Some "n1") (Some (encode_bytes demo_seed)) None md None None (Some "testnet")
    CHAIN_SCHEMA_VERSION.

Definition with_signature (tx : ChainTransaction) (sg : string) : ChainTransaction :=
  {| tx_id := tx_id tx; tx_created_at := tx_created_at tx; tx_type := tx_type tx;
     address := address tx; delta_atomic := delta_atomic tx; settlement_id := settlement_id tx;
     payout_id := payout_id tx; wallet_id := wallet_id tx;
     counterparty_address := counterparty_address tx; note := note tx; nonce := nonce tx;
     tx_chain_id := tx_chain_id tx; tx_schema_version := tx_schema_version tx;
     public_key_b64 := public_key_b64 tx; signature_b64 := Some sg; metadata := metadata tx |}.

Definition demo_signature (tx : ChainTransaction) : string :=
  encode_bytes (stamp demo_seed (canonical (VDict (transaction_signing_payload no_env tx)))).

Definition plain_address : string :=
  take_str 32 (sha256_hexdigest (str_of_bytes demo_seed)).

Definition plain_debit : ChainTransaction :=
  let tx := unsigned_debit plain_address [("address_scheme", VStr ADDRESS_SCHEME_ED25519)] in
  with_signature tx (demo_signature tx).

(** The treasury's address, debited under the fixed-address scheme with the demonstration
    key. *)
Definition fixed_metadata (pq_sg : string) : list (string * pyval) :=
  [("address_scheme", VStr ADDRESS_SCHEME_FIXED_WALLET_ID_SHA256);
   ("signing_scheme", VStr SIGNING_SCHEME_HYBRID_ED25519_ML_DSA_65);
   ("pq_signature_scheme", VStr SIGNING_SCHEME_ML_DSA_65);
   ("pq_public_key_b64", VStr (encode_bytes demo_seed)); ("pq_signature_b64", VStr pq_sg)].

Definition fixed_debit : ChainTransaction :=
  let treasury := developer_treasury_address mainnet_money in
  let sg := demo_signature (unsigned_debit treasury (fixed_metadata "x")) in
  with_signature (unsigned_debit treasury (fixed_metadata sg)) sg.
