(* ===== verification/ChainProps.v ===== *)
(** * Properties of the chain *)
From Stdlib Require Import Ascii.
From S2P Require Import Prelude.
From S2P Require Import PyStr.
From S2P Require Import PyVal.
From S2P Require Import Sha256.
From S2P Require Import Money.
From S2P Require Import Signing.
From S2P Require Import ChainTx.
From S2P Require Import Ledger.
From S2P Require Import LedgerFacts.
From S2P Require Import Validation.
From S2P Require Import ChainStore.
From S2P Require Import ChainOps.
From S2P Require Import StoreFacts.
From S2P Require Import ChainFacts.
From S2P Require Import Demo.
Local Open Scope Z_scope.
Set Default Proof Using "Type".

(** ** Validation *)

(** C1: C1: [validate_chain_blocks] reports no error exactly on the empty list and on the block
    lists that, put in order, form a valid chain: every block has the hash of its content,
    continues its predecessor (the first is the policy's genesis block), carries new and
    distinct transaction ids and nonces, correct roots and accepted signatures, no balance
    or locked bond is negative, and the balances sum to the policy's supply. *)
Theorem validate_chain_blocks_correct `{SignatureBackend} (env : Environ)
    (policy : option WalletPolicy) (blocks : list ChainBlock) :
  validate_chain_blocks env policy blocks = Ok []
  ↔ blocks = [] ∨ valid_chain env policy (sort_blocks blocks).
Proof. apply validate_chain_blocks_spec. Qed.

(** C3: on blocks that validate, the balances are exactly distributed: they sum to the total
    supply, and every address holds between zero and the total supply, namely the sum of
    the deltas of its transactions. *)
Theorem validated_balances_conserve_supply `{SignatureBackend} (env : Environ)
    (policy : option WalletPolicy) (blocks : list ChainBlock) (a : string)
    (Hne : blocks ≠ []) (Hv : validate_chain_blocks env policy blocks = Ok []) :
  let supply := supply_of (_money_policy_for_wallet_policy env policy None) in
  let m := chain_balance_index (sort_blocks blocks) in
  map_sum m = supply ∧ 0 ≤ balance_of m a ≤ supply
  ∧ balance_of m a = deltas (of_address a (chain_txs (sort_blocks blocks))).
Proof.
  apply validate_chain_blocks_spec in Hv as [|Hv]; [done|]. split; [|split].
  - rewrite chain_balance_total, (valid_blocks_counted env policy) by apply Hv.
    by apply valid_chain_total.
  - by apply valid_chain_balance_bounds.
  - by rewrite chain_balance_lookup, (valid_blocks_counted env policy) by apply Hv.
Qed.

(** In a chain that validates, block number [i] has height [i] and names the hash of
    block [i - 1] as its predecessor; no transaction id and no (address, nonce) pair occurs
    twice. *)
Theorem validated_chain_is_linked `{SignatureBackend} (env : Environ)
    (policy : option WalletPolicy) (blocks : list ChainBlock)
    (Hv : validate_chain_blocks env policy blocks = Ok []) :
  let ob := sort_blocks blocks in
  (∀ i b, ob !! i = Some b → height b = Z.of_nat i ∧ block_hash b = compute_block_hash env b)
  ∧ (∀ i b b', ob !! i = Some b → ob !! S i = Some b' → previous_hash b' = block_hash b)
  ∧ NoDup (tx_ids_of (chain_txs ob)) ∧ NoDup (tx_nonce_keys (chain_txs ob)).
Proof.
  assert (valid_blocks env policy (sort_blocks blocks)) as Hb.
  { apply validate_chain_blocks_spec in Hv as [->|Hv]; [constructor|apply Hv]. }
  split_and!; [|by intros; eapply valid_blocks_link|by eapply valid_blocks_ids|by eapply valid_blocks_nonces].
  intros i b Hi. split; [by eapply valid_blocks_height|by eapply valid_blocks_hash].
Qed.

(** ** Appending *)

(** C2: a block that [append_chain_block] returns extends the stored chain to a valid one;
    it holds exactly the given transactions whose id was not yet on the chain, and if the
    stored chain was valid the deltas of the new block sum to zero: a transaction list that
    creates or destroys coins is never recorded. *)
Theorem append_chain_block_valid `{SignatureBackend} (env : Environ)
    (policy : option WalletPolicy) (t : Tick) (txs : list ChainTransaction) (vid : pyval)
    (st st' : ChainStore) (b : ChainBlock)
    (Ha : append_chain_block env policy t txs vid st = (st', Ok (Some b))) :
  ∃ blocks, list_chain_blocks env policy (now t) st = Ok blocks
    ∧ valid_chain env policy (blocks ++ [b])
    ∧ tx_ids_of (transactions b) = tx_ids_of (new_txs blocks txs)
    ∧ (valid_chain env policy blocks → deltas (transactions b) = 0).
Proof.
  apply append_inv in Ha as (blocks & Hl & _ & Hb & Hv & _). exists blocks. split_and!; [done..| |].
  - rewrite Hb. apply next_block_ids.
  - intros Hv0. by apply (valid_extension_zero_sum env policy blocks).
Qed.

(** An append that is refused (any error) or that has nothing to add leaves every file of
    the store as it was. *)
Theorem append_chain_block_refusal_keeps_store `{SignatureBackend} (env : Environ)
    (policy : option WalletPolicy) (t : Tick) (txs : list ChainTransaction) (vid : pyval)
    (st st' : ChainStore) (r : result (option ChainBlock))
    (Ha : append_chain_block env policy t txs vid st = (st', r)) (Hr : ∀ b, r ≠ Ok (Some b)) :
  st' = st.
Proof. by eapply append_other. Qed.

(** C4: what was appended is what is read back later, and appending the same transactions
    again does nothing: recording is idempotent. *)
Theorem append_chain_block_durable_idempotent `{SignatureBackend} (env : Environ)
    (policy : option WalletPolicy) (t t' : Tick) (txs : list ChainTransaction)
    (vid vid' : pyval) (st st' : ChainStore) (blocks : list ChainBlock) (b : ChainBlock)
    (Hnow : now t ≠ "") (Hl : list_chain_blocks env policy (now t) st = Ok blocks)
    (Hstable : Forall stable_block blocks) (Htxs : Forall stable_tx txs)
    (Ha : append_chain_block env policy t txs vid st = (st', Ok (Some b))) :
  list_chain_blocks env policy (now t') st' = Ok (blocks ++ [b])
  ∧ append_chain_block env policy t' txs vid' st' = (st', Ok None).
Proof.
  eapply append_reload_spec in Ha as (Hl' & Htx & _); [|done..]. split; [exact Hl'|].
  by apply (append_known _ _ _ _ _ _ (blocks ++ [b])), new_txs_recorded.
Qed.

(** A transaction that reuses an (address, nonce) pair of the chain under a new id is
    refused with the duplicate-nonce error, whatever else it carries. *)
Theorem append_refuses_nonce_replay `{SignatureBackend} (env : Environ)
    (policy : option WalletPolicy) (t : Tick) (tx : ChainTransaction) (n : string) (vid : pyval)
    (st : ChainStore) (blocks : list ChainBlock) (msg : option string)
    (Hl : list_chain_blocks env policy (now t) st = Ok blocks)
    (Hid : tx_id tx ∉ chain_tx_ids blocks) (Hchain : tx_chain_id tx = active_chain_id env policy)
    (Hschema : tx_schema_version tx = CHAIN_SCHEMA_VERSION)
    (Hsig : verify_chain_transaction_signature env policy tx = Ok (true, msg))
    (Hn : nonce tx = Some n) (Hused : nonce_key tx n ∈ _chain_transaction_nonces blocks) :
  append_chain_block env policy t [tx] vid st
  = (st, Err (ValueError ("Refusing duplicate nonce '" +:+ n +:+ "' for address '"
                          +:+ address tx +:+ "'."))).
Proof.
  unfold append_chain_block. rewrite (read_bind_ok _ _ _ _ Hl).
  rewrite (filter_cons_True _ tx) by done. rewrite M_bind_eq. unfold lift at 1. cbn [foldM].
  unfold check_new_tx. rewrite Hchain, (proj2 (String.eqb_neq _ _) (active_chain_id_nonempty env policy)).
  rewrite Hchain, String.eqb_refl, Hschema. cbn [negb Z.eqb CHAIN_SCHEMA_VERSION Pos.eqb].
  rewrite Hsig. cbn [mbind result_bind fst snd negb]. rewrite Hn, bool_decide_eq_true_2 by done. done.
Qed.

(** ** Index *)

(** C6: the index document is built in one pass over the blocks, and what it records is what
    is computed from the blocks: the balances, the locked validator bonds, and for every
    address its history, whose last entry carries the current balance. *)
Theorem chain_index_agrees_with_blocks `{SignatureBackend} (env : Environ)
    (policy : option WalletPolicy) (now : string) (st : ChainStore) (blocks : list ChainBlock)
    (ip : list (string * pyval) * list (string * pyval)) (a : string)
    (Hip : _build_chain_index_payloads env policy now st blocks = Ok ip) :
  let ob := sort_blocks blocks in
  let histories := default [] (as_dict (dget "addressHistory" ip.1)) in
  dget "balancesAtomic" ip.1 = int_dict (chain_balance_index ob)
  ∧ dget "validatorLockedBondAtomic" ip.1 = int_dict (validator_locked_bond_index ob)
  ∧ default [] (as_list (dget a histories)) = address_history_of_blocks a None ob
  ∧ (∀ e, last (address_history_of_blocks a None ob) = Some e →
       ∃ d, e = VDict d ∧ dget "balance_after_atomic" d = VInt (balance_of (chain_balance_index ob) a)).
Proof.
  destruct (build_index_balances env policy now st blocks ip Hip) as (Hbal & Hbond & _).
  split; [exact Hbal|]. split; [exact Hbond|]. split; [|intros e; apply address_history_last].
  by apply (build_index_history env policy now st).
Qed.

(** After an append, the balances read through the index are those of the extended chain:
    every address has its previous balance plus the deltas of its transactions in the new
    block. *)
Theorem append_updates_indexed_balances `{SignatureBackend} (env : Environ)
    (policy : option WalletPolicy) (t t' : Tick) (txs : list ChainTransaction) (vid : pyval)
    (st st' : ChainStore) (blocks : list ChainBlock) (b : ChainBlock)
    (Hnow : now t ≠ "") (Hl : list_chain_blocks env policy (now t) st = Ok blocks)
    (Hstable : Forall stable_block blocks) (Htxs : Forall stable_tx txs)
    (Hread : readable_chain (blocks ++ [b]))
    (Ha : append_chain_block env policy t txs vid st = (st', Ok (Some b))) :
  ∃ st'' m, stored_balance_index env policy t' st' = (st'', Ok m)
    ∧ ∀ a, balance_of m a
           = balance_of (chain_balance_index blocks) a + deltas (of_address a (transactions b)).
Proof.
  destruct (append_reload_spec env policy t "" txs vid st st' b blocks) as (_ & _ & Hsb); [done..|].
  apply append_inv in Ha as (blocks' & Hl' & _ & _ & Hv & Hs).
  rewrite Hl in Hl'. apply (inj Ok) in Hl' as <-.
  assert (Forall stable_block (blocks ++ [b])) by (apply Forall_app; by split; [|apply Forall_singleton]).
  assert (blocks ++ [b] ≠ []) by (by destruct blocks).
  destruct (stored_balances_saved env policy t t' (blocks ++ [b]) st') as (st'' & Hrun & _); [done..|].
  exists st'', (chain_balance_index (blocks ++ [b])). split; [exact Hrun|]. intros a.
  apply (valid_extension_balance env policy), Hv.
Qed.

(** ** Genesis *)

(** For every environment and network, the three genesis allocations (compute reserve,
    developer contribution fund, founder treasury) are positive and add up to the total
    supply, 85%, 10% and 5% of it. *)
Lemma genesis_allocates_supply (env : Environ) (net : ChainNetwork) :
  let mp := money_policy_of env net in
  ∃ r f d, genesis_chain_transactions env mp = Ok [r; f; d]
    ∧ 100 * delta_atomic r = 85 * supply_of mp ∧ 100 * delta_atomic f = 10 * supply_of mp
    ∧ 100 * delta_atomic d = 5 * supply_of mp
    ∧ deltas [r; f; d] = supply_of mp ∧ Forall (λ tx, 0 < delta_atomic tx) [r; f; d].
Proof.
  cbn zeta. unfold genesis_chain_transactions. rewrite !coins_to_atomic_whole.
  cbn [mbind result_bind]. do 3 eexists. split; [reflexivity|].
  split_and!; try reflexivity. repeat constructor.
Qed.

(** On an unconfigured node the mainnet genesis block has the hash the project pins, it
    validates, and it credits the reserve, the fund and the treasury with 850, 100 and 50
    million coins in atomic units. *)
Theorem mainnet_genesis_pinned :
  block_hash genesis = "ab40ac7f1841e6a5fef442cca396d326225da22062941ef4f286c3d8ce5e9a3f"
  ∧ make_genesis_block no_env mainnet_money = Ok genesis
  ∧ validate_chain_blocks (H:=Transparent.backend) no_env None [genesis] = Ok []
  ∧ map (balance_of (chain_balance_index [genesis]))
      [compute_reserve_chain_address mainnet_money;
       developer_contribution_fund_chain_address mainnet_money;
       developer_treasury_address mainnet_money]
    = [85000000000000000; 10000000000000000; 5000000000000000].
Proof.
  split; [vm_compute; reflexivity|]. split; [apply genesis_made|].
  split; [apply genesis_validates|vm_compute; reflexivity].
Qed.

(** C12: [ensure_chain_genesis] installs the genesis block on an empty store, reporting its
    transactions, and does nothing when it is called again. *)
Theorem ensure_chain_genesis_idempotent `{SignatureBackend} (env : Environ)
    (policy : option WalletPolicy) (t t' : Tick) (st : ChainStore) (g : ChainBlock)
    (Hempty : chain_file st = None)
    (Hg : make_genesis_block env (_money_policy_for_wallet_policy env policy None) = Ok g)
    (Hs : stable_block g) (Hv : validate_chain_blocks env policy [g] = Ok []) :
  ∃ st', ensure_chain_genesis env policy t None st
         = (st', Ok (Z.of_nat (length (transactions g))))
    ∧ list_chain_blocks env policy (now t') st' = Ok [g]
    ∧ ensure_chain_genesis env policy t' None st' = (st', Ok 0).
Proof.
  destruct (ensure_genesis_fresh env policy t st g [] Hempty Hg Hv) as (st' & Hrun & Hsaved).
  assert (list_chain_blocks env policy (now t') st' = Ok [g]) as Hl.
  { eapply saved_reload; [done|by apply Forall_singleton|].
    apply validate_sorted_iff in Hv; [apply Hv|done|repeat constructor]. }
  exists st'. split_and!; [done..|]. by apply (ensure_genesis_noop env policy t' g []).
Qed.

(** ** Developer fund *)

(** A recorded developer-fund round moves exactly the requested amounts: all of them
    positive, together at most the fund's balance, the block holding the debit and one
    credit per recipient and nothing else, and every balance changing by the deltas of those
    transactions. *)
Theorem developer_fund_round_exact `{SignatureBackend} (env : Environ)
    (policy : option WalletPolicy) (t t0 : Tick) (rid : string)
    (recipients : list (list (string * pyval))) (rh ph : string) (commit : option string)
    (vid : pyval) (g : ChainBlock) (rest : list ChainBlock) (st st' : ChainStore) (b : ChainBlock)
    (Hg : make_genesis_block env (_money_policy_for_wallet_policy env policy None) = Ok g)
    (Hsaved : saved env policy t0 (g :: rest) st) (Hstable : Forall stable_block (g :: rest))
    (Hv : valid_chain env policy (g :: rest)) (Hread : readable_chain (g :: rest))
    (Hrec : record_developer_fund_distribution env policy t rid recipients rh ph commit vid None st
            = (st', Ok b)) :
  ∃ rs s, foldM prepare_recipient ([], ∅, 0) (enumerate recipients) = Ok (rs, s, amounts rs)
    ∧ Forall (λ r, 0 < fr_amount_atomic r) rs
    ∧ amounts rs ≤ balance_of (chain_balance_index (g :: rest))
        (developer_contribution_fund_chain_address (_money_policy_for_wallet_policy env policy None))
    ∧ transactions b
      = round_txs env policy t (strip rid) (round_metadata env policy (strip rid) rh ph commit) rs
    ∧ (∀ a, balance_of (chain_balance_index ((g :: rest) ++ [b])) a
            = balance_of (chain_balance_index (g :: rest)) a
              + deltas (of_address a (transactions b))).
Proof.
  destruct (record_fund_spec env policy t t0 rid recipients rh ph commit vid g rest st st' b
              Hg Hsaved Hstable Hv Hread Hrec) as (rs & s & Hp & Hpos & Hle & Htx & Hv').
  exists rs, s. split_and!; [done..|]. intros a. apply (valid_extension_balance env policy), Hv'.
Qed.

(** ** Signatures *)

(** C5: a transaction that must be signed is accepted only with a signature that verifies
    under the keys it carries; with the plain and the hybrid schemes the keys must hash to
    the transaction's address, and the plain scheme is accepted only where the policy does
    not require post-quantum signatures. *)
Theorem signed_transaction_authorised `{SignatureBackend} (env : Environ)
    (policy : option WalletPolicy) (tx : ChainTransaction) (msg : option string)
    (Hreq : signature_required tx = true)
    (Hok : verify_chain_transaction_signature env policy tx = Ok (true, msg)) :
  ∃ pk sg, public_key_b64 tx = Some pk ∧ signature_b64 tx = Some sg
    ∧ let scheme := str_or_strip (dget "address_scheme" (metadata tx)) in
      let pq_pk := str_or_strip (dget "pq_public_key_b64" (metadata tx)) in
      let pq_sg := str_or_strip (dget "pq_signature_b64" (metadata tx)) in
      let payload := VDict (transaction_signing_payload env tx) in
      verify_payload_signature pk sg payload = true
      ∧ ((scheme = ADDRESS_SCHEME_ED25519
          ∧ require_post_quantum_wallet_signatures (default (default_wallet_policy env) policy) = false
          ∧ address_from_public_key_b64 pk = Ok (normalize_address (address tx)))
         ∨ (verify_payload_mldsa65_signature pq_pk pq_sg payload = true
            ∧ ((scheme ∈ HYBRID_ADDRESS_SCHEMES
                ∧ hybrid_address_from_public_keys_b64 pk pq_pk scheme
                  = Ok (normalize_address (address tx)))
               ∨ scheme = ADDRESS_SCHEME_FIXED_WALLET_ID_SHA256))).
Proof. by apply (verify_signature_cases env policy tx msg). Qed.

(** With the fixed-address scheme the address is not tied to the keys: a debit of any
    address is accepted as soon as the two signatures verify under the public keys carried
    by the transaction itself. *)
Theorem fixed_address_scheme_binds_no_key `{SignatureBackend} (env : Environ)
    (policy : option WalletPolicy) (tx : ChainTransaction) (pk sg : string)
    (Hpk : public_key_b64 tx = Some pk) (Hsg : signature_b64 tx = Some sg)
    (Hpk' : pk ≠ "") (Hsg' : sg ≠ "")
    (Hscheme : str_or_strip (dget "address_scheme" (metadata tx))
               = ADDRESS_SCHEME_FIXED_WALLET_ID_SHA256)
    (Hsigning : str_or_strip (dget "signing_scheme" (metadata tx))
                = SIGNING_SCHEME_HYBRID_ED25519_ML_DSA_65)
    (Hpq : str_or_strip (dget "pq_signature_scheme" (metadata tx)) = SIGNING_SCHEME_ML_DSA_65)
    (Hpqk : str_or_strip (dget "pq_public_key_b64" (metadata tx)) ≠ "")
    (Hpqs : str_or_strip (dget "pq_signature_b64" (metadata tx)) ≠ "")
    (Hver : verify_hybrid_payload_signature pk sg
              (str_or_strip (dget "pq_public_key_b64" (metadata tx)))
              (str_or_strip (dget "pq_signature_b64" (metadata tx)))
              (VDict (transaction_signing_payload env tx)) = true) :
  verify_chain_transaction_signature env policy tx = Ok (true, None).
Proof.
  unfold verify_chain_transaction_signature. destruct (negb (signature_required tx)); [done|].
  rewrite Hpk, Hsg. cbn [filled default from_option id].
  rewrite (proj2 (String.eqb_neq _ _) Hpk'), (proj2 (String.eqb_neq _ _) Hsg'). cbn [negb].
  rewrite Hscheme, Hsigning, Hpq. cbn zeta.
  rewrite (proj2 (String.eqb_neq _ _) Hpqk), (proj2 (String.eqb_neq _ _) Hpqs), Hver. done.
Qed.

(** * Witnesses for the properties of the chain

    Each property with hypotheses, applied to the concrete chain of [Demo]. *)

Import Signing.Transparent.

Lemma validated_balances_conserve_supply_witness :
  let supply := supply_of mainnet_money in
  let m := chain_balance_index (sort_blocks [genesis]) in
  map_sum m = supply ∧ 0 ≤ balance_of m "alice" ≤ supply
  ∧ balance_of m "alice" = deltas (of_address "alice" (chain_txs (sort_blocks [genesis]))).
Proof.
  apply (validated_balances_conserve_supply no_env None [genesis] "alice");
    [done|apply genesis_validates].
Defined.

Lemma validated_chain_is_linked_witness :
  (∀ i b, sort_blocks [genesis] !! i = Some b →
     height b = Z.of_nat i ∧ block_hash b = compute_block_hash no_env b)
  ∧ NoDup (tx_nonce_keys (chain_txs (sort_blocks [genesis]))).
Proof.
  destruct (validated_chain_is_linked no_env None [genesis] genesis_validates) as (Hh & _ & _ & Hn).
  split; [exact Hh|exact Hn].
Defined.

Lemma append_chain_block_valid_witness :
  ∃ blocks, list_chain_blocks no_env None (now tick2) genesis_store = Ok blocks
    ∧ valid_chain no_env None (blocks ++ [appended_block])
    ∧ tx_ids_of (transactions appended_block) = tx_ids_of (new_txs blocks transfer)
    ∧ (valid_chain no_env None blocks → deltas (transactions appended_block) = 0).
Proof. apply (append_chain_block_valid _ _ _ _ _ _ _ _ appended_run). Defined.

(** A transaction of another network. *)
Definition foreign_tx : ChainTransaction := with_chain_id (pay "worker_credit" "alice" 5 []) "testnet".

Lemma append_chain_block_refusal_keeps_store_witness :
  (append_chain_block no_env None tick2 [foreign_tx] VNone empty_store).1 = empty_store.
Proof.
  apply (append_chain_block_refusal_keeps_store no_env None tick2 [foreign_tx] VNone empty_store _
           (append_chain_block no_env None tick2 [foreign_tx] VNone empty_store).2);
    [apply surjective_pairing|intros b; vm_compute; discriminate].
Defined.

Lemma append_chain_block_durable_idempotent_witness :
  list_chain_blocks no_env None (now tick1) appended.1 = Ok ([genesis] ++ [appended_block])
  ∧ append_chain_block no_env None tick1 transfer VNone appended.1
    = (appended.1, Ok None).
Proof.
  apply (append_chain_block_durable_idempotent no_env None tick2 tick1 transfer VNone VNone
           genesis_store appended.1 [genesis] appended_block);
    [discriminate|apply genesis_listed|apply genesis_all_stable
    |apply transfer_stable|apply appended_run].
Defined.

(** The transfer's debit again, under another id. *)
Definition replayed_tx : ChainTransaction :=
  make_chain_transaction no_env (now tick2) "validator_bond_lock"
    (compute_reserve_chain_address mainnet_money) (-5) VNone VNone VNone None VNone
    (Some "demo:validator_bond_lock") None None [] (Some "replay") None (Some "mainnet")
    CHAIN_SCHEMA_VERSION.

Lemma append_refuses_nonce_replay_witness :
  append_chain_block no_env None tick1 [replayed_tx] VNone appended.1
  = (appended.1, Err (ValueError ("Refusing duplicate nonce '" +:+ "demo:validator_bond_lock"
                                  +:+ "' for address '" +:+ address replayed_tx +:+ "'."))).
Proof.
  destruct appended_facts as (Hl & Htx & _).
  apply (append_refuses_nonce_replay no_env None tick1 replayed_tx "demo:validator_bond_lock" VNone
           appended.1 [genesis; appended_block] None);
    [apply Hl| |reflexivity|reflexivity|vm_compute; reflexivity|reflexivity|].
  - rewrite chain_tx_ids_spec, demo_txs. intros (tx & Hin & Hid).
    assert (forallb (λ tx, negb (String.eqb (tx_id tx) "replay")) (transactions genesis ++ transfer) = true)
      as Hall by (vm_compute; reflexivity).
    rewrite forallb_forall in Hall. apply list_elem_of_In, Hall in Hin. by rewrite Hid in Hin.
  - unfold _chain_transaction_nonces. rewrite elem_of_list_to_set, list_elem_of_bind.
    exists appended_block. rewrite Htx. split; [apply list_elem_of_In; left; vm_compute; reflexivity|].
    apply list_elem_of_In. right. left. reflexivity.
Defined.

Lemma chain_index_agrees_with_blocks_witness :
  ∃ ip, _build_chain_index_payloads no_env None "" genesis_store [genesis] = Ok ip
    ∧ dget "balancesAtomic" ip.1 = int_dict (chain_balance_index (sort_blocks [genesis])).
Proof.
  destruct (build_index_total no_env None "" genesis_store [genesis] [] genesis_validates) as [ip Hip].
  exists ip. split; [exact Hip|].
  exact (proj1 (chain_index_agrees_with_blocks no_env None "" genesis_store [genesis] ip "alice" Hip)).
Defined.

Lemma append_updates_indexed_balances_witness :
  ∃ st'' m, stored_balance_index no_env None tick1 appended.1 = (st'', Ok m)
    ∧ ∀ a, balance_of m a = balance_of (chain_balance_index [genesis]) a
                            + deltas (of_address a (transactions appended_block)).
Proof.
  apply (append_updates_indexed_balances no_env None tick2 tick1 transfer VNone genesis_store
           appended.1 [genesis] appended_block);
    [discriminate|apply genesis_listed|apply genesis_all_stable|apply transfer_stable
    |apply appended_readable|apply appended_run].
Defined.

Lemma ensure_chain_genesis_idempotent_witness :
  ∃ st', ensure_chain_genesis no_env None tick1 None empty_store
         = (st', Ok (Z.of_nat (length (transactions genesis))))
    ∧ list_chain_blocks no_env None (now tick2) st' = Ok [genesis]
    ∧ ensure_chain_genesis no_env None tick2 None st' = (st', Ok 0).
Proof.
  apply (ensure_chain_genesis_idempotent no_env None tick1 tick2 empty_store genesis);
    [reflexivity|apply genesis_made|apply genesis_stable|apply genesis_validates].
Defined.

Lemma developer_fund_round_exact_witness :
  ∃ rs s, foldM prepare_recipient ([], ∅, 0) (enumerate round_recipients) = Ok (rs, s, amounts rs)
    ∧ Forall (λ r, 0 < fr_amount_atomic r) rs
    ∧ amounts rs ≤ balance_of (chain_balance_index [genesis])
        (developer_contribution_fund_chain_address mainnet_money)
    ∧ transactions round_block
      = round_txs no_env None tick2 (strip "round-1")
          (round_metadata no_env None (strip "round-1") "rh" "ph" None) rs
    ∧ (∀ a, balance_of (chain_balance_index ([genesis] ++ [round_block])) a
            = balance_of (chain_balance_index [genesis]) a
              + deltas (of_address a (transactions round_block))).
Proof.
  exact (developer_fund_round_exact no_env None tick2 tick1 "round-1" round_recipients "rh" "ph"
           None VNone genesis [] genesis_store round_run.1 round_block genesis_made
           (proj2 genesis_installed) genesis_all_stable genesis_valid genesis_readable round_run_eq).
Defined.

Lemma signed_transaction_authorised_witness :
  ∃ pk sg, public_key_b64 plain_debit = Some pk ∧ signature_b64 plain_debit = Some sg
    ∧ verify_payload_signature pk sg (VDict (transaction_signing_payload no_env plain_debit)) = true.
Proof.
  destruct (signed_transaction_authorised no_env testnet_policy plain_debit None)
    as (pk & sg & Hpk & Hsg & Hv & _); [vm_compute; reflexivity..|].
  exists pk, sg. split; [exact Hpk|]. split; [exact Hsg|exact Hv].
Defined.

Lemma fixed_address_scheme_binds_no_key_witness :
  address fixed_debit = developer_treasury_address mainnet_money
  ∧ verify_chain_transaction_signature no_env testnet_policy fixed_debit = Ok (true, None).
Proof.
  split; [vm_compute; reflexivity|].
  eapply (fixed_address_scheme_binds_no_key no_env testnet_policy fixed_debit);
    [reflexivity|reflexivity|vm_compute; discriminate|vm_compute; discriminate
    |reflexivity|reflexivity|reflexivity|vm_compute; discriminate|vm_compute; discriminate
    |vm_compute; reflexivity].
Defined.
