(* ===== verification/PeerPayload.v ===== *)
(** * Signed peer payloads

    [peer_payload.py]: the network and genesis metadata of a payload exchanged between
    nodes, and its signature. *)
From Stdlib Require Import Ascii.
From S2P Require Import Prelude.
From S2P Require Import PyStr.
From S2P Require Import PyVal.
From S2P Require Import Sha256.
From S2P Require Import Money.
From S2P Require Import Signing.
From S2P Require Import ChainTx.
From S2P Require Import Ledger.
Local Open Scope Z_scope.
Set Default Proof Using "Type".

Definition PEER_PAYLOAD_SCHEMA_VERSION : Z := 1.
Definition PEER_PAYLOAD_SIGNATURE_SCHEME_ED25519 : string := "cai-peer-payload-ed25519-v1".
Definition PEER_PAYLOAD_SIGNATURE_SCHEME_HYBRID : string :=
  "cai-peer-payload-hybrid-ed25519-ml-dsa-65-v1".

(** ** Metadata *)

Definition policy_network (env : Environ) (policy : option WalletPolicy) : ChainNetwork :=
  resolve_active_chain_network env
    (match policy with Some wp => NetworkMember (wp_chain_network wp) | None => NoNetwork end).

Definition policy_chain_id (env : Environ) (policy : option WalletPolicy) : string :=
  network_value (policy_network env policy).

Definition policy_genesis_hash (env : Environ) (policy : option WalletPolicy) : result string :=
  g ← make_genesis_block env (money_policy_of env (policy_network env policy));
  Ok (block_hash g).

(** The first of the keys with a non-blank value. *)
Fixpoint _metadata_value (payload : list (string * pyval)) (keys : list string) : string :=
  match keys with
  | [] => ""
  | k :: keys' =>
      let value := str_or_strip (dget k payload) in
      if String.eqb value "" then _metadata_value payload keys' else value
  end.

Definition genesis_hash_keys : list string :=
  ["genesis_hash"; "genesisHash"; "chain_genesis_hash"; "chainGenesisHash"].

Definition is_height_zero (raw : pyval) : bool :=
  match raw with
  | VDict d =>
      match py_int (py_or (dget "height" d) (VInt 0)) with Ok z => z =? 0 | Err _ => false end
  | _ => false
  end.

Definition _payload_genesis_block (raw_blocks : list pyval) : option (list (string * pyval)) :=
  match List.find is_height_zero raw_blocks with
  | Some (VDict d) => Some d
  | _ => match raw_blocks with VDict d :: _ => Some d | _ => None end
  end.

(** The hash the block list of a payload names. *)
Definition blocks_genesis_hash (payload : list (string * pyval)) : string :=
  match dget "blocks" payload with
  | VList (b :: bs) =>
      match _payload_genesis_block (b :: bs) with
      | Some g => lower (str_or_strip (dget "block_hash" g))
      | None => ""
      end
  | _ => ""
  end.

Definition singleton_if_filled (s : string) : gset string := if String.eqb s "" then ∅ else {[ s ]}.

(** [_payload_genesis_hashes]: the payload's own, those of the nested chain, and the one of
    its block list. *)
Fixpoint _payload_genesis_hashes (payload : pyval) : gset string :=
  match payload with
  | VDict d =>
      singleton_if_filled (lower (_metadata_value d genesis_hash_keys))
      ∪ (fix nested (e : list (string * pyval)) : gset string :=
           match e with
           | [] => ∅
           | (k, x) :: e' =>
               if String.eqb "chain" k
               then match x with VDict _ => _payload_genesis_hashes x | _ => ∅ end
               else nested e'
           end) d
      ∪ singleton_if_filled (blocks_genesis_hash d)
  | _ => ∅
  end.

(** [_payload_genesis_hash]: the first of the same places. *)
Fixpoint _payload_genesis_hash (payload : pyval) : string :=
  match payload with
  | VDict d =>
      let direct := lower (_metadata_value d genesis_hash_keys) in
      let nested :=
        (fix nested (e : list (string * pyval)) : string :=
           match e with
           | [] => ""
           | (k, x) :: e' =>
               if String.eqb "chain" k
               then match x with VDict _ => _payload_genesis_hash x | _ => "" end
               else nested e'
           end) d in
      or_str direct (or_str nested (blocks_genesis_hash d))
  | _ => ""
  end.

(** [{**payload, ...}] *)
Definition add_peer_payload_metadata (env : Environ) (payload : list (string * pyval))
    (policy : option WalletPolicy) : result (list (string * pyval)) :=
  let chain_id := policy_chain_id env policy in
  let payload_genesis_hash := _payload_genesis_hash (VDict payload) in
  genesis_hash ← (if String.eqb payload_genesis_hash "" then policy_genesis_hash env policy
                  else Ok payload_genesis_hash);
  Ok (dset "schema_version" (VInt PEER_PAYLOAD_SCHEMA_VERSION)
       (dset "genesis_hash" (VStr genesis_hash)
         (dset "chain_id" (VStr chain_id)
           (dset "network" (VStr chain_id) payload)))).

Definition refusing (payload_name what : string) : exn :=
  ValueError ("Refusing " +:+ payload_name +:+ " payload " +:+ what).

(** The schema version a payload states, if any. *)
Definition check_schema_version (payload : list (string * pyval)) (payload_name : string)
  : result unit :=
  let raw := match dlookup "schema_version" payload with
             | Some v => v
             | None => dget "schemaVersion" payload
             end in
  if is_none raw || bool_decide (raw = VStr "") then Ok tt
  else match py_int raw with
       | Err _ => Err (refusing payload_name ("with invalid schema_version '" +:+ py_str raw +:+ "'."))
       | Ok v =>
           if negb (v =? PEER_PAYLOAD_SCHEMA_VERSION) then
             Err (refusing payload_name
                    ("with unsupported schema_version '" +:+ str_of_Z v +:+ "'. Expected "
                     +:+ str_of_Z PEER_PAYLOAD_SCHEMA_VERSION +:+ "."))
           else Ok tt
       end.

(** [sorted(s)] for a set of strings. *)
Definition sorted_set (s : gset string) : list string := py_sorted str_leb (elements s).

Definition validate_peer_payload_network (env : Environ) (payload : pyval)
    (policy : option WalletPolicy) (payload_name : string) : result (option string) :=
  match payload with
  | VDict d =>
      _ ← check_schema_version d payload_name;
      let payload_chain_id := _metadata_value d ["chain_id"; "chainId"] in
      let payload_network := _metadata_value d ["network"; "chain_network"; "chainNetwork"] in
      let normalized_chain_id := lower payload_chain_id in
      let normalized_network := lower payload_network in
      if negb (String.eqb normalized_chain_id "") && negb (String.eqb normalized_network "")
         && negb (String.eqb normalized_chain_id normalized_network) then
        Err (refusing payload_name ("with mismatched chain_id '" +:+ payload_chain_id
                                    +:+ "' and network '" +:+ payload_network +:+ "'."))
      else
      let local_network := policy_chain_id env policy in
      let incoming_network := or_str normalized_chain_id normalized_network in
      if String.eqb incoming_network "" then
        Err (refusing payload_name "without network metadata.")
      else if negb (String.eqb incoming_network local_network) then
        Err (refusing payload_name ("for network '" +:+ incoming_network +:+ "' on '"
                                    +:+ local_network +:+ "'."))
      else
      match sorted_set (_payload_genesis_hashes payload) with
      | [] => Err (refusing payload_name ("without genesis_hash for network '" +:+ local_network +:+ "'."))
      | [payload_genesis_hash] =>
          local_genesis_hash ← policy_genesis_hash env policy;
          if negb (String.eqb payload_genesis_hash local_genesis_hash) then
            Err (refusing payload_name ("for genesis_hash '" +:+ payload_genesis_hash +:+ "' on '"
                                        +:+ local_genesis_hash +:+ "'."))
          else Ok (Some incoming_network)
      | hashes =>
          Err (refusing payload_name ("with conflicting genesis_hash values: "
                                      +:+ join ", " hashes +:+ "."))
      end
  | _ => Ok None
  end.

(** ** Signatures *)

Definition peer_payload_signing_body (payload : list (string * pyval)) : pyval :=
  VDict (dpop "signature" payload).

Definition strict_env (env : Environ) (name : string) : bool :=
  bool_decide (lower (strip (default "" (env name))) ∈ strict_flag_words).

(** [peer_payload_signatures_required(policy=policy)] *)
Definition peer_payload_signatures_required (env : Environ) (policy : option WalletPolicy) : bool :=
  match policy with
  | Some wp =>
      require_hybrid_peer_payload_signatures wp || strict_env env "CAI_REQUIRE_SIGNED_PEER_PAYLOADS"
  | None => strict_env env "CAI_REQUIRE_SIGNED_PEER_PAYLOADS"
  end.

(** [peer_payload_hybrid_signatures_required(policy=policy)] *)
Definition peer_payload_hybrid_signatures_required (env : Environ) (policy : option WalletPolicy)
  : bool :=
  match policy with
  | Some wp => require_hybrid_peer_payload_signatures wp
  | None => strict_env env "CAI_REQUIRE_HYBRID_PEER_PAYLOAD_SIGNATURES"
  end.

Section signatures.
Context `{SignatureBackend}.

Definition sign_peer_payload (now : string) (payload : list (string * pyval))
    (public_key_b64 signing_seed_b64 : string) (pq_public_key_b64 pq_private_key_b64 : option string)
    (signer_wallet_id signer_address signed_at : option string)
  : result (list (string * pyval)) :=
  let normalized_public_key := strip public_key_b64 in
  if String.eqb normalized_public_key ""
  then Err (ValueError "Peer payload signer public key is required.")
  else
  let pq_public := strip (default "" pq_public_key_b64) in
  let pq_private := strip (default "" pq_private_key_b64) in
  let signing_body := peer_payload_signing_body payload in
  seed ← decode_bytes (strip signing_seed_b64);
  signature_b64 ← sign_payload_b64 seed signing_body;
  plain_address ← address_from_public_key_b64 normalized_public_key;
  parts ←
    (if negb (String.eqb pq_public "") || negb (String.eqb pq_private "") then
       if String.eqb pq_public "" || String.eqb pq_private ""
       then Err (ValueError "Peer payload hybrid signature requires ML-DSA keypair.")
       else
         address ← hybrid_address_from_public_keys_b64 normalized_public_key pq_public
                     DEFAULT_WALLET_HYBRID_ADDRESS_SCHEME;
         pq_signature_b64 ← sign_payload_mldsa65_b64 pq_private signing_body;
         Ok (PEER_PAYLOAD_SIGNATURE_SCHEME_HYBRID, address, pq_signature_b64)
     else Ok (PEER_PAYLOAD_SIGNATURE_SCHEME_ED25519, plain_address, ""));
  let '(scheme, public_key_address, pq_signature_b64) := parts in
  let opt s := if String.eqb s "" then VNone else VStr s in
  let signature :=
    [("scheme", VStr scheme);
     ("public_key_b64", VStr normalized_public_key);
     ("public_key_address", VStr public_key_address);
     ("signature_b64", VStr signature_b64);
     ("signer_wallet_id", opt (default "" signer_wallet_id));
     ("signer_address", opt (lower (strip (default "" signer_address))));
     ("signed_at", VStr (or_opt signed_at now))]
    ++ (if String.eqb pq_signature_b64 "" then []
        else [("pq_scheme", VStr SIGNING_SCHEME_ML_DSA_65); ("pq_public_key_b64", VStr pq_public);
              ("pq_signature_b64", VStr pq_signature_b64)]) in
  Ok (dset "signature" (VDict signature) payload).

Definition payload_fail (payload_name what : string) : bool * option string :=
  (false, Some (payload_name +:+ " payload " +:+ what)).

(** The addresses the signing keys may claim ([Err]: the keys are unusable). *)
Definition expected_public_key_addresses (scheme public_key_b64 pq_public_key_b64 : string)
  : result (list string) :=
  if String.eqb scheme PEER_PAYLOAD_SIGNATURE_SCHEME_HYBRID then
    a ← hybrid_address_from_public_keys_b64 public_key_b64 pq_public_key_b64
          ADDRESS_SCHEME_HYBRID_ED25519_ML_DSA_65;
    b ← hybrid_address_from_public_keys_b64 public_key_b64 pq_public_key_b64
          DEFAULT_WALLET_HYBRID_ADDRESS_SCHEME;
    Ok [a; b]
  else
    a ← address_from_public_key_b64 public_key_b64; Ok [a].

Definition verify_peer_payload_signature (payload : pyval) (payload_name : string)
    (require_signature require_hybrid_signature : bool) : bool * option string :=
  match payload with
  | VDict d =>
      match dget "signature" d with
      | VDict sg =>
          let scheme := str_or_strip (dget "scheme" sg) in
          let hybrid := String.eqb scheme PEER_PAYLOAD_SIGNATURE_SCHEME_HYBRID in
          if negb (String.eqb scheme PEER_PAYLOAD_SIGNATURE_SCHEME_ED25519 || hybrid) then
            payload_fail payload_name ("has unsupported signature scheme '" +:+ scheme +:+ "'.")
          else if require_hybrid_signature && negb hybrid then
            payload_fail payload_name "requires a hybrid post-quantum signature"
          else
          let public_key_b64 := str_or_strip (dget "public_key_b64" sg) in
          let signature_b64 := str_or_strip (dget "signature_b64" sg) in
          if String.eqb public_key_b64 "" || String.eqb signature_b64 "" then
            payload_fail payload_name "signature is incomplete"
          else
          let pq_public_key_b64 := str_or_strip (dget "pq_public_key_b64" sg) in
          let pq_signature_b64 := str_or_strip (dget "pq_signature_b64" sg) in
          if hybrid && negb (String.eqb (str_or_strip (dget "pq_scheme" sg)) SIGNING_SCHEME_ML_DSA_65)
          then payload_fail payload_name "has unsupported PQ signature scheme"
          else if hybrid && (String.eqb pq_public_key_b64 "" || String.eqb pq_signature_b64 "")
          then payload_fail payload_name "hybrid signature is incomplete"
          else
          match expected_public_key_addresses scheme public_key_b64 pq_public_key_b64 with
          | Err _ => payload_fail payload_name "signature public key is invalid"
          | Ok expected =>
              let declared := lower (str_or_strip (dget "public_key_address" sg)) in
              if negb (String.eqb declared "") && negb (bool_decide (declared ∈ expected)) then
                payload_fail payload_name "signature public key address mismatch"
              else
              let signing_body := peer_payload_signing_body d in
              if hybrid then
                if verify_hybrid_payload_signature public_key_b64 signature_b64
                     pq_public_key_b64 pq_signature_b64 signing_body
                then (true, None)
                else payload_fail payload_name "hybrid signature is invalid"
              else if verify_payload_signature public_key_b64 signature_b64 signing_body
              then (true, None)
              else payload_fail payload_name "signature is invalid"
          end
      | _ =>
          if require_signature then payload_fail payload_name "signature is missing"
          else (true, None)
      end
  | _ => (true, None)
  end.
End signatures.
