(* ===== verification/PeerFacts.v ===== *)
(** * Properties of signed peer payloads *)
From Stdlib Require Import Ascii.
From S2P Require Import Prelude.
From S2P Require Import PyStr.
From S2P Require Import PyVal.
From S2P Require Import Sha256.
From S2P Require Import Money.
From S2P Require Import Signing.
From S2P Require Import ChainTx.
From S2P Require Import Ledger.
From S2P Require Import Validation.
From S2P Require Import PeerPayload.
Local Open Scope Z_scope.
Set Default Proof Using "Type".

(** ** Dictionaries *)

Lemma dlookup_dset k k' v d :
  dlookup k (dset k' v d) = if String.eqb k k' then Some v else dlookup k d.
Proof.
  induction d as [|[a x] d IH]; cbn [dset dlookup]; [done|].
  destruct (String.eqb_spec k' a) as [->|Ha]; cbn [dlookup].
  - by destruct (String.eqb k a).
  - rewrite IH. destruct (String.eqb_spec k a) as [->|Hk]; [|done].
    by rewrite (proj2 (String.eqb_neq a k')) by congruence.
Qed.

Lemma dget_dset k k' v d : dget k (dset k' v d) = if String.eqb k k' then v else dget k d.
Proof. unfold dget. rewrite dlookup_dset. by destruct (String.eqb k k'). Qed.

Lemma dpop_cons k a x d :
  dpop k ((a, x) :: d) = if String.eqb k a then dpop k d else (a, x) :: dpop k d.
Proof. unfold dpop. rewrite filter_cons. cbn [fst]. by destruct (String.eqb k a). Qed.

Lemma dpop_dset k v d : dpop k (dset k v d) = dpop k d.
Proof.
  induction d as [|[a x] d IH]; cbn [dset].
  - by rewrite dpop_cons, String.eqb_refl.
  - destruct (String.eqb_spec k a) as [<-|Ha]; rewrite !dpop_cons.
    + by rewrite String.eqb_refl.
    + rewrite (proj2 (String.eqb_neq k a)) by done. by rewrite IH.
Qed.

Lemma signing_body_dset v d :
  peer_payload_signing_body (dset "signature" v d) = peer_payload_signing_body d.
Proof. unfold peer_payload_signing_body. by rewrite dpop_dset. Qed.

(** ** Strings without white space or capitals *)

Lemma b64_char_plain n : 0 ≤ n < 64 → not_space (b64_char n) = true.
Proof.
  intros Hn. assert (∀ k : nat, (k < 64)%nat → not_space (b64_char (Z.of_nat k)) = true) as Hk.
  { intros k Hk. do 64 (destruct k as [|k]; [reflexivity|]). lia. }
  specialize (Hk (Z.to_nat n) ltac:(lia)). by rewrite Z2Nat.id in Hk by lia.
Qed.

Lemma hex_digit_plain d : 0 ≤ d < 16 → plain (hex_digit d) = true.
Proof.
  intros Hd. assert (∀ k : nat, (k < 16)%nat → plain (hex_digit (Z.of_nat k)) = true) as Hk.
  { intros k Hk. do 16 (destruct k as [|k]; [reflexivity|]). lia. }
  specialize (Hk (Z.to_nat d) ltac:(lia)). by rewrite Z2Nat.id in Hk by lia.
Qed.

Lemma hex2_plain x : all_chars plain (hex2 (Z.land x 255)) = true.
Proof.
  change 255 with (Z.ones 8). rewrite Z.land_ones by lia.
  pose proof (Z.mod_pos_bound x (2 ^ 8) ltac:(lia)). change (2 ^ 8) with 256 in *.
  unfold hex2. cbn [all_chars]. rewrite !hex_digit_plain; [done|..];
    Z.to_euclidean_division_equations; lia.
Qed.

Lemma sha256_plain s : all_chars plain (sha256_hexdigest s) = true.
Proof.
  unfold sha256_hexdigest. induction (sha256_words _) as [|w ws IH]; [done|]. cbn [map].
  assert (all_chars plain (hex32 w) = true) as Hw
    by (unfold hex32; by rewrite !all_chars_app, !hex2_plain).
  destruct (map hex32 ws) eqn:E; cbn [String.concat] in *; [done|].
  rewrite all_chars_app, Hw. cbn [andb]. exact IH.
Qed.

Lemma encode_bytes_no_space l : Forall is_byte l → all_chars not_space (encode_bytes l) = true.
Proof.
  induction l as [|a|a b|a b c l IH] using list_ind3; rewrite ?Forall_cons.
  - done.
  - intros [Ha _]. cbn [encode_bytes b64_sextets map take foldr all_chars].
    rewrite !b64_char_plain by b64_side. done.
  - intros (Ha & Hb & _). cbn [encode_bytes b64_sextets map take foldr all_chars].
    rewrite !b64_char_plain by b64_side. done.
  - intros (Ha & Hb & Hc & Hl). cbn [encode_bytes b64_sextets map foldr all_chars].
    rewrite !b64_char_plain by b64_side. by apply IH.
Qed.

Lemma encode_bytes_empty l : encode_bytes l = "" → l = [].
Proof. by destruct l as [|a [|b [|c l]]]. Qed.

Lemma str_or_strip_str s : str_or_strip (VStr s) = strip s.
Proof.
  unfold str_or_strip, py_or. cbn [truthy]. destruct (String.eqb_spec s "") as [->|Hs]; reflexivity.
Qed.

(** A digest or a prefix of one reads back as itself. *)
Lemma plain_reads_back s : all_chars plain s = true → lower (str_or_strip (VStr s)) = s.
Proof.
  intros Hs. rewrite str_or_strip_str, strip_no_space by by apply plain_not_space.
  by apply lower_plain.
Qed.

Section signed.
Context {backend : SignatureBackend} {laws : SignatureLaws}.

(** A base64 signature is not empty and survives [strip]. *)
Lemma signature_text seed body sg :
  sign_payload_b64 seed body = Ok sg → strip sg = sg ∧ String.eqb sg "" = false.
Proof using laws.
  unfold sign_payload_b64. rewrite bind_ok. intros (b & Hb & Hsg). apply (inj Ok) in Hsg as <-.
  split; [by eapply strip_no_space, encode_bytes_no_space, ed25519_sign_bytes|].
  apply String.eqb_neq. intros ->%encode_bytes_empty. by apply ed25519_sign_nonempty in Hb.
Qed.

Lemma pq_signature_text sk body sg :
  sign_payload_mldsa65_b64 sk body = Ok sg → strip sg = sg ∧ String.eqb sg "" = false.
Proof using laws.
  unfold sign_payload_mldsa65_b64. rewrite bind_ok. intros (k & _ & Hk). revert Hk.
  rewrite bind_ok. intros (b & Hb & Hsg). apply (inj Ok) in Hsg as <-.
  split; [by eapply strip_no_space, encode_bytes_no_space, mldsa65_sign_bytes|].
  apply String.eqb_neq. intros ->%encode_bytes_empty. by apply mldsa65_sign_nonempty in Hb.
Qed.

Lemma public_address_plain pk a :
  address_from_public_key_b64 pk = Ok a → all_chars plain a = true.
Proof.
  unfold address_from_public_key_b64. rewrite bind_ok. intros (raw & _ & Ha).
  apply (inj Ok) in Ha as <-. apply all_chars_take, sha256_plain.
Qed.

Lemma hybrid_address_plain pk pq sch a :
  hybrid_address_from_public_keys_b64 pk pq sch = Ok a → all_chars plain a = true.
Proof.
  unfold hybrid_address_from_public_keys_b64. case_bool_decide; [|done].
  intros Ha. apply (inj Ok) in Ha as <-.
  destruct (String.eqb _ _); [apply all_chars_take|]; apply sha256_plain.
Qed.

(** The keys given to [sign_peer_payload] belong together: the Ed25519 public key is that of
    the seed, and the ML-DSA keys are both blank or a key pair. *)
Definition keys_match (public_key seed : string) (pq_public pq_private : option string) : Prop :=
  (∃ raw, decode_bytes (strip seed) = Ok raw ∧ public_key_b64_from_seed raw = Ok (strip public_key))
  ∧ (strip (default "" pq_private) = "" ∧ strip (default "" pq_public) = ""
     ∨ mldsa65_public_key_b64_from_private_key_b64 (strip (default "" pq_private))
       = Ok (strip (default "" pq_public))).
End signed.

Section sign_verify.
Context {backend : SignatureBackend} {laws : SignatureLaws}.

(** What an accepted signature dictionary holds, under each scheme. *)
Lemma verify_plain_signature (d sg : list (string * pyval)) name pk s addr :
  dget "signature" d = VDict sg →
  dget "scheme" sg = VStr PEER_PAYLOAD_SIGNATURE_SCHEME_ED25519 →
  dget "public_key_b64" sg = VStr pk → dget "signature_b64" sg = VStr s →
  dget "public_key_address" sg = VStr addr →
  strip pk = pk → pk ≠ "" → strip s = s → String.eqb s "" = false →
  address_from_public_key_b64 pk = Ok addr →
  verify_payload_signature pk s (peer_payload_signing_body d) = true →
  verify_peer_payload_signature (VDict d) name true false = (true, None).
Proof.
  intros Hsg Hscheme Hpk Hs Ha Hpks Hpkne Hss Hsne Haddr Hv.
  unfold verify_peer_payload_signature. rewrite Hsg, Hscheme, Hpk, Hs, Ha.
  change (str_or_strip (VStr PEER_PAYLOAD_SIGNATURE_SCHEME_ED25519))
    with PEER_PAYLOAD_SIGNATURE_SCHEME_ED25519. rewrite !str_or_strip_str, Hpks, Hss, Hsne.
  rewrite (proj2 (String.eqb_neq _ _) Hpkne). cbn -[String.eqb dget].
  assert (expected_public_key_addresses PEER_PAYLOAD_SIGNATURE_SCHEME_ED25519 pk
            (str_or_strip (dget "pq_public_key_b64" sg)) = Ok [addr]) as ->
    by (unfold expected_public_key_addresses; cbn; by rewrite Haddr).
  rewrite strip_no_space, lower_plain by
    (try apply plain_not_space; by eapply public_address_plain).
  rewrite bool_decide_true by (apply elem_of_cons; by left). rewrite andb_false_r.
  by rewrite Hv.
Qed.

Lemma verify_hybrid_signature (d sg : list (string * pyval)) name rh pk s pq pqs addr :
  dget "signature" d = VDict sg →
  dget "scheme" sg = VStr PEER_PAYLOAD_SIGNATURE_SCHEME_HYBRID →
  dget "public_key_b64" sg = VStr pk → dget "signature_b64" sg = VStr s →
  dget "public_key_address" sg = VStr addr →
  dget "pq_scheme" sg = VStr SIGNING_SCHEME_ML_DSA_65 →
  dget "pq_public_key_b64" sg = VStr pq → dget "pq_signature_b64" sg = VStr pqs →
  strip pk = pk → pk ≠ "" → strip s = s → String.eqb s "" = false →
  strip pq = pq → pq ≠ "" → strip pqs = pqs → String.eqb pqs "" = false →
  hybrid_address_from_public_keys_b64 pk pq DEFAULT_WALLET_HYBRID_ADDRESS_SCHEME = Ok addr →
  verify_hybrid_payload_signature pk s pq pqs (peer_payload_signing_body d) = true →
  verify_peer_payload_signature (VDict d) name true rh = (true, None).
Proof.
  clear laws. intros Hsg Hscheme Hpk Hs Ha Hpqsch Hpq Hpqs Hpk1 Hpk2 Hs1 Hs2 Hpq1 Hpq2 Hpqs1 Hpqs2 Haddr Hv.
  unfold verify_peer_payload_signature. rewrite Hsg, Hscheme, Hpk, Hs, Ha, Hpqsch, Hpq, Hpqs.
  change (str_or_strip (VStr PEER_PAYLOAD_SIGNATURE_SCHEME_HYBRID))
    with PEER_PAYLOAD_SIGNATURE_SCHEME_HYBRID.
  change (str_or_strip (VStr SIGNING_SCHEME_ML_DSA_65)) with SIGNING_SCHEME_ML_DSA_65.
  rewrite !str_or_strip_str, Hpk1, Hs1, Hs2, Hpq1, Hpqs1, Hpqs2.
  rewrite (proj2 (String.eqb_neq pk _) Hpk2), (proj2 (String.eqb_neq pq _) Hpq2).
  rewrite andb_false_r. cbn -[String.eqb dget].
  destruct (hybrid_address_from_public_keys_b64 pk pq ADDRESS_SCHEME_HYBRID_ED25519_ML_DSA_65)
    as [a|e] eqn:Ea; [|done].
  assert (expected_public_key_addresses PEER_PAYLOAD_SIGNATURE_SCHEME_HYBRID pk pq = Ok [a; addr]) as ->
    by (unfold expected_public_key_addresses; change (String.eqb _ _) with true; cbv iota;
        rewrite Ea; cbn; by rewrite Haddr).
  rewrite strip_no_space, lower_plain by
    (try apply plain_not_space; by eapply hybrid_address_plain).
  rewrite (bool_decide_true (addr ∈ _)) by set_solver. cbn [negb].
  by rewrite !andb_false_r, Hv.
Qed.

(** Signing and verifying agree. *)
Lemma sign_verify_peer_payload (now public_key seed name : string)
    (payload signed : list (string * pyval)) (pq_public pq_private : option string)
    (signer_wallet_id signer_address signed_at : option string) (require_hybrid : bool)
    (Hkeys : keys_match public_key seed pq_public pq_private)
    (Hhybrid : require_hybrid = true → strip (default "" pq_public) ≠ "")
    (Hsigned : sign_peer_payload now payload public_key seed pq_public pq_private
       signer_wallet_id signer_address signed_at = Ok signed) :
  verify_peer_payload_signature (VDict signed) name true require_hybrid = (true, None)
  ∧ peer_payload_signing_body signed = peer_payload_signing_body payload.
Proof using laws.
  destruct Hkeys as [(raw & Hraw & Hpk) Hpq].
  revert Hsigned. unfold sign_peer_payload. set (body := peer_payload_signing_body payload).
  destruct (String.eqb_spec (strip public_key) "") as [|Hpkne]; [done|].
  rewrite Hraw. cbn [mbind result_bind].
  rewrite bind_ok. intros (sg & Hsg & Hsigned). revert Hsigned.
  rewrite bind_ok. intros (addr & Haddr & Hsigned).
  destruct (signature_text _ _ _ Hsg) as [Hsg1 Hsg2].
  pose proof (sign_verify_payload raw _ _ body Hpk Hsg) as Hv. revert Hsigned.
  destruct (String.eqb (strip (default "" pq_public)) "") eqn:Epub;
    destruct (String.eqb (strip (default "" pq_private)) "") eqn:Epriv;
    cbn [negb orb mbind result_bind]; try done.
  - intros [= <-]. split; [|apply signing_body_dset].
    destruct require_hybrid; [by apply String.eqb_eq in Epub; destruct Hhybrid|].
    eapply verify_plain_signature; [by rewrite dget_dset| |reflexivity..| | | | | |];
      [reflexivity|apply strip_idem|done|done|done|exact Haddr|].
    rewrite signing_body_dset. exact Hv.
  - rewrite bind_ok. intros ([[sch a] pqs] & Hparts & Hsigned). revert Hparts.
    rewrite bind_ok. intros (a' & Ha' & Hparts). revert Hparts.
    rewrite bind_ok. intros (pqs' & Hpqs & [= <- <- <-]).
    destruct (pq_signature_text _ _ _ Hpqs) as [Hpqs1 Hpqs2]. revert Hsigned. rewrite Hpqs2.
    intros [= <-]. split; [|apply signing_body_dset].
    destruct Hpq as [[Hb _]|Hpq]; [by rewrite Hb in Epriv|].
    pose proof (sign_verify_mldsa65 _ _ _ body Hpq Hpqs) as Hv'.
    eapply verify_hybrid_signature; [by rewrite dget_dset| |reflexivity..| | | | | | | | | |];
      [reflexivity|apply strip_idem|done|done|done|apply strip_idem|by apply String.eqb_neq
      |done|done|exact Ha'|].
    rewrite signing_body_dset.
    unfold verify_hybrid_payload_signature. fold body. rewrite Hv. exact Hv'.
Qed.
(** A payload signed by [sign_peer_payload] with matching keys is accepted by
    [verify_peer_payload_signature], also when a signature is required, and when a hybrid one
    is required provided the ML-DSA keys were given; whatever signer address and wallet the
    caller declared. *)
Theorem signed_peer_payload_verifies (now public_key seed name : string)
    (payload signed : list (string * pyval)) (pq_public pq_private : option string)
    (signer_wallet_id signer_address signed_at : option string) (require_hybrid : bool)
    (Hkeys : keys_match public_key seed pq_public pq_private)
    (Hhybrid : require_hybrid = true → strip (default "" pq_public) ≠ "")
    (Hsigned : sign_peer_payload now payload public_key seed pq_public pq_private
       signer_wallet_id signer_address signed_at = Ok signed) :
  verify_peer_payload_signature (VDict signed) name true require_hybrid = (true, None)
  ∧ peer_payload_signing_body signed = peer_payload_signing_body payload.
Proof using laws. by eapply sign_verify_peer_payload. Qed.
End sign_verify.

(** ** The network and the genesis hash of a payload *)

(** The accepted payload's network and genesis hash are read off the nested dictionaries. *)
Lemma genesis_hashes_dict d :
  _payload_genesis_hashes (VDict d) =
  singleton_if_filled (lower (_metadata_value d genesis_hash_keys))
  ∪ match dlookup "chain" d with
    | Some (VDict x) => _payload_genesis_hashes (VDict x)
    | _ => ∅
    end
  ∪ singleton_if_filled (blocks_genesis_hash d).
Proof.
  cbn [_payload_genesis_hashes]. do 2 f_equal.
  assert (∀ e, (fix nested (e : list (string * pyval)) : gset string :=
             match e with
             | [] => ∅
             | (k, x) :: e' =>
                 if String.eqb "chain" k
                 then match x with VDict _ => _payload_genesis_hashes x | _ => ∅ end
                 else nested e'
             end) e = match dlookup "chain" e with
    | Some (VDict x) => _payload_genesis_hashes (VDict x)
    | _ => ∅
    end) as He; [|apply He].
  induction e as [|[k x] e IH]; [done|]. cbn [dlookup].
  destruct (String.eqb "chain" k); [by destruct x|exact IH].
Qed.

Lemma genesis_hash_dict d :
  _payload_genesis_hash (VDict d) =
  or_str (lower (_metadata_value d genesis_hash_keys))
    (or_str match dlookup "chain" d with
            | Some (VDict x) => _payload_genesis_hash (VDict x)
            | _ => ""
            end (blocks_genesis_hash d)).
Proof.
  cbn [_payload_genesis_hash]. cbv zeta. do 2 f_equal.
  assert (∀ e, (fix nested (e : list (string * pyval)) : string :=
           match e with
           | [] => ""
           | (k, x) :: e' =>
               if String.eqb "chain" k
               then match x with VDict _ => _payload_genesis_hash x | _ => "" end
               else nested e'
           end) e = match dlookup "chain" e with
            | Some (VDict x) => _payload_genesis_hash (VDict x)
            | _ => ""
            end) as He; [|apply He].
  induction e as [|[k x] e IH]; [done|]. cbn [dlookup].
  destruct (String.eqb "chain" k); [by destruct x|exact IH].
Qed.

Lemma or_str_empty s t : or_str s t = "" → s = "" ∧ t = "".
Proof. unfold or_str. by destruct (String.eqb_spec s ""). Qed.

Lemma dlookup_elem k d x : dlookup k d = Some x → (k, x) ∈ d.
Proof.
  induction d as [|[a y] d IH]; cbn; [done|]. destruct (String.eqb_spec k a) as [->|Ha].
  - intros [= ->]. apply elem_of_cons. by left.
  - intros Hd. apply elem_of_cons. right. by apply IH.
Qed.

Lemma no_genesis_hash v : _payload_genesis_hash v = "" → _payload_genesis_hashes v = ∅.
Proof.
  induction v as [|b|z|s|l IH|d IH] using pyval_ind'; [done..|].
  rewrite genesis_hash_dict, genesis_hashes_dict.
  intros (Hd & Hrest)%or_str_empty. apply or_str_empty in Hrest as [Hn Hb]. rewrite Hd, Hb.
  rewrite Forall_forall in IH.
  destruct (dlookup "chain" d) as [[]|] eqn:E; try set_solver.
  apply dlookup_elem, IH in E; [|done]. cbn [snd] in E. rewrite E. set_solver.
Qed.

Lemma sorted_set_one s g : sorted_set s = [g] → s = {[ g ]}.
Proof.
  unfold sorted_set. intros Hs. pose proof (py_sorted_perm str_leb (elements s)) as Hp.
  rewrite Hs in Hp. apply set_eq. intros x. rewrite <- elem_of_elements, <- Hp. set_solver.
Qed.

Lemma sorted_set_singleton g : sorted_set {[ g ]} = [g].
Proof. unfold sorted_set. by rewrite elements_singleton. Qed.

(** A payload is accepted only for this node's network, and every genesis hash it names,
    directly, in its nested chain or through its block list, is the hash of this node's own
    genesis block. *)
Theorem accepted_payload_is_ours (env : Environ) (d : list (string * pyval))
    (policy : option WalletPolicy) (name : string) (o : option string)
    (Hok : validate_peer_payload_network env (VDict d) policy name = Ok o) :
  o = Some (policy_chain_id env policy)
  ∧ (∃ g, policy_genesis_hash env policy = Ok g ∧ _payload_genesis_hashes (VDict d) = {[ g ]})
  ∧ (∀ keys, keys = ["chain_id"; "chainId"] ∨ keys = ["network"; "chain_network"; "chainNetwork"] →
       lower (_metadata_value d keys) = "" ∨ lower (_metadata_value d keys) = policy_chain_id env policy).
Proof.
  revert Hok. unfold validate_peer_payload_network.
  destruct (check_schema_version d name); [|done]. cbn [mbind result_bind].
  set (c := lower (_metadata_value d ["chain_id"; "chainId"])).
  set (n := lower (_metadata_value d ["network"; "chain_network"; "chainNetwork"])).
  destruct (negb (String.eqb c "") && negb (String.eqb n "") && negb (String.eqb c n)) eqn:Ecn; [done|].
  destruct (String.eqb_spec (or_str c n) "") as [|Hne]; [done|].
  destruct (String.eqb_spec (or_str c n) (policy_chain_id env policy)) as [Heq|]; [cbn [negb]|done].
  destruct (sorted_set _) as [|g [|]] eqn:Eset; [done| |done].
  destruct (policy_genesis_hash env policy) as [g'|]; [cbn [mbind result_bind]|done].
  destruct (String.eqb_spec g g') as [->|]; [cbn [negb]|done]. intros [= <-].
  split; [by rewrite Heq|]. split; [exists g'; split; [done|by apply sorted_set_one]|].
  intros keys Hkeys. revert Heq Ecn. unfold or_str.
  destruct Hkeys as [-> | ->]; fold c; fold n;
    clearbody c n; destruct (String.eqb_spec c ""), (String.eqb_spec n ""), (String.eqb_spec c n);
    cbn [negb andb]; intros; try discriminate; auto; right; congruence.
Qed.

Lemma policy_genesis_text env policy :
  ∃ g, policy_genesis_hash env policy = Ok g ∧ all_chars plain g = true ∧ g ≠ "".
Proof.
  unfold policy_genesis_hash. destruct (genesis_total env (money_policy_of env (policy_network env policy)))
    as [b Hb]. rewrite Hb. cbn. exists (block_hash b). split; [done|].
  revert Hb. unfold make_genesis_block. rewrite bind_ok. intros (txs & _ & [= <-]). cbn.
  unfold compute_block_hash. split; [apply sha256_plain|apply sha256_nonempty].
Qed.

Lemma metadata_value_set k keys v d :
  strip v = v → v ≠ "" → _metadata_value (dset k (VStr v) d) (k :: keys) = v.
Proof.
  intros Hs Hv. cbn [_metadata_value]. rewrite dget_dset, String.eqb_refl, str_or_strip_str, Hs.
  by rewrite (proj2 (String.eqb_neq v "")).
Qed.

Lemma metadata_value_skip k keys v d :
  Forall (λ k', String.eqb k' k = false) keys →
  _metadata_value (dset k v d) keys = _metadata_value d keys.
Proof. induction 1 as [|k' keys Hk Hks IH]; [done|]. cbn. by rewrite dget_dset, Hk, IH. Qed.

(** The metadata [add_peer_payload_metadata] puts on a payload that names no genesis hash
    of its own is accepted by every node of the same policy. *)
Lemma own_metadata_accepted (env : Environ) (payload d : list (string * pyval))
    (policy : option WalletPolicy) (name : string)
    (Hnone : _payload_genesis_hash (VDict payload) = "")
    (Hadd : add_peer_payload_metadata env payload policy = Ok d) :
  validate_peer_payload_network env (VDict d) policy name = Ok (Some (policy_chain_id env policy)).
Proof.
  destruct (policy_genesis_text env policy) as (g & Hg & Hplain & Hgne).
  revert Hadd. unfold add_peer_payload_metadata. rewrite Hnone, String.eqb_refl, Hg.
  cbn [mbind result_bind]. intros [= <-].
  set (id := policy_chain_id env policy).
  assert (lower id = id ∧ strip id = id ∧ id ≠ "") as (Hid1 & Hid2 & Hid3).
  { subst id. unfold policy_chain_id. by destruct (policy_network env policy). }
  set (d1 := dset "network" (VStr id) payload).
  set (d2 := dset "chain_id" (VStr id) d1).
  set (d3 := dset "genesis_hash" (VStr g) d2).
  assert (_payload_genesis_hashes
            (VDict (dset "schema_version" (VInt PEER_PAYLOAD_SCHEMA_VERSION) d3)) = {[ g ]}) as Hhashes.
  { rewrite genesis_hash_dict in Hnone. apply or_str_empty in Hnone as [_ Hrest].
    apply or_str_empty in Hrest as [Hnested Hblocks].
    rewrite genesis_hashes_dict, metadata_value_skip by (repeat constructor).
    unfold d3 at 1, genesis_hash_keys. rewrite metadata_value_set; [|by apply strip_no_space, plain_not_space|done].
    rewrite lower_plain by done. unfold d3, d2, d1. rewrite !dlookup_dset. cbn [String.eqb Ascii.eqb Bool.eqb].
    assert (∀ x, blocks_genesis_hash (dset "schema_version" x (dset "genesis_hash" (VStr g)
      (dset "chain_id" (VStr id) (dset "network" (VStr id) payload)))) = "") as ->.
    { intros x. unfold blocks_genesis_hash in *. rewrite !dget_dset. exact Hblocks. }
    assert (match dlookup "chain" payload with
            | Some (VDict x) => _payload_genesis_hashes (VDict x) | _ => ∅ end = ∅) as ->.
    { destruct (dlookup "chain" payload) as [[]|]; try done. by apply no_genesis_hash. }
    unfold singleton_if_filled. rewrite (proj2 (String.eqb_neq g "")) by done.
    rewrite String.eqb_refl. by rewrite !(right_id_L ∅ (∪)). }
  unfold validate_peer_payload_network.
  assert (check_schema_version (dset "schema_version" (VInt PEER_PAYLOAD_SCHEMA_VERSION) d3) name = Ok tt)
    as -> by (unfold check_schema_version; by rewrite dlookup_dset, String.eqb_refl).
  cbn [mbind result_bind]. rewrite Hhashes, sorted_set_singleton, Hg.
  assert (_metadata_value (dset "schema_version" (VInt PEER_PAYLOAD_SCHEMA_VERSION) d3)
            ["chain_id"; "chainId"] = id) as ->.
  { unfold d3, d2. rewrite !metadata_value_skip by (repeat constructor). by apply metadata_value_set. }
  assert (_metadata_value (dset "schema_version" (VInt PEER_PAYLOAD_SCHEMA_VERSION) d3)
            ["network"; "chain_network"; "chainNetwork"] = id) as ->.
  { unfold d3, d2, d1. rewrite !metadata_value_skip by (repeat constructor).
    by apply metadata_value_set. }
  rewrite Hid1. fold id. unfold or_str.
  rewrite (proj2 (String.eqb_neq id "") Hid3), !String.eqb_refl. cbn [negb andb mbind result_bind].
  by rewrite (proj2 (String.eqb_neq id "")), String.eqb_refl by done.
Qed.
