(* ===== verification/ChainSync.v ===== *)
(** * Chains received from peers

    [chain.py], fifth part: the payload a node exports, and what it does with the payload of
    another node: the checks on the network and the signature, adopting a whole fork,
    importing single blocks, and writing the result. *)
From Stdlib Require Import Ascii.
From S2P Require Import Prelude.
From S2P Require Import PyStr.
From S2P Require Import PyVal.
From S2P Require Import Sha256.
From S2P Require Import Money.
From S2P Require Import Signing.
From S2P Require Import ChainTx.
From S2P Require Import Ledger.
From S2P Require Import ChainStore.
From S2P Require Import ChainOps.
From S2P Require Import Apportion.
From S2P Require Import Validators.
From S2P Require Import PeerPayload.
Local Open Scope Z_scope.
Set Default Proof Using "Type".

(** ** Raw blocks *)

Definition _raw_payload_has_non_genesis_block (raw_blocks : list pyval) : bool :=
  existsb (λ raw,
    match raw with
    | VDict d =>
        match py_int (py_or (dget "height" d) (VInt 0)) with Ok h => 0 <? h | Err _ => false end
    | _ => false
    end) raw_blocks.

(** [str(d.get(k) or "")] *)
Definition str_or_empty (k : string) (d : list (string * pyval)) : string :=
  py_str (py_or (dget k d) (VStr "")).

Definition _raw_block_sort_key (raw : pyval) : Z * string * string :=
  match raw with
  | VDict d =>
      let height := match py_int (dget "height" d) with Ok h => h | Err _ => 10 ^ 12 end in
      (height, str_or_empty "created_at" d, str_or_empty "block_hash" d)
  | _ => (10 ^ 12, "", "")
  end.

(** Python's order on [(int, str, str)]. *)
Definition key3_leb (x y : Z * string * string) : bool :=
  let '(h, c, b) := x in
  let '(h', c', b') := y in
  (h <? h') || ((h =? h') && (str_ltb c c' || (String.eqb c c' && str_leb b b'))).

Definition sort_raw_blocks : list pyval → list pyval :=
  py_sorted (λ x y, key3_leb (_raw_block_sort_key x) (_raw_block_sort_key y)).

(** ** Block tests *)

Definition _block_links_to_known_chain (block : ChainBlock)
    (known_block_heights_by_hash : gmap string Z) (known_block_heights : gset Z) : bool :=
  if height block =? 0 then
    String.eqb (previous_hash block) GENESIS_PREVIOUS_HASH
    && negb (bool_decide (0 ∈ known_block_heights))
  else
    match known_block_heights_by_hash !! previous_hash block with
    | Some previous_height =>
        (height block =? previous_height + 1)
        && negb (bool_decide (height block ∈ known_block_heights))
    | None => false
    end.

Definition _block_nonces_are_new (block : ChainBlock)
    (existing_nonces : gset (string * string)) : bool :=
  forallb (λ tx,
    match nonce tx with
    | None => true
    | Some n => negb (bool_decide (nonce_key tx n ∈ existing_nonces))
    end) (transactions block).

(** [len(l) == len(set(l))] *)
Definition all_distinct (l : list string) : bool :=
  bool_decide (length l = size (list_to_set l : gset string)).

Section sync.
Context `{SignatureBackend} (env : Environ) (policy : option WalletPolicy).

Local Abbreviation net := (active_chain_id env policy).

(** The roots a block names must be those of the chain it extends; missing ones are filled
    in ([None]: refused). *)
Definition _block_roots_match_known_chain (block : ChainBlock) (previous_blocks : list ChainBlock)
  : option ChainBlock :=
  let expected_tx_root := compute_transaction_root env (transactions block) in
  if negb (String.eqb (tx_root block) "") && negb (String.eqb (tx_root block) expected_tx_root)
  then None
  else
    let block := with_tx_root block expected_tx_root in
    let expected_state_root := compute_chain_state_root (previous_blocks ++ [block]) in
    if negb (String.eqb (state_root block) "")
       && negb (String.eqb (state_root block) expected_state_root)
    then None
    else Some (with_state_root block expected_state_root).

(** The loop of [_block_transactions_are_valid]. *)
Fixpoint block_txs_valid (block : ChainBlock) (seen_nonces : gset (string * string))
    (txs : list ChainTransaction) : result bool :=
  match txs with
  | [] => Ok true
  | tx :: txs' =>
      if negb (String.eqb (tx_chain_id tx) (chain_id block)) then Ok false
      else if negb (tx_schema_version tx =? schema_version block) then Ok false
      else
        sg ← verify_chain_transaction_signature env policy tx;
        if negb sg.1 then Ok false
        else
          match nonce tx with
          | None => block_txs_valid block seen_nonces txs'
          | Some n =>
              let key := nonce_key tx n in
              if bool_decide (key ∈ seen_nonces) then Ok false
              else block_txs_valid block ({[ key ]} ∪ seen_nonces) txs'
          end
  end.

Definition _block_transactions_are_valid (block : ChainBlock) : result bool :=
  let tx_ids := map (λ tx, strip (tx_id tx)) (transactions block) in
  if blank (chain_id block) then Ok false
  else if negb (schema_version block =? CHAIN_SCHEMA_VERSION) then Ok false
  else if bool_decide (tx_ids = []) || existsb (λ i, String.eqb i "") tx_ids then Ok false
  else
    valid ← block_txs_valid block ∅ (transactions block);
    if negb valid then Ok false
    else if negb (String.eqb (tx_root block) "")
            && negb (String.eqb (tx_root block) (compute_transaction_root env (transactions block)))
    then Ok false
    else Ok (all_distinct tx_ids).

(** A raw block with a hash, coerced; [None] when it has none or cannot be read. *)
Definition hashed_block (now : string) (raw : pyval) : option ChainBlock :=
  match raw with
  | VDict d =>
      if String.eqb (str_or_strip (dget "block_hash" d)) "" then None
      else match _coerce_block env now raw (Some net) with Ok b => Some b | Err _ => None end
  | _ => None
  end.

(** The tests every received block must pass on its own. *)
Definition own_block_test (b : ChainBlock) : bool :=
  String.eqb (chain_id b) net && (schema_version b =? CHAIN_SCHEMA_VERSION)
  && String.eqb (compute_block_hash env b) (block_hash b).

(** ** A whole chain *)

Fixpoint coerce_remote_blocks (now : string) (raws : list pyval) (done : list ChainBlock)
  : result (list ChainBlock) :=
  match raws with
  | [] =>
      errors ← validate_chain_blocks env policy done;
      Ok (match errors with [] => done | _ => [] end)
  | raw :: raws' =>
      match hashed_block now raw with
      | None => Ok []
      | Some b =>
          if negb (own_block_test b) then Ok []
          else
            valid ← _block_transactions_are_valid b;
            if negb valid then Ok [] else coerce_remote_blocks now raws' (done ++ [b])
      end
  end.

Definition _coerce_valid_remote_chain (now : string) (raw_blocks : list pyval)
  : result (list ChainBlock) :=
  coerce_remote_blocks now (sort_raw_blocks raw_blocks) [].

Definition _chain_payload_signed_by_bonded_validator (t : Tick) (vfile : list ValidatorRecord)
    (payload : pyval) : M bool :=
  match payload with
  | VDict d =>
      match dget "signature" d with
      | VDict signature =>
          let signer_addresses :=
            singleton_if_filled (lower (str_or_strip (dget "signer_address" signature)))
            ∪ singleton_if_filled (lower (str_or_strip (dget "public_key_address" signature))) in
          if bool_decide (signer_addresses = ∅) then mret false
          else
            let active_policy := default (default_wallet_policy env) policy in
            bonded_records ← list_bonded_validators env (Some active_policy) t vfile;
            let local_bonded_addresses : gset string :=
              list_to_set (bonded_records ≫= λ r,
                [lower (strip (vr_validator_id r)); lower (strip (vr_address r))]) ∖ {[ "" ]} in
            if 1 <? Z.of_nat (size local_bonded_addresses) then mret false
            else
              let trusted_addresses : gset string :=
                list_to_set (map (λ a, lower (strip a)) (trusted_validator_addresses active_policy))
                ∖ {[ "" ]} in
              let authorized_addresses :=
                if bool_decide (local_bonded_addresses = ∅) then trusted_addresses
                else local_bonded_addresses in
              mret (negb (bool_decide (signer_addresses ∩ authorized_addresses = ∅)))
      | _ => mret false
      end
  | _ => mret false
  end.

Definition head_hash (blocks : list ChainBlock) : string :=
  match blocks with b :: _ => block_hash b | [] => "" end.

Definition hash_set (blocks : list ChainBlock) : gset string := list_to_set (map block_hash blocks).

Definition count_txs (blocks : list ChainBlock) : Z :=
  Z.of_nat (length (blocks ≫= transactions)).

Definition _adopt_authoritative_remote_fork (t : Tick) (remote_blocks local_blocks : list ChainBlock)
    (signed_by_bonded_validator : bool) : M (option (Z * Z)) :=
  match remote_blocks, local_blocks with
  | [], _ | _, [] => mret None
  | _, _ =>
      expected_genesis_block ←
        lift (make_genesis_block env (_money_policy_for_wallet_policy env policy None));
      if String.eqb (head_hash remote_blocks) (block_hash expected_genesis_block)
         && _is_stale_genesis_only_chain local_blocks expected_genesis_block
      then
        _ ← save_chain_blocks env policy t remote_blocks;
        mret (Some (Z.of_nat (length remote_blocks), count_txs remote_blocks))
      else if negb signed_by_bonded_validator then mret None
      else if negb (String.eqb (head_hash remote_blocks) (head_hash local_blocks)) then mret None
      else
        let local_tip_hash :=
          strip (match last local_blocks with Some b => block_hash b | None => "" end) in
        if bool_decide (local_tip_hash ∈ hash_set remote_blocks) then mret None
        else
          let imported_blocks :=
            length (filter (λ b, block_hash b ∉ hash_set local_blocks) remote_blocks) in
          let imported_transactions :=
            length (filter (λ tx, tx_id tx ∉ chain_tx_ids local_blocks)
                      (remote_blocks ≫= transactions)) in
          _ ← save_chain_blocks env policy t remote_blocks;
          mret (Some (Z.of_nat imported_blocks, Z.of_nat imported_transactions))
  end.

(** ** Single blocks *)

(** The variables of the import loop of [merge_remote_chain_payload]. *)
Record Import := {
  im_local_blocks : list ChainBlock;
  im_block_hashes : gset string;
  im_heights_by_hash : gmap string Z;
  im_heights : gset Z;
  im_tx_ids : gset string;
  im_nonces : gset (string * string);
  im_blocks : Z;
  im_transactions : Z
}.

Definition import_init (local_blocks : list ChainBlock) : Import :=
  let hashed := filter (λ b, negb (blank (block_hash b))) local_blocks in
  let by_hash := foldl (λ (m : gmap string Z) b, <[block_hash b := height b]> m) ∅ hashed in
  {| im_local_blocks := local_blocks; im_block_hashes := dom by_hash;
     im_heights_by_hash := by_hash; im_heights := list_to_set (map height local_blocks);
     im_tx_ids := chain_tx_ids local_blocks; im_nonces := _chain_transaction_nonces local_blocks;
     im_blocks := 0; im_transactions := 0 |}.

Definition import_txs (im : Import) (b : ChainBlock) (new_transactions : list ChainTransaction)
  : Import :=
  {| im_local_blocks := im_local_blocks im ++ [b];
     im_block_hashes := {[ block_hash b ]} ∪ im_block_hashes im;
     im_heights_by_hash := <[block_hash b := height b]> (im_heights_by_hash im);
     im_heights := {[ height b ]} ∪ im_heights im;
     im_tx_ids := list_to_set (map tx_id new_transactions) ∪ im_tx_ids im;
     im_nonces := list_to_set (tx_nonce_keys new_transactions) ∪ im_nonces im;
     im_blocks := im_blocks im + 1;
     im_transactions := im_transactions im + Z.of_nat (length new_transactions) |}.

Definition import_step (now : string) (im : Import) (raw : pyval) : result Import :=
  match hashed_block now raw with
  | None => Ok im
  | Some b =>
      if negb (own_block_test b) then Ok im
      else if bool_decide (block_hash b ∈ im_block_hashes im) then Ok im
      else
        valid ← _block_transactions_are_valid b;
        if negb valid then Ok im
        else if negb (_block_links_to_known_chain b (im_heights_by_hash im) (im_heights im)) then Ok im
        else
          match _block_roots_match_known_chain b (im_local_blocks im) with
          | None => Ok im
          | Some b =>
              if negb (_block_nonces_are_new b (im_nonces im)) then Ok im
              else
                match filter (λ tx, tx_id tx ∉ im_tx_ids im) (transactions b) with
                | [] => Ok im
                | new_transactions => Ok (import_txs im b new_transactions)
                end
          end
  end.

(** ** Merging *)

Definition merge_remote_chain_payload (t : Tick) (vfile : list ValidatorRecord) (payload : pyval)
  : M (Z * Z) :=
  match payload with
  | VDict d =>
      _ ← lift (validate_peer_payload_network env payload policy "chain");
      let '(signature_ok, signature_error) :=
        verify_peer_payload_signature payload "chain" (peer_payload_signatures_required env policy)
          (peer_payload_hybrid_signatures_required env policy) in
      if negb signature_ok then raise (or_opt signature_error "Invalid chain payload signature.")
      else
      let raw_chain := match dget "chain" d with VDict c => c | _ => d end in
      let payload_chain_id := str_or_strip (dget "chain_id" raw_chain) in
      let payload_network_name := str_or_strip (dget "network" raw_chain) in
      if negb (String.eqb payload_chain_id "") && negb (String.eqb payload_network_name "")
         && negb (String.eqb payload_chain_id payload_network_name) then
        raise ("Refusing chain payload with mismatched chain_id '" +:+ payload_chain_id
               +:+ "' and network '" +:+ payload_network_name +:+ "'.")
      else
      let payload_network := or_str payload_chain_id payload_network_name in
      if negb (String.eqb payload_network "") && negb (String.eqb payload_network net) then
        raise ("Refusing chain payload for network '" +:+ payload_network +:+ "' on '"
               +:+ net +:+ "'.")
      else
      raw_blocks ← lift (py_list (py_or (dget "blocks" raw_chain) (VList [])));
      if bool_decide (raw_blocks = []) then mret (0, 0)
      else
      local_blocks ← read (list_chain_blocks env policy (now t));
      remote_blocks ← lift (_coerce_valid_remote_chain (now t) raw_blocks);
      signed_by_bonded_validator ← _chain_payload_signed_by_bonded_validator t vfile payload;
      fork_imported ←
        _adopt_authoritative_remote_fork t remote_blocks local_blocks signed_by_bonded_validator;
      match fork_imported with
      | Some counts => mret counts
      | None =>
          if negb signed_by_bonded_validator && _raw_payload_has_non_genesis_block raw_blocks then
            raise "Refusing chain extension payload without authorized validator finality."
          else
          im ← lift (foldM (import_step (now t)) (import_init local_blocks)
                       (sort_raw_blocks raw_blocks));
          if im_blocks im =? 0 then mret (im_blocks im, im_transactions im)
          else
            let local_blocks := sort_blocks (im_local_blocks im) in
            validation_errors ← lift (validate_chain_blocks env policy local_blocks);
            match validation_errors with
            | _ :: _ =>
                raise ("Refusing chain payload that would make local chain invalid: "
                       +:+ join "; " (take 3 validation_errors))
            | [] =>
                _ ← save_chain_blocks env policy t local_blocks;
                mret (im_blocks im, im_transactions im)
            end
      end
  | _ => lift (Err AttributeError)
  end.

(** ** The exported payload *)

Definition tip_hash_field (f : ChainBlock → string) (blocks : list ChainBlock) : pyval :=
  match last blocks with Some b => VStr (f b) | None => VNone end.

Definition export_chain_payload (t : Tick) : M (list (string * pyval)) :=
  let mp := _money_policy_for_wallet_policy env policy None in
  _ ← ensure_chain_genesis env policy t (Some mp);
  blocks ← read (list_chain_blocks env policy (now t));
  genesis_hash ←
    (match blocks with
     | b :: _ => mret (block_hash b)
     | [] => lift (expected_genesis_hash env None (Some mp))
     end);
  let header :=
    [("network", VStr (network_value (chain_network mp)));
     ("chain_id", VStr (network_value (chain_network mp)));
     ("genesis_hash", VStr genesis_hash);
     ("schema_version", VInt CHAIN_SCHEMA_VERSION)] in
  let chain :=
    [("blocks", VList (map (λ b, VDict (asdict_block b)) blocks));
     ("block_count", VInt (Z.of_nat (length blocks)));
     ("transaction_count", VInt (count_txs blocks));
     ("tip_hash", tip_hash_field block_hash blocks);
     ("tip_tx_root", tip_hash_field tx_root blocks);
     ("tip_state_root", tip_hash_field state_root blocks)] in
  mret (("exported_at", VStr (now t)) :: header ++ [("chain", VDict (chain ++ header))]).
End sync.
