(* ===== verification/ChainSyncProps.v ===== *)
(** * Properties of merging a peer's chain *)
From Stdlib Require Import Ascii.
From S2P Require Import Prelude.
From S2P Require Import PyStr.
From S2P Require Import PyVal.
From S2P Require Import Money.
From S2P Require Import Signing.
From S2P Require Import ChainTx.
From S2P Require Import Ledger.
From S2P Require Import Validation.
From S2P Require Import ChainStore.
From S2P Require Import ChainOps.
From S2P Require Import StoreFacts.
From S2P Require Import Apportion.
From S2P Require Import Validators.
From S2P Require Import Demo.
From S2P Require Import PeerPayload.
From S2P Require Import PeerFacts.
From S2P Require Import ChainSync.
Local Open Scope Z_scope.
Set Default Proof Using "Type".

(** ** Operations that leave the chain file alone *)

Definition keeps_file {A} (m : M A) : Prop :=
  ∀ st st' r, m st = (st', r) → chain_file st' = chain_file st.

Lemma keeps_ret {A} (a : A) : keeps_file (mret a).
Proof. by intros st st' r [= <- <-]. Qed.

Lemma keeps_lift {A} (r : result A) : keeps_file (lift r).
Proof. by intros st st' r' [= <- <-]. Qed.

Lemma keeps_read {A} (f : ChainStore → result A) : keeps_file (read f).
Proof. by intros st st' r' [= <- <-]. Qed.

Lemma keeps_raise {A} msg : keeps_file (raise (A:=A) msg).
Proof. apply keeps_lift. Qed.

Lemma keeps_bind {A B} (m : M A) (f : A → M B) :
  keeps_file m → (∀ a, keeps_file (f a)) → keeps_file (m ≫= f).
Proof.
  intros Hm Hf st st' r. rewrite M_bind_eq. destruct (m st) as [st1 [a|e]] eqn:E.
  - intros Hr. rewrite (Hf _ _ _ _ Hr). by eapply Hm.
  - intros [= <- <-]. by eapply Hm.
Qed.

Create HintDb keeps discriminated.
#[export] Hint Resolve keeps_ret keeps_lift keeps_read keeps_raise keeps_bind : keeps.

Section facts.
Context `{SignatureBackend} (env : Environ) (policy : option WalletPolicy).

Lemma rebuild_keeps t blocks : keeps_file (rebuild_chain_indexes env policy t blocks).
Proof.
  unfold rebuild_chain_indexes. apply keeps_bind; [auto with keeps|]. intros ip.
  apply keeps_bind; [|auto with keeps]. by intros st st' r [= <- <-].
Qed.

Lemma load_index_keeps t : keeps_file (load_or_rebuild_chain_index env policy t).
Proof.
  intros st st' r. unfold load_or_rebuild_chain_index.
  cbv zeta. match goal with |- ?m st = _ → _ => assert (keeps_file m) as Hk; [|apply Hk] end.
  apply keeps_bind; [auto with keeps|].
  intros [|]; [auto with keeps|]. destruct (chain_file st); [|auto with keeps].
  apply keeps_bind; [auto with keeps|]. intros [|b bs]; [auto with keeps|apply rebuild_keeps].
Qed.

Lemma balance_keeps t a : keeps_file (chain_balance_atomic env policy t a).
Proof.
  unfold chain_balance_atomic, stored_balance_index. apply keeps_bind; [|auto with keeps].
  apply keeps_bind; [apply load_index_keeps|]. intros [|]; auto with keeps.
Qed.

Lemma bonded_keeps t vfile : keeps_file (list_bonded_validators env policy t vfile).
Proof.
  unfold list_bonded_validators, list_effective_validator_records,
    _chain_locked_bonds_by_validator, stored_locked_bond_index.
  repeat (apply keeps_bind; [|intros; auto with keeps]).
  - apply load_index_keeps.
  - case_match; auto with keeps.
  - case_match; [auto with keeps|]. apply keeps_bind; [apply balance_keeps|auto with keeps].
Qed.
End facts.

Section merge.
Context `{SignatureBackend} (env : Environ) (policy : option WalletPolicy).

Lemma signed_keeps t vfile payload :
  keeps_file (_chain_payload_signed_by_bonded_validator env policy t vfile payload).
Proof.
  unfold _chain_payload_signed_by_bonded_validator.
  repeat (case_match; try (by auto with keeps)).
  apply keeps_bind; [apply bonded_keeps|]. intros bonded. cbv zeta.
  case_match; auto with keeps.
Qed.

Lemma save_writes t blocks st st' r :
  save_chain_blocks env policy t blocks st = (st', r) → chain_file st' = Some (chain_doc blocks).
Proof.
  unfold save_chain_blocks. rewrite M_bind_eq. cbn [modify].
  intros Hr.
  assert (keeps_file (rebuild_chain_indexes env policy t blocks ≫= λ _, mret tt)) as Hk
    by (apply keeps_bind; [apply rebuild_keeps|auto with keeps]).
  by apply Hk in Hr.
Qed.

(** ** What may be written *)

Lemma coerce_remote_valid now raws : ∀ done bs,
  coerce_remote_blocks env policy now raws done = Ok bs →
  bs = [] ∨ validate_chain_blocks env policy bs = Ok [].
Proof.
  induction raws as [|raw raws IH]; intros done bs; cbn [coerce_remote_blocks].
  - destruct (validate_chain_blocks env policy done) as [[|]|] eqn:E; cbn [mbind result_bind]; [| |done].
    + intros [= <-]. by right.
    + intros [= <-]. by left.
  - case_match; [|intros [= <-]; by left]. case_match; [intros [= <-]; by left|].
    destruct (_block_transactions_are_valid env policy _) as [[|]|]; cbn [mbind result_bind negb];
      [apply IH|intros [= <-]; by left|done].
Qed.

Lemma remote_chain_valid now raws bs :
  _coerce_valid_remote_chain env policy now raws = Ok bs → bs ≠ [] →
  valid_chain env policy (sort_blocks bs).
Proof.
  intros Hbs Hne. apply coerce_remote_valid in Hbs as [->|Hv]; [done|].
  by apply validate_chain_blocks_spec in Hv as [->|Hv].
Qed.

(** The import loop only adds blocks at the end. *)
Definition imported_from (local : list ChainBlock) (im : Import) : Prop :=
  ∃ new, im_local_blocks im = local ++ new ∧ im_blocks im = Z.of_nat (length new).

Lemma import_step_from now local im raw im' :
  imported_from local im → import_step env policy now im raw = Ok im' → imported_from local im'.
Proof.
  intros Him. unfold import_step. repeat case_match; try (by intros [= <-]).
  all: try (by intros Hr; cbn in Hr; congruence).
  all: destruct (_block_transactions_are_valid env policy _) as [[|]|]; cbn [mbind result_bind negb];
    try (by intros [= <-]); try done.
  repeat case_match; try (by intros [= <-]).
  intros [= <-]. destruct Him as (new & Hnew & Hn). eexists (new ++ [_]). cbn.
  rewrite Hnew, Hn, <- app_assoc, length_app. cbn. split; [done|lia].
Qed.

Lemma import_loop_from now local raws : ∀ im im',
  imported_from local im → foldM (import_step env policy now) im raws = Ok im' →
  imported_from local im'.
Proof.
  induction raws as [|raw raws IH]; intros im im' Him; cbn [foldM]; [by intros [= <-]|].
  destruct (import_step env policy now im raw) as [im1|] eqn:E; [|done].
  apply IH. by eapply import_step_from.
Qed.
(** Where an adopted fork may come from: the policy's own genesis block replaces a chain that
    is only a stale one, or a payload signed by an authorised validator keeps the first block. *)
Definition may_adopt (local blocks : list ChainBlock) (signed : bool) : Prop :=
  (∃ g, make_genesis_block env (_money_policy_for_wallet_policy env policy None) = Ok g
        ∧ _is_stale_genesis_only_chain local g = true ∧ head_hash blocks = block_hash g)
  ∨ (signed = true ∧ head_hash blocks = head_hash local).

Lemma save_then t blocks {A} (a : A) st st' r :
  (save_chain_blocks env policy t blocks ≫= λ _, mret a) st = (st', r) →
  chain_file st' = Some (chain_doc blocks) ∧ (r = Ok a ∨ ∃ e, r = Err e).
Proof.
  rewrite M_bind_eq. destruct (save_chain_blocks env policy t blocks st) as [st1 [u|e]] eqn:E;
    intros [= <- <-]; (split; [by eapply save_writes|eauto]).
Qed.

Lemma adopt_cases t remote local signed st st' r :
  _adopt_authoritative_remote_fork env policy t remote local signed st = (st', r) →
  (st' = st ∧ (∀ c, r ≠ Ok (Some c)))
  ∨ (chain_file st' = Some (chain_doc remote) ∧ remote ≠ [] ∧ r ≠ Ok None
     ∧ may_adopt local remote signed).
Proof.
  unfold _adopt_authoritative_remote_fork.
  destruct remote as [|r0 rs]; [intros [= <- <-]; by left|].
  destruct local as [|l0 ls]; [intros [= <- <-]; by left|].
  rewrite M_bind_eq. cbn [lift].
  destruct (make_genesis_block env _) as [g|e] eqn:Eg; [|intros [= <- <-]; by left].
  destruct (String.eqb _ _ && _) eqn:Estale.
  - intros Hr. apply save_then in Hr as [Hf Hr]. right. split; [done|]. split; [done|].
    split; [by destruct Hr as [->|[e ->]]|]. left. apply andb_true_iff in Estale as [Hh Hs].
    exists g. split; [done|]. split; [done|]. by apply String.eqb_eq.
  - destruct signed; [|intros [= <- <-]; by left]. cbn [negb].
    destruct (String.eqb_spec (head_hash (r0 :: rs)) (head_hash (l0 :: ls))) as [Hh|];
      [cbn [negb]|intros [= <- <-]; by left].
    case_bool_decide; [intros [= <- <-]; by left|].
    intros Hr. apply save_then in Hr as [Hf Hr]. right. split; [done|]. split; [done|].
    split; [by destruct Hr as [->|[e ->]]|]. by right.
Qed.

(** The raw blocks of a payload. *)
Definition payload_blocks (d : list (string * pyval)) : result (list pyval) :=
  py_list (py_or (dget "blocks" (match dget "chain" d with VDict c => c | _ => d end)) (VList [])).

(** The tail of the merge, after the fork was not adopted. *)
Lemma import_cases t local raws st st' r :
  (im ← lift (foldM (import_step env policy (now t)) (import_init local) (sort_raw_blocks raws));
   if im_blocks im =? 0 then mret (im_blocks im, im_transactions im)
   else
     let local_blocks := sort_blocks (im_local_blocks im) in
     validation_errors ← lift (validate_chain_blocks env policy local_blocks);
     match validation_errors with
     | _ :: _ =>
         raise ("Refusing chain payload that would make local chain invalid: "
                +:+ join "; " (take 3 validation_errors))
     | [] =>
         _ ← save_chain_blocks env policy t local_blocks;
         mret (im_blocks im, im_transactions im)
     end) st = (st', r) →
  st' = st
  ∨ ∃ new, new ≠ [] ∧ chain_file st' = Some (chain_doc (sort_blocks (local ++ new)))
      ∧ valid_chain env policy (sort_blocks (local ++ new)).
Proof.
  rewrite M_bind_eq. cbn [lift].
  destruct (foldM _ _ _) as [im|e] eqn:Eim; [|intros [= <- <-]; by left].
  assert (imported_from local im) as (new & Hnew & Hn).
  { eapply import_loop_from; [|exact Eim]. exists []. by rewrite app_nil_r. }
  destruct (Z.eqb_spec (im_blocks im) 0) as [|Hne]; [intros [= <- <-]; by left|].
  cbv zeta. rewrite M_bind_eq. cbn [lift]. rewrite Hnew.
  destruct (validate_chain_blocks _ _ _) as [[|msg msgs]|e] eqn:Ev; [|intros [= <- <-]; by left..].
  intros Hr. apply save_then in Hr as [Hf _]. right. exists new.
  assert (new ≠ []) as Hnn by (intros ->; cbn in Hn; lia). split; [done|]. split; [done|].
  apply validate_chain_blocks_spec in Ev as [Hnil|Hv]; [|by rewrite sort_blocks_idem in Hv].
  apply sort_blocks_nil, app_eq_nil in Hnil as [_ ?]. done.
Qed.

(** C8: whatever a peer sends, merging it leaves the chain file as it is unless the payload
    is for this network, passes the signature check, and the file written is a valid chain
    that either replaces a stale genesis by the policy's own, or keeps the first block and
    was vouched for by an authorised validator, or extends the local blocks, vouched for by
    an authorised validator when it carries anything above the genesis block. *)
Theorem merge_writes_only_valid_chains (t : Tick) (vfile : list ValidatorRecord)
    (d : list (string * pyval)) (st st' : ChainStore) (r : result (Z * Z))
    (Hrun : merge_remote_chain_payload env policy t vfile (VDict d) st = (st', r))
    (Hchanged : chain_file st' ≠ chain_file st) :
  ∃ local blocks st1 signed,
    chain_file st' = Some (chain_doc blocks)
    ∧ valid_chain env policy (sort_blocks blocks)
    ∧ list_chain_blocks env policy (now t) st = Ok local
    ∧ validate_peer_payload_network env (VDict d) policy "chain" = Ok (Some (policy_chain_id env policy))
    ∧ (verify_peer_payload_signature (VDict d) "chain" (peer_payload_signatures_required env policy)
         (peer_payload_hybrid_signatures_required env policy)).1 = true
    ∧ _chain_payload_signed_by_bonded_validator env policy t vfile (VDict d) st = (st1, Ok signed)
    ∧ (may_adopt local blocks signed
       ∨ (∃ new, new ≠ [] ∧ blocks = sort_blocks (local ++ new)
          ∧ (signed = true
             ∨ ∃ raws, payload_blocks d = Ok raws ∧ _raw_payload_has_non_genesis_block raws = false))).
Proof.
  revert Hrun. unfold merge_remote_chain_payload. rewrite M_bind_eq. cbn [lift].
  destruct (validate_peer_payload_network _ _ _ _) as [o|e] eqn:Enet; [|by intros [= <- <-]].
  pose proof (accepted_payload_is_ours _ _ _ _ _ Enet) as [-> _].
  destruct (verify_peer_payload_signature _ _ _ _) as [ok msg] eqn:Esig.
  destruct ok; [cbn [negb]|by intros [= <- <-]]. fold (payload_blocks d).
  repeat (match goal with |- (if ?c then raise _ else _) _ = _ → _ =>
    destruct c; [by intros [= <- <-]|] end).
  rewrite M_bind_eq. cbn [lift]. destruct (payload_blocks d) as [raws|e] eqn:Eraws; [|by intros [= <- <-]].
  case_bool_decide; [by intros [= <- <-]|].
  rewrite M_bind_eq. cbn [read].
  destruct (list_chain_blocks env policy (now t) st) as [local|e] eqn:Elocal; [|by intros [= <- <-]].
  rewrite M_bind_eq. cbn [lift].
  destruct (_coerce_valid_remote_chain _ _ _ _) as [remote|e] eqn:Eremote; [|by intros [= <- <-]].
  rewrite M_bind_eq.
  destruct (_chain_payload_signed_by_bonded_validator _ _ _ _ _ st) as [st1 [signed|e]] eqn:Esigned;
    pose proof (signed_keeps _ _ _ _ _ _ Esigned) as Hk1; [|intros [= <- <-]; congruence].
  rewrite M_bind_eq.
  destruct (_adopt_authoritative_remote_fork _ _ _ _ _ _ st1) as [st2 fork] eqn:Eadopt.
  apply adopt_cases in Eadopt as [[-> Hfork]|(Hf & Hne & Hfork & Hmay)].
  - destruct fork as [[c|]|e]; [by destruct (Hfork c)| |intros [= <- <-]; congruence].
    destruct (negb signed && _raw_payload_has_non_genesis_block raws) eqn:Eauth;
      [intros [= <- <-]; congruence|].
    intros Hr. apply import_cases in Hr as [->|(new & Hnew & Hf & Hv)]; [congruence|].
    exists local, (sort_blocks (local ++ new)), st1, signed. rewrite sort_blocks_idem.
    split_and!; try done. right. exists new. split_and!; try done.
    destruct signed; [by left|right]. exists raws. done.
  - intros Hr. assert (st' = st2) as -> by (destruct fork as [[c|]|e]; [| done|]; by injection Hr).
    exists local, remote, st1, signed. split_and!; try done; [|by left].
    by eapply remote_chain_valid.
Qed.
End merge.

(** ** Who vouches for a payload *)

Section authority.
Context {backend : SignatureBackend} {laws : SignatureLaws}.

(** The signer's address in a signed payload is the caller's, verbatim up to case and blanks. *)
Lemma signed_signer_address now payload pk seed pq sk wid a at_ signed :
  sign_peer_payload now payload pk seed pq sk wid (Some a) at_ = Ok signed →
  lower (strip a) ≠ "" →
  ∃ sg, dget "signature" signed = VDict sg ∧ dget "signer_address" sg = VStr (lower (strip a)).
Proof.
  unfold sign_peer_payload. cbn [default].
  destruct (String.eqb (strip pk) ""); [done|].
  rewrite bind_ok. intros (raw & _ & Hs). revert Hs.
  rewrite bind_ok. intros (s & _ & Hs). revert Hs.
  rewrite bind_ok. intros (pa & _ & Hs). revert Hs.
  rewrite bind_ok. intros ([[sch a'] pqs] & _ & [= <-]) Hne. rewrite dget_dset.
  eexists. split; [reflexivity|]. unfold dget. cbn.
  by rewrite (proj2 (String.eqb_neq _ _) Hne).
Qed.

(** The address that authorises a chain payload is the one its sender claims: any key
    pair signs a payload under any trusted validator's address, the signature check accepts
    it, and the payload counts as signed by that validator. *)
Theorem claimed_signer_address_authorises (env : Environ) (policy : option WalletPolicy)
    (t : Tick) (vfile : list ValidatorRecord) (st st1 : ChainStore)
    (now public_key seed name trusted : string) (payload signed : list (string * pyval))
    (pq_public pq_private wallet signed_at : option string)
    (Htrusted : trusted ∈ trusted_validator_addresses (default (default_wallet_policy env) policy))
    (Hfilled : lower (strip trusted) ≠ "")
    (Hbonded : list_bonded_validators env (Some (default (default_wallet_policy env) policy)) t vfile st
               = (st1, Ok []))
    (Hkeys : keys_match public_key seed pq_public pq_private)
    (Hpq : strip (default "" pq_public) ≠ "")
    (Hsigned : sign_peer_payload now payload public_key seed pq_public pq_private wallet
       (Some trusted) signed_at = Ok signed) :
  verify_peer_payload_signature (VDict signed) name true true = (true, None)
  ∧ _chain_payload_signed_by_bonded_validator env policy t vfile (VDict signed) st = (st1, Ok true).
Proof using laws.
  split.
  { eapply sign_verify_peer_payload; [exact Hkeys|by intros _|exact Hsigned]. }
  destruct (signed_signer_address _ _ _ _ _ _ _ _ _ _ Hsigned Hfilled) as (sg & Hsg & Ha).
  unfold _chain_payload_signed_by_bonded_validator. rewrite Hsg, Ha, str_or_strip_str.
  rewrite strip_lower, strip_idem, lower_idem. cbv zeta.
  set (rest := singleton_if_filled (lower (str_or_strip (dget "public_key_address" sg)))).
  clearbody rest. unfold singleton_if_filled. rewrite (proj2 (String.eqb_neq _ _) Hfilled).
  assert ({[lower (strip trusted)]} ∪ rest ≠ (∅ : gset string)) as Hne by set_solver.
  case_bool_decide as He; [done|]. rewrite M_bind_eq, Hbonded.
  change ([] ≫= _) with (@nil string). cbn [list_to_set].
  change (list_to_set []) with (∅ : gset string).
  assert ((∅ : gset string) ∖ {[ "" ]} = ∅) as -> by set_solver. rewrite size_empty.
  change (1 <? Z.of_nat 0) with false. cbv iota. case_bool_decide as Hempty; [|done].
  case_bool_decide as Hmeet; [exfalso|done].
  destruct (proj1 (set_eq _ _) Hempty (lower (strip trusted))) as [Hin _].
  refine (not_elem_of_empty _ (Hin _)). apply elem_of_intersection. split; [set_solver|]. apply elem_of_difference.
  split; [|set_solver]. apply elem_of_list_to_set.
  exact (list_elem_of_fmap_2 (λ a, lower (strip a)) _ _ Htrusted).
Qed.
End authority.

(** * Witnesses for peer payloads and merged chains *)

Import Signing.Transparent.

Definition demo_key : string := encode_bytes demo_seed.

Lemma demo_keys_match : keys_match demo_key demo_key (Some demo_key) (Some demo_key).
Proof. split; [exists demo_seed; split; vm_compute; reflexivity|]. right. vm_compute. reflexivity. Qed.

Definition signed_or (r : result (list (string * pyval))) : list (string * pyval) :=
  match r with Ok d => d | Err _ => [] end.

Lemma signed_or_ok r : is_ok r = true → r = Ok (signed_or r).
Proof. by destruct r. Qed.

(** An empty payload signed with the demonstration keys. *)
Definition demo_sign (signer : option string) : result (list (string * pyval)) :=
  sign_peer_payload "now" [] demo_key demo_key (Some demo_key) (Some demo_key) None signer None.

Lemma demo_sign_ok : is_ok (demo_sign None) = true.
Proof. vm_compute. reflexivity. Qed.

Lemma signed_peer_payload_verifies_witness :
  verify_peer_payload_signature (VDict (signed_or (demo_sign None))) "demo" true true = (true, None).
Proof.
  refine (proj1 (signed_peer_payload_verifies "now" demo_key demo_key "demo" [] _ (Some demo_key)
           (Some demo_key) None None None true demo_keys_match _ (signed_or_ok _ demo_sign_ok))).
  intros _. vm_compute. discriminate.
Defined.

Lemma own_metadata_accepted_witness :
  ∃ d, add_peer_payload_metadata no_env [("kind", VStr "job")] None = Ok d
    ∧ validate_peer_payload_network no_env (VDict d) None "job" = Ok (Some "mainnet").
Proof.
  destruct (policy_genesis_text no_env None) as (g & Hg & _).
  pose (d := dset "schema_version" (VInt PEER_PAYLOAD_SCHEMA_VERSION)
              (dset "genesis_hash" (VStr g)
                (dset "chain_id" (VStr "mainnet")
                  (dset "network" (VStr "mainnet") [("kind", VStr "job")])))).
  assert (add_peer_payload_metadata no_env [("kind", VStr "job")] None = Ok d) as Hadd
    by (unfold add_peer_payload_metadata; rewrite Hg; reflexivity).
  exists d. split; [exact Hadd|].
  exact (own_metadata_accepted no_env [("kind", VStr "job")] _ None "job" eq_refl Hadd).
Defined.

Lemma accepted_payload_is_ours_witness :
  ∃ d, validate_peer_payload_network no_env (VDict d) None "job" = Ok (Some "mainnet")
    ∧ ∃ g, policy_genesis_hash no_env None = Ok g ∧ _payload_genesis_hashes (VDict d) = {[ g ]}.
Proof.
  destruct own_metadata_accepted_witness as (d & _ & Hok). exists d. split; [exact Hok|].
  exact (proj1 (proj2 (accepted_payload_is_ours no_env d None "job" _ Hok))).
Defined.

(** A peer sends the genesis block to a node that has no chain yet. *)
Definition genesis_payload : list (string * pyval) :=
  [("chain_id", VStr "mainnet"); ("network", VStr "mainnet");
   ("genesis_hash", VStr (block_hash genesis)); ("blocks", VList [VDict (asdict_block genesis)])].

Definition file_written (p : ChainStore * result (Z * Z)) : bool :=
  match chain_file p.1 with Some _ => true | None => false end.

Lemma genesis_merged :
  file_written (merge_remote_chain_payload no_env None tick1 [] (VDict genesis_payload) empty_store) = true.
Proof. vm_compute. reflexivity. Qed.

Lemma file_written_changed p : file_written p = true → chain_file p.1 ≠ None.
Proof. unfold file_written. by destruct (chain_file p.1). Qed.

Lemma merge_writes_only_valid_chains_witness :
  ∃ blocks,
    chain_file (merge_remote_chain_payload no_env None tick1 [] (VDict genesis_payload) empty_store).1
    = Some (chain_doc blocks)
    ∧ valid_chain no_env None (sort_blocks blocks).
Proof.
  destruct (merge_writes_only_valid_chains no_env None tick1 [] genesis_payload empty_store _ _
              (surjective_pairing _) (file_written_changed _ genesis_merged))
    as (local & blocks & st1 & signed & Hf & Hv & _).
  exists blocks. split; [exact Hf|exact Hv].
Defined.

Definition trusted_validator : string :=
  match trusted_validator_addresses (default_wallet_policy no_env) with a :: _ => a | [] => "" end.

Lemma impostor_ok : is_ok (demo_sign (Some trusted_validator)) = true.
Proof. vm_compute. reflexivity. Qed.

Lemma claimed_signer_address_authorises_witness :
  (_chain_payload_signed_by_bonded_validator no_env None tick1 []
     (VDict (signed_or (demo_sign (Some trusted_validator)))) empty_store).2 = Ok true.
Proof.
  refine (f_equal snd (proj2 (claimed_signer_address_authorises no_env None tick1 [] empty_store
    empty_store "now" demo_key demo_key "demo" trusted_validator [] _ (Some demo_key) (Some demo_key)
    None None _ _ _ demo_keys_match _ (signed_or_ok _ impostor_ok)))).
  - apply (bool_decide_eq_true_1 _). vm_compute. reflexivity.
  - vm_compute. discriminate.
  - vm_compute. reflexivity.
  - vm_compute. discriminate.
Defined.
