(* ===== verification/ValidatorProps.v ===== *)
(** * Properties of the validator registry and of committees *)
From Stdlib Require Import Ascii QArith.
From S2P Require Import Prelude.
From S2P Require Import PyStr.
From S2P Require Import PyVal.
From S2P Require Import Money.
From S2P Require Import Signing.
From S2P Require Import ChainTx.
From S2P Require Import Ledger.
From S2P Require Import LedgerFacts.
From S2P Require Import ChainStore.
From S2P Require Import ChainOps.
From S2P Require Import StoreFacts.
From S2P Require Import Apportion.
From S2P Require Import Validators.
From S2P Require Import Demo.
Import Signing.Transparent.
Local Open Scope Z_scope.
Set Default Proof Using "Type".

(** ** Voting weight *)

(** The bonds of the validators in [A]. *)
Definition weight_in (m : gmap string Z) (A : gset string) : Z :=
  sumZ (map (λ kv : string * Z, if decide (kv.1 ∈ A) then kv.2 else 0) (map_to_list m)).

Definition nonneg_map (m : gmap string Z) : Prop := map_Forall (λ _ v, 0 ≤ v) m.

Lemma nonneg_map_list m kv : nonneg_map m → kv ∈ map_to_list m → 0 ≤ kv.2.
Proof. destruct kv as [k v]. intros Hm Hkv. apply elem_of_map_to_list in Hkv. by eapply Hm. Qed.

Lemma weight_inclusion_exclusion m A B :
  weight_in m A + weight_in m B = weight_in m (A ∪ B) + weight_in m (A ∩ B).
Proof.
  unfold weight_in. induction (map_to_list m) as [|[k v] l IH]; cbn [map sumZ]; [done|]. cbn [fst snd].
  destruct (decide (k ∈ A)), (decide (k ∈ B)), (decide (k ∈ A ∪ B)), (decide (k ∈ A ∩ B));
    set_solver by lia.
Qed.

Lemma weight_le_total m A : nonneg_map m → 0 ≤ weight_in m A ≤ map_sum m.
Proof.
  intros Hm. rewrite map_sum_to_list. unfold weight_in.
  assert (∀ kv, kv ∈ map_to_list m → 0 ≤ kv.2) as Hl by (intros; by eapply nonneg_map_list).
  induction (map_to_list m) as [|kv l IH]; cbn [map sumZ]; [lia|].
  specialize (Hl kv) as Hkv. rewrite elem_of_cons in Hkv. specialize (Hkv (or_introl eq_refl)).
  destruct IH as [IH1 IH2]; [intros x Hx; apply Hl, elem_of_cons; by right|].
  destruct (decide _); lia.
Qed.

Lemma weight_in_none m X : X = ∅ → weight_in m X = 0.
Proof.
  intros ->. unfold weight_in. induction (map_to_list m) as [|kv l IH]; cbn [map sumZ]; [done|].
  rewrite IH, decide_False; [done|set_solver].
Qed.

Lemma quorum_bond_bounds total :
  0 < total →
  2 * total ≤ 3 * _quorum_bond_atomic total ≤ 2 * total + 2 ∧ _quorum_bond_atomic total ≤ total.
Proof.
  intros Ht. unfold _quorum_bond_atomic. rewrite (proj2 (Z.leb_gt _ _) Ht).
  Z.to_euclidean_division_equations; lia.
Qed.

(** Two thirds of the bond is the quorum, and any two sets of validators that both reach
    it share validators holding at least a third of the bond: two contradicting quorums need
    a third of the bond to vote twice. *)
Theorem quorums_intersect (m : gmap string Z) (A B : gset string)
    (Hm : map_Forall (λ _ v, 0 ≤ v) m) (Ht : 0 < map_sum m)
    (HA : _quorum_bond_atomic (map_sum m) ≤ weight_in m A)
    (HB : _quorum_bond_atomic (map_sum m) ≤ weight_in m B) :
  map_sum m ≤ 3 * weight_in m (A ∩ B) ∧ A ∩ B ≠ ∅.
Proof.
  pose proof (weight_inclusion_exclusion m A B). pose proof (weight_le_total m (A ∪ B) Hm).
  pose proof (quorum_bond_bounds _ Ht) as [Hq _].
  assert (map_sum m ≤ 3 * weight_in m (A ∩ B)) as Hthird by lia. split; [done|].
  intros He. rewrite (weight_in_none m _ He) in Hthird. lia.
Qed.

Lemma quorums_intersect_witness :
  let m : gmap string Z := list_to_map [("a", 40); ("b", 30); ("c", 30)] in
  map_sum m ≤ 3 * weight_in m ({["a"; "b"]} ∩ {["a"; "c"]}).
Proof.
  apply (quorums_intersect _ {["a"; "b"]} {["a"; "c"]}).
  - apply (bool_decide_eq_true_1 _). vm_compute. reflexivity.
  - vm_compute. reflexivity.
  - vm_compute. discriminate.
  - vm_compute. discriminate.
Defined.

(** ** Bonds backed by the chain *)

Lemma backed_record r locked :
  let r' := _chain_backed_validator_record r locked in
  vr_state r' = BONDED → 0 < vr_bonded_atomic r' →
  r' = r ∧ vr_bonded_atomic r ≤ balance_of locked (_normalize_validator_id (vr_validator_id r)).
Proof.
  cbn zeta. unfold _chain_backed_validator_record. case_match eqn:Es; [|case_match eqn:Eb].
  - intros Hs. rewrite Hs in Es. done.
  - intros _ _. bool_to_prop. done.
  - intros Hs. cbn in Hs. discriminate.
Qed.

(** A sum over distinct keys is at most the total. *)
Lemma distinct_keys_le (m : gmap string Z) (ks : list string) :
  nonneg_map m → NoDup ks → sumZ (map (balance_of m) ks) ≤ map_sum m.
Proof.
  intros Hm Hnd. revert m Hm. induction Hnd as [|k ks Hk Hnd IH]; intros m Hm; cbn [map sumZ].
  - rewrite map_sum_to_list. apply sumZ_nonneg, Forall_map, Forall_forall. intros kv Hkv.
    by eapply nonneg_map_list.
  - rewrite (map_sum_delete m k).
    assert (map (balance_of m) ks = map (balance_of (delete k m)) ks) as ->.
    { apply map_ext_in. intros k' Hk'. apply list_elem_of_In in Hk'. unfold balance_of.
      rewrite lookup_delete_ne by (intros ->; done). done. }
    specialize (IH (delete k m) (map_Forall_delete _ _ _ Hm)). unfold balance_of at 1. lia.
Qed.

Lemma normalized_locked_nonneg index : nonneg_map (normalized_locked_bonds index).
Proof.
  unfold normalized_locked_bonds, nonneg_map. generalize (sorted_items index).
  assert (∀ l m, map_Forall (λ _ v, 0 ≤ v) m →
    map_Forall (λ _ v, 0 ≤ v) (foldl (λ (m : gmap string Z) (kv : string * Z),
      <[_normalize_validator_id kv.1 := Z.max 0 kv.2]> m) m l)) as Hgen.
  { induction l as [|kv l IH]; intros m Hm; cbn [foldl]; [done|]. apply IH.
    apply map_Forall_insert_2; [lia|done]. }
  intros l. apply Hgen, map_Forall_empty.
Qed.

Lemma bonded_map_sum l :
  NoDup (map vr_validator_id l) → map_sum (bonded_map l) = sumZ (map vr_bonded_atomic l).
Proof.
  unfold bonded_map.
  assert (∀ m : gmap string Z, NoDup (map vr_validator_id l) →
    (∀ i, i ∈ map vr_validator_id l → m !! i = None) →
    map_sum (foldl (λ (m : gmap string Z) r, <[vr_validator_id r := vr_bonded_atomic r]> m) m l)
    = map_sum m + sumZ (map vr_bonded_atomic l)) as Hgen.
  { induction l as [|r l IH]; intros m; cbn [foldl map sumZ]; [lia|].
    rewrite NoDup_cons. intros [Hr Hnd] Hm. rewrite IH; [|done|].
    - rewrite map_sum_insert_None by (apply Hm, elem_of_cons; by left). lia.
    - intros i Hi. rewrite lookup_insert_ne by (intros <-; done).
      apply Hm, elem_of_cons. by right. }
  intros Hnd. rewrite Hgen; [done|done|]. intros i _. apply lookup_empty.
Qed.

Definition normalized_ids (file : list ValidatorRecord) : list string :=
  map (λ r, _normalize_validator_id (vr_validator_id r)) file.

(** Records kept by the backing test, summed. *)
Lemma backed_sum locked records :
  nonneg_map locked → NoDup (normalized_ids records) →
  let bonded := filter (λ r, vr_state r = BONDED ∧ 0 < vr_bonded_atomic r)
                  (map (λ r, _chain_backed_validator_record r locked) records) in
  map_sum (bonded_map bonded) ≤ map_sum locked.
Proof.
  intros Hl Hnd. cbn zeta.
  assert (∀ rs, NoDup (normalized_ids rs) →
    let bonded := filter (λ r, vr_state r = BONDED ∧ 0 < vr_bonded_atomic r)
                    (map (λ r, _chain_backed_validator_record r locked) rs) in
    normalized_ids bonded `sublist_of` normalized_ids rs
    ∧ sumZ (map vr_bonded_atomic bonded) ≤ sumZ (map (balance_of locked) (normalized_ids bonded))) as Hgen.
  { induction rs as [|r rs IH]; intros Hn; cbn zeta; cbn [map]; [split; [constructor|done]|].
    apply NoDup_cons in Hn as [_ Hn]. destruct (IH Hn) as [IH1 IH2]. rewrite filter_cons.
    case_decide as Hd; [|split; [by constructor|done]].
    destruct (backed_record r locked) as [Heq Hle]; [apply Hd..|]. rewrite Heq in *.
    split; [by constructor|]. cbn [map sumZ normalized_ids]. unfold normalized_ids in IH2. lia. }
  destruct (Hgen records Hnd) as [Hsub Hsum].
  pose proof (sublist_NoDup _ _ Hnd Hsub) as Hnd'. rewrite bonded_map_sum.
  - etransitivity; [exact Hsum|]. by apply distinct_keys_le.
  - unfold normalized_ids in Hnd'. rewrite <- (map_map vr_validator_id) in Hnd'.
    by apply NoDup_fmap_1 in Hnd'.
Qed.

(** When the normalised ids of the registry are distinct, the voting power of a committee
    never exceeds the coins locked in the chain's bond pool: each member's claimed bond is
    covered by its own locked bond. *)
Theorem committee_power_backed_by_pool `{SignatureBackend} (env : Environ)
    (policy : option WalletPolicy) (t : Tick) (file bonded : list ValidatorRecord)
    (st st' : ChainStore) (Hids : NoDup (normalized_ids file))
    (Hrun : list_bonded_validators env policy t file st = (st', Ok bonded)) :
  cs_total_bonded_atomic (build_validator_committee_snapshot bonded) ≤ 0
  ∨ ∃ st1 st2 pool,
      chain_balance_atomic env policy t
        (validator_bond_pool_chain_address
           (money_policy_of env (wp_chain_network (default (default_wallet_policy env) policy)))) st1
      = (st2, Ok pool)
      ∧ cs_total_bonded_atomic (build_validator_committee_snapshot bonded) ≤ pool.
Proof.
  unfold list_bonded_validators, list_effective_validator_records in Hrun.
  rewrite !M_bind_eq in Hrun.
  destruct (_chain_locked_bonds_by_validator env policy t st) as [st0 [locked|e]] eqn:Hlock; [|done].
  cbn in Hrun. injection Hrun as <- <-.
  assert (NoDup (normalized_ids (list_validator_records file))) as Hnd.
  { unfold normalized_ids, list_validator_records. by rewrite (Permutation_map _ (py_sorted_perm _ _)). }
  unfold _chain_locked_bonds_by_validator in Hlock. rewrite M_bind_eq in Hlock.
  destruct (stored_locked_bond_index env policy t st) as [st1 [index|e]]; [|done].
  pose proof (backed_sum ∅ _ (map_Forall_empty _) Hnd) as Hempty. cbn zeta in Hempty.
  change (map_sum ∅) with 0 in Hempty.
  cbn zeta in Hlock. case_match.
  { injection Hlock as _ <-. by left. }
  rewrite M_bind_eq in Hlock.
  destruct (chain_balance_atomic env policy t _ st1) as [st2 [pool|e]] eqn:Hpool; [|done].
  cbn in Hlock. injection Hlock as <- <-. case_match eqn:Ep.
  - right. exists st1, st2, pool. split; [done|]. bool_to_prop. subst pool.
    apply backed_sum; [apply normalized_locked_nonneg|done].
  - by left.
Qed.

(** ** The registry *)

Definition record_ids (l : list ValidatorRecord) : list string := map vr_validator_id l.

Definition find_id (id : string) (l : list ValidatorRecord) : option ValidatorRecord :=
  List.find (λ r, String.eqb (vr_validator_id r) id) l.

Lemma find_id_some id l r :
  NoDup (record_ids l) → find_id id l = Some r ↔ r ∈ l ∧ vr_validator_id r = id.
Proof.
  unfold find_id, record_ids. induction l as [|x l IH]; cbn [map List.find].
  - intros _. split; [done|]. by intros [Hr%not_elem_of_nil _].
  - rewrite NoDup_cons. intros [Hx Hnd]. rewrite elem_of_cons.
    destruct (String.eqb_spec (vr_validator_id x) id) as [Hid|Hid].
    + split; [intros [= ->]; auto|]. intros [[->|Hr] Hrid]; [done|]. destruct Hx.
      rewrite Hid, <- Hrid. by apply list_elem_of_fmap_2.
    + rewrite (IH Hnd). split; [intros [? ?]; auto|]. by intros [[->|?] ?].
Qed.

Lemma find_id_none id l : find_id id l = None ↔ id ∉ record_ids l.
Proof.
  unfold find_id, record_ids. induction l as [|x l IH]; cbn [map List.find].
  - split; [intros _; apply not_elem_of_nil|done].
  - rewrite not_elem_of_cons. destruct (String.eqb_spec (vr_validator_id x) id) as [Hid|Hid].
    + split; [done|]. intros [Hne _]. by destruct Hne.
    + rewrite IH. split; [auto|]. by intros [_ ?].
Qed.

Lemma find_id_perm id l l' : NoDup (record_ids l) → l ≡ₚ l' → find_id id l = find_id id l'.
Proof.
  intros Hnd Hp.
  assert (NoDup (record_ids l')) as Hnd' by (unfold record_ids in *; by rewrite <- Hp).
  destruct (find_id id l') as [r|] eqn:E.
  - apply (find_id_some id l' r Hnd') in E. apply find_id_some; [done|]. by rewrite Hp.
  - apply find_id_none in E. apply find_id_none. unfold record_ids in *. by rewrite Hp.
Qed.

Lemma listed_ids file : NoDup (record_ids file) → NoDup (record_ids (list_validator_records file)).
Proof.
  unfold record_ids, list_validator_records.
  by rewrite (Permutation_map vr_validator_id (py_sorted_perm record_leb file)).
Qed.

Lemma get_record_find id file :
  NoDup (record_ids file) → get_validator_record id file = find_id id file.
Proof.
  intros Hnd. unfold get_validator_record. apply (find_id_perm id); [by apply listed_ids|apply py_sorted_perm].
Qed.

Lemma put_record_ids r l :
  record_ids (put_record r l) =
  if decide (vr_validator_id r ∈ record_ids l) then record_ids l
  else record_ids l ++ [vr_validator_id r].
Proof.
  induction l as [|x l IH]; [done|]. cbn [put_record record_ids map].
  destruct (String.eqb_spec (vr_validator_id x) (vr_validator_id r)) as [He|He].
  - rewrite decide_True by (rewrite He; apply elem_of_cons; by left). cbn. by rewrite He.
  - cbn [map]. unfold record_ids in IH. rewrite IH.
    destruct (decide (vr_validator_id r ∈ map vr_validator_id l)) as [Hin|Hin].
    + by rewrite decide_True by (apply elem_of_cons; by right).
    + rewrite decide_False; [done|]. rewrite not_elem_of_cons. split; [intros Heq; by apply He|done].
Qed.

Lemma find_put_record r l id :
  find_id id (put_record r l) = if String.eqb (vr_validator_id r) id then Some r else find_id id l.
Proof.
  unfold find_id. induction l as [|x l IH]; cbn [put_record List.find]; [done|].
  destruct (String.eqb_spec (vr_validator_id x) (vr_validator_id r)) as [He|He]; cbn [List.find].
  - rewrite He. by destruct (String.eqb _ id).
  - rewrite IH. destruct (String.eqb_spec (vr_validator_id x) id) as [Hx|Hx];
      destruct (String.eqb_spec (vr_validator_id r) id) as [Hr|Hr]; congruence.
Qed.

(** C19: [sync_validator_record] writes exactly one record: it keeps the ids distinct, the
    written record is the one read back, every other record is untouched, bonds stay
    non-negative, and neither the slashed total nor the activation time is ever rolled back. *)
Theorem sync_validator_record_correct (now : string) (a : SyncArgs) (file : list ValidatorRecord)
    (Hids : NoDup (record_ids file)) :
  let '(file', r) := sync_validator_record now a file in
  let previous := get_validator_record (sa_validator_id a) file in
  NoDup (record_ids file')
  ∧ get_validator_record (sa_validator_id a) file' = Some r
  ∧ (∀ id, id ≠ sa_validator_id a → get_validator_record id file' = get_validator_record id file)
  ∧ 0 ≤ vr_bonded_atomic r
  ∧ (∀ p, previous = Some p →
       vr_total_slashed_atomic p ≤ vr_total_slashed_atomic r
       ∧ (vr_activated_at p ≠ None → vr_activated_at r = vr_activated_at p)).
Proof.
  unfold sync_validator_record. fold (get_validator_record (sa_validator_id a) file).
  set (r := synced_record now a _). cbn zeta.
  pose proof (listed_ids file Hids) as Hs.
  assert (NoDup (record_ids (put_record r (list_validator_records file)))) as Hnd.
  { rewrite put_record_ids. case_decide as Hd; [done|]. apply NoDup_app. split; [done|].
    split; [|apply NoDup_singleton]. intros i Hi ->%list_elem_of_singleton. done. }
  split; [done|]. rewrite get_record_find, find_put_record by done.
  change (vr_validator_id r) with (sa_validator_id a). rewrite String.eqb_refl.
  split; [done|]. split; [|split; [cbn; lia|]].
  - intros id Hid. rewrite get_record_find, find_put_record by done.
    change (vr_validator_id r) with (sa_validator_id a).
    rewrite (proj2 (String.eqb_neq _ _)) by congruence. reflexivity.
  - intros p Hp. subst r. cbn. rewrite Hp. cbn. split; [lia|].
    intros Hact. destruct (vr_activated_at p); [|done]. by rewrite andb_false_r.
Qed.

Lemma sync_validator_record_correct_witness :
  let d := map (λ i, synced_record "t0" (sync_of_record i) None)
             [synced_record "t" {| sa_validator_id := "v"; sa_wallet_id := VNone; sa_address := "v";
                sa_state := BONDED; sa_bonded_atomic := 9; sa_static_ip_confirmed := true;
                sa_current_node_id := None; sa_advertised_api_host := None;
                sa_advertised_data_host := None; sa_ha_enabled := None; sa_ha_role := "standalone";
                sa_active_replica_node_id := None; sa_active_replica_lease_until := None;
                sa_replica_node_ids := []; sa_unbonding_started_at := None;
                sa_unbonding_available_at := None; sa_jailed_at := None;
                sa_unjail_available_at := None; sa_last_slash_atomic := 0;
                sa_total_slashed_atomic := 4; sa_source := "peer"; sa_source_url := None;
                sa_last_seen_at := None; sa_updated_at := None |} None] in
  ∃ r0, d = [r0]
    ∧ NoDup (record_ids (sync_validator_record "t1" (penalty_args 3 false None None r0) d).1)
    ∧ vr_total_slashed_atomic (sync_validator_record "t1" (penalty_args 3 false None None r0) d).2 = 7.
Proof.
  cbn zeta. eexists. split; [reflexivity|]. split; [|vm_compute; reflexivity].
  match goal with |- context [sync_validator_record ?n ?a ?d] =>
    destruct (sync_validator_record_correct n a d) as [H _]; [|exact H] end.
  apply (bool_decide_eq_true_1 _). vm_compute. reflexivity.
Defined.

Lemma get_record_elem id file r : get_validator_record id file = Some r → vr_validator_id r = id.
Proof.
  unfold get_validator_record. intros Hf. apply List.find_some in Hf as [_ He].
  by apply String.eqb_eq in He.
Qed.

(** A penalty reported by a peer never touches a local validator's record, and on a
    remote one it lowers the bond by the slash, not below zero, or clears it when the
    validator is jailed, and adds the slash to the total; every other record stays. *)
Theorem remote_penalty_bounded (now id : string) (slash : Z) (jailed : bool)
    (observed_at url : option string) (file : list ValidatorRecord) (e : ValidatorRecord)
    (Hids : NoDup (record_ids file)) (Hbond : 0 ≤ vr_bonded_atomic e)
    (He : get_validator_record (lower (strip id)) file = Some e) :
  let '(file', changed) :=
    apply_remote_validator_penalty_to_registry now id slash jailed observed_at url file in
  (vr_source e = "local" → file' = file ∧ changed = false)
  ∧ (∀ other, other ≠ lower (strip id) →
       get_validator_record other file' = get_validator_record other file)
  ∧ (changed = true → ∃ e', get_validator_record (lower (strip id)) file' = Some e'
       ∧ vr_bonded_atomic e' = (if jailed then 0 else Z.max 0 (vr_bonded_atomic e - Z.max 0 slash))
       ∧ vr_state e' = (if jailed then JAILED else vr_state e)
       ∧ vr_total_slashed_atomic e' = vr_total_slashed_atomic e + Z.max 0 slash).
Proof.
  unfold apply_remote_validator_penalty_to_registry. rewrite He.
  destruct (String.eqb (lower (strip id)) ""); [done|].
  destruct (String.eqb_spec (vr_source e) "local") as [Hl|Hl]; [done|].
  set (a := penalty_args slash jailed observed_at url e).
  destruct (penalty_is_noop a e); [done|].
  assert (sa_validator_id a = lower (strip id)) as Hid by (by apply get_record_elem in He).
  assert (NoDup (record_ids (list_validator_records file))) as Hs by by apply listed_ids.
  assert (∀ i, get_validator_record i (sync_validator_record now a file).1
    = if String.eqb (sa_validator_id a) i then Some (synced_record now a (Some e))
      else get_validator_record i file) as Hget.
  { intros i. unfold sync_validator_record. fold (get_validator_record (sa_validator_id a) file).
    rewrite Hid, He. cbn [fst]. rewrite get_record_find.
    - rewrite find_put_record, <- Hid. reflexivity.
    - rewrite put_record_ids. case_decide as Hd; [done|]. apply NoDup_app. split; [done|].
      split; [|apply NoDup_singleton]. intros j Hj ->%list_elem_of_singleton. done. }
  split; [done|]. split.
  - intros o Ho. rewrite Hget, Hid, (proj2 (String.eqb_neq _ _)) by congruence. done.
  - intros _. exists (synced_record now a (Some e)). rewrite Hget, Hid, String.eqb_refl.
    split; [done|]. subst a. cbn -[Z.max Z.ltb Z.add Z.sub].
    destruct jailed, (Z.ltb_spec 0 (Z.max 0 slash)); split_and!; first [done|lia].
Qed.

Lemma bonded_map_snoc l r :
  bonded_map (l ++ [r]) = <[vr_validator_id r := vr_bonded_atomic r]> (bonded_map l).
Proof. unfold bonded_map. by rewrite foldl_snoc. Qed.

Lemma bonded_map_elem l id b :
  bonded_map l !! id = Some b → ∃ r, r ∈ l ∧ vr_validator_id r = id ∧ vr_bonded_atomic r = b.
Proof.
  induction l as [|r l IH] using rev_ind; [done|]. rewrite bonded_map_snoc.
  intros [[Hid Hb]|[Hid Hb]]%lookup_insert_Some.
  - exists r. set_solver.
  - destruct (IH Hb) as (r' & ? & ? & ?). exists r'. set_solver.
Qed.

Lemma bonded_map_size l : NoDup (record_ids l) → size (bonded_map l) = length l.
Proof.
  unfold record_ids. induction l as [|r l IH] using rev_ind; [done|].
  rewrite bonded_map_snoc, map_app, length_app. cbn [map length].
  intros (Hnd & Hnot & _)%NoDup_app.
  assert (bonded_map l !! vr_validator_id r = None) as Hn.
  { destruct (bonded_map l !! vr_validator_id r) eqn:E; [|done].
    apply bonded_map_elem in E as (r' & Hr' & Hid & _).
    destruct (Hnot (vr_validator_id r)); [rewrite <- Hid; by apply list_elem_of_fmap_2|set_solver]. }
  rewrite map_size_insert_None, IH by done. lia.
Qed.

(** What the committee of a sample of the bonded validators is. *)
Lemma committee_of_sample (bonded selected l : list ValidatorRecord) :
  NoDup (record_ids bonded) → l ≡ₚ bonded → selected `sublist_of` l →
  let snap := committee_of selected in
  size (cs_bonded snap) = length selected
  ∧ (∀ id b, cs_bonded snap !! id = Some b →
       ∃ r, r ∈ bonded ∧ vr_validator_id r = id ∧ vr_bonded_atomic r = b)
  ∧ cs_total_bonded_atomic snap = map_sum (cs_bonded snap)
  ∧ cs_quorum_bond_atomic snap = _quorum_bond_atomic (cs_total_bonded_atomic snap).
Proof.
  intros Hnd Hp Hsub. cbn. split_and!; [|intros id b Hb|done..].
  - apply bonded_map_size. apply (sublist_NoDup _ (record_ids l)).
    + unfold record_ids in *. by rewrite (Permutation_map vr_validator_id Hp).
    + exact (fmap_sublist vr_validator_id _ _ Hsub).
  - apply bonded_map_elem in Hb as (r & Hr & ? & ?). exists r. split; [|done].
    rewrite <- Hp. by eapply elem_of_sublist.
Qed.

Lemma weighted_sample lottery_key bonded k seed :
  ∃ l, l ≡ₚ bonded ∧ _select_weighted_committee lottery_key bonded (Z.of_nat k) seed = take k l.
Proof.
  unfold _select_weighted_committee. rewrite Nat2Z.id.
  set (key := λ r, (lottery_key seed (vr_validator_id r) (Z.max 1 (vr_bonded_atomic r)), r)).
  exists (map snd (py_sorted ranked_leb (map key bonded))). split; [|by rewrite firstn_map].
  rewrite (Permutation_map snd (py_sorted_perm ranked_leb (map key bonded))), map_map.
  subst key. cbn. by rewrite map_id.
Qed.

(** A committee drawn from the bonded validators has the wanted size (all of them when
    there are fewer), its members are bonded validators, and its voting power is the sum of
    their bonds, with the quorum at two thirds of it, whatever the lottery keys are. *)
Theorem select_committee_correct (lottery_key : string → string → Z → Q) (seed : string)
    (target : option Z) (mp : MoneyPolicy) (bonded : list ValidatorRecord)
    (Hids : NoDup (record_ids bonded)) :
  let desired0 := default (validator_committee_target_size mp) target in
  let n := Z.of_nat (length bonded) in
  let snap := select_validator_committee_snapshot lottery_key seed target mp bonded in
  Z.of_nat (size (cs_bonded snap)) = (if desired0 <=? 0 then n else Z.min desired0 n)
  ∧ (∀ id b, cs_bonded snap !! id = Some b →
       ∃ r, r ∈ bonded ∧ vr_validator_id r = id ∧ vr_bonded_atomic r = b)
  ∧ cs_total_bonded_atomic snap = map_sum (cs_bonded snap)
  ∧ cs_quorum_bond_atomic snap = _quorum_bond_atomic (cs_total_bonded_atomic snap).
Proof.
  cbn zeta. unfold select_validator_committee_snapshot.
  destruct bonded as [|r0 l0].
  { cbn -[Z.leb Z.min]. rewrite map_size_empty. split_and!; [|done..].
    destruct (Z.leb_spec (default (validator_committee_target_size mp) target) 0); lia. }
  cbn zeta. remember (r0 :: l0) as bonded eqn:Eb.
  set (desired0 := default _ target). set (n := Z.of_nat (length bonded)).
  assert (0 < n) as Hn by (subst n bonded; cbn; lia).
  set (want := if desired0 <=? 0 then n else Z.min desired0 n).
  assert (Z.min (if desired0 <=? 0 then n else desired0) n = want) as ->.
  { subst want. destruct (desired0 <=? 0); lia. }
  assert (0 ≤ want ≤ n) as Hw.
  { subst want. destruct (Z.leb_spec desired0 0); lia. }
  destruct (Z.leb_spec n want) as [Hle|Hlt].
  - destruct (committee_of_sample bonded bonded bonded) as (Hs & Hrest); [done..|].
    split; [|exact Hrest]. rewrite Hs. fold n. lia.
  - destruct (weighted_sample lottery_key bonded (Z.to_nat want) seed) as (l & Hp & Hsel).
    rewrite Z2Nat.id in Hsel by lia. rewrite Hsel.
    destruct (committee_of_sample bonded (take (Z.to_nat want) l) l) as (Hs & Hrest);
      [done|done|apply sublist_take|].
    split; [|exact Hrest]. rewrite Hs, length_take, Hp. assert (Z.of_nat (length bonded) = n) by done. lia.
Qed.

Lemma select_committee_correct_witness :
  let snap := select_validator_committee_snapshot (λ _ _ w, (- 1 / inject_Z w)%Q) "seed"
                (Some 1) mainnet_money demo_validators in
  Z.of_nat (size (cs_bonded snap)) = 1 ∧ cs_bonded snap = {["val2" := 9]}.
Proof.
  cbn zeta. split; [|vm_compute; reflexivity].
  apply (select_committee_correct (λ _ _ w, (- 1 / inject_Z w)%Q) "seed" (Some 1) mainnet_money
           demo_validators).
  apply (bool_decide_eq_true_1 _). vm_compute. reflexivity.
Defined.

Lemma remote_penalty_bounded_witness :
  ∃ e', get_validator_record "val1"
          (apply_remote_validator_penalty_to_registry "t" " Val1 " 7 false None None demo_validators).1
        = Some e' ∧ vr_bonded_atomic e' = 0 ∧ vr_total_slashed_atomic e' = 7.
Proof.
  destruct (remote_penalty_bounded "t" " Val1 " 7 false None None demo_validators
              (demo_validator "val1" 5)) as (_ & _ & Hc).
  - apply (bool_decide_eq_true_1 _). vm_compute. reflexivity.
  - done.
  - reflexivity.
  - destruct Hc as (e' & Hg & Hb & _ & Ht); [vm_compute; reflexivity|].
    exists e'. split; [exact Hg|]. split; [exact Hb|exact Ht].
Defined.

Lemma committee_power_backed_by_pool_witness :
  cs_total_bonded_atomic (build_validator_committee_snapshot [demo_validator "val1" 5]) = 5
  ∧ ∃ pool, 5 ≤ pool.
Proof.
  split; [vm_compute; reflexivity|]. destruct demo_bonded as [st Hrun].
  destruct (committee_power_backed_by_pool no_env None tick1 demo_validators
              [demo_validator "val1" 5] appended.1 st) as [Hle|(_ & _ & pool & _ & Hpool)].
  - apply (bool_decide_eq_true_1 _). vm_compute. reflexivity.
  - exact Hrun.
  - vm_compute in Hle. exact (False_ind _ (Hle eq_refl)).
  - exists pool. exact Hpool.
Defined.
