(* ===== verification/FundingProps.v ===== *)
(** * Properties of prices and funding *)
From Stdlib Require Import Ascii QArith.
From S2P Require Import Prelude.
From S2P Require Import PyStr.
From S2P Require Import PyVal.
From S2P Require Import Money.
From S2P Require Import Signing.
From S2P Require Import ChainTx.
From S2P Require Import Ledger.
From S2P Require Import ChainStore.
From S2P Require Import SettlementData.
From S2P Require Import Funding.
From S2P Require Import Demo.
Import Signing.Transparent.
Local Open Scope Z_scope.
Set Default Proof Using "Type".

(** The two fee rates leave something for the workers. *)
Definition sane_rates (mp : MoneyPolicy) : Prop :=
  0 ≤ validator_settlement_fee_bps mp ∧ 0 ≤ ai_development_fee_bps mp
  ∧ validator_settlement_fee_bps mp + ai_development_fee_bps mp ≤ 10000.

(** A fee quote splits the compute cost exactly into the validators' fee, the AI fee and
    the workers' reward, none of them negative, each fee at most its rate of the cost. *)
Lemma fee_quote_exact (c : Z) (mp : MoneyPolicy) (fee : option Z) (q : FeeQuote)
    (Hc : 0 ≤ c) (Hrates : sane_rates mp) (Hq : build_fee_quote c mp fee = Ok q) :
  fq_settlement_fee_atomic q + fq_ai_development_fee_atomic q + fq_worker_reward_atomic q
  = fq_compute_cost_atomic q
  ∧ fq_compute_cost_atomic q = c
  ∧ 0 ≤ fq_settlement_fee_atomic q ∧ 0 ≤ fq_ai_development_fee_atomic q
  ∧ 0 ≤ fq_worker_reward_atomic q
  ∧ 10000 * fq_settlement_fee_atomic q ≤ c * validator_settlement_fee_bps mp
  ∧ 10000 * fq_ai_development_fee_atomic q ≤ c * ai_development_fee_bps mp.
Proof.
  destruct Hrates as (Hs & Ha & Hsum). revert Hq. unfold build_fee_quote. rewrite bind_ok.
  intros (f & _ & Hq). apply (inj Ok) in Hq as <-. cbn.
  set (s := c * validator_settlement_fee_bps mp). set (a := c * ai_development_fee_bps mp).
  assert (0 ≤ s ∧ 0 ≤ a ∧ s + a ≤ c * 10000) as (? & ? & ?) by (subst s a; nia).
  clearbody s a. Z.to_euclidean_division_equations. lia.
Qed.

(** ** Token prices *)

Lemma mul_div_mono a b k : a ≤ b → 0 ≤ k → a * k / 10000 ≤ b * k / 10000.
Proof. intros. apply Z.div_le_mono; nia. Qed.

(** A token price stays between the protocol's floor and cap whatever the token counts
    and the multiplier, is reported as capped exactly when the uncapped price exceeds the cap,
    and never falls when the token counts or the multiplier grow. *)
Lemma token_price_bounded_monotone (p1 p2 o1 o2 : option Z) (m1 m2 : Z) (mp : MoneyPolicy)
    (inp outp floor cap : Z) (c1 c2 : TokenPricedCost)
    (Hin : 0 ≤ inp) (Hout : 0 ≤ outp) (Hfc : floor ≤ cap)
    (Hp : default 0 p1 ≤ default 0 p2) (Ho : default 0 o1 ≤ default 0 o2) (Hm : m1 ≤ m2)
    (H1 : calculate_token_priced_cost p1 o1 m1 mp (Some inp) (Some outp) (Some floor) (Some cap) = Ok c1)
    (H2 : calculate_token_priced_cost p2 o2 m2 mp (Some inp) (Some outp) (Some floor) (Some cap) = Ok c2) :
  floor ≤ tc_compute_cost_atomic c1 ≤ tc_compute_cost_atomic c2
  ∧ tc_compute_cost_atomic c2 ≤ cap
  ∧ 0 ≤ tc_base_price_atomic c1 ≤ tc_base_price_atomic c2
  ∧ (tc_was_capped c1 = true → tc_compute_cost_atomic c1 = cap ∧ tc_was_capped c2 = true).
Proof.
  apply (inj Ok) in H1 as <-. apply (inj Ok) in H2 as <-. cbn -[Z.max Z.min Z.div Z.mul Z.ltb].
  set (b1 := _ + _). set (b2 := Z.max (default 0 p2) 0 * inp + _).
  assert (0 ≤ b1 ≤ b2) as Hb by (subst b1 b2; nia).
  assert (b1 * Z.max m1 1000 / 10000 ≤ b2 * Z.max m2 1000 / 10000) as Hraw.
  { apply Z.div_le_mono; [lia|]. apply Z.mul_le_mono_nonneg; lia. }
  split; [lia|]. split; [lia|]. split; [lia|]. intros Hcap%Z.ltb_lt.
  split; [lia|]. apply Z.ltb_lt. lia.
Qed.

Lemma token_price_bounded_monotone_witness :
  ∃ c, calculate_token_priced_cost (Some 100) (Some 128) 10000 mainnet_money (Some 300) (Some 600)
         (Some 100000) (Some 500000) = Ok c
    ∧ 100000 ≤ tc_compute_cost_atomic c ≤ 500000.
Proof.
  eexists. split; [reflexivity|].
  destruct (token_price_bounded_monotone (Some 100) (Some 100) (Some 128) (Some 128) 10000 10000
              mainnet_money 300 600 100000 500000 _ _ ltac:(lia) ltac:(lia) ltac:(lia) ltac:(lia)
              ltac:(lia) ltac:(lia) eq_refl eq_refl) as (H1 & H2 & _).
  split; [exact (proj1 H1)|exact H2].
Defined.

(** ** The funding plan *)

(** The payments a preference allows in the order it prefers them: who funds the job, and what
    the reserve and the wallet pay. *)
Definition offered (pref : PaymentPreference) (compute tx_fee : Z) : list (FundingSource * Z * Z) :=
  match pref with
  | RESERVE_ONLY => [(RESERVE, compute, tx_fee)]
  | WALLET_ONLY => [(WALLET, 0, compute + tx_fee)]
  | AUTO => [(RESERVE, compute, tx_fee); (RESERVE, compute + tx_fee, 0); (WALLET, 0, compute + tx_fee)]
  end.

(** A payment both purses can bear, by the reserve only within the allowance. *)
Definition permitted (reserve wallet : Z) (within : Prop) (p : FundingSource * Z * Z) : Prop :=
  let '(source, reserve_debit, wallet_debit) := p in
  reserve_debit ≤ reserve ∧ wallet_debit ≤ wallet ∧ (source = RESERVE → within).

(** The daily allowance of an identity: that of clients for the keys of an IP address or
    network, that of users for the others; none when it is switched off or left blank. *)
Definition daily_allowance (mp : MoneyPolicy) (key : string) (limit : Z) : Prop :=
  let client := startswith "ip:" (strip key) || startswith "ip-prefix:" (strip key) in
  let enabled := if client then daily_ip_reserve_limit_enabled mp else daily_user_reserve_limit_enabled mp in
  let coins := strip (if client then daily_ip_reserve_limit_coins mp else daily_user_reserve_limit_coins mp) in
  enabled = true ∧ coins ≠ "" ∧ ∃ v, coins_to_atomic coins mp = Ok v ∧ limit = Z.max v 0.

Section spent.
Context (is_today : string → bool).

(** What the chain debited the reserve today on account of an identity. *)
Definition chain_debited (key : string) (blocks : list ChainBlock) : Z :=
  let counts (tx : ChainTransaction) :=
    tx_type tx = "settlement_compute_reserve_debit" ∧ is_today (tx_created_at tx) = true
    ∧ key ∈ _reserve_limit_identity_keys_from_metadata (metadata tx)
              (py_str (py_or (dget "source_wallet_id" (metadata tx)) (VStr ""))) in
  sumZ (map (λ tx, _reserve_compute_cost_from_metadata (metadata tx) (Z.abs (delta_atomic tx)))
         (filter counts (blocks ≫= transactions))).

(** What the stored settlements cost the reserve today on account of an identity: the nonblank
    keys of a settlement, or its wallet where it has none. *)
Definition settlements_cost (key : string) (file : list SettlementRecord) : Z :=
  let named (s : SettlementRecord) := filter (λ k, strip k ≠ "") (sr_reserve_limit_identity_keys s) in
  let counts (s : SettlementRecord) :=
    lower (strip (sr_funding_source s)) = "reserve" ∧ is_today (sr_created_at s) = true
    ∧ ((named s = [] ∧ key = wallet_key (sr_source_wallet_id s)) ∨ key ∈ named s) in
  sumZ (map sr_compute_cost_atomic (filter counts file)).

Lemma sumZ_if {A} (P : A → Prop) `{∀ x, Decision (P x)} (f g : A → Z) l :
  (∀ x, f x = if decide (P x) then g x else 0) → sumZ (map f l) = sumZ (map g (filter P l)).
Proof.
  intros Hf. induction l as [|x l IH]; [done|]. rewrite filter_cons. cbn. rewrite (Hf x), IH.
  by destruct (decide (P x)).
Qed.

Lemma chain_spend_debited key blocks :
  sumZ (map (chain_spend is_today key) (blocks ≫= transactions)) = chain_debited key blocks.
Proof.
  apply sumZ_if. intros tx. unfold chain_spend. case_decide as Hc.
  - destruct Hc as (-> & -> & Hk). by rewrite bool_decide_true.
  - destruct (String.eqb_spec (tx_type tx) "settlement_compute_reserve_debit") as [E|_]; [|done].
    cbn [negb]. case_bool_decide; [|done]. cbn [negb]. destruct (is_today _) eqn:Et; [|done]. tauto.
Qed.

Lemma settlements_spend_cost key file :
  _daily_user_reserve_spent_today_from_settlements is_today key file = settlements_cost key file.
Proof.
  unfold _daily_user_reserve_spent_today_from_settlements, settlements_cost, list_settlements, newest_first.
  rewrite (Permutation_map _ (py_sorted_perm _ _)).
  apply sumZ_if. intros s. unfold settlement_spend.
  assert (filter (λ k, negb (String.eqb (strip k) "")) (sr_reserve_limit_identity_keys s)
          = filter (λ k, strip k ≠ "") (sr_reserve_limit_identity_keys s)) as ->.
  { apply list_filter_iff. intros k. destruct (String.eqb_spec (strip k) ""); cbn; naive_solver. }
  set (named := filter (λ k, strip k ≠ "") _). set (source := lower _).
  assert (key ∈ match named with [] => [wallet_key (sr_source_wallet_id s)] | k :: l => k :: l end
    ↔ (named = [] ∧ key = wallet_key (sr_source_wallet_id s)) ∨ key ∈ named) as Hkeys.
  { destruct named; set_solver. }
  case_bool_decide as Hk; cbn [negb].
  - destruct (String.eqb_spec source "reserve") as [E|E]; cbn [negb].
    + destruct (is_today (sr_created_at s)); cbn [negb]; case_decide as Hc; [done|tauto| |done].
      by destruct Hc as (_ & ? & _).
    + rewrite decide_False by tauto. done.
  - rewrite decide_False by tauto. done.
Qed.

(** What an identity has cost the reserve today, by the chain or by the settlements if they
    say more.  A chain that does not validate counts nothing. *)
Definition spent_today (key : string) (chain : result (list ChainBlock)) (file : list SettlementRecord) : Z :=
  Z.max (match chain with Ok blocks => chain_debited key blocks | Err _ => 0 end) (settlements_cost key file).

Lemma spent_by_identity wallet_id keys chain file spent :
  _daily_reserve_spent_today_by_identity is_today wallet_id keys chain file = Ok spent →
  ∀ key, key ∈ keys → spent_of spent key = spent_today key chain file.
Proof.
  unfold _daily_reserve_spent_today_by_identity. intros Hs key Hk.
  destruct keys as [|k0 keys]; [by apply not_elem_of_nil in Hk|]. apply mapM_r_ok in Hs. revert Hk.
  induction Hs as [|k [k' v] l spent Hv Hs IH]; intros Hk; [by apply not_elem_of_nil in Hk|].
  revert Hv. rewrite bind_ok. intros (c & Hc & [= <- <-]).
  unfold spent_of. cbn [List.find fst snd]. destruct (String.eqb_spec k key) as [->|Hne].
  - unfold spent_today. rewrite settlements_spend_cost. f_equal.
    destruct chain as [blocks|[]]; cbn in Hc; try discriminate; injection Hc as <-; [|done].
    by rewrite chain_spend_debited.
  - apply IH. set_solver.
Qed.
End spent.

Lemma daily_limit_allowance enabled coins mp o :
  daily_limit enabled coins mp = Ok o →
  ∀ limit, o = Some limit ↔ enabled = true ∧ strip coins ≠ "" ∧ ∃ v, coins_to_atomic (strip coins) mp = Ok v ∧ limit = Z.max v 0.
Proof.
  unfold daily_limit. destruct enabled; cbn [negb].
  2: { intros [= <-] limit. split; [done|by intros [? _]]. }
  destruct (String.eqb_spec (strip coins) "") as [E|E].
  { intros [= <-] limit. split; [done|by intros (_ & ? & _)]. }
  rewrite bind_ok. intros (v & Hv & [= <-]) limit. rewrite Hv. split.
  - intros [= <-]. eauto.
  - intros (_ & _ & v' & [= <-] & ->). done.
Qed.

Lemma identity_limits_allowance mp keys limits :
  identity_limits mp keys = Ok limits →
  ∀ key limit, (key, limit) ∈ limits ↔ key ∈ keys ∧ daily_allowance mp key limit.
Proof.
  unfold identity_limits. rewrite bind_ok. intros (l & Hl & [= <-]) key limit.
  apply mapM_r_ok in Hl. induction Hl as [|k x keys l Hx Hl IH]; [cbn; set_solver|].
  - revert Hx. unfold identity_limit. rewrite bind_ok. intros (o & Ho & [= <-]).
    assert (∀ v, o = Some v ↔ daily_allowance mp k v) as Hall.
    { unfold _daily_reserve_limit_for_identity_key, daily_allowance in *. cbv zeta in Ho.
      destruct (startswith "ip:" (strip k) || startswith "ip-prefix:" (strip k));
        unfold _daily_ip_reserve_limit_atomic, _daily_user_reserve_limit_atomic in Ho;
        exact (daily_limit_allowance _ _ _ _ Ho). }
    rewrite elem_of_cons. destruct o as [v|]; cbn.
    + rewrite elem_of_cons, IH. split.
      * intros [[= -> ->]|[? ?]]; [split; [by left|by apply Hall]|tauto].
      * intros [[->|?] Hd]; [left|by right]. apply Hall in Hd. congruence.
    + rewrite IH. split; [tauto|]. intros [[->|?] Hd]; [|done]. apply Hall in Hd. done.
Qed.

(** The identities a plan is charged to: those of the request, or of its wallet and client. *)
Definition charged_to ip_address ip_network (wallet_id : string) (ip : option string) (mp : MoneyPolicy)
    (provided : option (list string)) (keys : list string) : Prop :=
  let given := filter (λ k, strip k ≠ "") (default [] provided) in
  (given ≠ [] ∧ keys = given)
  ∨ (given = [] ∧ build_reserve_limit_identity_keys ip_address ip_network wallet_id ip mp = Ok keys).

Definition within_allowance (mp : MoneyPolicy) (compute : Z) (spent : string → Z) (keys : list string) : Prop :=
  ∀ key limit, key ∈ keys → daily_allowance mp key limit → spent key + compute ≤ limit.

Lemma fi_exceeded_false fi :
  fi_exceeded fi = false ↔
  ∀ key limit, (key, limit) ∈ fi_limits fi →
    spent_of (fi_spent fi) key + fq_compute_cost_atomic (fi_quote fi) ≤ limit.
Proof.
  unfold fi_exceeded. induction (fi_limits fi) as [|[k l] ls IH]; cbn; [set_solver|].
  rewrite orb_false_iff, Z.ltb_ge, IH. split.
  - intros [? ?] key limit [[= -> ->]|?]%elem_of_cons; auto.
  - intros Hall. split; [apply Hall; set_solver|]. intros key limit ?. apply Hall. set_solver.
Qed.

(** The money of the ledger and the wallet together. *)
Definition total_money (ledger : LedgerState) (wallet : WalletRecord) : Z :=
  compute_reserve_balance_atomic ledger + ai_development_fee_pool_atomic ledger
  + validator_fee_pool_atomic ledger + tx_fee_pool_atomic ledger + worker_distributed_atomic ledger
  + spendable_balance_atomic wallet.

(** What a decision says when it funds a job by a payment, or by none. *)
Definition decides (reserve wallet : Z) (d : FundingDecision) (o : option (FundingSource * Z * Z)) : Prop :=
  fd_can_fund d = bool_decide (is_Some o) ∧ fd_funding_source d = (λ p, p.1.1) <$> o
  ∧ fd_reserve_after_atomic d = reserve - from_option (λ p, p.1.2) 0 o
  ∧ fd_wallet_after_atomic d = wallet - from_option (λ p, p.2) 0 o.

(** Goes through the payments on offer. *)
Ltac first_offer :=
  first [ apply first_cons; left; split; [cbn; split_and!; [lia|lia|tauto || (intros [=])]|reflexivity]
        | apply first_cons; right; split; [cbn; intros (? & ? & Hin); first [lia|by specialize (Hin eq_refl)]|]; first_offer
        | exact (first_nil _) ].

Lemma funding_decision_quote fi mp : fd_fee_quote (funding_decision fi mp) = fi_quote fi.
Proof. unfold funding_decision. repeat case_match; reflexivity. Qed.

(** The decision takes the first permitted payment. *)
Lemma funding_decision_first fi mp (within : Prop) :
  (fi_exceeded fi = false ↔ within) → 0 ≤ fi_reserve fi → 0 ≤ fi_wallet fi →
  ∃ o, first_such (permitted (fi_reserve fi) (fi_wallet fi) within)
         (offered (fi_preference fi) (fq_compute_cost_atomic (fi_quote fi)) (fq_tx_fee_atomic (fi_quote fi))) o
       ∧ decides (fi_reserve fi) (fi_wallet fi) (funding_decision fi mp) o.
Proof.
  intros Hex Hr Hw. unfold funding_decision, offered.
  destruct (fi_preference fi) eqn:Epref, (fi_exceeded fi) eqn:Eex; cbn [negb andb];
    first [assert within as Hyes by by apply Hex|assert (¬ within) as Hno by (intros Hx; by apply Hex in Hx)];
    repeat match goal with
    | |- context [?a <=? ?b] => destruct (Z.leb_spec a b); cbn [negb andb]
    | |- context [?a <? ?b] => destruct (Z.ltb_spec a b); cbn [negb andb]
    end;
    (eexists; split; [first_offer|]; unfold decides; cbn; split_and!; first [reflexivity|lia]).
Qed.

(** Applying a decision books the payment it took. *)
Lemma decision_booked ledger wallet d payments payment within (balanced : Prop) cost :
  (∀ source rd wd, (source, rd, wd) ∈ payments → rd + wd = cost + fq_tx_fee_atomic (fd_fee_quote d)) →
  first_such (permitted (compute_reserve_balance_atomic ledger) (spendable_balance_atomic wallet) within)
    payments payment →
  decides (compute_reserve_balance_atomic ledger) (spendable_balance_atomic wallet) d payment →
  (balanced → fq_settlement_fee_atomic (fd_fee_quote d) + fq_ai_development_fee_atomic (fd_fee_quote d)
              + fq_worker_reward_atomic (fd_fee_quote d) = cost) →
  match payment with
  | None => is_ok (apply_funding_decision ledger wallet d) = false
  | Some (_, reserve_debit, wallet_debit) =>
      ∃ ledger' wallet', apply_funding_decision ledger wallet d = Ok (ledger', wallet')
        ∧ compute_reserve_balance_atomic ledger' = compute_reserve_balance_atomic ledger - reserve_debit
        ∧ spendable_balance_atomic wallet' = spendable_balance_atomic wallet - wallet_debit
        ∧ (balanced → total_money ledger' wallet' = total_money ledger wallet)
  end.
Proof.
  intros Hcost Hfirst (Hcan & Hsrc & Hra & Hwa) Hsum. unfold apply_funding_decision. rewrite Hcan, Hsrc.
  destruct payment as [[[source rd] wd]|]; cbn; [|done]. do 2 eexists. split; [reflexivity|].
  cbn. rewrite Hra, Hwa. split_and!; [done..|]. intros Hb. specialize (Hsum Hb). unfold total_money.
  cbn -[Z.add Z.sub]. apply first_such_elem in Hfirst as [Hin _]. specialize (Hcost _ _ _ Hin). lia.
Qed.

(** C17: the funding plan charges the first permitted payment of the preference, in its order:
    compute cost by the reserve and fee by the wallet, then both by the reserve (only when the
    program may choose), then both by the wallet.  A payment is permitted when neither purse
    goes below zero and, if the reserve pays, no identity the plan is charged to exceeds its
    daily allowance with what the chain or the settlements say it spent today.  Without a
    permitted payment the plan refuses and keeps both balances.  Applying the plan books that
    payment: the balances change by it and, with the fee rates of a sane policy, no money
    appears or is lost; a refusal cannot be applied.  The fee is that of the quote for the cost. *)
Theorem plan_funding_refines_payment `{SignatureBackend} (env : Environ)
    (wallet_policy : option WalletPolicy) (is_today : string → bool)
    (ip_address ip_network : string → option string) (now : string) (st : ChainStore)
    (settlements : list SettlementRecord) (ledger : LedgerState) (wallet : WalletRecord)
    (compute : Z) (pref : PaymentPreference) (mp : MoneyPolicy) (fee : option Z)
    (ip : option string) (provided : option (list string)) (hash : option string) (d : FundingDecision)
    (Hr : 0 ≤ compute_reserve_balance_atomic ledger) (Hw : 0 ≤ spendable_balance_atomic wallet)
    (Hrun : plan_funding env wallet_policy is_today ip_address ip_network now st settlements ledger
              wallet compute pref mp fee ip provided hash = Ok d) :
  let reserve := compute_reserve_balance_atomic ledger in
  let purse := spendable_balance_atomic wallet in
  let spent key := spent_today is_today key (list_chain_blocks env wallet_policy now st) settlements in
  build_fee_quote compute mp fee = Ok (fd_fee_quote d)
  ∧ ∃ keys payment,
    charged_to ip_address ip_network (wr_wallet_id wallet) ip mp provided keys
    ∧ first_such (permitted reserve purse (within_allowance mp compute spent keys))
        (offered pref compute (fq_tx_fee_atomic (fd_fee_quote d))) payment
    ∧ decides reserve purse d payment
    ∧ match payment with
      | None => is_ok (apply_funding_decision ledger wallet d) = false
      | Some (_, reserve_debit, wallet_debit) =>
          ∃ ledger' wallet', apply_funding_decision ledger wallet d = Ok (ledger', wallet')
            ∧ compute_reserve_balance_atomic ledger' = reserve - reserve_debit
            ∧ spendable_balance_atomic wallet' = purse - wallet_debit
            ∧ (sane_rates mp ∧ 0 ≤ compute → total_money ledger' wallet' = total_money ledger wallet)
      end.
Proof.
  cbv zeta. revert Hrun. unfold plan_funding. rewrite bind_ok. intros (q & Hq & Hrun). revert Hrun.
  rewrite bind_ok. intros (fallback & _ & Hrun). revert Hrun.
  cbv zeta. rewrite bind_ok. intros (ks & Hks & Hrun). revert Hrun.
  rewrite bind_ok. intros (spent & Hspent & Hrun). revert Hrun.
  rewrite bind_ok. intros (limits & Hlimits & Hd).
  match type of Hd with Ok (funding_decision ?x _) = _ => set (fi := x) in Hd end.
  apply (inj Ok) in Hd as <-.
  assert (fq_compute_cost_atomic q = compute) as Hcost.
  { revert Hq. unfold build_fee_quote. rewrite bind_ok. intros (? & _ & Hq). by apply (inj Ok) in Hq as <-. }
  set (within := within_allowance mp compute
    (λ key, spent_today is_today key (list_chain_blocks env wallet_policy now st) settlements) ks).
  assert (fi_exceeded fi = false ↔ within) as Hex.
  { rewrite fi_exceeded_false. cbn [fi fi_limits fi_spent fi_quote]. rewrite Hcost. unfold within, within_allowance.
    split; intros Hall key limit Hk.
    - intros Ha. rewrite <- (spent_by_identity _ _ _ _ _ _ Hspent) by done. apply Hall.
      by apply (identity_limits_allowance _ _ _ Hlimits).
    - apply (identity_limits_allowance _ _ _ Hlimits) in Hk as [Hk Ha].
      rewrite (spent_by_identity _ _ _ _ _ _ Hspent) by done. by apply Hall. }
  destruct (funding_decision_first fi mp within Hex Hr Hw) as (payment & Hfirst & Hdec).
  rewrite funding_decision_quote. cbn [fi fi_quote fi_preference fi_reserve fi_wallet] in *. rewrite Hcost in Hfirst.
  split; [exact Hq|]. exists ks, payment. split_and!; [|done|done|].
  - unfold charged_to. rewrite (list_filter_iff (λ k, strip k ≠ "") (λ k, negb (String.eqb (strip k) ""))).
    2: { intros k. destruct (String.eqb_spec (strip k) ""); cbn; naive_solver. }
    destruct (filter _ _) as [|k l]; [right; by split|left]. injection Hks as <-. by split.
  - apply (decision_booked _ _ _ (offered pref compute (fq_tx_fee_atomic q)) _ within _ compute); [|done|done|].
    + rewrite funding_decision_quote. cbn [fi fi_quote]. intros source rd wd. unfold offered. destruct pref; intros Hin;
        repeat (apply elem_of_cons in Hin as [[= -> -> ->]|Hin]; [lia|]); by apply not_elem_of_nil in Hin.
    + intros [Hrates Hc]. rewrite funding_decision_quote. cbn [fi fi_quote].
      destruct (fee_quote_exact _ _ _ _ Hc Hrates Hq) as (? & ? & _). congruence.
Qed.

Definition demo_ledger : LedgerState :=
  {| compute_reserve_balance_atomic := 1000000; project_treasury_balance_atomic := 0;
     ai_development_fee_pool_atomic := 0; validator_fee_pool_atomic := 0;
     validator_slashed_atomic := 0; tx_fee_pool_atomic := 0; worker_distributed_atomic := 0;
     settlements_applied := 0 |}.
Definition demo_wallet : WalletRecord :=
  {| wr_wallet_id := "w"; wr_address := "cai_w"; spendable_balance_atomic := 50000;
     validator_reserved_atomic := 0 |}.

Definition demo_plan : result FundingDecision :=
  plan_funding no_env None (λ _, true) (λ _, None) (λ _, None) "now" empty_store [] demo_ledger
    demo_wallet 200000 AUTO mainnet_money None None None None.

Lemma plan_funding_refines_payment_witness :
  ∃ d, demo_plan = Ok d ∧ ∃ keys payment,
    charged_to (λ _, None) (λ _, None) "w" None mainnet_money None keys
    ∧ first_such
        (permitted 1000000 50000
           (within_allowance mainnet_money 200000
              (λ key, spent_today (λ _, true) key (list_chain_blocks no_env None "now" empty_store) []) keys))
        (offered AUTO 200000 (fq_tx_fee_atomic (fd_fee_quote d))) payment
    ∧ decides 1000000 50000 d payment.
Proof.
  eexists. split; [vm_compute; reflexivity|].
  match goal with |- context [decides _ _ ?d _] =>
    destruct (plan_funding_refines_payment no_env None (λ _, true) (λ _, None) (λ _, None) "now"
      empty_store [] demo_ledger demo_wallet 200000 AUTO mainnet_money None None None None d
      ltac:(done) ltac:(done) ltac:(vm_compute; reflexivity)) as (_ & keys & payment & Hk & Hf & Hd & _) end.
  exists keys, payment. split; [exact Hk|split; [exact Hf|exact Hd]].
Defined.
