(* ===== verification/SettlementProps.v ===== *)
(** * Properties of the settlement entries

    The chain entries of a settlement move exactly the coins that were debited, and recording
    them again records nothing. *)
From Stdlib Require Import Ascii.
From S2P Require Import Prelude.
From S2P Require Import PyStr.
From S2P Require Import PyVal.
From S2P Require Import Money.
From S2P Require Import Signing.
From S2P Require Import ChainTx.
From S2P Require Import Ledger.
From S2P Require Import LedgerFacts.
From S2P Require Import ChainStore.
From S2P Require Import ChainOps.
From S2P Require Import Apportion.
From S2P Require Import SettlementData.
From S2P Require Import Validators.
From S2P Require Import Settlement.
From S2P Require Import Demo.
Local Open Scope Z_scope.
Set Default Proof Using "Type".

(** ** What the entries move *)

Definition entry_delta (e : AuditTarget * ChainTransaction) : Z := delta_atomic e.2.

(** An entry's transaction does what its audit target expects. *)
Definition entry_matches_target (sid : string) (e : AuditTarget * ChainTransaction) : Prop :=
  delta_atomic e.2 = au_expected_delta_atomic e.1
  ∧ address e.2 = normalize_address (au_address e.1)
  ∧ ChainTx.settlement_id e.2 = VStr sid.

Definition moved (l : list (AuditTarget * ChainTransaction)) : Z := sumZ (map entry_delta l).

(** A payout whose worker has an address to be paid at. *)
Definition bound_payout (rewards : gmap string string) (p : WorkerPayoutRecord) : Prop :=
  payout_recipient rewards p ≠ "".
#[export] Instance bound_payout_dec rewards p : Decision (bound_payout rewards p).
Proof. unfold bound_payout. apply _. Defined.

Definition rewards_of (payouts : list WorkerPayoutRecord) : Z :=
  sumZ (map (λ p, Z.max 0 (wp_reward_atomic p)) payouts).

Lemma moved_app l l' : moved (l ++ l') = moved l + moved l'.
Proof. unfold moved. by rewrite map_app, sumZ_app. Qed.

Lemma split_shares_sum amount bonds ids :
  split_amount_by_validator_bond amount bonds ids ≠ [] →
  sumZ (map fs_amount_atomic (split_amount_by_validator_bond amount bonds ids)) = amount.
Proof.
  intros Hne. destruct (Z.ltb_spec 0 amount) as [Ha|Ha].
  2: { destruct Hne. unfold split_amount_by_validator_bond.
       by rewrite (proj2 (Z.leb_le (Z.max 0 amount) 0)) by lia. }
  destruct (Z.ltb_spec 0 (map_sum (bond_table bonds ids))) as [Ht|Ht].
  2: { destruct Hne. unfold split_amount_by_validator_bond.
       rewrite (proj2 (Z.leb_gt (Z.max 0 amount) 0)) by lia. by rewrite (proj2 (Z.leb_le _ _) Ht). }
  by apply split_by_bond_spec.
Qed.

(** Payouts split into the paid and the unpaid ones. *)
Lemma rewards_split rewards payouts :
  rewards_of payouts = rewards_of (filter (bound_payout rewards) payouts)
                       + rewards_of (filter (λ p, ¬ bound_payout rewards p) payouts).
Proof.
  unfold rewards_of. induction payouts as [|p payouts IH]; [done|]. cbn [map sumZ].
  destruct (decide (bound_payout rewards p)) as [Hp|Hp].
  - rewrite (filter_cons_True (bound_payout rewards)), (filter_cons_False (λ p, ¬ bound_payout rewards p))
      by tauto. cbn [map sumZ]. lia.
  - rewrite (filter_cons_False (bound_payout rewards)), (filter_cons_True (λ p, ¬ bound_payout rewards p))
      by tauto. cbn [map sumZ]. lia.
Qed.
Section entries.
Context (env : Environ) (now : string) (mp : MoneyPolicy) (s : SettlementRecord).
Context (validators : list ValidatorRecord) (history : list pyval).
Local Abbreviation sid := (sr_settlement_id s).

Lemma fee_entries_moved fee shares pool tx_type by_share to_pool :
  0 ≤ fee →
  (shares ≠ [] → sumZ (map fs_amount_atomic shares) = fee) →
  (∀ sh, entry_delta (by_share sh) = fs_amount_atomic sh) → entry_delta to_pool = fee →
  moved (fee_entries history fee shares pool tx_type by_share to_pool) = fee.
Proof.
  intros Hfee Hsum Hshare Hpool. unfold fee_entries.
  destruct (Z.ltb_spec 0 fee) as [Hpos|Hpos]; [|cbn; lia].
  destruct shares as [|sh shares]; [cbn; rewrite Hpool; lia|].
  destruct (negb _); [|cbn; rewrite Hpool; lia].
  rewrite <- Hsum by done. unfold moved. rewrite map_map. f_equal. by apply map_ext.
Qed.

Lemma tx_fee_moved : moved (tx_fee_entries env now mp s validators history) = Z.max 0 (sr_tx_fee_atomic s).
Proof.
  apply fee_entries_moved; [lia| |done..]. intros Hne.
  etransitivity; [by apply split_shares_sum|lia].
Qed.

Lemma settlement_fee_moved :
  moved (settlement_fee_entries env now mp s validators history) = Z.max 0 (sr_settlement_fee_atomic s).
Proof.
  apply fee_entries_moved; [lia| |done..]. intros Hne. by apply split_shares_sum.
Qed.

(** A debit, a credit or a marker that is recorded when its amount is positive. *)
Lemma one_entry_moved (c : bool) e :
  moved (if c then [e] else []) = if c then entry_delta e else 0.
Proof. destruct c; [|done]. unfold moved. cbn. lia. Qed.

Lemma workers_moved rewards payouts :
  moved (omap (worker_entry env now mp s rewards) payouts)
  = rewards_of (filter (bound_payout rewards) payouts).
Proof.
  unfold moved, rewards_of. induction payouts as [|p payouts IH]; [done|]. cbn [omap list_omap].
  unfold worker_entry at 1. destruct (String.eqb_spec (payout_recipient rewards p) "") as [Hp|Hp].
  - rewrite filter_cons_False by (unfold bound_payout; tauto). exact IH.
  - rewrite filter_cons_True by done. cbn [map sumZ]. by rewrite <- IH.
Qed.

End entries.

(** A settlement that is paid for: what is debited covers the fees and the workers' reward,
    and the payouts divide that reward. *)
Record covered (s : SettlementRecord) (payouts : list WorkerPayoutRecord) : Prop := {
  co_source : strip (sr_source_wallet_address s) ≠ "" ∨ sr_source_wallet_debit_atomic s ≤ 0;
  co_fund : strip (default "" (sr_ai_development_address s)) ≠ "" ∨ sr_ai_development_fee_atomic s ≤ 0;
  co_balance :
    Z.max 0 (sr_source_wallet_debit_atomic s) + Z.max 0 (sr_reserve_debit_atomic s)
    = Z.max 0 (sr_tx_fee_atomic s) + Z.max 0 (sr_settlement_fee_atomic s)
      + Z.max 0 (sr_ai_development_fee_atomic s) + sr_worker_reward_atomic s;
  co_rewards : rewards_of payouts = sr_worker_reward_atomic s
}.

Lemma entries_moved env now mp s validators rewards history payouts :
  covered s payouts →
  moved (settlement_entries env now mp s validators rewards history payouts)
  = - rewards_of (filter (λ p, ¬ bound_payout rewards p) payouts).
Proof.
  intros [Hsource Hfund Hbal Hrew]. rewrite (rewards_split rewards) in Hrew.
  unfold settlement_entries. rewrite !moved_app, tx_fee_moved, settlement_fee_moved, workers_moved.
  unfold wallet_debit_entries, surplus_entries, reserve_debit_entries, ai_fee_entries.
  rewrite !one_entry_moved. unfold entry_delta, entry_tx. cbn [snd make_chain_transaction delta_atomic].
  set (source := strip (sr_source_wallet_address s)) in *.
  set (fund := strip (default "" (sr_ai_development_address s))) in *.
  destruct (String.eqb_spec source ""), (String.eqb_spec fund ""); cbn [negb];
    rewrite ?andb_false_r, ?andb_true_r;
    repeat match goal with |- context [0 <? ?x] => destruct (Z.ltb_spec 0 x) end;
    destruct Hsource, Hfund; try done; lia.
Qed.

Lemma one_entry_elem (c : bool) (e0 e : AuditTarget * ChainTransaction) :
  e ∈ (if c then [e0] else []) → e = e0.
Proof. destruct c; [apply list_elem_of_singleton|by intros ?%not_elem_of_nil]. Qed.

Lemma fee_entries_elem history fee shares pool tx_type by_share to_pool e :
  e ∈ fee_entries history fee shares pool tx_type by_share to_pool →
  (∃ sh, e = by_share sh) ∨ e = to_pool.
Proof.
  unfold fee_entries. intros He. repeat case_match;
    try (by apply not_elem_of_nil in He); try (apply list_elem_of_singleton in He; by right).
  apply list_elem_of_fmap in He as (sh & -> & _). left. by exists sh.
Qed.

Lemma worker_entry_matches env now mp s rewards p e :
  worker_entry env now mp s rewards p = Some e → entry_matches_target (sr_settlement_id s) e.
Proof. unfold worker_entry. case_match; [done|]. intros [= <-]. done. Qed.

Lemma entries_match env now mp s validators rewards history payouts e :
  e ∈ settlement_entries env now mp s validators rewards history payouts →
  entry_matches_target (sr_settlement_id s) e.
Proof.
  unfold settlement_entries. rewrite !elem_of_app.
  intros [He|[He|[He|[He|[He|[He|He]]]]]];
    try (apply one_entry_elem in He as ->; done);
    try (apply fee_entries_elem in He as [[sh ->]| ->]; done).
  apply list_elem_of_omap in He as (p & _ & Hp). by eapply worker_entry_matches.
Qed.

Lemma unbound_none rewards payouts :
  Forall (bound_payout rewards) payouts → filter (λ p, ¬ bound_payout rewards p) payouts = [].
Proof. induction 1 as [|p payouts Hp Hall IH]; [done|]. by rewrite filter_cons_False by tauto. Qed.

(** C13: the chain entries of a settlement that is paid for move its coins and no others: every
    entry changes the balance of its audit target's address by the delta the audit expects and
    carries the settlement's id, and the deltas sum to zero when every payout has a recipient;
    when some have none, exactly their rewards are missing. *)
Theorem settlement_entries_balance (env : Environ) (now : string) (mp : MoneyPolicy)
    (s : SettlementRecord) (validators : list ValidatorRecord) (rewards : gmap string string)
    (history : list pyval) (payouts : list WorkerPayoutRecord)
    (Hcovered : covered s payouts) :
  let entries := settlement_entries env now mp s validators rewards history payouts in
  Forall (entry_matches_target (sr_settlement_id s)) entries
  ∧ moved entries = - rewards_of (filter (λ p, ¬ bound_payout rewards p) payouts)
  ∧ (Forall (bound_payout rewards) payouts → moved entries = 0).
Proof.
  cbn zeta. rewrite entries_moved by done. split_and!; [|done|].
  - apply Forall_forall. intros e. apply entries_match.
  - intros Hall. by rewrite unbound_none.
Qed.

(** ** Recording once *)

(** A transaction that [_record_if_missing] drops. *)
Definition blocked (ids : gset string) (nonces : gset (string * string)) (tx : ChainTransaction)
  : Prop :=
  (strip (tx_id tx) ≠ "" ∧ strip (tx_id tx) ∈ ids)
  ∨ ∃ n, nonce tx = Some n ∧ nonce_key tx n ∈ nonces.

Lemma blocked_mono ids ids' nonces nonces' tx :
  ids ⊆ ids' → nonces ⊆ nonces' → blocked ids nonces tx → blocked ids' nonces' tx.
Proof. intros Hi Hn [[? ?]|(n & ? & ?)]; [left|right]; set_solver. Qed.

Definition fresh_ids (txs : list ChainTransaction) : gset string :=
  list_to_set (filter (λ i, i ≠ "") (map (strip ∘ tx_id) txs)).

(** One step keeps a transaction that is not blocked and remembers its id and nonce. *)
Lemma record_step pending ids nonces tx :
  (blocked ids nonces tx ∧ record_if_missing (pending, ids, nonces) tx = (pending, ids, nonces))
  ∨ (¬ blocked ids nonces tx
     ∧ record_if_missing (pending, ids, nonces) tx
       = (pending ++ [tx], fresh_ids [tx] ∪ ids, list_to_set (tx_nonce_keys [tx]) ∪ nonces)).
Proof.
  unfold record_if_missing, fresh_ids. cbn [map compose].
  assert (list_to_set (filter (λ i, i ≠ "") [strip (tx_id tx)])
          =@{gset string} if String.eqb (strip (tx_id tx)) "" then ∅ else {[ strip (tx_id tx) ]}) as ->.
  { destruct (String.eqb_spec (strip (tx_id tx)) "") as [E|E].
    - by rewrite filter_cons_False by tauto.
    - rewrite filter_cons_True by done. cbn. by rewrite union_empty_r_L. }
  unfold tx_nonce_keys, blocked. destruct (String.eqb_spec (strip (tx_id tx)) "") as [E|E]; cbn [negb andb].
  - destruct (nonce tx) as [n|] eqn:En; cbn; rewrite ?En; cbn.
    + case_bool_decide; [left; naive_solver|right]. split; [naive_solver|].
      f_equal; [f_equal|]; set_solver.
    + right. split; [naive_solver|]. f_equal; [f_equal|]; set_solver.
  - case_bool_decide; [left; naive_solver|].
    destruct (nonce tx) as [n|] eqn:En; cbn; rewrite ?En; cbn.
    + case_bool_decide; [left; naive_solver|right]. split; [naive_solver|].
      f_equal; set_solver.
    + right. split; [naive_solver|]. f_equal; set_solver.
Qed.

Lemma fresh_ids_cons tx txs : fresh_ids (tx :: txs) = fresh_ids [tx] ∪ fresh_ids txs.
Proof.
  unfold fresh_ids. cbn [map]. rewrite <- list_to_set_app_L, <- filter_app. done.
Qed.

Lemma nonce_keys_cons tx txs : tx_nonce_keys (tx :: txs) = tx_nonce_keys [tx] ++ tx_nonce_keys txs.
Proof. unfold tx_nonce_keys. by rewrite <- omap_app. Qed.

Lemma elem_nonce_keys k txs :
  k ∈ tx_nonce_keys txs ↔ ∃ tx n, tx ∈ txs ∧ nonce tx = Some n ∧ k = nonce_key tx n.
Proof.
  unfold tx_nonce_keys. rewrite list_elem_of_omap. split.
  - intros (tx & Htx & Hk). apply fmap_Some in Hk as (n & Hn & ->). eauto.
  - intros (tx & n & Htx & Hn & ->). exists tx. by rewrite Hn.
Qed.

(** The loop as a whole. *)
Lemma record_loop txs : ∀ pending ids nonces,
  ∃ new, foldl record_if_missing (pending, ids, nonces) txs
         = (pending ++ new, fresh_ids new ∪ ids, list_to_set (tx_nonce_keys new) ∪ nonces)
    ∧ sublist new txs
    ∧ (∀ tx, tx ∈ txs → tx ∈ new ∨ blocked (fresh_ids new ∪ ids)
                                      (list_to_set (tx_nonce_keys new) ∪ nonces) tx)
    ∧ (∀ tx, tx ∈ new → ¬ blocked ids nonces tx)
    ∧ NoDup (tx_nonce_keys new).
Proof.
  induction txs as [|tx txs IH]; intros pending ids nonces; cbn [foldl].
  - exists []. change (fresh_ids []) with (∅ : gset string).
    change (list_to_set (tx_nonce_keys [])) with (∅ : gset (string * string)).
    rewrite app_nil_r, !union_empty_l_L. split_and!; [done..| | |constructor];
      by intros tx ?%not_elem_of_nil.
  - destruct (record_step pending ids nonces tx) as [[Hb ->]|[Hb ->]].
    + destruct (IH pending ids nonces) as (new & -> & Hsub & Hall & Hnew & Hnd).
      exists new. split_and!; [done|by apply sublist_cons| |done|done].
      intros x [->|Hx]%elem_of_cons; [|by apply Hall]. right.
      eapply blocked_mono; [| |exact Hb]; set_solver.
    + set (ids1 := fresh_ids [tx] ∪ ids). set (nonces1 := list_to_set (tx_nonce_keys [tx]) ∪ nonces).
      destruct (IH (pending ++ [tx]) ids1 nonces1) as (new & -> & Hsub & Hall & Hnew & Hnd).
      assert (fresh_ids new ∪ ids1 = fresh_ids (tx :: new) ∪ ids) as Hids
        by (unfold ids1; by rewrite (fresh_ids_cons tx new), (union_assoc_L (fresh_ids new)),
              (union_comm_L (fresh_ids new))).
      assert (list_to_set (tx_nonce_keys new) ∪ nonces1
              = list_to_set (tx_nonce_keys (tx :: new)) ∪ nonces) as Hnonces
        by (unfold nonces1; by rewrite (nonce_keys_cons tx new), list_to_set_app_L,
              (union_assoc_L (list_to_set (tx_nonce_keys new))),
              (union_comm_L (list_to_set (tx_nonce_keys new)))).
      exists (tx :: new). rewrite <- Hids, <- Hnonces, <- app_assoc. split_and!.
      * done.
      * by apply sublist_skip.
      * intros x [->|Hx]%elem_of_cons; [left; by left|]. destruct (Hall x Hx); [left; by right|by right].
      * intros x [->|Hx]%elem_of_cons; [done|]. intros Hx'. apply (Hnew x Hx).
        eapply blocked_mono; [| |exact Hx']; set_solver.
      * rewrite nonce_keys_cons. apply NoDup_app. split_and!; [|intros k Hk Hk'|done].
        -- unfold tx_nonce_keys. cbn. destruct (nonce tx); cbn; [apply NoDup_singleton|constructor].
        -- apply elem_nonce_keys in Hk' as (x & n & Hx & Hn & ->). apply (Hnew x Hx).
           right. exists n. split; [done|]. unfold nonces1. set_solver.
Qed.

(** A run in which everything is blocked records nothing. *)
Lemma record_nothing txs pending ids nonces :
  Forall (blocked ids nonces) txs → foldl record_if_missing (pending, ids, nonces) txs = (pending, ids, nonces).
Proof.
  induction 1 as [|tx txs Hb Hall IH]; cbn [foldl]; [done|].
  destruct (record_step pending ids nonces tx) as [[_ ->]|[Hn _]]; done.
Qed.

(** ** The history of a settlement *)

Definition of_settlement (sid : string) (tx : ChainTransaction) : Prop :=
  str_or_strip (ChainTx.settlement_id tx) = sid.
#[export] Instance of_settlement_dec sid tx : Decision (of_settlement sid tx).
Proof. unfold of_settlement. apply _. Defined.

Definition history_item (b : ChainBlock) (tx : ChainTransaction) : pyval :=
  VDict (_chain_transaction_history_entry b tx None).

Definition history_step (sid : string) (b : ChainBlock) (acc : gset string * list pyval)
    (tx : ChainTransaction) : gset string * list pyval :=
  let '(seen, history) := acc in
  if bool_decide (tx_id tx ∈ seen) then acc
  else
    let seen := {[ tx_id tx ]} ∪ seen in
    if negb (String.eqb (str_or_strip (ChainTx.settlement_id tx)) sid) then (seen, history)
    else (seen, history ++ [history_item b tx]).

(** On blocks without repeated ids the loop collects the settlement's transactions. *)
Lemma history_block sid b txs : ∀ seen h,
  NoDup (tx_ids_of txs) → (∀ i, i ∈ tx_ids_of txs → i ∉ seen) →
  foldl (history_step sid b) (seen, h) txs
  = (list_to_set (tx_ids_of txs) ∪ seen, h ++ map (history_item b) (filter (of_settlement sid) txs)).
Proof.
  induction txs as [|tx txs IH]; intros seen h Hnd Hseen; cbn [foldl].
  - rewrite app_nil_r. f_equal. set_solver.
  - cbn [tx_ids_of map] in *. apply NoDup_cons in Hnd as [Hx Hnd].
    unfold history_step at 2. rewrite bool_decide_false by (apply Hseen; by left). cbn zeta.
    assert (∀ i, i ∈ tx_ids_of txs → i ∉ ({[ tx_id tx ]} ∪ seen : gset string)) as Hseen'.
    { intros i Hi [->%elem_of_singleton|Hi']%elem_of_union; [done|]. apply (Hseen i); [by right|done]. }
    destruct (String.eqb_spec (str_or_strip (ChainTx.settlement_id tx)) sid) as [Hs|Hs]; cbn [negb];
      rewrite IH by done; (f_equal; [cbn; set_solver|]).
    + by rewrite filter_cons_True, <- app_assoc by done.
    + by rewrite filter_cons_False by done.
Qed.

Lemma history_of_blocks_snoc sid blocks b :
  NoDup (tx_ids_of (chain_txs (blocks ++ [b]))) →
  settlement_history_of_blocks sid (blocks ++ [b])
  = settlement_history_of_blocks sid blocks
    ++ map (history_item b) (filter (of_settlement sid) (transactions b)).
Proof.
  unfold chain_txs, tx_ids_of. rewrite bind_app, map_app. cbn [mbind list_bind]. rewrite app_nil_r.
  intros (Hnd & Hdisj & Hb)%NoDup_app.
  unfold settlement_history_of_blocks. fold (history_step sid). rewrite foldl_snoc.
  assert (∀ blocks, (foldl (λ acc b, foldl (history_step sid b) acc (transactions b)) (∅, []) blocks).1
    ⊆ list_to_set (tx_ids_of (chain_txs blocks))) as Hseen.
  { clear. intros blocks. induction blocks as [|b blocks IH] using rev_ind; [done|].
    rewrite foldl_snoc. unfold chain_txs, tx_ids_of in *. rewrite bind_app, map_app, list_to_set_app_L.
    cbn [mbind list_bind]. rewrite app_nil_r.
    set (acc := foldl _ (∅, []) blocks) in *. clearbody acc.
    assert (∀ txs acc, (foldl (history_step sid b) acc txs).1 ⊆ acc.1 ∪ list_to_set (map tx_id txs)) as Hstep.
    { clear. intros txs. induction txs as [|tx txs IH]; intros [seen h]; cbn [foldl map list_to_set fst]; [set_solver|].
      etransitivity; [apply IH|]. unfold history_step. repeat case_match; cbn [fst]; set_solver. }
    etransitivity; [apply Hstep|]. set_solver. }
  specialize (Hseen blocks).
  set (acc := foldl (λ acc b, foldl (history_step sid b) acc (transactions b)) (∅, []) blocks) in *.
  change (foldl _ (∅, []) blocks) with acc. destruct acc as [seen h].
  change (foldl _ (seen, h) (transactions b)) with (foldl (history_step sid b) (seen, h) (transactions b)).
  rewrite history_block; [done|done|]. intros i Hi Hs. apply (Hdisj i); [|done].
  apply Hseen, elem_of_list_to_set in Hs. done.
Qed.

(** ** What a history blocks *)

Definition item_id (item : pyval) : option string :=
  match item with
  | VDict d => let i := str_or_strip (dget "tx_id" d) in if String.eqb i "" then None else Some i
  | _ => None
  end.

Lemma history_ids_app h h' : history_tx_ids (h ++ h') = history_tx_ids h ∪ history_tx_ids h'.
Proof. unfold history_tx_ids. by rewrite omap_app, list_to_set_app_L. Qed.

Lemma history_nonces_app h h' : history_nonces (h ++ h') = history_nonces h ∪ history_nonces h'.
Proof. unfold history_nonces. by rewrite omap_app, list_to_set_app_L. Qed.

Lemma history_ids_rev h : history_tx_ids (rev h) = history_tx_ids h.
Proof.
  induction h as [|x h IH]; cbn [rev]; [done|]. rewrite (history_ids_app (rev h)), IH.
  change (x :: h) with ([x] ++ h). rewrite (history_ids_app [x]). apply union_comm_L.
Qed.

Lemma history_nonces_rev h : history_nonces (rev h) = history_nonces h.
Proof.
  induction h as [|x h IH]; cbn [rev]; [done|]. rewrite (history_nonces_app (rev h)), IH.
  change (x :: h) with ([x] ++ h). rewrite (history_nonces_app [x]). apply union_comm_L.
Qed.

Lemma str_or_strip_VStr i : str_or_strip (VStr i) = strip i.
Proof. unfold str_or_strip. by destruct i. Qed.

(** The items of a block give back the ids and nonces of its transactions. *)
Lemma history_items_ids b txs : history_tx_ids (map (history_item b) txs) = fresh_ids txs.
Proof.
  induction txs as [|tx txs IH]; [done|]. rewrite fresh_ids_cons, <- IH. cbn [map].
  change (?x :: ?l) with ([x] ++ l) at 1. rewrite history_ids_app. f_equal.
  unfold history_tx_ids, fresh_ids. cbn [omap list_omap history_item map compose].
  change (dget "tx_id" _) with (VStr (tx_id tx)). rewrite str_or_strip_VStr.
  destruct (String.eqb_spec (strip (tx_id tx)) "") as [E|E].
  - by rewrite filter_cons_False by tauto.
  - by rewrite filter_cons_True.
Qed.

Lemma history_items_nonces b txs :
  Forall (λ tx, strip (address tx) ≠ "") txs →
  history_nonces (map (history_item b) txs) = list_to_set (tx_nonce_keys txs).
Proof.
  induction 1 as [|tx txs Ha Hall IH]; [done|]. rewrite nonce_keys_cons, list_to_set_app_L, <- IH. cbn [map].
  change (?x :: ?l) with ([x] ++ l) at 1. rewrite history_nonces_app. f_equal.
  unfold history_nonces, tx_nonce_keys. cbn [omap list_omap history_item].
  change (dget "nonce" _) with (val_opt (nonce tx)). change (dget "address" _) with (VStr (address tx)).
  rewrite str_or_strip_VStr, (proj2 (String.eqb_neq _ _) Ha).
  destruct (nonce tx) as [n|]; done.
Qed.

(** ** The entries do not depend on when they are computed *)

Definition tx_key (tx : ChainTransaction) : string * string * option string :=
  (tx_id tx, address tx, nonce tx).

Lemma blocked_key ids nonces tx tx' : tx_key tx = tx_key tx' → blocked ids nonces tx → blocked ids nonces tx'.
Proof. unfold blocked, nonce_key. intros [= -> -> ->]. done. Qed.

Lemma map_key_app l l' :
  map tx_key (map snd (l ++ l')) = map tx_key (map snd l) ++ map tx_key (map (@snd AuditTarget _) l').
Proof. by rewrite !map_app. Qed.

(** A fee goes to the same place as long as the pool was not credited meanwhile. *)
Lemma fee_entries_keys h1 h2 fee shares pool tx_type by1 by2 pool1 pool2 :
  (∀ sh, tx_key (by1 sh).2 = tx_key (by2 sh).2) → tx_key pool1.2 = tx_key pool2.2 →
  (shares ≠ [] → 0 < fee → legacy_credit_recorded tx_type pool h1 = legacy_credit_recorded tx_type pool h2) →
  map tx_key (map snd (fee_entries h1 fee shares pool tx_type by1 pool1))
  = map tx_key (map snd (fee_entries h2 fee shares pool tx_type by2 pool2)).
Proof.
  intros Hby Hpool Hleg. unfold fee_entries. destruct (Z.ltb_spec 0 fee) as [Hf|]; [|done].
  destruct shares as [|sh shares]; [by cbn; rewrite Hpool|].
  rewrite Hleg by done. destruct (negb _); [|by cbn; rewrite Hpool].
  rewrite !map_map. by apply map_ext.
Qed.

(** A pool credit and its pool, when the fee is shared out instead. *)
Definition shared_fee (mp : MoneyPolicy) (s : SettlementRecord) (tt pool : string) : Prop :=
  (tt = "settlement_tx_fee_credit" ∧ pool = tx_fee_pool_chain_address mp
   ∧ _validator_fee_payout_split s (Some (Z.max 0 (sr_tx_fee_atomic s))) ≠ [])
  ∨ (tt = "settlement_validator_fee_credit" ∧ pool = validator_settlement_fee_pool_chain_address mp
     ∧ _validator_fee_payout_split s None ≠ []).

Lemma settlement_keys env now1 now2 mp s validators rewards h1 h2 payouts :
  (∀ tt pool, shared_fee mp s tt pool →
     legacy_credit_recorded tt pool h1 = legacy_credit_recorded tt pool h2) →
  map tx_key (map snd (settlement_entries env now1 mp s validators rewards h1 payouts))
  = map tx_key (map snd (settlement_entries env now2 mp s validators rewards h2 payouts)).
Proof.
  intros Hleg. unfold settlement_entries. rewrite !map_key_app. f_equal; [|f_equal; [|f_equal; [|f_equal;
    [|f_equal; [|f_equal]]]]].
  - unfold wallet_debit_entries. by case_match.
  - unfold surplus_entries. by case_match.
  - unfold reserve_debit_entries. by case_match.
  - apply fee_entries_keys; [done|done|]. intros Hne _. apply Hleg. left. done.
  - apply fee_entries_keys; [done|done|]. intros Hne _. apply Hleg. right. done.
  - unfold ai_fee_entries. by case_match.
  - induction payouts as [|p payouts IH]; [done|]. cbn [omap list_omap].
    assert ((λ e, tx_key (snd e)) <$> worker_entry env now1 mp s rewards p
            = (λ e, tx_key (snd e)) <$> worker_entry env now2 mp s rewards p) as Hp
      by (unfold worker_entry; by case_match).
    destruct (worker_entry env now1 _ _ _ p), (worker_entry env now2 _ _ _ p); try done.
    injection Hp as Hid Ha Hn. cbn [map]. rewrite IH. unfold tx_key at 1 3. by rewrite Hid, Ha, Hn.
Qed.

Lemma legacy_app tt pool h h' :
  legacy_credit_recorded tt pool (h ++ h')
  = legacy_credit_recorded tt pool h || legacy_credit_recorded tt pool h'.
Proof. apply existsb_app. Qed.

Lemma legacy_rev tt pool h :
  legacy_credit_recorded tt pool (rev h) = legacy_credit_recorded tt pool h.
Proof.
  induction h as [|x h IH]; cbn [rev]; [done|]. rewrite legacy_app, IH.
  change (x :: h) with ([x] ++ h). rewrite (legacy_app tt pool [x]). apply orb_comm.
Qed.

(** Recorded items of other types are no pool credit. *)
Lemma legacy_items tt pool b txs :
  (∀ tx, tx ∈ txs → tx_type tx ≠ tt) → legacy_credit_recorded tt pool (map (history_item b) txs) = false.
Proof.
  unfold legacy_credit_recorded. induction txs as [|tx txs IH]; intros Hall; [done|].
  cbn [map existsb history_item]. rewrite IH by (intros; apply Hall; by right).
  change (dget "tx_type" _) with (VStr (tx_type tx)). rewrite bool_decide_false; [done|].
  intros [=]. by apply (Hall tx); [left|].
Qed.

Lemma fee_entries_types h fee shares pool tx_type by_share to_pool e tt :
  e ∈ fee_entries h fee shares pool tx_type by_share to_pool →
  shares ≠ [] → legacy_credit_recorded tx_type pool h = false →
  (∀ sh, ChainTx.tx_type (by_share sh).2 ≠ tt) → ChainTx.tx_type e.2 ≠ tt.
Proof.
  intros He Hne Hleg Hsh. unfold fee_entries in He. rewrite Hleg in He.
  destruct (0 <? fee); [|by apply not_elem_of_nil in He]. destruct shares as [|sh shares]; [done|].
  cbn [negb] in He. apply list_elem_of_fmap in He as (x & -> & _). apply Hsh.
Qed.

(** Entries never credit a pool whose fee was shared out. *)
Lemma entries_types env now mp s validators rewards h payouts e tt pool :
  e ∈ settlement_entries env now mp s validators rewards h payouts →
  shared_fee mp s tt pool →
  legacy_credit_recorded tt pool h = false → tx_type e.2 ≠ tt.
Proof.
  intros He Htt Hleg. unfold settlement_entries in He. rewrite !elem_of_app in He.
  destruct He as [He|[He|[He|[He|[He|[He|He]]]]]];
    try (apply one_entry_elem in He as ->; by destruct Htt as [(-> & _)|(-> & _)]).
  - destruct Htt as [(-> & -> & Hne)|(-> & _)].
    + eapply fee_entries_types; [exact He|exact Hne|exact Hleg|done].
    + apply fee_entries_elem in He as [[sh ->]| ->]; done.
  - destruct Htt as [(-> & _)|(-> & -> & Hne)].
    + apply fee_entries_elem in He as [[sh ->]| ->]; done.
    + eapply fee_entries_types; [exact He|exact Hne|exact Hleg|done].
  - apply list_elem_of_omap in He as (p & _ & Hp). unfold worker_entry in Hp. case_match; [done|].
    injection Hp as <-. by destruct Htt as [(-> & _)|(-> & _)].
Qed.

Lemma elem_key_map k (l : list (AuditTarget * ChainTransaction)) :
  k ∈ map tx_key (map snd l) ↔ ∃ e, e ∈ l ∧ k = tx_key e.2.
Proof.
  rewrite list_elem_of_fmap. split.
  - intros (tx & -> & (e & -> & He)%list_elem_of_fmap). eauto.
  - intros (e & He & ->). exists e.2. split; [done|]. by apply list_elem_of_fmap_2.
Qed.

Lemma entries_have_nonces env now mp s validators rewards h payouts e :
  e ∈ settlement_entries env now mp s validators rewards h payouts → is_Some (nonce e.2).
Proof.
  unfold settlement_entries. rewrite !elem_of_app. intros [He|[He|[He|[He|[He|[He|He]]]]]];
    try (apply one_entry_elem in He as ->; eexists; reflexivity);
    try (apply fee_entries_elem in He as [[sh ->]| ->]; eexists; reflexivity).
  apply list_elem_of_omap in He as (p & _ & Hp). unfold worker_entry in Hp. case_match; [done|].
  injection Hp as <-. by eexists.
Qed.

Section once.
Context (env : Environ) (now1 now2 : string) (mp : MoneyPolicy) (s : SettlementRecord).
Context (validators : list ValidatorRecord) (rewards : gmap string string).
Context (payouts : list WorkerPayoutRecord) (blocks : list ChainBlock) (b : ChainBlock).

Local Abbreviation sid := (strip (sr_settlement_id s)).
Local Abbreviation h1 := (present_history true None (settlement_history_of_blocks sid blocks)).
Local Abbreviation h2 := (present_history true None (settlement_history_of_blocks sid (blocks ++ [b]))).
Local Abbreviation txs1 := (map snd (settlement_entries env now1 mp s validators rewards h1 payouts)).
Local Abbreviation txs2 := (map snd (settlement_entries env now2 mp s validators rewards h2 payouts)).

Context (Hb : transactions b = pending_transactions h1 txs1).
Context (Hids : NoDup (tx_ids_of (chain_txs (blocks ++ [b])))).
Context (Haddr : Forall (λ tx, strip (address tx) ≠ "") (transactions b)).

Lemma new_of_settlement : sublist (transactions b) txs1 → filter (of_settlement sid) (transactions b) = transactions b.
Proof.
  intros Hsub. assert (Forall (of_settlement sid) (transactions b)) as Hall.
  { apply Forall_forall. intros tx Htx.
    eapply elem_of_sublist, list_elem_of_fmap in Hsub as (e & -> & He); [|exact Htx].
    apply entries_match in He as (_ & _ & He). unfold of_settlement. by rewrite He, str_or_strip_VStr. }
  clear -Hall. induction Hall as [|tx txs Htx Hall IH]; [done|]. rewrite filter_cons_True by done. by rewrite IH.
Qed.

(** The second run sees the ids and nonces the first one ended with. *)
Lemma second_history new :
  transactions b = new → sublist new txs1 →
  history_tx_ids h2 = fresh_ids new ∪ history_tx_ids h1
  ∧ history_nonces h2 = list_to_set (tx_nonce_keys new) ∪ history_nonces h1
  ∧ ∀ tt pool, legacy_credit_recorded tt pool h2
      = legacy_credit_recorded tt pool h1 || legacy_credit_recorded tt pool (map (history_item b) new).
Proof using Hids Haddr.
  intros <- Hsub. unfold present_history. rewrite history_of_blocks_snoc, new_of_settlement by done.
  rewrite !history_ids_rev, !history_nonces_rev, history_ids_app, history_nonces_app, history_items_ids,
    history_items_nonces by done.
  split_and!; [apply union_comm_L..|]. intros tt pool. by rewrite !legacy_rev, legacy_app.
Qed.

Lemma record_once :
  sublist (transactions b) txs1 ∧ NoDup (tx_nonce_keys (transactions b))
  ∧ (∀ tx, tx ∈ transactions b → ¬ blocked (history_tx_ids h1) (history_nonces h1) tx)
  ∧ pending_transactions h2 txs2 = [].
Proof using Hb Hids Haddr.
  destruct (record_loop txs1 [] (history_tx_ids h1) (history_nonces h1))
    as (new & Hrun & Hsub & Hall & Hnew & Hnd).
  assert (transactions b = new) as Hb' by (rewrite Hb; unfold pending_transactions; by rewrite Hrun).
  rewrite Hb'. split_and!; [done..|].
  destruct (second_history new Hb' Hsub) as (Hi & Hn & Hl).
  assert (map tx_key txs1 = map tx_key txs2) as Hkeys.
  { apply settlement_keys. intros tt pool Hfee. rewrite Hl.
    destruct (legacy_credit_recorded tt pool h1) eqn:Eleg; [done|]. symmetry. apply legacy_items.
    intros tx Htx. eapply elem_of_sublist, list_elem_of_fmap in Hsub as (e & -> & He); [|exact Htx].
    by eapply entries_types. }
  unfold pending_transactions. rewrite record_nothing; [done|].
  apply Forall_forall. intros tx2 Htx2. rewrite Hi, Hn.
  assert (tx_key tx2 ∈ map tx_key txs1) as Hk by (rewrite Hkeys; by apply list_elem_of_fmap_2).
  apply list_elem_of_fmap in Hk as (tx1 & Hk & Htx1). eapply blocked_key; [symmetry; exact Hk|].
  destruct (Hall tx1 Htx1) as [Hin|]; [|done]. right.
  apply list_elem_of_fmap in Htx1 as (e & -> & He). apply entries_have_nonces in He as [n He].
  exists n. split; [done|]. apply elem_of_union_l, elem_of_list_to_set, elem_nonce_keys. eauto.
Qed.
End once.

(** C12: recording a settlement on the chain happens once: the transactions that are recorded
    are some of the settlement's entries, in order, with distinct nonces and none that the
    chain's history of the settlement already holds; and when a block with exactly these is on
    the chain (ids distinct, as validation requires), recording the same settlement again, at
    any later time, finds nothing left to record, whether its fees were shared among validators
    or credited to the pools. *)
Theorem settlement_recorded_once (env : Environ) (now1 now2 : string) (mp : MoneyPolicy)
    (s : SettlementRecord) (validators : list ValidatorRecord) (rewards : gmap string string)
    (payouts : list WorkerPayoutRecord) (blocks : list ChainBlock) (b : ChainBlock)
    (Hids : NoDup (tx_ids_of (chain_txs (blocks ++ [b]))))
    (Haddr : Forall (λ tx, strip (address tx) ≠ "") (transactions b)) :
  let history bs := present_history true None
                      (settlement_history_of_blocks (strip (sr_settlement_id s)) bs) in
  let entries now h := map snd (settlement_entries env now mp s validators rewards h payouts) in
  transactions b = pending_transactions (history blocks) (entries now1 (history blocks)) →
  sublist (transactions b) (entries now1 (history blocks))
  ∧ NoDup (tx_nonce_keys (transactions b))
  ∧ (∀ tx, tx ∈ transactions b →
       ¬ blocked (history_tx_ids (history blocks)) (history_nonces (history blocks)) tx)
  ∧ pending_transactions (history (blocks ++ [b])) (entries now2 (history (blocks ++ [b]))) = [].
Proof. cbn zeta. intros Hb. by apply record_once. Qed.

(** The audit computes the balance before from the balance after and the expected change, so
    its comparison of the two always succeeds. *)
Lemma chain_balance_audit_always_matches `{SignatureBackend} (env : Environ)
    (policy : option WalletPolicy) (t : Tick) (targets : list AuditTarget) (st st' : ChainStore)
    (items : list pyval) :
  audit_entries env policy t targets st = (st', Ok items) → forallb entry_matches items = true.
Proof.
  revert st items. induction targets as [|a targets IH]; intros st items; cbn [audit_entries].
  - by intros [= _ <-].
  - destruct (String.eqb _ _); [apply IH|]. unfold mbind, M_bind.
    destruct (chain_balance_atomic _ _ _ _ st) as [st1 [bal|]]; [|done].
    destruct (audit_entries env policy t targets st1) as [st2 [rest|]] eqn:E; [|done].
    intros [= <- <-]. cbn [forallb]. rewrite (IH _ _ E), andb_true_r.
    unfold entry_matches, audit_entry. change (dget "delta_matches_expected" _) with
      (VBool (bal - (bal - au_expected_delta_atomic a) =? au_expected_delta_atomic a)).
    rewrite (proj2 (Z.eqb_eq _ _)) by lia. done.
Qed.

(** ** Witnesses *)

(** A settlement with a committee of three validators, to which the first two attest. *)
Definition demo_settlement : SettlementRecord := {|
  sr_settlement_id := "s1"; sr_created_at := "2026-02-02T00:00:00+00:00";
  sr_source_wallet_id := "w1"; sr_source_wallet_address := "cai_payer";
  sr_funding_source := "wallet"; sr_compute_cost_atomic := 100; sr_tx_fee_atomic := 7;
  sr_settlement_fee_atomic := 5; sr_worker_reward_atomic := 93;
  sr_committee_selection_seed := None; sr_committee_target_size := 3;
  sr_committee_selection_mode := "weighted";
  sr_committee_validator_ids := ["v1"; "v2"; "v3"];
  sr_committee_bonded := [("v1", 3); ("v2", 3); ("v3", 3)];
  sr_committee_total_bonded_atomic := 9; sr_committee_quorum_bond_atomic := 6;
  sr_reward_token_code := Some "CAI"; sr_ai_development_fee_atomic := 2;
  sr_ai_development_wallet_id := None; sr_ai_development_address := Some "cai_fund";
  sr_ai_development_credited_wallet_id := None; sr_accepted_attestations := 0;
  sr_rejected_attestations := 0; sr_accepted_bond_atomic := 0; sr_rejected_bond_atomic := 0;
  sr_status := "pending"; sr_note := None; sr_source_wallet_debit_atomic := 107;
  sr_reserve_debit_atomic := 0; sr_reserve_limit_identity_keys := [];
  sr_reserve_client_ip_hash := None; sr_applied_at := None; sr_applied_by_validator_id := None;
  sr_balance_audit := [] |}.

Definition demo_payout (id node : string) (recipient : option string) (reward : Z)
  : WorkerPayoutRecord := {|
  wp_payout_id := id; wp_created_at := "2026-02-02T00:00:00+00:00"; wp_settlement_id := "s1";
  wp_receipt_id := "r1"; wp_model_id := "m"; wp_node_id := node; wp_runner_id := None;
  wp_layer_start := None; wp_layer_end := None; wp_layer_count := 1; wp_share_bps := 5000;
  wp_reward_atomic := reward; wp_reward_token_code := None; wp_recipient_address := recipient;
  wp_credited_wallet_id := None; wp_status := "recorded"; wp_note := None |}.

Definition demo_payouts : list WorkerPayoutRecord :=
  [demo_payout "p1" "n1" (Some "cai_w1") 60; demo_payout "p2" "n2" None 33].

Definition demo_rewards : gmap string string := {[ "n2" := "cai_w2" ]}.

Definition demo_entries (now : string) (h : list pyval) : list (AuditTarget * ChainTransaction) :=
  settlement_entries no_env now mainnet_money demo_settlement [] demo_rewards h demo_payouts.

Lemma settlement_entries_balance_witness :
  Forall (entry_matches_target "s1") (demo_entries "2026-02-04" [])
  ∧ moved (demo_entries "2026-02-04" []) = 0
  ∧ map (λ e, (tx_type e.2, address e.2, delta_atomic e.2)) (demo_entries "2026-02-04" [])
    = [("settlement_wallet_debit", "payer", -107);
       ("validator_tx_fee_payout", "v1", 3); ("validator_tx_fee_payout", "v2", 2);
       ("validator_tx_fee_payout", "v3", 2);
       ("validator_settlement_fee_payout", "v1", 2); ("validator_settlement_fee_payout", "v2", 2);
       ("validator_settlement_fee_payout", "v3", 1);
       ("ai_development_fee_credit", "fund", 2);
       ("worker_reward_credit", "w1", 60); ("worker_reward_credit", "w2", 33)].
Proof.
  assert (covered demo_settlement demo_payouts) as Hc.
  { constructor; [by left|by left|by vm_compute|by vm_compute]. }
  pose proof (settlement_entries_balance no_env "2026-02-04" mainnet_money demo_settlement []
                demo_rewards [] demo_payouts Hc) as (Hall & _ & Hsum).
  split; [exact Hall|]. split; [|vm_compute; reflexivity]. apply Hsum.
  apply (bool_decide_eq_true_1 _). vm_compute. reflexivity.
Defined.

Definition demo_block : ChainBlock := {|
  block_id := "blk"; height := 1; created_at := "2026-02-04"; previous_hash := "";
  validator_id := VNone;
  transactions := pending_transactions [] (map snd (demo_entries "2026-02-04" []));
  block_hash := "h"; chain_id := "mainnet"; schema_version := 1; tx_root := ""; state_root := "";
  validator_public_key_b64 := None; validator_signature_b64 := None |}.

(** Ten entries are recorded, then none. *)
Lemma settlement_recorded_once_witness :
  length (transactions demo_block) = 10%nat
  ∧ let h := present_history true None (settlement_history_of_blocks "s1" ([] ++ [demo_block])) in
    pending_transactions h (map snd (demo_entries "2026-02-05" h)) = [].
Proof.
  split; [vm_compute; reflexivity|]. cbn zeta.
  apply (settlement_recorded_once no_env "2026-02-04" "2026-02-05" mainnet_money demo_settlement []
           demo_rewards demo_payouts [] demo_block).
  - apply (bool_decide_eq_true_1 _). vm_compute. reflexivity.
  - apply (bool_decide_eq_true_1 _). vm_compute. reflexivity.
  - reflexivity.
Defined.
