(* ===== verification/Slashing.v ===== *)
(** * Evidence against validators and its penalties

    [settlement.py], third part: evidence that a validator misbehaved, the cases it forms, the
    validators that support and attest a case, and the penalty a case with a quorum brings.
    The four files (evidence, cases, penalty attestations, registry of validators) hold their
    records in the order they were saved.  The settlements and the bonds the chain locks are
    arguments: nothing here changes them.  The clock is read once per call, and a time stamp
    in a peer's record is a text; the ids in a peer's record are whatever the JSON holds. *)
From Stdlib Require Import Ascii.
From S2P Require Import Prelude.
From S2P Require Import PyStr.
From S2P Require Import PyVal.
From S2P Require Import Sha256.
From S2P Require Import PyOrder.
From S2P Require Import Money.
From S2P Require Import Signing.
From S2P Require Import ChainTx.
From S2P Require Import Ledger.
From S2P Require Import ChainStore.
From S2P Require Import SettlementData.
From S2P Require Import Validators.
From S2P Require Import PeerPayload.
Local Open Scope Z_scope.
Set Default Proof Using "Type".

(** ** Records *)

(** [ValidatorEvidence] *)
Record ValidatorEvidence := {
  ve_evidence_id : string;
  ve_created_at : string;
  ve_validator_id : string;
  ve_evidence_type : string;
  ve_reporter_validator_id : option string;
  ve_settlement_id : pyval;
  ve_attestation_id : pyval;
  ve_conflicting_attestation_id : pyval;
  ve_slash_atomic : Z;
  ve_jailed : bool;
  ve_note : pyval;
  ve_source : string;
  ve_source_url : option string;
  ve_last_seen_at : option string;
  ve_updated_at : option string;
  ve_applied_to_registry : bool
}.

(** [ValidatorPenaltyCase] *)
Record ValidatorPenaltyCase := {
  pc_case_id : string;
  pc_created_at : string;
  pc_updated_at : string;
  pc_validator_id : string;
  pc_evidence_type : string;
  pc_settlement_id : pyval;
  pc_attestation_id : pyval;
  pc_conflicting_attestation_id : pyval;
  pc_slash_atomic : Z;
  pc_jailed : bool;
  pc_support_mode : string;
  pc_support_scope : string;
  pc_required_sources : Z;
  pc_supporting_sources : list string;
  pc_supporting_validator_ids : list string;
  pc_eligible_validator_ids : list string;
  pc_evidence_count : Z;
  pc_evidence_quorum_reached : bool;
  pc_penalty_attestation_count : Z;
  pc_penalty_attestation_required : Z;
  pc_quorum_reached : bool;
  pc_status : string;
  pc_finalized_at : option string;
  pc_applied_at : option string
}.

(** [ValidatorPenaltyAttestation] *)
Record ValidatorPenaltyAttestation := {
  pa_penalty_attestation_id : string;
  pa_created_at : string;
  pa_case_id : string;
  pa_validator_id : string;
  pa_accepted : bool;
  pa_note : option string
}.

#[export] Instance evidence_eq_dec : EqDecision ValidatorEvidence.
Proof. solve_decision. Defined.
#[export] Instance penalty_case_eq_dec : EqDecision ValidatorPenaltyCase.
Proof. solve_decision. Defined.

(** The files. *)
Record SlashingStore := {
  ss_evidence : list ValidatorEvidence;
  ss_cases : list ValidatorPenaltyCase;
  ss_attestations : list ValidatorPenaltyAttestation;
  ss_registry : list ValidatorRecord
}.

Definition save_validator_evidence (l : list ValidatorEvidence) (st : SlashingStore) : SlashingStore :=
  {| ss_evidence := l; ss_cases := ss_cases st; ss_attestations := ss_attestations st;
     ss_registry := ss_registry st |}.

Definition save_validator_penalty_cases (l : list ValidatorPenaltyCase) (st : SlashingStore)
  : SlashingStore :=
  {| ss_evidence := ss_evidence st; ss_cases := l; ss_attestations := ss_attestations st;
     ss_registry := ss_registry st |}.

Definition append_validator_penalty_attestation (a : ValidatorPenaltyAttestation)
    (st : SlashingStore) : SlashingStore :=
  {| ss_evidence := ss_evidence st; ss_cases := ss_cases st;
     ss_attestations := ss_attestations st ++ [a]; ss_registry := ss_registry st |}.

Definition save_registry (l : list ValidatorRecord) (st : SlashingStore) : SlashingStore :=
  {| ss_evidence := ss_evidence st; ss_cases := ss_cases st;
     ss_attestations := ss_attestations st; ss_registry := l |}.

Definition append_validator_evidence (e : ValidatorEvidence) (st : SlashingStore) : SlashingStore :=
  save_validator_evidence (ss_evidence st ++ [e]) st.

(** ** Reading the files *)

Definition list_validator_evidence (file : list ValidatorEvidence) : list ValidatorEvidence :=
  newest_first ve_created_at file.

Definition list_validator_penalty_cases (file : list ValidatorPenaltyCase)
  : list ValidatorPenaltyCase :=
  newest_first pc_updated_at file.

(** [list_validator_penalty_attestations(case_id=i)] *)
Definition list_validator_penalty_attestations (i : string) (file : list ValidatorPenaltyAttestation)
  : list ValidatorPenaltyAttestation :=
  newest_first pa_created_at (filter (λ a, pa_case_id a = i) file).

(** ** Cases *)

(** The tuple [_validator_evidence_case_key] returns. *)
Record CaseKey := {
  ck_validator_id : string;
  ck_evidence_type : string;
  ck_settlement_id : pyval;
  ck_attestation_id : pyval;
  ck_conflicting_attestation_id : pyval;
  ck_slash_atomic : Z;
  ck_jailed : bool
}.

#[export] Instance case_key_eq_dec : EqDecision CaseKey.
Proof. solve_decision. Defined.

(** Python's [True] and [1] are equal keys. *)
Definition key_part_of (v : pyval) : pyval :=
  match v with VBool b => VInt (if b then 1 else 0) | _ => v end.

Definition _validator_evidence_case_key (item : ValidatorEvidence) : CaseKey := {|
  ck_validator_id := ve_validator_id item;
  ck_evidence_type := ve_evidence_type item;
  ck_settlement_id := key_part_of (ve_settlement_id item);
  ck_attestation_id := key_part_of (ve_attestation_id item);
  ck_conflicting_attestation_id := key_part_of (ve_conflicting_attestation_id item);
  ck_slash_atomic := ve_slash_atomic item;
  ck_jailed := ve_jailed item |}.

(** Lists and dicts cannot be part of a dict's key. *)
Definition hashable (v : pyval) : bool :=
  match v with VList _ | VDict _ => false | _ => true end.

Definition hashable_key (k : CaseKey) : bool :=
  hashable (ck_settlement_id k) && hashable (ck_attestation_id k)
  && hashable (ck_conflicting_attestation_id k).

(** [v or ""] as an element of [str.join]. *)
Definition joinable (v : pyval) : result string :=
  match py_or v (VStr "") with VStr s => Ok s | _ => Err TypeError end.

Definition _validator_evidence_case_id (k : CaseKey) : result string :=
  s ← joinable (ck_settlement_id k);
  a ← joinable (ck_attestation_id k);
  c ← joinable (ck_conflicting_attestation_id k);
  Ok (take_str 16 (sha256_hexdigest
        (join "|" [ck_validator_id k; ck_evidence_type k; s; a; c; str_of_Z (ck_slash_atomic k);
                   py_str (VBool (ck_jailed k))]))).

(** The keys in the order of their first occurrence. *)
Fixpoint distinct_keys (seen : list CaseKey) (l : list CaseKey) : list CaseKey :=
  match l with
  | [] => []
  | k :: l' =>
      if bool_decide (k ∈ seen) then distinct_keys seen l'
      else k :: distinct_keys (k :: seen) l'
  end.

Definition of_case (k : CaseKey) (items : list ValidatorEvidence) : list ValidatorEvidence :=
  filter (λ e, _validator_evidence_case_key e = k) items.

(** [grouped.setdefault(key, []).append(item)] over the items. *)
Definition grouped (items : list ValidatorEvidence)
  : result (list (CaseKey * list ValidatorEvidence)) :=
  let keys := map _validator_evidence_case_key items in
  if forallb hashable_key keys then Ok (map (λ k, (k, of_case k items)) (distinct_keys [] keys))
  else Err TypeError.

(** [item.updated_at or item.created_at] *)
Definition evidence_time (e : ValidatorEvidence) : string :=
  match ve_updated_at e with
  | Some t => if String.eqb t "" then ve_created_at e else t
  | None => ve_created_at e
  end.

(** ** Who supports a case *)

Definition _normalize_validator_reporter_id (value : pyval) : option string :=
  match value with
  | VNone => None
  | _ => let s := lower (strip (py_str value)) in if String.eqb s "" then None else Some s
  end.

(** [max(1, ((2 * n) + 2) // 3)] *)
Definition two_thirds (n : nat) : Z := Z.max 1 ((2 * Z.of_nat n + 2) / 3).

Section context.
Context (settlements : list SettlementRecord) (locked_bonds : gmap string Z).

(** [list_bonded_validators]: see [list_bonded_validators_locked] below. *)
Definition bonded_validators (registry : list ValidatorRecord) : list ValidatorRecord :=
  filter (λ r, vr_state r = BONDED ∧ 0 < vr_bonded_atomic r)
    (map (λ r, _chain_backed_validator_record r locked_bonds) (list_validator_records registry)).

Definition bonded_ids (registry : list ValidatorRecord) : gset string :=
  list_to_set (map vr_validator_id (bonded_validators registry)).

Definition case_settlement (k : CaseKey) : option SettlementRecord :=
  match ck_settlement_id k with
  | VStr s => if String.eqb s "" then None else resolve_settlement s settlements
  | _ => None
  end.

Definition committee_ids (s : SettlementRecord) : gset string :=
  list_to_set (filter (λ i, i ≠ "") (map (λ i, lower (strip i)) (sr_committee_validator_ids s))).

Record SupportContext := {
  sc_scope : string;
  sc_eligible : gset string;
  sc_required : Z
}.

Definition committee_scope (s : SettlementRecord) : SupportContext := {|
  sc_scope := "settlement_committee"; sc_eligible := committee_ids s;
  sc_required := two_thirds (size (committee_ids s)) |}.

Definition open_scope (registry : list ValidatorRecord) : SupportContext :=
  let bonded := bonded_ids registry in
  if bool_decide (bonded = ∅) then {| sc_scope := "source_url"; sc_eligible := ∅; sc_required := 1 |}
  else {| sc_scope := "bonded_validator_set"; sc_eligible := bonded;
          sc_required := two_thirds (size bonded) |}.

Definition _validator_evidence_case_support_context (k : CaseKey) (registry : list ValidatorRecord)
  : SupportContext :=
  match case_settlement k with
  | Some s =>
      if bool_decide (sr_committee_validator_ids s = []) then open_scope registry
      else committee_scope s
  | None => open_scope registry
  end.

Definition _validator_evidence_source_quorum (registry : list ValidatorRecord) : Z :=
  match bonded_validators registry with [] => 1 | l => two_thirds (length l) end.

(** The eligible reporters of a case. *)
Definition supporting_ids (k : CaseKey) (items : list ValidatorEvidence)
    (registry : list ValidatorRecord) : gset string :=
  let eligible := sc_eligible (_validator_evidence_case_support_context k registry) in
  let eligible := if bool_decide (eligible = ∅) then bonded_ids registry else eligible in
  list_to_set (filter (λ r, r ≠ "" ∧ r ∈ eligible) (omap ve_reporter_validator_id (of_case k items))).

Definition _validator_evidence_case_supporting_validator_ids (k : CaseKey)
    (items : list ValidatorEvidence) (registry : list ValidatorRecord) : list string :=
  sorted_ids (supporting_ids k items registry).

Definition source_urls (items : list ValidatorEvidence) : gset string :=
  list_to_set (filter (λ u, u ≠ "") (omap ve_source_url items)).

Definition _validator_evidence_case_supporting_count (k : CaseKey) (items : list ValidatorEvidence)
    (registry : list ValidatorRecord) : Z :=
  let ids := supporting_ids k items registry in
  if bool_decide (ids = ∅) then Z.of_nat (size (source_urls (of_case k items)))
  else Z.of_nat (size ids).

Definition _validator_evidence_case_has_quorum (k : CaseKey) (items : list ValidatorEvidence)
    (registry : list ValidatorRecord) : bool :=
  let supporting_count := _validator_evidence_case_supporting_count k items registry in
  if supporting_count <=? 0 then false
  else
    let sc := _validator_evidence_case_support_context k registry in
    let required :=
      if String.eqb (sc_scope sc) "source_url" then _validator_evidence_source_quorum registry
      else sc_required sc in
    required <=? supporting_count.

(** The eligible validators that accepted the penalty. *)
Definition attester_ids (case_id : string) (eligible : gset string)
    (attestations : list ValidatorPenaltyAttestation) : gset string :=
  list_to_set
    (map pa_validator_id
       (filter (λ a, pa_accepted a = true ∧ pa_validator_id a ∈ eligible)
          (list_validator_penalty_attestations case_id attestations))).

Definition _validator_penalty_attestation_validator_ids (case_id : string) (eligible : gset string)
    (attestations : list ValidatorPenaltyAttestation) : list string :=
  sorted_ids (attester_ids case_id eligible attestations).

Definition _validator_penalty_attestation_required (support_scope : string) (required_sources : Z)
  : Z :=
  if String.eqb support_scope "settlement_committee" then Z.max 1 required_sources else 0.

Definition _validator_penalty_case_has_quorum (support_scope : string)
    (penalty_attestation_count penalty_attestation_required : Z) (evidence_quorum_reached : bool)
  : bool :=
  if negb evidence_quorum_reached then false
  else if negb (String.eqb support_scope "settlement_committee") then true
  else Z.max 1 penalty_attestation_required <=? penalty_attestation_count.

(** ** Refreshing the cases *)

(** The first item in the order of [items.sort(key=..., reverse=True)]. *)
Definition latest_evidence (items : list ValidatorEvidence) : option ValidatorEvidence :=
  head (newest_first evidence_time items).

Definition earliest (d : string) (items : list ValidatorEvidence) : string :=
  match map ve_created_at items with [] => d | x :: l => first_min str_leb x l end.

(** What the loop over the groups has done so far: the evidence list it rewrites, the registry
    it penalises, the cases it wrote and the keys of the cases it applied (the code counts
    them), and whether the evidence changed. *)
Record Refresh := {
  rf_items : list ValidatorEvidence;
  rf_registry : list ValidatorRecord;
  rf_cases : list ValidatorPenaltyCase;
  rf_applied : list CaseKey
}.

Definition mark_applied (e : ValidatorEvidence) : ValidatorEvidence := {|
  ve_evidence_id := ve_evidence_id e; ve_created_at := ve_created_at e;
  ve_validator_id := ve_validator_id e; ve_evidence_type := ve_evidence_type e;
  ve_reporter_validator_id := ve_reporter_validator_id e;
  ve_settlement_id := ve_settlement_id e; ve_attestation_id := ve_attestation_id e;
  ve_conflicting_attestation_id := ve_conflicting_attestation_id e;
  ve_slash_atomic := ve_slash_atomic e; ve_jailed := ve_jailed e; ve_note := ve_note e;
  ve_source := ve_source e; ve_source_url := ve_source_url e;
  ve_last_seen_at := ve_last_seen_at e; ve_updated_at := ve_updated_at e;
  ve_applied_to_registry := true |}.

Definition mark_case (k : CaseKey) (items : list ValidatorEvidence) : list ValidatorEvidence :=
  map (λ e, if bool_decide (_validator_evidence_case_key e = k) then mark_applied e else e) items.

(** [{item.case_id: item for item in ...}]: a later record replaces an earlier one in place. *)
Fixpoint put_case (c : ValidatorPenaltyCase) (l : list ValidatorPenaltyCase)
  : list ValidatorPenaltyCase :=
  match l with
  | [] => [c]
  | c' :: l' => if String.eqb (pc_case_id c') (pc_case_id c) then c :: l' else c' :: put_case c l'
  end.

Definition case_map (l : list ValidatorPenaltyCase) : list ValidatorPenaltyCase :=
  foldl (λ m c, put_case c m) [] l.

Definition get_case (i : string) (m : list ValidatorPenaltyCase) : option ValidatorPenaltyCase :=
  List.find (λ c, String.eqb (pc_case_id c) i) m.

(** The case of a group, with the quorum it has and the instants of its decision. *)
Definition case_record (now case_id : string) (k : CaseKey) (group : list ValidatorEvidence)
    (latest : ValidatorEvidence) (sc : SupportContext) (support attesters : gset string)
    (evidence_quorum quorum : bool) (finalized_at applied_at : option string)
  : ValidatorPenaltyCase :=
  let required := _validator_penalty_attestation_required (sc_scope sc) (sc_required sc) in
  {| pc_case_id := case_id;
     pc_created_at := earliest now group;
     pc_updated_at := evidence_time latest;
     pc_validator_id := ve_validator_id latest;
     pc_evidence_type := ve_evidence_type latest;
     pc_settlement_id := ve_settlement_id latest;
     pc_attestation_id := ve_attestation_id latest;
     pc_conflicting_attestation_id := ve_conflicting_attestation_id latest;
     pc_slash_atomic := ve_slash_atomic latest;
     pc_jailed := ve_jailed latest;
     pc_support_mode := if bool_decide (support = ∅) then "source_url" else "validator";
     pc_support_scope := sc_scope sc;
     pc_required_sources := sc_required sc;
     pc_supporting_sources := sorted_ids (source_urls group);
     pc_supporting_validator_ids := sorted_ids (support ∪ attesters);
     pc_eligible_validator_ids := sorted_ids (sc_eligible sc);
     pc_evidence_count := Z.of_nat (length group);
     pc_evidence_quorum_reached := evidence_quorum;
     pc_penalty_attestation_count := Z.of_nat (size attesters);
     pc_penalty_attestation_required := required;
     pc_quorum_reached := quorum;
     pc_status :=
       if quorum then (match applied_at with Some _ => "applied" | None => "finalized" end)
       else "pending";
     pc_finalized_at := finalized_at;
     pc_applied_at := applied_at |}.

(** One round of the loop over the groups. *)
Definition refresh_group (now : string) (attestations : list ValidatorPenaltyAttestation)
    (existing : list ValidatorPenaltyCase) (k : CaseKey) (group : list ValidatorEvidence)
    (rf : Refresh) : Refresh * result unit :=
  match latest_evidence group with
  | None => (rf, Err IndexError)
  | Some latest =>
      match _validator_evidence_case_id k with
      | Err e => (rf, Err e)
      | Ok case_id =>
          let sc := _validator_evidence_case_support_context k (rf_registry rf) in
          let support := supporting_ids k (rf_items rf) (rf_registry rf) in
          let evidence_quorum :=
            _validator_evidence_case_has_quorum k (rf_items rf) (rf_registry rf) in
          let attesters := attester_ids case_id (sc_eligible sc) attestations in
          let quorum :=
            _validator_penalty_case_has_quorum (sc_scope sc) (Z.of_nat (size attesters))
              (_validator_penalty_attestation_required (sc_scope sc) (sc_required sc))
              evidence_quorum in
          let existing_case := get_case case_id existing in
          let finalized0 := existing_case ≫= pc_finalized_at in
          let applied0 := existing_case ≫= pc_applied_at in
          let finalized_at := if quorum then or_now finalized0 now else finalized0 in
          let '(registry, penalised) :=
            if quorum && bool_decide (applied0 = None) then
              apply_remote_validator_penalty_to_registry now (ve_validator_id latest)
                (ve_slash_atomic latest) (ve_jailed latest) (Some (ve_created_at latest))
                (ve_source_url latest) (rf_registry rf)
            else (rf_registry rf, false) in
          ({| rf_items := if penalised then mark_case k (rf_items rf) else rf_items rf;
              rf_registry := registry;
              rf_cases :=
                rf_cases rf ++
                [case_record now case_id k group latest sc support attesters evidence_quorum quorum
                   finalized_at (if penalised then Some now else applied0)];
              rf_applied := if penalised then rf_applied rf ++ [k] else rf_applied rf |}, Ok tt)
      end
  end.

Fixpoint refresh_groups (now : string) (attestations : list ValidatorPenaltyAttestation)
    (existing : list ValidatorPenaltyCase) (groups : list (CaseKey * list ValidatorEvidence))
    (rf : Refresh) : Refresh * result unit :=
  match groups with
  | [] => (rf, Ok tt)
  | (k, group) :: groups' =>
      match refresh_group now attestations existing k group rf with
      | (rf', Ok _) => refresh_groups now attestations existing groups' rf'
      | (rf', Err e) => (rf', Err e)
      end
  end.

Definition SlM (A : Type) : Type := SlashingStore → SlashingStore * result A.

(** The result: the cases, the keys of the penalties applied in this call, and the evidence
    list the caller passed as the call leaves it. *)
Definition refresh_validator_penalty_cases (now : string)
    (evidence_items : option (list ValidatorEvidence))
  : SlM (list ValidatorPenaltyCase * list CaseKey * list ValidatorEvidence) := λ st,
  let active_items := default (list_validator_evidence (ss_evidence st)) evidence_items in
  let existing := case_map (list_validator_penalty_cases (ss_cases st)) in
  match grouped active_items with
  | Err e => (st, Err e)
  | Ok groups =>
      let '(rf, r) :=
        refresh_groups now (ss_attestations st) existing groups
          {| rf_items := active_items; rf_registry := ss_registry st; rf_cases := [];
             rf_applied := [] |} in
      let st := save_registry (rf_registry rf) st in
      match r with
      | Err e => (st, Err e)
      | Ok _ =>
          let unseen :=
            filter (λ c, pc_case_id c ∉ map pc_case_id (rf_cases rf)) existing in
          let cases := newest_first pc_updated_at (rf_cases rf ++ unseen) in
          let evidence_changed :=
            existsb (λ e, bool_decide (_validator_evidence_case_key e ∈ rf_applied rf)
                          && negb (ve_applied_to_registry e)) active_items in
          let st := if evidence_changed then save_validator_evidence (rf_items rf) st else st in
          (save_validator_penalty_cases cases st, Ok (cases, rf_applied rf, rf_items rf))
      end
  end.

(** ** The operations *)

(** [record_validator_evidence]; [identity] is what [get_validator_identity] returns. *)
Definition record_validator_evidence (now evidence_id : string) (identity : option string)
    (validator_id : string) (reporter_validator_id : option string) (evidence_type : string)
    (settlement_id attestation_id conflicting_attestation_id : option string)
    (slash_atomic : Z) (jailed : bool) (note : option string) : SlM (ValidatorEvidence * list CaseKey) :=
  λ st,
  let opt (o : option string) := match o with Some s => VStr s | None => VNone end in
  let reporter :=
    match _normalize_validator_reporter_id (opt reporter_validator_id) with
    | Some r => Some r
    | None => identity
    end in
  let evidence := {|
    ve_evidence_id := evidence_id; ve_created_at := now; ve_validator_id := validator_id;
    ve_evidence_type := evidence_type; ve_reporter_validator_id := reporter;
    ve_settlement_id := opt settlement_id; ve_attestation_id := opt attestation_id;
    ve_conflicting_attestation_id := opt conflicting_attestation_id;
    ve_slash_atomic := slash_atomic; ve_jailed := jailed; ve_note := opt note;
    ve_source := "local"; ve_source_url := None; ve_last_seen_at := Some now;
    ve_updated_at := Some now; ve_applied_to_registry := false |} in
  match refresh_validator_penalty_cases now None (append_validator_evidence evidence st) with
  | (st', Ok (_, applied, _)) => (st', Ok (evidence, applied))
  | (st', Err e) => (st', Err e)
  end.

Definition find_case (case_id : string) (st : SlashingStore) : option ValidatorPenaltyCase :=
  get_case case_id (list_validator_penalty_cases (ss_cases st)).

(** The part of [record_validator_penalty_attestation] after the case was found. *)
Definition attest_case (now attestation_id : string) (case : ValidatorPenaltyCase)
    (validator_id : string) (accepted : bool) (note : option string)
  : SlM (ValidatorPenaltyAttestation * list CaseKey) := λ st,
  let case_id := pc_case_id case in
  let normalized_validator_id := lower (strip validator_id) in
  if String.eqb normalized_validator_id "" then
    (st, Err (ValueError "Validator id is required for penalty attestation."))
  else if negb (bool_decide (pc_eligible_validator_ids case = []))
          && negb (bool_decide (normalized_validator_id ∈ pc_eligible_validator_ids case)) then
    (st, Err (ValueError "Validator is not eligible to attest this penalty case."))
  else
    match filter (λ a, pa_validator_id a = normalized_validator_id)
            (list_validator_penalty_attestations case_id (ss_attestations st)) with
    | item :: _ =>
        if Bool.eqb (pa_accepted item) accepted
           && bool_decide ((if filled (pa_note item) then pa_note item else None)
                           = (if filled note then note else None))
        then (st, Ok (item, []))
        else (st, Err (ValueError
                "Conflicting penalty attestation already exists for this case and validator."))
    | [] =>
        let attestation := {|
          pa_penalty_attestation_id := attestation_id; pa_created_at := now;
          pa_case_id := case_id; pa_validator_id := normalized_validator_id;
          pa_accepted := accepted; pa_note := note |} in
        match refresh_validator_penalty_cases now None
                (append_validator_penalty_attestation attestation st) with
        | (st', Ok (_, applied, _)) => (st', Ok (attestation, applied))
        | (st', Err e) => (st', Err e)
        end
    end.

Definition record_validator_penalty_attestation (now attestation_id case_id validator_id : string)
    (accepted : bool) (note : option string) : SlM (ValidatorPenaltyAttestation * list CaseKey) :=
  λ st,
  let not_found := ValueError ("Penalty case '" +:+ case_id +:+ "' not found.") in
  match find_case case_id st with
  | Some case => attest_case now attestation_id case validator_id accepted note st
  | None =>
      match refresh_validator_penalty_cases now None st with
      | (st', Err e) => (st', Err e)
      | (st', Ok (_, applied, _)) =>
          match find_case case_id st' with
          | None => (st', Err not_found)
          | Some case =>
              match attest_case now attestation_id case validator_id accepted note st' with
              | (st'', Ok (a, applied')) => (st'', Ok (a, applied ++ applied'))
              | (st'', Err e) => (st'', Err e)
              end
          end
      end
  end.

(** ** The evidence of peers *)

Definition remote_evidence_id (v : pyval) : string := lower (str_or_strip v).

(** An item of the list under ["evidence"], with its keys in snake case; [None] for an item
    without an id. *)
Definition normalized_evidence (raw : pyval) : result (option (list (string * pyval))) :=
  match raw with
  | VDict d =>
      let evidence_id := remote_evidence_id (either "evidence_id" "evidenceId" d) in
      if String.eqb evidence_id "" then Ok None
      else
        Ok (Some
          [("evidence_id", VStr evidence_id);
           ("created_at", either "created_at" "createdAt" d);
           ("validator_id",
            VStr (lower (strip (py_str (py_or (either "validator_id" "validatorId" d) (VStr ""))))));
           ("reporter_validator_id",
            match _normalize_validator_reporter_id
                    (either "reporter_validator_id" "reporterValidatorId" d) with
            | Some r => VStr r
            | None => VNone
            end);
           ("evidence_type", either "evidence_type" "evidenceType" d);
           ("settlement_id", either "settlement_id" "settlementId" d);
           ("attestation_id", either "attestation_id" "attestationId" d);
           ("conflicting_attestation_id",
            either "conflicting_attestation_id" "conflictingAttestationId" d);
           ("slash_atomic", either "slash_atomic" "slashAtomic" d);
           ("jailed", dget "jailed" d);
           ("note", dget "note" d);
           ("updated_at", either "updated_at" "updatedAt" d)])
  | _ => Err AttributeError
  end.

Definition _iter_remote_validator_evidence (payload : list (string * pyval))
  : result (list pyval) :=
  if truthy (dget "evidence" payload) then
    raws ← py_list (dget "evidence" payload);
    normalized ← mapM_r normalized_evidence raws;
    Ok (map VDict (omap id normalized))
  else if truthy (dget "records" payload) then py_list (dget "records" payload)
  else Ok [].

Definition text_or (v : pyval) (d : option string) : option string :=
  match v with VStr s => if String.eqb s "" then d else Some s | _ => d end.

(** The record a peer's item becomes, unless it has no id or a known one. *)
Definition import_evidence (now source_url : string) (items : list ValidatorEvidence) (raw : pyval)
  : result (list ValidatorEvidence) :=
  match raw with
  | VDict d =>
      let evidence_id := remote_evidence_id (dget "evidence_id" d) in
      if String.eqb evidence_id "" || bool_decide (evidence_id ∈ map ve_evidence_id items)
      then Ok items
      else
        slash ← py_int (py_or (dget "slash_atomic" d) (VInt 0));
        Ok (items ++
          [{| ve_evidence_id := evidence_id;
              ve_created_at := py_str (py_or (dget "created_at" d) (VStr now));
              ve_validator_id := lower (str_or_strip (dget "validator_id" d));
              ve_evidence_type := str_or_strip (dget "evidence_type" d);
              ve_reporter_validator_id :=
                _normalize_validator_reporter_id (dget "reporter_validator_id" d);
              ve_settlement_id := dget "settlement_id" d;
              ve_attestation_id := dget "attestation_id" d;
              ve_conflicting_attestation_id := dget "conflicting_attestation_id" d;
              ve_slash_atomic := Z.max 0 slash;
              ve_jailed := truthy (dget "jailed" d);
              ve_note := dget "note" d;
              ve_source := "peer";
              ve_source_url := Some source_url;
              ve_last_seen_at := Some now;
              ve_updated_at :=
                text_or (dget "updated_at" d) (text_or (dget "created_at" d) (Some now));
              ve_applied_to_registry := false |}])
  | _ => Err AttributeError
  end.

Section peers.
Context `{SignatureBackend} (env : Environ) (policy : option WalletPolicy).

(** The number of imported records, and the keys of the penalties applied. *)
Definition merge_remote_validator_evidence_payload (now source_url : string) (payload : pyval)
  : SlM (Z * list CaseKey) := λ st,
  match validate_peer_payload_network env payload policy "validator evidence", payload with
  | Err e, _ => (st, Err e)
  | Ok _, VDict d =>
      let '(signature_ok, signature_error) :=
        verify_peer_payload_signature payload "validator evidence"
          (peer_payload_signatures_required env policy)
          (peer_payload_hybrid_signatures_required env policy) in
      if negb signature_ok then
        (st, Err (ValueError (default "Invalid validator evidence payload signature." signature_error)))
      else
        let existing_items := list_validator_evidence (ss_evidence st) in
        match (raws ← _iter_remote_validator_evidence d;
               foldM (import_evidence now source_url) existing_items raws) with
        | Err e => (st, Err e)
        | Ok items =>
            let imported := Z.of_nat (length items) - Z.of_nat (length existing_items) in
            match refresh_validator_penalty_cases now (Some items) st with
            | (st', Err e) => (st', Err e)
            | (st', Ok (penalty_cases, applied, items')) =>
                let st' := if 0 <? imported then save_validator_evidence items' st' else st' in
                let st' :=
                  if (0 <? imported) || negb (bool_decide (penalty_cases = []))
                  then save_validator_penalty_cases penalty_cases st' else st' in
                (st', Ok (imported, applied))
            end
        end
  | Ok _, _ => (st, Err AttributeError)
  end.
End peers.

(** ** Summaries *)

(** [ValidatorEvidenceCaseSummary] *)
Record ValidatorEvidenceCaseSummary := {
  es_case_id : string;
  es_validator_id : string;
  es_evidence_type : string;
  es_settlement_id : pyval;
  es_attestation_id : pyval;
  es_conflicting_attestation_id : pyval;
  es_slash_atomic : Z;
  es_jailed : bool;
  es_created_at : string;
  es_updated_at : string;
  es_evidence_count : Z;
  es_supporting_sources : list string;
  es_supporting_validator_ids : list string;
  es_support_mode : string;
  es_support_scope : string;
  es_required_sources : Z;
  es_evidence_quorum_reached : bool;
  es_penalty_attestation_count : Z;
  es_penalty_attestation_required : Z;
  es_quorum_reached : bool;
  es_status : string;
  es_finalized_at : option string;
  es_applied_at : option string;
  es_applied_to_registry : bool
}.

(** The decided part of a summary: the stored case's, or what the evidence says now. *)
Definition summarize_case (st : SlashingStore) (records : list ValidatorPenaltyCase) (k : CaseKey)
    (group : list ValidatorEvidence) : result ValidatorEvidenceCaseSummary :=
  match latest_evidence group with
  | None => Err IndexError
  | Some latest =>
      let sc := _validator_evidence_case_support_context k (ss_registry st) in
      let support := _validator_evidence_case_supporting_validator_ids k group (ss_registry st) in
      case_id ← _validator_evidence_case_id k;
      let penalty_case := get_case case_id records in
      let any_applied := existsb ve_applied_to_registry group in
      let evidence_quorum := _validator_evidence_case_has_quorum k group (ss_registry st) in
      let count :=
        Z.of_nat (size (attester_ids case_id (sc_eligible sc) (ss_attestations st))) in
      let required := _validator_penalty_attestation_required (sc_scope sc) (sc_required sc) in
      let quorum := _validator_penalty_case_has_quorum (sc_scope sc) count required evidence_quorum in
      let at_time := Some (evidence_time latest) in
      Ok {| es_case_id := case_id;
            es_validator_id := ve_validator_id latest;
            es_evidence_type := ve_evidence_type latest;
            es_settlement_id := ve_settlement_id latest;
            es_attestation_id := ve_attestation_id latest;
            es_conflicting_attestation_id := ve_conflicting_attestation_id latest;
            es_slash_atomic := ve_slash_atomic latest;
            es_jailed := ve_jailed latest;
            es_created_at := earliest "" group;
            es_updated_at := evidence_time latest;
            es_evidence_count := Z.of_nat (length group);
            es_supporting_sources := sorted_ids (source_urls group);
            es_supporting_validator_ids := support;
            es_support_mode := if bool_decide (support = []) then "source_url" else "validator";
            es_support_scope := sc_scope sc;
            es_required_sources := sc_required sc;
            es_evidence_quorum_reached := evidence_quorum;
            es_penalty_attestation_count :=
              match penalty_case with Some c => pc_penalty_attestation_count c | None => count end;
            es_penalty_attestation_required :=
              match penalty_case with
              | Some c => pc_penalty_attestation_required c | None => required end;
            es_quorum_reached :=
              match penalty_case with Some c => pc_quorum_reached c | None => quorum end;
            es_status :=
              match penalty_case with
              | Some c => pc_status c
              | None =>
                  if any_applied then "applied" else if quorum then "finalized" else "pending"
              end;
            es_finalized_at :=
              match penalty_case with
              | Some c => pc_finalized_at c | None => if quorum then at_time else None end;
            es_applied_at :=
              match penalty_case with
              | Some c => pc_applied_at c | None => if any_applied then at_time else None end;
            es_applied_to_registry :=
              match penalty_case with
              | Some c => String.eqb (pc_status c) "applied" | None => any_applied end |}
  end.

(** [l[:n]] *)
Definition take_slice {A} (n : Z) (l : list A) : list A :=
  take (Z.to_nat (if n <? 0 then Z.of_nat (length l) + n else n)) l.

Definition list_validator_evidence_cases (validator_id : option string) (limit : option Z)
    (st : SlashingStore) : result (list ValidatorEvidenceCaseSummary) :=
  let records := rev (list_validator_penalty_cases (ss_cases st)) in
  let items :=
    filter (λ e, default (ve_validator_id e) validator_id = ve_validator_id e)
      (list_validator_evidence (ss_evidence st)) in
  groups ← grouped items;
  cases ← mapM_r (λ g, summarize_case st records g.1 g.2) groups;
  Ok (let cases := newest_first es_updated_at cases in
      match limit with Some n => take_slice n cases | None => cases end).
End context.
