(* ===== verification/SlashingProps.v ===== *)
(** * When a validator is penalised

    The registry changes only by penalties with the quorum their scope asks for, and over any
    interleaving of calls that return each case is applied at most once. *)
From Stdlib Require Import Ascii.
From S2P Require Import Prelude.
From S2P Require Import PyStr.
From S2P Require Import PyVal.
From S2P Require Import Sha256.
From S2P Require Import PyOrder.
From S2P Require Import Money.
From S2P Require Import Signing.
From S2P Require Import ChainTx.
From S2P Require Import Ledger.
From S2P Require Import ChainStore.
From S2P Require Import SettlementData.
From S2P Require Import Validators.
From S2P Require Import Demo.
From S2P Require Import PeerPayload.
From S2P Require Import SettlementProps.
From S2P Require Import Slashing.
Local Open Scope Z_scope.
Set Default Proof Using "Type".

(** ** The bonded validators *)

(** [list_bonded_validators] of [Validators] is [bonded_validators] of the bonds the chain
    locks. *)
Lemma list_bonded_validators_locked `{SignatureBackend} env policy t file st :
  list_bonded_validators env policy t file st =
  (locked ← _chain_locked_bonds_by_validator env policy t; mret (bonded_validators locked file)) st.
Proof.
  unfold list_bonded_validators, list_effective_validator_records, bonded_validators.
  unfold mbind, mret. unfold M_bind, M_ret.
  by destruct (_chain_locked_bonds_by_validator env policy t st) as [st' [locked|e]].
Qed.

(** ** The keys of the groups *)

Lemma distinct_keys_spec seen l :
  NoDup (distinct_keys seen l)
  ∧ ∀ k, k ∈ distinct_keys seen l ↔ k ∈ l ∧ k ∉ seen.
Proof.
  revert seen. induction l as [|x l IH]; intros seen; cbn [distinct_keys].
  - split; [constructor|]. set_solver.
  - case_bool_decide as Hx.
    + destruct (IH seen) as [Hnd Hin]. split; [done|]. intros k. rewrite Hin. set_solver.
    + destruct (IH (x :: seen)) as [Hnd Hin]. split.
      * constructor; [|done]. rewrite Hin. set_solver.
      * intros k. rewrite elem_of_cons, Hin. destruct (decide (k = x)); set_solver.
Qed.

Lemma grouped_spec items groups :
  grouped items = Ok groups →
  NoDup groups.*1
  ∧ (∀ k, k ∈ groups.*1 ↔ k ∈ map _validator_evidence_case_key items)
  ∧ Forall (λ g, g.2 = of_case g.1 items) groups.
Proof.
  unfold grouped. destruct (forallb _ _); [|done]. intros [= <-].
  set (keys := map _ items). destruct (distinct_keys_spec [] keys) as [Hnd Hin].
  assert ((map (λ k, (k, of_case k items)) (distinct_keys [] keys)).*1 = distinct_keys [] keys) as Hfst.
  { rewrite <- list_fmap_compose. apply list_fmap_id. }
  split_and!.
  - by rewrite Hfst.
  - intros k. rewrite Hfst, Hin. set_solver.
  - apply Forall_forall. intros g (k & -> & _)%list_elem_of_fmap. done.
Qed.

(** ** Cases by id *)

Definition case_ids (l : list ValidatorPenaltyCase) : list string := map pc_case_id l.

Lemma put_case_fresh c l : pc_case_id c ∉ case_ids l → put_case c l = l ++ [c].
Proof.
  induction l as [|c' l IH]; cbn; [done|]. intros Hc.
  destruct (String.eqb_spec (pc_case_id c') (pc_case_id c)) as [E|_]; [set_solver|].
  rewrite IH; [done|set_solver].
Qed.

Lemma put_case_ids c l :
  case_ids (put_case c l) =
  if bool_decide (pc_case_id c ∈ case_ids l) then case_ids l else case_ids l ++ [pc_case_id c].
Proof.
  induction l as [|c' l IH]; [done|]. cbn [put_case case_ids map] in *.
  destruct (String.eqb_spec (pc_case_id c') (pc_case_id c)) as [E|E].
  - cbn. rewrite bool_decide_true by (rewrite E; set_solver). by rewrite E.
  - cbn. unfold case_ids in IH. rewrite IH. repeat case_bool_decide; [done|set_solver|set_solver|done].
Qed.

Lemma case_map_nodup l : NoDup (case_ids (case_map l)).
Proof.
  unfold case_map. assert (NoDup (case_ids [])) as Hnd by constructor.
  revert Hnd. generalize (@nil ValidatorPenaltyCase). induction l as [|c l IH]; intros m Hm; cbn; [done|].
  apply IH. rewrite put_case_ids. case_bool_decide; [done|].
  apply NoDup_app. split_and!; [done|set_solver|apply NoDup_singleton].
Qed.

Lemma case_map_id l : NoDup (case_ids l) → case_map l = l.
Proof.
  unfold case_map. intros Hnd. change l with ([] ++ l) at 2. change (NoDup (case_ids ([] ++ l))) in Hnd.
  revert Hnd. generalize (@nil ValidatorPenaltyCase). induction l as [|c l IH]; intros m Hnd; cbn.
  - by rewrite app_nil_r.
  - assert (pc_case_id c ∉ case_ids m) as Hc.
    { unfold case_ids in *. rewrite map_app in Hnd. apply NoDup_app in Hnd as (_ & Hd & _).
      intros Hin. apply (Hd _ Hin). cbn. set_solver. }
    rewrite put_case_fresh by done. rewrite IH.
    + by rewrite <- app_assoc.
    + by rewrite <- app_assoc.
Qed.

Lemma get_case_id i l c : get_case i l = Some c → pc_case_id c = i ∧ c ∈ l.
Proof.
  unfold get_case. intros Hf. apply List.find_some in Hf as [Hin E].
  apply String.eqb_eq in E. by apply list_elem_of_In in Hin.
Qed.

Lemma get_case_unique l c : NoDup (case_ids l) → c ∈ l → get_case (pc_case_id c) l = Some c.
Proof.
  unfold get_case. induction l as [|c' l IH]; [by intros _ ?%not_elem_of_nil|].
  intros [Hc' Hnd]%NoDup_cons [->|Hin]%elem_of_cons; cbn [List.find].
  - by rewrite String.eqb_refl.
  - destruct (String.eqb_spec (pc_case_id c') (pc_case_id c)) as [E|_]; [|by apply IH].
    destruct Hc'. rewrite E. by apply list_elem_of_fmap_2.
Qed.

(** The stored case of an id. *)
Definition stored_case (i : string) (st : SlashingStore) : option ValidatorPenaltyCase :=
  get_case i (case_map (list_validator_penalty_cases (ss_cases st))).

Lemma stored_case_saved l c st :
  NoDup (case_ids l) → c ∈ l →
  stored_case (pc_case_id c) (save_validator_penalty_cases (newest_first pc_updated_at l) st) = Some c.
Proof.
  intros Hnd Hc. unfold stored_case, list_validator_penalty_cases. cbn [ss_cases save_validator_penalty_cases].
  assert (newest_first pc_updated_at (newest_first pc_updated_at l) ≡ₚ l) as Hperm.
  { unfold newest_first. by rewrite !py_sorted_perm. }
  assert (NoDup (case_ids (newest_first pc_updated_at (newest_first pc_updated_at l)))) as Hnd'.
  { unfold case_ids. by rewrite Hperm. }
  rewrite case_map_id by done. apply get_case_unique; [done|]. by rewrite Hperm.
Qed.

(** A case whose penalty was recorded as applied. *)
Definition recorded (k : CaseKey) (st : SlashingStore) : Prop :=
  ∃ i c, _validator_evidence_case_id k = Ok i ∧ stored_case i st = Some c ∧ is_Some (pc_applied_at c).

(** ** What the loop leaves unchanged *)

(** Two evidence lists that support the same cases. *)
Definition same_support : list ValidatorEvidence → list ValidatorEvidence → Prop :=
  Forall2 (λ e e', _validator_evidence_case_key e = _validator_evidence_case_key e'
                   ∧ ve_reporter_validator_id e = ve_reporter_validator_id e'
                   ∧ ve_source_url e = ve_source_url e').

Lemma same_support_refl items : same_support items items.
Proof. unfold same_support. induction items; by constructor. Qed.

Lemma same_support_mark k items items' : same_support items items' → same_support items (mark_case k items').
Proof.
  intros Hs. apply Forall2_fmap_r. eapply Forall2_impl; [exact Hs|]. intros e e' He.
  unfold compose. cbv beta in *. destruct (bool_decide (_validator_evidence_case_key e' = k)); exact He.
Qed.

Lemma same_support_of_case k items items' :
  same_support items items' → same_support (of_case k items) (of_case k items').
Proof.
  induction 1 as [|e e' l l' He Hl IH]; [constructor|]. unfold of_case in *.
  rewrite !filter_cons. destruct He as (Hk & Hr & Hu). rewrite Hk.
  destruct (decide _); [|done]. by constructor.
Qed.

Lemma same_support_omap {A} (f : ValidatorEvidence → option A) items items' :
  (∀ e e', _validator_evidence_case_key e = _validator_evidence_case_key e' →
           ve_reporter_validator_id e = ve_reporter_validator_id e' →
           ve_source_url e = ve_source_url e' → f e = f e') →
  same_support items items' → omap f items = omap f items'.
Proof.
  intros Hf. induction 1 as [|e e' l l' (Hk & Hr & Hu) Hl IH]; [done|]. cbn.
  by rewrite (Hf e e' Hk Hr Hu), IH.
Qed.

(** What a series of penalties does to a registry: the latest evidence [e] of each case [k] in
    turn takes effect, at a moment of which [D] holds. *)
Section penalties.
Context (D : CaseKey → ValidatorEvidence → list ValidatorRecord → Prop) (now : string).

Inductive penalties (registry0 : list ValidatorRecord) : list CaseKey → list ValidatorRecord → Prop :=
| penalties_none : penalties registry0 [] registry0
| penalties_next ks registry k e registry' :
    penalties registry0 ks registry → D k e registry →
    apply_remote_validator_penalty_to_registry now (ve_validator_id e) (ve_slash_atomic e) (ve_jailed e)
      (Some (ve_created_at e)) (ve_source_url e) registry = (registry', true) →
    penalties registry0 (ks ++ [k]) registry'.

Lemma penalties_trans r0 ks r1 ks' r2 : penalties r0 ks r1 → penalties r1 ks' r2 → penalties r0 (ks ++ ks') r2.
Proof.
  intros H1. induction 1 as [|ks' r k e r' _ IH HD Happ]; [by rewrite app_nil_r|].
  rewrite app_assoc. by eapply penalties_next.
Qed.

Lemma penalties_elem r0 ks r k : penalties r0 ks r → k ∈ ks → ∃ e r', D k e r'.
Proof.
  induction 1 as [|ks r k' e r' _ IH HD _]; [by intros ?%not_elem_of_nil|].
  intros [Hk| ->%list_elem_of_singleton]%elem_of_app; eauto.
Qed.
End penalties.

Lemma penalties_impl (D D' : CaseKey → ValidatorEvidence → list ValidatorRecord → Prop) now r0 ks r :
  (∀ k e r, D k e r → D' k e r) → penalties D now r0 ks r → penalties D' now r0 ks r.
Proof. intros Hi. induction 1; econstructor; eauto. Qed.

Lemma penalty_refused now v s j o u registry registry' :
  apply_remote_validator_penalty_to_registry now v s j o u registry = (registry', false) → registry' = registry.
Proof.
  unfold apply_remote_validator_penalty_to_registry. repeat case_match; by intros [= <-].
Qed.

Lemma latest_evidence_elem items e : latest_evidence items = Some e → e ∈ items.
Proof.
  unfold latest_evidence. intros He%head_Some_elem_of. unfold newest_first in He. by apply elem_of_py_sorted in He.
Qed.

(** ** One group *)

(** The quorum of a case at a moment of the loop. *)
Definition quorum_now settlements locked (attestations : list ValidatorPenaltyAttestation)
    (k : CaseKey) (i : string) (items : list ValidatorEvidence) (registry : list ValidatorRecord) : bool :=
  let sc := _validator_evidence_case_support_context settlements locked k registry in
  _validator_penalty_case_has_quorum (sc_scope sc)
    (Z.of_nat (size (attester_ids i (sc_eligible sc) attestations)))
    (_validator_penalty_attestation_required (sc_scope sc) (sc_required sc))
    (_validator_evidence_case_has_quorum settlements locked k items registry).

Lemma quorum_now_support settlements locked attestations k i items items' registry :
  same_support items items' →
  quorum_now settlements locked attestations k i items registry =
  quorum_now settlements locked attestations k i items' registry.
Proof.
  intros Hs%(same_support_of_case k). unfold quorum_now, _validator_evidence_case_has_quorum,
    _validator_evidence_case_supporting_count, supporting_ids, source_urls.
  rewrite (same_support_omap ve_reporter_validator_id _ _ ltac:(done) Hs).
  by rewrite (same_support_omap ve_source_url _ _ ltac:(done) Hs).
Qed.

Section loop.
Context (settlements : list SettlementRecord) (locked : gmap string Z) (now : string).
Context (attestations : list ValidatorPenaltyAttestation) (existing : list ValidatorPenaltyCase).
Context (items0 : list ValidatorEvidence) (registry0 : list ValidatorRecord).
Abbreviation group_step := (refresh_group settlements locked now attestations existing).
Abbreviation groups_step := (refresh_groups settlements locked now attestations existing).

(** What a round does for its key: it writes the case [o.1], and [o.2] says whether it
    applied the penalty. *)
Definition outcome (k : CaseKey) (o : ValidatorPenaltyCase * bool) : Prop :=
  ∃ i, _validator_evidence_case_id k = Ok i ∧ pc_case_id o.1 = i
       ∧ (is_Some (get_case i existing ≫= pc_applied_at) → is_Some (pc_applied_at o.1))
       ∧ (o.2 = true → is_Some (pc_applied_at o.1)).

Definition applied_key (k : CaseKey) (o : ValidatorPenaltyCase * bool) : list CaseKey :=
  if o.2 then [k] else [].

(** The penalty of the case [k], with its latest evidence, is due at a moment of the loop. *)
Definition due_now (k : CaseKey) (e : ValidatorEvidence) (registry : list ValidatorRecord) : Prop :=
  latest_evidence (of_case k items0) = Some e
  ∧ ∃ i, _validator_evidence_case_id k = Ok i ∧ get_case i existing ≫= pc_applied_at = None
         ∧ quorum_now settlements locked attestations k i items0 registry = true.

(** The evidence and the registry at a moment of the loop: the registry has changed by the
    penalties of the cases counted as applied, and by nothing else. *)
Definition in_loop (rf : Refresh) : Prop :=
  same_support items0 (rf_items rf) ∧ penalties due_now now registry0 (rf_applied rf) (rf_registry rf).

Lemma refresh_group_outcome k rf rf' r :
  in_loop rf → group_step k (of_case k items0) rf = (rf', r) →
  in_loop rf' ∧ match r with
                | Ok _ => ∃ o, outcome k o ∧ rf_cases rf' = rf_cases rf ++ [o.1]
                               ∧ rf_applied rf' = rf_applied rf ++ applied_key k o
                | Err _ => rf' = rf
                end.
Proof.
  intros [Hsup Hreg]. unfold refresh_group. destruct (latest_evidence (of_case k items0)) as [latest|] eqn:El;
    [|by intros [= <- <-]].
  destruct (_validator_evidence_case_id k) as [i|e] eqn:Ei; [|by intros [= <- <-]].
  set (sc := _validator_evidence_case_support_context _ _ _ _).
  set (quorum := _validator_penalty_case_has_quorum _ _ _ _).
  set (applied0 := _ ≫= pc_applied_at).
  assert (quorum = quorum_now settlements locked attestations k i (rf_items rf) (rf_registry rf)) as Hq by done.
  destruct (quorum && bool_decide (applied0 = None)) eqn:Egate.
  - apply andb_true_iff in Egate as [Hquorum Hnone%bool_decide_eq_true].
    destruct (apply_remote_validator_penalty_to_registry _ _ _ _ _ _ _) as [registry penalised] eqn:Ep.
    intros [= <- <-]. cbn [rf_cases rf_applied]. split.
    { split; cbn [rf_items rf_registry rf_applied]; [destruct penalised; [by apply same_support_mark|done]|].
      destruct penalised; [|by apply penalty_refused in Ep as ->].
      eapply penalties_next; [exact Hreg| |exact Ep]. split; [done|]. exists i. split_and!; [done|exact Hnone|].
      by rewrite (quorum_now_support _ _ _ _ _ _ _ _ Hsup), <- Hq. }
    eexists (_, penalised). cbn [fst snd]. split_and!; [|done|].
    + exists i. cbn [fst snd pc_case_id pc_applied_at case_record]. split_and!; [done|done| |].
      * fold applied0. rewrite Hnone. by intros [? ?].
      * intros ->. eauto.
    + unfold applied_key. cbn [snd]. destruct penalised; [done|by rewrite app_nil_r].
  - intros [= <- <-]. cbn [rf_cases rf_applied]. split; [done|]. eexists (_, false). cbn [fst snd].
    split_and!; [|done|by rewrite app_nil_r].
    exists i. cbn [fst snd pc_case_id pc_applied_at case_record]. by split_and!.
Qed.

Lemma refresh_groups_outcomes groups rf rf' r :
  Forall (λ g, g.2 = of_case g.1 items0) groups → NoDup groups.*1 →
  in_loop rf → groups_step groups rf = (rf', r) →
  in_loop rf' ∧ (∃ ks, rf_applied rf' = rf_applied rf ++ ks ∧ NoDup ks ∧ ks ⊆ groups.*1)
  ∧ match r with
    | Ok _ => ∃ outs, Forall2 (λ g o, outcome g.1 o) groups outs
                ∧ rf_cases rf' = rf_cases rf ++ outs.*1
                ∧ rf_applied rf' = rf_applied rf ++ concat (zip_with (λ g o, applied_key g.1 o) groups outs)
    | Err _ => True
    end.
Proof.
  revert rf. induction groups as [|[k group] groups IH]; intros rf Hgroups Hnd Hin; cbn [refresh_groups].
  - intros [= <- <-]. split_and!; [done| |]; exists []; cbn; rewrite ?app_nil_r.
    + split_and!; [done|constructor|set_solver].
    + by split_and!.
  - apply Forall_cons in Hgroups as [Hg Hgroups]. cbn in Hg, Hnd. subst group. apply NoDup_cons in Hnd as [Hk Hnd].
    destruct (group_step k (of_case k items0) rf) as [rf1 r1] eqn:Eg.
    apply refresh_group_outcome in Eg as [Hin1 Ho]; [|done].
    destruct r1 as [u|e].
    2: { intros [= <- <-]. subst rf1. split_and!; [done| |done]. exists []. rewrite app_nil_r.
         split_and!; [done|constructor|set_solver]. }
    destruct Ho as (o & Ho & Hc & Ha). intros Hrest.
    destruct (IH rf1 Hgroups Hnd Hin1 Hrest) as (Hin' & (ks & Hks & Hndk & Hsub) & Houts). split_and!; [done| |].
    + exists (applied_key k o ++ ks). rewrite Hks, Ha, <- app_assoc. split_and!; [done| |].
      * unfold applied_key. destruct (o.2); [|done]. cbn. constructor; [|done]. intros Hin2. by apply Hk, Hsub.
      * unfold applied_key. cbn. destruct (o.2); set_solver.
    + destruct r; [|done]. destruct Houts as (outs & Houts & Hcs & Has).
      exists (o :: outs). rewrite Hcs, Has, Hc, Ha. cbn. rewrite <- !app_assoc. split_and!; [by constructor|done..].
Qed.

(** The rounds of the counted keys applied their penalties. *)
Lemma applied_keys_spec (groups : list (CaseKey * list ValidatorEvidence)) outs :
  Forall2 (λ g o, outcome g.1 o) groups outs →
  ∀ k, k ∈ concat (zip_with (λ g o, applied_key g.1 o) groups outs) →
    ∃ o, o ∈ outs ∧ outcome k o ∧ o.2 = true.
Proof.
  induction 1 as [|g o groups outs Ho Houts IH]; cbn; [set_solver|]. intros k [Hk|Hk]%elem_of_app.
  - unfold applied_key in Hk. destruct (o.2) eqn:Eo; [|set_solver]. apply list_elem_of_singleton in Hk as ->.
    exists o. set_solver.
  - destruct (IH k Hk) as (o' & ? & ? & ?). exists o'. set_solver.
Qed.
End loop.

(** ** One refresh *)

Definition evidence_keys (items : list ValidatorEvidence) : list CaseKey :=
  map _validator_evidence_case_key items.

(** The keys of a set of cases have different ids. *)
Definition distinct_ids (universe : list CaseKey) : Prop :=
  ∀ k k' i, k ∈ universe → k' ∈ universe →
    _validator_evidence_case_id k = Ok i → _validator_evidence_case_id k' = Ok i → k = k'.

(** The evidence a refresh looks at. *)
Definition refreshed_items (evidence_items : option (list ValidatorEvidence)) (st : SlashingStore) :=
  default (list_validator_evidence (ss_evidence st)) evidence_items.

Lemma same_support_keys items items' : same_support items items' → evidence_keys items = evidence_keys items'.
Proof. unfold evidence_keys. induction 1 as [|e e' l l' (Hk & _) Hl IH]; cbn; congruence. Qed.

Lemma Forall2_elem_r {A B} (P : A → B → Prop) l k y :
  Forall2 P l k → y ∈ k → ∃ x, x ∈ l ∧ P x y.
Proof.
  intros Hf (i & Hi)%list_elem_of_lookup. destruct (Forall2_lookup_r _ _ _ _ _ Hf Hi) as (x & Hx & HP).
  exists x. split; [by eapply list_elem_of_lookup_2|done].
Qed.

Section refresh.
Context (settlements : list SettlementRecord) (locked : gmap string Z) (now : string).

(** The penalty of [k], with its latest evidence [e], is due when the registry is [registry]:
    no penalty of the case was recorded and it has the quorum. *)
Definition due (st : SlashingStore) (items : list ValidatorEvidence) (k : CaseKey) (e : ValidatorEvidence)
    (registry : list ValidatorRecord) : Prop :=
  latest_evidence (of_case k items) = Some e ∧
  ∃ i, _validator_evidence_case_id k = Ok i ∧ stored_case i st ≫= pc_applied_at = None
       ∧ quorum_now settlements locked (ss_attestations st) k i items registry = true.

(** The cases a call saves have one record per id. *)
Lemma saved_cases_nodup existing (groups : list (CaseKey * list ValidatorEvidence)) outs :
  NoDup (case_ids existing) → NoDup groups.*1 → distinct_ids groups.*1 →
  Forall2 (λ g o, outcome existing g.1 o) groups outs →
  NoDup (case_ids (outs.*1 ++ filter (λ c, pc_case_id c ∉ case_ids outs.*1) existing)).
Proof.
  intros Hex Hnd Hinj Houts. unfold case_ids. rewrite map_app. apply NoDup_app. split_and!.
  - revert Hnd Hinj. induction Houts as [|[k g] o groups outs Ho Houts IH]; cbn; [constructor|].
    intros [Hk Hnd]%NoDup_cons Hinj. constructor.
    + intros (c & E & (o' & -> & Ho')%list_elem_of_fmap)%list_elem_of_fmap.
      destruct Ho as (i & Hi & Hid & _). destruct (Forall2_elem_r _ _ _ _ Houts Ho') as (g' & Hg' & i' & Hi' & Hid' & _).
      cbn [fst] in *. apply Hk. rewrite (Hinj k g'.1 i); [by apply list_elem_of_fmap_2|set_solver| |done|congruence].
      apply elem_of_cons. right. by apply list_elem_of_fmap_2.
    + apply IH; [done|]. intros x y z Hx Hy. apply Hinj; set_solver.
  - intros i Hi (c & -> & [Hc _]%list_elem_of_filter)%list_elem_of_fmap. done.
  - eapply sublist_NoDup; [exact Hex|]. apply fmap_sublist, sublist_filter.
Qed.

(** However a refresh ends, it has changed the registry by the penalties of the cases it
    counts, each due at its moment. *)
Lemma refresh_penalties evidence_items st st' r :
  refresh_validator_penalty_cases settlements locked now evidence_items st = (st', r) →
  ∃ applied, NoDup applied
    ∧ penalties (due st (refreshed_items evidence_items st)) now (ss_registry st) applied (ss_registry st')
    ∧ match r with Ok (_, keys, _) => keys = applied | Err _ => True end.
Proof.
  unfold refresh_validator_penalty_cases. fold (refreshed_items evidence_items st).
  set (items := refreshed_items evidence_items st). cbn zeta. set (existing := case_map _).
  destruct (grouped items) as [groups|e] eqn:Eg.
  2: { intros [= <- <-]. exists []. split_and!; [constructor..|done]. }
  destruct (grouped_spec _ _ Eg) as (Hnd & _ & Hgroups).
  destruct (refresh_groups _ _ _ _ _ _ _) as [rf r1] eqn:Er.
  apply (refresh_groups_outcomes _ _ _ _ _ items (ss_registry st)) in Er
    as ([_ Hreg] & (ks & Hks & Hndk & _) & _); [|done..|split; [apply same_support_refl|constructor]].
  cbn [rf_applied app] in Hks. intros Hr. exists ks. split; [done|]. rewrite Hks in Hreg, Hr.
  assert (ss_registry st' = rf_registry rf) as ->.
  { revert Hr. destruct r1; [destruct (existsb _ _)|]; by intros [= <- <-]. }
  split; [exact Hreg|]. destruct r1; injection Hr as <- <-; done.
Qed.

Lemma refresh_spec evidence_items st st' cases applied items' :
  refresh_validator_penalty_cases settlements locked now evidence_items st
  = (st', Ok (cases, applied, items')) →
  let items := refreshed_items evidence_items st in
  same_support items items'
  ∧ (ss_evidence st' = ss_evidence st ∨ ss_evidence st' = items')
  ∧ ss_attestations st' = ss_attestations st
  ∧ ss_cases st' = cases
  ∧ (distinct_ids (evidence_keys items) →
     Forall (λ k, recorded k st') applied ∧ ∀ k, recorded k st → recorded k st').
Proof.
  unfold refresh_validator_penalty_cases. fold (refreshed_items evidence_items st).
  set (items := refreshed_items evidence_items st). cbn zeta.
  fold (case_ids). set (existing := case_map _).
  destruct (grouped items) as [groups|e] eqn:Eg; [|done].
  destruct (grouped_spec _ _ Eg) as (Hnd & Hkeys & Hgroups).
  destruct (refresh_groups _ _ _ _ _ _ _) as [rf [[]|e]] eqn:Er; [|done].
  apply (refresh_groups_outcomes _ _ _ _ _ items (ss_registry st)) in Er
    as ([Hsup _] & _ & outs & Houts & Hcases & Happ); [|done..|split; [apply same_support_refl|constructor]].
  cbn [rf_cases rf_applied app] in Hcases, Happ.
  pose proof (applied_keys_spec _ _ _ Houts) as Hap. rewrite <- Happ in Hap.
  set (l := rf_cases rf ++ _). set (st1 := if existsb _ _ then _ else _).
  assert (ss_cases st1 = ss_cases st ∧ ss_attestations st1 = ss_attestations st
          ∧ (ss_evidence st1 = ss_evidence st ∨ ss_evidence st1 = rf_items rf)) as (Hst1 & Hat1 & Hev1).
  { unfold st1. destruct (existsb _ _); cbn; auto. }
  intros [= <- <- <- <-]. cbn [ss_evidence ss_attestations ss_cases save_validator_penalty_cases].
  split_and!; [done|done|done|done|].
  intros Hinj. assert (NoDup (case_ids l)) as Hl.
  { unfold l. rewrite Hcases. eapply saved_cases_nodup; [apply case_map_nodup|exact Hnd| |exact Houts].
    intros x y z Hx Hy. apply Hinj; unfold evidence_keys; by apply Hkeys. }
  split.
  - apply Forall_forall. intros k Hk. destruct (Hap k Hk) as (o & Hin & Ho & Hb).
    destruct Ho as (i & Hi & Hid & _ & Hsome). specialize (Hsome Hb).
    exists i, o.1. split_and!; [done| |done]. rewrite <- Hid. apply stored_case_saved; [done|].
    unfold l. rewrite Hcases. apply elem_of_app. left. by apply list_elem_of_fmap_2.
  - intros k (i & c & Hi & Hc & Hsome). unfold stored_case in Hc. fold existing in Hc.
    destruct (get_case_id _ _ _ Hc) as [Hid Hin].
    destruct (decide (i ∈ case_ids (rf_cases rf))) as [Hseen|Hunseen].
    + apply list_elem_of_fmap in Hseen as (c' & Hid' & Hc'). rewrite Hcases in Hc'.
      apply list_elem_of_fmap in Hc' as (o & -> & Ho).
      destruct (Forall2_elem_r _ _ _ _ Houts Ho) as (g & _ & i' & _ & Hi' & Hkeep & _).
      exists i, o.1. split_and!; [done| |].
      * rewrite Hid'. apply stored_case_saved; [done|]. unfold l. rewrite Hcases.
        apply elem_of_app. left. by apply list_elem_of_fmap_2.
      * apply Hkeep. rewrite <- Hi', <- Hid', Hc. done.
    + exists i, c. split_and!; [done| |done]. rewrite <- Hid. apply stored_case_saved; [done|].
      unfold l. apply elem_of_app. right. apply list_elem_of_filter. by rewrite Hid.
Qed.
End refresh.

(** ** The quorum, declaratively *)

(** The eligible validators that reported a case, and the peers its evidence came from. *)
Definition is_reporters (items : list ValidatorEvidence) (k : CaseKey) (eligible reporters : gset string) : Prop :=
  ∀ v, v ∈ reporters ↔ v ∈ eligible ∧ v ≠ "" ∧
    ∃ e, e ∈ items ∧ _validator_evidence_case_key e = k ∧ ve_reporter_validator_id e = Some v.

Definition is_sources (items : list ValidatorEvidence) (k : CaseKey) (sources : gset string) : Prop :=
  ∀ u, u ∈ sources ↔ u ≠ "" ∧
    ∃ e, e ∈ items ∧ _validator_evidence_case_key e = k ∧ ve_source_url e = Some u.

(** The eligible validators that accepted the penalty of a case id. *)
Definition is_attesters (attestations : list ValidatorPenaltyAttestation) (i : string)
    (eligible attesters : gset string) : Prop :=
  ∀ v, v ∈ attesters ↔ v ∈ eligible ∧
    ∃ a, a ∈ attestations ∧ pa_case_id a = i ∧ pa_validator_id a = v ∧ pa_accepted a = true.

(** Two thirds of the eligible validators reported the case, or none did and it came from
    that many peers. *)
Definition backed (items : list ValidatorEvidence) (k : CaseKey) (eligible : gset string) : Prop :=
  ∃ reporters sources, is_reporters items k eligible reporters ∧ is_sources items k sources
    ∧ (if bool_decide (reporters = ∅) then two_thirds (size eligible) ≤ Z.of_nat (size sources)
       else two_thirds (size eligible) ≤ Z.of_nat (size reporters)).

Definition attested (attestations : list ValidatorPenaltyAttestation) (i : string)
    (eligible : gset string) : Prop :=
  ∃ attesters, is_attesters attestations i eligible attesters
    ∧ two_thirds (size eligible) ≤ Z.of_nat (size attesters).

(** The committee of the settlement a case is about, if it has one. *)
Definition case_committee (settlements : list SettlementRecord) (k : CaseKey) : option (gset string) :=
  s ← case_settlement settlements k;
  if bool_decide (sr_committee_validator_ids s = []) then None else Some (committee_ids s).

Definition has_quorum settlements locked attestations (i : string) (k : CaseKey)
    (items : list ValidatorEvidence) (registry : list ValidatorRecord) : Prop :=
  match case_committee settlements k with
  | Some committee => backed items k committee ∧ attested attestations i committee
  | None => backed items k (bonded_ids locked registry)
  end.

Lemma two_thirds_pos n : 1 ≤ two_thirds n.
Proof. unfold two_thirds. lia. Qed.

Lemma is_reporters_list items k eligible :
  is_reporters items k eligible
    (list_to_set (filter (λ r, r ≠ "" ∧ r ∈ eligible) (omap ve_reporter_validator_id (of_case k items)))).
Proof.
  intros v. rewrite elem_of_list_to_set, list_elem_of_filter, list_elem_of_omap.
  unfold of_case. split.
  - intros ((? & ?) & e & (? & ?)%list_elem_of_filter & ?). eauto 10.
  - intros (? & ? & e & ? & ? & ?). split; [done|]. exists e. by rewrite list_elem_of_filter.
Qed.

Lemma is_sources_list items k : is_sources items k (source_urls (of_case k items)).
Proof.
  intros v. unfold source_urls. rewrite elem_of_list_to_set, list_elem_of_filter, list_elem_of_omap.
  unfold of_case. split.
  - intros (? & e & (? & ?)%list_elem_of_filter & ?). eauto 10.
  - intros (? & e & ? & ? & ?). split; [done|]. exists e. by rewrite list_elem_of_filter.
Qed.

Lemma is_attesters_list attestations i eligible :
  is_attesters attestations i eligible (attester_ids i eligible attestations).
Proof.
  intros v. unfold attester_ids, list_validator_penalty_attestations, newest_first.
  rewrite elem_of_list_to_set, list_elem_of_fmap. split.
  - intros (a & -> & [[? ?] [? Hin]%elem_of_py_sorted%list_elem_of_filter]%list_elem_of_filter). eauto 10.
  - intros (? & a & ? & ? & <- & ?). exists a. split; [done|].
    by rewrite list_elem_of_filter, elem_of_py_sorted, list_elem_of_filter.
Qed.

(** The test of the count against two thirds of the eligible validators. *)
Lemma count_backed items k eligible count :
  let reporters := list_to_set (C := gset string)
    (filter (λ r, r ≠ "" ∧ r ∈ eligible) (omap ve_reporter_validator_id (of_case k items))) in
  count = (if bool_decide (reporters = ∅) then Z.of_nat (size (source_urls (of_case k items)))
           else Z.of_nat (size reporters)) →
  (if count <=? 0 then false else two_thirds (size eligible) <=? count) = true
  ↔ backed items k eligible.
Proof.
  intros reporters Hcount. pose proof (two_thirds_pos (size eligible)) as Hpos.
  trans (two_thirds (size eligible) ≤ count).
  { destruct (Z.leb_spec count 0); [split; [done|lia]|]. by rewrite Z.leb_le. }
  subst count. split.
  - intros Hle. exists reporters, (source_urls (of_case k items)).
    split_and!; [apply is_reporters_list|apply is_sources_list|]. by case_bool_decide.
  - intros (R & S & HR & HS & Hle).
    assert (R = reporters) as -> by (apply set_eq; intros v; by rewrite (HR v), <- (is_reporters_list items k eligible v)).
    assert (S = source_urls (of_case k items)) as -> by (apply set_eq; intros v; by rewrite (HS v), <- (is_sources_list items k v)).
    by case_bool_decide.
Qed.

Lemma count_attested attestations i eligible :
  (Z.max 1 (Z.max 1 (two_thirds (size eligible))) <=? Z.of_nat (size (attester_ids i eligible attestations))) = true
  ↔ attested attestations i eligible.
Proof.
  pose proof (two_thirds_pos (size eligible)) as Hpos. rewrite Z.leb_le. split.
  - intros Hle. exists (attester_ids i eligible attestations). split; [apply is_attesters_list|lia].
  - intros (A & HA & Hle).
    assert (A = attester_ids i eligible attestations) as -> by (apply set_eq; intros v; by rewrite (HA v), <- (is_attesters_list attestations i eligible v)).
    lia.
Qed.

Lemma attested_nonempty attestations i : ¬ attested attestations i ∅.
Proof.
  intros (A & HA & Hle). assert (A = ∅) as -> by (apply set_eq; intros v; rewrite (HA v); set_solver).
  rewrite size_empty in Hle. pose proof (two_thirds_pos 0). lia.
Qed.

Section quorum.
Context (settlements : list SettlementRecord) (locked : gmap string Z).
Context (attestations : list ValidatorPenaltyAttestation) (i : string).
Context (k : CaseKey) (items : list ValidatorEvidence) (registry : list ValidatorRecord).

(** The tests of the code in a support context, and the set its reporters come from. *)
Definition context_quorum (sc : SupportContext) : bool :=
  let eligible := if bool_decide (sc_eligible sc = ∅) then bonded_ids locked registry else sc_eligible sc in
  let ids := list_to_set (C := gset string)
    (filter (λ r, r ≠ "" ∧ r ∈ eligible) (omap ve_reporter_validator_id (of_case k items))) in
  let count := if bool_decide (ids = ∅) then Z.of_nat (size (source_urls (of_case k items)))
               else Z.of_nat (size ids) in
  let required := if String.eqb (sc_scope sc) "source_url"
                  then _validator_evidence_source_quorum locked registry else sc_required sc in
  _validator_penalty_case_has_quorum (sc_scope sc)
    (Z.of_nat (size (attester_ids i (sc_eligible sc) attestations)))
    (_validator_penalty_attestation_required (sc_scope sc) (sc_required sc))
    (if count <=? 0 then false else required <=? count).

Lemma committee_quorum s :
  context_quorum (committee_scope s) = true
  ↔ backed items k (committee_ids s) ∧ attested attestations i (committee_ids s).
Proof.
  unfold context_quorum, _validator_penalty_case_has_quorum, _validator_penalty_attestation_required.
  cbn [sc_scope sc_eligible sc_required committee_scope String.eqb Ascii.eqb Bool.eqb].
  destruct (decide (committee_ids s = ∅)) as [E|E].
  - rewrite E. split.
    + destruct (negb _); [done|]. cbn [negb]. intros Hle. apply count_attested in Hle.
      by apply attested_nonempty in Hle.
    + by intros [_ ?%attested_nonempty].
  - rewrite (bool_decide_false (committee_ids s = ∅)) by done.
    match goal with |- context [if ?c <=? 0 then false else _] => set (count := c) end.
    rewrite <- (count_backed items k (committee_ids s) count eq_refl), <- count_attested.
    destruct (if count <=? 0 then false else _); cbn [negb].
    + split; [done|by intros [_ ?]].
    + split; [done|by intros [? _]].
Qed.

Lemma open_quorum :
  context_quorum (open_scope locked registry) = true ↔ backed items k (bonded_ids locked registry).
Proof.
  unfold context_quorum, _validator_penalty_case_has_quorum, open_scope.
  destruct (decide (bonded_ids locked registry = ∅)) as [Hb|Hb].
  all: rewrite ?(bool_decide_true (bonded_ids locked registry = ∅)) by done.
  all: rewrite ?(bool_decide_false (bonded_ids locked registry = ∅)) by done.
  all: cbn [sc_eligible sc_scope sc_required String.eqb Ascii.eqb Bool.eqb negb].
  all: rewrite ?(bool_decide_false (bonded_ids locked registry = ∅)) by done.
  all: rewrite ?(bool_decide_true (∅ = ∅)) by done.
  all: match goal with |- context [if ?c <=? 0 then false else _] => set (count := c) end.
  all: rewrite <- (count_backed items k (bonded_ids locked registry) count eq_refl).
  - assert (_validator_evidence_source_quorum locked registry = two_thirds (size (bonded_ids locked registry))) as ->.
    { rewrite Hb, size_empty. unfold bonded_ids in Hb. unfold _validator_evidence_source_quorum.
      destruct (bonded_validators locked registry) as [|r l]; [done|]. cbn in Hb. set_solver. }
    by destruct (if count <=? 0 then false else _).
  - by destruct (if count <=? 0 then false else _).
Qed.

(** The code's quorum test decides the declarative quorum. *)
Lemma quorum_now_correct :
  quorum_now settlements locked attestations k i items registry = true
  ↔ has_quorum settlements locked attestations i k items registry.
Proof.
  change (quorum_now settlements locked attestations k i items registry)
    with (context_quorum (_validator_evidence_case_support_context settlements locked k registry)).
  unfold has_quorum, case_committee, _validator_evidence_case_support_context.
  destruct (case_settlement settlements k) as [s|]; cbn; [|apply open_quorum].
  destruct (bool_decide _); [apply open_quorum|apply committee_quorum].
Qed.
End quorum.

(** C30: however a refresh of the cases ends, by returning or by raising, it has changed the
    registry of validators by a series of penalties and by nothing else: the latest evidence of
    each case of the series, once per case, and of a call that returns exactly the cases it
    counts as applied.  When a penalty takes effect, none was recorded for the case id and the
    case has its quorum.  For evidence about a settlement with a committee, two thirds of the
    committee have accepted the penalty, and two thirds of it reported the case; for any other
    evidence two thirds of the validators bonded at that moment of the refresh reported it.
    Where no eligible validator reported the case, as many different peers as two thirds of the
    eligible validators sent it.  The reporters are those the evidence names. *)
Theorem penalty_needs_quorum settlements locked now evidence_items st st' r :
  refresh_validator_penalty_cases settlements locked now evidence_items st = (st', r) →
  let items := refreshed_items evidence_items st in
  ∃ applied,
    NoDup applied
    ∧ penalties
        (λ k e registry, latest_evidence (of_case k items) = Some e ∧
           ∃ i, _validator_evidence_case_id k = Ok i ∧ stored_case i st ≫= pc_applied_at = None
                ∧ has_quorum settlements locked (ss_attestations st) i k items registry)
        now (ss_registry st) applied (ss_registry st')
    ∧ match r with Ok (_, keys, _) => keys = applied | Err _ => True end.
Proof.
  intros E items. destruct (refresh_penalties _ _ _ _ _ _ _ E) as (applied & Hnd & Hpen & Hr).
  exists applied. split_and!; [done| |done]. eapply penalties_impl; [|exact Hpen].
  intros k e registry (He & i & Hi & Hnone & Hq). split; [done|]. exists i. by rewrite <- quorum_now_correct.
Qed.

(** ** Runs *)

Section runs.
Context `{SignatureBackend} (env : Environ) (policy : option WalletPolicy).

(** A call of the module that returns, and the keys of the penalties it applies.  The
    settlements, the bonds the chain locks and the clock of each call are its own. *)
Inductive slashing_call (st : SlashingStore) : list CaseKey → SlashingStore → Prop :=
| call_report settlements locked now evidence_id identity validator_id reporter evidence_type
    settlement_id attestation_id conflicting_id slash jailed note e applied st' :
    record_validator_evidence settlements locked now evidence_id identity validator_id reporter
      evidence_type settlement_id attestation_id conflicting_id slash jailed note st
    = (st', Ok (e, applied)) →
    slashing_call st applied st'
| call_attest settlements locked now attestation_id case_id validator_id accepted note a applied st' :
    record_validator_penalty_attestation settlements locked now attestation_id case_id validator_id
      accepted note st = (st', Ok (a, applied)) →
    slashing_call st applied st'
| call_merge settlements locked now source_url payload imported applied st' :
    merge_remote_validator_evidence_payload settlements locked env policy now source_url payload st
    = (st', Ok (imported, applied)) →
    slashing_call st applied st'
| call_refresh settlements locked now cases applied items st' :
    refresh_validator_penalty_cases settlements locked now None st = (st', Ok (cases, applied, items)) →
    slashing_call st applied st'.

(** What a call did: the registry before it, the keys it counts and the registry after it. *)
Record CallEffect := { ce_before : list ValidatorRecord; ce_applied : list CaseKey; ce_after : list ValidatorRecord }.

(** A run whose evidence is about the cases of [universe], and what its calls did, in order.
    Between the calls the rest of the program may do anything to the evidence, the attestations
    and the registry; the file of cases is written by these calls only. *)
Inductive slashing_run (universe : list CaseKey) (st : SlashingStore)
  : list CallEffect → SlashingStore → Prop :=
| run_start : slashing_run universe st [] st
| run_elsewhere calls st1 st2 :
    slashing_run universe st calls st1 → ss_cases st2 = ss_cases st1 →
    slashing_run universe st calls st2
| run_call calls st1 applied st2 :
    slashing_run universe st calls st1 →
    slashing_call st1 applied st2 →
    evidence_keys (ss_evidence st2) ⊆ universe →
    slashing_run universe st
      (calls ++ [{| ce_before := ss_registry st1; ce_applied := applied; ce_after := ss_registry st2 |}]) st2.

(** The effect of a call is the penalties of its keys, with evidence of those cases. *)
Definition only_penalties (c : CallEffect) : Prop :=
  ∃ now, penalties (λ k e _, _validator_evidence_case_key e = k) now (ce_before c) (ce_applied c) (ce_after c).

(** What a call guarantees. *)
Definition applies_new (st : SlashingStore) (applied : list CaseKey) (st' : SlashingStore) : Prop :=
  NoDup applied ∧ Forall (λ k, ¬ recorded k st ∧ recorded k st') applied
  ∧ ∀ k, recorded k st → recorded k st'.

Lemma applies_new_trans st applied st1 applied' st2 :
  applies_new st applied st1 → applies_new st1 applied' st2 → applies_new st (applied ++ applied') st2.
Proof.
  intros (Hnd & Hall & Hkeep) (Hnd' & Hall' & Hkeep'). rewrite Forall_forall in Hall, Hall'.
  split_and!; [|apply Forall_app; split; apply Forall_forall|auto].
  - apply NoDup_app. split_and!; [done| |done]. intros k Hk Hk'.
    destruct (Hall' k Hk') as [Hno _]. by apply Hno, Hall.
  - intros k Hk. destruct (Hall k Hk). auto.
  - intros k Hk. destruct (Hall' k Hk). auto.
Qed.

Lemma applies_new_cases st st1 : ss_cases st1 = ss_cases st → applies_new st [] st1.
Proof.
  intros E. split_and!; [constructor|constructor|]. unfold recorded, stored_case. by rewrite E.
Qed.

Lemma recorded_cases k st st' : ss_cases st = ss_cases st' → recorded k st → recorded k st'.
Proof. intros E. unfold recorded, stored_case. by rewrite E. Qed.

Lemma refresh_applies_new settlements locked now evidence_items st st' cases applied items' :
  refresh_validator_penalty_cases settlements locked now evidence_items st
  = (st', Ok (cases, applied, items')) →
  distinct_ids (evidence_keys (refreshed_items evidence_items st)) →
  applies_new st applied st'.
Proof.
  intros E Hinj. destruct (refresh_spec _ _ _ _ _ _ _ _ _ E) as (_ & _ & _ & _ & Hrec).
  destruct (refresh_penalties _ _ _ _ _ _ _ E) as (ks & Hnd & Hpen & ->).
  destruct (Hrec Hinj) as [Hnew Hkeep]. split_and!; [done| |done].
  rewrite Forall_forall in *. intros k Hk. split; [|by apply Hnew].
  destruct (penalties_elem _ _ _ _ _ _ Hpen Hk) as (e & registry & _ & i & Hi & Hnone & _).
  intros (i' & c & Hi' & Hc & [t Ht]). rewrite Hi in Hi'. injection Hi' as <-. rewrite Hc in Hnone. cbn in Hnone.
  congruence.
Qed.

(** A refresh keeps the keys of the stored evidence. *)
Lemma refresh_keeps_keys settlements locked now st st' cases applied items' :
  refresh_validator_penalty_cases settlements locked now None st = (st', Ok (cases, applied, items')) →
  ∀ k, k ∈ evidence_keys (ss_evidence st') ↔ k ∈ evidence_keys (refreshed_items None st).
Proof.
  intros E. destruct (refresh_spec _ _ _ _ _ _ _ _ _ E) as (Hsup & Hev & _).
  intros k. destruct Hev as [->| ->].
  - unfold refreshed_items, list_validator_evidence, evidence_keys, newest_first. cbn [default]. by rewrite py_sorted_perm.
  - by rewrite (same_support_keys _ _ Hsup).
Qed.

Lemma distinct_ids_subset (l l' : list CaseKey) : l ⊆ l' → distinct_ids l' → distinct_ids l.
Proof. intros Hsub Hinj k k' i Hk Hk'. apply Hinj; by apply Hsub. Qed.

(** A refresh after a change that left the cases alone. *)
Lemma refresh_step universe settlements locked now st st1 st' cases applied items' :
  ss_cases st1 = ss_cases st →
  refresh_validator_penalty_cases settlements locked now None st1 = (st', Ok (cases, applied, items')) →
  evidence_keys (ss_evidence st') ⊆ universe → distinct_ids universe →
  applies_new st applied st'.
Proof.
  intros Hc E Hsub Hinj. change applied with ([] ++ applied).
  eapply applies_new_trans; [by apply applies_new_cases|].
  eapply refresh_applies_new; [exact E|]. eapply distinct_ids_subset; [|exact Hinj].
  intros k Hk. by apply Hsub, (refresh_keeps_keys _ _ _ _ _ _ _ _ E).
Qed.

Lemma attest_case_step universe settlements locked now attestation_id case validator_id accepted note
    st a applied st' :
  attest_case settlements locked now attestation_id case validator_id accepted note st
  = (st', Ok (a, applied)) →
  evidence_keys (ss_evidence st') ⊆ universe → distinct_ids universe →
  applies_new st applied st'
  ∧ (evidence_keys (ss_evidence st) ⊆ universe).
Proof.
  unfold attest_case. destruct (String.eqb _ ""); [done|]. destruct (negb _ && negb _); [done|].
  destruct (filter _ _) as [|item l].
  - destruct (refresh_validator_penalty_cases _ _ _ _ _) as [st1 [[[cases ap] items]|e]] eqn:E; [|done].
    intros [= <- <- <-] Hsub Hinj. split.
    + by eapply refresh_step; [|exact E|exact Hsub|exact Hinj].
    + intros k Hk. apply Hsub, (refresh_keeps_keys _ _ _ _ _ _ _ _ E).
      unfold refreshed_items, list_validator_evidence, evidence_keys, newest_first. cbn [default].
      by rewrite py_sorted_perm.
  - destruct (_ && _); [|done]. intros [= <- <- <-] Hsub Hinj. split; [by apply applies_new_cases|done].
Qed.

Lemma attestation_step universe settlements locked now attestation_id case_id validator_id accepted note
    st a applied st' :
  record_validator_penalty_attestation settlements locked now attestation_id case_id validator_id
    accepted note st = (st', Ok (a, applied)) →
  evidence_keys (ss_evidence st') ⊆ universe → distinct_ids universe →
  applies_new st applied st'.
Proof.
  unfold record_validator_penalty_attestation. destruct (find_case case_id st) as [case|].
  - intros E Hsub Hinj. eapply attest_case_step; [exact E|done..].
  - destruct (refresh_validator_penalty_cases _ _ _ _ _) as [st1 [[[cases ap] items]|e]] eqn:E; [|done].
    destruct (find_case case_id st1) as [case|]; [|done].
    destruct (attest_case _ _ _ _ _ _ _ _ _) as [st2 [[a' ap']|e]] eqn:E2; [|done].
    intros [= <- <- <-] Hsub Hinj. destruct (attest_case_step universe _ _ _ _ _ _ _ _ _ _ _ _ E2 Hsub Hinj) as [H2 Hsub1].
    eapply applies_new_trans; [|exact H2]. by eapply refresh_step; [|exact E|exact Hsub1|exact Hinj].
Qed.

Lemma import_evidence_extends now source_url raws items items' :
  foldM (import_evidence now source_url) items raws = Ok items' → ∃ new, items' = items ++ new.
Proof.
  revert items. induction raws as [|raw raws IH]; intros items; cbn.
  - intros [= <-]. exists []. by rewrite app_nil_r.
  - destruct (import_evidence now source_url items raw) as [items1|e] eqn:E; [|done].
    intros (new & ->)%IH. unfold import_evidence in E. destruct raw; try done.
    destruct (_ || _); [injection E as <-; eauto|].
    apply bind_ok in E as (slash & _ & [= <-]). rewrite <- app_assoc. eauto.
Qed.

Lemma merge_step universe settlements locked now source_url payload st imported applied st' :
  merge_remote_validator_evidence_payload settlements locked env policy now source_url payload st
  = (st', Ok (imported, applied)) →
  evidence_keys (ss_evidence st') ⊆ universe → distinct_ids universe →
  applies_new st applied st'.
Proof.
  unfold merge_remote_validator_evidence_payload. destruct (validate_peer_payload_network _ _ _ _); [|done].
  destruct payload; try done. destruct (verify_peer_payload_signature _ _ _ _) as [ok err].
  destruct (negb ok); [done|].
  destruct (raws ← _; _) as [items|e] eqn:Ei; [|done]. apply bind_ok in Ei as (raws & _ & Ei).
  apply import_evidence_extends in Ei as (new & ->). set (n := _ - _).
  destruct (refresh_validator_penalty_cases _ _ _ _ _) as [st1 [[[cases ap] items']|e]] eqn:E; [|done].
  destruct (refresh_spec _ _ _ _ _ _ _ _ _ E) as (Hsup & Hev & _ & Hcases & _).
  set (st2 := if 0 <? n then _ else st1). set (st3 := if _ || _ then _ else st2).
  assert (ss_evidence st3 = ss_evidence st2 ∧ ss_cases st3 = ss_cases st1) as [Hev3 Hc3].
  { unfold st3, st2. destruct (0 <? n), (negb _); cbn; auto. }
  intros [= <- _ <-] Hsub Hinj.
  assert (applies_new st ap st1) as (Hnd & Hnew & Hkeep).
  { eapply refresh_applies_new; [exact E|]. eapply distinct_ids_subset; [|exact Hinj].
    intros k Hk. apply Hsub. rewrite Hev3. rewrite (same_support_keys _ _ Hsup) in Hk. unfold st2.
    destruct (0 <? n) eqn:En; [done|]. destruct Hev as [->| ->]; [|done].
    rewrite <- (same_support_keys _ _ Hsup) in Hk. cbn [refreshed_items default] in Hk.
    assert (new = []) as ->.
    { apply length_zero_iff_nil. unfold n in En. rewrite length_app in En. apply Z.ltb_ge in En. lia. }
    rewrite app_nil_r in Hk. revert Hk. unfold list_validator_evidence, evidence_keys, newest_first.
    by rewrite py_sorted_perm. }
  split_and!; [done| |].
  - eapply Forall_impl; [exact Hnew|]. intros k [Hno Hyes]. split; [done|]. by eapply recorded_cases.
  - intros k Hk. eapply recorded_cases; [symmetry; exact Hc3|]. by apply Hkeep.
Qed.

Lemma slashing_call_applies_new universe st applied st' :
  slashing_call st applied st' → evidence_keys (ss_evidence st') ⊆ universe → distinct_ids universe →
  applies_new st applied st'.
Proof.
  intros Hcall Hsub Hinj. destruct Hcall as [????????????????? E0|??????????? E|???????? E|??????? E].
  - revert E0. unfold record_validator_evidence. set (st1 := append_validator_evidence _ st).
    destruct (refresh_validator_penalty_cases _ _ _ _ _) as [st2 [[[cases ap] items]|ex]] eqn:E; [|done].
    intros [= <- _ <-]. by eapply refresh_step; [|exact E|exact Hsub|exact Hinj].
  - by eapply attestation_step.
  - by eapply merge_step.
  - by eapply refresh_step; [|exact E|exact Hsub|exact Hinj].
Qed.

Lemma refresh_only_penalties settlements locked now evidence_items st st' cases applied items :
  refresh_validator_penalty_cases settlements locked now evidence_items st = (st', Ok (cases, applied, items)) →
  penalties (λ k e _, _validator_evidence_case_key e = k) now (ss_registry st) applied (ss_registry st').
Proof.
  intros (ks & _ & Hpen & ->)%refresh_penalties. eapply penalties_impl; [|exact Hpen].
  intros k e registry (He%latest_evidence_elem & _). by apply list_elem_of_filter in He as [? _].
Qed.

Lemma attest_case_penalties settlements locked now attestation_id case validator_id accepted note st a applied st' :
  attest_case settlements locked now attestation_id case validator_id accepted note st = (st', Ok (a, applied)) →
  penalties (λ k e _, _validator_evidence_case_key e = k) now (ss_registry st) applied (ss_registry st').
Proof.
  unfold attest_case. destruct (String.eqb _ ""); [done|]. destruct (negb _ && negb _); [done|].
  destruct (filter _ _) as [|item l].
  - destruct (refresh_validator_penalty_cases _ _ _ _ _) as [st1 [[[cases ap] items]|e]] eqn:E; [|done].
    intros [= <- <- <-]. by apply refresh_only_penalties in E.
  - destruct (_ && _); [|done]. intros [= <- <- <-]. constructor.
Qed.

Lemma call_only_penalties st applied st' :
  slashing_call st applied st' →
  only_penalties {| ce_before := ss_registry st; ce_applied := applied; ce_after := ss_registry st' |}.
Proof.
  intros Hcall. destruct Hcall as [? ? now ?????????????? E0|? ? now ???????? E|? ? now ????? E0|? ? now ???? E];
    exists now; cbn [ce_before ce_applied ce_after].
  - revert E0. unfold record_validator_evidence. set (st1 := append_validator_evidence _ st).
    destruct (refresh_validator_penalty_cases _ _ _ _ _) as [st2 [[[cases ap] items]|ex]] eqn:E; [|done].
    intros [= <- _ <-]. by apply refresh_only_penalties in E.
  - revert E. unfold record_validator_penalty_attestation. destruct (find_case _ st) as [case|].
    { apply attest_case_penalties. }
    destruct (refresh_validator_penalty_cases _ _ _ _ _) as [st1 [[[cases ap] items]|e]] eqn:E; [|done].
    destruct (find_case _ st1) as [case|]; [|done].
    destruct (attest_case _ _ _ _ _ _ _ _ _) as [st2 [[a' ap']|e]] eqn:E2; [|done]. intros [= <- <- <-].
    eapply penalties_trans; [by eapply refresh_only_penalties|by eapply attest_case_penalties].
  - revert E0. unfold merge_remote_validator_evidence_payload. destruct (validate_peer_payload_network _ _ _ _); [|done].
    destruct payload; try done. destruct (verify_peer_payload_signature _ _ _ _) as [ok err].
    destruct (negb ok); [done|]. destruct (raws ← _; _) as [items|e]; [|done].
    destruct (refresh_validator_penalty_cases _ _ _ _ _) as [st1 [[[cases ap] items']|e]] eqn:E; [|done].
    apply refresh_only_penalties in E. intros [= <- _ <-]. by repeat case_match.
  - by apply refresh_only_penalties in E.
Qed.

(** C29: in every run of calls that record evidence, attest a penalty, merge a peer's evidence
    or refresh the cases and return, whatever happens to the evidence, the attestations and the
    registry in between: each call changes the registry exactly by the penalties of the cases
    it counts as applied, and the calls together count a case at most once, never a case whose
    penalty was recorded before the run, and it is recorded after it.  The cases in question
    have different case ids; cases that share an id ([shared_id_applied_twice]) and calls that
    raise after a penalty ([raising_record_repeats_penalty]) are not covered. *)
Theorem penalty_applied_once universe st calls st' :
  distinct_ids universe → slashing_run universe st calls st' →
  let applied := concat (map ce_applied calls) in
  Forall only_penalties calls
  ∧ NoDup applied ∧ (∀ k, k ∈ applied → ¬ recorded k st ∧ recorded k st').
Proof.
  intros Hinj Hrun applied. assert (Forall only_penalties calls ∧ applies_new st applied st') as (Honly & Hnd & Hnew & _).
  { unfold applied. clear applied.
    induction Hrun as [|calls st1 st2 Hrun [IHo IHn] Hc|calls st1 ap st2 Hrun [IHo IHn] Hcall Hsub].
    - split; [constructor|by apply applies_new_cases].
    - split; [done|]. rewrite <- (app_nil_r (concat _)). eapply applies_new_trans; [exact IHn|].
      by apply applies_new_cases.
    - split; [apply Forall_app; split; [done|apply Forall_singleton; by apply call_only_penalties]|].
      rewrite map_app, concat_app. cbn. rewrite app_nil_r.
      eapply applies_new_trans; [exact IHn|]. by eapply slashing_call_applies_new. }
  split_and!; [done|done|]. by rewrite Forall_forall in Hnew.
Qed.
End runs.

(** * Concrete penalties

    Three members of a committee penalise a validator; and two ways around the quorum: the
    reporters a peer names are taken as they are, and two cases can share an id. *)

Import Signing.Transparent.

Definition demo_now : string := "2026-02-05T00:00:00+00:00".

Definition demo_evidence (id : string) (reporter : option string) (settlement : pyval) (url : option string)
  : ValidatorEvidence := {|
  ve_evidence_id := id; ve_created_at := "2026-02-03T00:00:00+00:00"; ve_validator_id := "mallory";
  ve_evidence_type := "conflicting_attestation"; ve_reporter_validator_id := reporter;
  ve_settlement_id := settlement; ve_attestation_id := VNone;
  ve_conflicting_attestation_id := VNone; ve_slash_atomic := 3; ve_jailed := false; ve_note := VNone;
  ve_source := "local"; ve_source_url := url; ve_last_seen_at := None; ve_updated_at := None;
  ve_applied_to_registry := false |}.

Definition demo_case : CaseKey :=
  _validator_evidence_case_key (demo_evidence "e1" (Some "v1") (VStr "s1") None).

Definition demo_case_id : string :=
  match _validator_evidence_case_id demo_case with Ok i => i | Err _ => "" end.

Definition demo_penalty_attestation (v : string) : ValidatorPenaltyAttestation := {|
  pa_penalty_attestation_id := v; pa_created_at := "2026-02-04T00:00:00+00:00";
  pa_case_id := demo_case_id; pa_validator_id := v; pa_accepted := true; pa_note := None |}.

(** The members [v1] and [v2] reported, [v1] and [v3] accepted the penalty. *)
Definition demo_slashing : SlashingStore := {|
  ss_evidence := [demo_evidence "e1" (Some "v1") (VStr "s1") None;
                  demo_evidence "e2" (Some "v2") (VStr "s1") None];
  ss_cases := [];
  ss_attestations := [demo_penalty_attestation "v1"; demo_penalty_attestation "v3"];
  ss_registry := [demo_validator "mallory" 10] |}.

Abbreviation demo_refresh := (refresh_validator_penalty_cases [demo_settlement] ∅ demo_now None).

Definition applied_of {A B} (r : SlashingStore * result (A * list CaseKey * B)) : list CaseKey :=
  match r.2 with Ok (_, applied, _) => applied | Err _ => [] end.

Lemma refresh_is_call st :
  is_ok (demo_refresh st).2 = true →
  slashing_call no_env None st (applied_of (demo_refresh st)) (demo_refresh st).1.
Proof.
  intros Hok. destruct (demo_refresh st) as [st' [[[cases applied] items]|e]] eqn:E; [|done].
  eapply call_refresh. exact E.
Qed.

Lemma demo_refresh_applies :
  is_ok (demo_refresh demo_slashing).2 = true ∧ applied_of (demo_refresh demo_slashing) = [demo_case]
  ∧ map vr_bonded_atomic (ss_registry (demo_refresh demo_slashing).1) = [7].
Proof. split_and!; vm_compute; reflexivity. Qed.

Lemma demo_case_in : demo_case ∈ [demo_case].
Proof. by apply list_elem_of_singleton. Qed.

Lemma demo_keys_distinct : distinct_ids [demo_case].
Proof. intros k k' i Hk Hk' _ _. apply list_elem_of_singleton in Hk, Hk'. congruence. Qed.

Lemma penalty_needs_quorum_witness :
  penalties
    (λ k e registry, latest_evidence (of_case k (refreshed_items None demo_slashing)) = Some e ∧
       ∃ i, _validator_evidence_case_id k = Ok i ∧ stored_case i demo_slashing ≫= pc_applied_at = None
            ∧ has_quorum [demo_settlement] ∅ (ss_attestations demo_slashing) i k
                (refreshed_items None demo_slashing) registry)
    demo_now (ss_registry demo_slashing) [demo_case] (ss_registry (demo_refresh demo_slashing).1).
Proof.
  pose proof (penalty_needs_quorum [demo_settlement] ∅ demo_now None demo_slashing) as Hq.
  destruct demo_refresh_applies as (Hok & Happ & _). revert Hok Happ Hq.
  generalize (demo_refresh demo_slashing). intros [st' [[[cases applied] items]|e]] Hok Happ Hq;
    [|discriminate Hok].
  cbn in Happ. subst applied. destruct (Hq _ _ eq_refl) as (ks & _ & Hpen & E). cbn in E. subst ks. exact Hpen.
Defined.

Definition once : SlashingStore := (demo_refresh demo_slashing).1.
Definition twice : SlashingStore := (demo_refresh once).1.

Lemma demo_refresh_again : is_ok (demo_refresh once).2 = true ∧ applied_of (demo_refresh once) = [].
Proof. split; vm_compute; reflexivity. Qed.

Lemma demo_keys : evidence_keys (ss_evidence once) = [demo_case; demo_case]
  ∧ evidence_keys (ss_evidence twice) = [demo_case; demo_case].
Proof. split; vm_compute; reflexivity. Qed.

Lemma demo_pair_sub : [demo_case; demo_case] ⊆ [demo_case].
Proof. intros k. rewrite !elem_of_cons. tauto. Qed.

Definition demo_calls : list CallEffect :=
  [{| ce_before := ss_registry demo_slashing; ce_applied := [demo_case]; ce_after := ss_registry once |};
   {| ce_before := ss_registry once; ce_applied := []; ce_after := ss_registry twice |}].

Lemma penalty_applied_once_witness :
  slashing_run no_env None [demo_case] demo_slashing demo_calls twice
  ∧ Forall only_penalties demo_calls ∧ ¬ recorded demo_case demo_slashing ∧ recorded demo_case twice.
Proof.
  destruct demo_refresh_applies as (Hok & Happ & _). destruct demo_refresh_again as (Hok' & Happ').
  destruct demo_keys as [Hk Hk'].
  assert (slashing_run no_env None [demo_case] demo_slashing demo_calls twice) as Hrun.
  { apply (run_call no_env None [demo_case] demo_slashing [_] once [] twice).
    - apply (run_call no_env None [demo_case] demo_slashing [] demo_slashing [demo_case] once).
      + apply run_start.
      + rewrite <- Happ. exact (refresh_is_call demo_slashing Hok).
      + rewrite Hk. exact demo_pair_sub.
    - rewrite <- Happ'. exact (refresh_is_call once Hok').
    - rewrite Hk'. exact demo_pair_sub. }
  split; [exact Hrun|].
  destruct (penalty_applied_once no_env None [demo_case] _ _ _ demo_keys_distinct Hrun) as (Honly & _ & Hap).
  split; [exact Honly|]. exact (Hap demo_case demo_case_in).
Defined.

(** ** Reporters are not authenticated *)

Definition bonded_registry : list ValidatorRecord :=
  [demo_validator "alice" 5; demo_validator "bob" 5; demo_validator "carol" 5; demo_validator "dave" 5].

Definition all_bonds : gmap string Z := {[ "alice" := 5; "bob" := 5; "carol" := 5; "dave" := 5 ]}.

Definition bonded_store : SlashingStore :=
  {| ss_evidence := []; ss_cases := []; ss_attestations := []; ss_registry := bonded_registry |}.

Definition claim_of (id reporter : string) : pyval :=
  VDict [("evidence_id", VStr id); ("validator_id", VStr "dave"); ("evidence_type", VStr "offline");
         ("reporter_validator_id", VStr reporter); ("slash_atomic", VInt 5); ("jailed", VBool true)].

Definition forged_payload : result (list (string * pyval)) :=
  add_peer_payload_metadata no_env
    [("evidence", VList [claim_of "f1" "alice"; claim_of "f2" "bob"; claim_of "f3" "carol"])] None.

Definition merged_forgery : SlashingStore * result (Z * list CaseKey) :=
  match forged_payload with
  | Ok d => merge_remote_validator_evidence_payload [] all_bonds no_env None demo_now "http://peer" (VDict d)
              bonded_store
  | Err e => (bonded_store, Err e)
  end.

(** One unsigned payload of one peer, naming three of four bonded validators as reporters,
    jails the fourth and takes its bond. *)
Lemma forged_reporters_jail :
  map (λ r, (vr_validator_id r, vr_state r, vr_bonded_atomic r)) (ss_registry merged_forgery.1)
  = [("alice", BONDED, 5); ("bob", BONDED, 5); ("carol", BONDED, 5); ("dave", JAILED, 0)].
Proof. vm_compute. reflexivity. Qed.

(** ** Cases that share an id *)

Definition shared_id_store : SlashingStore := {|
  ss_evidence := [demo_evidence "e1" None VNone (Some "http://peer");
                  demo_evidence "e2" None (VStr "") (Some "http://peer")];
  ss_cases := []; ss_attestations := []; ss_registry := [demo_validator "mallory" 10] |}.

(** A missing settlement id and an empty one make two cases with one id: the penalty of 3 is
    taken twice. *)
Lemma shared_id_applied_twice :
  length (applied_of (refresh_validator_penalty_cases [] ∅ demo_now None shared_id_store)) = 2%nat
  ∧ map vr_bonded_atomic
      (ss_registry (refresh_validator_penalty_cases [] ∅ demo_now None shared_id_store).1) = [4].
Proof. split; vm_compute; reflexivity. Qed.

(** ** A record that raises after a penalty *)

Definition raising_store : SlashingStore := {|
  ss_evidence := [demo_evidence "e1" None VNone (Some "http://peer");
                  demo_evidence "e2" None (VInt 5) (Some "http://peer")];
  ss_cases := []; ss_attestations := []; ss_registry := [demo_validator "mallory" 10] |}.

(** The second record's settlement id is a number: building its case id raises after the
    first penalty was taken and before the cases are saved, so each refresh takes it again. *)
Lemma raising_record_repeats_penalty :
  let r1 := refresh_validator_penalty_cases [] ∅ demo_now None raising_store in
  let r2 := refresh_validator_penalty_cases [] ∅ demo_now None r1.1 in
  r1.2 = Err TypeError ∧ map vr_bonded_atomic (ss_registry r1.1) = [7]
  ∧ map vr_bonded_atomic (ss_registry r2.1) = [4].
Proof. cbn zeta. split_and!; vm_compute; reflexivity. Qed.
