(* ===== verification/Payouts.v ===== *)
(** * Paying a settlement

    [settlement.py], fourth part: how a settlement is opened, how the reward of its workers is
    split and checked, and what applying it does to the local ledger, the wallets and the
    payouts.  The wallet functions are those of [wallet.py]; key material is left out.  The
    ledger file exists and names its treasuries.  Numbers in records are integers. *)
From Stdlib Require Import Ascii QArith.
From S2P Require Import Prelude.
From S2P Require Import PyStr.
From S2P Require Import PyVal.
From S2P Require Import PyOrder.
From S2P Require Import Money.
From S2P Require Import Signing.
From S2P Require Import ChainTx.
From S2P Require Import Ledger.
From S2P Require Import ChainStore.
From S2P Require Import ChainOps.
From S2P Require Import Apportion.
From S2P Require Import SettlementData.
From S2P Require Import Funding.
From S2P Require Import Validators.
From S2P Require Import Settlement.
Local Open Scope Z_scope.
Set Default Proof Using "Type".

(** ** The split of the reward among the workers *)

(** [max(int(item.layer_count or 1), 1)] *)
Definition payout_weight (p : WorkerPayoutRecord) : Z := Z.max (wp_layer_count p) 1.

Definition _payout_sort_key (p : WorkerPayoutRecord) : sort_key :=
  [KI (match wp_layer_start p with None => 1 | Some _ => 0 end);
   KI (default (10 ^ 9) (wp_layer_start p)); KS (wp_node_id p); KS (default "" (wp_runner_id p))].

(** A payout with its expected reward and the remainder of its quotient. *)
Record split_part := {
  sp_payout : WorkerPayoutRecord;
  sp_expected : Z;
  sp_remainder : Z
}.

Definition split_raw_part (total_reward total_weight : Z) (p : WorkerPayoutRecord) : split_part := {|
  sp_payout := p; sp_expected := total_reward * payout_weight p / total_weight;
  sp_remainder := total_reward * payout_weight p mod total_weight |}.

Definition add_unit (s : split_part) : split_part := {|
  sp_payout := sp_payout s; sp_expected := sp_expected s + 1; sp_remainder := sp_remainder s |}.

(** The key [(-remainder, node_id)]. *)
Definition split_leb (x y : split_part) : bool :=
  remainder_leb (sp_remainder x, wp_node_id (sp_payout x)) (sp_remainder y, wp_node_id (sp_payout y)).

(** [for index in range(remainder): adjusted[index % len(adjusted)] += 1] *)
Definition hand_out_units (remainder : Z) (parts : list split_part) : list split_part :=
  foldl (λ l index, alter add_unit (index mod length parts)%nat l) parts (seq 0 (Z.to_nat remainder)).

Definition reward_parts (total_reward : Z) (payouts : list WorkerPayoutRecord) : list split_part :=
  let total_weight := sumZ (map payout_weight payouts) in
  let raw_parts := map (split_raw_part total_reward total_weight) payouts in
  let remainder := total_reward - sumZ (map sp_expected raw_parts) in
  sorted_by (λ s, _payout_sort_key (sp_payout s)) (hand_out_units remainder (py_sorted split_leb raw_parts)).

Definition _deterministic_worker_payout_split (total_reward : Z) (payouts : list WorkerPayoutRecord)
  : list split_part :=
  if (total_reward <=? 0) || bool_decide (length payouts = 0%nat) then []
  else reward_parts total_reward payouts.

Definition reward_matches_expected (s : split_part) : bool :=
  wp_reward_atomic (sp_payout s) =? sp_expected s.

Definition opt_int (o : option Z) : pyval := match o with Some z => VInt z | None => VNone end.

Definition split_audit_item (s : split_part) : pyval :=
  let p := sp_payout s in
  VDict [("payout_id", VStr (wp_payout_id p)); ("node_id", VStr (wp_node_id p));
         ("runner_id", val_opt (wp_runner_id p)); ("layer_start", opt_int (wp_layer_start p));
         ("layer_end", opt_int (wp_layer_end p)); ("layer_count", VInt (wp_layer_count p));
         ("share_bps", VInt (wp_share_bps p)); ("expected_reward_atomic", VInt (sp_expected s));
         ("recorded_reward_atomic", VInt (wp_reward_atomic p));
         ("reward_matches_expected", VBool (reward_matches_expected s))].

(** ** The accounting of a settlement *)

(** The dict of [_settlement_worker_payout_accounting]; the flags are functions of it. *)
Record WorkerAccounting := {
  wa_reward_token_code : string;
  wa_settlement_id : string;
  wa_payout_ids : list string;
  wa_participant_node_ids : list string;
  wa_split : list split_part;
  wa_expected_reward : Z;
  wa_recorded_reward : Z;
  wa_settlement_fee : Z;
  wa_ai_fee : Z;
  wa_expected_settlement_fee : Z;
  wa_expected_ai_fee : Z;
  wa_compute_cost : Z
}.

Definition _settlement_worker_payout_accounting (s : SettlementRecord)
    (payouts : list WorkerPayoutRecord) (mp : MoneyPolicy) : WorkerAccounting :=
  let compute := Z.max 0 (sr_compute_cost_atomic s) in
  let expected := Z.max 0 (sr_worker_reward_atomic s) in
  {| wa_reward_token_code :=
       (match sr_reward_token_code s with
        | Some c => if String.eqb c "" then reward_token_code mp else c
        | None => reward_token_code mp
        end);
     wa_settlement_id := sr_settlement_id s;
     wa_payout_ids := py_sorted str_leb (map wp_payout_id payouts);
     wa_participant_node_ids := sorted_ids (list_to_set (map wp_node_id payouts));
     wa_split := _deterministic_worker_payout_split expected payouts;
     wa_expected_reward := expected;
     wa_recorded_reward := sumZ (map (λ p, Z.max 0 (wp_reward_atomic p)) payouts);
     wa_settlement_fee := Z.max 0 (sr_settlement_fee_atomic s);
     wa_ai_fee := Z.max 0 (sr_ai_development_fee_atomic s);
     wa_expected_settlement_fee := compute * validator_settlement_fee_bps mp / 10000;
     wa_expected_ai_fee := compute * ai_development_fee_bps mp / 10000;
     wa_compute_cost := compute |}.

Definition wa_total (a : WorkerAccounting) : Z :=
  wa_recorded_reward a + wa_settlement_fee a + wa_ai_fee a.

Definition split_matches (a : WorkerAccounting) : bool :=
  match wa_split a with
  | [] => wa_expected_reward a =? 0
  | l => forallb reward_matches_expected l
  end.

Definition accounting_audit (a : WorkerAccounting) : pyval :=
  VDict
    [("schema_version", VInt 1); ("reward_token_code", VStr (wa_reward_token_code a));
     ("settlement_id", VStr (wa_settlement_id a));
     ("payout_count", VInt (Z.of_nat (length (wa_payout_ids a))));
     ("payout_ids", VStrs (wa_payout_ids a));
     ("participant_node_ids", VStrs (wa_participant_node_ids a));
     ("deterministic_split", VList (map split_audit_item (wa_split a)));
     ("expected_worker_reward_atomic", VInt (wa_expected_reward a));
     ("recorded_worker_reward_atomic", VInt (wa_recorded_reward a));
     ("settlement_fee_atomic", VInt (wa_settlement_fee a));
     ("ai_development_fee_atomic", VInt (wa_ai_fee a));
     ("expected_settlement_fee_atomic", VInt (wa_expected_settlement_fee a));
     ("expected_ai_development_fee_atomic", VInt (wa_expected_ai_fee a));
     ("compute_cost_atomic", VInt (wa_compute_cost a));
     ("worker_plus_validator_plus_ai_atomic", VInt (wa_total a));
     ("settlement_fee_matches_policy", VBool (wa_settlement_fee a =? wa_expected_settlement_fee a));
     ("ai_development_fee_matches_policy", VBool (wa_ai_fee a =? wa_expected_ai_fee a));
     ("deterministic_split_matches", VBool (split_matches a));
     ("worker_reward_matches_payouts", VBool (wa_recorded_reward a =? wa_expected_reward a));
     ("worker_plus_validator_plus_ai_matches_compute", VBool (wa_total a =? wa_compute_cost a))].

Definition mismatch (what : string) (x y : Z) : string :=
  what +:+ " (" +:+ str_of_Z x +:+ " != " +:+ str_of_Z y +:+ ").".

Definition validate_settlement_accounting (s : SettlementRecord) (payouts : list WorkerPayoutRecord)
    (mp : MoneyPolicy) : list string :=
  let a := _settlement_worker_payout_accounting s payouts mp in
  err_if (negb (wa_recorded_reward a =? wa_expected_reward a))
    (mismatch "Worker payout total does not match settlement worker reward"
       (wa_recorded_reward a) (wa_expected_reward a))
  ++ err_if (negb (split_matches a))
       "Worker payout split does not match deterministic layer-share calculation."
  ++ err_if (negb (wa_total a =? wa_compute_cost a))
       (mismatch "Worker payouts plus validator and AI fees do not match compute cost"
          (wa_total a) (wa_compute_cost a))
  ++ err_if (negb (wa_settlement_fee a =? wa_expected_settlement_fee a))
       (mismatch "Validator settlement fee does not match policy"
          (wa_settlement_fee a) (wa_expected_settlement_fee a))
  ++ err_if (negb (wa_ai_fee a =? wa_expected_ai_fee a))
       (mismatch "AI development fee does not match policy" (wa_ai_fee a) (wa_expected_ai_fee a)).

Definition _with_worker_payout_accounting_audit (s : SettlementRecord)
    (payouts : list WorkerPayoutRecord) (mp : MoneyPolicy) : list (string * pyval) :=
  dset "payouts" (accounting_audit (_settlement_worker_payout_accounting s payouts mp))
    (sr_balance_audit s).

(** ** Wallets and the journal *)

(** [JournalEntry], without the fields no entry of this file sets. *)
Record JournalEntry := {
  je_entry_id : string;
  je_event_type : string;
  je_created_at : string;
  je_wallet_id : string;
  je_amount_atomic : Z;
  je_note : string
}.

Record PayoutStore := {
  py_settlement : SettlementStore;
  py_wallets : list WalletRecord;
  py_journal : list JournalEntry;
  py_ledger : LedgerState
}.

Definition PM (A : Type) : Type := PayoutStore → PayoutStore * result A.

#[export] Instance PM_ret : MRet PM := fun _ a s => (s, Ok a).
#[export] Instance PM_bind : MBind PM := fun _ _ f m s =>
  match m s with (s', Ok a) => f a s' | (s', Err e) => (s', Err e) end.

Definition with_settlement (s : PayoutStore) (ss : SettlementStore) : PayoutStore :=
  {| py_settlement := ss; py_wallets := py_wallets s; py_journal := py_journal s;
     py_ledger := py_ledger s |}.

Definition on_settlements {A} (m : SM A) : PM A := λ s,
  let '(ss, r) := m (py_settlement s) in (with_settlement s ss, r).

Definition pget {A} (f : PayoutStore → A) : PM A := λ s, (s, Ok (f s)).
Definition plift {A} (r : result A) : PM A := λ s, (s, r).

Definition save_wallets (l : list WalletRecord) : PM unit := λ s,
  ({| py_settlement := py_settlement s; py_wallets := l; py_journal := py_journal s;
      py_ledger := py_ledger s |}, Ok tt).

Definition save_ledger (l : LedgerState) : PM unit := λ s,
  ({| py_settlement := py_settlement s; py_wallets := py_wallets s; py_journal := py_journal s;
      py_ledger := l |}, Ok tt).

Definition append_journal_entry (e : JournalEntry) : PM unit := λ s,
  ({| py_settlement := py_settlement s; py_wallets := py_wallets s;
      py_journal := py_journal s ++ [e]; py_ledger := py_ledger s |}, Ok tt).

Definition find_wallet_by_id (wallet_id : string) (l : list WalletRecord) : option WalletRecord :=
  List.find (λ w, String.eqb (wr_wallet_id w) wallet_id) l.

Definition find_wallet_by_address (address : string) (l : list WalletRecord) : option WalletRecord :=
  List.find (λ w, String.eqb (normalize_address (wr_address w)) (normalize_address address)) l.

(** [wallets[index] = wallet] at the first wallet with the id. *)
Fixpoint put_wallet (w : WalletRecord) (l : list WalletRecord) : option (list WalletRecord) :=
  match l with
  | [] => None
  | x :: l' =>
      if String.eqb (wr_wallet_id x) (wr_wallet_id w) then Some (w :: l')
      else match put_wallet w l' with Some l' => Some (x :: l') | None => None end
  end.

Definition update_wallet (w : WalletRecord) : PM unit :=
  wallets ← pget py_wallets;
  match put_wallet w wallets with
  | Some wallets' => save_wallets wallets'
  | None => plift (Err (ValueError ("Wallet '" +:+ wr_wallet_id w +:+ "' not found.")))
  end.

Definition with_spendable (w : WalletRecord) (balance : Z) : WalletRecord := {|
  wr_wallet_id := wr_wallet_id w; wr_address := wr_address w;
  spendable_balance_atomic := balance;
  validator_reserved_atomic := validator_reserved_atomic w |}.

(** [wallet.spendable_balance_atomic += amount; update_wallet(wallet)] and its journal entry. *)
Definition credit_local (t : Tick) (event_type : string) (amount : Z) (note : string)
    (w : WalletRecord) : PM unit :=
  _ ← update_wallet (with_spendable w (spendable_balance_atomic w + amount));
  append_journal_entry {|
    je_entry_id := token t; je_event_type := event_type; je_created_at := now t;
    je_wallet_id := wr_wallet_id w; je_amount_atomic := amount; je_note := note |}.

(** ** Records with changed fields *)

Definition with_credit (p : WorkerPayoutRecord) (recipient_address credited_wallet_id : option string)
    (status : string) : WorkerPayoutRecord := {|
  wp_payout_id := wp_payout_id p; wp_created_at := wp_created_at p;
  wp_settlement_id := wp_settlement_id p; wp_receipt_id := wp_receipt_id p;
  wp_model_id := wp_model_id p; wp_node_id := wp_node_id p; wp_runner_id := wp_runner_id p;
  wp_layer_start := wp_layer_start p; wp_layer_end := wp_layer_end p;
  wp_layer_count := wp_layer_count p; wp_share_bps := wp_share_bps p;
  wp_reward_atomic := wp_reward_atomic p; wp_reward_token_code := wp_reward_token_code p;
  wp_recipient_address := recipient_address; wp_credited_wallet_id := credited_wallet_id;
  wp_status := status; wp_note := wp_note p |}.

(** The settlement after its application or the credit of its AI fee. *)
Definition with_application (s : SettlementRecord) (status : string)
    (applied_at applied_by ai_wallet : option string) (audit : list (string * pyval))
  : SettlementRecord := {|
  sr_settlement_id := sr_settlement_id s; sr_created_at := sr_created_at s;
  sr_source_wallet_id := sr_source_wallet_id s;
  sr_source_wallet_address := sr_source_wallet_address s;
  sr_funding_source := sr_funding_source s; sr_compute_cost_atomic := sr_compute_cost_atomic s;
  sr_tx_fee_atomic := sr_tx_fee_atomic s; sr_settlement_fee_atomic := sr_settlement_fee_atomic s;
  sr_worker_reward_atomic := sr_worker_reward_atomic s;
  sr_committee_selection_seed := sr_committee_selection_seed s;
  sr_committee_target_size := sr_committee_target_size s;
  sr_committee_selection_mode := sr_committee_selection_mode s;
  sr_committee_validator_ids := sr_committee_validator_ids s;
  sr_committee_bonded := sr_committee_bonded s;
  sr_committee_total_bonded_atomic := sr_committee_total_bonded_atomic s;
  sr_committee_quorum_bond_atomic := sr_committee_quorum_bond_atomic s;
  sr_reward_token_code := sr_reward_token_code s;
  sr_ai_development_fee_atomic := sr_ai_development_fee_atomic s;
  sr_ai_development_wallet_id := sr_ai_development_wallet_id s;
  sr_ai_development_address := sr_ai_development_address s;
  sr_ai_development_credited_wallet_id := ai_wallet;
  sr_accepted_attestations := sr_accepted_attestations s;
  sr_rejected_attestations := sr_rejected_attestations s;
  sr_accepted_bond_atomic := sr_accepted_bond_atomic s;
  sr_rejected_bond_atomic := sr_rejected_bond_atomic s; sr_status := status;
  sr_note := sr_note s; sr_source_wallet_debit_atomic := sr_source_wallet_debit_atomic s;
  sr_reserve_debit_atomic := sr_reserve_debit_atomic s;
  sr_reserve_limit_identity_keys := sr_reserve_limit_identity_keys s;
  sr_reserve_client_ip_hash := sr_reserve_client_ip_hash s; sr_applied_at := applied_at;
  sr_applied_by_validator_id := applied_by; sr_balance_audit := audit |}.

(** [settlements[index] = item; save_settlements(settlements)] on the list read before. *)
Definition save_item (settlements : list SettlementRecord) (item : SettlementRecord) : PM unit :=
  on_settlements
    (save_settlements (update_settlement (sr_settlement_id item) (λ _, item) settlements)).

(** ** Crediting payouts *)

Definition _apply_finalized_worker_payout_record (t : Tick) (reconciled : bool)
    (item : WorkerPayoutRecord) : PM WorkerPayoutRecord :=
  match wp_recipient_address item with
  | None => mret (with_credit item None None "unbound")
  | Some address =>
      wallets ← pget py_wallets;
      match find_wallet_by_address address wallets with
      | None => mret (with_credit item (Some address) None "recorded_external_address")
      | Some w =>
          _ ← (if bool_decide (wp_credited_wallet_id item = Some (wr_wallet_id w)) then mret tt
               else
                 credit_local t "worker_reward_credit" (wp_reward_atomic item)
                   ("Worker reward " +:+ (if reconciled then "reconciled" else "credited")
                    +:+ " for node " +:+ wp_node_id item +:+ " from finalized settlement "
                    +:+ wp_settlement_id item +:+ ".") w);
          mret (with_credit item (Some address) (Some (wr_wallet_id w)) "credited_local_wallet")
      end
  end.

Definition is_credited (p : WorkerPayoutRecord) : bool :=
  String.eqb (wp_status p) "credited_local_wallet".

Definition reward_address (rewards : gmap string string) (p : WorkerPayoutRecord) : option string :=
  rewards !! wp_node_id p.

(** The loop of [_apply_finalized_worker_payouts] over all payouts: the payouts it leaves and
    those it handled. *)
Fixpoint apply_payouts (t : Tick) (rewards : gmap string string) (settlement_id : string)
    (payouts : list WorkerPayoutRecord) : PM (list WorkerPayoutRecord * list WorkerPayoutRecord) :=
  match payouts with
  | [] => mret ([], [])
  | item :: payouts' =>
      if negb (String.eqb (wp_settlement_id item) settlement_id) || is_credited item then
        rest ← apply_payouts t rewards settlement_id payouts'; mret (item :: rest.1, rest.2)
      else
        let address := some_or (wp_recipient_address item) (reward_address rewards item) in
        item' ← _apply_finalized_worker_payout_record t false
                  (with_credit item address (wp_credited_wallet_id item) (wp_status item));
        rest ← apply_payouts t rewards settlement_id payouts';
        mret (item' :: rest.1, item' :: rest.2)
  end.

Definition _apply_finalized_worker_payouts (t : Tick) (s : SettlementRecord)
  : PM (list WorkerPayoutRecord) :=
  payouts ← pget (λ st, list_worker_payouts None (s_payouts (py_settlement st)));
  rewards ← pget (λ st, s_rewards (py_settlement st));
  rest ← apply_payouts t rewards (sr_settlement_id s) payouts;
  _ ← (match rest.2 with [] => mret tt | _ => on_settlements (save_worker_payouts rest.1) end);
  mret rest.2.

(** [{item.settlement_id: item for item in list_settlements(policy)}.get(i)] *)
Definition settlement_by_id (settlements : list SettlementRecord) (i : string)
  : option SettlementRecord :=
  List.find (λ s, String.eqb (sr_settlement_id s) i) (rev settlements).

Fixpoint reconcile_payouts (t : Tick) (rewards : gmap string string)
    (settlements : list SettlementRecord) (payouts : list WorkerPayoutRecord)
  : PM (list WorkerPayoutRecord * list WorkerPayoutRecord) :=
  match payouts with
  | [] => mret ([], [])
  | item :: payouts' =>
      match reward_address rewards item with
      | Some address =>
          if is_credited item then
            rest ← reconcile_payouts t rewards settlements payouts'; mret (item :: rest.1, rest.2)
          else
            let bound := with_credit item (Some address) (wp_credited_wallet_id item) (wp_status item) in
            item' ←
              (match settlement_by_id settlements (wp_settlement_id item) with
               | Some s =>
                   if is_applied s then _apply_finalized_worker_payout_record t true bound
                   else mret (with_credit bound (Some address) None "pending_settlement")
               | None => mret (with_credit bound (Some address) None "pending_settlement")
               end);
            rest ← reconcile_payouts t rewards settlements payouts';
            mret (item' :: rest.1, item' :: rest.2)
      | None => rest ← reconcile_payouts t rewards settlements payouts'; mret (item :: rest.1, rest.2)
      end
  end.

Definition reconcile_worker_payouts (t : Tick) : PM (list WorkerPayoutRecord) :=
  payouts ← pget (λ st, list_worker_payouts None (s_payouts (py_settlement st)));
  settlements ← pget (λ st, list_settlements (s_settlements (py_settlement st)));
  rewards ← pget (λ st, s_rewards (py_settlement st));
  rest ← reconcile_payouts t rewards settlements payouts;
  _ ← (match rest.2 with [] => mret tt | _ => on_settlements (save_worker_payouts rest.1) end);
  mret rest.2.

(** ** Recording payouts *)

(** The record of a participant: an item of the list [distribute_worker_reward] returns. *)
Definition new_payout (t : Tick) (payout_id settlement_id receipt_id model_id : string)
    (mp : MoneyPolicy) (rewards : gmap string string) (x : RewardShare) : WorkerPayoutRecord :=
  let recipient := rewards !! rw_node_id x in
  {| wp_payout_id := payout_id; wp_created_at := now t; wp_settlement_id := settlement_id;
     wp_receipt_id := receipt_id; wp_model_id := model_id; wp_node_id := rw_node_id x;
     wp_runner_id := match rw_runner_id x with VNone => None | v => Some (py_str v) end;
     wp_layer_start := rw_layer_start x; wp_layer_end := rw_layer_end x;
     wp_layer_count := rw_layer_count x; wp_share_bps := rw_share_bps x;
     wp_reward_atomic := rw_reward_atomic x;
     wp_reward_token_code := Some (reward_token_code mp); wp_recipient_address := recipient;
     wp_credited_wallet_id := None;
     wp_status := match recipient with Some _ => "pending_settlement" | None => "unbound" end;
     wp_note := Some "Distributed by pipeline layer share." |}.

Definition receipt_payouts (settlement_id receipt_id : string) (file : list WorkerPayoutRecord)
  : list WorkerPayoutRecord :=
  newest_first wp_created_at
    (filter (λ p, wp_settlement_id p = settlement_id ∧ wp_receipt_id p = receipt_id) file).

(** The settlement whose audit was saved: the stored one when it is stored. *)
Definition save_audit (s : SettlementRecord) (audit : list (string * pyval)) : PM SettlementRecord :=
  settlements ← pget (λ st, list_settlements (s_settlements (py_settlement st)));
  _ ← on_settlements (_save_settlement_balance_audit s audit);
  mret (match List.find (λ x, String.eqb (sr_settlement_id x) (sr_settlement_id s)) settlements with
        | Some x => with_balance_audit x audit
        | None => s
        end).

(** The end of [record_worker_payouts]: crediting at once what an applied settlement pays. *)
Definition paid_out (t : Tick) (s : option SettlementRecord) (settlement_id receipt_id : string)
    (records : list WorkerPayoutRecord) : PM (list WorkerPayoutRecord) :=
  match s with
  | Some s =>
      if is_applied s then
        _ ← _apply_finalized_worker_payouts t s;
        pget (λ st, receipt_payouts settlement_id receipt_id (s_payouts (py_settlement st)))
      else mret records
  | None => mret records
  end.

(** [payout_id i] is the token drawn for the [i]-th record. *)
Definition record_worker_payouts (t : Tick) (payout_id : nat → string)
    (settlement_id receipt_id model_id : string) (participants : list RewardShare) (mp : MoneyPolicy)
  : PM (list WorkerPayoutRecord) :=
  settlement ← pget (λ st, resolve_settlement settlement_id (s_settlements (py_settlement st)));
  existing_for_receipt ←
    pget (λ st, receipt_payouts settlement_id receipt_id (s_payouts (py_settlement st)));
  let with_audit (l : list WorkerPayoutRecord) : PM (option SettlementRecord) :=
    match settlement with
    | Some s => s' ← save_audit s (_with_worker_payout_accounting_audit s l mp); mret (Some s')
    | None => mret None
    end in
  match existing_for_receipt with
  | _ :: _ =>
      settlement' ← with_audit existing_for_receipt;
      paid_out t settlement' settlement_id receipt_id existing_for_receipt
  | [] =>
      existing ← pget (λ st, list_worker_payouts None (s_payouts (py_settlement st)));
      rewards ← pget (λ st, s_rewards (py_settlement st));
      let records :=
        map (λ x, new_payout t (payout_id x.1) settlement_id receipt_id model_id mp rewards x.2)
          (enumerate participants) in
      let errors :=
        match settlement with Some s => validate_settlement_accounting s records mp | None => [] end in
      match errors with
      | _ :: _ =>
          plift (Err (ValueError ("Settlement payout accounting mismatch: " +:+ join " " errors)))
      | [] =>
          _ ← on_settlements (save_worker_payouts (existing ++ records));
          settlement' ← with_audit records;
          paid_out t settlement' settlement_id receipt_id records
      end
  end.

(** ** Opening a settlement *)

(** [dict] of [_initial_settlement_balance_audit]; [sync_audit] is the JSON of the validator
    synchronisation before it. *)
Definition _initial_settlement_balance_audit (source_wallet_id source_wallet_address : string)
    (d : FundingDecision) (mp : MoneyPolicy) (sync_audit : option pyval) : list (string * pyval) :=
  let q := fd_fee_quote d in
  let total :=
    fq_worker_reward_atomic q + fq_settlement_fee_atomic q + fq_ai_development_fee_atomic q in
  let audit :=
    [("schema_version", VInt 1); ("network", VStr (network_value (chain_network mp)));
     ("reward_token_code", VStr (reward_token_code mp));
     ("source_wallet_id", VStr source_wallet_id);
     ("source_wallet_address", VStr source_wallet_address);
     ("funding_source",
      match fd_funding_source d with Some f => VStr (funding_source_value f) | None => VNone end);
     ("quote", VDict
        [("reserve_before_atomic", VInt (fd_reserve_before_atomic d));
         ("reserve_after_atomic", VInt (fd_reserve_after_atomic d));
         ("wallet_before_atomic", VInt (fd_wallet_before_atomic d));
         ("wallet_after_atomic", VInt (fd_wallet_after_atomic d))]);
     ("debits", VDict
        [("source_wallet_debit_atomic",
          VInt (Z.max 0 (fd_wallet_before_atomic d - fd_wallet_after_atomic d)));
         ("reserve_debit_atomic",
          VInt (Z.max 0 (fd_reserve_before_atomic d - fd_reserve_after_atomic d)));
         ("reserve_limit_identity_keys", VStrs (fd_reserve_limit_identity_keys d));
         ("reserve_client_ip_hash", val_opt (fd_reserve_client_ip_hash d))]);
     ("fees", VDict
        [("compute_cost_atomic", VInt (fq_compute_cost_atomic q));
         ("tx_fee_atomic", VInt (fq_tx_fee_atomic q));
         ("settlement_fee_atomic", VInt (fq_settlement_fee_atomic q));
         ("ai_development_fee_atomic", VInt (fq_ai_development_fee_atomic q));
         ("worker_reward_atomic", VInt (fq_worker_reward_atomic q));
         ("worker_reward_plus_fees_atomic", VInt total);
         ("worker_plus_validator_plus_ai_matches_compute",
          VBool (total =? fq_compute_cost_atomic q))])] in
  match sync_audit with
  | Some a => dset "pre_settlement_validator_sync" a audit
  | None => audit
  end.

Section committee.
Context (lottery_key : string → string → Z → Q).

(** [record_funding_settlement] with the bonded validators [bonded] at that moment; the
    settlement id is the token drawn.  The committee's dict of bonds is in the order of the
    ids. *)
Definition record_funding_settlement (t : Tick) (bonded : list ValidatorRecord)
    (source_wallet_id source_wallet_address : string) (d : FundingDecision) (note : option string)
    (mp : MoneyPolicy) (sync_audit : option pyval) : PM SettlementRecord :=
  match fd_funding_source d with
  | None => plift (Err (ValueError "Funding decision has no funding source."))
  | Some source =>
      settlements ← pget (λ st, list_settlements (s_settlements (py_settlement st)));
      let settlement_id := token t in
      let committee := select_validator_committee_snapshot lottery_key settlement_id None mp bonded in
      let q := fd_fee_quote d in
      let record := {|
        sr_settlement_id := settlement_id; sr_created_at := now t;
        sr_source_wallet_id := source_wallet_id; sr_source_wallet_address := source_wallet_address;
        sr_funding_source := funding_source_value source;
        sr_compute_cost_atomic := fq_compute_cost_atomic q; sr_tx_fee_atomic := fq_tx_fee_atomic q;
        sr_settlement_fee_atomic := fq_settlement_fee_atomic q;
        sr_worker_reward_atomic := fq_worker_reward_atomic q;
        sr_committee_selection_seed := Some settlement_id;
        sr_committee_target_size :=
          Z.min (validator_committee_target_size mp) (Z.of_nat (length (cs_validator_ids committee)));
        sr_committee_selection_mode := validator_committee_selection_mode mp;
        sr_committee_validator_ids := cs_validator_ids committee;
        sr_committee_bonded := sorted_items (cs_bonded committee);
        sr_committee_total_bonded_atomic := cs_total_bonded_atomic committee;
        sr_committee_quorum_bond_atomic := cs_quorum_bond_atomic committee;
        sr_reward_token_code := Some (reward_token_code mp);
        sr_ai_development_fee_atomic := fq_ai_development_fee_atomic q;
        sr_ai_development_wallet_id := Some (ai_development_wallet_id mp);
        sr_ai_development_address := Some (ai_development_address mp);
        sr_ai_development_credited_wallet_id := None; sr_accepted_attestations := 0;
        sr_rejected_attestations := 0; sr_accepted_bond_atomic := 0; sr_rejected_bond_atomic := 0;
        sr_status := "pending"; sr_note := note;
        sr_source_wallet_debit_atomic := Z.max 0 (fd_wallet_before_atomic d - fd_wallet_after_atomic d);
        sr_reserve_debit_atomic := Z.max 0 (fd_reserve_before_atomic d - fd_reserve_after_atomic d);
        sr_reserve_limit_identity_keys := fd_reserve_limit_identity_keys d;
        sr_reserve_client_ip_hash := fd_reserve_client_ip_hash d; sr_applied_at := None;
        sr_applied_by_validator_id := None;
        sr_balance_audit :=
          _initial_settlement_balance_audit source_wallet_id source_wallet_address d mp sync_audit |} in
      _ ← on_settlements (save_settlements (settlements ++ [record]));
      mret record
  end.
End committee.

(** ** Applying a settlement *)

Definition _apply_finalized_ai_development_fee (t : Tick) (s : SettlementRecord)
  : PM (SettlementRecord * bool) :=
  let amount := Z.max 0 (sr_ai_development_fee_atomic s) in
  if (amount <=? 0) || filled (sr_ai_development_credited_wallet_id s) then mret (s, false)
  else
    wallets ← pget py_wallets;
    let by_id :=
      if filled (sr_ai_development_wallet_id s)
      then find_wallet_by_id (default "" (sr_ai_development_wallet_id s)) wallets else None in
    let by_address :=
      if filled (sr_ai_development_address s)
      then find_wallet_by_address (default "" (sr_ai_development_address s)) wallets else None in
    match some_or by_id by_address with
    | None => mret (s, false)
    | Some w =>
        _ ← credit_local t "ai_development_fee_credit" amount
              ("AI development fee credited from finalized settlement " +:+ sr_settlement_id s +:+ ".") w;
        mret (with_application s (sr_status s) (sr_applied_at s) (sr_applied_by_validator_id s)
                (Some (wr_wallet_id w)) (sr_balance_audit s), true)
    end.

(** [dict(value or {})] *)
Definition dict_or_empty (v : pyval) : result (list (string * pyval)) := py_dict (py_or v (VDict [])).

Definition _with_applied_balance_audit (s : SettlementRecord) (reserve_before reserve_after : Z)
    (wallet : option (Z * Z)) : result (list (string * pyval)) :=
  let audit := sr_balance_audit s in
  quote ← dict_or_empty (dget "quote" audit);
  debits ← dict_or_empty (dget "debits" audit);
  reserve_debit ← int_field "reserve_debit_atomic" debits;
  wallet_matches ←
    (match wallet with
     | None => Ok true
     | Some (before, after) =>
         d ← int_field "source_wallet_debit_atomic" debits; Ok (before - after =? d)
     end);
  quote_reserve ←
    (match quote with
     | [] => Ok true
     | _ => r ← int_field "reserve_after_atomic" quote; Ok (r =? reserve_after)
     end);
  quote_wallet ←
    (match quote, wallet with
     | _ :: _, Some (_, after) => w ← int_field "wallet_after_atomic" quote; Ok (w =? after)
     | _, _ => Ok true
     end);
  Ok (dset "applied"
    (VDict
       [("reserve_before_atomic", VInt reserve_before); ("reserve_after_atomic", VInt reserve_after);
        ("source_wallet_before_atomic", opt_int (fst <$> wallet));
        ("source_wallet_after_atomic", opt_int (snd <$> wallet));
        ("reserve_delta_atomic", VInt (reserve_after - reserve_before));
        ("source_wallet_delta_atomic", opt_int ((λ w, w.2 - w.1) <$> wallet));
        ("reserve_delta_matches_debit", VBool (reserve_before - reserve_after =? reserve_debit));
        ("source_wallet_delta_matches_debit", VBool wallet_matches);
        ("quote_reserve_after_matches_applied", VBool quote_reserve);
        ("quote_wallet_after_matches_applied", VBool quote_wallet)]) audit).

(** The ledger after a settlement: the reserve debit, the pools nobody else is paid from, the
    counters. *)
Definition applied_ledger (l : LedgerState) (s : SettlementRecord) : LedgerState := {|
  compute_reserve_balance_atomic :=
    compute_reserve_balance_atomic l - Z.max 0 (sr_reserve_debit_atomic s);
  project_treasury_balance_atomic := project_treasury_balance_atomic l;
  ai_development_fee_pool_atomic := ai_development_fee_pool_atomic l + sr_ai_development_fee_atomic s;
  validator_fee_pool_atomic :=
    validator_fee_pool_atomic l
    + (match _validator_fee_payout_split s None with [] => sr_settlement_fee_atomic s | _ => 0 end);
  validator_slashed_atomic := validator_slashed_atomic l;
  tx_fee_pool_atomic :=
    tx_fee_pool_atomic l
    + (match _validator_fee_payout_split s (Some (sr_tx_fee_atomic s)) with
       | [] => sr_tx_fee_atomic s | _ => 0 end);
  worker_distributed_atomic := worker_distributed_atomic l + sr_worker_reward_atomic s;
  settlements_applied := settlements_applied l + 1 |}.

Section chain.
Context `{SignatureBackend} (env : Environ) (policy : option WalletPolicy).

Definition on_chain_p {A} (m : M A) : PM A := on_settlements (on_chain m).

(** [economics.py]: the ledger with its balances read from the chain. *)
Definition chain_backed_ledger_snapshot (t : Tick) (mp : MoneyPolicy) (l : LedgerState) : M LedgerState :=
  _ ← ensure_chain_genesis env policy t (Some mp);
  reserve ← chain_balance_atomic env policy t (compute_reserve_chain_address mp);
  treasury ← chain_balance_atomic env policy t (developer_treasury_address mp);
  ai ← chain_balance_atomic env policy t (ai_development_address mp);
  fees ← chain_balance_atomic env policy t (validator_settlement_fee_pool_chain_address mp);
  slashed ← chain_balance_atomic env policy t (validator_slash_pool_chain_address mp);
  tx_fees ← chain_balance_atomic env policy t (tx_fee_pool_chain_address mp);
  mret {| compute_reserve_balance_atomic := reserve; project_treasury_balance_atomic := treasury;
          ai_development_fee_pool_atomic := ai; validator_fee_pool_atomic := fees;
          validator_slashed_atomic := slashed; tx_fee_pool_atomic := tx_fees;
          worker_distributed_atomic := worker_distributed_atomic l;
          settlements_applied := settlements_applied l |}.

(** The debit of the source wallet: its balance before and after.  A wallet that is not local
    is only checked on the chain; a local wallet without chain activity is left alone. *)
Definition debit_source (t : Tick) (mp : MoneyPolicy) (s : SettlementRecord) : PM (option (Z * Z)) :=
  let debit := Z.max 0 (sr_source_wallet_debit_atomic s) in
  if debit <=? 0 then mret None
  else
    wallets ← pget py_wallets;
    _ ← on_chain_p (ensure_chain_genesis env policy t (Some mp));
    match some_or (find_wallet_by_id (sr_source_wallet_id s) wallets)
            (find_wallet_by_address (sr_source_wallet_address s) wallets) with
    | None =>
        before ← on_chain_p (chain_balance_atomic env policy t (sr_source_wallet_address s));
        if before <? debit then
          plift (Err (ValueError "Source wallet chain balance is insufficient to apply settlement."))
        else mret (Some (before, before - debit))
    | Some w =>
        active ← on_chain_p (read (has_chain_activity_for_address env policy (now t) (wr_address w)));
        if (active : bool) then
          before ← on_chain_p (chain_balance_atomic env policy t (wr_address w));
          if before <? debit then
            plift (Err (ValueError "Source wallet balance is insufficient to apply settlement."))
          else
            _ ← update_wallet (with_spendable w (before - debit));
            _ ← append_journal_entry {|
                  je_entry_id := token t; je_event_type := "validator_settlement_debit";
                  je_created_at := now t; je_wallet_id := wr_wallet_id w; je_amount_atomic := debit;
                  je_note := "Validator-applied debit for settlement " +:+ sr_settlement_id s +:+ "." |};
            mret (Some (before, before - debit))
        else mret None
    end.

(** The first part of [apply_finalized_settlement]: the settlement with its funding applied. *)
Definition apply_funding (t : Tick) (mp : MoneyPolicy) (validator_id : option string)
    (settlements : list SettlementRecord) (s : SettlementRecord) : PM SettlementRecord :=
  if filled (sr_applied_at s) then
    if String.eqb (sr_status s) "applied" then mret s
    else
      let s' := with_application s "applied" (sr_applied_at s) (sr_applied_by_validator_id s)
                  (sr_ai_development_credited_wallet_id s) (sr_balance_audit s) in
      _ ← save_item settlements s'; mret s'
  else
    stored ← pget py_ledger;
    ledger ← on_chain_p (chain_backed_ledger_snapshot t mp stored);
    if compute_reserve_balance_atomic ledger <? Z.max 0 (sr_reserve_debit_atomic s) then
      plift (Err (ValueError "Reserve balance is insufficient to apply settlement."))
    else
      wallet ← debit_source t mp s;
      let ledger' := applied_ledger ledger s in
      _ ← save_ledger ledger';
      audit ← plift (_with_applied_balance_audit s (compute_reserve_balance_atomic ledger)
                       (compute_reserve_balance_atomic ledger') wallet);
      let s' := with_application s "applied" (Some (now t)) validator_id
                  (sr_ai_development_credited_wallet_id s) audit in
      _ ← save_item settlements s'; mret s'.

Definition apply_finalized_settlement (t : Tick) (mp : MoneyPolicy) (settlement_id : string)
    (validator_id : option string) : PM (option SettlementRecord) :=
  settlements ← pget (λ st, list_settlements (s_settlements (py_settlement st)));
  match List.find (λ s, String.eqb (sr_settlement_id s) settlement_id) settlements with
  | None => mret None
  | Some s =>
      if negb (String.eqb (sr_status s) "finalized" || String.eqb (sr_status s) "applied")
      then mret (Some s)
      else
        s ← apply_funding t mp validator_id settlements s;
        fee ← _apply_finalized_ai_development_fee t s;
        let '(s, credited) := fee in
        _ ← (if (credited : bool) then save_item settlements s else mret tt);
        _ ← _apply_finalized_worker_payouts t s;
        _ ← on_settlements (record_chain_entries_for_settlement env policy t mp s);
        mret (Some s)
  end.

(** ** Attesting *)

(** The default of [apply_on_finalize] is [true]; a settlement that the vote finalises is then
    applied, with the money policy of the environment, and what that raises is raised. *)
Definition record_validator_attestation (t : Tick) (settlement_id validator_id : string)
    (accepted : bool) (note : option string) (apply_on_finalize : bool) : PM ValidatorAttestation :=
  recorded ← on_settlements
    (record_attestation (token t) (now t) settlement_id validator_id accepted note);
  let '(attestation, settlement) := recorded in
  let finalized :=
    match settlement with Some s => String.eqb (sr_status s) "finalized" | None => false end in
  if apply_on_finalize && finalized then
    _ ← apply_finalized_settlement t (default_money_policy env) settlement_id (Some validator_id);
    mret attestation
  else mret attestation.
End chain.
