(* ===== verification/PayoutProps.v ===== *)
(** * The workers are paid what the job computed

    The rewards [distribute_worker_reward] computes for a job are the ones the accounting of
    its settlement expects, and accounting without errors means that the money is exact. *)
From Stdlib Require Import Ascii QArith.
From S2P Require Import Prelude.
From S2P Require Import PyStr.
From S2P Require Import PyVal.
From S2P Require Import PyOrder.
From S2P Require Import Money.
From S2P Require Import Signing.
From S2P Require Import ChainTx.
From S2P Require Import Ledger.
From S2P Require Import LedgerFacts.
From S2P Require Import ChainStore.
From S2P Require Import ChainOps.
From S2P Require Import Apportion.
From S2P Require Import SettlementData.
From S2P Require Import Funding.
From S2P Require Import Validators.
From S2P Require Import Settlement.
From S2P Require Import Payouts.
Local Open Scope Z_scope.
Set Default Proof Using "Type".

(** ** Largest remainders, by rank

    Both computations sort the parties by remainder and id and hand one unit to each of the
    first ones.  When the ids differ, who gets a unit depends on the keys only. *)

Lemma remainder_leb_total x y : remainder_leb x y = true ∨ remainder_leb y x = true.
Proof.
  unfold remainder_leb. destruct (Z.lt_total x.1 y.1) as [H|[H|H]].
  - right. rewrite (proj2 (Z.ltb_lt _ _) H). done.
  - rewrite H, Z.eqb_refl, Z.ltb_irrefl. cbn. apply str_leb_total.
  - left. rewrite (proj2 (Z.ltb_lt _ _) H). done.
Qed.

Lemma remainder_leb_spec x y :
  remainder_leb x y = true ↔ y.1 < x.1 ∨ (x.1 = y.1 ∧ str_leb x.2 y.2 = true).
Proof. unfold remainder_leb. rewrite orb_true_iff, andb_true_iff, Z.ltb_lt, Z.eqb_eq. done. Qed.

Lemma remainder_leb_trans x y z : remainder_leb x y = true → remainder_leb y z = true → remainder_leb x z = true.
Proof.
  rewrite !remainder_leb_spec. intros [H1|[H1 H1']] [H2|[H2 H2']]; [left; lia..|].
  right. split; [lia|]. by eapply str_leb_trans.
Qed.

Lemma remainder_leb_antisym x y : remainder_leb x y = true → remainder_leb y x = true → x = y.
Proof.
  rewrite !remainder_leb_spec. destruct x as [a s], y as [b t]. cbn.
  intros [H1|[H1 H1']] [H2|[H2 H2']]; try lia. f_equal; [done|]. by apply str_leb_antisym.
Qed.

(** The number of keys that come before [k]. *)
Definition before (k k' : Z * string) : Prop := remainder_leb k' k = true ∧ k' ≠ k.
Definition rank (keys : list (Z * string)) (k : Z * string) : nat := length (filter (before k) keys).

Lemma rank_perm keys keys' k : keys ≡ₚ keys' → rank keys k = rank keys' k.
Proof. intros Hp. unfold rank. by rewrite Hp. Qed.

Lemma sorted_rank keys j k :
  StronglySorted (λ x y, remainder_leb x y = true) keys → NoDup keys → keys !! j = Some k →
  rank keys k = j.
Proof.
  intros Hs. revert j. induction Hs as [|x l Hl IH Hx]; intros j Hnd Hj; [done|].
  apply NoDup_cons in Hnd as [Hnot Hnd]. unfold rank. rewrite filter_cons.
  rewrite Forall_forall in Hx. destruct j as [|j]; cbn in Hj.
  - injection Hj as ->. rewrite decide_False by (by intros [_ ?]).
    rewrite filter_none; [done|]. apply Forall_forall. intros y Hy [Hle Hne].
    apply Hne, remainder_leb_antisym; [done|by apply Hx].
  - rewrite decide_True; [cbn; f_equal; by apply IH|].
    apply list_elem_of_lookup_2 in Hj. split; [by apply Hx|]. by intros ->.
Qed.

(** Units handed to the first [r] of a sorted list: who got one. *)
Lemma units_by_rank {A} (key : A → Z * string) (amount : A → Z) (bump : A → A) (l : list A) (r : nat) x :
  (∀ y, amount (bump y) = amount y + 1) → (∀ y, key (bump y) = key y) →
  StronglySorted (λ x y, remainder_leb (key x) (key y) = true) l → NoDup (map key l) →
  x ∈ foldl (λ l i, alter bump i l) l (seq 0 r) →
  ∃ x0, x0 ∈ l ∧ (x = x0 ∨ x = bump x0) ∧
    amount x = amount x0 + (if bool_decide (rank (map key l) (key x0) < r)%nat then 1 else 0).
Proof.
  intros Ha Hk Hs Hnd Hx. apply list_elem_of_lookup in Hx as [j Hj].
  rewrite bumps_lookup in Hj by apply NoDup_seq.
  assert (StronglySorted (λ x y, remainder_leb x y = true) (map key l)) as Hs'.
  { clear -Hs. induction Hs as [|y l Hl IH Hy]; cbn; constructor; [done|]. by apply Forall_map. }
  assert (∀ x0, l !! j = Some x0 → rank (map key l) (key x0) = j) as Hrank.
  { intros x0 H0. apply sorted_rank; [done|done|]. rewrite list_lookup_fmap, H0. done. }
  case_decide as Hin.
  - apply fmap_Some in Hj as (x0 & H0 & ->). exists x0. apply elem_of_seq in Hin.
    rewrite (Hrank _ H0), bool_decide_true by lia. split_and!; [by eapply list_elem_of_lookup_2|by right|apply Ha].
  - exists x. rewrite (Hrank _ Hj), bool_decide_false by (intros Hlt; apply Hin, elem_of_seq; lia).
    split_and!; [by eapply list_elem_of_lookup_2|by left|lia].
Qed.

Lemma foldl_mod_small {A} (f : A → A) (n : nat) (ks : list nat) (l : list A) :
  Forall (λ i, (i < n)%nat) ks →
  foldl (λ l i, alter f (i mod n)%nat l) l ks = foldl (λ l i, alter f i l) l ks.
Proof.
  intros Hks. revert l. induction Hks as [|i ks Hi Hks IH]; intros l; cbn [foldl]; [done|].
  by rewrite Nat.mod_small, IH.
Qed.

(** ** The award of a party

    A party is its weight and its node. *)
Definition party_key (total weight : Z) (e : Z * string) : Z * string := (total * e.1 mod weight, e.2).

Definition leftover_units (total : Z) (parties : list (Z * string)) : Z :=
  total - sumZ (map (λ e, total * e.1 / sumZ (map fst parties)) parties).

Definition award (total : Z) (parties : list (Z * string)) (e : Z * string) : Z :=
  let weight := sumZ (map fst parties) in
  total * e.1 / weight
  + (if bool_decide (rank (map (party_key total weight) parties) (party_key total weight e)
                     < Z.to_nat (leftover_units total parties))%nat then 1 else 0).

Lemma award_perm total parties parties' e : parties ≡ₚ parties' → award total parties e = award total parties' e.
Proof.
  intros Hp. unfold award, leftover_units.
  assert (sumZ (map fst parties) = sumZ (map fst parties')) as -> by (apply sumZ_perm; by rewrite Hp).
  rewrite (sumZ_perm (map _ parties) (map (λ e, total * e.1 / sumZ (map fst parties')) parties')) by (by rewrite Hp).
  by rewrite (rank_perm _ (map (party_key total (sumZ (map fst parties'))) parties')) by (by rewrite Hp).
Qed.

Lemma party_keys_nodup total weight parties : NoDup (map snd parties) → NoDup (map (party_key total weight) parties).
Proof.
  intros Hnd. apply (NoDup_fmap_1 snd). by rewrite <- list_fmap_compose.
Qed.

(** ** The rewards of a job *)

Definition share_party (r : RewardShare) : Z * string := (rw_layer_count r, rw_node_id r).
Definition participant_party (p : Participant) : Z * string := (layer_weight p, pa_node_id p).

Lemma distributed_award total ps r :
  NoDup (map pa_node_id ps) → r ∈ distribute_worker_reward total ps →
  rw_reward_atomic r = award total (map participant_party ps) (share_party r).
Proof.
  intros Hnd. unfold distribute_worker_reward. destruct (Z.leb_spec total 0) as [|Htotal]; [by intros ?%not_elem_of_nil|].
  case_bool_decide as Hps; cbn [orb]; [by intros ?%not_elem_of_nil|].
  fold (weights ps). rewrite (proj2 (Z.leb_gt _ _) (weights_pos ps Hps)).
  fold (leftover total ps). fold (parts total ps). fold (paid total ps).
  rewrite elem_of_py_sorted. intros (x & -> & Hx)%list_elem_of_fmap.
  rewrite (paid_direct total ps Htotal Hps) in Hx.
  assert (parts total ps ≡ₚ map (raw_part total (weights ps)) ps) as Hperm by apply py_sorted_perm.
  apply (units_by_rank (λ x, (x.1.2, pa_node_id x.2)) (λ x, x.1.1) bump_part) in Hx
    as (x0 & H0 & Heq & Hamount); [| done|done| |].
  - rewrite Hperm in H0. apply list_elem_of_fmap in H0 as (p & -> & Hp).
    unfold award, share_party, leftover_units. cbn [rw_reward_atomic rw_layer_count rw_node_id fst snd].
    rewrite Hamount. rewrite !map_map. cbn [participant_party fst snd].
    assert (x.2 = p) as -> by (by destruct Heq as [->| ->]).
    change (sumZ (map (λ x1, layer_weight x1) ps)) with (weights ps).
    assert (Hlo : total - sumZ (map (λ x1, total * layer_weight x1 / weights ps) ps) = leftover total ps).
    { unfold leftover. by rewrite map_map. }
    change (λ x1 : Participant, total * (layer_weight x1, pa_node_id x1).1 / weights ps)
      with (λ x1, total * layer_weight x1 / weights ps). rewrite Hlo.
    rewrite (rank_perm _ (map (λ x1, party_key total (weights ps) (participant_party x1)) ps)); [done|].
    rewrite Hperm, map_map. done.
  - unfold parts. apply (py_sorted_sorted part_leb); unfold part_leb.
    + intros. apply remainder_leb_total.
    + intros ???. apply remainder_leb_trans.
  - rewrite Hperm, map_map. cbn [raw_part fst snd].
    apply (NoDup_fmap_1 snd). rewrite <- list_fmap_compose. exact Hnd.
Qed.

Lemma distributed_parties total ps :
  0 < total → ps ≠ [] → map share_party (distribute_worker_reward total ps) ≡ₚ map participant_party ps.
Proof.
  intros Htotal Hps. unfold distribute_worker_reward. rewrite (proj2 (Z.leb_gt _ _) Htotal).
  rewrite bool_decide_eq_false_2 by done. cbn [orb]. fold (weights ps).
  rewrite (proj2 (Z.leb_gt _ _) (weights_pos ps Hps)).
  fold (leftover total ps). fold (parts total ps). fold (paid total ps).
  rewrite (Permutation_map _ (py_sorted_perm reward_leb _)), map_map.
  rewrite <- (paid_participants total ps Htotal Hps) at 2. by rewrite map_map.
Qed.

(** ** The expected rewards of the accounting *)

Definition payout_party (p : WorkerPayoutRecord) : Z * string := (payout_weight p, wp_node_id p).

Section audit.
Context (total : Z) (payouts : list WorkerPayoutRecord) (Htotal : 0 < total) (Hne : payouts ≠ []).

Definition audit_weight : Z := sumZ (map payout_weight payouts).

Lemma audit_weight_pos : 0 < audit_weight.
Proof using Hne.
  unfold audit_weight. destruct payouts as [|p l]; [done|]. cbn [map sumZ].
  assert (0 ≤ sumZ (map payout_weight l)).
  { apply sumZ_nonneg, Forall_map, Forall_forall. intros x _. unfold payout_weight. cbn. lia. }
  unfold payout_weight at 1. lia.
Qed.

Definition raw_parts : list split_part := map (split_raw_part total audit_weight) payouts.
Definition audit_leftover : Z := total - sumZ (map sp_expected raw_parts).

Lemma audit_leftover_bounds : 0 ≤ audit_leftover < Z.of_nat (length payouts).
Proof using Htotal Hne.
  pose proof (floors_leave total (map payout_weight payouts)) as Hf. fold audit_weight in Hf.
  unfold audit_leftover, raw_parts. rewrite map_map, length_map in Hf. rewrite map_map.
  apply Hf; [lia| |apply audit_weight_pos].
  apply Forall_map, Forall_forall. intros x _. unfold payout_weight. cbn. lia.
Qed.

Definition sorted_parts : list split_part := py_sorted split_leb raw_parts.

Lemma sorted_parts_perm : sorted_parts ≡ₚ raw_parts.
Proof. apply py_sorted_perm. Qed.

Lemma sorted_parts_length : length sorted_parts = length payouts.
Proof. unfold sorted_parts, raw_parts. by rewrite py_sorted_length, length_map. Qed.

(** The units that are left are fewer than the payouts: the index never wraps around. *)
Lemma hand_out_units_direct :
  hand_out_units audit_leftover sorted_parts
  = foldl (λ l i, alter add_unit i l) sorted_parts (seq 0 (Z.to_nat audit_leftover)).
Proof using Htotal Hne.
  unfold hand_out_units. pose proof audit_leftover_bounds as Hb. rewrite <- sorted_parts_length in Hb.
  apply foldl_mod_small, Forall_forall. intros i Hi%elem_of_seq. lia.
Qed.

Lemma paid_part s :
  NoDup (map wp_node_id payouts) → s ∈ reward_parts total payouts →
  sp_payout s ∈ payouts ∧ sp_expected s = award total (map payout_party payouts) (payout_party (sp_payout s)).
Proof using Htotal Hne.
  intros Hnd. unfold reward_parts. fold audit_weight. fold raw_parts. fold audit_leftover. fold sorted_parts.
  rewrite elem_of_sorted_by, hand_out_units_direct. intros Hx.
  apply (units_by_rank (λ x, (sp_remainder x, wp_node_id (sp_payout x))) sp_expected add_unit) in Hx
    as (x0 & H0 & Heq & Hamount); [|done|done| |].
  - rewrite sorted_parts_perm in H0. apply list_elem_of_fmap in H0 as (p & -> & Hp).
    assert (sp_payout s = p) as -> by (by destruct Heq as [->| ->]). split; [done|].
    rewrite Hamount. unfold award, leftover_units. rewrite !map_map. cbn [payout_party fst snd].
    change (sumZ (map (λ x, payout_weight x) payouts)) with audit_weight.
    assert (Hlo : total - sumZ (map (λ x, total * payout_weight x / audit_weight) payouts) = audit_leftover).
    { unfold audit_leftover, raw_parts. by rewrite map_map. }
    change (λ x : WorkerPayoutRecord, total * (payout_weight x, wp_node_id x).1 / audit_weight)
      with (λ x, total * payout_weight x / audit_weight). rewrite Hlo.
    rewrite (rank_perm _ (map (λ x, party_key total audit_weight (payout_party x)) payouts)); [done|].
    rewrite sorted_parts_perm. unfold raw_parts. rewrite map_map. done.
  - unfold sorted_parts. apply (py_sorted_sorted split_leb); unfold split_leb.
    + intros. apply remainder_leb_total.
    + intros ???. apply remainder_leb_trans.
  - rewrite sorted_parts_perm. unfold raw_parts. rewrite map_map. cbn [split_raw_part sp_payout sp_remainder].
    apply (NoDup_fmap_1 snd). rewrite <- list_fmap_compose. exact Hnd.
Qed.

(** Every payout has a part. *)
Lemma part_payouts : map sp_payout (reward_parts total payouts) ≡ₚ payouts.
Proof using Htotal Hne.
  unfold reward_parts. fold audit_weight. fold raw_parts. fold audit_leftover. fold sorted_parts.
  rewrite sorted_by_perm, hand_out_units_direct. trans (map sp_payout sorted_parts).
  - generalize (seq 0 (Z.to_nat audit_leftover)). intros ks. generalize sorted_parts.
    induction ks as [|k ks IH]; intros l; cbn [foldl]; [done|]. rewrite IH. clear IH.
    assert (map sp_payout (alter add_unit k l) = map sp_payout l) as ->; [|done].
    revert k. induction l as [|x l IH]; intros [|k]; cbn; [done..|]. by rewrite IH.
  - rewrite sorted_parts_perm. unfold raw_parts. rewrite map_map. cbn. by rewrite map_id.
Qed.

Lemma reward_parts_nonempty : reward_parts total payouts ≠ [].
Proof using Htotal Hne.
  intros E. pose proof part_payouts as Hp. rewrite E in Hp. by apply Permutation_nil in Hp.
Qed.
End audit.

(** ** Accounting without errors *)

(** The money of a settlement and its payouts is exact: the fees are the policy's shares of
    the compute cost, the rewards and the fees make up the cost, and every payout is what its
    layers earn. *)
Record exact_accounting (s : SettlementRecord) (payouts : list WorkerPayoutRecord) (mp : MoneyPolicy)
  : Prop := {
  ea_validator_fee :
    Z.max 0 (sr_settlement_fee_atomic s)
    = Z.max 0 (sr_compute_cost_atomic s) * validator_settlement_fee_bps mp / 10000;
  ea_ai_fee :
    Z.max 0 (sr_ai_development_fee_atomic s)
    = Z.max 0 (sr_compute_cost_atomic s) * ai_development_fee_bps mp / 10000;
  ea_rewards :
    sumZ (map (λ p, Z.max 0 (wp_reward_atomic p)) payouts) = Z.max 0 (sr_worker_reward_atomic s);
  ea_total :
    Z.max 0 (sr_worker_reward_atomic s) + Z.max 0 (sr_settlement_fee_atomic s)
    + Z.max 0 (sr_ai_development_fee_atomic s) = Z.max 0 (sr_compute_cost_atomic s);
  ea_payouts :
    0 < sr_worker_reward_atomic s →
    payouts ≠ [] ∧
    ∀ p, p ∈ payouts →
      wp_reward_atomic p = award (sr_worker_reward_atomic s) (map payout_party payouts) (payout_party p)
}.

Lemma split_matches_correct s payouts mp :
  NoDup (map wp_node_id payouts) →
  split_matches (_settlement_worker_payout_accounting s payouts mp) = true
  ↔ (0 < sr_worker_reward_atomic s →
     payouts ≠ [] ∧
     ∀ p, p ∈ payouts →
       wp_reward_atomic p = award (sr_worker_reward_atomic s) (map payout_party payouts) (payout_party p)).
Proof.
  intros Hnd. unfold split_matches. cbn [_settlement_worker_payout_accounting wa_split wa_expected_reward].
  unfold _deterministic_worker_payout_split. destruct (Z.leb_spec (Z.max 0 (sr_worker_reward_atomic s)) 0) as [Hz|Hz].
  - cbn [orb]. split; [intros _; lia|]. intros _. apply Z.eqb_eq. lia.
  - cbn [orb]. rewrite Z.max_r by lia. assert (0 < sr_worker_reward_atomic s) as Hpos by lia.
    case_bool_decide as Hlen.
    + split; [intros Hw%Z.eqb_eq; lia|]. intros Hp. destruct (Hp Hpos) as [Hne _]. by destruct payouts.
    + assert (payouts ≠ []) as Hne by (by intros ->).
      pose proof (part_payouts _ _ Hpos Hne) as Hpart. pose proof (reward_parts_nonempty _ _ Hpos Hne) as Hrne.
      pose proof (λ s', paid_part _ _ Hpos Hne s' Hnd) as Hpaid.
      destruct (reward_parts _ _) as [|x l] eqn:E; [done|]. rewrite <- E in *. clear E x l.
      rewrite forallb_forall. split.
      * intros Hall _. split; [done|]. intros p Hp. rewrite <- Hpart in Hp.
        apply list_elem_of_fmap in Hp as (x & -> & Hx). trans (sp_expected x); [|by apply Hpaid].
        specialize (Hall x). rewrite <- list_elem_of_In in Hall. by apply Z.eqb_eq, Hall.
      * intros Hp x Hx. rewrite <- list_elem_of_In in Hx. destruct (Hpaid x Hx) as [Hin He].
        unfold reward_matches_expected. rewrite He. apply Z.eqb_eq, (proj2 (Hp Hpos)), Hin.
Qed.

Lemma accounting_valid_iff s payouts mp :
  NoDup (map wp_node_id payouts) →
  validate_settlement_accounting s payouts mp = [] ↔ exact_accounting s payouts mp.
Proof.
  intros Hnd. unfold validate_settlement_accounting.
  rewrite !app_nil, !err_if_nil, !negb_false_iff, !Z.eqb_eq, (split_matches_correct _ _ _ Hnd).
  unfold wa_total. cbn [_settlement_worker_payout_accounting wa_recorded_reward wa_expected_reward wa_settlement_fee
    wa_ai_fee wa_compute_cost wa_expected_settlement_fee wa_expected_ai_fee].
  split.
  - intros (Hr & Hs & Ht & Hf & Ha). constructor; [done|done|done|lia|done].
  - intros [Hf Ha Hr Ht Hs]. split_and!; [done|done|lia|done|done].
Qed.

(** ** From the job to its payouts *)

Section job.
Context (t t' : Tick) (payout_id : nat → string) (mp : MoneyPolicy).
Context (settlement_id receipt_id model_id : string) (rewards : gmap string string).

Definition records_of (shares : list RewardShare) : list WorkerPayoutRecord :=
  map (λ x, new_payout t' (payout_id x.1) settlement_id receipt_id model_id mp rewards x.2)
    (enumerate shares).

Lemma records_map {A} (f : WorkerPayoutRecord → A) (g : RewardShare → A) shares :
  (∀ i x, x ∈ shares → f (new_payout t' i settlement_id receipt_id model_id mp rewards x) = g x) →
  map f (records_of shares) = map g shares.
Proof.
  intros Hfg. unfold records_of. rewrite map_map.
  assert (∀ n, map (λ x : nat * RewardShare, f (new_payout t' (payout_id x.1) settlement_id receipt_id
    model_id mp rewards x.2)) (enumerate_from n shares) = map g shares) as Hgen; [|apply Hgen].
  induction shares as [|x l IH]; intros n; cbn; [done|].
  rewrite Hfg by set_solver. f_equal. apply IH. intros i y Hy. apply Hfg. set_solver.
Qed.

Lemma records_elem shares p :
  p ∈ records_of shares →
  ∃ i x, x ∈ shares ∧ p = new_payout t' i settlement_id receipt_id model_id mp rewards x.
Proof.
  unfold records_of. intros ([n x] & -> & Hx)%list_elem_of_fmap. exists (payout_id n), x. split; [|done].
  cbn [fst snd]. revert Hx. generalize 0%nat at 1. induction shares as [|y l IH]; intros k; cbn.
  - by intros ?%not_elem_of_nil.
  - intros [[= -> ->]|Hx]%elem_of_cons; [set_solver|]. apply elem_of_cons. right. by apply (IH (S k)).
Qed.
End job.

Lemma distributed_layers total ps r :
  r ∈ distribute_worker_reward total ps → 1 ≤ rw_layer_count r.
Proof.
  unfold distribute_worker_reward. destruct (_ || _); [by intros ?%not_elem_of_nil|].
  rewrite elem_of_py_sorted. intros (x & -> & _)%list_elem_of_fmap. cbn. unfold layer_weight. lia.
Qed.

Lemma records_parties t' payout_id mp i r m rewards total ps :
  map payout_party (records_of t' payout_id mp i r m rewards (distribute_worker_reward total ps))
  = map share_party (distribute_worker_reward total ps).
Proof.
  apply records_map. intros j x Hx%distributed_layers. unfold payout_party, share_party, payout_weight.
  cbn [new_payout wp_layer_count wp_node_id]. by rewrite Z.max_l by lia.
Qed.

(** The fees and the reward of a quote make up the cost. *)
Lemma fee_quote_total c mp tx q :
  build_fee_quote c mp tx = Ok q → 0 ≤ c →
  0 ≤ validator_settlement_fee_bps mp → 0 ≤ ai_development_fee_bps mp →
  validator_settlement_fee_bps mp + ai_development_fee_bps mp ≤ 10000 →
  fq_compute_cost_atomic q = c
  ∧ fq_settlement_fee_atomic q = c * validator_settlement_fee_bps mp / 10000
  ∧ fq_ai_development_fee_atomic q = c * ai_development_fee_bps mp / 10000
  ∧ 0 ≤ fq_settlement_fee_atomic q ∧ 0 ≤ fq_ai_development_fee_atomic q
  ∧ 0 ≤ fq_worker_reward_atomic q
  ∧ fq_worker_reward_atomic q + fq_settlement_fee_atomic q + fq_ai_development_fee_atomic q = c.
Proof.
  unfold build_fee_quote. intros (f & _ & [= <-])%bind_ok Hc Hv Ha Hsum. cbn.
  set (fv := c * validator_settlement_fee_bps mp / 10000). set (fa := c * ai_development_fee_bps mp / 10000).
  assert (10000 * fv ≤ c * validator_settlement_fee_bps mp) by (apply Z.mul_div_le; lia).
  assert (10000 * fa ≤ c * ai_development_fee_bps mp) by (apply Z.mul_div_le; lia).
  assert (0 ≤ fv) by (apply Z.div_pos; nia). assert (0 ≤ fa) by (apply Z.div_pos; nia).
  assert (fv + fa ≤ c) by nia. split_and!; lia.
Qed.

Lemma distributed_sum total ps :
  0 ≤ total → ps ≠ [] →
  sumZ (map (λ r, Z.max 0 (rw_reward_atomic r)) (distribute_worker_reward total ps)) = total.
Proof.
  intros Htotal Hps. destruct (decide (total = 0)) as [->|Hne].
  - unfold distribute_worker_reward. by rewrite (proj2 (Z.leb_le 0 0)) by done.
  - destruct (distribute_worker_reward_exact total ps ltac:(lia) Hps) as (Hsum & _ & Hall).
    rewrite <- Hsum at 2. f_equal. apply map_ext_in. intros r Hr%list_elem_of_In.
    pose proof (distributed_layers _ _ _ Hr). rewrite Forall_forall in Hall. specialize (Hall r Hr).
    pose proof (weights_pos ps Hps). assert (0 ≤ total * rw_layer_count r / weights ps) by (apply Z.div_pos; nia). lia.
Qed.

Lemma job_records_exact t' payout_id mp i r m rewards c tx q ps s :
  build_fee_quote c mp tx = Ok q → 0 ≤ c →
  0 ≤ validator_settlement_fee_bps mp → 0 ≤ ai_development_fee_bps mp →
  validator_settlement_fee_bps mp + ai_development_fee_bps mp ≤ 10000 →
  NoDup (map pa_node_id ps) → ps ≠ [] →
  sr_compute_cost_atomic s = fq_compute_cost_atomic q →
  sr_settlement_fee_atomic s = fq_settlement_fee_atomic q →
  sr_ai_development_fee_atomic s = fq_ai_development_fee_atomic q →
  sr_worker_reward_atomic s = fq_worker_reward_atomic q →
  let records := records_of t' payout_id mp i r m rewards (distribute_worker_reward (fq_worker_reward_atomic q) ps) in
  exact_accounting s records mp ∧ NoDup (map wp_node_id records).
Proof.
  intros Hq Hc Hv Ha Hsum Hnd Hps Es1 Es2 Es3 Es4 records.
  destruct (fee_quote_total _ _ _ _ Hq Hc Hv Ha Hsum) as (E1 & E2 & E3 & P2 & P3 & P4 & Et).
  set (total := fq_worker_reward_atomic q) in *.
  assert (Hrew : map (λ p, Z.max 0 (wp_reward_atomic p)) records
    = map (λ x, Z.max 0 (rw_reward_atomic x)) (distribute_worker_reward total ps)) by (by apply records_map).
  split.
  - constructor.
    + rewrite Es2, Es1, E1, !Z.max_r by lia. done.
    + rewrite Es3, Es1, E1, !Z.max_r by lia. done.
    + rewrite Hrew, Es4, Z.max_r by lia. by apply distributed_sum.
    + rewrite Es1, Es2, Es3, Es4, E1, !Z.max_r by lia. done.
    + rewrite Es4. intros Hpos. pose proof (distributed_parties total ps Hpos Hps) as Hparties.
      unfold records. rewrite records_parties. split.
      * intros E. apply (f_equal (map payout_party)) in E. rewrite records_parties in E. cbn in E.
        rewrite E in Hparties. apply Permutation_nil in Hparties. by destruct ps.
      * intros p (j & x & Hx & ->)%records_elem. rewrite (award_perm _ _ _ _ Hparties).
        cbn [wp_reward_atomic new_payout]. rewrite (distributed_award _ _ _ Hnd Hx). f_equal.
        unfold share_party, payout_party, payout_weight. cbn [new_payout wp_layer_count wp_node_id].
        apply distributed_layers in Hx. by rewrite Z.max_l by lia.
  - destruct (decide (0 < total)) as [Hpos|Hz].
    + assert (map wp_node_id records = map snd (map payout_party records)) as -> by (by rewrite map_map).
      unfold records. rewrite records_parties, (Permutation_map _ (distributed_parties total ps Hpos Hps)), map_map.
      done.
    + unfold records, distribute_worker_reward. rewrite (proj2 (Z.leb_le total 0)) by lia. constructor.
Qed.

(** ** Running the operations *)

Lemma PM_bind_eq {A B} (m : PM A) (f : A → PM B) st :
  (m ≫= f) st = match m st with (st', Ok a) => f a st' | (st', Err e) => (st', Err e) end.
Proof. done. Qed.

(** The store after recording payouts: the payouts are appended, the audit of the settlement
    is saved; nothing else changes. *)
Definition recorded_store (st : PayoutStore) (s : SettlementRecord) (records : list WorkerPayoutRecord)
    (audit : list (string * pyval)) : PayoutStore :=
  let ss := py_settlement st in
  with_settlement st
    {| s_chain := s_chain ss;
       s_settlements := update_settlement (sr_settlement_id s) (λ x, with_balance_audit x audit)
                          (list_settlements (s_settlements ss));
       s_payouts := list_worker_payouts None (s_payouts ss) ++ records;
       s_attestations := s_attestations ss; s_validators := s_validators ss; s_rewards := s_rewards ss |}.

Definition with_settlements (ss : SettlementStore) (l : list SettlementRecord) : SettlementStore := {|
  s_chain := s_chain ss; s_settlements := l; s_payouts := s_payouts ss;
  s_attestations := s_attestations ss; s_validators := s_validators ss; s_rewards := s_rewards ss |}.

Lemma save_audit_stored s audit st :
  resolve_settlement (sr_settlement_id s) (s_settlements (py_settlement st)) = Some s →
  save_audit s audit st
  = (with_settlement st
       (with_settlements (py_settlement st)
          (update_settlement (sr_settlement_id s) (λ x, with_balance_audit x audit)
             (list_settlements (s_settlements (py_settlement st))))),
     Ok (with_balance_audit s audit)).
Proof.
  intros Hres. unfold resolve_settlement in Hres. unfold save_audit. rewrite PM_bind_eq. unfold pget.
  rewrite PM_bind_eq, Hres. unfold on_settlements, _save_settlement_balance_audit, mbind, SM_bind, sget.
  by rewrite Hres.
Qed.

Lemma record_payouts_ok t payout_id settlement_id receipt_id model_id participants mp st s :
  resolve_settlement settlement_id (s_settlements (py_settlement st)) = Some s →
  (∀ p, p ∈ s_payouts (py_settlement st) → wp_settlement_id p ≠ settlement_id) →
  is_applied s = false →
  let records := records_of t payout_id mp settlement_id receipt_id model_id
                   (s_rewards (py_settlement st)) participants in
  validate_settlement_accounting s records mp = [] →
  record_worker_payouts t payout_id settlement_id receipt_id model_id participants mp st
  = (recorded_store st s records (_with_worker_payout_accounting_audit s records mp), Ok records).
Proof.
  intros Hres Hfresh Happ records Hval.
  assert (sr_settlement_id s = settlement_id) as Hid.
  { unfold resolve_settlement in Hres. apply List.find_some in Hres as [_ E]. by apply String.eqb_eq in E. }
  unfold record_worker_payouts. rewrite PM_bind_eq. unfold pget at 1. rewrite Hres.
  rewrite PM_bind_eq. unfold pget at 1.
  assert (receipt_payouts settlement_id receipt_id (s_payouts (py_settlement st)) = []) as ->.
  { unfold receipt_payouts. rewrite filter_none; [done|]. apply Forall_forall. intros p Hp [E _].
    by apply (Hfresh p Hp). }
  rewrite PM_bind_eq. unfold pget at 1. rewrite PM_bind_eq. unfold pget at 1.
  fold (records_of t payout_id mp settlement_id receipt_id model_id (s_rewards (py_settlement st)) participants).
  fold records. rewrite Hval. rewrite PM_bind_eq. cbn [on_settlements save_worker_payouts].
  rewrite !PM_bind_eq. rewrite save_audit_stored by (cbn; by rewrite Hid).
  unfold mret, PM_ret, paid_out.
  assert (is_applied (with_balance_audit s (_with_worker_payout_accounting_audit s records mp)) = false) as ->
    by exact Happ.
  unfold recorded_store. rewrite Hid. done.
Qed.

Lemma resolve_fresh i s settlements :
  sr_settlement_id s = i → i ∉ map sr_settlement_id settlements →
  resolve_settlement i (settlements ++ [s]) = Some s.
Proof.
  intros Hid Hfresh. unfold resolve_settlement, list_settlements, newest_first.
  set (l := py_sorted _ _). assert (l ≡ₚ settlements ++ [s]) as Hperm by apply py_sorted_perm.
  destruct (List.find _ l) as [x|] eqn:E.
  - apply List.find_some in E as [Hin Hx]. apply String.eqb_eq in Hx. rewrite <- list_elem_of_In, Hperm in Hin.
    apply elem_of_app in Hin as [Hin|Hin%list_elem_of_singleton]; [|by subst].
    destruct Hfresh. rewrite <- Hx. by apply list_elem_of_fmap_2.
  - assert (s ∈ l) as Hin by (rewrite Hperm; set_solver). rewrite list_elem_of_In in Hin.
    apply (List.find_none _ _ E) in Hin. by rewrite Hid, String.eqb_refl in Hin.
Qed.

Section funded.
Context (lottery_key : string → string → Z → Q).

Lemma funding_settlement_shape t bonded w a d note mp sync st st1 s :
  record_funding_settlement lottery_key t bonded w a d note mp sync st = (st1, Ok s) →
  let ss := py_settlement st in
  st1 = with_settlement st
          {| s_chain := s_chain ss; s_settlements := list_settlements (s_settlements ss) ++ [s];
             s_payouts := s_payouts ss; s_attestations := s_attestations ss;
             s_validators := s_validators ss; s_rewards := s_rewards ss |}
  ∧ sr_settlement_id s = token t ∧ is_applied s = false
  ∧ sr_compute_cost_atomic s = fq_compute_cost_atomic (fd_fee_quote d)
  ∧ sr_settlement_fee_atomic s = fq_settlement_fee_atomic (fd_fee_quote d)
  ∧ sr_ai_development_fee_atomic s = fq_ai_development_fee_atomic (fd_fee_quote d)
  ∧ sr_worker_reward_atomic s = fq_worker_reward_atomic (fd_fee_quote d).
Proof.
  unfold record_funding_settlement. destruct (fd_funding_source d); [|done].
  rewrite PM_bind_eq. unfold pget at 1. rewrite PM_bind_eq. cbn [on_settlements save_settlements].
  intros [= <- <-]. by split_and!.
Qed.

(** A job's settlement, opened from a funding decision with the policy's fees, accepts the
    rewards the job distributed: when the participants are distinct nodes, recording their
    payouts succeeds, stores exactly one payout per participant, and the money is exact (the
    fees are the policy's shares of the cost, rewards and fees make up the cost, every payout
    is what its layers earn by largest remainders). *)
Theorem job_payouts_recorded t t' payout_id bonded w a d note mp sync c tx receipt_id model_id ps st st1 s :
  build_fee_quote c mp tx = Ok (fd_fee_quote d) → 0 ≤ c →
  0 ≤ validator_settlement_fee_bps mp → 0 ≤ ai_development_fee_bps mp →
  validator_settlement_fee_bps mp + ai_development_fee_bps mp ≤ 10000 →
  NoDup (map pa_node_id ps) → ps ≠ [] →
  token t ∉ map sr_settlement_id (s_settlements (py_settlement st)) →
  (∀ p, p ∈ s_payouts (py_settlement st) → wp_settlement_id p ≠ token t) →
  record_funding_settlement lottery_key t bonded w a d note mp sync st = (st1, Ok s) →
  let shares := distribute_worker_reward (sr_worker_reward_atomic s) ps in
  let records := records_of t' payout_id mp (sr_settlement_id s) receipt_id model_id
                   (s_rewards (py_settlement st)) shares in
  record_worker_payouts t' payout_id (sr_settlement_id s) receipt_id model_id shares mp st1
  = (recorded_store st1 s records (_with_worker_payout_accounting_audit s records mp), Ok records)
  ∧ exact_accounting s records mp
  ∧ (0 < sr_worker_reward_atomic s → map wp_node_id records ≡ₚ map pa_node_id ps).
Proof.
  intros Hq Hc Hv Ha Hsum Hnd Hps Hfresh Hfreshp Hrun.
  destruct (funding_settlement_shape _ _ _ _ _ _ _ _ _ _ _ Hrun) as (-> & Hid & Happ & E1 & E2 & E3 & E4).
  destruct (job_records_exact t' payout_id mp (sr_settlement_id s) receipt_id model_id
    (s_rewards (py_settlement st)) c tx _ ps s Hq Hc Hv Ha Hsum Hnd Hps E1 E2 E3 E4) as [Hexact Hnodes].
  rewrite <- E4 in Hexact, Hnodes. intros shares records. split_and!; [|done|].
  - apply record_payouts_ok.
    + cbn [py_settlement with_settlement s_settlements]. apply resolve_fresh; [done|]. rewrite Hid.
      unfold list_settlements, newest_first. intros Hin. apply Hfresh.
      by rewrite (Permutation_map _ (py_sorted_perm _ _)) in Hin.
    + cbn [py_settlement with_settlement s_payouts]. rewrite Hid. exact Hfreshp.
    + exact Happ.
    + by apply accounting_valid_iff.
  - intros Hpos. assert (map wp_node_id records = map snd (map payout_party records)) as -> by (by rewrite map_map).
    unfold records, shares. rewrite records_parties.
    rewrite (Permutation_map _ (distributed_parties _ ps Hpos Hps)). by rewrite map_map.
Qed.
End funded.

(** C31: the accounting of a settlement whose payouts go to distinct nodes has no error exactly
    when the money is exact: each fee is the policy's share of the compute cost, the rewards
    add up to the settlement's reward, reward and fees make up the cost, and every payout is
    what its layers earn by largest remainders. *)
Theorem accounting_decides_exactness s payouts mp :
  NoDup (map wp_node_id payouts) →
  validate_settlement_accounting s payouts mp = [] ↔ exact_accounting s payouts mp.
Proof. apply accounting_valid_iff. Qed.
