(* ===== verification/PayoutCredit.v ===== *)
(** * Payouts are credited once

    Whatever is recorded, applied and reconciled in whatever order, the balance of a local
    wallet grows by exactly the payouts credited to it. *)
From Stdlib Require Import Ascii QArith.
From S2P Require Import Prelude.
From S2P Require Import PyStr.
From S2P Require Import PyVal.
From S2P Require Import PyOrder.
From S2P Require Import Money.
From S2P Require Import Signing.
From S2P Require Import ChainTx.
From S2P Require Import Ledger.
From S2P Require Import ChainStore.
From S2P Require Import Apportion.
From S2P Require Import SettlementData.
From S2P Require Import Settlement.
From S2P Require Import Demo.
From S2P Require Import SettlementProps.
From S2P Require Import Payouts.
From S2P Require Import PayoutProps.
Local Open Scope Z_scope.
Set Default Proof Using "Type".

(** ** Wallets *)

Definition wallet_ids (l : list WalletRecord) : list string := map wr_wallet_id l.

(** The balance of the wallet with an id; zero when there is none. *)
Definition wallet_balance (x : string) (l : list WalletRecord) : Z :=
  match find_wallet_by_id x l with Some w => spendable_balance_atomic w | None => 0 end.

Lemma find_wallet_elem (f : WalletRecord → bool) l w : List.find f l = Some w → w ∈ l.
Proof. intros H. apply List.find_some in H as [H _]. by apply list_elem_of_In. Qed.

Lemma put_wallet_spec w b l :
  NoDup (wallet_ids l) → w ∈ l →
  ∃ l', put_wallet (with_spendable w b) l = Some l' ∧ wallet_ids l' = wallet_ids l
    ∧ ∀ x, wallet_balance x l' =
           if String.eqb x (wr_wallet_id w) then b else wallet_balance x l.
Proof.
  unfold wallet_balance, find_wallet_by_id.
  induction l as [|y l IH]; [by intros _ ?%not_elem_of_nil|]. intros [Hy Hnd]%NoDup_cons Hw.
  cbn [put_wallet List.find wr_wallet_id with_spendable].
  destruct (String.eqb_spec (wr_wallet_id y) (wr_wallet_id w)) as [E|E].
  - eexists. split_and!; [done|cbn; by rewrite E|]. intros x. cbn.
    destruct (String.eqb_spec x (wr_wallet_id w)) as [->|Hx]; [by rewrite String.eqb_refl|].
    assert (String.eqb (wr_wallet_id w) x = false) as -> by (apply String.eqb_neq; congruence).
    assert (String.eqb (wr_wallet_id y) x = false) as -> by (apply String.eqb_neq; congruence). done.
  - apply elem_of_cons in Hw as [->|Hw]; [done|].
    destruct (IH Hnd Hw) as (l' & -> & Hids & Hbal). eexists. split_and!; [done|cbn; unfold wallet_ids in Hids; by rewrite Hids|].
    intros x. cbn [List.find]. destruct (String.eqb_spec (wr_wallet_id y) x) as [<-|Hx].
    + by rewrite (proj2 (String.eqb_neq _ _)) by done.
    + apply Hbal.
Qed.

Lemma balance_member l w : NoDup (wallet_ids l) → w ∈ l → wallet_balance (wr_wallet_id w) l = spendable_balance_atomic w.
Proof.
  unfold wallet_balance, find_wallet_by_id. induction l as [|y l IH]; [by intros _ ?%not_elem_of_nil|].
  intros [Hy Hnd]%NoDup_cons [->|Hw]%elem_of_cons; cbn [List.find]; [by rewrite String.eqb_refl|].
  destruct (String.eqb_spec (wr_wallet_id y) (wr_wallet_id w)) as [E|_]; [|by apply IH].
  destruct Hy. rewrite E. by apply list_elem_of_fmap_2.
Qed.

(** ** Payouts *)

(** A payout names a credited wallet exactly when its status says it was credited. *)
Definition payout_wf (p : WorkerPayoutRecord) : Prop :=
  is_Some (wp_credited_wallet_id p) ↔ is_credited p = true.

(** What the payouts of a list credited to a wallet. *)
Definition credited_to (x : string) (l : list WorkerPayoutRecord) : Z :=
  sumZ (map (λ p, if bool_decide (wp_credited_wallet_id p = Some x) then wp_reward_atomic p else 0) l).

(** What handling a payout may do to it: a credited one stays as it is, its id and its reward
    never change. *)
Definition handled (p p' : WorkerPayoutRecord) : Prop :=
  payout_wf p' ∧ wp_payout_id p' = wp_payout_id p ∧ wp_reward_atomic p' = wp_reward_atomic p
  ∧ (is_credited p = true → p' = p).

(** The wallets and payouts before and after: every balance grew by the payouts that became
    credited to it. *)
Definition pays (wallets : list WalletRecord) (l : list WorkerPayoutRecord)
    (wallets' : list WalletRecord) (l' : list WorkerPayoutRecord) : Prop :=
  wallet_ids wallets' = wallet_ids wallets
  ∧ ∀ x, wallet_balance x wallets' - wallet_balance x wallets = credited_to x l' - credited_to x l.

Lemma pays_refl wallets l : pays wallets l wallets l.
Proof. split; [done|intros; lia]. Qed.

Lemma pays_cons wallets p wallets1 p' l wallets2 l' :
  pays wallets [p] wallets1 [p'] → pays wallets1 l wallets2 l' → pays wallets (p :: l) wallets2 (p' :: l').
Proof.
  intros [E1 H1] [E2 H2]. split; [congruence|]. intros x. specialize (H1 x). specialize (H2 x).
  unfold credited_to in *. cbn [map sumZ] in *. lia.
Qed.

Lemma credited_perm x l l' : l ≡ₚ l' → credited_to x l = credited_to x l'.
Proof. intros Hp. unfold credited_to. apply sumZ_perm. by rewrite Hp. Qed.

(** Only wallets and the journal change. *)
Definition same_rest (st st' : PayoutStore) : Prop :=
  py_settlement st' = py_settlement st ∧ py_ledger st' = py_ledger st.

Lemma credit_local_spec t ty amount note w st :
  NoDup (wallet_ids (py_wallets st)) → w ∈ py_wallets st →
  ∃ st', credit_local t ty amount note w st = (st', Ok tt)
    ∧ same_rest st st' ∧ wallet_ids (py_wallets st') = wallet_ids (py_wallets st)
    ∧ ∀ x, wallet_balance x (py_wallets st') =
           wallet_balance x (py_wallets st) + (if String.eqb x (wr_wallet_id w) then amount else 0).
Proof.
  intros Hnd Hw. destruct (put_wallet_spec w (spendable_balance_atomic w + amount) _ Hnd Hw) as (l' & Hput & Hids & Hbal).
  unfold credit_local. rewrite PM_bind_eq. unfold update_wallet. rewrite PM_bind_eq. unfold pget at 1.
  rewrite Hput. cbn [save_wallets append_journal_entry]. eexists. split; [done|]. cbn. split_and!; [done|done|].
  intros x. rewrite Hbal. destruct (String.eqb_spec x (wr_wallet_id w)) as [->|]; [|lia].
  by rewrite (balance_member _ _ Hnd Hw).
Qed.

Lemma credited_one x p : credited_to x [p] = if bool_decide (wp_credited_wallet_id p = Some x) then wp_reward_atomic p else 0.
Proof. unfold credited_to. cbn. lia. Qed.

(** Applying one payout that was not credited. *)
Lemma apply_record_spec t reconciled p st st' p' :
  NoDup (wallet_ids (py_wallets st)) → wp_credited_wallet_id p = None →
  _apply_finalized_worker_payout_record t reconciled p st = (st', Ok p') →
  same_rest st st' ∧ pays (py_wallets st) [p] (py_wallets st') [p'] ∧ payout_wf p'
  ∧ wp_payout_id p' = wp_payout_id p ∧ wp_reward_atomic p' = wp_reward_atomic p.
Proof.
  intros Hnd Hp. unfold _apply_finalized_worker_payout_record.
  assert (Hno : ∀ q : WorkerPayoutRecord, wp_credited_wallet_id q = None → ∀ x, credited_to x [q] = 0).
  { intros q Hq x. by rewrite credited_one, Hq. }
  destruct (wp_recipient_address p) as [address|].
  2: { intros [= <- <-]. split_and!; [done|split; [done|]|split; [by intros [? ?]|done]|done|done].
       intros x. rewrite !Hno by done. lia. }
  rewrite PM_bind_eq. unfold pget at 1. destruct (find_wallet_by_address address (py_wallets st)) as [w|] eqn:Ew.
  2: { intros [= <- <-]. split_and!; [done|split; [done|]|split; [by intros [? ?]|done]|done|done].
       intros x. rewrite !Hno by done. lia. }
  apply find_wallet_elem in Ew. rewrite Hp. rewrite bool_decide_false by done. rewrite PM_bind_eq.
  destruct (credit_local_spec t "worker_reward_credit" (wp_reward_atomic p)
    ("Worker reward " +:+ (if reconciled then "reconciled" else "credited")
     +:+ " for node " +:+ wp_node_id p +:+ " from finalized settlement " +:+ wp_settlement_id p +:+ ".") w st Hnd Ew)
    as (st1 & -> & Hrest & Hids & Hbal).
  intros [= <- <-]. split_and!; [done| |split; [done|eauto]|done|done].
  split; [done|]. intros x. rewrite Hbal, (Hno p) by done. rewrite credited_one. cbn [wp_credited_wallet_id with_credit wp_reward_atomic].
  destruct (String.eqb_spec x (wr_wallet_id w)) as [->|Hx].
  - rewrite bool_decide_true by done. lia.
  - rewrite bool_decide_false by congruence. lia.
Qed.

(** ** The loops *)

(** What a loop over payouts does: the wallets pay for the payouts it leaves. *)
Definition loop_pays (l : list WorkerPayoutRecord) (st st' : PayoutStore) (l' : list WorkerPayoutRecord) : Prop :=
  same_rest st st' ∧ pays (py_wallets st) l (py_wallets st') l' ∧ Forall2 handled l l'.

Lemma loop_pays_cons p st st1 p' l st2 l' :
  same_rest st st1 → pays (py_wallets st) [p] (py_wallets st1) [p'] → handled p p' →
  loop_pays l st1 st2 l' → loop_pays (p :: l) st st2 (p' :: l').
Proof.
  intros [E1 E2] Hp Hh ([E3 E4] & Hl & Hf). split_and!.
  - split; congruence.
  - by eapply pays_cons.
  - by constructor.
Qed.

Lemma handled_refl p : payout_wf p → handled p p.
Proof. by intros Hp. Qed.

Lemma not_credited p : payout_wf p → is_credited p = false → wp_credited_wallet_id p = None.
Proof. intros [Hp _] E. destruct (wp_credited_wallet_id p); [|done]. rewrite Hp in E by eauto. done. Qed.

Lemma with_credit_id p : with_credit p (wp_recipient_address p) (wp_credited_wallet_id p) (wp_status p) = p.
Proof. by destruct p. Qed.

Lemma keep_pays p st : payout_wf p → same_rest st st ∧ pays (py_wallets st) [p] (py_wallets st) [p] ∧ handled p p.
Proof. intros Hp. split_and!; [done|apply pays_refl|by apply handled_refl]. Qed.

Lemma apply_bound_spec t reconciled p address st st' p' :
  NoDup (wallet_ids (py_wallets st)) → payout_wf p → is_credited p = false →
  _apply_finalized_worker_payout_record t reconciled
    (with_credit p address (wp_credited_wallet_id p) (wp_status p)) st = (st', Ok p') →
  same_rest st st' ∧ pays (py_wallets st) [p] (py_wallets st') [p'] ∧ handled p p'.
Proof.
  intros Hnd Hwf Hc E. pose proof (not_credited _ Hwf Hc) as Hnone.
  apply apply_record_spec in E as (Hrest & [Hids Hbal] & Hwf' & Hid & Hrew); [|done|exact Hnone].
  split_and!; [done|split; [done|]|split_and!; [done|done|done|by rewrite Hc]].
  intros x. rewrite Hbal, !credited_one. cbn [wp_credited_wallet_id with_credit]. by rewrite Hnone.
Qed.

Lemma apply_payouts_pays t rewards i l st st' l' done' :
  NoDup (wallet_ids (py_wallets st)) → Forall payout_wf l →
  apply_payouts t rewards i l st = (st', Ok (l', done')) → loop_pays l st st' l'.
Proof.
  intros Hnd Hwf. revert st st' l' done' Hnd. induction Hwf as [|p l Hp Hl IH]; intros st st' l' done' Hnd; cbn [apply_payouts].
  - intros [= <- <- _]. split_and!; [done|apply pays_refl|constructor].
  - destruct (negb _ || is_credited p) eqn:Eskip.
    + rewrite PM_bind_eq. destruct (apply_payouts t rewards i l st) as [st1 [[l1 d1]|e]] eqn:E; [|done].
      intros [= <- <- _]. destruct (keep_pays p st Hp) as (? & ? & ?). eapply loop_pays_cons; [done|done|done|].
      by eapply IH.
    + apply orb_false_iff in Eskip as [_ Hc]. rewrite PM_bind_eq.
      destruct (_apply_finalized_worker_payout_record _ _ _ st) as [st1 [p'|e]] eqn:E1; [|done].
      apply apply_bound_spec in E1 as (Hrest & Hpay & Hh); [|done..]. rewrite PM_bind_eq.
      destruct (apply_payouts t rewards i l st1) as [st2 [[l1 d1]|e]] eqn:E; [|done].
      intros [= <- <- _]. eapply loop_pays_cons; [done|done|done|]. eapply IH; [|exact E].
      destruct Hpay as [-> _]. done.
Qed.

Lemma reconcile_payouts_pays t rewards settlements l st st' l' done' :
  NoDup (wallet_ids (py_wallets st)) → Forall payout_wf l →
  reconcile_payouts t rewards settlements l st = (st', Ok (l', done')) → loop_pays l st st' l'.
Proof.
  intros Hnd Hwf. revert st st' l' done' Hnd. induction Hwf as [|p l Hp Hl IH]; intros st st' l' done' Hnd; cbn [reconcile_payouts].
  - intros [= <- <- _]. split_and!; [done|apply pays_refl|constructor].
  - assert (Hkeep : ∀ st' l' done',
      (rest ← reconcile_payouts t rewards settlements l; mret (p :: rest.1, rest.2)) st = (st', Ok (l', done')) →
      loop_pays (p :: l) st st' l').
    { intros st2 l2 d2. rewrite PM_bind_eq.
      destruct (reconcile_payouts t rewards settlements l st) as [st1 [[l1 d1]|e]] eqn:E; [|done].
      intros [= <- <- _]. destruct (keep_pays p st Hp) as (? & ? & ?). eapply loop_pays_cons; [done|done|done|].
      by eapply IH. }
    destruct (reward_address rewards p) as [address|]; [|by apply Hkeep].
    destruct (is_credited p) eqn:Hc; [by apply Hkeep|]. rewrite PM_bind_eq.
    match goal with |- context [match ?m st with _ => _ end] => destruct (m st) as [st1 [p'|e]] eqn:E1; [|done] end.
    assert (same_rest st st1 ∧ pays (py_wallets st) [p] (py_wallets st1) [p'] ∧ handled p p') as (Hrest & Hpay & Hh).
    { assert (Hpending : (st, Ok (with_credit (with_credit p (Some address) (wp_credited_wallet_id p) (wp_status p))
                                   (Some address) None "pending_settlement")) = (st1, Ok p') →
        same_rest st st1 ∧ pays (py_wallets st) [p] (py_wallets st1) [p'] ∧ handled p p').
      { intros [= <- <-]. split_and!; [done| |].
        - split; [done|]. intros x. rewrite !credited_one. cbn. rewrite (not_credited _ Hp Hc). lia.
        - split_and!; [split; [by intros [? ?]|done]|done|done|by rewrite Hc]. }
      destruct (settlement_by_id settlements (wp_settlement_id p)) as [s|]; [|by apply Hpending].
      destruct (is_applied s); [|by apply Hpending]. by eapply apply_bound_spec. }
    rewrite PM_bind_eq. destruct (reconcile_payouts t rewards settlements l st1) as [st2 [[l1 d1]|e]] eqn:E; [|done].
    intros [= <- <- _]. eapply loop_pays_cons; [done|done|done|]. eapply IH; [|exact E].
    destruct Hpay as [-> _]. done.
Qed.

(** ** The operations *)

Abbreviation payouts_of st := (s_payouts (py_settlement st)).

(** What an operation guarantees: balances grow by the payouts newly credited, and a credited
    payout stays. *)
Definition pays_once (st st' : PayoutStore) : Prop :=
  Forall payout_wf (payouts_of st')
  ∧ pays (py_wallets st) (payouts_of st) (py_wallets st') (payouts_of st')
  ∧ ∀ p, p ∈ payouts_of st → is_credited p = true → p ∈ payouts_of st'.

Lemma pays_once_refl st : Forall payout_wf (payouts_of st) → pays_once st st.
Proof. intros Hwf. split_and!; [done|apply pays_refl|done]. Qed.

Lemma pays_once_trans st st1 st2 : pays_once st st1 → pays_once st1 st2 → pays_once st st2.
Proof.
  intros (H1 & [Hi1 Hb1] & Hk1) (H2 & [Hi2 Hb2] & Hk2). split_and!; [done| |auto].
  split; [congruence|]. intros x. specialize (Hb1 x). specialize (Hb2 x). lia.
Qed.

(** A loop over the sorted payouts whose result is saved. *)
Lemma saved_loop_pays_once st st1 l' :
  loop_pays (list_worker_payouts None (payouts_of st)) st st1 l' →
  pays_once st (with_settlement st1
    {| s_chain := s_chain (py_settlement st1); s_settlements := s_settlements (py_settlement st1);
       s_payouts := l'; s_attestations := s_attestations (py_settlement st1);
       s_validators := s_validators (py_settlement st1); s_rewards := s_rewards (py_settlement st1) |}).
Proof.
  intros (Hrest & [Hids Hbal] & Hf). unfold pays_once. cbn [py_settlement with_settlement s_payouts py_wallets].
  assert (list_worker_payouts None (payouts_of st) ≡ₚ payouts_of st) as Hperm by apply py_sorted_perm.
  split_and!.
  - clear -Hf. induction Hf as [|p p' l l' (Hp & _) _ IH]; by constructor.
  - split; [done|]. intros x. rewrite Hbal. by rewrite (credited_perm _ _ _ Hperm).
  - intros p Hp Hc. rewrite <- Hperm in Hp. apply list_elem_of_lookup in Hp as [j Hj].
    destruct (Forall2_lookup_l _ _ _ _ _ Hf Hj) as (p' & Hj' & (_ & _ & _ & Hsame)).
    rewrite (Hsame Hc) in Hj'. by eapply list_elem_of_lookup_2.
Qed.

Lemma wf_sorted l : Forall payout_wf l → Forall payout_wf (list_worker_payouts None l).
Proof. intros H. unfold list_worker_payouts, newest_first. by rewrite py_sorted_perm. Qed.

(** A loop that handled nothing left the payouts alone; its result need not be saved. *)
Lemma apply_payouts_idle t rewards i l st st' l' :
  apply_payouts t rewards i l st = (st', Ok (l', [])) → st' = st ∧ l' = l.
Proof.
  revert st st' l'. induction l as [|p l IH]; intros st st' l'; cbn [apply_payouts]; [by intros [= <- <-]|].
  destruct (_ || _); rewrite PM_bind_eq.
  - destruct (apply_payouts t rewards i l st) as [st1 [[l1 d1]|e]] eqn:E; [|done]. intros [= <- <- ->].
    apply IH in E as [-> ->]. done.
  - destruct (_apply_finalized_worker_payout_record _ _ _ st) as [st1 [p'|e]]; [|done]. rewrite PM_bind_eq.
    by destruct (apply_payouts t rewards i l st1) as [st2 [[l1 d1]|e]].
Qed.

Lemma reconcile_payouts_idle t rewards ss l st st' l' :
  reconcile_payouts t rewards ss l st = (st', Ok (l', [])) → st' = st ∧ l' = l.
Proof.
  revert st st' l'. induction l as [|p l IH]; intros st st' l'; cbn [reconcile_payouts]; [by intros [= <- <-]|].
  assert (Hkeep : ∀ st' l', (rest ← reconcile_payouts t rewards ss l; mret (p :: rest.1, rest.2)) st
      = (st', Ok (l', [])) → st' = st ∧ l' = p :: l).
  { intros st2 l2. rewrite PM_bind_eq.
    destruct (reconcile_payouts t rewards ss l st) as [st1 [[l1 d1]|e]] eqn:E; [|done]. intros [= <- <- ->].
    apply IH in E as [-> ->]. done. }
  destruct (reward_address rewards p); [|apply Hkeep]. destruct (is_credited p); [apply Hkeep|].
  rewrite PM_bind_eq.
  match goal with |- context [match ?m st with _ => _ end] => destruct (m st) as [st1 [p'|e]]; [|done] end.
  rewrite PM_bind_eq. by destruct (reconcile_payouts t rewards ss l st1) as [st2 [[l1 d1]|e]].
Qed.

Lemma apply_worker_payouts_pays t s st st' r :
  NoDup (wallet_ids (py_wallets st)) → Forall payout_wf (payouts_of st) →
  _apply_finalized_worker_payouts t s st = (st', Ok r) → pays_once st st'.
Proof.
  intros Hnd Hwf. unfold _apply_finalized_worker_payouts.
  rewrite PM_bind_eq. unfold pget at 1. rewrite PM_bind_eq. unfold pget at 1. rewrite PM_bind_eq.
  destruct (apply_payouts _ _ _ _ st) as [st1 [[l' d]|e]] eqn:E; [|done]. rewrite PM_bind_eq. cbn [fst snd].
  destruct d as [|d0 d].
  - intros [= <- _]. apply apply_payouts_idle in E as [-> _]. by apply pays_once_refl.
  - intros [= <- _]. apply saved_loop_pays_once.
    eapply apply_payouts_pays; [done|by apply wf_sorted|exact E].
Qed.

Lemma reconcile_pays t st st' r :
  NoDup (wallet_ids (py_wallets st)) → Forall payout_wf (payouts_of st) →
  reconcile_worker_payouts t st = (st', Ok r) → pays_once st st'.
Proof.
  intros Hnd Hwf. unfold reconcile_worker_payouts.
  rewrite PM_bind_eq. unfold pget at 1. rewrite PM_bind_eq. unfold pget at 1. rewrite PM_bind_eq. unfold pget at 1.
  rewrite PM_bind_eq.
  destruct (reconcile_payouts _ _ _ _ st) as [st1 [[l' d]|e]] eqn:E; [|done]. rewrite PM_bind_eq. cbn [fst snd].
  destruct d as [|d0 d].
  - intros [= <- _]. apply reconcile_payouts_idle in E as [-> _]. by apply pays_once_refl.
  - intros [= <- _]. apply saved_loop_pays_once.
    eapply reconcile_payouts_pays; [done|by apply wf_sorted|exact E].
Qed.

(** A change of the settlements alone. *)
Lemma settlements_only st st' :
  Forall payout_wf (payouts_of st) → py_wallets st' = py_wallets st → payouts_of st' = payouts_of st →
  pays_once st st'.
Proof. intros Hwf Hw Hp. unfold pays_once. rewrite Hw, Hp. by apply pays_once_refl. Qed.

Lemma save_audit_pays s audit st st' r :
  Forall payout_wf (payouts_of st) → save_audit s audit st = (st', Ok r) → pays_once st st'.
Proof.
  intros Hwf. unfold save_audit. rewrite PM_bind_eq. unfold pget at 1. rewrite PM_bind_eq.
  unfold on_settlements, _save_settlement_balance_audit, mbind, SM_bind, sget.
  destruct (List.find _ _); intros [= <- _]; by apply settlements_only.
Qed.

Lemma paid_out_pays t s i receipt records st st' r :
  NoDup (wallet_ids (py_wallets st)) → Forall payout_wf (payouts_of st) →
  paid_out t s i receipt records st = (st', Ok r) → pays_once st st'.
Proof.
  intros Hnd Hwf. unfold paid_out. destruct s as [s|]; [|intros [= <- _]; by apply pays_once_refl].
  destruct (is_applied s); [|intros [= <- _]; by apply pays_once_refl]. rewrite PM_bind_eq.
  destruct (_apply_finalized_worker_payouts t s st) as [st1 [l|e]] eqn:E; [|done].
  intros [= <- _]. by eapply apply_worker_payouts_pays.
Qed.

Lemma new_payout_wf t pid i receipt m mp rewards x : payout_wf (new_payout t pid i receipt m mp rewards x).
Proof.
  unfold payout_wf, is_credited. cbn [wp_credited_wallet_id wp_status new_payout].
  split; [by intros [? ?]|]. case_match; intros E; discriminate E.
Qed.

Lemma append_payouts_pays st records :
  Forall payout_wf (payouts_of st) → Forall (λ p, payout_wf p ∧ wp_credited_wallet_id p = None) records →
  pays_once st (with_settlement st
    {| s_chain := s_chain (py_settlement st); s_settlements := s_settlements (py_settlement st);
       s_payouts := list_worker_payouts None (payouts_of st) ++ records;
       s_attestations := s_attestations (py_settlement st);
       s_validators := s_validators (py_settlement st); s_rewards := s_rewards (py_settlement st) |}).
Proof.
  intros Hwf Hrec. assert (list_worker_payouts None (payouts_of st) ≡ₚ payouts_of st) as Hperm by apply py_sorted_perm.
  unfold pays_once. cbn [py_settlement with_settlement s_payouts py_wallets]. split_and!.
  - apply Forall_app. split; [by apply wf_sorted|]. eapply Forall_impl; [exact Hrec|]. by intros p [? _].
  - split; [done|]. intros x. rewrite (credited_perm x (_ ++ _) (payouts_of st ++ records)) by (by rewrite Hperm).
    assert (credited_to x records = 0) as Hz.
    { unfold credited_to. clear -Hrec. induction Hrec as [|p l [_ Hp] _ IH]; cbn; [done|].
      rewrite Hp, bool_decide_false by done. lia. }
    unfold credited_to in *. rewrite map_app, sumZ_app. lia.
  - intros p Hp _. apply elem_of_app. left. by rewrite Hperm.
Qed.

Lemma record_worker_payouts_pays t pid i receipt m participants mp st st' r :
  NoDup (wallet_ids (py_wallets st)) → Forall payout_wf (payouts_of st) →
  record_worker_payouts t pid i receipt m participants mp st = (st', Ok r) → pays_once st st'.
Proof.
  intros Hnd Hwf. unfold record_worker_payouts. rewrite PM_bind_eq. unfold pget at 1. rewrite PM_bind_eq. unfold pget at 1.
  set (settlement := resolve_settlement _ _).
  assert (Hend : ∀ l records st1 st2 r2,
    NoDup (wallet_ids (py_wallets st1)) → Forall payout_wf (payouts_of st1) →
    (settlement' ← match settlement with
                   | Some s => s' ← save_audit s (_with_worker_payout_accounting_audit s l mp); mret (Some s')
                   | None => mret None
                   end; paid_out t settlement' i receipt records) st1 = (st2, Ok r2) → pays_once st1 st2).
  { intros l records st1 st2 r2 Hnd1 Hwf1. rewrite PM_bind_eq.
    destruct settlement as [s|]; [rewrite PM_bind_eq|intros E; eapply paid_out_pays; [exact Hnd1|exact Hwf1|exact E]].
    destruct (save_audit s _ st1) as [st3 [s'|e]] eqn:E; [|done]. apply save_audit_pays in E; [|done].
    intros E2. eapply pays_once_trans; [exact E|]. destruct E as (Hwf3 & [Hids _] & _).
    eapply paid_out_pays; [by rewrite Hids|done|exact E2]. }
  destruct (receipt_payouts _ _ _) as [|p0 l0]; [|by apply Hend].
  rewrite PM_bind_eq. unfold pget at 1. rewrite PM_bind_eq. unfold pget at 1.
  set (records := map _ (enumerate participants)).
  destruct (match settlement with Some _ => _ | None => _ end); [|done].
  rewrite PM_bind_eq. cbn [on_settlements save_worker_payouts]. intros E.
  assert (Forall (λ p, payout_wf p ∧ wp_credited_wallet_id p = None) records) as Hrec.
  { apply Forall_map, Forall_forall. intros x _. split; [apply new_payout_wf|done]. }
  pose proof (append_payouts_pays st records Hwf Hrec) as H1. eapply pays_once_trans; [exact H1|].
  eapply Hend; [|apply H1|exact E]. exact Hnd.
Qed.

(** ** Runs *)

(** A call that handles payouts. *)
Inductive pay_step (st st' : PayoutStore) : Prop :=
| pay_record t pid i receipt m participants mp r :
    record_worker_payouts t pid i receipt m participants mp st = (st', Ok r) → pay_step st st'
| pay_apply t s r : _apply_finalized_worker_payouts t s st = (st', Ok r) → pay_step st st'
| pay_reconcile t r : reconcile_worker_payouts t st = (st', Ok r) → pay_step st st'.

Lemma pay_step_pays st st' :
  NoDup (wallet_ids (py_wallets st)) → Forall payout_wf (payouts_of st) → pay_step st st' → pays_once st st'.
Proof.
  intros Hnd Hwf [????????? | ??? | ??]; [by eapply record_worker_payouts_pays|
    by eapply apply_worker_payouts_pays|by eapply reconcile_pays].
Qed.

(** C28: however the payouts of jobs are recorded, applied and reconciled, in any order and
    any number of times, a payout is paid at most once: the balance of every local wallet
    grows by exactly the rewards of the payouts that became credited to it, and a credited
    payout stays as it is. *)
Theorem payouts_credited_once st st' :
  NoDup (wallet_ids (py_wallets st)) → Forall payout_wf (payouts_of st) → rtc pay_step st st' →
  Forall payout_wf (payouts_of st')
  ∧ wallet_ids (py_wallets st') = wallet_ids (py_wallets st)
  ∧ (∀ x, wallet_balance x (py_wallets st') - wallet_balance x (py_wallets st)
          = credited_to x (payouts_of st') - credited_to x (payouts_of st))
  ∧ ∀ p, p ∈ payouts_of st → is_credited p = true → p ∈ payouts_of st'.
Proof.
  intros Hnd Hwf Hrun. assert (pays_once st st') as (? & [? ?] & ?); [|done].
  induction Hrun as [st|st st1 st2 Hstep Hrun IH]; [by apply pays_once_refl|].
  pose proof (pay_step_pays _ _ Hnd Hwf Hstep) as H1. eapply pays_once_trans; [exact H1|].
  destruct H1 as (Hwf1 & [Hids _] & _). apply IH; [by rewrite Hids|done].
Qed.
