(* ===== verification/FinalityProps.v ===== *)
(** * Properties of settlement finality

    The attestation protocol refines a map of votes: the first vote of each committee member
    stands, and the status is a function of the voting bond; and what the application of a
    settlement, with which a vote may end, changes. *)
From Stdlib Require Import Ascii.
From S2P Require Import Prelude.
From S2P Require Import PyStr.
From S2P Require Import PyVal.
From S2P Require Import Money.
From S2P Require Import ChainTx.
From S2P Require Import Apportion.
From S2P Require Import SettlementData.
From S2P Require Import Validators.
From S2P Require Import Settlement.
From S2P Require Import Demo.
From S2P Require Import SettlementProps.
From S2P Require Import ChainStore.
From S2P Require Import Signing.
From S2P Require Import ChainOps.
From S2P Require Import Ledger.
From S2P Require Import Payouts.
From S2P Require Import PayoutProps.
From S2P Require Import PeerFacts.
From S2P Require Import FundingProps.
Local Open Scope Z_scope.
Set Default Proof Using "Type".

(** ** The specification: a map of votes *)

Module Spec.
Abbreviation votes := (gmap string bool).

Definition member (committee : list (string * Z)) (v : string) : Prop := v ∈ committee.*1.

(** A member's first vote stands; everything else is ignored. *)
Definition vote (committee : list (string * Z)) (m : votes) (b : string * bool) : votes :=
  match alookup b.1 committee, m !! b.1 with
  | Some _, None => <[b.1 := b.2]> m
  | _, _ => m
  end.

(** The bond that voted [b]. *)
Definition bond (committee : list (string * Z)) (m : votes) (b : bool) : Z :=
  sumZ (map (λ vb : string * Z, if bool_decide (m !! vb.1 = Some b) then vb.2 else 0) committee).

Definition status (committee : list (string * Z)) (quorum : Z) (applied_at : option string)
    (m : votes) : string :=
  quorum_status quorum (bond committee m true) (bond committee m false) applied_at.
End Spec.

Lemma alookup_elem k b (c : list (string * Z)) : alookup k c = Some b → (k, b) ∈ c.
Proof.
  induction c as [|[k' b'] c IH]; cbn; [done|].
  destruct (String.eqb_spec k k') as [->|]; intros Hk; apply elem_of_cons.
  - left. by injection Hk as ->.
  - right. by apply IH.
Qed.

Lemma alookup_none k (c : list (string * Z)) : alookup k c = None ↔ k ∉ c.*1.
Proof.
  induction c as [|[k' b'] c IH]; cbn; [split; [set_solver|done]|].
  destruct (String.eqb_spec k k') as [->|Hk]; [split; [done|set_solver]|]. rewrite IH. set_solver.
Qed.

Lemma alookup_member k (c : list (string * Z)) : is_Some (alookup k c) ↔ k ∈ c.*1.
Proof.
  destruct (alookup k c) eqn:E.
  - split; [|eauto]. intros _. destruct (decide (k ∈ c.*1)) as [|Hk]; [done|].
    apply alookup_none in Hk. congruence.
  - apply alookup_none in E. split; [by intros [? ?]|done].
Qed.

(** A new vote moves exactly the voter's bond. *)
Lemma bond_insert c (m : Spec.votes) v b b' :
  NoDup c.*1 → m !! v = None →
  Spec.bond c (<[v := b]> m) b' =
  Spec.bond c m b' + (if Bool.eqb b b' then default 0 (alookup v c) else 0).
Proof.
  intros Hnd Hv. unfold Spec.bond. induction c as [|[k w] c IH]; cbn [map sumZ alookup fmap list_fmap fst snd] in *.
  - by destruct (Bool.eqb b b').
  - apply NoDup_cons in Hnd as [Hk Hnd]. specialize (IH Hnd). rewrite IH.
    destruct (String.eqb_spec v k) as [->|Hvk].
    + rewrite lookup_insert_eq, Hv. apply alookup_none in Hk. rewrite Hk. cbn [default].
      rewrite (bool_decide_false (None = Some b')) by done. cbn [default].
      destruct b, b'; cbn [Bool.eqb]; case_bool_decide; try congruence; cbn; lia.
    + rewrite lookup_insert_ne by congruence. lia.
Qed.

Lemma bond_mono c (m m' : Spec.votes) b :
  Forall (λ vb : string * Z, 0 ≤ vb.2) c → m ⊆ m' → Spec.bond c m b ≤ Spec.bond c m' b.
Proof.
  intros Hpos Hm. unfold Spec.bond. induction Hpos as [|[k w] c Hw Hpos IH]; cbn in *; [done|].
  do 2 case_bool_decide; try lia. eapply lookup_weaken in H; [|exact Hm]. done.
Qed.

(** ** The tally is the bond of the votes *)

(** The votes a list of attestations casts, the first of each validator. *)
Definition votes_of (c : list (string * Z)) (l : list ValidatorAttestation) : Spec.votes :=
  foldl (λ m a, Spec.vote c m (at_validator_id a, at_accepted a)) ∅ l.

Lemma votes_of_snoc c l a :
  votes_of c (l ++ [a]) = Spec.vote c (votes_of c l) (at_validator_id a, at_accepted a).
Proof. unfold votes_of. by rewrite foldl_snoc. Qed.

Lemma tally_spec c l :
  NoDup c.*1 →
  let ta := tally c l in
  ta_accepted_bond ta = Spec.bond c (votes_of c l) true
  ∧ ta_rejected_bond ta = Spec.bond c (votes_of c l) false
  ∧ (∀ v, v ∈ ta_seen ta ↔ is_Some (votes_of c l !! v)).
Proof.
  intros Hnd. cbn zeta. induction l as [|a l IH] using rev_ind.
  - cbn. assert (∀ b, Spec.bond c ∅ b = 0) as Hzero.
    { intros b. unfold Spec.bond. clear Hnd. induction c as [|vb c IHc]; cbn; [done|].
      rewrite bool_decide_false by (by rewrite lookup_empty). lia. }
    rewrite !Hzero. split_and!; [done..|]. intros v. rewrite lookup_empty. split; [set_solver|by intros [? ?]].
  - destruct IH as (IHa & IHr & IHs). unfold tally in *. rewrite foldl_snoc, votes_of_snoc.
    set (ta := foldl _ _ l) in *. unfold tally_step, Spec.vote. cbn [fst snd].
    destruct (alookup (at_validator_id a) c) as [bond|] eqn:Ebond; [|done].
    case_bool_decide as Hseen.
    + apply IHs in Hseen as [b Hb]. rewrite Hb. split_and!; [done..|].
      intros v. rewrite IHs. done.
    + destruct (votes_of c l !! at_validator_id a) eqn:Ev; [by destruct Hseen; apply IHs; rewrite Ev|].
      cbn. rewrite !bond_insert by done. rewrite Ebond, IHa, IHr.
      destruct (at_accepted a); cbn; (split_and!; [lia..|]); intros v;
        rewrite elem_of_union, elem_of_singleton, IHs;
        destruct (decide (v = at_validator_id a)) as [->|];
        rewrite ?lookup_insert_eq, ?lookup_insert_ne by congruence; naive_solver.
Qed.

(** ** The votes do not depend on the order of the attestations *)

Definition voters (l : list ValidatorAttestation) : list string := map at_validator_id l.

Lemma votes_lookup c l v b :
  NoDup (voters l) →
  votes_of c l !! v = Some b
  ↔ is_Some (alookup v c) ∧ ∃ a, a ∈ l ∧ at_validator_id a = v ∧ at_accepted a = b.
Proof.
  unfold voters. induction l as [|a l IH] using rev_ind.
  - intros _. split; [done|]. by intros (_ & a & Ha%not_elem_of_nil & _).
  - rewrite map_app, votes_of_snoc. intros (Hnd & Hnot & _)%NoDup_app. specialize (IH Hnd).
    unfold Spec.vote. cbn [fst snd].
    assert (∀ b', votes_of c l !! at_validator_id a = Some b' → False) as Hfresh.
    { intros b' Hb'. destruct (votes_of c l !! at_validator_id a) eqn:E; [|done].
      clear IH. assert (∃ x, x ∈ l ∧ at_validator_id x = at_validator_id a) as (x & Hx & Hid).
      { clear -E. induction l as [|y l IHl] using rev_ind; [done|]. rewrite votes_of_snoc in E.
        unfold Spec.vote in E. cbn [fst snd] in E. repeat case_match; try naive_solver set_solver.
        apply lookup_insert_Some in E as [[? _]|[_ E]]; [exists y; set_solver|].
        destruct (IHl E) as (x & ? & ?). exists x. set_solver. }
      apply (Hnot (at_validator_id a)); [|set_solver]. rewrite <- Hid. by apply list_elem_of_fmap_2. }
    destruct (alookup (at_validator_id a) c) as [bond|] eqn:Ebond.
    + destruct (votes_of c l !! at_validator_id a) eqn:Ev; [by destruct (Hfresh _ eq_refl)|].
      destruct (decide (v = at_validator_id a)) as [->|Hv].
      * rewrite lookup_insert_eq. split.
        -- intros [= <-]. split; [eauto|]. exists a. set_solver.
        -- intros (_ & x & Hx & Hid & <-). apply elem_of_app in Hx as [Hx|Hx%list_elem_of_singleton];
             [|by subst]. exfalso. apply (Hnot (at_validator_id a)); [|set_solver].
           rewrite <- Hid. by apply list_elem_of_fmap_2.
      * rewrite lookup_insert_ne, IH by done. split; intros (Hc & x & Hx & Hid & Hb);
          (split; [done|]); exists x; set_solver.
    + assert (∀ P : Prop, is_Some (alookup (at_validator_id a) c) → P) as Hno by (rewrite Ebond; by intros P [? ?]).
      rewrite IH. split; intros (Hc & x & Hx & Hid & Hb); (split; [done|]); exists x; [set_solver|].
      apply elem_of_app in Hx as [Hx|Hx%list_elem_of_singleton]; [done|]. subst x v. by apply Hno.
Qed.

Lemma votes_of_perm c l l' : NoDup (voters l) → l ≡ₚ l' → votes_of c l = votes_of c l'.
Proof.
  intros Hnd Hp. assert (NoDup (voters l')) as Hnd' by (unfold voters in *; by rewrite <- Hp).
  apply map_eq. intros v. apply option_eq. intros b. rewrite !votes_lookup by done.
  split; intros (Hc & a & Ha & Hid); (split; [done|]); exists a; [by rewrite <- Hp|by rewrite Hp].
Qed.

(** ** Reading the settlement file back *)

Lemma newest_first_sorted {A} (created : A → string) (l : list A) :
  StronglySorted (λ x y, str_leb (created y) (created x) = true) (newest_first created l).
Proof.
  apply py_sorted_sorted; [intros x y; apply str_leb_total|].
  intros x y z Hxy Hyz. by eapply str_leb_trans.
Qed.

Lemma update_settlement_elem i f l x :
  x ∈ update_settlement i f l → x ∈ l ∨ ∃ s, s ∈ l ∧ x = f s.
Proof.
  induction l as [|s l IH]; cbn; [by left|].
  destruct (String.eqb _ _); rewrite elem_of_cons; setoid_rewrite elem_of_cons; naive_solver.
Qed.

Lemma update_settlement_sorted i f l :
  (∀ s, sr_created_at (f s) = sr_created_at s) →
  StronglySorted (λ x y, str_leb (sr_created_at y) (sr_created_at x) = true) l →
  StronglySorted (λ x y, str_leb (sr_created_at y) (sr_created_at x) = true) (update_settlement i f l).
Proof.
  intros Hf. induction 1 as [|s l Hl IH Hs]; cbn; [constructor|]. destruct (String.eqb _ _).
  - constructor; [done|]. by rewrite Hf.
  - constructor; [done|]. apply Forall_forall. intros x Hx.
    rewrite Forall_forall in Hs. apply update_settlement_elem in Hx as [Hx|(y & Hy & ->)]; [by apply Hs|].
    rewrite Hf. by apply Hs.
Qed.

Lemma find_update_settlement i f l j :
  (∀ s, sr_settlement_id (f s) = sr_settlement_id s) →
  List.find (λ s, String.eqb (sr_settlement_id s) j) (update_settlement i f l)
  = let r := List.find (λ s, String.eqb (sr_settlement_id s) j) l in
    if String.eqb i j then f <$> r else r.
Proof.
  intros Hf. cbn zeta. induction l as [|s l IH]; cbn; [by destruct (String.eqb i j)|].
  destruct (String.eqb_spec (sr_settlement_id s) i) as [Hi|Hi]; cbn; rewrite ?Hf.
  - destruct (String.eqb_spec (sr_settlement_id s) j) as [Hj|Hj].
    + rewrite (proj2 (String.eqb_eq i j)) by congruence. done.
    + rewrite (proj2 (String.eqb_neq i j)) by congruence. done.
  - destruct (String.eqb_spec (sr_settlement_id s) j) as [Hj|Hj]; [|done].
    rewrite (proj2 (String.eqb_neq i j)) by congruence. done.
Qed.

Lemma resolve_update i f l j :
  (∀ s, sr_created_at (f s) = sr_created_at s) →
  (∀ s, sr_settlement_id (f s) = sr_settlement_id s) →
  resolve_settlement j (update_settlement i f (list_settlements l))
  = if String.eqb i j then f <$> resolve_settlement j l else resolve_settlement j l.
Proof.
  intros Hc Hi. unfold resolve_settlement at 1, list_settlements at 1, newest_first.
  rewrite py_sorted_id by (apply update_settlement_sorted, newest_first_sorted; done).
  rewrite find_update_settlement by done. done.
Qed.

Lemma resolve_id i l s : resolve_settlement i l = Some s → sr_settlement_id s = i.
Proof. intros [_ Hid]%List.find_some. by apply String.eqb_eq. Qed.

(** What a refresh does to the store. *)
Lemma refresh_effect sid st s :
  resolve_settlement sid (s_settlements st) = Some s →
  ∃ st', refresh_settlement_finality sid st = (st', Ok (Some (refreshed (s_attestations st) s)))
    ∧ s_attestations st' = s_attestations st
    ∧ resolve_settlement sid (s_settlements st') = Some (refreshed (s_attestations st) s)
    ∧ ∀ j, j ≠ sid → resolve_settlement j (s_settlements st') = resolve_settlement j (s_settlements st).
Proof.
  intros Hs. unfold refresh_settlement_finality, sget, mbind, SM_bind, mret, SM_ret.
  unfold resolve_settlement in Hs. rewrite Hs. eexists. split; [reflexivity|]. cbn [s_attestations s_settlements].
  split; [done|]. split.
  - rewrite resolve_update by done. rewrite String.eqb_refl.
    unfold resolve_settlement. by rewrite Hs.
  - intros j Hj. rewrite resolve_update by done. by rewrite (proj2 (String.eqb_neq sid j)) by congruence.
Qed.

(** ** The refinement *)

(** The votes the attestation file holds for a settlement. *)
Definition votes_in (st : SettlementStore) (s : SettlementRecord) : Spec.votes :=
  votes_of (sr_committee_bonded s) (list_attestations (sr_settlement_id s) (s_attestations st)).

Definition spec_status (s : SettlementRecord) (m : Spec.votes) : string :=
  Spec.status (sr_committee_bonded s) (sr_committee_quorum_bond_atomic s) (sr_applied_at s) m.

(** A settlement whose committee is well formed and whose status is that of its votes. *)
Record open_settlement (st : SettlementStore) (s : SettlementRecord) : Prop := {
  os_found : resolve_settlement (sr_settlement_id s) (s_settlements st) = Some s;
  os_keys : NoDup (sr_committee_bonded s).*1;
  os_committee : ∀ v, v ∈ sr_committee_validator_ids s ↔ v ∈ (sr_committee_bonded s).*1;
  os_nonempty : sr_committee_validator_ids s ≠ [];
  os_voters : NoDup (voters (list_attestations (sr_settlement_id s) (s_attestations st)));
  os_members : ∀ v, v ∈ voters (list_attestations (sr_settlement_id s) (s_attestations st)) →
    v ∈ sr_committee_validator_ids s;
  os_status : sr_status s = spec_status s (votes_in st s)
}.

(** The parts of a settlement that votes leave alone. *)
Definition same_terms (s s' : SettlementRecord) : Prop :=
  sr_settlement_id s' = sr_settlement_id s
  ∧ sr_committee_bonded s' = sr_committee_bonded s
  ∧ sr_committee_validator_ids s' = sr_committee_validator_ids s
  ∧ sr_committee_quorum_bond_atomic s' = sr_committee_quorum_bond_atomic s
  ∧ sr_applied_at s' = sr_applied_at s.

Lemma spec_status_terms s s' m : same_terms s s' → spec_status s' m = spec_status s m.
Proof. intros (_ & Hb & _ & Hq & Ha). unfold spec_status. by rewrite Hb, Hq, Ha. Qed.

Lemma refreshed_status file s :
  NoDup (sr_committee_bonded s).*1 →
  sr_status (refreshed file s)
  = spec_status s (votes_of (sr_committee_bonded s) (list_attestations (sr_settlement_id s) file)).
Proof.
  intros Hnd. unfold refreshed, spec_status, Spec.status. cbn [sr_status with_votes].
  destruct (tally_spec _ (list_attestations (sr_settlement_id s) file) Hnd) as (-> & -> & _). done.
Qed.

Lemma refreshed_terms file s : same_terms s (refreshed file s).
Proof. done. Qed.

(** A refresh of a store whose votes are well formed re-establishes the invariant. *)
Lemma refresh_open sid st s :
  sr_settlement_id s = sid →
  resolve_settlement sid (s_settlements st) = Some s →
  NoDup (sr_committee_bonded s).*1 →
  (∀ v, v ∈ sr_committee_validator_ids s ↔ v ∈ (sr_committee_bonded s).*1) →
  sr_committee_validator_ids s ≠ [] →
  NoDup (voters (list_attestations sid (s_attestations st))) →
  (∀ v, v ∈ voters (list_attestations sid (s_attestations st)) → v ∈ sr_committee_validator_ids s) →
  ∃ st', refresh_settlement_finality sid st = (st', Ok (Some (refreshed (s_attestations st) s)))
    ∧ open_settlement st' (refreshed (s_attestations st) s)
    ∧ votes_in st' (refreshed (s_attestations st) s) = votes_in st s
    ∧ ∀ j, j ≠ sid → resolve_settlement j (s_settlements st') = resolve_settlement j (s_settlements st).
Proof.
  intros Hid Hs Hk Hc Hne Hv Hm. destruct (refresh_effect sid st s Hs) as (st' & Hr & Ha & Hs' & Ho).
  exists st'. split; [done|].
  assert (votes_in st' (refreshed (s_attestations st) s) = votes_in st s) as Hvotes
    by (unfold votes_in; rewrite Ha; done).
  split; [|done]. constructor; try done; cbn [sr_settlement_id refreshed with_votes]; rewrite ?Hid, ?Ha; try done.
  rewrite Hvotes, refreshed_status by done. unfold spec_status, votes_in. done.
Qed.

Lemma list_attestations_snoc sid file a :
  at_settlement_id a = sid →
  list_attestations sid (file ++ [a]) ≡ₚ list_attestations sid file ++ [a].
Proof.
  intros Ha. unfold list_attestations, newest_first. rewrite !py_sorted_perm, filter_app.
  rewrite filter_cons_True, filter_nil by done. done.
Qed.

Lemma voters_perm l l' : l ≡ₚ l' → voters l ≡ₚ voters l'.
Proof. apply Permutation_map. Qed.

Lemma voters_app l l' : voters (l ++ l') = voters l ++ voters l'.
Proof. apply map_app. Qed.

(** The attestation the code finds is the validator's vote. *)
Lemma existing_vote st s v :
  open_settlement st s →
  match filter (λ a, at_validator_id a = v)
          (list_attestations (sr_settlement_id s) (s_attestations st)) with
  | item :: _ => at_validator_id item = v ∧ votes_in st s !! v = Some (at_accepted item)
  | [] => votes_in st s !! v = None
          ∧ v ∉ voters (list_attestations (sr_settlement_id s) (s_attestations st))
  end.
Proof.
  intros Hos. set (l := list_attestations _ _). destruct (filter _ l) as [|item rest] eqn:E.
  - assert (v ∉ voters l) as Hv.
    { unfold voters. intros (a & -> & Ha)%list_elem_of_fmap.
      assert (a ∈ filter (λ x, at_validator_id x = at_validator_id a) l)
        by by apply list_elem_of_filter.
      rewrite E in *. set_solver. }
    split; [|done]. destruct (votes_in st s !! v) as [b|] eqn:Ev; [|done]. exfalso. apply Hv.
    apply (votes_lookup (sr_committee_bonded s) l v b (os_voters _ _ Hos)) in Ev as (_ & a & Ha & <- & _).
    by apply list_elem_of_fmap_2.
  - assert (item ∈ filter (λ a, at_validator_id a = v) l) as Hitem by (rewrite E; set_solver).
    apply list_elem_of_filter in Hitem as [Hv Hitem]. split; [done|].
    apply votes_lookup; [apply Hos|]. split; [|by exists item].
    destruct (alookup v (sr_committee_bonded s)) eqn:Ea; [eauto|]. apply alookup_none in Ea.
    destruct Ea. apply (os_committee _ _ Hos), (os_members _ _ Hos). rewrite <- Hv.
    by apply list_elem_of_fmap_2.
Qed.

(** What an attempt to vote does before the settlement is applied. *)
Lemma attestation_effect attestation_id now v accepted note st s :
  open_settlement st s →
  ∃ s', let st' := (record_attestation attestation_id now (sr_settlement_id s) v
                      accepted note st).1 in
    open_settlement st' s' ∧ same_terms s s'
    ∧ votes_in st' s' = Spec.vote (sr_committee_bonded s) (votes_in st s) (v, accepted)
    ∧ (∀ j, j ≠ sr_settlement_id s →
         resolve_settlement j (s_settlements st') = resolve_settlement j (s_settlements st))
    ∧ match (record_attestation attestation_id now (sr_settlement_id s) v accepted note
               st).2 with
      | Ok (a, x) => x = Some s' ∧ at_validator_id a = v ∧ at_accepted a = accepted
                ∧ Spec.member (sr_committee_bonded s) v
                ∧ votes_in st s !! v ≠ Some (negb accepted)
      | Err (ValueError m) => ¬ Spec.member (sr_committee_bonded s) v ∧ st' = st
          ∧ m = "Validator is not a member of this settlement committee."
      | Err (ConflictingAttestationError _) =>
          votes_in st s !! v = Some (negb accepted) ∧ st' = st
      | Err _ => False
      end.
Proof.
  intros Hos. pose proof Hos as [Hf Hk Hc Hne Hv Hm Hst].
  unfold record_attestation, mbind, SM_bind, mret, SM_ret, sget. rewrite Hf.
  rewrite (bool_decide_false (sr_committee_validator_ids s = [])) by done. cbn [negb andb].
  destruct (bool_decide_reflect (v ∈ sr_committee_validator_ids s)) as [Hin|Hin]; cbn [negb].
  2: { exists s. unfold sraise. cbn [fst snd]. assert (v ∉ (sr_committee_bonded s).*1) as Hv' by by rewrite <- Hc.
       split_and!; [done..| |done|done|done|done].
       unfold Spec.vote. cbn [fst snd]. apply alookup_none in Hv'. by rewrite Hv'. }
  assert (is_Some (alookup v (sr_committee_bonded s))) as [bond Hbond] by by apply alookup_member, Hc.
  pose proof (existing_vote st s v Hos) as Hex. unfold Spec.vote. cbn [fst snd]. rewrite Hbond.
  destruct (filter _ _) as [|item rest].
  - destruct Hex as [Hnone Hnot]. rewrite Hnone.
    set (a := {| at_validator_id := v |}).
    set (st1 := (save_attestations (s_attestations st ++ [a]) st).1).
    assert (list_attestations (sr_settlement_id s) (s_attestations st1)
            ≡ₚ list_attestations (sr_settlement_id s) (s_attestations st) ++ [a]) as Hp
      by by apply list_attestations_snoc.
    pose proof (voters_perm _ _ Hp) as Hpv. rewrite voters_app in Hpv.
    change (voters [a]) with [v] in Hpv.
    assert (NoDup (voters (list_attestations (sr_settlement_id s) (s_attestations st1)))) as Hnd.
    { rewrite Hpv. apply NoDup_app. split_and!; [done| |apply NoDup_singleton].
      intros x Hx ->%list_elem_of_singleton. done. }
    destruct (refresh_open (sr_settlement_id s) st1 s) as (st' & Hr & Hos' & Hvotes & Ho); try done.
    { intros x. rewrite Hpv, elem_of_app, list_elem_of_singleton. intros [Hx| ->]; [by apply Hm|done]. }
    unfold save_attestations in *. cbn [fst] in st1. fold st1. rewrite Hr. cbn [fst snd].
    exists (refreshed (s_attestations st1) s). split_and!; [done|done| |done..| |done].
    + rewrite Hvotes. unfold votes_in. rewrite (votes_of_perm _ _ _ Hnd Hp), votes_of_snoc.
      unfold Spec.vote. cbn [fst snd a at_validator_id at_accepted]. rewrite Hbond.
      unfold votes_in in Hnone. by rewrite Hnone.
    + by apply alookup_member.
  - destruct Hex as [Hitem Hvote]. rewrite Hvote.
    destruct (Bool.eqb_spec (at_accepted item) accepted) as [Hacc|Hacc].
    + destruct (refresh_open (sr_settlement_id s) st s) as (st' & Hr & Hos' & Hvotes & Ho); try done.
      rewrite Hr. cbn [fst snd]. eexists. split_and!; [done|done|by rewrite Hvotes|done..| |].
      * by apply alookup_member.
      * rewrite Hacc. by destruct accepted.
    + unfold sraise. cbn [fst snd]. exists s. split_and!; [done..| |done].
      f_equal. by destruct accepted, (at_accepted item).
Qed.

(** ** What applying a settlement leaves alone *)

(** The files the votes live in are untouched. *)
Definition kept (st st' : PayoutStore) : Prop :=
  s_settlements (py_settlement st') = s_settlements (py_settlement st)
  ∧ s_attestations (py_settlement st') = s_attestations (py_settlement st).

Definition pkeeps {A} (m : PM A) : Prop := ∀ st, kept st (m st).1.

Lemma pkeeps_bind {A B} (m : PM A) (f : A → PM B) : pkeeps m → (∀ a, pkeeps (f a)) → pkeeps (m ≫= f).
Proof.
  intros Hm Hf st. rewrite PM_bind_eq. specialize (Hm st). destruct (m st) as [st1 [a|e]]; [|done].
  specialize (Hf a st1). unfold kept in *. cbn [fst] in *. intuition congruence.
Qed.

Lemma pkeeps_ret {A} (a : A) : pkeeps (mret a).
Proof. done. Qed.

Lemma pkeeps_pget {A} (f : PayoutStore → A) : pkeeps (pget f).
Proof. done. Qed.

Lemma pkeeps_plift {A} (r : result A) : pkeeps (plift r).
Proof. done. Qed.

Lemma pkeeps_on_chain {A} (m : M A) : pkeeps (on_chain_p m).
Proof. intros st. unfold on_chain_p, on_settlements, on_chain. by destruct (m _). Qed.

Lemma pkeeps_save_payouts l : pkeeps (on_settlements (save_worker_payouts l)).
Proof. done. Qed.

Lemma pkeeps_save_ledger l : pkeeps (save_ledger l).
Proof. done. Qed.

Lemma pkeeps_journal e : pkeeps (append_journal_entry e).
Proof. done. Qed.

Create HintDb settlements_kept.
#[export] Hint Resolve pkeeps_bind pkeeps_ret pkeeps_pget pkeeps_plift pkeeps_on_chain pkeeps_save_payouts
  pkeeps_save_ledger pkeeps_journal : settlements_kept.

Lemma pkeeps_update_wallet w : pkeeps (update_wallet w).
Proof. apply pkeeps_bind; [done|]. intros l. by destruct (put_wallet w l). Qed.
#[export] Hint Resolve pkeeps_update_wallet : settlements_kept.

Lemma pkeeps_credit t ty amount note w : pkeeps (credit_local t ty amount note w).
Proof. unfold credit_local. auto with settlements_kept. Qed.
#[export] Hint Resolve pkeeps_credit : settlements_kept.

(** The fields of an application are those of a settlement that it may change; the audit keeps
    every section but the two that the application writes. *)
Definition application_sections : list string := ["applied"; "chain_balances"].

Record applied_to (now : string) (s s' : SettlementRecord) : Prop := {
  ap_fields : ∃ by_ ai, s' = with_application s (sr_status s') (sr_applied_at s') by_ ai (sr_balance_audit s');
  ap_status : sr_status s' = sr_status s ∧ sr_applied_at s' = sr_applied_at s
    ∨ sr_status s' = "applied"
      ∧ sr_applied_at s' = if filled (sr_applied_at s) then sr_applied_at s else Some now;
  ap_audit : ∀ k, k ∉ application_sections → dget k (sr_balance_audit s') = dget k (sr_balance_audit s)
}.

Lemma applied_to_refl now s : applied_to now s s.
Proof.
  constructor; [|by left|done]. exists (sr_applied_by_validator_id s), (sr_ai_development_credited_wallet_id s).
  by destruct s.
Qed.

Lemma applied_to_trans now s s1 s2 : applied_to now s s1 → applied_to now s1 s2 → applied_to now s s2.
Proof.
  intros [(by1 & ai1 & E1) H1 A1] [(by2 & ai2 & E2) H2 A2]. constructor.
  - exists by2, ai2. rewrite E2 at 1. rewrite E1. done.
  - destruct H1 as [[Hs1 Ha1]|[Hs1 Ha1]], H2 as [[Hs2 Ha2]|[Hs2 Ha2]].
    + left. split; congruence.
    + right. split; [done|]. by rewrite Ha2, Ha1.
    + right. split; congruence.
    + right. split; [done|]. rewrite Ha2. destruct (filled (sr_applied_at s)) eqn:E; rewrite Ha1; [by rewrite E|].
      destruct (filled (Some now)); reflexivity.
  - intros k Hk. by rewrite A2, A1.
Qed.

Lemma applied_to_id now s s' : applied_to now s s' → sr_settlement_id s' = sr_settlement_id s.
Proof. by intros [(by_ & ai & ->) _ _]. Qed.

(** The stored settlement [i] goes from one record to another, the others stay. *)
Record stored_application (now i : string) (st st' : PayoutStore) : Prop := {
  sa_attestations : s_attestations (py_settlement st') = s_attestations (py_settlement st);
  sa_found : ∀ s, resolve_settlement i (s_settlements (py_settlement st)) = Some s →
    ∃ s', resolve_settlement i (s_settlements (py_settlement st')) = Some s' ∧ applied_to now s s';
  sa_others : ∀ j, j ≠ i →
    resolve_settlement j (s_settlements (py_settlement st')) = resolve_settlement j (s_settlements (py_settlement st))
}.

Lemma kept_application now i st st' : kept st st' → stored_application now i st st'.
Proof.
  intros [Hs Ha]. constructor; [done| |by rewrite Hs]. intros s Hf. exists s. rewrite Hs. split; [done|].
  apply applied_to_refl.
Qed.

Lemma stored_application_trans now i st st1 st2 :
  stored_application now i st st1 → stored_application now i st1 st2 → stored_application now i st st2.
Proof.
  intros [A1 F1 O1] [A2 F2 O2]. constructor.
  - by rewrite A2.
  - intros s (s1 & H1 & Ha1)%F1. destruct (F2 s1 H1) as (s2 & H2 & Ha2). exists s2. split; [done|].
    by eapply applied_to_trans.
  - intros j Hj. by rewrite O2, O1.
Qed.

(** Replacing the first record with an id by one with its id and time. *)
Lemma resolve_replace i l s item j :
  resolve_settlement i l = Some s → sr_settlement_id item = i → sr_created_at item = sr_created_at s →
  resolve_settlement j (update_settlement i (λ _, item) (list_settlements l))
  = if decide (j = i) then Some item else resolve_settlement j l.
Proof.
  intros Hs Hid Hc.
  set (f := λ x : SettlementRecord, if decide (x = s) then item else x).
  assert (∀ x, sr_created_at (f x) = sr_created_at x) as Hf by (intros x; unfold f; case_decide; by subst).
  assert (∀ x, sr_settlement_id (f x) = sr_settlement_id x) as Hfi.
  { intros x. unfold f. case_decide; [|done]. subst x. apply resolve_id in Hs. congruence. }
  assert (update_settlement i (λ _, item) (list_settlements l) = update_settlement i f (list_settlements l)) as ->.
  { unfold resolve_settlement in Hs. revert Hs. induction (list_settlements l) as [|x l' IH]; [done|]. cbn.
    destruct (String.eqb _ _); [intros [= ->]; unfold f; by rewrite decide_True|]. intros Hs. by rewrite IH. }
  rewrite resolve_update by done. destruct (String.eqb_spec i j) as [<-|Hne].
  - rewrite decide_True, Hs by done. cbn. unfold f. by rewrite decide_True.
  - by rewrite decide_False by congruence.
Qed.

(** ** Attempts and their abstract votes *)

(** A call of [record_validator_attestation]. *)
Record Attempt := {
  aa_tick : Tick;
  aa_validator_id : string;
  aa_accepted : bool;
  aa_note : option string;
  aa_apply_on_finalize : bool
}.

Definition spec_votes (c : list (string * Z)) (m : Spec.votes) (l : list Attempt) : Spec.votes :=
  foldl (λ m a, Spec.vote c m (aa_validator_id a, aa_accepted a)) m l.

Lemma spec_votes_mono c m l : m ⊆ spec_votes c m l.
Proof.
  unfold spec_votes. revert m. induction l as [|a l IH]; intros m; cbn; [done|].
  etransitivity; [|apply IH]. unfold Spec.vote. cbn [fst snd].
  destruct (alookup _ c), (m !! aa_validator_id a) eqn:E; try done. by apply insert_subseteq.
Qed.

(** The two sides never share bond. *)
Lemma bonds_disjoint c m :
  Forall (λ vb : string * Z, 0 ≤ vb.2) c →
  Spec.bond c m true + Spec.bond c m false ≤ sumZ (map snd c).
Proof.
  unfold Spec.bond. induction 1 as [|[k w] c Hw Hpos IH]; cbn in *; [lia|].
  do 2 case_bool_decide; try congruence; lia.
Qed.

(** A member that only ever accepts ends up with an accepting vote. *)
Lemma spec_votes_accept c m l v :
  v ∈ c.*1 → m !! v ≠ Some false →
  (∀ a, a ∈ l → aa_validator_id a = v → aa_accepted a = true) →
  v ∈ map aa_validator_id l ∨ m !! v = Some true →
  spec_votes c m l !! v = Some true.
Proof.
  intros Hc. unfold spec_votes. revert m.
  induction l as [|a l IH]; intros m Hm Hacc Hin; cbn in *.
  - by destruct Hin as [?%not_elem_of_nil|].
  - rewrite elem_of_cons in Hin.
    destruct (decide (v = aa_validator_id a)) as [Hv|Hv].
    + assert (Spec.vote c m (aa_validator_id a, aa_accepted a) !! v = Some true) as Hnow.
      { rewrite (Hacc a) by (auto; by left). unfold Spec.vote. cbn [fst snd]. rewrite <- Hv.
        apply alookup_member in Hc as [b ->].
        destruct (m !! v) as [[]|] eqn:E; [done..|apply lookup_insert_eq]. }
      apply IH; [by rewrite Hnow| |by right]. intros x Hx. apply Hacc. by right.
    + assert (Spec.vote c m (aa_validator_id a, aa_accepted a) !! v = m !! v) as Hsame.
      { unfold Spec.vote. cbn [fst snd]. repeat case_match; rewrite ?lookup_insert_ne; done. }
      apply IH; rewrite ?Hsame; [done| |naive_solver]. intros x Hx. apply Hacc. by right.
Qed.

Lemma bond_covers c (m : Spec.votes) (A : gset string) :
  Forall (λ vb : string * Z, 0 ≤ vb.2) c →
  (∀ v, v ∈ A → v ∈ c.*1 → m !! v = Some true) →
  sumZ (map (λ vb : string * Z, if bool_decide (vb.1 ∈ A) then vb.2 else 0) c) ≤ Spec.bond c m true.
Proof.
  unfold Spec.bond. induction 1 as [|[k w] c Hw Hpos IH]; cbn in *; [done|]. intros Hall.
  specialize (IH ltac:(intros; apply Hall; [done|by right])).
  do 2 case_bool_decide; try lia. exfalso. rewrite Hall in *; [done|done|by left].
Qed.

Lemma quorum_of_total total :
  0 < _quorum_bond_atomic total → 0 < total ∧ total < 2 * _quorum_bond_atomic total.
Proof.
  unfold _quorum_bond_atomic. destruct (Z.leb_spec total 0) as [Ht|Ht]; [lia|]. intros _.
  split; [done|]. pose proof (Z.div_mod (2 * total + 2) 3 ltac:(done)).
  pose proof (Z.mod_pos_bound (2 * total + 2) 3 ltac:(done)). lia.
Qed.

Section application.
Context `{SignatureBackend} (env : Environ) (policy : option WalletPolicy).

Lemma pkeeps_snapshot t mp l : pkeeps (on_chain_p (chain_backed_ledger_snapshot env policy t mp l)).
Proof. apply pkeeps_on_chain. Qed.

Lemma pkeeps_debit t mp s : pkeeps (debit_source env policy t mp s).
Proof.
  unfold debit_source. destruct (_ <=? 0); [done|]. apply pkeeps_bind; [done|]. intros wallets.
  apply pkeeps_bind; [apply pkeeps_on_chain|]. intros _. destruct (some_or _ _).
  - apply pkeeps_bind; [apply pkeeps_on_chain|]. intros [|]; [|done].
    apply pkeeps_bind; [apply pkeeps_on_chain|]. intros before. destruct (before <? _); auto with settlements_kept.
  - apply pkeeps_bind; [apply pkeeps_on_chain|]. intros before. by destruct (before <? _).
Qed.

Lemma pkeeps_apply_record t b item : pkeeps (_apply_finalized_worker_payout_record t b item).
Proof.
  unfold _apply_finalized_worker_payout_record. destruct (wp_recipient_address item); [|done].
  apply pkeeps_bind; [done|]. intros wallets. destruct (find_wallet_by_address _ _); [|done].
  apply pkeeps_bind; [|done]. case_bool_decide; auto with settlements_kept.
Qed.
#[local] Hint Resolve pkeeps_apply_record : settlements_kept.

Lemma pkeeps_apply_payouts t rewards i l : pkeeps (apply_payouts t rewards i l).
Proof.
  induction l as [|item l IH]; cbn [apply_payouts]; [done|]. destruct (_ || _); auto 10 with settlements_kept.
Qed.
#[local] Hint Resolve pkeeps_apply_payouts : settlements_kept.

Lemma pkeeps_worker_payouts t s : pkeeps (_apply_finalized_worker_payouts t s).
Proof.
  unfold _apply_finalized_worker_payouts. repeat (apply pkeeps_bind; [auto with settlements_kept|intros ?]).
  - case_match; auto with settlements_kept.
  - done.
Qed.

(** The application goes through [now], the settlement [s] it works with is the stored one. *)
Definition working (i : string) (st : PayoutStore) (s : SettlementRecord) : Prop :=
  resolve_settlement i (s_settlements (py_settlement st)) = Some s.

Lemma save_item_stored l i s item st :
  resolve_settlement i l = Some s → sr_settlement_id item = i → sr_created_at item = sr_created_at s →
  (∀ j, j ≠ i → resolve_settlement j (s_settlements (py_settlement st)) = resolve_settlement j l) →
  working i (save_item (list_settlements l) item st).1 item
  ∧ s_attestations (py_settlement (save_item (list_settlements l) item st).1) = s_attestations (py_settlement st)
  ∧ (save_item (list_settlements l) item st).2 = Ok tt
  ∧ ∀ j, j ≠ i → resolve_settlement j (s_settlements (py_settlement (save_item (list_settlements l) item st).1))
                = resolve_settlement j (s_settlements (py_settlement st)).
Proof.
  intros Hs Hid Hc Ho. unfold working, save_item, on_settlements, save_settlements.
  cbn [fst snd py_settlement with_settlement s_settlements s_attestations]. subst i. split_and!; [|done..|].
  - erewrite resolve_replace by done. by rewrite decide_True.
  - intros j Hj. erewrite resolve_replace by done. rewrite decide_False by done. by rewrite Ho.
Qed.

Lemma applied_audit_sections s b a w audit k :
  _with_applied_balance_audit s b a w = Ok audit → k ≠ "applied" → dget k audit = dget k (sr_balance_audit s).
Proof.
  unfold _with_applied_balance_audit. intros Hrun Hk.
  repeat (apply bind_ok in Hrun as (? & _ & Hrun)). injection Hrun as <-.
  rewrite dget_dset. by rewrite (proj2 (String.eqb_neq k "applied") Hk).
Qed.

Lemma pkeeps_run {A} (m : PM A) st st' r : pkeeps m → m st = (st', r) → kept st st'.
Proof. intros Hk Hrun. specialize (Hk st). by rewrite Hrun in Hk. Qed.

Lemma kept_working i st st' s : kept st st' → working i st s → working i st' s.
Proof. unfold working. by intros [-> _]. Qed.

Lemma kept_trans st st1 st2 : kept st st1 → kept st1 st2 → kept st st2.
Proof. unfold kept. intuition congruence. Qed.

(** Storing the settlement a step of the application changed; [st0] is the store its list of
    settlements was read from. *)
Lemma save_item_application i now s0 s s1 st0 st :
  working i st0 s0 → sr_created_at s0 = sr_created_at s → working i st s → applied_to now s s1 → s_attestations (py_settlement st) = s_attestations (py_settlement st0) →
  (∀ j, j ≠ i → resolve_settlement j (s_settlements (py_settlement st))
               = resolve_settlement j (s_settlements (py_settlement st0))) →
  ∃ st1, save_item (list_settlements (s_settlements (py_settlement st0))) s1 st = (st1, Ok tt)
    ∧ working i st1 s1 ∧ stored_application now i st st1.
Proof.
  intros Hs0 Hc0 Hs Hap Ha Ho. assert (sr_settlement_id s1 = i) as Hid.
  { rewrite (applied_to_id _ _ _ Hap). by eapply resolve_id. }
  destruct (save_item_stored (s_settlements (py_settlement st0)) i s0 s1 st Hs0 Hid) as (Hw & Ha1 & Hok & Ho1);
    [rewrite Hc0; by destruct Hap as [(? & ? & ->) _ _]|done|].
  destruct (save_item _ _ _) as [st1 r]. cbn [fst snd] in *. subst r. exists st1. split_and!; [done..|].
  constructor; [done| |done]. intros x Hx. unfold working in *. rewrite Hs in Hx. injection Hx as <-. by exists s1.
Qed.

Lemma apply_funding_stored t mp v i s st st1 r :
  working i st s →
  apply_funding env policy t mp v (list_settlements (s_settlements (py_settlement st))) s st = (st1, r) →
  stored_application (now t) i st st1
  ∧ match r with
    | Ok s1 => working i st1 s1 ∧ applied_to (now t) s s1 ∧ sr_status s1 = "applied"
    | Err _ => True
    end.
Proof.
  intros Hs. unfold apply_funding. destruct (filled (sr_applied_at s)) eqn:Hfilled.
  - destruct (String.eqb_spec (sr_status s) "applied") as [Hst|Hst].
    + intros [= <- <-]. split; [by apply kept_application|]. split_and!; [done|apply applied_to_refl|done].
    + set (s1 := with_application s "applied" _ _ _ _). rewrite PM_bind_eq.
      assert (applied_to (now t) s s1) as Hap.
      { constructor; [by eexists _, _| |done]. right. cbn. by rewrite Hfilled. }
      destruct (save_item_application i (now t) s s s1 st st Hs eq_refl Hs Hap eq_refl ltac:(done)) as (st2 & -> & Hw & Hsa).
      by intros [= <- <-].
  - intros Hrun. rewrite PM_bind_eq in Hrun. unfold pget at 1 in Hrun. rewrite PM_bind_eq in Hrun.
    destruct (on_chain_p _ st) as [st2 [ledger|e]] eqn:H2; apply pkeeps_run in H2; try apply pkeeps_on_chain.
    2: { injection Hrun as <- <-. split; [by apply kept_application|done]. }
    destruct (_ <? _); [injection Hrun as <- <-; split; [by apply kept_application|done]|].
    rewrite PM_bind_eq in Hrun.
    destruct (debit_source _ _ _ _ _ st2) as [st3 [wallet|e]] eqn:H3; apply pkeeps_run in H3; try apply pkeeps_debit.
    2: { injection Hrun as <- <-. split; [apply kept_application; by eapply kept_trans|done]. }
    rewrite PM_bind_eq in Hrun. cbn [save_ledger] in Hrun. rewrite PM_bind_eq in Hrun.
    unfold plift in Hrun. set (st4 := {| py_settlement := py_settlement st3 |}) in Hrun.
    assert (kept st st4) as H4 by (eapply kept_trans; [exact H2|exact H3]).
    destruct (_with_applied_balance_audit _ _ _ _) as [audit|e] eqn:Haudit.
    2: { injection Hrun as <- <-. split; [by apply kept_application|done]. }
    set (s1 := with_application s "applied" _ _ _ _) in Hrun. rewrite PM_bind_eq in Hrun.
    assert (applied_to (now t) s s1) as Hap.
    { constructor; [by eexists _, _|right; cbn; by rewrite Hfilled|]. intros k Hk. cbn.
      eapply applied_audit_sections; [exact Haudit|]. intros ->. apply Hk. by left. }
    destruct (save_item_application i (now t) s s s1 st st4 Hs eq_refl (kept_working _ _ _ _ H4 Hs) Hap (proj2 H4))
      as (st5 & Hsave & Hw & Hsa); [intros j _; by rewrite (proj1 H4)|].
    rewrite Hsave in Hrun. injection Hrun as <- <-. split; [|done].
    eapply stored_application_trans; [by apply kept_application|exact Hsa].
Qed.

Lemma ai_fee_kept t s st st1 r :
  _apply_finalized_ai_development_fee t s st = (st1, r) →
  kept st st1
  ∧ match r with
    | Ok (s1, credited) =>
        (∃ ai, s1 = with_application s (sr_status s) (sr_applied_at s) (sr_applied_by_validator_id s) ai (sr_balance_audit s))
        ∧ (credited = false → s1 = s)
    | Err _ => True
    end.
Proof.
  unfold _apply_finalized_ai_development_fee. destruct (_ || _).
  - intros [= <- <-]. split; [done|]. split; [|done]. exists (sr_ai_development_credited_wallet_id s). by destruct s.
  - rewrite PM_bind_eq. unfold pget. destruct (some_or _ _) as [w|].
    + rewrite PM_bind_eq. destruct (credit_local _ _ _ _ _ _) as [st2 [u|e]] eqn:Hc; intros [= <- <-];
        apply pkeeps_run in Hc; try apply pkeeps_credit; (split; [done|]); [|done]. split; [by eexists|done].
    + intros [= <- <-]. split; [done|]. split; [|done]. exists (sr_ai_development_credited_wallet_id s). by destruct s.
Qed.

(** A run that leaves the votes alone but for the section of [s]'s audit on the balances. *)
Definition balances_saved (s : SettlementRecord) (ss ss' : SettlementStore) : Prop :=
  s_attestations ss' = s_attestations ss
  ∧ (s_settlements ss' = s_settlements ss
     ∨ ∃ a, s_settlements ss'
            = update_settlement (sr_settlement_id s)
                (λ x, with_balance_audit x (dset "chain_balances" a (sr_balance_audit s)))
                (list_settlements (s_settlements ss))).

Definition sm_keeps {A} (m : SM A) : Prop := ∀ ss,
  s_settlements (m ss).1 = s_settlements ss ∧ s_attestations (m ss).1 = s_attestations ss.

Definition saves {A} (s : SettlementRecord) (m : SM A) : Prop := ∀ ss, balances_saved s ss (m ss).1.

Lemma sm_keeps_on_chain {A} (m : M A) : sm_keeps (on_chain m).
Proof. intros ss. unfold on_chain. by destruct (m _). Qed.

Lemma pkeeps_saves {A} s (m : SM A) : sm_keeps m → saves s m.
Proof. intros Hm ss. destruct (Hm ss) as [? ?]. split; [done|by left]. Qed.

Lemma saves_after {A B} s (m : SM A) (f : A → SM B) : sm_keeps m → (∀ a, saves s (f a)) → saves s (m ≫= f).
Proof.
  intros Hm Hf ss. specialize (Hm ss). unfold mbind, SM_bind. destruct (m ss) as [ss1 [a|e]]; cbn [fst] in *.
  - destruct Hm as [Hs Ha]. specialize (Hf a ss1). unfold balances_saved in *. by rewrite Hs, Ha in Hf.
  - destruct Hm. split; [done|by left].
Qed.

Lemma saves_before {A B} s (m : SM A) (f : A → SM B) : saves s m → (∀ a, sm_keeps (f a)) → saves s (m ≫= f).
Proof.
  intros Hm Hf ss. specialize (Hm ss). unfold mbind, SM_bind. destruct (m ss) as [ss1 [a|e]]; cbn [fst] in *; [|done].
  specialize (Hf a ss1). destruct Hf as [Hs Ha]. unfold balances_saved in *. by rewrite Hs, Ha.
Qed.

Lemma saves_audit t s targets n : saves s (_record_settlement_chain_balance_audit env policy t s targets n).
Proof.
  apply saves_after; [apply sm_keeps_on_chain|]. intros [|e l]; [by apply pkeeps_saves|]. intros ss.
  unfold _save_settlement_balance_audit, mbind, SM_bind, sget. destruct (List.find _ _); cbn [fst].
  - split; [done|]. right. by eexists.
  - split; [done|by left].
Qed.

Lemma saves_chain_entries t mp s : saves s (record_chain_entries_for_settlement env policy t mp s).
Proof.
  unfold record_chain_entries_for_settlement. destruct (negb _); [by apply pkeeps_saves|].
  repeat (apply saves_after; [done || apply sm_keeps_on_chain|intros ?]).
  destruct (foldl _ _ _) as [updated changed]. apply saves_after; [by destruct changed|]. intros _.
  apply saves_after.
  - destruct (pending_transactions _ _); [done|]. intros ss. unfold mbind, SM_bind.
    pose proof (sm_keeps_on_chain (append_chain_block env policy t (c :: l) (val_opt (sr_applied_by_validator_id s))) ss) as Hk.
    by destruct (on_chain _ ss) as [ss1 [?|?]].
  - intros _. apply saves_before; [apply saves_audit|done].
Qed.

(** The chain entries of the working settlement change the section on balances of its audit. *)
Lemma chain_entries_stored t mp i s st st' r :
  working i st s →
  on_settlements (record_chain_entries_for_settlement env policy t mp s) st = (st', r) →
  stored_application (now t) i st st' ∧ ∃ s', working i st' s' ∧ sr_status s' = sr_status s.
Proof.
  intros Hs Hrun. unfold on_settlements in Hrun. pose proof (saves_chain_entries t mp s (py_settlement st)) as Hsaved.
  destruct (record_chain_entries_for_settlement _ _ _ _ _ _) as [ss r']. injection Hrun as <- _.
  apply resolve_id in Hs as Hid. destruct Hsaved as [Ha [Hsame|[a Hput]]]; cbn [fst] in *.
  - split; [by apply kept_application|]. exists s. split; [|done]. unfold working. cbn. by rewrite Hsame.
  - assert (∀ j, resolve_settlement j (s_settlements ss)
      = if String.eqb i j
        then (λ x, with_balance_audit x (dset "chain_balances" a (sr_balance_audit s)))
               <$> resolve_settlement j (s_settlements (py_settlement st))
        else resolve_settlement j (s_settlements (py_settlement st))) as Hview
      by (intros j; rewrite Hput, Hid; by apply resolve_update).
    assert (resolve_settlement i (s_settlements ss)
      = Some (with_balance_audit s (dset "chain_balances" a (sr_balance_audit s)))) as Hi
      by (rewrite Hview, String.eqb_refl; unfold working in Hs; by rewrite Hs).
    split; [|by eexists]. constructor; cbn [py_settlement with_settlement]; [done| |].
    + intros x Hx. unfold working in Hs. rewrite Hs in Hx. injection Hx as <-. eexists. split; [exact Hi|].
      constructor; [|by left|].
      * by exists (sr_applied_by_validator_id s), (sr_ai_development_credited_wallet_id s).
      * intros k Hk. cbn [sr_balance_audit with_balance_audit]. rewrite dget_dset, (proj2 (String.eqb_neq k "chain_balances")); [done|].
        intros ->. apply Hk. by right; left.
    + intros j Hj. by rewrite Hview, (proj2 (String.eqb_neq i j)) by congruence.
Qed.

(** Applying a settlement changes it as [applied_to] allows and leaves the votes and the other
    settlements alone, whatever it raises; one that ends leaves the settlement applied. *)
Lemma apply_stored t mp i v st st' r :
  apply_finalized_settlement env policy t mp i v st = (st', r) →
  stored_application (now t) i st st'
  ∧ ∀ s o, working i st s → sr_status s ∈ ["finalized"; "applied"] → r = Ok o →
      ∃ s', working i st' s' ∧ sr_status s' = "applied".
Proof.
  unfold apply_finalized_settlement. rewrite PM_bind_eq. unfold pget at 1.
  fold (resolve_settlement i (s_settlements (py_settlement st))).
  destruct (resolve_settlement i (s_settlements (py_settlement st))) as [s|] eqn:Hs.
  2: { intros [= <- <-]. split; [by apply kept_application|]. intros s o Hw. unfold working in Hw. congruence. }
  fold (working i st s) in Hs. destruct (negb _) eqn:Hst.
  { intros [= <- <-]. split; [by apply kept_application|]. intros x o Hw Hx _. unfold working in *.
    rewrite Hs in Hw. injection Hw as <-. apply negb_true_iff, orb_false_iff in Hst as [H1%String.eqb_neq H2%String.eqb_neq].
    set_solver. }
  rewrite PM_bind_eq. destruct (apply_funding _ _ _ _ _ _ _ st) as [st1 [s1|e]] eqn:H1;
    apply (apply_funding_stored _ _ _ i) in H1 as [Hsa1 H1]; try done.
  2: { by intros [= <- <-]. }
  destruct H1 as (Hw1 & Hap1 & Hst1). rewrite PM_bind_eq.
  destruct (_apply_finalized_ai_development_fee _ _ _) as [st2 [[s2 credited]|e]] eqn:H2; apply ai_fee_kept in H2 as [Hk2 H2].
  2: { intros [= <- <-]. split; [|done]. eapply stored_application_trans; [done|by apply kept_application]. }
  destruct H2 as [[ai Hs2] Hnot]. rewrite PM_bind_eq.
  assert (applied_to (now t) s1 s2) as Hap2.
  { subst s2. constructor; [by eexists _, _|by left|done]. }
  assert (∃ st3, (if credited then save_item (list_settlements (s_settlements (py_settlement st))) s2 else mret tt) st2
                 = (st3, Ok tt) ∧ working i st3 s2 ∧ stored_application (now t) i st2 st3) as (st3 & -> & Hw3 & Hsa3).
  { pose proof (kept_working _ _ _ _ Hk2 Hw1) as Hw2. pose proof (stored_application_trans _ _ _ _ _ Hsa1
      (kept_application _ _ _ _ Hk2)) as Hsa2.
    destruct credited.
    - apply (save_item_application i (now t) s s1); [done| |done..|apply Hsa2|apply Hsa2].
      by destruct Hap1 as [(? & ? & ->) _ _].
    - rewrite (Hnot eq_refl). exists st2. split_and!; [done..|]. by apply kept_application. }
  rewrite PM_bind_eq.
  assert (stored_application (now t) i st st3) as Hsa.
  { eapply stored_application_trans; [exact Hsa1|]. eapply stored_application_trans; [by apply kept_application|done]. }
  destruct (_apply_finalized_worker_payouts t s2 st3) as [st4 [l|e]] eqn:H4; apply pkeeps_run in H4;
    try apply pkeeps_worker_payouts.
  2: { intros [= <- <-]. split; [|done]. eapply stored_application_trans; [done|by apply kept_application]. }
  rewrite PM_bind_eq. pose proof (kept_working _ _ _ _ H4 Hw3) as Hw4.
  destruct (on_settlements _ st4) as [st5 r5] eqn:H5. apply (chain_entries_stored t mp i s2) in H5 as [Hsa5 (s' & Hw5 & Hst5)]; [|done].
  assert (stored_application (now t) i st st5) as Hsa'.
  { eapply stored_application_trans; [exact Hsa|]. eapply stored_application_trans; [by apply kept_application|done]. }
  destruct r5; intros [= <- <-]; (split; [done|]); [|done]. intros x o _ _ _. exists s'. split; [done|].
  rewrite Hst5, Hs2. done.
Qed.

(** ** Voting, with and without the application *)

(** The committee of a settlement, which votes and applications leave alone. *)
Definition same_committee (s s' : SettlementRecord) : Prop :=
  sr_settlement_id s' = sr_settlement_id s
  ∧ sr_committee_bonded s' = sr_committee_bonded s
  ∧ sr_committee_validator_ids s' = sr_committee_validator_ids s
  ∧ sr_committee_quorum_bond_atomic s' = sr_committee_quorum_bond_atomic s.

Lemma same_committee_trans s s1 s2 : same_committee s s1 → same_committee s1 s2 → same_committee s s2.
Proof. unfold same_committee. intuition congruence. Qed.

(** An application keeps the votes; the status is the one of the votes with the new time. *)
Lemma application_open i st st' now s :
  stored_application now i st st' → now ≠ "" → sr_settlement_id s = i → open_settlement (py_settlement st) s →
  sr_status s = "finalized" →
  ∃ s', open_settlement (py_settlement st') s' ∧ same_committee s s' ∧ working i st' s'
    ∧ votes_in (py_settlement st') s' = votes_in (py_settlement st) s
    ∧ (sr_applied_at s' = sr_applied_at s ∨ sr_applied_at s' = Some now ∧ sr_status s' = "applied").
Proof.
  intros [Ha Hf _] Hnow Hid [Hs Hk Hc Hne Hv Hm Hst] Hfin. rewrite Hid in Hs.
  destruct (Hf s Hs) as (s' & Hs' & [(by_ & ai & Es') Hstatus _]).
  assert (sr_settlement_id s' = i) as Hid' by by rewrite Es'.
  assert (votes_in (py_settlement st') s' = votes_in (py_settlement st) s) as Hvotes.
  { unfold votes_in. rewrite Ha, Hid', Es', Hid. done. }
  assert (filled (sr_applied_at s) = false) as Hnot.
  { rewrite Hst in Hfin. unfold spec_status, Spec.status, quorum_status in Hfin. by repeat case_match. }
  exists s'. split_and!; [|by rewrite Es'|done|done|].
  - rewrite <- Hid' in Hs'. constructor; rewrite ?Ha; [done|by rewrite Es'..| |].
    + rewrite Hid', <- Hid. by rewrite Es'.
    + rewrite Hvotes. destruct Hstatus as [[Hs1 Ha1]|[Hs1 Ha1]].
      * rewrite Hs1, Hst. unfold spec_status. rewrite Ha1, Es'. done.
      * rewrite Hs1. rewrite Hnot in Ha1. rewrite Hst in Hfin. unfold spec_status, Spec.status, quorum_status in *.
        rewrite Ha1, Es'. cbn [sr_committee_bonded sr_committee_quorum_bond_atomic with_application].
        destruct (sr_committee_quorum_bond_atomic s <=? 0); [done|].
        destruct (sr_committee_quorum_bond_atomic s <=? _); [|by case_match].
        cbn [filled]. by rewrite (proj2 (String.eqb_neq now "")).
  - destruct Hstatus as [[_ Ha1]|[Hs1 Ha1]]; [by left|right]. by rewrite Hnot in Ha1.
Qed.

(** What a vote leaves: a settlement with the same committee, the votes after it, and the error a
    call can end with. *)
Record vote_recorded (t : Tick) (v : string) (accepted apply : bool) (st st' : PayoutStore) (s s' : SettlementRecord)
    (r : result ValidatorAttestation) : Prop := {
  vr_open : open_settlement (py_settlement st') s';
  vr_committee : same_committee s s';
  vr_votes : votes_in (py_settlement st') s'
             = Spec.vote (sr_committee_bonded s) (votes_in (py_settlement st) s) (v, accepted);
  vr_others : ∀ j, j ≠ sr_settlement_id s →
    resolve_settlement j (s_settlements (py_settlement st'))
    = resolve_settlement j (s_settlements (py_settlement st));
  vr_applied : sr_applied_at s' = sr_applied_at s
    ∨ apply = true ∧ sr_applied_at s' = Some (now t) ∧ sr_status s' = "applied";
  vr_result :
    match r with
    | Ok a => at_validator_id a = v ∧ at_accepted a = accepted ∧ Spec.member (sr_committee_bonded s) v
              ∧ votes_in (py_settlement st) s !! v ≠ Some (negb accepted)
              ∧ (apply = true → sr_status s' ≠ "finalized")
    | Err e =>
        ¬ Spec.member (sr_committee_bonded s) v ∧ st' = st
          ∧ e = ValueError "Validator is not a member of this settlement committee."
        ∨ votes_in (py_settlement st) s !! v = Some (negb accepted) ∧ st' = st
          ∧ (∃ i, e = ConflictingAttestationError i)
        ∨ apply = true ∧ Spec.member (sr_committee_bonded s) v
          ∧ votes_in (py_settlement st) s !! v ≠ Some (negb accepted)
          ∧ spec_status s (Spec.vote (sr_committee_bonded s) (votes_in (py_settlement st) s) (v, accepted))
            = "finalized"
    end
}.

Lemma with_settlement_id st : with_settlement st (py_settlement st) = st.
Proof. by destruct st. Qed.

Lemma vote_effect t v accepted note apply st s :
  now t ≠ "" → open_settlement (py_settlement st) s →
  ∃ s', vote_recorded t v accepted apply st
    (record_validator_attestation env policy t (sr_settlement_id s) v accepted note apply st).1 s s'
    (record_validator_attestation env policy t (sr_settlement_id s) v accepted note apply st).2.
Proof.
  intros Hnow Hopen. unfold record_validator_attestation. rewrite PM_bind_eq. unfold on_settlements.
  destruct (attestation_effect (token t) (now t) v accepted note (py_settlement st) s Hopen)
    as (s1 & Hos1 & Hsame & Hvotes & Hother & Hres).
  assert (same_committee s s1) as Hsc by (destruct Hsame as (? & ? & ? & ? & _); done).
  destruct (record_attestation _ _ _ _ _ _ _) as [ss r1]. cbn [fst snd] in *.
  destruct r1 as [[a x]|e].
  2: { exists s1. cbn [fst snd]. constructor; try done; [left; apply Hsame|].
       destruct e; try done; (destruct Hres as [Hm Hst]).
       - destruct Hst as [-> ->]. left. by rewrite with_settlement_id.
       - subst ss. right; left. rewrite with_settlement_id. split_and!; [done..|]. by eexists. }
  destruct Hres as (-> & Ha1 & Ha2 & Hmem & Hvote).
  destruct (apply && String.eqb (sr_status s1) "finalized") eqn:Happly.
  2: { exists s1. cbn [fst snd]. constructor; try done; [left; apply Hsame|]. split_and!; [done..|].
       intros ->. by apply String.eqb_neq in Happly. }
  apply andb_prop in Happly as [-> Hfin%String.eqb_eq]. rewrite PM_bind_eq.
  destruct (apply_finalized_settlement _ _ _ _ _ _ _) as [st2 r2] eqn:Hrun.
  pose proof Hsame as (Hid & _). apply apply_stored in Hrun as [Hsa Hok].
  destruct (application_open _ _ _ _ s1 Hsa Hnow Hid Hos1 Hfin) as (s2 & Hos2 & Hsc2 & Hw & Hv2 & Hap).
  assert (spec_status s (Spec.vote (sr_committee_bonded s) (votes_in (py_settlement st) s) (v, accepted)) = "finalized") as Hspec.
  { rewrite <- Hvotes, <- (spec_status_terms _ _ _ Hsame), <- Hfin. symmetry. apply Hos1. }
  assert (∀ r, match r with
               | Ok a => at_validator_id a = v ∧ at_accepted a = accepted ∧ sr_status s2 ≠ "finalized"
               | Err _ => True
               end → vote_recorded t v accepted true st st2 s s2 r) as Hmk.
  { intros r Hr. constructor; [done|by eapply same_committee_trans|by rewrite Hv2| | |].
    - intros j Hj. rewrite (sa_others _ _ _ _ Hsa) by done. by apply Hother.
    - destruct Hsame as (_ & _ & _ & _ & <-). destruct Hap; [by left|by right].
    - destruct r as [b|e]; [|by right; right]. destruct Hr as (? & ? & ?). by split_and!. }
  exists s2. destruct r2 as [o|e]; apply Hmk; [|done]. split_and!; [done..|].
  destruct (Hok s1 o) as (s3 & Hw3 & Hst3); [|set_solver|done|].
  - unfold working. cbn [py_settlement with_settlement]. rewrite <- Hid. apply Hos1.
  - unfold working in *. rewrite Hw in Hw3. injection Hw3 as <-. by rewrite Hst3.
Qed.

(** C9: recording a validator's attestation implements the abstract vote, with the default
    [apply_on_finalize=True] as well as without: on a settlement with a well-formed committee
    whose status is the one of its votes, every call leaves such a settlement with the same
    committee and quorum; the votes afterwards are the abstract vote of the votes before (the
    first vote of a member stands, a later or a foreign one changes nothing); the stored status
    is the status of the votes, given the time of application, which only a call that applies
    sets; no other settlement changes.  A call returns an attestation with the caller's position
    only when the validator is a member that has not voted the opposite, and then a settlement
    that was to be applied is no longer just finalized; it raises [ValueError] for a non-member
    and [ConflictingAttestationError] for the opposite vote, both without any change, and
    otherwise only what applying a settlement that this vote left finalized raises: the vote is
    then recorded all the same. *)
Theorem attestation_refines_vote t v accepted note apply st s
    (Hclock : now t ≠ "") (Hopen : open_settlement (py_settlement st) s) :
  let '(st', r) := record_validator_attestation env policy t (sr_settlement_id s) v accepted note apply st in
  ∃ s', open_settlement (py_settlement st') s' ∧ same_committee s s'
    ∧ votes_in (py_settlement st') s'
      = Spec.vote (sr_committee_bonded s) (votes_in (py_settlement st) s) (v, accepted)
    ∧ sr_status s'
      = spec_status s' (Spec.vote (sr_committee_bonded s) (votes_in (py_settlement st) s) (v, accepted))
    ∧ (∀ j, j ≠ sr_settlement_id s →
         resolve_settlement j (s_settlements (py_settlement st'))
         = resolve_settlement j (s_settlements (py_settlement st)))
    ∧ (sr_applied_at s' = sr_applied_at s
       ∨ apply = true ∧ sr_applied_at s' = Some (now t) ∧ sr_status s' = "applied")
    ∧ match r with
      | Ok a => at_validator_id a = v ∧ at_accepted a = accepted ∧ Spec.member (sr_committee_bonded s) v
                ∧ votes_in (py_settlement st) s !! v ≠ Some (negb accepted)
                ∧ (apply = true → sr_status s' ≠ "finalized")
      | Err e =>
          ¬ Spec.member (sr_committee_bonded s) v ∧ st' = st
            ∧ e = ValueError "Validator is not a member of this settlement committee."
          ∨ votes_in (py_settlement st) s !! v = Some (negb accepted) ∧ st' = st
            ∧ (∃ i, e = ConflictingAttestationError i)
          ∨ apply = true ∧ Spec.member (sr_committee_bonded s) v
            ∧ votes_in (py_settlement st) s !! v ≠ Some (negb accepted)
            ∧ spec_status s (Spec.vote (sr_committee_bonded s) (votes_in (py_settlement st) s) (v, accepted))
              = "finalized"
      end.
Proof using H.
  destruct (vote_effect t v accepted note apply st s Hclock Hopen) as (s' & [Hos Hsc Hvotes Hother Hap Hres]).
  destruct (record_validator_attestation _ _ _ _ _ _ _ _ _) as [st' r]. cbn [fst snd] in *.
  exists s'. split_and!; try done. rewrite (os_status _ _ Hos), Hvotes. done.
Qed.

(** ** Sequences of attempts *)

Definition attempt (sid : string) (st : PayoutStore) (a : Attempt) : PayoutStore :=
  (record_validator_attestation env policy (aa_tick a) sid (aa_validator_id a) (aa_accepted a) (aa_note a)
     (aa_apply_on_finalize a) st).1.

(** Any number of attempts in any order, the refused and the failing ones included. *)
Definition attempts (sid : string) (st : PayoutStore) (l : list Attempt) : PayoutStore :=
  foldl (attempt sid) st l.

Lemma attempts_refine l st s :
  (∀ a, a ∈ l → now (aa_tick a) ≠ "") → open_settlement (py_settlement st) s →
  ∃ s', open_settlement (py_settlement (attempts (sr_settlement_id s) st l)) s' ∧ same_committee s s'
    ∧ votes_in (py_settlement (attempts (sr_settlement_id s) st l)) s'
      = spec_votes (sr_committee_bonded s) (votes_in (py_settlement st) s) l
    ∧ (sr_applied_at s' = sr_applied_at s
       ∨ ∃ a, a ∈ l ∧ aa_apply_on_finalize a = true ∧ sr_applied_at s' = Some (now (aa_tick a))).
Proof using H.
  unfold attempts. revert st s. induction l as [|a l IH]; intros st s Hl Hos; cbn; [exists s; split_and!; [done..|by left]|].
  destruct (vote_effect (aa_tick a) (aa_validator_id a) (aa_accepted a) (aa_note a) (aa_apply_on_finalize a) st s
              (Hl a ltac:(by left)) Hos) as (s1 & [Hos1 Hsame1 Hvotes1 _ Hap1 _]).
  fold (attempt (sr_settlement_id s) st a) in Hos1, Hvotes1.
  destruct (IH _ _ (λ x Hx, Hl x (list_elem_of_further _ _ _ Hx)) Hos1) as (s' & Hos' & Hsame' & Hvotes' & Hap').
  pose proof Hsame1 as (Hid & Hb & _). rewrite Hid in *. rewrite Hb in *.
  exists s'. split_and!; [exact Hos'|by eapply same_committee_trans|etransitivity; [exact Hvotes'|]; f_equal; exact Hvotes1|].
  destruct Hap' as [->|(x & Hx & ? & ?)]; [|right; exists x; split_and!; [by right|done..]].
  destruct Hap1 as [->|(? & ? & _)]; [by left|]. right. exists a. split_and!; [by left|done..].
Qed.

(** C10: a decision is final: on a settlement whose quorum is the two-thirds quorum of its
    committee's bond, once the status is anything but ["pending"] no sequence of calls to
    record attestations, by any validators, with any positions, in any order, with and without
    the application and with the errors it may raise, changes it, but for the application
    itself: a finalized settlement may become applied, at the time of a call that applies. *)
Theorem decided_status_final (st : PayoutStore) (s : SettlementRecord) (l : list Attempt)
    (Hclocks : ∀ a, a ∈ l → now (aa_tick a) ≠ "")
    (Hopen : open_settlement (py_settlement st) s)
    (Hbonds : Forall (λ vb : string * Z, 0 ≤ vb.2) (sr_committee_bonded s))
    (Hquorum : sr_committee_quorum_bond_atomic s
               = _quorum_bond_atomic (sumZ (map snd (sr_committee_bonded s))))
    (Hdecided : sr_status s ≠ "pending") :
  ∃ s', resolve_settlement (sr_settlement_id s)
          (s_settlements (py_settlement (attempts (sr_settlement_id s) st l))) = Some s'
    ∧ (sr_status s' = sr_status s
       ∨ sr_status s = "finalized" ∧ sr_status s' = "applied"
         ∧ ∃ a, a ∈ l ∧ aa_apply_on_finalize a = true ∧ sr_applied_at s' = Some (now (aa_tick a))).
Proof using H.
  destruct (attempts_refine l st s Hclocks Hopen) as (s' & Hos' & Hsame & Hvotes & Hap).
  pose proof Hsame as (Hid & Hb & _ & Hq'). exists s'. split; [rewrite <- Hid at 1; apply Hos'|].
  rewrite (os_status _ _ Hos'), Hvotes, (os_status _ _ Hopen).
  rewrite (os_status _ _ Hopen) in Hdecided.
  pose proof (spec_votes_mono (sr_committee_bonded s) (votes_in (py_settlement st) s) l) as Hmono.
  set (m := votes_in (py_settlement st) s) in *. set (m' := spec_votes _ m l) in *.
  pose proof (bond_mono _ _ _ true Hbonds Hmono). pose proof (bond_mono _ _ _ false Hbonds Hmono).
  pose proof (bonds_disjoint _ m Hbonds). pose proof (bonds_disjoint _ m' Hbonds).
  unfold spec_status, Spec.status, quorum_status in *. rewrite Hb, Hq', Hquorum in *.
  pose proof (quorum_of_total (sumZ (map snd (sr_committee_bonded s)))) as Hq.
  destruct (Z.leb_spec (_quorum_bond_atomic (sumZ (map snd (sr_committee_bonded s)))) 0) as [|Hpos]; [done|].
  specialize (Hq Hpos).
  destruct Hap as [->|(a & Ha & Happly & Hat)].
  - left. repeat case_match; bool_to_prop; try done; lia.
  - assert (filled (sr_applied_at s') = true) as Hf.
    { rewrite Hat. cbn. apply negb_true_iff, String.eqb_neq. by apply Hclocks. }
    rewrite Hf. repeat case_match; bool_to_prop; try done; try lia; try (by left).
    right. split_and!; [done..|]. by exists a.
Qed.

(** C11: the votes of a quorum finalise: from any point at which no member of a set [A] has
    rejected, let [A]'s bond reach the quorum, let every member of [A] call with an acceptance
    at least once and never with a rejection; then, whatever the other validators call, before,
    between or after, and whatever an application raises, the settlement ends up finalized, or
    applied when it carries an application time: its old one or that of a call that applies. *)
Theorem quorum_of_accepts_finalises (st : PayoutStore) (s : SettlementRecord)
    (l : list Attempt) (A : gset string)
    (Hclocks : ∀ a, a ∈ l → now (aa_tick a) ≠ "")
    (Hopen : open_settlement (py_settlement st) s)
    (Hbonds : Forall (λ vb : string * Z, 0 ≤ vb.2) (sr_committee_bonded s))
    (Hpos : 0 < sr_committee_quorum_bond_atomic s)
    (Hquorum : sr_committee_quorum_bond_atomic s
               ≤ sumZ (map (λ vb : string * Z, if bool_decide (vb.1 ∈ A) then vb.2 else 0)
                         (sr_committee_bonded s)))
    (Hbefore : ∀ v, v ∈ A → votes_in (py_settlement st) s !! v ≠ Some false)
    (Haccept : ∀ a, a ∈ l → aa_validator_id a ∈ A → aa_accepted a = true)
    (Hattempt : ∀ v, v ∈ A → v ∈ map aa_validator_id l) :
  ∃ s', resolve_settlement (sr_settlement_id s)
          (s_settlements (py_settlement (attempts (sr_settlement_id s) st l))) = Some s'
    ∧ sr_status s' = (if filled (sr_applied_at s') then "applied" else "finalized")
    ∧ (sr_applied_at s' = sr_applied_at s
       ∨ ∃ a, a ∈ l ∧ aa_apply_on_finalize a = true ∧ sr_applied_at s' = Some (now (aa_tick a))).
Proof using H.
  destruct (attempts_refine l st s Hclocks Hopen) as (s' & Hos' & Hsame & Hvotes & Hap).
  pose proof Hsame as (Hid & Hb & _ & Hq'). exists s'. split_and!; [rewrite <- Hid at 1; apply Hos'| |done].
  rewrite (os_status _ _ Hos'), Hvotes.
  assert (∀ v, v ∈ A → v ∈ (sr_committee_bonded s).*1 →
    spec_votes (sr_committee_bonded s) (votes_in (py_settlement st) s) l !! v = Some true) as Hall.
  { intros v Hv Hc. apply spec_votes_accept; [done|by apply Hbefore| |left; by apply Hattempt].
    intros a Ha <-. by apply Haccept. }
  assert (sr_committee_quorum_bond_atomic s ≤ Spec.bond (sr_committee_bonded s)
            (spec_votes (sr_committee_bonded s) (votes_in (py_settlement st) s) l) true) as Hle.
  { etransitivity; [exact Hquorum|]. by apply bond_covers. }
  unfold spec_status, Spec.status, quorum_status.
  rewrite Hb, Hq', (proj2 (Z.leb_gt _ _) Hpos), (proj2 (Z.leb_le _ _) Hle). done.
Qed.
End application.

(** ** Witnesses *)

Import Signing.Transparent.

(** A settlement that the compute reserve pays, before anyone has voted. *)
Definition reserve_settlement : SettlementRecord := {|
  sr_settlement_id := "s1"; sr_created_at := sr_created_at demo_settlement;
  sr_source_wallet_id := "w1"; sr_source_wallet_address := "cai_payer";
  sr_funding_source := "reserve"; sr_compute_cost_atomic := 100; sr_tx_fee_atomic := 7;
  sr_settlement_fee_atomic := 5; sr_worker_reward_atomic := 93;
  sr_committee_selection_seed := None; sr_committee_target_size := 3;
  sr_committee_selection_mode := "weighted";
  sr_committee_validator_ids := ["v1"; "v2"; "v3"];
  sr_committee_bonded := [("v1", 3); ("v2", 3); ("v3", 3)];
  sr_committee_total_bonded_atomic := 9; sr_committee_quorum_bond_atomic := 6;
  sr_reward_token_code := Some "CAI"; sr_ai_development_fee_atomic := 2;
  sr_ai_development_wallet_id := None; sr_ai_development_address := Some "cai_fund";
  sr_ai_development_credited_wallet_id := None; sr_accepted_attestations := 0;
  sr_rejected_attestations := 0; sr_accepted_bond_atomic := 0; sr_rejected_bond_atomic := 0;
  sr_status := "pending"; sr_note := None; sr_source_wallet_debit_atomic := 0;
  sr_reserve_debit_atomic := 107; sr_reserve_limit_identity_keys := [];
  sr_reserve_client_ip_hash := None; sr_applied_at := None; sr_applied_by_validator_id := None;
  sr_balance_audit := [] |}.

Definition voting_store (s : SettlementRecord) : PayoutStore := {|
  py_settlement := {| s_chain := empty_store; s_settlements := [s]; s_payouts := demo_payouts;
                      s_attestations := []; s_validators := []; s_rewards := demo_rewards |};
  py_wallets := []; py_journal := []; py_ledger := demo_ledger |}.

Definition call (i v : string) (accepted apply : bool) : Attempt :=
  {| aa_tick := {| now := "2026-02-03T00:00:0" +:+ i; token := i; new_stat := (0, 0) |};
     aa_validator_id := v; aa_accepted := accepted; aa_note := None; aa_apply_on_finalize := apply |}.

Abbreviation demo_attempts := (attempts no_env None "s1").

Definition decided_store : PayoutStore :=
  demo_attempts (voting_store reserve_settlement) [call "1" "v1" true true; call "2" "v2" true false].

Definition decided_settlement : SettlementRecord :=
  default reserve_settlement (resolve_settlement "s1" (s_settlements (py_settlement decided_store))).

Lemma voting_open : open_settlement (py_settlement (voting_store reserve_settlement)) reserve_settlement.
Proof.
  constructor; try done.
  - apply (bool_decide_eq_true_1 _). vm_compute. reflexivity.
  - constructor.
  - by intros v ?%not_elem_of_nil.
Qed.

Lemma decided_open : open_settlement (py_settlement decided_store) decided_settlement.
Proof.
  constructor; try (vm_compute; reflexivity); try done.
  - apply (bool_decide_eq_true_1 _). vm_compute. reflexivity.
  - apply (bool_decide_eq_true_1 _). vm_compute. reflexivity.
  - intros v. vm_compute. set_solver.
Qed.

(** The second acceptance of a decided settlement applies it. *)
Lemma attestation_refines_vote_witness :
  let t := aa_tick (call "4" "v1" true true) in
  let '(st', r) := record_validator_attestation no_env None t (sr_settlement_id decided_settlement)
                     "v1" true None true decided_store in
  ∃ s', open_settlement (py_settlement st') s' ∧ same_committee decided_settlement s'
    ∧ votes_in (py_settlement st') s'
      = Spec.vote (sr_committee_bonded decided_settlement)
          (votes_in (py_settlement decided_store) decided_settlement) ("v1", true)
    ∧ sr_status s'
      = spec_status s' (Spec.vote (sr_committee_bonded decided_settlement)
                          (votes_in (py_settlement decided_store) decided_settlement) ("v1", true))
    ∧ (∀ j, j ≠ sr_settlement_id decided_settlement →
         resolve_settlement j (s_settlements (py_settlement st'))
         = resolve_settlement j (s_settlements (py_settlement decided_store)))
    ∧ (sr_applied_at s' = sr_applied_at decided_settlement
       ∨ true = true ∧ sr_applied_at s' = Some (now t) ∧ sr_status s' = "applied")
    ∧ match r with
      | Ok a => at_validator_id a = "v1" ∧ at_accepted a = true
                ∧ Spec.member (sr_committee_bonded decided_settlement) "v1"
                ∧ votes_in (py_settlement decided_store) decided_settlement !! "v1" ≠ Some (negb true)
                ∧ (true = true → sr_status s' ≠ "finalized")
      | Err e =>
          ¬ Spec.member (sr_committee_bonded decided_settlement) "v1" ∧ st' = decided_store
            ∧ e = ValueError "Validator is not a member of this settlement committee."
          ∨ votes_in (py_settlement decided_store) decided_settlement !! "v1" = Some (negb true)
            ∧ st' = decided_store ∧ (∃ i, e = ConflictingAttestationError i)
          ∨ true = true ∧ Spec.member (sr_committee_bonded decided_settlement) "v1"
            ∧ votes_in (py_settlement decided_store) decided_settlement !! "v1" ≠ Some (negb true)
            ∧ spec_status decided_settlement
                (Spec.vote (sr_committee_bonded decided_settlement)
                   (votes_in (py_settlement decided_store) decided_settlement) ("v1", true)) = "finalized"
      end.
Proof.
  exact (attestation_refines_vote no_env None (aa_tick (call "4" "v1" true true)) "v1" true None true
           decided_store decided_settlement ltac:(discriminate) decided_open).
Defined.

Lemma call_clocks (l : list Attempt) :
  forallb (λ a, negb (String.eqb (now (aa_tick a)) "")) l = true → ∀ a, a ∈ l → now (aa_tick a) ≠ "".
Proof.
  rewrite forallb_forall. intros Hl a Ha. apply list_elem_of_In, Hl, negb_true_iff, String.eqb_neq in Ha. done.
Qed.

(** Two acceptances finalise; the third validator's rejection comes too late; a later call applies. *)
Lemma decided_status_final_witness :
  sr_status decided_settlement = "finalized"
  ∧ ∃ s', resolve_settlement (sr_settlement_id decided_settlement)
            (s_settlements (py_settlement
               (attempts no_env None (sr_settlement_id decided_settlement) decided_store
                  [call "3" "v3" false true; call "4" "v1" true true]))) = Some s'
    ∧ (sr_status s' = sr_status decided_settlement
       ∨ sr_status decided_settlement = "finalized" ∧ sr_status s' = "applied"
         ∧ ∃ a, a ∈ [call "3" "v3" false true; call "4" "v1" true true] ∧ aa_apply_on_finalize a = true
                ∧ sr_applied_at s' = Some (now (aa_tick a))).
Proof.
  split; [vm_compute; reflexivity|].
  apply (decided_status_final no_env None decided_store decided_settlement).
  - apply call_clocks. reflexivity.
  - exact decided_open.
  - vm_compute. repeat constructor; done.
  - vm_compute. reflexivity.
  - vm_compute. done.
Defined.

Lemma quorum_of_accepts_finalises_witness :
  let l := [call "1" "v3" false true; call "2" "v2" true true; call "3" "v3" true true; call "4" "v1" true true] in
  ∃ s', resolve_settlement (sr_settlement_id reserve_settlement)
          (s_settlements (py_settlement
             (attempts no_env None (sr_settlement_id reserve_settlement) (voting_store reserve_settlement) l)))
        = Some s'
    ∧ sr_status s' = (if filled (sr_applied_at s') then "applied" else "finalized")
    ∧ (sr_applied_at s' = sr_applied_at reserve_settlement
       ∨ ∃ a, a ∈ l ∧ aa_apply_on_finalize a = true ∧ sr_applied_at s' = Some (now (aa_tick a))).
Proof.
  intros l. apply (quorum_of_accepts_finalises no_env None (voting_store reserve_settlement) reserve_settlement l
                     {["v1"; "v2"]}).
  - apply call_clocks. reflexivity.
  - exact voting_open.
  - repeat constructor; done.
  - done.
  - vm_compute. done.
  - intros v _. by vm_compute.
  - intros a Ha Hv. repeat (apply elem_of_cons in Ha as [->|Ha]; [try done; vm_compute in Hv; set_solver|]).
    by apply not_elem_of_nil in Ha.
  - intros v [->%elem_of_singleton| ->%elem_of_singleton]%elem_of_union; vm_compute; set_solver.
Defined.
