(* ===== verification/Envelope.v ===== *)
(** * Signed settlement envelopes and proposals

    [settlement.py], fifth part: the envelope the source wallet signs, its verification, and
    the settlement proposals validators receive.  The schemes and public keys of a wallet and
    the unlocked key material come from the wallet files, which are not part of the records of
    this library.  The fields of a proposal have the types their dataclass declares. *)
From Stdlib Require Import Ascii QArith.
From S2P Require Import Prelude.
From S2P Require Import PyStr.
From S2P Require Import PyVal.
From S2P Require Import Sha256.
From S2P Require Import Money.
From S2P Require Import Signing.
From S2P Require Import ChainTx.
From S2P Require Import Ledger.
From S2P Require Import ChainStore.
From S2P Require Import Apportion.
From S2P Require Import SettlementData.
From S2P Require Import Validators.
From S2P Require Import Settlement.
From S2P Require Import Payouts.
Local Open Scope Z_scope.
Set Default Proof Using "Type".

(** ** The payload *)

(** The sections of the audit the envelope covers; [_json_safe_audit_section] is the identity
    on JSON values (the canonical form sorts the keys anyway). *)
Definition audit_section (s : SettlementRecord) (k : string) : pyval := dget k (sr_balance_audit s).

Definition settlement_envelope_payload (s : SettlementRecord) (mp : MoneyPolicy) : pyval :=
  VDict
    [("schema_version", VInt 1);
     ("chain_network", VStr (network_value (chain_network mp)));
     ("reward_token_code",
      VStr (if filled (sr_reward_token_code s) then default "" (sr_reward_token_code s)
            else reward_token_code mp));
     ("settlement", VDict
        [("settlement_id", VStr (sr_settlement_id s)); ("created_at", VStr (sr_created_at s));
         ("source_wallet_id", VStr (sr_source_wallet_id s));
         ("source_wallet_address", VStr (normalize_address (sr_source_wallet_address s)));
         ("funding_source", VStr (sr_funding_source s));
         ("compute_cost_atomic", VInt (sr_compute_cost_atomic s));
         ("tx_fee_atomic", VInt (sr_tx_fee_atomic s));
         ("settlement_fee_atomic", VInt (sr_settlement_fee_atomic s));
         ("ai_development_fee_atomic", VInt (sr_ai_development_fee_atomic s));
         ("worker_reward_atomic", VInt (sr_worker_reward_atomic s));
         ("source_wallet_debit_atomic", VInt (sr_source_wallet_debit_atomic s));
         ("reserve_debit_atomic", VInt (sr_reserve_debit_atomic s));
         ("reserve_limit_identity_keys", VStrs (sr_reserve_limit_identity_keys s));
         ("reserve_client_ip_hash", val_opt (sr_reserve_client_ip_hash s));
         ("ai_development_wallet_id", val_opt (sr_ai_development_wallet_id s));
         ("ai_development_address",
          if filled (sr_ai_development_address s)
          then VStr (normalize_address (default "" (sr_ai_development_address s))) else VNone)]);
     ("committee", VDict
        [("selection_seed", val_opt (sr_committee_selection_seed s));
         ("target_size", VInt (sr_committee_target_size s));
         ("selection_mode", VStr (sr_committee_selection_mode s));
         ("validator_ids", VStrs (sr_committee_validator_ids s));
         ("bonded_atomic_by_validator_id",
          VDict (map (λ kv, (kv.1, VInt kv.2)) (sr_committee_bonded s)));
         ("total_bonded_atomic", VInt (sr_committee_total_bonded_atomic s));
         ("quorum_bond_atomic", VInt (sr_committee_quorum_bond_atomic s))]);
     ("quote", audit_section s "quote"); ("fees", audit_section s "fees");
     ("debits", audit_section s "debits"); ("execution", audit_section s "execution");
     ("payouts", audit_section s "payouts")].

Definition settlement_envelope_hash (payload : pyval) : string := sha256_hexdigest (canonical payload).

(** ** Signing *)

(** The scheme fields of a [WalletRecord]. *)
Record WalletKeys := {
  wk_signing_scheme : option string;
  wk_address_scheme : option string;
  wk_public_key_b64 : option string;
  wk_pq_public_key_b64 : option string
}.

(** What [load_unlocked_wallet_signing_material] returns. *)
Record SigningMaterial := {
  sm_public_key_b64 : string;
  sm_signing_seed_b64 : string;
  sm_pq_public_key_b64 : string;
  sm_pq_private_key_b64 : string
}.

Definition wallet_uses_ed25519 (k : WalletKeys) : bool :=
  bool_decide (wk_signing_scheme k = Some SIGNING_SCHEME_ED25519)
  && bool_decide (wk_address_scheme k = Some ADDRESS_SCHEME_ED25519).

Definition wallet_uses_hybrid (k : WalletKeys) : bool :=
  bool_decide (wk_signing_scheme k = Some SIGNING_SCHEME_HYBRID_ED25519_ML_DSA_65)
  && match wk_address_scheme k with
     | Some a => bool_decide (a ∈ ADDRESS_SCHEME_FIXED_WALLET_ID_SHA256 :: HYBRID_ADDRESS_SCHEMES)
     | None => false
     end.

Definition unsigned_envelope (s : SettlementRecord) (payload_hash : string) : list (string * pyval) :=
  [("schema_version", VInt 1); ("payload_hash", VStr payload_hash);
   ("source_wallet_id", VStr (sr_source_wallet_id s));
   ("source_wallet_address", VStr (normalize_address (sr_source_wallet_address s)));
   ("required", VBool false); ("scheme", VNone); ("address_scheme", VNone);
   ("public_key_b64", VNone); ("signature_b64", VNone); ("signature_valid", VBool false);
   ("status", VStr "unsigned"); ("signed_at", VNone)].

Definition dsets (kvs : list (string * pyval)) (d : list (string * pyval)) : list (string * pyval) :=
  foldl (λ d kv, dset kv.1 kv.2 d) d kvs.

Section envelope.
Context `{SignatureBackend}.
Context (keys_of : WalletRecord → WalletKeys) (unlocked : WalletRecord → option SigningMaterial).

(** The fields of a signature made with [m], before [signature_valid] is known. *)
Definition signature_fields (m : SigningMaterial) (hybrid : bool) (payload : pyval)
  : result (list (string * pyval)) :=
  seed ← decode_bytes (sm_signing_seed_b64 m);
  signature_b64 ← sign_payload_b64 seed payload;
  let plain := [("public_key_b64", VStr (sm_public_key_b64 m)); ("signature_b64", VStr signature_b64)] in
  if hybrid then
    pq_signature_b64 ← sign_payload_mldsa65_b64 (sm_pq_private_key_b64 m) payload;
    Ok (plain ++ [("pq_scheme", VStr SIGNING_SCHEME_ML_DSA_65);
                  ("pq_public_key_b64", VStr (sm_pq_public_key_b64 m));
                  ("pq_signature_b64", VStr pq_signature_b64)])
  else Ok plain.

Definition text_field (k : string) (d : list (string * pyval)) : string :=
  py_str (py_or (dget k d) (VStr "")).

(** The signature check both sides make on an envelope's fields. *)
Definition fields_verify (hybrid : bool) (d : list (string * pyval)) (payload : pyval) : bool :=
  if hybrid then
    verify_hybrid_payload_signature (text_field "public_key_b64" d) (text_field "signature_b64" d)
      (text_field "pq_public_key_b64" d) (text_field "pq_signature_b64" d) payload
  else verify_payload_signature (text_field "public_key_b64" d) (text_field "signature_b64" d) payload.

(** The envelope of a settlement. *)
Definition make_envelope (t : Tick) (s : SettlementRecord) (mp : MoneyPolicy)
    (wallets : list WalletRecord) : result (list (string * pyval)) :=
  let payload := settlement_envelope_payload s mp in
  let envelope := unsigned_envelope s (settlement_envelope_hash payload) in
  match find_wallet_by_id (sr_source_wallet_id s) wallets with
  | None => Ok (dset "status" (VStr "source_wallet_not_found") envelope)
  | Some w =>
      let k := keys_of w in
      let envelope :=
        dsets [("address_scheme", val_opt (wk_address_scheme k)); ("scheme", val_opt (wk_signing_scheme k))]
          envelope in
      let hybrid := wallet_uses_hybrid k in
      if negb (wallet_uses_ed25519 k) && negb hybrid
      then Ok (dset "status" (VStr "legacy_wallet_unsigned") envelope)
      else
        let envelope := dset "required" (VBool true) envelope in
        match unlocked w with
        | None => Ok (dset "status" (VStr "missing_unlocked_signer") envelope)
        | Some m =>
            if negb (bool_decide (Some (sm_public_key_b64 m) = wk_public_key_b64 k))
            then Ok (dset "status" (VStr "public_key_mismatch") envelope)
            else if hybrid && negb (String.eqb (sm_pq_public_key_b64 m) (default "" (wk_pq_public_key_b64 k)))
            then Ok (dset "status" (VStr "pq_public_key_mismatch") envelope)
            else if negb (String.eqb (normalize_address (wr_address w))
                            (normalize_address (sr_source_wallet_address s)))
            then Ok (dset "status" (VStr "source_wallet_address_mismatch") envelope)
            else
              fields ← signature_fields m hybrid payload;
              let envelope := dsets fields envelope in
              let valid := fields_verify hybrid envelope payload in
              Ok (dsets [("signature_valid", VBool valid);
                         ("status", VStr (if valid then "signed" else "invalid"));
                         ("signed_at", VStr (now t))] envelope)
        end
  end.

Definition sign_settlement_envelope (t : Tick) (settlement_id : string) (mp : MoneyPolicy)
  : PM (option SettlementRecord) :=
  settlement ← pget (λ st, resolve_settlement settlement_id (s_settlements (py_settlement st)));
  match settlement with
  | None => mret None
  | Some s =>
      wallets ← pget py_wallets;
      envelope ← plift (make_envelope t s mp wallets);
      s' ← save_audit s (dset "signed_envelope" (VDict envelope) (sr_balance_audit s));
      mret (Some s')
  end.

(** ** Verifying *)

Definition verify_settlement_envelope (s : SettlementRecord) (mp : MoneyPolicy) : bool * option string :=
  let fail what := (false, Some ("settlement signed envelope " +:+ what)) in
  match audit_section s "signed_envelope" with
  | VDict envelope =>
      if negb (truthy (dget "required" envelope)) then (true, None)
      else
        let payload := settlement_envelope_payload s mp in
        if negb (bool_decide (dget "payload_hash" envelope = VStr (settlement_envelope_hash payload)))
        then fail "payload hash does not match"
        else if String.eqb (text_field "public_key_b64" envelope) ""
                || String.eqb (text_field "signature_b64" envelope) ""
        then fail "signature is missing"
        else if bool_decide (dget "scheme" envelope = VStr SIGNING_SCHEME_HYBRID_ED25519_ML_DSA_65) then
          if negb (String.eqb (text_field "pq_scheme" envelope) SIGNING_SCHEME_ML_DSA_65)
          then fail "PQ signature scheme is unsupported"
          else if String.eqb (text_field "pq_public_key_b64" envelope) ""
                  || String.eqb (text_field "pq_signature_b64" envelope) ""
          then fail "PQ signature is missing"
          else if fields_verify true envelope payload then (true, None)
          else fail "hybrid signature is invalid"
        else if fields_verify false envelope payload then (true, None)
        else fail "signature is invalid"
  | _ => fail "is missing"
  end.

(** ** Committees and rejections *)

Definition with_committee (s : SettlementRecord) (seed : string) (mode : string)
    (c : ValidatorCommitteeSnapshot) : SettlementRecord :=
  let n := Z.of_nat (length (cs_validator_ids c)) in
  let size := sr_committee_target_size s in {|
  sr_settlement_id := sr_settlement_id s; sr_created_at := sr_created_at s;
  sr_source_wallet_id := sr_source_wallet_id s;
  sr_source_wallet_address := sr_source_wallet_address s;
  sr_funding_source := sr_funding_source s; sr_compute_cost_atomic := sr_compute_cost_atomic s;
  sr_tx_fee_atomic := sr_tx_fee_atomic s; sr_settlement_fee_atomic := sr_settlement_fee_atomic s;
  sr_worker_reward_atomic := sr_worker_reward_atomic s;
  sr_committee_selection_seed := Some seed;
  sr_committee_target_size := Z.min (Z.max 1 (if size =? 0 then n else size)) n;
  sr_committee_selection_mode := mode;
  sr_committee_validator_ids := cs_validator_ids c;
  sr_committee_bonded := sorted_items (cs_bonded c);
  sr_committee_total_bonded_atomic := cs_total_bonded_atomic c;
  sr_committee_quorum_bond_atomic := cs_quorum_bond_atomic c;
  sr_reward_token_code := sr_reward_token_code s;
  sr_ai_development_fee_atomic := sr_ai_development_fee_atomic s;
  sr_ai_development_wallet_id := sr_ai_development_wallet_id s;
  sr_ai_development_address := sr_ai_development_address s;
  sr_ai_development_credited_wallet_id := sr_ai_development_credited_wallet_id s;
  sr_accepted_attestations := sr_accepted_attestations s;
  sr_rejected_attestations := sr_rejected_attestations s;
  sr_accepted_bond_atomic := sr_accepted_bond_atomic s;
  sr_rejected_bond_atomic := sr_rejected_bond_atomic s; sr_status := sr_status s;
  sr_note := sr_note s; sr_source_wallet_debit_atomic := sr_source_wallet_debit_atomic s;
  sr_reserve_debit_atomic := sr_reserve_debit_atomic s;
  sr_reserve_limit_identity_keys := sr_reserve_limit_identity_keys s;
  sr_reserve_client_ip_hash := sr_reserve_client_ip_hash s; sr_applied_at := sr_applied_at s;
  sr_applied_by_validator_id := sr_applied_by_validator_id s;
  sr_balance_audit := sr_balance_audit s |}.

(** [x or y] on optional records. *)
Definition or_record (x : option SettlementRecord) (y : SettlementRecord) : SettlementRecord := default y x.

Definition ensure_settlement_committee (lottery_key : string → string → Z → Q) (t : Tick)
    (bonded : list ValidatorRecord) (settlement_id : string) (mp : MoneyPolicy)
  : PM (option SettlementRecord) :=
  settlements ← pget (λ st, list_settlements (s_settlements (py_settlement st)));
  match List.find (λ s, String.eqb (sr_settlement_id s) settlement_id) settlements with
  | None => mret None
  | Some s =>
      if negb (bool_decide (sr_committee_validator_ids s = [])) && (0 <? sr_committee_quorum_bond_atomic s)
      then mret (Some s)
      else
        let seed := if filled (sr_committee_selection_seed s)
                    then default "" (sr_committee_selection_seed s) else sr_settlement_id s in
        let target := if 0 <? sr_committee_target_size s then Some (sr_committee_target_size s) else None in
        let committee := select_validator_committee_snapshot lottery_key seed target mp bonded in
        if bool_decide (cs_validator_ids committee = []) then mret (Some s)
        else
          let s' := with_committee s seed (validator_committee_selection_mode mp) committee in
          _ ← save_item settlements s';
          signed ← sign_settlement_envelope t (sr_settlement_id s') mp;
          mret (Some (or_record signed s'))
  end.

Definition retryable_rejection_notes : list string :=
  ["settlement signed envelope payload hash does not match"; "settlement signed envelope is missing"].

Definition envelope_is_signed (s : SettlementRecord) : bool :=
  match audit_section s "signed_envelope" with
  | VDict d => bool_decide (dget "status" d = VStr "signed")
  | _ => false
  end.

(** The settlement with no votes, pending and not applied. *)
Definition reopened (s : SettlementRecord) : SettlementRecord :=
  with_application (with_votes s 0 0 0 0 "pending") "pending" None None
    (sr_ai_development_credited_wallet_id s) (sr_balance_audit s).

Definition reset_retryable_settlement_rejection (t : Tick) (settlement_id : string) (mp : MoneyPolicy)
  : PM (option SettlementRecord) :=
  settlement ← pget (λ st, resolve_settlement settlement_id (s_settlements (py_settlement st)));
  match settlement with
  | None => mret None
  | Some s =>
      if negb (String.eqb (sr_status s) "rejected") then mret (Some s)
      else
        attestations ← pget (λ st, list_attestations settlement_id (s_attestations (py_settlement st)));
        if bool_decide (length attestations = 0%nat) || existsb at_accepted attestations
           || existsb (λ a, negb (bool_decide (lower (strip (default "" (at_note a)))
                                               ∈ retryable_rejection_notes))) attestations
        then mret (Some s)
        else
          signed ← sign_settlement_envelope t settlement_id mp;
          if negb (match signed with Some s' => envelope_is_signed s' | None => false end)
          then mret (Some s)
          else
            all ← pget (λ st, newest_first at_created_at (s_attestations (py_settlement st)));
            _ ← on_settlements (save_attestations (filter (λ a, at_settlement_id a ≠ settlement_id) all));
            settlements ← pget (λ st, list_settlements (s_settlements (py_settlement st)));
            match List.find (λ x, String.eqb (sr_settlement_id x) settlement_id) settlements with
            | None => mret (Some s)
            | Some x =>
                _ ← save_item settlements (reopened x);
                signed ← sign_settlement_envelope t settlement_id mp;
                mret (Some (or_record signed (reopened x)))
            end
  end.

(** ** Proposals *)

(** A settlement and its payouts, as [export_settlement_proposal_payload] sends them. *)
Record Proposal := {
  pr_settlement : SettlementRecord;
  pr_worker_payouts : list WorkerPayoutRecord
}.

Definition export_settlement_proposal_payload (settlement_id : string) (st : PayoutStore)
  : result Proposal :=
  match resolve_settlement settlement_id (s_settlements (py_settlement st)) with
  | None => Err (ValueError ("Settlement '" +:+ settlement_id +:+ "' not found."))
  | Some s =>
      Ok {| pr_settlement := s;
            pr_worker_payouts :=
              list_worker_payouts (Some settlement_id) (s_payouts (py_settlement st)) |}
  end.

(** [_coerce_settlement_record] and the resets after it. *)
Definition proposed_settlement (s : SettlementRecord) : SettlementRecord :=
  with_application (with_votes s 0 0 0 0 "pending") "pending" None None None (sr_balance_audit s).

Definition _coerce_worker_payout_record (p : WorkerPayoutRecord) : WorkerPayoutRecord :=
  with_credit p (wp_recipient_address p) None
    (if String.eqb (strip (default "" (wp_recipient_address p))) "" then "unbound"
     else "pending_settlement").

(** [existing[by_id[payout.payout_id]] = payout], or [append]: [by_id] is computed once and
    holds the last index of an id. *)
Definition last_index (payout_id : string) (l : list WorkerPayoutRecord) : option nat :=
  fst <$> List.find (λ x, String.eqb (wp_payout_id x.2) payout_id) (rev (enumerate l)).

Definition upsert_step (existing acc : list WorkerPayoutRecord) (p : WorkerPayoutRecord)
  : list WorkerPayoutRecord :=
  match last_index (wp_payout_id p) existing with
  | Some i => <[i := p]> acc
  | None => acc ++ [p]
  end.

Definition _upsert_worker_payout_records (payouts : list WorkerPayoutRecord) : PM unit :=
  match payouts with
  | [] => mret tt
  | _ =>
      existing ← pget (λ st, list_worker_payouts None (s_payouts (py_settlement st)));
      on_settlements (save_worker_payouts (foldl (upsert_step existing) existing payouts))
  end.

Definition import_settlement_proposal_payload (pr : Proposal) (mp : MoneyPolicy) : PM SettlementRecord :=
  let s := proposed_settlement (pr_settlement pr) in
  let '(valid_envelope, envelope_error) := verify_settlement_envelope s mp in
  if negb valid_envelope then
    plift (Err (ValueError (default "Invalid settlement envelope." envelope_error)))
  else
    let payouts := map _coerce_worker_payout_record (pr_worker_payouts pr) in
    match validate_settlement_accounting s payouts mp with
    | _ :: _ as errors =>
        plift (Err (ValueError ("Settlement payout accounting mismatch: " +:+ join " " errors)))
    | [] =>
        existing_settlements ← pget (λ st, list_settlements (s_settlements (py_settlement st)));
        let envelope_hash x := settlement_envelope_hash (settlement_envelope_payload x mp) in
        s' ←
          (match List.find (λ x, String.eqb (sr_settlement_id x) (sr_settlement_id s))
                   existing_settlements with
           | Some existing =>
               if String.eqb (envelope_hash existing) (envelope_hash s) then mret existing
               else plift (Err (ValueError "Existing settlement envelope differs from proposal."))
           | None =>
               _ ← on_settlements (save_settlements (existing_settlements ++ [s])); mret s
           end);
        _ ← _upsert_worker_payout_records payouts;
        stored ← pget (λ st, resolve_settlement (sr_settlement_id s') (s_settlements (py_settlement st)));
        mret (default s' stored)
    end.

(** ** The execution section of the audit *)

(** The arguments of [record_settlement_execution_audit]. *)
Record ExecutionAudit := {
  ex_receipt_id : string;
  ex_job_id : string;
  ex_model_id : string;
  ex_execution_model_id : string;
  ex_pricing_mode : string;
  ex_pricing_basis : string;
  ex_prompt_tokens : option Z;
  ex_completion_tokens : option Z;
  ex_total_tokens : option Z;
  ex_reserved_prompt_tokens : option Z;
  ex_reserved_completion_tokens : option Z;
  ex_reserved_compute_cost_atomic : option Z;
  ex_actual_compute_cost_atomic : option Z;
  ex_reservation_surplus_atomic : Z;
  ex_usage_priced : bool;
  ex_token_usage_source : option string;
  ex_token_usage_audit : list (string * pyval);
  ex_network_audit : list (string * pyval);
  ex_worker_payouts : list WorkerPayoutRecord
}.

Definition _worker_payout_execution_audit_item (p : WorkerPayoutRecord) : pyval :=
  VDict [("payout_id", VStr (wp_payout_id p)); ("node_id", VStr (wp_node_id p));
         ("runner_id", val_opt (wp_runner_id p)); ("model_id", VStr (wp_model_id p));
         ("layer_start", opt_int (wp_layer_start p)); ("layer_end", opt_int (wp_layer_end p));
         ("layer_count", VInt (wp_layer_count p)); ("share_bps", VInt (wp_share_bps p));
         ("reward_atomic", VInt (wp_reward_atomic p));
         ("reward_token_code", val_opt (wp_reward_token_code p));
         ("recipient_address", val_opt (wp_recipient_address p));
         ("credited_wallet_id", val_opt (wp_credited_wallet_id p)); ("status", VStr (wp_status p))].

Definition execution_section (x : ExecutionAudit) : pyval :=
  let source := strip (default "" (ex_token_usage_source x)) in
  VDict
    [("schema_version", VInt 1); ("receipt_id", VStr (ex_receipt_id x));
     ("job_id", VStr (ex_job_id x)); ("model_id", VStr (ex_model_id x));
     ("execution_model_id", VStr (ex_execution_model_id x));
     ("pricing", VDict
        [("pricing_mode", VStr (ex_pricing_mode x)); ("pricing_basis", VStr (ex_pricing_basis x));
         ("usage_priced", VBool (ex_usage_priced x));
         ("reserved_compute_cost_atomic", opt_int (ex_reserved_compute_cost_atomic x));
         ("actual_compute_cost_atomic", opt_int (ex_actual_compute_cost_atomic x));
         ("reservation_surplus_atomic", VInt (ex_reservation_surplus_atomic x))]);
     ("usage", VDict
        [("prompt_tokens", opt_int (ex_prompt_tokens x));
         ("completion_tokens", opt_int (ex_completion_tokens x));
         ("total_tokens", opt_int (ex_total_tokens x));
         ("reserved_prompt_tokens", opt_int (ex_reserved_prompt_tokens x));
         ("reserved_completion_tokens", opt_int (ex_reserved_completion_tokens x));
         ("source", if String.eqb source "" then VNone else VStr source)]);
     ("token_usage_audit", VDict (ex_token_usage_audit x));
     ("route", VDict (ex_network_audit x));
     ("workers", VDict
        [("count", VInt (Z.of_nat (length (ex_worker_payouts x))));
         ("participants", VList (map _worker_payout_execution_audit_item (ex_worker_payouts x)))])].

Definition record_settlement_execution_audit (settlement_id : string) (x : ExecutionAudit)
  : PM (option SettlementRecord) :=
  settlement ← pget (λ st, resolve_settlement settlement_id (s_settlements (py_settlement st)));
  match settlement with
  | None => mret None
  | Some s =>
      s' ← save_audit s (dset "execution" (execution_section x) (sr_balance_audit s));
      mret (Some s')
  end.
End envelope.
