(* ===== verification/EnvelopeProps.v ===== *)
(** * What a settlement envelope guarantees

    An envelope signed by the source wallet verifies and keeps verifying while the settlement
    is voted on and applied; but the verification does not ask for the source wallet's key. *)
From Stdlib Require Import Ascii QArith.
From S2P Require Import Prelude.
From S2P Require Import PyStr.
From S2P Require Import PyVal.
From S2P Require Import Sha256.
From S2P Require Import Money.
From S2P Require Import Signing.
From S2P Require Import ChainTx.
From S2P Require Import Ledger.
From S2P Require Import ChainStore.
From S2P Require Import Apportion.
From S2P Require Import SettlementData.
From S2P Require Import Validators.
From S2P Require Import Settlement.
From S2P Require Import PeerPayload.
From S2P Require Import PeerFacts.
From S2P Require Import Payouts.
From S2P Require Import PayoutProps.
From S2P Require Import FinalityProps.
From S2P Require Import Envelope.
Local Open Scope Z_scope.
Set Default Proof Using "Type".

(** ** What the envelope covers *)

(** The fields of a settlement that voting and applying leave alone. *)
Definition same_envelope (s s' : SettlementRecord) : Prop :=
  (∀ mp, settlement_envelope_payload s' mp = settlement_envelope_payload s mp)
  ∧ audit_section s' "signed_envelope" = audit_section s "signed_envelope".

Definition covered_sections : list string :=
  ["quote"; "fees"; "debits"; "execution"; "payouts"; "signed_envelope"].

Lemma same_envelope_audit s audit :
  Forall (λ k, dget k audit = dget k (sr_balance_audit s)) covered_sections →
  same_envelope s (with_balance_audit s audit).
Proof.
  unfold covered_sections. rewrite !Forall_cons. intros (E1 & E2 & E3 & E4 & E5 & E6 & _).
  split; [intros mp|]; unfold settlement_envelope_payload, audit_section;
    cbn [sr_balance_audit with_balance_audit]; rewrite ?E1, ?E2, ?E3, ?E4, ?E5, ?E6; done.
Qed.

Lemma same_envelope_application s status applied_at applied_by ai audit :
  Forall (λ k, dget k audit = dget k (sr_balance_audit s)) covered_sections →
  same_envelope s (with_application s status applied_at applied_by ai audit).
Proof.
  unfold covered_sections. rewrite !Forall_cons. intros (E1 & E2 & E3 & E4 & E5 & E6 & _).
  split; [intros mp|]; unfold settlement_envelope_payload, audit_section;
    cbn [sr_balance_audit with_application]; rewrite ?E1, ?E2, ?E3, ?E4, ?E5, ?E6; done.
Qed.

Lemma same_envelope_votes s a r ab rb status : same_envelope s (with_votes s a r ab rb status).
Proof. done. Qed.

Lemma verify_same_envelope `{SignatureBackend} s s' mp :
  same_envelope s s' → verify_settlement_envelope s' mp = verify_settlement_envelope s mp.
Proof. intros [Hp Ha]. unfold verify_settlement_envelope. by rewrite Ha, Hp. Qed.

Lemma same_envelope_trans s s1 s2 : same_envelope s s1 → same_envelope s1 s2 → same_envelope s s2.
Proof. intros [P1 A1] [P2 A2]. split; [intros mp; by rewrite P2|by rewrite A2]. Qed.

(** The sections an application writes are not covered. *)
Lemma applied_same_envelope now s s' : applied_to now s s' → same_envelope s s'.
Proof.
  intros [(by_ & ai & E) _ Hk]. rewrite E. apply same_envelope_application, Forall_forall.
  intros k Hin. apply Hk. intros Hk'. unfold covered_sections, application_sections in *.
  apply list_elem_of_In in Hin, Hk'. cbn in *. intuition congruence.
Qed.

(** ** Operations that keep the stored settlements but for votes and applications *)

(** A relation between an earlier and a later version of a settlement that votes and
    applications respect. *)
Class SettlementFrame (R : SettlementRecord → SettlementRecord → Prop) := {
  frame_preorder :: PreOrder R;
  frame_votes s a r ab rb status : R s (with_votes s a r ab rb status);
  frame_application now s s' : applied_to now s s' → R s s'
}.

#[export] Instance same_envelope_frame : SettlementFrame same_envelope.
Proof.
  constructor; [split|apply same_envelope_votes|apply applied_same_envelope].
  - by intros s.
  - intros s s1 s2. apply same_envelope_trans.
Qed.

(** Every stored settlement is still stored, in a later version. *)
Definition kept_by (R : SettlementRecord → SettlementRecord → Prop) (st st' : PayoutStore) : Prop := ∀ i s,
  resolve_settlement i (s_settlements (py_settlement st)) = Some s →
  ∃ s', resolve_settlement i (s_settlements (py_settlement st')) = Some s' ∧ R s s'.

Section frame.
Context (R : SettlementRecord → SettlementRecord → Prop) {HR : SettlementFrame R}.

Lemma kept_kept_by st st' : kept st st' → kept_by R st st'.
Proof using HR. intros [Hs _] i s Hr. exists s. by rewrite Hs. Qed.

#[export] Instance kept_by_preorder : PreOrder (kept_by R).
Proof using HR.
  split; [intros st; by apply kept_kept_by|].
  intros st st1 st2 H1 H2 i s (s1 & Hs1 & E1)%H1. destruct (H2 i s1 Hs1) as (s2 & Hs2 & E2). exists s2. split; [done|].
  by etransitivity.
Qed.

Lemma application_kept_by now i st st' : stored_application now i st st' → kept_by R st st'.
Proof using HR.
  intros [_ Hf Ho] j s Hs. destruct (decide (j = i)) as [->|Hj].
  - destruct (Hf s Hs) as (s' & Hs' & Hap). exists s'. split; [done|]. by eapply frame_application.
  - exists s. by rewrite Ho.
Qed.

Lemma refresh_kept_by i st : kept_by R st (on_settlements (refresh_settlement_finality i) st).1.
Proof using HR.
  intros j s Hs. unfold on_settlements.
  destruct (resolve_settlement i (s_settlements (py_settlement st))) as [x|] eqn:Hx.
  - destruct (refresh_effect i _ x Hx) as (ss & -> & _ & Hi & Ho). cbn [fst py_settlement with_settlement].
    destruct (decide (j = i)) as [->|Hj].
    + rewrite Hx in Hs. injection Hs as ->. eexists. split; [exact Hi|]. apply frame_votes.
    + exists s. by rewrite Ho.
  - unfold refresh_settlement_finality, sget, mbind, SM_bind. unfold resolve_settlement in Hx. rewrite Hx.
    exists s. by split.
Qed.

Lemma attestation_kept_by aid now i v accepted note st :
  kept_by R st (on_settlements (record_attestation aid now i v accepted note) st).1.
Proof using HR.
  assert (∀ ss, s_settlements ss = s_settlements (py_settlement st) →
    kept_by R st (with_settlement st (refresh_settlement_finality i ss).1)) as Hrefresh.
  { intros ss Hss j s Hs. rewrite <- Hss in Hs.
    destruct (refresh_kept_by i (with_settlement st ss) j s Hs) as (s' & Hs' & E). exists s'. split; [|done].
    unfold on_settlements in Hs'. cbn [py_settlement with_settlement] in *. by destruct (refresh_settlement_finality i ss). }
  unfold on_settlements, record_attestation, sget, mbind, SM_bind.
  destruct (negb _ && negb _); [cbn; intros j s Hs; by exists s|].
  destruct (filter _ _) as [|item l]; [|destruct (Bool.eqb _ _); [|cbn; intros j s Hs; by exists s]];
    cbn [save_attestations];
    match goal with |- context [refresh_settlement_finality i ?ss] =>
      specialize (Hrefresh ss eq_refl); destruct (refresh_settlement_finality i ss) as [ss' [r|e]] end; exact Hrefresh.
Qed.
End frame.

Lemma pkeeps_reconcile t rewards settlements l : pkeeps (reconcile_payouts t rewards settlements l).
Proof.
  induction l as [|item l IH]; cbn [reconcile_payouts]; [done|].
  destruct (reward_address rewards item); [destruct (is_credited item)|]; auto with settlements_kept.
  apply pkeeps_bind; [|auto with settlements_kept].
  destruct (settlement_by_id _ _) as [x|]; [destruct (is_applied x)|]; auto with settlements_kept. apply pkeeps_apply_record.
Qed.

Lemma pkeeps_reconcile_worker_payouts t : pkeeps (reconcile_worker_payouts t).
Proof.
  unfold reconcile_worker_payouts. repeat (apply pkeeps_bind; [auto using pkeeps_reconcile with settlements_kept|intros ?]); [|done].
  case_match; auto with settlements_kept.
Qed.

Section envelope.
Context `{SignatureLaws}.
Context (keys_of : WalletRecord → WalletKeys) (unlocked : WalletRecord → option SigningMaterial).
Context (env : Environ) (policy : option WalletPolicy).

(** What happens to a settlement after it is signed: votes, refreshes, applications and the
    crediting of payouts, of this and of other settlements. *)
Inductive SettlementOp :=
| OpVote (t : Tick) (settlement_id validator_id : string) (accepted : bool) (note : option string)
    (apply_on_finalize : bool)
| OpRefresh (settlement_id : string)
| OpApply (t : Tick) (mp : MoneyPolicy) (settlement_id : string) (validator_id : option string)
| OpReconcilePayouts (t : Tick).

(** The store a call leaves, also when it raises. *)
Definition run_settlement_op (st : PayoutStore) (o : SettlementOp) : PayoutStore :=
  match o with
  | OpVote t i v accepted note apply_on_finalize =>
      (record_validator_attestation env policy t i v accepted note apply_on_finalize st).1
  | OpRefresh i => (on_settlements (refresh_settlement_finality i) st).1
  | OpApply t mp i v => (apply_finalized_settlement env policy t mp i v st).1
  | OpReconcilePayouts t => (reconcile_worker_payouts t st).1
  end.

Section kept.
Context (R : SettlementRecord → SettlementRecord → Prop) {HR : SettlementFrame R}.

Lemma apply_kept_by t mp i v st : kept_by R st (apply_finalized_settlement env policy t mp i v st).1.
Proof using HR.
  destruct (apply_finalized_settlement _ _ _ _ _ _ st) as [st' r] eqn:Hrun.
  apply apply_stored in Hrun as [Hsa _]. by eapply application_kept_by.
Qed.

Lemma vote_kept_by t i v accepted note ap st :
  kept_by R st (record_validator_attestation env policy t i v accepted note ap st).1.
Proof using HR.
  unfold record_validator_attestation. rewrite PM_bind_eq.
  pose proof (attestation_kept_by R (token t) (now t) i v accepted note st) as Hk.
  destruct (on_settlements _ st) as [st1 [[a x]|e]]; [|done]. destruct (_ && _); [|done]. rewrite PM_bind_eq.
  pose proof (apply_kept_by t (default_money_policy env) i (Some v) st1).
  destruct (apply_finalized_settlement _ _ _ _ _ _ st1) as [st2 [o|e]]; by etransitivity.
Qed.

Lemma run_op_kept_by st o : kept_by R st (run_settlement_op st o).
Proof using HR.
  destruct o as [t i v accepted note ap|i|t mp i v|t]; cbn [run_settlement_op].
  - apply vote_kept_by.
  - by apply refresh_kept_by.
  - apply apply_kept_by.
  - apply kept_kept_by, pkeeps_reconcile_worker_payouts. exact HR.
Qed.

Lemma run_ops_kept_by ops : ∀ st, kept_by R st (foldl run_settlement_op st ops).
Proof using HR.
  induction ops as [|o ops IH]; intros st; cbn; [reflexivity|]. etransitivity; [apply run_op_kept_by|apply IH].
Qed.
End kept.

(** ** Signing and verifying *)

Lemma sign_payload_nonempty seed payload sg : sign_payload_b64 seed payload = Ok sg → sg ≠ "".
Proof using H0.
  unfold sign_payload_b64. intros (l & Hl & [= <-])%bind_ok E.
  destruct l as [|a [|b [|c l]]]; [|done..]. by apply ed25519_sign_nonempty in Hl.
Qed.

Lemma sign_mldsa_nonempty sk payload sg : sign_payload_mldsa65_b64 sk payload = Ok sg → sg ≠ "".
Proof using H0.
  unfold sign_payload_mldsa65_b64. intros (k & _ & (l & Hl & [= <-])%bind_ok)%bind_ok E.
  destruct l as [|a [|b [|c l]]]; [|done..]. by apply mldsa65_sign_nonempty in Hl.
Qed.

(** The key material names its public keys. *)
Definition names_keys (m : SigningMaterial) (hybrid : bool) : Prop :=
  sm_public_key_b64 m ≠ "" ∧ (hybrid = true → sm_pq_public_key_b64 m ≠ "").

Definition is_signed (d : list (string * pyval)) : Prop := dget "status" d = VStr "signed".

Lemma text_or_empty s : py_str (py_or (VStr s) (VStr "")) = s.
Proof. unfold py_or, truthy. by destruct (String.eqb_spec s "") as [->|]. Qed.

Lemma text_field_str k s d : dget k d = VStr s → text_field k d = s.
Proof. intros E. unfold text_field. rewrite E. unfold py_or, truthy. by destruct (String.eqb_spec s "") as [->|]. Qed.

(** A signed envelope carries the hash of the payload and signatures that verify. *)
Lemma signed_envelope_accepted t s mp wallets d audit :
  make_envelope keys_of unlocked t s mp wallets = Ok d → is_signed d →
  (∀ w m, w ∈ wallets → unlocked w = Some m → names_keys m (wallet_uses_hybrid (keys_of w))) →
  dget "signed_envelope" audit = VDict d →
  Forall (λ k, dget k audit = dget k (sr_balance_audit s)) ["quote"; "fees"; "debits"; "execution"; "payouts"] →
  verify_settlement_envelope (with_balance_audit s audit) mp = (true, None).
Proof using H0.
  intros Hmake Hsigned Hkeys Haudit Hsec. unfold verify_settlement_envelope.
  assert (settlement_envelope_payload (with_balance_audit s audit) mp = settlement_envelope_payload s mp) as Hpay.
  { rewrite !Forall_cons in Hsec. destruct Hsec as (E1 & E2 & E3 & E4 & E5 & _).
    unfold settlement_envelope_payload, audit_section. cbn [sr_balance_audit with_balance_audit].
    by rewrite E1, E2, E3, E4, E5. }
  rewrite Hpay. clear Hpay Hsec. unfold audit_section. cbn [sr_balance_audit with_balance_audit]. rewrite Haudit.
  clear Haudit. revert Hmake. unfold make_envelope.
  set (payload := settlement_envelope_payload s mp). set (h := settlement_envelope_hash payload).
  destruct (find_wallet_by_id _ wallets) as [w|] eqn:Ew; [|by intros [= <-]].
  assert (w ∈ wallets) as Hw by (apply List.find_some in Ew as [? _]; by apply list_elem_of_In).
  destruct (negb (wallet_uses_ed25519 (keys_of w)) && negb (wallet_uses_hybrid (keys_of w))) eqn:Ekind; [by intros [= <-]|].
  destruct (unlocked w) as [m|] eqn:Eu; [|by intros [= <-]].
  destruct (negb (bool_decide (Some _ = _))); [by intros [= <-]|].
  destruct (_ && negb (String.eqb (sm_pq_public_key_b64 m) _)); [by intros [= <-]|].
  destruct (negb (String.eqb (normalize_address _) _)); [by intros [= <-]|].
  destruct (Hkeys w m Hw Eu) as [Hpk Hpq].
  intros (fields & Hf & Hd)%bind_ok. apply (inj Ok) in Hd. unfold signature_fields in Hf.
  apply bind_ok in Hf as (seed & _ & (sg & Hsg & Hf)%bind_ok). apply sign_payload_nonempty in Hsg.
  destruct (wallet_uses_hybrid (keys_of w)) eqn:Ehyb.
  - apply bind_ok in Hf as (pqsg & Hpqsg & [= <-]). apply sign_mldsa_nonempty in Hpqsg. specialize (Hpq eq_refl).
    assert (wk_signing_scheme (keys_of w) = Some SIGNING_SCHEME_HYBRID_ED25519_ML_DSA_65) as Hscheme.
    { unfold wallet_uses_hybrid in Ehyb. by apply andb_true_iff in Ehyb as [?%bool_decide_eq_true _]. }
    subst d. unfold is_signed in Hsigned. revert Hsigned. cbn [dsets foldl app fst snd].
    rewrite !dget_dset. cbn [String.eqb Ascii.eqb Bool.eqb]. destruct (fields_verify _ _ _) eqn:Ev; [intros _|done].
    rewrite Hscheme. cbn [truthy negb val_opt]. rewrite bool_decide_true by done. cbn [negb].
    unfold text_field in *. rewrite !dget_dset. cbn [String.eqb Ascii.eqb Bool.eqb].
    rewrite !text_or_empty. rewrite (proj2 (String.eqb_neq _ _) Hpk), (proj2 (String.eqb_neq _ _) Hsg). cbn [orb].
    rewrite bool_decide_true by done. rewrite String.eqb_refl. cbn [negb].
    rewrite (proj2 (String.eqb_neq _ _) Hpq), (proj2 (String.eqb_neq _ _) Hpqsg). cbn [orb].
    revert Ev. unfold fields_verify, text_field. rewrite !dget_dset. cbn [String.eqb Ascii.eqb Bool.eqb].
    rewrite ?text_or_empty. by intros _.
  - injection Hf as <-. cbn [negb] in Ekind. rewrite andb_true_r in Ekind. apply negb_false_iff in Ekind.
    assert (wk_signing_scheme (keys_of w) = Some SIGNING_SCHEME_ED25519) as Hscheme.
    { unfold wallet_uses_ed25519 in Ekind. by apply andb_true_iff in Ekind as [?%bool_decide_eq_true _]. }
    subst d. unfold is_signed in Hsigned. revert Hsigned. cbn [dsets foldl app fst snd].
    rewrite !dget_dset. cbn [String.eqb Ascii.eqb Bool.eqb]. destruct (fields_verify _ _ _) eqn:Ev; [intros _|done].
    rewrite Hscheme. cbn [truthy negb val_opt]. rewrite bool_decide_true by done. cbn [negb].
    unfold text_field in *. rewrite !dget_dset. cbn [String.eqb Ascii.eqb Bool.eqb].
    rewrite !text_or_empty. rewrite (proj2 (String.eqb_neq _ _) Hpk), (proj2 (String.eqb_neq _ _) Hsg). cbn [orb].
    rewrite bool_decide_false by done.
    revert Ev. unfold fields_verify, text_field. rewrite !dget_dset. cbn [String.eqb Ascii.eqb Bool.eqb].
    rewrite ?text_or_empty. by intros _.
Qed.

(** C32: when signing a settlement's envelope reports it as signed, the settlement is stored and
    verifies, and the stored one keeps verifying through every sequence of votes with and
    without application, refreshes, applications and creditings of payouts, those that raise
    included: the audits they write into the settlement are not part of what is signed. *)
Theorem signed_envelope_verifies t settlement_id mp st st' s' :
  sign_settlement_envelope keys_of unlocked t settlement_id mp st = (st', Ok (Some s')) →
  envelope_is_signed s' = true →
  (∀ w m, w ∈ py_wallets st → unlocked w = Some m → names_keys m (wallet_uses_hybrid (keys_of w))) →
  resolve_settlement settlement_id (s_settlements (py_settlement st')) = Some s'
  ∧ verify_settlement_envelope s' mp = (true, None)
  ∧ ∀ ops, ∃ s2,
      resolve_settlement settlement_id (s_settlements (py_settlement (foldl run_settlement_op st' ops))) = Some s2
      ∧ verify_settlement_envelope s2 mp = (true, None).
Proof using H0.
  unfold sign_settlement_envelope. rewrite PM_bind_eq. unfold pget at 1.
  destruct (resolve_settlement settlement_id _) as [s|] eqn:Hres; [|done].
  apply resolve_id in Hres as Hid.
  rewrite PM_bind_eq. unfold pget at 1. rewrite PM_bind_eq. unfold plift at 1.
  destruct (make_envelope _ _ _ _ _ _) as [d|e] eqn:Hmake; [|done]. rewrite PM_bind_eq.
  rewrite save_audit_stored by (by rewrite Hid). intros [= <- <-] Hsigned Hkeys.
  set (s' := with_balance_audit s _) in *. set (st' := with_settlement st _).
  assert (verify_settlement_envelope s' mp = (true, None)) as Hv.
  { eapply signed_envelope_accepted; [exact Hmake| |exact Hkeys|by rewrite dget_dset|].
    - unfold envelope_is_signed, audit_section in Hsigned. cbn [sr_balance_audit with_balance_audit s'] in Hsigned.
      rewrite dget_dset in Hsigned. by apply bool_decide_eq_true in Hsigned.
    - apply Forall_forall. intros k Hk. rewrite dget_dset. destruct (String.eqb_spec k "signed_envelope") as [->|]; [|done].
      apply list_elem_of_In in Hk. cbn in Hk. intuition discriminate. }
  assert (resolve_settlement settlement_id (s_settlements (py_settlement st')) = Some s') as Hstored.
  { unfold st'. cbn [py_settlement with_settlement with_settlements s_settlements]. rewrite resolve_update by done.
    by rewrite Hid, String.eqb_refl, Hres. }
  split_and!; [done..|]. intros ops. destruct (run_ops_kept_by same_envelope ops st' settlement_id s' Hstored) as (s2 & Hs2 & E).
  exists s2. split; [done|]. by rewrite (verify_same_envelope s' s2 mp E).
Qed.

(** ** What the verification does not ask for *)

(** An envelope made with any key pair whatever. *)
Definition foreign_envelope (payload : pyval) (public_key_b64 signature_b64 : string) : list (string * pyval) :=
  [("required", VBool true); ("payload_hash", VStr (settlement_envelope_hash payload));
   ("scheme", VStr SIGNING_SCHEME_ED25519); ("public_key_b64", VStr public_key_b64);
   ("signature_b64", VStr signature_b64)].

Definition with_envelope (s : SettlementRecord) (d : list (string * pyval)) : SettlementRecord :=
  with_balance_audit s (dset "signed_envelope" (VDict d) (sr_balance_audit s)).

Lemma with_envelope_payload s d mp :
  settlement_envelope_payload (proposed_settlement (with_envelope s d)) mp = settlement_envelope_payload s mp.
Proof.
  unfold settlement_envelope_payload, audit_section, proposed_settlement, with_envelope.
  cbn [sr_balance_audit with_application with_votes with_balance_audit]. by rewrite !dget_dset.
Qed.

Lemma foreign_envelope_verifies s mp seed pk sg :
  public_key_b64_from_seed seed = Ok pk → pk ≠ "" →
  sign_payload_b64 seed (settlement_envelope_payload s mp) = Ok sg →
  verify_settlement_envelope
    (proposed_settlement (with_envelope s (foreign_envelope (settlement_envelope_payload s mp) pk sg))) mp
  = (true, None).
Proof using H0.
  intros Hpk Hne Hsg. pose proof (sign_verify_payload _ _ _ _ Hpk Hsg) as Hv. apply sign_payload_nonempty in Hsg.
  unfold verify_settlement_envelope. rewrite with_envelope_payload.
  unfold audit_section, proposed_settlement, with_envelope.
  cbn [sr_balance_audit with_application with_votes with_balance_audit]. rewrite dget_dset, String.eqb_refl.
  set (d := foreign_envelope _ _ _). set (payload := settlement_envelope_payload s mp).
  assert (truthy (dget "required" d) = true) as -> by reflexivity.
  assert (dget "payload_hash" d = VStr (settlement_envelope_hash payload)) as -> by reflexivity.
  assert (dget "scheme" d = VStr SIGNING_SCHEME_ED25519) as -> by reflexivity.
  cbn [negb]. rewrite bool_decide_true by done. cbn [negb]. unfold fields_verify.
  rewrite !(text_field_str "public_key_b64" pk), !(text_field_str "signature_b64" sg) by reflexivity.
  rewrite (proj2 (String.eqb_neq _ _) Hne), (proj2 (String.eqb_neq _ _) Hsg).
  cbn [orb]. rewrite bool_decide_false by done. fold payload in Hv. by rewrite Hv.
Qed.

Lemma unsigned_envelope_verifies s mp :
  verify_settlement_envelope (proposed_settlement (with_envelope s [("required", VBool false)])) mp = (true, None).
Proof.
  unfold verify_settlement_envelope, audit_section, proposed_settlement, with_envelope.
  cbn [sr_balance_audit with_application with_votes with_balance_audit]. by rewrite dget_dset.
Qed.

Lemma import_fresh s payouts mp st :
  verify_settlement_envelope (proposed_settlement s) mp = (true, None) →
  validate_settlement_accounting (proposed_settlement s) (map _coerce_worker_payout_record payouts) mp = [] →
  sr_settlement_id s ∉ map sr_settlement_id (s_settlements (py_settlement st)) →
  ∃ st', import_settlement_proposal_payload {| pr_settlement := s; pr_worker_payouts := payouts |} mp st
         = (st', Ok (proposed_settlement s))
    ∧ s_settlements (py_settlement st')
      = list_settlements (s_settlements (py_settlement st)) ++ [proposed_settlement s].
Proof.
  intros Hv Ha Hfresh. unfold import_settlement_proposal_payload. cbn [pr_settlement pr_worker_payouts].
  rewrite Hv. cbn [negb]. rewrite Ha. rewrite PM_bind_eq. unfold pget at 1.
  assert (List.find (λ x, String.eqb (sr_settlement_id x) (sr_settlement_id (proposed_settlement s)))
            (list_settlements (s_settlements (py_settlement st))) = None) as ->.
  { destruct (List.find _ _) as [x|] eqn:E; [|done]. apply List.find_some in E as [Hin Hx].
    apply String.eqb_eq in Hx. apply list_elem_of_In in Hin. unfold list_settlements, newest_first in Hin.
    rewrite elem_of_py_sorted in Hin. destruct Hfresh. change (sr_settlement_id (proposed_settlement s)) with (sr_settlement_id s) in Hx.
    rewrite <- Hx. by apply list_elem_of_fmap_2. }
  rewrite PM_bind_eq, PM_bind_eq. cbn [on_settlements save_settlements mret PM_ret]. rewrite PM_bind_eq.
  set (st1 := with_settlement st _).
  assert (∃ st2, _upsert_worker_payout_records (map _coerce_worker_payout_record payouts) st1 = (st2, Ok tt)
                 ∧ s_settlements (py_settlement st2) = s_settlements (py_settlement st1)) as (st2 & -> & Hst2).
  { unfold _upsert_worker_payout_records. destruct (map _ payouts); [by exists st1|].
    rewrite PM_bind_eq. unfold pget. eexists. split; [done|]. done. }
  rewrite PM_bind_eq. unfold pget. exists st2. rewrite Hst2. unfold st1. cbn [py_settlement with_settlement s_settlements].
  rewrite (resolve_fresh _ (proposed_settlement s)); [done|done|].
  unfold list_settlements, newest_first. rewrite (Permutation_map _ (py_sorted_perm _ _)). exact Hfresh.
Qed.

(** A validator imports a proposal to settle any job out of any wallet, as long as its
    accounting adds up and its id is new, without a signature of that wallet: with an envelope
    that says no signature is required, and with one signed by any key at all. *)
Theorem proposal_needs_no_payer_signature s payouts mp st seed pk sg :
  validate_settlement_accounting s (map _coerce_worker_payout_record payouts) mp = [] →
  sr_settlement_id s ∉ map sr_settlement_id (s_settlements (py_settlement st)) →
  public_key_b64_from_seed seed = Ok pk → pk ≠ "" →
  sign_payload_b64 seed (settlement_envelope_payload s mp) = Ok sg →
  ∀ d, d = [("required", VBool false)] ∨ d = foreign_envelope (settlement_envelope_payload s mp) pk sg →
  ∃ st', import_settlement_proposal_payload
           {| pr_settlement := with_envelope s d; pr_worker_payouts := payouts |} mp st
         = (st', Ok (proposed_settlement (with_envelope s d)))
    ∧ proposed_settlement (with_envelope s d) ∈ s_settlements (py_settlement st').
Proof using H0.
  intros Ha Hfresh Hpk Hne Hsg d Hd.
  destruct (import_fresh (with_envelope s d) payouts mp st) as (st' & Hrun & Hst'); [|exact Ha|exact Hfresh|].
  - destruct Hd as [->| ->]; [apply unsigned_envelope_verifies|by eapply foreign_envelope_verifies].
  - exists st'. split; [done|]. rewrite Hst'. apply elem_of_app. right. by apply list_elem_of_singleton.
Qed.
End envelope.
