(* ===== verification/PayoutWitness.v ===== *)
(** * Witnesses for payouts and proposals

    A job of two nodes paid through its settlement, signed envelopes of the transparent
    signature scheme, and the payment that repeats when a proposal arrives again. *)
From Stdlib Require Import Ascii QArith.
From S2P Require Import Prelude.
From S2P Require Import PyStr.
From S2P Require Import PyVal.
From S2P Require Import Money.
From S2P Require Import Signing.
From S2P Require Import ChainTx.
From S2P Require Import Ledger.
From S2P Require Import ChainStore.
From S2P Require Import Apportion.
From S2P Require Import SettlementData.
From S2P Require Import Funding.
From S2P Require Import Validators.
From S2P Require Import Settlement.
From S2P Require Import Demo.
From S2P Require Import ChainSyncProps.
From S2P Require Import FundingProps.
From S2P Require Import Payouts.
From S2P Require Import PayoutProps.
From S2P Require Import PayoutCredit.
From S2P Require Import Envelope.
From S2P Require Import EnvelopeProps.
Import Signing.Transparent.
Local Open Scope Z_scope.
Set Default Proof Using "Type".

Lemma ok_value {A} (r : result A) (a : A) : is_ok r = true → r = Ok (match r with Ok x => x | Err _ => a end).
Proof. by destruct r. Qed.

(** ** A job *)

Definition no_decision : FundingDecision :=
  funding_decision
    {| fi_preference := AUTO;
       fi_quote := {| fq_compute_cost_atomic := 0; fq_tx_fee_atomic := 0; fq_settlement_fee_atomic := 0;
                      fq_ai_development_fee_atomic := 0; fq_worker_reward_atomic := 0 |};
       fi_reserve := 0; fi_wallet := 0; fi_identity_keys := []; fi_client_hash := None; fi_spent := [];
       fi_limits := []; fi_fallback_limit := None |} mainnet_money.

Definition job_decision : FundingDecision := match demo_plan with Ok d => d | Err _ => no_decision end.

Definition job_wallet : WalletRecord := {|
  wr_wallet_id := "w2"; wr_address := "cai_w2"; spendable_balance_atomic := 10;
  validator_reserved_atomic := 0 |}.

(** The payer's wallet and one worker's; the reward address of that worker's node is known. *)
Definition job_store : PayoutStore := {|
  py_settlement := {| s_chain := empty_store; s_settlements := []; s_payouts := [];
                      s_attestations := []; s_validators := []; s_rewards := {[ "n2" := "cai_w2" ]} |};
  py_wallets := [demo_wallet; job_wallet]; py_journal := []; py_ledger := demo_ledger |}.

Definition participant (node : string) (first last : Z) : Participant := {|
  pa_node_id := node; pa_runner_id := VNone; pa_layer_start := Some first; pa_layer_end := Some last;
  pa_layer_count := Some (last - first) |}.

Definition job_participants : list Participant := [participant "n1" 0 21; participant "n2" 21 32].

Definition job_lottery (seed v : string) (bond : Z) : Q := 0.

Definition job_open : PayoutStore * result SettlementRecord :=
  record_funding_settlement job_lottery tick1 [] "w" "cai_w" job_decision None mainnet_money None job_store.

Definition job_settlement : SettlementRecord :=
  match job_open.2 with Ok s => s | Err _ => SettlementProps.demo_settlement end.

Lemma job_opened : job_open = (job_open.1, Ok job_settlement).
Proof.
  apply injective_projections; [done|]. apply ok_value. vm_compute. reflexivity.
Qed.

Definition job_id (i : nat) : string := str_of_Z (Z.of_nat i).

Definition job_shares : list RewardShare :=
  distribute_worker_reward (sr_worker_reward_atomic job_settlement) job_participants.

Definition job_records : list WorkerPayoutRecord :=
  records_of tick2 job_id mainnet_money (sr_settlement_id job_settlement) "r1" "m"
    (s_rewards (py_settlement job_store)) job_shares.

Lemma job_quote : build_fee_quote 200000 mainnet_money None = Ok (fd_fee_quote job_decision).
Proof. vm_compute. reflexivity. Qed.

Lemma job_payouts_recorded_witness :
  is_ok (record_worker_payouts tick2 job_id (sr_settlement_id job_settlement) "r1" "m" job_shares
           mainnet_money job_open.1).2 = true
  ∧ exact_accounting job_settlement job_records mainnet_money
  ∧ map wp_reward_atomic job_records = [128625; 67375].
Proof.
  destruct (job_payouts_recorded job_lottery tick1 tick2 job_id [] "w" "cai_w" job_decision None
    mainnet_money None 200000 None "r1" "m" job_participants job_store job_open.1 job_settlement
    job_quote) as (Hrun & Hexact & _).
  - done.
  - apply Z.leb_le. vm_compute. reflexivity.
  - apply Z.leb_le. vm_compute. reflexivity.
  - apply Z.leb_le. vm_compute. reflexivity.
  - apply (bool_decide_eq_true_1 _). vm_compute. reflexivity.
  - done.
  - apply not_elem_of_nil.
  - intros p Hp. by apply not_elem_of_nil in Hp.
  - exact job_opened.
  - split_and!; [|exact Hexact|vm_compute; reflexivity].
    fold job_shares in Hrun. rewrite Hrun. reflexivity.
Defined.

Lemma job_nodes : NoDup (map wp_node_id job_records).
Proof. apply (bool_decide_eq_true_1 _). vm_compute. reflexivity. Qed.

Lemma accounting_decides_exactness_witness : exact_accounting job_settlement job_records mainnet_money.
Proof.
  apply (accounting_decides_exactness job_settlement job_records mainnet_money job_nodes).
  vm_compute. reflexivity.
Defined.

(** ** Payouts of an applied settlement *)

(** The settlement is applied and its payouts are recorded. *)
Definition applied_settlement : SettlementRecord :=
  with_application job_settlement "applied" (Some "2026-02-03") (Some "v1") None
    (_with_worker_payout_accounting_audit job_settlement job_records mainnet_money).

Definition with_files (settlements : list SettlementRecord) (payouts : list WorkerPayoutRecord)
    (wallets : list WalletRecord) : PayoutStore := {|
  py_settlement := {| s_chain := empty_store; s_settlements := settlements; s_payouts := payouts;
                      s_attestations := []; s_validators := [];
                      s_rewards := {[ "n2" := "cai_w2" ]} |};
  py_wallets := wallets; py_journal := []; py_ledger := demo_ledger |}.

Definition applied_store : PayoutStore :=
  with_files [applied_settlement] job_records [demo_wallet; job_wallet].

Definition reconciled_store : PayoutStore := (reconcile_worker_payouts tick1 applied_store).1.
Definition paid_store : PayoutStore :=
  (_apply_finalized_worker_payouts tick2 applied_settlement reconciled_store).1.

(** The handled payouts, or the error. *)
Lemma handled_value {A} (m : PM (list A)) st :
  is_ok (m st).2 = true → m st = ((m st).1, Ok (match (m st).2 with Ok l => l | Err _ => [] end)).
Proof. intros E. apply injective_projections; [done|]. by apply ok_value. Qed.

Lemma reconcile_step : pay_step applied_store reconciled_store.
Proof. eapply (pay_reconcile _ _ tick1). apply handled_value. vm_compute. reflexivity. Qed.

Lemma apply_step : pay_step reconciled_store paid_store.
Proof. eapply (pay_apply _ _ tick2 applied_settlement). apply handled_value. vm_compute. reflexivity. Qed.

Lemma recorded_payouts_wf : Forall payout_wf (payouts_of applied_store).
Proof.
  apply Forall_forall. intros p (i & x & _ & ->)%records_elem. apply new_payout_wf.
Qed.

Lemma local_wallets_distinct : NoDup (wallet_ids (py_wallets applied_store)).
Proof. apply (bool_decide_eq_true_1 _). vm_compute. reflexivity. Qed.

Lemma payouts_credited_once_witness :
  wallet_balance "w2" (py_wallets paid_store) - wallet_balance "w2" (py_wallets applied_store)
  = credited_to "w2" (payouts_of paid_store) - credited_to "w2" (payouts_of applied_store)
  ∧ wallet_balance "w2" (py_wallets paid_store) = 10 + 67375.
Proof.
  destruct (payouts_credited_once applied_store paid_store local_wallets_distinct recorded_payouts_wf)
    as (_ & _ & Hpaid & _).
  - eapply rtc_l; [exact reconcile_step|]. apply rtc_once, apply_step.
  - split; [exact (Hpaid "w2")|vm_compute; reflexivity].
Defined.

(** ** A proposal that arrives again *)

Definition job_proposal : Proposal := {|
  pr_settlement := with_envelope applied_settlement [("required", VBool false)];
  pr_worker_payouts := job_records |}.

Definition reimported_store : PayoutStore :=
  (import_settlement_proposal_payload job_proposal mainnet_money paid_store).1.

(** Importing the proposal of an applied settlement once more makes its credited payouts
    pending again, and the next reconciliation credits them a second time. *)
Lemma reimport_credits_twice :
  (is_ok (import_settlement_proposal_payload job_proposal mainnet_money paid_store).2,
   wallet_balance "w2" (py_wallets (reconcile_worker_payouts tick2 reimported_store).1))
  = (true, 10 + 2 * 67375).
Proof. vm_compute. reflexivity. Qed.

(** ** Envelopes *)

Definition demo_keys_of (w : WalletRecord) : WalletKeys := {|
  wk_signing_scheme := Some SIGNING_SCHEME_ED25519; wk_address_scheme := Some ADDRESS_SCHEME_ED25519;
  wk_public_key_b64 := Some demo_key; wk_pq_public_key_b64 := None |}.

Definition demo_unlocked (w : WalletRecord) : option SigningMaterial := Some {|
  sm_public_key_b64 := demo_key; sm_signing_seed_b64 := demo_key; sm_pq_public_key_b64 := "";
  sm_pq_private_key_b64 := "" |}.

Definition signed_job : PayoutStore * result (option SettlementRecord) :=
  sign_settlement_envelope demo_keys_of demo_unlocked tick2 (sr_settlement_id job_settlement)
    mainnet_money job_open.1.

Definition signed_record : SettlementRecord :=
  match signed_job.2 with Ok (Some s) => s | _ => job_settlement end.

Definition holds_record (r : result (option SettlementRecord)) : bool :=
  match r with Ok (Some _) => true | _ => false end.

Lemma holds_value (r : result (option SettlementRecord)) s :
  holds_record r = true → r = Ok (Some (match r with Ok (Some x) => x | _ => s end)).
Proof. by destruct r as [[x|]|]. Qed.

Lemma job_signed : signed_job = (signed_job.1, Ok (Some signed_record)).
Proof. apply injective_projections; [done|]. apply holds_value. vm_compute. reflexivity. Qed.

Lemma demo_names_keys w m :
  w ∈ py_wallets job_open.1 → demo_unlocked w = Some m → names_keys m (wallet_uses_hybrid (demo_keys_of w)).
Proof. intros _ [= <-]. split; [vm_compute; discriminate|]. vm_compute. discriminate. Qed.

Definition vote (token_ v : string) (apply_on_finalize : bool) : SettlementOp :=
  OpVote {| now := "2026-02-04"; token := token_; new_stat := (0, 0) |} (sr_settlement_id job_settlement) v true
    None apply_on_finalize.

Lemma signed_envelope_verifies_witness :
  verify_settlement_envelope signed_record mainnet_money = (true, None)
  ∧ ∃ s, resolve_settlement (sr_settlement_id job_settlement)
           (s_settlements (py_settlement (foldl (run_settlement_op no_env None) signed_job.1
              [vote "1" "v1" false; vote "2" "v2" true; OpReconcilePayouts tick2]))) = Some s
    ∧ verify_settlement_envelope s mainnet_money = (true, None).
Proof.
  destruct (signed_envelope_verifies demo_keys_of demo_unlocked no_env None tick2 (sr_settlement_id job_settlement)
    mainnet_money job_open.1 signed_job.1 signed_record job_signed) as (_ & H1 & H2).
  - vm_compute. reflexivity.
  - exact demo_names_keys.
  - split; [exact H1|exact (H2 [vote "1" "v1" false; vote "2" "v2" true; OpReconcilePayouts tick2])].
Defined.

Definition job_signature : string :=
  match sign_payload_b64 demo_seed (settlement_envelope_payload job_settlement mainnet_money) with
  | Ok s => s | Err _ => ""
  end.

Definition job_envelope : list (string * pyval) :=
  foreign_envelope (settlement_envelope_payload job_settlement mainnet_money) demo_key job_signature.

Lemma job_signature_ok :
  sign_payload_b64 demo_seed (settlement_envelope_payload job_settlement mainnet_money) = Ok job_signature.
Proof. apply ok_value. vm_compute. reflexivity. Qed.

Lemma proposal_needs_no_payer_signature_witness :
  ∃ st', import_settlement_proposal_payload
           {| pr_settlement := with_envelope job_settlement job_envelope;
              pr_worker_payouts := job_records |} mainnet_money job_store
         = (st', Ok (proposed_settlement (with_envelope job_settlement job_envelope))).
Proof.
  destruct (proposal_needs_no_payer_signature job_settlement job_records mainnet_money job_store
    demo_seed demo_key job_signature) with (d := job_envelope) as (st' & Hrun & _).
  - vm_compute. reflexivity.
  - apply not_elem_of_nil.
  - vm_compute. reflexivity.
  - vm_compute. discriminate.
  - exact job_signature_ok.
  - right. reflexivity.
  - exists st'. exact Hrun.
Defined.
