(* ===== verification/EventBuffer.v ===== *)
(** * Event buffers and back-off

    [utils/event_buffer.py] (the resequencing buffers of the event stream) and
    [utils/keyed_backoff.py] (the retry delays of the worker). *)
From Stdlib Require Import Ascii QArith.
From S2P Require Import Prelude.
Local Open Scope Z_scope.
Set Default Proof Using "Type".

(** ** OrderedBuffer *)

Record OrderedBuffer (T : Type) := {
  store : gmap Z T;
  next_idx_to_release : Z
}.
Arguments store {T} _.
Arguments next_idx_to_release {T} _.

Definition new_buffer {T} : OrderedBuffer T := {| store := ∅; next_idx_to_release := 0 |}.

Section ordered_buffer.
Context {T : Type} `{EqDecision T}.

Definition ingest (idx : Z) (t : T) (b : OrderedBuffer T) : result (OrderedBuffer T) :=
  if idx <? next_idx_to_release b then Ok b
  else
    match store b !! idx with
    | Some t' => if decide (t' = t) then Ok b else Err AssertionError
    | None => Ok {| store := <[idx := t]> (store b);
                    next_idx_to_release := next_idx_to_release b |}
    end.

(** The [while] loop of the two drains; [None] when the fuel runs out. *)
Fixpoint drain_loop (fuel : nat) (ret : list (Z * T)) (b : OrderedBuffer T)
  : option (list (Z * T) * OrderedBuffer T) :=
  match fuel with
  | O => None
  | S fuel' =>
      let idx := next_idx_to_release b in
      match store b !! idx with
      | None => Some (ret, b)
      | Some event =>
          drain_loop fuel' (ret ++ [(idx, event)])
            {| store := delete idx (store b); next_idx_to_release := idx + 1 |}
      end
  end.

(** Every turn takes an event out of the store, so one turn more than its size is enough. *)
Definition drain_fuel (b : OrderedBuffer T) : nat := S (size (store b)).

Definition drain_indexed (b : OrderedBuffer T) : list (Z * T) * OrderedBuffer T :=
  default ([], b) (drain_loop (drain_fuel b) [] b).

Definition drain (b : OrderedBuffer T) : list T * OrderedBuffer T :=
  let '(ret, b') := drain_indexed b in (map snd ret, b').

(** ** MultiSourceBuffer *)

Context {SourceId : Type} `{EqDecision SourceId}.

(** [stores], a dict: the sources in the order of their first event. *)
Definition MultiSourceBuffer : Type := list (SourceId * OrderedBuffer T).

Fixpoint ms_ingest (idx : Z) (t : T) (source : SourceId) (m : MultiSourceBuffer)
  : result MultiSourceBuffer :=
  match m with
  | [] => b ← ingest idx t new_buffer; Ok [(source, b)]
  | (s, b) :: m' =>
      if decide (s = source) then b' ← ingest idx t b; Ok ((s, b') :: m')
      else m'' ← ms_ingest idx t source m'; Ok ((s, b) :: m'')
  end.

Fixpoint ms_drain (m : MultiSourceBuffer) : list T * MultiSourceBuffer :=
  match m with
  | [] => ([], [])
  | (s, b) :: m' =>
      let '(ret, b') := drain b in
      let '(rest, m'') := ms_drain m' in
      (ret ++ rest, (s, b') :: m'')
  end.
End ordered_buffer.

(** ** KeyedBackoff

    Clock readings are rationals and their differences exact; the powers of two are exact in
    the doubles of the code as well. *)

Record KeyedBackoff (K : Type) `{Countable K} := {
  kb_base : Q;
  kb_cap : Q;
  kb_attempts : gmap K nat;
  kb_last_time : gmap K Q
}.
Arguments kb_base {K _ _} _.
Arguments kb_cap {K _ _} _.
Arguments kb_attempts {K _ _} _.
Arguments kb_last_time {K _ _} _.

Section backoff.
Context {K : Type} `{Countable K}.

(** [2.0 ** attempts] raises OverflowError from 1024 on. *)
Definition two_pow (attempts : nat) : result Q :=
  if (attempts <? 1024)%nat then Ok (inject_Z (2 ^ Z.of_nat attempts)) else Err OverflowError.

Definition Qmin_py (a b : Q) : Q := if Qle_bool a b then a else b.

Definition attempts (key : K) (k : KeyedBackoff K) : nat := default O (kb_attempts k !! key).

Definition should_proceed (now : Q) (key : K) (k : KeyedBackoff K) : result bool :=
  let last := default 0%Q (kb_last_time k !! key) in
  p ← two_pow (attempts key k);
  Ok (Qle_bool (Qmin_py (kb_cap k) (kb_base k * p)) (now - last)).

Definition record_attempt (now : Q) (key : K) (k : KeyedBackoff K) : KeyedBackoff K :=
  {| kb_base := kb_base k; kb_cap := kb_cap k;
     kb_attempts := <[key := S (attempts key k)]> (kb_attempts k);
     kb_last_time := <[key := now]> (kb_last_time k) |}.

Definition reset (key : K) (k : KeyedBackoff K) : KeyedBackoff K :=
  {| kb_base := kb_base k; kb_cap := kb_cap k; kb_attempts := delete key (kb_attempts k);
     kb_last_time := delete key (kb_last_time k) |}.
End backoff.

(** * Properties of the event buffers and of back-off *)


Section drain.
Context {T : Type} `{EqDecision T}.
Implicit Types b : OrderedBuffer T.

(** The loop with what it has already released in front. *)
Lemma drain_loop_app fuel : ∀ ret b,
  drain_loop fuel ret b
  = (λ r : list (Z * T) * OrderedBuffer T, (ret ++ r.1, r.2)) <$> drain_loop fuel [] b.
Proof.
  induction fuel as [|fuel IH]; intros ret b; cbn; [done|].
  destruct (store b !! next_idx_to_release b) as [x|]; cbn; [|by rewrite app_nil_r].
  rewrite IH, (IH [_]). destruct (drain_loop fuel [] _) as [[r b']|]; cbn; [|done].
  by rewrite <- app_assoc.
Qed.

(** What a drain releases: the events at the next indices, without a gap, until an index the
    store lacks. *)
Record released b (ret : list (Z * T)) b' : Prop := {
  rl_indices : map fst ret = map (λ i, next_idx_to_release b + Z.of_nat i) (seq 0 (length ret));
  rl_events : ∀ i t, (i, t) ∈ ret → store b !! i = Some t;
  rl_next : next_idx_to_release b' = next_idx_to_release b + Z.of_nat (length ret);
  rl_store : ∀ i, store b' !! i = if decide (next_idx_to_release b ≤ i < next_idx_to_release b')
                                  then None else store b !! i;
  rl_stop : store b' !! next_idx_to_release b' = None
}.

Lemma map_fst_seq_shift (start : Z) n :
  map (λ i, start + Z.of_nat i) (seq 0 (S n))
  = start :: map (λ i, start + 1 + Z.of_nat i) (seq 0 n).
Proof.
  cbn. f_equal; [lia|]. rewrite <- seq_shift, map_map. apply map_ext. intros i. lia.
Qed.

Lemma drain_loop_released fuel : ∀ b,
  (size (store b) < fuel)%nat → ∃ ret b', drain_loop fuel [] b = Some (ret, b') ∧ released b ret b'.
Proof.
  induction fuel as [|fuel IH]; intros b Hf; [lia|]. cbn.
  destruct (store b !! next_idx_to_release b) as [x|] eqn:E.
  - set (b1 := {| store := delete (next_idx_to_release b) (store b);
                  next_idx_to_release := next_idx_to_release b + 1 |}).
    destruct (IH b1) as (ret & b' & Hrun & Hr).
    { cbn. rewrite map_size_delete, E. assert (size (store b) ≠ 0%nat); [|lia].
      intros Hz. apply map_size_empty_iff in Hz. rewrite Hz in E. by rewrite lookup_empty in E. }
    rewrite drain_loop_app, Hrun. cbn. eexists _, b'. split; [done|].
    destruct Hr as [Hidx Hev Hnext Hstore Hstop]. cbn in *. constructor; cbn [length map fst].
    + rewrite map_fst_seq_shift, Hidx. done.
    + intros i t [[= -> ->]|Hin]%elem_of_cons; [done|]. apply Hev in Hin.
      by apply lookup_delete_Some in Hin as [_ Hin].
    + lia.
    + intros i. rewrite Hstore. destruct (decide (i = next_idx_to_release b)) as [->|Hi].
      * rewrite lookup_delete_eq. repeat case_decide; try done; lia.
      * rewrite lookup_delete_ne by done. repeat case_decide; try done; lia.
    + done.
  - exists [], b. split; [done|]. constructor; cbn; try done; [by intros i t ?%not_elem_of_nil|lia|].
    intros i. case_decide; [lia|done].
Qed.

Lemma drain_indexed_released b : released b (drain_indexed b).1 (drain_indexed b).2.
Proof.
  unfold drain_indexed, drain_fuel. destruct (drain_loop_released (S (size (store b))) b) as (ret & b' & -> & Hr);
    [lia|done].
Qed.

Lemma drain_loop_more fuel fuel' : ∀ b r,
  drain_loop fuel [] b = Some r → (fuel ≤ fuel')%nat → drain_loop fuel' [] b = Some r.
Proof.
  revert fuel'. induction fuel as [|fuel IH]; intros fuel' b r; cbn; [done|].
  intros Hr Hle. destruct fuel' as [|fuel']; [lia|]. cbn.
  destruct (store b !! next_idx_to_release b); [|done].
  rewrite drain_loop_app in Hr. rewrite drain_loop_app.
  destruct (drain_loop fuel [] _) as [r'|] eqn:E; [|done]. by rewrite (IH fuel' _ r') by (done || lia).
Qed.

Lemma drain_loop_fuel fuel b :
  (drain_fuel b ≤ fuel)%nat → drain_loop fuel [] b = Some (drain_indexed b).
Proof.
  intros Hf. eapply drain_loop_more; [|exact Hf]. unfold drain_indexed, drain_fuel.
  destruct (drain_loop_released (S (size (store b))) b) as (ret & b' & -> & _); [lia|done].
Qed.

Lemma drain_loop_size fuel : ∀ b r,
  drain_loop fuel [] b = Some r → (length r.1 + size (store r.2) = size (store b))%nat.
Proof.
  induction fuel as [|fuel IH]; intros b r; cbn; [done|].
  destruct (store b !! next_idx_to_release b) eqn:E; [|by intros [= <-]].
  rewrite drain_loop_app. destruct (drain_loop fuel [] _) as [r'|] eqn:E'; [|done].
  apply IH in E'. cbn in *. intros [= <-]. cbn. rewrite map_size_delete, E in E'.
  assert (size (store b) ≠ 0%nat); [|lia].
  intros Hz. apply map_size_empty_iff in Hz. rewrite Hz in E. by rewrite lookup_empty in E.
Qed.
End drain.

(** The [while] loop of a drain terminates: any fuel above the number of stored events
    gives the same result, and the events released together with those kept are the ones that
    were stored, so a drain takes exactly as many turns as it releases events. *)
Theorem drain_terminates {T} `{EqDecision T} (b : OrderedBuffer T) (fuel : nat) :
  (drain_fuel b ≤ fuel)%nat →
  drain_loop fuel [] b = Some (drain_indexed b)
  ∧ (length (drain_indexed b).1 + size (store (drain_indexed b).2) = size (store b))%nat
  ∧ store (drain_indexed b).2 !! next_idx_to_release (drain_indexed b).2 = None.
Proof.
  intros Hf. split_and!; [| |eapply rl_stop, drain_indexed_released].
  - by apply drain_loop_fuel.
  - eapply drain_loop_size. by apply drain_loop_fuel.
Qed.

(** ** Resequencing *)

Section stream.
Context {T : Type} `{EqDecision T} (f : Z → T).

(** The events of a stream arrive with their indices, any number of times in any order;
    between arrivals the buffer is drained. *)
Inductive BufferOp := Arrive (i : Z) | Drain.

Definition buffer_step (acc : list (Z * T) * OrderedBuffer T) (o : BufferOp)
  : result (list (Z * T) * OrderedBuffer T) :=
  match o with
  | Arrive i => b ← ingest i (f i) acc.2; Ok (acc.1, b)
  | Drain => let '(ret, b) := drain_indexed acc.2 in Ok (acc.1 ++ ret, b)
  end.

Definition buffer_run (ops : list BufferOp) : result (list (Z * T) * OrderedBuffer T) :=
  foldM buffer_step ([], new_buffer) ops.

Definition arrived (ops : list BufferOp) : list Z :=
  omap (M:=list) (λ o, match o with Arrive i => Some i | Drain => None end) ops.

(** The first [n] events, with their indices. *)
Definition prefix_of (n : nat) : list (Z * T) := map (λ i, (Z.of_nat i, f (Z.of_nat i))) (seq 0 n).

Lemma prefix_length n : length (prefix_of n) = n.
Proof. unfold prefix_of. by rewrite length_map, length_seq. Qed.

Record resequenced (ops : list BufferOp) (out : list (Z * T)) (b : OrderedBuffer T) : Prop := {
  rs_prefix : ∃ n, next_idx_to_release b = Z.of_nat n ∧ out = prefix_of n;
  rs_store : ∀ i, store b !! i = if decide (next_idx_to_release b ≤ i ∧ i ∈ arrived ops)
                                 then Some (f i) else None;
  rs_arrived : ∀ i, 0 ≤ i < next_idx_to_release b → i ∈ arrived ops
}.

Lemma arrived_snoc ops o :
  arrived (ops ++ [o]) = arrived ops ++ match o with Arrive i => [i] | Drain => [] end.
Proof. unfold arrived. rewrite omap_app. by destruct o. Qed.

Lemma events_by_index (ret : list (Z * T)) :
  (∀ i t, (i, t) ∈ ret → t = f i) → ret = map (λ i, (i, f i)) (map fst ret).
Proof.
  induction ret as [|[i t] ret IH]; intros Hall; cbn; [done|]. f_equal.
  - f_equal. apply Hall. by left.
  - apply IH. intros j u Hj. apply Hall. by right.
Qed.

Lemma released_prefix n b ret b' :
  next_idx_to_release b = Z.of_nat n → (∀ i t, store b !! i = Some t → t = f i) →
  released b ret b' → prefix_of n ++ ret = prefix_of (n + length ret).
Proof.
  intros Hn Hf [Hidx Hev _ _ _]. unfold prefix_of. rewrite seq_app, map_app. f_equal.
  rewrite (events_by_index ret) at 1 by eauto. rewrite Hidx, map_map, Hn. cbn [Nat.add].
  pose proof (fmap_add_seq n 0 (length ret)) as Hs. rewrite Nat.add_0_r in Hs. rewrite <- Hs.
  change ((λ x, (n + x)%nat) <$> seq 0 (length ret)) with (map (Nat.add n) (seq 0 (length ret))).
  rewrite map_map. apply map_ext. intros i.
  by rewrite Nat2Z.inj_add.
Qed.

Lemma resequenced_step ops o out b :
  resequenced ops out b →
  ∃ out' b', buffer_step (out, b) o = Ok (out', b') ∧ resequenced (ops ++ [o]) out' b'.
Proof.
  intros [(n & Hn & Hout) Hstore Harr]. destruct o as [i|]; cbn [buffer_step fst snd].
  - unfold ingest. destruct (Z.ltb_spec i (next_idx_to_release b)) as [Hi|Hi].
    + exists out, b. split; [done|]. constructor; [eauto| |].
      * intros j. rewrite Hstore, arrived_snoc. repeat case_decide; try done; set_solver by lia.
      * intros j Hj. rewrite arrived_snoc. set_solver.
    + rewrite Hstore. destruct (decide (next_idx_to_release b ≤ i ∧ i ∈ arrived ops)) as [[_ Hin]|Hin].
      * rewrite decide_True by done. exists out, b. split; [done|]. constructor; [eauto| |].
        -- intros j. rewrite Hstore, arrived_snoc. repeat case_decide; try done; set_solver.
        -- intros j Hj. rewrite arrived_snoc. set_solver.
      * eexists out, _. split; [reflexivity|]. constructor; cbn; [eauto| |].
        -- intros j. rewrite arrived_snoc. destruct (decide (j = i)) as [->|Hj].
           ++ rewrite lookup_insert_eq, decide_True; [done|]. set_solver.
           ++ rewrite lookup_insert_ne, Hstore by done. repeat case_decide; try done; set_solver.
        -- intros j Hj. rewrite arrived_snoc. set_solver.
  - pose proof (drain_indexed_released b) as Hr. destruct (drain_indexed b) as [ret b']. cbn in Hr.
    exists (out ++ ret), b'. split; [done|]. pose proof Hr as [_ _ Hnext Hst _]. constructor.
    + exists (n + length ret)%nat. split; [lia|]. subst out. eapply released_prefix; [done| |done].
      intros i t. rewrite Hstore. case_decide; [|done]. congruence.
    + intros j. rewrite Hst, Hstore, arrived_snoc, app_nil_r. repeat case_decide; try done; naive_solver lia.
    + intros j Hj. rewrite arrived_snoc, app_nil_r. apply dec_stable. intros Hno.
      destruct (decide (j < next_idx_to_release b)) as [Hlt|Hge]; [apply Hno, Harr; lia|].
      pose proof (rl_indices _ _ _ Hr) as Hidx.
      assert (j ∈ map fst ret) as Hin.
      { rewrite Hidx. apply list_elem_of_fmap. exists (Z.to_nat (j - next_idx_to_release b)).
        split; [lia|]. apply elem_of_seq. lia. }
      apply list_elem_of_fmap in Hin as ([j' t] & -> & Hin). apply (rl_events _ _ _ Hr) in Hin.
      rewrite Hstore in Hin. case_decide; [naive_solver|done].
Qed.

(** Whatever the order of arrival, the buffer releases a prefix of the stream, and a final
    drain leaves no arrived event behind a gap-free prefix. *)
Lemma buffer_resequences ops :
  ∃ out b, buffer_run ops = Ok (out, b) ∧ resequenced ops out b.
Proof.
  induction ops as [|o ops IH] using rev_ind.
  - exists [], new_buffer. split; [done|]. constructor; [by exists 0%nat| |cbn; lia].
    intros i. rewrite decide_False; [done|]. cbn. set_solver.
  - destruct IH as (out & b & Hrun & Hr). unfold buffer_run in *. rewrite foldM_app, Hrun. cbn.
    destruct (resequenced_step ops o out b Hr) as (out' & b' & Hstep & Hr').
    exists out', b'. cbn in Hstep. rewrite Hstep. done.
Qed.

Lemma buffer_drained ops :
  ∃ n b, buffer_run (ops ++ [Drain]) = Ok (prefix_of n, b)
    ∧ (∀ i, 0 ≤ i < Z.of_nat n → i ∈ arrived ops) ∧ Z.of_nat n ∉ arrived ops.
Proof.
  destruct (buffer_resequences ops) as (out & b & Hrun & Hr).
  destruct (resequenced_step ops Drain out b Hr) as (out' & b' & Hstep & Hr').
  unfold buffer_run in *. rewrite foldM_app, Hrun. cbn [mbind result_bind foldM]. rewrite Hstep.
  destruct Hr' as [(n & Hn & ->) Hstore Harr]. rewrite arrived_snoc, app_nil_r in *.
  exists n, b'. split; [done|]. split; [intros i Hi; apply Harr; lia|]. intros Hin.
  unfold buffer_step in Hstep. cbn [fst snd] in Hstep. pose proof (drain_indexed_released b) as Hrel.
  destruct (drain_indexed b) as [ret b1]. cbn in Hstep, Hrel. injection Hstep as _ ->.
  pose proof (rl_stop _ _ _ Hrel) as Hstop. cbn in Hstop. rewrite Hstore, decide_True in Hstop; [done|].
  split; [lia|by rewrite Hn].
Qed.
End stream.

Lemma drain_terminates_witness :
  let b := {| store := {[ 0 := "a"; 1 := "b"; 3 := "d" ]} : gmap Z string; next_idx_to_release := 0 |} in
  (drain_fuel b ≤ 7)%nat
  ∧ drain_loop 7 [] b = Some (drain_indexed b)
  ∧ (drain_indexed b).1 = [(0, "a"); (1, "b")].
Proof.
  cbn zeta. split; [vm_compute; lia|]. split; [|vm_compute; reflexivity].
  apply drain_terminates. vm_compute. lia.
Defined.

(** ** Back-off *)

Section backoff.
Context {K : Type} `{Countable K}.

(** A key that has failed at each of [times], after a reset. *)
Definition failed_at (key : K) (times : list Q) (k : KeyedBackoff K) : KeyedBackoff K :=
  foldl (λ k t, record_attempt t key k) (reset key k) times.

Lemma failed_at_snoc key times t k :
  failed_at key (times ++ [t]) k = record_attempt t key (failed_at key times k).
Proof. unfold failed_at. by rewrite foldl_snoc. Qed.

Lemma failed_at_attempts key times k : attempts key (failed_at key times k) = length times.
Proof.
  induction times as [|t times IH] using rev_ind.
  - unfold attempts, failed_at. cbn. by rewrite lookup_delete_eq.
  - rewrite failed_at_snoc, length_app, Nat.add_1_r, <- IH.
    unfold attempts at 1. cbn. by rewrite lookup_insert_eq.
Qed.

Lemma failed_at_config key times k :
  kb_base (failed_at key times k) = kb_base k ∧ kb_cap (failed_at key times k) = kb_cap k.
Proof.
  induction times as [|t times IH] using rev_ind; [done|]. by rewrite failed_at_snoc.
Qed.

Lemma failed_at_other key key' times k :
  key' ≠ key →
  kb_attempts (failed_at key times k) !! key' = kb_attempts k !! key'
  ∧ kb_last_time (failed_at key times k) !! key' = kb_last_time k !! key'.
Proof.
  intros Hne. induction times as [|t times [IH1 IH2]] using rev_ind.
  - cbn. by rewrite !lookup_delete_ne by done.
  - rewrite failed_at_snoc. cbn. by rewrite !lookup_insert_ne, IH1, IH2 by done.
Qed.
End backoff.

(** The delay of a key is bounded and doubles: after [n] attempts since the last reset, up
    to 1023, the worker may proceed exactly when [min cap (base * 2^n)] has passed since the
    last of them, hence whenever [cap] has passed, and the other keys are as they were; from
    1024 attempts on the test raises [OverflowError], whatever the times. *)
Theorem backoff_delay_exact {K} `{Countable K} (k : KeyedBackoff K) (key : K) (times : list Q)
    (last now : Q) :
  let n := S (length times) in
  let k' := failed_at key (times ++ [last]) k in
  attempts key k' = n
  ∧ ((n < 1024)%nat →
       should_proceed now key k'
       = Ok (Qle_bool (Qmin_py (kb_cap k) (kb_base k * inject_Z (2 ^ Z.of_nat n))) (now - last))
       ∧ ((kb_cap k <= now - last)%Q → should_proceed now key k' = Ok true))
  ∧ ((1024 ≤ n)%nat → should_proceed now key k' = Err OverflowError)
  ∧ (∀ key', key' ≠ key → should_proceed now key' k' = should_proceed now key' k).
Proof.
  cbn zeta. set (k' := failed_at key (times ++ [last]) k).
  assert (attempts key k' = S (length times)) as Hn
    by (unfold k'; rewrite failed_at_attempts, length_app; cbn; lia).
  destruct (failed_at_config key (times ++ [last]) k) as [Hbase Hcap]. fold k' in Hbase, Hcap.
  assert (kb_last_time k' !! key = Some last) as Hlast
    by (unfold k'; rewrite failed_at_snoc; cbn; apply lookup_insert_eq).
  split; [done|]. unfold should_proceed. rewrite Hn, Hlast, Hbase, Hcap. unfold two_pow.
  split_and!.
  - intros Hlt. rewrite (proj2 (Nat.ltb_lt _ _) Hlt). cbn [mbind result_bind default]. split; [done|].
    intros Hc. f_equal. apply Qle_bool_iff. eapply Qle_trans; [|exact Hc]. unfold Qmin_py.
    destruct (Qle_bool _ _) eqn:E; [apply Qle_refl|]. apply Qlt_le_weak, Qnot_le_lt.
    intros Hle. apply Qle_bool_iff in Hle. congruence.
  - intros Hge. rewrite (proj2 (Nat.ltb_ge _ _) Hge). done.
  - intros key' Hk. destruct (failed_at_other key key' (times ++ [last]) k Hk) as [Ha Hl]. fold k' in Ha, Hl.
    unfold attempts. by rewrite Ha, Hl.
Qed.

(** The worker's download back-off: after three failures the delay is 4 seconds. *)
Lemma backoff_delay_exact_witness :
  let k := {| kb_base := 1 # 2; kb_cap := 10; kb_attempts := ∅; kb_last_time := ∅ |}
           : KeyedBackoff string in
  let k' := failed_at "m" ([1; 3] ++ [9])%Q k in
  should_proceed 12 "m" k' = Ok false ∧ should_proceed 13 "m" k' = Ok true
  ∧ should_proceed 19 "m" k' = Ok true.
Proof.
  cbn zeta. split; [vm_compute; reflexivity|]. split; [vm_compute; reflexivity|].
  pose proof (backoff_delay_exact
    ({| kb_base := 1 # 2; kb_cap := 10; kb_attempts := ∅; kb_last_time := ∅ |} : KeyedBackoff string)
    "m" [1; 3]%Q 9 19) as (_ & Hlt & _).
  apply Hlt; [cbn; lia|]. vm_compute. discriminate.
Defined.
