(* ===== verification/EventLog.v ===== *)
(** * The event log on disk

    [utils/disk_event_log.py]: an append-only file of length-prefixed records with a bounded
    cache from event indices to byte offsets.  The serialiser (msgpack and the validation of
    the decoded event) is a parameter; the generators are run to their end. *)
From Stdlib Require Import Ascii.
From S2P Require Import Prelude.
Local Open Scope Z_scope.
Set Default Proof Using "Type".

Definition _HEADER_SIZE : nat := 4.
Definition _OFFSET_CACHE_SIZE : nat := 128.

(** [len(packed).to_bytes(_HEADER_SIZE, byteorder="big")] *)
Definition pack_header (n : Z) : result (list Z) :=
  if n <? 2 ^ 32 then
    Ok [Z.shiftr n 24 mod 256; Z.shiftr n 16 mod 256; Z.shiftr n 8 mod 256; n mod 256]
  else Err OverflowError.

(** [int.from_bytes(header, byteorder="big")] *)
Definition _unpack_header (header : list Z) : Z := foldl (λ acc b, acc * 256 + b) 0 header.

(** ** Reading a file at a position *)

Definition read_bytes (file : list Z) (n pos : nat) : list Z * nat :=
  let got := take n (drop pos file) in (got, (pos + length got)%nat).

(** [_skip_record]: the new position, and whether there was a record. *)
Definition _skip_record (file : list Z) (pos : nat) : bool * nat :=
  let '(header, pos1) := read_bytes file _HEADER_SIZE pos in
  if (length header <? _HEADER_SIZE)%nat then (false, pos1)
  else (true, (pos1 + Z.to_nat (_unpack_header header))%nat).

(** ** The log *)

(** The active file, the number of events, and the offset cache, least recently used first. *)
Record DiskEventLog := {
  active_file : list Z;
  event_count : nat;
  offset_cache : list (nat * nat)
}.

Definition new_log : DiskEventLog :=
  {| active_file := []; event_count := 0; offset_cache := [] |}.

Definition cache_get (idx : nat) (c : list (nat * nat)) : option nat :=
  snd <$> List.find (λ kv, (kv.1 =? idx)%nat) c.

Definition cache_del (idx : nat) (c : list (nat * nat)) : list (nat * nat) :=
  filter (λ kv, kv.1 ≠ idx) c.

(** [move_to_end] *)
Definition cache_touch (idx : nat) (c : list (nat * nat)) : list (nat * nat) :=
  match cache_get idx c with Some off => cache_del idx c ++ [(idx, off)] | None => c end.

Definition _cache_offset (idx offset : nat) (c : list (nat * nat)) : list (nat * nat) :=
  let c := cache_del idx c ++ [(idx, offset)] in
  if (_OFFSET_CACHE_SIZE <? length c)%nat then tail c else c.

(** The entry the scan starts from: the last one in the cache's order below the target. *)
Definition scan_from (target : nat) (c : list (nat * nat)) : nat * nat :=
  foldl (λ acc kv, if (kv.1 <? target)%nat then kv else acc) (0%nat, 0%nat) c.

Fixpoint skip_records (n : nat) (file : list Z) (pos : nat) : nat :=
  match n with O => pos | S n' => skip_records n' file (_skip_record file pos).2 end.

(** [_seek_to]: the position it leaves the file at, and the cache. *)
Definition _seek_to (file : list Z) (target_idx : nat) (c : list (nat * nat))
  : nat * list (nat * nat) :=
  match cache_get target_idx c with
  | Some off => (off, cache_touch target_idx c)
  | None =>
      let '(scan_from_idx, scan_from_offset) := scan_from target_idx c in
      let pos := skip_records (target_idx - scan_from_idx) file scan_from_offset in
      (pos, _cache_offset target_idx pos c)
  end.

Section log.
(** [_serialize_event] and [_deserialize_event]. *)
Context {Event : Type} (serialize : Event → list Z) (deserialize : list Z → result Event).

(** [_read_record]: [None] at the end of the file. *)
Definition _read_record (file : list Z) (pos : nat) : result (option Event) * nat :=
  let '(header, pos1) := read_bytes file _HEADER_SIZE pos in
  if (length header <? _HEADER_SIZE)%nat then (Ok None, pos1)
  else
    let size := Z.to_nat (_unpack_header header) in
    let '(payload, pos2) := read_bytes file size pos1 in
    if (length payload <? size)%nat then (Ok None, pos2)
    else (e ← deserialize payload; Ok (Some e), pos2).

(** [for _ in range(n)] with [break] at the end of the file. *)
Fixpoint read_records (n : nat) (file : list Z) (pos : nat) : result (list Event) * nat :=
  match n with
  | O => (Ok [], pos)
  | S n' =>
      match _read_record file pos with
      | (Err e, pos') => (Err e, pos')
      | (Ok None, pos') => (Ok [], pos')
      | (Ok (Some event), pos') =>
          let '(rest, pos'') := read_records n' file pos' in
          (l ← rest; Ok (event :: l), pos'')
      end
  end.

Definition append (event : Event) (log : DiskEventLog) : DiskEventLog * result unit :=
  let packed := serialize event in
  match pack_header (Z.of_nat (length packed)) with
  | Err e => (log, Err e)
  | Ok header =>
      ({| active_file := active_file log ++ header ++ packed;
          event_count := S (event_count log); offset_cache := offset_cache log |}, Ok tt)
  end.

Definition read_range (start stop : Z) (log : DiskEventLog) : DiskEventLog * result (list Event) :=
  let stop := Z.min stop (Z.of_nat (event_count log)) in
  if (start <? 0) || (stop <? 0) || (stop <=? start) then (log, Ok [])
  else
    let file := active_file log in
    let '(pos, cache) := _seek_to file (Z.to_nat start) (offset_cache log) in
    let '(events, pos') := read_records (Z.to_nat (stop - start)) file pos in
    let cache :=
      if is_ok events && (stop <? Z.of_nat (event_count log))
      then _cache_offset (Z.to_nat stop) pos' cache else cache in
    ({| active_file := file; event_count := event_count log; offset_cache := cache |}, events).

Definition read_all (log : DiskEventLog) : DiskEventLog * result (list Event) :=
  if (event_count log =? 0)%nat then (log, Ok [])
  else (log, (read_records (event_count log) (active_file log) 0).1).
End log.

(** * Properties of the event log

    The log refines a list of events. *)


(** ** Headers *)

Lemma pack_unpack n h : 0 ≤ n → pack_header n = Ok h → _unpack_header h = n ∧ length h = 4%nat.
Proof.
  unfold pack_header. destruct (Z.ltb_spec n (2 ^ 32)) as [Hn|]; [|done]. intros H0 [= <-].
  split; [|done]. unfold _unpack_header. cbn [foldl].
  rewrite !Z.shiftr_div_pow2 by lia. change (2 ^ 24) with 16777216.
  change (2 ^ 16) with 65536. change (2 ^ 8) with 256. change (2 ^ 32) with 4294967296 in Hn.
  Z.to_euclidean_division_equations. lia.
Qed.

Lemma read_at pre mid post n :
  n = length mid → read_bytes (pre ++ mid ++ post) n (length pre) = (mid, (length pre + n)%nat).
Proof.
  intros ->. unfold read_bytes. rewrite drop_app_length, take_app_length. done.
Qed.

(** ** The contents of the file *)

Section refinement.
Context {Event : Type} (serialize : Event → list Z) (deserialize : list Z → result Event).
(** Decoding gives back what was encoded. *)
Context (deserialize_serialize : ∀ e, deserialize (serialize e) = Ok e).
Implicit Types es : list Event.

Definition fits (e : Event) : Prop := Z.of_nat (length (serialize e)) < 2 ^ 32.

Definition frame (e : Event) : list Z :=
  match pack_header (Z.of_nat (length (serialize e))) with
  | Ok header => header ++ serialize e
  | Err _ => []
  end.

Definition contents es : list Z := es ≫= frame.

(** The byte offset of the [i]-th event. *)
Definition offset_of es (i : nat) : nat := length (contents (take i es)).

Lemma frame_split e : fits e →
  ∃ h, frame e = h ++ serialize e ∧ length h = 4%nat
    ∧ Z.to_nat (_unpack_header h) = length (serialize e).
Proof.
  intros Hf. unfold frame. destruct (pack_header _) as [h|] eqn:E.
  - apply pack_unpack in E as [Hu Hl]; [|lia]. exists h. split_and!; [done..|]. rewrite Hu. lia.
  - unfold pack_header, fits in *. destruct (Z.ltb_spec (Z.of_nat (length (serialize e))) (2 ^ 32)); [done|lia].
Qed.

Lemma contents_at es i e :
  es !! i = Some e →
  contents es = contents (take i es) ++ frame e ++ contents (drop (S i) es)
  ∧ offset_of es (S i) = (offset_of es i + length (frame e))%nat.
Proof.
  intros Hi. unfold offset_of, contents. erewrite take_S_r by done.
  rewrite bind_app, length_app. cbn [mbind list_bind]. rewrite app_nil_r. split; [|done].
  rewrite <- (take_drop_middle es i e Hi) at 1. by rewrite bind_app.
Qed.

Lemma record_at es i e :
  Forall fits es → es !! i = Some e →
  _read_record deserialize (contents es) (offset_of es i) = (Ok (Some e), offset_of es (S i))
  ∧ _skip_record (contents es) (offset_of es i) = (true, offset_of es (S i)).
Proof using deserialize_serialize.
  intros Hall Hi. pose proof (Forall_lookup_1 _ _ _ _ Hall Hi) as Hf.
  destruct (contents_at es i e Hi) as [Hc Ho]. destruct (frame_split e Hf) as (h & Hfr & Hl & Hu).
  rewrite Ho, Hfr, length_app, Hl.
  assert (read_bytes (contents es) _HEADER_SIZE (offset_of es i) = (h, (offset_of es i + 4)%nat)) as Hhead.
  { rewrite Hc, Hfr, <- app_assoc. unfold offset_of. by rewrite read_at. }
  split.
  - unfold _read_record. rewrite Hhead, Hl. change (4 <? _HEADER_SIZE)%nat with false.
    rewrite Hu.
    assert (read_bytes (contents es) (length (serialize e)) (offset_of es i + 4)
            = (serialize e, (offset_of es i + 4 + length (serialize e))%nat)) as Hbody.
    { rewrite Hc, Hfr, <- app_assoc, app_assoc. unfold offset_of. rewrite <- Hl, <- length_app.
      by rewrite read_at. }
    rewrite Hbody, Nat.ltb_irrefl, deserialize_serialize. cbn. f_equal. lia.
  - unfold _skip_record. rewrite Hhead, Hl. change (4 <? _HEADER_SIZE)%nat with false.
    rewrite Hu. f_equal. lia.
Qed.

Lemma skip_to es n : ∀ i,
  Forall fits es → (i + n ≤ length es)%nat →
  skip_records n (contents es) (offset_of es i) = offset_of es (i + n).
Proof using deserialize_serialize.
  induction n as [|n IH]; intros i Hall Hle; cbn [skip_records]; [by rewrite Nat.add_0_r|].
  destruct (lookup_lt_is_Some_2 es i) as [e He]; [lia|].
  rewrite (proj2 (record_at es i e Hall He)). cbn [snd]. rewrite IH by (done || lia). f_equal. lia.
Qed.

Lemma records_at es n : ∀ i,
  Forall fits es → (i + n ≤ length es)%nat →
  read_records deserialize n (contents es) (offset_of es i) = (Ok (take n (drop i es)), offset_of es (i + n)).
Proof using deserialize_serialize.
  induction n as [|n IH]; intros i Hall Hle; cbn [read_records]; [by rewrite Nat.add_0_r|].
  destruct (lookup_lt_is_Some_2 es i) as [e He]; [lia|].
  rewrite (proj1 (record_at es i e Hall He)), IH by (done || lia). cbn [mbind result_bind].
  rewrite (drop_S es e i He). cbn [take]. f_equal. f_equal. lia.
Qed.

(** ** The cache *)

Definition cache_ok es (c : list (nat * nat)) : Prop :=
  Forall (λ kv, (kv.1 ≤ length es)%nat ∧ kv.2 = offset_of es kv.1) c.

Lemma cache_get_ok es c i off :
  cache_ok es c → cache_get i c = Some off → (i ≤ length es)%nat ∧ off = offset_of es i.
Proof.
  intros Hc Hg. apply fmap_Some in Hg as ([k v] & Hfind & ->). apply List.find_some in Hfind as [Hin Hk].
  apply Nat.eqb_eq in Hk. cbn in *. subst k. apply list_elem_of_In in Hin.
  by eapply Forall_forall in Hc; [|exact Hin].
Qed.

Lemma cache_del_ok es i c : cache_ok es c → cache_ok es (cache_del i c).
Proof.
  intros Hc. eapply Forall_forall. intros kv Hin. apply list_elem_of_filter in Hin as [_ Hin].
  by eapply Forall_forall in Hc.
Qed.

Lemma cache_touch_ok es i c : cache_ok es c → cache_ok es (cache_touch i c).
Proof.
  intros Hc. unfold cache_touch. destruct (cache_get i c) as [off|] eqn:E; [|done].
  apply Forall_app. split; [by apply cache_del_ok|]. apply Forall_singleton.
  by apply (cache_get_ok es c).
Qed.

Lemma cache_offset_ok es i c :
  cache_ok es c → (i ≤ length es)%nat → cache_ok es (_cache_offset i (offset_of es i) c).
Proof.
  intros Hc Hi. unfold _cache_offset.
  assert (cache_ok es (cache_del i c ++ [(i, offset_of es i)])) as Hnew.
  { apply Forall_app. split; [by apply cache_del_ok|]. by apply Forall_singleton. }
  destruct (_ <? _)%nat; [|done]. destruct (cache_del i c ++ _) eqn:E; [done|]. by inversion Hnew.
Qed.

Lemma scan_from_ok es c target :
  cache_ok es c → let '(i, off) := scan_from target c in
  (i ≤ target)%nat ∧ off = offset_of es i.
Proof.
  unfold scan_from. intros Hc.
  assert (∀ acc : nat * nat, (acc.1 ≤ target)%nat ∧ acc.2 = offset_of es acc.1 →
    let '(i, off) := foldl (λ acc kv : nat * nat, if (kv.1 <? target)%nat then kv else acc) acc c in
    (i ≤ target)%nat ∧ off = offset_of es i) as Hgen; [|apply Hgen; cbn; split; [lia|done]].
  induction Hc as [|[k v] c [Hk Hv] Hc IH]; intros acc Hacc; cbn [foldl]; [by destruct acc|].
  apply IH. cbn [fst snd] in *. destruct (Nat.ltb_spec k target) as [Hlt|]; [cbn [fst snd]; split; [lia|done]|done].
Qed.

Lemma cache_mono es e c : cache_ok es c → cache_ok (es ++ [e]) c.
Proof.
  intros Hc. eapply Forall_impl; [exact Hc|]. intros [k v] [Hk Hv]. cbn in *.
  rewrite length_app. split; [lia|]. unfold offset_of in *. by rewrite take_app_le.
Qed.

Lemma seek_ok es c i :
  Forall fits es → cache_ok es c → (i ≤ length es)%nat →
  let '(pos, c') := _seek_to (contents es) i c in pos = offset_of es i ∧ cache_ok es c'.
Proof using deserialize_serialize.
  intros Hall Hc Hi. unfold _seek_to. destruct (cache_get i c) as [off|] eqn:E.
  - split; [by apply (cache_get_ok es c)|by apply cache_touch_ok].
  - pose proof (scan_from_ok es c i Hc) as Hs. destruct (scan_from i c) as [j off].
    destruct Hs as [Hj ->]. rewrite skip_to by (done || lia).
    replace (j + (i - j))%nat with i by lia. split; [done|]. by apply cache_offset_ok.
Qed.

(** ** Operations on the log and on the list it stands for *)

Inductive LogOp :=
| Append (e : Event)
| ReadRange (start stop : Z)
| ReadAll.

Definition log_step (log : DiskEventLog) (o : LogOp) : DiskEventLog * result (list Event) :=
  match o with
  | Append e => let '(log', r) := append serialize e log in (log', _ ← r; Ok [])
  | ReadRange a b => read_range deserialize a b log
  | ReadAll => read_all deserialize log
  end.

(** [events[start:stop]] for indices from the front. *)
Definition slice es (start stop : Z) : list Event :=
  if (start <? 0) then [] else take (Z.to_nat (stop - start)) (drop (Z.to_nat start) es).

Definition list_step es (o : LogOp) : list Event * result (list Event) :=
  match o with
  | Append e => if decide (fits e) then (es ++ [e], Ok []) else (es, Err OverflowError)
  | ReadRange a b => (es, Ok (slice es a b))
  | ReadAll => (es, Ok es)
  end.

Record represents (log : DiskEventLog) es : Prop := {
  rp_file : active_file log = contents es;
  rp_count : event_count log = length es;
  rp_fits : Forall fits es;
  rp_cache : cache_ok es (offset_cache log)
}.

Lemma append_represents e log es :
  represents log es →
  represents (log_step log (Append e)).1 (list_step es (Append e)).1
  ∧ (log_step log (Append e)).2 = (list_step es (Append e)).2.
Proof.
  intros Hr. pose proof Hr as [Hf Hn Hall Hc]. cbn [log_step list_step]. unfold append, pack_header.
  destruct (decide (fits e)) as [He|He]; unfold fits in He.
  - rewrite (proj2 (Z.ltb_lt _ _) He). cbn [fst snd mbind result_bind]. split; [|done].
    constructor; cbn.
    + rewrite Hf. unfold contents. rewrite bind_app. f_equal. cbn. rewrite app_nil_r. unfold frame, pack_header.
      by rewrite (proj2 (Z.ltb_lt _ _) He).
    + rewrite Hn, length_app. cbn. lia.
    + apply Forall_app. by split; [|apply Forall_singleton].
    + by apply cache_mono.
  - rewrite (proj2 (Z.ltb_ge _ _)) by lia. done.
Qed.

Lemma read_range_represents a b log es :
  represents log es →
  represents (log_step log (ReadRange a b)).1 es
  ∧ (log_step log (ReadRange a b)).2 = Ok (slice es a b).
Proof using deserialize_serialize.
  intros Hr. pose proof Hr as [Hf Hn Hall Hc]. cbn [log_step]. unfold read_range, slice. rewrite Hf, Hn.
  destruct (Z.ltb_spec a 0) as [Ha|Ha]; cbn [orb]; [done|].
  set (stop := Z.min b (Z.of_nat (length es))).
  assert (stop <= a → take (Z.to_nat (b - a)) (drop (Z.to_nat a) es) = []) as Hempty.
  { intros Hle. destruct (decide (b ≤ a)) as [Hb|Hb].
    - by replace (Z.to_nat (b - a)) with 0%nat by lia.
    - rewrite drop_ge by lia. by rewrite take_nil. }
  destruct (Z.ltb_spec stop 0) as [Hs|Hs]; cbn [orb]; [by rewrite Hempty by lia|].
  destruct (Z.leb_spec stop a) as [Hle|Hlt]; [by rewrite Hempty|].
  pose proof (seek_ok es (offset_cache log) (Z.to_nat a) Hall Hc) as Hseek.
  destruct (_seek_to _ _ _) as [pos cache]. destruct Hseek as [-> Hcache]; [lia|].
  rewrite records_at by (done || lia). cbn [fst snd is_ok andb].
  replace (Z.to_nat a + Z.to_nat (stop - a))%nat with (Z.to_nat stop) by lia.
  split; [constructor; try done; cbn|].
  - destruct (_ <? _); [|done]. apply cache_offset_ok; [done|lia].
  - f_equal. destruct (decide (b ≤ Z.of_nat (length es))) as [Hb|Hb].
    + by replace stop with b by lia.
    + rewrite !take_ge by (rewrite length_drop; lia). done.
Qed.

Lemma read_all_represents log es :
  represents log es →
  represents (log_step log ReadAll).1 es ∧ (log_step log ReadAll).2 = Ok es.
Proof using deserialize_serialize.
  intros Hr. pose proof Hr as [Hf Hn Hall Hc]. cbn [log_step]. unfold read_all. rewrite Hn, Hf.
  destruct (Nat.eqb_spec (length es) 0) as [Hz|Hz].
  - apply nil_length_inv in Hz. by subst es.
  - change 0%nat with (offset_of es 0). rewrite records_at by (done || lia). cbn [fst snd].
    by rewrite take_ge by (rewrite drop_0; lia).
Qed.

Lemma step_represents o log es :
  represents log es →
  represents (log_step log o).1 (list_step es o).1 ∧ (log_step log o).2 = (list_step es o).2.
Proof using deserialize_serialize.
  destruct o; [apply append_represents|apply read_range_represents|apply read_all_represents].
Qed.

(** The results of a sequence of operations. *)
Fixpoint run {S} (step : S → LogOp → S * result (list Event)) (s : S) (ops : list LogOp)
  : list (result (list Event)) :=
  match ops with
  | [] => []
  | o :: ops' => (step s o).2 :: run step (step s o).1 ops'
  end.

Lemma run_represents ops : ∀ log es,
  represents log es → run log_step log ops = run list_step es ops.
Proof using deserialize_serialize.
  induction ops as [|o ops IH]; intros log es Hr; cbn [run]; [done|].
  destruct (step_represents o log es Hr) as [Hr' ->]. f_equal. by apply IH.
Qed.
End refinement.

(** C18: the event log implements a list of events: when decoding gives back what was encoded,
    every sequence of appends and reads on a new log has the results it has on a list, where an
    append extends the list, a range read returns the slice and a full read all of it: the
    length-prefixed records are read back exactly, at any index, whatever the offset cache
    holds by then (it is filled, reordered and evicted by earlier reads and kept across
    appends); only an event of 2^32 bytes or more is refused, with [OverflowError], and
    nothing is written. *)
Theorem event_log_refines_list {Event} (serialize : Event → list Z)
    (deserialize : list Z → result Event) (ops : list (LogOp (Event:=Event)))
    (Hround : ∀ e, deserialize (serialize e) = Ok e) :
  run (log_step serialize deserialize) new_log ops = run (list_step serialize) [] ops.
Proof. apply (run_represents serialize deserialize Hround). by repeat constructor. Qed.

(** Events that are strings of digits, one byte each. *)
Lemma event_log_refines_list_witness :
  let ser (e : list Z) := e in
  let ops := [Append [1; 2; 3]; Append []; Append [7]; ReadRange 1 9; Append [4; 4];
              ReadRange 2 4; ReadRange (-1) 2; ReadAll] in
  run (log_step ser Ok) new_log ops = run (list_step ser) [] ops
  ∧ run (list_step ser) [] ops
    = [Ok []; Ok []; Ok []; Ok [[]; [7]]; Ok []; Ok [[7]; [4; 4]]; Ok [];
       Ok [[1; 2; 3]; []; [7]; [4; 4]]].
Proof.
  cbn zeta. split; [by apply (event_log_refines_list (λ e : list Z, e) Ok)|].
  vm_compute. reflexivity.
Defined.
