(* ===== verification/Topology.v ===== *)
(** * The topology of the cluster

    [shared/topology.py], [shared/types/topology.py] and the addresses of
    [shared/types/multiaddr.py].  The graph of rustworkx is a list of nodes and a list of
    labelled edges; its search for simple cycles is a parameter, and so is the order in which
    Python walks a set of node ids. *)
From Stdlib Require Import Ascii.
From S2P Require Import Prelude.
From S2P Require Import PyStr.
From S2P Require Import PyVal.
Local Open Scope Z_scope.
Set Default Proof Using "Type".

(** ** Multiaddr *)

Definition slash : ascii := "/"%char.

Fixpoint split_on (c : ascii) (s : string) : list string :=
  match s with
  | "" => [""]
  | String a s' =>
      if Ascii.eqb a c then "" :: split_on c s'
      else match split_on c s' with
           | w :: ws => String a w :: ws
           | [] => [String a ""]
           end
  end.

Definition is_digit (c : ascii) : bool := (48 <=? code c) && (code c <=? 57).
Definition is_alpha (c : ascii) : bool :=
  ((65 <=? code c) && (code c <=? 90)) || ((97 <=? code c) && (code c <=? 122)).
Definition is_hex (c : ascii) : bool :=
  is_digit c || ((65 <=? code c) && (code c <=? 70)) || ((97 <=? code c) && (code c <=? 102)).

Fixpoint all_of (p : ascii → bool) (s : string) : bool :=
  match s with "" => true | String c s' => p c && all_of p s' end.

(** [[chars]+] and [\d{1,n}] *)
Definition some_of (p : ascii → bool) (s : string) : bool := negb (String.eqb s "") && all_of p s.
Definition digits_upto (n : nat) (s : string) : bool :=
  some_of is_digit s && (String.length s <=? n)%nat.

Definition is_ipv4 (s : string) : bool :=
  match split_on "."%char s with
  | [a; b; c; d] => digits_upto 3 a && digits_upto 3 b && digits_upto 3 c && digits_upto 3 d
  | _ => false
  end.

(** [(/tcp/(\d{1,5}))?(/p2p/[A-Za-z0-9]+)?$] *)
Definition addr_tail (l : list string) : bool :=
  let p2p l :=
    match l with
    | [] => true
    | ["p2p"; i] => some_of (λ c, is_alpha c || is_digit c) i
    | _ => false
    end in
  match l with
  | "tcp" :: port :: l' => digits_upto 5 port && p2p l'
  | _ => p2p l
  end.

(** [$] also matches before a final line break. *)
Definition newline : ascii := ascii_of_N 10.
Fixpoint drop_final_newline (s : string) : string :=
  match s with
  | "" => ""
  | String c s' => if Ascii.eqb c newline && String.eqb s' "" then "" else String c (drop_final_newline s')
  end.

(** [address_type]; the third pattern's second component is ["dns[46]?"]. *)
Definition address_type (address : string) : result string :=
  match split_on slash (drop_final_newline address) with
  | "" :: kind :: a :: tail =>
      if String.eqb kind "ip4" && is_ipv4 a && addr_tail tail then Ok "ip4"
      else if String.eqb kind "ip6" && some_of (λ c, is_hex c || Ascii.eqb c ":"%char) a
              && addr_tail tail then Ok "ip6"
      else if bool_decide (kind ∈ ["dns"; "dns4"; "dns6"])
              && some_of (λ c, is_alpha c || is_digit c || Ascii.eqb c "."%char
                               || Ascii.eqb c "-"%char) a && addr_tail tail then Ok "dns[46]?"
      else Err (ValueError "Invalid multiaddr format")
  | _ => Err (ValueError "Invalid multiaddr format")
  end.

(** [ip_address]: a name address has neither form and raises. *)
Definition ip_address (address : string) : result string :=
  kind ← address_type address;
  match split_on slash (drop_final_newline address) with
  | "" :: k :: a :: _ =>
      if String.eqb kind "ip4" then Ok a
      else if String.eqb k "ip6" then Ok a
      else Err (ValueError "Invalid multiaddr format")
  | _ => Err (ValueError "Invalid multiaddr format")
  end.

(** ** The graph *)

Inductive Edge :=
| SocketConnection (sink_multiaddr : string)
| RDMAConnection (source_rdma_iface sink_rdma_iface : string).

Record Connection := { source : string; sink : string; edge : Edge }.

#[export] Instance edge_eq_dec : EqDecision Edge.
Proof. solve_decision. Defined.
#[export] Instance connection_eq_dec : EqDecision Connection.
Proof. solve_decision. Defined.

Record Topology := {
  nodes : list string;
  connections : list Connection
}.

Definition empty_topology : Topology := {| nodes := []; connections := [] |}.

Definition contains_node (n : string) (t : Topology) : bool := bool_decide (n ∈ nodes t).

Definition add_node (n : string) (t : Topology) : Topology :=
  if contains_node n t then t else {| nodes := nodes t ++ [n]; connections := connections t |}.

Definition get_all_connections_between (a b : string) (t : Topology) : list Edge :=
  map edge (filter (λ c, source c = a ∧ sink c = b) (connections t)).

Definition add_connection (conn : Connection) (t : Topology) : Topology :=
  if bool_decide (edge conn ∈ get_all_connections_between (source conn) (sink conn) t) then t
  else
    let t := add_node (sink conn) (add_node (source conn) t) in
    {| nodes := nodes t; connections := connections t ++ [conn] |}.

Definition remove_node (n : string) (t : Topology) : Topology :=
  if contains_node n t then
    {| nodes := filter (λ m, m ≠ n) (nodes t);
       connections := filter (λ c, source c ≠ n ∧ sink c ≠ n) (connections t) |}
  else t.

Definition remove_connection (conn : Connection) (t : Topology) : Topology :=
  if negb (contains_node (source conn) t) || negb (contains_node (sink conn) t) then t
  else {| nodes := nodes t; connections := filter (λ c, c ≠ conn) (connections t) |}.

Definition is_rdma (e : Edge) : Prop := match e with RDMAConnection _ _ => True | _ => False end.
#[export] Instance is_rdma_dec e : Decision (is_rdma e).
Proof. destruct e; apply _. Defined.

Definition replace_all_out_rdma_connections (n : string) (new : list Connection) (t : Topology)
  : Topology :=
  foldl (λ t c, add_connection c t)
    {| nodes := nodes t;
       connections := filter (λ c, ¬ (source c = n ∧ is_rdma (edge c))) (connections t) |} new.

(** [from_snapshot]: the nodes, then the connections by source and sink. *)
Definition from_snapshot (ns : list string) (conns : list Connection) : Topology :=
  foldl (λ t c, add_connection c t) (foldl (λ t n, add_node n t) empty_topology ns) conns.

(** ** Thunderbolt bridge cycles *)

Record ThunderboltBridgeStatus := { tb_enabled : bool; tb_exists : bool; tb_service : option string }.
Record NetworkInterfaceInfo := { if_name : string; if_ip_address : string; if_type : string }.
#[export] Instance bridge_status_eq_dec : EqDecision ThunderboltBridgeStatus.
Proof. solve_decision. Defined.
#[export] Instance interface_eq_dec : EqDecision NetworkInterfaceInfo.
Proof. solve_decision. Defined.
Definition NodeNetworkInfo : Type := list NetworkInterfaceInfo.

Section cycles.
(** [rx.simple_cycles] on a graph of nodes and labelled edges, and the order of a set. *)
Context (simple_cycles : list string → list Connection → list (list string)).
Context (set_order : gset string → list string).

Definition _get_ips_with_interface_type (ns : gset string) (network : gmap string NodeNetworkInfo)
    (interface_type : string) : gset string :=
  list_to_set (elements ns ≫= λ n,
    map if_ip_address
      (filter (λ i, if_type i = interface_type) (default [] (network !! n)))).

(** Whether an edge between two enabled nodes belongs to the subgraph: reading the address of
    a socket edge may raise. *)
Definition bridge_edge (ips : gset string) (c : Connection) : result bool :=
  match edge c with
  | SocketConnection m => ip ← ip_address m; Ok (bool_decide (ip ∈ ips))
  | RDMAConnection _ _ => Ok true
  end.

Fixpoint bridge_edges (keep : gset string) (ips : gset string) (l : list Connection)
  : result (list Connection) :=
  match l with
  | [] => Ok []
  | c :: l' =>
      if bool_decide (source c ∈ keep) && bool_decide (sink c ∈ keep) then
        b ← bridge_edge ips c;
        rest ← bridge_edges keep ips l';
        Ok (if (b : bool) then c :: rest else rest)
      else bridge_edges keep ips l'
  end.

Definition get_thunderbolt_bridge_cycles (status : gmap string ThunderboltBridgeStatus)
    (network : gmap string NodeNetworkInfo) (t : Topology) : result (list (list string)) :=
  let enabled := dom (filter (λ kv, tb_enabled kv.2 = true) status) in
  if (size enabled <? 2)%nat then Ok []
  else
    let ips := _get_ips_with_interface_type enabled network "thunderbolt" in
    let graph_nodes := filter (λ n, n ∈ nodes t) (set_order enabled) in
    edges ← bridge_edges (list_to_set graph_nodes) ips (connections t);
    Ok (filter (λ c, (2 ≤ length c)%nat) (simple_cycles graph_nodes edges)).
End cycles.
