(* ===== verification/RuntimeState.v ===== *)
(** * The replicated state of the cluster

    [shared/types/state.py], [events.py], [tasks.py], [runners.py], [profiling.py] as data and
    [shared/apply.py] as the function from an event and a state to the next state.  Parts of
    the records that nobody here reads are one opaque value.  [datetime.fromisoformat] is a
    parameter that gives the instant in microseconds. *)
From Stdlib Require Import Ascii.
From S2P Require Import Prelude.
From S2P Require Import PyStr.
From S2P Require Import PyVal.
From S2P Require Import Topology.
Local Open Scope Z_scope.
Set Default Proof Using "Type".

(** ** Tasks, runners, instances and downloads *)

Inductive TaskStatus := Pending | Running | Complete | TimedOut | Failed | Cancelled.
#[export] Instance task_status_eq_dec : EqDecision TaskStatus.
Proof. solve_decision. Defined.

Inductive RunnerStatus :=
| RunnerIdle | RunnerConnecting | RunnerConnected
| RunnerLoading (layers_loaded total_layers : Z)
| RunnerLoaded | RunnerWarmingUp | RunnerReady | RunnerRunning | RunnerShuttingDown
| RunnerShutdown
| RunnerFailed (error : option string).

(** [InferenceBackend] has one member. *)
Inductive InferenceBackend := LlamaCpp.

(** [ModelCard]; sizes of memory are in bytes. *)
Record ModelCard := {
  mc_model_id : string;
  mc_storage_size : Z;
  mc_n_layers : Z;
  mc_base_model : string;
  mc_uses_cfg : bool;
  mc_is_custom : bool;
  mc_inference_backend : InferenceBackend;
  mc_rest : pyval
}.

(** The classes of [ShardMetadata] with the fields of their own. *)
Inductive ShardKind :=
| PipelineShardMetadata
| CfgShardMetadata (cfg_rank cfg_world_size pipeline_rank pipeline_world_size : Z)
| TensorShardMetadata.

Record ShardMetadata := {
  sh_model_card : ModelCard;
  sh_kind : ShardKind;
  device_rank : Z;
  world_size : Z;
  start_layer : Z;
  end_layer : Z;
  n_layers : Z;
  shard_rest : pyval
}.
Definition sh_model_id (s : ShardMetadata) : string := mc_model_id (sh_model_card s).
Definition sh_inference_backend (s : ShardMetadata) : InferenceBackend :=
  mc_inference_backend (sh_model_card s).

Record Host := { host_ip : string; host_port : Z }.

Record LlamaCppRelayRoute := {
  lr_source_node_id : string;
  lr_transit_node_id : string;
  lr_sink_node_id : string;
  lr_relay_api_host : string;
  lr_relay_api_port : Z;
  lr_target_host : string;
  lr_target_port : Z;
  lr_source_segment_type : string;
  lr_sink_segment_type : string
}.

(** The two classes of [Instance]. *)
Inductive InstanceKind :=
| MlxRingInstance (hosts_by_node : list (string * list Host)) (ephemeral_port : Z)
    (relay_routes_by_node : list (string * list LlamaCppRelayRoute))
    (cai_api_urls_by_node : list (string * list string))
| MlxJacclInstance (jaccl_devices : list (list (option string)))
    (jaccl_coordinators : list (string * string)).

(** An instance with its [shard_assignments], dicts in their order. *)
Record Instance := {
  instance_id : string;
  sa_model_id : string;
  runner_to_shard : list (string * ShardMetadata);
  node_to_runner : list (string * string);
  instance_kind : InstanceKind
}.

Record BoundInstance := {
  bound_instance : Instance;
  bound_runner_id : string;
  bound_node_id : string
}.

(** The union of tasks; of their parameters what is read here. *)
Inductive TaskKind :=
| CreateRunner (bound : BoundInstance)
| DownloadModel (shard : ShardMetadata)
| LoadModel
| ConnectToGroup
| StartWarmup
| TextGeneration (command_id : string) (total_input_chunks : Z)
| CancelTask (cancelled_task_id runner_id : string)
| ImageGeneration (command_id : string)
| ImageEdits (command_id : string) (total_input_chunks : Z)
| Shutdown (runner_id : string).

Record Task := {
  task_kind : TaskKind;
  task_id : string;
  task_status : TaskStatus;
  task_instance_id : string;
  error_type : option string;
  error_message : option string;
  task_rest : pyval
}.

Inductive DownloadKind := DownloadPending | DownloadCompleted | DownloadFailed | DownloadOngoing.

(** The union of reports; the bytes are those of a pending or ongoing download. *)
Record DownloadProgress := {
  dp_kind : DownloadKind;
  dp_node_id : string;
  dp_model_id : string;
  dp_downloaded : Z;
  dp_total : Z;
  dp_rest : pyval
}.

(** ** Node descriptions *)

Record AdvertisedTransportEndpoint := {
  ep_purpose : string;
  ep_route_type : string;
  ep_host : string;
  ep_port : option Z;
  ep_source : option string;
  ep_interface_name : option string
}.
#[export] Instance endpoint_eq_dec : EqDecision AdvertisedTransportEndpoint.
Proof. solve_decision. Defined.

Record NodeIdentity := {
  ni_model_id : string;
  ni_chip_id : string;
  ni_friendly_name : string;
  ni_os_version : string;
  ni_os_build_version : string;
  ni_cpu_physical_cores : option Z;
  ni_cpu_logical_cores : option Z;
  ni_total_vram_bytes : option Z;
  ni_api_host : option string;
  ni_api_port : option Z;
  ni_data_host : option string;
  ni_data_port : option Z;
  ni_transport_endpoints : list AdvertisedTransportEndpoint;
  ni_worker_enabled : option bool;
  ni_relay_enabled : option bool;
  ni_worker_reward_address : option string;
  ni_node_public_key_b64 : option string;
  ni_node_public_key_address : option string;
  ni_readiness : list (string * pyval)
}.

Definition default_identity : NodeIdentity := {|
  ni_model_id := "Unknown"; ni_chip_id := "Unknown"; ni_friendly_name := "Unknown";
  ni_os_version := "Unknown"; ni_os_build_version := "Unknown"; ni_cpu_physical_cores := None;
  ni_cpu_logical_cores := None; ni_total_vram_bytes := None; ni_api_host := None;
  ni_api_port := None; ni_data_host := None; ni_data_port := None; ni_transport_endpoints := [];
  ni_worker_enabled := None; ni_relay_enabled := None; ni_worker_reward_address := None;
  ni_node_public_key_b64 := None; ni_node_public_key_address := None; ni_readiness := [] |}.

Record ThunderboltIdentifier := { tb_rdma_interface : string; tb_domain_uuid : string; tb_link : string }.
Record ThunderboltConnection := { source_uuid : string; sink_uuid : string }.

(** [MemoryUsage], in bytes. *)
Record MemoryReading := {
  ram_total : Z;
  ram_available : Z;
  swap_total : Z;
  swap_available : Z
}.

(** [GatheredInfo] *)
Inductive GatheredInfo :=
| MacmonMetrics (system_profile : pyval) (memory : MemoryReading)
| PsutilSystemMetrics (system_profile : pyval)
| MemoryUsage (memory : MemoryReading)
| NodeDiskUsage (disk_usage : pyval)
| NodeConfig (config : pyval)
| MiscData (friendly_name : string)
| ApiEndpointInfo (host : option string) (port : Z) (data_host : option string)
    (data_port : option Z) (endpoints : list AdvertisedTransportEndpoint)
| StaticNodeInformation (model chip os_version os_build_version : string)
    (cpu_physical_cores cpu_logical_cores total_vram_bytes : option Z)
| WorkerStateInfo (worker_enabled relay_enabled : bool) (worker_reward_address
    node_public_key_b64 node_public_key_address : option string) (readiness : list (string * pyval))
| NodeNetworkInterfaces (ifaces : list NetworkInterfaceInfo)
| MacThunderboltIdentifiers (idents : list ThunderboltIdentifier)
| MacThunderboltConnections (conns : list ThunderboltConnection)
| ThunderboltBridgeInfo (status : ThunderboltBridgeStatus)
| RdmaCtlStatus (enabled : bool).

(** ** Events *)

Inductive Event :=
| TestEvent
| TaskCreated (task_id : string) (task : Task)
| TaskStatusUpdated (task_id : string) (task_status : TaskStatus)
| TaskFailed (task_id error_type error_message : string)
| TaskDeleted (task_id : string)
| TaskAcknowledged (task_id : string)
| InstanceCreated (instance : Instance)
| InstanceDeleted (instance_id : string)
| RunnerStatusUpdated (runner_id : string) (runner_status : RunnerStatus)
| NodeTimedOut (node_id : string)
| NodeGatheredInfo (node_id when_ : string) (info : GatheredInfo)
| NodeDownloadProgress (download_progress : DownloadProgress)
| ChunkGenerated (command_id : string) (chunk : pyval)
| InputChunkReceived (command_id : string) (chunk : pyval)
| TopologyEdgeCreated (conn : Connection)
| TopologyEdgeDeleted (conn : Connection)
| OverlayPeerConnected (local_node_id remote_node_id : string)
| OverlayPeerDisconnected (local_node_id remote_node_id : string)
| OverlayBootstrapPeersAdvertised (node_id : string) (peers : list string)
| TracesCollected (task_id : string) (rank : Z) (traces : list pyval)
| TracesMerged (task_id : string) (traces : list pyval)
| CustomModelCardAdded (model_card : pyval)
| CustomModelCardDeleted (model_id : string).

#[export] Instance backend_eq_dec : EqDecision InferenceBackend.
Proof. solve_decision. Defined.
#[export] Instance model_card_eq_dec : EqDecision ModelCard.
Proof. solve_decision. Defined.
#[export] Instance shard_kind_eq_dec : EqDecision ShardKind.
Proof. solve_decision. Defined.
#[export] Instance host_eq_dec : EqDecision Host.
Proof. solve_decision. Defined.
#[export] Instance relay_eq_dec : EqDecision LlamaCppRelayRoute.
Proof. solve_decision. Defined.
#[export] Instance instance_kind_eq_dec : EqDecision InstanceKind.
Proof. solve_decision. Defined.
#[export] Instance shard_eq_dec : EqDecision ShardMetadata.
Proof. solve_decision. Defined.
#[export] Instance instance_eq_dec : EqDecision Instance.
Proof. solve_decision. Defined.
#[export] Instance bound_instance_eq_dec : EqDecision BoundInstance.
Proof. solve_decision. Defined.
#[export] Instance task_kind_eq_dec : EqDecision TaskKind.
Proof. solve_decision. Defined.
#[export] Instance download_kind_eq_dec : EqDecision DownloadKind.
Proof. solve_decision. Defined.
#[export] Instance task_eq_dec : EqDecision Task.
Proof. solve_decision. Defined.
#[export] Instance runner_status_eq_dec : EqDecision RunnerStatus.
Proof. solve_decision. Defined.
#[export] Instance download_eq_dec : EqDecision DownloadProgress.
Proof. solve_decision. Defined.
#[export] Instance tb_identifier_eq_dec : EqDecision ThunderboltIdentifier.
Proof. solve_decision. Defined.
#[export] Instance tb_connection_eq_dec : EqDecision ThunderboltConnection.
Proof. solve_decision. Defined.
#[export] Instance memory_reading_eq_dec : EqDecision MemoryReading.
Proof. solve_decision. Defined.
#[export] Instance gathered_info_eq_dec : EqDecision GatheredInfo.
Proof. solve_decision. Defined.
#[export] Instance event_eq_dec : EqDecision Event.
Proof. solve_decision. Defined.

(** An event with its id, as it travels; ids take part in the equality of events. *)
Definition EventMsg : Type := string * Event.

(** ** State *)

(** [node_thunderbolt] is walked in the order of the dict, so it is a list of pairs. *)
Record State := {
  instances : gmap string Instance;
  runners : gmap string RunnerStatus;
  downloads : gmap string (list DownloadProgress);
  tasks : gmap string Task;
  last_seen : gmap string Z;
  overlay_peers : gmap string (list string);
  overlay_advertised_peers : gmap string (list string);
  topology : Topology;
  last_event_applied_idx : Z;
  node_identities : gmap string NodeIdentity;
  node_memory : gmap string MemoryReading;
  node_disk : gmap string pyval;
  node_system : gmap string pyval;
  node_network : gmap string NodeNetworkInfo;
  node_thunderbolt : list (string * list ThunderboltIdentifier);
  node_thunderbolt_bridge : gmap string ThunderboltBridgeStatus;
  node_rdma_ctl : gmap string bool;
  thunderbolt_bridge_cycles : list (list string)
}.

Definition initial_state : State := {|
  instances := ∅; runners := ∅; downloads := ∅; tasks := ∅; last_seen := ∅; overlay_peers := ∅;
  overlay_advertised_peers := ∅; topology := empty_topology; last_event_applied_idx := -1;
  node_identities := ∅; node_memory := ∅; node_disk := ∅; node_system := ∅; node_network := ∅;
  node_thunderbolt := []; node_thunderbolt_bridge := ∅; node_rdma_ctl := ∅;
  thunderbolt_bridge_cycles := [] |}.

(** [state.model_copy(update={...})], one field at a time. *)
Definition set_instances (v : gmap string Instance) (s : State) : State := {|
  instances := v; runners := runners s; downloads := downloads s; tasks := tasks s;
  last_seen := last_seen s; overlay_peers := overlay_peers s; overlay_advertised_peers :=
  overlay_advertised_peers s; topology := topology s; last_event_applied_idx :=
  last_event_applied_idx s; node_identities := node_identities s; node_memory := node_memory
  s; node_disk := node_disk s; node_system := node_system s; node_network := node_network s;
  node_thunderbolt := node_thunderbolt s; node_thunderbolt_bridge := node_thunderbolt_bridge
  s; node_rdma_ctl := node_rdma_ctl s; thunderbolt_bridge_cycles :=
  thunderbolt_bridge_cycles s |}.
Definition set_runners (v : gmap string RunnerStatus) (s : State) : State := {|
  instances := instances s; runners := v; downloads := downloads s; tasks := tasks s;
  last_seen := last_seen s; overlay_peers := overlay_peers s; overlay_advertised_peers :=
  overlay_advertised_peers s; topology := topology s; last_event_applied_idx :=
  last_event_applied_idx s; node_identities := node_identities s; node_memory := node_memory
  s; node_disk := node_disk s; node_system := node_system s; node_network := node_network s;
  node_thunderbolt := node_thunderbolt s; node_thunderbolt_bridge := node_thunderbolt_bridge
  s; node_rdma_ctl := node_rdma_ctl s; thunderbolt_bridge_cycles :=
  thunderbolt_bridge_cycles s |}.
Definition set_downloads (v : gmap string (list DownloadProgress)) (s : State) : State := {|
  instances := instances s; runners := runners s; downloads := v; tasks := tasks s;
  last_seen := last_seen s; overlay_peers := overlay_peers s; overlay_advertised_peers :=
  overlay_advertised_peers s; topology := topology s; last_event_applied_idx :=
  last_event_applied_idx s; node_identities := node_identities s; node_memory := node_memory
  s; node_disk := node_disk s; node_system := node_system s; node_network := node_network s;
  node_thunderbolt := node_thunderbolt s; node_thunderbolt_bridge := node_thunderbolt_bridge
  s; node_rdma_ctl := node_rdma_ctl s; thunderbolt_bridge_cycles :=
  thunderbolt_bridge_cycles s |}.
Definition set_tasks (v : gmap string Task) (s : State) : State := {|
  instances := instances s; runners := runners s; downloads := downloads s; tasks := v;
  last_seen := last_seen s; overlay_peers := overlay_peers s; overlay_advertised_peers :=
  overlay_advertised_peers s; topology := topology s; last_event_applied_idx :=
  last_event_applied_idx s; node_identities := node_identities s; node_memory := node_memory
  s; node_disk := node_disk s; node_system := node_system s; node_network := node_network s;
  node_thunderbolt := node_thunderbolt s; node_thunderbolt_bridge := node_thunderbolt_bridge
  s; node_rdma_ctl := node_rdma_ctl s; thunderbolt_bridge_cycles :=
  thunderbolt_bridge_cycles s |}.
Definition set_last_seen (v : gmap string Z) (s : State) : State := {|
  instances := instances s; runners := runners s; downloads := downloads s; tasks := tasks
  s; last_seen := v; overlay_peers := overlay_peers s; overlay_advertised_peers :=
  overlay_advertised_peers s; topology := topology s; last_event_applied_idx :=
  last_event_applied_idx s; node_identities := node_identities s; node_memory := node_memory
  s; node_disk := node_disk s; node_system := node_system s; node_network := node_network s;
  node_thunderbolt := node_thunderbolt s; node_thunderbolt_bridge := node_thunderbolt_bridge
  s; node_rdma_ctl := node_rdma_ctl s; thunderbolt_bridge_cycles :=
  thunderbolt_bridge_cycles s |}.
Definition set_overlay_peers (v : gmap string (list string)) (s : State) : State := {|
  instances := instances s; runners := runners s; downloads := downloads s; tasks := tasks
  s; last_seen := last_seen s; overlay_peers := v; overlay_advertised_peers :=
  overlay_advertised_peers s; topology := topology s; last_event_applied_idx :=
  last_event_applied_idx s; node_identities := node_identities s; node_memory := node_memory
  s; node_disk := node_disk s; node_system := node_system s; node_network := node_network s;
  node_thunderbolt := node_thunderbolt s; node_thunderbolt_bridge := node_thunderbolt_bridge
  s; node_rdma_ctl := node_rdma_ctl s; thunderbolt_bridge_cycles :=
  thunderbolt_bridge_cycles s |}.
Definition set_overlay_advertised_peers (v : gmap string (list string)) (s : State) : State := {|
  instances := instances s; runners := runners s; downloads := downloads s; tasks := tasks
  s; last_seen := last_seen s; overlay_peers := overlay_peers s; overlay_advertised_peers :=
  v; topology := topology s; last_event_applied_idx := last_event_applied_idx s;
  node_identities := node_identities s; node_memory := node_memory s; node_disk := node_disk
  s; node_system := node_system s; node_network := node_network s; node_thunderbolt :=
  node_thunderbolt s; node_thunderbolt_bridge := node_thunderbolt_bridge s; node_rdma_ctl :=
  node_rdma_ctl s; thunderbolt_bridge_cycles := thunderbolt_bridge_cycles s |}.
Definition set_topology (v : Topology) (s : State) : State := {|
  instances := instances s; runners := runners s; downloads := downloads s; tasks := tasks
  s; last_seen := last_seen s; overlay_peers := overlay_peers s; overlay_advertised_peers :=
  overlay_advertised_peers s; topology := v; last_event_applied_idx :=
  last_event_applied_idx s; node_identities := node_identities s; node_memory := node_memory
  s; node_disk := node_disk s; node_system := node_system s; node_network := node_network s;
  node_thunderbolt := node_thunderbolt s; node_thunderbolt_bridge := node_thunderbolt_bridge
  s; node_rdma_ctl := node_rdma_ctl s; thunderbolt_bridge_cycles :=
  thunderbolt_bridge_cycles s |}.
Definition set_last_event_applied_idx (v : Z) (s : State) : State := {|
  instances := instances s; runners := runners s; downloads := downloads s; tasks := tasks
  s; last_seen := last_seen s; overlay_peers := overlay_peers s; overlay_advertised_peers :=
  overlay_advertised_peers s; topology := topology s; last_event_applied_idx := v;
  node_identities := node_identities s; node_memory := node_memory s; node_disk := node_disk
  s; node_system := node_system s; node_network := node_network s; node_thunderbolt :=
  node_thunderbolt s; node_thunderbolt_bridge := node_thunderbolt_bridge s; node_rdma_ctl :=
  node_rdma_ctl s; thunderbolt_bridge_cycles := thunderbolt_bridge_cycles s |}.
Definition set_node_identities (v : gmap string NodeIdentity) (s : State) : State := {|
  instances := instances s; runners := runners s; downloads := downloads s; tasks := tasks
  s; last_seen := last_seen s; overlay_peers := overlay_peers s; overlay_advertised_peers :=
  overlay_advertised_peers s; topology := topology s; last_event_applied_idx :=
  last_event_applied_idx s; node_identities := v; node_memory := node_memory s; node_disk :=
  node_disk s; node_system := node_system s; node_network := node_network s;
  node_thunderbolt := node_thunderbolt s; node_thunderbolt_bridge := node_thunderbolt_bridge
  s; node_rdma_ctl := node_rdma_ctl s; thunderbolt_bridge_cycles :=
  thunderbolt_bridge_cycles s |}.
Definition set_node_memory (v : gmap string MemoryReading) (s : State) : State := {|
  instances := instances s; runners := runners s; downloads := downloads s; tasks := tasks
  s; last_seen := last_seen s; overlay_peers := overlay_peers s; overlay_advertised_peers :=
  overlay_advertised_peers s; topology := topology s; last_event_applied_idx :=
  last_event_applied_idx s; node_identities := node_identities s; node_memory := v;
  node_disk := node_disk s; node_system := node_system s; node_network := node_network s;
  node_thunderbolt := node_thunderbolt s; node_thunderbolt_bridge := node_thunderbolt_bridge
  s; node_rdma_ctl := node_rdma_ctl s; thunderbolt_bridge_cycles :=
  thunderbolt_bridge_cycles s |}.
Definition set_node_disk (v : gmap string pyval) (s : State) : State := {|
  instances := instances s; runners := runners s; downloads := downloads s; tasks := tasks
  s; last_seen := last_seen s; overlay_peers := overlay_peers s; overlay_advertised_peers :=
  overlay_advertised_peers s; topology := topology s; last_event_applied_idx :=
  last_event_applied_idx s; node_identities := node_identities s; node_memory := node_memory
  s; node_disk := v; node_system := node_system s; node_network := node_network s;
  node_thunderbolt := node_thunderbolt s; node_thunderbolt_bridge := node_thunderbolt_bridge
  s; node_rdma_ctl := node_rdma_ctl s; thunderbolt_bridge_cycles :=
  thunderbolt_bridge_cycles s |}.
Definition set_node_system (v : gmap string pyval) (s : State) : State := {|
  instances := instances s; runners := runners s; downloads := downloads s; tasks := tasks
  s; last_seen := last_seen s; overlay_peers := overlay_peers s; overlay_advertised_peers :=
  overlay_advertised_peers s; topology := topology s; last_event_applied_idx :=
  last_event_applied_idx s; node_identities := node_identities s; node_memory := node_memory
  s; node_disk := node_disk s; node_system := v; node_network := node_network s;
  node_thunderbolt := node_thunderbolt s; node_thunderbolt_bridge := node_thunderbolt_bridge
  s; node_rdma_ctl := node_rdma_ctl s; thunderbolt_bridge_cycles :=
  thunderbolt_bridge_cycles s |}.
Definition set_node_network (v : gmap string NodeNetworkInfo) (s : State) : State := {|
  instances := instances s; runners := runners s; downloads := downloads s; tasks := tasks
  s; last_seen := last_seen s; overlay_peers := overlay_peers s; overlay_advertised_peers :=
  overlay_advertised_peers s; topology := topology s; last_event_applied_idx :=
  last_event_applied_idx s; node_identities := node_identities s; node_memory := node_memory
  s; node_disk := node_disk s; node_system := node_system s; node_network := v;
  node_thunderbolt := node_thunderbolt s; node_thunderbolt_bridge := node_thunderbolt_bridge
  s; node_rdma_ctl := node_rdma_ctl s; thunderbolt_bridge_cycles :=
  thunderbolt_bridge_cycles s |}.
Definition set_node_thunderbolt (v : list (string * list ThunderboltIdentifier)) (s : State) : State := {|
  instances := instances s; runners := runners s; downloads := downloads s; tasks := tasks
  s; last_seen := last_seen s; overlay_peers := overlay_peers s; overlay_advertised_peers :=
  overlay_advertised_peers s; topology := topology s; last_event_applied_idx :=
  last_event_applied_idx s; node_identities := node_identities s; node_memory := node_memory
  s; node_disk := node_disk s; node_system := node_system s; node_network := node_network s;
  node_thunderbolt := v; node_thunderbolt_bridge := node_thunderbolt_bridge s; node_rdma_ctl
  := node_rdma_ctl s; thunderbolt_bridge_cycles := thunderbolt_bridge_cycles s |}.
Definition set_node_thunderbolt_bridge (v : gmap string ThunderboltBridgeStatus) (s : State) : State := {|
  instances := instances s; runners := runners s; downloads := downloads s; tasks := tasks
  s; last_seen := last_seen s; overlay_peers := overlay_peers s; overlay_advertised_peers :=
  overlay_advertised_peers s; topology := topology s; last_event_applied_idx :=
  last_event_applied_idx s; node_identities := node_identities s; node_memory := node_memory
  s; node_disk := node_disk s; node_system := node_system s; node_network := node_network s;
  node_thunderbolt := node_thunderbolt s; node_thunderbolt_bridge := v; node_rdma_ctl :=
  node_rdma_ctl s; thunderbolt_bridge_cycles := thunderbolt_bridge_cycles s |}.
Definition set_node_rdma_ctl (v : gmap string bool) (s : State) : State := {|
  instances := instances s; runners := runners s; downloads := downloads s; tasks := tasks
  s; last_seen := last_seen s; overlay_peers := overlay_peers s; overlay_advertised_peers :=
  overlay_advertised_peers s; topology := topology s; last_event_applied_idx :=
  last_event_applied_idx s; node_identities := node_identities s; node_memory := node_memory
  s; node_disk := node_disk s; node_system := node_system s; node_network := node_network s;
  node_thunderbolt := node_thunderbolt s; node_thunderbolt_bridge := node_thunderbolt_bridge
  s; node_rdma_ctl := v; thunderbolt_bridge_cycles := thunderbolt_bridge_cycles s |}.
Definition set_thunderbolt_bridge_cycles (v : list (list string)) (s : State) : State := {|
  instances := instances s; runners := runners s; downloads := downloads s; tasks := tasks
  s; last_seen := last_seen s; overlay_peers := overlay_peers s; overlay_advertised_peers :=
  overlay_advertised_peers s; topology := topology s; last_event_applied_idx :=
  last_event_applied_idx s; node_identities := node_identities s; node_memory := node_memory
  s; node_disk := node_disk s; node_system := node_system s; node_network := node_network s;
  node_thunderbolt := node_thunderbolt s; node_thunderbolt_bridge := node_thunderbolt_bridge
  s; node_rdma_ctl := node_rdma_ctl s; thunderbolt_bridge_cycles := v |}.

(** ** Transport endpoints *)

Definition _dedupe_transport_endpoints (endpoints : list AdvertisedTransportEndpoint)
  : list AdvertisedTransportEndpoint :=
  foldl (λ deduped e, if bool_decide (e ∈ deduped) then deduped else deduped ++ [e]) [] endpoints.

Definition as_relay (e : AdvertisedTransportEndpoint) : AdvertisedTransportEndpoint :=
  {| ep_purpose := ep_purpose e; ep_route_type := "relay"; ep_host := ep_host e;
     ep_port := ep_port e; ep_source := ep_source e; ep_interface_name := ep_interface_name e |}.

Definition _normalized_transport_endpoints (current : NodeIdentity)
    (endpoints : option (list AdvertisedTransportEndpoint)) (relay_enabled : option bool)
  : list AdvertisedTransportEndpoint :=
  let given :=
    match endpoints with Some (e :: l) => e :: l | _ => ni_transport_endpoints current end in
  let base := filter (λ e, ep_route_type e ≠ "relay") given in
  let relay :=
    match relay_enabled with Some b => b | None => default false (ni_relay_enabled current) end in
  if negb relay then _dedupe_transport_endpoints base
  else _dedupe_transport_endpoints (base ++ map as_relay base).

(** [current_identity.model_copy(update=...)] for the four kinds of report. *)
Definition with_friendly_name (n : string) (i : NodeIdentity) : NodeIdentity := {|
  ni_model_id := ni_model_id i; ni_chip_id := ni_chip_id i; ni_friendly_name := n;
  ni_os_version := ni_os_version i; ni_os_build_version := ni_os_build_version i;
  ni_cpu_physical_cores := ni_cpu_physical_cores i; ni_cpu_logical_cores := ni_cpu_logical_cores i;
  ni_total_vram_bytes := ni_total_vram_bytes i; ni_api_host := ni_api_host i;
  ni_api_port := ni_api_port i; ni_data_host := ni_data_host i; ni_data_port := ni_data_port i;
  ni_transport_endpoints := ni_transport_endpoints i; ni_worker_enabled := ni_worker_enabled i;
  ni_relay_enabled := ni_relay_enabled i; ni_worker_reward_address := ni_worker_reward_address i;
  ni_node_public_key_b64 := ni_node_public_key_b64 i;
  ni_node_public_key_address := ni_node_public_key_address i; ni_readiness := ni_readiness i |}.

Definition with_api_endpoint (host : option string) (port : Z) (data_host : option string)
    (data_port : option Z) (endpoints : list AdvertisedTransportEndpoint) (i : NodeIdentity)
  : NodeIdentity := {|
  ni_model_id := ni_model_id i; ni_chip_id := ni_chip_id i; ni_friendly_name := ni_friendly_name i;
  ni_os_version := ni_os_version i; ni_os_build_version := ni_os_build_version i;
  ni_cpu_physical_cores := ni_cpu_physical_cores i; ni_cpu_logical_cores := ni_cpu_logical_cores i;
  ni_total_vram_bytes := ni_total_vram_bytes i; ni_api_host := host; ni_api_port := Some port;
  ni_data_host := data_host; ni_data_port := data_port;
  ni_transport_endpoints := _normalized_transport_endpoints i (Some endpoints) None;
  ni_worker_enabled := ni_worker_enabled i; ni_relay_enabled := ni_relay_enabled i;
  ni_worker_reward_address := ni_worker_reward_address i;
  ni_node_public_key_b64 := ni_node_public_key_b64 i;
  ni_node_public_key_address := ni_node_public_key_address i; ni_readiness := ni_readiness i |}.

Definition with_static_info (model chip os_version os_build : string) (phys logic vram : option Z)
    (i : NodeIdentity) : NodeIdentity := {|
  ni_model_id := model; ni_chip_id := chip; ni_friendly_name := ni_friendly_name i;
  ni_os_version := os_version; ni_os_build_version := os_build; ni_cpu_physical_cores := phys;
  ni_cpu_logical_cores := logic; ni_total_vram_bytes := vram; ni_api_host := ni_api_host i;
  ni_api_port := ni_api_port i; ni_data_host := ni_data_host i; ni_data_port := ni_data_port i;
  ni_transport_endpoints := ni_transport_endpoints i; ni_worker_enabled := ni_worker_enabled i;
  ni_relay_enabled := ni_relay_enabled i; ni_worker_reward_address := ni_worker_reward_address i;
  ni_node_public_key_b64 := ni_node_public_key_b64 i;
  ni_node_public_key_address := ni_node_public_key_address i; ni_readiness := ni_readiness i |}.

Definition with_worker_state (worker relay : bool) (reward key key_address : option string)
    (readiness : list (string * pyval)) (i : NodeIdentity) : NodeIdentity := {|
  ni_model_id := ni_model_id i; ni_chip_id := ni_chip_id i; ni_friendly_name := ni_friendly_name i;
  ni_os_version := ni_os_version i; ni_os_build_version := ni_os_build_version i;
  ni_cpu_physical_cores := ni_cpu_physical_cores i; ni_cpu_logical_cores := ni_cpu_logical_cores i;
  ni_total_vram_bytes := ni_total_vram_bytes i; ni_api_host := ni_api_host i;
  ni_api_port := ni_api_port i; ni_data_host := ni_data_host i; ni_data_port := ni_data_port i;
  ni_transport_endpoints := _normalized_transport_endpoints i None (Some relay);
  ni_worker_enabled := Some worker; ni_relay_enabled := Some relay;
  ni_worker_reward_address := reward; ni_node_public_key_b64 := key;
  ni_node_public_key_address := key_address; ni_readiness := readiness |}.

(** ** Handlers *)

(** The first download of the same model is replaced, else the new one goes to the end. *)
Fixpoint put_download (dp : DownloadProgress) (l : list DownloadProgress) : list DownloadProgress :=
  match l with
  | [] => [dp]
  | d :: l' => if String.eqb (dp_model_id d) (dp_model_id dp) then dp :: l' else d :: put_download dp l'
  end.

Definition apply_node_download_progress (dp : DownloadProgress) (s : State) : State :=
  let n := dp_node_id dp in
  set_downloads (<[n := put_download dp (default [] (downloads s !! n))]> (downloads s)) s.

Definition with_status (st : TaskStatus) (t : Task) : Task := {|
  task_kind := task_kind t; task_id := task_id t; task_status := st;
  task_instance_id := task_instance_id t;
  error_type := if decide (st = Failed) then error_type t else None;
  error_message := if decide (st = Failed) then error_message t else None;
  task_rest := task_rest t |}.

Definition with_error (ty msg : string) (t : Task) : Task := {|
  task_kind := task_kind t; task_id := task_id t; task_status := task_status t;
  task_instance_id := task_instance_id t; error_type := Some ty; error_message := Some msg;
  task_rest := task_rest t |}.

Definition apply_task_created (i : string) (t : Task) (s : State) : State :=
  set_tasks (<[i := t]> (tasks s)) s.

Definition apply_task_deleted (i : string) (s : State) : State := set_tasks (delete i (tasks s)) s.

Definition apply_task_status_updated (i : string) (st : TaskStatus) (s : State) : State :=
  match tasks s !! i with
  | None => s
  | Some t => set_tasks (<[i := with_status st t]> (tasks s)) s
  end.

Definition apply_task_failed (i ty msg : string) (s : State) : State :=
  match tasks s !! i with
  | None => s
  | Some t => set_tasks (<[i := with_error ty msg t]> (tasks s)) s
  end.

Definition apply_instance_created (inst : Instance) (s : State) : State :=
  set_instances (<[instance_id inst := inst]> (instances s)) s.

Definition apply_instance_deleted (i : string) (s : State) : State :=
  set_instances (delete i (instances s)) s.

Definition apply_runner_status_updated (i : string) (st : RunnerStatus) (s : State) : State :=
  match st with
  | RunnerShutdown => set_runners (delete i (runners s)) s
  | _ => set_runners (<[i := st]> (runners s)) s
  end.

Definition apply_topology_edge_created (c : Connection) (s : State) : State :=
  set_topology (add_connection c (topology s)) s.

Definition apply_topology_edge_deleted (c : Connection) (s : State) : State :=
  set_topology (remove_connection c (topology s)) s.

(** One direction of a new, or of a lost, peer link. *)
Definition link_peer (a b : string) (m : gmap string (list string)) : gmap string (list string) :=
  let current := default [] (m !! a) in
  <[a := if bool_decide (b ∈ current) then current else py_sorted str_leb (current ++ [b])]> m.

Definition unlink_peer (a b : string) (m : gmap string (list string)) : gmap string (list string) :=
  match filter (λ p, p ≠ b) (default [] (m !! a)) with
  | [] => delete a m
  | current => <[a := current]> m
  end.

Definition apply_overlay_peer_connected (local remote : string) (s : State) : State :=
  set_overlay_peers (link_peer remote local (link_peer local remote (overlay_peers s))) s.

Definition apply_overlay_peer_disconnected (local remote : string) (s : State) : State :=
  set_overlay_peers (unlink_peer remote local (unlink_peer local remote (overlay_peers s))) s.

Definition apply_overlay_bootstrap_peers_advertised (n : string) (peers : list string) (s : State)
  : State :=
  set_overlay_advertised_peers (<[n := peers]> (overlay_advertised_peers s)) s.

(** The peers that remain when a node leaves: no empty list is kept. *)
Definition without_peer (n : string) (m : gmap string (list string)) : gmap string (list string) :=
  omap (λ peers, match filter (λ p, p ≠ n) peers with [] => None | l => Some l end) (delete n m).

(** Python dicts as lists of pairs: [{**d, k: v}] and the removal of a key. *)
Fixpoint pd_set {A} (k : string) (v : A) (d : list (string * A)) : list (string * A) :=
  match d with
  | [] => [(k, v)]
  | kv :: d' => if String.eqb kv.1 k then (k, v) :: d' else kv :: pd_set k v d'
  end.
Definition pd_del {A} (k : string) (d : list (string * A)) : list (string * A) :=
  filter (λ kv, kv.1 ≠ k) d.

(** [conn_map]: where each domain uuid is, the last node that names it. *)
Definition conn_map (d : list (string * list ThunderboltIdentifier)) : gmap string (string * string) :=
  foldl (λ m kv, foldl (λ m i, <[tb_domain_uuid i := (kv.1, tb_rdma_interface i)]> m) m kv.2) ∅ d.

Definition as_rdma_conns (n : string) (m : gmap string (string * string))
    (conns : list ThunderboltConnection) : list Connection :=
  omap (M:=list) (λ c : ThunderboltConnection,
    match m !! source_uuid c, m !! sink_uuid c with
    | Some a, Some b => Some {| source := n; sink := b.1; edge := RDMAConnection a.2 b.2 |}
    | _, _ => None
    end) conns.

Section apply.
Context (fromisoformat : string → result Z).
Context (simple_cycles : list string → list Connection → list (list string)).
Context (set_order : gset string → list string).

Local Abbreviation bridge_cycles := (get_thunderbolt_bridge_cycles simple_cycles set_order).

Definition apply_node_timed_out (n : string) (s : State) : result State :=
  let topo := remove_node n (topology s) in
  let bridge := delete n (node_thunderbolt_bridge s) in
  let network := delete n (node_network s) in
  let leaving_node_had_tb_enabled :=
    match node_thunderbolt_bridge s !! n with Some st => tb_enabled st | None => false end in
  cycles ← (if leaving_node_had_tb_enabled then bridge_cycles bridge network topo
            else Ok (thunderbolt_bridge_cycles s));
  Ok {| instances := instances s; runners := runners s; downloads := delete n (downloads s);
        tasks := tasks s; last_seen := delete n (last_seen s);
        overlay_peers := without_peer n (overlay_peers s);
        overlay_advertised_peers := delete n (overlay_advertised_peers s); topology := topo;
        last_event_applied_idx := last_event_applied_idx s;
        node_identities := delete n (node_identities s); node_memory := delete n (node_memory s);
        node_disk := delete n (node_disk s); node_system := delete n (node_system s);
        node_network := network; node_thunderbolt := pd_del n (node_thunderbolt s);
        node_thunderbolt_bridge := bridge; node_rdma_ctl := delete n (node_rdma_ctl s);
        thunderbolt_bridge_cycles := cycles |}.

(** The identity of a node with a change made to it. *)
Definition update_identity (n : string) (f : NodeIdentity → NodeIdentity) (s : State) : State :=
  set_node_identities
    (<[n := f (default default_identity (node_identities s !! n))]> (node_identities s)) s.

(** The [match info] of [apply_node_gathered_info], on the state whose topology has the node
    and whose [last_seen] is updated. *)
Definition apply_info (n : string) (info : GatheredInfo) (s : State) : result State :=
  match info with
  | MacmonMetrics sys mem =>
      Ok (set_node_memory (<[n := mem]> (node_memory s))
            (set_node_system (<[n := sys]> (node_system s)) s))
  | PsutilSystemMetrics sys => Ok (set_node_system (<[n := sys]> (node_system s)) s)
  | MemoryUsage mem => Ok (set_node_memory (<[n := mem]> (node_memory s)) s)
  | NodeDiskUsage d => Ok (set_node_disk (<[n := d]> (node_disk s)) s)
  | NodeConfig _ => Ok s
  | MiscData name => Ok (update_identity n (with_friendly_name name) s)
  | ApiEndpointInfo host port dhost dport eps =>
      Ok (update_identity n (with_api_endpoint host port dhost dport eps) s)
  | StaticNodeInformation model chip os osb phys logic vram =>
      Ok (update_identity n (with_static_info model chip os osb phys logic vram) s)
  | WorkerStateInfo w r reward key addr ready =>
      Ok (update_identity n (with_worker_state w r reward key addr ready) s)
  | NodeNetworkInterfaces ifaces => Ok (set_node_network (<[n := ifaces]> (node_network s)) s)
  | MacThunderboltIdentifiers ids => Ok (set_node_thunderbolt (pd_set n ids (node_thunderbolt s)) s)
  | MacThunderboltConnections conns =>
      Ok (set_topology
            (replace_all_out_rdma_connections n (as_rdma_conns n (conn_map (node_thunderbolt s)) conns)
               (topology s)) s)
  | ThunderboltBridgeInfo st =>
      let bridge := <[n := st]> (node_thunderbolt_bridge s) in
      let old_enabled :=
        match node_thunderbolt_bridge s !! n with Some o => tb_enabled o | None => false end in
      cycles ← (if eqb old_enabled (tb_enabled st) then Ok (thunderbolt_bridge_cycles s)
                else bridge_cycles bridge (node_network s) (topology s));
      Ok (set_thunderbolt_bridge_cycles cycles (set_node_thunderbolt_bridge bridge s))
  | RdmaCtlStatus e => Ok (set_node_rdma_ctl (<[n := e]> (node_rdma_ctl s)) s)
  end.

Definition apply_node_gathered_info (n when_ : string) (info : GatheredInfo) (s : State)
  : result State :=
  seen ← fromisoformat when_;
  apply_info n info
    (set_topology (add_node n (topology s)) (set_last_seen (<[n := seen]> (last_seen s)) s)).

Definition event_apply (e : Event) (s : State) : result State :=
  match e with
  | TestEvent | ChunkGenerated _ _ | TaskAcknowledged _ | InputChunkReceived _ _
  | TracesCollected _ _ _ | TracesMerged _ _ | CustomModelCardAdded _ | CustomModelCardDeleted _ =>
      Ok s
  | InstanceCreated i => Ok (apply_instance_created i s)
  | InstanceDeleted i => Ok (apply_instance_deleted i s)
  | NodeTimedOut n => apply_node_timed_out n s
  | NodeDownloadProgress dp => Ok (apply_node_download_progress dp s)
  | NodeGatheredInfo n w info => apply_node_gathered_info n w info s
  | RunnerStatusUpdated i st => Ok (apply_runner_status_updated i st s)
  | TaskCreated i t => Ok (apply_task_created i t s)
  | TaskDeleted i => Ok (apply_task_deleted i s)
  | TaskFailed i ty msg => Ok (apply_task_failed i ty msg s)
  | TaskStatusUpdated i st => Ok (apply_task_status_updated i st s)
  | TopologyEdgeCreated c => Ok (apply_topology_edge_created c s)
  | TopologyEdgeDeleted c => Ok (apply_topology_edge_deleted c s)
  | OverlayPeerConnected a b => Ok (apply_overlay_peer_connected a b s)
  | OverlayPeerDisconnected a b => Ok (apply_overlay_peer_disconnected a b s)
  | OverlayBootstrapPeersAdvertised n peers =>
      Ok (apply_overlay_bootstrap_peers_advertised n peers s)
  end.

(** [apply]: the index must be the next one. *)
Definition apply (s : State) (idx : Z) (e : Event) : result State :=
  if last_event_applied_idx s =? idx - 1 then
    s' ← event_apply e s; Ok (set_last_event_applied_idx idx s')
  else Err AssertionError.
End apply.
