(* ===== verification/RuntimeProps.v ===== *)
(** * Well-formed cluster states

    Every event keeps the state well formed: the maps about nodes describe nodes of the
    topology, links are symmetric, and files are stored under their own keys. *)
From Stdlib Require Import Ascii.
From S2P Require Import Prelude.
From S2P Require Import PyStr.
From S2P Require Import PyVal.
From S2P Require Import Topology.
From S2P Require Import RuntimeState.
Local Open Scope Z_scope.
Set Default Proof Using "Type".

(** ** Topology *)

Record topology_ok (t : Topology) : Prop := {
  tp_nodes : NoDup (nodes t);
  tp_edges : NoDup (connections t);
  tp_ends : ∀ c, c ∈ connections t → source c ∈ nodes t ∧ sink c ∈ nodes t
}.

Lemma add_node_elem n m t : m ∈ nodes (add_node n t) ↔ m = n ∨ m ∈ nodes t.
Proof.
  unfold add_node, contains_node. case_bool_decide; cbn; [set_solver|].
  rewrite elem_of_app, list_elem_of_singleton. tauto.
Qed.

Lemma add_node_ok n t : topology_ok t → topology_ok (add_node n t).
Proof.
  intros [Hn He Hends]. pose proof (add_node_elem n) as Hel. unfold add_node, contains_node in *.
  case_bool_decide as Hin; [done|]. constructor; cbn; [|done|].
  - apply NoDup_app. split_and!; [done| |apply NoDup_singleton]. intros x Hx ->%list_elem_of_singleton. done.
  - intros c Hc. apply Hends in Hc. set_solver.
Qed.

Lemma add_node_connections n t : connections (add_node n t) = connections t.
Proof. unfold add_node. by destruct (contains_node n t). Qed.

Lemma between_elem c t :
  edge c ∈ get_all_connections_between (source c) (sink c) t ↔ c ∈ connections t.
Proof.
  unfold get_all_connections_between. rewrite list_elem_of_fmap. split.
  - intros (c' & He & [[Hs Hk] Hc']%list_elem_of_filter). by destruct c, c'; cbn in *; subst.
  - intros Hc. exists c. split; [done|]. by apply list_elem_of_filter.
Qed.

Lemma add_connection_nodes c n t : n ∈ nodes t → n ∈ nodes (add_connection c t).
Proof.
  intros Hn. unfold add_connection. case_bool_decide; [done|]. cbn. rewrite !add_node_elem. auto.
Qed.

Lemma add_connection_ok c t : topology_ok t → topology_ok (add_connection c t).
Proof.
  intros Ht. unfold add_connection. case_bool_decide as Hin; [done|]. rewrite between_elem in Hin.
  assert (topology_ok (add_node (sink c) (add_node (source c) t))) as [Hn He Hends]
    by (by apply add_node_ok, add_node_ok).
  constructor; cbn; [done| |].
  - rewrite !add_node_connections. apply NoDup_app. split_and!; [apply Ht| |apply NoDup_singleton].
    intros x Hx ->%list_elem_of_singleton. done.
  - intros c' [Hc'| ->%list_elem_of_singleton]%elem_of_app; [by apply Hends|].
    rewrite !add_node_elem. auto.
Qed.

Lemma remove_connection_ok c t : topology_ok t → topology_ok (remove_connection c t).
Proof.
  intros [Hn He Hends]. unfold remove_connection. case_match; [done|]. constructor; cbn; [done| |].
  - by apply NoDup_filter.
  - intros c' [_ Hc']%list_elem_of_filter. by apply Hends.
Qed.

Lemma remove_node_ok n t : topology_ok t → topology_ok (remove_node n t).
Proof.
  intros [Hn He Hends]. unfold remove_node. case_match; [|done]. constructor; cbn.
  - by apply NoDup_filter.
  - by apply NoDup_filter.
  - intros c' [[Hs Hk] Hc']%list_elem_of_filter. apply Hends in Hc' as [? ?].
    split; by apply list_elem_of_filter.
Qed.

Lemma remove_node_elem n m t : m ∈ nodes t → m ≠ n → m ∈ nodes (remove_node n t).
Proof.
  intros Hm Hne. unfold remove_node. case_match; [|done]. by apply list_elem_of_filter.
Qed.

Lemma remove_node_gone n t : n ∉ nodes (remove_node n t).
Proof.
  unfold remove_node, contains_node. case_bool_decide as Hn; cbn; [|done].
  by intros [? _]%list_elem_of_filter.
Qed.

Lemma add_connections_ok l : ∀ t,
  topology_ok t →
  topology_ok (foldl (λ t c, add_connection c t) t l)
  ∧ ∀ m, m ∈ nodes t → m ∈ nodes (foldl (λ t c, add_connection c t) t l).
Proof.
  induction l as [|c l IH]; intros t Ht; cbn [foldl]; [done|].
  destruct (IH (add_connection c t)) as [Hok Hm]; [by apply add_connection_ok|].
  split; [done|]. intros m Hin. by apply Hm, add_connection_nodes.
Qed.

Lemma replace_rdma_ok n l t :
  topology_ok t →
  topology_ok (replace_all_out_rdma_connections n l t)
  ∧ ∀ m, m ∈ nodes t → m ∈ nodes (replace_all_out_rdma_connections n l t).
Proof.
  intros [Hn He Hends]. unfold replace_all_out_rdma_connections.
  destruct (add_connections_ok l {| nodes := nodes t;
    connections := filter (λ c, ¬ (source c = n ∧ is_rdma (edge c))) (connections t) |}) as [Hok Hm].
  - constructor; cbn; [done|by apply NoDup_filter|]. intros c [_ Hc]%list_elem_of_filter. by apply Hends.
  - split; [done|]. intros m Hin. by apply Hm.
Qed.

(** ** Peer links *)

Definition peers_of (m : gmap string (list string)) (n : string) : list string := default [] (m !! n).

Record peers_ok (m : gmap string (list string)) : Prop := {
  po_symmetric : ∀ a b, b ∈ peers_of m a ↔ a ∈ peers_of m b;
  po_nodup : ∀ a, NoDup (peers_of m a);
  po_sorted : ∀ a, StronglySorted (λ x y, str_leb x y = true) (peers_of m a);
  po_nonempty : ∀ a, m !! a ≠ Some []
}.

Lemma peers_insert m a l n : peers_of (<[a := l]> m) n = if decide (n = a) then l else peers_of m n.
Proof.
  unfold peers_of. case_decide as Hn; [subst; by rewrite lookup_insert_eq|by rewrite lookup_insert_ne].
Qed.

Lemma peers_delete m a n : peers_of (delete a m) n = if decide (n = a) then [] else peers_of m n.
Proof.
  unfold peers_of. case_decide as Hn; [subst; by rewrite lookup_delete_eq|by rewrite lookup_delete_ne].
Qed.

Lemma str_sorted_sort l : StronglySorted (λ x y, str_leb x y = true) (py_sorted str_leb l).
Proof. apply py_sorted_sorted; [apply str_leb_total|apply str_leb_trans]. Qed.

(** One direction of a link: what it does to the lists, and what it keeps. *)
Lemma link_peer_elem a b m n x :
  x ∈ peers_of (link_peer a b m) n ↔ x ∈ peers_of m n ∨ (n = a ∧ x = b).
Proof.
  unfold link_peer. rewrite peers_insert. change (default [] (m !! a)) with (peers_of m a).
  destruct (decide (n = a)) as [->|Hn]; [|naive_solver].
  case_bool_decide as Hb; [naive_solver|]. rewrite elem_of_py_sorted, elem_of_app, list_elem_of_singleton.
  naive_solver.
Qed.

Lemma unlink_peer_elem a b m n x :
  x ∈ peers_of (unlink_peer a b m) n ↔ x ∈ peers_of m n ∧ ¬ (n = a ∧ x = b).
Proof.
  unfold unlink_peer. change (default [] (m !! a)) with (peers_of m a).
  assert (∀ x, x ∈ filter (λ p, p ≠ b) (peers_of m a) ↔ x ∈ peers_of m a ∧ x ≠ b) as Hf
    by (intros y; rewrite list_elem_of_filter; tauto).
  destruct (filter _ _) as [|p l] eqn:E.
  - rewrite peers_delete. destruct (decide (n = a)) as [->|Hn]; [|naive_solver].
    rewrite elem_of_nil. specialize (Hf x). rewrite elem_of_nil in Hf. naive_solver.
  - rewrite peers_insert. destruct (decide (n = a)) as [->|Hn]; [|naive_solver].
    rewrite Hf. naive_solver.
Qed.

(** Everything about the lists but symmetry is kept by each direction. *)
Definition lists_ok (m : gmap string (list string)) : Prop :=
  (∀ a, NoDup (peers_of m a))
  ∧ (∀ a, StronglySorted (λ x y, str_leb x y = true) (peers_of m a))
  ∧ ∀ a, m !! a ≠ Some [].

Lemma peers_ok_lists m : peers_ok m ↔ (∀ a b, b ∈ peers_of m a ↔ a ∈ peers_of m b) ∧ lists_ok m.
Proof. unfold lists_ok. split; [intros []|intros (? & ? & ? & ?)]; [by split_and!|by constructor]. Qed.

Lemma insert_lists_ok m a l :
  lists_ok m → NoDup l → StronglySorted (λ x y, str_leb x y = true) l → l ≠ [] → lists_ok (<[a := l]> m).
Proof.
  intros (Hnd & Hs & Hne) Hl Hl' Hnil. split_and!; intros n; [rewrite peers_insert..|].
  - by destruct (decide _).
  - by destruct (decide _).
  - destruct (decide (n = a)) as [->|Hn]; [rewrite lookup_insert_eq; congruence|].
    by rewrite lookup_insert_ne.
Qed.

Lemma link_lists_ok a b m : lists_ok m → lists_ok (link_peer a b m).
Proof.
  intros Hm. pose proof Hm as (Hnd & Hs & Hne). unfold link_peer. fold (peers_of m a).
  case_bool_decide as Hb.
  - apply insert_lists_ok; [done..|]. intros Hnil. rewrite Hnil in Hb. by apply not_elem_of_nil in Hb.
  - apply insert_lists_ok; [done| |apply str_sorted_sort|].
    + rewrite py_sorted_perm. apply NoDup_app. split_and!; [done| |apply NoDup_singleton].
      intros x Hx ->%list_elem_of_singleton. done.
    + intros Hnil. apply (f_equal length) in Hnil. rewrite py_sorted_length, length_app in Hnil.
      cbn in Hnil. lia.
Qed.

Lemma filter_sorted {A} (R : A → A → Prop) (P : A → Prop) `{∀ x, Decision (P x)} (l : list A) :
  StronglySorted R l → StronglySorted R (filter P l).
Proof.
  induction 1 as [|x l Hl IH Hx]; [constructor|]. destruct (decide (P x)) as [HP|HP].
  - rewrite filter_cons_True by done. constructor; [done|]. apply Forall_forall.
    intros y [_ Hy]%list_elem_of_filter. by eapply Forall_forall in Hx.
  - by rewrite filter_cons_False.
Qed.

Lemma unlink_lists_ok a b m : lists_ok m → lists_ok (unlink_peer a b m).
Proof.
  intros Hm. pose proof Hm as (Hnd & Hs & Hne). unfold unlink_peer. fold (peers_of m a).
  destruct (filter _ _) as [|p l] eqn:E.
  - split_and!; intros n; [rewrite peers_delete; destruct (decide _); [constructor|done]..|].
    destruct (decide (n = a)) as [->|Hn]; [by rewrite lookup_delete_eq|by rewrite lookup_delete_ne].
  - rewrite <- E. apply insert_lists_ok; [done|by apply NoDup_filter|by apply filter_sorted|].
    by rewrite E.
Qed.

Lemma link_peers_ok a b m : peers_ok m → peers_ok (link_peer b a (link_peer a b m)).
Proof.
  rewrite !peers_ok_lists. intros [Hsym Hl]. split; [|by apply link_lists_ok, link_lists_ok].
  intros x y. rewrite !link_peer_elem, Hsym. naive_solver.
Qed.

Lemma unlink_peers_ok a b m : peers_ok m → peers_ok (unlink_peer b a (unlink_peer a b m)).
Proof.
  rewrite !peers_ok_lists. intros [Hsym Hl]. split; [|by apply unlink_lists_ok, unlink_lists_ok].
  intros x y. rewrite !unlink_peer_elem, Hsym. naive_solver.
Qed.

Lemma without_peer_of n m a :
  peers_of (without_peer n m) a = if decide (a = n) then [] else filter (λ p, p ≠ n) (peers_of m a).
Proof.
  unfold peers_of, without_peer. rewrite lookup_omap. destruct (decide (a = n)) as [->|Hn].
  - by rewrite lookup_delete_eq.
  - rewrite lookup_delete_ne by done. destruct (m !! a) as [l|]; [|done]. cbn. by destruct (filter _ l).
Qed.

Lemma without_peer_ok n m : peers_ok m → peers_ok (without_peer n m).
Proof.
  intros [Hsym Hnd Hs Hne]. constructor.
  - intros a b. rewrite !without_peer_of. specialize (Hsym a b).
    destruct (decide (a = n)) as [->|Ha], (decide (b = n)) as [->|Hb];
      rewrite ?list_elem_of_filter, ?elem_of_nil; naive_solver.
  - intros a. rewrite without_peer_of. destruct (decide _); [constructor|by apply NoDup_filter].
  - intros a. rewrite without_peer_of. destruct (decide _); [constructor|by apply filter_sorted].
  - intros a. unfold without_peer. rewrite lookup_omap. destruct (delete n m !! a) as [l|]; [|done]. cbn.
    by destruct (filter _ l).
Qed.

(** ** The state *)

(** The maps about nodes only know nodes of the topology. *)
Definition known {A} (m : gmap string A) (t : Topology) : Prop := ∀ n, is_Some (m !! n) → n ∈ nodes t.

Record nodes_known (s : State) : Prop := {
  nk_last_seen : known (last_seen s) (topology s);
  nk_identities : known (node_identities s) (topology s);
  nk_memory : known (node_memory s) (topology s);
  nk_disk : known (node_disk s) (topology s);
  nk_system : known (node_system s) (topology s);
  nk_network : known (node_network s) (topology s);
  nk_thunderbolt : ∀ n, n ∈ (node_thunderbolt s).*1 → n ∈ nodes (topology s);
  nk_bridge : known (node_thunderbolt_bridge s) (topology s);
  nk_rdma : known (node_rdma_ctl s) (topology s)
}.

Record state_ok (s : State) : Prop := {
  so_topology : topology_ok (topology s);
  so_nodes : nodes_known s;
  so_peers : peers_ok (overlay_peers s);
  so_instances : ∀ i inst, instances s !! i = Some inst → instance_id inst = i;
  so_runners : ∀ i st, runners s !! i = Some st → st ≠ RunnerShutdown;
  so_downloads : ∀ n l, downloads s !! n = Some l →
    NoDup (map dp_model_id l) ∧ Forall (λ d, dp_node_id d = n) l
}.

Lemma known_insert {A} (m : gmap string A) t n v : known m t → n ∈ nodes t → known (<[n := v]> m) t.
Proof.
  intros Hm Hn x Hx. destruct (decide (x = n)) as [->|Hne]; [done|].
  rewrite lookup_insert_ne in Hx by done. by apply Hm.
Qed.

Lemma known_mono {A} (m : gmap string A) t t' :
  (∀ n, n ∈ nodes t → n ∈ nodes t') → known m t → known m t'.
Proof. intros Ht Hm x Hx. by apply Ht, Hm. Qed.

Lemma known_delete {A} (m : gmap string A) t n : known m t → known (delete n m) (remove_node n t).
Proof.
  intros Hm x Hx. destruct (decide (x = n)) as [->|Hne].
  - rewrite lookup_delete_eq in Hx. by destruct Hx.
  - rewrite lookup_delete_ne in Hx by done. apply remove_node_elem; [by apply Hm|done].
Qed.

(** More nodes, and what they report, keep the maps known. *)
Lemma nodes_known_topology t s :
  (∀ n, n ∈ nodes (topology s) → n ∈ nodes t) → nodes_known s → nodes_known (set_topology t s).
Proof.
  intros Ht []. constructor; cbn; try (by eapply known_mono). naive_solver.
Qed.

Lemma put_download_ok dp l n :
  dp_node_id dp = n → NoDup (map dp_model_id l) → Forall (λ d, dp_node_id d = n) l →
  NoDup (map dp_model_id (put_download dp l)) ∧ Forall (λ d, dp_node_id d = n) (put_download dp l)
  ∧ ∀ x, x ∈ map dp_model_id (put_download dp l) → x = dp_model_id dp ∨ x ∈ map dp_model_id l.
Proof.
  intros Hdp. induction l as [|d l IH]; cbn; intros Hnd Hall.
  - split_and!; [apply NoDup_singleton|by repeat constructor|]. intros x ->%list_elem_of_singleton. by left.
  - apply NoDup_cons in Hnd as [Hd Hnd]. apply Forall_cons in Hall as [Hdn Hall].
    destruct (String.eqb_spec (dp_model_id d) (dp_model_id dp)) as [Heq|Hne]; cbn.
    + rewrite <- Heq. split_and!; [by apply NoDup_cons|by constructor|]. intros x Hx. by right.
    + destruct (IH Hnd Hall) as (Hnd' & Hall' & Hel). split_and!.
      * apply NoDup_cons. split; [|done]. intros Hin. apply Hel in Hin as [?|?]; done.
      * by constructor.
      * intros x [->|Hx]%elem_of_cons; [right; by left|]. apply Hel in Hx as [?|?]; [by left|].
        right. by right.
Qed.

Lemma pd_set_keys {A} n (v : A) d x : x ∈ (pd_set n v d).*1 → x = n ∨ x ∈ d.*1.
Proof.
  induction d as [|[k w] d IH]; cbn.
  - intros ->%list_elem_of_singleton. by left.
  - destruct (String.eqb_spec k n) as [->|Hk]; cbn [fst fmap list_fmap]; rewrite !elem_of_cons; naive_solver.
Qed.

Lemma known_add n s s' :
  nodes_known s → last_seen s' = last_seen s ∨ (∃ v, last_seen s' = <[n := v]> (last_seen s)) →
  topology s' = add_node n (topology s) →
  node_identities s' = node_identities s → node_memory s' = node_memory s →
  node_disk s' = node_disk s → node_system s' = node_system s → node_network s' = node_network s →
  node_thunderbolt s' = node_thunderbolt s →
  node_thunderbolt_bridge s' = node_thunderbolt_bridge s → node_rdma_ctl s' = node_rdma_ctl s →
  nodes_known s'.
Proof.
  intros [] Hseen Ht Hi Hm Hd Hs Hn Htb Hb Hr.
  assert (∀ x, x ∈ nodes (topology s) → x ∈ nodes (topology s')) as Hmono
    by (intros x Hx; rewrite Ht; apply add_node_elem; auto).
  assert (n ∈ nodes (topology s')) as Hin by (rewrite Ht; apply add_node_elem; auto).
  constructor; rewrite ?Hi, ?Hm, ?Hd, ?Hs, ?Hn, ?Htb, ?Hb, ?Hr; try (by eapply known_mono); [|naive_solver].
  destruct Hseen as [->|[v ->]]; [by eapply known_mono|]. apply known_insert; [by eapply known_mono|done].
Qed.

(** A step that leaves a part of the state alone keeps what is known of it. *)
Ltac keep :=
  match goal with
  | H : nodes_known _ |- state_ok _ => constructor; try done; try (destruct H; by constructor)
  end.

Section preservation.
Context (fromisoformat : string → result Z).
Context (simple_cycles : list string → list Connection → list (list string)).
Context (set_order : gset string → list string).

(** A node of the topology reports something. *)
Lemma apply_info_ok n info s s' :
  state_ok s → n ∈ nodes (topology s) → apply_info simple_cycles set_order n info s = Ok s' → state_ok s'.
Proof.
  intros Hok Hn. pose proof Hok as [Ht [] Hp Hi Hr Hd].
  destruct info; cbn [apply_info];
    try (intros [= <-]; constructor; try done; constructor; cbn; try done; by apply known_insert).
  - (* thunderbolt identifiers *) intros [= <-]. constructor; try done. constructor; cbn; try done.
    intros x [->|Hx]%pd_set_keys; [done|by apply nk_thunderbolt0].
  - (* connections *) intros [= <-].
    destruct (replace_rdma_ok n (as_rdma_conns n (conn_map (node_thunderbolt s)) conns) (topology s) Ht)
      as [Ht' Hm]. constructor; cbn; try done. by apply nodes_known_topology.
  - (* bridge *) intros [cycles [_ [= <-]]]%bind_ok. constructor; try done. constructor; cbn; try done.
    by apply known_insert.
Qed.

Lemma apply_node_gathered_info_ok n w info s s' :
  state_ok s → apply_node_gathered_info fromisoformat simple_cycles set_order n w info s = Ok s' → state_ok s'.
Proof.
  intros [Ht Hk Hp Hi Hr Hd] [seen [_ Hinfo]]%bind_ok. eapply apply_info_ok; [|cbn|exact Hinfo].
  - constructor; cbn; try done; [by apply add_node_ok|]. eapply (known_add n s); try done. right. by exists seen.
  - apply add_node_elem. by left.
Qed.

Lemma apply_node_timed_out_ok n s s' :
  state_ok s → apply_node_timed_out simple_cycles set_order n s = Ok s' → state_ok s'.
Proof.
  intros [Ht [] Hp Hi Hr Hd] [cycles [_ [= <-]]]%bind_ok. constructor; cbn; try done.
  - by apply remove_node_ok.
  - constructor; cbn; try (by apply known_delete). intros x Hx.
    apply list_elem_of_fmap in Hx as ([k v] & -> & [Hne Hx]%list_elem_of_filter). cbn in *.
    apply remove_node_elem; [|done]. apply nk_thunderbolt0, list_elem_of_fmap. by exists (k, v).
  - by apply without_peer_ok.
  - intros m l Hl. apply lookup_delete_Some in Hl as [_ Hl]. by apply Hd.
Qed.

Lemma event_apply_ok e s s' :
  state_ok s → event_apply fromisoformat simple_cycles set_order e s = Ok s' → state_ok s'.
Proof.
  intros Hok. pose proof Hok as [Ht Hk Hp Hi Hr Hd].
  destruct e; cbn [event_apply]; try (by intros [= <-]);
    try (intros [= <-]; by keep).
  - (* task status *) intros [= <-]. unfold apply_task_status_updated. case_match; [by keep|done].
  - (* task failed *) intros [= <-]. unfold apply_task_failed. case_match; [by keep|done].
  - (* instance created *) intros [= <-]. keep. cbn. intros i inst Hin.
    destruct (decide (i = instance_id instance)) as [->|Hne].
    + rewrite lookup_insert_eq in Hin. by injection Hin as <-.
    + rewrite lookup_insert_ne in Hin by done. by apply Hi.
  - (* instance deleted *) intros [= <-]. keep. cbn. intros i inst Hin.
    apply lookup_delete_Some in Hin as [_ Hin]. by apply Hi.
  - (* runner *) intros [= <-]. unfold apply_runner_status_updated.
    destruct runner_status; keep; cbn; intros i st Hst;
      try (apply lookup_delete_Some in Hst as [_ Hst]; by eapply Hr);
      (destruct (decide (i = runner_id)) as [->|Hne];
        [rewrite lookup_insert_eq in Hst; by injection Hst as <-|
         rewrite lookup_insert_ne in Hst by done; by eapply Hr]).
  - (* node timed out *) by apply apply_node_timed_out_ok.
  - (* gathered *) by apply apply_node_gathered_info_ok.
  - (* download *) intros [= <-]. keep. cbn. intros n l Hl.
    destruct (decide (n = dp_node_id download_progress)) as [->|Hne].
    + rewrite lookup_insert_eq in Hl. injection Hl as <-.
      destruct (downloads s !! dp_node_id download_progress) as [l|] eqn:E; cbn [default].
      * destruct (Hd _ _ E). by destruct (put_download_ok download_progress l _ eq_refl) as (? & ? & _).
      * cbn. split; [apply NoDup_singleton|by repeat constructor].
    + rewrite lookup_insert_ne in Hl by done. by apply Hd.
  - (* edge created *) intros [= <-]. constructor; cbn; try done; [by apply add_connection_ok|].
    apply nodes_known_topology; [intros; by apply add_connection_nodes|done].
  - (* edge deleted *) intros [= <-]. constructor; cbn; try done; [by apply remove_connection_ok|].
    apply nodes_known_topology; [|done]. intros m Hm. unfold remove_connection. by case_match.
  - (* peers *) intros [= <-]. keep. cbn. by apply link_peers_ok.
  - intros [= <-]. keep. cbn. by apply unlink_peers_ok.
Qed.
End preservation.

(** ** Runs *)

Lemma initial_state_ok : state_ok initial_state.
Proof.
  constructor; try done.
  - constructor; cbn; [constructor..|]. by intros c ?%not_elem_of_nil.
  - constructor; cbn; try (intros n Hn; rewrite lookup_empty in Hn; by destruct Hn).
    by intros n ?%not_elem_of_nil.
  - constructor; cbn; intros a; [intros b|..]; unfold peers_of; rewrite ?lookup_empty; cbn;
      [by rewrite !elem_of_nil|constructor|constructor|done].
Qed.

Lemma set_idx_ok i s : state_ok s → state_ok (set_last_event_applied_idx i s).
Proof. intros [Ht Hk Hp Hi Hr Hd]. by keep. Qed.

Section runs.
Context (fromisoformat : string → result Z).
Context (simple_cycles : list string → list Connection → list (list string)).
Context (set_order : gset string → list string).

Definition run_events (events : list (Z * Event)) : result State :=
  foldM (λ s ie, apply fromisoformat simple_cycles set_order s ie.1 ie.2) initial_state events.

Lemma run_events_snoc events ie s :
  run_events (events ++ [ie]) = Ok s →
  ∃ s0, run_events events = Ok s0 ∧ apply fromisoformat simple_cycles set_order s0 ie.1 ie.2 = Ok s.
Proof.
  unfold run_events. rewrite foldM_app. intros [s0 [H0 Hs]]%bind_ok. exists s0. split; [done|].
  cbn [foldM] in Hs. by destruct (apply _ _ _ s0 ie.1 ie.2).
Qed.
End runs.

(** C19: a state reached by applying indexed events is well typed: its topology has no node or
    edge twice and no edge without its ends, every map about nodes only has nodes of the
    topology, links between peers are symmetric with sorted lists and no empty ones, instances
    are filed under their ids, no runner is kept after it shut down, and a node's downloads are
    one per model and its own; and the events it is the result of have the indices 0, 1, 2...
    without a gap, the last of which the state records. *)
Theorem runtime_state_well_formed fromisoformat simple_cycles set_order (events : list (Z * Event)) s :
  run_events fromisoformat simple_cycles set_order events = Ok s →
  state_ok s
  ∧ map fst events = map Z.of_nat (seq 0 (length events))
  ∧ last_event_applied_idx s = Z.of_nat (length events) - 1.
Proof.
  revert s. induction events as [|[i e] events IH] using rev_ind; intros s.
  - intros [= <-]. split; [apply initial_state_ok|done].
  - intros (s0 & H0 & Hs)%run_events_snoc. apply IH in H0 as (Hok & Hidx & Hlast). cbn [fst snd] in Hs.
    unfold apply in Hs. destruct (Z.eqb_spec (last_event_applied_idx s0) (i - 1)) as [Hi|]; [|done].
    apply bind_ok in Hs as [s1 [H1 [= <-]]]. split_and!.
    + by eapply set_idx_ok, event_apply_ok.
    + rewrite map_app, Hidx, length_app, seq_app, map_app. cbn. repeat f_equal. lia.
    + rewrite length_app. cbn. lia.
Qed.

(** Two nodes report, link up, and one of them times out. *)
Definition sample_events : list (Z * Event) := [
  (0, NodeGatheredInfo "a" "t0" (MiscData "anna"));
  (1, TopologyEdgeCreated {| source := "a"; sink := "b"; edge := SocketConnection "/ip4/10.0.0.2/tcp/9" |});
  (2, OverlayPeerConnected "a" "b");
  (3, OverlayPeerConnected "a" "c");
  (4, RunnerStatusUpdated "r" RunnerIdle);
  (5, NodeTimedOut "b");
  (6, RunnerStatusUpdated "r" RunnerShutdown)].

Definition sample_state : State :=
  match run_events (λ _, Ok 7) (λ _ _, []) elements sample_events with Ok s => s | Err _ => initial_state end.

Lemma runtime_state_well_formed_witness :
  (nodes (topology sample_state) = ["a"] ∧ overlay_peers sample_state !! "a" = Some ["c"])
  ∧ state_ok sample_state.
Proof.
  split; [vm_compute; split; reflexivity|].
  apply (runtime_state_well_formed (λ _, Ok 7) (λ _ _, []) elements sample_events).
  vm_compute. reflexivity.
Defined.
