(* ===== verification/Replication.v ===== *)
(** * Replication of the event log

    The master's event processor and its replies to log requests ([master/main.py]), the
    inbound side of a node's event router with the tasks that request missing events
    ([routing/event_router.py]) and the application of the events it releases ([worker/main.py], [api/main.py]).  The log is the list that
    [EventLog] implements; channels between tasks of one node are in order and lose nothing. *)
From Stdlib Require Import Ascii QArith.
From S2P Require Import Prelude.
From S2P Require Import PyStr.
From S2P Require Import PyVal.
From S2P Require Import EventBuffer.
From S2P Require Import Topology.
From S2P Require Import RuntimeState.
Local Open Scope Z_scope.
Set Default Proof Using "Type".

(** [LocalForwarderEvent] and [GlobalForwarderEvent]; of the session the id of its master. *)
Record LocalForwarderEvent := {
  lf_origin_idx : Z;
  lf_origin : string;
  lf_session_master : string;
  lf_event : EventMsg
}.

Record GlobalForwarderEvent := {
  gf_origin_idx : Z;
  gf_origin : string;
  gf_session_master : string;
  gf_event : EventMsg
}.

#[export] Instance GlobalForwarderEvent_eq_dec : EqDecision GlobalForwarderEvent.
Proof. solve_decision. Defined.

Record Master := {
  ms_node_id : string;
  ms_state : State;
  ms_log : list EventMsg;
  ms_buffer : MultiSourceBuffer (T := EventMsg) (SourceId := string);
  ms_pending_traces : gmap string (list (Z * list pyval));
  ms_expected_ranks : gmap string (gset Z);
  ms_sent : list GlobalForwarderEvent;
  ms_emitted : list Event
}.

(** [d[rank] = traces] *)
Fixpoint rank_set (r : Z) (v : list pyval) (d : list (Z * list pyval)) : list (Z * list pyval) :=
  match d with
  | [] => [(r, v)]
  | kv :: d' => if kv.1 =? r then (r, v) :: d' else kv :: rank_set r v d'
  end.

(** [_handle_traces_collected] and [_merge_and_save_traces]; the merged event goes to the
    node's own event channel. *)
Definition _handle_traces_collected (task : string) (rank : Z) (traces : list pyval) (m : Master)
  : Master :=
  let collected := rank_set rank traces (default [] (ms_pending_traces m !! task)) in
  let complete :=
    match ms_expected_ranks m !! task with
    | Some expected => bool_decide (expected ⊆ list_to_set (map fst collected))
    | None => false
    end in
  {| ms_node_id := ms_node_id m; ms_state := ms_state m; ms_log := ms_log m; ms_buffer := ms_buffer m;
     ms_pending_traces :=
       if complete then delete task (ms_pending_traces m)
       else <[task := collected]> (ms_pending_traces m);
     ms_expected_ranks :=
       if complete then delete task (ms_expected_ranks m) else ms_expected_ranks m;
     ms_sent := ms_sent m;
     ms_emitted :=
       ms_emitted m ++ if complete then [TracesMerged task (concat (map snd collected))] else [] |}.

(** [_send_event] *)
Definition global_event (node : string) (idx : Z) (e : EventMsg) : GlobalForwarderEvent :=
  {| gf_origin_idx := idx; gf_origin := node; gf_session_master := node; gf_event := e |}.

(** [event.when = str(datetime.now(tz=timezone.utc))] for a gathered-info event. *)
Definition stamp (now : string) (e : EventMsg) : EventMsg :=
  (e.1, match e.2 with NodeGatheredInfo n _ info => NodeGatheredInfo n now info | ev => ev end).

Section replication.
Context (fromisoformat : string → result Z).
Context (simple_cycles : list string → list Connection → list (list string)).
(** What the master's clock reads when it indexes its [n]-th event. *)
Context (clock : nat → string).

Section master.
Context (set_order : gset string → list string).

(** One turn of the inner loop of [_event_processor]: the event is applied to the master's
    state, then stamped, logged and sent. *)
Definition master_index (m : Master) (e : EventMsg) : result Master :=
  match e.2 with
  | TracesCollected task rank traces => Ok (_handle_traces_collected task rank traces m)
  | _ =>
      let n := length (ms_log m) in
      state ← apply fromisoformat simple_cycles set_order (ms_state m) (Z.of_nat n) e.2;
      let e := stamp (clock n) e in
      Ok {| ms_node_id := ms_node_id m; ms_state := state; ms_log := ms_log m ++ [e];
            ms_buffer := ms_buffer m; ms_pending_traces := ms_pending_traces m;
            ms_expected_ranks := ms_expected_ranks m;
            ms_sent := ms_sent m ++ [global_event (ms_node_id m) (Z.of_nat n) e];
            ms_emitted := ms_emitted m |}
  end.

Definition with_buffer (b : MultiSourceBuffer) (m : Master) : Master :=
  {| ms_node_id := ms_node_id m; ms_state := ms_state m; ms_log := ms_log m; ms_buffer := b;
     ms_pending_traces := ms_pending_traces m; ms_expected_ranks := ms_expected_ranks m;
     ms_sent := ms_sent m; ms_emitted := ms_emitted m |}.

(** The outer loop: events of another session are dropped. *)
Definition master_receive (m : Master) (l : LocalForwarderEvent) : result Master :=
  if negb (String.eqb (lf_session_master l) (ms_node_id m)) then Ok m
  else
    b ← ms_ingest (lf_origin_idx l) (lf_event l) (lf_origin l) (ms_buffer m);
    let '(released, b') := ms_drain b in
    foldM master_index (with_buffer b' m) released.

Definition new_master (node : string) : Master :=
  {| ms_node_id := node; ms_state := initial_state; ms_log := []; ms_buffer := [];
     ms_pending_traces := ∅; ms_expected_ranks := ∅; ms_sent := []; ms_emitted := [] |}.
End master.

(** The reply to [RequestEventLog]: a batch of the log from an index on. *)
Definition resend (batch : nat) (since : nat) (m : Master) : list GlobalForwarderEvent :=
  imap (λ i e, global_event (ms_node_id m) (Z.of_nat (since + i)) e)
    (take batch (drop since (ms_log m))).

(** ** A replica: the router's buffer and the state its events are applied to *)

Record Replica := {
  rp_master : string;
  rp_buffer : OrderedBuffer EventMsg;
  rp_state : State
}.

Definition new_replica (master : string) : Replica :=
  {| rp_master := master; rp_buffer := new_buffer; rp_state := initial_state |}.

(** [_run_ext_in] takes only the session master's events. *)
Definition accepts (master : string) (g : GlobalForwarderEvent) : bool :=
  String.eqb (gf_session_master g) master && String.eqb (gf_origin g) master.

Section replica.
Context (set_order : gset string → list string).

Definition apply_released (s : State) (released : list (Z * EventMsg)) : result State :=
  foldM (λ s ie, apply fromisoformat simple_cycles set_order s ie.1 ie.2.2) s released.

(** One inbound event: buffered, and whatever it completes is applied in order. *)
Definition replica_receive (r : Replica) (g : GlobalForwarderEvent) : result Replica :=
  if negb (accepts (rp_master r) g) then Ok r
  else
    b ← ingest (gf_origin_idx g) (gf_event g) (rp_buffer r);
    let '(released, b') := drain_indexed b in
    s ← apply_released (rp_state r) released;
    Ok {| rp_master := rp_master r; rp_buffer := b'; rp_state := s |}.

(** ** The requests of the router

    [_run_ext_in] starts a task [_nack_request] when an event completes nothing, unless the task
    whose cancel scope the router holds is neither done nor cancelled.  A task has not run yet,
    or sleeps until a time; its scope is known to the router once it has run. *)
Inductive NackPhase :=
| NackSpawned
| NackSleeping (until : Q).

Record NackTask := {
  nt_id : nat;
  nt_since : Z;
  nt_phase : NackPhase;
  nt_cancel_called : bool
}.

(** [er_spawned] numbers the tasks; [er_requests] are the indices sent in [RequestEventLog]. *)
Record EventRouter := {
  er_replica : Replica;
  er_nack_cancel_scope : option nat;
  er_nack_attempts : nat;
  er_tasks : list NackTask;
  er_spawned : nat;
  er_requests : list Z
}.

Definition new_router (master : string) : EventRouter :=
  {| er_replica := new_replica master; er_nack_cancel_scope := None; er_nack_attempts := O;
     er_tasks := []; er_spawned := O; er_requests := [] |}.

Definition _nack_base_seconds : Q := 1 # 2.
Definition _nack_cap_seconds : Q := 10.

Definition nack_task (id : nat) (rt : EventRouter) : option NackTask :=
  List.find (λ t, Nat.eqb (nt_id t) id) (er_tasks rt).

(** [self._nack_cancel_scope is None or self._nack_cancel_scope.cancel_called] *)
Definition may_request (rt : EventRouter) : bool :=
  match er_nack_cancel_scope rt with
  | None => true
  | Some id => match nack_task id rt with Some t => nt_cancel_called t | None => true end
  end.

Definition cancel_task (id : nat) (t : NackTask) : NackTask :=
  {| nt_id := nt_id t; nt_since := nt_since t; nt_phase := nt_phase t;
     nt_cancel_called := nt_cancel_called t || Nat.eqb (nt_id t) id |}.

(** What [buf.drain_indexed()] returns after the event is in the buffer. *)
Definition drained_by (r : Replica) (g : GlobalForwarderEvent) : list (Z * EventMsg) :=
  match ingest (gf_origin_idx g) (gf_event g) (rp_buffer r) with
  | Ok b => (drain_indexed b).1
  | Err _ => []
  end.

Definition router_receive (rt : EventRouter) (g : GlobalForwarderEvent) : result EventRouter :=
  r ← replica_receive (er_replica rt) g;
  let keep := {| er_replica := r; er_nack_cancel_scope := er_nack_cancel_scope rt;
                 er_nack_attempts := er_nack_attempts rt; er_tasks := er_tasks rt;
                 er_spawned := er_spawned rt; er_requests := er_requests rt |} in
  if negb (accepts (rp_master (er_replica rt)) g) then Ok keep
  else
    match drained_by (er_replica rt) g with
    | [] =>
        Ok (if may_request rt then
              {| er_replica := r; er_nack_cancel_scope := er_nack_cancel_scope rt;
                 er_nack_attempts := er_nack_attempts rt;
                 er_tasks := er_tasks rt ++
                   [{| nt_id := er_spawned rt; nt_since := next_idx_to_release (rp_buffer r);
                       nt_phase := NackSpawned; nt_cancel_called := false |}];
                 er_spawned := S (er_spawned rt); er_requests := er_requests rt |}
            else keep)
    | _ :: _ =>
        Ok {| er_replica := r; er_nack_cancel_scope := er_nack_cancel_scope rt;
              er_nack_attempts := O;
              er_tasks :=
                (match er_nack_cancel_scope rt with
                 | Some id => map (cancel_task id) (er_tasks rt)
                 | None => er_tasks rt
                 end);
              er_spawned := er_spawned rt; er_requests := er_requests rt |}
    end.

Definition replace_task (t : NackTask) (l : list NackTask) : list NackTask :=
  map (λ x, if Nat.eqb (nt_id x) (nt_id t) then t else x) l.

(** [_nack_request] up to its sleep; [2.0 ** attempts] overflows from 1024 attempts on. *)
Definition nack_start (now : Q) (t : NackTask) (rt : EventRouter) : result EventRouter :=
  p ← two_pow (er_nack_attempts rt);
  let delay := Qmin_py _nack_cap_seconds (_nack_base_seconds * p)%Q in
  Ok {| er_replica := er_replica rt; er_nack_cancel_scope := Some (nt_id t);
        er_nack_attempts := S (er_nack_attempts rt);
        er_tasks := replace_task
          {| nt_id := nt_id t; nt_since := Z.max 0 (nt_since t);
             nt_phase := NackSleeping (now + delay)%Q; nt_cancel_called := nt_cancel_called t |}
          (er_tasks rt);
        er_spawned := er_spawned rt; er_requests := er_requests rt |}.

(** The end of a task, with what it sends; [finally] clears the router's scope if it is its own. *)
Definition nack_end (t : NackTask) (sent : list Z) (rt : EventRouter) : EventRouter :=
  {| er_replica := er_replica rt;
     er_nack_cancel_scope :=
       if bool_decide (er_nack_cancel_scope rt = Some (nt_id t)) then None
       else er_nack_cancel_scope rt;
     er_nack_attempts := er_nack_attempts rt;
     er_tasks := List.filter (λ x, negb (Nat.eqb (nt_id x) (nt_id t))) (er_tasks rt);
     er_spawned := er_spawned rt; er_requests := er_requests rt ++ sent |}.

(** What can happen to a router: an event arrives, or a task runs to its next await or its end. *)
Inductive RouterLabel :=
| Inbound (g : GlobalForwarderEvent)
| NackStart (now : Q) (id : nat)
| NackSend (now : Q) (id : nat)
| NackCancelled (id : nat).

Definition not_enabled : exn := OtherError "not enabled" "".

Definition router_step (rt : EventRouter) (l : RouterLabel) : result EventRouter :=
  match l with
  | Inbound g => router_receive rt g
  | NackStart now id =>
      match nack_task id rt with
      | Some t => match nt_phase t with NackSpawned => nack_start now t rt | _ => Err not_enabled end
      | None => Err not_enabled
      end
  | NackSend now id =>
      match nack_task id rt with
      | Some t =>
          match nt_phase t with
          | NackSleeping until =>
              if negb (nt_cancel_called t) && Qle_bool until now
              then Ok (nack_end t [nt_since t] rt) else Err not_enabled
          | NackSpawned => Err not_enabled
          end
      | None => Err not_enabled
      end
  | NackCancelled id =>
      match nack_task id rt with
      | Some t =>
          match nt_phase t with
          | NackSleeping _ => if nt_cancel_called t then Ok (nack_end t [] rt) else Err not_enabled
          | NackSpawned => Err not_enabled
          end
      | None => Err not_enabled
      end
  end.
End replica.
End replication.
