(* ===== verification/ReplicationProps.v ===== *)
(** * Replicas follow the master

    Whatever order, duplication and gaps the network makes of the master's events, a replica's
    state is the replay of a prefix of the master's log, and it can always catch up. *)
From Stdlib Require Import Ascii QArith.
From S2P Require Import Prelude.
From S2P Require Import PyStr.
From S2P Require Import PyVal.
From S2P Require Import EventBuffer.
From S2P Require Import Topology.
From S2P Require Import RuntimeState.
From S2P Require Import Replication.
Local Open Scope Z_scope.
Set Default Proof Using "Type".

(** ** Events and two views of a state *)

(** The order of a set is some order of its elements. *)
Definition order_ok (o : gset string → list string) : Prop := ∀ s, o s ≡ₚ elements s.

(** A state with other times and other cycles. *)
Definition view (l : gmap string Z) (c : list (list string)) (s : State) : State :=
  set_last_seen l (set_thunderbolt_bridge_cycles c s).

Section views.
Context (fromisoformat : string → result Z).
Context (simple_cycles : list string → list Connection → list (list string)).
Context (o1 o2 : gset string → list string) (Ho1 : order_ok o1) (Ho2 : order_ok o2).

Local Abbreviation apply1 := (event_apply fromisoformat simple_cycles o1).
Local Abbreviation apply2 := (event_apply fromisoformat simple_cycles o2).

Lemma bridge_edges_set keep keep' ips l : keep = keep' → bridge_edges keep ips l = bridge_edges keep' ips l.
Proof. by intros ->. Qed.

(** The search for cycles fails for both orders or for neither. *)
Lemma bridge_cycles_both status network t cycles :
  get_thunderbolt_bridge_cycles simple_cycles o1 status network t = Ok cycles →
  ∃ cycles', get_thunderbolt_bridge_cycles simple_cycles o2 status network t = Ok cycles'.
Proof using Ho1 Ho2.
  unfold get_thunderbolt_bridge_cycles. destruct (_ <? _)%nat; [eauto|].
  set (enabled := dom _). intros [edges [He _]]%bind_ok.
  rewrite (bridge_edges_set _ (list_to_set (filter (λ n, n ∈ nodes t) (o1 enabled)))).
  - rewrite He. eauto.
  - apply leibniz_equiv, list_to_set_perm. unfold order_ok in *. by rewrite (Ho1 enabled), (Ho2 enabled).
Qed.

(** What an event does to the times. *)
Definition seen_after (e : Event) (l : gmap string Z) : gmap string Z :=
  match e with
  | NodeTimedOut n => delete n l
  | NodeGatheredInfo n w _ =>
      match fromisoformat w with Ok t => <[n := t]> l | Err _ => l end
  | _ => l
  end.

(** The same event up to the time of a report. *)
Definition restamped (e e' : Event) : Prop :=
  e' = e ∨ ∃ n w w' info t, e = NodeGatheredInfo n w info ∧ e' = NodeGatheredInfo n w' info
                            ∧ fromisoformat w' = Ok t.

Lemma apply_info_view n info l c s s1 :
  apply_info simple_cycles o1 n info s = Ok s1 →
  ∃ c', apply_info simple_cycles o2 n info (view l c s) = Ok (view l c' s1).
Proof using Ho1 Ho2.
  destruct info; cbn [apply_info]; try (intros [= <-]; exists c; reflexivity).
  intros [cycles [Hc [= <-]]]%bind_ok. cbn [node_thunderbolt_bridge view set_last_seen
    set_thunderbolt_bridge_cycles node_network topology thunderbolt_bridge_cycles].
  destruct (eqb _ _); [exists c; reflexivity|].
  apply bridge_cycles_both in Hc as [cycles' ->]. exists cycles'. reflexivity.
Qed.

Lemma apply_info_seen o n info s s1 :
  apply_info simple_cycles o n info s = Ok s1 → last_seen s1 = last_seen s.
Proof.
  destruct info; cbn [apply_info]; try (by intros [= <-]). by intros [cycles [Hc [= <-]]]%bind_ok.
Qed.

Lemma event_apply_view e e' l c s s1 :
  restamped e e' → apply1 e s = Ok s1 →
  ∃ c', apply2 e' (view l c s) = Ok (view (seen_after e' l) c' s1).
Proof using Ho1 Ho2.
  assert (∀ n w' info t s s1, fromisoformat w' = Ok t →
    (∃ seen, apply_info simple_cycles o1 n info
       (set_topology (add_node n (topology s)) (set_last_seen (<[n := seen]> (last_seen s)) s)) = Ok s1) →
    ∃ c', apply_node_gathered_info fromisoformat simple_cycles o2 n w' info (view l c s)
          = Ok (view (<[n := t]> l) c' s1)) as Hinfo.
  { intros n w' info t s0 s2 Hw [seen Happ]. unfold apply_node_gathered_info. rewrite Hw.
    apply (apply_info_view _ _ (<[n := t]> l) c) in Happ as [c' Happ]. exists c'. exact Happ. }
  intros [->|(n & w & w' & info & t & -> & -> & Hw)].
  - destruct e; cbn [event_apply seen_after]; try (intros [= <-]; exists c; reflexivity).
    + (* status *) intros [= <-]. exists c. unfold apply_task_status_updated. cbn. by case_match.
    + intros [= <-]. exists c. unfold apply_task_failed. cbn. by case_match.
    + intros [= <-]. exists c. unfold apply_runner_status_updated. by case_match.
    + (* timed out *) intros [cycles [Hc [= <-]]]%bind_ok. unfold apply_node_timed_out.
      cbn [node_thunderbolt_bridge view set_last_seen set_thunderbolt_bridge_cycles node_network
           topology thunderbolt_bridge_cycles].
      destruct (match node_thunderbolt_bridge s !! node_id with Some st => tb_enabled st | None => false end).
      * apply bridge_cycles_both in Hc as [cycles' ->]. exists cycles'. reflexivity.
      * exists c. reflexivity.
    + (* gathered *) intros [seen [Hs Happ]]%bind_ok. rewrite Hs. by apply (Hinfo _ _ _ seen); [|exists seen].
  - intros [seen [Hs Happ]]%bind_ok. cbn [event_apply seen_after]. rewrite Hw.
    by apply (Hinfo _ _ _ t); [|exists seen].
Qed.

Lemma event_apply_seen o e s s1 :
  event_apply fromisoformat simple_cycles o e s = Ok s1 →
  last_seen s1 = seen_after e (last_seen s)
  ∧ last_event_applied_idx s1 = last_event_applied_idx s.
Proof.
  destruct e; cbn [event_apply seen_after]; try (by intros [= <-]).
  - intros [= <-]. unfold apply_task_status_updated. by case_match.
  - intros [= <-]. unfold apply_task_failed. by case_match.
  - intros [= <-]. unfold apply_runner_status_updated. by case_match.
  - by intros [cycles [_ [= <-]]]%bind_ok.
  - intros [seen [Hs Happ]]%bind_ok. rewrite Hs. split; [by apply apply_info_seen in Happ|].
    destruct info; cbn [apply_info] in Happ; try (by injection Happ as <-).
    by apply bind_ok in Happ as [cycles [_ [= <-]]].
Qed.

Lemma apply_view idx e e' l c s s1 :
  restamped e e' → apply fromisoformat simple_cycles o1 s idx e = Ok s1 →
  ∃ c', apply fromisoformat simple_cycles o2 (view l c s) idx e' = Ok (view (seen_after e' l) c' s1).
Proof using Ho1 Ho2.
  unfold apply. cbn [last_event_applied_idx view set_last_seen set_thunderbolt_bridge_cycles].
  destruct (_ =? _); [|done]. intros He [s0 [Hs [= <-]]]%bind_ok.
  apply (event_apply_view _ _ l c _ _ He) in Hs as [c' ->]. by exists c'.
Qed.

Lemma apply_seen o idx e s s1 :
  apply fromisoformat simple_cycles o s idx e = Ok s1 →
  last_seen s1 = seen_after e (last_seen s) ∧ last_event_applied_idx s1 = idx
  ∧ last_event_applied_idx s = idx - 1.
Proof.
  unfold apply. destruct (Z.eqb_spec (last_event_applied_idx s) (idx - 1)) as [Hidx|]; [|done].
  intros [s0 [Hs [= <-]]]%bind_ok. apply event_apply_seen in Hs as [Hseen _]. cbn. done.
Qed.
End views.

(** ** Replaying a log *)

Lemma imap_shift {A B} (f : nat → A → B) (l : list A) x :
  imap f (l ++ [x]) = imap f l ++ [f (length l) x].
Proof. rewrite imap_app. cbn. by rewrite Nat.add_0_r. Qed.

Section replay.
Context (fromisoformat : string → result Z).
Context (simple_cycles : list string → list Connection → list (list string)).

(** What a log is supposed to mean: its events applied in order to the initial state. *)
Definition replay (o : gset string → list string) (log : list EventMsg) : result State :=
  apply_released fromisoformat simple_cycles o initial_state (imap (λ i e, (Z.of_nat i, e)) log).

Lemma replay_snoc o log e :
  replay o (log ++ [e])
  = s ← replay o log; apply fromisoformat simple_cycles o s (Z.of_nat (length log)) e.2.
Proof.
  unfold replay, apply_released. rewrite imap_shift, foldM_app.
  destruct (foldM _ _ _); cbn; [|done]. by destruct (apply _ _ _ _ _ _).
Qed.

Lemma replay_idx o log s :
  replay o log = Ok s → last_event_applied_idx s = Z.of_nat (length log) - 1.
Proof.
  destruct log as [|e log _] using rev_ind; [by intros [= <-]|].
  rewrite replay_snoc. intros (s0 & _ & Hs)%bind_ok. apply apply_seen in Hs as (_ & -> & _).
  rewrite length_app. cbn. lia.
Qed.

(** A log that some node can replay can be replayed by any, up to its prefixes, with the same
    state but for the cycles. *)
Lemma replay_other o1 o2 log s :
  order_ok o1 → order_ok o2 → replay o1 log = Ok s →
  ∃ c, replay o2 log = Ok (set_thunderbolt_bridge_cycles c s).
Proof.
  intros Ho1 Ho2. revert s. induction log as [|e log IH] using rev_ind; intros s.
  - intros [= <-]. by exists [].
  - rewrite !replay_snoc. intros (s0 & Hlog & Hs)%bind_ok. destruct (IH _ Hlog) as [c ->].
    pose proof Hs as (Hseen & _ & _)%apply_seen.
    destruct (apply_view fromisoformat simple_cycles o1 o2 Ho1 Ho2 _ e.2 e.2 (last_seen s0) c s0 s
      (or_introl eq_refl) Hs) as [c' Hs'].
    exists c'. rewrite <- Hseen in Hs'. destruct s0, s. exact Hs'.
Qed.

Lemma replay_prefix o log n s :
  replay o log = Ok s → ∃ s', replay o (take n log) = Ok s'.
Proof.
  rewrite <- (take_drop n log) at 1. generalize (drop n log). intros l. revert s.
  induction l as [|e l IH] using rev_ind; intros s.
  - rewrite app_nil_r. eauto.
  - rewrite app_assoc, replay_snoc. intros (s0 & H0 & _)%bind_ok. eauto.
Qed.
End replay.

(** ** The master *)

Lemma foldM_preserves {A B} (P : B → Prop) (f : B → A → result B) b l b' :
  (∀ b x b', P b → f b x = Ok b' → P b') → P b → foldM f b l = Ok b' → P b'.
Proof.
  intros Hf. revert b. induction l as [|x l IH]; intros b Hb; cbn; [by intros [= <-]|].
  destruct (f b x) eqn:E; [|done]. eauto.
Qed.

Section follow.
Context (fromisoformat : string → result Z).
Context (simple_cycles : list string → list Connection → list (list string)).
Context (clock : nat → string) (Hclock : ∀ n, is_ok (fromisoformat (clock n)) = true).
Context (o1 o2 : gset string → list string) (Ho1 : order_ok o1) (Ho2 : order_ok o2).

Local Abbreviation receive := (master_receive fromisoformat simple_cycles clock o1).
Local Abbreviation follow := (replica_receive fromisoformat simple_cycles o2).
Local Abbreviation replay1 := (replay fromisoformat simple_cycles o1).
Local Abbreviation replay2 := (replay fromisoformat simple_cycles o2).

(** The master's log replays to its state, and it has sent its log. *)
Record master_ok (node : string) (m : Master) : Prop := {
  mo_node : ms_node_id m = node;
  mo_replay : ∃ l c, replay1 (ms_log m) = Ok (view l c (ms_state m));
  mo_sent : ms_sent m = imap (λ i e, global_event node (Z.of_nat i) e) (ms_log m)
}.

Lemma stamp_restamped n e : restamped fromisoformat e.2 (stamp (clock n) e).2.
Proof using Hclock.
  destruct e as [id ev]. destruct ev; cbn; try by left. right.
  specialize (Hclock n). destruct (fromisoformat (clock n)) as [t|] eqn:E; [|done].
  by exists node_id, when_, (clock n), info, t.
Qed.

Lemma master_index_ok node m e m' :
  master_ok node m → master_index fromisoformat simple_cycles clock o1 m e = Ok m' → master_ok node m'.
Proof using Hclock Ho1.
  intros [Hnode (l & c & Hre) Hsent] H.
  assert (∀ m', (state ← apply fromisoformat simple_cycles o1 (ms_state m) (Z.of_nat (length (ms_log m))) e.2;
    let e := stamp (clock (length (ms_log m))) e in
    Ok {| ms_node_id := ms_node_id m; ms_state := state; ms_log := ms_log m ++ [e];
          ms_buffer := ms_buffer m; ms_pending_traces := ms_pending_traces m;
          ms_expected_ranks := ms_expected_ranks m;
          ms_sent := ms_sent m ++ [global_event (ms_node_id m) (Z.of_nat (length (ms_log m))) e];
          ms_emitted := ms_emitted m |}) = Ok m' → master_ok node m') as Hstep.
  { clear m' H. intros m' [s [Hs [= <-]]]%bind_ok. constructor; cbn [ms_node_id ms_log ms_state ms_sent]; [done| |].
    - destruct (apply_view fromisoformat simple_cycles o1 o1 Ho1 Ho1 _ e.2 _ l c _ _
        (stamp_restamped (length (ms_log m)) e) Hs) as [c' Hs'].
      eexists _, c'. rewrite replay_snoc, Hre. cbn [mbind result_bind]. exact Hs'.
    - by rewrite imap_shift, Hsent, Hnode. }
  unfold master_index in H. destruct e as [id ev]. cbn [snd] in *.
  destruct ev; try (by apply Hstep). injection H as <-. constructor; cbn; eauto.
Qed.

Lemma master_receive_ok node locals m :
  foldM receive (new_master node) locals = Ok m → master_ok node m.
Proof using Hclock Ho1.
  apply foldM_preserves.
  - intros m0 l m1 Hm. unfold master_receive. destruct (negb _); [by intros [= <-]|].
    intros (b & _ & H)%bind_ok. destruct (ms_drain b) as [released b'].
    eapply foldM_preserves; [|..|exact H].
    + intros m2 e m3 Hm2. by apply master_index_ok.
    + destruct Hm. by constructor.
  - constructor; [done| |done]. by exists ∅, [].
Qed.

(** ** Replicas *)

(** What reaches a replica is lost, repeated and reordered, but not made up: what it accepts is
    in the master's log at the index it carries. *)
Definition genuine (m : Master) (g : GlobalForwarderEvent) : Prop :=
  accepts (ms_node_id m) g = true →
  ∃ i, gf_origin_idx g = Z.of_nat i ∧ ms_log m !! i = Some (gf_event g).

Definition arrivals (master : string) (gs : list GlobalForwarderEvent) : list Z :=
  map gf_origin_idx (filter (λ g, accepts master g = true) gs).

(** The log as the stream the replica's buffer puts in order. *)
Definition no_event : EventMsg := ("", TestEvent).

Definition stream (m : Master) (i : Z) : EventMsg := default no_event (ms_log m !! Z.to_nat i).

Record replica_ok (m : Master) (gs : list GlobalForwarderEvent) (r : Replica) : Prop := {
  ro_master : rp_master r = ms_node_id m;
  ro_buffer : ∃ ops, arrived ops = arrivals (ms_node_id m) gs
    ∧ resequenced (stream m) ops
        (prefix_of (stream m) (Z.to_nat (next_idx_to_release (rp_buffer r)))) (rp_buffer r);
  ro_state : apply_released fromisoformat simple_cycles o2 initial_state
    (prefix_of (stream m) (Z.to_nat (next_idx_to_release (rp_buffer r)))) = Ok (rp_state r);
  ro_drained : store (rp_buffer r) !! next_idx_to_release (rp_buffer r) = None
}.

Lemma stream_genuine m g :
  genuine m g → accepts (ms_node_id m) g = true → gf_event g = stream m (gf_origin_idx g).
Proof.
  intros Hg Ha. destruct (Hg Ha) as (i & -> & Hi). unfold stream. by rewrite Nat2Z.id, Hi.
Qed.

Lemma prefix_of_log m n :
  (n ≤ length (ms_log m))%nat →
  prefix_of (stream m) n = imap (λ i e, (Z.of_nat i, e)) (take n (ms_log m)).
Proof.
  intros Hn. apply list_eq. intros i. unfold prefix_of. rewrite list_lookup_imap.
  change (map ?f ?l) with (f <$> l). rewrite list_lookup_fmap.
  destruct (decide (i < n)%nat) as [Hi|Hi].
  - rewrite lookup_seq_lt, lookup_take_lt by done. cbn [fmap option_fmap option_map].
    destruct (lookup_lt_is_Some_2 (ms_log m) i) as [e He]; [lia|]. cbn [Nat.add].
    unfold stream. by rewrite Nat2Z.id, He.
  - rewrite lookup_seq_ge, lookup_take_ge by lia. done.
Qed.

(** The master's log gives every replica a state for each of its prefixes. *)
Lemma prefix_state node m n :
  master_ok node m → (n ≤ length (ms_log m))%nat →
  ∃ s, apply_released fromisoformat simple_cycles o2 initial_state (prefix_of (stream m) n) = Ok s.
Proof using Ho1 Ho2.
  intros [_ (l & c & Hre) _] Hn. rewrite prefix_of_log by done.
  destruct (replay_other _ _ _ _ _ _ Ho1 Ho2 Hre) as [c' Hre'].
  by destruct (replay_prefix _ _ _ _ n _ Hre') as [s Hs]; exists s.
Qed.

Lemma arrivals_snoc master gs g :
  arrivals master (gs ++ [g])
  = arrivals master gs ++ if accepts master g then [gf_origin_idx g] else [].
Proof.
  unfold arrivals. rewrite filter_app, map_app. f_equal. rewrite filter_cons. by destruct (accepts _ g).
Qed.

Lemma arrivals_in_log m gs i :
  Forall (genuine m) gs → i ∈ arrivals (ms_node_id m) gs → 0 ≤ i < Z.of_nat (length (ms_log m)).
Proof.
  intros Hgs. unfold arrivals. change (map ?f ?l) with (f <$> l).
  intros (g & -> & [Ha Hg]%list_elem_of_filter)%list_elem_of_fmap.
  eapply Forall_forall in Hgs; [|exact Hg]. destruct (Hgs Ha) as (j & -> & Hj).
  apply lookup_lt_Some in Hj. lia.
Qed.

(** Every index a buffer has passed has arrived, so it has not passed the log. *)
Lemma buffer_in_log m gs ops out b :
  Forall (genuine m) gs → arrived ops = arrivals (ms_node_id m) gs → resequenced (stream m) ops out b →
  0 ≤ next_idx_to_release b ≤ Z.of_nat (length (ms_log m))
  ∧ out = prefix_of (stream m) (Z.to_nat (next_idx_to_release b)).
Proof.
  intros Hgs Hops [(n & Hn & ->) _ Harr]. rewrite Hn, Nat2Z.id. split; [|done]. split; [lia|].
  destruct n as [|n]; [lia|]. assert (Z.of_nat n ∈ arrived ops) as Hin by (apply Harr; lia).
  rewrite Hops in Hin. apply arrivals_in_log in Hin; [lia|done].
Qed.

Lemma new_replica_ok m : replica_ok m [] (new_replica (ms_node_id m)).
Proof.
  constructor; cbn; try done. exists []. split; [done|]. constructor; cbn; [by exists 0%nat| |lia].
  intros i. rewrite decide_False; [done|]. intros [_ Hin]. by apply not_elem_of_nil in Hin.
Qed.

(** One more event keeps a replica well and never fails. *)
Lemma replica_step node m gs r g :
  master_ok node m → Forall (genuine m) (gs ++ [g]) → replica_ok m gs r →
  ∃ r', follow r g = Ok r' ∧ replica_ok m (gs ++ [g]) r'.
Proof using Ho1 Ho2.
  intros Hm Hgs [Hmaster (ops & Hops & Hbuf) Hstate Hdrained]. unfold replica_receive. rewrite Hmaster.
  destruct (accepts (ms_node_id m) g) eqn:Ha; cbn [negb].
  2:{ exists r. split; [done|]. constructor; [done| |done..]. exists ops.
      by rewrite arrivals_snoc, Ha, app_nil_r. }
  assert (genuine m g) as Hg by (eapply Forall_forall; [exact Hgs|]; apply elem_of_app; right; by left).
  rewrite (stream_genuine m g Hg Ha).
  destruct (resequenced_step _ _ (Arrive (gf_origin_idx g)) _ _ Hbuf) as (out1 & b1 & Hstep1 & Hbuf1).
  apply bind_ok in Hstep1 as (b1' & Hin & [= <- ->]). cbn [snd] in Hin. rewrite Hin.
  destruct (resequenced_step _ _ Drain _ _ Hbuf1) as (out2 & b2 & Hstep2 & Hbuf2).
  cbn [mbind result_bind]. cbn [buffer_step fst snd] in Hstep2.
  pose proof (rl_stop _ _ _ (drain_indexed_released b1)) as Hstop.
  destruct (drain_indexed b1) as [ret b2'] eqn:Edrain. injection Hstep2 as <- ->.
  assert (arrived ((ops ++ [Arrive (gf_origin_idx g)]) ++ [Drain]) = arrivals (ms_node_id m) (gs ++ [g])) as Hops2
    by by rewrite !arrived_snoc, arrivals_snoc, Ha, app_nil_r, Hops.
  destruct (buffer_in_log _ _ _ _ _ Hgs Hops2 Hbuf2) as [Hlen Hout].
  destruct (prefix_state _ _ (Z.to_nat (next_idx_to_release b2)) Hm) as [s Hs]; [lia|].
  rewrite <- Hout in Hs. pose proof Hs as Hs'. unfold apply_released in Hs'. rewrite foldM_app in Hs'.
  fold (apply_released fromisoformat simple_cycles o2 initial_state
    (prefix_of (stream m) (Z.to_nat (next_idx_to_release (rp_buffer r))))) in Hs'.
  rewrite Hstate in Hs'. cbn [mbind result_bind] in Hs'.
  unfold apply_released at 1. rewrite Hs'. eexists. split; [reflexivity|].
  constructor; cbn [rp_master rp_buffer rp_state]; [done| |by rewrite <- Hout|exact Hstop].
  eexists. split; [exact Hops2|]. by rewrite <- Hout.
Qed.

Lemma replica_steps node m gs' : ∀ gs r,
  master_ok node m → Forall (genuine m) (gs ++ gs') → replica_ok m gs r →
  ∃ r', foldM follow r gs' = Ok r' ∧ replica_ok m (gs ++ gs') r'.
Proof using Ho1 Ho2.
  induction gs' as [|g gs' IH]; intros gs r Hm Hgs Hr; cbn [foldM].
  - exists r. by rewrite app_nil_r.
  - rewrite cons_middle, app_assoc in *.
    destruct (replica_step node m gs r g Hm) as (r1 & -> & Hr1); [|done|by apply IH].
    by apply Forall_app in Hgs as [? _].
Qed.

(** What a replica's state is: the replay of the log up to the first event it lacks. *)
Lemma replica_state node m gs r :
  master_ok node m → Forall (genuine m) gs → replica_ok m gs r →
  let n := Z.to_nat (next_idx_to_release (rp_buffer r)) in
  (n ≤ length (ms_log m))%nat
  ∧ (∀ i, (i < n)%nat → Z.of_nat i ∈ arrivals (ms_node_id m) gs)
  ∧ (Z.of_nat n ∉ arrivals (ms_node_id m) gs)
  ∧ last_event_applied_idx (rp_state r) = Z.of_nat n - 1
  ∧ (∃ s c, replay1 (take n (ms_log m)) = Ok s ∧ rp_state r = set_thunderbolt_bridge_cycles c s)
  ∧ (n = length (ms_log m) → ∃ l c, rp_state r = view l c (ms_state m)).
Proof using Ho1 Ho2.
  intros Hm Hgs [Hmaster (ops & Hops & Hbuf) Hstate Hdrained] n.
  destruct (buffer_in_log _ _ _ _ _ Hgs Hops Hbuf) as [Hlen _].
  assert (n ≤ length (ms_log m))%nat as Hn by (unfold n; lia).
  assert (next_idx_to_release (rp_buffer r) = Z.of_nat n) as Hnext by (unfold n; lia).
  fold n in Hstate. rewrite prefix_of_log in Hstate by done.
  pose proof (mo_replay _ _ Hm) as (l & c & Hre).
  destruct (replay_prefix _ _ _ _ n _ Hre) as [s Hs].
  destruct (replay_other _ _ _ _ _ _ Ho1 Ho2 Hs) as [c' Hs']. unfold replay in Hs'.
  rewrite Hs' in Hstate. injection Hstate as Hst.
  split_and!; [done| | | | |].
  - intros i Hi. rewrite <- Hops. apply (rs_arrived _ _ _ _ Hbuf). lia.
  - rewrite <- Hops. intros Hin. pose proof (rs_store _ _ _ _ Hbuf (Z.of_nat n)) as Hst'.
    rewrite <- Hnext, Hdrained, Hnext, decide_True in Hst'; [done|]. split; [lia|done].
  - rewrite <- Hst. change (last_event_applied_idx (set_thunderbolt_bridge_cycles c' s))
      with (last_event_applied_idx s).
    rewrite (replay_idx _ _ _ _ _ Hs), length_take. lia.
  - eauto.
  - intros Hfull. rewrite Hfull, firstn_all, Hre in Hs. injection Hs as <-. exists l, c'. by rewrite <- Hst.
Qed.

(** The replica has passed every index all of whose predecessors arrived. *)
Lemma replica_passed node m gs r k :
  master_ok node m → Forall (genuine m) gs → replica_ok m gs r →
  (∀ i, (i < k)%nat → Z.of_nat i ∈ arrivals (ms_node_id m) gs) →
  (k ≤ Z.to_nat (next_idx_to_release (rp_buffer r)))%nat.
Proof using Ho1 Ho2.
  intros Hm Hgs Hr Hall. destruct (replica_state _ _ _ _ Hm Hgs Hr) as (_ & _ & Hno & _).
  destruct (Nat.le_gt_cases k (Z.to_nat (next_idx_to_release (rp_buffer r)))) as [|Hlt]; [done|].
  by destruct Hno; apply Hall.
Qed.

(** ** Catching up *)

Lemma resend_lookup batch since m j :
  resend batch since m !! j
  = if decide (j < batch)%nat
    then global_event (ms_node_id m) (Z.of_nat (since + j)) <$> ms_log m !! (since + j)%nat else None.
Proof.
  unfold resend. rewrite list_lookup_imap. case_decide.
  - by rewrite lookup_take_lt, lookup_drop.
  - by rewrite lookup_take_ge by lia.
Qed.

Lemma accepts_global node i e : accepts node (global_event node i e) = true.
Proof. unfold accepts. cbn. by rewrite String.eqb_refl. Qed.

Lemma resend_genuine batch since m : Forall (genuine m) (resend batch since m).
Proof.
  apply Forall_lookup. intros j g. rewrite resend_lookup. case_decide; [|done].
  intros (e & He & ->)%fmap_Some _. by exists (since + j)%nat.
Qed.

Lemma resend_arrives batch since m i :
  (since ≤ i < since + batch)%nat → (i < length (ms_log m))%nat →
  Z.of_nat i ∈ arrivals (ms_node_id m) (resend batch since m).
Proof.
  intros Hi Hlen. destruct (lookup_lt_is_Some_2 _ _ Hlen) as [e He].
  unfold arrivals. change (map ?f ?l) with (f <$> l). apply list_elem_of_fmap.
  exists (global_event (ms_node_id m) (Z.of_nat i) e). split; [done|].
  apply list_elem_of_filter. split; [apply accepts_global|].
  apply list_elem_of_lookup. exists (i - since)%nat. rewrite resend_lookup, decide_True by lia.
  replace (since + (i - since))%nat with i by lia. by rewrite He.
Qed.

Lemma drain_nothing {T} `{EqDecision T} (b : OrderedBuffer T) :
  store b !! next_idx_to_release b = None → drain_indexed b = ([], b).
Proof. intros Hb. unfold drain_indexed, drain_fuel. cbn. by rewrite Hb. Qed.

(** ** Runs of the router *)

Local Abbreviation router_step := (router_step fromisoformat simple_cycles o2).

Definition router_run (rt : EventRouter) (ls : list RouterLabel) : result EventRouter :=
  foldM router_step rt ls.

(** The events that arrive in a run. *)
Definition inbound (ls : list RouterLabel) : list GlobalForwarderEvent :=
  omap (M := list) (λ l, match l with Inbound g => Some g | _ => None end) ls.

Definition next_of (rt : EventRouter) : Z := next_idx_to_release (rp_buffer (er_replica rt)).

(** Tasks have their own numbers, below the next one; the router's scope is that of one of them. *)
Record router_wf (rt : EventRouter) : Prop := {
  rw_ids : NoDup (map nt_id (er_tasks rt));
  rw_spawned : ∀ t, t ∈ er_tasks rt → (nt_id t < er_spawned rt)%nat ∧ 0 ≤ nt_since t;
  rw_scope : ∀ i, er_nack_cancel_scope rt = Some i → i ∈ map nt_id (er_tasks rt);
  rw_next : 0 ≤ next_of rt
}.

Lemma nack_task_some id rt t : nack_task id rt = Some t → t ∈ er_tasks rt ∧ nt_id t = id.
Proof.
  intros [Hin Hid]%List.find_some. split; [by apply list_elem_of_In|by apply Nat.eqb_eq].
Qed.

Lemma nack_task_elem rt t : router_wf rt → t ∈ er_tasks rt → nack_task (nt_id t) rt = Some t.
Proof.
  intros [Hnd _ _] Hin. unfold nack_task. induction (er_tasks rt) as [|x l IH]; [by apply not_elem_of_nil in Hin|].
  cbn in *. apply NoDup_cons in Hnd as [Hx Hnd]. apply elem_of_cons in Hin as [->|Hin]; [by rewrite Nat.eqb_refl|].
  destruct (Nat.eqb_spec (nt_id x) (nt_id t)) as [E|_]; [|by apply IH].
  destruct Hx. rewrite E. by apply list_elem_of_fmap_2.
Qed.

Lemma replace_ids t l : map nt_id (replace_task t l) = map nt_id l.
Proof.
  unfold replace_task. rewrite map_map. apply map_ext_in. intros x _.
  by destruct (Nat.eqb_spec (nt_id x) (nt_id t)).
Qed.

Lemma cancel_ids i l : map nt_id (map (cancel_task i) l) = map nt_id l.
Proof. rewrite map_map. by apply map_ext_in. Qed.

Lemma ids_elem (l : list NackTask) i : i ∈ map nt_id l ↔ ∃ t, t ∈ l ∧ nt_id t = i.
Proof. change (map nt_id l) with (nt_id <$> l). rewrite list_elem_of_fmap. naive_solver. Qed.

Lemma filter_ids (t : NackTask) l i :
  i ∈ map nt_id (List.filter (λ x, negb (Nat.eqb (nt_id x) (nt_id t))) l) ↔ i ∈ map nt_id l ∧ i ≠ nt_id t.
Proof.
  rewrite !ids_elem. setoid_rewrite list_elem_of_In. setoid_rewrite filter_In.
  setoid_rewrite negb_true_iff. setoid_rewrite Nat.eqb_neq. naive_solver.
Qed.

Lemma new_router_wf master : router_wf (new_router master).
Proof. constructor; cbn; [constructor|by intros t ?%not_elem_of_nil|done|done]. Qed.

(** What steps do to the tasks as long as the next index stays the same: nobody is cancelled, new
    tasks ask for the next index, a task that is gone has sent its request or was cancelled. *)
Record quiet (rt rt' : EventRouter) : Prop := {
  qt_spawned : (er_spawned rt ≤ er_spawned rt')%nat;
  qt_requests : ∃ l, er_requests rt' = er_requests rt ++ l;
  qt_tasks : ∀ t, t ∈ er_tasks rt' →
    (er_spawned rt ≤ nt_id t)%nat ∧ nt_since t = next_of rt
    ∨ ∃ t0, t0 ∈ er_tasks rt ∧ nt_id t0 = nt_id t ∧ nt_since t0 = nt_since t;
  qt_gone : ∀ t, t ∈ er_tasks rt → nt_cancel_called t = false →
    (∃ t', t' ∈ er_tasks rt' ∧ nt_id t' = nt_id t ∧ nt_since t' = nt_since t ∧ nt_cancel_called t' = false)
    ∨ nt_since t ∈ drop (length (er_requests rt)) (er_requests rt')
}.

Lemma quiet_refl rt : quiet rt rt.
Proof.
  constructor; [done|exists []; by rewrite app_nil_r| |].
  - intros t Ht. right. by exists t.
  - intros t Ht Hc. left. by exists t.
Qed.

Lemma quiet_trans rt rt1 rt2 : next_of rt1 = next_of rt → quiet rt rt1 → quiet rt1 rt2 → quiet rt rt2.
Proof.
  intros Hn [Hs (l & Hr) Ht Hg] [Hs' (l' & Hr') Ht' Hg']. constructor.
  - lia.
  - exists (l ++ l'). by rewrite Hr', Hr, app_assoc.
  - intros t Hin. apply Ht' in Hin as [[Hge Hsince]|(t1 & Hin & Hid & Hsince)].
    + left. split; [lia|congruence].
    + apply Ht in Hin as [[Hge Hsince1]|(t0 & Hin & Hid0 & Hsince0)].
      * left. split; [lia|congruence].
      * right. exists t0. split_and!; [done|congruence..].
  - intros t Hin Hc. apply Hg in Hin as [(t1 & Hin & Hid & Hsince & Hc1)|Hin]; [|right|done].
    + apply Hg' in Hin as [(t2 & Hin & ? & ? & ?)|Hin]; [left|right|done].
      * exists t2. split_and!; congruence.
      * rewrite <- Hsince, Hr'. rewrite Hr' in Hin. rewrite drop_app_length in Hin.
        rewrite Hr, <- app_assoc, drop_app_length. apply elem_of_app. by right.
    + rewrite Hr', Hr, <- app_assoc, drop_app_length. rewrite Hr, drop_app_length in Hin.
      apply elem_of_app. by left.
Qed.

Lemma router_wf_ids rt rt' :
  router_wf rt → map nt_id (er_tasks rt') = map nt_id (er_tasks rt) → er_spawned rt' = er_spawned rt →
  (∀ t, t ∈ er_tasks rt' → 0 ≤ nt_since t) →
  (∀ i, er_nack_cancel_scope rt' = Some i → i ∈ map nt_id (er_tasks rt)) → 0 ≤ next_of rt' → router_wf rt'.
Proof.
  intros [Hnd Hlt _ _] Hids Hsp Hsi Hsc Hn. constructor; [by rewrite Hids| | |done].
  - intros t Ht. split; [|by apply Hsi]. rewrite Hsp.
    assert (nt_id t ∈ map nt_id (er_tasks rt)) as Hin by (rewrite <- Hids; by apply list_elem_of_fmap_2).
    apply ids_elem in Hin as (x & Hx & <-). by apply Hlt.
  - intros i Hi. rewrite Hids. by apply Hsc.
Qed.

(** An event leaves the next index where it is exactly when it completes nothing. *)
Lemma drained_next r g r' :
  follow r g = Ok r' →
  rp_master r' = rp_master r
  ∧ if accepts (rp_master r) g
    then next_idx_to_release (rp_buffer r') = next_idx_to_release (rp_buffer r) + Z.of_nat (length (drained_by r g))
    else r' = r.
Proof.
  unfold replica_receive, drained_by. destruct (accepts _ _); cbn [negb]; [|by intros [= <-]].
  intros (b & Hin & Hrun)%bind_ok. rewrite Hin. pose proof (rl_next _ _ _ (drain_indexed_released b)) as Hnext.
  destruct (drain_indexed b) as [released b']. apply bind_ok in Hrun as (s & _ & [= <-]). split; [done|].
  cbn in *. rewrite Hnext. f_equal. unfold ingest in Hin.
  repeat case_match; try done; by injection Hin as <-.
Qed.

Lemma router_receive_ok rt g rt' :
  router_wf rt → router_receive fromisoformat simple_cycles o2 rt g = Ok rt' →
  follow (er_replica rt) g = Ok (er_replica rt') ∧ router_wf rt' ∧ next_of rt ≤ next_of rt'
  ∧ (next_of rt' = next_of rt → quiet rt rt'
     ∧ (accepts (rp_master (er_replica rt)) g = true →
        ∃ t, t ∈ er_tasks rt' ∧ nt_cancel_called t = false
          ∧ (nt_since t = next_of rt ∨ t ∈ er_tasks rt))).
Proof.
  intros Hwf. unfold router_receive. intros (r & Hr & Hrun)%bind_ok.
  apply drained_next in Hr as Hd. destruct Hd as [_ Hd].
  pose proof Hwf as [Hnd Hlt Hsc Hn]. unfold next_of in *.
  destruct (accepts _ g); cbn [negb] in Hrun.
  2:{ subst r. assert (rt' = rt) as -> by (injection Hrun as <-; by destruct rt).
      split_and!; [done..|]. intros _. split; [apply quiet_refl|done]. }
  destruct (drained_by _ g) as [|ie released].
  - cbn in Hd. rewrite Z.add_0_r in Hd. destruct (may_request rt) eqn:Hmay; injection Hrun as <-; cbn.
    + split_and!; [done| |lia|].
      * constructor; cbn.
        -- rewrite map_app. apply NoDup_app. split_and!; [done| |apply NoDup_singleton].
           intros i (t & Ht & <-)%ids_elem Hi%list_elem_of_singleton. cbn in Hi. apply Hlt in Ht as [? _]. lia.
        -- intros t [Ht| ->%list_elem_of_singleton]%elem_of_app; cbn; [apply Hlt in Ht as []; lia|].
           unfold next_of in *. lia.
        -- intros i Hi. rewrite map_app. apply elem_of_app. left. by apply Hsc.
        -- unfold next_of. cbn. lia.
      * intros _. split.
        -- constructor; cbn; [lia|exists []; by rewrite app_nil_r| |].
           ++ intros t [Ht| ->%list_elem_of_singleton]%elem_of_app; [right; by exists t|left].
              split; [done|]. unfold next_of. cbn. lia.
           ++ intros t Ht Hc. left. exists t. split_and!; [apply elem_of_app; by left|done..].
        -- intros _. eexists. split; [apply elem_of_app; right; by left|]. split; [done|]. left. cbn. lia.
    + split_and!; [done| |lia|].
      * apply (router_wf_ids rt); try done; [|unfold next_of; cbn; lia]. intros t Ht. by apply Hlt.
      * intros _. split; [|intros _].
        -- constructor; cbn; [lia|exists []; by rewrite app_nil_r| |].
           ++ intros t Ht. right. by exists t.
           ++ intros t Ht Hc. left. by exists t.
        -- unfold may_request in Hmay. destruct (er_nack_cancel_scope rt) as [i|] eqn:Hi; [|done].
           destruct (nack_task i rt) as [t|] eqn:Ht; [|done]. apply nack_task_some in Ht as [Ht _].
           exists t. split_and!; [done|done|by right].
  - injection Hrun as <-. cbn [er_replica]. split_and!; [done| |cbn in Hd; lia|cbn in Hd; intros; exfalso; lia].
    apply (router_wf_ids rt); cbn; try done; [| |unfold next_of; cbn; lia].
    + destruct (er_nack_cancel_scope rt); [apply cancel_ids|done].
    + intros t Ht. destruct (er_nack_cancel_scope rt); [|by apply Hlt].
      apply list_elem_of_fmap in Ht as (x & -> & Hx). cbn. by apply Hlt.
Qed.

Lemma elem_replace t' t l : t' ∈ replace_task t l ↔ (t' = t ∧ nt_id t ∈ map nt_id l) ∨ (t' ∈ l ∧ nt_id t' ≠ nt_id t).
Proof.
  unfold replace_task. change (map ?f l) with (f <$> l) at 1. rewrite list_elem_of_fmap, ids_elem. split.
  - intros (x & -> & Hx). destruct (Nat.eqb_spec (nt_id x) (nt_id t)); [left|right]; [split; [done|by exists x]|done].
  - intros [(-> & x & Hx & Hid)|[Hx Hid]].
    + exists x. by rewrite (proj2 (Nat.eqb_eq _ _) Hid).
    + exists t'. by rewrite (proj2 (Nat.eqb_neq _ _) Hid).
Qed.

Lemma task_unique rt t t' : router_wf rt → t ∈ er_tasks rt → t' ∈ er_tasks rt → nt_id t = nt_id t' → t = t'.
Proof.
  intros Hwf Ht Ht' E. apply (nack_task_elem rt) in Ht, Ht'; [|done..]. congruence.
Qed.

Lemma nack_start_ok rt now t rt' :
  router_wf rt → t ∈ er_tasks rt → nack_start now t rt = Ok rt' →
  er_replica rt' = er_replica rt ∧ router_wf rt' ∧ quiet rt rt'.
Proof.
  intros Hwf Ht (p & _ & [= <-])%bind_ok. pose proof Hwf as [Hnd Hlt Hsc Hn].
  assert (nt_id t ∈ map nt_id (er_tasks rt)) as Hid by by apply list_elem_of_fmap_2.
  destruct (Hlt t Ht) as [_ Hpos]. split; [done|]. split.
  - apply (router_wf_ids rt); cbn; try done; [apply replace_ids| |].
    + intros x [[-> _]|[Hx _]]%elem_replace; cbn; [lia|by apply Hlt].
    + by intros i [= <-].
  - constructor; cbn; [done|exists []; by rewrite app_nil_r| |].
    + intros x [[-> _]|[Hx _]]%elem_replace; right; [exists t; cbn; split_and!; [done..|lia]|by exists x].
    + intros x Hx Hc. left. destruct (decide (nt_id x = nt_id t)) as [E|E].
      * apply (task_unique rt) in E as ->; [|done..]. eexists. split; [apply elem_replace; left; cbn; done|].
        cbn. split_and!; [done|lia|done].
      * exists x. split_and!; [apply elem_replace; by right|done..].
Qed.

Lemma nack_end_ok rt t sent :
  router_wf rt → t ∈ er_tasks rt → nt_cancel_called t = true ∨ sent = [nt_since t] →
  er_replica (nack_end t sent rt) = er_replica rt ∧ router_wf (nack_end t sent rt) ∧ quiet rt (nack_end t sent rt).
Proof.
  intros Hwf Ht Hsent. pose proof Hwf as [Hnd Hlt Hsc Hn].
  assert (∀ x, x ∈ List.filter (λ x, negb (Nat.eqb (nt_id x) (nt_id t))) (er_tasks rt) ↔
               x ∈ er_tasks rt ∧ nt_id x ≠ nt_id t) as Hf.
  { intros x. rewrite !list_elem_of_In, filter_In, negb_true_iff, Nat.eqb_neq. done. }
  split; [done|]. split.
  - constructor; cbn; [| | |done].
    + clear -Hnd. induction (er_tasks rt) as [|x l IH]; [done|]. cbn in *. apply NoDup_cons in Hnd as [Hx Hnd].
      destruct (Nat.eqb_spec (nt_id x) (nt_id t)); cbn; [by apply IH|]. apply NoDup_cons. split; [|by apply IH].
      by intros [? _]%filter_ids.
    + intros x [Hx _]%Hf. by apply Hlt.
    + intros i. case_bool_decide as E; [done|]. intros Hi. apply filter_ids. split; [by apply Hsc|congruence].
  - constructor; cbn; [done|by exists sent| |].
    + intros x [Hx _]%Hf. right. by exists x.
    + intros x Hx Hc. destruct (decide (nt_id x = nt_id t)) as [E|E].
      * apply (task_unique rt) in E as ->; [|done..]. right. rewrite drop_app_length.
        destruct Hsent as [Hsent| ->]; [congruence|]. by left.
      * left. exists x. split_and!; [by apply Hf|done..].
Qed.

(** One step: the replica takes what arrives, the next index never falls. *)
Lemma router_step_ok rt l rt' :
  router_wf rt → router_step rt l = Ok rt' →
  foldM follow (er_replica rt) (inbound [l]) = Ok (er_replica rt') ∧ router_wf rt' ∧ next_of rt ≤ next_of rt'
  ∧ (next_of rt' = next_of rt → quiet rt rt').
Proof.
  intros Hwf Hstep.
  assert (er_replica rt' = er_replica rt ∧ router_wf rt' ∧ quiet rt rt' → inbound [l] = [] →
    foldM follow (er_replica rt) (inbound [l]) = Ok (er_replica rt') ∧ router_wf rt' ∧ next_of rt ≤ next_of rt'
    ∧ (next_of rt' = next_of rt → quiet rt rt')) as Htask.
  { intros (Hr & Hwf' & Hq) ->. unfold next_of. rewrite Hr. cbn. split_and!; [done..|]. by intros _. }
  destruct l as [g|now id|now id|id]; cbn [Replication.router_step] in Hstep.
  - apply router_receive_ok in Hstep as (Hr & Hwf' & Hle & Hq); [|done]. cbn. rewrite Hr.
    split_and!; [done..|]. intros E. by apply Hq.
  - destruct (nack_task id rt) as [t|] eqn:Ht; [|done]. apply nack_task_some in Ht as [Ht _].
    destruct (nt_phase t); [|done]. apply Htask; [|done]. by eapply nack_start_ok.
  - destruct (nack_task id rt) as [t|] eqn:Ht; [|done]. apply nack_task_some in Ht as [Ht _].
    destruct (nt_phase t); [done|]. destruct (negb _ && _); [|done]. injection Hstep as <-.
    apply Htask; [|done]. apply nack_end_ok; [done..|by right].
  - destruct (nack_task id rt) as [t|] eqn:Ht; [|done]. apply nack_task_some in Ht as [Ht _].
    destruct (nt_phase t); [done|]. destruct (nt_cancel_called t) eqn:Hc; [|done]. injection Hstep as <-.
    apply Htask; [|done]. apply nack_end_ok; [done..|by left].
Qed.

Lemma router_run_ok ls : ∀ rt rt',
  router_wf rt → router_run rt ls = Ok rt' →
  foldM follow (er_replica rt) (inbound ls) = Ok (er_replica rt') ∧ router_wf rt' ∧ next_of rt ≤ next_of rt'
  ∧ (next_of rt' = next_of rt → quiet rt rt').
Proof.
  induction ls as [|l ls IH]; intros rt rt' Hwf; unfold router_run; cbn [foldM].
  { intros [= <-]. split_and!; [done..|]. intros _. apply quiet_refl. }
  destruct (router_step rt l) as [rt1|] eqn:Hstep; [|done]. fold (router_run rt1 ls). intros Hrun.
  apply router_step_ok in Hstep as (Hr1 & Hwf1 & Hle1 & Hq1); [|done].
  apply IH in Hrun as (Hr & Hwf' & Hle & Hq); [|done]. split_and!; [|done|lia|].
  - change (inbound (l :: ls)) with (inbound ([l] ++ ls)). unfold inbound in *. rewrite omap_app, foldM_app, Hr1.
    exact Hr.
  - intros E. apply (quiet_trans rt rt1); [lia|apply Hq1; lia|apply Hq; lia].
Qed.

(** ** Fair rounds

    A part of a run in which some event of the master's arrives, the tasks that are there after it
    come to their end, and every request sent is answered with a batch of the log that arrives.
    Everything else, other arrivals and tasks, the order and the times, is arbitrary. *)
Record fair_round (batch : nat) (m : Master) (rt : EventRouter) (ls : list RouterLabel) (rt' : EventRouter)
  : Prop := {
  fr_run : router_run rt ls = Ok rt';
  fr_arrival : ∃ ls1 g ls2 rt1, ls = ls1 ++ Inbound g :: ls2 ∧ accepts (ms_node_id m) g = true
    ∧ router_run rt (ls1 ++ [Inbound g]) = Ok rt1
    ∧ ∀ t, t ∈ er_tasks rt1 → nt_id t ∉ map nt_id (er_tasks rt');
  fr_answers : ∀ since g, since ∈ drop (length (er_requests rt)) (er_requests rt') →
    g ∈ resend batch (Z.to_nat since) m → Inbound g ∈ ls
}.

Lemma router_run_app rt ls ls' rt' :
  router_run rt (ls ++ ls') = Ok rt' ↔ ∃ rt1, router_run rt ls = Ok rt1 ∧ router_run rt1 ls' = Ok rt'.
Proof.
  unfold router_run. rewrite foldM_app. destruct (foldM _ _ ls) as [rt1|e]; cbn; [|naive_solver]. naive_solver.
Qed.

Lemma run_master ls rt rt' :
  router_wf rt → router_run rt ls = Ok rt' → rp_master (er_replica rt') = rp_master (er_replica rt).
Proof.
  intros Hwf Hrun. apply router_run_ok in Hrun as (Hr & _); [|done].
  refine (foldM_preserves (λ r, rp_master r = rp_master (er_replica rt)) follow _ _ _ _ eq_refl Hr).
  intros r g r' <- Hg. by apply drained_next in Hg as [? _].
Qed.

(** After the first arrival of a round without progress, every task asks for the next index. *)
Lemma round_leaves_fresh batch m rt ls rt' :
  router_wf rt → rp_master (er_replica rt) = ms_node_id m → fair_round batch m rt ls rt' → next_of rt' = next_of rt →
  ∀ t, t ∈ er_tasks rt' → nt_since t = next_of rt.
Proof.
  intros Hwf Hm [Hrun (ls1 & g & ls2 & rt1 & -> & _ & Hrun1 & Hgone) _] Hn t Ht.
  rewrite cons_middle, app_assoc in Hrun. apply router_run_app in Hrun as (rt1' & Hrun1' & Hrun2).
  rewrite Hrun1 in Hrun1'. injection Hrun1' as <-.
  apply router_run_ok in Hrun1 as (_ & Hwf1 & Hle1 & _); [|done].
  apply router_run_ok in Hrun2 as (_ & _ & Hle2 & Hq); [|done].
  destruct (qt_tasks _ _ (Hq ltac:(lia)) t Ht) as [[_ ->]|(t0 & Ht0 & Hid & _)]; [lia|].
  destruct (Hgone t0 Ht0). rewrite Hid. by apply list_elem_of_fmap_2.
Qed.

(** Two fair rounds without progress make the router ask for the next index and get it. *)
Lemma two_rounds_arrive batch m rt ls1 rt1 ls2 rt2 :
  router_wf rt → rp_master (er_replica rt) = ms_node_id m → (0 < batch)%nat →
  fair_round batch m rt ls1 rt1 → fair_round batch m rt1 ls2 rt2 → next_of rt2 = next_of rt →
  (Z.to_nat (next_of rt) < length (ms_log m))%nat →
  next_of rt ∈ arrivals (ms_node_id m) (inbound ls2).
Proof.
  intros Hwf Hm Hb Hround1 Hround2 Hn Hlen.
  pose proof (router_run_ok _ _ _ Hwf (fr_run _ _ _ _ _ Hround1)) as (_ & Hwf1 & Hle1 & _).
  pose proof (router_run_ok _ _ _ Hwf1 (fr_run _ _ _ _ _ Hround2)) as (_ & _ & Hle2 & _).
  pose proof (run_master _ _ _ Hwf (fr_run _ _ _ _ _ Hround1)) as Hm1.
  pose proof (round_leaves_fresh _ _ _ _ _ Hwf Hm Hround1 ltac:(lia)) as Hfresh.
  destruct Hround2 as [Hrun2 (la & g & lb & rtb & -> & Ha & Hrunb & Hgone) Hans].
  pose proof Hrunb as Hrunb'. apply router_run_app in Hrunb' as (rta & Hruna & Hstep).
  unfold router_run in Hstep. cbn [foldM] in Hstep. destruct (router_step rta (Inbound g)) as [?|] eqn:Hg; [|done].
  injection Hstep as ->. cbn [Replication.router_step] in Hg.
  pose proof (run_master _ _ _ Hwf1 Hruna) as Hma.
  apply router_run_ok in Hruna as (_ & Hwfa & Hlea & Hqa); [|done].
  pose proof Hrun2 as Hrun2'. rewrite cons_middle, app_assoc in Hrun2'.
  apply router_run_app in Hrun2' as (rtb' & Hrunb' & Hrunc). rewrite Hrunb in Hrunb'. injection Hrunb' as <-.
  apply router_receive_ok in Hg as (_ & Hwfb & Hleb & Hqb); [|done].
  apply router_run_ok in Hrunc as (_ & _ & Hlec & Hqc); [|done].
  destruct (Hqb ltac:(lia)) as [Hqb' Hasks]. destruct Hasks as (t & Ht & Hc & Hsince); [by rewrite Hma, Hm1, Hm|].
  assert (nt_since t = next_of rt) as Hask.
  { destruct Hsince as [->|Hta]; [lia|].
    destruct (qt_tasks _ _ (Hqa ltac:(lia)) t Hta) as [[_ ->]|(t0 & Ht0 & _ & <-)]; [lia|].
    by apply Hfresh. }
  destruct (qt_gone _ _ (Hqc ltac:(lia)) t Ht Hc) as [(t' & Ht' & Hid & _)|Hsent].
  { destruct (Hgone t Ht). rewrite <- Hid. by apply list_elem_of_fmap_2. }
  destruct (qt_requests _ _ (Hqb')) as (lr & Hlr). destruct (qt_requests _ _ (Hqa ltac:(lia))) as (lr' & Hlr').
  assert (nt_since t ∈ drop (length (er_requests rt1)) (er_requests rt2)) as Hreq.
  { destruct (qt_requests _ _ (Hqc ltac:(lia))) as (lr2 & Hlr2). rewrite Hlr2, drop_app_length in Hsent.
    rewrite Hlr2, Hlr, Hlr', <- !app_assoc, drop_app_length, !elem_of_app. by right; right. }
  rewrite Hask in Hreq. pose proof (rw_next _ Hwf) as Hpos.
  assert (Z.of_nat (Z.to_nat (next_of rt)) ∈ arrivals (ms_node_id m) (resend batch (Z.to_nat (next_of rt)) m)) as Hin
    by (apply resend_arrives; lia).
  rewrite Z2Nat.id in Hin by done. unfold arrivals in *. change (map ?f ?l) with (f <$> l) in *.
  apply list_elem_of_fmap in Hin as (x & Hx & [Hxa Hxin]%list_elem_of_filter). rewrite Hx.
  apply list_elem_of_fmap_2, list_elem_of_filter. split; [done|].
  apply list_elem_of_omap. exists (Inbound x). split; [by eapply Hans|done].
Qed.

(** Rounds one after the other. *)
Inductive fair_rounds (batch : nat) (m : Master) : EventRouter → list (list RouterLabel) → EventRouter → Prop :=
| rounds_done rt : fair_rounds batch m rt [] rt
| rounds_next rt ls rt1 rounds rt' :
    fair_round batch m rt ls rt1 → fair_rounds batch m rt1 rounds rt' →
    fair_rounds batch m rt (ls :: rounds) rt'.

Lemma run_replica_ok node m gs rt ls rt' :
  master_ok node m → router_wf rt → replica_ok m gs (er_replica rt) → Forall (genuine m) (gs ++ inbound ls) →
  router_run rt ls = Ok rt' → router_wf rt' ∧ replica_ok m (gs ++ inbound ls) (er_replica rt') ∧ next_of rt ≤ next_of rt'.
Proof using Ho1 Ho2.
  intros Hm Hwf Hok Hgs Hrun. apply router_run_ok in Hrun as (Hr & Hwf' & Hle & _); [|done].
  destruct (replica_steps node m _ _ _ Hm Hgs Hok) as (r' & Hr' & Hok'). rewrite Hr in Hr'. injection Hr' as <-. done.
Qed.

(** Two fair rounds bring the replica closer to the end of the log. *)
Lemma two_rounds_progress node batch m gs rt ls1 rt1 ls2 rt2 :
  master_ok node m → router_wf rt → replica_ok m gs (er_replica rt) →
  Forall (genuine m) (gs ++ inbound ls1 ++ inbound ls2) → (0 < batch)%nat →
  fair_round batch m rt ls1 rt1 → fair_round batch m rt1 ls2 rt2 →
  router_wf rt2 ∧ replica_ok m (gs ++ inbound ls1 ++ inbound ls2) (er_replica rt2)
  ∧ (Nat.min (length (ms_log m)) (S (Z.to_nat (next_of rt))) ≤ Z.to_nat (next_of rt2))%nat.
Proof using Ho1 Ho2.
  intros Hm Hwf Hok Hgs Hb Hr1 Hr2. rewrite app_assoc in Hgs. pose proof Hgs as [Hgs1 _]%Forall_app.
  destruct (run_replica_ok _ _ _ _ _ _ Hm Hwf Hok Hgs1 (fr_run _ _ _ _ _ Hr1)) as (Hwf1 & Hok1 & Hle1).
  destruct (run_replica_ok _ _ _ _ _ _ Hm Hwf1 Hok1 Hgs (fr_run _ _ _ _ _ Hr2)) as (Hwf2 & Hok2 & Hle2).
  rewrite app_assoc. split_and!; [done..|]. pose proof (rw_next _ Hwf).
  destruct (decide (next_of rt2 = next_of rt)) as [E|E]; [|lia].
  destruct (Nat.le_gt_cases (length (ms_log m)) (Z.to_nat (next_of rt))) as [|Hlt]; [lia|]. exfalso.
  pose proof (two_rounds_arrive _ _ _ _ _ _ _ Hwf (ro_master _ _ _ Hok) Hb Hr1 Hr2 E Hlt) as Hin.
  destruct (replica_state _ _ _ _ Hm Hgs Hok2) as (_ & _ & Hno & _).
  apply Hno. unfold next_of in *. rewrite Z2Nat.id by lia. rewrite E. unfold arrivals in *.
  rewrite filter_app, map_app. apply elem_of_app. by right.
Qed.

Lemma fair_rounds_catch_up node batch m k : ∀ gs rt rounds rt',
  master_ok node m → router_wf rt → replica_ok m gs (er_replica rt) →
  Forall (genuine m) (gs ++ inbound (concat rounds)) → (0 < batch)%nat →
  fair_rounds batch m rt rounds rt' → (2 * k ≤ length rounds)%nat →
  ∃ gs', Forall (genuine m) gs' ∧ replica_ok m gs' (er_replica rt')
    ∧ (Nat.min (length (ms_log m)) (Z.to_nat (next_of rt) + k) ≤ Z.to_nat (next_of rt'))%nat.
Proof using Ho1 Ho2.
  assert (∀ ls ls', inbound (ls ++ ls') = inbound ls ++ inbound ls') as Happ by (intros; apply omap_app).
  induction k as [|k IH]; intros gs rt rounds rt' Hm Hwf Hok Hgs Hb Hrounds Hlen.
  - clear Hlen. revert gs Hgs Hok. induction Hrounds as [rt|rt ls rt1 rounds rt' Hr Hrounds IHr]; intros gs Hgs Hok.
    + exists gs. cbn in Hgs. rewrite app_nil_r in Hgs. split_and!; [done..|lia].
    + cbn in Hgs. rewrite Happ, app_assoc in Hgs. pose proof Hgs as [Hgs1 _]%Forall_app.
      destruct (run_replica_ok _ _ _ _ _ _ Hm Hwf Hok Hgs1 (fr_run _ _ _ _ _ Hr)) as (Hwf1 & Hok1 & Hle).
      destruct (IHr Hwf1 _ Hgs Hok1) as (gs' & ? & ? & ?). exists gs'. split_and!; [done..|].
      pose proof (rw_next _ Hwf). lia.
  - destruct Hrounds as [|rt ls1 rt1 rounds rt' Hr1 Hrounds]; [cbn in Hlen; lia|].
    destruct Hrounds as [|rt1 ls2 rt2 rounds rt' Hr2 Hrounds]; [cbn in Hlen; lia|]. cbn in Hgs, Hlen.
    rewrite !Happ, !app_assoc in Hgs. pose proof Hgs as [Hgs1 _]%Forall_app. rewrite <- app_assoc in Hgs1.
    destruct (two_rounds_progress _ _ _ _ _ _ _ _ _ Hm Hwf Hok Hgs1 Hb Hr1 Hr2) as (Hwf2 & Hok2 & Hn).
    rewrite <- (app_assoc gs) in Hgs.
    destruct (IH _ rt2 rounds rt' Hm Hwf2 Hok2 Hgs Hb Hrounds ltac:(lia)) as (gs' & Hgs' & Hok' & Hn').
    exists gs'. split_and!; [done..|lia].
Qed.

End follow.

(** C20: replicas follow the master.  Take any events the master received, from any sources and
    in any order, and any sequence of messages that reached a replica, with losses,
    repetitions, reordering and messages of others, in which what claims to be the master's is
    an event of its log at its index.  The replica never fails; it has applied exactly the
    events before the first that it lacks, so its state is the replay of that prefix of the
    log up to the list of bridge cycles, whose order is that of a set; and when it lacks none,
    its state is the master's up to those cycles and to the times nodes were last seen, which
    the master takes from the reports as they came, and the log from the master's clock. *)
Theorem replicas_follow_master fromisoformat simple_cycles clock o1 o2 node locals m gs :
  (∀ n, is_ok (fromisoformat (clock n)) = true) → order_ok o1 → order_ok o2 →
  foldM (master_receive fromisoformat simple_cycles clock o1) (new_master node) locals = Ok m →
  Forall (genuine m) gs →
  ms_sent m = imap (λ i e, global_event node (Z.of_nat i) e) (ms_log m)
  ∧ ∃ n r s c,
      foldM (replica_receive fromisoformat simple_cycles o2) (new_replica node) gs = Ok r
      ∧ (n ≤ length (ms_log m))%nat
      ∧ (∀ i, (i < n)%nat → Z.of_nat i ∈ arrivals node gs) ∧ (Z.of_nat n ∉ arrivals node gs)
      ∧ replay fromisoformat simple_cycles o1 (take n (ms_log m)) = Ok s
      ∧ rp_state r = set_thunderbolt_bridge_cycles c s
      ∧ last_event_applied_idx (rp_state r) = Z.of_nat n - 1
      ∧ (n = length (ms_log m) → ∃ l c, rp_state r = view l c (ms_state m)).
Proof.
  intros Hclock Ho1 Ho2 Hrun Hgs.
  pose proof (master_receive_ok _ simple_cycles clock Hclock o1 Ho1 node locals m Hrun) as Hm.
  pose proof (mo_node _ _ _ _ _ Hm) as Hnode. split; [apply Hm|].
  destruct (replica_steps fromisoformat simple_cycles o1 o2 Ho1 Ho2 node m gs [] _ Hm Hgs
    (new_replica_ok _ _ _ m)) as (r & Hr & Hok).
  destruct (replica_state fromisoformat simple_cycles o1 o2 Ho1 Ho2 node m gs r Hm Hgs Hok)
    as (Hlen & Hall & Hno & Hlast & (s & c & Hs & Hst) & Hfull).
  rewrite Hnode in *. by exists (Z.to_nat (next_idx_to_release (rp_buffer r))), r, s, c.
Qed.

(** C21: a replica can always catch up.  A router that has run in any way since its start, with any
    arrivals and request tasks in any interleaving, goes on with fair rounds: in each one some
    event of the master's arrives, the request tasks that are there after it are sent or
    cancelled, and each request sent is answered with a batch of any positive size; what else
    happens in a round, and in which order, is arbitrary.  The guard that shares one request
    among several arrivals, its delay and its cancellation are part of the runs.  If the
    master's log no longer grows, twice as many rounds as it is long bring the replica to its
    end and to the master's state (up to cycles and times as above). *)
Theorem replica_catches_up fromisoformat simple_cycles clock o1 o2 node locals m before rt batch rounds rt' :
  (∀ n, is_ok (fromisoformat (clock n)) = true) → order_ok o1 → order_ok o2 →
  foldM (master_receive fromisoformat simple_cycles clock o1) (new_master node) locals = Ok m →
  router_run fromisoformat simple_cycles o2 (new_router node) before = Ok rt →
  Forall (genuine m) (inbound (before ++ concat rounds)) → (0 < batch)%nat →
  fair_rounds fromisoformat simple_cycles o2 batch m rt rounds rt' →
  (2 * length (ms_log m) ≤ length rounds)%nat →
  last_event_applied_idx (rp_state (er_replica rt')) = Z.of_nat (length (ms_log m)) - 1
  ∧ ∃ l c, rp_state (er_replica rt') = view l c (ms_state m).
Proof.
  intros Hclock Ho1 Ho2 Hrun Hbefore Hgs Hbatch Hrounds Hlen.
  pose proof (master_receive_ok _ simple_cycles clock Hclock o1 Ho1 node locals m Hrun) as Hm.
  pose proof (mo_node _ _ _ _ _ Hm) as Hnode. unfold inbound in Hgs. rewrite omap_app in Hgs.
  pose proof Hgs as [Hgs1 _]%Forall_app.
  assert (replica_ok fromisoformat simple_cycles o2 m [] (er_replica (new_router node))) as Hnew
    by (rewrite <- Hnode; apply new_replica_ok).
  destruct (run_replica_ok fromisoformat simple_cycles o1 o2 Ho1 Ho2 node m [] _ before rt Hm (new_router_wf node)
    Hnew Hgs1 Hbefore) as (Hwf & Hok & _).
  destruct (fair_rounds_catch_up fromisoformat simple_cycles o1 o2 Ho1 Ho2 node batch m _ _ rt rounds rt'
    Hm Hwf Hok Hgs Hbatch Hrounds Hlen) as (gs' & Hgs' & Hok' & Hn).
  destruct (replica_state fromisoformat simple_cycles o1 o2 Ho1 Ho2 node m gs' _ Hm Hgs' Hok')
    as (Hle & _ & _ & Hlast & _ & Hfull). fold (next_of rt') in *.
  assert (Z.to_nat (next_of rt') = length (ms_log m)) as Hend by lia.
  split; [by rewrite Hlast, Hend|]. by apply Hfull.
Qed.

(** A request after 1024 unanswered ones raises instead of sleeping. *)
Lemma nack_start_overflows now t rt : (1024 ≤ er_nack_attempts rt)%nat → nack_start now t rt = Err OverflowError.
Proof.
  intros Hn. unfold nack_start, two_pow. by rewrite (proj2 (Nat.ltb_ge (er_nack_attempts rt) 1024) Hn).
Qed.

(** ** A run of a small cluster *)

Definition demo_local (origin : string) (idx : Z) (id : string) (e : Event) : LocalForwarderEvent :=
  {| lf_origin_idx := idx; lf_origin := origin; lf_session_master := "m"; lf_event := (id, e) |}.

(** Two sources, one of them out of order, and an event of another session. *)
Definition demo_locals : list LocalForwarderEvent := [
  demo_local "a" 1 "e2" (OverlayPeerConnected "a" "b");
  demo_local "b" 0 "e1" (NodeGatheredInfo "b" "local time" (MiscData "bob"));
  {| lf_origin_idx := 0; lf_origin := "c"; lf_session_master := "old"; lf_event := ("e9", NodeTimedOut "b") |};
  demo_local "a" 0 "e0" (NodeGatheredInfo "a" "local time" (MiscData "anna"))].

Definition demo_clock (n : nat) : string := "master time".
Definition demo_time (when_ : string) : result Z :=
  if String.eqb when_ "master time" then Ok 100
  else if String.eqb when_ "local time" then Ok 60 else Err (ValueError when_).

Definition demo_master : Master :=
  match foldM (master_receive demo_time (λ _ _, []) demo_clock elements) (new_master "m") demo_locals with
  | Ok m => m
  | Err _ => new_master "m"
  end.

Definition sent (i : nat) : GlobalForwarderEvent :=
  nth i (ms_sent demo_master) (global_event "" 0 no_event).

(** The last event arrives first and twice, the first is missing, and a stranger interferes. *)
Definition demo_arrivals : list GlobalForwarderEvent :=
  [sent 2; global_event "x" 0 ("e9", NodeTimedOut "a"); sent 1; sent 2].

Definition demo_replica (gs : list GlobalForwarderEvent) : Replica :=
  match foldM (replica_receive demo_time (λ _ _, []) (λ s, reverse (elements s))) (new_replica "m") gs with
  | Ok r => r
  | Err _ => new_replica "m"
  end.

Lemma elements_order : order_ok elements.
Proof. by intros s. Qed.

Lemma reverse_order : order_ok (λ s, reverse (elements s)).
Proof. intros s. by rewrite reverse_Permutation. Qed.

Lemma demo_clock_ok n : is_ok (demo_time (demo_clock n)) = true.
Proof. reflexivity. Qed.

Lemma sent_genuine i : (i < 3)%nat → genuine demo_master (sent i).
Proof.
  intros Hi _. exists i. destruct i as [|[|[|i]]]; [split; vm_compute; reflexivity..|lia].
Qed.

Lemma demo_genuine : Forall (genuine demo_master) demo_arrivals.
Proof.
  repeat constructor; try (apply sent_genuine; lia). intros Ha. vm_compute in Ha. done.
Qed.

Lemma replicas_follow_master_witness :
  length (ms_log demo_master) = 3%nat
  ∧ last_seen (ms_state demo_master) !! "a" = Some 60
  ∧ (rp_state (demo_replica demo_arrivals) = initial_state)
  ∧ last_seen (rp_state (demo_replica (demo_arrivals ++ [sent 0]))) !! "a" = Some 100
  ∧ ms_sent demo_master = imap (λ i e, global_event "m" (Z.of_nat i) e) (ms_log demo_master).
Proof.
  split; [vm_compute; reflexivity|]. split; [vm_compute; reflexivity|].
  split; [vm_compute; reflexivity|]. split; [vm_compute; reflexivity|].
  apply (replicas_follow_master demo_time (λ _ _, []) demo_clock elements (λ s, reverse (elements s))
    "m" demo_locals demo_master demo_arrivals
    demo_clock_ok elements_order reverse_order).
  - vm_compute. reflexivity.
  - apply demo_genuine.
Defined.

Abbreviation demo_run := (router_run demo_time (λ _ _, []) (λ s, reverse (elements s))).

Definition ran (rt : EventRouter) (ls : list RouterLabel) : EventRouter :=
  match demo_run rt ls with Ok rt' => rt' | Err _ => rt end.

(** The last event arrives alone, so the log is asked for; a second arrival before that task has
    run asks again; both requests are answered.  From then on the requests have empty answers. *)
Definition demo_before : list RouterLabel := [Inbound (sent 2)].

Definition demo_rounds : list (list RouterLabel) :=
  [Inbound (sent 2); NackStart 0%Q 0; NackStart 0%Q 1; NackSend 1%Q 0; NackSend 1%Q 1; Inbound (sent 0); Inbound (sent 1)]
  :: map (λ k, [Inbound (sent 2); NackStart 2%Q k; NackSend 20%Q k]) (seq 2 5).

(** The first label is the arrival; the rest is checked by evaluation. *)
Definition fair_roundb (batch : nat) (m : Master) (rt : EventRouter) (ls : list RouterLabel) : bool :=
  match ls, demo_run rt ls with
  | Inbound g :: _, Ok rt' =>
      is_ok (demo_run rt [Inbound g]) && accepts (ms_node_id m) g
      && forallb (λ t, bool_decide (nt_id t ∉ map nt_id (er_tasks rt'))) (er_tasks (ran rt [Inbound g]))
      && forallb (λ since, forallb (λ g, bool_decide (g ∈ inbound ls)) (resend batch (Z.to_nat since) m))
           (drop (length (er_requests rt)) (er_requests rt'))
  | _, _ => false
  end.

Lemma fair_roundb_ok batch m rt ls :
  fair_roundb batch m rt ls = true →
  fair_round demo_time (λ _ _, []) (λ s, reverse (elements s)) batch m rt ls (ran rt ls).
Proof.
  unfold fair_roundb. destruct ls as [|[g| | |] ls]; try done.
  destruct (demo_run rt (Inbound g :: ls)) as [rt'|] eqn:Hrun; [|done].
  rewrite !andb_true_iff. intros [[[Hok Ha] Hgone] Hans]. unfold ran. rewrite Hrun. constructor; [done| |].
  - destruct (demo_run rt [Inbound g]) as [rt1|] eqn:Hrun1; [|done]. exists [], g, ls, rt1. split_and!; [done..|].
    intros t Ht. unfold ran in Hgone. rewrite Hrun1, forallb_forall in Hgone.
    apply list_elem_of_In, Hgone in Ht. by apply bool_decide_eq_true_1 in Ht.
  - intros since x Hs Hx. rewrite forallb_forall in Hans. apply list_elem_of_In, Hans in Hs.
    rewrite forallb_forall in Hs. apply list_elem_of_In, Hs, bool_decide_eq_true_1 in Hx.
    apply list_elem_of_omap in Hx as (l & Hl & E). by destruct l; [injection E as ->|..].
Qed.

Fixpoint fair_roundsb (batch : nat) (m : Master) (rt : EventRouter) (rounds : list (list RouterLabel)) : bool :=
  match rounds with
  | [] => true
  | ls :: rounds => fair_roundb batch m rt ls && fair_roundsb batch m (ran rt ls) rounds
  end.

Lemma fair_roundsb_ok batch m rounds : ∀ rt,
  fair_roundsb batch m rt rounds = true →
  fair_rounds demo_time (λ _ _, []) (λ s, reverse (elements s)) batch m rt rounds (foldl ran rt rounds).
Proof.
  induction rounds as [|ls rounds IH]; intros rt; cbn; [constructor|].
  intros [Hr Hrs]%andb_prop. econstructor; [by apply fair_roundb_ok|by apply IH].
Qed.

Definition demo_router : EventRouter := ran (new_router "m") demo_before.

Lemma replica_catches_up_witness :
  er_requests (foldl ran demo_router demo_rounds) = [0; 0; 3; 3; 3; 3; 3]
  ∧ last_event_applied_idx (rp_state (er_replica (foldl ran demo_router demo_rounds))) = 2
  ∧ ∃ l c, rp_state (er_replica (foldl ran demo_router demo_rounds)) = view l c (ms_state demo_master).
Proof.
  split; [vm_compute; reflexivity|].
  apply (replica_catches_up demo_time (λ _ _, []) demo_clock elements (λ s, reverse (elements s))
    "m" demo_locals demo_master demo_before demo_router 2 demo_rounds _
    demo_clock_ok elements_order reverse_order).
  - vm_compute. reflexivity.
  - vm_compute. reflexivity.
  - repeat constructor; apply sent_genuine; lia.
  - lia.
  - apply fair_roundsb_ok. vm_compute. reflexivity.
  - vm_compute. lia.
Defined.
