(* ===== verification/Election.v ===== *)
(** * Master election

    [shared/election.py].  A node's tasks interleave at their [await]s; [elector_step] is one
    task running from one such point to the next.  Candidate lists, cancel scopes and tasks are
    objects with an identity: the current list may still be the list of a campaign that
    runs.  Log messages, shutdown and the polling of the worker mode's file are left out. *)
From Stdlib Require Import Ascii.
From S2P Require Import Prelude.
From S2P Require Import PyStr.
Local Open Scope Z_scope.
Set Default Proof Using "Type".

Record SessionId := { master_node_id : string; election_clock : Z }.

Record ElectionMessage := {
  em_clock : Z;
  em_seniority : Z;
  em_session : SessionId;
  em_commands_seen : Z
}.

Record ElectionResult := {
  er_session_id : SessionId;
  er_won_clock : Z;
  er_is_new_master : bool
}.

#[export] Instance session_eq_dec : EqDecision SessionId.
Proof. solve_decision. Defined.
#[export] Instance election_message_eq_dec : EqDecision ElectionMessage.
Proof. solve_decision. Defined.

(** [__lt__] *)
Definition em_lt (a b : ElectionMessage) : bool :=
  if negb (em_clock a =? em_clock b) then em_clock a <? em_clock b
  else if negb (em_seniority a =? em_seniority b) then em_seniority a <? em_seniority b
  else if negb (em_commands_seen a =? em_commands_seen b)
  then em_commands_seen a <? em_commands_seen b
  else str_ltb (master_node_id (em_session a)) (master_node_id (em_session b)).

(** [max(candidates)]: the first of the greatest; it raises on the empty list. *)
Definition max_candidate (l : list ElectionMessage) : option ElectionMessage :=
  match l with
  | [] => None
  | m :: l' => Some (foldl (λ best m, if em_lt best m then m else best) m l')
  end.

(** Where a campaign's task is: not started, waiting for its predecessor, asleep after its
    first broadcast, past the second one, or over. *)
Inductive Phase :=
| Spawned
| Waiting (clock : Z) (pred : nat)
| Sleeping (status : ElectionMessage)
| Woken (status : ElectionMessage)
| Done.

(** A campaign; its identity is also that of its cancel scope and of its done event. *)
Record Campaign := { cp_list : nat; cp_phase : Phase; cp_cancelled : bool }.

Record Elector := {
  el_node_id : string;
  el_seniority : Z;
  el_clock : Z;
  el_commands_seen : Z;
  el_connected : gset string;
  el_pending : gmap string nat;
  el_worker : bool;
  el_session : SessionId;
  el_lists : gmap nat (list ElectionMessage);
  el_candidates : nat;
  el_campaigns : gmap nat Campaign;
  el_cancel_scope : option nat;
  el_done : option nat;
  el_confirms : gmap nat (string * bool);
  el_state_changed : bool;
  el_next : nat
}.

(** ** Assignments to the fields *)

Definition set_clock (v : Z) (e : Elector) : Elector := {|
  el_node_id := el_node_id e; el_seniority := el_seniority e; el_clock := v;
  el_commands_seen := el_commands_seen e; el_connected := el_connected e; el_pending := el_pending e;
  el_worker := el_worker e; el_session := el_session e; el_lists := el_lists e;
  el_candidates := el_candidates e; el_campaigns := el_campaigns e;
  el_cancel_scope := el_cancel_scope e; el_done := el_done e; el_confirms := el_confirms e;
  el_state_changed := el_state_changed e; el_next := el_next e |}.

Definition set_peers (connected : gset string) (pending : gmap string nat)
    (confirms : gmap nat (string * bool)) (changed : bool) (e : Elector) : Elector := {|
  el_node_id := el_node_id e; el_seniority := el_seniority e; el_clock := el_clock e;
  el_commands_seen := el_commands_seen e; el_connected := connected; el_pending := pending;
  el_worker := el_worker e; el_session := el_session e; el_lists := el_lists e;
  el_candidates := el_candidates e; el_campaigns := el_campaigns e;
  el_cancel_scope := el_cancel_scope e; el_done := el_done e; el_confirms := confirms;
  el_state_changed := changed; el_next := el_next e |}.

Definition set_campaigns (campaigns : gmap nat Campaign) (scope done : option nat) (e : Elector)
  : Elector := {|
  el_node_id := el_node_id e; el_seniority := el_seniority e; el_clock := el_clock e;
  el_commands_seen := el_commands_seen e; el_connected := el_connected e; el_pending := el_pending e;
  el_worker := el_worker e; el_session := el_session e; el_lists := el_lists e;
  el_candidates := el_candidates e; el_campaigns := campaigns; el_cancel_scope := scope;
  el_done := done; el_confirms := el_confirms e; el_state_changed := el_state_changed e;
  el_next := el_next e |}.

Definition set_list (r : nat) (l : list ElectionMessage) (e : Elector) : Elector := {|
  el_node_id := el_node_id e; el_seniority := el_seniority e; el_clock := el_clock e;
  el_commands_seen := el_commands_seen e; el_connected := el_connected e; el_pending := el_pending e;
  el_worker := el_worker e; el_session := el_session e; el_lists := <[r := l]> (el_lists e);
  el_candidates := el_candidates e; el_campaigns := el_campaigns e;
  el_cancel_scope := el_cancel_scope e; el_done := el_done e; el_confirms := el_confirms e;
  el_state_changed := el_state_changed e; el_next := el_next e |}.

Definition set_counters (commands_seen : Z) (worker : bool) (e : Elector) : Elector := {|
  el_node_id := el_node_id e; el_seniority := el_seniority e; el_clock := el_clock e;
  el_commands_seen := commands_seen; el_connected := el_connected e; el_pending := el_pending e;
  el_worker := worker; el_session := el_session e; el_lists := el_lists e;
  el_candidates := el_candidates e; el_campaigns := el_campaigns e;
  el_cancel_scope := el_cancel_scope e; el_done := el_done e; el_confirms := el_confirms e;
  el_state_changed := el_state_changed e; el_next := el_next e |}.

Definition set_elected (seniority : Z) (session : SessionId) (e : Elector) : Elector := {|
  el_node_id := el_node_id e; el_seniority := seniority; el_clock := el_clock e;
  el_commands_seen := el_commands_seen e; el_connected := el_connected e; el_pending := el_pending e;
  el_worker := el_worker e; el_session := session; el_lists := el_lists e;
  el_candidates := el_candidates e; el_campaigns := el_campaigns e;
  el_cancel_scope := el_cancel_scope e; el_done := el_done e; el_confirms := el_confirms e;
  el_state_changed := el_state_changed e; el_next := el_next e |}.

(** A new list becomes [self._candidates] and a campaign with it is scheduled. *)
Definition spawn_campaign (l : list ElectionMessage) (e : Elector) : Elector :=
  let r := el_next e in {|
  el_node_id := el_node_id e; el_seniority := el_seniority e; el_clock := el_clock e;
  el_commands_seen := el_commands_seen e; el_connected := el_connected e; el_pending := el_pending e;
  el_worker := el_worker e; el_session := el_session e; el_lists := <[r := l]> (el_lists e);
  el_candidates := r;
  el_campaigns := <[r := {| cp_list := r; cp_phase := Spawned; cp_cancelled := false |}]> (el_campaigns e);
  el_cancel_scope := el_cancel_scope e; el_done := el_done e; el_confirms := el_confirms e;
  el_state_changed := el_state_changed e; el_next := S r |}.

Section election.
(** [CAI_WORKER_CAN_RECLAIM_MASTER] and [CAI_WORKER_MASTER_SENIORITY_BONUS]. *)
Context (RECLAIM_ENABLED : bool) (SENIORITY_BONUS : Z).

Definition _election_status (c : Z) (e : Elector) : ElectionMessage :=
  let current_master_id := master_node_id (el_session e) in
  let fallback_master_id :=
    if (el_seniority e <? 0) && negb (bool_decide (el_connected e = ∅))
    then hd (el_node_id e) (py_sorted str_leb (elements (el_connected e)))
    else el_node_id e in
  let self_master := String.eqb current_master_id (el_node_id e) in
  let prefer_local_execution_master := RECLAIM_ENABLED && el_worker e && negb self_master in
  let non_candidate_self_master_should_yield :=
    (el_seniority e <? 0) && self_master && negb (bool_decide (el_connected e = ∅)) in
  let keep_current_master :=
    negb prefer_local_execution_master && negb non_candidate_self_master_should_yield
    && (self_master || bool_decide (current_master_id ∈ el_connected e)
        || bool_decide (is_Some (el_pending e !! current_master_id))) in
  {| em_clock := c;
     em_seniority :=
       if (0 <=? el_seniority e) && el_worker e then el_seniority e + SENIORITY_BONUS
       else el_seniority e;
     em_session :=
       if keep_current_master then el_session e
       else {| master_node_id := fallback_master_id; election_clock := c |};
     em_commands_seen := el_commands_seen e |}.

Definition with_clock (c : Z) (m : ElectionMessage) : ElectionMessage :=
  {| em_clock := c; em_seniority := em_seniority m; em_session := em_session m;
     em_commands_seen := em_commands_seen m |}.

Definition _start_new_campaign (initial : list ElectionMessage) (e : Elector) : Elector :=
  let c := el_clock e + 1 in
  spawn_campaign (map (with_clock c) initial) (set_clock c e).

(** [_election_receiver], one message. *)
Definition election_receive (m : ElectionMessage) (e : Elector) : Elector :=
  if el_clock e <? em_clock m then spawn_campaign [m] (set_clock (em_clock m) e)
  else if em_clock m <? el_clock e then e
  else if bool_decide (el_cancel_scope e = None) then
    if bool_decide (em_session m = el_session e) then e else _start_new_campaign [m] e
  else
    set_list (el_candidates e) (default [] (el_lists e !! el_candidates e) ++ [m]) e.

(** ** The campaign's task *)

Definition set_phase (i : nat) (c : Campaign) (p : Phase) (e : Elector) : Elector :=
  set_campaigns
    (<[i := {| cp_list := cp_list c; cp_phase := p; cp_cancelled := cp_cancelled c |}]> (el_campaigns e))
    (el_cancel_scope e) (el_done e) e.

(** From the new scope on: the status goes to the list and out. *)
Definition campaign_run (i : nat) (c : Campaign) (clock : Z) (e : Elector)
  : Elector * list ElectionMessage :=
  let e := set_campaigns (el_campaigns e) (Some i) (Some i) e in
  let status := _election_status clock e in
  let e := set_list (cp_list c) (default [] (el_lists e !! cp_list c) ++ [status]) e in
  (set_phase i c (Sleeping status) e, [status]).

Definition cancel_campaign (i : nat) (campaigns : gmap nat Campaign) : gmap nat Campaign :=
  alter (λ c, {| cp_list := cp_list c; cp_phase := cp_phase c; cp_cancelled := true |}) i campaigns.

(** The start: the running campaign is cancelled and waited for. *)
Definition campaign_begin (i : nat) (c : Campaign) (e : Elector) : Elector * list ElectionMessage :=
  let clock := el_clock e in
  let e :=
    match el_cancel_scope e with
    | Some j => set_campaigns (cancel_campaign j (el_campaigns e)) (el_cancel_scope e) (el_done e) e
    | None => e
    end in
  match el_done e with
  | Some j => (set_phase i c (Waiting clock j) e, [])
  | None => campaign_run i c clock e
  end.

(** The [finally] of [_campaign]. *)
Definition campaign_end (i : nat) (c : Campaign) (e : Elector) : Elector :=
  let e := set_phase i c Done e in
  set_campaigns (el_campaigns e)
    (if bool_decide (el_cancel_scope e = Some i) then None else el_cancel_scope e) (el_done e) e.

(** [elect], with the seniority the winner takes. *)
Definition campaign_finish (i : nat) (c : Campaign) (e : Elector)
  : option (Elector * list ElectionResult) :=
  let candidates := default [] (el_lists e !! cp_list c) in
  match max_candidate candidates with
  | None => None
  | Some elected =>
      let session := em_session elected in
      let seniority :=
        if String.eqb (el_node_id e) (master_node_id session) && (0 <=? el_seniority e)
        then Z.max (el_seniority e) (Z.of_nat (length candidates)) else el_seniority e in
      let result :=
        {| er_session_id := session; er_won_clock := em_clock elected;
           er_is_new_master := negb (bool_decide (session = el_session e)) |} in
      Some (campaign_end i c (set_elected seniority session e), [result])
  end.

(** ** Connections *)

Definition cancel_confirm (s : nat) (m : gmap nat (string * bool)) : gmap nat (string * bool) :=
  alter (λ nc, (nc.1, true)) s m.

(** One message of a batch in [_connection_receiver]. *)
Definition peer_connected (n : string) (e : Elector) : Elector * list ElectionMessage :=
  let pending := delete n (el_pending e) in
  let confirms :=
    match el_pending e !! n with Some s => cancel_confirm s (el_confirms e) | None => el_confirms e end in
  if bool_decide (n ∈ el_connected e) then
    let e' := set_peers (el_connected e) pending confirms (el_state_changed e) e in
    (e', match el_pending e !! n with Some _ => [_election_status (el_clock e') e'] | None => [] end)
  else (set_peers ({[ n ]} ∪ el_connected e) pending confirms true e, []).

Definition peer_disconnected (n : string) (e : Elector) : Elector :=
  if negb (bool_decide (n ∈ el_connected e)) then e
  else if bool_decide (is_Some (el_pending e !! n)) then e
  else
    let s := el_next e in
    let e := set_peers (el_connected e) (<[n := s]> (el_pending e))
               (<[s := (n, false)]> (el_confirms e)) (el_state_changed e) e in
    {| el_node_id := el_node_id e; el_seniority := el_seniority e; el_clock := el_clock e;
       el_commands_seen := el_commands_seen e; el_connected := el_connected e;
       el_pending := el_pending e; el_worker := el_worker e; el_session := el_session e;
       el_lists := el_lists e; el_candidates := el_candidates e; el_campaigns := el_campaigns e;
       el_cancel_scope := el_cancel_scope e; el_done := el_done e; el_confirms := el_confirms e;
       el_state_changed := el_state_changed e; el_next := S s |}.

(** The end of a batch. *)
Definition batch_end (e : Elector) : Elector :=
  let changed := el_state_changed e in
  let e := set_peers (el_connected e) (el_pending e) (el_confirms e) false e in
  if changed then _start_new_campaign [] e else e.

(** [_confirm_disconnect], when its grace period or its cancellation wakes it. *)
Definition confirm_disconnect (s : nat) (n : string) (cancelled : bool) (e : Elector) : Elector :=
  let is_scope := bool_decide (el_pending e !! n = Some s) in
  let e1 :=
    if negb cancelled && is_scope && bool_decide (n ∈ el_connected e) then
      _start_new_campaign []
        (set_peers (el_connected e ∖ {[ n ]}) (el_pending e) (el_confirms e) (el_state_changed e) e)
    else e in
  set_peers (el_connected e1) (if is_scope then delete n (el_pending e1) else el_pending e1)
    (delete s (el_confirms e1)) (el_state_changed e1) e1.

(** ** A step of a node *)

Inductive ElectorOp :=
| Receive (m : ElectionMessage)
| PeerConnected (n : string)
| PeerDisconnected (n : string)
| BatchEnd
| ConfirmDisconnect (s : nat)
| CommandSeen
| WorkerMode (enabled : bool)
| CampaignBegin (i : nat)
| CampaignResume (i : nat)
| CampaignWake (i : nat)
| CampaignFinish (i : nat)
| CampaignCancelled (i : nat).

Definition is_done (i : nat) (e : Elector) : bool :=
  match el_campaigns e !! i with
  | Some {| cp_phase := Done |} => true
  | _ => false
  end.

(** [None] where the task is not at that point; else the new state, the messages broadcast and
    the results announced. *)
Definition elector_step (op : ElectorOp) (e : Elector)
  : option (Elector * list ElectionMessage * list ElectionResult) :=
  match op with
  | Receive m => Some (election_receive m e, [], [])
  | PeerConnected n => Some (peer_connected n e, [])
  | PeerDisconnected n => Some (peer_disconnected n e, [], [])
  | BatchEnd => Some (batch_end e, [], [])
  | ConfirmDisconnect s =>
      match el_confirms e !! s with
      | Some (n, cancelled) => Some (confirm_disconnect s n cancelled e, [], [])
      | None => None
      end
  | CommandSeen => Some (set_counters (el_commands_seen e + 1) (el_worker e) e, [], [])
  | WorkerMode enabled =>
      Some (if Bool.eqb (el_worker e) enabled then e
            else _start_new_campaign [] (set_counters (el_commands_seen e) enabled e), [], [])
  | CampaignBegin i =>
      match el_campaigns e !! i with
      | Some ({| cp_phase := Spawned |} as c) => Some (campaign_begin i c e, [])
      | _ => None
      end
  | CampaignResume i =>
      match el_campaigns e !! i with
      | Some ({| cp_phase := Waiting clock j |} as c) =>
          if is_done j e then Some (campaign_run i c clock e, []) else None
      | _ => None
      end
  | CampaignWake i =>
      match el_campaigns e !! i with
      | Some ({| cp_phase := Sleeping status; cp_cancelled := false |} as c) =>
          Some (set_phase i c (Woken status) e, [status], [])
      | _ => None
      end
  | CampaignFinish i =>
      match el_campaigns e !! i with
      | Some ({| cp_phase := Woken _; cp_cancelled := false |} as c) =>
          r ← campaign_finish i c e; Some (r.1, [], r.2)
      | _ => None
      end
  | CampaignCancelled i =>
      match el_campaigns e !! i with
      | Some ({| cp_phase := Sleeping _; cp_cancelled := true |} as c)
      | Some ({| cp_phase := Woken _; cp_cancelled := true |} as c) =>
          Some (campaign_end i c e, [], [])
      | _ => None
      end
  end.

(** [__init__], and [run] up to its first pause: a campaign with an empty list has begun. *)
Definition new_elector (node_id : string) (is_candidate : bool) (seniority : Z) (worker : bool)
    (initial_session_id : option SessionId) : Elector := {|
  el_node_id := node_id; el_seniority := if is_candidate then seniority else -1; el_clock := 0;
  el_commands_seen := 0; el_connected := ∅; el_pending := ∅; el_worker := worker;
  el_session := default {| master_node_id := node_id; election_clock := 0 |} initial_session_id;
  el_lists := {[ 0%nat := [] ]}; el_candidates := 0%nat;
  el_campaigns := {[ 0%nat := {| cp_list := 0; cp_phase := Spawned; cp_cancelled := false |} ]};
  el_cancel_scope := None; el_done := None; el_confirms := ∅; el_state_changed := false;
  el_next := 1%nat |}.

Definition start_election (e : Elector) : Elector * list ElectionMessage :=
  campaign_begin 0 {| cp_list := 0; cp_phase := Spawned; cp_cancelled := false |} e.
End election.
