(* ===== verification/ElectionProps.v ===== *)
(** * Properties of the election

    A network of nodes over a soup of messages that may be lost, repeated and reordered, and
    what holds in every state it reaches. *)
From Stdlib Require Import Ascii.
From S2P Require Import Prelude.
From S2P Require Import PyStr.
From S2P Require Import Election.
Local Open Scope Z_scope.
Set Default Proof Using "Type".

(** ** The greatest candidate *)

(** What [__lt__] compares. *)
Definition same_rank (a b : ElectionMessage) : Prop :=
  em_clock a = em_clock b ∧ em_seniority a = em_seniority b ∧ em_commands_seen a = em_commands_seen b
  ∧ master_node_id (em_session a) = master_node_id (em_session b).

Lemma str_ltb_trichotomy a b : str_ltb a b = false → str_ltb b a = false → a = b.
Proof.
  rewrite !str_ltb_leb, !negb_false_iff. intros ? ?. by apply str_leb_antisym.
Qed.

Lemma str_ltb_irrefl a : str_ltb a a = false.
Proof. rewrite str_ltb_leb, negb_false_iff. apply str_leb_refl. Qed.

Lemma em_lt_rank a b : em_lt a b = false → em_lt b a = false → same_rank a b.
Proof.
  unfold em_lt, same_rank. rewrite (Z.eqb_sym (em_clock b)), (Z.eqb_sym (em_seniority b)),
    (Z.eqb_sym (em_commands_seen b)).
  destruct (Z.eqb_spec (em_clock a) (em_clock b)) as [|]; cbn [negb]; [|intros; exfalso; lia].
  destruct (Z.eqb_spec (em_seniority a) (em_seniority b)) as [|]; cbn [negb]; [|intros; exfalso; lia].
  destruct (Z.eqb_spec (em_commands_seen a) (em_commands_seen b)) as [|]; cbn [negb];
    [|intros; exfalso; lia].
  intros ? ?. split_and!; [done..|]. by apply str_ltb_trichotomy.
Qed.

Lemma em_lt_irrefl a : em_lt a a = false.
Proof. unfold em_lt. rewrite !Z.eqb_refl. cbn. apply str_ltb_irrefl. Qed.

Lemma em_lt_trans_false a b c : em_lt a b = false → em_lt b c = false → em_lt a c = false.
Proof.
  unfold em_lt.
  destruct (Z.eqb_spec (em_clock a) (em_clock b)), (Z.eqb_spec (em_clock b) (em_clock c)),
    (Z.eqb_spec (em_clock a) (em_clock c)); cbn [negb]; try lia.
  destruct (Z.eqb_spec (em_seniority a) (em_seniority b)), (Z.eqb_spec (em_seniority b) (em_seniority c)),
    (Z.eqb_spec (em_seniority a) (em_seniority c)); cbn [negb]; try lia.
  destruct (Z.eqb_spec (em_commands_seen a) (em_commands_seen b)),
    (Z.eqb_spec (em_commands_seen b) (em_commands_seen c)),
    (Z.eqb_spec (em_commands_seen a) (em_commands_seen c)); cbn [negb]; try lia.
  rewrite !str_ltb_leb, !negb_false_iff. eauto using str_leb_trans.
Qed.

Lemma em_lt_asym a b : em_lt a b = true → em_lt b a = false.
Proof.
  intros Hab. destruct (em_lt b a) eqn:Hba; [|done]. revert Hab Hba. unfold em_lt.
  rewrite (Z.eqb_sym (em_clock b)), (Z.eqb_sym (em_seniority b)), (Z.eqb_sym (em_commands_seen b)).
  repeat (case_match; [lia|]). rewrite !str_ltb_leb, !negb_true_iff.
  destruct (str_leb_total (master_node_id (em_session a)) (master_node_id (em_session b))); congruence.
Qed.

(** [max] returns a candidate that none exceeds. *)
Lemma max_candidate_spec l m :
  max_candidate l = Some m → m ∈ l ∧ ∀ x, x ∈ l → em_lt m x = false.
Proof.
  destruct l as [|m0 l]; [done|]. cbn. intros [= <-].
  induction l as [|x l IH] using rev_ind; cbn.
  - split; [by left|]. intros x ->%list_elem_of_singleton. apply em_lt_irrefl.
  - rewrite foldl_snoc. destruct IH as [Hin Hmax]. set (best := foldl _ m0 l) in *.
    rewrite app_comm_cons. destruct (em_lt best x) eqn:E.
    + split; [apply elem_of_app; right; by left|].
      intros y [Hy| ->%list_elem_of_singleton]%elem_of_app; [|apply em_lt_irrefl].
      eapply em_lt_trans_false; [by apply em_lt_asym|by apply Hmax].
    + split; [apply elem_of_app; by left|].
      intros y [Hy| ->%list_elem_of_singleton]%elem_of_app; [by apply Hmax|done].
Qed.

(** Two lists with the same candidates, in any order and number, have greatest candidates that
    no comparison tells apart. *)
Lemma max_candidate_agree l1 l2 m1 m2 :
  (∀ m, m ∈ l1 ↔ m ∈ l2) → max_candidate l1 = Some m1 → max_candidate l2 = Some m2 → same_rank m1 m2.
Proof.
  intros Heq [Hin1 Hmax1]%max_candidate_spec [Hin2 Hmax2]%max_candidate_spec.
  apply em_lt_rank; [apply Hmax1|apply Hmax2]; by apply Heq.
Qed.

(** ** The network *)

Section network.
Context (RECLAIM_ENABLED : bool) (SENIORITY_BONUS : Z).

Local Abbreviation step := (elector_step RECLAIM_ENABLED SENIORITY_BONUS).

(** Every message ever broadcast, and every result ever announced, with its node. *)
Record Net := {
  electors : gmap string Elector;
  soup : list ElectionMessage;
  announced : list (string * ElectionResult)
}.

(** A node's own messages may come back to it. *)
Inductive net_step (N : Net) : Net → Prop :=
| net_elector n e op e' sent results :
    electors N !! n = Some e →
    (∀ m, op = Receive m → m ∈ soup N) →
    step op e = Some (e', sent, results) →
    net_step N {| electors := <[n := e']> (electors N); soup := soup N ++ sent;
                  announced := announced N ++ map (λ r, (n, r)) results |}.

(** Who starts: whether it is a candidate, its seniority, and whether its worker is on. *)
Definition Config : Type := gmap string (bool * Z * bool).

Definition started (n : string) (c : bool * Z * bool) : Elector * list ElectionMessage :=
  start_election RECLAIM_ENABLED SENIORITY_BONUS (new_elector n c.1.1 c.1.2 c.2 None).

Definition start_net (cfg : Config) : Net := {|
  electors := map_imap (λ n c, Some (started n c).1) cfg;
  soup := map_to_list cfg ≫= λ nc, (started nc.1 nc.2).2;
  announced := [] |}.

Definition is_candidate (cfg : Config) (n : string) : Prop := ∃ s w, cfg !! n = Some (true, s, w).

(** ** The invariant of a node *)

Section invariant.
Context (bonus_nonneg : 0 ≤ SENIORITY_BONUS) (cand : string → Prop).

(** A message with the seniority of a candidate proposes a candidate. *)
Definition message_ok (m : ElectionMessage) : Prop :=
  0 ≤ em_seniority m → cand (master_node_id (em_session m)).

(** The clock of a campaign that has begun. *)
Definition phase_clock (p : Phase) : option Z :=
  match p with
  | Waiting c _ => Some c
  | Sleeping st | Woken st => Some (em_clock st)
  | Spawned | Done => None
  end.

Definition list_of (e : Elector) (r : nat) : list ElectionMessage := default [] (el_lists e !! r).

Record elector_ok (e : Elector) : Prop := {
  eo_candidate : cand (el_node_id e) ↔ 0 ≤ el_seniority e;
  eo_session : cand (el_node_id e) → cand (master_node_id (el_session e));
  eo_lists : ∀ r m, m ∈ list_of e r → message_ok m ∧ em_clock m ≤ el_clock e;
  eo_current : (el_candidates e < el_next e)%nat;
  eo_campaign : ∀ i c, el_campaigns e !! i = Some c → cp_list c = i ∧ (i < el_next e)%nat;
  eo_clock : ∀ i c k, el_campaigns e !! i = Some c → phase_clock (cp_phase c) = Some k →
    k ≤ el_clock e ∧ (i = el_candidates e → el_clock e = k) ∧ ∀ m, m ∈ list_of e i → em_clock m ≤ k;
  eo_status : ∀ i c st, el_campaigns e !! i = Some c →
    cp_phase c = Sleeping st ∨ cp_phase c = Woken st →
    st ∈ list_of e i ∧ message_ok st ∧ (cand (el_node_id e) → 0 ≤ em_seniority st)
}.

Lemma status_ok c e :
  elector_ok e →
  let st := _election_status RECLAIM_ENABLED SENIORITY_BONUS c e in
  em_clock st = c ∧ message_ok st ∧ (cand (el_node_id e) → 0 ≤ em_seniority st).
Proof using bonus_nonneg.
  intros [Hc Hs _ _ _ _ _]. cbn zeta. split; [done|]. split.
  - unfold message_ok, _election_status. cbn [em_seniority em_session]. intros Hsen.
    assert (0 ≤ el_seniority e) as H0 by (destruct (0 <=? el_seniority e) eqn:?; cbn in Hsen; lia).
    apply Hc in H0 as Hcand. rewrite (proj2 (Z.ltb_ge _ _) H0). cbn [andb].
    match goal with |- context [if ?b then el_session e else _] => destruct b end; [by apply Hs|done].
  - intros H0%Hc. unfold _election_status. cbn [em_seniority].
    rewrite (proj2 (Z.leb_le _ _) H0). cbn [andb]. destruct (el_worker e); lia.
Qed.

(** What the invariant reads of a node. *)
Lemma elector_ok_frame e e' :
  el_node_id e' = el_node_id e → el_seniority e' = el_seniority e → el_session e' = el_session e →
  el_clock e' = el_clock e → el_lists e' = el_lists e → el_candidates e' = el_candidates e →
  el_campaigns e' = el_campaigns e → (el_next e ≤ el_next e')%nat → elector_ok e → elector_ok e'.
Proof.
  intros Hn Hs Hse Hc Hl Hca Hcam Hnext [].
  constructor; unfold list_of in *; rewrite ?Hn, ?Hs, ?Hse, ?Hc, ?Hl, ?Hca, ?Hcam; try done; [lia|].
  intros i c Hi. apply eo_campaign0 in Hi as [? ?]. split; [done|lia].
Qed.

(** A round begins: the clock moves on and a campaign with a new list is scheduled. *)
Lemma spawn_ok c l e :
  elector_ok e → el_clock e < c → (∀ m, m ∈ l → message_ok m ∧ em_clock m ≤ c) →
  elector_ok (spawn_campaign l (set_clock c e)).
Proof.
  intros [Hca Hs Hl Hcur Hcam Hcl Hst] Hc Hnew.
  assert (∀ r, list_of (spawn_campaign l (set_clock c e)) r
               = if decide (r = el_next e) then l else list_of e r) as Hlist.
  { intros r. unfold list_of. cbn. destruct (decide (r = el_next e)) as [->|Hne].
    - by rewrite lookup_insert_eq.
    - by rewrite lookup_insert_ne by done. }
  assert (∀ i x, el_campaigns (spawn_campaign l (set_clock c e)) !! i = Some x →
    (i = el_next e ∧ x = {| cp_list := i; cp_phase := Spawned; cp_cancelled := false |})
    ∨ (i ≠ el_next e ∧ el_campaigns e !! i = Some x)) as Hcamp.
  { intros i x. cbn. intros [[<- <-]|[Hi Hx]]%lookup_insert_Some; auto. }
  constructor; [done..| | | | |].
  - intros r m. rewrite Hlist. cbn [el_clock spawn_campaign set_clock].
    case_decide; [apply Hnew|]. intros [? ?]%Hl. split; [done|lia].
  - cbn. lia.
  - intros i x [[-> ->]|[Hi Hx]]%Hcamp; cbn; [split; [done|lia]|].
    apply Hcam in Hx as [? ?]. split; [done|lia].
  - intros i x k [[-> ->]|[Hi Hx]]%Hcamp Hk; [done|]. rewrite Hlist, decide_False by done.
    cbn [el_clock el_candidates spawn_campaign set_clock].
    destruct (Hcl _ _ _ Hx Hk) as (? & _ & ?). split_and!; [lia|done|done].
  - intros i x st [[-> ->]|[Hi Hx]]%Hcamp Hph; [by destruct Hph|].
    rewrite Hlist, decide_False by done. by apply (Hst _ _ _ Hx).
Qed.

(** A message joins a list. *)
Lemma append_ok r m e :
  elector_ok e → message_ok m → em_clock m ≤ el_clock e →
  (∀ c k, el_campaigns e !! r = Some c → phase_clock (cp_phase c) = Some k → em_clock m ≤ k) →
  elector_ok (set_list r (list_of e r ++ [m]) e).
Proof.
  intros [Hca Hs Hl Hcur Hcam Hcl Hst] Hm Hc Hr.
  assert (∀ i x, x ∈ list_of (set_list r (list_of e r ++ [m]) e) i ↔ x ∈ list_of e i ∨ (i = r ∧ x = m)) as Hlist.
  { intros i x. unfold list_of at 1. cbn. destruct (decide (i = r)) as [->|Hne].
    - rewrite lookup_insert_eq. cbn. rewrite elem_of_app, list_elem_of_singleton. naive_solver.
    - rewrite lookup_insert_ne by done. unfold list_of. naive_solver. }
  constructor; [done..| |done|done| |].
  - intros i x [Hx|[-> ->]]%Hlist; [by apply (Hl i)|done].
  - intros i c k Hi Hk. destruct (Hcl _ _ _ Hi Hk) as (? & ? & ?). split_and!; [done|done|].
    intros x [Hx|[-> ->]]%Hlist; [auto|]. by apply (Hr c).
  - intros i c st Hi Hph. destruct (Hst _ _ _ Hi Hph) as (? & ? & ?). split_and!; [|done|done].
    apply Hlist. by left.
Qed.

(** A campaign's task moves on. *)
Lemma set_phase_ok i c p e :
  elector_ok e → is_Some (el_campaigns e !! i) → cp_list c = i →
  (∀ k, phase_clock p = Some k →
     k ≤ el_clock e ∧ (i = el_candidates e → el_clock e = k) ∧ ∀ m, m ∈ list_of e i → em_clock m ≤ k) →
  (∀ st, p = Sleeping st ∨ p = Woken st →
     st ∈ list_of e i ∧ message_ok st ∧ (cand (el_node_id e) → 0 ≤ em_seniority st)) →
  elector_ok (set_phase i c p e).
Proof.
  intros [Hca Hs Hl Hcur Hcam Hcl Hst] [c0 Hi] Hc Hk Hp.
  assert (∀ j x, el_campaigns (set_phase i c p e) !! j = Some x →
    (j = i ∧ cp_list x = i ∧ cp_phase x = p) ∨ (j ≠ i ∧ el_campaigns e !! j = Some x)) as Hcamp.
  { intros j x. cbn. intros [[<- <-]|[Hj Hx]]%lookup_insert_Some; auto. }
  constructor; [done..| | |].
  - intros j x [(-> & ? & _)|[_ Hx]]%Hcamp; [|by apply Hcam]. split; [done|]. by apply Hcam in Hi as [_ ?].
  - intros j x k [(-> & _ & ->)|[_ Hx]]%Hcamp; [apply Hk|by apply Hcl].
  - intros j x st [(-> & _ & ->)|[_ Hx]]%Hcamp; [apply Hp|by apply Hst].
Qed.

(** Scopes and cancellation play no part. *)
Lemma set_scopes_ok campaigns scope done e :
  elector_ok e →
  (∀ i c', campaigns !! i = Some c' → ∃ c, el_campaigns e !! i = Some c ∧ cp_list c' = cp_list c
                                      ∧ cp_phase c' = cp_phase c) →
  elector_ok (set_campaigns campaigns scope done e).
Proof.
  intros [Hca Hs Hl Hcur Hcam Hcl Hst] Hsame. constructor; [done..| | |].
  - intros i c' (c & Hi & -> & _)%Hsame. by apply Hcam.
  - intros i c' k (c & Hi & _ & ->)%Hsame. by apply Hcl.
  - intros i c' st (c & Hi & _ & ->)%Hsame. by apply Hst.
Qed.

Lemma cancel_same j campaigns i c' :
  cancel_campaign j campaigns !! i = Some c' →
  ∃ c, campaigns !! i = Some c ∧ cp_list c' = cp_list c ∧ cp_phase c' = cp_phase c.
Proof.
  unfold cancel_campaign. rewrite lookup_alter. destruct (decide (j = i)) as [->|]; [|eauto].
  destruct (campaigns !! i) as [c|]; [|done]. intros [= <-]. by exists c.
Qed.

Local Abbreviation run := (campaign_run RECLAIM_ENABLED SENIORITY_BONUS).
Local Abbreviation begin := (campaign_begin RECLAIM_ENABLED SENIORITY_BONUS).

Lemma campaign_run_ok i c0 c k e :
  elector_ok e → el_campaigns e !! i = Some c0 → cp_list c = i →
  (∀ k', phase_clock (cp_phase c0) = Some k' → k' = k) →
  k ≤ el_clock e → (i = el_candidates e → el_clock e = k) → (∀ m, m ∈ list_of e i → em_clock m ≤ k) →
  elector_ok (run i c k e).1 ∧ Forall message_ok (run i c k e).2.
Proof using bonus_nonneg.
  intros Hok Hi Hc Hph Hk Hcur Hl. unfold campaign_run. rewrite Hc.
  set (e1 := set_campaigns (el_campaigns e) (Some i) (Some i) e).
  assert (elector_ok e1) as Hok1 by (apply set_scopes_ok; eauto).
  set (status := _election_status RECLAIM_ENABLED SENIORITY_BONUS k e1).
  destruct (status_ok k e1 Hok1) as (Hclock & Hmsg & Hsen). fold status in Hclock, Hmsg, Hsen.
  cbn [fst snd]. split; [|by repeat constructor]. fold (list_of e1 i).
  assert (elector_ok (set_list i (list_of e1 i ++ [status]) e1)) as Hok2.
  { apply append_ok; [done|done|cbn; lia|]. intros c' k' Hi' Hk'. cbn in Hi'.
    rewrite Hi in Hi'. injection Hi' as <-. rewrite Hclock, (Hph _ Hk'). done. }
  assert (list_of (set_list i (list_of e1 i ++ [status]) e1) i = list_of e i ++ [status]) as Hlist
    by (unfold list_of at 1; cbn; by rewrite lookup_insert_eq).
  apply set_phase_ok; [exact Hok2|by exists c0|done| |].
  - intros k'. cbn [phase_clock]. intros [= <-]. split_and!; [done|done|].
    rewrite Hlist. intros m [Hm| ->%list_elem_of_singleton]%elem_of_app; [by apply Hl|lia].
  - intros st [[= <-]|[=]]. rewrite Hlist. split_and!; [|done|done]. apply elem_of_app. right. by left.
Qed.

Lemma campaign_begin_ok i c e :
  elector_ok e → el_campaigns e !! i = Some c → cp_phase c = Spawned →
  elector_ok (begin i c e).1 ∧ Forall message_ok (begin i c e).2.
Proof using bonus_nonneg.
  intros Hok Hi Hph. unfold campaign_begin.
  set (e1 := match el_cancel_scope e with Some j => _ | None => e end).
  assert (elector_ok e1 ∧ el_clock e1 = el_clock e ∧ el_candidates e1 = el_candidates e
          ∧ (∀ r, list_of e1 r = list_of e r)
          ∧ ∃ c1, el_campaigns e1 !! i = Some c1 ∧ cp_phase c1 = Spawned) as (Hok1 & Hc1 & Hcur1 & Hl1 & c1 & Hi1 & Hph1).
  { subst e1. destruct (el_cancel_scope e) as [j|]; [|by eauto 10].
    split_and!; [apply set_scopes_ok; [done|apply cancel_same]|done..|]. cbn.
    unfold cancel_campaign. rewrite lookup_alter. destruct (decide (j = i)) as [->|]; rewrite Hi; cbn;
      eexists; (split; [reflexivity|done]). }
  destruct (eo_campaign _ Hok _ _ Hi) as [Hlist _].
  destruct (el_done e1) as [j|] eqn:E.
  - split; [|constructor]. apply set_phase_ok; [done|by exists c1|done| |by intros st [[=]|[=]]].
    intros k [= <-]. rewrite Hc1, Hl1. split_and!; [lia|done|]. intros m Hm. by apply (eo_lists _ Hok i).
  - apply (campaign_run_ok i c1); [done|done|done| |lia|done|].
    + intros k'. by rewrite Hph1.
    + intros m. rewrite Hl1. apply (eo_lists _ Hok i).
Qed.

Lemma campaign_end_ok i c e :
  elector_ok e → is_Some (el_campaigns e !! i) → cp_list c = i → elector_ok (campaign_end i c e).
Proof.
  intros Hok Hi Hc. unfold campaign_end. apply set_scopes_ok; [|eauto].
  apply set_phase_ok; [done|done|done|done|by intros st [[=]|[=]]].
Qed.

Lemma elected_ok e seniority session :
  elector_ok e → (cand (el_node_id e) → cand (master_node_id session)) →
  (0 ≤ seniority ↔ 0 ≤ el_seniority e) → elector_ok (set_elected seniority session e).
Proof.
  intros [Hca Hs Hl Hcur Hcam Hcl Hst] Hse Hsen. constructor; try done. cbn. by rewrite Hsen.
Qed.

(** The winner of a candidate's campaign is proposed by a candidate. *)
Lemma campaign_finish_ok i c st e e' rs :
  elector_ok e → el_campaigns e !! i = Some c → cp_phase c = Woken st →
  campaign_finish i c e = Some (e', rs) →
  elector_ok e' ∧ el_node_id e' = el_node_id e
  ∧ ∀ r, r ∈ rs → cand (el_node_id e) → cand (master_node_id (er_session_id r)).
Proof.
  intros Hok Hi Hph. destruct (eo_campaign _ Hok _ _ Hi) as [Hlist _].
  unfold campaign_finish. rewrite Hlist. fold (list_of e i).
  destruct (max_candidate (list_of e i)) as [m|] eqn:Hmax; [|done]. intros [= <- <-].
  apply max_candidate_spec in Hmax as [Hin Hmax].
  destruct (eo_status _ Hok i c st Hi) as (Hst & _ & Hsen); [by right|].
  destruct (eo_clock _ Hok i c (em_clock st) Hi) as (_ & _ & Hcl); [by rewrite Hph|].
  assert (cand (el_node_id e) → cand (master_node_id (em_session m))) as Hcand.
  { intros H0%Hsen. apply (eo_lists _ Hok i m Hin). specialize (Hmax _ Hst). specialize (Hcl _ Hin).
    unfold em_lt in Hmax. destruct (Z.eqb_spec (em_clock m) (em_clock st)); cbn [negb] in Hmax; [|lia].
    destruct (Z.eqb_spec (em_seniority m) (em_seniority st)); cbn [negb] in Hmax; lia. }
  split_and!; [|done|].
  - apply campaign_end_ok; [|by exists c|done]. apply elected_ok; [done|done|].
    destruct (String.eqb _ _); cbn [andb]; [|done]. destruct (Z.leb_spec 0 (el_seniority e)); lia.
  - by intros r ->%list_elem_of_singleton.
Qed.

Lemma start_new_ok l e :
  elector_ok e → (∀ m, m ∈ l → message_ok m) → elector_ok (_start_new_campaign l e).
Proof.
  intros Hok Hl. apply spawn_ok; [done|lia|].
  intros m (m' & -> & Hm)%list_elem_of_fmap. split; [|cbn; lia]. by apply (Hl m').
Qed.

Lemma receive_ok m e : elector_ok e → message_ok m → elector_ok (election_receive m e).
Proof.
  intros Hok Hm. unfold election_receive.
  destruct (Z.ltb_spec (el_clock e) (em_clock m)) as [Hlt|Hge].
  { apply spawn_ok; [done|done|]. intros x ->%list_elem_of_singleton. split; [done|lia]. }
  destruct (Z.ltb_spec (em_clock m) (el_clock e)) as [Hlt|Hge']; [done|].
  case_bool_decide; [case_bool_decide; [done|]|].
  - apply start_new_ok; [done|]. by intros x ->%list_elem_of_singleton.
  - apply append_ok; [done|done|lia|]. intros c k Hi Hk.
    destruct (eo_clock _ Hok _ _ _ Hi Hk) as (? & Hcur & _). rewrite <- Hcur by done. lia.
Qed.

Lemma set_peers_ok connected pending confirms changed e :
  elector_ok e → elector_ok (set_peers connected pending confirms changed e).
Proof. intros Hok. by apply (elector_ok_frame e). Qed.

Lemma confirm_ok s n cancelled e : elector_ok e → elector_ok (confirm_disconnect s n cancelled e).
Proof.
  intros Hok. unfold confirm_disconnect. apply set_peers_ok. case_match; [|done].
  apply start_new_ok; [by apply set_peers_ok|]. by intros m ?%not_elem_of_nil.
Qed.

Lemma peer_connected_ok n e :
  elector_ok e → elector_ok (peer_connected RECLAIM_ENABLED SENIORITY_BONUS n e).1
  ∧ Forall message_ok (peer_connected RECLAIM_ENABLED SENIORITY_BONUS n e).2.
Proof using bonus_nonneg.
  intros Hok. unfold peer_connected. case_bool_decide; cbn [fst snd]; (split; [by apply set_peers_ok|]); [|done].
  destruct (el_pending e !! n); [|done]. repeat constructor.
  apply status_ok. by apply set_peers_ok.
Qed.

(** Every step of a node keeps the invariant, and what the node then says is well. *)
Lemma elector_step_ok op e e' sent rs :
  elector_ok e → (∀ m, op = Receive m → message_ok m) → step op e = Some (e', sent, rs) →
  elector_ok e' ∧ el_node_id e' = el_node_id e ∧ Forall message_ok sent
  ∧ ∀ r, r ∈ rs → cand (el_node_id e) → cand (master_node_id (er_session_id r)).
Proof using bonus_nonneg.
  intros Hok Hop. assert (∀ r : ElectionResult, r ∈ [] → cand (el_node_id e) →
    cand (master_node_id (er_session_id r))) as Hnil by by intros r ?%not_elem_of_nil.
  assert (∀ m : ElectionMessage, m ∈ [] → message_ok m) as Hnone by by intros m ?%not_elem_of_nil.
  destruct op; cbn [elector_step].
  - (* receive *) intros [= <- <- <-]. split_and!; [by apply receive_ok, Hop| |done|done].
    unfold election_receive. repeat case_match; done.
  - (* connected *) intros [= Hrun <-]. destruct (peer_connected_ok n e Hok) as [Hok' Hsent].
    assert (el_node_id (peer_connected RECLAIM_ENABLED SENIORITY_BONUS n e).1 = el_node_id e) as Hid
      by (unfold peer_connected; by case_bool_decide).
    rewrite Hrun in *. by split_and!.
  - (* disconnected *) intros [= <- <- <-]. split_and!; [| |done|done]; unfold peer_disconnected;
      (case_match; [done|]); (case_match; [done|]); [|done].
    apply (elector_ok_frame e); cbn; try done. lia.
  - (* end of a batch *) intros [= <- <- <-]. split_and!; [| |done|done]; unfold batch_end;
      destruct (el_state_changed e); try done; [apply start_new_ok; [|done]|]; by apply set_peers_ok.
  - (* confirmed *) destruct (el_confirms e !! s) as [[n c]|]; [|done]. intros [= <- <- <-].
    split_and!; [by apply confirm_ok| |done|done]. unfold confirm_disconnect. by case_match.
  - (* command *) intros [= <- <- <-]. split_and!; [by apply (elector_ok_frame e)|done..].
  - (* worker mode *) intros [= <- <- <-]. destruct (Bool.eqb _ _); [done|].
    split_and!; [|done..]. apply start_new_ok; [by apply (elector_ok_frame e)|done].
  - (* begin *) destruct (el_campaigns e !! i) as [[r ph k]|] eqn:Hi; [|done].
    destruct ph; try done. intros [= Hrun <-]. destruct (campaign_begin_ok i _ e Hok Hi eq_refl) as [Hok' Hsent].
    assert (el_node_id (begin i {| cp_list := r; cp_phase := Spawned; cp_cancelled := k |} e).1 = el_node_id e)
      as Hid by (unfold campaign_begin; by repeat case_match).
    rewrite Hrun in *. by split_and!.
  - (* resume *) destruct (el_campaigns e !! i) as [[r ph k]|] eqn:Hi; [|done].
    destruct ph as [|clock j| | |]; try done. destruct (is_done j e); [|done]. intros [= <- <- <-].
    destruct (eo_campaign _ Hok _ _ Hi) as [Hlist _].
    destruct (eo_clock _ Hok _ _ clock Hi) as (? & ? & ?); [done|].
    destruct (campaign_run_ok i _ {| cp_list := r; cp_phase := Waiting clock j; cp_cancelled := k |} clock e Hok Hi)
      as [Hok' Hsent]; [done|by intros k' [= ->]|done..|]. by split_and!.
  - (* wake *) destruct (el_campaigns e !! i) as [[r ph k]|] eqn:Hi; [|done].
    destruct ph as [| |status| |]; try done. destruct k; [done|]. intros [= <- <- <-].
    destruct (eo_campaign _ Hok _ _ Hi) as [Hlist _].
    destruct (eo_status _ Hok _ _ status Hi) as (Hst & Hmsg & Hsen); [by left|].
    split_and!; [|done|by repeat constructor|done].
    apply set_phase_ok; [done|by eexists|done| |].
    + intros k' [= <-]. by apply (eo_clock _ Hok _ _ _ Hi).
    + intros st [[=]|[= <-]]. done.
  - (* finish *) destruct (el_campaigns e !! i) as [[r ph k]|] eqn:Hi; [|done].
    destruct ph as [| | |status|]; try done. destruct k; [done|].
    destruct (campaign_finish _ _ e) as [[e1 rs1]|] eqn:Hfin; [|done]. intros [= <- <- <-].
    destruct (campaign_finish_ok i _ status e e1 rs1 Hok Hi eq_refl Hfin) as (? & ? & ?). by split_and!.
  - (* cancelled *) destruct (el_campaigns e !! i) as [[r ph k]|] eqn:Hi; [|done].
    destruct (eo_campaign _ Hok _ _ Hi) as [Hlist _].
    destruct ph as [| |status|status|]; try done; (destruct k; [|done]); intros [= <- <- <-];
      (split_and!; [|done..]); (apply campaign_end_ok; [done|by eexists|done]).
Qed.
End invariant.

(** ** The invariant of the network *)

Section runs.
Context (bonus_nonneg : 0 ≤ SENIORITY_BONUS) (cfg : Config).
Context (seniority_nonneg : ∀ n c, cfg !! n = Some c → 0 ≤ c.1.2).

Local Abbreviation cand := (is_candidate cfg).

Record net_ok (N : Net) : Prop := {
  no_elector : ∀ n e, electors N !! n = Some e → el_node_id e = n ∧ elector_ok cand e;
  no_soup : Forall (message_ok cand) (soup N);
  no_announced : ∀ n r, (n, r) ∈ announced N → cand n → cand (master_node_id (er_session_id r))
}.

Lemma new_elector_ok n c : cfg !! n = Some c → elector_ok cand (new_elector n c.1.1 c.1.2 c.2 None).
Proof using seniority_nonneg.
  intros Hn. pose proof (seniority_nonneg n c Hn) as Hsen. destruct c as [[b s] w]. cbn [fst snd] in *.
  assert (∀ r, list_of (new_elector n b s w None) r = []) as Hl
    by (intros r; unfold list_of; cbn; destruct (decide (r = 0%nat)) as [->|];
        [by rewrite lookup_singleton_eq|by rewrite lookup_singleton_ne]).
  constructor.
  - cbn. unfold is_candidate. rewrite Hn. destruct b.
    + split; [done|by eauto].
    + split; [by intros (? & ? & [=])|lia].
  - done.
  - intros r m. rewrite Hl. by intros ?%not_elem_of_nil.
  - cbn. lia.
  - cbn. intros i c [<- <-]%lookup_singleton_Some. cbn. split; [done|lia].
  - cbn. by intros i c k [<- <-]%lookup_singleton_Some.
  - cbn. intros i c st [<- <-]%lookup_singleton_Some [|]; done.
Qed.

Lemma started_ok n c :
  cfg !! n = Some c → el_node_id (started n c).1 = n ∧ elector_ok cand (started n c).1
  ∧ Forall (message_ok cand) (started n c).2.
Proof using seniority_nonneg bonus_nonneg.
  intros Hn. unfold started, start_election. pose proof (new_elector_ok n c Hn) as Hok.
  split; [done|]. by apply campaign_begin_ok.
Qed.

Lemma start_net_ok : net_ok (start_net cfg).
Proof using seniority_nonneg bonus_nonneg.
  constructor.
  - intros n e. cbn [electors start_net]. rewrite map_lookup_imap. intros (c & Hn & Heq)%bind_Some.
    apply (inj Some) in Heq as <-. by destruct (started_ok n c Hn) as (? & ? & _).
  - cbn. apply Forall_forall. intros m. rewrite list_elem_of_bind.
    intros ([n c] & Hm & Hn%elem_of_map_to_list). destruct (started_ok n c Hn) as (_ & _ & Hall).
    by eapply Forall_forall.
  - cbn. by intros n r ?%not_elem_of_nil.
Qed.

Lemma net_step_ok N N' : net_ok N → net_step N N' → net_ok N'.
Proof using bonus_nonneg.
  intros [He Hsoup Hann] [n e op e' sent rs Hn Hop Hstep]. destruct (He n e Hn) as [Hid Hok].
  destruct (elector_step_ok bonus_nonneg cand op e e' sent rs Hok) as (Hok' & Hid' & Hsent & Hrs); [|done|].
  { intros m Hm. eapply Forall_forall; [exact Hsoup|by apply Hop]. }
  rewrite Hid in *. constructor; cbn.
  - intros n' x [[<- <-]|[_ Hx]]%lookup_insert_Some; [done|by apply He].
  - by apply Forall_app.
  - intros n' r [Hin|Hin]%elem_of_app; [by apply Hann|].
    apply list_elem_of_fmap in Hin as (r' & [= -> ->] & Hr'). by apply Hrs.
Qed.

Lemma net_reachable_ok N : rtc net_step (start_net cfg) N → net_ok N.
Proof using seniority_nonneg bonus_nonneg.
  intros Hrun. pose proof start_net_ok as Hok. revert Hok.
  induction Hrun as [|N1 N2 N3 Hstep _ IH]; [done|]. intros Hok. apply IH. by eapply net_step_ok.
Qed.
End runs.

(** ** One round of one node *)

Fixpoint run_elector (ops : list ElectorOp) (e : Elector)
  : option (Elector * list ElectionMessage * list ElectionResult) :=
  match ops with
  | [] => Some (e, [], [])
  | op :: ops' =>
      r ← step op e; r' ← run_elector ops' r.1.1; Some (r'.1.1, r.1.2 ++ r'.1.2, r.2 ++ r'.2)
  end.

(** The node sleeps in its current campaign, of its current round. *)
Definition campaigning (i : nat) (e : Elector) : Prop :=
  el_cancel_scope e = Some i ∧ el_candidates e = i
  ∧ ∃ c st, el_campaigns e !! i = Some c ∧ cp_list c = i ∧ cp_phase c = Sleeping st
            ∧ cp_cancelled c = false ∧ st ∈ list_of e i.

(** The messages of the round join the candidates; then the greatest is elected. *)
Lemma run_round msgs : ∀ i e,
  campaigning i e → Forall (λ m, em_clock m = el_clock e) msgs →
  ∃ e' sent m, run_elector (map Receive msgs ++ [CampaignWake i; CampaignFinish i]) e
    = Some (e', sent, [{| er_session_id := em_session m; er_won_clock := em_clock m;
                          er_is_new_master := negb (bool_decide (em_session m = el_session e)) |}])
    ∧ max_candidate (list_of e i ++ msgs) = Some m ∧ el_session e' = em_session m.
Proof.
  induction msgs as [|x msgs IH]; intros i e (Hscope & Hcur & c & st & Hi & Hlist & Hph & Hcan & Hst) Hall.
  - destruct c as [r ph k]. cbn in Hlist, Hph, Hcan. subst r ph k. rewrite app_nil_r.
    cbn [map app run_elector elector_step]. rewrite Hi. cbn [mbind option_bind fst snd].
    cbn [set_phase set_campaigns el_campaigns]. rewrite lookup_insert_eq.
    unfold campaign_finish. cbn [cp_list el_lists el_node_id el_seniority el_session set_phase set_campaigns].
    fold (list_of e i). destruct (max_candidate (list_of e i)) as [m|] eqn:Hmax.
    + cbn. eexists _, _, m. split_and!; done.
    + destruct (list_of e i); [by apply not_elem_of_nil in Hst|done].
  - apply Forall_cons in Hall as [Hx Hall].
    set (e1 := set_list i (list_of e i ++ [x]) e).
    assert (election_receive x e = e1) as Hrecv.
    { unfold election_receive. rewrite Hx, Z.ltb_irrefl, Hscope. cbn. by rewrite Hcur. }
    assert (list_of e1 i = list_of e i ++ [x]) as Hl1 by (unfold list_of at 1; cbn; by rewrite lookup_insert_eq).
    destruct (IH i e1) as (e' & sent & m & Hrun & Hmax & Hses).
    + split_and!; [done..|]. exists c, st. split_and!; [done..|]. rewrite Hl1. apply elem_of_app. by left.
    + done.
    + exists e', sent, m. cbn [map app run_elector elector_step]. rewrite Hrecv. cbn [mbind option_bind fst snd].
      rewrite Hrun. cbn [mbind option_bind fst snd app]. rewrite Hl1, <- app_assoc in Hmax. done.
Qed.
End network.

(** Candidates are led by candidates.  In every state that a network of nodes reaches from
    its start, whatever messages are lost, repeated or reordered, peers connect and disconnect,
    workers are switched on and off and rounds overlap, a node that is a master candidate is in
    a session whose master is a candidate, and has announced no other; nodes that are not
    candidates keep the seniority -1 that makes them lose. *)
Theorem candidates_led_by_candidates (RECLAIM_ENABLED : bool) (SENIORITY_BONUS : Z) (cfg : Config) (N : Net) :
  0 ≤ SENIORITY_BONUS → (∀ n c, cfg !! n = Some c → 0 ≤ c.1.2) →
  rtc (net_step RECLAIM_ENABLED SENIORITY_BONUS) (start_net RECLAIM_ENABLED SENIORITY_BONUS cfg) N →
  (∀ n e, electors N !! n = Some e → is_candidate cfg n →
     is_candidate cfg (master_node_id (el_session e)))
  ∧ (∀ n r, (n, r) ∈ announced N → is_candidate cfg n →
     is_candidate cfg (master_node_id (er_session_id r)))
  ∧ (∀ n e, electors N !! n = Some e → (is_candidate cfg n ↔ 0 ≤ el_seniority e)).
Proof.
  intros Hbonus Hsen Hrun. destruct (net_reachable_ok _ _ Hbonus cfg Hsen N Hrun) as [He _ Hann].
  split_and!; [|done|].
  - intros n e Hn. destruct (He n e Hn) as [<- Hok]. apply Hok.
  - intros n e Hn. destruct (He n e Hn) as [<- Hok]. apply Hok.
Qed.

(** Nodes that heard the same candidates agree.  Take two nodes of a network in any state it
    reaches, each asleep in the current campaign of its current round; if the messages of their
    rounds that then arrive make their candidates the same, in whatever order and however
    often, both campaigns end with an election, and both nodes follow and announce the same
    master, of the same round. *)
Theorem same_candidates_same_master (RECLAIM_ENABLED : bool) (SENIORITY_BONUS : Z) (cfg : Config) (N : Net)
    n1 n2 e1 e2 i1 i2 msgs1 msgs2 :
  0 ≤ SENIORITY_BONUS → (∀ n c, cfg !! n = Some c → 0 ≤ c.1.2) →
  rtc (net_step RECLAIM_ENABLED SENIORITY_BONUS) (start_net RECLAIM_ENABLED SENIORITY_BONUS cfg) N →
  electors N !! n1 = Some e1 → electors N !! n2 = Some e2 →
  campaigning i1 e1 → campaigning i2 e2 →
  Forall (λ m, em_clock m = el_clock e1) msgs1 → Forall (λ m, em_clock m = el_clock e2) msgs2 →
  (∀ m, m ∈ list_of e1 i1 ++ msgs1 ↔ m ∈ list_of e2 i2 ++ msgs2) →
  ∃ e1' e2' sent1 sent2 r1 r2,
    run_elector RECLAIM_ENABLED SENIORITY_BONUS
      (map Receive msgs1 ++ [CampaignWake i1; CampaignFinish i1]) e1 = Some (e1', sent1, [r1])
    ∧ run_elector RECLAIM_ENABLED SENIORITY_BONUS
      (map Receive msgs2 ++ [CampaignWake i2; CampaignFinish i2]) e2 = Some (e2', sent2, [r2])
    ∧ er_session_id r1 = el_session e1' ∧ er_session_id r2 = el_session e2'
    ∧ master_node_id (el_session e1') = master_node_id (el_session e2')
    ∧ er_won_clock r1 = el_clock e1 ∧ er_won_clock r2 = el_clock e1.
Proof.
  intros Hbonus Hsen Hrun Hn1 Hn2 Hc1 Hc2 Hm1 Hm2 Hsame.
  destruct (net_reachable_ok _ _ Hbonus cfg Hsen N Hrun) as [He _ _].
  destruct (He _ _ Hn1) as [_ Hok1].
  destruct (run_round RECLAIM_ENABLED SENIORITY_BONUS msgs1 i1 e1 Hc1 Hm1)
    as (e1' & s1 & m1 & Hrun1 & Hmax1 & Hs1).
  destruct (run_round RECLAIM_ENABLED SENIORITY_BONUS msgs2 i2 e2 Hc2 Hm2)
    as (e2' & s2 & m2 & Hrun2 & Hmax2 & Hs2).
  destruct (max_candidate_agree _ _ _ _ Hsame Hmax1 Hmax2) as (Hclock & _ & _ & Hmaster).
  assert (em_clock m1 = el_clock e1) as Hwon.
  { destruct Hc1 as (_ & Hcur & c & st & Hi & _ & Hph & _ & Hst).
    destruct (eo_clock _ _ Hok1 i1 c (em_clock st) Hi) as (_ & Hk & Hle); [by rewrite Hph|].
    pose proof Hmax1 as [Hin Hbest]%max_candidate_spec.
    assert (em_clock m1 ≤ el_clock e1) as Hup.
    { apply elem_of_app in Hin as [Hin|Hin]; [by apply (eo_lists _ _ Hok1 i1)|].
      eapply Forall_forall in Hm1; [|exact Hin]. cbn in Hm1. lia. }
    specialize (Hbest st (proj2 (elem_of_app _ _ _) (or_introl Hst))). rewrite Hk in * by done.
    unfold em_lt in Hbest. destruct (Z.eqb_spec (em_clock m1) (em_clock st)); cbn [negb] in Hbest; lia. }
  do 6 eexists. split; [exact Hrun1|]. split; [exact Hrun2|]. cbn [er_session_id er_won_clock].
  split_and!; [done|done|by rewrite Hs1, Hs2|done|by rewrite <- Hclock].
Qed.

(** ** Executions *)

(** A run of the network as a list of steps of named nodes; [None] if one is not possible. *)
Fixpoint run_net (reclaim : bool) (bonus : Z) (ops : list (string * ElectorOp)) (N : Net) : option Net :=
  match ops with
  | [] => Some N
  | (n, op) :: ops' =>
      e ← electors N !! n;
      r ← elector_step reclaim bonus op e;
      if match op with Receive m => bool_decide (m ∈ soup N) | _ => true end then
        run_net reclaim bonus ops'
          {| electors := <[n := r.1.1]> (electors N); soup := soup N ++ r.1.2;
             announced := announced N ++ map (λ x, (n, x)) r.2 |}
      else None
  end.

Lemma run_net_reachable reclaim bonus ops : ∀ N N',
  run_net reclaim bonus ops N = Some N' → rtc (net_step reclaim bonus) N N'.
Proof.
  induction ops as [|[n op] ops IH]; intros N N'; cbn [run_net]; [by intros [= <-]|].
  destruct (electors N !! n) as [e|] eqn:Hn; cbn [mbind option_bind]; [|done].
  destruct (elector_step reclaim bonus op e) as [[[e' sent] rs]|] eqn:Hs; cbn [mbind option_bind fst snd]; [|done].
  destruct (match op with Receive m => _ | _ => true end) eqn:Hr; [|done]. intros HN.
  eapply rtc_l; [|by apply IH]. econstructor; [exact Hn| |exact Hs].
  intros m ->. by apply bool_decide_eq_true in Hr.
Qed.

(** A candidate [a] and a node [b] that is none.  Both elect themselves at once; then they meet,
    and [b]'s connection starts round 1, which [a] joins. *)
Definition demo_cfg : Config := {[ "a" := (true, 0, true); "b" := (false, 0, false) ]}.

Definition meet : list (string * ElectorOp) := [
  ("a", CampaignWake 0); ("a", CampaignFinish 0); ("b", CampaignWake 0); ("b", CampaignFinish 0);
  ("b", PeerConnected "a"); ("a", PeerConnected "b"); ("b", BatchEnd); ("b", CampaignBegin 1);
  ("b", CampaignResume 1)].

Definition start_demo : Net := start_net false 1000 demo_cfg.

Definition after (ops : list (string * ElectorOp)) : Net := default start_demo (run_net false 1000 ops start_demo).

(** What [b] says in round 1, and what [a] answers. *)
Definition b_status : ElectionMessage :=
  {| em_clock := 1; em_seniority := -1; em_session := {| master_node_id := "a"; election_clock := 1 |};
     em_commands_seen := 0 |}.
Definition a_status : ElectionMessage :=
  {| em_clock := 1; em_seniority := 1001; em_session := {| master_node_id := "a"; election_clock := 0 |};
     em_commands_seen := 0 |}.

Definition join : list (string * ElectorOp) :=
  meet ++ [("a", Receive b_status); ("a", CampaignBegin 1); ("a", CampaignResume 1)].

Definition elector_of (N : Net) (n : string) : Elector :=
  default (new_elector n false 0 false None) (electors N !! n).

Lemma demo_seniority n c : demo_cfg !! n = Some c → 0 ≤ c.1.2.
Proof.
  unfold demo_cfg. intros [[<- <-]|[_ [<- <-]%lookup_singleton_Some]]%lookup_insert_Some; cbn; lia.
Qed.

Definition rounds_done : list (string * ElectorOp) :=
  join ++ [("b", Receive a_status); ("b", CampaignWake 1); ("b", CampaignFinish 1);
           ("a", CampaignWake 1); ("a", CampaignFinish 1)].

Lemma candidates_led_by_candidates_witness :
  master_node_id (el_session (elector_of (after rounds_done) "b")) = "a"
  ∧ (∀ n e, electors (after rounds_done) !! n = Some e → is_candidate demo_cfg n →
     is_candidate demo_cfg (master_node_id (el_session e))).
Proof.
  split; [vm_compute; reflexivity|].
  apply (candidates_led_by_candidates false 1000 demo_cfg (after rounds_done)).
  - lia.
  - apply demo_seniority.
  - apply (run_net_reachable _ _ rounds_done). vm_compute. reflexivity.
Defined.

Lemma campaigning_a : campaigning 1 (elector_of (after join) "a").
Proof.
  split; [vm_compute; reflexivity|]. split; [vm_compute; reflexivity|].
  eexists {| cp_list := 1; cp_phase := Sleeping a_status; cp_cancelled := false |}, a_status.
  split_and!; try (vm_compute; reflexivity). apply list_elem_of_lookup. exists 1%nat. vm_compute. reflexivity.
Qed.

Lemma campaigning_b : campaigning 1 (elector_of (after join) "b").
Proof.
  split; [vm_compute; reflexivity|]. split; [vm_compute; reflexivity|].
  eexists {| cp_list := 1; cp_phase := Sleeping b_status; cp_cancelled := false |}, b_status.
  split_and!; try (vm_compute; reflexivity). apply list_elem_of_lookup. exists 0%nat. vm_compute. reflexivity.
Qed.

Lemma same_candidates_same_master_witness :
  ∃ e1' e2' sent1 sent2 r1 r2,
    run_elector false 1000 (map Receive [a_status; b_status] ++ [CampaignWake 1; CampaignFinish 1])
      (elector_of (after join) "a") = Some (e1', sent1, [r1])
    ∧ run_elector false 1000 (map Receive [a_status; a_status] ++ [CampaignWake 1; CampaignFinish 1])
      (elector_of (after join) "b") = Some (e2', sent2, [r2])
    ∧ er_session_id r1 = el_session e1' ∧ er_session_id r2 = el_session e2'
    ∧ master_node_id (el_session e1') = master_node_id (el_session e2')
    ∧ er_won_clock r1 = el_clock (elector_of (after join) "a")
    ∧ er_won_clock r2 = el_clock (elector_of (after join) "a").
Proof.
  apply (same_candidates_same_master false 1000 demo_cfg (after join) "a" "b" _ _ 1 1 _ _).
  - lia.
  - apply demo_seniority.
  - apply (run_net_reachable _ _ join). vm_compute. reflexivity.
  - vm_compute. reflexivity.
  - vm_compute. reflexivity.
  - apply campaigning_a.
  - apply campaigning_b.
  - repeat constructor.
  - repeat constructor.
  - assert (list_of (elector_of (after join) "a") 1 = [b_status; a_status]) as -> by (vm_compute; reflexivity).
    assert (list_of (elector_of (after join) "b") 1 = [b_status]) as -> by (vm_compute; reflexivity).
    intros m. cbn. rewrite !elem_of_cons. tauto.
Defined.

(** ** Overlapping campaigns

    A campaign that waits for a cancelled one is not seen by a third: here round 1 is running
    when messages of rounds 2 and 3 arrive, and the campaigns of both then run, neither
    cancelled, so that round 2 can still be decided and announced in round 3. *)
Definition rival (clock : Z) : ElectionMessage :=
  {| em_clock := clock; em_seniority := 0; em_session := {| master_node_id := "z"; election_clock := 0 |};
     em_commands_seen := 0 |}.

Definition overlapping : list ElectorOp := [
  CampaignWake 0; CampaignFinish 0; Receive (rival 1); CampaignBegin 1; CampaignResume 1;
  Receive (rival 2); CampaignBegin 2; Receive (rival 3); CampaignCancelled 1; CampaignBegin 3;
  CampaignResume 2; CampaignResume 3].

Lemma stale_campaign_survives :
  match run_elector false 1000 overlapping (started false 1000 "a" (true, 0, false)).1 with
  | Some (e, _, _) =>
      el_clock e = 3 ∧ el_cancel_scope e = Some 3%nat
      ∧ cp_cancelled <$> el_campaigns e !! 2%nat = Some false
      ∧ match run_elector false 1000 [CampaignWake 2; CampaignFinish 2] e with
        | Some (_, _, [r]) => er_won_clock r = 2
        | _ => False
        end
  | None => False
  end.
Proof. vm_compute. auto. Qed.
