(* ===== verification/WorkerPlan.v ===== *)
(** * What a worker does next

    [worker/plan.py], the planner of a worker, and the states of the llama.cpp runner it drives
    ([worker/runner/llama_cpp/runner.py], [handle_task]).  Dicts that are walked are lists of
    pairs in their order.  Whether the files of a shard are ready on a node, which
    [model_distribution] and the file system decide, is a parameter. *)
From Stdlib Require Import Ascii QArith.
From S2P Require Import Prelude.
From S2P Require Import PyStr.
From S2P Require Import PyVal.
From S2P Require Import EventBuffer.
From S2P Require Import Topology.
From S2P Require Import RuntimeState.
Local Open Scope Z_scope.
Set Default Proof Using "Type".

(** [d.get(k)] on a dict kept in its order. *)
Definition assoc {A} (k : string) (d : list (string * A)) : option A :=
  snd <$> List.find (λ kv, String.eqb kv.1 k) d.

(** [for x in l: ... return ...]: the first result of a body that may raise. *)
Fixpoint first_r {A B} (f : A → result (option B)) (l : list A) : result (option B) :=
  match l with
  | [] => Ok None
  | x :: l' =>
      match f x with
      | Ok None => first_r f l'
      | r => r
      end
  end.

(** [all(... for x in l)] with a test that may raise. *)
Fixpoint all_r {A} (f : A → result bool) (l : list A) : result bool :=
  match l with
  | [] => Ok true
  | x :: l' =>
      match f x with
      | Ok true => all_r f l'
      | r => r
      end
  end.

(** The supervisor of a runner process; its status is the last the process sent. *)
Record RunnerSupervisor := {
  rs_bound : BoundInstance;
  rs_status : RunnerStatus;
  rs_in_progress : gset string;
  rs_completed : gset string;
  rs_cancelled : gset string
}.

Definition rs_instance (r : RunnerSupervisor) : Instance := bound_instance (rs_bound r).

(** [bound_shard] *)
Definition bound_shard (r : RunnerSupervisor) : result ShardMetadata :=
  match assoc (bound_runner_id (rs_bound r)) (runner_to_shard (rs_instance r)) with
  | Some s => Ok s
  | None => Err AssertionError
  end.

(** ** Tests of statuses *)

Definition is_idle (s : RunnerStatus) : bool := match s with RunnerIdle => true | _ => false end.
Definition is_connecting (s : RunnerStatus) : bool := match s with RunnerConnecting => true | _ => false end.
Definition is_connected (s : RunnerStatus) : bool := match s with RunnerConnected => true | _ => false end.
Definition is_loading (s : RunnerStatus) : bool := match s with RunnerLoading _ _ => true | _ => false end.
Definition is_loaded (s : RunnerStatus) : bool := match s with RunnerLoaded => true | _ => false end.
Definition is_warming_up (s : RunnerStatus) : bool := match s with RunnerWarmingUp => true | _ => false end.
Definition is_ready (s : RunnerStatus) : bool := match s with RunnerReady => true | _ => false end.
Definition is_running (s : RunnerStatus) : bool := match s with RunnerRunning => true | _ => false end.
Definition is_failed (s : RunnerStatus) : bool := match s with RunnerFailed _ => true | _ => false end.

(** [isinstance(all_runners.get(r), ...)] *)
Definition status_is (p : RunnerStatus → bool) (all_runners : gmap string RunnerStatus) (r : string) : bool :=
  match all_runners !! r with Some s => p s | None => false end.

Definition all_status (p : RunnerStatus → bool) (all_runners : gmap string RunnerStatus) (rs : list string)
  : bool := forallb (status_is p all_runners) rs.

Definition runner_ids (i : Instance) : list string := map fst (runner_to_shard i).

Section plan.
Context (files_ready : string → string → string → ShardMetadata → bool).
Context (new_task_id : string).

Definition mk_task (kind : TaskKind) (instance : string) : Task :=
  {| task_kind := kind; task_id := new_task_id; task_status := Pending; task_instance_id := instance;
     error_type := None; error_message := None; task_rest := VNone |}.

(** ** Readiness of models *)

Definition _has_download_completed (node_id model_id : string)
    (global_download_status : gmap string (list DownloadProgress)) : bool :=
  match global_download_status !! node_id with
  | Some l =>
      existsb (λ dp, bool_decide (dp_kind dp = DownloadCompleted) && String.eqb (dp_model_id dp) model_id) l
  | None => false
  end.

Definition _llama_cpp_node_chunk_ready (local_node_id target_node_id : string) (i : Instance) : bool :=
  match assoc target_node_id (node_to_runner i) with
  | None => false
  | Some r =>
      match assoc r (runner_to_shard i) with
      | None => false
      | Some shard =>
          if negb (bool_decide (sh_inference_backend shard = LlamaCpp)) then false
          else files_ready local_node_id target_node_id r shard
      end
  end.

Definition _node_ready_for_model_load (local_node_id target_node_id : string) (i : Instance)
    (global_download_status : gmap string (list DownloadProgress)) : bool :=
  _has_download_completed target_node_id (sa_model_id i) global_download_status
  || _llama_cpp_node_chunk_ready local_node_id target_node_id i.

(** ** The planners *)

Definition _cancel_tasks (runners : list (string * RunnerSupervisor)) (tasks : list (string * Task))
  : result (option Task) :=
  first_r (λ t,
    if negb (bool_decide (task_status t = Cancelled)) then Ok None
    else
      first_r (λ kv : string * RunnerSupervisor,
        if negb (String.eqb (task_instance_id t) (instance_id (rs_instance kv.2))) then Ok None
        else if bool_decide (task_id t ∈ rs_cancelled kv.2) then Ok None
        else Ok (Some (mk_task (CancelTask (task_id t) kv.1) (task_instance_id t)))) runners)
    (map snd tasks).

Definition _kill_runner (runners : list (string * RunnerSupervisor))
    (all_runners : gmap string RunnerStatus) (insts : list (string * Instance)) : result (option Task) :=
  first_r (λ r,
    let runner_id := bound_runner_id (rs_bound r) in
    let i := rs_instance r in
    let kill := Ok (Some (mk_task (Shutdown runner_id) (instance_id i))) in
    if negb (bool_decide (instance_id i ∈ map fst insts)) then kill
    else if is_failed (rs_status r) then kill
    else if existsb (λ g, negb (String.eqb runner_id g) && status_is is_failed all_runners g)
              (map snd (node_to_runner i)) then kill
    else Ok None) (map snd runners).

Definition _create_runner (now : Q) (node_id : string) (runners : list (string * RunnerSupervisor))
    (all_runners : gmap string RunnerStatus) (insts : list (string * Instance))
    (instance_backoff : KeyedBackoff string) : result (option Task) :=
  first_r (λ i,
    match assoc node_id (node_to_runner i) with
    | None => Ok None
    | Some runner_id =>
        if bool_decide (runner_id ∈ map fst runners) then Ok None
        else
          let instance_has_failed_runner :=
            existsb (λ g, negb (String.eqb g runner_id) && status_is is_failed all_runners g)
              (map snd (node_to_runner i)) in
          let we_have_failed_before := status_is is_failed all_runners runner_id in
          if instance_has_failed_runner && negb we_have_failed_before then Ok None
          else
            proceed ← should_proceed now (instance_id i) instance_backoff;
            if negb proceed then Ok None
            else if negb (bool_decide (runner_id ∈ runner_ids i)) then
              Err (ValueError "Bound Instance must be constructed with a runner_id of its instance")
            else
              Ok (Some (mk_task (CreateRunner {| bound_instance := i; bound_runner_id := runner_id;
                                                 bound_node_id := node_id |}) (instance_id i)))
    end) (map snd insts).

Definition _model_needs_download (now : Q) (node_id : string) (runners : list (string * RunnerSupervisor))
    (global_download_status : gmap string (list DownloadProgress)) (tasks : list (string * Task))
    (download_backoff : KeyedBackoff string) : result (option Task) :=
  let local_downloads := default [] (global_download_status !! node_id) in
  let download_status model := List.find (λ dp, String.eqb (dp_model_id dp) model) (rev local_downloads) in
  let pending_download_models :=
    omap (M:=list) (λ t, match task_kind t with
                         | DownloadModel s =>
                             if bool_decide (task_status t ∈ [Pending; Running])
                             then Some (sh_model_id s) else None
                         | _ => None
                         end) (map snd tasks) in
  first_r (λ r,
    shard ← bound_shard r;
    let model_id := sh_model_id shard in
    let local_chunk_ready :=
      bool_decide (sh_inference_backend shard = LlamaCpp)
      && _llama_cpp_node_chunk_ready node_id node_id (rs_instance r) in
    if is_idle (rs_status r) && negb local_chunk_ready
       && negb (bool_decide (model_id ∈ pending_download_models))
       && match download_status model_id with
          | None => true
          | Some dp => bool_decide (dp_kind dp = DownloadPending)
          end
    then
      match should_proceed now model_id download_backoff with
      | Ok true => Ok (Some (mk_task (DownloadModel shard) (instance_id (rs_instance r))))
      | Ok false => Ok None
      | Err e => Err e
      end
    else Ok None) (map snd runners).

Definition _init_distributed_backend (runners : list (string * RunnerSupervisor))
    (all_runners : gmap string RunnerStatus) : result (option Task) :=
  first_r (λ r,
    let i := rs_instance r in
    let connect := Ok (Some (mk_task ConnectToGroup (instance_id i))) in
    if (length (runner_to_shard i) =? 1)%nat then Ok None
    else
      shard ← bound_shard r;
      if bool_decide (sh_inference_backend shard = LlamaCpp) then
        let all_runners_connectable :=
          all_status (λ s, is_idle s || is_connecting s || is_connected s) all_runners (runner_ids i) in
        if is_idle (rs_status r) && all_runners_connectable then connect else Ok None
      else
        let all_runners_connecting :=
          all_status (λ s, is_connecting s || is_idle s) all_runners (runner_ids i) in
        if negb (is_idle (rs_status r) && all_runners_connecting) then Ok None
        else if negb (device_rank shard <? world_size shard) || (device_rank shard <? 0)
        then Err AssertionError
        else
          let accepting_ranks := device_rank shard <? world_size shard - 1 in
          let connecting_rank_ready :=
            (device_rank shard =? world_size shard - 1)
            && all_status is_connecting all_runners
                 (filter (λ g, g ≠ bound_runner_id (rs_bound r)) (runner_ids i)) in
          if negb (accepting_ranks || connecting_rank_ready) then Ok None else connect)
    (map snd runners).

Definition _load_model (runners : list (string * RunnerSupervisor)) (all_runners : gmap string RunnerStatus)
    (global_download_status : gmap string (list DownloadProgress)) : result (option Task) :=
  first_r (λ r,
    let i := rs_instance r in
    let load := Ok (Some (mk_task LoadModel (instance_id i))) in
    let all_local_downloads_complete :=
      forallb (λ nid, _node_ready_for_model_load (bound_node_id (rs_bound r)) nid i global_download_status)
        (map fst (node_to_runner i)) in
    if negb all_local_downloads_complete then Ok None
    else if (length (runner_to_shard i) =? 1)%nat && is_idle (rs_status r) then load
    else
      let all_ready_for_model :=
        all_status (λ s, is_connected s || is_loading s || is_loaded s) all_runners (runner_ids i) in
      if is_connected (rs_status r) && all_ready_for_model then load else Ok None)
    (map snd runners).

Definition _ready_to_warmup (runners : list (string * RunnerSupervisor))
    (all_runners : gmap string RunnerStatus) : result (option Task) :=
  first_r (λ r,
    let i := rs_instance r in
    let warm := Ok (Some (mk_task StartWarmup (instance_id i))) in
    shard ← bound_shard r;
    if bool_decide (sh_inference_backend shard = LlamaCpp) then
      let all_ready_for_warmup :=
        all_status (λ s, is_loaded s || is_warming_up s || is_ready s) all_runners (runner_ids i) in
      if is_loaded (rs_status r) && all_ready_for_warmup then warm else Ok None
    else if negb (device_rank shard <? world_size shard) || (device_rank shard <? 0)
    then Err AssertionError
    else
      let accepting_ranks_ready :=
        (0 <? device_rank shard)
        && all_status (λ s, is_loaded s || is_warming_up s) all_runners (runner_ids i) in
      let connecting_rank_ready :=
        (device_rank shard =? 0)
        && all_status is_warming_up all_runners
             (filter (λ g, g ≠ bound_runner_id (rs_bound r)) (runner_ids i)) in
      if is_loaded (rs_status r) && (accepting_ranks_ready || connecting_rank_ready) then warm else Ok None)
    (map snd runners).

Definition _runner_accepts_pending_task (r : RunnerSupervisor) (t : Task) : result bool :=
  match task_kind t with
  | TextGeneration _ _ =>
      shard ← bound_shard r;
      Ok (if negb (bool_decide (sh_inference_backend shard = LlamaCpp)) then true
          else if world_size shard <=? 1 then true
          else device_rank shard =? 0)
  | _ => Ok true
  end.

(** The command and the number of image chunks of a task that generates something. *)
Definition generation (t : Task) : option (string * Z) :=
  match task_kind t with
  | TextGeneration c n | ImageEdits c n => Some (c, n)
  | ImageGeneration c => Some (c, 0)
  | _ => None
  end.

Definition _pending_tasks (runners : list (string * RunnerSupervisor)) (tasks : list (string * Task))
    (all_runners : gmap string RunnerStatus) (input_chunk_buffer : gmap string Z) : result (option Task) :=
  let up s := is_ready s || is_running s in
  first_r (λ t,
    match generation t with
    | None => Ok None
    | Some (cmd_id, expected_image_chunks) =>
        if negb (bool_decide (task_status t ∈ [Pending; Running])) then Ok None
        else if (0 <? expected_image_chunks)
                && (default 0 (input_chunk_buffer !! cmd_id) <? expected_image_chunks) then Ok None
        else
          first_r (λ r,
            if negb (String.eqb (task_instance_id t) (instance_id (rs_instance r))) then Ok None
            else
              accepts ← _runner_accepts_pending_task r t;
              if negb accepts then Ok None
              else if bool_decide (task_id t ∈ rs_completed r) || bool_decide (task_id t ∈ rs_in_progress r)
              then Ok None
              else if negb (up (rs_status r)) then Ok None
              else
                match all_r (λ g, match all_runners !! g with
                                  | Some s => Ok (up s)
                                  | None => Err (KeyError g)
                                  end) (runner_ids (rs_instance r)) with
                | Ok true => Ok (Some t)
                | Ok false => Ok None
                | Err e => Err e
                end) (map snd runners)
    end) (map snd tasks).

(** [a or b] of calls that may raise. *)
Definition or_else {A} (a b : result (option A)) : result (option A) :=
  match a with Ok None => b | r => r end.

Definition plan (now : Q) (node_id : string) (runners : list (string * RunnerSupervisor))
    (global_download_status : gmap string (list DownloadProgress)) (insts : list (string * Instance))
    (all_runners : gmap string RunnerStatus) (tasks : list (string * Task))
    (input_chunk_buffer : gmap string Z) (instance_backoff download_backoff : KeyedBackoff string)
  : result (option Task) :=
  or_else (_cancel_tasks runners tasks)
  (or_else (_kill_runner runners all_runners insts)
  (or_else (_create_runner now node_id runners all_runners insts instance_backoff)
  (or_else (_init_distributed_backend runners all_runners)
  (or_else (_model_needs_download now node_id runners global_download_status tasks download_backoff)
  (or_else (_load_model runners all_runners global_download_status)
  (or_else (_ready_to_warmup runners all_runners)
           (_pending_tasks runners tasks all_runners input_chunk_buffer))))))).
End plan.

(** ** The runner

    [handle_task] of the llama.cpp runner, as the status it takes when it accepts a task and the
    one it has when the task is complete; a task outside its state machine raises. *)
Definition handle_task (kind : TaskKind) (current_status : RunnerStatus)
  : result (RunnerStatus * RunnerStatus) :=
  match kind, current_status with
  | ConnectToGroup, RunnerIdle => Ok (RunnerConnecting, RunnerConnected)
  | LoadModel, (RunnerIdle | RunnerConnected) => Ok (RunnerLoading 0 1, RunnerLoaded)
  | StartWarmup, RunnerLoaded => Ok (RunnerWarmingUp, RunnerReady)
  | TextGeneration _ _, RunnerReady => Ok (RunnerRunning, RunnerReady)
  | Shutdown _, _ => Ok (RunnerShuttingDown, RunnerShutdown)
  | _, _ => Err (ValueError "Received a task outside of the state machine")
  end.
