(* ===== verification/WorkerProps.v ===== *)
(** * Starting an instance

    The nodes of an instance each run the planner on what they know of the others, which may be
    old; their runners go through connecting, loading and warming up together, without a
    coordinator that tells them when.  Every interleaving ends with all of them ready. *)
From Stdlib Require Import Ascii QArith.
From S2P Require Import Prelude.
From S2P Require Import PyStr.
From S2P Require Import PyVal.
From S2P Require Import EventBuffer.
From S2P Require Import Topology.
From S2P Require Import RuntimeState.
From S2P Require Import WorkerPlan.
Local Open Scope Z_scope.
Set Default Proof Using "Type".

(** ** Loops *)

Lemma first_r_none {A B} (f : A → result (option B)) l :
  Forall (λ x, f x = Ok None) l → first_r f l = Ok None.
Proof. induction 1 as [|x l Hx _ IH]; cbn; [done|]. by rewrite Hx. Qed.

Lemma first_r_one {A B} (f : A → result (option B)) x : first_r f [x] = f x.
Proof. cbn. by destruct (f x) as [[]|]. Qed.

Lemma assoc_elem {A} k (v : A) d : NoDup (map fst d) → (k, v) ∈ d → assoc k d = Some v.
Proof.
  intros Hnd Hin. unfold assoc. induction d as [|[k' v'] d IH]; [by apply not_elem_of_nil in Hin|].
  apply NoDup_cons in Hnd as [Hk Hnd]. cbn. apply elem_of_cons in Hin as [[= -> ->]|Hin].
  - by rewrite String.eqb_refl.
  - destruct (String.eqb_spec k' k) as [->|]; [|by apply IH].
    destruct Hk. apply list_elem_of_fmap. by exists (k, v).
Qed.

(** ** The cluster *)

Section startup.
Context (files_ready : string → string → string → ShardMetadata → bool) (fresh : string).
Context (inst : Instance) (downloads : gmap string (list DownloadProgress)) (tasks : list (string * Task)).
Context (now : Q) (instance_backoff download_backoff : KeyedBackoff string).

(** The statuses of the runners, and what each node knows of them. *)
Record Cluster := {
  cl_runners : gmap string RunnerStatus;
  cl_views : gmap string (gmap string RunnerStatus)
}.

Definition view (c : Cluster) (n : string) : gmap string RunnerStatus := default ∅ (cl_views c !! n).

(** How far a runner is on its way. *)
Definition stage (s : option RunnerStatus) : nat :=
  match s with
  | None => 0
  | Some RunnerIdle => 1
  | Some RunnerConnecting => 2
  | Some RunnerConnected => 3
  | Some (RunnerLoading _ _) => 4
  | Some RunnerLoaded => 5
  | Some RunnerWarmingUp => 6
  | Some RunnerReady => 7
  | Some _ => 8
  end.

Definition at_stage (c : Cluster) (r : string) : nat := stage (cl_runners c !! r).

Definition members : list (string * string) := node_to_runner inst.
Definition single : bool := (length (runner_to_shard inst) =? 1)%nat.

Definition supervisor (n r : string) (st : RunnerStatus) : RunnerSupervisor :=
  {| rs_bound := {| bound_instance := inst; bound_runner_id := r; bound_node_id := n |};
     rs_status := st; rs_in_progress := ∅; rs_completed := ∅; rs_cancelled := ∅ |}.

(** What the planner of node [n] says. *)
Definition node_plan (c : Cluster) (n r : string) : result (option Task) :=
  plan files_ready fresh now n
    (match cl_runners c !! r with Some st => [(r, supervisor n r st)] | None => [] end)
    downloads [(instance_id inst, inst)] (view c n) tasks ∅ instance_backoff download_backoff.

(** A runner works on a task, and what it is when it has done so. *)
Definition finished (st : RunnerStatus) : option RunnerStatus :=
  match st with
  | RunnerConnecting => Some RunnerConnected
  | RunnerLoading _ _ => Some RunnerLoaded
  | RunnerWarmingUp => Some RunnerReady
  | _ => None
  end.

Definition with_runner (r : string) (st : RunnerStatus) (c : Cluster) : Cluster :=
  {| cl_runners := <[r := st]> (cl_runners c); cl_views := cl_views c |}.

Definition with_view (n r : string) (s : RunnerStatus) (c : Cluster) : Cluster :=
  {| cl_runners := cl_runners c; cl_views := <[n := <[r := s]> (view c n)]> (cl_views c) |}.

(** A node creates its runner or gives it a task, a runner finishes one if that is [allowed], or
    a node hears of a status that a runner has, or once had, and that is newer than what it
    knew. *)
Inductive step (allowed : Cluster → string → Prop) (c : Cluster) : Cluster → Prop :=
| step_create n r t b :
    (n, r) ∈ members → cl_runners c !! r = None → node_plan c n r = Ok (Some t) →
    task_kind t = CreateRunner b → step allowed c (with_runner (bound_runner_id b) RunnerIdle c)
| step_task n r st t st1 st2 :
    (n, r) ∈ members → cl_runners c !! r = Some st → finished st = None →
    node_plan c n r = Ok (Some t) → handle_task (task_kind t) st = Ok (st1, st2) →
    step allowed c (with_runner r st1 c)
| step_finish r st st' :
    cl_runners c !! r = Some st → finished st = Some st' → allowed c r →
    step allowed c (with_runner r st' c)
| step_hear n r st s :
    n ∈ map fst members → cl_runners c !! r = Some st →
    (stage (view c n !! r) < stage (Some s) ≤ stage (Some st))%nat →
    step allowed c (with_view n r s c).

(** The coordinator's connecting may end only when the servers of the others are up, which they are
    once the others are connected; any other task ends by itself.  [anyway] is weaker: tasks
    may end whenever. *)
Definition anyway (c : Cluster) (r : string) : Prop := True.

Definition is_coordinator (r : string) : bool :=
  match assoc r (runner_to_shard inst) with Some s => device_rank s =? 0 | None => false end.

Definition can_finish (c : Cluster) (r : string) : Prop :=
  at_stage c r = 2%nat → is_coordinator r = true →
  ∀ r', r' ∈ map snd members → r' ≠ r → (3 ≤ at_stage c r')%nat.

Definition empty_cluster : Cluster := {| cl_runners := ∅; cl_views := ∅ |}.

(** The models are on disk, no task is cancelled or waits to be run, and runners may be
    created. *)
Record startable : Prop := {
  sb_nodes : NoDup (map fst members);
  sb_runners : NoDup (map snd members);
  sb_shards : map fst (runner_to_shard inst) ≡ₚ map snd members;
  sb_model : ∀ r s, (r, s) ∈ runner_to_shard inst → sh_model_id s = sa_model_id inst;
  sb_coordinator : ∀ r1 r2, is_coordinator r1 = true → is_coordinator r2 = true → r1 = r2;
  sb_downloads : ∀ n, n ∈ map fst members →
    ∃ dp, List.find (λ dp, String.eqb (dp_model_id dp) (sa_model_id inst))
            (rev (default [] (downloads !! n))) = Some dp ∧ dp_kind dp = DownloadCompleted;
  sb_tasks : Forall (λ t, task_status t ≠ Cancelled ∧ generation t = None) (map snd tasks);
  sb_proceed : should_proceed now (instance_id inst) instance_backoff = Ok true
}.

(** ** What the planner says *)

Section planner.
Context (Hs : startable).

Lemma member_runner n r : (n, r) ∈ members → r ∈ runner_ids inst.
Proof using Hs.
  intros Hin. unfold runner_ids. rewrite (sb_shards Hs). apply list_elem_of_fmap. by exists (n, r).
Qed.

Lemma shards_nodup : NoDup (map fst (runner_to_shard inst)).
Proof using Hs. rewrite (sb_shards Hs). apply Hs. Qed.

Lemma member_shard n r :
  (n, r) ∈ members → ∃ s, assoc r (runner_to_shard inst) = Some s ∧ sh_model_id s = sa_model_id inst.
Proof using Hs.
  intros Hin%member_runner. unfold runner_ids in Hin. apply list_elem_of_fmap in Hin as ([r' s] & -> & Hin).
  exists s. split; [apply assoc_elem; [apply shards_nodup|done]|by eapply (sb_model Hs)].
Qed.

Lemma all_downloaded : forallb (λ nid, _has_download_completed nid (sa_model_id inst) downloads) (map fst members) = true.
Proof using Hs.
  apply forallb_forall. intros n Hn%list_elem_of_In. destruct (sb_downloads Hs n Hn) as (dp & Hdp & Hk).
  unfold _has_download_completed. apply find_some in Hdp as [Hin Hm]. apply in_rev in Hin.
  destruct (downloads !! n) as [l|]; [|done]. apply existsb_exists. exists dp. split; [done|].
  by rewrite Hk, Hm, bool_decide_true.
Qed.

Definition connectable (v : gmap string RunnerStatus) : bool :=
  all_status (λ s, is_idle s || is_connecting s || is_connected s) v (runner_ids inst).
Definition loadable (v : gmap string RunnerStatus) : bool :=
  all_status (λ s, is_connected s || is_loading s || is_loaded s) v (runner_ids inst).
Definition warmable (v : gmap string RunnerStatus) : bool :=
  all_status (λ s, is_loaded s || is_warming_up s || is_ready s) v (runner_ids inst).

(** The planner's answer in a start: the next task for the runner's status, if what the node
    knows of the others allows it. *)
Definition next_kind (n r : string) (st : option RunnerStatus) (v : gmap string RunnerStatus)
  : option TaskKind :=
  match st with
  | None => Some (CreateRunner {| bound_instance := inst; bound_runner_id := r; bound_node_id := n |})
  | Some RunnerIdle =>
      if single then Some LoadModel else if connectable v then Some ConnectToGroup else None
  | Some RunnerConnected => if loadable v then Some LoadModel else None
  | Some RunnerLoaded => if warmable v then Some StartWarmup else None
  | _ => None
  end.

Lemma cancel_none runners : _cancel_tasks fresh runners tasks = Ok None.
Proof using Hs.
  apply first_r_none. eapply Forall_impl; [exact (sb_tasks Hs)|]. cbn. intros t [Ht _].
  by rewrite bool_decide_false.
Qed.

Lemma pending_none runners v b : _pending_tasks runners tasks v b = Ok None.
Proof using Hs.
  apply first_r_none. eapply Forall_impl; [exact (sb_tasks Hs)|]. cbn. by intros t [_ ->].
Qed.

Lemma no_failed_view v (l : list string) (f : string → bool) :
  (∀ r s, v !! r = Some s → is_failed s = false) →
  existsb (λ g, f g && status_is is_failed v g) l = false.
Proof.
  intros Hv. apply not_true_iff_false. rewrite existsb_exists. intros (g & _ & Hg).
  apply andb_true_iff in Hg as [_ Hg]. unfold status_is in Hg. destruct (v !! g) eqn:E; [|done].
  rewrite (Hv _ _ E) in Hg. done.
Qed.

Lemma node_plan_none c n r :
  (n, r) ∈ members → cl_runners c !! r = None →
  (∀ r' s, view c n !! r' = Some s → is_failed s = false) →
  node_plan c n r
  = Ok (Some (mk_task fresh (CreateRunner {| bound_instance := inst; bound_runner_id := r;
                                             bound_node_id := n |}) (instance_id inst))).
Proof using Hs.
  intros Hin Hr Hv. unfold node_plan, plan. rewrite Hr, cancel_none. cbn [or_else _kill_runner first_r map].
  unfold _create_runner. cbn [map snd]. rewrite first_r_one.
  rewrite (assoc_elem n r) by (apply Hs || done). cbn [map fst].
  rewrite bool_decide_false by apply not_elem_of_nil.
  rewrite no_failed_view by done. cbn [andb]. rewrite (sb_proceed Hs). cbn.
  by rewrite bool_decide_true by by eapply member_runner.
Qed.

Lemma node_plan_some c n r st :
  (n, r) ∈ members → cl_runners c !! r = Some st → (stage (Some st) ≤ 7)%nat →
  (∀ r' s, view c n !! r' = Some s → is_failed s = false) →
  node_plan c n r
  = Ok ((λ k, mk_task fresh k (instance_id inst)) <$> next_kind n r (Some st) (view c n)).
Proof using Hs.
  intros Hin Hr Hst Hv. unfold node_plan, plan. rewrite Hr, cancel_none. cbn [or_else].
  destruct (member_shard n r Hin) as (sh & Hsh & Hmodel).
  assert (bound_shard (supervisor n r st) = Ok sh) as Hbs by (unfold bound_shard; cbn; by rewrite Hsh).
  assert (∀ b : bool, is_failed st = b → b = false) as Hnf by (destruct st; cbn in Hst; try lia; by intros ? <-).
  (* nothing is killed or created *)
  unfold _kill_runner. cbn [map snd]. rewrite first_r_one. cbn [rs_instance rs_bound supervisor bound_instance
    bound_runner_id rs_status map fst].
  rewrite bool_decide_true by by left. rewrite (Hnf _ eq_refl), no_failed_view by done. cbn [negb or_else].
  unfold _create_runner. cbn [map snd]. rewrite first_r_one.
  rewrite (assoc_elem n r) by (apply Hs || done). cbn [map fst].
  rewrite bool_decide_true by by left. cbn [or_else].
  (* nothing is downloaded *)
  assert (_model_needs_download files_ready fresh now n [(r, supervisor n r st)] downloads tasks download_backoff
          = Ok None) as Hdown.
  { unfold _model_needs_download. cbn [map snd]. rewrite first_r_one, Hbs. cbn [mbind result_bind].
    rewrite Hmodel. destruct (sb_downloads Hs n) as (dp & -> & Hk); [apply list_elem_of_fmap; by exists (n, r)|].
    rewrite Hk, (bool_decide_false (DownloadCompleted = DownloadPending)), !andb_false_r by done. done. }
  (* the three steps of a start *)
  unfold _init_distributed_backend, _load_model, _ready_to_warmup. cbn [map snd]. rewrite !first_r_one, Hbs.
  cbn [mbind result_bind rs_instance rs_bound supervisor bound_instance bound_node_id rs_status].
  assert (sh_inference_backend sh = LlamaCpp) as Hback by by destruct (sh_inference_backend sh).
  rewrite bool_decide_true by done. rewrite Hdown, pending_none.
  fold single members (connectable (view c n)) (loadable (view c n)) (warmable (view c n)).
  assert (forallb (λ nid, _node_ready_for_model_load files_ready n nid inst downloads) (map fst members) = true) as ->.
  { pose proof all_downloaded as Hall. rewrite forallb_forall in Hall. apply forallb_forall.
    intros nid Hnid. unfold _node_ready_for_model_load. by rewrite (Hall _ Hnid). }
  cbn [negb]. unfold next_kind. destruct single; destruct st; cbn in Hst; try lia; cbn; try done;
    repeat match goal with |- context [if ?b then _ else _] => destruct b end; try done.
Qed.

(** ** The invariant *)

Record cluster_ok (c : Cluster) : Prop := {
  co_path : ∀ r st, cl_runners c !! r = Some st → r ∈ map snd members ∧ (stage (Some st) ≤ 7)%nat;
  co_single : single = true → ∀ r, at_stage c r ≠ 2%nat ∧ at_stage c r ≠ 3%nat;
  co_views : ∀ n r s, view c n !! r = Some s → (stage (Some s) ≤ at_stage c r)%nat;
  co_lockstep : ∀ r1 r2, r1 ∈ map snd members → r2 ∈ map snd members →
    ((4 ≤ at_stage c r1 → 3 ≤ at_stage c r2) ∧ (6 ≤ at_stage c r1 → 5 ≤ at_stage c r2))%nat
}.

Lemma at_stage_max c r : cluster_ok c → (at_stage c r ≤ 7)%nat.
Proof.
  intros Hok. unfold at_stage. destruct (cl_runners c !! r) as [st|] eqn:E; [|cbn; lia].
  by destruct (co_path _ Hok _ _ E).
Qed.

Lemma view_not_failed c n r s : cluster_ok c → view c n !! r = Some s → is_failed s = false.
Proof.
  intros Hok Hv. apply (co_views _ Hok) in Hv. pose proof (at_stage_max c r Hok).
  destruct s; try done. cbn in Hv. lia.
Qed.

Lemma at_stage_with_runner c r st r' :
  at_stage (with_runner r st c) r' = if decide (r' = r) then stage (Some st) else at_stage c r'.
Proof.
  unfold at_stage. cbn. destruct (decide (r' = r)) as [->|Hne].
  - by rewrite lookup_insert_eq.
  - by rewrite lookup_insert_ne by done.
Qed.

(** A runner may move on if the others have come far enough. *)
Lemma advance_ok c r st :
  cluster_ok c → r ∈ map snd members → (at_stage c r ≤ stage (Some st) ≤ 7)%nat →
  (single = true → stage (Some st) ≠ 2%nat ∧ stage (Some st) ≠ 3%nat) →
  (∀ r', r' ∈ map snd members → r' ≠ r →
     ((4 ≤ stage (Some st) → 3 ≤ at_stage c r') ∧ (6 ≤ stage (Some st) → 5 ≤ at_stage c r'))%nat) →
  cluster_ok (with_runner r st c).
Proof.
  intros [Hp Hsi Hv Hl] Hr Hst Hsingle Hothers. constructor.
  - intros r' st'. cbn [cl_runners with_runner]. intros [[<- <-]|[_ Hr']]%lookup_insert_Some; [by split; [|lia]|by apply Hp].
  - intros H r'. rewrite at_stage_with_runner. case_decide; [by apply Hsingle|by apply Hsi].
  - intros n r' s Hle%Hv. rewrite at_stage_with_runner. case_decide as E; [subst; lia|done].
  - intros r1 r2 H1 H2. rewrite !at_stage_with_runner. specialize (Hl r1 r2 H1 H2) as Hl12.
    destruct (decide (r1 = r)) as [->|H1r], (decide (r2 = r)) as [->|H2r]; [lia| |lia|done].
    by apply Hothers.
Qed.

Lemma all_status_view c n p k :
  cluster_ok c → all_status p (view c n) (runner_ids inst) = true →
  (∀ s, p s = true → (k ≤ stage (Some s))%nat) →
  ∀ r, r ∈ map snd members → (k ≤ at_stage c r)%nat.
Proof using Hs.
  intros Hok Hall Hk r Hr. unfold all_status in Hall. rewrite forallb_forall in Hall.
  assert (status_is p (view c n) r = true) as Hp.
  { apply Hall, list_elem_of_In. unfold runner_ids. by rewrite (sb_shards Hs). }
  unfold status_is in Hp. destruct (view c n !! r) as [s|] eqn:E; [|done].
  apply (co_views _ Hok) in E. specialize (Hk s Hp). lia.
Qed.

Lemma single_member r r' : single = true → r ∈ map snd members → r' ∈ map snd members → r' = r.
Proof using Hs.
  intros Hone%Nat.eqb_eq Hr Hr'. pose proof (Permutation_length (sb_shards Hs)) as Hlen.
  rewrite length_map, Hone in Hlen. destruct (map snd members) as [|x [|]]; try done.
  apply list_elem_of_singleton in Hr, Hr'. by subst.
Qed.

(** Each task the planner gives is one its runner accepts, and moves it on in step. *)
Lemma task_ok c n r st k :
  cluster_ok c → (n, r) ∈ members → cl_runners c !! r = Some st →
  next_kind n r (Some st) (view c n) = Some k →
  ∃ st1 st2, handle_task k st = Ok (st1, st2) ∧ finished st1 = Some st2
    ∧ (at_stage c r < stage (Some st1))%nat ∧ cluster_ok (with_runner r st1 c).
Proof using Hs.
  intros Hok Hin Hr Hk. assert (r ∈ map snd members) as Hmem by (apply list_elem_of_fmap; by exists (n, r)).
  assert (at_stage c r = stage (Some st)) as Hat by (unfold at_stage; by rewrite Hr).
  assert (∀ p m st1, all_status p (view c n) (runner_ids inst) = true →
    (∀ s, p s = true → (m ≤ stage (Some s))%nat) → (stage (Some st) ≤ stage (Some st1) ≤ 7)%nat →
    (4 ≤ stage (Some st1))%nat → (3 ≤ m)%nat → (6 ≤ stage (Some st1) → 5 ≤ m)%nat →
    cluster_ok (with_runner r st1 c)) as Hmove.
  { intros p m st1 Hall Hm Hst1 H4 H3 H6. apply advance_ok; [done|done|lia|lia|].
    intros r' Hr' _. pose proof (all_status_view c n p m Hok Hall Hm r' Hr'). lia. }
  destruct st; cbn [next_kind] in Hk; try done.
  - (* idle *) destruct single eqn:Es.
    + injection Hk as <-. do 2 eexists. split_and!; [done|done|rewrite Hat; cbn; lia|].
      apply advance_ok; [done|done|rewrite Hat; cbn; lia|cbn; lia|].
      intros r' Hr' Hne. destruct Hne. by apply single_member.
    + destruct (connectable (view c n)); [|done]. injection Hk as <-.
      do 2 eexists. split_and!; [done|done|rewrite Hat; cbn; lia|].
      apply advance_ok; [done|done|rewrite Hat; cbn; lia|by rewrite Es|]. cbn. lia.
  - (* connected *) destruct (loadable (view c n)) eqn:El; [|done]. injection Hk as <-.
    do 2 eexists. split_and!; [done|done|rewrite Hat; cbn; lia|].
    eapply (Hmove _ 3%nat); [exact El| |cbn; lia..]. intros s. destruct s; cbn; try done; lia.
  - (* loaded *) destruct (warmable (view c n)) eqn:El; [|done]. injection Hk as <-.
    do 2 eexists. split_and!; [done|done|rewrite Hat; cbn; lia|].
    eapply (Hmove _ 5%nat); [exact El| |cbn; lia..]. intros s. destruct s; cbn; try done; lia.
Qed.

Lemma finish_ok c r st st' :
  cluster_ok c → cl_runners c !! r = Some st → finished st = Some st' →
  (at_stage c r < stage (Some st'))%nat ∧ cluster_ok (with_runner r st' c).
Proof.
  intros Hok Hr Hf. destruct (co_path _ Hok _ _ Hr) as [Hmem _].
  assert (at_stage c r = stage (Some st)) as Hat by (unfold at_stage; by rewrite Hr).
  assert (∀ r', r' ∈ map snd members → _) as Hl by (intros r' Hr'; exact (co_lockstep _ Hok r r' Hmem Hr')).
  split; [destruct st; cbn in Hf; try done; injection Hf as <-; rewrite Hat; cbn; lia|].
  apply advance_ok; [done|done| | |].
  - rewrite Hat. destruct st; cbn in Hf; try done; injection Hf as <-; cbn; lia.
  - intros Hone. pose proof (co_single _ Hok Hone r) as Hno. rewrite Hat in Hno.
    destruct st; cbn in Hf; try done; injection Hf as <-; cbn in *; lia.
  - intros r' Hr' _. specialize (Hl r' Hr'). rewrite Hat in Hl.
    destruct st; cbn in Hf; try done; injection Hf as <-; cbn in *; lia.
Qed.

(** ** Runs *)

Definition nodes_ : list string := map fst members.
Definition runners_ : list string := map snd members.

(** Each step moves one of these sums on. *)
Definition progress (c : Cluster) : nat :=
  sum_list_with (at_stage c) runners_
  + sum_list_with (λ n, sum_list_with (λ r, stage (view c n !! r)) runners_) nodes_.

Definition enough_steps : nat := 7 * length runners_ * S (length nodes_).

Lemma sum_le {A} (f g : A → nat) l : (∀ x, x ∈ l → (f x ≤ g x)%nat) → (sum_list_with f l ≤ sum_list_with g l)%nat.
Proof.
  induction l as [|x l IH]; intros Hfg; cbn; [done|].
  pose proof (Hfg x (list_elem_of_here _ _)). specialize (IH (λ y Hy, Hfg y (list_elem_of_further _ _ _ Hy))). lia.
Qed.

Lemma sum_lt {A} (f g : A → nat) l x :
  (∀ y, y ∈ l → (f y ≤ g y)%nat) → x ∈ l → (f x < g x)%nat → (sum_list_with f l < sum_list_with g l)%nat.
Proof.
  intros Hfg Hx Hlt. induction l as [|y l IH]; [by apply not_elem_of_nil in Hx|]. cbn.
  pose proof (Hfg y (list_elem_of_here _ _)).
  pose proof (sum_le f g l (λ z Hz, Hfg z (list_elem_of_further _ _ _ Hz))).
  apply elem_of_cons in Hx as [->|Hx]; [lia|].
  specialize (IH (λ z Hz, Hfg z (list_elem_of_further _ _ _ Hz)) Hx). lia.
Qed.

Lemma sum_const {A} (l : list A) k (f : A → nat) : (∀ x, (f x ≤ k)%nat) → (sum_list_with f l ≤ k * length l)%nat.
Proof. intros Hf. induction l as [|x l IH]; cbn; [lia|]. specialize (Hf x). lia. Qed.

Lemma progress_bounded c : cluster_ok c → (progress c ≤ enough_steps)%nat.
Proof.
  intros Hok. unfold progress, enough_steps.
  pose proof (sum_const runners_ 7 (at_stage c) (λ r, at_stage_max c r Hok)) as H1.
  assert (∀ n, (sum_list_with (λ r, stage (view c n !! r)) runners_ ≤ 7 * length runners_)%nat) as H2.
  { intros n. apply sum_const. intros r. destruct (view c n !! r) as [s|] eqn:E; [|cbn; lia].
    apply (co_views _ Hok) in E. pose proof (at_stage_max c r Hok). lia. }
  pose proof (sum_const nodes_ _ _ H2). nia.
Qed.

Lemma runner_progress c r st :
  r ∈ runners_ → (at_stage c r < stage (Some st))%nat → (progress c < progress (with_runner r st c))%nat.
Proof.
  intros Hr Hlt. unfold progress. assert (∀ n, view (with_runner r st c) n = view c n) as Hv by done.
  assert (sum_list_with (at_stage c) runners_ < sum_list_with (at_stage (with_runner r st c)) runners_)%nat; [|
    unfold view in *; cbn; lia].
  apply (sum_lt _ _ _ r); [|done|].
  - intros r' _. rewrite at_stage_with_runner. case_decide; [subst; lia|done].
  - by rewrite at_stage_with_runner, decide_True.
Qed.

Lemma view_with_view c n r s n' r' :
  view (with_view n r s c) n' !! r' = if decide (n' = n ∧ r' = r) then Some s else view c n' !! r'.
Proof.
  unfold view at 1, with_view. cbn. destruct (decide (n' = n)) as [->|Hn].
  - rewrite lookup_insert_eq. cbn. destruct (decide (r' = r)) as [->|Hr].
    + by rewrite lookup_insert_eq, decide_True.
    + rewrite lookup_insert_ne, decide_False by naive_solver. done.
  - rewrite lookup_insert_ne, decide_False by naive_solver. done.
Qed.

Lemma view_progress c n r s :
  n ∈ nodes_ → r ∈ runners_ → (stage (view c n !! r) < stage (Some s))%nat →
  (progress c < progress (with_view n r s c))%nat.
Proof.
  intros Hn Hr Hlt. unfold progress.
  assert (∀ r', at_stage (with_view n r s c) r' = at_stage c r') as Hat by done.
  assert (∀ n' r', (stage (view c n' !! r') ≤ stage (view (with_view n r s c) n' !! r'))%nat) as Hle.
  { intros n' r'. rewrite view_with_view. case_decide as E; [destruct E as [-> ->]; lia|lia]. }
  enough (sum_list_with (λ n, sum_list_with (λ r, stage (view c n !! r)) runners_) nodes_
    < sum_list_with (λ n', sum_list_with (λ r', stage (view (with_view n r s c) n' !! r')) runners_) nodes_)%nat
    by (unfold at_stage in *; cbn; lia).
  apply (sum_lt _ _ _ n); [intros n' _; apply sum_le; eauto|done|].
  apply (sum_lt _ _ _ r); [eauto|done|]. by rewrite view_with_view, decide_True.
Qed.

Lemma step_ok allowed c c' :
  cluster_ok c → step allowed c c' → cluster_ok c' ∧ (progress c < progress c')%nat.
Proof using Hs.
  intros Hok Hstep. destruct Hstep as [n r t b Hin Hr Hplan Hkind|n r st t st1 st2 Hin Hr Hfin Hplan Htask
                                      |r st st' Hr Hfin _|n r st s Hn Hr Hlt].
  - assert (r ∈ runners_) as Hmem by (apply list_elem_of_fmap; by exists (n, r)).
    assert (at_stage c r = 0%nat) as Hat by (unfold at_stage; by rewrite Hr).
    rewrite (node_plan_none c n r) in Hplan; [|done|done|intros; by eapply view_not_failed].
    injection Hplan as <-. cbn in Hkind. injection Hkind as <-. cbn [bound_runner_id]. split.
    + apply advance_ok; [done|done|rewrite Hat; cbn; lia|cbn; lia|cbn; lia].
    + apply runner_progress; [done|]. rewrite Hat. cbn. lia.
  - assert (r ∈ runners_) as Hmem by (apply list_elem_of_fmap; by exists (n, r)).
    rewrite (node_plan_some c n r st) in Hplan; [|done|done|by destruct (co_path _ Hok _ _ Hr)|
                                                 intros; by eapply view_not_failed].
    destruct (next_kind n r (Some st) (view c n)) as [k|] eqn:Hk; [|done].
    injection Hplan as <-. cbn [task_kind mk_task] in Htask.
    destruct (task_ok c n r st k Hok Hin Hr Hk) as (s1 & s2 & Hh & _ & Hlt & Hok').
    rewrite Hh in Htask. injection Htask as <- <-. split; [done|]. by apply runner_progress.
  - destruct (finish_ok c r st st' Hok Hr Hfin) as [Hlt Hok']. split; [done|].
    apply runner_progress; [|done]. by destruct (co_path _ Hok _ _ Hr).
  - assert (at_stage c r = stage (Some st)) as Hat by (unfold at_stage; by rewrite Hr).
    split; [|apply view_progress; [done|by destruct (co_path _ Hok _ _ Hr)|lia]].
    destruct Hok as [Hp Hsi Hv Hl]. constructor; [done|done| |done].
    intros n' r' s'. rewrite view_with_view. case_decide as E; [|apply Hv].
    destruct E as [-> ->]. intros [= <-]. change (stage (Some s) ≤ at_stage c r)%nat. lia.
Qed.

Lemma empty_cluster_ok : cluster_ok empty_cluster.
Proof.
  assert (∀ r, at_stage empty_cluster r = 0%nat) as Hat by done.
  constructor.
  - intros r st. cbn. by rewrite lookup_empty.
  - intros _ r. by rewrite Hat.
  - intros n r s. unfold view. cbn. by rewrite !lookup_empty.
  - intros r1 r2 _ _. rewrite !Hat. lia.
Qed.

Lemma steps_ok allowed k : ∀ c c',
  cluster_ok c → nsteps (step allowed) k c c' → cluster_ok c' ∧ (progress c + k ≤ progress c')%nat.
Proof using Hs.
  induction k as [|k IH]; intros c c' Hok Hsteps; inversion Hsteps as [|? ? c1 ? Hstep Hrest]; subst.
  - split; [done|lia].
  - apply step_ok in Hstep as [Hok1 Hlt]; [|done]. destruct (IH _ _ Hok1 Hrest). split; [done|lia].
Qed.

(** ** No deadlock *)

Definition all_ready (c : Cluster) : Prop := ∀ r, r ∈ runners_ → cl_runners c !! r = Some RunnerReady.

(** The runner that is behind the others. *)
Lemma least_runner c : runners_ ≠ [] →
  ∃ r, r ∈ runners_ ∧ ∀ r', r' ∈ runners_ → (at_stage c r ≤ at_stage c r')%nat.
Proof.
  generalize runners_. intros l. induction l as [|x l IH]; [done|]. intros _.
  destruct l as [|y l]; [exists x; split; [by left|by intros r' ->%list_elem_of_singleton]|].
  destruct IH as (r & Hr & Hmin); [done|].
  destruct (Nat.le_gt_cases (at_stage c x) (at_stage c r)).
  - exists x. split; [by left|]. intros r' [->|Hr']%elem_of_cons; [done|]. specialize (Hmin r' Hr'). lia.
  - exists r. split; [by right|]. intros r' [->|Hr']%elem_of_cons; [lia|by apply Hmin].
Qed.

(** What every node knows is how things are. *)
Definition informed (c : Cluster) : Prop :=
  ∀ n r, n ∈ nodes_ → r ∈ runners_ → stage (view c n !! r) = at_stage c r.

Lemma informed_or_hear allowed c : cluster_ok c → informed c ∨ ∃ c', step allowed c c'.
Proof.
  intros Hok.
  destruct (decide (Forall (λ n, Forall (λ r, stage (view c n !! r) = at_stage c r) runners_) nodes_)) as [Hall|Hno].
  - left. intros n r Hn Hr. rewrite Forall_forall in Hall. specialize (Hall n Hn).
    rewrite Forall_forall in Hall. by apply Hall.
  - right. apply not_Forall_Exists in Hno; [|apply _]. apply Exists_exists in Hno as (n & Hn & Hno).
    apply not_Forall_Exists in Hno; [|apply _]. apply Exists_exists in Hno as (r & Hr & Hne).
    change (stage (view c n !! r) ≠ at_stage c r) in Hne.
    assert (stage (view c n !! r) < at_stage c r)%nat as Hlt.
    { destruct (view c n !! r) as [s|] eqn:E; [apply (co_views _ Hok) in E; lia|].
      cbn [stage] in *. lia. }
    unfold at_stage in Hlt. destruct (cl_runners c !! r) as [st|] eqn:E; [|cbn in Hlt; lia].
    exists (with_view n r st c). eapply step_hear; [done|exact E|lia].
Qed.

Lemma informed_all c n p (q : nat → bool) :
  informed c → n ∈ nodes_ → (∀ r, r ∈ runners_ → q (at_stage c r) = true) →
  (∀ s, q (stage (Some s)) = true → p s = true) → q 0%nat = false →
  all_status p (view c n) (runner_ids inst) = true.
Proof using Hs.
  intros Hinf Hn Hq Hp H0. unfold all_status. apply forallb_forall. intros r Hr%list_elem_of_In.
  unfold runner_ids in Hr. rewrite (sb_shards Hs) in Hr. specialize (Hq r Hr). rewrite <- (Hinf n r Hn Hr) in Hq.
  unfold status_is. destruct (view c n !! r) as [s|]; [by apply Hp|]. cbn in Hq. congruence.
Qed.

Lemma status_step c n r st k :
  cluster_ok c → (n, r) ∈ members → cl_runners c !! r = Some st → finished st = None →
  next_kind n r (Some st) (view c n) = Some k → ∃ c', step can_finish c c'.
Proof using Hs.
  intros Hok Hin Hr Hfin Hk. destruct (task_ok c n r st k Hok Hin Hr Hk) as (st1 & st2 & Hh & _).
  eexists. eapply (step_task _ c n r st (mk_task fresh k (instance_id inst))); [done|done|done| |exact Hh].
  rewrite (node_plan_some c n r st); [by rewrite Hk|done|done|by destruct (co_path _ Hok _ _ Hr)|].
  intros. by eapply view_not_failed.
Qed.

(** A coordinator that waits, waits for a worker that can go on. *)
Lemma connecting_step c r :
  cluster_ok c → cl_runners c !! r = Some RunnerConnecting →
  (∀ r', r' ∈ runners_ → (2 ≤ at_stage c r')%nat) → ∃ c', step can_finish c c'.
Proof using Hs.
  intros Hok Hr Hmin.
  destruct (decide (Forall (λ r', r' ≠ r → (3 ≤ at_stage c r')%nat) runners_)) as [Hall|Hno].
  - eexists. eapply (step_finish _ c r RunnerConnecting); [done|done|]. intros _ _ r' Hr' Hne.
    rewrite Forall_forall in Hall. by apply Hall.
  - apply not_Forall_Exists in Hno; [|apply _]. apply Exists_exists in Hno as (r' & Hr' & Hne).
    assert (r' ≠ r ∧ at_stage c r' = 2%nat) as [Hne' H2].
    { destruct (decide (r' = r)) as [->|]; [by destruct Hne|]. split; [done|]. specialize (Hmin r' Hr').
      destruct (Nat.le_gt_cases 3 (at_stage c r')); [by destruct Hne|lia]. }
    unfold at_stage in H2. destruct (cl_runners c !! r') as [[]|] eqn:E; try done.
    destruct (is_coordinator r') eqn:Ec.
    + eexists. eapply (step_finish _ c r RunnerConnecting); [done|done|]. intros _ Hc.
      by destruct Hne'; apply (sb_coordinator Hs).
    + eexists. eapply (step_finish _ c r' RunnerConnecting); [done|done|]. intros _ Hc. congruence.
Qed.

Lemma no_deadlock c : cluster_ok c → all_ready c ∨ ∃ c', step can_finish c c'.
Proof using Hs.
  intros Hok. destruct (decide (runners_ = [])) as [Hnil|Hne].
  { left. intros r. rewrite Hnil. by intros ?%not_elem_of_nil. }
  destruct (informed_or_hear can_finish c Hok) as [Hinf|]; [|by right].
  destruct (least_runner c Hne) as (r & Hr & Hmin).
  pose proof Hr as ([n r0] & Heq & Hin)%list_elem_of_fmap. cbn in Heq. subst r0.
  assert (n ∈ nodes_) as Hn by (apply list_elem_of_fmap; by exists (n, r)).
  assert (∀ r', r' ∈ runners_ → (at_stage c r' ≤ 7)%nat) as Hmax by (intros; by apply at_stage_max).
  assert (∀ r', r' ∈ runners_ → _) as Hlock by (intros r' Hr'; exact (co_lockstep _ Hok r' r Hr' Hr)).
  destruct (cl_runners c !! r) as [st|] eqn:Est.
  2:{ right. eexists. eapply (step_create _ c n r (mk_task fresh
        (CreateRunner {| bound_instance := inst; bound_runner_id := r; bound_node_id := n |})
        (instance_id inst))); [done|done| |reflexivity].
      apply node_plan_none; [done|done|]. intros. by eapply view_not_failed. }
  assert (at_stage c r = stage (Some st)) as Hat by (unfold at_stage; by rewrite Est).
  destruct (co_path _ Hok _ _ Est) as [_ Hle]. rewrite Hat in Hmin, Hlock.
  assert (∀ p lo hi, (∀ r', r' ∈ runners_ → (lo ≤ at_stage c r' ≤ hi)%nat) → (1 ≤ lo)%nat →
    (∀ s, (lo ≤ stage (Some s) ≤ hi)%nat → p s = true) →
    all_status p (view c n) (runner_ids inst) = true) as Hview.
  { intros p lo hi Hbound Hlo Hp.
    apply (informed_all c n p (λ k, (lo <=? k)%nat && (k <=? hi)%nat) Hinf Hn).
    - intros r' Hr'. specialize (Hbound r' Hr'). apply andb_true_iff. rewrite !Nat.leb_le. lia.
    - intros s. rewrite andb_true_iff, !Nat.leb_le. apply Hp.
    - apply andb_false_iff. left. apply Nat.leb_gt. lia. }
  destruct st; cbn [stage] in *; try lia.
  - (* idle *) right. assert (∃ k, next_kind n r (Some RunnerIdle) (view c n) = Some k) as [k Hk];
      [|by eapply (status_step c n r)]. cbn [next_kind].
    destruct single; [by eauto|]. unfold connectable. rewrite (Hview _ 1%nat 3%nat); [by eauto| |lia|].
    + intros r' Hr'. specialize (Hmin r' Hr'). specialize (Hlock r' Hr'). lia.
    + intros s. destruct s; cbn; try done; lia.
  - (* connecting *) right. by eapply connecting_step.
  - (* connected *) right. eapply (status_step c n r); [done|done|exact Est|done|]. cbn [next_kind].
    unfold loadable. rewrite (Hview _ 3%nat 5%nat); [reflexivity| |lia|].
    + intros r' Hr'. specialize (Hmin r' Hr'). specialize (Hlock r' Hr'). lia.
    + intros s. destruct s; cbn; try done; lia.
  - (* loading *) right. eexists. eapply (step_finish _ c r); [exact Est|done|]. intros H2. lia.
  - (* loaded *) right. eapply (status_step c n r); [done|done|exact Est|done|]. cbn [next_kind].
    unfold warmable. rewrite (Hview _ 5%nat 7%nat); [reflexivity| |lia|].
    + intros r' Hr'. specialize (Hmin r' Hr'). specialize (Hmax r' Hr'). lia.
    + intros s. destruct s; cbn; try done; lia.
  - (* warming up *) right. eexists. eapply (step_finish _ c r); [exact Est|done|]. intros H2. lia.
  - (* ready *) left. intros r' Hr'. specialize (Hmin r' Hr'). specialize (Hmax r' Hr').
    unfold at_stage in *. destruct (cl_runners c !! r') as [[]|]; cbn in *; try lia. done.
Qed.

Lemma reachable_ok allowed c : rtc (step allowed) empty_cluster c → cluster_ok c.
Proof using Hs.
  intros Hrun. apply rtc_nsteps in Hrun as [k Hk]. by apply (steps_ok allowed k _ c empty_cluster_ok).
Qed.

(** The planner's answer is never an exception, and never a task its runner would refuse. *)
Lemma plan_accepted c n r :
  cluster_ok c → (n, r) ∈ members →
  ∃ o, node_plan c n r = Ok o
    ∧ ∀ st t, cl_runners c !! r = Some st → o = Some t →
        finished st = None ∧ ∃ st1 st2, handle_task (task_kind t) st = Ok (st1, st2).
Proof using Hs.
  intros Hok Hin. destruct (cl_runners c !! r) as [st|] eqn:Hr.
  - eexists. split.
    + apply (node_plan_some c n r st); [done|done|by destruct (co_path _ Hok _ _ Hr)|].
      intros. by eapply view_not_failed.
    + intros st' t [= <-] Ho. destruct (next_kind n r (Some st) (view c n)) as [k|] eqn:Hk; [|done].
      injection Ho as <-. destruct (task_ok c n r st k Hok Hin Hr Hk) as (s1 & s2 & Hh & _).
      split; [by destruct st|]. by exists s1, s2.
  - eexists. split; [|done]. apply node_plan_none; [done|done|]. intros. by eapply view_not_failed.
Qed.

(** From any state the cluster can be led to the end. *)
Lemma led_to_ready : ∀ k c, cluster_ok c → (enough_steps - progress c ≤ k)%nat →
  ∃ c', rtc (step can_finish) c c' ∧ all_ready c'.
Proof using Hs.
  induction k as [|k IH]; intros c Hok Hk; destruct (no_deadlock c Hok) as [Hready|[c1 Hstep]];
    try (exists c; split; [apply rtc_refl|done]);
    destruct (step_ok _ _ _ Hok Hstep) as [Hok1 Hlt]; pose proof (progress_bounded c1 Hok1).
  - lia.
  - destruct (IH c1 Hok1) as (c' & Hrun & Hready); [lia|]. exists c'. split; [|done]. by eapply rtc_l.
Qed.
End planner.
End startup.

(** C22: an instance starts.  Its nodes run the planner on their own, each on what it has heard,
    however late, of the runners of the others; the models are on disk.  In every state that is
    reached, no runner loads before all are connected and none warms up before all have
    loaded; the planner never raises, and what it gives a runner the runner is free for and
    accepts.  Every run is bounded by [enough_steps].  A state from which no step is possible,
    even when a coordinator waits for its workers before it is connected, has every runner
    ready, and such a state can always be reached. *)
Theorem instance_start_reaches_ready files_ready fresh inst downloads tasks now instance_backoff
    download_backoff c :
  let step := step files_ready fresh inst downloads tasks now instance_backoff download_backoff in
  let plan_of := node_plan files_ready fresh inst downloads tasks now instance_backoff download_backoff in
  startable inst downloads tasks now instance_backoff →
  rtc (step anyway) empty_cluster c →
  (∀ r1 r2, r1 ∈ map snd (members inst) → r2 ∈ map snd (members inst) →
     ((4 ≤ at_stage c r1 → 3 ≤ at_stage c r2) ∧ (6 ≤ at_stage c r1 → 5 ≤ at_stage c r2))%nat)
  ∧ (∀ n r, (n, r) ∈ members inst →
       ∃ o, plan_of c n r = Ok o
         ∧ ∀ st t, cl_runners c !! r = Some st → o = Some t →
             finished st = None ∧ ∃ st1 st2, handle_task (task_kind t) st = Ok (st1, st2))
  ∧ (∀ k c', nsteps (step anyway) k c c' → (k ≤ enough_steps inst)%nat)
  ∧ (∀ c', rtc (step (can_finish inst)) c c' → ¬ (∃ c'', step (can_finish inst) c' c'') → all_ready inst c')
  ∧ ∃ c', rtc (step (can_finish inst)) c c' ∧ all_ready inst c'.
Proof.
  intros step plan_of Hs Hrun. apply reachable_ok in Hrun as Hok; [|done]. split_and!.
  - apply Hok.
  - intros n r Hin. by apply plan_accepted.
  - intros k c' Hk. destruct (steps_ok _ _ _ _ _ _ _ _ Hs anyway k c c' Hok Hk) as [Hok' Hlt].
    pose proof (progress_bounded inst c' Hok'). lia.
  - intros c' Hrun' Hstuck. apply rtc_nsteps in Hrun' as [k Hk].
    destruct (steps_ok _ _ _ _ _ _ _ _ Hs _ k c c' Hok Hk) as [Hok' _].
    destruct (no_deadlock files_ready fresh inst downloads tasks now instance_backoff download_backoff Hs c' Hok')
      as [|Hstep]; [done|by destruct Hstuck].
  - by eapply (led_to_ready files_ready fresh inst downloads tasks now instance_backoff download_backoff Hs).
Qed.

(** ** An instance on two nodes *)

Definition demo_card : ModelCard :=
  {| mc_model_id := "model"; mc_storage_size := 3200; mc_n_layers := 32; mc_base_model := "";
     mc_uses_cfg := false; mc_is_custom := false; mc_inference_backend := LlamaCpp;
     mc_rest := VNone |}.

Definition demo_shard (rank first last : Z) : ShardMetadata :=
  {| sh_model_card := demo_card; sh_kind := PipelineShardMetadata; device_rank := rank;
     world_size := 2; start_layer := first; end_layer := last; n_layers := 32;
     shard_rest := VNone |}.

Definition demo_instance : Instance :=
  {| instance_id := "i"; sa_model_id := "model";
     runner_to_shard := [("r0", demo_shard 0 0 16); ("r1", demo_shard 1 16 32)];
     node_to_runner := [("n0", "r0"); ("n1", "r1")]; instance_kind := MlxRingInstance [] 50000 [] [] |}.

Definition on_disk (n : string) : DownloadProgress :=
  {| dp_kind := DownloadCompleted; dp_node_id := n; dp_model_id := "model"; dp_downloaded := 0;
     dp_total := 0; dp_rest := VNone |}.

Definition demo_downloads : gmap string (list DownloadProgress) :=
  {[ "n0" := [on_disk "n0"]; "n1" := [on_disk "n1"] ]}.

Definition demo_backoff : KeyedBackoff string :=
  {| kb_base := 1 # 2; kb_cap := 10; kb_attempts := ∅; kb_last_time := ∅ |}.

Lemma demo_startable : startable demo_instance demo_downloads [] 100 demo_backoff.
Proof.
  constructor; cbn.
  - apply (bool_decide_eq_true_1 _). vm_compute. reflexivity.
  - apply (bool_decide_eq_true_1 _). vm_compute. reflexivity.
  - reflexivity.
  - intros r s. rewrite !elem_of_cons, elem_of_nil. naive_solver.
  - assert (∀ r, is_coordinator demo_instance r = true → r = "r0") as Hone; [|by intros r1 r2 ->%Hone ->%Hone].
    intros r. unfold is_coordinator, assoc. cbn [runner_to_shard demo_instance List.find fst].
    destruct (String.eqb_spec "r0" r) as [|_]; [done|].
    by destruct (String.eqb_spec "r1" r) as [<-|].
  - intros n. rewrite !elem_of_cons, elem_of_nil. intros [->|[->|[]]]; [exists (on_disk "n0")|exists (on_disk "n1")];
      vm_compute; eauto.
  - constructor.
  - vm_compute. reflexivity.
Qed.

Definition demo_step : (Cluster → string → Prop) → Cluster → Cluster → Prop :=
  step (λ _ _ _ _, false) "t" demo_instance demo_downloads [] 100 demo_backoff demo_backoff.

(** One runner is there, the other not yet. *)
Definition half_started : Cluster := with_runner "r0" RunnerIdle empty_cluster.

Lemma half_started_reachable : rtc (demo_step anyway) empty_cluster half_started.
Proof.
  apply rtc_once. set (b := {| bound_instance := demo_instance; bound_runner_id := "r0"; bound_node_id := "n0" |}).
  apply (step_create _ _ _ _ _ _ _ _ _ empty_cluster "n0" "r0" (mk_task "t" (CreateRunner b) "i") b);
    [by left|done|vm_compute; reflexivity|reflexivity].
Qed.

Lemma instance_start_reaches_ready_witness :
  rtc (demo_step anyway) empty_cluster half_started
  ∧ ∃ c', rtc (demo_step (can_finish demo_instance)) half_started c' ∧ all_ready demo_instance c'.
Proof.
  split; [apply half_started_reachable|].
  apply (instance_start_reaches_ready (λ _ _ _ _, false) "t" demo_instance demo_downloads [] 100
    demo_backoff demo_backoff half_started).
  - apply demo_startable.
  - apply half_started_reachable.
Defined.
