(* ===== verification/LayerAllocation.v ===== *)
(** * Dividing the layers of a model

    [allocate_layers_proportionally] of [master/placement_utils.py]: the layers of a model
    divided among nodes in proportion to their memory, by the largest remainders, with a
    minimum for every node.  The fractions are floats ([Doubles]). *)
From Stdlib Require Import QArith.
From S2P Require Import Prelude.
From S2P Require Import PyStr.
From S2P Require Import PyVal.
From S2P Require Import Doubles.
Local Open Scope Z_scope.
Set Default Proof Using "Type".

(** [result[i]] and [fractions[i]] at an index of the list. *)
Definition at_index (l : list Z) (i : nat) : Z := default 0 (l !! i).
Definition fraction_at (l : list Q) (i : nat) : Q := default 0%Q (l !! i).

(** Larger remainders first; equal ones keep their order. *)
Definition remainder_order (remainders : list Q) (i j : nat) : bool :=
  Qle_bool (fraction_at remainders j) (fraction_at remainders i).

(** [result[by_remainder[k]] += 1] *)
Definition hand_out (by_remainder : list nat) (result : list Z) (k : nat) : Prelude.result (list Z) :=
  match by_remainder !! k with
  | Some i => Ok (alter Z.succ i result)
  | None => Err IndexError
  end.

Section minimum.
Context (minimum : Z) (memory_fractions : list Q).

(** The key by which the donor is chosen, compared as Python compares tuples. *)
Definition donor_lt (result : list Z) (i j : nat) : bool :=
  let key k := at_index result k in
  if negb (key i - minimum =? key j - minimum) then key i - minimum <? key j - minimum
  else if negb (key i =? key j) then key i <? key j
  else negb (Qle_bool (fraction_at memory_fractions j) (fraction_at memory_fractions i)).

Definition donors (result : list Z) (i : nat) : list nat :=
  filter (λ j, j ≠ i ∧ minimum < at_index result j) (seq 0 (length result)).

Definition best_donor (result : list Z) (d : nat) (ds : list nat) : nat :=
  foldl (λ best j, if donor_lt result best j then j else best) d ds.

(** [while result[i] < minimum_layers_per_node]: a round adds one to [result[i]], so
    [minimum - result[i]] rounds are enough. *)
Fixpoint raise_to_minimum (fuel : nat) (result : list Z) (i : nat) : Prelude.result (list Z) :=
  match fuel with
  | O => Ok result
  | S fuel' =>
      if at_index result i <? minimum then
        match donors result i with
        | [] => Err (ValueError "Cannot satisfy minimum layer allocation for every node")
        | d :: ds =>
            raise_to_minimum fuel' (alter Z.succ i (alter Z.pred (best_donor result d ds) result)) i
        end
      else Ok result
  end.

Definition satisfy_minimum (result : list Z) (i : nat) : Prelude.result (list Z) :=
  raise_to_minimum (Z.to_nat (minimum - at_index result i)) result i.
End minimum.

Definition allocate_layers_proportionally (total_layers : Z) (memory_fractions : list Q)
    (minimum_layers_per_node : Z) : Prelude.result (list Z) :=
  let n := length memory_fractions in
  if (n =? 0)%nat then Err (ValueError "Cannot allocate layers to an empty node list")
  else
    let minimum := Z.max 1 minimum_layers_per_node in
    let required_minimum_layers := Z.of_nat n * minimum in
    if total_layers <? required_minimum_layers then
      let requirement :=
        if minimum =? 1 then "1 layer per node"
        else (str_of_Z minimum ++ " layers per node")%string in
      Err (ValueError
             ("Cannot distribute " ++ str_of_Z total_layers ++ " layers across "
              ++ str_of_Z (Z.of_nat n) ++ " nodes (need at least " ++ requirement ++ ")")%string)
    else
      let raw := map (λ f, double_mul_Z f total_layers) memory_fractions in
      let result := map int_of raw in
      let remainders := map (λ r, Qminus r (inject_Z (int_of r))) raw in
      let by_remainder := py_sorted (remainder_order remainders) (seq 0 n) in
      result ← foldM (hand_out by_remainder) result
                 (seq 0 (Z.to_nat (total_layers - sumZ result)));
      foldM (satisfy_minimum minimum memory_fractions) result (seq 0 n).

Example allocate_demo :
  allocate_layers_proportionally 10 (map (λ m, double_div m 100) [50; 30; 19; 1]) 1
  = Ok [4; 3; 2; 1].
Proof. vm_compute. reflexivity. Qed.

Example allocate_minimum_demo :
  allocate_layers_proportionally 9 (map (λ m, double_div m 1000) [998; 1; 1]) 2 = Ok [5; 2; 2].
Proof. vm_compute. reflexivity. Qed.

Example allocate_thirds :
  allocate_layers_proportionally 28 (map (λ m, double_div m 3) [1; 1; 1]) 2 = Ok [10; 9; 9].
Proof. vm_compute. reflexivity. Qed.

(** ** Lists of integers changed at one index *)

Lemma sumZ_alter (f : Z → Z) l i x :
  l !! i = Some x → sumZ (alter f i l) = sumZ l - x + f x.
Proof.
  revert i. induction l as [|y l IH]; intros [|i] Hx; cbn in *; [done..| |].
  - injection Hx as ->. lia.
  - rewrite (IH i Hx). lia.
Qed.

Lemma at_index_alter (f : Z → Z) l i j x :
  l !! i = Some x → at_index (alter f i l) j = if decide (i = j) then f x else at_index l j.
Proof.
  intros Hx. unfold at_index. destruct (decide (i = j)) as [<-|Hne].
  - by rewrite list_lookup_alter_eq, Hx.
  - by rewrite list_lookup_alter_ne by done.
Qed.

Lemma at_index_lookup l i : (i < length l)%nat → l !! i = Some (at_index l i).
Proof. intros [x Hx]%lookup_lt_is_Some_2. unfold at_index. by rewrite Hx. Qed.

Lemma sumZ_lt_bound l c i :
  Forall (λ x, x ≤ c) l → (i < length l)%nat → at_index l i < c → sumZ l < Z.of_nat (length l) * c.
Proof.
  intros Hl. revert i. induction Hl as [|x l Hx Hl IH]; intros i Hi Hlt; cbn [length] in *; [lia|].
  assert (sumZ l ≤ Z.of_nat (length l) * c) as Hle.
  { clear -Hl. induction Hl; cbn [sumZ length]; [lia|]. lia. }
  destruct i as [|i]; cbn in Hlt |- *; [lia|]. specialize (IH i ltac:(lia) Hlt). lia.
Qed.

(** ** Handing out what the rounding left *)

Lemma hand_out_take br l k :
  (k ≤ length br)%nat →
  foldM (hand_out br) l (seq 0 k) = Ok (foldl (λ l i, alter Z.succ i l) l (take k br)).
Proof.
  induction k as [|k IH]; intros Hk; [done|].
  rewrite seq_S, foldM_app, IH by lia. cbn. unfold hand_out.
  destruct (lookup_lt_is_Some_2 br k ltac:(lia)) as [i Hi]. rewrite Hi.
  by rewrite (take_S_r br k i Hi), foldl_app.
Qed.

(** Every node got its floor or one more, and the sum grew by the number of winners. *)
Definition handed (l r : list Z) : Prop :=
  length r = length l ∧ ∀ i, (i < length l)%nat → at_index l i ≤ at_index r i ≤ at_index l i + 1.

Lemma bump_all ks : ∀ l,
  NoDup ks → Forall (λ i, (i < length l)%nat) ks →
  let r := foldl (λ l i, alter Z.succ i l) l ks in
  length r = length l ∧ sumZ r = sumZ l + Z.of_nat (length ks)
  ∧ ∀ i, at_index r i = at_index l i + (if decide (i ∈ ks) then 1 else 0).
Proof.
  induction ks as [|k ks IH]; intros l Hnd Hin; cbn zeta.
  { cbn. repeat split; [lia|]. intros i. rewrite decide_False by set_solver. lia. }
  apply NoDup_cons in Hnd as [Hk Hnd]. apply Forall_cons in Hin as [Hkl Hin].
  pose proof (at_index_lookup _ _ Hkl) as Hx.
  destruct (IH (alter Z.succ k l)) as (Hl & Hs & Hi); [done|by rewrite length_alter|].
  cbn [foldl length]. rewrite Hl, Hs, length_alter, (sumZ_alter _ _ _ _ Hx).
  repeat split; [lia|]. intros i. rewrite Hi, (at_index_alter _ _ _ _ _ Hx).
  destruct (decide (k = i)) as [<-|Hne].
  - rewrite decide_False by done. rewrite decide_True by set_solver. lia.
  - by destruct (decide (i ∈ ks)), (decide (i ∈ k :: ks)); set_solver.
Qed.

Lemma hand_out_spec leb l k :
  (k ≤ length l)%nat →
  ∃ r, foldM (hand_out (py_sorted leb (seq 0 (length l)))) l (seq 0 k) = Ok r
    ∧ handed l r ∧ sumZ r = sumZ l + Z.of_nat k.
Proof.
  intros Hk. set (br := py_sorted leb (seq 0 (length l))).
  assert (br ≡ₚ seq 0 (length l)) as Hp by apply py_sorted_perm.
  assert (length br = length l) as Hlen by by rewrite Hp, length_seq.
  eexists. split; [apply hand_out_take; lia|].
  destruct (bump_all (take k br) l) as (Hl & Hs & Hi).
  - eapply sublist_NoDup; [|apply sublist_take]. rewrite Hp. apply NoDup_seq.
  - apply Forall_take. rewrite Hp. apply Forall_seq. lia.
  - rewrite length_take, Nat.min_l in Hs by lia. split; [|done]. split; [done|].
    intros i _. rewrite Hi. destruct (decide _); lia.
Qed.

(** ** The minimum *)

Section minimum_facts.
Context (minimum : Z) (fr : list Q).

Lemma best_donor_elem result d ds : best_donor minimum fr result d ds ∈ d :: ds.
Proof.
  unfold best_donor. revert d. induction ds as [|j ds IH]; intros d; cbn; [set_solver|].
  destruct (donor_lt _ _ _ d j); [set_solver|]. specialize (IH d). set_solver.
Qed.

Lemma raise_to_minimum_id fuel result i :
  minimum ≤ at_index result i → raise_to_minimum minimum fr fuel result i = Ok result.
Proof.
  intros Hi. destruct fuel; cbn; [done|]. by destruct (Z.ltb_spec (at_index result i) minimum); [lia|].
Qed.

(** Enough layers in all leave a donor for a node below the minimum. *)
Lemma donors_exist result i :
  (i < length result)%nat → at_index result i < minimum →
  Z.of_nat (length result) * minimum ≤ sumZ result → donors minimum result i ≠ [].
Proof.
  intros Hi Hlt Hsum Hd.
  assert (Forall (λ x, x ≤ minimum) result) as Hall.
  { apply Forall_lookup. intros j x Hx.
    assert (at_index result j = x) as Hj by (unfold at_index; by rewrite Hx).
    destruct (decide (j = i)) as [->|Hne]; [lia|].
    destruct (Z.le_gt_cases x minimum) as [|Hgt]; [done|]. exfalso.
    assert (j ∈ donors minimum result i) as Hin.
    { apply list_elem_of_filter. split; [by split; lia|].
      apply elem_of_seq. apply lookup_lt_Some in Hx. lia. }
    rewrite Hd in Hin. set_solver. }
  pose proof (sumZ_lt_bound _ _ _ Hall Hi Hlt). lia.
Qed.

(** What raising one node to the minimum leaves: the total, the node at the minimum, and the
    others not below it if they were not before. *)
Definition raised (i : nat) (l r : list Z) : Prop :=
  length r = length l ∧ sumZ r = sumZ l ∧ minimum ≤ at_index r i
  ∧ ∀ j, minimum ≤ at_index l j → minimum ≤ at_index r j.

Lemma raise_step result i d ds :
  (i < length result)%nat → donors minimum result i = d :: ds →
  let r := alter Z.succ i (alter Z.pred (best_donor minimum fr result d ds) result) in
  length r = length result ∧ sumZ r = sumZ result ∧ at_index r i = at_index result i + 1
  ∧ ∀ j, minimum ≤ at_index result j → minimum ≤ at_index r j.
Proof.
  intros Hi Hd. cbn zeta. set (b := best_donor minimum fr result d ds).
  assert (b ∈ donors minimum result i) as Hb by (rewrite Hd; apply best_donor_elem).
  apply list_elem_of_filter in Hb as [[Hbi Hbm] Hbl]. apply elem_of_seq in Hbl.
  pose proof (at_index_lookup result b ltac:(lia)) as Hxb.
  assert (alter Z.pred b result !! i = Some (at_index result i)) as Hxi.
  { rewrite list_lookup_alter_ne by done. by apply at_index_lookup. }
  rewrite !length_alter, (sumZ_alter _ _ _ _ Hxi), (sumZ_alter _ _ _ _ Hxb).
  repeat split; [lia| |].
  - rewrite (at_index_alter _ _ _ _ _ Hxi), decide_True by done. lia.
  - intros j Hj. rewrite (at_index_alter _ _ _ _ _ Hxi), (at_index_alter _ _ _ _ _ Hxb).
    destruct (decide (i = j)) as [<-|]; [lia|]. destruct (decide (b = j)) as [<-|]; lia.
Qed.

Lemma raise_to_minimum_spec fuel : ∀ result i,
  (i < length result)%nat → Z.of_nat (length result) * minimum ≤ sumZ result →
  minimum - at_index result i ≤ Z.of_nat fuel →
  ∃ r, raise_to_minimum minimum fr fuel result i = Ok r ∧ raised i result r.
Proof.
  induction fuel as [|fuel IH]; intros result i Hi Hsum Hf; cbn [raise_to_minimum].
  { exists result. split; [done|]. repeat split; [lia|auto]. }
  destruct (Z.ltb_spec (at_index result i) minimum) as [Hlt|Hge].
  - pose proof (donors_exist _ _ Hi Hlt Hsum) as Hne.
    destruct (donors minimum result i) as [|d ds] eqn:Hd; [done|].
    destruct (raise_step _ _ _ _ Hi Hd) as (Hl & Hs & Hx & Hk).
    destruct (IH (alter Z.succ i (alter Z.pred (best_donor minimum fr result d ds) result)) i) as (r & Hr & Hrl & Hrs & Hri & Hrk); [by rewrite Hl|by rewrite Hl, Hs|lia|].
    exists r. split; [exact Hr|]. repeat split; [congruence|congruence|done|auto].
  - exists result. split; [done|]. repeat split; [done|auto].
Qed.

Lemma satisfy_minimum_all k : ∀ result,
  (k ≤ length result)%nat → Z.of_nat (length result) * minimum ≤ sumZ result →
  ∃ r, foldM (satisfy_minimum minimum fr) result (seq 0 k) = Ok r
    ∧ length r = length result ∧ sumZ r = sumZ result
    ∧ (∀ i, (i < k)%nat → minimum ≤ at_index r i).
Proof.
  induction k as [|k IH]; intros result Hk Hsum.
  { exists result. repeat split; [intros i Hi; lia]. }
  destruct (IH result ltac:(lia) Hsum) as (r & Hr & Hl & Hs & Hm).
  destruct (raise_to_minimum_spec (Z.to_nat (minimum - at_index r k)) r k) as (r' & Hr' & Hl' & Hs' & Hi' & Hk');
    [lia|by rewrite Hl, Hs|lia|].
  exists r'. rewrite seq_S, foldM_app, Hr. cbn. unfold satisfy_minimum at 1. rewrite Hr'.
  repeat split; [congruence|congruence|]. intros i Hi.
  destruct (decide (i = k)) as [->|]; [done|]. apply Hk', Hm. lia.
Qed.

Lemma satisfy_minimum_id result k :
  Forall (λ x, minimum ≤ x) result → (k ≤ length result)%nat →
  foldM (satisfy_minimum minimum fr) result (seq 0 k) = Ok result.
Proof.
  intros Hm. induction k as [|k IH]; intros Hk; [done|].
  rewrite seq_S, foldM_app, IH by lia. cbn. unfold satisfy_minimum.
  rewrite raise_to_minimum_id; [done|].
  pose proof (at_index_lookup result k ltac:(lia)) as Hx. by eapply Forall_lookup_1.
Qed.
End minimum_facts.

(** ** Rounding *)

(** A product of two rounded quotients, rounded again, is within one part in [2^51]. *)
Definition within (x : Q) (a b : Z) : Prop :=
  0 ≤ Qnum x
  ∧ (2 ^ 51 - 1) * (a * Zpos (Qden x)) ≤ 2 ^ 51 * (Qnum x * b) ≤ (2 ^ 51 + 1) * (a * Zpos (Qden x)).

Lemma near_bounds x a b :
  near x a b →
  (2 ^ 53 - 1) * (a * Zpos (Qden x)) ≤ 2 ^ 53 * (Qnum x * b) ≤ (2 ^ 53 + 1) * (a * Zpos (Qden x)).
Proof. unfold near. lia. Qed.

Lemma mul_le_chain p q r s c d :
  0 ≤ p → 0 ≤ r → 0 ≤ c → 0 ≤ d → c * p ≤ d * q → c * r ≤ d * s → 0 ≤ d * q →
  (c * c) * (p * r) ≤ (d * d) * (q * s).
Proof.
  intros Hp Hr Hc Hd H1 H2 Hq.
  replace (c * c * (p * r)) with ((c * p) * (c * r)) by ring.
  replace (d * d * (q * s)) with ((d * q) * (d * s)) by ring.
  apply Z.mul_le_mono_nonneg; lia.
Qed.

Lemma double_mul_within x y a b c d :
  0 ≤ a → 0 < b → 0 ≤ c → 0 < d → near x a b → near y c d → within (double_mul x y) (a * c) (b * d).
Proof.
  intros Ha Hb Hc Hd Hx Hy.
  pose proof (near_nonneg _ _ _ Hx Ha Hb) as Hx0. pose proof (near_nonneg _ _ _ Hy Hc Hd) as Hy0.
  assert (near (double_mul x y) (Qnum x * Qnum y) (Zpos (Qden x * Qden y))) as Hz
    by (apply double_div_near; lia).
  assert (0 ≤ Qnum (double_mul x y)) as Hz0 by (eapply near_nonneg; [exact Hz|lia|lia]).
  apply near_bounds in Hx as [Hx1 Hx2], Hy as [Hy1 Hy2], Hz as [Hz1 Hz2].
  unfold within. set (z := double_mul x y) in *.
  rewrite Pos2Z.inj_mul in Hz1, Hz2.
  set (xn := Qnum x) in *. set (yn := Qnum y) in *. set (zn := Qnum z) in *.
  set (xd := Zpos (Qden x)) in *. set (yd := Zpos (Qden y)) in *. set (zd := Zpos (Qden z)) in *.
  assert (0 < xd ∧ 0 < yd ∧ 0 < zd) as (Hxd & Hyd & Hzd) by (unfold xd, yd, zd; lia).
  split; [done|].
  assert (2 ^ 106 * ((xn * b) * (yn * d)) ≤ (2 ^ 53 + 1) * (2 ^ 53 + 1) * ((a * xd) * (c * yd))) as Hu.
  { change (2 ^ 106) with (2 ^ 53 * 2 ^ 53). apply mul_le_chain; nia. }
  assert ((2 ^ 53 - 1) * (2 ^ 53 - 1) * ((a * xd) * (c * yd)) ≤ 2 ^ 106 * ((xn * b) * (yn * d))) as Hl.
  { change (2 ^ 106) with (2 ^ 53 * 2 ^ 53). apply mul_le_chain; nia. }
  assert (0 < xd * yd) by nia.
  set (P := a * c * (xd * yd)) in *. set (N := zn * (b * d) * (xd * yd)).
  assert (0 ≤ P * zd) by (unfold P; nia).
  assert (2 ^ 159 * N ≤ (2 ^ 53 + 1) ^ 3 * (P * zd)) as Hu'.
  { transitivity (2 ^ 106 * ((b * d) * ((2 ^ 53 + 1) * (xn * yn * zd)))).
    - unfold N. change (2 ^ 159) with (2 ^ 106 * 2 ^ 53).
      assert ((b * d) * (2 ^ 53 * (zn * (xd * yd))) ≤ (b * d) * ((2 ^ 53 + 1) * (xn * yn * zd)));
        [apply Z.mul_le_mono_nonneg_l; nia|lia].
    - assert ((2 ^ 53 + 1) * zd * (2 ^ 106 * ((xn * b) * (yn * d)))
              ≤ (2 ^ 53 + 1) * zd * ((2 ^ 53 + 1) * (2 ^ 53 + 1) * ((a * xd) * (c * yd))));
        [apply Z.mul_le_mono_nonneg_l; lia|]. unfold P. lia. }
  assert ((2 ^ 53 - 1) ^ 3 * (P * zd) ≤ 2 ^ 159 * N) as Hl'.
  { transitivity (2 ^ 106 * ((b * d) * ((2 ^ 53 - 1) * (xn * yn * zd)))).
    - assert ((2 ^ 53 - 1) * zd * ((2 ^ 53 - 1) * (2 ^ 53 - 1) * ((a * xd) * (c * yd)))
              ≤ (2 ^ 53 - 1) * zd * (2 ^ 106 * ((xn * b) * (yn * d))));
        [apply Z.mul_le_mono_nonneg_l; lia|]. unfold P. lia.
    - unfold N. change (2 ^ 159) with (2 ^ 106 * 2 ^ 53).
      assert ((b * d) * ((2 ^ 53 - 1) * (xn * yn * zd)) ≤ (b * d) * (2 ^ 53 * (zn * (xd * yd))));
        [apply Z.mul_le_mono_nonneg_l; nia|lia]. }
  assert (2 ^ 51 * N ≤ (2 ^ 51 + 1) * (P * zd)) as Hu'' by lia.
  assert ((2 ^ 51 - 1) * (P * zd) ≤ 2 ^ 51 * N) as Hl'' by lia.
  clear -Hu'' Hl'' H. unfold N, P in *. split.
  - apply (Z.mul_le_mono_pos_r _ _ (xd * yd)); [done|]. lia.
  - apply (Z.mul_le_mono_pos_r _ _ (xd * yd)); [done|]. lia.
Qed.

(** ** The shares *)

Section shares.
Context (M L : Z) (HM : 0 < M) (HL : 0 ≤ L < 2 ^ 50).

Definition raw_share (m : Z) : Q := double_mul_Z (double_div m M) L.

(** The floor of the computed share against the exact share [m * L / M]. *)
Lemma floor_share m :
  0 ≤ m →
  2 ^ 51 * (int_of (raw_share m) * M) ≤ (2 ^ 51 + 1) * (m * L)
  ∧ (2 ^ 51 - 1) * (m * L) < 2 ^ 51 * ((int_of (raw_share m) + 1) * M).
Proof using HM HL.
  intros Hm.
  assert (within (raw_share m) (m * L) (M * 1)) as (H0 & Hlo & Hhi).
  { apply double_mul_within; try lia; apply double_div_near; lia. }
  unfold int_of. set (n := Qnum (raw_share m)) in *. set (d := Zpos (Qden (raw_share m))) in *.
  assert (0 < d) as Hd by (unfold d; lia).
  rewrite Z.quot_div_nonneg by lia.
  pose proof (Z.div_mod n d ltac:(lia)) as Hdm. pose proof (Z.mod_pos_bound n d Hd).
  set (q := n / d) in *. rewrite Z.mul_1_r in *.
  assert (q * d ≤ n) as Hq1 by lia. assert (n < (q + 1) * d) as Hq2 by lia. split.
  - apply (Z.mul_le_mono_pos_r _ _ d); [done|].
    assert (q * d * M ≤ n * M) by (apply Z.mul_le_mono_nonneg_r; lia). lia.
  - apply (Z.mul_lt_mono_pos_r d); [done|].
    assert (n * M < (q + 1) * d * M) by (apply Z.mul_lt_mono_pos_r; lia). lia.
Qed.

Definition floors (ms : list Z) : list Z := map int_of (map raw_share ms).

Lemma floors_sum_bounds ms :
  Forall (λ m, 0 ≤ m) ms →
  2 ^ 51 * (sumZ (floors ms) * M) ≤ (2 ^ 51 + 1) * (sumZ ms * L)
  ∧ (2 ^ 51 - 1) * (sumZ ms * L) ≤ 2 ^ 51 * ((sumZ (floors ms) + Z.of_nat (length ms)) * M).
Proof using HM HL.
  induction 1 as [|m ms Hm Hms [IH1 IH2]]; cbn [floors map sumZ length]; [lia|].
  destruct (floor_share m Hm) as [H1 H2]. unfold floors in IH1, IH2. lia.
Qed.

(** Rounding loses at most one layer per node and never invents one. *)
Lemma floors_sum ms :
  Forall (λ m, 0 ≤ m) ms → sumZ ms = M →
  sumZ (floors ms) ≤ L ∧ L - sumZ (floors ms) ≤ Z.of_nat (length ms).
Proof using HM HL.
  intros Hms Hsum. destruct (floors_sum_bounds ms Hms) as [H1 H2]. rewrite Hsum in *.
  set (F := sumZ (floors ms)) in *.
  assert (2 ^ 51 * F ≤ (2 ^ 51 + 1) * L).
  { apply (Z.mul_le_mono_pos_r _ _ M); [done|]. lia. }
  assert ((2 ^ 51 - 1) * L ≤ 2 ^ 51 * (F + Z.of_nat (length ms))).
  { apply (Z.mul_le_mono_pos_r _ _ M); [done|]. lia. }
  lia.
Qed.

(** A share of at least [c + 1] layers is not rounded below [c]. *)
Lemma floor_share_ge m c :
  0 ≤ m → (c + 1) * M ≤ m * L → c ≤ L → c ≤ int_of (raw_share m).
Proof using HM HL.
  intros Hm Hc HcL. destruct (floor_share m Hm) as [_ H].
  assert ((2 ^ 51 - 1) * (c + 1) < 2 ^ 51 * (int_of (raw_share m) + 1)).
  { apply (Z.mul_lt_mono_pos_r M); [done|]. lia. }
  lia.
Qed.

(** A floor or one more is within one layer of the exact share, up to the rounding. *)
Lemma floor_share_close m r :
  0 ≤ m ≤ M → int_of (raw_share m) ≤ r ≤ int_of (raw_share m) + 1 →
  2 ^ 51 * Z.abs (r * M - m * L) ≤ (2 ^ 51 + L) * M.
Proof using HM HL.
  intros [Hm HmM] Hr. destruct (floor_share m Hm) as [H1 H2].
  assert (m * L ≤ M * L) by (apply Z.mul_le_mono_nonneg_r; lia).
  set (q := int_of (raw_share m)) in *.
  assert (q * M ≤ r * M) by (apply Z.mul_le_mono_nonneg_r; lia).
  assert (r * M ≤ (q + 1) * M) by (apply Z.mul_le_mono_nonneg_r; lia). lia.
Qed.
End shares.

Lemma at_index_map {A} (f : A → Z) l i x : l !! i = Some x → at_index (map f l) i = f x.
Proof. intros Hx. unfold at_index. by rewrite list_lookup_fmap, Hx. Qed.

Section allocation.
Context (total_layers minimum : Z) (memory : list Z).
Abbreviation M := (sumZ memory).
Abbreviation n := (Z.of_nat (length memory)).
Abbreviation fractions := (map (λ m, double_div m M) memory).
Context (Hmin : 1 ≤ minimum) (HL : total_layers < 2 ^ 50).
Context (Hms : Forall (λ m, 0 ≤ m) memory) (HM : 0 < M).

Lemma memory_not_empty : length memory ≠ 0%nat.
Proof using HM. intros He%nil_length_inv. rewrite He in HM. cbn in HM. lia. Qed.

Lemma allocate_too_few :
  total_layers < n * minimum →
  ∃ msg, allocate_layers_proportionally total_layers fractions minimum = Err (ValueError msg).
Proof using Hmin HM.
  intros Hlt. unfold allocate_layers_proportionally. rewrite length_map.
  destruct (Nat.eqb_spec (length memory) 0) as [He|_]; [by apply memory_not_empty in He|].
  rewrite (Z.max_r 1 minimum) by done. destruct (Z.ltb_spec total_layers (n * minimum)); [eauto|lia].
Qed.

Context (Hge : n * minimum ≤ total_layers).

Lemma layers_bound : 0 ≤ total_layers < 2 ^ 50.
Proof using Hmin HL Hge. split; [|done]. etrans; [|exact Hge]. nia. Qed.

(** The two stages of the function: the floors and the remainder, then the minimum. *)
Lemma allocate_stages :
  ∃ r r', allocate_layers_proportionally total_layers fractions minimum = Ok r'
    ∧ handed (floors M total_layers memory) r
    ∧ foldM (satisfy_minimum minimum fractions) r (seq 0 (length memory)) = Ok r'
    ∧ length r' = length memory ∧ sumZ r' = total_layers
    ∧ ∀ i, (i < length memory)%nat → minimum ≤ at_index r' i.
Proof using Hmin HL Hms HM Hge.
  unfold allocate_layers_proportionally. rewrite length_map.
  destruct (Nat.eqb_spec (length memory) 0) as [He|_]; [by apply memory_not_empty in He|].
  rewrite (Z.max_r 1 minimum) by done.
  destruct (Z.ltb_spec total_layers (n * minimum)); [lia|].
  replace (map (λ f, double_mul_Z f total_layers) fractions)
    with (map (raw_share M total_layers) memory) by (by rewrite map_map).
  change (map int_of (map (raw_share M total_layers) memory)) with (floors M total_layers memory).
  set (fl := floors M total_layers memory).
  assert (length fl = length memory) as Hfl by (unfold fl, floors; by rewrite !length_map).
  destruct (floors_sum M total_layers HM layers_bound memory Hms eq_refl) as [HF1 HF2].
  fold fl in HF1, HF2.
  destruct (hand_out_spec (remainder_order (map (λ r, Qminus r (inject_Z (int_of r)))
              (map (raw_share M total_layers) memory))) fl (Z.to_nat (total_layers - sumZ fl)))
    as (r & Hr & Hh & Hrs); [lia|]. pose proof Hh as [Hrl _].
  rewrite Hfl in Hr. rewrite Hr. cbn [mbind result_bind].
  destruct (satisfy_minimum_all minimum fractions (length memory) r) as (r' & Hr' & Hl' & Hs' & Hm');
    [lia|rewrite Hrl, Hfl; lia|].
  exists r, r'. do 3 (split; [done|]). repeat split; [congruence|lia|done].
Qed.

Lemma floor_at j m :
  memory !! j = Some m →
  at_index (floors M total_layers memory) j = int_of (raw_share M total_layers m).
Proof using.
  intros Hj. unfold floors. rewrite map_map.
  by apply (at_index_map (λ m, int_of (raw_share M total_layers m))).
Qed.

(** Shares that are large enough are left as the first stage gave them. *)
Lemma minimum_undisturbed r :
  handed (floors M total_layers memory) r →
  (∀ m, m ∈ memory → (minimum + 1) * M ≤ m * total_layers) →
  foldM (satisfy_minimum minimum fractions) r (seq 0 (length memory)) = Ok r.
Proof using Hmin HL Hms HM Hge.
  intros [Hrl Hrb] Hbig. unfold floors in Hrl. rewrite !length_map in Hrl.
  apply satisfy_minimum_id; [|lia]. apply Forall_lookup. intros j y Hy.
  apply lookup_lt_Some in Hy as Hy'. rewrite Hrl in Hy'.
  destruct (lookup_lt_is_Some_2 memory j Hy') as [m Hj].
  assert (minimum ≤ int_of (raw_share M total_layers m)) as Hge'.
  { apply (floor_share_ge M total_layers HM layers_bound).
    - by eapply (Forall_lookup_1 _ _ _ _ Hms).
    - apply Hbig. by eapply list_elem_of_lookup_2.
    - pose proof memory_not_empty. etrans; [|exact Hge]. nia. }
  specialize (Hrb j). unfold floors in Hrb at 1. rewrite !length_map in Hrb.
  specialize (Hrb Hy'). rewrite (floor_at j m Hj) in Hrb.
  unfold at_index in Hrb. rewrite Hy in Hrb. cbn in Hrb. lia.
Qed.
End allocation.

(** The layers of a model are divided completely: for any memory sizes that are not
    negative and not all zero, and enough layers for the minimum of every node, the function
    returns without an error, in spite of the rounding of its floats, a list with one entry per
    node, all layers handed out and no node below the minimum.  When every node's exact
    share is at least one layer above the minimum, each gets its exact share up to one
    layer.  Without nodes, or with too few layers, it raises. *)
Theorem allocate_layers_proportionally_exact (total_layers minimum : Z) (memory : list Z) :
  1 ≤ minimum → total_layers < 2 ^ 50 → Forall (λ m, 0 ≤ m) memory → 0 < sumZ memory →
  let fractions := map (λ m, double_div m (sumZ memory)) memory in
  let n := Z.of_nat (length memory) in
  if total_layers <? n * minimum
  then ∃ msg, allocate_layers_proportionally total_layers fractions minimum = Err (ValueError msg)
  else ∃ r, allocate_layers_proportionally total_layers fractions minimum = Ok r
    ∧ length r = length memory ∧ sumZ r = total_layers ∧ Forall (λ x, minimum ≤ x) r
    ∧ ((∀ m, m ∈ memory → (minimum + 1) * sumZ memory ≤ m * total_layers) →
       ∀ i m x, memory !! i = Some m → r !! i = Some x →
         2 ^ 51 * Z.abs (x * sumZ memory - m * total_layers)
         ≤ (2 ^ 51 + total_layers) * sumZ memory).
Proof.
  intros Hmin HL Hms HM fractions n. destruct (Z.ltb_spec total_layers (n * minimum)) as [Hlt|Hge].
  { by apply allocate_too_few. }
  destruct (allocate_stages total_layers minimum memory Hmin HL Hms HM Hge)
    as (r & r' & Ha & Hh & Hr & Hl & Hs & Hm).
  exists r'. repeat split; [done..| |].
  { apply Forall_lookup. intros i x Hx. apply lookup_lt_Some in Hx as Hi.
    specialize (Hm i ltac:(lia)). unfold at_index in Hm. by rewrite Hx in Hm. }
  intros Hbig i m x Hi Hx.
  rewrite (minimum_undisturbed _ _ _ Hmin HL Hms HM Hge r Hh Hbig) in Hr. injection Hr as <-.
  apply floor_share_close; [done|by eapply layers_bound| |].
  - split; [by eapply (Forall_lookup_1 _ _ _ _ Hms)|].
    apply sumZ_elem_le; [done|]. by eapply list_elem_of_lookup_2.
  - destruct Hh as [Hrl Hrb]. apply lookup_lt_Some in Hx as Hi'. rewrite Hrl in Hi'.
    specialize (Hrb i Hi'). rewrite (floor_at total_layers memory i m Hi) in Hrb.
    unfold at_index in Hrb. rewrite Hx in Hrb. exact Hrb.
Qed.
