(* ===== verification/NetworkRoutes.v ===== *)
(** * Routes between nodes

    The transport endpoints of [NodeIdentity] ([shared/types/profiling.py]) and
    [shared/network_routes.py]: who reaches whom over direct sockets, over the overlay, or by
    one relay in between.  A route dict is a record without its fields that are functions of
    the others ([pathNodeIds]) or constant ([candidateOnly]).  Ids of nodes are not blank. *)
From S2P Require Import Prelude.
From S2P Require Import PyStr.
From S2P Require Import PyVal.
From S2P Require Import Sha256.
From S2P Require Import PyOrder.
From S2P Require Import Topology.
From S2P Require Import RuntimeState.
Local Open Scope Z_scope.
Set Default Proof Using "Type".

(** ** Endpoints *)

Definition route_priority (route_type : string) : Z :=
  if String.eqb route_type "direct" then 0
  else if String.eqb route_type "overlay" then 1
  else if String.eqb route_type "relay" then 2 else 99.

Definition source_priority (source : string) : Z :=
  if String.eqb source "explicit" then 0
  else if String.eqb source "auto" then 1
  else if String.eqb source "interface_scan" then 2 else 99.

Definition endpoint_key (e : AdvertisedTransportEndpoint) : sort_key :=
  [KI (route_priority (ep_route_type e));
   KI (source_priority (match ep_source e with
                        | Some s => if String.eqb s "" then "interface_scan" else s
                        | None => "interface_scan"
                        end));
   KS (ep_host e);
   KI (match ep_port e with None => -1 | Some p => p end)].

Definition transport_endpoints_for (identity : NodeIdentity) (purpose : option string)
    (route_types : option (list string)) (require_port : bool)
  : list AdvertisedTransportEndpoint :=
  sorted_by endpoint_key
    (filter (λ e,
       negb (String.eqb (ep_host e) "")
       && match purpose with Some p => String.eqb (ep_purpose e) p | None => true end
       && match route_types with Some rs => bool_decide (ep_route_type e ∈ rs) | None => true end
       && negb (require_port && bool_decide (ep_port e = None)))
       (ni_transport_endpoints identity)).

Definition preferred_transport_endpoint (identity : NodeIdentity) (purpose : string)
    (route_types : option (list string)) (require_port : bool)
  : option AdvertisedTransportEndpoint :=
  head (transport_endpoints_for identity (Some purpose) route_types require_port).

(** ** Adjacency *)

Definition adjacency : Type := gmap string (gset string).

(** [adjacency[source].add(sink)], [adjacency.get(source, set())]. *)
Definition neighbours_of (adj : adjacency) (n : string) : gset string := default ∅ (adj !! n).
Definition add_neighbour (adj : adjacency) (a b : string) : adjacency :=
  <[a := {[b]} ∪ neighbours_of adj a]> adj.
Definition empty_adjacency (visible_nodes : gset string) : adjacency :=
  gset_to_gmap ∅ visible_nodes.

Definition is_socket (e : Edge) : Prop := match e with SocketConnection _ => True | _ => False end.
#[export] Instance is_socket_dec e : Decision (is_socket e).
Proof. destruct e; apply _. Defined.

Definition socket_adjacency (t : Topology) (visible_nodes : gset string) : adjacency :=
  foldl (λ adj c,
    if bool_decide (source c ∉ visible_nodes) || bool_decide (sink c ∉ visible_nodes)
       || bool_decide (source c = sink c) || bool_decide (¬ is_socket (edge c)) then adj
    else add_neighbour adj (source c) (sink c))
    (empty_adjacency visible_nodes) (connections t).

(** One entry of [overlay_peers]. *)
Definition add_overlay_peers (visible_nodes : gset string) (adj : adjacency)
    (entry : string * list string) : adjacency :=
  let '(source_node_id, peer_node_ids) := entry in
  if bool_decide (source_node_id ∉ visible_nodes) then adj
  else foldl (λ adj peer,
         if bool_decide (peer ∉ visible_nodes) || bool_decide (peer = source_node_id) then adj
         else add_neighbour adj source_node_id peer) adj peer_node_ids.

Definition overlay_adjacency (visible_nodes : gset string)
    (overlay_peers : gmap string (list string)) : adjacency :=
  foldl (add_overlay_peers visible_nodes) (empty_adjacency visible_nodes)
    (map_to_list overlay_peers).

Definition relay_capable_node_ids (node_identities : gmap string NodeIdentity) : gset string :=
  dom (filter (λ kv : string * NodeIdentity,
         ni_relay_enabled kv.2 = Some true
         ∨ transport_endpoints_for kv.2 None (Some ["relay"]) false ≠ []) node_identities).

(** ** Relay routes *)

Record RelayRoute := {
  rr_source : string;
  rr_transit : string;
  rr_sink : string;
  rr_source_segment : string;
  rr_sink_segment : string;
  rr_transit_participates : bool
}.
#[export] Instance relay_route_eq_dec : EqDecision RelayRoute.
Proof. solve_decision. Defined.

Section links.
Context (direct_adjacency overlay_links : adjacency).

Definition _best_segment_type (source_node_id sink_node_id : string) : option string :=
  if bool_decide (sink_node_id ∈ neighbours_of direct_adjacency source_node_id) then Some "direct"
  else if bool_decide (sink_node_id ∈ neighbours_of overlay_links source_node_id)
       then Some "overlay"
  else None.

(** The first eight bytes of the hash of the three ids separated by zero bytes. *)
Definition _relay_tie_break_score (source_node_id sink_node_id relay_node_id : string) : Z :=
  match sha256_words (bytes_of_str source_node_id ++ [0] ++ bytes_of_str sink_node_id ++ [0]
                      ++ bytes_of_str relay_node_id) with
  | hi :: lo :: _ => hi * 2 ^ 32 + lo
  | _ => 0
  end.

Definition segment_priority (segment : string) : Z :=
  if String.eqb segment "direct" then 0 else if String.eqb segment "overlay" then 1 else 99.

Definition _relay_route_base_score (source_node_id sink_node_id : string) (route : RelayRoute)
  : sort_key :=
  [KI (segment_priority (rr_source_segment route));
   KI (segment_priority (rr_sink_segment route));
   KI (if rr_transit_participates route then 1 else 0);
   KI (_relay_tie_break_score source_node_id sink_node_id (strip (rr_transit route)));
   KS (strip (rr_transit route))].

Definition relay_route_via (participant_node_ids : gset string)
    (source_node_id sink_node_id relay_node_id : string) : option RelayRoute :=
  if bool_decide (relay_node_id = source_node_id) || bool_decide (relay_node_id = sink_node_id)
  then None
  else
    source_segment_type ← _best_segment_type source_node_id relay_node_id;
    sink_segment_type ← _best_segment_type relay_node_id sink_node_id;
    Some {| rr_source := source_node_id; rr_transit := relay_node_id; rr_sink := sink_node_id;
            rr_source_segment := source_segment_type; rr_sink_segment := sink_segment_type;
            rr_transit_participates := bool_decide (relay_node_id ∈ participant_node_ids) |}.

Definition _relay_routes_for_pair (source_node_id sink_node_id : string)
    (participant_node_ids relay_node_ids : gset string) : list RelayRoute :=
  sorted_by (_relay_route_base_score source_node_id sink_node_id)
    (omap (relay_route_via participant_node_ids source_node_id sink_node_id)
       (elements relay_node_ids)).

Definition _best_relay_route (source_node_id sink_node_id : string)
    (participant_node_ids relay_node_ids : gset string) : option RelayRoute :=
  head (_relay_routes_for_pair source_node_id sink_node_id participant_node_ids relay_node_ids).
End links.

(** ** Targets a coordinator can reach *)

(** The nodes that appear in the overlay or among the identities. *)
Definition known_route_nodes (overlay_peers : gmap string (list string))
    (node_identities : gmap string NodeIdentity) : gset string :=
  dom overlay_peers ∪ list_to_set (concat (map snd (map_to_list overlay_peers)))
  ∪ dom node_identities.

(** The targets of one source: its direct neighbours, and those behind one relay. *)
Definition reachable_from (direct_adjacency overlay_links : adjacency)
    (visible_nodes relay_node_ids : gset string) (source_node_id : string) : gset string :=
  foldl (λ reachable sink_node_id,
    if bool_decide (sink_node_id = source_node_id) || bool_decide (sink_node_id ∈ reachable)
    then reachable
    else match _best_relay_route direct_adjacency overlay_links source_node_id sink_node_id
                 visible_nodes relay_node_ids with
         | Some _ => {[sink_node_id]} ∪ reachable
         | None => reachable
         end)
    (neighbours_of direct_adjacency source_node_id ∩ visible_nodes) (sorted_ids visible_nodes).

Definition llama_cpp_reachable_targets_by_source (t : Topology)
    (overlay_peers : gmap string (list string)) (node_identities : gmap string NodeIdentity)
    (visible_nodes : gset string) : adjacency :=
  let route_nodes := visible_nodes ∪ known_route_nodes overlay_peers node_identities in
  let targets := reachable_from (socket_adjacency t route_nodes)
    (overlay_adjacency route_nodes overlay_peers) visible_nodes
    (relay_capable_node_ids node_identities) in
  list_to_map (map (λ n, (n, targets n)) (sorted_ids visible_nodes)).

(** ** Choosing one relay per pair *)

Definition _least_loaded_relay_route (routes : list RelayRoute)
    (source_node_id sink_node_id : string) (transit_route_counts : gmap string Z)
  : option RelayRoute :=
  let load_key route :=
    [KI (segment_priority (rr_source_segment route));
     KI (segment_priority (rr_sink_segment route));
     KI (if rr_transit_participates route then 1 else 0);
     KI (default 0 (transit_route_counts !! rr_transit route));
     KI (_relay_tie_break_score source_node_id sink_node_id (strip (rr_transit route)));
     KS (strip (rr_transit route))] in
  match routes with
  | [] => None
  | r :: rs => Some (first_min (λ a b, sort_key_leb (load_key a) (load_key b)) r rs)
  end.

Definition route_order_key (route : RelayRoute) : sort_key :=
  [KS (rr_source route); KS (rr_sink route); KS (rr_transit route)].

Section candidates.
Context (participant_nodes : gset string) (direct_adjacency visible_direct_adjacency
  overlay_links : adjacency) (relay_node_ids : gset string) (include_alternatives : bool).

(** The body of the loops over sources and sinks, from the routes so far and their count per
    transit node. *)
Definition pair_candidates (st : list RelayRoute * gmap string Z) (pair : string * string)
  : list RelayRoute * gmap string Z :=
  let '(relay_routes, transit_route_counts) := st in
  let '(source_node_id, sink_node_id) := pair in
  if bool_decide (sink_node_id = source_node_id)
     || bool_decide (sink_node_id ∈ neighbours_of direct_adjacency source_node_id) then st
  else
    let pair_routes :=
      _relay_routes_for_pair visible_direct_adjacency overlay_links source_node_id sink_node_id
        participant_nodes relay_node_ids in
    if include_alternatives then (relay_routes ++ pair_routes, transit_route_counts)
    else
      match _least_loaded_relay_route pair_routes source_node_id sink_node_id
              transit_route_counts with
      | None => st
      | Some route =>
          let transit := strip (rr_transit route) in
          (relay_routes ++ [route],
           <[transit := default 0 (transit_route_counts !! transit) + 1]> transit_route_counts)
      end.
End candidates.

Definition relay_route_candidates (t : Topology) (overlay_peers : gmap string (list string))
    (node_identities : gmap string NodeIdentity) (participant_node_ids : list string)
    (include_alternatives : bool) : list RelayRoute :=
  let participant_nodes : gset string :=
    list_to_set (filter (λ n, strip n ≠ "") participant_node_ids) in
  if (size participant_nodes <=? 1)%nat then []
  else
    let direct_adjacency := socket_adjacency t participant_nodes in
    let visible_nodes :=
      participant_nodes ∪ list_to_set (nodes t) ∪ known_route_nodes overlay_peers node_identities in
    let visible_direct_adjacency := socket_adjacency t visible_nodes in
    let overlay_links := overlay_adjacency visible_nodes overlay_peers in
    let relay_node_ids := relay_capable_node_ids node_identities in
    let ps := sorted_ids participant_nodes in
    sorted_by route_order_key
      (foldl (pair_candidates participant_nodes direct_adjacency visible_direct_adjacency
                overlay_links relay_node_ids include_alternatives)
         ([], ∅) (ps ≫= λ s, map (pair s) ps)).1.

Definition relay_coordinator_candidate_node_ids (t : Topology)
    (overlay_peers : gmap string (list string)) (node_identities : gmap string NodeIdentity)
    (participant_node_ids : list string) : list string :=
  let participant_nodes := filter (λ n, strip n ≠ "") participant_node_ids in
  let participant_set : gset string := list_to_set participant_nodes in
  if (size participant_set <=? 1)%nat then participant_nodes
  else
    let direct_adjacency := socket_adjacency t participant_set in
    let relay_routes :=
      relay_route_candidates t overlay_peers node_identities participant_nodes false in
    let relay_reachable :=
      foldl (λ adj route,
        let s := strip (rr_source route) in
        let k := strip (rr_sink route) in
        if bool_decide (s ∈ participant_set) && bool_decide (k ∈ participant_set)
        then add_neighbour adj s k else adj) (empty_adjacency participant_set) relay_routes in
    filter (λ n,
      neighbours_of relay_reachable n ≠ ∅
      ∧ Forall (λ o, o = n ∨ o ∈ neighbours_of direct_adjacency n
                     ∨ o ∈ neighbours_of relay_reachable n) (elements participant_set))
      (sorted_ids participant_set).
