(* ===== verification/NetworkModelPolicy.v ===== *)
(** * Policy for private models

    [shared/network_model_policy.py]: which models are private to the network, what a request
    to place one must ask for, and what an instance and a shard of one must satisfy.  The
    policy is read from the environment once; it is a function of the environment here. *)
From Stdlib Require Import QArith Ascii.
From S2P Require Import Prelude.
From S2P Require Import PyStr.
From S2P Require Import PyVal.
From S2P Require Import Doubles.
From S2P Require Import Money.
From S2P Require Import Topology.
From S2P Require Import RuntimeState.
Local Open Scope Z_scope.
Set Default Proof Using "Type".

Inductive Sharding := Tensor | Pipeline.
#[export] Instance sharding_eq_dec : EqDecision Sharding.
Proof. solve_decision. Defined.

Definition DEFAULT_PRIVATE_NETWORK_MODEL_IDS : list string := ["cai-network/Qwen3-0.6B-GGUF"].
Definition PRIVATE_NETWORK_DOWNLOAD_REPO_IDS : list (string * string) :=
  [("cai-network/Qwen3-0.6B-GGUF", "Qwen/Qwen3-0.6B-GGUF")].

Definition _env_flag (env : Environ) (name : string) (default : bool) : bool :=
  match env name with
  | None => default
  | Some raw => bool_decide (lower (strip raw) ∈ ["1"; "true"; "yes"; "on"])
  end.

(** [raw.replace(";", ",").split(",")] *)
Fixpoint semicolons_as_commas (s : string) : string :=
  match s with
  | "" => ""
  | String c s' => String (if Ascii.eqb c ";"%char then ","%char else c) (semicolons_as_commas s')
  end.

Definition _env_model_ids (env : Environ) (name : string) (default : list string) : list string :=
  match env name with
  | None => default
  | Some raw =>
      if String.eqb (strip raw) "" then default
      else filter (λ item, item ≠ "") (map strip (split_on ","%char (semicolons_as_commas raw)))
  end.

Record PrivateNetworkModelPolicy := {
  pp_model_ids : list string;
  pp_minimum_nodes : Z;
  pp_require_pipeline_sharding : bool;
  pp_disallow_single_node_fallback : bool;
  pp_allow_single_node_bootstrap : bool;
  pp_require_filtered_downloads : bool;
  pp_minimum_ram_headroom : Z;
  pp_minimum_pipeline_layers_per_node : Z
}.

(** [max(1, int(os.getenv(name, dflt).strip()))], [dflt] when it is not an integer. *)
Definition env_at_least_one (env : Environ) (name : string) (dflt : Z) : Z :=
  match int_of_str (strip (match env name with Some s => s | None => str_of_Z dflt end)) with
  | Some n => Z.max 1 n
  | None => dflt
  end.

(** [Memory.from_mb(max(0, x))]: rounding an infinite number raises. *)
Definition from_mb_at_least_0 (x : py_float) : result Z :=
  match x with
  | Fin q => Ok (if Qle_bool q 0 then 0 else round_of (double_mul_Z q (1024 * 1024)))
  | Inf true | NaN => Ok 0
  | Inf false => Err OverflowError
  end.

Definition get_private_network_model_policy (env : Environ) : result PrivateNetworkModelPolicy :=
  let minimum_nodes := env_at_least_one env "CAI_PRIVATE_NETWORK_MODEL_MIN_NODES" 1 in
  let minimum_ram_headroom_raw :=
    strip (match env "CAI_PRIVATE_NETWORK_MODEL_MIN_RAM_HEADROOM_MB" with
           | Some s => s
           | None => "0"
           end) in
  minimum_ram_headroom ← match float_of_str minimum_ram_headroom_raw with
                         | Some x => from_mb_at_least_0 x
                         | None => Ok 0
                         end;
  Ok {| pp_model_ids :=
          _env_model_ids env "CAI_PRIVATE_NETWORK_MODEL_IDS" DEFAULT_PRIVATE_NETWORK_MODEL_IDS;
        pp_minimum_nodes := minimum_nodes;
        pp_require_pipeline_sharding :=
          _env_flag env "CAI_PRIVATE_NETWORK_MODEL_REQUIRE_PIPELINE" true;
        pp_disallow_single_node_fallback :=
          _env_flag env "CAI_PRIVATE_NETWORK_MODEL_DISABLE_SINGLE_NODE" true;
        pp_allow_single_node_bootstrap :=
          _env_flag env "CAI_PRIVATE_NETWORK_MODEL_ALLOW_BOOTSTRAP_SINGLE_NODE" false;
        pp_require_filtered_downloads :=
          _env_flag env "CAI_PRIVATE_NETWORK_MODEL_FILTERED_DOWNLOADS" true;
        pp_minimum_ram_headroom := minimum_ram_headroom;
        pp_minimum_pipeline_layers_per_node :=
          env_at_least_one env "CAI_PRIVATE_NETWORK_MODEL_MIN_PIPELINE_LAYERS_PER_NODE" 2 |}.

Section policy.
Context (policy : PrivateNetworkModelPolicy).

(** The callers give no [private_override]. *)
Definition is_private_network_model (model_id : string) (model_card : option ModelCard) : bool :=
  match model_card with
  | Some card => mc_is_custom card || bool_decide (model_id ∈ pp_model_ids policy)
  | None => bool_decide (model_id ∈ pp_model_ids policy)
  end.

Definition private_network_model_effective_min_nodes (model_id : string)
    (model_card : option ModelCard) (available_nodes : option Z) : Z :=
  if negb (is_private_network_model model_id model_card) then 1
  else
    let minimum_nodes := Z.max 1 (pp_minimum_nodes policy) in
    match available_nodes with
    | Some n =>
        if pp_allow_single_node_bootstrap policy && (0 <? n) && (n <? minimum_nodes)
        then Z.max 1 n else minimum_nodes
    | None => minimum_nodes
    end.

Definition private_network_download_repo_id (model_id : string) : string :=
  match list_find (λ kv, kv.1 = model_id) PRIVATE_NETWORK_DOWNLOAD_REPO_IDS with
  | Some (_, (_, repo)) => repo
  | None => model_id
  end.

Definition private_network_model_ram_headroom (model_id : string) (model_card : option ModelCard)
  : Z :=
  if negb (is_private_network_model model_id model_card) then 0
  else pp_minimum_ram_headroom policy.

Definition private_network_model_min_pipeline_layers_per_node (model_id : string)
    (model_card : option ModelCard) : Z :=
  if negb (is_private_network_model model_id model_card) then 1
  else Z.max 1 (pp_minimum_pipeline_layers_per_node policy).

Definition private_error (model_id what : string) : exn :=
  ValueError ("Private network model " ++ model_id ++ " " ++ what)%string.

Definition enforce_private_network_model_request (model_id : string) (sharding : Sharding)
    (min_nodes : Z) (model_card : option ModelCard) (available_nodes : option Z)
  : result (Sharding * Z) :=
  if negb (is_private_network_model model_id model_card) then Ok (sharding, min_nodes)
  else if pp_require_pipeline_sharding policy && bool_decide (sharding ≠ Pipeline) then
    Err (private_error model_id "requires pipeline sharding.")
  else
    let effective_min_nodes :=
      private_network_model_effective_min_nodes model_id model_card available_nodes in
    Ok (Pipeline, Z.max min_nodes effective_min_nodes).

(** The loop over the shards of an instance. *)
Definition check_shard (model_id : string) (shard : ShardMetadata) : result unit :=
  if pp_require_pipeline_sharding policy && bool_decide (sh_kind shard ≠ PipelineShardMetadata)
  then Err (private_error model_id "requires pipeline shard metadata.")
  else if bool_decide (sh_kind shard = PipelineShardMetadata)
          && (end_layer shard - start_layer shard <? pp_minimum_pipeline_layers_per_node policy)
  then Err (private_error model_id
              ("requires at least " ++ str_of_Z (pp_minimum_pipeline_layers_per_node policy)
               ++ " pipeline layer(s) per node.")%string)
  else Ok tt.

Definition validate_private_network_instance (inst : Instance) : result unit :=
  let model_id := sa_model_id inst in
  let model_card := head (map (λ rs, sh_model_card rs.2) (runner_to_shard inst)) in
  if negb (is_private_network_model model_id model_card) then Ok tt
  else
    let node_count := Z.of_nat (length (node_to_runner inst)) in
    if (node_count <? pp_minimum_nodes policy)
       && negb (pp_allow_single_node_bootstrap policy && (node_count =? 1))
    then Err (private_error model_id
                ("requires at least " ++ str_of_Z (pp_minimum_nodes policy) ++ " nodes, got "
                 ++ str_of_Z node_count ++ ".")%string)
    else foldM (λ _ rs, check_shard model_id rs.2) tt (runner_to_shard inst).

Definition requires_filtered_downloads (shard : ShardMetadata) : bool :=
  is_private_network_model (sh_model_id shard) (Some (sh_model_card shard))
  && pp_require_filtered_downloads policy.

Definition validate_private_network_shard_download (shard : ShardMetadata) (skip_download : bool)
  : result unit :=
  if skip_download then Ok tt
  else
    let model_id := sh_model_id shard in
    if negb (is_private_network_model model_id (Some (sh_model_card shard))) then Ok tt
    else if pp_require_pipeline_sharding policy && bool_decide (sh_kind shard ≠ PipelineShardMetadata)
    then Err (private_error model_id "requires pipeline shard downloads.")
    else if pp_disallow_single_node_fallback policy
            && (world_size shard <? pp_minimum_nodes policy)
    then
      if pp_allow_single_node_bootstrap policy && (world_size shard =? 1) then Ok tt
      else Err (private_error model_id
                  ("requires at least " ++ str_of_Z (pp_minimum_nodes policy)
                   ++ " distributed shards.")%string)
    else Ok tt.
End policy.
