(* ===== verification/RouteHealth.v ===== *)
(** * Health of routes

    [route_health.py]: the records of probes of routes between nodes, what a new result does to
    them, and the scores the placement of instances reads from them.  The file is the list of
    its records.  The clock is an instant in microseconds; [fromisoformat] gives the instant of
    a text ([None] is the [ValueError]; without a zone it is UTC).  Latencies are finite. *)
From Stdlib Require Import QArith Ascii.
From Stdlib Require Import QArith.
From S2P Require Import Prelude.
From S2P Require Import PyStr.
From S2P Require Import PyVal.
From S2P Require Import Sha256.
From S2P Require Import Doubles.
From S2P Require Import PyOrder.
From S2P Require Import Money.
Local Open Scope Z_scope.
Set Default Proof Using "Type".

Record RouteHealthRecord := {
  rh_route_id : string;
  rh_source_node_id : string;
  rh_sink_node_id : string;
  rh_route_type : string;
  rh_endpoint_url : option string;
  rh_reachable : bool;
  rh_checked_at : string;
  rh_latency_ms : option Q;
  rh_error : option string;
  rh_transit_node_id : option string;
  rh_source : string;
  rh_consecutive_failures : Z
}.

Definition LLAMA_CPP_RPC_ROUTE_TYPES : list string :=
  ["llama_cpp_rpc"; "llama_cpp_rpc_direct"; "llama_cpp_rpc_relay"].
Definition DEFAULT_LLAMA_CPP_RPC_FAILURE_BACKOFF_SECONDS : Z := 1800.
Definition _DIRECT_LLAMA_CPP_RPC_ROUTE_TYPES : list string :=
  ["llama_cpp_rpc"; "llama_cpp_rpc_direct"].
Definition _RELAY_LLAMA_CPP_RPC_ROUTE_TYPES : list string := ["llama_cpp_rpc_relay"].

(** ** The file *)

Definition records_key (r : RouteHealthRecord) : sort_key :=
  [KS (rh_source_node_id r); KS (rh_sink_node_id r); KS (rh_route_type r)].

Definition list_route_health_records (file : list RouteHealthRecord) : list RouteHealthRecord :=
  sorted_by records_key file.

Definition opt_str (s : option string) : pyval := match s with Some s => VStr s | None => VNone end.

Definition deterministic_route_id (source_node_id sink_node_id route_type : string)
    (endpoint_url transit_node_id : option string) : string :=
  take_str 32 (sha256_hexdigest (canonical (VDict [
    ("source_node_id", VStr source_node_id); ("sink_node_id", VStr sink_node_id);
    ("route_type", VStr route_type); ("endpoint_url", opt_str endpoint_url);
    ("transit_node_id", opt_str transit_node_id)]))).

(** The first record with the id replaced, or the record at the end. *)
Fixpoint replace_record (record : RouteHealthRecord) (records : list RouteHealthRecord)
  : list RouteHealthRecord :=
  match records with
  | [] => [record]
  | item :: rest =>
      if String.eqb (rh_route_id item) (rh_route_id record) then record :: rest
      else item :: replace_record record rest
  end.

(** The result of one probe: its fields, and the time it is recorded. *)
Record ProbeResult := {
  pr_source_node_id : string;
  pr_sink_node_id : string;
  pr_route_type : string;
  pr_reachable : bool;
  pr_endpoint_url : option string;
  pr_latency_ms : option Q;
  pr_error : option string;
  pr_transit_node_id : option string;
  pr_source : string
}.

Definition probe_route_id (p : ProbeResult) : string :=
  deterministic_route_id (pr_source_node_id p) (pr_sink_node_id p) (pr_route_type p)
    (pr_endpoint_url p) (pr_transit_node_id p).

(** [next((item for item in records if item.route_id == route_id), None)] *)
Definition find_record (route_id : string) (records : list RouteHealthRecord)
  : option RouteHealthRecord :=
  head (filter (λ item, rh_route_id item = route_id) records).

Definition record_route_health (now_iso : string) (p : ProbeResult)
    (file : list RouteHealthRecord) : RouteHealthRecord * list RouteHealthRecord :=
  let route_id := probe_route_id p in
  let records := list_route_health_records file in
  let previous := find_record route_id records in
  let consecutive_failures :=
    if pr_reachable p then 0
    else (match previous with Some item => rh_consecutive_failures item | None => 0 end) + 1 in
  let record := {|
    rh_route_id := route_id; rh_source_node_id := pr_source_node_id p;
    rh_sink_node_id := pr_sink_node_id p; rh_route_type := pr_route_type p;
    rh_endpoint_url := pr_endpoint_url p; rh_reachable := pr_reachable p;
    rh_checked_at := now_iso; rh_latency_ms := pr_latency_ms p; rh_error := pr_error p;
    rh_transit_node_id := pr_transit_node_id p; rh_source := pr_source p;
    rh_consecutive_failures := consecutive_failures |} in
  (record, replace_record record records).

Definition record_llama_cpp_rpc_result (now_iso source_node_id sink_node_id : string)
    (reachable : bool) (endpoint_url transit_node_id error : option string)
    (file : list RouteHealthRecord) : RouteHealthRecord * list RouteHealthRecord :=
  let route_type :=
    match transit_node_id with
    | Some t => if String.eqb t "" then "llama_cpp_rpc_direct" else "llama_cpp_rpc_relay"
    | None => "llama_cpp_rpc_direct"
    end in
  record_route_health now_iso
    {| pr_source_node_id := source_node_id; pr_sink_node_id := sink_node_id;
       pr_route_type := route_type; pr_reachable := reachable;
       pr_endpoint_url := endpoint_url; pr_latency_ms := None; pr_error := error;
       pr_transit_node_id := transit_node_id; pr_source := "llama_cpp_rpc" |} file.

Section clock.
Context (env : Environ) (now : Z) (fromisoformat : string → option Z).

(** [str(value).replace("Z", "+00:00")] *)
Fixpoint utc_suffix (s : string) : string :=
  match s with
  | "" => ""
  | String c s' =>
      if Ascii.eqb c "Z"%char then ("+00:00" ++ utc_suffix s')%string else String c (utc_suffix s')
  end.

Definition _parse_iso_datetime (value : string) : option Z :=
  if String.eqb value "" then None else fromisoformat (utc_suffix value).

Definition prune_stale_route_health_records (max_age_seconds : Z) (file : list RouteHealthRecord)
  : Z * list RouteHealthRecord :=
  let stale item :=
    match _parse_iso_datetime (rh_checked_at item) with
    | None => false
    | Some parsed => Z.max 0 max_age_seconds * 1000000 <? now - parsed
    end in
  let records := list_route_health_records file in
  let kept := filter (λ item, stale item = false) records in
  let pruned := Z.of_nat (length records) - Z.of_nat (length kept) in
  (pruned, if pruned =? 0 then file else kept).

Definition backoff_seconds : Z :=
  match env "CAI_LLAMA_CPP_RPC_FAILURE_BACKOFF_SECONDS" with
  | None => DEFAULT_LLAMA_CPP_RPC_FAILURE_BACKOFF_SECONDS
  | Some raw =>
      if String.eqb raw "" then DEFAULT_LLAMA_CPP_RPC_FAILURE_BACKOFF_SECONDS
      else default DEFAULT_LLAMA_CPP_RPC_FAILURE_BACKOFF_SECONDS (int_of_str raw)
  end.

Definition _llama_cpp_rpc_failure_backoff_expired (checked_at : string) : bool :=
  match _parse_iso_datetime checked_at with
  | None => false
  | Some parsed =>
      if backoff_seconds <=? 0 then false else backoff_seconds * 1000000 <? now - parsed
  end.

(** ** Scores *)

Definition _llama_cpp_rpc_route_preference (route_type : string) : Z :=
  let clean := strip route_type in
  if bool_decide (clean ∈ _DIRECT_LLAMA_CPP_RPC_ROUTE_TYPES) then 2
  else if bool_decide (clean ∈ _RELAY_LLAMA_CPP_RPC_ROUTE_TYPES) then 1 else 0.

Definition _llama_cpp_rpc_route_health_score (route_type : string) : Z :=
  let clean := strip route_type in
  if bool_decide (clean ∈ _DIRECT_LLAMA_CPP_RPC_ROUTE_TYPES) then 5
  else if bool_decide (clean ∈ _RELAY_LLAMA_CPP_RPC_ROUTE_TYPES) then 3 else 1.

(** Whether a record counts for the pair: of an RPC type, between the nodes, and not a failure
    that is old enough to be tried again. *)
Definition rpc_candidate (source sink : string) (record : RouteHealthRecord) : bool :=
  bool_decide (strip (rh_route_type record) ∈ LLAMA_CPP_RPC_ROUTE_TYPES)
  && String.eqb (strip (rh_source_node_id record)) source
  && String.eqb (strip (rh_sink_node_id record)) sink
  && negb (negb (rh_reachable record)
           && _llama_cpp_rpc_failure_backoff_expired (rh_checked_at record)).

Definition rpc_key (ir : nat * RouteHealthRecord) : sort_key :=
  [KI (_llama_cpp_rpc_route_preference (strip (rh_route_type ir.2)));
   KS (rh_checked_at ir.2); KI (Z.of_nat ir.1)].

Definition rpc_step (source sink : string) (best : option (nat * RouteHealthRecord))
    (ir : nat * RouteHealthRecord) : option (nat * RouteHealthRecord) :=
  if rpc_candidate source sink ir.2 then
    match best with
    | None => Some ir
    | Some b => if sort_key_leb (rpc_key ir) (rpc_key b) then best else Some ir
    end
  else best.

Definition _best_llama_cpp_rpc_record_for_pair (source_node_id sink_node_id : string)
    (records : list RouteHealthRecord) : option RouteHealthRecord :=
  let source := strip source_node_id in
  let sink := strip sink_node_id in
  if String.eqb source "" || String.eqb sink "" || String.eqb source sink then None
  else snd <$> foldl (rpc_step source sink) None (enumerate records).

Definition llama_cpp_rpc_status_for_pair (source_node_id sink_node_id : string)
    (records : list RouteHealthRecord) : option bool :=
  rh_reachable <$> _best_llama_cpp_rpc_record_for_pair source_node_id sink_node_id records.

(** The score a reachable record of this type gives. *)
Definition route_type_score (route_type : string) : option Z :=
  if bool_decide (route_type ∈ ["direct_data"; "direct_socket"]) then Some 4
  else if String.eqb route_type "direct_api" then Some 3
  else if String.eqb route_type "overlay_peer" then Some 2
  else if String.eqb route_type "relay_active" then Some 3
  else if String.eqb route_type "reverse_relay_available" then Some 3
  else None.

(** The loop over all records: the best score and whether a route was seen to fail. *)
Definition score_step (source sink : string) (st : Z * bool) (record : RouteHealthRecord)
  : Z * bool :=
  let '(best_score, explicit_unhealthy) := st in
  let same_direction :=
    String.eqb (strip (rh_source_node_id record)) source
    && String.eqb (strip (rh_sink_node_id record)) sink in
  match route_type_score (strip (rh_route_type record)) with
  | Some score =>
      if same_direction then
        if rh_reachable record then (Z.max best_score score, explicit_unhealthy)
        else (best_score, true)
      else st
  | None => st
  end.

Definition route_health_score_for_pair (source_node_id sink_node_id : string)
    (records : list RouteHealthRecord) : Z :=
  let source := strip source_node_id in
  let sink := strip sink_node_id in
  match records with
  | [] => 1
  | _ =>
      if String.eqb source "" || String.eqb sink "" || String.eqb source sink then 1
      else
        let scan best_score explicit_unhealthy :=
          if 5 <=? best_score then best_score
          else
            let '(best_score, explicit_unhealthy) :=
              foldl (score_step source sink) (best_score, explicit_unhealthy) records in
            if 1 <? best_score then best_score else if explicit_unhealthy then 0 else 1 in
        match _best_llama_cpp_rpc_record_for_pair source sink records with
        | None => scan 1 false
        | Some best_rpc =>
            if rh_reachable best_rpc
            then scan (Z.max 1 (_llama_cpp_rpc_route_health_score (rh_route_type best_rpc))) false
            else if bool_decide (rh_route_type best_rpc ∈ _DIRECT_LLAMA_CPP_RPC_ROUTE_TYPES) then 0
            else scan 1 true
        end
  end.

Definition route_health_score_for_path (source_node_id : string) (sink_node_ids : list string)
    (records : list RouteHealthRecord) : Z * Z * Z :=
  match sink_node_ids, records with
  | [], _ | _, [] => (0, 0, 0)
  | _, _ =>
      let pair_scores :=
        map (λ sink, route_health_score_for_pair source_node_id sink records)
          (filter (λ sink, strip sink ≠ "" ∧ sink ≠ source_node_id) sink_node_ids) in
      match pair_scores with
      | [] => (0, 0, 0)
      | s :: ss =>
          (foldl Z.min s ss, sumZ pair_scores,
           - Z.of_nat (length (filter (λ score, score = 0) pair_scores)))
      end
  end.

(** ** Compute cells *)

Definition max_ms (name : string) (dflt : Z) : py_float :=
  let at_least_0 x :=
    match x with
    | Fin q => Fin (if Qle_bool q 0 then 0%Q else q)
    | Inf true | NaN => Fin 0%Q
    | Inf false => Inf false
    end in
  match env name with
  | None => Fin (inject_Z dflt)
  | Some raw =>
      if String.eqb raw "" then Fin (inject_Z dflt)
      else match float_of_str raw with
           | Some x => at_least_0 x
           | None => Fin (inject_Z dflt)
           end
  end.
Definition _low_latency_compute_cell_max_ms : py_float :=
  max_ms "CAI_LOW_LATENCY_COMPUTE_CELL_MAX_RTT_MS" 20.
Definition _wan_risky_compute_cell_max_ms : py_float :=
  max_ms "CAI_WAN_RISKY_COMPUTE_CELL_MAX_RTT_MS" 60.

Definition ms_le (x : Q) (limit : py_float) : bool :=
  match limit with Fin q => Qle_bool x q | Inf negative => negb negative | NaN => false end.

(** The status of a pair and its latency; the other fields of the dict are texts. *)
Inductive CellStatus :=
| unproven | failed | proven_unknown_latency | low_latency | wan_risky | wan_unsuitable.
#[export] Instance cell_status_eq_dec : EqDecision CellStatus.
Proof. solve_decision. Defined.

Definition _compute_cell_pair_profile (source_node_id sink_node_id : string)
    (records : list RouteHealthRecord) : CellStatus * option Q :=
  match _best_llama_cpp_rpc_record_for_pair source_node_id sink_node_id records with
  | None => (unproven, None)
  | Some latest =>
      if negb (rh_reachable latest) then (failed, rh_latency_ms latest)
      else
        match rh_latency_ms latest with
        | None => (proven_unknown_latency, None)
        | Some latency_ms =>
            (if ms_le latency_ms _low_latency_compute_cell_max_ms then low_latency
             else if ms_le latency_ms _wan_risky_compute_cell_max_ms then wan_risky
             else wan_unsuitable, Some latency_ms)
        end
  end.

Definition _max_known_latency_ms (pair_profiles : list (CellStatus * option Q)) : option Q :=
  match omap snd pair_profiles with
  | [] => None
  | x :: xs => Some (first_max Qle_bool x xs)
  end.

Inductive CellProfile :=
| single_node | unproven_sharded_cell | failed_sharded_cell | wan_risky_sharded_cell
| proven_unknown_latency_sharded_cell | low_latency_sharded_cell.
#[export] Instance cell_profile_eq_dec : EqDecision CellProfile.
Proof. solve_decision. Defined.

Definition profile_of_statuses (statuses : list CellStatus) : CellProfile :=
  if bool_decide (failed ∈ statuses) then failed_sharded_cell
  else if bool_decide (wan_unsuitable ∈ statuses) || bool_decide (wan_risky ∈ statuses)
  then wan_risky_sharded_cell
  else if bool_decide (unproven ∈ statuses) then unproven_sharded_cell
  else if bool_decide (proven_unknown_latency ∈ statuses)
  then proven_unknown_latency_sharded_cell
  else low_latency_sharded_cell.

(** The profile and the largest latency that is known. *)
Definition llama_cpp_compute_cell_profile_for_path (source_node_id : string)
    (sink_node_ids : list string) (records : list RouteHealthRecord)
  : CellProfile * option Q :=
  let sinks :=
    map strip (filter (λ n, strip n ≠ "" ∧ n ≠ source_node_id) sink_node_ids) in
  match sinks, records with
  | [], _ => (single_node, None)
  | _, [] => (unproven_sharded_cell, None)
  | _, _ =>
      let pair_profiles :=
        map (λ sink, _compute_cell_pair_profile source_node_id sink records) sinks in
      (profile_of_statuses (map fst pair_profiles), _max_known_latency_ms pair_profiles)
  end.
End clock.

(** * What the route records say after a history of probes

    The file keeps one record per route: the last result, with the number of failures since
    the last success. *)


(** One probe with the time it is recorded at, and a history of them, the oldest first. *)
Definition record_probe (file : list RouteHealthRecord) (tp : string * ProbeResult)
  : list RouteHealthRecord := (record_route_health tp.1 tp.2 file).2.

Definition record_probes : list (string * ProbeResult) → list RouteHealthRecord :=
  foldl record_probe [].

(** The probes of one route, the latest first. *)
Definition probes_of (route_id : string) (history : list (string * ProbeResult))
  : list (string * ProbeResult) :=
  reverse (filter (λ tp, probe_route_id tp.2 = route_id) history).

(** The failures before the first success. *)
Fixpoint failures_since_success (probes : list (string * ProbeResult)) : Z :=
  match probes with
  | [] => 0
  | tp :: rest => if pr_reachable tp.2 then 0 else failures_since_success rest + 1
  end.

Definition record_of (tp : string * ProbeResult) (failures : Z) : RouteHealthRecord := {|
  rh_route_id := probe_route_id tp.2; rh_source_node_id := pr_source_node_id tp.2;
  rh_sink_node_id := pr_sink_node_id tp.2; rh_route_type := pr_route_type tp.2;
  rh_endpoint_url := pr_endpoint_url tp.2; rh_reachable := pr_reachable tp.2;
  rh_checked_at := tp.1; rh_latency_ms := pr_latency_ms tp.2; rh_error := pr_error tp.2;
  rh_transit_node_id := pr_transit_node_id tp.2; rh_source := pr_source tp.2;
  rh_consecutive_failures := failures |}.

(** The record the file should have for a route. *)
Definition expected_record (route_id : string) (history : list (string * ProbeResult))
  : option RouteHealthRecord :=
  match probes_of route_id history with
  | [] => None
  | tp :: rest => Some (record_of tp (failures_since_success (tp :: rest)))
  end.

Lemma elem_of_replace_record r x l :
  NoDup (map rh_route_id l) →
  x ∈ replace_record r l ↔ x = r ∨ (x ∈ l ∧ rh_route_id x ≠ rh_route_id r).
Proof.
  induction l as [|y l IH]; cbn.
  - intros _. rewrite list_elem_of_singleton. set_solver.
  - intros [Hy Hnd]%NoDup_cons. destruct (String.eqb_spec (rh_route_id y) (rh_route_id r)) as [He|Hne].
    + rewrite !elem_of_cons. split; [|naive_solver].
      intros [->|Hx]; [by left|]. right. split; [by right|]. intros Hxr. apply Hy.
      apply list_elem_of_fmap. exists x. split; [congruence|done].
    + rewrite !elem_of_cons, IH by done. naive_solver.
Qed.

Lemma replace_record_ids r l :
  map rh_route_id (replace_record r l)
  = if bool_decide (rh_route_id r ∈ map rh_route_id l) then map rh_route_id l
    else map rh_route_id l ++ [rh_route_id r].
Proof.
  induction l as [|y l IH]; cbn; [by rewrite bool_decide_eq_false_2 by set_solver|].
  destruct (String.eqb_spec (rh_route_id y) (rh_route_id r)) as [He|Hne]; cbn.
  - rewrite bool_decide_eq_true_2 by (rewrite He; set_solver). by rewrite He.
  - rewrite IH. repeat case_bool_decide; set_solver.
Qed.

Lemma replace_record_NoDup r l :
  NoDup (map rh_route_id l) → NoDup (map rh_route_id (replace_record r l)).
Proof.
  intros Hl. rewrite replace_record_ids. case_bool_decide as Hr; [done|].
  apply NoDup_app. split; [done|]. split; [set_solver|apply NoDup_singleton].
Qed.

(** The lookup of a route in a file without two records of the same route. *)
Lemma find_record_spec route_id l r :
  NoDup (map rh_route_id l) →
  find_record route_id l = Some r ↔ r ∈ l ∧ rh_route_id r = route_id.
Proof.
  unfold find_record. induction l as [|y l IH].
  - intros _. split; [done|set_solver].
  - cbn [map]. intros [Hy Hnd]%NoDup_cons. destruct (decide (rh_route_id y = route_id)) as [He|Hne].
    + rewrite filter_cons_True by done. cbn. rewrite elem_of_cons. split; [naive_solver|].
      intros [[->|Hr] Hrid]; [done|]. exfalso. apply Hy, list_elem_of_fmap. exists r. split; [congruence|done].
    + rewrite filter_cons_False, IH by done. rewrite elem_of_cons. naive_solver.
Qed.

Lemma probes_of_snoc route_id history tp :
  probes_of route_id (history ++ [tp])
  = if decide (probe_route_id tp.2 = route_id) then tp :: probes_of route_id history
    else probes_of route_id history.
Proof.
  unfold probes_of. rewrite filter_app, reverse_app. case_decide as He.
  - by rewrite filter_cons_True.
  - by rewrite filter_cons_False.
Qed.

(** The file after a history: no route twice, and exactly the expected records. *)
Definition file_follows (history : list (string * ProbeResult)) (file : list RouteHealthRecord)
  : Prop :=
  NoDup (map rh_route_id file)
  ∧ ∀ r, r ∈ file ↔ expected_record (rh_route_id r) history = Some r.

Lemma list_records_follow history file :
  file_follows history file → file_follows history (list_route_health_records file).
Proof.
  intros [Hnd Hf]. unfold list_route_health_records. split.
  - by rewrite sorted_by_perm.
  - intros r. by rewrite elem_of_sorted_by.
Qed.

Lemma record_probe_follows history file tp :
  file_follows history file → file_follows (history ++ [tp]) (record_probe file tp).
Proof.
  intros [Hnd Hf]%list_records_follow. unfold record_probe, record_route_health. cbn [snd].
  set (records := list_route_health_records file) in *.
  assert ((if pr_reachable tp.2 then 0
           else match find_record (probe_route_id tp.2) records with
                | Some item => rh_consecutive_failures item | None => 0 end + 1)
          = failures_since_success (tp :: probes_of (probe_route_id tp.2) history)) as ->.
  { cbn [failures_since_success]. destruct (pr_reachable tp.2); [done|]. f_equal.
    destruct (find_record _ records) as [r|] eqn:E.
    - apply find_record_spec in E as [Hr Hid]; [|done]. apply Hf in Hr. rewrite Hid in Hr.
      unfold expected_record in Hr. destruct (probes_of _ history); [done|]. by injection Hr as <-.
    - destruct (expected_record (probe_route_id tp.2) history) as [r|] eqn:He.
      + assert (rh_route_id r = probe_route_id tp.2) as Hid.
        { revert He. unfold expected_record. destruct (probes_of _ history) as [|tp' rest] eqn:Hp; [done|].
          intros [= <-]. cbn. assert (tp' ∈ probes_of (probe_route_id tp.2) history) as Hin by (rewrite Hp; set_solver).
          unfold probes_of in Hin. by apply elem_of_reverse, list_elem_of_filter in Hin as [? _]. }
        rewrite <- Hid in He at 1. apply Hf in He.
        assert (find_record (probe_route_id tp.2) records = Some r) as Hs by by apply find_record_spec.
        congruence.
      + unfold expected_record in He. by destruct (probes_of _ history). }
  fold (record_of tp (failures_since_success (tp :: probes_of (probe_route_id tp.2) history))).
  split; [by apply replace_record_NoDup|]. intros r. rewrite elem_of_replace_record by done. cbn.
  unfold expected_record. rewrite probes_of_snoc. case_decide as He.
  - rewrite <- He. split.
    + intros [->|[_ Hne]]; [done|]. by destruct Hne.
    + intros [= <-]. by left.
  - fold (expected_record (rh_route_id r) history). rewrite <- Hf. split.
    + intros [->|[Hr _]]; [by destruct He|done].
    + intros Hr. right. split; [done|]. intros Heq. by apply He.
Qed.

(** After any history of probes the file holds exactly one record for every route that was
    probed: the fields are those of the last probe of the route, and its counter is the number
    of failed probes of the route since its last success.  Probes of other routes do not
    change it, and the record a probe returns is the one that is stored. *)
Theorem route_health_follows_history (history : list (string * ProbeResult)) :
  let file := record_probes history in
  NoDup (map rh_route_id file)
  ∧ (∀ r, r ∈ file ↔ expected_record (rh_route_id r) history = Some r)
  ∧ ∀ now_iso p, (record_route_health now_iso p file).1
                 ∈ (record_route_health now_iso p file).2.
Proof.
  assert (file_follows history (record_probes history)) as [H1 H2].
  { unfold record_probes. induction history as [|tp history IH] using rev_ind.
    - split; [constructor|]. intros r. cbn. split; [set_solver|done].
    - rewrite foldl_app. by apply record_probe_follows. }
  split; [done|]. split; [done|]. intros now_iso p. cbn. apply elem_of_replace_record; [|by left].
  apply (list_records_follow history). by split.
Qed.

(** A route that failed twice, worked, and failed again. *)
Definition demo_probe (reachable : bool) : ProbeResult := {|
  pr_source_node_id := "a"; pr_sink_node_id := "b"; pr_route_type := "direct_data";
  pr_reachable := reachable; pr_endpoint_url := None; pr_latency_ms := None; pr_error := None;
  pr_transit_node_id := None; pr_source := "probe" |}.

Example failures_demo :
  map rh_consecutive_failures
    (record_probes [("1", demo_probe false); ("2", demo_probe false)]) = [2]
  ∧ map rh_consecutive_failures
    (record_probes [("1", demo_probe false); ("2", demo_probe true); ("3", demo_probe false)]) = [1].
Proof. vm_compute. done. Qed.
