(* ===== verification/ShardAssignment.v ===== *)
(** * Shards for the nodes of an instance

    The second part of [master/placement_utils.py]: which layers of a model each node of a
    cycle runs.  Memory is in bytes and not negative; [fresh i] is the [i]-th id
    that [RunnerId()] draws.  Cycles are lists of node ids. *)
From Stdlib Require Import QArith.
From S2P Require Import Prelude.
From S2P Require Import PyStr.
From S2P Require Import PyVal.
From S2P Require Import Doubles.
From S2P Require Import Topology.
From S2P Require Import RuntimeState.
From S2P Require Import LayerAllocation.
From S2P Require Import NetworkModelPolicy.
Local Open Scope Z_scope.
Set Default Proof Using "Type".

Record ShardAssignments := {
  as_model_id : string;
  as_runner_to_shard : list (string * ShardMetadata);
  as_node_to_runner : list (string * string)
}.

(** [node_memory[node_id].ram_available] *)
Definition ram_of (node_memory : gmap string MemoryReading) (node_id : string) : result Z :=
  match node_memory !! node_id with
  | Some m => Ok (ram_available m)
  | None => Err (KeyError node_id)
  end.

Definition _compute_total_memory (node_ids : list string)
    (node_memory : gmap string MemoryReading) : result Z :=
  rams ← mapM_r (ram_of node_memory) node_ids;
  let total_memory := sumZ rams in
  if total_memory =? 0
  then Err (ValueError "Cannot create shard assignments: total available memory is 0")
  else Ok total_memory.

(** [f"{m.in_gb:.2f}"] *)
Definition gb_text (bytes : Z) : string :=
  let hundredths := round_of (Qmult (double_div bytes (1024 * 1024 * 1024)) 100) in
  (str_of_Z (hundredths / 100) ++ "." ++ zfill 2 (hundredths mod 100))%string.

Definition insufficient_memory (i : nat) (node_id : string) (required available layers : Z) : exn :=
  ValueError ("Node " ++ str_of_Z (Z.of_nat i) ++ " (" ++ node_id
    ++ ") has insufficient memory: requires " ++ gb_text required ++ " GB for "
    ++ str_of_Z layers ++ " layers, but only has " ++ gb_text available ++ " GB available")%string.

(** The memory a node needs for some of the layers. *)
Definition required_memory (card : ModelCard) (layers : Z) : Z :=
  mc_storage_size card * layers / mc_n_layers card.

Section assignment.
Context (policy : PrivateNetworkModelPolicy) (fresh : nat → string).
Context (model_card : ModelCard) (node_memory : gmap string MemoryReading).

Definition minimum_layers : Z :=
  private_network_model_min_pipeline_layers_per_node policy (mc_model_id model_card) (Some model_card).

Definition check_node_memory (layer_allocations : list Z) (ri : nat * string) : result unit :=
  let '(i, node_id) := ri in
  let node_layers := at_index layer_allocations i in
  available_memory ← ram_of node_memory node_id;
  if available_memory <? required_memory model_card node_layers
  then Err (insufficient_memory i node_id (required_memory model_card node_layers)
              available_memory node_layers)
  else Ok tt.

Definition _allocate_and_validate_layers (node_ids : list string) (total_memory : Z)
  : result (list Z) :=
  rams ← mapM_r (ram_of node_memory) node_ids;
  layer_allocations ← allocate_layers_proportionally (mc_n_layers model_card)
                        (map (λ ram, double_div ram total_memory) rams) minimum_layers;
  _ ← foldM (λ _ ri, check_node_memory layer_allocations ri) tt (enumerate node_ids);
  Ok layer_allocations.

Definition _validate_cycle (cycle : list string) : result unit :=
  match cycle with
  | [] => Err (ValueError "Cannot create shard assignments for empty node cycle")
  | _ => Ok tt
  end.

(** [runner_id = RunnerId()] and the two dict entries of one node of the cycle. *)
Definition assign (shard_at : nat → ShardMetadata) (st : ShardAssignments) (ri : nat * string)
  : ShardAssignments :=
  let '(device_rank, node_id) := ri in
  let runner_id := fresh device_rank in
  {| as_model_id := as_model_id st;
     as_runner_to_shard := pd_set runner_id (shard_at device_rank) (as_runner_to_shard st);
     as_node_to_runner := pd_set node_id runner_id (as_node_to_runner st) |}.

Definition assign_all (shard_at : nat → ShardMetadata) (cycle : list string) : ShardAssignments :=
  foldl (assign shard_at)
    {| as_model_id := mc_model_id model_card; as_runner_to_shard := []; as_node_to_runner := [] |}
    (enumerate cycle).

Definition layers_before (layer_allocations : list Z) (rank : nat) : Z :=
  sumZ (take rank layer_allocations).

Definition layers_shard (kind : ShardKind) (layer_allocations : list Z) (world_size : nat)
    (device_rank pipeline_rank : nat) : ShardMetadata :=
  let before := layers_before layer_allocations pipeline_rank in
  {| sh_model_card := model_card; sh_kind := kind; device_rank := Z.of_nat device_rank;
     RuntimeState.world_size := Z.of_nat world_size; start_layer := before;
     end_layer := before + at_index layer_allocations pipeline_rank;
     n_layers := mc_n_layers model_card; shard_rest := VNone |}.

Definition _get_shard_assignments_for_pure_pipeline (cycle : list string)
  : result ShardAssignments :=
  _ ← _validate_cycle cycle;
  total_memory ← _compute_total_memory cycle node_memory;
  layer_allocations ← _allocate_and_validate_layers cycle total_memory;
  Ok (assign_all (λ r, layers_shard PipelineShardMetadata layer_allocations (length cycle) r r)
        cycle).

(** [position_to_cfg_pipeline]: group 0 in ascending ranks, group 1 in descending ones. *)
Definition position_to_cfg_pipeline (pipeline_world_size : nat) : list (nat * nat) :=
  map (pair 0%nat) (seq 0 pipeline_world_size)
  ++ map (pair 1%nat) (reverse (seq 0 pipeline_world_size)).

Definition cfg_shard (layer_allocations : list Z) (world_size pipeline_world_size : nat)
    (device_rank : nat) : ShardMetadata :=
  let '(cfg_rank, pipeline_rank) :=
    default (0, 0)%nat (position_to_cfg_pipeline pipeline_world_size !! device_rank) in
  layers_shard (CfgShardMetadata (Z.of_nat cfg_rank) 2 (Z.of_nat pipeline_rank)
                  (Z.of_nat pipeline_world_size))
    layer_allocations world_size device_rank pipeline_rank.

Definition _get_shard_assignments_for_cfg_parallel (cycle : list string)
  : result ShardAssignments :=
  _ ← _validate_cycle cycle;
  let world_size := length cycle in
  let pipeline_world_size := (world_size / 2)%nat in
  let pipeline_node_ids := take pipeline_world_size cycle in
  pipeline_memory ← _compute_total_memory pipeline_node_ids node_memory;
  layer_allocations ← _allocate_and_validate_layers pipeline_node_ids pipeline_memory;
  Ok (assign_all (cfg_shard layer_allocations world_size pipeline_world_size) cycle).

Definition get_shard_assignments_for_pipeline_parallel (cycle : list string)
  : result ShardAssignments :=
  let world_size := length cycle in
  let use_cfg_parallel :=
    mc_uses_cfg model_card && (2 <=? world_size)%nat && Nat.even world_size in
  if use_cfg_parallel then _get_shard_assignments_for_cfg_parallel cycle
  else _get_shard_assignments_for_pure_pipeline cycle.

Definition get_shard_assignments_for_tensor_parallel (cycle : list string) : ShardAssignments :=
  let total_layers := mc_n_layers model_card in
  assign_all (λ i, {|
    sh_model_card := model_card; sh_kind := TensorShardMetadata; device_rank := Z.of_nat i;
    RuntimeState.world_size := Z.of_nat (length cycle); start_layer := 0;
    end_layer := total_layers; n_layers := total_layers; shard_rest := VNone |}) cycle.

Definition get_shard_assignments (cycle : list string) (sharding : Sharding)
  : result ShardAssignments :=
  match sharding with
  | Pipeline => get_shard_assignments_for_pipeline_parallel cycle
  | Tensor => Ok (get_shard_assignments_for_tensor_parallel cycle)
  end.
End assignment.

(** * The shards of an instance cover the model

    Every layer of the model is run by exactly one node of each pipeline. *)


(** ** One interval per layer *)

Definition in_interval (layer before size : Z) : Prop := before ≤ layer < before + size.
#[export] Instance in_interval_dec l b s : Decision (in_interval l b s).
Proof. unfold in_interval. apply _. Defined.

Lemma sumZ_take_le l k : Forall (λ x, 0 ≤ x) l → 0 ≤ sumZ (take k l) ≤ sumZ l.
Proof.
  intros Hl. rewrite <- (take_drop k l) in Hl at 1. apply Forall_app in Hl as [H1 H2].
  rewrite <- (take_drop k l) at 3. rewrite sumZ_app.
  pose proof (sumZ_nonneg _ H1). pose proof (sumZ_nonneg _ H2). lia.
Qed.

(** Consecutive intervals of the sizes [l]: a point below their sum lies in exactly one. *)
Lemma one_interval l layer :
  Forall (λ x, 0 ≤ x) l → 0 ≤ layer < sumZ l →
  length (filter (λ r, in_interval layer (layers_before l r) (at_index l r)) (seq 0 (length l)))
  = 1%nat.
Proof.
  induction l as [|x l IH] using rev_ind; intros Hl Hlayer; [cbn in Hlayer; lia|].
  apply Forall_app in Hl as [Hl Hx]. apply Forall_singleton in Hx. rewrite sumZ_app in Hlayer.
  cbn in Hlayer. rewrite length_app. cbn [length]. rewrite Nat.add_1_r, seq_S, filter_app, length_app.
  assert (filter (λ r, in_interval layer (layers_before (l ++ [x]) r) (at_index (l ++ [x]) r)) (seq 0 (length l))
    = filter (λ r, in_interval layer (layers_before l r) (at_index l r)) (seq 0 (length l))) as ->.
  { apply filter_ext_in, Forall_seq. intros r Hr.
    unfold layers_before, at_index. rewrite take_app_le, lookup_app_l by lia. done. }
  assert (layers_before (l ++ [x]) (length l) = sumZ l) as Hb
    by (unfold layers_before; by rewrite take_app_length).
  assert (at_index (l ++ [x]) (length l) = x) as Ha
    by (unfold at_index; by rewrite lookup_app_r, Nat.sub_diag by done).
  cbn [Nat.add]. destruct (decide (layer < sumZ l)).
  - rewrite IH by (done || lia). rewrite filter_cons_False; [done|].
    rewrite Hb, Ha. unfold in_interval. lia.
  - rewrite filter_cons_True by (rewrite Hb, Ha; unfold in_interval; lia).
    enough (filter (λ r, in_interval layer (layers_before l r) (at_index l r)) (seq 0 (length l)) = []) as ->
      by done.
    apply filter_none, Forall_seq. intros r Hr [_ Hin].
    assert (layers_before l r + at_index l r = layers_before l (S r)) as Hs.
    { unfold layers_before. rewrite (take_S_r l r (at_index l r)) by (apply at_index_lookup; lia).
      rewrite sumZ_app. cbn. lia. }
    pose proof (sumZ_take_le l (S r) Hl). unfold layers_before in *. lia.
Qed.

(** ** The dicts of an assignment *)

Lemma pd_set_new {A} k (v : A) d : k ∉ map fst d → pd_set k v d = d ++ [(k, v)].
Proof.
  induction d as [|[k' v'] d IH]; cbn; [done|]. intros Hk.
  destruct (String.eqb_spec k' k) as [->|Hne]; [set_solver|]. rewrite IH; set_solver.
Qed.

Section dicts.
Context (fresh : nat → string) (fresh_inj : Inj (=) (=) fresh) (card : ModelCard).
Context (shard_at : nat → ShardMetadata).

Lemma assign_all_shape cycle :
  NoDup cycle →
  assign_all fresh card shard_at cycle
  = {| as_model_id := mc_model_id card;
       as_runner_to_shard := map (λ i, (fresh i, shard_at i)) (seq 0 (length cycle));
       as_node_to_runner := zip cycle (map fresh (seq 0 (length cycle))) |}.
Proof using fresh_inj.
  intros Hnd. unfold assign_all. induction cycle as [|n cycle IH] using rev_ind; [done|].
  apply NoDup_app in Hnd as (Hnd & Hn & _).
  rewrite enumerate_from_snoc, foldl_app, IH by done. cbn [foldl assign Nat.add].
  rewrite length_app. cbn [length]. rewrite Nat.add_1_r, seq_S, !map_app. cbn [map Nat.add].
  assert (length cycle = length (map fresh (seq 0 (length cycle)))) as Hlen
    by (by rewrite length_map, length_seq).
  rewrite zip_with_app by done. cbn [zip_with].
  f_equal; apply pd_set_new.
  - rewrite map_map. cbn. intros (i & Hi & Hin)%list_elem_of_fmap.
    apply fresh_inj in Hi as <-. apply elem_of_seq in Hin. lia.
  - intros (kv & Hkv & Hin)%list_elem_of_fmap. destruct kv as [k v]. cbn in Hkv. subst k.
    apply elem_of_zip_l in Hin. by apply (Hn n Hin), list_elem_of_singleton.
Qed.
End dicts.

(** ** Checks in a loop *)

Lemma check_loop {A} (f : A → result unit) l :
  match foldM (λ _ x, f x) tt l with
  | Ok _ => Forall (λ x, f x = Ok tt) l
  | Err e => ∃ x, x ∈ l ∧ f x = Err e
  end.
Proof.
  induction l as [|x l IH]; cbn; [done|]. destruct (f x) as [[]|e] eqn:E.
  - destruct (foldM _ tt l); [by constructor|]. destruct IH as (y & Hy & HE). exists y. set_solver.
  - exists x. set_solver.
Qed.

Lemma elem_of_enumerate {A} (l : list A) i x : (i, x) ∈ enumerate l ↔ l !! i = Some x.
Proof.
  enough (∀ n, (i, x) ∈ enumerate_from n l ↔ (n ≤ i)%nat ∧ l !! (i - n)%nat = Some x) as Hn.
  { rewrite Hn, Nat.sub_0_r. intuition lia. }
  induction l as [|y l IH]; intros n; cbn.
  - rewrite lookup_nil. set_solver.
  - rewrite elem_of_cons, IH. split.
    + intros [[= -> ->]|[Hle Hl]]; [by rewrite Nat.sub_diag|]. split; [lia|].
      by replace (i - n)%nat with (S (i - S n)) by lia.
    + intros [Hle Hl]. destruct (decide (i = n)) as [->|].
      * rewrite Nat.sub_diag in Hl. injection Hl as ->. by left.
      * right. split; [lia|]. by replace (i - n)%nat with (S (i - S n)) in Hl by lia.
Qed.

(** ** The allocation of a group of nodes *)

Section group.
Context (policy : PrivateNetworkModelPolicy) (card : ModelCard).
Context (node_memory : gmap string MemoryReading).
Context (HL : mc_n_layers card < 2 ^ 50).
Context (Hram : map_Forall (λ _ m, 0 ≤ ram_available m) node_memory).

Lemma minimum_layers_pos : 1 ≤ minimum_layers policy card.
Proof using.
  unfold minimum_layers, private_network_model_min_pipeline_layers_per_node.
  destruct (negb _); lia.
Qed.

Lemma rams_known nodes :
  Forall (λ n, is_Some (node_memory !! n)) nodes →
  ∃ rams, mapM_r (ram_of node_memory) nodes = Ok rams ∧ length rams = length nodes
    ∧ Forall (λ r, 0 ≤ r) rams.
Proof using Hram.
  induction 1 as [|n nodes [m Hm] Hn IH]; [by exists []|].
  destruct IH as (rams & Hr & Hl & Hp). exists (ram_available m :: rams).
  cbn. unfold ram_of at 1. rewrite Hm, Hr. repeat split; [cbn; congruence|].
  constructor; [by eapply Hram|done].
Qed.

(** What an allocation promises: all layers, the minimum for every node, and room for the
    layers on the nodes. *)
Definition allocated (nodes : list string) (al : list Z) : Prop :=
  length al = length nodes ∧ sumZ al = mc_n_layers card
  ∧ Forall (λ x, minimum_layers policy card ≤ x) al
  ∧ ∀ i n, nodes !! i = Some n →
      ∃ m, node_memory !! n = Some m ∧ required_memory card (at_index al i) ≤ ram_available m.

Lemma allocate_and_validate nodes total :
  Forall (λ n, is_Some (node_memory !! n)) nodes →
  _compute_total_memory nodes node_memory = Ok total →
  match _allocate_and_validate_layers policy card node_memory nodes total with
  | Ok al => allocated nodes al
  | Err e => ∃ msg, e = ValueError msg
  end.
Proof using HL Hram.
  intros Hk. destruct (rams_known nodes Hk) as (rams & Hr & Hlen & Hp).
  unfold _compute_total_memory, _allocate_and_validate_layers. rewrite Hr. cbn.
  destruct (Z.eqb_spec (sumZ rams) 0) as [|Hne]; [done|]. intros [= <-].
  assert (0 < sumZ rams) as Hpos by (pose proof (sumZ_nonneg _ Hp); lia).
  pose proof minimum_layers_pos as Hmin.
  destruct (Z.lt_ge_cases (mc_n_layers card) (Z.of_nat (length rams) * minimum_layers policy card)) as [Hlt|Hge].
  { destruct (allocate_too_few _ _ rams Hmin Hpos Hlt) as [msg Hmsg]. rewrite Hmsg. by exists msg. }
  destruct (allocate_stages _ _ rams Hmin HL Hp Hpos Hge) as (r & al & Ha & _ & _ & Hal & Hs & Hm).
  rewrite Ha. cbn [mbind result_bind].
  pose proof (check_loop (check_node_memory card node_memory al) (enumerate nodes)) as Hc.
  destruct (foldM _ tt (enumerate nodes)) as [u|e]; cbn.
  - split; [congruence|]. split; [done|]. split.
    + apply Forall_lookup. intros i x Hx. apply lookup_lt_Some in Hx as Hi.
      specialize (Hm i ltac:(lia)). unfold at_index in Hm. by rewrite Hx in Hm.
    + intros i n Hn. rewrite Forall_forall in Hc.
      specialize (Hc (i, n) (proj2 (elem_of_enumerate nodes i n) Hn)).
      unfold check_node_memory, ram_of in Hc. destruct (node_memory !! n) as [m|]; [|done].
      exists m. split; [done|]. cbn in Hc. destruct (Z.ltb_spec (ram_available m) (required_memory card (at_index al i))); [done|lia].
  - destruct Hc as ([i n] & Hin & He). unfold check_node_memory, ram_of in He.
    apply elem_of_enumerate, list_elem_of_lookup_2 in Hin.
    rewrite Forall_forall in Hk. destruct (Hk n Hin) as [m Hm']. rewrite Hm' in He. cbn in He.
    destruct (_ <? _); [|done]. injection He as <-. by eexists.
Qed.
End group.

(** ** Coverage *)

(** The pipeline a shard belongs to. *)
Definition shard_group (s : ShardMetadata) : Z :=
  match sh_kind s with CfgShardMetadata cfg_rank _ _ _ => cfg_rank | _ => 0 end.

(** Every layer of the model is in exactly one shard of each group. *)
Definition covers (groups : list Z) (layers : Z) (shards : list ShardMetadata) : Prop :=
  ∀ g layer, g ∈ groups → 0 ≤ layer < layers →
    length (filter (λ s, shard_group s = g ∧ start_layer s ≤ layer < end_layer s) shards) = 1%nat.

Lemma lookup_seq_all {A} (d : A) (l : list A) :
  map (λ i, default d (l !! i)) (seq 0 (length l)) = l.
Proof.
  induction l as [|x l IH] using rev_ind; [done|].
  rewrite length_app, Nat.add_1_r, seq_S, map_app. cbn.
  rewrite lookup_app_r, Nat.sub_diag by done. cbn. f_equal. rewrite <- IH at 2.
  apply map_ext_in. intros i Hi%in_seq. by rewrite lookup_app_l by lia.
Qed.

Section coverage.
Context (card : ModelCard) (al : list Z) (Hal : Forall (λ x, 0 ≤ x) al).

Lemma shard_interval kind world d r layer :
  start_layer (layers_shard card kind al world d r) ≤ layer
    < end_layer (layers_shard card kind al world d r)
  ↔ in_interval layer (layers_before al r) (at_index al r).
Proof using. done. Qed.

Lemma pure_covers n :
  covers [0] (sumZ al)
    (map (λ r, layers_shard card PipelineShardMetadata al n r r) (seq 0 (length al))).
Proof using Hal.
  intros g layer ->%list_elem_of_singleton Hlayer. rewrite filter_map_length.
  rewrite <- (one_interval al layer Hal Hlayer). f_equal. apply filter_ext_in, Forall_forall.
  intros r _. rewrite shard_interval. cbn. intuition.
Qed.

Abbreviation p := (length al).
Abbreviation positions := (position_to_cfg_pipeline p).

Lemma positions_length : length positions = (p + p)%nat.
Proof using.
  unfold position_to_cfg_pipeline. by rewrite length_app, !length_map, length_reverse, length_seq.
Qed.

Lemma positions_bound gp r : (gp, r) ∈ positions → (r < p)%nat.
Proof using.
  unfold position_to_cfg_pipeline. rewrite elem_of_app, !list_elem_of_fmap.
  intros [(i & [= _ ->] & Hi)|(i & [= _ ->] & Hi)]; [|rewrite elem_of_reverse in Hi];
    apply elem_of_seq in Hi; lia.
Qed.

Lemma cfg_shard_at n d :
  ∃ kind r, cfg_shard card al n p d = layers_shard card kind al n d r
    ∧ shard_group (cfg_shard card al n p d) = Z.of_nat (default (0, 0)%nat (positions !! d)).1
    ∧ r = (default (0, 0)%nat (positions !! d)).2.
Proof using.
  unfold cfg_shard. destruct (default (0, 0)%nat (positions !! d)) as [g r]. by eexists _, r.
Qed.

(** Counting shards is counting positions. *)
Lemma cfg_count n (g : nat) layer :
  length (filter (λ s, shard_group s = Z.of_nat g ∧ start_layer s ≤ layer < end_layer s)
            (map (cfg_shard card al n p) (seq 0 (p + p))))
  = length (filter (λ gr : nat * nat, gr.1 = g ∧ in_interval layer (layers_before al gr.2) (at_index al gr.2))
              positions).
Proof using.
  rewrite <- (lookup_seq_all (0, 0)%nat positions) at 1.
  rewrite !filter_map_length, positions_length. f_equal. apply filter_ext_in, Forall_forall.
  intros d _. destruct (cfg_shard_at n d) as (kind & r & Hs & Hg & Hr).
  rewrite Hg, Hs, shard_interval, <- Hr. intuition lia.
Qed.

Lemma positions_count g layer :
  (g < 2)%nat → 0 ≤ layer < sumZ al →
  length (filter (λ gr : nat * nat, gr.1 = g ∧ in_interval layer (layers_before al gr.2) (at_index al gr.2))
            positions) = 1%nat.
Proof using Hal.
  intros Hg Hlayer. unfold position_to_cfg_pipeline. rewrite filter_app, length_app, !filter_map_length.
  cbn [fst snd]. pose proof (one_interval al layer Hal Hlayer) as H1.
  assert (∀ h (l : list nat), h ≠ g →
    filter (λ r, h = g ∧ in_interval layer (layers_before al r) (at_index al r)) l = []) as Hne.
  { intros h l Hh. apply filter_none, Forall_forall. intros r _ [? _]. congruence. }
  assert (∀ (l : list nat), 
    filter (λ r, g = g ∧ in_interval layer (layers_before al r) (at_index al r)) l
    = filter (λ r, in_interval layer (layers_before al r) (at_index al r)) l) as Heq.
  { intros l. apply filter_ext_in, Forall_forall. intros r _. tauto. }
  destruct g as [|[|]]; [| |lia].
  - rewrite (Hne 1%nat), Heq by done. cbn. by rewrite H1.
  - rewrite (Hne 0%nat), Heq by done. cbn. by rewrite filter_reverse, length_reverse.
Qed.

Lemma cfg_covers n :
  covers [0; 1] (sumZ al) (map (cfg_shard card al n p) (seq 0 (p + p))).
Proof using Hal.
  intros g layer Hg Hlayer.
  assert (∃ k : nat, g = Z.of_nat k ∧ (k < 2)%nat) as (k & -> & Hk).
  { apply elem_of_cons in Hg as [->|Hg1%list_elem_of_singleton]; [exists 0%nat; lia|subst g; exists 1%nat; lia]. }
  rewrite cfg_count. by apply positions_count.
Qed.

Lemma cfg_sizes n m :
  Forall (λ x, m ≤ x) al →
  Forall (λ s, m ≤ end_layer s - start_layer s) (map (cfg_shard card al n p) (seq 0 (p + p))).
Proof using.
  intros Hm. apply Forall_map, Forall_seq. intros d Hd.
  destruct (cfg_shard_at n d) as (kind & r & -> & _ & Hr). cbn.
  destruct (lookup_lt_is_Some_2 positions d) as [[g r'] Hp]; [rewrite positions_length; lia|].
  rewrite Hp in Hr. cbn in Hr. subst r'. apply list_elem_of_lookup_2, positions_bound in Hp.
  pose proof (at_index_lookup al r Hp) as Hx. apply (Forall_lookup_1 _ _ _ _ Hm) in Hx. lia.
Qed.

Lemma pure_sizes n m :
  Forall (λ x, m ≤ x) al →
  Forall (λ s, m ≤ end_layer s - start_layer s)
    (map (λ r, layers_shard card PipelineShardMetadata al n r r) (seq 0 p)).
Proof using.
  intros Hm. apply Forall_map, Forall_seq. intros r Hr. cbn.
  pose proof (at_index_lookup al r ltac:(lia)) as Hx. apply (Forall_lookup_1 _ _ _ _ Hm) in Hx. lia.
Qed.
End coverage.

(** ** The property *)

Definition splits_in_two (card : ModelCard) (cycle : list string) : bool :=
  mc_uses_cfg card && (2 <=? length cycle)%nat && Nat.even (length cycle).

(** What the assignment of a model to the nodes of a cycle promises. *)
Record assignment_ok (policy : PrivateNetworkModelPolicy) (card : ModelCard)
    (node_memory : gmap string MemoryReading) (cycle : list string) (a : ShardAssignments) : Prop := {
  ok_nodes : map fst (as_node_to_runner a) = cycle;
  ok_runners : map snd (as_node_to_runner a) = map fst (as_runner_to_shard a);
  ok_distinct : NoDup (map fst (as_runner_to_shard a));
  ok_ranks : map (λ rs, device_rank rs.2) (as_runner_to_shard a)
             = map Z.of_nat (seq 0 (length cycle));
  ok_covers :
    covers (if splits_in_two card cycle then [0; 1] else [0]) (mc_n_layers card)
      (map snd (as_runner_to_shard a));
  ok_sizes :
    Forall (λ rs, minimum_layers policy card ≤ end_layer rs.2 - start_layer rs.2)
      (as_runner_to_shard a);
  ok_memory : splits_in_two card cycle = false →
    ∀ i n rs, cycle !! i = Some n → as_runner_to_shard a !! i = Some rs →
      ∃ m, node_memory !! n = Some m
        ∧ required_memory card (end_layer rs.2 - start_layer rs.2) ≤ ram_available m
}.

Section main.
Context (policy : PrivateNetworkModelPolicy) (fresh : nat → string) (fresh_inj : Inj (=) (=) fresh).
Context (card : ModelCard) (node_memory : gmap string MemoryReading) (cycle : list string).
Context (HL : mc_n_layers card < 2 ^ 50) (Hnd : NoDup cycle).
Context (Hram : map_Forall (λ _ m, 0 ≤ ram_available m) node_memory).

Lemma assigned_basics (shard_at : nat → ShardMetadata) :
  let a := assign_all fresh card shard_at cycle in
  map fst (as_node_to_runner a) = cycle
  ∧ map snd (as_node_to_runner a) = map fst (as_runner_to_shard a)
  ∧ NoDup (map fst (as_runner_to_shard a))
  ∧ map snd (as_runner_to_shard a) = map shard_at (seq 0 (length cycle)).
Proof using fresh_inj Hnd.
  cbv zeta. rewrite assign_all_shape by done. cbn.
  assert (map fst (map (λ i, (fresh i, shard_at i)) (seq 0 (length cycle)))
          = map fresh (seq 0 (length cycle))) as Hf by by rewrite map_map.
  rewrite Hf. split; [apply fst_zip; rewrite length_map, length_seq; lia|].
  split; [apply snd_zip; rewrite length_map, length_seq; lia|].
  split; [|by rewrite map_map]. apply (NoDup_fmap_2 fresh), NoDup_seq.
Qed.

Lemma pure_ok al :
  splits_in_two card cycle = false → allocated policy card node_memory cycle al →
  assignment_ok policy card node_memory cycle
    (assign_all fresh card (λ r, layers_shard card PipelineShardMetadata al (length cycle) r r) cycle).
Proof using fresh_inj Hnd.
  intros Hsplit (Hl & Hs & Hm & Hmem).
  assert (Forall (λ x, 0 ≤ x) al) as Hpos.
  { eapply Forall_impl; [exact Hm|]. cbn. pose proof (minimum_layers_pos policy card). lia. }
  destruct (assigned_basics (λ r, layers_shard card PipelineShardMetadata al (length cycle) r r))
    as (H1 & H2 & H3 & H4).
  split; [exact H1|exact H2|exact H3|..].
  - rewrite assign_all_shape by done. cbn. by rewrite map_map.
  - rewrite Hsplit, H4, <- Hs, <- Hl. by apply pure_covers.
  - apply (Forall_map snd (λ s, minimum_layers policy card ≤ end_layer s - start_layer s)).
    rewrite H4, <- Hl. by apply pure_sizes.
  - intros _ i n rs Hi Hrs. destruct (Hmem i n Hi) as (m & Hm1 & Hm2). exists m. split; [done|].
    rewrite assign_all_shape in Hrs by done. cbn in Hrs. rewrite list_lookup_fmap in Hrs.
    apply fmap_Some in Hrs as (k & Hk & ->). apply lookup_seq in Hk as [-> _]. cbn.
    by rewrite Z.add_simpl_l.
Qed.

Lemma cfg_ok al group :
  splits_in_two card cycle = true → group = take (length cycle / 2) cycle →
  allocated policy card node_memory group al →
  assignment_ok policy card node_memory cycle
    (assign_all fresh card (cfg_shard card al (length cycle) (length cycle / 2)) cycle).
Proof using fresh_inj Hnd.
  intros Hsplit -> (Hl & Hs & Hm & _).
  assert (Forall (λ x, 0 ≤ x) al) as Hpos.
  { eapply Forall_impl; [exact Hm|]. cbn. pose proof (minimum_layers_pos policy card). lia. }
  assert (length cycle = (length al + length al)%nat ∧ (length cycle / 2)%nat = length al) as [Hc Hh].
  { unfold splits_in_two in Hsplit. rewrite !andb_true_iff in Hsplit. destruct Hsplit as [_ [k Hk]%Nat.even_spec].
    assert ((length cycle / 2)%nat = k) as Hdiv by (rewrite Hk, Nat.mul_comm; by apply Nat.div_mul).
    rewrite length_take, Hdiv in Hl. lia. }
  rewrite Hh. destruct (assigned_basics (cfg_shard card al (length cycle) (length al)))
    as (H1 & H2 & H3 & H4).
  assert (seq 0 (length cycle) = seq 0 (length al + length al)) as Hseq by by rewrite Hc.
  rewrite Hseq in H4.
  split; [exact H1|exact H2|exact H3|..].
  - rewrite assign_all_shape by done. cbn. rewrite map_map. apply map_ext. intros d. cbn.
    by destruct (cfg_shard_at card al (length cycle) d) as (kind & r & -> & _).
  - rewrite Hsplit, H4, <- Hs. by apply cfg_covers.
  - apply (Forall_map snd (λ s, minimum_layers policy card ≤ end_layer s - start_layer s)).
    rewrite H4. by apply cfg_sizes.
  - congruence.
Qed.
(** Memory, allocation and dicts: the part both kinds of pipeline share. *)
Lemma assign_staged nodes (k : list Z → ShardAssignments) (P : ShardAssignments → Prop) :
  Forall (λ n, is_Some (node_memory !! n)) nodes →
  (∀ al, allocated policy card node_memory nodes al → P (k al)) →
  match (total ← _compute_total_memory nodes node_memory;
         al ← _allocate_and_validate_layers policy card node_memory nodes total;
         Ok (k al)) with
  | Ok a => P a
  | Err e => ∃ msg, e = ValueError msg
  end.
Proof using HL Hram.
  intros Hk HP. destruct (_compute_total_memory nodes node_memory) as [total|e] eqn:Ht; cbn.
  - pose proof (allocate_and_validate policy card node_memory HL Hram _ total Hk Ht) as Ha.
    destruct (_allocate_and_validate_layers _ _ _ _ _) as [al|e]; cbn; [by apply HP|done].
  - unfold _compute_total_memory in Ht.
    destruct (rams_known node_memory Hram _ Hk) as (rams & Hr & _). rewrite Hr in Ht. cbn in Ht.
    destruct (sumZ rams =? 0); [|done]. injection Ht as <-. by eexists.
Qed.
End main.

(** An assignment that is made is a good one; otherwise the error is a [ValueError]. *)
Lemma pipeline_assigned (policy : PrivateNetworkModelPolicy)
    (fresh : nat → string) (card : ModelCard) (node_memory : gmap string MemoryReading)
    (cycle : list string) :
  Inj (=) (=) fresh → mc_n_layers card < 2 ^ 50 → NoDup cycle →
  Forall (λ n, is_Some (node_memory !! n)) cycle →
  map_Forall (λ _ m, 0 ≤ ram_available m) node_memory →
  match get_shard_assignments_for_pipeline_parallel policy fresh card node_memory cycle with
  | Ok a => assignment_ok policy card node_memory cycle a
  | Err e => ∃ msg, e = ValueError msg
  end.
Proof.
  intros Hinj HL Hnd Hk Hram. unfold get_shard_assignments_for_pipeline_parallel.
  fold (splits_in_two card cycle). destruct (splits_in_two card cycle) eqn:Hs.
  - unfold _get_shard_assignments_for_cfg_parallel.
    destruct cycle as [|n cycle]; [by eexists|]. cbn [_validate_cycle mbind result_bind].
    apply assign_staged; [done..|by apply Forall_take|]. intros al Hal. by eapply cfg_ok.
  - unfold _get_shard_assignments_for_pure_pipeline.
    destruct cycle as [|n cycle]; [by eexists|]. cbn [_validate_cycle mbind result_bind].
    apply assign_staged; [done..|]. intros al Hal. by apply pure_ok.
Qed.

(** C24: when nodes with known memory are assigned a model by pipeline parallelism, either the
    call raises a [ValueError], or every node of the cycle has one runner of its own with the
    rank of its place, every layer of the model is run by exactly one node of each pipeline
    (one pipeline, or two for a model with classifier-free guidance on an even number of
    nodes), no node has fewer layers than the policy's minimum, and with one pipeline every
    node has the memory its layers need.  The rounding of the memory fractions never causes
    another error. *)
Theorem pipeline_shards_partition_layers (policy : PrivateNetworkModelPolicy)
    (fresh : nat → string) (card : ModelCard) (node_memory : gmap string MemoryReading)
    (cycle : list string) :
  Inj (=) (=) fresh → mc_n_layers card < 2 ^ 50 → NoDup cycle →
  Forall (λ n, is_Some (node_memory !! n)) cycle →
  map_Forall (λ _ m, 0 ≤ ram_available m) node_memory →
  match get_shard_assignments_for_pipeline_parallel policy fresh card node_memory cycle with
  | Ok a => assignment_ok policy card node_memory cycle a
  | Err e => ∃ msg, e = ValueError msg
  end.
Proof. apply pipeline_assigned. Qed.

(** ** Concrete assignments *)

Definition demo_policy : PrivateNetworkModelPolicy := {|
  pp_model_ids := DEFAULT_PRIVATE_NETWORK_MODEL_IDS; pp_minimum_nodes := 1;
  pp_require_pipeline_sharding := true; pp_disallow_single_node_fallback := true;
  pp_allow_single_node_bootstrap := false; pp_require_filtered_downloads := true;
  pp_minimum_ram_headroom := 0; pp_minimum_pipeline_layers_per_node := 2 |}.

Lemma demo_policy_default : get_private_network_model_policy (λ _, None) = Ok demo_policy.
Proof. vm_compute. reflexivity. Qed.

Definition demo_model (uses_cfg : bool) : ModelCard := {|
  mc_model_id := "cai-network/Qwen3-0.6B-GGUF"; mc_storage_size := 2800; mc_n_layers := 28;
  mc_base_model := "Qwen3"; mc_uses_cfg := uses_cfg; mc_is_custom := false;
  mc_inference_backend := LlamaCpp; mc_rest := VNone |}.

Definition demo_reading (ram : Z) : MemoryReading :=
  {| ram_total := ram; ram_available := ram; swap_total := 0; swap_available := 0 |}.

Definition demo_memory : gmap string MemoryReading :=
  {[ "a" := demo_reading 2000; "b" := demo_reading 1500; "c" := demo_reading 1 ]}.

Definition demo_fresh (i : nat) : string := str_of_Z (Z.of_nat i).

#[export] Instance demo_fresh_inj : Inj (=) (=) demo_fresh.
Proof.
  intros i j Hij. unfold demo_fresh in Hij.
  pose proof (int_of_str_of_Z (Z.of_nat i)) as Hi. rewrite Hij, int_of_str_of_Z in Hi.
  injection Hi as Hi. lia.
Qed.

Lemma pipeline_shards_partition_layers_witness :
  match get_shard_assignments_for_pipeline_parallel demo_policy demo_fresh (demo_model false)
          demo_memory ["b"; "a"] with
  | Ok a => assignment_ok demo_policy (demo_model false) demo_memory ["b"; "a"] a
            ∧ map (λ rs, (start_layer rs.2, end_layer rs.2)) (as_runner_to_shard a)
              = [(0, 12); (12, 28)]
  | Err _ => False
  end.
Proof.
  pose proof (pipeline_shards_partition_layers demo_policy demo_fresh (demo_model false) demo_memory
                ["b"; "a"] _ ltac:(vm_compute; done) ltac:(repeat constructor; set_solver)
                ltac:(repeat constructor; eexists; vm_compute; reflexivity)
                ltac:(apply map_Forall_to_list; vm_compute; repeat constructor; done)) as H.
  destruct (get_shard_assignments_for_pipeline_parallel demo_policy demo_fresh (demo_model false)
              demo_memory ["b"; "a"]) as [a|e] eqn:E; vm_compute in E; [|done].
  split; [exact H|]. injection E as <-. vm_compute. reflexivity.
Defined.

Lemma allocate_layers_proportionally_exact_witness :
  ∃ r, allocate_layers_proportionally 28 (map (λ m, double_div m 3501) [2000; 1500; 1]) 2 = Ok r
    ∧ r = [14; 12; 2] ∧ sumZ r = 28.
Proof.
  pose proof (allocate_layers_proportionally_exact 28 2 [2000; 1500; 1] ltac:(lia) ltac:(lia)
                ltac:(repeat constructor; lia) ltac:(cbn; lia)) as H. cbn zeta in H.
  destruct (Z.ltb_spec 28 (Z.of_nat (length [2000; 1500; 1]) * 2)); [cbn in *; lia|].
  destruct H as (r & Hr & _ & Hs & _). exists r. split; [exact Hr|]. split; [|exact Hs].
  vm_compute in Hr. injection Hr as <-. reflexivity.
Defined.

(** With classifier-free guidance only the memory of the first half of the cycle is looked at:
    the second half runs the same layers on nodes that may not have room for them. *)
Lemma cfg_second_group_unchecked :
  ∃ a, get_shard_assignments_for_pipeline_parallel demo_policy demo_fresh (demo_model true)
         (<["a" := demo_reading 2800]> demo_memory) ["a"; "c"] = Ok a
    ∧ map (λ rs, end_layer rs.2 - start_layer rs.2) (as_runner_to_shard a) = [28; 28]
    ∧ required_memory (demo_model true) 28 = 2800
    ∧ ram_available <$> demo_memory !! "c" = Some 1.
Proof. eexists. split; [vm_compute; reflexivity|]. vm_compute. repeat split. Qed.
