(* ===== verification/PlacementRoutes.v ===== *)
(** * Candidate cycles and transports for an instance

    The rest of [master/placement_utils.py] that a llama.cpp instance uses: which nodes a
    coordinator can reach, the sets of nodes ("cycles") an instance may run on, and the
    addresses its nodes talk to.  [required_nodes] is a set, empty when it is [None]. *)
From Stdlib Require Import QArith Ascii.
From S2P Require Import Prelude.
From S2P Require Import PyStr.
From S2P Require Import PyVal.
From S2P Require Import PyOrder.
From S2P Require Import Money.
From S2P Require Import Topology.
From S2P Require Import RuntimeState.
From S2P Require Import NetworkRoutes.
From S2P Require Import RouteHealth.
Local Open Scope Z_scope.
Set Default Proof Using "Type".

Abbreviation Cycle := (list string) (only parsing).

(** [node_memory[n].ram_available]; only nodes with an entry are looked up below. *)
Definition ram_or_0 (node_memory : gmap string MemoryReading) (n : string) : Z :=
  match node_memory !! n with Some m => ram_available m | None => 0 end.

Definition filter_cycles_by_memory (cycles : list Cycle)
    (node_memory : gmap string MemoryReading) (required_memory : Z) : list Cycle :=
  filter (λ cycle,
    Forall (λ n, is_Some (node_memory !! n)) cycle
    ∧ required_memory ≤ sumZ (map (ram_or_0 node_memory) cycle)) cycles.

Definition get_smallest_cycles (cycles : list Cycle) : list Cycle :=
  match map length cycles with
  | [] => []
  | n :: ns =>
      let min_nodes := foldl Nat.min n ns in
      filter (λ cycle, length cycle = min_nodes) cycles
  end.

Section health.
Context (env : Environ) (now : Z) (fromisoformat : string → option Z).
Context (records : list RouteHealthRecord).

(** The latest record of the direct RPC types between the two nodes. *)
Definition latest_rpc_step (source sink : string)
    (latest : option (nat * RouteHealthRecord)) (ir : nat * RouteHealthRecord)
  : option (nat * RouteHealthRecord) :=
  if bool_decide (strip (rh_route_type ir.2) ∉ ["llama_cpp_rpc"; "llama_cpp_rpc_direct"])
     || negb (String.eqb (strip (rh_source_node_id ir.2)) source)
     || negb (String.eqb (strip (rh_sink_node_id ir.2)) sink) then latest
  else
    let key (ir : nat * RouteHealthRecord) := [KS (rh_checked_at ir.2); KI (Z.of_nat ir.1)] in
    match latest with
    | None => Some ir
    | Some l => if sort_key_leb (key ir) (key l) then latest else Some ir
    end.

Definition _route_health_llama_cpp_rpc_status (source sink : string) : option bool :=
  match foldl (latest_rpc_step source sink) None (enumerate records) with
  | None => None
  | Some (_, latest) =>
      if negb (rh_reachable latest)
         && _llama_cpp_rpc_failure_backoff_expired env now fromisoformat (rh_checked_at latest)
      then None else Some (rh_reachable latest)
  end.

Definition same_pair (source sink : string) (record : RouteHealthRecord) : bool :=
  String.eqb (strip (rh_source_node_id record)) source
  && String.eqb (strip (rh_sink_node_id record)) sink.

Definition _route_health_directly_reachable (source sink : string) : bool :=
  match _route_health_llama_cpp_rpc_status source sink with
  | Some rpc_status => rpc_status
  | None =>
      existsb (λ record,
        rh_reachable record
        && bool_decide (strip (rh_route_type record) ∈ ["direct_data"; "direct_socket"])
        && same_pair source sink record) records
  end.

Definition _route_health_direct_adjacency (visible_nodes : gset string) : adjacency :=
  set_fold (λ n adj,
    <[n := filter (λ k, n ≠ k ∧ _route_health_directly_reachable n k = true) visible_nodes]> adj)
    ∅ visible_nodes.
End health.

(** ** Coordinator-first candidates *)

Definition _socket_adjacency (t : Topology) (visible_nodes : gset string) : adjacency :=
  socket_adjacency t visible_nodes.

(** [{node_id for node_id in topology.list_nodes() if node_id in node_memory}] *)
Definition visible_of (t : Topology) (node_memory : gmap string MemoryReading) : gset string :=
  list_to_set (filter (λ n, is_Some (node_memory !! n)) (nodes t)).

Section candidates.
Context (node_memory : gmap string MemoryReading) (required_nodes : gset string).

(** Required nodes first, then by free memory, then by id. *)
Definition target_key (n : string) : sort_key :=
  [KI (if bool_decide (n ∈ required_nodes) then 0 else 1); KI (- ram_or_0 node_memory n); KS n].

Definition targets_of (reachable : gset string) : list string :=
  sorted_by target_key (elements reachable).

Definition min_candidate_size (min_nodes : Z) : nat :=
  Nat.max (Z.to_nat min_nodes) (size required_nodes).

(** The candidates of one coordinator, of every size that is allowed. *)
Definition coordinator_cycles (min_nodes : Z) (coordinator : string) (reachable : gset string)
  : list Cycle :=
  let m := min_candidate_size min_nodes in
  if bool_decide (¬ required_nodes ∖ {[coordinator]} ⊆ reachable) then []
  else
    let ordered_targets := targets_of reachable in
    filter (λ ordered_nodes, required_nodes ⊆ list_to_set ordered_nodes)
      (map (λ sz, coordinator :: take (sz - 1) ordered_targets)
         (seq m (S (S (length ordered_targets)) - m))).

(** The loop over the coordinators, without orders that were seen. *)
Definition add_candidate (acc : list Cycle) (ordered_nodes : Cycle) : list Cycle :=
  if bool_decide (ordered_nodes ∈ acc) then acc else acc ++ [ordered_nodes].

Definition candidate_cycles (visible_nodes : gset string) (min_nodes : Z)
    (reachable_of : string → gset string) : list Cycle :=
  foldl add_candidate []
    (sorted_ids visible_nodes ≫= λ c, coordinator_cycles min_nodes c (reachable_of c)).

Definition missing_error (what : string) (missing_nodes : gset string) : exn :=
  ValueError ("Missing required " ++ what ++ " placement nodes: ["
    ++ join ", " (map repr_str (sorted_ids missing_nodes)) ++ "]")%string.
End candidates.

Definition get_llama_cpp_direct_candidate_cycles (env : Environ) (now : Z)
    (fromisoformat : string → option Z) (t : Topology)
    (node_memory : gmap string MemoryReading) (min_nodes : Z) (required_nodes : gset string)
    (records : list RouteHealthRecord) : result (list Cycle) :=
  let visible_nodes := visible_of t node_memory in
  if bool_decide (¬ required_nodes ⊆ visible_nodes) then
    Err (missing_error "llama.cpp" (required_nodes ∖ visible_nodes))
  else
    let adj := _socket_adjacency t visible_nodes in
    let health := _route_health_direct_adjacency env now fromisoformat records visible_nodes in
    Ok (candidate_cycles node_memory required_nodes visible_nodes min_nodes
          (λ c, neighbours_of adj c ∪ neighbours_of health c)).

Definition get_llama_cpp_relay_candidate_cycles (t : Topology)
    (node_memory : gmap string MemoryReading) (overlay_peers : gmap string (list string))
    (node_identities : gmap string NodeIdentity) (min_nodes : Z) (required_nodes : gset string)
  : result (list Cycle) :=
  let visible_nodes := visible_of t node_memory in
  if bool_decide (¬ required_nodes ⊆ visible_nodes) then
    Err (missing_error "relay" (required_nodes ∖ visible_nodes))
  else
    let reachable_targets :=
      llama_cpp_reachable_targets_by_source t overlay_peers node_identities visible_nodes in
    Ok (candidate_cycles node_memory required_nodes visible_nodes min_nodes
          (neighbours_of reachable_targets)).

(** ** Addresses *)

(** [_find_connection_ip]: reading the address of a socket may raise. *)
Definition _find_connection_ip (node_i node_j : string) (t : Topology) : result (list string) :=
  mapM_r (λ e, match e with
               | SocketConnection m => ip_address m
               | RDMAConnection _ _ => Ok ""
               end)
    (filter is_socket (get_all_connections_between node_i node_j t)).

Definition ring_priority (interface_type : string) : Z :=
  if String.eqb interface_type "thunderbolt" then 0
  else if String.eqb interface_type "maybe_ethernet" then 1
  else if String.eqb interface_type "ethernet" then 2
  else if String.eqb interface_type "wifi" then 3
  else if String.eqb interface_type "unknown" then 4 else 2.
Definition rdma_priority (interface_type : string) : Z :=
  if String.eqb interface_type "ethernet" then 0
  else if String.eqb interface_type "wifi" then 1
  else if String.eqb interface_type "unknown" then 2
  else if String.eqb interface_type "maybe_ethernet" then 3
  else if String.eqb interface_type "thunderbolt" then 4 else 2.

(** [ip_to_type.get(ip, "unknown")]: the last interface with the address counts. *)
Definition type_of_ip (network : NodeNetworkInfo) (ip : string) : string :=
  match last (filter (λ i, if_ip_address i = ip) network) with
  | Some i => if_type i
  | None => "unknown"
  end.

Definition _find_ip_prioritised (node_id other_node_id : string) (t : Topology)
    (node_network : gmap string NodeNetworkInfo) (ring : bool) : result (option string) :=
  ips ← _find_connection_ip node_id other_node_id t;
  match ips with
  | [] => Ok None
  | ip :: rest =>
      let other_network := default [] (node_network !! other_node_id) in
      let priority ip :=
        (if ring then ring_priority else rdma_priority) (type_of_ip other_network ip) in
      Ok (Some (first_min (λ a b, priority a <=? priority b) ip rest))
  end.

(** [str(host or "").strip()] *)
Definition host_text (host : option string) : string := strip (default "" host).

(** [a or b or None] of texts. *)
Definition or_text (a : string) (b : option string) : option string :=
  if String.eqb a "" then b else Some a.

Definition endpoint_host (identity : NodeIdentity) (purpose : string)
    (route_types : option (list string)) : string :=
  match preferred_transport_endpoint identity purpose route_types false with
  | Some e => strip (ep_host e)
  | None => ""
  end.

Definition _preferred_advertised_host (identity : NodeIdentity) : option string :=
  or_text (endpoint_host identity "data" None)
    (or_text (endpoint_host identity "api" None)
       (or_text (strip (match ni_data_host identity with
                        | Some h => if String.eqb h "" then default "" (ni_api_host identity) else h
                        | None => default "" (ni_api_host identity)
                        end)) None)).

Definition _preferred_advertised_data_port (identity : NodeIdentity) : option Z :=
  match preferred_transport_endpoint identity "data" None true with
  | Some e => ep_port e
  | None => ni_data_port identity
  end.

Definition host_of (e : AdvertisedTransportEndpoint) : Host :=
  {| host_ip := strip (ep_host e); host_port := default 0 (ep_port e) |}.

(** The callers leave [require_port] true. *)
Definition _preferred_route_endpoint (identity : NodeIdentity) (purpose route_type : string)
  : option Host :=
  match preferred_transport_endpoint identity purpose (Some [route_type]) true with
  | Some e => Some (host_of e)
  | None =>
      match preferred_transport_endpoint identity purpose None true with
      | Some e => Some (host_of e)
      | None =>
          let '(host, port) :=
            if String.eqb purpose "data" then (host_text (ni_data_host identity), ni_data_port identity)
            else (host_text (ni_api_host identity), ni_api_port identity) in
          match port with
          | Some p =>
              if negb (String.eqb host "") && (0 <? p)
              then Some {| host_ip := host; host_port := p |} else None
          | None => None
          end
      end
  end.

Definition _preferred_route_host (identity : NodeIdentity) (purpose route_type : string)
  : option string :=
  or_text (endpoint_host identity purpose (Some [route_type]))
    (or_text (endpoint_host identity purpose None)
       (or_text (host_text (if String.eqb purpose "data" then ni_data_host identity
                            else ni_api_host identity)) None)).

Definition _preferred_runtime_data_endpoint (identity : NodeIdentity) (route_type : string)
    (ephemeral_port : Z) (target_ip : option string) : option Host :=
  match _preferred_route_endpoint identity "data" route_type with
  | Some data_endpoint => Some data_endpoint
  | None =>
      let target_port :=
        match _preferred_advertised_data_port identity with
        | Some p => if p =? 0 then ephemeral_port else p
        | None => ephemeral_port
        end in
      if target_port <=? 0 then None
      else
        match or_text (host_text target_ip)
                (match _preferred_route_host identity "data" route_type with
                 | Some h => Some h
                 | None => _preferred_route_host identity "api" route_type
                 end) with
        | Some target_host => Some {| host_ip := target_host; host_port := target_port |}
        | None => None
        end
  end.

(** ** Relays *)

(** The key of a route dict, and the routes with distinct keys without blank parts. *)
Definition route_key (r : RelayRoute) : string * string * string :=
  (strip (rr_source r), strip (rr_sink r), strip (rr_transit r)).

Definition dedupe_step (st : list RelayRoute * list (string * string * string)) (r : RelayRoute)
  : list RelayRoute * list (string * string * string) :=
  let key := route_key r in
  let '(a, b, c) := key in
  if String.eqb a "" || String.eqb b "" || String.eqb c "" || bool_decide (key ∈ st.2) then st
  else (st.1 ++ [r], key :: st.2).

Definition _dedupe_relay_candidate_dicts (routes : list RelayRoute) : list RelayRoute :=
  (foldl dedupe_step ([], []) routes).1.

Section relays.
Context (t : Topology) (ephemeral_port : Z) (node_network : gmap string NodeNetworkInfo).
Context (node_identities : gmap string NodeIdentity).

(** The body of the innermost loop; [None] when the route is skipped. *)
Definition relay_transport (source_node_id sink_node_id : string) (route : RelayRoute)
  : result (option LlamaCppRelayRoute) :=
  let transit_node_id := strip (rr_transit route) in
  let source_segment_type := rr_source_segment route in
  let sink_segment_type := rr_sink_segment route in
  match node_identities !! transit_node_id, node_identities !! sink_node_id with
  | Some relay_identity, Some sink_identity =>
      relay_api ←
        match _preferred_route_endpoint relay_identity "api" source_segment_type with
        | Some h => Ok (Some h)
        | None =>
            if String.eqb source_segment_type "direct" then
              relay_api_ip ← _find_ip_prioritised source_node_id transit_node_id t node_network false;
              Ok (match relay_api_ip, ni_api_port relay_identity with
                  | Some ip, Some p =>
                      if String.eqb ip "" || (p =? 0) then None
                      else Some {| host_ip := ip; host_port := p |}
                  | _, _ => None
                  end)
            else Ok None
        end;
      match relay_api with
      | None => Ok None
      | Some api =>
          target_ip ←
            (if String.eqb sink_segment_type "direct"
             then _find_ip_prioritised transit_node_id sink_node_id t node_network false
             else Ok None);
          Ok (match _preferred_runtime_data_endpoint sink_identity sink_segment_type
                      ephemeral_port target_ip with
              | None => None
              | Some target => Some {|
                  lr_source_node_id := source_node_id; lr_transit_node_id := transit_node_id;
                  lr_sink_node_id := sink_node_id; lr_relay_api_host := host_ip api;
                  lr_relay_api_port := host_port api; lr_target_host := host_ip target;
                  lr_target_port := host_port target;
                  lr_source_segment_type := source_segment_type;
                  lr_sink_segment_type := sink_segment_type |}
              end)
      end
  | _, _ => Ok None
  end.

Context (directly_reachable : string → string → bool) (route_candidates : list RelayRoute).

Definition flatten_options {A} (l : list (option A)) : list A := omap (λ x, x) l.

(** [candidates_by_pair.get((source, sink))] *)
Definition pair_routes (source_node_id sink_node_id : string) : list RelayRoute :=
  filter (λ r, strip (rr_source r) = source_node_id ∧ strip (rr_sink r) = sink_node_id)
    route_candidates.

Definition sink_routes (source_node_id sink_node_id : string) : result (list LlamaCppRelayRoute) :=
  if bool_decide (sink_node_id = source_node_id) || directly_reachable source_node_id sink_node_id
  then Ok []
  else
    routes ← mapM_r (relay_transport source_node_id sink_node_id)
               (pair_routes source_node_id sink_node_id);
    Ok (flatten_options routes).

Definition source_routes (cycle : Cycle) (source_node_id : string)
  : result (list LlamaCppRelayRoute) :=
  routes ← mapM_r (sink_routes source_node_id) cycle;
  Ok (concat routes).

Fixpoint routes_by_node (cycle : Cycle) (sources : list string)
  : result (list (string * list LlamaCppRelayRoute)) :=
  match sources with
  | [] => Ok []
  | s :: sources' =>
      routes ← source_routes cycle s;
      rest ← routes_by_node cycle sources';
      Ok (match routes with [] => rest | _ => (s, routes) :: rest end)
  end.
End relays.

Definition get_llama_cpp_relay_routes_by_node (env : Environ) (now : Z)
    (fromisoformat : string → option Z) (cycle : Cycle) (t : Topology) (ephemeral_port : Z)
    (node_network : gmap string NodeNetworkInfo) (node_identities : gmap string NodeIdentity)
    (overlay_peers : gmap string (list string)) (records : list RouteHealthRecord)
  : result (list (string * list LlamaCppRelayRoute)) :=
  let selected := relay_route_candidates t overlay_peers node_identities cycle false in
  let alternatives := relay_route_candidates t overlay_peers node_identities cycle true in
  match _dedupe_relay_candidate_dicts (selected ++ alternatives) with
  | [] => Ok []
  | route_candidates =>
      routes_by_node t ephemeral_port node_network node_identities
        (_route_health_directly_reachable env now fromisoformat records) route_candidates
        cycle cycle
  end.

(** ** Hosts and URLs *)

Section hosts.
(** [urllib.parse.urlparse(url).hostname]. *)
Context (url_hostname : string → result (option string)) (records : list RouteHealthRecord).

Definition direct_types : list string := ["direct_data"; "direct_socket"; "llama_cpp_rpc_direct"].

Fixpoint first_endpoint_host (source sink : string) (l : list RouteHealthRecord)
  : result (option string) :=
  match l with
  | [] => Ok None
  | record :: l' =>
      let endpoint_url := host_text (rh_endpoint_url record) in
      if rh_reachable record && bool_decide (strip (rh_route_type record) ∈ direct_types)
         && same_pair source sink record && negb (String.eqb endpoint_url "")
      then
        hostname ← url_hostname endpoint_url;
        match hostname with
        | Some h => if String.eqb h "" then first_endpoint_host source sink l' else Ok (Some h)
        | None => first_endpoint_host source sink l'
        end
      else first_endpoint_host source sink l'
  end.

Definition _route_health_direct_endpoint_host (source_node_id sink_node_id : string)
  : result (option string) := first_endpoint_host source_node_id sink_node_id records.

Context (t : Topology) (ephemeral_port : Z) (node_network : gmap string NodeNetworkInfo).
Context (node_identities : gmap string NodeIdentity).
Context (relay_routes_by_node : list (string * list LlamaCppRelayRoute)).

Definition identity_of (n : string) : NodeIdentity :=
  default default_identity (node_identities !! n).

Definition data_port_or (n : string) : Z :=
  default ephemeral_port (_preferred_advertised_data_port (identity_of n)).

(** [relay_routes_by_node.get(node_id, [])] *)
Definition relay_routes_of (node_id : string) : list LlamaCppRelayRoute :=
  default [] (snd <$> head (filter (λ kv, kv.1 = node_id) relay_routes_by_node)).

Definition bind_all (port : Z) : Host := {| host_ip := "0.0.0.0"; host_port := port |}.
Definition placeholder : Host := {| host_ip := "198.51.100.1"; host_port := 0 |}.

(** The host entry of one node of the cycle in the list of another. *)
Definition host_for (node_id : string) (rank : nat) (other : nat * string) : result Host :=
  let '(idx, other_node_id) := other in
  let local_bind_port := data_port_or node_id in
  if (idx =? rank)%nat then Ok (bind_all local_bind_port)
  else if bool_decide (other_node_id ∈ map lr_sink_node_id (relay_routes_of node_id))
  then Ok placeholder
  else
    health_host ← _route_health_direct_endpoint_host node_id other_node_id;
    target_ip ←
      match health_host with
      | Some h => Ok (Some h)
      | None =>
          match _preferred_advertised_host (identity_of other_node_id) with
          | Some h => Ok (Some h)
          | None => _find_ip_prioritised node_id other_node_id t node_network false
          end
      end;
    match target_ip with
    | Some ip => Ok {| host_ip := ip; host_port := data_port_or other_node_id |}
    | None =>
        if negb (rank =? 0)%nat then Ok (bind_all local_bind_port)
        else Err (ValueError "llama.cpp RPC backend requires the coordinator to reach every participating node")
    end.

Definition get_llama_cpp_hosts_by_node (cycle : Cycle) : result (list (string * list Host)) :=
  mapM_r (λ rn : nat * string,
    hosts ← mapM_r (host_for rn.2 rn.1) (enumerate cycle); Ok (rn.2, hosts)) (enumerate cycle).

(** *** API URLs *)

Definition _build_http_url (host : string) (port : Z) : string :=
  let normalized_host := strip host in
  let normalized_host :=
    if has_char ":"%char normalized_host && negb (startswith "[" normalized_host)
    then ("[" ++ normalized_host ++ "]")%string else normalized_host in
  ("http://" ++ normalized_host ++ ":" ++ str_of_Z port)%string.

(** [urllib.parse.quote_plus] of an ASCII text. *)
Definition hex_upper (d : Z) : ascii := ascii_of_N (Z.to_N (if d <? 10 then d + 48 else d + 55)).

Definition quote_char (c : ascii) : string :=
  let n := code c in
  if is_alpha c || is_digit c || bool_decide (c ∈ ["_"; "."; "-"; "~"]%char) then String c ""
  else if n =? 32 then "+"
  else String "%"%char (String (hex_upper (n / 16)) (String (hex_upper (n mod 16)) "")).

Fixpoint quote_plus (s : string) : string :=
  match s with
  | "" => ""
  | String c s' => (quote_char c ++ quote_plus s')%string
  end.

(** [urls.append(url)] unless it was seen. *)
Definition add_url (urls : list string) (url : string) : list string :=
  if bool_decide (url ∈ urls) then urls else urls ++ [url].

Definition usable_host (host : string) (port : Z) : bool :=
  negb (String.eqb host "") && bool_decide (host ∉ ["0.0.0.0"; "::"]) && (0 <? port).

Definition _cai_owned_overlay_relay_role (transit_node_id : string) (selected : list string)
  : string :=
  if bool_decide (transit_node_id ∈ selected) then "ordinary"
  else match node_identities !! transit_node_id with
       | Some identity => if default false (ni_worker_enabled identity) then "ordinary" else "bootstrap"
       | None => "bootstrap"
       end.

Definition overlay_url (target_node_id : string) (selected : list string)
    (route : LlamaCppRelayRoute) : option string :=
  let relay_host := strip (lr_relay_api_host route) in
  let relay_port := lr_relay_api_port route in
  if bool_decide (lr_sink_node_id route ≠ target_node_id) || negb (usable_host relay_host relay_port)
  then None
  else
    Some ("cai-overlay:" ++ _build_http_url relay_host relay_port
          ++ "?targetNodeId=" ++ quote_plus target_node_id
          ++ "&relayRole=" ++ _cai_owned_overlay_relay_role (lr_transit_node_id route) selected
          ++ "&transitNodeId=" ++ quote_plus (lr_transit_node_id route))%string.

Definition _cai_owned_overlay_urls_for_node (target_node_id : string) (selected : list string)
  : list string :=
  foldl add_url []
    (omap (overlay_url target_node_id selected) (concat (map snd relay_routes_by_node))).

(** The URLs a node advertises, in the order of its endpoints. *)
Definition endpoint_url (e : AdvertisedTransportEndpoint) : option string :=
  let host := strip (ep_host e) in
  let port := default 0 (ep_port e) in
  if usable_host host port then Some (_build_http_url host port) else None.

Definition api_urls_of (selected : list string) (node_id : string) : list string :=
  let identity := identity_of node_id in
  let host := host_text (ni_api_host identity) in
  let port := default 0 (ni_api_port identity) in
  foldl add_url []
    (omap endpoint_url (transport_endpoints_for identity (Some "api") None true)
     ++ (if usable_host host port then [_build_http_url host port] else [])
     ++ _cai_owned_overlay_urls_for_node node_id selected).

Definition get_cai_api_urls_by_node (cycle : Cycle) : list (string * list string) :=
  map (λ n, (n, api_urls_of cycle n)) cycle.
End hosts.
