(* ===== verification/Placement.v ===== *)
(** * Placing instances

    [master/placement.py]: choosing the nodes of a new instance and building it, deleting
    instances, and the events and commands that bring the cluster from the current instances
    to the wanted ones.

    [InferenceBackend] has one member, so the guard at the start of [place_instance] lets only
    the LlamaCpp instance backend and pipeline sharding through, and the branches for the
    other backends and for tensor sharding cannot be reached; they are left out.  The packages
    [placement.py] imports on demand are installed.  [required_nodes] is empty when [None]. *)
From Stdlib Require Import QArith Ascii.
From S2P Require Import Prelude.
From S2P Require Import PyStr.
From S2P Require Import PyVal.
From S2P Require Import Doubles.
From S2P Require Import PyOrder.
From S2P Require Import Money.
From S2P Require Import Topology.
From S2P Require Import RuntimeState.
From S2P Require Import LayerAllocation.
From S2P Require Import NetworkRoutes.
From S2P Require Import NetworkModelPolicy.
From S2P Require Import RouteHealth.
From S2P Require Import ShardAssignment.
From S2P Require Import PlacementRoutes.
Local Open Scope Z_scope.
Set Default Proof Using "Type".

Inductive InstanceMeta := MlxRing | MlxJaccl | LlamaCppMeta.
#[export] Instance instance_meta_eq_dec : EqDecision InstanceMeta.
Proof. solve_decision. Defined.

Record PlaceInstance := {
  pi_model_card : ModelCard;
  pi_sharding : Sharding;
  pi_instance_meta : InstanceMeta;
  pi_min_nodes : Z
}.

Definition env_on (env : Environ) (name : string) : bool :=
  bool_decide (lower (strip (default "" (env name))) ∈ flag_words).
Definition _cai_owned_transport_generation_enabled (env : Environ) : bool :=
  env_on env "CAI_OWNED_TRANSPORT_GENERATION_ENABLED".
Definition _cai_owned_transport_generation_require_runtime_ready (env : Environ) : bool :=
  env_on env "CAI_OWNED_TRANSPORT_GENERATION_REQUIRE_RUNTIME_READY".
Definition _cai_owned_transport_minimum_relay_quorum (env : Environ) : Z :=
  match int_of_str (default "0" (env "CAI_OWNED_TRANSPORT_GENERATION_MIN_RELAY_QUORUM")) with
  | Some n => Z.max 0 n
  | None => 0
  end.

(** [random.randint(49153, 65535)] is the argument; the port 52415 is left free. *)
Definition random_ephemeral_port (port : Z) : Z := if port <=? 52415 then port - 1 else port.

Definition with_available (ram : Z) (m : MemoryReading) : MemoryReading :=
  {| ram_total := ram_total m; ram_available := ram; swap_total := swap_total m;
     swap_available := swap_available m |}.

Definition _effective_node_memory_for_model (policy : PrivateNetworkModelPolicy)
    (card : ModelCard) (node_memory : gmap string MemoryReading) : gmap string MemoryReading :=
  let headroom := private_network_model_ram_headroom policy (mc_model_id card) (Some card) in
  if headroom <=? 0 then node_memory
  else (λ usage, with_available (Z.max 0 (ram_available usage - headroom)) usage) <$> node_memory.

Definition add_instance_to_placements (instance : Instance) (current : gmap string Instance)
  : gmap string Instance := <[instance_id instance := instance]> current.

(** ** Scores of a cycle *)

Definition fraction (downloaded total : Z) : Q :=
  if 0 <? total then double_div downloaded total else 0%Q.

Definition _get_node_download_fraction (node_id model_id : string)
    (download_status : gmap string (list DownloadProgress)) : Q :=
  match head (filter (λ p, dp_model_id p = model_id) (default [] (download_status !! node_id))) with
  | None => 0%Q
  | Some p =>
      match dp_kind p with
      | DownloadCompleted => 1%Q
      | DownloadOngoing | DownloadPending => fraction (dp_downloaded p) (dp_total p)
      | DownloadFailed => 0%Q
      end
  end.

Definition _cycle_download_score (cycle : Cycle) (model_id : string)
    (download_status : gmap string (list DownloadProgress)) : Q :=
  sum_floats (map (λ n, _get_node_download_fraction n model_id download_status) cycle).

Section placement.
Context (env : Environ) (now : Z) (fromisoformat : string → option Z).
Context (simple_cycles : list string → list Connection → list (list string)).
Context (url_hostname : string → result (option string)).
Context (policy : PrivateNetworkModelPolicy) (fresh : nat → string).

(** What the package manifest of a model says of a node that would run the layers
    [start, end): the bytes it needs, those it has, and whether it has all; the first [None]
    is no manifest, the second an exception for the node. *)
Context (chunk_coverage : string → option (string → Z → Z → option (Z * Z * bool))).
(** [cai_owned_transport_route_health_readiness]: ready, and the fatal reasons; [None] is an
    exception. *)
Context (owned_route_readiness : Z → string → list string → list RouteHealthRecord →
         option (bool * list string)).

(** [records]: [route_health_records], empty when [None]. *)
Context (records : list RouteHealthRecord).

Definition _cycle_chunk_coverage_score (cycle : Cycle) (command : PlaceInstance)
    (node_memory : gmap string MemoryReading) : Z * Q :=
  match chunk_coverage (mc_model_id (pi_model_card command)) with
  | None => (0, 0%Q)
  | Some coverage =>
      match get_shard_assignments policy fresh (pi_model_card command) node_memory cycle
              (pi_sharding command) with
      | Err _ => (0, 0%Q)
      | Ok assignments =>
          let covered :=
            omap (λ nr : string * string,
              rs ← head (filter (λ rs, rs.1 = nr.2) (as_runner_to_shard assignments));
              if bool_decide (sh_kind rs.2 = PipelineShardMetadata)
              then coverage nr.1 (start_layer rs.2) (end_layer rs.2) else None)
              (as_node_to_runner assignments) in
          let total_required_bytes := sumZ (map (λ c, c.1.1) covered) in
          let total_present_bytes := sumZ (map (λ c, c.1.2) covered) in
          let ready_nodes := Z.of_nat (length (filter (λ c : Z * Z * bool, c.2 = true) covered)) in
          let coverage_ratio := fraction total_present_bytes total_required_bytes in
          (ready_nodes, if Qle_bool coverage_ratio 1 then coverage_ratio else 1%Q)
      end
  end.

(** The coordinator and the other nodes of a cycle of more than one node. *)
Definition remote_pairs (cycle : Cycle) : option (string * list string) :=
  match cycle with
  | coordinator :: s :: sinks => Some (coordinator, s :: sinks)
  | _ => None
  end.

Definition _cycle_route_health_score (cycle : Cycle) : Z * Z * Z :=
  match remote_pairs cycle, records with
  | None, _ | _, [] => (0, 0, 0)
  | Some (coordinator, sinks), _ =>
      route_health_score_for_path env now fromisoformat coordinator sinks records
  end.

Definition rpc_status (source sink : string) : option bool :=
  llama_cpp_rpc_status_for_pair env now fromisoformat source sink records.

Definition _cycle_has_failed_llama_cpp_rpc_route (cycle : Cycle) : bool :=
  match remote_pairs cycle, records with
  | None, _ | _, [] => false
  | Some (coordinator, sinks), _ =>
      existsb (λ sink, bool_decide (rpc_status coordinator sink = Some false)) sinks
  end.

Definition _cycle_has_unproven_llama_cpp_rpc_route (cycle : Cycle) : bool :=
  match remote_pairs cycle, records with
  | None, _ => false
  | _, [] => true
  | Some (coordinator, sinks), _ =>
      existsb (λ sink, negb (bool_decide (rpc_status coordinator sink = Some true))) sinks
  end.

Definition _cycle_compute_cell_profile (cycle : Cycle) : option (CellProfile * option Q) :=
  match remote_pairs cycle, records with
  | None, _ | _, [] => None
  | Some (coordinator, sinks), _ =>
      Some (llama_cpp_compute_cell_profile_for_path env now fromisoformat coordinator sinks records)
  end.

Definition profile_rank (profile : CellProfile) : Z :=
  match profile with
  | low_latency_sharded_cell => 4
  | proven_unknown_latency_sharded_cell => 3
  | unproven_sharded_cell => 2
  | wan_risky_sharded_cell => 1
  | failed_sharded_cell | single_node => 0
  end.

Definition _cycle_compute_cell_score (cycle : Cycle) : Z * Z :=
  match _cycle_compute_cell_profile cycle with
  | None => (0, 0)
  | Some (profile, max_latency) =>
      (profile_rank profile,
       match max_latency with Some x => - int_of (double_mul_Z x 1000) | None => 0 end)
  end.

Definition _cycle_has_wan_risky_llama_cpp_compute_cell (cycle : Cycle) : bool :=
  match _cycle_compute_cell_profile cycle with
  | None => false
  | Some (profile, _) => bool_decide (profile ∈ [wan_risky_sharded_cell; failed_sharded_cell])
  end.

(** ** CAI-owned transport *)

Definition _cycle_cai_owned_transport_route_readiness (cycle : Cycle)
  : option (bool * list string) :=
  match remote_pairs cycle with
  | None => Some (true, [])
  | Some (coordinator, sinks) =>
      owned_route_readiness (_cai_owned_transport_minimum_relay_quorum env) coordinator sinks records
  end.

(** A JSON value that is a dict with a key whose value satisfies [p]. *)
Definition dict_field (v : pyval) (key : string) : pyval :=
  match v with VDict d => dget key d | _ => VNone end.
Definition is_dict (v : pyval) : bool := match v with VDict _ => true | _ => false end.
Definition is_true (v : pyval) : bool := match v with VBool b => b | _ => false end.
Definition is_false (v : pyval) : bool := match v with VBool b => negb b | _ => false end.

(** [None] when the node is ready, the error otherwise. *)
Definition _node_cai_owned_worker_readiness (identity : option NodeIdentity)
    (require_runtime_ready : bool) : option string :=
  match identity with
  | None => Some "Worker identity is missing."
  | Some identity =>
      if negb (bool_decide (ni_worker_enabled identity = Some true))
      then Some "Node is not advertising worker mode."
      else
        let cai_readiness := dget "caiOwnedTransport" (ni_readiness identity) in
        if negb (is_dict cai_readiness)
        then Some "Node does not advertise CAI-owned transport readiness."
        else
          let status := lower (str_or_strip (dict_field cai_readiness "status")) in
          let proof_verified :=
            is_true (dict_field (dict_field cai_readiness "runtimeReadyProof") "verified") in
          let self_test := dict_field cai_readiness "llmShardSelfTest" in
          let production_self_test_ready :=
            truthy (dict_field self_test "productionReady")
            && is_true (dict_field self_test "generationProbeReady")
            && negb (is_false (dict_field self_test "backendHealthReady")) in
          if bool_decide (status ∈ ["failed"; "error"; "disabled"; "off"])
          then Some ("CAI-owned transport readiness is " ++ status ++ ".")%string
          else if negb (truthy (dict_field cai_readiness "implemented"))
          then Some "CAI-owned transport adapter is not implemented on this worker."
          else if require_runtime_ready
                  && negb ((truthy (dict_field cai_readiness "runtimeReady") || String.eqb status "ready")
                           && proof_verified && production_self_test_ready)
          then Some "CAI-owned transport runtime is not ready on this worker with a verified live proof and production LLM self-test."
          else None
  end.

(** The fatal reasons of the nodes of a cycle. *)
Definition _cycle_cai_owned_worker_readiness (cycle : Cycle)
    (node_identities : gmap string NodeIdentity) : list string :=
  let require_runtime_ready := _cai_owned_transport_generation_require_runtime_ready env in
  omap (λ n, _node_cai_owned_worker_readiness (node_identities !! n) require_runtime_ready) cycle.

(** ** Overlay components *)

Definition overlay_links_of (visible_nodes : gset string)
    (overlay_peers : gmap string (list string)) : adjacency :=
  foldl (λ adj entry,
    if bool_decide (entry.1 ∉ visible_nodes) then adj
    else foldl (λ adj peer,
           if bool_decide (peer ∉ visible_nodes) then adj
           else add_neighbour (add_neighbour adj entry.1 peer) peer entry.1) adj entry.2)
    (empty_adjacency visible_nodes) (map_to_list overlay_peers).

(** One round of the search: the node taken from the stack joins the component and its
    neighbours that were not visited go on the stack. *)
Fixpoint search (fuel : nat) (adj : adjacency) (stack : list string)
    (component visited : gset string) : gset string * gset string :=
  match fuel, stack with
  | S fuel', node_id :: stack' =>
      let found := neighbours_of adj node_id ∖ visited in
      search fuel' adj (elements found ++ stack') ({[node_id]} ∪ component) (found ∪ visited)
  | _, _ => (component, visited)
  end.

(** A node is put on the stack once, so as many rounds as there are nodes are enough. *)
Definition component_of (visible_nodes : gset string) (adj : adjacency) (start : string)
    (visited : gset string) : gset string * gset string :=
  search (size visible_nodes) adj [start] ∅ ({[start]} ∪ visited).

Definition component_cycles (node_memory : gmap string MemoryReading)
    (required_nodes : gset string) (min_nodes : Z) (component : gset string) : list Cycle :=
  let min_component_size := min_candidate_size required_nodes min_nodes in
  if (size component <? min_component_size)%nat
     || bool_decide (¬ required_nodes ⊆ component) then []
  else
    let ordered_nodes := sorted_by (target_key node_memory required_nodes) (elements component) in
    map (λ sz, take sz ordered_nodes)
      (seq min_component_size (S (length ordered_nodes) - min_component_size)).

Definition overlay_step (node_memory : gmap string MemoryReading) (required_nodes : gset string)
    (min_nodes : Z) (visible_nodes : gset string) (adj : adjacency)
    (st : list Cycle * gset string) (start_node : string) : list Cycle * gset string :=
  let '(candidates, visited) := st in
  if bool_decide (start_node ∈ visited) then st
  else
    let '(component, visited) := component_of visible_nodes adj start_node visited in
    (candidates ++ component_cycles node_memory required_nodes min_nodes component, visited).

Definition _overlay_connected_candidate_cycles (t : Topology)
    (node_memory : gmap string MemoryReading) (overlay_peers : gmap string (list string))
    (min_nodes : Z) (required_nodes : gset string) : result (list Cycle) :=
  if bool_decide (overlay_peers = ∅) then Ok []
  else
    let visible_nodes := visible_of t node_memory in
    if bool_decide (¬ required_nodes ⊆ visible_nodes) then
      Err (missing_error "overlay" (required_nodes ∖ visible_nodes))
    else
      let adj := overlay_links_of visible_nodes overlay_peers in
      Ok (foldl (overlay_step node_memory required_nodes min_nodes visible_nodes adj) ([], ∅)
            (sorted_ids visible_nodes)).1.

(** ** Choosing a cycle *)

Definition get_cycles (t : Topology) : list Cycle :=
  simple_cycles (nodes t) (connections t) ++ map (λ n, [n]) (nodes t).

Definition node_is_leaf (t : Topology) (n : string) : bool :=
  contains_node n t
  && (length (remove_dups (map sink (filter (λ c, source c = n) (connections t)))) <=? 1)%nat.

(** [any] over the failed RPC records of [_has_failed_llama_cpp_rpc_record]. *)
Definition _has_failed_llama_cpp_rpc_record : bool :=
  existsb (λ record,
    let source_node_id := strip (rh_source_node_id record) in
    let sink_node_id := strip (rh_sink_node_id record) in
    bool_decide (strip (rh_route_type record) ∈ LLAMA_CPP_RPC_ROUTE_TYPES)
    && negb (rh_reachable record)
    && (String.eqb source_node_id "" || String.eqb sink_node_id ""
        || bool_decide (rpc_status source_node_id sink_node_id = Some false))) records.

Definition _requires_llama_cpp_rpc_proof (command : PlaceInstance) : bool :=
  if pi_min_nodes command <=? 1 then false
  else if env_on env "CAI_ALLOW_LLAMA_CPP_RPC_BOOTSTRAP_WITHOUT_PROOF" then false
  else match env "CAI_REQUIRE_LLAMA_CPP_RPC_PROOF" with
       | None => is_private_network_model policy (mc_model_id (pi_model_card command))
                   (Some (pi_model_card command))
       | Some raw => bool_decide (lower (strip raw) ∈ flag_words)
       end.

Definition _canonical_cycle_for_model (node_memory : gmap string MemoryReading) (cycle : Cycle)
  : Cycle :=
  match cycle with
  | coordinator :: n :: rest =>
      coordinator :: sorted_by (λ n, [KI (- ram_or_0 node_memory n); KS n]) (n :: rest)
  | _ => cycle
  end.

Definition _visible_relay_count (node_identities : gmap string NodeIdentity) : Z :=
  Z.of_nat (size (filter (λ kv : string * NodeIdentity, ni_relay_enabled kv.2 = Some true)
                    node_identities)).

(** The message when no candidate is left; no relay route is then plannable either. *)
Definition _llama_cpp_unavailable_message (model_id : string) (min_nodes available_nodes
    connection_count relay_count : Z) : string :=
  ("Distributed llama.cpp model " ++ model_id ++ " requires at least " ++ str_of_Z min_nodes
   ++ " worker node(s) where one coordinator can reach every other participant directly, but topology currently exposes "
   ++ str_of_Z available_nodes ++ " node(s) and " ++ str_of_Z connection_count
   ++ " direct connection(s)."
   ++ (if (0 <? relay_count)%Z
       then " Relay-capable nodes are visible, but overlay and non-worker relay hops are not yet used for the llama.cpp data plane."
       else ""))%string.

Definition no_usable_route : exn :=
  ValueError "No usable decentralized llama.cpp RPC route remains for the selected worker set. RouteHealth marks the latest distributed RPC probe as failed, so placement is refusing to repeat a known-broken model-parallel data path.".
Definition no_proven_route : exn :=
  ValueError "No proven decentralized llama.cpp RPC route remains for the selected worker set. Strict RPC proof is enabled, so every coordinator-to-worker pair must have a successful llama.cpp RPC readiness or inference record in RouteHealth before model-parallel placement.".
Definition no_low_latency_cell : exn :=
  ValueError "No low-latency decentralized llama.cpp compute-cell remains for the selected worker set. RouteHealth marks the available coordinator-to-worker RPC path as WAN-risky for standard model-parallel decode; use a low-latency PC<->PC cell or a CAI-owned WAN-safe transport before placement.".

Section place.
Context (t : Topology) (node_network : gmap string NodeNetworkInfo).
Context (node_identities : gmap string NodeIdentity).
Context (overlay_peers : gmap string (list string)) (required_nodes : gset string).
Context (download_status : gmap string (list DownloadProgress)).
(** The memory reduced by the headroom, and the request with the policy's demands. *)
Context (memory : gmap string MemoryReading) (command : PlaceInstance).

Abbreviation card := (pi_model_card command).
Abbreviation distributed := (1 <? pi_min_nodes command).

(** The candidates of the topology; for one node any simple cycle that is long enough. *)
Definition direct_candidates : result (list Cycle) :=
  if distributed then
    get_llama_cpp_direct_candidate_cycles env now fromisoformat t memory (pi_min_nodes command)
      required_nodes records
  else Ok (filter (λ c : Cycle, pi_min_nodes command ≤ Z.of_nat (length c)) (get_cycles t)).

Definition no_candidates : exn :=
  let available_nodes := Z.of_nat (length (nodes t)) in
  let connection_count := Z.of_nat (length (connections t)) in
  if distributed then
    if _has_failed_llama_cpp_rpc_record then no_usable_route
    else ValueError (_llama_cpp_unavailable_message (mc_model_id card) (pi_min_nodes command)
                       available_nodes connection_count (_visible_relay_count node_identities))
  else
    ValueError ("Model " ++ mc_model_id card ++ " requires at least "
                ++ str_of_Z (pi_min_nodes command)
                ++ " routable node(s), but topology currently exposes "
                ++ str_of_Z available_nodes ++ " node(s) and " ++ str_of_Z connection_count
                ++ " connection(s).")%string.

Definition candidate_cycles_for : result (list Cycle) :=
  direct_candidate_cycles ← direct_candidates;
  let candidates :=
    filter (λ c : Cycle, required_nodes ⊆ list_to_set c) direct_candidate_cycles in
  candidates ←
    match candidates with
    | [] =>
        if distributed
        then get_llama_cpp_relay_candidate_cycles t memory overlay_peers node_identities
               (pi_min_nodes command) required_nodes
        else
          overlay ← _overlay_connected_candidate_cycles t memory overlay_peers
                      (pi_min_nodes command) required_nodes;
          match (overlay : list Cycle), direct_candidate_cycles with
          | [], _ :: _ =>
              if bool_decide (required_nodes = ∅) then Ok []
              else Err (ValueError
                     ("No cycle satisfies required nodes ["
                      ++ join ", " (map repr_str (sorted_ids required_nodes)) ++ "] for model "
                      ++ mc_model_id card ++ ".")%string)
          | _, _ => Ok overlay
          end
    | _ => Ok candidates
    end;
  match candidates with [] => Err no_candidates | _ => Ok candidates end.

(** The cycles with enough memory that the model can run on. *)
Definition memory_filtered (candidates : list Cycle) : result (list Cycle) :=
  match filter_cycles_by_memory candidates memory (mc_storage_size card) with
  | [] => Err (ValueError "No cycles found with sufficient memory")
  | cycles =>
      if String.eqb (mc_model_id card) "deepseek-ai/DeepSeek-V3.1-GGUF"
      then Err (ValueError "Pipeline parallelism is not supported for DeepSeek V3.1 (8-bit)")
      else if startswith "Gemma 4" (mc_base_model card) then
        match filter (λ c : Cycle, length c = 1%nat) cycles with
        | [] => Err (ValueError "Pipeline parallelism is not supported for Gemma 4; use tensor parallelism instead.")
        | single => Ok single
        end
      else Ok cycles
  end.

Definition preferred_cycles (cycles : list Cycle) : list Cycle :=
  let smallest_cycles := get_smallest_cycles cycles in
  let cycles_with_leaf_nodes := filter (λ c, existsb (node_is_leaf t) c = true) smallest_cycles in
  map (_canonical_cycle_for_model memory)
    (match cycles_with_leaf_nodes with [] => smallest_cycles | _ => cycles_with_leaf_nodes end).

(** Keep the cycles that pass; raise when none does. *)
Definition keep_or (keep : Cycle → bool) (e : exn) (cycles : list Cycle) : result (list Cycle) :=
  match filter (λ c, keep c = true) cycles, cycles with
  | [], _ :: _ => Err e
  | kept, _ => Ok kept
  end.

(** When every cell is risky over a WAN, the transport of CAI itself may still carry it. *)
Definition owned_ready (cycle : Cycle) : bool :=
  match _cycle_cai_owned_transport_route_readiness cycle with Some (ready, _) => ready | None => false end
  && bool_decide (_cycle_cai_owned_worker_readiness cycle node_identities = []).

Definition owned_blockers (cycle : Cycle) : list string :=
  match _cycle_cai_owned_transport_route_readiness cycle with
  | Some (_, reasons) => reasons
  | None => []
  end ++ _cycle_cai_owned_worker_readiness cycle node_identities.

Definition no_owned_route (cycles : list Cycle) : exn :=
  let blockers := dedup_keep_first [] (cycles ≫= owned_blockers) in
  ValueError
    ("No CAI-owned transport route proof remains for the selected WAN-risky llama.cpp worker set. CAI-owned generation is enabled, but every required DAG hop and worker readiness check must pass before placement."
     ++ (match blockers with [] => "" | _ => " " ++ join "; " (take 3 blockers) end))%string.

Definition route_filtered (cycles : list Cycle) : result (list Cycle) :=
  cycles ← keep_or (λ c, negb (_cycle_has_failed_llama_cpp_rpc_route c)) no_usable_route cycles;
  cycles ←
    (if _requires_llama_cpp_rpc_proof command
     then keep_or (λ c, negb (_cycle_has_unproven_llama_cpp_rpc_route c)) no_proven_route cycles
     else Ok cycles);
  match filter (λ c, negb (_cycle_has_wan_risky_llama_cpp_compute_cell c) = true) cycles, cycles with
  | [], _ :: _ =>
      if _cai_owned_transport_generation_enabled env
      then keep_or owned_ready (no_owned_route cycles) cycles
      else Err no_low_latency_cell
  | low_latency_cycles, _ => Ok low_latency_cycles
  end.

(** The key of [max]: compared from left to right. *)
Record cycle_score := {
  cs_cell : Z * Z;
  cs_health : Z * Z * Z;
  cs_ready_nodes : Z;
  cs_coverage : Q;
  cs_download : Q;
  cs_memory : Z
}.

Definition score_of (cycle : Cycle) : cycle_score :=
  let '(ready_nodes, coverage) := _cycle_chunk_coverage_score cycle command memory in
  {| cs_cell := _cycle_compute_cell_score cycle;
     cs_health := _cycle_route_health_score cycle;
     cs_ready_nodes := ready_nodes; cs_coverage := coverage;
     cs_download := _cycle_download_score cycle (mc_model_id card) download_status;
     cs_memory := sumZ (map (ram_or_0 memory) cycle) |}.

Definition score_leb (a b : cycle_score) : bool :=
  let zs s := [KI (cs_cell s).1; KI (cs_cell s).2; KI (cs_health s).1.1; KI (cs_health s).1.2;
               KI (cs_health s).2; KI (cs_ready_nodes s)] in
  match key_compare (zs a) (zs b) with
  | Lt => true
  | Gt => false
  | Eq =>
      match Qcompare (cs_coverage a) (cs_coverage b) with
      | Lt => true
      | Gt => false
      | Eq =>
          match Qcompare (cs_download a) (cs_download b) with
          | Lt => true
          | Gt => false
          | Eq => cs_memory a <=? cs_memory b
          end
      end
  end.

Definition select_cycle : result Cycle :=
  candidates ← candidate_cycles_for;
  cycles ← memory_filtered candidates;
  cycles ← route_filtered (preferred_cycles cycles);
  match cycles with
  | [] => Err (ValueError "max() iterable argument is empty")
  | c :: cs => Ok (first_max (λ a b, score_leb (score_of a) (score_of b)) c cs)
  end.

(** ** Building the instance *)

Definition get_subgraph_from_nodes (node_ids : list string) : Topology :=
  foldl (λ g c, if bool_decide (source c ∈ node_ids) && bool_decide (sink c ∈ node_ids)
                then add_connection c g else g)
    (foldl (λ g n, add_node n g) empty_topology node_ids) (connections t).

Definition _validate_private_pipeline_layer_distribution (model_id : string)
    (assignments : ShardAssignments) : result unit :=
  let model_card := head (map (λ rs, sh_model_card rs.2) (as_runner_to_shard assignments)) in
  let minimum_layers :=
    private_network_model_min_pipeline_layers_per_node policy model_id model_card in
  if negb (is_private_network_model policy model_id model_card) || (minimum_layers <=? 1) then Ok tt
  else
    let too_small :=
      omap (λ nr : string * string,
        rs ← head (filter (λ rs, rs.1 = nr.2) (as_runner_to_shard assignments));
        let layer_count := Z.max (end_layer rs.2 - start_layer rs.2) 0 in
        if bool_decide (sh_kind rs.2 = PipelineShardMetadata) && (layer_count <? minimum_layers)
        then Some (nr.1 ++ "=" ++ str_of_Z layer_count)%string else None)
        (as_node_to_runner assignments) in
    match too_small with
    | [] => Ok tt
    | _ => Err (private_error model_id
                  ("requires at least " ++ str_of_Z minimum_layers
                   ++ " pipeline layer(s) per node, but current placement would assign too few: "
                   ++ join ", " too_small ++ ".")%string)
    end.

(** The coordinator must have a direct or a relayed way to every other node. *)
Definition check_coordinator_host (coordinator : string) (hosts : list Host)
    (planned_relay_sinks : list string) (ri : nat * string) : result unit :=
  let '(idx, other_node_id) := ri in
  match bool_decide (other_node_id = coordinator), hosts !! idx with
  | true, _ | _, None => Ok tt
  | false, Some host =>
      if ((host_port host <=? 0) || bool_decide (host_ip host ∈ ["0.0.0.0"; "198.51.100.1"]))
         && negb (bool_decide (other_node_id ∈ planned_relay_sinks))
      then Err (ValueError
             ("llama.cpp relay fallback identified a candidate worker set, but the coordinator could not derive executable direct or relay transport for node "
              ++ other_node_id ++ ".")%string)
      else Ok tt
  end.

Definition build_instance (cycle : Cycle) (instance_id : string) (ephemeral_port : Z)
  : result Instance :=
  assignments ← get_shard_assignments policy fresh card memory cycle (pi_sharding command);
  _ ← _validate_private_pipeline_layer_distribution (mc_model_id card) assignments;
  let cycle_digraph := get_subgraph_from_nodes cycle in
  relay_routes_by_node ←
    get_llama_cpp_relay_routes_by_node env now fromisoformat cycle cycle_digraph ephemeral_port
      node_network node_identities overlay_peers records;
  hosts_by_node ←
    get_llama_cpp_hosts_by_node url_hostname records cycle_digraph ephemeral_port node_network
      node_identities relay_routes_by_node cycle;
  let coordinator := default "" (head cycle) in
  let coordinator_hosts :=
    default [] (snd <$> head (filter (λ kv, kv.1 = coordinator) hosts_by_node)) in
  let planned_relay_sinks :=
    map lr_sink_node_id (relay_routes_of relay_routes_by_node coordinator) in
  _ ← foldM (λ _ ri, check_coordinator_host coordinator coordinator_hosts planned_relay_sinks ri)
        tt (enumerate cycle);
  Ok {| RuntimeState.instance_id := instance_id; sa_model_id := as_model_id assignments;
        runner_to_shard := as_runner_to_shard assignments;
        node_to_runner := as_node_to_runner assignments;
        instance_kind :=
          MlxRingInstance hosts_by_node ephemeral_port relay_routes_by_node
            (get_cai_api_urls_by_node node_identities relay_routes_by_node cycle) |}.
End place.

Definition place_instance (command : PlaceInstance) (t : Topology)
    (current_instances : gmap string Instance) (node_memory : gmap string MemoryReading)
    (node_network : gmap string NodeNetworkInfo) (node_identities : gmap string NodeIdentity)
    (overlay_peers : gmap string (list string)) (required_nodes : gset string)
    (download_status : gmap string (list DownloadProgress)) (new_id : string) (port_draw : Z)
  : result (gmap string Instance) :=
  let card := pi_model_card command in
  let memory := _effective_node_memory_for_model policy card node_memory in
  '(effective_sharding, effective_min_nodes) ←
    enforce_private_network_model_request policy (mc_model_id card) (pi_sharding command)
      (pi_min_nodes command) (Some card) (Some (Z.of_nat (size memory)));
  let command := {| pi_model_card := card; pi_sharding := effective_sharding;
                    pi_instance_meta := pi_instance_meta command;
                    pi_min_nodes := effective_min_nodes |} in
  if bool_decide (pi_instance_meta command ≠ LlamaCppMeta)
  then Err (ValueError "llama.cpp models require the LlamaCpp instance backend")
  else if bool_decide (pi_sharding command ≠ Pipeline)
  then Err (ValueError "llama.cpp backend currently supports Pipeline sharding only")
  else
    cycle ← select_cycle t node_identities overlay_peers required_nodes download_status memory command;
    inst ← build_instance t node_network node_identities overlay_peers memory command cycle new_id
             (random_ephemeral_port port_draw);
    Ok (<[new_id := inst]> current_instances).
End placement.

(** ** Transitions *)

Definition delete_instance (instance_id : string) (current_instances : gmap string Instance)
  : result (gmap string Instance) :=
  match current_instances !! instance_id with
  | Some _ => Ok (delete instance_id current_instances)
  | None => Err (ValueError ("Instance " ++ instance_id ++ " not found")%string)
  end.

Section transitions.
(** The order in which Python walks a dict: its items in some order. *)
Context (items : ∀ A : Type, gmap string A → list (string * A)).

Definition cancelled_tasks (instance_id : string) (tasks : gmap string Task) : list Event :=
  omap (λ kv : string * Task,
    if bool_decide (task_instance_id kv.2 = instance_id)
       && bool_decide (task_status kv.2 ∈ [Pending; Running])
    then Some (TaskStatusUpdated (task_id kv.2) Cancelled) else None) (items _ tasks).

Definition get_transition_events (current_instances target_instances : gmap string Instance)
    (tasks : gmap string Task) : list Event :=
  omap (λ kv : string * Instance,
    match current_instances !! kv.1 with
    | None => Some (InstanceCreated kv.2)
    | Some _ => None
    end) (items _ target_instances)
  ++ (items _ current_instances ≫= λ kv : string * Instance,
        match target_instances !! kv.1 with
        | None => cancelled_tasks kv.1 tasks ++ [InstanceDeleted kv.1]
        | Some _ => []
        end).

(** A [CancelDownload] command. *)
Record CancelDownload := { cd_target_node_id : string; cd_model_id : string }.
#[export] Instance cancel_download_eq_dec : EqDecision CancelDownload.
Proof. solve_decision. Defined.

(** The model each node of an instance runs; a runner without a shard raises. *)
Definition active_of (instance : Instance) : result (list (string * string)) :=
  mapM_r (λ nr : string * string,
    match head (filter (λ rs, rs.1 = nr.2) (runner_to_shard instance)) with
    | Some rs => Ok (nr.1, sh_model_id rs.2)
    | None => Err (KeyError nr.2)
    end) (node_to_runner instance).

Definition cancel_unnecessary_downloads (instances : gmap string Instance)
    (download_status : gmap string (list DownloadProgress)) : result (list CancelDownload) :=
  let currently_downloading :=
    items _ download_status ≫= λ kv,
      map (λ p, (kv.1, dp_model_id p)) (filter (λ p, dp_kind p = DownloadOngoing) kv.2) in
  active ← mapM_r (λ kv : string * Instance, active_of kv.2) (items _ instances);
  Ok (omap (λ pair : string * string,
        if bool_decide (pair ∈ concat active) then None
        else Some {| cd_target_node_id := pair.1; cd_model_id := pair.2 |}) currently_downloading).
End transitions.
