(* ===== verification/MasterCommands.v ===== *)
(** * Commands and plans of the master

    The command processor and the plan loop of [master/main.py]: what a command does to the
    master, which events it sends, and when nodes and instances are given up.  The task and
    instance ids a command draws, the port and the clock are arguments.  Commands the
    processor answers only with a log line leave the master as it is. *)
From Stdlib Require Import QArith.
From S2P Require Import Prelude.
From S2P Require Import PyStr.
From S2P Require Import PyVal.
From S2P Require Import PyOrder.
From S2P Require Import Money.
From S2P Require Import EventBuffer.
From S2P Require Import Topology.
From S2P Require Import RuntimeState.
From S2P Require Import Replication.
From S2P Require Import NetworkModelPolicy.
From S2P Require Import RouteHealth.
From S2P Require Import ShardAssignment.
From S2P Require Import PlacementRoutes.
From S2P Require Import Placement.
Local Open Scope Z_scope.
Set Default Proof Using "Type".

Inductive Command :=
| TestCommand
| TextGenerationCommand (command_id model : string) (total_input_chunks : Z) (task_params : pyval)
| ImageGenerationCommand (command_id model : string) (task_params : pyval)
| ImageEditsCommand (command_id model : string) (total_input_chunks : Z) (task_params : pyval)
| DeleteInstanceCommand (instance_id : string)
| PlaceInstanceCommand (place : PlaceInstance)
| CreateInstanceCommand (instance : Instance)
| SendInputChunk (command_id : string) (chunk : pyval)
| TaskCancelled (cancelled_command_id : string)
| TaskFinished (finished_command_id : string)
| AddCustomModelCard (model_card : pyval)
| DeleteCustomModelCard (model_id : string)
| RequestEventLog (since_idx : nat).

(** The master with what only its command processor keeps. *)
Record Commander := {
  cm_master : Master;
  cm_command_task_mapping : gmap string string;
  cm_download_commands : list CancelDownload
}.

Definition with_master (m : Master) (c : Commander) : Commander :=
  {| cm_master := m; cm_command_task_mapping := cm_command_task_mapping c;
     cm_download_commands := cm_download_commands c |}.

Definition set_emitted (events : list Event) (m : Master) : Master :=
  {| ms_node_id := ms_node_id m; ms_state := ms_state m; ms_log := ms_log m;
     ms_buffer := ms_buffer m; ms_pending_traces := ms_pending_traces m;
     ms_expected_ranks := ms_expected_ranks m; ms_sent := ms_sent m;
     ms_emitted := ms_emitted m ++ events |}.

Definition set_expected_ranks (ranks : gmap string (gset Z)) (m : Master) : Master :=
  {| ms_node_id := ms_node_id m; ms_state := ms_state m; ms_log := ms_log m;
     ms_buffer := ms_buffer m; ms_pending_traces := ms_pending_traces m;
     ms_expected_ranks := ranks; ms_sent := ms_sent m; ms_emitted := ms_emitted m |}.

Definition send_global (events : list GlobalForwarderEvent) (m : Master) : Master :=
  {| ms_node_id := ms_node_id m; ms_state := ms_state m; ms_log := ms_log m;
     ms_buffer := ms_buffer m; ms_pending_traces := ms_pending_traces m;
     ms_expected_ranks := ms_expected_ranks m; ms_sent := ms_sent m ++ events;
     ms_emitted := ms_emitted m |}.

(** [for event in generated_events: await self.event_sender.send(event)] *)
Definition emit (events : list Event) (c : Commander) : Commander :=
  with_master (set_emitted events (cm_master c)) c.

Section commands.
Context (env : Environ) (now : Z) (fromisoformat : string → option Z).
Context (simple_cycles : list string → list Connection → list (list string)).
Context (url_hostname : string → result (option string)).
Context (policy : PrivateNetworkModelPolicy).
Context (chunk_coverage : string → option (string → Z → Z → option (Z * Z * bool))).
Context (owned_route_readiness : Z → string → list string → list RouteHealthRecord →
         option (bool * list string)).
Context (items : ∀ A : Type, gmap string A → list (string * A)).
(** [CAI_TRACING_ENABLED] and the size of a batch of a log reply. *)
Context (tracing_enabled : bool) (batch : nat).

(** ** Generation tasks *)

(** The number of tasks of an instance. *)
Definition task_count (s : State) (inst : string) : Z :=
  Z.of_nat (length (filter (λ kv : string * Task, task_instance_id kv.2 = inst) (items _ (tasks s)))).

(** [instance_task_counts]: the instances that run the model, in the order of the dict. *)
Definition instance_task_counts (s : State) (model : string) : list (string * Z) :=
  omap (λ kv : string * Instance,
    if bool_decide (sa_model_id kv.2 = model)
    then Some (RuntimeState.instance_id kv.2, task_count s (RuntimeState.instance_id kv.2)) else None)
    (items _ (instances s)).

(** [sorted(counts, key=...)[0]] *)
Definition least_loaded (counts : list (string * Z)) : option string :=
  match counts with
  | [] => None
  | x :: l => Some (first_min (λ a b : string * Z, a.2 <=? b.2) x l).1
  end.

Definition generation_task (kind : TaskKind) (task_id inst : string) (task_params : pyval) : Task := {|
  task_kind := kind; RuntimeState.task_id := task_id; task_status := Pending;
  task_instance_id := inst; error_type := None; error_message := None;
  task_rest := task_params |}.

(** The ranks whose traces a task of an instance waits for. *)
Definition ranks_of (inst : Instance) : gset Z :=
  list_to_set (map (λ rs, device_rank rs.2) (runner_to_shard inst)).

Definition expect_traces (task_id inst : string) (m : Master) : Master :=
  if tracing_enabled then
    match instances (ms_state m) !! inst with
    | Some i => set_expected_ranks (<[task_id := ranks_of i]> (ms_expected_ranks m)) m
    | None => m
    end
  else m.

(** The three generation commands: a task on the instance with the fewest. *)
Definition start_generation (kind : TaskKind) (traced : bool) (command_id model : string)
    (task_params : pyval) (new_task_id : string) (c : Commander) : result Commander :=
  match least_loaded (instance_task_counts (ms_state (cm_master c)) model) with
  | None => Err (ValueError ("No instance found for model " ++ model)%string)
  | Some inst =>
      let m := cm_master c in
      let m := if traced then expect_traces new_task_id inst m else m in
      Ok (emit [TaskCreated new_task_id (generation_task kind new_task_id inst task_params)]
            {| cm_master := m;
               cm_command_task_mapping := <[command_id := new_task_id]> (cm_command_task_mapping c);
               cm_download_commands := cm_download_commands c |})
  end.

(** ** The processor *)

(** The ids drawn for runners, and the one id and the port a command may need. *)
Record Draws := { dr_runner_ids : nat → string; dr_id : string; dr_port : Z }.

Definition run_command (d : Draws) (command : Command) (c : Commander) : result Commander :=
  let m := cm_master c in
  let s := ms_state m in
  let transition target := get_transition_events items (instances s) target (tasks s) in
  match command with
  | TestCommand => Ok c
  | TextGenerationCommand command_id model chunks params =>
      start_generation (TextGeneration command_id chunks) false command_id model params (dr_id d) c
  | ImageGenerationCommand command_id model params =>
      start_generation (ImageGeneration command_id) true command_id model params (dr_id d) c
  | ImageEditsCommand command_id model chunks params =>
      start_generation (ImageEdits command_id chunks) true command_id model params (dr_id d) c
  | DeleteInstanceCommand i =>
      placement ← delete_instance i (instances s);
      cancelled ← cancel_unnecessary_downloads items placement (downloads s);
      Ok (emit (transition placement)
            {| cm_master := m; cm_command_task_mapping := cm_command_task_mapping c;
               cm_download_commands := cm_download_commands c ++ cancelled |})
  | PlaceInstanceCommand place =>
      placement ←
        place_instance env now fromisoformat simple_cycles url_hostname policy (dr_runner_ids d)
          chunk_coverage owned_route_readiness [] place (topology s) (instances s) (node_memory s)
          (node_network s) (node_identities s) (overlay_peers s) ∅ (downloads s) (dr_id d)
          (dr_port d);
      Ok (emit (transition placement) c)
  | CreateInstanceCommand instance =>
      Ok (emit (transition (add_instance_to_placements instance (instances s))) c)
  | SendInputChunk command_id chunk => Ok (emit [InputChunkReceived command_id chunk] c)
  | TaskCancelled cancelled_command_id =>
      Ok (match cm_command_task_mapping c !! cancelled_command_id with
          | Some task_id => emit [TaskStatusUpdated task_id Cancelled] c
          | None => c
          end)
  | TaskFinished finished_command_id =>
      Ok (match cm_command_task_mapping c !! finished_command_id with
          | Some task_id =>
              emit [TaskDeleted task_id]
                {| cm_master := m;
                   cm_command_task_mapping :=
                     delete finished_command_id (cm_command_task_mapping c);
                   cm_download_commands := cm_download_commands c |}
          | None => c
          end)
  | AddCustomModelCard card => Ok (emit [CustomModelCardAdded card] c)
  | DeleteCustomModelCard model_id => Ok (emit [CustomModelCardDeleted model_id] c)
  | RequestEventLog since => Ok (with_master (send_global (resend batch since m) m) c)
  end.

(** [except ValueError]: the command is dropped; any other exception ends the processor. *)
Definition _command_processor (d : Draws) (command : Command) (c : Commander) : result Commander :=
  match run_command d command c with
  | Ok c' => Ok c'
  | Err (ValueError _) => Ok c
  | Err e => Err e
  end.

(** ** The plan loop *)

Definition _live_node_ids (m : Master) : gset string :=
  let s := ms_state m in
  {[ms_node_id m]} ∪ dom (last_seen s) ∪ dom (node_identities s) ∪ dom (node_memory s)
  ∪ dom (node_network s) ∪ dom (node_disk s) ∪ dom (overlay_peers s)
  ∪ list_to_set (concat (map snd (map_to_list (overlay_peers s)))).

Definition _direct_overlay_peer_ids (m : Master) : gset string :=
  let peers := overlay_peers (ms_state m) in
  list_to_set (default [] (peers !! ms_node_id m))
  ∪ dom (filter (λ kv : string * list string, ms_node_id m ∈ kv.2) peers).

(** The instances with a node that is not live. *)
Definition broken_instances (m : Master) : list string :=
  let connected_node_ids := _live_node_ids m in
  omap (λ kv : string * Instance,
    if existsb (λ nr : string * string, bool_decide (nr.1 ∉ connected_node_ids))
         (node_to_runner kv.2)
    then Some kv.1 else None) (items _ (instances (ms_state m))).

(** [now - time <= timedelta(seconds=30)], in microseconds. *)
Definition silent (m : Master) : list string :=
  let direct_overlay_peer_ids := _direct_overlay_peer_ids m in
  omap (λ kv : string * Z,
    if bool_decide (kv.1 = ms_node_id m) || (now - kv.2 <=? 30 * 1000000)
       || bool_decide (kv.1 ∈ direct_overlay_peer_ids) then None
    else Some kv.1) (items _ (last_seen (ms_state m))).

Definition _plan_once (m : Master) : list Event :=
  map InstanceDeleted (broken_instances m) ++ map NodeTimedOut (silent m).
End commands.
