(* ===== verification/MasterProps.v ===== *)
(** * What the master's commands do to the cluster

    The events a command makes the master send, applied to the state, have the effect the
    command asks for, and nothing else changes. *)
From Stdlib Require Import QArith.
From S2P Require Import Prelude.
From S2P Require Import PyStr.
From S2P Require Import PyVal.
From S2P Require Import PyOrder.
From S2P Require Import Money.
From S2P Require Import EventBuffer.
From S2P Require Import Topology.
From S2P Require Import RuntimeState.
From S2P Require Import Replication.
From S2P Require Import NetworkModelPolicy.
From S2P Require Import RouteHealth.
From S2P Require Import ShardAssignment.
From S2P Require Import PlacementRoutes.
From S2P Require Import Placement.
From S2P Require Import MasterCommands.
Local Open Scope Z_scope.
Set Default Proof Using "Type".

(** ** Events on instances and tasks *)

Section transitions.
Context (fromisoformat : string → result Z).
Context (simple_cycles : list string → list Connection → list (list string)).
Context (set_order : gset string → list string).

Definition run_all (s : State) (events : list Event) : result State :=
  foldM (λ s e, event_apply fromisoformat simple_cycles set_order e s) s events.

(** The state with other instances and tasks. *)
Definition upd (i : gmap string Instance) (t : gmap string Task) (s : State) : State :=
  set_instances i (set_tasks t s).

Lemma upd_same s : upd (instances s) (tasks s) s = s.
Proof. by destruct s. Qed.

Definition transition_event (e : Event) : Prop :=
  match e with
  | InstanceCreated _ | InstanceDeleted _ | TaskStatusUpdated _ _ | TaskCreated _ _
  | TaskDeleted _ => True
  | _ => False
  end.

Definition instance_step (m : gmap string Instance) (e : Event) : gmap string Instance :=
  match e with
  | InstanceCreated i => <[instance_id i := i]> m
  | InstanceDeleted k => delete k m
  | _ => m
  end.

Definition task_step (m : gmap string Task) (e : Event) : gmap string Task :=
  match e with
  | TaskStatusUpdated k st => alter (with_status st) k m
  | TaskCreated k t => <[k := t]> m
  | TaskDeleted k => delete k m
  | _ => m
  end.

Lemma event_apply_upd e i t s :
  transition_event e →
  event_apply fromisoformat simple_cycles set_order e (upd i t s)
  = Ok (upd (instance_step i e) (task_step t e) s).
Proof.
  destruct e as [| |k st| | | | | | | | | | | | | | | | | | | |]; cbn; try done. intros _.
  unfold apply_task_status_updated. cbn. do 2 f_equal. unfold upd.
  assert (alter (with_status st) k t = match t !! k with Some x => <[k := with_status st x]> t | None => t end) as ->.
  { apply map_eq. intros j. destruct (t !! k) as [x|] eqn:E, (decide (j = k)) as [->|];
      by rewrite ?lookup_alter_eq, ?lookup_alter_ne, ?lookup_insert_eq, ?lookup_insert_ne, ?E by done. }
  by destruct (t !! k).
Qed.

Lemma run_all_upd events : ∀ i t s,
  Forall transition_event events →
  run_all (upd i t s) events = Ok (upd (foldl instance_step i events) (foldl task_step t events) s).
Proof.
  induction events as [|e events IH]; intros i t s H; [done|].
  apply Forall_cons in H as [He H]. unfold run_all. cbn [foldM]. rewrite event_apply_upd by done.
  by apply IH.
Qed.

End transitions.

(** Instances: every event writes what the target has. *)
Definition touches (k : string) (e : Event) : Prop :=
  match e with
  | InstanceCreated i => instance_id i = k
  | InstanceDeleted k' => k' = k
  | _ => False
  end.

Definition writes (target : gmap string Instance) (e : Event) : Prop :=
  match e with
  | InstanceCreated i => target !! instance_id i = Some i
  | InstanceDeleted k => target !! k = None
  | _ => True
  end.

Lemma instance_fold target events : ∀ m k,
  Forall (writes target) events →
  m !! k = target !! k ∨ (∃ e, e ∈ events ∧ touches k e) →
  foldl instance_step m events !! k = target !! k.
Proof.
  induction events as [|e events IH]; intros m k Hw Hk.
  - destruct Hk as [Hk|(e & He & _)]; [done|set_solver].
  - apply Forall_cons in Hw as [He Hw]. cbn [foldl]. apply IH; [done|].
    assert (touches k e → instance_step m e !! k = target !! k) as Ht.
    { destruct e; cbn in *; try done.
      - intros <-. by rewrite lookup_insert_eq.
      - intros <-. by rewrite lookup_delete_eq. }
    destruct Hk as [Hk|(e' & [->|He']%elem_of_cons & Hte)]; [|by left; apply Ht|by right; eexists].
    left. destruct e; cbn in *; try done.
    + destruct (decide (instance_id instance = k)) as [<-|]; [by rewrite lookup_insert_eq|].
      by rewrite lookup_insert_ne.
    + destruct (decide (instance_id = k)) as [<-|]; [by rewrite lookup_delete_eq|].
      by rewrite lookup_delete_ne.
Qed.

(** Tasks: cancelling a task twice is cancelling it once. *)
Lemma with_status_twice t : with_status Cancelled (with_status Cancelled t) = with_status Cancelled t.
Proof. by destruct t. Qed.

Definition only_cancels (e : Event) : Prop :=
  match e with
  | TaskStatusUpdated _ st => st = Cancelled
  | TaskCreated _ _ | TaskDeleted _ => False
  | _ => True
  end.

Lemma cancel_fold events : ∀ m k,
  Forall only_cancels events →
  foldl task_step m events !! k
  = if decide (TaskStatusUpdated k Cancelled ∈ events) then with_status Cancelled <$> m !! k
    else m !! k.
Proof.
  induction events as [|e events IH]; intros m k Hc; [by rewrite decide_False by set_solver|].
  apply Forall_cons in Hc as [He Hc]. cbn [foldl]. rewrite IH by done.
  destruct (decide (e = TaskStatusUpdated k Cancelled)) as [->|Hne].
  - rewrite (decide_True (P := TaskStatusUpdated k Cancelled ∈ _ :: events)) by set_solver.
    cbn. rewrite lookup_alter_eq. destruct (m !! k) as [t|]; cbn; [|by case_decide].
    rewrite with_status_twice. by case_decide.
  - assert (task_step m e !! k = m !! k) as ->.
    { destruct e; cbn in *; try done. subst. rewrite lookup_alter_ne; [done|]. congruence. }
    destruct (decide (TaskStatusUpdated k Cancelled ∈ events)), (decide (TaskStatusUpdated k Cancelled ∈ e :: events));
      set_solver.
Qed.

(** ** Transitions to a target *)

(** Instances and tasks are stored under their own ids. *)
Record ids_ok (s : State) : Prop := {
  ids_instances : ∀ k i, instances s !! k = Some i → instance_id i = k;
  ids_tasks : ∀ k t, tasks s !! k = Some t → task_id t = k
}.

(** A target that adds and removes instances but changes none. *)
Record target_ok (s : State) (target : gmap string Instance) : Prop := {
  tgt_ids : ∀ k i, target !! k = Some i → instance_id i = k;
  tgt_keeps : ∀ k i, instances s !! k = Some i → target !! k = None ∨ target !! k = Some i
}.

(** A task that waits or runs on an instance that is removed is cancelled. *)
Definition after_removal (target current : gmap string Instance) (t : Task) : Task :=
  if bool_decide (is_Some (current !! task_instance_id t)) 
     && bool_decide (target !! task_instance_id t = None)
     && bool_decide (task_status t ∈ [Pending; Running])
  then with_status Cancelled t else t.

Section reach.
Context (items : ∀ A : Type, gmap string A → list (string * A)).
Context (items_perm : ∀ A (m : gmap string A), items A m ≡ₚ map_to_list m).

Lemma elem_of_items {A} (m : gmap string A) k x : (k, x) ∈ items A m ↔ m !! k = Some x.
Proof using items_perm. rewrite items_perm. apply elem_of_map_to_list. Qed.

Lemma elem_of_transition current target tasks e :
  e ∈ get_transition_events items current target tasks ↔
    (∃ k i, e = InstanceCreated i ∧ target !! k = Some i ∧ current !! k = None)
    ∨ (∃ k i, e = InstanceDeleted k ∧ current !! k = Some i ∧ target !! k = None)
    ∨ (∃ k i j t, e = TaskStatusUpdated (task_id t) Cancelled ∧ current !! k = Some i
         ∧ target !! k = None ∧ tasks !! j = Some t ∧ task_instance_id t = k
         ∧ task_status t ∈ [Pending; Running]).
Proof using items_perm.
  unfold get_transition_events. rewrite elem_of_app, list_elem_of_omap, list_elem_of_bind. split.
  - intros [([k i] & Hi%elem_of_items & He)|([k i] & He & Hi%elem_of_items)]; cbn in He.
    + destruct (current !! k) eqn:E; [done|]. injection He as <-. left. eauto.
    + destruct (target !! k) eqn:E; [set_solver|]. right.
      apply elem_of_app in He as [He| ->%list_elem_of_singleton]; [|left; eauto].
      right. unfold cancelled_tasks in He. apply list_elem_of_omap in He as ([j t] & Ht%elem_of_items & He).
      cbn in He. destruct (bool_decide _ && bool_decide _) eqn:Eb; [|done].
      apply andb_true_iff in Eb as [E1%bool_decide_eq_true E2%bool_decide_eq_true].
      injection He as <-. by exists k, i, j, t.
  - intros [(k & i & -> & Ht & Hc)|[(k & i & -> & Hc & Ht)|(k & i & j & t & -> & Hc & Ht & Hj & Hk & Hs)]].
    + left. exists (k, i). rewrite elem_of_items. cbn. by rewrite Hc.
    + right. exists (k, i). rewrite elem_of_items. cbn. rewrite Ht. set_solver.
    + right. exists (k, i). rewrite elem_of_items. cbn. rewrite Ht. split; [|done].
      apply elem_of_app. left. unfold cancelled_tasks. apply list_elem_of_omap. exists (j, t).
      rewrite elem_of_items. cbn. by rewrite !bool_decide_eq_true_2.
Qed.

Context (fromisoformat : string → result Z).
Context (simple_cycles : list string → list Connection → list (list string)).
Context (set_order : gset string → list string).

(** The events of a transition bring the instances to the target, cancel the tasks of removed
    instances, and change nothing else. *)
Lemma transition_reaches s target :
  ids_ok s → target_ok s target →
  ∃ s', run_all fromisoformat simple_cycles set_order s
          (get_transition_events items (instances s) target (tasks s)) = Ok s'
    ∧ s' = upd target (after_removal target (instances s) <$> tasks s) s.
Proof using items_perm.
  intros [Hi Ht] [Hti Htk]. set (events := get_transition_events items (instances s) target (tasks s)).
  eexists. split; [|reflexivity]. rewrite <- (upd_same s) at 1. rewrite run_all_upd.
  2: { apply Forall_forall. intros e He%elem_of_transition. naive_solver. }
  do 2 f_equal.
  - apply map_eq. intros k. apply instance_fold.
    + apply Forall_forall. intros e He%elem_of_transition. 
      destruct He as [(k' & i & -> & Hk & _)|[(k' & i & -> & _ & Hk)|(? & ? & ? & ? & -> & _)]]; cbn; [|done..].
      by rewrite (Hti _ _ Hk).
    + destruct (instances s !! k) as [i|] eqn:Ec, (target !! k) as [j|] eqn:Et.
      * left. destruct (Htk k i Ec); congruence.
      * right. exists (InstanceDeleted k). split; [|done]. apply elem_of_transition. right. left. eauto.
      * right. exists (InstanceCreated j). split; [|by apply Hti]. apply elem_of_transition. left. eauto.
      * by left.
  - apply map_eq. intros k. rewrite lookup_fmap, cancel_fold.
    2: { apply Forall_forall. intros e He%elem_of_transition. naive_solver. }
    destruct (tasks s !! k) as [t|] eqn:Ek; cbn; [|by case_decide].
    unfold after_removal. case_decide as Hev.
    + apply elem_of_transition in Hev as [(? & ? & ? & _)|[(? & ? & ? & _)|(k' & i & j & t' & Heq & Hc & Hn & Hj & Hk' & Hs)]];
        [done..|]. injection Heq as ->. rewrite (Ht _ _ Hj) in *.
      assert (t' = t) as -> by congruence. subst k'.
      rewrite !bool_decide_eq_true_2; [done|done|done|by eexists].
    + destruct (bool_decide _ && _ && _) eqn:Eb; [|done]. exfalso. apply Hev.
      rewrite !andb_true_iff, !bool_decide_eq_true in Eb. destruct Eb as [[[i Hc] Hn] Hs].
      apply elem_of_transition. right. right. exists (task_instance_id t), i, k, t.
      rewrite (Ht _ _ Ek). done.
Qed.

Lemma after_removal_none target current t :
  (∀ k, is_Some (current !! k) → is_Some (target !! k)) → after_removal target current t = t.
Proof using.
  intros H. unfold after_removal.
  destruct (bool_decide_reflect (is_Some (current !! task_instance_id t))) as [Hs|]; [|done]. cbn.
  destruct (bool_decide_reflect (target !! task_instance_id t = None)) as [Hn|]; [|done].
  apply H in Hs. rewrite Hn in Hs. by destruct Hs.
Qed.

(** Adding an instance under an id of its own. *)
Lemma transition_adds s inst :
  ids_ok s → instances s !! instance_id inst = None →
  run_all fromisoformat simple_cycles set_order s (get_transition_events items (instances s) (<[instance_id inst := inst]> (instances s)) (tasks s))
  = Ok (upd (<[instance_id inst := inst]> (instances s)) (tasks s) s).
Proof using items_perm.
  intros Hids Hnew. set (target := <[instance_id inst := inst]> (instances s)).
  assert (target_ok s target) as Htgt.
  { split; intros k i.
    - unfold target. destruct (decide (k = instance_id inst)) as [->|]; rewrite ?lookup_insert_eq, ?lookup_insert_ne by done.
      + by intros [= <-].
      + by apply ids_instances.
    - intros Hk. right. unfold target. rewrite lookup_insert_ne; [done|congruence]. }
  destruct (transition_reaches s target Hids Htgt)
    as (s' & -> & ->).
  do 2 f_equal. rewrite <- (map_fmap_id (tasks s)) at 2. apply map_fmap_ext. intros k t _. cbn.
  apply after_removal_none. intros j Hj. unfold target.
  destruct (decide (j = instance_id inst)) as [->|]; [rewrite lookup_insert_eq; by eexists|].
  by rewrite lookup_insert_ne.
Qed.

Lemma transition_known s inst :
  ids_ok s → is_Some (instances s !! instance_id inst) →
  get_transition_events items (instances s) (<[instance_id inst := inst]> (instances s)) (tasks s) = [].
Proof using items_perm.
  intros Hids [old Hold]. destruct (get_transition_events _ _ _ _) as [|e l] eqn:E; [done|].
  assert (e ∈ e :: l) as He by set_solver. rewrite <- E in He.
  apply elem_of_transition in He.
  assert (∀ k i, instances s !! k = Some i → <[instance_id inst := inst]> (instances s) !! k = None → False) as Hno.
  { intros k i Hk. destruct (decide (k = instance_id inst)) as [->|];
      rewrite ?lookup_insert_eq, ?lookup_insert_ne by done; congruence. }
  destruct He as [(k & i & _ & Hk & Hn)|[(k & i & _ & Hk & Hn)|(k & i & j & t & _ & Hk & Hn & _)]].
  - destruct (decide (k = instance_id inst)) as [->|]; [congruence|].
    rewrite lookup_insert_ne in Hk by done. congruence.
  - by destruct (Hno k i Hk Hn).
  - by destruct (Hno k i Hk Hn).
Qed.
End reach.

(** ** What each command asks for *)

(** The number of tasks of an instance. *)
Definition load (s : State) (inst : string) : Z :=
  Z.of_nat (length (filter (λ kv : string * Task, task_instance_id kv.2 = inst)
                      (map_to_list (tasks s)))).

(** A new pending task on an instance of the model that has the fewest tasks. *)
Definition generation_effect (kind : TaskKind) (command_id model : string) (params : pyval)
    (new_id : string) (c c' : Commander) (s s' : State) : Prop :=
  ∃ k inst, instances s !! k = Some inst ∧ sa_model_id inst = model
    ∧ (∀ k' inst', instances s !! k' = Some inst' → sa_model_id inst' = model →
         load s k ≤ load s k')
    ∧ s' = upd (instances s) (<[new_id := generation_task kind new_id k params]> (tasks s)) s
    ∧ cm_command_task_mapping c' = <[command_id := new_id]> (cm_command_task_mapping c).

(** The effect of a command on the state once its events are applied, and on the mapping from
    commands to tasks. *)
Definition command_effect (d : Draws) (command : Command) (c c' : Commander) (s s' : State) : Prop :=
  match command with
  | TextGenerationCommand cid model chunks params =>
      generation_effect (TextGeneration cid chunks) cid model params (dr_id d) c c' s s'
  | ImageGenerationCommand cid model params =>
      generation_effect (ImageGeneration cid) cid model params (dr_id d) c c' s s'
  | ImageEditsCommand cid model chunks params =>
      generation_effect (ImageEdits cid chunks) cid model params (dr_id d) c c' s s'
  | DeleteInstanceCommand i =>
      is_Some (instances s !! i)
      ∧ s' = upd (delete i (instances s))
               (after_removal (delete i (instances s)) (instances s) <$> tasks s) s
  | PlaceInstanceCommand _ =>
      ∃ inst, instance_id inst = dr_id d
        ∧ s' = upd (<[dr_id d := inst]> (instances s)) (tasks s) s
  | CreateInstanceCommand inst =>
      s' = match instances s !! instance_id inst with
           | None => upd (<[instance_id inst := inst]> (instances s)) (tasks s) s
           | Some _ => s
           end
  | TaskCancelled cid =>
      s' = match cm_command_task_mapping c !! cid with
           | Some t => upd (instances s) (alter (with_status Cancelled) t (tasks s)) s
           | None => s
           end
  | TaskFinished cid =>
      s' = match cm_command_task_mapping c !! cid with
           | Some t => upd (instances s) (delete t (tasks s)) s
           | None => s
           end
      ∧ cm_command_task_mapping c' = delete cid (cm_command_task_mapping c)
  | TestCommand | SendInputChunk _ _ | AddCustomModelCard _ | DeleteCustomModelCard _
  | RequestEventLog _ => s' = s
  end.

Section commands.
Context (env : Environ) (now : Z) (iso : string → option Z).
Context (simple_cycles : list string → list Connection → list (list string)).
Context (url_hostname : string → result (option string)) (policy : PrivateNetworkModelPolicy).
Context (chunk_coverage : string → option (string → Z → Z → option (Z * Z * bool))).
Context (owned_route_readiness : Z → string → list string → list RouteHealthRecord →
         option (bool * list string)).
Context (items : ∀ A : Type, gmap string A → list (string * A)).
Context (items_perm : ∀ A (m : gmap string A), items A m ≡ₚ map_to_list m).
Context (fromisoformat : string → result Z) (set_order : gset string → list string).
Context (tracing_enabled : bool) (batch : nat).

Local Abbreviation run := (run_command env now iso simple_cycles url_hostname policy chunk_coverage
  owned_route_readiness items tracing_enabled batch).
Local Abbreviation apply_all := (run_all fromisoformat simple_cycles set_order).

Lemma task_count_load s i : task_count items s i = load s i.
Proof using items_perm. unfold task_count, load. f_equal. by rewrite items_perm. Qed.

Lemma place_instance_shape fresh records command t cur mem net ids peers req dl new_id port target :
  place_instance env now iso simple_cycles url_hostname policy fresh chunk_coverage
    owned_route_readiness records command t cur mem net ids peers req dl new_id port = Ok target →
  ∃ inst, instance_id inst = new_id ∧ target = <[new_id := inst]> cur.
Proof using.
  unfold place_instance. intros ([sharding n] & _ & H)%bind_ok. cbn in H.
  destruct (bool_decide _); [done|]. destruct (bool_decide _); [done|].
  apply bind_ok in H as (cycle & _ & H). apply bind_ok in H as (inst & Hb & [= <-]).
  exists inst. split; [|done]. unfold build_instance in Hb.
  repeat (apply bind_ok in Hb as (? & _ & Hb)). by injection Hb as <-.
Qed.

Lemma elem_of_counts s model i n :
  (i, n) ∈ instance_task_counts items s model ↔
  ∃ k inst, instances s !! k = Some inst ∧ sa_model_id inst = model ∧ i = instance_id inst
    ∧ n = load s i.
Proof using items_perm.
  unfold instance_task_counts. rewrite list_elem_of_omap. split.
  - intros ([k inst] & Hk%(elem_of_items items items_perm) & He). cbn in He.
    case_bool_decide; [|done]. injection He as <- <-. exists k, inst. by rewrite task_count_load.
  - intros (k & inst & Hk & Hm & -> & ->). exists (k, inst). split; [by apply elem_of_items|].
    cbn. by rewrite bool_decide_eq_true_2, task_count_load.
Qed.

Lemma least_loaded_spec s model i :
  ids_ok s → least_loaded (instance_task_counts items s model) = Some i →
  ∃ inst, instances s !! i = Some inst ∧ sa_model_id inst = model
    ∧ ∀ k' inst', instances s !! k' = Some inst' → sa_model_id inst' = model → load s i ≤ load s k'.
Proof using items_perm.
  intros Hids. destruct (instance_task_counts items s model) as [|x l] eqn:E; [done|].
  cbn. intros [= <-]. set (leb := λ a b : string * Z, a.2 <=? b.2). set (b := first_min leb x l).
  assert (b ∈ instance_task_counts items s model) as Hb by (rewrite E; apply first_min_elem).
  destruct b as [i n] eqn:Eb. apply elem_of_counts in Hb as (k & inst & Hk & Hm & Hi & Hn). subst i.
  rewrite (ids_instances s Hids k inst Hk) in *. exists inst. cbn. split; [done|]. split; [done|].
  intros k' inst' Hk' Hm'.
  assert ((k', load s k') ∈ x :: l) as Hin.
  { rewrite <- E. apply elem_of_counts. exists k', inst'. by rewrite (ids_instances s Hids _ _ Hk'). }
  pose proof (first_min_le leb ltac:(unfold leb; intros; lia) ltac:(unfold leb; intros; lia) x l _ Hin) as Hle.
  fold b in Hle. rewrite Eb in Hle. unfold leb in Hle. cbn in Hle. lia.
Qed.

(** A command that is carried out keeps the master's state and adds events with the effect. *)
Definition carried_out (d : Draws) (command : Command) (c c' : Commander) : Prop :=
  let s := ms_state (cm_master c) in
  ∃ events s', ms_state (cm_master c') = s
    ∧ ms_emitted (cm_master c') = ms_emitted (cm_master c) ++ events
    ∧ apply_all s events = Ok s' ∧ command_effect d command c c' s s'.

Lemma carried_emit d command c c' evs s' :
  ms_state (cm_master c') = ms_state (cm_master c) →
  ms_emitted (cm_master c') = ms_emitted (cm_master c) →
  apply_all (ms_state (cm_master c)) evs = Ok s' →
  command_effect d command c (emit evs c') (ms_state (cm_master c)) s' →
  carried_out d command c (emit evs c').
Proof using.
  intros H1 H2 H3 H4. exists evs, s'. repeat split; [exact H1| |exact H3|exact H4].
  unfold emit. cbn. by rewrite H2.
Qed.

Lemma apply_task_events s evs :
  Forall transition_event evs →
  apply_all s evs = Ok (upd (foldl instance_step (instances s) evs) (foldl task_step (tasks s) evs) s).
Proof using. intros H. rewrite <- (upd_same s) at 1. by apply run_all_upd. Qed.

Lemma generation_carried_out command kind traced cid model params d c c' :
  ids_ok (ms_state (cm_master c)) →
  (∀ x s s', generation_effect kind cid model params (dr_id d) c x s s' → command_effect d command c x s s') →
  start_generation items tracing_enabled kind traced cid model params (dr_id d) c = Ok c' →
  carried_out d command c c'.
Proof using items_perm.
  intros Hids Heff. unfold start_generation.
  destruct (least_loaded _) as [i|] eqn:El; [|done]. intros [= <-].
  destruct (least_loaded_spec _ _ _ Hids El) as (inst & Hi & Hm & Hmin).
  eapply carried_emit.
  - cbn. destruct traced; [|done]. unfold expect_traces. destruct tracing_enabled; [|done].
    by destruct (instances _ !! i).
  - cbn. destruct traced; [|done]. unfold expect_traces. destruct tracing_enabled; [|done].
    by destruct (instances _ !! i).
  - apply apply_task_events. by repeat constructor.
  - apply Heff. exists i, inst. cbn. repeat split; [done..|]. exact Hmin.
Qed.

Lemma transition_carried_out d command c placement cmds :
  let s := ms_state (cm_master c) in
  ids_ok s → target_ok s placement →
  command_effect d command c
    (emit (get_transition_events items (instances s) placement (tasks s))
       {| cm_master := cm_master c; cm_command_task_mapping := cm_command_task_mapping c;
          cm_download_commands := cmds |}) s
    (upd placement (after_removal placement (instances s) <$> tasks s) s) →
  carried_out d command c
    (emit (get_transition_events items (instances s) placement (tasks s))
       {| cm_master := cm_master c; cm_command_task_mapping := cm_command_task_mapping c;
          cm_download_commands := cmds |}).
Proof using items_perm.
  cbv zeta. intros Hids Htgt Heff.
  destruct (transition_reaches items items_perm fromisoformat simple_cycles set_order _ _ Hids Htgt)
    as (s' & Hrun & ->).
  by eapply carried_emit.
Qed.

Lemma added_carried_out d command c inst :
  let s := ms_state (cm_master c) in
  ids_ok s → instances s !! instance_id inst = None →
  (∀ c', cm_command_task_mapping c' = cm_command_task_mapping c →
     command_effect d command c c' s (upd (<[instance_id inst := inst]> (instances s)) (tasks s) s)) →
  carried_out d command c
    (emit (get_transition_events items (instances s) (<[instance_id inst := inst]> (instances s)) (tasks s)) c).
Proof using items_perm.
  cbv zeta. intros Hids Hnew Heff. eapply carried_emit; [done|done| |by apply Heff].
  by apply (transition_adds items items_perm).
Qed.

Lemma command_carried_out d command c c' :
  ids_ok (ms_state (cm_master c)) →
  match command with
  | PlaceInstanceCommand _ => instances (ms_state (cm_master c)) !! dr_id d = None
  | _ => True
  end →
  run d command c = Ok c' → carried_out d command c c'.
Proof using items_perm.
  intros Hids Hfresh.
  assert (∀ x, ms_state (cm_master x) = ms_state (cm_master c) → ms_emitted (cm_master x) = ms_emitted (cm_master c) →
    command_effect d command c x (ms_state (cm_master c)) (ms_state (cm_master c)) → carried_out d command c x) as Hnil.
  { intros x H1 H2 H3. exists [], (ms_state (cm_master c)). rewrite app_nil_r. done. }
  destruct command; cbn [run_command]; intros H.
  - injection H as <-. by apply Hnil.
  - eapply generation_carried_out; [done| |exact H]. done.
  - eapply generation_carried_out; [done| |exact H]. done.
  - eapply generation_carried_out; [done| |exact H]. done.
  - apply bind_ok in H as (placement & Hd & H). apply bind_ok in H as (cancelled & _ & [= <-]).
    unfold delete_instance in Hd. destruct (instances _ !! instance_id) as [old|] eqn:E; [|done].
    injection Hd as <-. apply transition_carried_out; [done| |].
    + split; intros k i.
      * intros [_ Hk]%lookup_delete_Some. by eapply ids_instances.
      * intros Hk. destruct (decide (k = instance_id)) as [->|]; [left; by rewrite lookup_delete_eq|].
        right. by rewrite lookup_delete_ne.
    + split; [by eexists|done].
  - apply bind_ok in H as (placement & Hp & [= <-]).
    apply place_instance_shape in Hp as (inst & Hid & ->). rewrite <- Hid in Hfresh |- *.
    apply added_carried_out; [done..|]. intros x _. cbn. exists inst. by rewrite Hid.
  - injection H as <-. unfold add_instance_to_placements.
    destruct (instances (ms_state (cm_master c)) !! RuntimeState.instance_id instance) as [old|] eqn:E.
    + rewrite (transition_known items items_perm) by (done || by eexists).
      apply Hnil; [done|cbn; by rewrite app_nil_r|]. cbn. by rewrite E.
    + apply added_carried_out; [done..|]. intros x _. cbn. by rewrite E.
  - injection H as <-. eapply carried_emit; done.
  - injection H as <-. destruct (cm_command_task_mapping c !! cancelled_command_id) as [t|] eqn:E.
    + eapply carried_emit; [done|done|apply apply_task_events; by repeat constructor|]. cbn. by rewrite E.
    + apply Hnil; [done..|]. cbn. by rewrite E.
  - injection H as <-. destruct (cm_command_task_mapping c !! finished_command_id) as [t|] eqn:E.
    + eapply carried_emit; [done|done|apply apply_task_events; by repeat constructor|]. cbn. by rewrite E.
    + apply Hnil; [done..|]. cbn. rewrite E, delete_id by done. done.
  - injection H as <-. eapply carried_emit; done.
  - injection H as <-. eapply carried_emit; done.
  - injection H as <-. by apply Hnil.
Qed.

(** The ids stay those of the keys. *)
Lemma upd_ids i t s :
  (∀ k x, i !! k = Some x → instance_id x = k) → (∀ k x, t !! k = Some x → task_id x = k) →
  ids_ok (upd i t s).
Proof using. intros H1 H2. by split. Qed.

Lemma effect_ids d command c c' s s' : ids_ok s → command_effect d command c c' s s' → ids_ok s'.
Proof using.
  intros [Hi Ht].
  assert (∀ i k x, <[instance_id i := i]> (instances s) !! k = Some x → instance_id x = k) as Hadd.
  { intros i k x. destruct (decide (k = instance_id i)) as [->|].
    - rewrite lookup_insert_eq. by intros [= <-].
    - rewrite lookup_insert_ne by done. apply Hi. }
  destruct command; cbn.
  all: try (intros ->; done).
  all: try (intros (k & inst & _ & _ & _ & -> & _); apply upd_ids; [done|];
            intros j x; destruct (decide (j = dr_id d)) as [->|];
            rewrite ?lookup_insert_eq, ?lookup_insert_ne by done; [by intros [= <-]|apply Ht]).
  - intros [_ ->]. apply upd_ids.
    + intros k x [_ Hk]%lookup_delete_Some. by apply Hi.
    + intros k x Hk. rewrite lookup_fmap in Hk. apply fmap_Some in Hk as (y & Hy & ->).
      rewrite <- (Ht k y Hy). unfold after_removal. by destruct (_ && _).
  - intros (inst & Hid & ->). rewrite <- Hid. apply upd_ids; [apply Hadd|done].
  - intros ->. destruct (instances s !! _); [done|]. apply upd_ids; [apply Hadd|done].
  - intros ->. destruct (_ !! cancelled_command_id) as [t|]; [|done]. apply upd_ids; [done|].
    intros k x. destruct (decide (k = t)) as [->|]; [|by rewrite lookup_alter_ne; [apply Ht|]].
    rewrite lookup_alter_eq. intros (y & Hy & ->)%fmap_Some. exact (Ht t y Hy).
  - intros [-> _]. destruct (_ !! finished_command_id) as [t|]; [|done]. apply upd_ids; [done|].
    intros k x [_ Hk]%lookup_delete_Some. by apply Ht.
Qed.
End commands.

(** C26: the command processor of the master carries out every command it does not reject.  A
    [ValueError] leaves the master as it was.  Otherwise the master's state is untouched, and
    the events the command adds to those it sends, applied to that state, give exactly what
    the command asks for: a generation command puts one pending task on an instance of its
    model that has the fewest tasks and remembers it for the command; a deletion removes the
    instance and cancels its waiting and running tasks; a placement or creation adds one
    instance; a cancellation and a finished command change the one task the command was
    mapped to; the rest changes nothing.  Instances and tasks stay under their own ids. *)
Theorem commands_carried_out (env : Environ) (now : Z) (iso : string → option Z)
    (simple_cycles : list string → list Connection → list (list string))
    (url_hostname : string → result (option string)) (policy : PrivateNetworkModelPolicy)
    (chunk_coverage : string → option (string → Z → Z → option (Z * Z * bool)))
    (owned_route_readiness : Z → string → list string → list RouteHealthRecord →
       option (bool * list string))
    (items : ∀ A : Type, gmap string A → list (string * A))
    (fromisoformat : string → result Z) (set_order : gset string → list string)
    (tracing_enabled : bool) (batch : nat) (d : Draws) (command : Command) (c c' : Commander) :
  (∀ A (m : gmap string A), items A m ≡ₚ map_to_list m) →
  let s := ms_state (cm_master c) in
  let run := run_command env now iso simple_cycles url_hostname policy chunk_coverage
               owned_route_readiness items tracing_enabled batch d command c in
  ids_ok s →
  match command with PlaceInstanceCommand _ => instances s !! dr_id d = None | _ => True end →
  _command_processor env now iso simple_cycles url_hostname policy chunk_coverage
    owned_route_readiness items tracing_enabled batch d command c = Ok c' →
  (∃ msg, run = Err (ValueError msg) ∧ c' = c)
  ∨ ∃ events s', ms_state (cm_master c') = s
      ∧ ms_emitted (cm_master c') = ms_emitted (cm_master c) ++ events
      ∧ run_all fromisoformat simple_cycles set_order s events = Ok s'
      ∧ command_effect d command c c' s s' ∧ ids_ok s'.
Proof.
  intros Hperm s run Hids Hfresh. unfold _command_processor. fold run.
  destruct run as [x|e] eqn:E; [intros [= ->]; right|].
  - destruct (command_carried_out _ _ _ _ _ _ _ _ items Hperm fromisoformat set_order _ _ d command
                c c' Hids Hfresh E) as (events & s' & H1 & H2 & H3 & H4).
    exists events, s'. repeat split; try done; by eapply effect_ids.
  - destruct e; try done. intros [= <-]. left. by eexists.
Qed.

(** ** A master with two instances *)

Definition demo_instance (i : string) : Instance :=
  {| instance_id := i; sa_model_id := "m"; runner_to_shard := []; node_to_runner := [];
     instance_kind := MlxRingInstance [] 50000 [] [] |}.

Definition demo_state : State :=
  upd (<["i0" := demo_instance "i0"]> {[ "i1" := demo_instance "i1" ]})
    {[ "t0" := generation_task (TextGeneration "c0" 0) "t0" "i0" VNone ]} initial_state.

Definition demo_commander : Commander :=
  {| cm_master :=
       {| ms_node_id := "n"; ms_state := demo_state; ms_log := []; ms_buffer := [];
          ms_pending_traces := ∅; ms_expected_ranks := ∅; ms_sent := []; ms_emitted := [] |};
     cm_command_task_mapping := {[ "c0" := "t0" ]}; cm_download_commands := [] |}.

Definition demo_draws : Draws := {| dr_runner_ids := str_of_nonneg ∘ Z.of_nat; dr_id := "t1"; dr_port := 50000 |}.

Definition demo_policy : PrivateNetworkModelPolicy := {|
  pp_model_ids := []; pp_minimum_nodes := 1; pp_require_pipeline_sharding := true;
  pp_disallow_single_node_fallback := true; pp_allow_single_node_bootstrap := false;
  pp_require_filtered_downloads := true; pp_minimum_ram_headroom := 0;
  pp_minimum_pipeline_layers_per_node := 2 |}.

Definition demo_process (command : Command) : result Commander :=
  _command_processor (λ _, None) 0 (λ _, None) (λ _ _, []) (λ _, Ok None) demo_policy (λ _, None)
    (λ _ _ _ _, None) (λ A m, map_to_list m) false 10 demo_draws command demo_commander.

Lemma demo_ids : ids_ok demo_state.
Proof.
  split.
  - change (map_Forall (λ k i, instance_id i = k) (instances demo_state)).
    apply map_Forall_to_list. vm_compute. repeat constructor.
  - change (map_Forall (λ k t, task_id t = k) (tasks demo_state)).
    apply map_Forall_to_list. vm_compute. repeat constructor.
Qed.

(** A generation goes to the idle instance; deleting the busy one cancels its task. *)
Lemma commands_carried_out_witness :
  (∃ c', demo_process (TextGenerationCommand "c1" "m" 0 VNone) = Ok c'
     ∧ ms_emitted (cm_master c') = [TaskCreated "t1" (generation_task (TextGeneration "c1" 0) "t1" "i1" VNone)])
  ∧ ∃ c' s', demo_process (DeleteInstanceCommand "i0") = Ok c'
     ∧ command_effect demo_draws (DeleteInstanceCommand "i0") demo_commander c' demo_state s'
     ∧ ids_ok s' ∧ task_status <$> tasks s' !! "t0" = Some Cancelled.
Proof.
  split; [eexists; split; vm_compute; reflexivity|].
  destruct (demo_process (DeleteInstanceCommand "i0")) as [c'|e] eqn:E; [|by vm_compute in E].
  destruct (commands_carried_out (λ _, None) 0 (λ _, None) (λ _ _, []) (λ _, Ok None) demo_policy
              (λ _, None) (λ _ _ _ _, None) (λ A m, map_to_list m) (λ _, Ok 0) elements false 10
              demo_draws (DeleteInstanceCommand "i0") demo_commander c' ltac:(intros A m; cbv beta; reflexivity)
              demo_ids I E) as [(msg & Hm & _)|(events & s' & _ & _ & _ & Heff & Hids)].
  - by vm_compute in Hm.
  - exists c', s'. split; [done|]. split; [exact Heff|]. split; [exact Hids|].
    destruct Heff as [_ ->]. vm_compute. reflexivity.
Defined.
