(* ===== verification/PlanProps.v ===== *)
(** * Giving up silent nodes

    The plan loop of the master: after a round the events it sent leave no instance with a
    node that was not live, and a node that was silent for more than 30 seconds is forgotten,
    so that the next round removes the instances it was part of. *)
From S2P Require Import Prelude.
From S2P Require Import PyStr.
From S2P Require Import PyVal.
From S2P Require Import EventBuffer.
From S2P Require Import Topology.
From S2P Require Import RuntimeState.
From S2P Require Import RuntimeProps.
From S2P Require Import Replication.
From S2P Require Import Placement.
From S2P Require Import MasterCommands.
From S2P Require Import MasterProps.
Local Open Scope Z_scope.
Set Default Proof Using "Type".

(** A node no part of the state speaks of. *)
Record forgotten (n : string) (s : State) : Prop := {
  fg_seen : last_seen s !! n = None;
  fg_identity : node_identities s !! n = None;
  fg_memory : node_memory s !! n = None;
  fg_network : node_network s !! n = None;
  fg_disk : node_disk s !! n = None;
  fg_peers : overlay_peers s !! n = None;
  fg_peer_of : ∀ a l, overlay_peers s !! a = Some l → n ∉ l
}.

Lemma without_peer_lookup n m a l :
  without_peer n m !! a = Some l →
  a ≠ n ∧ (n ∉ l) ∧ (∃ l0, m !! a = Some l0 ∧ (∀ x, x ∈ l → x ∈ l0)).
Proof.
  unfold without_peer. rewrite lookup_omap. intros (l0 & [Hne Hm]%lookup_delete_Some & Hl)%bind_Some.
  assert (l = filter (λ x, x ≠ n) l0) as -> by (destruct (filter (λ x, x ≠ n) l0); by inversion Hl).
  split_and!; [done| |].
  - by intros [? _]%list_elem_of_filter.
  - exists l0. split; [done|]. by intros x [_ ?]%list_elem_of_filter.
Qed.

(** Removing a list of keys is removing its tail after its head. *)
Lemma delete_decide {A} (m : gmap string A) x l k :
  (if decide (k ∈ l) then None else delete x m !! k) = if decide (k ∈ x :: l) then None else m !! k.
Proof.
  destruct (decide (k ∈ l)) as [Hl|Hl].
  - by rewrite decide_True by (apply elem_of_cons; by right).
  - destruct (decide (k = x)) as [->|Hne].
    + rewrite lookup_delete_eq, decide_True; [done|apply elem_of_cons; by left].
    + rewrite lookup_delete_ne, decide_False by (rewrite ?elem_of_cons; naive_solver). done.
Qed.

Section rounds.
Context (fromisoformat : string → result Z).
Context (simple_cycles : list string → list Connection → list (list string)).
Context (set_order : gset string → list string).
Local Abbreviation run := (run_all fromisoformat simple_cycles set_order).

(** One time-out: the node is forgotten, and what else was forgotten stays so. *)
Lemma timed_out_forgets n s s' :
  apply_node_timed_out simple_cycles set_order n s = Ok s' →
  forgotten n s' ∧ (∀ x, forgotten x s → forgotten x s')
  ∧ instances s' = instances s ∧ last_seen s' = delete n (last_seen s).
Proof using.
  unfold apply_node_timed_out. intros (cycles & _ & [= <-])%bind_ok.
  split; [|split; [|done]].
  - split; cbn; rewrite ?lookup_delete_eq; try done.
    + unfold without_peer. by rewrite lookup_omap, lookup_delete_eq.
    + intros a l Hl. by apply without_peer_lookup in Hl as (_ & ? & _).
  - intros x [H1 H2 H3 H4 H5 H6 H7]. split; cbn.
    1-5: apply lookup_delete_None; by right.
    + unfold without_peer. rewrite lookup_omap. apply bind_None. left. apply lookup_delete_None. by right.
    + intros a l (_ & _ & l0 & Hl0 & Hsub)%without_peer_lookup Hin. by apply (H7 a l0 Hl0), Hsub.
Qed.

Lemma run_app s l1 l2 s' :
  run s (l1 ++ l2) = Ok s' ↔ ∃ s1, run s l1 = Ok s1 ∧ run s1 l2 = Ok s'.
Proof using. unfold run_all. rewrite foldM_app. apply bind_ok. Qed.

Lemma run_timeouts l : ∀ s s',
  run s (map NodeTimedOut l) = Ok s' →
  (∀ n, n ∈ l → forgotten n s') ∧ (∀ n, forgotten n s → forgotten n s')
  ∧ instances s' = instances s
  ∧ (∀ k, last_seen s' !! k = if decide (k ∈ l) then None else last_seen s !! k).
Proof using.
  induction l as [|n l IH]; intros s s'; unfold run_all; cbn [map foldM].
  { intros [= <-]. split_and!; [set_solver|done|done|]. intros k. by rewrite decide_False by set_solver. }
  destruct (event_apply _ _ _ (NodeTimedOut n) s) as [s1|] eqn:E; [|done]. intros Hrun.
  cbn in E. destruct (timed_out_forgets _ _ _ E) as (Hn & Hkeep & Hi & Hs).
  destruct (IH s1 s' Hrun) as (H1 & H2 & H3 & H4). split_and!.
  - intros x [->|Hx]%elem_of_cons; eauto.
  - eauto.
  - congruence.
  - intros k. rewrite H4, Hs. apply delete_decide.
Qed.

Lemma run_deletions l s :
  run s (map InstanceDeleted l) = Ok (upd (foldl (λ m k, delete k m) (instances s) l) (tasks s) s).
Proof using.
  rewrite <- (upd_same s) at 1. rewrite run_all_upd.
  - do 2 f_equal.
    + generalize (instances s). by induction l as [|k l IH]; intros m; cbn.
    + generalize (tasks s). by induction l as [|k l IH]; intros m; cbn.
  - apply Forall_map, Forall_forall. done.
Qed.

Lemma foldl_delete_lookup {A} l : ∀ (m : gmap string A) k,
  foldl (λ m k, delete k m) m l !! k = if decide (k ∈ l) then None else m !! k.
Proof using.
  induction l as [|x l IH]; intros m k; cbn; [by rewrite decide_False by set_solver|].
  rewrite IH. apply delete_decide.
Qed.
End rounds.

(** ** Who is live, and who is given up *)

Definition with_state (s : State) (m : Master) : Master :=
  {| ms_node_id := ms_node_id m; ms_state := s; ms_log := ms_log m; ms_buffer := ms_buffer m;
     ms_pending_traces := ms_pending_traces m; ms_expected_ranks := ms_expected_ranks m;
     ms_sent := ms_sent m; ms_emitted := ms_emitted m |}.

Lemma forgotten_not_live n s m : forgotten n s → n ≠ ms_node_id m → n ∉ _live_node_ids (with_state s m).
Proof.
  intros [H1 H2 H3 H4 H5 H6 H7] Hne. unfold _live_node_ids. cbn.
  rewrite !elem_of_union, elem_of_singleton, !elem_of_dom, elem_of_list_to_set, list_elem_of_In, in_concat.
  rewrite H1, H2, H3, H4, H5, H6. intros Hlive.
  repeat destruct Hlive as [Hlive|Hlive]; try by destruct Hlive.
  destruct Hlive as (l & Hl & Hn). apply list_elem_of_In, list_elem_of_fmap in Hl as ([a l'] & -> & Ha).
  apply elem_of_map_to_list in Ha. by eapply H7, list_elem_of_In.
Qed.

Section plan.
Context (items : ∀ A : Type, gmap string A → list (string * A)).
Context (items_perm : ∀ A (m : gmap string A), items A m ≡ₚ map_to_list m).

Definition runs_on (inst : Instance) (n : string) : Prop := n ∈ map fst (node_to_runner inst).

Lemma elem_of_broken m k :
  k ∈ broken_instances items m ↔
  ∃ inst n, instances (ms_state m) !! k = Some inst ∧ runs_on inst n ∧ n ∉ _live_node_ids m.
Proof using items_perm.
  unfold broken_instances. rewrite list_elem_of_omap. split.
  - intros ([k' inst] & Hk%(elem_of_items items items_perm) & He). cbn in He.
    destruct (existsb _ _) eqn:Ex; [|done]. injection He as ->.
    apply existsb_exists in Ex as (nr & Hnr%list_elem_of_In & Hb%bool_decide_eq_true).
    exists inst, nr.1. split; [done|]. split; [|done]. unfold runs_on.
    apply list_elem_of_fmap. by exists nr.
  - intros (inst & n & Hk & Hn & Hlive). exists (k, inst). split; [by apply elem_of_items|]. cbn.
    apply list_elem_of_fmap in Hn as (nr & -> & Hnr).
    destruct (existsb _ _) eqn:Ex; [done|]. exfalso.
    assert (existsb (λ nr : string * string, bool_decide (nr.1 ∉ _live_node_ids m)) (node_to_runner inst) = true);
      [|congruence].
    apply existsb_exists. exists nr. split; [by apply list_elem_of_In|]. by apply bool_decide_eq_true_2.
Qed.

(** A node that has been silent for more than 30 seconds and is no direct peer. *)
Definition is_silent (now : Z) (m : Master) (n : string) : Prop :=
  n ≠ ms_node_id m ∧ (n ∉ _direct_overlay_peer_ids m)
  ∧ ∃ t, last_seen (ms_state m) !! n = Some t ∧ 30 * 1000000 < now - t.

Lemma elem_of_silent now m n : n ∈ silent now items m ↔ is_silent now m n.
Proof using items_perm.
  unfold silent, is_silent. rewrite list_elem_of_omap. split.
  - intros ([k t] & Hk%(elem_of_items items items_perm) & He). cbn in He.
    destruct (bool_decide_reflect (k = ms_node_id m)); [done|].
    destruct (Z.leb_spec (now - t) (30 * 1000000)); [done|].
    destruct (bool_decide_reflect (k ∈ _direct_overlay_peer_ids m)); [done|].
    injection He as <-. repeat split; [done..|]. by exists t.
  - intros (Hne & Hp & t & Ht & Hlt). exists (n, t). split; [by apply elem_of_items|]. cbn.
    rewrite !bool_decide_eq_false_2 by done. destruct (Z.leb_spec (now - t) (30 * 1000000)); [lia|done].
Qed.
End plan.

(** C27: a round of the master's plan sends a deletion for exactly the instances that have a node
    that is not live, and a time-out for exactly the other nodes that have been silent for more
    than 30 seconds and are no direct overlay peers.  Once its events are applied, every
    instance that is left runs on nodes that were live, the silent nodes are forgotten by
    every part of the state, and the nodes that were not silent are still seen.  The next
    round deletes every instance that ran on a silent node. *)
Theorem plan_round_gives_up_silent_nodes (items : ∀ A : Type, gmap string A → list (string * A))
    (fromisoformat : string → result Z)
    (simple_cycles : list string → list Connection → list (list string))
    (set_order : gset string → list string) (now : Z) (m : Master) (s' : State) :
  (∀ A (x : gmap string A), items A x ≡ₚ map_to_list x) →
  let s := ms_state m in
  let events := _plan_once now items m in
  run_all fromisoformat simple_cycles set_order s events = Ok s' →
  (∀ k, InstanceDeleted k ∈ events ↔
     ∃ inst n, instances s !! k = Some inst ∧ runs_on inst n ∧ n ∉ _live_node_ids m)
  ∧ (∀ n, NodeTimedOut n ∈ events ↔ is_silent now m n)
  ∧ (∀ k inst n, instances s' !! k = Some inst → runs_on inst n →
       instances s !! k = Some inst ∧ n ∈ _live_node_ids m)
  ∧ (∀ n, is_silent now m n → forgotten n s')
  ∧ (∀ n, ¬ is_silent now m n → last_seen s' !! n = last_seen s !! n)
  ∧ ∀ k inst n later, instances s' !! k = Some inst → runs_on inst n → is_silent now m n →
      InstanceDeleted k ∈ _plan_once later items (with_state s' m).
Proof.
  intros Hperm s events Hrun. unfold events, _plan_once in *.
  apply run_app in Hrun as (s1 & Hdel & Hout). rewrite run_deletions in Hdel. injection Hdel as <-.
  destruct (run_timeouts _ _ _ _ _ _ Hout) as (Hf & _ & Hi & Hs). cbn in Hi, Hs.
  assert (∀ k (l : list string), InstanceDeleted k ∈ map InstanceDeleted l ↔ k ∈ l) as Hmd.
  { intros k l. rewrite list_elem_of_fmap. naive_solver. }
  assert (∀ k m' t, InstanceDeleted k ∈ map InstanceDeleted (broken_instances items m') ++ map NodeTimedOut (silent t items m')
    ↔ k ∈ broken_instances items m') as Hd.
  { intros k m' t. rewrite elem_of_app, Hmd, list_elem_of_fmap. naive_solver. }
  split; [intros k; rewrite Hd; by apply elem_of_broken|].
  split.
  { intros n. rewrite elem_of_app, !list_elem_of_fmap. rewrite <- (elem_of_silent items Hperm). naive_solver. }
  split.
  { intros k inst n. rewrite Hi, foldl_delete_lookup. case_decide as Hb; [done|]. intros Hk Hn.
    split; [done|]. destruct (decide (n ∈ _live_node_ids m)) as [|Hlive]; [done|]. exfalso.
    apply Hb, (elem_of_broken items Hperm). by exists inst, n. }
  split; [intros n Hn; by apply Hf, (elem_of_silent items Hperm)|].
  split.
  { intros n Hn. rewrite Hs, decide_False; [done|]. by rewrite (elem_of_silent items Hperm). }
  intros k inst n later Hk Hn Hsil. apply Hd, (elem_of_broken items Hperm). exists inst, n.
  split; [done|]. split; [done|]. apply forgotten_not_live; [|apply Hsil].
  by apply Hf, (elem_of_silent items Hperm).
Qed.

(** A node that was last seen a minute ago, with an instance on it. *)
Definition demo_instance : Instance :=
  {| instance_id := "i"; sa_model_id := "m"; runner_to_shard := [];
     node_to_runner := [("gone", "r")]; instance_kind := MlxRingInstance [] 50000 [] [] |}.

Definition demo_last_seen : State :=
  set_last_seen {[ "n" := 60000000; "gone" := 0 ]} (upd {[ "i" := demo_instance ]} ∅ initial_state).

Definition demo_master : Master :=
  {| ms_node_id := "n"; ms_state := demo_last_seen; ms_log := []; ms_buffer := [];
     ms_pending_traces := ∅; ms_expected_ranks := ∅; ms_sent := []; ms_emitted := [] |}.

Definition demo_run : list Event → result State :=
  run_all (λ _, Ok 0) (λ _ _, []) elements demo_last_seen.

Definition demo_events (now : Z) : list Event := _plan_once now (λ A x, map_to_list x) demo_master.

Definition demo_after : State :=
  match demo_run (demo_events 60000000) with Ok s => s | Err _ => initial_state end.

Lemma plan_round_gives_up_silent_nodes_witness :
  demo_run (demo_events 60000000) = Ok demo_after
  ∧ demo_events 60000000 = [NodeTimedOut "gone"]
  ∧ InstanceDeleted "i" ∈ _plan_once 61000000 (λ A x, map_to_list x) (with_state demo_after demo_master).
Proof.
  assert (demo_run (demo_events 60000000) = Ok demo_after) as E by (vm_compute; reflexivity).
  assert (demo_events 60000000 = [NodeTimedOut "gone"]) as Hp by (vm_compute; reflexivity).
  destruct (plan_round_gives_up_silent_nodes (λ A x, map_to_list x) (λ _, Ok 0) (λ _ _, []) elements
              60000000 demo_master demo_after ltac:(intros A x; cbv beta; reflexivity) E)
    as (_ & Hout & _ & _ & _ & Hnext).
  split; [exact E|]. split; [exact Hp|].
  assert (instances demo_after !! "i" = Some demo_instance) as Hi by (vm_compute; reflexivity).
  assert (is_silent 60000000 demo_master "gone") as Hs.
  { apply Hout. change (NodeTimedOut "gone" ∈ demo_events 60000000). rewrite Hp. apply elem_of_cons. by left. }
  apply (Hnext "i" demo_instance "gone" 61000000 Hi); [|exact Hs]. apply elem_of_cons. by left.
Defined.
