(* ===== verification/RouteProps.v ===== *)
(** * Which nodes a coordinator can reach

    The adjacencies of [network_routes.py] described by the connections and overlay peers they
    come from, and the targets of a coordinator: the direct neighbours and the nodes behind one
    relay. *)
From S2P Require Import Prelude.
From S2P Require Import PyStr.
From S2P Require Import PyOrder.
From S2P Require Import Topology.
From S2P Require Import RuntimeState.
From S2P Require Import NetworkRoutes.
Set Default Proof Using "Type".

(** ** Adjacency *)

Lemma neighbours_add adj a b x y :
  y ∈ neighbours_of (add_neighbour adj a b) x ↔ y ∈ neighbours_of adj x ∨ (x = a ∧ y = b).
Proof.
  unfold neighbours_of, add_neighbour, adjacency in *. destruct (decide (x = a)) as [->|Hne].
  - rewrite lookup_insert_eq. cbn. set_solver.
  - rewrite lookup_insert_ne by done. naive_solver.
Qed.

Lemma neighbours_empty visible x : neighbours_of (empty_adjacency visible) x = ∅.
Proof.
  unfold neighbours_of, empty_adjacency, adjacency in *. rewrite lookup_gset_to_gmap.
  destruct (decide (x ∈ visible)) as [Hx|Hx].
  - by rewrite option_guard_True by done.
  - by rewrite option_guard_False by done.
Qed.

(** A loop that adds the pair of an entry when the entry passes a test. *)
Lemma neighbours_foldl {A} (skip : A → bool) (src snk : A → string) l : ∀ adj x y,
  y ∈ neighbours_of
        (foldl (λ adj c, if skip c then adj else add_neighbour adj (src c) (snk c)) adj l) x
  ↔ y ∈ neighbours_of adj x ∨ ∃ c, c ∈ l ∧ skip c = false ∧ x = src c ∧ y = snk c.
Proof.
  induction l as [|c l IH]; intros adj x y; cbn [foldl].
  - split; [by left|]. intros [?|(c & Hc & _)]; [done|set_solver].
  - rewrite IH. destruct (skip c) eqn:E; [|rewrite neighbours_add]; split.
    + intros [?|(d & Hd & ?)]; [by left|]. right. exists d. split; [by right|done].
    + intros [?|(d & [->|Hd]%elem_of_cons & Hs & ?)]; [by left|congruence|]. right. by exists d.
    + intros [[?|[-> ->]]|(d & Hd & ?)]; [by left| |]; right.
      * exists c. split; [by left|done].
      * exists d. split; [by right|done].
    + intros [?|(d & [->|Hd]%elem_of_cons & Hs & -> & ->)]; [by do 2 left|left; by right|].
      right. by exists d.
Qed.

(** A socket of the topology leads from [a] to [b]. *)
Definition socket_link (t : Topology) (a b : string) : Prop :=
  ∃ c, c ∈ connections t ∧ source c = a ∧ sink c = b ∧ is_socket (edge c).

Definition overlay_link (overlay_peers : gmap string (list string)) (a b : string) : Prop :=
  ∃ l, overlay_peers !! a = Some l ∧ b ∈ l.

Lemma socket_adjacency_spec t visible a b :
  b ∈ neighbours_of (socket_adjacency t visible) a
  ↔ a ∈ visible ∧ b ∈ visible ∧ a ≠ b ∧ socket_link t a b.
Proof.
  unfold socket_adjacency.
  rewrite (neighbours_foldl (λ c, bool_decide (source c ∉ visible) || bool_decide (sink c ∉ visible)
             || bool_decide (source c = sink c) || bool_decide (¬ is_socket (edge c)))).
  rewrite neighbours_empty. unfold socket_link. split.
  - intros [?|(c & Hc & Hs & -> & ->)]; [set_solver|].
    rewrite !orb_false_iff, !bool_decide_eq_false in Hs.
    destruct Hs as [[[H1 H2] H3] H4]. apply dec_stable in H1, H2, H4. split_and!; [done..|]. by exists c.
  - intros (Ha & Hb & Hne & c & Hc & <- & <- & He). right. exists c.
    rewrite !orb_false_iff, !bool_decide_eq_false. naive_solver.
Qed.

Lemma overlay_entry_spec visible s l adj a b :
  b ∈ neighbours_of (add_overlay_peers visible adj (s, l)) a
  ↔ b ∈ neighbours_of adj a ∨ (a = s ∧ s ∈ visible ∧ b ∈ visible ∧ b ≠ s ∧ b ∈ l).
Proof.
  unfold add_overlay_peers. case_bool_decide as Hs; [naive_solver|].
  rewrite (neighbours_foldl (λ p, bool_decide (p ∉ visible) || bool_decide (p = s)) (λ _, s) (λ p, p)).
  split.
  - intros [?|(p & Hp & Ht & -> & ->)]; [by left|right].
    rewrite orb_false_iff, !bool_decide_eq_false in Ht. destruct Ht as [Ht ?].
    apply dec_stable in Ht. done.
  - intros [?|(-> & _ & Hv & Hne & Hin)]; [by left|right]. exists b.
    rewrite orb_false_iff, !bool_decide_eq_false. naive_solver.
Qed.

Lemma overlay_adjacency_spec visible overlay_peers a b :
  b ∈ neighbours_of (overlay_adjacency visible overlay_peers) a
  ↔ a ∈ visible ∧ b ∈ visible ∧ a ≠ b ∧ overlay_link overlay_peers a b.
Proof.
  unfold overlay_adjacency.
  assert (∀ l adj, b ∈ neighbours_of (foldl (add_overlay_peers visible) adj l) a
    ↔ b ∈ neighbours_of adj a ∨ ∃ p, (a, p) ∈ l ∧ a ∈ visible ∧ b ∈ visible ∧ b ≠ a ∧ b ∈ p) as Hl.
  { induction l as [|[s p] l IH]; intros adj; cbn [foldl].
    - split; [by left|]. intros [?|(p & Hp & _)]; [done|set_solver].
    - rewrite IH, overlay_entry_spec. split.
      + intros [[?|(-> & ?)]|(q & Hq & ?)]; [by left|right; exists p|right; exists q];
          (split; [|naive_solver]); [by left|by right].
      + intros [?|(q & [[= -> ->]|Hq]%elem_of_cons & ?)]; [by do 2 left|left; right; naive_solver|].
        right. by exists q. }
  rewrite Hl, neighbours_empty. unfold overlay_link. split.
  - intros [?|(p & Hp & ? & ? & ? & ?)]; [set_solver|]. split_and!; [done..|].
    exists p. split; [by apply elem_of_map_to_list|done].
  - intros (? & ? & ? & p & Hp & ?). right. exists p. split_and!; [by apply elem_of_map_to_list|done..].
Qed.

(** ** Relays *)

(** A node that may carry the traffic of others. *)
Definition relay_capable (node_identities : gmap string NodeIdentity) (n : string) : Prop :=
  ∃ i, node_identities !! n = Some i
       ∧ (ni_relay_enabled i = Some true ∨ transport_endpoints_for i None (Some ["relay"]) false ≠ []).

Lemma elem_of_relay_capable ids n : n ∈ relay_capable_node_ids ids ↔ relay_capable ids n.
Proof.
  unfold relay_capable_node_ids, relay_capable. rewrite elem_of_dom. split.
  - intros [i [Hi Hp]%map_lookup_filter_Some]. by exists i.
  - intros (i & Hi & Hp). exists i. by apply map_lookup_filter_Some.
Qed.

Section segments.
Context (direct overlay : adjacency).

Lemma best_segment_spec a b :
  is_Some (_best_segment_type direct overlay a b)
  ↔ b ∈ neighbours_of direct a ∨ b ∈ neighbours_of overlay a.
Proof.
  unfold _best_segment_type. case_bool_decide; [split; [by left|by eexists]|].
  case_bool_decide; [split; [by right|by eexists]|]. split; [by intros [? ?]|by intros [?|?]].
Qed.

(** Whether a relay route leads from one node to the other over the given relay. *)
Definition via (a b relay : string) : Prop :=
  relay ≠ a ∧ relay ≠ b
  ∧ (relay ∈ neighbours_of direct a ∨ relay ∈ neighbours_of overlay a)
  ∧ (b ∈ neighbours_of direct relay ∨ b ∈ neighbours_of overlay relay).

Lemma relay_route_via_spec participants a b relay :
  is_Some (relay_route_via direct overlay participants a b relay) ↔ via a b relay.
Proof.
  unfold relay_route_via, via. rewrite <- !best_segment_spec.
  case_bool_decide; cbn; [split; [by intros [? ?]|by intros [? _]]|].
  case_bool_decide; cbn; [split; [by intros [? ?]|by intros (_ & ? & _)]|].
  destruct (_best_segment_type direct overlay a relay) as [x|]; cbn.
  - destruct (_best_segment_type direct overlay relay b); cbn.
    + split; [|by eexists]. intros _. split_and!; [done..|by eexists|by eexists].
    + split; [by intros [? ?]|]. by intros (_ & _ & _ & [? ?]).
  - split; [by intros [? ?]|]. by intros (_ & _ & [? ?] & _).
Qed.

Lemma best_relay_route_spec participants relays a b :
  is_Some (_best_relay_route direct overlay a b participants relays)
  ↔ ∃ relay, relay ∈ relays ∧ via a b relay.
Proof.
  unfold _best_relay_route. rewrite head_is_Some. unfold _relay_routes_for_pair. split.
  - intros Hne. destruct (sorted_by _ _) as [|r rest] eqn:E; [done|].
    assert (r ∈ r :: rest) as Hr by (by left). rewrite <- E, elem_of_sorted_by in Hr.
    apply list_elem_of_omap in Hr as (relay & Hrelay & Hvia). exists relay.
    split; [by apply elem_of_elements|]. eapply relay_route_via_spec. by eexists.
  - intros (relay & Hrelay & [r Hr]%(relay_route_via_spec participants)) Hnil.
    assert (r ∈ []) as Hin; [|by apply elem_of_nil in Hin].
    rewrite <- Hnil, elem_of_sorted_by. apply list_elem_of_omap. exists relay.
    split; [by apply elem_of_elements|done].
Qed.
End segments.

(** ** The targets of a coordinator *)

(** A segment of a relayed route: a socket or an overlay link. *)
Definition segment (t : Topology) (overlay_peers : gmap string (list string)) (a b : string)
  : Prop := a ≠ b ∧ (socket_link t a b ∨ overlay_link overlay_peers a b).

Definition relayed (t : Topology) (overlay_peers : gmap string (list string))
    (node_identities : gmap string NodeIdentity) (a b : string) : Prop :=
  ∃ relay, relay_capable node_identities relay ∧ relay ≠ a ∧ relay ≠ b
           ∧ segment t overlay_peers a relay ∧ segment t overlay_peers relay b.

Definition knows (route_nodes : gset string) (node_identities : gmap string NodeIdentity) : Prop :=
  ∀ n, relay_capable node_identities n → n ∈ route_nodes.

Lemma knows_identities s op ids : knows (s ∪ known_route_nodes op ids) ids.
Proof.
  intros n (i & Hi & _). unfold known_route_nodes. rewrite !elem_of_union. do 2 right.
  apply elem_of_dom. by exists i.
Qed.

(** Among nodes that contain both ends and all relays the route over a relay is the declarative one. *)
Lemma via_relayed t op ids route_nodes a b :
  knows route_nodes ids → a ∈ route_nodes → b ∈ route_nodes →
  (∃ relay, relay ∈ relay_capable_node_ids ids
            ∧ via (socket_adjacency t route_nodes) (overlay_adjacency route_nodes op) a b relay)
  ↔ relayed t op ids a b.
Proof.
  intros Hk Ha Hb. unfold relayed, via, segment. split.
  - intros (r & Hr%elem_of_relay_capable & Hra & Hrb & H1 & H2). exists r.
    rewrite !socket_adjacency_spec, !overlay_adjacency_spec in H1, H2. naive_solver.
  - intros (r & Hr & Hra & Hrb & [_ H1] & [_ H2]). exists r.
    rewrite elem_of_relay_capable, !socket_adjacency_spec, !overlay_adjacency_spec.
    specialize (Hk r Hr). naive_solver.
Qed.

(** A set under a dict built from the nodes. *)
Lemma neighbours_of_map (f : string → gset string) (s : gset string) n :
  neighbours_of (list_to_map (map (λ m, (m, f m)) (sorted_ids s))) n
  = if decide (n ∈ s) then f n else ∅.
Proof.
  unfold neighbours_of, adjacency.
  assert (NoDup (map (λ m, (m, f m)) (sorted_ids s)).*1) as Hnd.
  { rewrite <- list_fmap_compose. cbn. rewrite list_fmap_id. apply NoDup_sorted_ids. }
  case_decide as Hn.
  - erewrite elem_of_list_to_map_1; [done|exact Hnd|]. apply list_elem_of_fmap. exists n.
    by rewrite elem_of_sorted_ids.
  - rewrite not_elem_of_list_to_map_1; [done|].
    rewrite <- list_fmap_compose. cbn. by rewrite list_fmap_id, elem_of_sorted_ids.
Qed.

(** Adding every sink that passes a test to a set. *)
Lemma elem_of_grow {A} (keep : string → bool) (test : string → option A) (l : list string) :
  ∀ (s : gset string) k,
  k ∈ foldl (λ reachable sink,
        if keep sink || bool_decide (sink ∈ reachable) then reachable
        else match test sink with Some _ => {[sink]} ∪ reachable | None => reachable end) s l
  ↔ k ∈ s ∨ (k ∈ l ∧ keep k = false ∧ is_Some (test k)).
Proof.
  induction l as [|x l IH]; intros s k; cbn [foldl].
  - split; [by left|]. intros [?|[? _]]; [done|set_solver].
  - rewrite IH, elem_of_cons. destruct (keep x) eqn:Ek; cbn.
    { split; [intuition|]. intros [?|([->|?] & ? & ?)]; [by left|congruence|auto]. }
    case_bool_decide as Hx.
    { split; [intuition|]. intros [?|([->|?] & ? & ?)]; auto. }
    destruct (test x) as [a|] eqn:Et; rewrite ?elem_of_union, ?elem_of_singleton.
    + split.
      * intros [[->|?]|(? & ? & ?)]; [right|by left|auto]. split_and!; [by left|done|by eexists].
      * intros [?|([->|?] & ? & ?)]; auto.
    + split; [intuition|]. intros [?|([->|?] & ? & Hs)]; [by left| |auto].
      rewrite Et in Hs. by destruct Hs.
Qed.

Section reach.
Context (t : Topology) (overlay_peers : gmap string (list string)).
Context (node_identities : gmap string NodeIdentity).

Lemma reachable_targets_spec visible n k :
  k ∈ neighbours_of (llama_cpp_reachable_targets_by_source t overlay_peers node_identities visible) n
  ↔ n ∈ visible ∧ k ∈ visible ∧ k ≠ n
    ∧ (socket_link t n k ∨ relayed t overlay_peers node_identities n k).
Proof using.
  unfold llama_cpp_reachable_targets_by_source. cbv zeta. rewrite neighbours_of_map.
  set (route_nodes := visible ∪ _).
  assert (knows route_nodes node_identities) as Hk by apply knows_identities.
  assert (∀ x, x ∈ visible → x ∈ route_nodes) as Hv by (intros x Hx; apply elem_of_union; by left).
  case_decide as Hn; [|set_solver].
  unfold reachable_from. rewrite (elem_of_grow (λ k, bool_decide (k = n))).
  rewrite elem_of_intersection, socket_adjacency_spec, elem_of_sorted_ids, bool_decide_eq_false,
    best_relay_route_spec.
  split.
  - intros [[(_ & _ & Hne & Hs) Hkv]|(Hkv & Hne & Hr)]; (split_and!; [done..| |]); [done|by left|done|].
    right. eapply via_relayed; [exact Hk|by apply Hv..|done].
  - intros (_ & Hkv & Hne & [Hs|Hr]); [left|right].
    + split_and!; [by apply Hv..|done|done|done].
    + split_and!; [done..|]. by apply via_relayed; [|apply Hv..|].
Qed.
End reach.

(** ** The routes chosen for the pairs of an instance *)

Lemma relay_routes_for_pair_elem direct overlay a b participants relays r :
  r ∈ _relay_routes_for_pair direct overlay a b participants relays
  ↔ ∃ relay, relay ∈ relays ∧ relay_route_via direct overlay participants a b relay = Some r.
Proof.
  unfold _relay_routes_for_pair. rewrite elem_of_sorted_by, list_elem_of_omap.
  by setoid_rewrite elem_of_elements.
Qed.

Lemma relay_route_via_ends direct overlay participants a b relay r :
  relay_route_via direct overlay participants a b relay = Some r →
  rr_source r = a ∧ rr_sink r = b ∧ rr_transit r = relay ∧ via direct overlay a b relay.
Proof.
  intros Hr. assert (via direct overlay a b relay) as Hv
    by (apply (relay_route_via_spec _ _ participants); by eexists).
  unfold relay_route_via in Hr. destruct (_ || _); [done|].
  destruct (_best_segment_type _ _ a relay); [|done].
  destruct (_best_segment_type _ _ relay b); [|done]. by injection Hr as <-.
Qed.

Lemma least_loaded_elem routes a b counts r :
  _least_loaded_relay_route routes a b counts = Some r → r ∈ routes.
Proof. destruct routes as [|x routes]; [done|]. intros [= <-]. apply first_min_elem. Qed.

Section chosen.
Context (participants : gset string) (direct visible_direct overlay : adjacency) (relays : gset string).

Abbreviation routes_of := (λ p : string * string,
  _relay_routes_for_pair visible_direct overlay p.1 p.2 participants relays).

(** A pair that needs a relay and has one. *)
Definition served (p : string * string) : Prop :=
  (p.2 ≠ p.1 ∧ p.2 ∉ neighbours_of direct p.1) ∧ routes_of p ≠ [].
#[export] Instance served_dec p : Decision (served p).
Proof using. unfold served. apply _. Defined.

(** Without alternatives: one of its routes for each pair that is served, in order. *)
Lemma chosen_routes pairs : ∀ st,
  ∃ chosen, (foldl (pair_candidates participants direct visible_direct overlay relays false) st pairs).1
            = st.1 ++ chosen
    ∧ Forall2 (λ p r, r ∈ routes_of p) (filter served pairs) chosen.
Proof using.
  induction pairs as [|[a b] pairs IH]; intros [routes counts]; cbn [foldl].
  { exists []. split; [by rewrite app_nil_r|constructor]. }
  rewrite filter_cons. unfold pair_candidates at 2.
  destruct (_ || _) eqn:Es.
  { rewrite decide_False; [apply IH|]. intros [[H1 H2] _]. cbn in H1, H2.
    rewrite orb_true_iff, !bool_decide_eq_true in Es. by destruct Es. }
  rewrite orb_false_iff, !bool_decide_eq_false in Es.
  destruct (_least_loaded_relay_route _ a b counts) as [r|] eqn:El.
  - rewrite decide_True.
    + match goal with |- context [foldl _ (?rs, ?cs) pairs] => destruct (IH (rs, cs)) as (chosen & Hc & Hf) end.
      cbn in Hc. exists (r :: chosen). split; [by rewrite Hc, <- app_assoc|].
      constructor; [by eapply least_loaded_elem|done].
    + split; [done|]. cbn. intros Hnil. by rewrite Hnil in El.
  - rewrite decide_False; [apply IH|]. intros [_ Hne]. cbn in Hne.
    by destruct (_relay_routes_for_pair _ _ _ _ _ _).
Qed.

(** With alternatives: all the routes of all pairs that need one. *)
Lemma alternative_routes pairs r : ∀ st,
  r ∈ (foldl (pair_candidates participants direct visible_direct overlay relays true) st pairs).1
  ↔ r ∈ st.1 ∨ ∃ p, p ∈ pairs ∧ p.2 ≠ p.1 ∧ (p.2 ∉ neighbours_of direct p.1) ∧ r ∈ routes_of p.
Proof using.
  induction pairs as [|[a b] pairs IH]; intros [routes counts]; cbn [foldl].
  { split; [by left|]. intros [?|(p & Hp & _)]; [done|set_solver]. }
  rewrite IH. unfold pair_candidates. destruct (_ || _) eqn:Es; cbn [fst].
  - rewrite orb_true_iff, !bool_decide_eq_true in Es. split.
    + intros [?|(p & Hp & ?)]; [by left|right]. exists p. split; [by right|done].
    + intros [?|(p & [->|Hp]%elem_of_cons & H1 & H2 & ?)]; [by left| |right; by exists p].
      cbn in H1, H2. by destruct Es.
  - rewrite orb_false_iff, !bool_decide_eq_false in Es. destruct Es. rewrite elem_of_app. split.
    + intros [[?|Hr]|(p & Hp & ?)]; [by left|right|right].
      * exists (a, b). split_and!; [by left|done..].
      * exists p. split; [by right|done].
    + intros [?|(p & [->|Hp]%elem_of_cons & H1 & H2 & ?)]; [by do 2 left|left; by right|].
      right. by exists p.
Qed.
End chosen.

Lemma elem_of_pairs (ps : list string) p :
  p ∈ (ps ≫= λ s, map (pair s) ps) ↔ p.1 ∈ ps ∧ p.2 ∈ ps.
Proof.
  rewrite list_elem_of_bind. setoid_rewrite list_elem_of_fmap. destruct p as [a b]. cbn. split.
  - intros (x & (y & [= -> ->] & Hy) & Hx). done.
  - intros [Ha Hb]. exists a. split; [|done]. by exists b.
Qed.

Lemma NoDup_pairs (ps qs : list string) : NoDup ps → NoDup qs → NoDup (ps ≫= λ s, map (pair s) qs).
Proof.
  intros Hps Hqs. induction Hps as [|s ps Hs Hnd IH]; [constructor|]. cbn.
  apply NoDup_app. split; [|split; [|exact IH]].
  - apply NoDup_fmap_2; [|done]. by intros ?? [= ->].
  - intros [a b] (q & [= -> ->] & _)%list_elem_of_fmap (x & (y & [= -> ->] & _)%list_elem_of_fmap & Hx)%list_elem_of_bind.
    done.
Qed.

(** The participants, without blank ids. *)
Definition participants_of (participant_node_ids : list string) : gset string :=
  list_to_set (filter (λ n, strip n ≠ "") participant_node_ids).

(** A pair of participants that has no socket of its own. *)
Definition needs_relay (t : Topology) (participant_node_ids : list string) (a b : string) : Prop :=
  a ∈ participants_of participant_node_ids ∧ b ∈ participants_of participant_node_ids
  ∧ b ≠ a ∧ ¬ socket_link t a b.

Section candidates.
Context (t : Topology) (overlay_peers : gmap string (list string)).
Context (node_identities : gmap string NodeIdentity) (participant_node_ids : list string).

Abbreviation parts := (participants_of participant_node_ids).
Abbreviation visible :=
  (parts ∪ list_to_set (nodes t) ∪ known_route_nodes overlay_peers node_identities).
Abbreviation routes_of := (λ p : string * string,
  _relay_routes_for_pair (socket_adjacency t visible) (overlay_adjacency visible overlay_peers) p.1 p.2
    parts (relay_capable_node_ids node_identities)).

Lemma needs_relay_iff a b :
  needs_relay t participant_node_ids a b
  ↔ (a ∈ sorted_ids parts ∧ b ∈ sorted_ids parts)
    ∧ b ≠ a ∧ b ∉ neighbours_of (socket_adjacency t parts) a.
Proof using.
  unfold needs_relay. rewrite !elem_of_sorted_ids, socket_adjacency_spec. naive_solver.
Qed.

Lemma routes_of_relayed a b :
  a ∈ parts → b ∈ parts → routes_of (a, b) ≠ [] ↔ relayed t overlay_peers node_identities a b.
Proof using.
  intros Ha Hb. rewrite <- (via_relayed t overlay_peers node_identities visible).
  2: { intros n Hn. apply (knows_identities (parts ∪ list_to_set (nodes t)) overlay_peers), Hn. }
  2, 3: set_solver.
  rewrite <- (best_relay_route_spec _ _ parts). unfold _best_relay_route. by rewrite head_is_Some.
Qed.

Lemma one_participant a b : (size parts ≤ 1)%nat → needs_relay t participant_node_ids a b → False.
Proof using.
  intros Hs (Ha & Hb & Hne & _). apply Hne.
  assert (parts ≡ {[a]} ∨ (1 < size parts)%nat) as [He|]; [|set_solver|lia].
  destruct (decide (parts ⊆ {[a]})); [left; set_solver|right].
  assert ({[a; b]} ⊆ parts) as Hsub by set_solver. apply subseteq_size in Hsub.
  rewrite size_union, !size_singleton in Hsub by set_solver. lia.
Qed.

(** One route of [l] from [a] to [b]. *)
Definition ends (r : RelayRoute) : string * string := (rr_source r, rr_sink r).

Lemma routes_of_ends p r :
  r ∈ routes_of p →
  ends r = p ∧ relay_capable node_identities (rr_transit r)
  ∧ via (socket_adjacency t visible) (overlay_adjacency visible overlay_peers) p.1 p.2 (rr_transit r).
Proof using.
  cbv beta. rewrite relay_routes_for_pair_elem. intros (relay & Hr & Hvia).
  apply relay_route_via_ends in Hvia as (H1 & H2 & <- & Hv). destruct p. unfold ends. cbn in *.
  subst. split_and!; [done|by apply elem_of_relay_capable|done].
Qed.

Lemma alternatives_spec r :
  r ∈ relay_route_candidates t overlay_peers node_identities participant_node_ids true
  ↔ needs_relay t participant_node_ids (rr_source r) (rr_sink r) ∧ r ∈ routes_of (ends r).
Proof using.
  unfold relay_route_candidates. fold parts. cbv zeta.
  destruct (Nat.leb_spec (size parts) 1) as [Hs|Hs].
  - split; [set_solver|]. intros [Hn _]. by apply one_participant in Hn.
  - rewrite elem_of_sorted_by, alternative_routes. cbn [fst]. rewrite needs_relay_iff.
    setoid_rewrite elem_of_pairs. split.
    + intros [?|([a b] & Hp & H1 & H2 & Hr)]; [set_solver|].
      pose proof Hr as He. apply routes_of_ends in He as (He & _). unfold ends in He. injection He as <- <-.
      split; [|exact Hr]. done.
    + intros ((Hp & H1 & H2) & Hr). right. by exists (ends r).
Qed.

Lemma chosen_ends ps rs :
  Forall2 (λ p r, r ∈ routes_of p) ps rs →
  map ends rs = ps ∧ ∀ r, r ∈ rs → r ∈ routes_of (ends r).
Proof using.
  induction 1 as [|p r ps rs Hr _ [IH1 IH2]]; [split; [done|set_solver]|].
  pose proof Hr as He. apply routes_of_ends in He as (He & _). split; [cbn; congruence|].
  intros r' [->|Hr']%elem_of_cons; [by rewrite He|by apply IH2].
Qed.

Lemma chosen_spec :
  ∃ chosen, relay_route_candidates t overlay_peers node_identities participant_node_ids false ≡ₚ chosen
    ∧ (∀ r, r ∈ chosen → r ∈ routes_of (ends r)) ∧ NoDup (map ends chosen)
    ∧ ∀ a b, (a, b) ∈ map ends chosen
        ↔ needs_relay t participant_node_ids a b ∧ relayed t overlay_peers node_identities a b.
Proof using.
  unfold relay_route_candidates. fold parts. cbv zeta.
  destruct (Nat.leb_spec (size parts) 1) as [Hs|Hs].
  { exists []. split_and!; [done|set_solver|constructor|]. intros a b. cbn.
    split; [set_solver|]. intros [Hn _]. by apply one_participant in Hn. }
  match goal with |- context [foldl (pair_candidates ?p ?d ?v ?o ?rl false) ([], ∅) ?ps] =>
    destruct (chosen_routes p d v o rl ps ([], ∅)) as (chosen & Hc & Hf) end.
  exists chosen. rewrite Hc. cbn [fst app].
  apply chosen_ends in Hf as [Hends Hr].
  split_and!.
  - apply sorted_by_perm.
  - exact Hr.
  - rewrite Hends. apply NoDup_filter, NoDup_pairs; apply NoDup_sorted_ids.
  - intros a b. rewrite Hends, list_elem_of_filter, elem_of_pairs. cbn [fst snd].
    rewrite needs_relay_iff. unfold served. cbn [fst snd]. split.
    + intros [[H1 H2] H3]. split; [done|]. rewrite !elem_of_sorted_ids in H3.
      destruct H3 as [Ha Hb]. exact (proj1 (routes_of_relayed a b Ha Hb) H2).
    + intros [[H3 H1] H2]. split; [|done]. split; [done|].
      rewrite !elem_of_sorted_ids in H3. destruct H3 as [Ha Hb].
      exact (proj2 (routes_of_relayed a b Ha Hb) H2).
Qed.
End candidates.

Lemma count_once {A B} `{EqDecision B} (f : A → B) (l : list A) (x : B) :
  NoDup (map f l) → length (filter (λ a, f a = x) l) = if decide (x ∈ map f l) then 1%nat else 0%nat.
Proof.
  induction l as [|y l IH]; cbn [map]; [by rewrite decide_False by set_solver|].
  intros [Hy Hnd]%NoDup_cons. rewrite filter_cons. destruct (decide (f y = x)) as [<-|Hne].
  - rewrite decide_True by (by left). cbn. rewrite IH by done. by rewrite decide_False.
  - rewrite IH by done. destruct (decide (x ∈ map f l)) as [Hx|Hx].
    + by rewrite decide_True by (by right).
    + rewrite decide_False; [done|]. by intros [|]%elem_of_cons.
Qed.

(** A route over a relay is offered exactly when the links it needs are there. *)
Lemma alternatives_exact t op ids ps a b relay :
  (∃ r, r ∈ relay_route_candidates t op ids ps true
        ∧ rr_source r = a ∧ rr_sink r = b ∧ rr_transit r = relay)
  ↔ needs_relay t ps a b ∧ relay_capable ids relay ∧ relay ≠ a ∧ relay ≠ b
    ∧ segment t op a relay ∧ segment t op relay b.
Proof.
  setoid_rewrite alternatives_spec. unfold segment. split.
  - intros (r & [Hn Hr] & <- & <- & <-). apply routes_of_ends in Hr as (_ & Hc & H1 & H2 & H3 & H4).
    unfold ends in *. cbn [fst snd] in *.
    rewrite !socket_adjacency_spec, !overlay_adjacency_spec in H3, H4.
    assert (rr_transit r ≠ rr_source r ∧ rr_transit r ≠ rr_sink r) as [? ?] by done.
    split_and!; [done|done|done|done|by intros ?|tauto|by intros ?|tauto].
  - intros (Hn & Hc & H1 & H2 & [H3 H3'] & [H4 H4']).
    pose proof (proj1 Hn) as Ha'. pose proof (proj1 (proj2 Hn)) as Hb'.
    set (vis := participants_of ps ∪ list_to_set (nodes t) ∪ known_route_nodes op ids).
    assert (relay ∈ vis) as Hrv by (apply (knows_identities (participants_of ps ∪ list_to_set (nodes t)) op), Hc).
    assert (a ∈ vis ∧ b ∈ vis) as [Hav Hbv] by (unfold vis; set_solver).
    assert (via (socket_adjacency t vis) (overlay_adjacency vis op) a b relay) as Hv.
    { unfold via. rewrite !socket_adjacency_spec, !overlay_adjacency_spec. split_and!; [done|done|..];
        [destruct H3'; [left|right]|destruct H4'; [left|right]]; done. }
    apply (relay_route_via_spec _ _ (participants_of ps)) in Hv as [r Hr].
    pose proof (relay_route_via_ends _ _ _ _ _ _ _ Hr) as (<- & <- & <- & _).
    exists r. split_and!; [done| |done..].
    apply relay_routes_for_pair_elem. exists (rr_transit r). split; [by apply elem_of_relay_capable|done].
Qed.

(** Relayed reachability is exactly what the topology, the overlay and the identities allow.
    A coordinator reaches another visible node when there is a socket to it, or a relay-capable
    third node with a socket or overlay link on both sides.  The routes offered between the
    participants of an instance are, with alternatives, all routes over such relays between
    the pairs without a socket; without alternatives each pair that has a relay gets exactly
    one of them and no other pair gets any. *)
Theorem relay_routes_exact (t : Topology) (overlay_peers : gmap string (list string))
    (node_identities : gmap string NodeIdentity) (participants : list string) :
  let candidates := relay_route_candidates t overlay_peers node_identities participants in
  let relayed := relayed t overlay_peers node_identities in
  (∀ visible n k,
     k ∈ neighbours_of (llama_cpp_reachable_targets_by_source t overlay_peers node_identities visible) n
     ↔ n ∈ visible ∧ k ∈ visible ∧ k ≠ n ∧ (socket_link t n k ∨ relayed n k))
  ∧ (∀ a b relay,
      (∃ r, r ∈ candidates true ∧ rr_source r = a ∧ rr_sink r = b ∧ rr_transit r = relay)
      ↔ needs_relay t participants a b ∧ relay_capable node_identities relay ∧ relay ≠ a ∧ relay ≠ b
        ∧ segment t overlay_peers a relay ∧ segment t overlay_peers relay b)
  ∧ (∀ r, r ∈ candidates false → r ∈ candidates true)
  ∧ ∀ a b, (needs_relay t participants a b ∧ relayed a b →
              length (filter (λ r, ends r = (a, b)) (candidates false)) = 1%nat)
           ∧ (¬ (needs_relay t participants a b ∧ relayed a b) →
              length (filter (λ r, ends r = (a, b)) (candidates false)) = 0%nat).
Proof.
  intros candidates relayed.
  destruct (chosen_spec t overlay_peers node_identities participants) as (chosen & Hp & Hr & Hnd & Hab).
  split; [intros; apply reachable_targets_spec|].
  split; [apply alternatives_exact|].
  split.
  - intros r Hin. unfold candidates in *. rewrite Hp in Hin. apply alternatives_spec.
    split; [|by apply Hr]. apply (Hab (rr_source r) (rr_sink r)). apply list_elem_of_fmap. by exists r.
  - intros a b. unfold candidates, relayed. rewrite Hp, (count_once ends), <- Hab by done.
    split; intros Hin; [by rewrite decide_True|by rewrite decide_False].
Qed.
