(* ===== verification/OverlayProps.v ===== *)
(** * Overlay components

    The search of [_overlay_connected_candidate_cycles] finds the connected components of the
    overlay: the bound on its rounds is enough, and what it returns is the component of the
    start node. *)
From S2P Require Import Prelude.
From S2P Require Import PyStr.
From S2P Require Import PyVal.
From S2P Require Import PyOrder.
From S2P Require Import Topology.
From S2P Require Import RuntimeState.
From S2P Require Import NetworkRoutes.
From S2P Require Import PlacementRoutes.
From S2P Require Import Placement.
From S2P Require Import RouteProps.
Set Default Proof Using "Type".

(** ** The search *)

Section search.
Context (adj : adjacency) (visible : gset string).
Context (adj_visible : ∀ n, neighbours_of adj n ⊆ visible).

Definition linked (a b : string) : Prop := b ∈ neighbours_of adj a.

(** The state of the search from [start] when the nodes [before] had been visited already. *)
Record searching (before : gset string) (start : string) (stack : list string)
    (component visited : gset string) : Prop := {
  se_distinct : NoDup stack;
  se_visited : visited = list_to_set stack ∪ component ∪ before;
  se_stack : ∀ x, x ∈ stack → (x ∉ component) ∧ x ∉ before;
  se_before : component ## before;
  se_known : list_to_set stack ∪ component ⊆ visible;
  se_reached : ∀ x, x ∈ stack ∨ x ∈ component → rtc linked start x;
  se_closed : ∀ x, x ∈ component → neighbours_of adj x ⊆ visited
}.

Lemma searching_step before start n stack component visited :
  searching before start (n :: stack) component visited →
  searching before start (elements (neighbours_of adj n ∖ visited) ++ stack)
    ({[n]} ∪ component) ((neighbours_of adj n ∖ visited) ∪ visited).
Proof using adj_visible.
  intros [Hnd Hv Hs Hb Hk Hr Hc]. apply NoDup_cons in Hnd as [Hn Hnd].
  set (found := neighbours_of adj n ∖ visited). pose proof (adj_visible n) as Hav.
  assert (∀ x, x ∈ found ↔ x ∈ neighbours_of adj n ∧ x ∉ visited) as Hf by (intros; apply elem_of_difference).
  assert (∀ x, x ∈ visited ↔ x = n ∨ x ∈ stack ∨ x ∈ component ∨ x ∈ before) as Hvis by (rewrite Hv; set_solver).
  destruct (Hs n ltac:(by left)) as [Hnc Hnb].
  split.
  - apply NoDup_app. split; [apply NoDup_elements|]. split; [|done].
    intros x Hx%elem_of_elements Hxs. apply Hf in Hx as [_ Hx]. apply Hx, Hvis. auto.
  - rewrite list_to_set_app_L, list_to_set_elements_L. rewrite Hv at 1. cbn. set_solver.
  - intros x [Hx%elem_of_elements|Hx]%elem_of_app.
    + apply Hf in Hx as [_ Hx]. rewrite Hvis in Hx. set_solver.
    + destruct (Hs x ltac:(by right)). split; [|done]. intros [->%elem_of_singleton|?]%elem_of_union; done.
  - set_solver.
  - rewrite list_to_set_app_L, list_to_set_elements_L. cbn in Hk. set_solver.
  - intros x [[Hx%elem_of_elements|Hx]%elem_of_app|[->%elem_of_singleton|Hx]%elem_of_union].
    + apply Hf in Hx as [Hx _]. eapply rtc_r; [apply (Hr n); left; by left|exact Hx].
    + apply Hr. left. by right.
    + apply Hr. left. by left.
    + apply Hr. by right.
  - intros x [->%elem_of_singleton|Hx]%elem_of_union y Hy.
    + destruct (decide (y ∈ visited)); [set_solver|]. apply elem_of_union. left. by apply Hf.
    + apply elem_of_union. right. by apply (Hc x).
Qed.

(** As many rounds as there are nodes outside the component empty the stack. *)
Lemma search_ends fuel : ∀ before start stack component visited,
  searching before start stack component visited →
  (size (visible ∖ component) ≤ fuel)%nat →
  let '(component', visited') := search fuel adj stack component visited in
  searching before start [] component' visited' ∧ component ⊆ component' ∧ list_to_set stack ⊆ component'.
Proof using adj_visible.
  induction fuel as [|fuel IH]; intros before start stack component visited Hse Hfuel.
  - destruct stack as [|n stack]; [by cbn|]. exfalso.
    destruct (se_stack _ _ _ _ _ Hse n ltac:(by left)) as [Hn _].
    pose proof (se_known _ _ _ _ _ Hse) as Hk. cbn in Hk.
    assert (visible ∖ component = ∅) as He by (apply leibniz_equiv, size_empty_iff; lia). set_solver.
  - destruct stack as [|n stack]; [by cbn|]. cbn [search].
    pose proof (searching_step _ _ _ _ _ _ Hse) as Hstep.
    destruct (se_stack _ _ _ _ _ Hse n ltac:(by left)) as [Hn _].
    pose proof (se_known _ _ _ _ _ Hse) as Hk. cbn in Hk.
    specialize (IH before start _ _ _ Hstep).
    destruct (search fuel adj _ _ _) as [component' visited'].
    destruct IH as (H1 & H2 & H3).
    + assert (visible ∖ component = {[n]} ∪ (visible ∖ ({[n]} ∪ component))) as He.
      { apply set_eq. intros x. destruct (decide (x = n)); set_solver. }
      rewrite He, size_union, size_singleton in Hfuel by set_solver. lia.
    + split; [done|]. split; [set_solver|]. rewrite list_to_set_app_L in H3. cbn. set_solver.
Qed.

Context (adj_symmetric : ∀ a b, linked a b → linked b a).

(** Nodes visited by searches that are over. *)
Definition closed (visited : gset string) : Prop :=
  visited ⊆ visible ∧ ∀ x, x ∈ visited → neighbours_of adj x ⊆ visited.

Lemma closed_reached visited a b : closed visited → rtc linked a b → b ∈ visited → a ∈ visited.
Proof using adj_symmetric.
  intros [_ Hc]. induction 1 as [|a c b Hac _ IH]; [done|]. intros Hb.
  apply (Hc c (IH Hb)). by apply adj_symmetric.
Qed.

Lemma component_of_spec start visited :
  start ∈ visible → start ∉ visited → closed visited →
  let '(component, visited') := component_of visible adj start visited in
  (∀ n, n ∈ component ↔ rtc linked start n) ∧ visited' = component ∪ visited ∧ closed visited'.
Proof using adj_visible adj_symmetric.
  intros Hs Hnot Hc. unfold component_of.
  assert (searching visited start [start] ∅ ({[start]} ∪ visited)) as Hse.
  { split; [apply NoDup_singleton|set_solver|set_solver|set_solver|set_solver| |set_solver].
    intros x [->%list_elem_of_singleton|?]; [apply rtc_refl|set_solver]. }
  pose proof (search_ends (size visible) _ _ _ _ _ Hse) as H.
  destruct (search (size visible) adj [start] ∅ _) as [component visited'].
  destruct H as (Hend & _ & Hin); [apply subseteq_size; set_solver|].
  destruct Hend as [_ Hv _ Hdis Hk Hr Hcl]. cbn in Hv, Hk, Hin.
  assert (visited' = component ∪ visited) as Hv' by set_solver.
  split; [|split; [done|]].
  - intros n. split; [by auto|]. revert n. apply (rtc_ind_r (λ n, n ∈ component)); [set_solver|].
    intros n m Hnm Hlink IH. assert (m ∈ component ∪ visited) as [?|Hm]%elem_of_union; [|done|].
    + rewrite <- Hv'. apply (Hcl n IH). exact Hlink.
    + exfalso. apply Hnot, (closed_reached visited start m Hc); [|done]. by eapply rtc_r.
  - destruct Hc as [Hc1 Hc2]. split; [set_solver|]. rewrite Hv'. intros x [Hx|Hx]%elem_of_union.
    + rewrite <- Hv'. by apply Hcl.
    + specialize (Hc2 x Hx). set_solver.
Qed.
End search.

(** ** The overlay *)

(** Two visible nodes of which one names the other as its peer. *)
Definition overlay_tie (visible : gset string) (overlay_peers : gmap string (list string))
    (a b : string) : Prop :=
  a ∈ visible ∧ b ∈ visible ∧ (overlay_link overlay_peers a b ∨ overlay_link overlay_peers b a).

Lemma overlay_links_entry (visible : gset string) s l : ∀ adj a b,
  b ∈ neighbours_of
        (foldl (λ adj peer, if bool_decide (peer ∉ visible) then adj
           else add_neighbour (add_neighbour adj s peer) peer s) adj l) a
  ↔ b ∈ neighbours_of adj a
    ∨ (a = s ∧ b ∈ visible ∧ b ∈ l) ∨ (b = s ∧ a ∈ visible ∧ a ∈ l).
Proof.
  induction l as [|x l IH]; intros adj a b; cbn [foldl]; [set_solver|]. rewrite IH.
  case_bool_decide as Hx.
  - split; [naive_solver (rewrite ?elem_of_cons; auto)|].
    rewrite !elem_of_cons. intros [?|[(-> & ? & [->|?])|(-> & ? & [->|?])]]; auto; done.
  - rewrite !neighbours_add, !elem_of_cons. split.
    + intros [[[?|[-> ->]]|[-> ->]]|[(-> & ? & ?)|(-> & ? & ?)]]; auto 8.
    + intros [?|[(-> & ? & [->|?])|(-> & ? & [->|?])]]; auto 8.
Qed.

Lemma overlay_links_spec visible overlay_peers a b :
  linked (overlay_links_of visible overlay_peers) a b ↔ overlay_tie visible overlay_peers a b.
Proof.
  unfold linked, overlay_links_of, overlay_tie, overlay_link.
  match goal with |- context [foldl ?f _ _] => set (step := f) end.
  assert (∀ l adj, b ∈ neighbours_of (foldl step adj l) a
    ↔ b ∈ neighbours_of adj a
      ∨ ∃ s p, (s, p) ∈ l ∧ s ∈ visible ∧ ((a = s ∧ b ∈ visible ∧ b ∈ p) ∨ (b = s ∧ a ∈ visible ∧ a ∈ p))) as Hl.
  { induction l as [|[s p] l IH]; intros adj; cbn [foldl].
    - split; [by left|]. intros [?|(s & p & Hp & _)]; [done|set_solver].
    - rewrite IH. unfold step. cbn [fst snd]. case_bool_decide as Hs.
      + split.
        * intros [?|(s' & p' & ? & ?)]; [by left|right; exists s', p'; split; [by right|done]].
        * intros [?|(s' & p' & [[= -> ->]|?]%elem_of_cons & ? & ?)]; [by left|done|right; by exists s', p'].
      + rewrite overlay_links_entry. split.
        * intros [[?|?]|(s' & p' & ? & ?)]; [by left|right; exists s, p; split_and!; [by left|done|done]|].
          right; exists s', p'; split; [by right|done].
        * intros [?|(s' & p' & [[= -> ->]|?]%elem_of_cons & ? & ?)]; [by do 2 left|left; by right|].
          right; by exists s', p'. }
  rewrite Hl, neighbours_empty. setoid_rewrite elem_of_map_to_list. split.
  - intros [?|(s & p & Hp & Hs & [(-> & ? & ?)|(-> & ? & ?)])]; [set_solver|..];
      (split_and!; [done..|]); [left|right]; by exists p.
  - intros (Ha & Hb & [(p & Hp & ?)|(p & Hp & ?)]); right.
    + exists a, p. split_and!; [done..|]. by left.
    + exists b, p. split_and!; [done..|]. by right.
Qed.

(** ** The loop over the start nodes *)

Section components.
Context (node_memory : gmap string MemoryReading) (required : gset string) (min_nodes : Z).
Context (visible : gset string) (overlay_peers : gmap string (list string)).

Abbreviation adj := (overlay_links_of visible overlay_peers).
Abbreviation tie := (overlay_tie visible overlay_peers).
Abbreviation cycles_of := (component_cycles node_memory required min_nodes).

(** The nodes connected to [start]. *)
Definition is_component (start : string) (component : gset string) : Prop :=
  ∀ n, n ∈ component ↔ rtc tie start n.

Lemma links_visible n : neighbours_of adj n ⊆ visible.
Proof using. intros k Hk. apply (overlay_links_spec visible overlay_peers n k) in Hk. apply Hk. Qed.

Lemma links_symmetric a b : linked adj a b → linked adj b a.
Proof using. rewrite !overlay_links_spec. unfold overlay_tie. tauto. Qed.

Lemma rtc_linked a b : rtc (linked adj) a b ↔ rtc tie a b.
Proof using. split; (apply rtc_subrel; intros x y; apply overlay_links_spec). Qed.

Lemma tie_symmetric a b : rtc tie a b → rtc tie b a.
Proof using.
  induction 1 as [|a c b Hac _ IH]; [apply rtc_refl|]. eapply rtc_r; [exact IH|].
  unfold overlay_tie in *. tauto.
Qed.

(** After the start nodes [done]: their components were searched, and nothing else. *)
Lemma components_loop starts : ∀ seen candidates visited,
  Forall (λ n, n ∈ visible) starts →
  closed adj visible visited →
  (∀ n, n ∈ visited ↔ ∃ s, s ∈ seen ∧ rtc tie s n) →
  (∀ c, c ∈ candidates ↔ ∃ s C, s ∈ seen ∧ is_component s C ∧ c ∈ cycles_of C) →
  ∀ c, c ∈ (foldl (overlay_step node_memory required min_nodes visible adj) (candidates, visited) starts).1
    ↔ ∃ s C, s ∈ seen ++ starts ∧ is_component s C ∧ c ∈ cycles_of C.
Proof using.
  induction starts as [|s starts IH]; intros seen candidates visited Hst Hcl Hv Hc; cbn [foldl].
  { by rewrite app_nil_r. }
  apply Forall_cons in Hst as [Hs Hst]. unfold overlay_step at 2. rewrite cons_middle, app_assoc.
  case_bool_decide as Hvis.
  - apply IH; [done|done|..].
    + intros n. rewrite Hv. setoid_rewrite elem_of_app. setoid_rewrite list_elem_of_singleton. split.
      * intros (s' & ? & ?). exists s'. auto.
      * intros (s' & [?| ->] & Hn); [by exists s'|]. apply Hv in Hvis as (s0 & Hs0 & Hr).
        exists s0. split; [done|by etrans].
    + intros c. rewrite Hc. setoid_rewrite elem_of_app. setoid_rewrite list_elem_of_singleton. split.
      * intros (s' & C & ? & ?). exists s', C. auto.
      * intros (s' & C & [?| ->] & HC & Hin); [by exists s', C|]. apply Hv in Hvis as (s0 & Hs0 & Hr).
        exists s0, C. split_and!; [done| |done]. intros n. rewrite (HC n).
        split; intros Hn; (etrans; [|exact Hn]); [done|by apply tie_symmetric].
  - pose proof (component_of_spec adj visible links_visible links_symmetric s visited Hs Hvis Hcl) as Hspec.
    destruct (component_of visible adj s visited) as [C visited']. destruct Hspec as (HC & -> & Hcl').
    apply IH; [done|done|..].
    + intros n. rewrite elem_of_union, HC, Hv, rtc_linked. setoid_rewrite elem_of_app.
      setoid_rewrite list_elem_of_singleton. split.
      * intros [?|(s' & ? & ?)]; [exists s|exists s']; auto.
      * intros (s' & [?| ->] & ?); [right; by exists s'|by left].
    + intros c. rewrite elem_of_app, Hc. setoid_rewrite elem_of_app. setoid_rewrite list_elem_of_singleton. split.
      * intros [(s' & C' & ? & ? & ?)|?]; [exists s', C'; auto|]. exists s, C.
        split_and!; [by right| |done]. intros n. by rewrite HC, rtc_linked.
      * intros (s' & C' & [?| ->] & HC' & Hin); [left; by exists s', C'|right].
        assert (C = C') as ->; [|done]. apply set_eq. intros n. by rewrite HC, rtc_linked, (HC' n).
Qed.
End components.

(** The candidates a component gives: its nodes in order, cut at every allowed size. *)
Lemma elem_of_component_cycles memory required m C c :
  c ∈ component_cycles memory required m C
  ↔ required ⊆ C ∧ ∃ k, (min_candidate_size required m ≤ k ≤ size C)%nat
      ∧ c = take k (sorted_by (target_key memory required) (elements C)).
Proof.
  unfold component_cycles.
  assert (length (sorted_by (target_key memory required) (elements C)) = size C) as Hlen
    by by rewrite sorted_by_perm.
  destruct (Nat.ltb_spec (size C) (min_candidate_size required m)) as [Hlt|Hge]; cbn.
  { split; [set_solver|]. intros (_ & k & ? & _). lia. }
  case_bool_decide as Hr; [set_solver|].
  rewrite list_elem_of_fmap, Hlen. split.
  - intros (k & -> & Hk%elem_of_seq). split; [done|]. exists k. split; [lia|done].
  - intros (_ & k & Hk & ->). exists k. split; [done|]. apply elem_of_seq. lia.
Qed.

(** The candidates are cuts of connected components. *)
Lemma overlay_candidates (t : Topology) (memory : gmap string MemoryReading)
    (overlay_peers : gmap string (list string)) (min_nodes : Z) (required : gset string) :
  let visible := visible_of t memory in
  match _overlay_connected_candidate_cycles t memory overlay_peers min_nodes required with
  | Ok candidates =>
      ∀ c, c ∈ candidates ↔
        overlay_peers ≠ ∅ ∧
        ∃ start C k, start ∈ visible ∧ (∀ n, n ∈ C ↔ rtc (overlay_tie visible overlay_peers) start n)
          ∧ required ⊆ C ∧ (min_candidate_size required min_nodes ≤ k ≤ size C)%nat
          ∧ c = take k (sorted_by (target_key memory required) (elements C))
  | Err e => overlay_peers ≠ ∅ ∧ ¬ required ⊆ visible
             ∧ e = missing_error "overlay" (required ∖ visible)
  end.
Proof.
  intros visible. unfold _overlay_connected_candidate_cycles.
  case_bool_decide as He; [set_solver|]. case_bool_decide as Hr; [done|].
  intros c. pose proof (components_loop memory required min_nodes visible overlay_peers
    (sorted_ids visible) [] [] ∅) as Hloop.
  specialize (Hloop ltac:(apply Forall_forall; intros x; apply elem_of_sorted_ids)
    ltac:(split; set_solver) ltac:(set_solver) ltac:(set_solver) c).
  etransitivity; [exact Hloop|]. cbn [app]. setoid_rewrite elem_of_component_cycles. setoid_rewrite elem_of_sorted_ids.
  split.
  - intros (s & C & Hs & HC & Hreq & k & Hk & ->). split; [done|]. by exists s, C, k.
  - intros (_ & s & C & k & Hs & HC & Hreq & Hk & ->). exists s, C. split_and!; [done..|]. by exists k.
Qed.

(** C25: the overlay candidates are exactly the prefixes, of every size that is allowed, of the
    connected components of the overlay among the visible nodes that contain the required
    nodes: the required nodes first, then by free memory.  The search for a component ends
    within as many rounds as there are visible nodes.  The call raises only when a required
    node is not visible. *)
Theorem overlay_candidates_exact (t : Topology) (memory : gmap string MemoryReading)
    (overlay_peers : gmap string (list string)) (min_nodes : Z) (required : gset string) :
  let visible := visible_of t memory in
  match _overlay_connected_candidate_cycles t memory overlay_peers min_nodes required with
  | Ok candidates =>
      ∀ c, c ∈ candidates ↔
        overlay_peers ≠ ∅ ∧
        ∃ start C k, start ∈ visible ∧ (∀ n, n ∈ C ↔ rtc (overlay_tie visible overlay_peers) start n)
          ∧ required ⊆ C ∧ (min_candidate_size required min_nodes ≤ k ≤ size C)%nat
          ∧ c = take k (sorted_by (target_key memory required) (elements C))
  | Err e => overlay_peers ≠ ∅ ∧ ¬ required ⊆ visible
             ∧ e = missing_error "overlay" (required ∖ visible)
  end.
Proof. apply overlay_candidates. Qed.
