(* ===== verification/PlacementProps.v ===== *)
(** * A placed instance can run

    What [place_instance] promises when it succeeds: the nodes it chose, their memory, the
    layers they run and the routes between them. *)
From Stdlib Require Import QArith.
From S2P Require Import Prelude.
From S2P Require Import PyStr.
From S2P Require Import PyVal.
From S2P Require Import PyOrder.
From S2P Require Import Money.
From S2P Require Import Topology.
From S2P Require Import RuntimeState.
From S2P Require Import LayerAllocation.
From S2P Require Import NetworkRoutes.
From S2P Require Import NetworkModelPolicy.
From S2P Require Import RouteHealth.
From S2P Require Import ShardAssignment.
From S2P Require Import PlacementRoutes.
From S2P Require Import Placement.
From S2P Require Import RouteProps.
From S2P Require Import OverlayProps.
Local Open Scope Z_scope.
Set Default Proof Using "Type".

(** ** Candidates *)

(** A candidate: distinct nodes among [known], with the required ones, and enough of them. *)
Record candidate_ok (known required : gset string) (min_nodes : Z) (c : list string) : Prop := {
  ca_distinct : NoDup c;
  ca_known : Forall (λ n, n ∈ known) c;
  ca_required : required ⊆ list_to_set c;
  ca_size : min_nodes ≤ Z.of_nat (length c)
}.

Lemma candidate_ok_perm known required m c c' :
  c ≡ₚ c' → candidate_ok known required m c → candidate_ok known required m c'.
Proof.
  intros Hp [H1 H2 H3 H4]. split.
  - by rewrite <- Hp.
  - by rewrite <- Hp.
  - intros x Hx%H3. rewrite elem_of_list_to_set in Hx. rewrite elem_of_list_to_set. by rewrite <- Hp.
  - by rewrite <- Hp.
Qed.

Lemma candidate_ok_mono known known' required m c :
  known ⊆ known' → candidate_ok known required m c → candidate_ok known' required m c.
Proof.
  intros Hk [H1 H2 H3 H4]. split; [done| |done|done]. eapply Forall_impl; [exact H2|]. cbn. set_solver.
Qed.

Lemma foldl_add_candidate l : ∀ acc c, c ∈ foldl add_candidate acc l ↔ c ∈ acc ∨ c ∈ l.
Proof.
  induction l as [|x l IH]; intros acc c; cbn [foldl].
  - set_solver.
  - rewrite IH. unfold add_candidate. case_bool_decide; set_solver.
Qed.

Section candidates.
Context (memory : gmap string MemoryReading) (required : gset string) (min_nodes : Z).

Lemma coordinator_cycles_ok known coordinator reachable c :
  coordinator ∈ known → reachable ⊆ known ∖ {[coordinator]} →
  c ∈ coordinator_cycles memory required min_nodes coordinator reachable →
  candidate_ok known required min_nodes c.
Proof using.
  intros Hc Hr. unfold coordinator_cycles. case_bool_decide; [set_solver|].
  intros [Hreq (sz & -> & Hsz%elem_of_seq)%list_elem_of_fmap]%list_elem_of_filter.
  set (targets := targets_of memory required reachable) in *.
  assert (NoDup targets) as Hnd by (unfold targets, targets_of; rewrite sorted_by_perm; apply NoDup_elements).
  assert (∀ x, x ∈ targets → x ∈ reachable) as Ht.
  { intros x Hx. unfold targets, targets_of in Hx. by rewrite elem_of_sorted_by, elem_of_elements in Hx. }
  assert (∀ x, x ∈ take (sz - 1) targets → x ∈ reachable) as Htake.
  { intros x Hx. apply Ht. rewrite <- (take_drop (sz - 1) targets). apply elem_of_app. by left. }
  split.
  - rewrite <- (take_drop (sz - 1) targets) in Hnd. apply NoDup_app in Hnd as [Hnd _].
    constructor; [|done]. intros Hin%Htake. set_solver.
  - constructor; [done|]. apply Forall_forall. intros x Hx%Htake. set_solver.
  - done.
  - cbn. rewrite length_take. unfold min_candidate_size in Hsz. lia.
Qed.

Lemma candidate_cycles_ok visible reachable_of c :
  (∀ n, reachable_of n ⊆ visible ∖ {[n]}) →
  c ∈ candidate_cycles memory required visible min_nodes reachable_of →
  candidate_ok visible required min_nodes c.
Proof using.
  intros Hr. unfold candidate_cycles. rewrite foldl_add_candidate.
  intros [?|(n & Hc & Hn)%list_elem_of_bind]; [set_solver|].
  eapply coordinator_cycles_ok; [by apply elem_of_sorted_ids|apply Hr|done].
Qed.
End candidates.

Lemma health_adjacency_bound env now iso records visible n :
  neighbours_of (_route_health_direct_adjacency env now iso records visible) n ⊆ visible ∖ {[n]}.
Proof.
  unfold _route_health_direct_adjacency.
  apply (set_fold_ind_L (λ (adj : adjacency) (_ : gset string), neighbours_of adj n ⊆ visible ∖ {[n]})).
  - unfold neighbours_of, adjacency. rewrite lookup_empty. set_solver.
  - intros x X adj _ IH. unfold neighbours_of, adjacency in *. destruct (decide (x = n)) as [->|Hne].
    + rewrite lookup_insert_eq. cbn. intros y [[Hy _] Hv]%elem_of_filter. set_solver.
    + by rewrite lookup_insert_ne.
Qed.

Lemma visible_nodes_of t memory : visible_of t memory ⊆ list_to_set (nodes t).
Proof.
  intros n. unfold visible_of. rewrite !elem_of_list_to_set. by intros [_ ?]%list_elem_of_filter.
Qed.

Lemma direct_candidates_ok env now iso t memory m required records cs c :
  get_llama_cpp_direct_candidate_cycles env now iso t memory m required records = Ok cs →
  c ∈ cs → candidate_ok (list_to_set (nodes t)) required m c.
Proof.
  unfold get_llama_cpp_direct_candidate_cycles. case_bool_decide; [done|]. intros [= <-] Hc.
  eapply candidate_ok_mono; [apply visible_nodes_of|]. eapply candidate_cycles_ok, Hc. intros n.
  apply union_least; [|apply health_adjacency_bound].
  intros k. unfold _socket_adjacency. rewrite socket_adjacency_spec. set_solver.
Qed.

Lemma relay_candidates_ok t memory op ids m required cs c :
  get_llama_cpp_relay_candidate_cycles t memory op ids m required = Ok cs →
  c ∈ cs → candidate_ok (list_to_set (nodes t)) required m c.
Proof.
  unfold get_llama_cpp_relay_candidate_cycles. case_bool_decide; [done|]. intros [= <-] Hc.
  eapply candidate_ok_mono; [apply visible_nodes_of|]. eapply candidate_cycles_ok, Hc. intros n k.
  rewrite reachable_targets_spec. set_solver.
Qed.

(** Required nodes come first, so a cut at the number of them or later keeps them all. *)
Lemma required_first memory required C k x :
  required ⊆ C → (size required ≤ k)%nat → x ∈ required →
  x ∈ take k (sorted_by (target_key memory required) (elements C)).
Proof.
  intros Hreq Hk Hx. set (ordered := sorted_by (target_key memory required) (elements C)).
  assert (ordered ≡ₚ elements C) as Hperm by apply sorted_by_perm.
  assert (x ∈ take k ordered ++ drop k ordered) as [?|Hdrop]%elem_of_app; [|done|exfalso].
  { rewrite take_drop, Hperm. apply elem_of_elements, Hreq, Hx. }
  assert (StronglySorted (λ a b, sort_key_leb (target_key memory required a) (target_key memory required b) = true)
            (take k ordered ++ drop k ordered)) as Hsorted.
  { rewrite take_drop. unfold ordered, sorted_by.
    apply (py_sorted_sorted (λ a b, sort_key_leb (target_key memory required a) (target_key memory required b))).
    - intros a b. apply sort_key_leb_total.
    - intros a b c. apply sort_key_leb_trans. }
  assert (∀ a, a ∈ take k ordered → a ∈ required) as Hall.
  { intros a Ha. pose proof (StronglySorted_app_1_elem_of _ _ _ _ _ Hsorted Ha Hdrop) as Hle. cbv beta in Hle.
    unfold target_key, sort_key_leb in Hle. cbn in Hle. rewrite (bool_decide_eq_true_2 (x ∈ required)) in Hle by done.
    by case_bool_decide. }
  assert (NoDup (x :: take k ordered)) as Hnd.
  { assert (NoDup (take k ordered ++ drop k ordered)) as Hnd by (rewrite take_drop, Hperm; apply NoDup_elements).
    apply NoDup_app in Hnd as (H1 & H2 & _). constructor; [|done]. intros Hin. by apply (H2 x Hin). }
  assert (size (list_to_set (x :: take k ordered) : gset string) ≤ size required)%nat as Hsize.
  { apply subseteq_size. intros a [->|Ha]%elem_of_list_to_set%elem_of_cons; [done|by apply Hall]. }
  rewrite size_list_to_set in Hsize by done. cbn in Hsize. rewrite length_take in Hsize.
  assert (drop k ordered ≠ []) as Hne by (intros Hn; rewrite Hn in Hdrop; set_solver).
  assert (k < length ordered)%nat as Hlt by (apply Nat.lt_nge; intros Hge; by apply Hne, drop_ge). lia.
Qed.

Lemma overlay_candidates_ok t memory op m required cs c :
  _overlay_connected_candidate_cycles t memory op m required = Ok cs →
  c ∈ cs → candidate_ok (list_to_set (nodes t)) required m c.
Proof.
  intros Hcs Hc. pose proof (overlay_candidates t memory op m required) as Hspec.
  rewrite Hcs in Hspec. cbv zeta in Hspec.
  apply Hspec in Hc as (_ & start & C & k & Hs & HC & Hreq & [Hk1 Hk2] & ->). clear Hspec.
  assert (∀ x, x ∈ C → x ∈ visible_of t memory) as Hvis.
  { intros x Hx%HC. revert x Hx. apply (rtc_ind_r (λ x, x ∈ visible_of t memory)); [done|].
    intros x y _ (_ & Hy & _) _. done. }
  set (ordered := sorted_by (target_key memory required) (elements C)).
  assert (ordered ≡ₚ elements C) as Hperm by apply sorted_by_perm.
  assert (length ordered = size C) as Hlen by by rewrite Hperm.
  assert (NoDup (take k ordered ++ drop k ordered)) as Hnd
    by (rewrite take_drop, Hperm; apply NoDup_elements).
  apply NoDup_app in Hnd as [Hnd _].
  eapply candidate_ok_mono; [apply (visible_nodes_of t memory)|]. split.
  - done.
  - apply Forall_forall. intros x Hx. apply Hvis. rewrite <- elem_of_elements, <- Hperm.
    rewrite <- (take_drop k ordered). apply elem_of_app. by left.
  - intros x Hx. apply elem_of_list_to_set. apply (required_first memory required C k); [done| |done].
    unfold min_candidate_size in Hk1. lia.
  - rewrite length_take, Hlen. unfold min_candidate_size in *. lia.
Qed.

(** ** The selected cycle *)

(** The library lists elementary cycles: no node twice, and only nodes of the graph. *)
Definition lists_elementary_cycles (simple_cycles : list string → list Connection → list (list string))
  : Prop := ∀ ns cs c, c ∈ simple_cycles ns cs → NoDup c ∧ Forall (λ n, n ∈ ns) c.

Lemma existsb_false {A} (f : A → bool) l : existsb f l = false ↔ ∀ x, x ∈ l → f x = false.
Proof.
  rewrite <- not_true_iff_false, existsb_exists. setoid_rewrite <- not_true_iff_false.
  setoid_rewrite list_elem_of_In. naive_solver.
Qed.

Section select.
Context (env : Environ) (now : Z) (fromisoformat : string → option Z).
Context (simple_cycles : list string → list Connection → list (list string)).
Context (policy : PrivateNetworkModelPolicy).
Context (chunk_coverage : string → option (string → Z → Z → option (Z * Z * bool))).
Context (fresh : nat → string).
Context (owned_route_readiness : Z → string → list string → list RouteHealthRecord →
         option (bool * list string)).
Context (records : list RouteHealthRecord).
Context (t : Topology) (node_identities : gmap string NodeIdentity).
Context (overlay_peers : gmap string (list string)) (required_nodes : gset string).
Context (download_status : gmap string (list DownloadProgress)).
Context (memory : gmap string MemoryReading) (command : PlaceInstance).

Abbreviation known := (list_to_set (nodes t) : gset string).

Lemma elem_of_known n : n ∈ known ↔ n ∈ nodes t.
Proof using. apply elem_of_list_to_set. Qed.

Lemma candidates_ok cs c :
  lists_elementary_cycles simple_cycles →
  candidate_cycles_for env now fromisoformat simple_cycles records t node_identities overlay_peers
    required_nodes memory command = Ok cs →
  c ∈ cs → candidate_ok known required_nodes (pi_min_nodes command) c.
Proof using.
  intros simple_cycles_simple. unfold candidate_cycles_for. intros (direct & Hdirect & (cands & Hc & Hlast)%bind_ok)%bind_ok Hin.
  assert (cs = cands) as -> by (destruct cands; [done|by injection Hlast as <-]). clear Hlast.
  assert (∀ c, c ∈ direct → required_nodes ⊆ list_to_set c →
            candidate_ok known required_nodes (pi_min_nodes command) c) as Hd.
  { intros c' Hc' Hreq. unfold direct_candidates in Hdirect. destruct (1 <? pi_min_nodes command) eqn:E.
    - by eapply direct_candidates_ok.
    - injection Hdirect as <-. apply list_elem_of_filter in Hc' as [Hsize Hc'].
      unfold get_cycles in Hc'. apply elem_of_app in Hc' as [Hc'|Hc'].
      + apply simple_cycles_simple in Hc' as [Hnd Hn]. split; [done| |done|done].
        eapply Forall_impl; [exact Hn|]. intros n. apply elem_of_known.
      + apply list_elem_of_fmap in Hc' as (n & -> & Hn). split; [apply NoDup_singleton| |done|done].
        apply Forall_singleton. by apply elem_of_known. }
  destruct (filter (λ c : list string, required_nodes ⊆ list_to_set c) direct) as [|x l] eqn:Ef.
  - destruct (1 <? pi_min_nodes command).
    + by eapply relay_candidates_ok.
    + apply bind_ok in Hc as (overlay & Hov & Hc).
      assert (cands = overlay ∨ cands = []) as [->| ->]; [|by eapply overlay_candidates_ok|set_solver].
      destruct overlay, direct; try (injection Hc as <-; by left).
      destruct (bool_decide _); [|done]. injection Hc as <-. by right.
  - injection Hc as <-. rewrite <- Ef in Hin. apply list_elem_of_filter in Hin as [? ?]. by apply Hd.
Qed.

(** Enough memory for the whole model, on nodes whose memory is known. *)
Definition memory_ok (c : list string) : Prop :=
  Forall (λ n, is_Some (memory !! n)) c
  ∧ mc_storage_size (pi_model_card command) ≤ sumZ (map (ram_or_0 memory) c).

Lemma memory_filtered_ok cands cs c :
  memory_filtered memory command cands = Ok cs → c ∈ cs → c ∈ cands ∧ memory_ok c.
Proof using.
  unfold memory_filtered.
  destruct (filter_cycles_by_memory cands memory _) as [|x l] eqn:Ef; [done|].
  assert (∀ c, c ∈ x :: l → c ∈ cands ∧ memory_ok c) as Hl.
  { intros c' Hc'. rewrite <- Ef in Hc'. unfold filter_cycles_by_memory in Hc'.
    apply list_elem_of_filter in Hc' as [Hm Hc']. by split. }
  destruct (String.eqb _ _); [done|]. destruct (startswith _ _); [|intros [= <-]; apply Hl].
  intros Hs Hc. apply Hl.
  destruct (filter (λ c : list string, length c = 1%nat) (x :: l)) eqn:E1; [done|]. injection Hs as <-.
  rewrite <- E1 in Hc. by apply list_elem_of_filter in Hc as [_ ?].
Qed.

Lemma smallest_elem cs c : c ∈ get_smallest_cycles cs → c ∈ cs.
Proof using. unfold get_smallest_cycles. destruct (map length cs); [set_solver|]. by intros [_ ?]%list_elem_of_filter. Qed.

Lemma canonical_perm c : _canonical_cycle_for_model memory c ≡ₚ c.
Proof using. destruct c as [|a [|b c]]; [done..|]. apply (perm_skip a), sorted_by_perm. Qed.

Lemma preferred_ok cs c : c ∈ preferred_cycles t memory cs → ∃ c', c' ∈ cs ∧ c' ≡ₚ c.
Proof using.
  unfold preferred_cycles. intros (c' & -> & Hc')%list_elem_of_fmap. exists c'.
  split; [|by rewrite canonical_perm]. apply smallest_elem.
  set (leafy := filter (λ c0 : Cycle, existsb (node_is_leaf t) c0 = true) (get_smallest_cycles cs)) in *.
  destruct leafy as [|x l] eqn:Ef; [done|]. rewrite <- Ef in Hc'. unfold leafy in Hc'.
  by apply list_elem_of_filter in Hc' as [_ ?].
Qed.

Lemma keep_or_ok (keep : Cycle → bool) e cs kept c :
  keep_or keep e cs = Ok kept → c ∈ kept → c ∈ cs ∧ keep c = true.
Proof using.
  unfold keep_or. intros Hk Hc. assert (kept = filter (λ c, keep c = true) cs) as ->.
  { destruct (filter (λ c, keep c = true) cs) eqn:E, cs; by inversion Hk. }
  by apply list_elem_of_filter in Hc as [? ?].
Qed.

(** What the route health says of the ways from the coordinator to the other nodes: none is
    known to fail, all are proven when proofs are required, and the cell is not risky over a
    WAN unless the transport of CAI itself is ready to carry it. *)
Record routes_ok (c : list string) : Prop := {
  ro_not_failed : ∀ coordinator sinks, c = coordinator :: sinks →
    ∀ n, n ∈ sinks → rpc_status env now fromisoformat records coordinator n ≠ Some false;
  ro_proven : _requires_llama_cpp_rpc_proof env policy command = true →
    ∀ coordinator sinks, c = coordinator :: sinks →
    ∀ n, n ∈ sinks → rpc_status env now fromisoformat records coordinator n = Some true;
  ro_cell : _cycle_has_wan_risky_llama_cpp_compute_cell env now fromisoformat records c = false
    ∨ (_cai_owned_transport_generation_enabled env = true
       ∧ owned_ready env owned_route_readiness records node_identities c = true)
}.

Lemma not_failed c coordinator sinks n :
  _cycle_has_failed_llama_cpp_rpc_route env now fromisoformat records c = false →
  c = coordinator :: sinks → n ∈ sinks →
  rpc_status env now fromisoformat records coordinator n ≠ Some false.
Proof using.
  intros Hf -> Hn. unfold _cycle_has_failed_llama_cpp_rpc_route in Hf.
  destruct sinks as [|s sinks]; [set_solver|]. cbn [remote_pairs] in Hf.
  destruct records as [|r rs].
  - unfold rpc_status, llama_cpp_rpc_status_for_pair, _best_llama_cpp_rpc_record_for_pair.
    by destruct (_ || _).
  - rewrite existsb_false in Hf. specialize (Hf n Hn). by apply bool_decide_eq_false in Hf.
Qed.

Lemma proven c coordinator sinks n :
  _cycle_has_unproven_llama_cpp_rpc_route env now fromisoformat records c = false →
  c = coordinator :: sinks → n ∈ sinks →
  rpc_status env now fromisoformat records coordinator n = Some true.
Proof using.
  intros Hf -> Hn. unfold _cycle_has_unproven_llama_cpp_rpc_route in Hf.
  destruct sinks as [|s sinks]; [set_solver|]. cbn [remote_pairs] in Hf.
  destruct records as [|r rs]; [done|]. rewrite existsb_false in Hf. specialize (Hf n Hn).
  by apply negb_false_iff, bool_decide_eq_true in Hf.
Qed.

Lemma route_filtered_ok cs kept c :
  route_filtered env now fromisoformat policy owned_route_readiness records node_identities command cs
    = Ok kept →
  c ∈ kept → c ∈ cs ∧ routes_ok c.
Proof using.
  unfold route_filtered. intros (cs1 & H1 & (cs2 & H2 & H3)%bind_ok)%bind_ok Hc.
  assert (c ∈ cs2 ∧ (_cycle_has_wan_risky_llama_cpp_compute_cell env now fromisoformat records c = false
    ∨ (_cai_owned_transport_generation_enabled env = true
       ∧ owned_ready env owned_route_readiness records node_identities c = true))) as [Hc2 Hcell].
  { destruct (filter (λ c, negb (_cycle_has_wan_risky_llama_cpp_compute_cell env now fromisoformat records c) = true)
                cs2) as [|x l] eqn:Ef.
    - destruct cs2 as [|y cs2]; [injection H3 as <-; set_solver|].
      destruct (_cai_owned_transport_generation_enabled env) eqn:Eo; [|done].
      apply (keep_or_ok _ _ _ _ c) in H3 as [? ?]; [|done]. split; [done|]. by right.
    - assert (kept = x :: l) as -> by (destruct cs2; by injection H3 as <-).
      rewrite <- Ef in Hc. apply list_elem_of_filter in Hc as [Hn Hc]. split; [done|]. left.
      by apply negb_true_iff in Hn. }
  assert (c ∈ cs1 ∧ (_requires_llama_cpp_rpc_proof env policy command = true →
    _cycle_has_unproven_llama_cpp_rpc_route env now fromisoformat records c = false)) as [Hc1 Hp].
  { destruct (_requires_llama_cpp_rpc_proof env policy command).
    - apply (keep_or_ok _ _ _ _ c) in H2 as [? Hn]; [|done]. split; [done|]. intros _. by apply negb_true_iff in Hn.
    - injection H2 as <-. done. }
  apply (keep_or_ok _ _ _ _ c) in H1 as [Hcs Hn]; [|done]. apply negb_true_iff in Hn.
  split; [done|]. split; [|intros Hreq|done]; intros coordinator sinks Hs n Hin.
  - by eapply not_failed.
  - eapply proven; [by apply Hp|done|done].
Qed.

Lemma memory_ok_perm c c' : c ≡ₚ c' → memory_ok c → memory_ok c'.
Proof using.
  intros Hp [H1 H2]. split; [by rewrite <- Hp|].
  enough (sumZ (map (ram_or_0 memory) c') = sumZ (map (ram_or_0 memory) c)) by lia.
  clear -Hp. induction Hp; cbn; lia.
Qed.

Lemma selected_ok c :
  lists_elementary_cycles simple_cycles →
  select_cycle env now fromisoformat simple_cycles policy fresh chunk_coverage owned_route_readiness records
    t node_identities overlay_peers required_nodes download_status memory command = Ok c →
  candidate_ok known required_nodes (pi_min_nodes command) c ∧ memory_ok c ∧ routes_ok c.
Proof using.
  intros Hsimple. unfold select_cycle. intros (cands & H1 & (cs & H2 & (kept & H3 & H4)%bind_ok)%bind_ok)%bind_ok.
  destruct kept as [|x l]; [done|].
  assert (c ∈ x :: l) as Hc by (injection H4 as <-; apply first_max_elem). clear H4.
  destruct (route_filtered_ok _ _ _ H3 Hc) as [Hp Hr].
  apply preferred_ok in Hp as (c' & Hc' & Hperm).
  destruct (memory_filtered_ok _ _ _ H2 Hc') as [Hin Hm].
  split; [|split; [by eapply memory_ok_perm|done]].
  eapply candidate_ok_perm; [exact Hperm|by eapply candidates_ok].
Qed.
End select.

(** ** Building the instance *)

Section build.
Context (env : Environ) (now : Z) (fromisoformat : string → option Z).
Context (url_hostname : string → result (option string)).
Context (policy : PrivateNetworkModelPolicy) (fresh : nat → string).
Context (records : list RouteHealthRecord).
Context (t : Topology) (node_network : gmap string NodeNetworkInfo).
Context (node_identities : gmap string NodeIdentity).
Context (overlay_peers : gmap string (list string)).
Context (memory : gmap string MemoryReading) (command : PlaceInstance).

Lemma enumerate_length {A} (l : list A) : length (enumerate l) = length l.
Proof using.
  enough (∀ n, length (enumerate_from n l) = length l) by done.
  induction l as [|x l IH]; intros n; cbn; [done|]. by rewrite IH.
Qed.

(** The host list of the coordinator has an entry for every node. *)
Lemma coordinator_hosts_full coordinator rest g port relays hosts :
  get_llama_cpp_hosts_by_node url_hostname records g port node_network node_identities relays
    (coordinator :: rest) = Ok hosts →
  ∃ l hosts', hosts = (coordinator, l) :: hosts' ∧ length l = length (coordinator :: rest).
Proof using.
  unfold get_llama_cpp_hosts_by_node. intros Hh%mapM_r_ok.
  inversion Hh as [|x y xs ys Hx Hxs Heq]; subst. cbv beta in Hx. cbn [fst snd] in Hx.
  apply bind_ok in Hx as (l & Hl%mapM_r_ok & [= <-]). exists l, ys. split; [done|].
  apply Forall2_length in Hl. rewrite <- Hl. apply (enumerate_length (coordinator :: rest)).
Qed.

(** A way from the coordinator to another node: a host it can open, or a relay. *)
Definition reaches (relays : list (string * list LlamaCppRelayRoute)) (coordinator n : string)
    (host : Host) : Prop :=
  (0 < host_port host ∧ host_ip host ∉ ["0.0.0.0"; "198.51.100.1"])
  ∨ ∃ route, route ∈ relay_routes_of relays coordinator ∧ lr_sink_node_id route = n.

(** The hosts of the coordinator lead to every other node. *)
Definition hosts_reach (cycle : list string) (inst : Instance) : Prop :=
  ∀ coordinator rest, cycle = coordinator :: rest →
  ∃ l hosts port relays urls,
    instance_kind inst = MlxRingInstance ((coordinator, l) :: hosts) port relays urls
    ∧ length l = length cycle
    ∧ ∀ i n h, cycle !! i = Some n → n ≠ coordinator → l !! i = Some h → reaches relays coordinator n h.

Lemma build_instance_ok cycle new_id port inst :
  build_instance env now fromisoformat url_hostname policy fresh records t node_network node_identities
    overlay_peers memory command cycle new_id port = Ok inst →
  (∃ a, get_shard_assignments policy fresh (pi_model_card command) memory cycle (pi_sharding command) = Ok a
        ∧ sa_model_id inst = as_model_id a ∧ runner_to_shard inst = as_runner_to_shard a
        ∧ node_to_runner inst = as_node_to_runner a)
  ∧ instance_id inst = new_id ∧ hosts_reach cycle inst.
Proof using.
  unfold build_instance.
  intros (a & Ha & (u & _ & (relays & Hrel & (hosts & Hhosts & (v & Hcheck & [= <-])%bind_ok)%bind_ok)%bind_ok)%bind_ok)%bind_ok.
  split; [by exists a|]. split; [done|]. intros coordinator rest ->.
  destruct (coordinator_hosts_full _ _ _ _ _ _ Hhosts) as (l & hosts' & -> & Hlen).
  exists l, hosts', port, relays. eexists. split; [done|]. split; [done|].
  intros i n h Hi Hne Hh. cbn [head default fmap option_fmap] in Hcheck.
  pose proof (check_loop (check_coordinator_host coordinator l (map lr_sink_node_id (relay_routes_of relays coordinator)))
                (enumerate (coordinator :: rest))) as Hloop.
  rewrite filter_cons_True in Hcheck by done. cbn [head option_map snd] in Hcheck.
  change (foldM (λ _ ri, check_coordinator_host coordinator l
            (map lr_sink_node_id (relay_routes_of relays coordinator)) ri) tt
            (enumerate (coordinator :: rest)) = Ok v) in Hcheck.
  rewrite Hcheck, Forall_forall in Hloop.
  specialize (Hloop (i, n) (proj2 (elem_of_enumerate (coordinator :: rest) i n) Hi)).
  unfold check_coordinator_host in Hloop. rewrite bool_decide_eq_false_2, Hh in Hloop by done.
  unfold reaches. destruct (Z.leb_spec (host_port h) 0); cbn in Hloop.
  - right. case_bool_decide as Hin; [|done]. by apply list_elem_of_fmap in Hin as (r & -> & Hr); exists r.
  - case_bool_decide as Hip; cbn in Hloop; [|by left]. right.
    case_bool_decide as Hin; [|done]. by apply list_elem_of_fmap in Hin as (r & -> & Hr); exists r.
Qed.
End build.

(** ** The property *)

Lemma effective_memory_nonneg policy card node_memory :
  map_Forall (λ _ m, 0 ≤ ram_available m) node_memory →
  map_Forall (λ _ m, 0 ≤ ram_available m) (_effective_node_memory_for_model policy card node_memory).
Proof.
  intros Hm. unfold _effective_node_memory_for_model. destruct (_ <=? 0); [done|].
  intros n m. rewrite lookup_fmap. intros (m' & _ & ->)%fmap_Some. cbn. lia.
Qed.

(** The demands of the policy on the request. *)
Lemma enforced policy id sharding m card available s' m' :
  enforce_private_network_model_request policy id sharding m card available = Ok (s', m') →
  m ≤ m' ∧ (is_private_network_model policy id card = true →
            private_network_model_effective_min_nodes policy id card available ≤ m').
Proof.
  unfold enforce_private_network_model_request. destruct (is_private_network_model policy id card); cbn.
  - destruct (_ && _); [done|]. intros [= <- <-]. split; [lia|]. intros _. lia.
  - intros [= <- <-]. split; [lia|done].
Qed.

(** The assignment an instance carries. *)
Definition assignments_of (inst : Instance) : ShardAssignments := {|
  as_model_id := sa_model_id inst; as_runner_to_shard := runner_to_shard inst;
  as_node_to_runner := node_to_runner inst |}.

(** C23: when [place_instance] succeeds it adds one new instance and changes no other.  The
    instance runs on distinct nodes of the topology with known memory, among them every
    required node, at least as many as the command and the private-model policy ask for, with
    room for the whole model after the policy's headroom.  Its shards split the layers as the
    assignment promises.  No route from the coordinator to a node is known to fail, the routes
    are proven when proofs are required, the cell is not risky over a WAN unless CAI's own
    transport is ready, and the coordinator has an address or a relay for every other node. *)
Theorem place_instance_sound (env : Environ) (now : Z) (fromisoformat : string → option Z)
    (simple_cycles : list string → list Connection → list (list string))
    (url_hostname : string → result (option string)) (policy : PrivateNetworkModelPolicy)
    (fresh : nat → string)
    (chunk_coverage : string → option (string → Z → Z → option (Z * Z * bool)))
    (owned_route_readiness : Z → string → list string → list RouteHealthRecord →
       option (bool * list string))
    (records : list RouteHealthRecord) (command : PlaceInstance) (t : Topology)
    (current : gmap string Instance) (node_memory : gmap string MemoryReading)
    (node_network : gmap string NodeNetworkInfo) (node_identities : gmap string NodeIdentity)
    (overlay_peers : gmap string (list string)) (required_nodes : gset string)
    (download_status : gmap string (list DownloadProgress)) (new_id : string) (port_draw : Z)
    (target : gmap string Instance) :
  lists_elementary_cycles simple_cycles → Inj (=) (=) fresh →
  mc_n_layers (pi_model_card command) < 2 ^ 50 →
  map_Forall (λ _ m, 0 ≤ ram_available m) node_memory →
  place_instance env now fromisoformat simple_cycles url_hostname policy fresh chunk_coverage
    owned_route_readiness records command t current node_memory node_network node_identities
    overlay_peers required_nodes download_status new_id port_draw = Ok target →
  let card := pi_model_card command in
  let memory := _effective_node_memory_for_model policy card node_memory in
  ∃ min_nodes cycle inst,
    let effective := {| pi_model_card := card; pi_sharding := Pipeline;
                        pi_instance_meta := LlamaCppMeta; pi_min_nodes := min_nodes |} in
    target = <[new_id := inst]> current ∧ instance_id inst = new_id
    ∧ pi_min_nodes command ≤ min_nodes
    ∧ (is_private_network_model policy (mc_model_id card) (Some card) = true →
       private_network_model_effective_min_nodes policy (mc_model_id card) (Some card)
         (Some (Z.of_nat (size memory))) ≤ min_nodes)
    ∧ candidate_ok (list_to_set (nodes t)) required_nodes min_nodes cycle
    ∧ memory_ok memory effective cycle
    ∧ assignment_ok policy card memory cycle (assignments_of inst)
    ∧ routes_ok env now fromisoformat policy owned_route_readiness records node_identities effective cycle
    ∧ hosts_reach cycle inst.
Proof.
  intros Hsimple Hinj HL Hram Hplace card memory. unfold place_instance in Hplace.
  fold card memory in Hplace. apply bind_ok in Hplace as ([s' m'] & Henf%enforced & Hplace).
  case_bool_decide as Hmeta; [done|]. case_bool_decide as Hsh; [done|].
  cbn [pi_instance_meta pi_sharding] in Hmeta, Hsh. subst s'.
  rewrite Hmeta in Hplace.
  apply bind_ok in Hplace as (cycle & Hsel%selected_ok & (inst & Hinst & [= <-])%bind_ok); [|done].
  destruct Hsel as (Hc & Hmem & Hroutes).
  apply build_instance_ok in Hinst as ((a & Ha & H1 & H2 & H3) & Hid & Hreach).
  exists m', cycle, inst. cbv zeta. destruct Henf as [Hle Hpriv].
  split_and!; [done..| |done|done].
  assert (assignments_of inst = a) as -> by (unfold assignments_of; rewrite H1, H2, H3; by destruct a).
  cbn [get_shard_assignments pi_sharding pi_model_card] in Ha.
  pose proof (pipeline_assigned policy fresh card memory cycle Hinj HL (ca_distinct _ _ _ _ Hc)
                (proj1 Hmem) (effective_memory_nonneg policy card node_memory Hram)) as Hok.
  by rewrite Ha in Hok.
Qed.

(** * A concrete placement

    Two nodes with a socket in each direction and a proven route: the model is split between
    them. *)


Definition placed_env : Environ := λ _, None.

Definition placed_topology : Topology :=
  {| nodes := ["a"; "b"];
     connections := [{| source := "a"; sink := "b"; edge := SocketConnection "/ip4/10.0.0.2/tcp/52415" |};
                     {| source := "b"; sink := "a"; edge := SocketConnection "/ip4/10.0.0.1/tcp/52415" |}] |}.

Definition placed_records : list RouteHealthRecord := [
  {| rh_route_id := "r"; rh_source_node_id := "a"; rh_sink_node_id := "b";
     rh_route_type := "llama_cpp_rpc_direct"; rh_endpoint_url := None; rh_reachable := true;
     rh_checked_at := ""; rh_latency_ms := Some 5%Q; rh_error := None; rh_transit_node_id := None;
     rh_source := "probe"; rh_consecutive_failures := 0 |}].

Definition placed_command : PlaceInstance := {|
  pi_model_card := demo_model false; pi_sharding := Pipeline; pi_instance_meta := LlamaCppMeta;
  pi_min_nodes := 2 |}.

Definition placed : result (gmap string Instance) :=
  place_instance placed_env 0 (λ _, None) (λ _ _, []) (λ _, Ok None) demo_policy demo_fresh
    (λ _, None) (λ _ _ _ _, None) placed_records placed_command placed_topology ∅ demo_memory
    ∅ ∅ ∅ {["b"]} ∅ "i" 50000.

Definition placed_target : gmap string Instance :=
  match placed with Ok target => target | Err _ => ∅ end.

Lemma place_instance_sound_witness :
  placed = Ok placed_target
  ∧ ∃ inst, placed_target = {[ "i" := inst ]}
      ∧ map (λ rs, (start_layer rs.2, end_layer rs.2)) (runner_to_shard inst) = [(0, 16); (16, 28)]
      ∧ map fst (node_to_runner inst) = ["a"; "b"]
      ∧ ∃ cycle, hosts_reach cycle inst ∧ NoDup cycle ∧ "b" ∈ cycle.
Proof.
  assert (lists_elementary_cycles (λ _ _, [])) as Hcycles by (intros ns cs c Hc; cbv beta in Hc; by apply not_elem_of_nil in Hc).
  assert (map_Forall (λ _ m, 0 ≤ ram_available m) demo_memory) as Hram
    by (apply map_Forall_to_list; vm_compute; repeat constructor; done).
  assert (mc_n_layers (pi_model_card placed_command) < 2 ^ 50) as HL by (vm_compute; done).
  assert (placed = Ok placed_target) as E by (vm_compute; reflexivity).
  split; [exact E|].
  unfold placed in E.
  destruct (place_instance_sound _ _ _ _ _ _ _ _ _ _ _ _ _ _ _ _ _ _ _ _ _ _ Hcycles demo_fresh_inj HL Hram E)
    as (m & cycle & inst & Ht & _ & _ & _ & Hc & _ & _ & _ & Hreach).
  exists inst. split; [exact Ht|].
  assert (placed_target !! "i" = Some inst) as Hi by (rewrite Ht; apply lookup_insert_eq).
  assert ((λ i, (map (λ rs, (start_layer rs.2, end_layer rs.2)) (runner_to_shard i), map fst (node_to_runner i)))
            <$> placed_target !! "i" = Some ([(0, 16); (16, 28)], ["a"; "b"])) as Hv
    by (vm_compute; reflexivity).
  rewrite Hi in Hv. injection Hv as H1 H2. split; [exact H1|]. split; [exact H2|].
  exists cycle. split; [exact Hreach|]. split; [exact (ca_distinct _ _ _ _ Hc)|].
  pose proof (ca_required _ _ _ _ Hc) as Hreq. apply (elem_of_list_to_set (C := gset string)), Hreq.
  apply elem_of_singleton. reflexivity.
Defined.
