(* ===== verification/Pricing.v ===== *)
(** * The curated models

    [model.py]: the registry of the models the network offers, the ids they are known by and
    the policy that maps them.  The fields that describe the sharding of a GGUF file come from
    [gguf_shard_policy.py] and are left out of the records. *)
From Stdlib Require Import Ascii.
From Stdlib Require Import Ascii QArith.
From S2P Require Import Prelude.
From S2P Require Import PyStr.
From S2P Require Import PyVal.
From S2P Require Import Doubles.
From S2P Require Import Money.
From S2P Require Import Ledger.
From S2P Require Import SettlementData.
From S2P Require Import Funding.
Local Open Scope Z_scope.
Set Default Proof Using "Type".

Definition LEGACY_PRIVATE_NETWORK_MODEL_ID : string := "cai-network/qwen3-0.6b-4bit".
Definition DEFAULT_PRIVATE_NETWORK_MODEL_ID : string := "cai-network/Qwen3-0.6B-GGUF".
Definition DEFAULT_PRIVATE_EXECUTION_MODEL_ID : string := "Qwen/Qwen3-0.6B-GGUF".

Record CuratedNetworkModel := {
  cm_model_id : string;
  cm_execution_model_id : string;
  cm_display_name : string;
  cm_source_repo_id : string;
  cm_preferred_filename : string;
  cm_runtime_model_ids : list string;
  cm_total_layers : option Z;
  cm_hidden_size : option Z;
  cm_private_network : bool;
  cm_minimum_worker_shards : Z;
  cm_allow_single_node_fallback : bool
}.

Definition CURATED_NETWORK_MODELS : list CuratedNetworkModel := [
  {| cm_model_id := DEFAULT_PRIVATE_NETWORK_MODEL_ID;
     cm_execution_model_id := DEFAULT_PRIVATE_EXECUTION_MODEL_ID;
     cm_display_name := "Qwen3 0.6B GGUF"; cm_source_repo_id := DEFAULT_PRIVATE_NETWORK_MODEL_ID;
     cm_preferred_filename := "Qwen3-0.6B-Q8_0.gguf";
     cm_runtime_model_ids := [DEFAULT_PRIVATE_NETWORK_MODEL_ID]; cm_total_layers := Some 28;
     cm_hidden_size := Some 1024; cm_private_network := true; cm_minimum_worker_shards := 2;
     cm_allow_single_node_fallback := false |};
  {| cm_model_id := "Qwen/Qwen3-0.6B-GGUF"; cm_execution_model_id := "Qwen/Qwen3-0.6B-GGUF";
     cm_display_name := "Qwen3 0.6B GGUF"; cm_source_repo_id := "Qwen/Qwen3-0.6B-GGUF";
     cm_preferred_filename := "Qwen3-0.6B-Q8_0.gguf";
     cm_runtime_model_ids := ["Qwen/Qwen3-0.6B-GGUF"]; cm_total_layers := Some 28;
     cm_hidden_size := Some 1024; cm_private_network := false; cm_minimum_worker_shards := 1;
     cm_allow_single_node_fallback := false |};
  {| cm_model_id := "Qwen/Qwen2.5-0.5B-Instruct-GGUF";
     cm_execution_model_id := "Qwen/Qwen2.5-0.5B-Instruct-GGUF";
     cm_display_name := "Qwen2.5 0.5B Instruct GGUF";
     cm_source_repo_id := "Qwen/Qwen2.5-0.5B-Instruct-GGUF";
     cm_preferred_filename := "qwen2.5-0.5b-instruct-q4_k_m.gguf";
     cm_runtime_model_ids := ["Qwen/Qwen2.5-0.5B-Instruct-GGUF"]; cm_total_layers := Some 24;
     cm_hidden_size := Some 896; cm_private_network := false; cm_minimum_worker_shards := 1;
     cm_allow_single_node_fallback := false |}
].

Definition curated_model_registry : list CuratedNetworkModel := CURATED_NETWORK_MODELS.

Definition DEFAULT_PRIVATE_CURATED_MODEL_IDS : list string :=
  map cm_model_id (List.filter cm_private_network CURATED_NETWORK_MODELS).

Definition DEFAULT_NETWORK_EXECUTION_MODEL_IDS : list string :=
  dedup_keep_first [] (map cm_execution_model_id CURATED_NETWORK_MODELS).

(** The fields of [NetworkModelPolicy] the modelled code reads. *)
Record NetworkModelPolicy := {
  network_default_model_id : string;
  network_default_execution_model_id : string;
  private_curated_model_ids : list string;
  network_execution_model_ids : list string;
  minimum_worker_shards : Z;
  allow_single_node_private_inference : bool
}.

Definition default_network_model_policy (env : Environ) : NetworkModelPolicy := {|
  network_default_model_id := DEFAULT_PRIVATE_NETWORK_MODEL_ID;
  network_default_execution_model_id := DEFAULT_PRIVATE_EXECUTION_MODEL_ID;
  private_curated_model_ids := DEFAULT_PRIVATE_CURATED_MODEL_IDS;
  network_execution_model_ids := DEFAULT_NETWORK_EXECUTION_MODEL_IDS;
  minimum_worker_shards := 2;
  allow_single_node_private_inference :=
    Money._env_flag env "CAI_PRIVATE_NETWORK_MODEL_ALLOW_BOOTSTRAP_SINGLE_NODE" true |}.

Definition effective_private_worker_shard_minimum (np : NetworkModelPolicy)
    (available_worker_count : option Z) : Z :=
  match available_worker_count with
  | Some n =>
      if allow_single_node_private_inference np && (0 <? n) then 1
      else Z.max 1 (minimum_worker_shards np)
  | None => Z.max 1 (minimum_worker_shards np)
  end.

Definition normalize_network_model_id (model_id : string) (np : NetworkModelPolicy) : string :=
  if String.eqb model_id LEGACY_PRIVATE_NETWORK_MODEL_ID then network_default_model_id np else model_id.

Definition is_private_curated_model_id (model_id : string) (np : NetworkModelPolicy) : bool :=
  bool_decide (normalize_network_model_id model_id np ∈ private_curated_model_ids np).

(** The model id is tried first, then the ids a model runs under. *)
Definition curated_model_for_id (model_id : string) : option CuratedNetworkModel :=
  let candidate := strip model_id in
  if String.eqb candidate "" then None
  else
    match List.find (λ m, String.eqb candidate (cm_model_id m)) CURATED_NETWORK_MODELS with
    | Some m => Some m
    | None =>
        List.find (λ m, String.eqb candidate (cm_execution_model_id m)
                        || bool_decide (candidate ∈ cm_runtime_model_ids m)) CURATED_NETWORK_MODELS
    end.

Definition is_registered_curated_model_id (model_id : string) : bool :=
  match curated_model_for_id model_id with Some _ => true | None => false end.

Definition resolve_execution_model_id (model_id : string) (np : NetworkModelPolicy) : string :=
  let normalized_model_id := normalize_network_model_id model_id np in
  let fallback :=
    if String.eqb normalized_model_id (network_default_model_id np)
    then network_default_execution_model_id np else normalized_model_id in
  match curated_model_for_id normalized_model_id with
  | Some m =>
      if String.eqb normalized_model_id (cm_model_id m) then cm_execution_model_id m else fallback
  | None => fallback
  end.

(** * The automatic price of a job

    [economics.py], second part: the quote of the network from the size of a prompt, the model,
    the load of the network and the state of the reserve.  The snapshot of the network is an
    argument (the code reads it over HTTP); the multipliers are those of [Funding]. *)


Record AutomaticPriceQuote := {
  aq_pricing_mode : string;
  aq_pricing_basis : string;
  aq_compute_cost_atomic : Z;
  aq_base_price_atomic : Z;
  aq_prompt_units : Z;
  aq_prompt_tokens_estimate : option Z;
  aq_reserved_output_tokens : option Z;
  aq_input_token_price_atomic : option Z;
  aq_output_token_price_atomic : option Z;
  aq_model_multiplier_bps : Z;
  aq_load_multiplier_bps : Z;
  aq_reserve_multiplier_bps : Z;
  aq_final_multiplier_bps : Z;
  aq_was_capped : bool;
  aq_snapshot : NetworkStatePricingSnapshot;
  aq_reason : string
}.

Record ResolvedPriceQuote := {
  rq_compute_cost_atomic : Z;
  rq_pricing_mode : string;
  rq_pricing_basis : string;
  rq_pricing_reason : string;
  rq_automatic_quote : option AutomaticPriceQuote
}.

Definition _model_multiplier_bps (model_id : string) (mp : MoneyPolicy) (np : NetworkModelPolicy) : Z :=
  let known :=
    map (λ candidate, normalize_network_model_id candidate np) (network_execution_model_ids np) in
  if bool_decide (normalize_network_model_id model_id np ∈ known) then 10000
  else 10000 + automatic_price_non_default_model_premium_bps mp.

(** The texts [_load_multiplier_bps] returns beside its factor. *)
Definition load_reasons (snapshot : NetworkStatePricingSnapshot) (mp : MoneyPolicy)
    (minimum_worker_shards : Z) : list string :=
  let min_connections := Z.max (automatic_price_target_connections mp) minimum_worker_shards in
  let n := topology_connections snapshot in
  let connections :=
    if n <? min_connections
    then ["Only " +:+ str_of_Z n +:+ " routable connection(s) are available, so the network applied a small scarcity surcharge."]
    else if min_connections <? n
    then ["Healthy multi-node connectivity enabled a small protocol discount."]
    else [] in
  let cpu :=
    match average_cpu_usage snapshot with
    | None => []
    | Some u =>
        if Qle_bool (automatic_price_high_load_threshold mp) u
        then ["Current node load is high, so the quote added a bounded load surcharge."]
        else if Qle_bool u (automatic_price_low_load_threshold mp) && (min_connections <=? n)
        then ["Current node load is low, so the quote applied a small discount."]
        else []
    end in
  connections ++ cpu.

Definition load_reason (snapshot : NetworkStatePricingSnapshot) (mp : MoneyPolicy)
    (minimum_worker_shards : Z) : string :=
  if negb (reachable snapshot)
  then "Network state was unreachable, so a conservative but bounded price was used."
  else
    match load_reasons snapshot mp minimum_worker_shards with
    | [] => "Network load stayed within the normal target range."
    | l => join " " l
    end.

(** The text [_reserve_multiplier_bps] returns beside its factor. *)
Definition reserve_reason (compute_reserve_balance : Z) (mp : MoneyPolicy) : string :=
  let initial_reserve_atomic := compute_reserve_coins mp * 10 ^ Z.of_nat (decimals mp) in
  if initial_reserve_atomic <=? 0
  then "Reserve baseline is unavailable, so no reserve adjustment was applied."
  else
    let ratio_le (bound : Q) : bool :=
      (compute_reserve_balance <=? 0)
      || Qle_bool (true_div compute_reserve_balance initial_reserve_atomic) bound in
    if ratio_le double_0_10
    then "Compute reserve is critically low, so the quote added a bounded protection premium."
    else if ratio_le (1 # 4)%Q
    then "Compute reserve is getting low, so the quote added a small reserve-protection premium."
    else "Compute reserve is healthy, so no reserve premium was added.".

(** What the two bases of a price compute before the multipliers. *)
Record BasePrice := {
  bp_basis : string;
  bp_prompt_units : Z;
  bp_prompt_tokens : option Z;
  bp_output_tokens : option Z;
  bp_input_price : option Z;
  bp_output_price : option Z;
  bp_base_price_atomic : Z
}.

(** [ceil(n / d)]: the quotient is a double before it is rounded up. *)
Definition ceil_div (n d : Z) : Z :=
  let q := double_div n d in - (- Qnum q / Zpos (Qden q)).

Definition base_price (prompt : string) (max_output_tokens : option Z) (floor_atomic per_unit_atomic : Z)
    (mp : MoneyPolicy) : result BasePrice :=
  if automatic_token_pricing_enabled mp then
    let tokens := estimate_prompt_token_upper_bound prompt in
    let output := resolve_reserved_output_tokens max_output_tokens mp in
    input_price ← coins_to_atomic (automatic_price_per_input_token_coins mp) mp;
    output_price ← coins_to_atomic (automatic_price_per_output_token_coins mp) mp;
    Ok {| bp_basis := "llm_tokens"; bp_prompt_units := 0; bp_prompt_tokens := Some tokens;
          bp_output_tokens := Some output; bp_input_price := Some input_price;
          bp_output_price := Some output_price;
          bp_base_price_atomic := tokens * input_price + output * output_price |}
  else
    let units :=
      Z.max 1 (ceil_div (Z.max (Z.of_nat (String.length (strip prompt))) 1)
                 (Z.max (automatic_price_prompt_unit_chars mp) 1)) in
    Ok {| bp_basis := "prompt_chars"; bp_prompt_units := units; bp_prompt_tokens := None;
          bp_output_tokens := None; bp_input_price := None; bp_output_price := None;
          bp_base_price_atomic := floor_atomic + Z.max (units - 1) 0 * per_unit_atomic |}.

(** [" ".join(part.strip() for part in parts if part.strip())] *)
Definition join_parts (parts : list string) : string :=
  join " " (List.filter (λ p, negb (String.eqb p "")) (map strip parts)).

Definition quote_automatic_compute_price (prompt model_id : string) (compute_reserve_balance : Z)
    (max_output_tokens : option Z) (mp : MoneyPolicy) (np : NetworkModelPolicy)
    (snapshot : NetworkStatePricingSnapshot) : result AutomaticPriceQuote :=
  floor_atomic ← coins_to_atomic (automatic_price_floor_coins mp) mp;
  cap_atomic ← coins_to_atomic (automatic_price_cap_coins mp) mp;
  per_unit_atomic ← coins_to_atomic (automatic_price_per_prompt_unit_coins mp) mp;
  bp ← base_price prompt max_output_tokens floor_atomic per_unit_atomic mp;
  let model_bps := _model_multiplier_bps model_id mp np in
  let load_bps := _load_multiplier_bps snapshot mp (minimum_worker_shards np) in
  let reserve_bps := _reserve_multiplier_bps compute_reserve_balance mp in
  let final_bps := final_multiplier model_bps load_bps reserve_bps in
  token_cost ← calculate_token_priced_cost (bp_prompt_tokens bp) (bp_output_tokens bp) final_bps mp
                 (bp_input_price bp) (bp_output_price bp) (Some floor_atomic) (Some cap_atomic);
  let raw := bp_base_price_atomic bp * final_bps / 10000 in
  let tokens := String.eqb (bp_basis bp) "llm_tokens" in
  let cost := if tokens then tc_compute_cost_atomic token_cost
              else Z.min (Z.max raw floor_atomic) cap_atomic in
  let capped := if tokens then tc_was_capped token_cost else cap_atomic <? raw in
  let budget :=
    match bp_prompt_tokens bp with
    | Some n =>
        ["Reserved prompt/output budget: " +:+ str_of_Z n +:+ " input token(s) and "
         +:+ str_of_Z (default 0 (bp_output_tokens bp)) +:+ " output token(s)."]
    | None => []
    end in
  let parts :=
    ["Automatic network pricing keeps compute within a bounded protocol range.";
     (if tokens then "Prompt and reserved output are priced by LLM token allowance."
      else "Prompt size contributes " +:+ str_of_Z (bp_prompt_units bp) +:+ " unit(s).");
     load_reason snapshot mp (minimum_worker_shards np); reserve_reason compute_reserve_balance mp]
    ++ budget
    ++ (if capped then ["Protocol price cap prevented the quote from becoming too high."] else []) in
  Ok {| aq_pricing_mode := "network_auto"; aq_pricing_basis := bp_basis bp;
        aq_compute_cost_atomic := cost; aq_base_price_atomic := bp_base_price_atomic bp;
        aq_prompt_units := bp_prompt_units bp; aq_prompt_tokens_estimate := bp_prompt_tokens bp;
        aq_reserved_output_tokens := bp_output_tokens bp;
        aq_input_token_price_atomic := bp_input_price bp;
        aq_output_token_price_atomic := bp_output_price bp; aq_model_multiplier_bps := model_bps;
        aq_load_multiplier_bps := load_bps; aq_reserve_multiplier_bps := reserve_bps;
        aq_final_multiplier_bps := final_bps; aq_was_capped := capped; aq_snapshot := snapshot;
        aq_reason := join_parts parts |}.

Definition resolve_compute_price (compute_amount_coins : option string) (prompt model_id : string)
    (compute_reserve_balance : Z) (max_output_tokens : option Z) (mp : MoneyPolicy)
    (np : NetworkModelPolicy) (snapshot : NetworkStatePricingSnapshot) : result ResolvedPriceQuote :=
  match compute_amount_coins with
  | Some coins =>
      cost ← coins_to_atomic coins mp;
      Ok {| rq_compute_cost_atomic := cost; rq_pricing_mode := "manual"; rq_pricing_basis := "manual";
            rq_pricing_reason := "Manual compute amount was provided by the user.";
            rq_automatic_quote := None |}
  | None =>
      if String.eqb (strip prompt) ""
      then Err (ValueError "Prompt is required when automatic network pricing is used without --amount.")
      else
        q ← quote_automatic_compute_price prompt model_id compute_reserve_balance max_output_tokens mp np
              snapshot;
        Ok {| rq_compute_cost_atomic := aq_compute_cost_atomic q;
              rq_pricing_mode := aq_pricing_mode q; rq_pricing_basis := aq_pricing_basis q;
              rq_pricing_reason := aq_reason q; rq_automatic_quote := Some q |}
  end.

(** * The token usage of a job

    [job_pricing.py]: the tokens the model's response reports, the tokens the execution proof
    of the owned transport reports, and which of them a job is priced by.  JSON numbers are
    integers. *)


Definition pricing_floor_atomic (mp : MoneyPolicy) : result Z :=
  coins_to_atomic (automatic_price_floor_coins mp) mp.

Definition pricing_cap_atomic (mp : MoneyPolicy) : result Z :=
  coins_to_atomic (automatic_price_cap_coins mp) mp.

(** [int(v)] with [TypeError] and [ValueError] skipped. *)
Definition int_or_none (v : pyval) : option Z :=
  match v with VNone => None | _ => match py_int v with Ok z => Some z | Err _ => None end end.

Fixpoint first_int_value (payload : pydict) (keys : list string) : option Z :=
  match keys with
  | [] => None
  | k :: keys' =>
      match int_or_none (dget k payload) with Some z => Some z | None => first_int_value payload keys' end
  end.

Fixpoint first_positive (payload : pydict) (keys : list string) : option Z :=
  match keys with
  | [] => None
  | k :: keys' =>
      match int_or_none (dget k payload) with
      | Some z => if 0 <? z then Some z else first_positive payload keys'
      | None => first_positive payload keys'
      end
  end.

Definition extract_reserved_output_tokens (request_payload_preview : pyval) (mp : MoneyPolicy) : Z :=
  match request_payload_preview with
  | VDict d =>
      match first_positive d ["max_tokens"; "max_output_tokens"] with
      | Some n => resolve_reserved_output_tokens (Some n) mp
      | None => resolve_reserved_output_tokens None mp
      end
  | _ => resolve_reserved_output_tokens None mp
  end.

(** A dict of token counts. *)
Record Usage := {
  us_prompt_tokens : Z;
  us_completion_tokens : Z;
  us_total_tokens : Z
}.

#[export] Instance usage_eq_dec : EqDecision Usage.
Proof. solve_decision. Defined.

Definition usage_dict (u : Usage) : pyval :=
  VDict [("prompt_tokens", VInt (us_prompt_tokens u)); ("completion_tokens", VInt (us_completion_tokens u));
         ("total_tokens", VInt (us_total_tokens u))].

Definition extract_llm_token_usage (payload : pydict) : option Usage :=
  match dget "usage" payload with
  | VDict usage =>
      let prompt_tokens := first_int_value usage ["prompt_tokens"; "input_tokens"] in
      let completion_tokens := first_int_value usage ["completion_tokens"; "output_tokens"] in
      if bool_decide (prompt_tokens = None) && bool_decide (completion_tokens = None) then None
      else
        let p := Z.max (default 0 prompt_tokens) 0 in
        let c := Z.max (default 0 completion_tokens) 0 in
        Some {| us_prompt_tokens := p; us_completion_tokens := c;
                us_total_tokens := Z.max (default (p + c) (first_int_value usage ["total_tokens"])) 0 |}
  | _ => None
  end.

(** ** The execution proof *)

(** An item of [per_executor]. *)
Record ExecutorUsage := {
  eu_node_id : string;
  eu_prompt : option Z;
  eu_completion : option Z;
  eu_input : Z;
  eu_output : Z;
  eu_total : Z;
  eu_activation_batches : Z;
  eu_decode_batches : Z;
  eu_batch_ids : list pyval;
  eu_stage_ids : list pyval
}.

Definition nat_of (o : option Z) : Z := Z.max 0 (default 0 o).

(** [int(d.get(k) or 0)] *)
Definition int_or_zero (k : string) (d : pydict) : result Z := py_int (py_or (dget k d) (VInt 0)).

(** The body of the loop over the shard receipts: [None] skips the receipt. *)
Definition executor_usage (receipt : pyval) : result (option ExecutorUsage) :=
  match receipt with
  | VDict r =>
      match dget "metrics" r with
      | VDict m =>
          let prompt := first_int_value m ["promptTokenCount"; "promptTokens"; "prompt_tokens"] in
          let completion :=
            first_int_value m ["completionTokenCount"; "completionTokens"; "completion_tokens"] in
          let input := first_int_value m ["inputTokenCount"; "inputTokens"; "input_tokens"] in
          let output := first_int_value m ["outputTokenCount"; "outputTokens"; "output_tokens"] in
          let total :=
            first_int_value m ["tokenCount"; "totalTokenCount"; "totalTokens"; "total_tokens"; "tokens"] in
          if forallb (λ o, nat_of o <=? 0) [prompt; completion; input; output; total] then Ok None
          else
            activation ← int_or_zero "activationBatchCount" r;
            decode ← int_or_zero "decodeBatchCount" r;
            batch_ids ← py_list (py_or (dget "batchIds" r) (VList []));
            stage_ids ← py_list (py_or (dget "stageIds" r) (VList []));
            Ok (Some {| eu_node_id := str_or_strip (dget "nodeId" r);
                        eu_prompt := (λ z, Z.max 0 z) <$> prompt;
                        eu_completion := (λ z, Z.max 0 z) <$> completion;
                        eu_input := nat_of input; eu_output := nat_of output; eu_total := nat_of total;
                        eu_activation_batches := Z.max 0 activation;
                        eu_decode_batches := Z.max 0 decode;
                        eu_batch_ids := batch_ids; eu_stage_ids := stage_ids |})
      | _ => Ok None
      end
  | _ => Ok None
  end.

Definition executor_usages (receipts : list pyval) : result (list ExecutorUsage) :=
  match mapM_r executor_usage receipts with
  | Ok items => Ok (omap (λ x, x) items)
  | Err e => Err e
  end.

(** [max(counts) if counts else d] *)
Definition max_or (d : Z) (l : list Z) : Z := match l with [] => d | x :: l' => foldl Z.max x l' end.

Definition max_opt (l : list Z) : option Z := match l with [] => None | _ => Some (max_or 0 l) end.

(** The tokens of one logical stream: every shard of a pipeline sees the same stream, so the
    counts of the executors are not added up. *)
Definition logical_usage (per_executor : list ExecutorUsage) : option Usage :=
  let logical_prompt := max_opt (omap eu_prompt per_executor) in
  let logical_completion := max_opt (omap eu_completion per_executor) in
  let logical_input := max_or 0 (map eu_input per_executor) in
  let logical_output := max_or 0 (map eu_output per_executor) in
  let logical_total := max_or 0 (map eu_total per_executor) in
  let usage p c := Some {| us_prompt_tokens := p; us_completion_tokens := c; us_total_tokens := p + c |} in
  match logical_prompt with
  | Some p => usage p (default logical_output logical_completion)
  | None =>
      if 0 <? logical_input then
        usage (if (0 <? logical_output) && (logical_output <=? logical_input)
               then Z.max 0 (logical_input - logical_output) else logical_input) logical_output
      else if 0 <? logical_total then usage (Z.max 0 (logical_total - logical_output)) logical_output
      else if 0 <? logical_output then usage 0 logical_output
      else None
  end.

Definition some_text (s : string) : pyval := if String.eqb s "" then VNone else VStr s.
Definition val_int (o : option Z) : pyval := match o with Some z => VInt z | None => VNone end.

Definition executor_dict (e : ExecutorUsage) : pyval :=
  VDict [("node_id", some_text (eu_node_id e)); ("prompt_token_count", val_int (eu_prompt e));
         ("completion_token_count", val_int (eu_completion e)); ("input_token_count", VInt (eu_input e));
         ("output_token_count", VInt (eu_output e)); ("token_count", VInt (eu_total e));
         ("activation_batch_count", VInt (eu_activation_batches e));
         ("decode_batch_count", VInt (eu_decode_batches e)); ("batch_ids", VList (eu_batch_ids e));
         ("stage_ids", VList (eu_stage_ids e))].

Definition proof_audit (proof : pydict) (l : list ExecutorUsage) (u : Usage) : pyval :=
  VDict
    [("schema_version", VInt 1); ("source", VStr "cai_owned_transport_proof");
     ("session_id", some_text (str_or_strip (dget "sessionId" proof)));
     ("instance_id", some_text (str_or_strip (dget "instanceId" proof)));
     ("model_id", some_text (str_or_strip (dget "modelId" proof)));
     ("executor_count", VInt (Z.of_nat (length l)));
     ("logical_prompt_token_count", val_int (max_opt (omap eu_prompt l)));
     ("logical_completion_token_count", val_int (max_opt (omap eu_completion l)));
     ("logical_input_token_count", VInt (max_or 0 (map eu_input l)));
     ("logical_output_token_count", VInt (max_or 0 (map eu_output l)));
     ("logical_total_token_count", VInt (us_total_tokens u));
     ("aggregate_prompt_token_count", VInt (sumZ (omap eu_prompt l)));
     ("aggregate_completion_token_count", VInt (sumZ (omap eu_completion l)));
     ("aggregate_input_token_count", VInt (sumZ (map eu_input l)));
     ("aggregate_output_token_count", VInt (sumZ (map eu_output l)));
     ("aggregate_total_token_count", VInt (sumZ (map eu_total l)));
     ("pricing_uses_logical_token_stream", VBool true);
     ("per_executor", VList (map executor_dict l))].

(** The usage and its audit. *)
Definition extract_cai_owned_transport_token_usage (network_audit : pydict)
  : result (option (Usage * pyval)) :=
  if negb (truthy (dget "caiOwnedTransportExecuted" network_audit)) then Ok None
  else
    match dget "caiOwnedTransportExecutionProof" network_audit with
    | VDict proof =>
        match dget "shardReceipts" proof with
        | VList receipts =>
            per_executor ← executor_usages receipts;
            Ok (u ← logical_usage per_executor; Some (u, proof_audit proof per_executor u))
        | _ => Ok None
        end
    | _ => Ok None
    end.

Definition merge_llm_token_usage_audit (response_usage : option Usage)
    (proof_usage : option (Usage * pyval)) : option Usage * option string * option pyval :=
  match proof_usage with
  | Some (u, audit) =>
      let base :=
        [("schema_version", VInt 1); ("source", VStr "cai_owned_transport_proof");
         ("cai_owned_transport_proof", audit); ("proof_usage", usage_dict u)] in
      let response :=
        match response_usage with
        | Some r => [("response_usage", usage_dict r);
                     ("proof_matches_response_usage", VBool (bool_decide (r = u)))]
        | None => []
        end in
      (Some u, Some "cai_owned_transport_proof", Some (VDict (base ++ response)))
  | None =>
      match response_usage with
      | Some r =>
          (Some r, Some "response_usage",
           Some (VDict [("schema_version", VInt 1); ("source", VStr "response_usage");
                        ("response_usage", usage_dict r)]))
      | None => (None, None, None)
      end
  end.
