(* ===== verification/Eligibility.v ===== *)
(** * Who is paid for a job

    The rest of [job_reward_distribution.py] and the snapshot of
    [job_instance_placement.py]: the participants of an instance from its shard assignments,
    and the participants whose shards the execution proof of the owned transport names.  The
    participants of a snapshot have the keys [extract_instance_participants] gives them. *)
From Stdlib Require Import Ascii QArith.
From S2P Require Import Prelude.
From S2P Require Import PyStr.
From S2P Require Import PyVal.
From S2P Require Import PyOrder.
From S2P Require Import Money.
From S2P Require Import Apportion.
From S2P Require Import Funding.
From S2P Require Import Validators.
From S2P Require Import Pricing.
Local Open Scope Z_scope.
Set Default Proof Using "Type".

(** ** Participants of an instance *)

(** A dict with one entry that is a dict stands for that entry. *)
Definition unwrap_shard_metadata (shard_payload : pyval) : pydict :=
  match shard_payload with
  | VDict [(_, VDict d)] => d
  | VDict d => d
  | _ => []
  end.

(** [v if isinstance(v, int)]: a Boolean is an [int]. *)
Definition as_int (v : pyval) : option Z :=
  match v with VInt z => Some z | VBool b => Some (if b then 1 else 0) | _ => None end.

Definition layer_count_from_metadata (metadata : pydict) : Z :=
  let n_layers :=
    match as_int (dget "nLayers" metadata) with
    | Some n => if 0 <? n then n else 1
    | None => 1
    end in
  match as_int (dget "startLayer" metadata), as_int (dget "endLayer" metadata) with
  | Some start, Some stop => if start <? stop then Z.max (stop - start) 1 else n_layers
  | _, _ => n_layers
  end.

Definition participant_key (p : Participant) : sort_key :=
  [KI (match pa_layer_start p with None => 1 | Some _ => 0 end);
   KI (default (10 ^ 9) (pa_layer_start p)); KS (pa_node_id p)].

(** [d.get(k)] where [k] may be any value: an unhashable one raises. *)
Definition get_any (k : pyval) (d : pydict) : result pyval :=
  match k with
  | VStr s => Ok (dget s d)
  | VList _ | VDict _ => Err TypeError
  | _ => Ok VNone
  end.

Definition instance_participant (runner_to_shard : pydict) (node_runner : string * pyval)
  : result Participant :=
  shard_payload ← get_any node_runner.2 runner_to_shard;
  let metadata := unwrap_shard_metadata (py_or shard_payload (VDict [])) in
  Ok {| pa_node_id := node_runner.1; pa_runner_id := VStr (py_str node_runner.2);
        pa_layer_start := as_int (dget "startLayer" metadata);
        pa_layer_end := as_int (dget "endLayer" metadata);
        pa_layer_count := Some (layer_count_from_metadata metadata) |}.

(** [d.get(k) or {}], of which [.get] and [.items] are used. *)
Definition dict_attr (v : pyval) : result pydict :=
  match py_or v (VDict []) with VDict d => Ok d | _ => Err AttributeError end.

Definition extract_instance_participants (shard_assignments : pydict) : result (list Participant) :=
  node_to_runner ← dict_attr (dget "nodeToRunner" shard_assignments);
  match node_to_runner with
  | [] => Ok []
  | _ =>
      runner_to_shard ← dict_attr (dget "runnerToShard" shard_assignments);
      participants ← mapM_r (instance_participant runner_to_shard) node_to_runner;
      Ok (sorted_by participant_key participants)
  end.

(** The dict of an instance the settlement reads. *)
Record InstanceSnapshot := {
  is_instance_id : string;
  is_snapshot_source : string;
  is_participants : list Participant;
  is_relay_routes_by_node : pyval
}.

Definition relay_routes_field (instance_payload : pydict) : pyval :=
  py_or (dget "relayRoutesByNode" instance_payload)
    (py_or (dget "relay_routes_by_node" instance_payload) (VDict [])).

(** The first payload of the item with the model. *)
Fixpoint snapshot_from_instance_state_item (instance_id : string) (instance_item : pydict)
    (model_id : option string) : result (option InstanceSnapshot) :=
  match instance_item with
  | [] => Ok None
  | (_, VDict instance_payload) :: rest =>
      match py_or (dget "shardAssignments" instance_payload) (VDict []) with
      | VDict shard_assignments =>
          if match model_id with
             | Some m => negb (bool_decide (dget "modelId" shard_assignments = VStr m))
             | None => false
             end
          then snapshot_from_instance_state_item instance_id rest model_id
          else
            participants ← extract_instance_participants shard_assignments;
            Ok (Some {| is_instance_id := instance_id; is_snapshot_source := "state";
                        is_participants := participants;
                        is_relay_routes_by_node := relay_routes_field instance_payload |})
      | _ => snapshot_from_instance_state_item instance_id rest model_id
      end
  | _ :: rest => snapshot_from_instance_state_item instance_id rest model_id
  end.

Definition snapshot_from_instance_definition (instance_definition : pyval) (snapshot_source : string)
  : result (option InstanceSnapshot) :=
  match instance_definition with
  | VDict ((instance_type, VDict instance_payload) :: _) =>
      match py_or (dget "shardAssignments" instance_payload) (VDict []) with
      | VDict shard_assignments =>
          participants ← extract_instance_participants shard_assignments;
          Ok (Some {| is_instance_id :=
                        py_str (py_or (dget "instanceId" instance_payload)
                                  (VStr ("planned:" +:+ instance_type)));
                      is_snapshot_source := snapshot_source; is_participants := participants;
                      is_relay_routes_by_node := relay_routes_field instance_payload |})
      | _ => Ok None
      end
  | _ => Ok None
  end.

(** [job_network_audit.py] *)
Definition participant_node_ids (snapshot : option InstanceSnapshot) : list string :=
  match snapshot with
  | None => []
  | Some s =>
      dedup_keep_first []
        (List.filter (λ n, negb (String.eqb n "")) (map (λ p, strip (pa_node_id p)) (is_participants s)))
  end.

(** ** The participants that are paid *)

(** [optional_int_value(payload.get(k))] of the first key that gives a number. *)
Definition optional_int_field_value (payload : pydict) (keys : list string) : option Z :=
  first_int_value payload keys.

Definition optional_int_value (v : pyval) : option Z := int_or_none v.

Definition participant_of_node (ps : list Participant) (node_id : string) : option Participant :=
  List.find (λ p, String.eqb (strip (pa_node_id p)) node_id) (rev ps).

(** The layers of a participant: those of its receipt, else those of the snapshot, else the
    batches the receipt counts. *)
Definition receipt_layer_count (receipt : pydict) (start stop base_count : option Z) : Z :=
  let batches :=
    Z.max (Z.max 1 (default 0 (optional_int_value (dget "activationBatchCount" receipt))))
      (default 0 (optional_int_value (dget "decodeBatchCount" receipt))) in
  let fallback := default batches base_count in
  match start, stop with
  | Some a, Some b => if a <? b then b - a else fallback
  | _, _ => fallback
  end.

Definition receipt_participant (receipt : pydict) (node_id : string) (base : option Participant)
  : Participant :=
  let start :=
    some_or (optional_int_field_value receipt ["layerStart"; "layer_start"]) (base ≫= pa_layer_start) in
  let stop :=
    some_or (optional_int_field_value receipt ["layerEnd"; "layer_end"]) (base ≫= pa_layer_end) in
  {| pa_node_id := node_id;
     pa_runner_id :=
       py_or (default VNone (pa_runner_id <$> base)) (VStr ("cai-owned-transport:" +:+ node_id));
     pa_layer_start := start; pa_layer_end := stop;
     pa_layer_count := Some (Z.max (receipt_layer_count receipt start stop (base ≫= pa_layer_count)) 1) |}.

(** The node of a receipt that counts: completed and named. *)
Definition completed_node (receipt : pyval) : option (pydict * string) :=
  match receipt with
  | VDict r =>
      let node_id := str_or_strip (dget "nodeId" r) in
      if String.eqb (str_or_strip (dget "status" r)) "completed" && negb (String.eqb node_id "")
      then Some (r, node_id) else None
  | _ => None
  end.

Fixpoint receipt_participants (ps : list Participant) (seen : list string) (receipts : list pyval)
  : list Participant :=
  match receipts with
  | [] => []
  | receipt :: receipts' =>
      match completed_node receipt with
      | None => receipt_participants ps seen receipts'
      | Some (r, node_id) =>
          if bool_decide (node_id ∈ seen) then receipt_participants ps seen receipts'
          else receipt_participant r node_id (participant_of_node ps node_id)
                 :: receipt_participants ps (seen ++ [node_id]) receipts'
      end
  end.

(** [sorted(dict.fromkeys(skipped))] when there are any. *)
Definition skipped_nodes (ps : list Participant) (paid : list string) : list string :=
  py_sorted str_leb
    (dedup_keep_first []
       (List.filter (λ n, negb (String.eqb n "") && negb (bool_decide (n ∈ paid)))
          (map (λ p, strip (pa_node_id p)) ps))).

(** The participants that are paid and the audit the call leaves. *)
Definition settlement_participants_for_reward (participants : list Participant) (network_audit : pydict)
  : list Participant * pydict :=
  if negb (truthy (dget "caiOwnedTransportExecuted" network_audit)) then (participants, network_audit)
  else
    match dget "caiOwnedTransportExecutionProof" network_audit with
    | VDict proof =>
        let source := VStr "cai_owned_transport_shard_receipts" in
        match dget "shardReceipts" proof with
        | VList ((_ :: _) as receipts) =>
            let paid := receipt_participants participants [] receipts in
            let ids := map pa_node_id paid in
            let audit :=
              dset "rewardPayoutNodeIds" (VList (map VStr ids))
                (dset "rewardPayoutSource" source network_audit) in
            (paid,
             match skipped_nodes participants ids with
             | [] => audit
             | l => dset "rewardSkippedNodeIdsWithoutShardReceipt" (VList (map VStr l)) audit
             end)
        | _ => ([], dset "rewardPayoutNodeIds" (VList []) (dset "rewardPayoutSource" source network_audit))
        end
    | _ => (participants, network_audit)
    end.

(** * Which participants a job may pay

    [job_worker_eligibility.py]: the audit of the participants of an executed job from the
    identities of the live state, the attested capability records and the network audit.
    [age_seconds] reads an ISO time: [int((now - time).total_seconds())], [None] when it does
    not parse. *)


(** The fields of a [NodeCapabilityRecord] the audit reads. *)
Record CapabilityRecord := {
  cr_node_id : string;
  cr_last_seen_at : option string;
  cr_worker_enabled : pyval;
  cr_worker_reward_address : pyval;
  cr_worker_allowed_model_ids : list string;
  cr_friendly_name : option string;
  cr_node_public_key_b64 : option string;
  cr_node_public_key_address : option string;
  cr_relay_enabled : option bool;
  cr_readiness : pydict
}.

(** [x if x is not None else y] *)
Definition if_none (v w : pyval) : pyval := match v with VNone => w | _ => v end.

Definition worker_identity_state (identity : pyval) : option bool * option string :=
  match identity with
  | VDict d =>
      let enabled := if_none (dget "workerEnabled" d) (dget "worker_enabled" d) in
      let address :=
        str_or_strip (py_or (dget "workerRewardAddress" d) (dget "worker_reward_address" d)) in
      (match enabled with VNone => None | v => Some (truthy v) end,
       if String.eqb address "" then None else Some address)
  | _ => (None, None)
  end.

Section audit.
Context (np : NetworkModelPolicy) (age_seconds : string → option Z).

Definition identity_allowed_model_ids (identity : pyval) : option (list string) :=
  match identity with
  | VDict d =>
      let raw :=
        py_or (dget "workerAllowedModelIds" d)
          (py_or (dget "worker_allowed_model_ids" d)
             (py_or (dget "allowedModelIds" d) (dget "allowed_model_ids" d))) in
      match raw with
      | VNone => None
      | VList l =>
          Some (map (λ v, normalize_network_model_id (py_str v) np)
                  (List.filter (λ v, negb (String.eqb (str_or_strip v) "")) l))
      | _ => Some []
      end
  | _ => None
  end.

(** The ids of a registered model. *)
Definition registry_ids (m : CuratedNetworkModel) : list string :=
  cm_model_id m :: cm_execution_model_id m :: cm_runtime_model_ids m.

Definition accepted_worker_model_ids (model_id : string) : gset string :=
  let normalized_model_id := normalize_network_model_id model_id np in
  let own :=
    [normalized_model_id; normalize_network_model_id (resolve_execution_model_id model_id np) np] in
  let curated := match curated_model_for_id model_id with Some m => registry_ids m | None => [] end in
  let related :=
    concat (map registry_ids
      (List.filter (λ m, bool_decide (normalized_model_id ∈
                           map (λ i, normalize_network_model_id i np) (registry_ids m)))
         curated_model_registry)) in
  list_to_set (List.filter (λ s, negb (String.eqb s "")) (own ++ curated ++ related)).

Definition worker_model_allowed (allowed : option (list string)) (accepted : gset string)
  : option bool :=
  match allowed with
  | None => None
  | Some [] => Some true
  | Some l => Some (bool_decide (Exists (λ i, i ∈ accepted) l))
  end.

Definition identity_last_seen_at (identity : pyval) : option string :=
  match identity with
  | VDict d =>
      let raw :=
        py_or (dget "lastSeenAt" d)
          (py_or (dget "last_seen_at" d) (py_or (dget "lastSeen" d) (dget "last_seen" d))) in
      match raw with
      | VNone => None
      | v => let s := strip (py_str v) in if String.eqb s "" then None else Some s
      end
  | _ => None
  end.

Definition parsed_age (value : option string) : option Z :=
  match value with
  | Some s => if String.eqb s "" then None else age_seconds s
  | None => None
  end.

Definition capability_record_is_stale (record : CapabilityRecord) (stale_after_seconds : Z) : bool :=
  match parsed_age (Some (strip (default "" (cr_last_seen_at record)))) with
  | None => false
  | Some age => Z.max 0 stale_after_seconds <? Z.max 0 age
  end.

(** The records by node; [verified] is what [list_verified_worker_node_ids] returns. *)
Definition capability_records_by_node_id (stale_after_seconds : Z) (require_verified : bool)
    (verified : gset string) (records : list CapabilityRecord) : gmap string CapabilityRecord :=
  if require_verified && bool_decide (verified = ∅) then ∅
  else
    foldl (λ m r,
      let node_id := strip (cr_node_id r) in
      if String.eqb node_id "" || capability_record_is_stale r stale_after_seconds
         || (require_verified && negb (bool_decide (node_id ∈ verified)))
      then m else <[node_id := r]> m) ∅ records.

Definition opt_field (k : string) (v : pyval) : pydict := if truthy v then [(k, v)] else [].

Definition capability_identity_from_record (r : CapabilityRecord) : pyval :=
  VDict
    ([("workerEnabled", cr_worker_enabled r); ("workerRewardAddress", cr_worker_reward_address r);
      ("workerAllowedModelIds", VList (map VStr (cr_worker_allowed_model_ids r)));
      ("lastSeenAt", match cr_last_seen_at r with Some s => VStr s | None => VNone end)]
     ++ opt_field "friendlyName" (VStr (default "" (cr_friendly_name r)))
     ++ opt_field "nodePublicKeyB64" (VStr (default "" (cr_node_public_key_b64 r)))
     ++ opt_field "nodePublicKeyAddress" (VStr (default "" (cr_node_public_key_address r)))
     ++ match cr_relay_enabled r with Some b => [("relayEnabled", VBool b)] | None => [] end
     ++ opt_field "readiness" (VDict (cr_readiness r))).

Definition multi_worker_modes : list string :=
  ["multi_worker_direct"; "multi_worker_relay"; "multi_worker_partial_direct"].

Definition participant_route_reachable (network_audit : pydict) : result (option bool) :=
  participant_count ← int_or_zero "participantCount" network_audit;
  let verified :=
    match dget "caiOwnedTransportExecutionProof" network_audit with
    | VDict proof =>
        match dget "executionAudit" proof with VDict a => truthy (dget "verified" a) | _ => false end
    | _ => false
    end in
  let transport_mode := str_or_strip (dget "transportMode" network_audit) in
  Ok (if participant_count <=? 1 then Some true
      else if truthy (dget "caiOwnedTransportExecuted" network_audit) then Some true
      else if verified then Some true
      else if bool_decide (transport_mode ∈ multi_worker_modes) then Some true
      else if bool_decide (transport_mode ∈ ["multi_worker_disconnected"; "multi_worker_overlay_only"])
      then Some false
      else None).

(** ** One participant *)

(** What the audit knows about a participant. *)
Record ParticipantView := {
  pv_identity : pyval;
  pv_capability_backed : bool
}.

Definition participant_view (identities : pydict) (records : gmap string CapabilityRecord)
    (node_id : string) : ParticipantView :=
  match dget node_id identities, records !! node_id with
  | VNone, Some r => {| pv_identity := capability_identity_from_record r; pv_capability_backed := true |}
  | v, _ => {| pv_identity := v; pv_capability_backed := false |}
  end.

Definition fact (b : bool) (m : string) : list string := if b then [m] else [].

(** The age of the identity when it was last seen, not negative. *)
Definition last_seen_age (identity : pyval) : option Z :=
  Z.max 0 <$> parsed_age (identity_last_seen_at identity).

(** The reasons why a participant may not be paid, in the order of the code. *)
Definition participant_reasons (v : ParticipantView) (accepted : gset string)
    (verified : option bool) (stale_after_seconds : Z) : list string :=
  let identity := pv_identity v in
  fact (bool_decide ((worker_identity_state identity).1 = Some false))
    "worker mode is explicitly disabled"
  ++ fact (bool_decide (worker_model_allowed (identity_allowed_model_ids identity) accepted = Some false))
       "execution model is not in worker allowed model ids"
  ++ fact (bool_decide (verified = Some false)) "worker capability is not verified"
  ++ match last_seen_age identity with
     | Some age =>
         fact (Z.max 0 stale_after_seconds <? age)
           ("worker identity is stale: last seen " +:+ str_of_Z age +:+ "s ago")
     | None => []
     end.

Definition participant_warnings (v : ParticipantView) : list string :=
  let '(enabled, address) := worker_identity_state (pv_identity v) in
  fact (is_none (pv_identity v)) "node identity is missing from state payload"
  ++ fact (pv_capability_backed v)
       "node identity is missing from live state; using validator-attested capability record"
  ++ fact (bool_decide (enabled = None)) "worker mode is unknown in state payload"
  ++ fact (bool_decide (address = None)) "worker reward address is unknown in state payload".

(** An item of ["participants"]. *)
Record ParticipantItem := {
  it_node_id : string;
  it_view : ParticipantView;
  it_verified : option bool;
  it_reasons : list string;
  it_warnings : list string
}.

(** The audit; ["canSettle"] is a function of it. *)
Record EligibilityAudit := {
  ea_participant_node_ids : list string;
  ea_checked_model_ids : gset string;
  ea_route_reachable : option bool;
  ea_fatal_reasons : list string;
  ea_warnings : list string;
  ea_participants : list ParticipantItem
}.

Definition can_settle (a : EligibilityAudit) : bool := bool_decide (length (ea_fatal_reasons a) = 0%nat).

Definition participant_item (identities : pydict) (records : gmap string CapabilityRecord)
    (accepted : gset string) (require_verified : bool) (verified : gset string)
    (stale_after_seconds : Z) (node_id : string) : ParticipantItem :=
  let v := participant_view identities records node_id in
  let ok := if require_verified then Some (bool_decide (node_id ∈ verified)) else None in
  {| it_node_id := node_id; it_view := v; it_verified := ok;
     it_reasons := participant_reasons v accepted ok stale_after_seconds;
     it_warnings := participant_warnings v |}.

(** [execution_strategy.get(k)] when it is a dict. *)
Definition strategy_flag (network_audit : pydict) (k : string) : bool :=
  match dget "llamaCppExecutionStrategy" network_audit with VDict s => truthy (dget k s) | _ => false end.

(** The fatal reason and the warning of the compute cell. *)
Definition compute_cell_reasons (network_audit : pydict) : list string * list string :=
  let executed := strategy_flag network_audit "caiOwnedTransportExecuted" in
  match dget "llamaCppComputeCell" network_audit with
  | VDict cell =>
      let profile := str_or_strip (dget "profile" cell) in
      if bool_decide (profile ∈ ["failed_sharded_cell"; "wan_risky_sharded_cell"]) && negb executed
      then (["multi-worker llama.cpp compute-cell is not settlement-safe: " +:+ profile], [])
      else if negb (truthy (dget "readyForLlamaCppRpc" cell)) && negb executed
      then ([], ["multi-worker llama.cpp compute-cell has no successful runtime RPC proof in RouteHealth"])
      else ([], [])
  | _ => ([], [])
  end.

(** [nodes] are the participants of the snapshot, [records] and [verified] what the records of
    the wallet directory give. *)
Definition build_participant_eligibility_audit (nodes : list string) (state_payload : pyval)
    (requested_model_id execution_model_id : string) (network_audit : pydict)
    (require_verified : bool) (records : list CapabilityRecord) (verified : gset string)
    (stale_after_seconds : Z) : result EligibilityAudit :=
  let identities :=
    match state_payload with
    | VDict s => match dget "nodeIdentities" s with VDict d => d | _ => [] end
    | _ => []
    end in
  let accepted :=
    accepted_worker_model_ids requested_model_id ∪ accepted_worker_model_ids execution_model_id in
  route_reachable ← participant_route_reachable network_audit;
  let by_node :=
    capability_records_by_node_id stale_after_seconds require_verified verified records in
  let all_verified := dom by_node ∪ (if require_verified then verified else ∅) in
  let items :=
    map (participant_item identities by_node accepted require_verified all_verified
           stale_after_seconds) nodes in
  let cell := compute_cell_reasons network_audit in
  let fatal :=
    concat (map (λ i, map (λ r, it_node_id i +:+ ": " +:+ r) (it_reasons i)) items)
    ++ fact (bool_decide (route_reachable = Some false))
         "multi-worker route was not proven executable by direct or active relay audit"
    ++ cell.1
    ++ fact (strategy_flag network_audit "requiresCaiOwnedTransport"
             && negb (strategy_flag network_audit "caiOwnedTransportExecuted"))
         "multi-worker execution requires CAI-owned WAN-safe transport, but no CAI transport execution proof was recorded" in
  Ok {| ea_participant_node_ids := nodes; ea_checked_model_ids := accepted;
        ea_route_reachable := route_reachable; ea_fatal_reasons := fatal;
        ea_warnings :=
          concat (map (λ i, map (λ w, it_node_id i +:+ ": " +:+ w) (it_warnings i)) items) ++ cell.2;
        ea_participants := items |}.

(** ** The audit as JSON *)

Definition opt_bool (o : option bool) : pyval := match o with Some b => VBool b | None => VNone end.
Definition val_strs (l : list string) : pyval := VList (map VStr l).
Definition val_text (o : option string) : pyval := match o with Some s => VStr s | None => VNone end.

Definition participant_dict (accepted : gset string) (i : ParticipantItem) : pyval :=
  let identity := pv_identity (it_view i) in
  let '(enabled, address) := worker_identity_state identity in
  let allowed := identity_allowed_model_ids identity in
  VDict
    [("nodeId", VStr (it_node_id i));
     ("identityKnown", VBool (negb (pv_capability_backed (it_view i)) && negb (is_none identity)));
     ("capabilityBacked", VBool (pv_capability_backed (it_view i)));
     ("workerEnabled", opt_bool enabled);
     ("workerRewardAddressKnown", VBool (negb (bool_decide (address = None))));
     ("verifiedCapability", opt_bool (it_verified i));
     ("allowedModelIds", match allowed with Some l => val_strs l | None => VNone end);
     ("modelAllowed", opt_bool (worker_model_allowed allowed accepted));
     ("lastSeenAt", val_text (identity_last_seen_at identity));
     ("lastSeenAgeSeconds", val_int (last_seen_age identity));
     ("fatalReasons", val_strs (it_reasons i)); ("warnings", val_strs (it_warnings i))].

Definition eligibility_dict (a : EligibilityAudit) : pyval :=
  VDict
    [("schemaVersion", VInt 1); ("canSettle", VBool (can_settle a));
     ("participantCount", VInt (Z.of_nat (length (ea_participant_node_ids a))));
     ("checkedModelIds", val_strs (sorted_ids (ea_checked_model_ids a)));
     ("routeReachable", opt_bool (ea_route_reachable a));
     ("fatalReasons", val_strs (ea_fatal_reasons a)); ("warnings", val_strs (ea_warnings a));
     ("participants", VList (map (participant_dict (ea_checked_model_ids a)) (ea_participants a)))].
End audit.
