(* ===== verification/Jobs.v ===== *)
(** * Jobs

    [job_storage.py] and the first part of [jobs.py]: the records of jobs and receipts, the
    creation of a job and the repair of jobs that stopped.  The file of a list of records is
    the list; reading it sorts it, newest first. *)
From Stdlib Require Import Ascii QArith.
From S2P Require Import Prelude.
From S2P Require Import PyStr.
From S2P Require Import PyVal.
From S2P Require Import Doubles.
From S2P Require Import Money.
From S2P Require Import Signing.
From S2P Require Import ChainTx.
From S2P Require Import Ledger.
From S2P Require Import ChainStore.
From S2P Require Import ChainOps.
From S2P Require Import Apportion.
From S2P Require Import SettlementData.
From S2P Require Import Funding.
From S2P Require Import Validators.
From S2P Require Import Settlement.
From S2P Require Import Payouts.
From S2P Require Import Pricing.
Local Open Scope Z_scope.
Set Default Proof Using "Type".

Record JobIntent := {
  jb_job_id : string;
  jb_created_at : string;
  jb_source_wallet_id : string;
  jb_source_wallet_address : string;
  jb_model_id : string;
  jb_cai_url : string;
  jb_prompt : string;
  jb_payment_preference : PaymentPreference;
  jb_requested_compute_cost_atomic : Z;
  jb_execution_cai_url : option string;
  jb_requester_node_id : option string;
  jb_pricing_mode : string;
  jb_pricing_basis : string;
  jb_pricing_reason : option string;
  jb_reserved_prompt_tokens : option Z;
  jb_reserved_completion_tokens : option Z;
  jb_pricing_final_multiplier_bps : option Z;
  jb_pricing_floor_atomic : option Z;
  jb_pricing_cap_atomic : option Z;
  jb_pricing_input_token_price_atomic : option Z;
  jb_pricing_output_token_price_atomic : option Z;
  jb_reserve_limit_identity_keys : list string;
  jb_reserve_client_ip_hash : option string;
  jb_status : string;
  jb_receipt_id : option string;
  jb_settlement_id : option string;
  jb_last_error : option string;
  jb_execution_attempts : list pydict
}.

Record ExecutionReceipt := {
  xr_receipt_id : string;
  xr_created_at : string;
  xr_job_id : string;
  xr_cai_url : string;
  xr_model_id : string;
  xr_execution_model_id : string;
  xr_instance_id : string;
  xr_worker_payouts : list RewardShare;
  xr_response : pydict;
  xr_pricing_mode : string;
  xr_pricing_basis : string;
  xr_usage : option Usage;
  xr_reserved_prompt_tokens : option Z;
  xr_reserved_completion_tokens : option Z;
  xr_reserved_compute_cost_atomic : Z;
  xr_actual_compute_cost_atomic : Z;
  xr_reservation_surplus_atomic : Z;
  xr_usage_priced : bool;
  xr_token_usage_source : option string;
  xr_token_usage_audit : option pyval;
  xr_network_audit : pydict
}.

(** The files: those of the settlements, and the jobs and receipts. *)
Record JobStore := {
  js_pay : PayoutStore;
  js_jobs : list JobIntent;
  js_receipts : list ExecutionReceipt
}.

Definition JM (A : Type) : Type := JobStore → JobStore * result A.

#[export] Instance JM_ret : MRet JM := fun _ a s => (s, Ok a).
#[export] Instance JM_bind : MBind JM := fun _ _ f m s =>
  match m s with (s', Ok a) => f a s' | (s', Err e) => (s', Err e) end.

Definition jget {A} (f : JobStore → A) : JM A := λ s, (s, Ok (f s)).
Definition jlift {A} (r : result A) : JM A := λ s, (s, r).

Definition with_jobs (s : JobStore) (l : list JobIntent) : JobStore :=
  {| js_pay := js_pay s; js_jobs := l; js_receipts := js_receipts s |}.

Definition with_receipts (s : JobStore) (l : list ExecutionReceipt) : JobStore :=
  {| js_pay := js_pay s; js_jobs := js_jobs s; js_receipts := l |}.

Definition save_job_intents (l : list JobIntent) : JM unit := λ s, (with_jobs s l, Ok tt).
Definition save_execution_receipts (l : list ExecutionReceipt) : JM unit := λ s, (with_receipts s l, Ok tt).

Definition on_pay {A} (m : PM A) : JM A := λ s,
  let '(p, r) := m (js_pay s) in
  ({| js_pay := p; js_jobs := js_jobs s; js_receipts := js_receipts s |}, r).

Definition list_job_intents (file : list JobIntent) : list JobIntent := newest_first jb_created_at file.

Definition list_execution_receipts (file : list ExecutionReceipt) : list ExecutionReceipt :=
  newest_first xr_created_at file.

Definition resolve_job_intent (job_id : string) (file : list JobIntent) : option JobIntent :=
  List.find (λ j, String.eqb (jb_job_id j) job_id) (list_job_intents file).

(** [items[index] = job] at the first job with the id. *)
Fixpoint put_job (job : JobIntent) (l : list JobIntent) : option (list JobIntent) :=
  match l with
  | [] => None
  | x :: l' =>
      if String.eqb (jb_job_id x) (jb_job_id job) then Some (job :: l')
      else match put_job job l' with Some l' => Some (x :: l') | None => None end
  end.

Definition job_not_found (job_id : string) : exn :=
  ValueError ("Job intent '" +:+ job_id +:+ "' not found.").

Definition update_job_intent (job : JobIntent) : JM unit :=
  items ← jget (λ s, list_job_intents (js_jobs s));
  match put_job job items with
  | Some items' => save_job_intents items'
  | None => jlift (Err (job_not_found (jb_job_id job)))
  end.

Fixpoint put_receipt (r : ExecutionReceipt) (l : list ExecutionReceipt) : list ExecutionReceipt :=
  match l with
  | [] => [r]
  | x :: l' => if String.eqb (xr_receipt_id x) (xr_receipt_id r) then r :: l' else x :: put_receipt r l'
  end.

Definition update_execution_receipt (r : ExecutionReceipt) : JM unit :=
  items ← jget (λ s, list_execution_receipts (js_receipts s));
  save_execution_receipts (put_receipt r items).

(** ** Creating a job *)

Section create.
Context `{SignatureBackend} (env : Environ) (wallet_policy : option WalletPolicy).
Context (ip_address ip_network : string → option string).

(** [url.rstrip("/")] *)
Fixpoint rstrip_slash (s : string) : string :=
  match s with
  | EmptyString => EmptyString
  | String c s' =>
      match rstrip_slash s' with
      | EmptyString => if Ascii.eqb c "/" then EmptyString else String c EmptyString
      | t => String c t
      end
  end.

Definition _coalesce_cai_url (cai_url : option string) : option string :=
  let resolved := strip (default "" cai_url) in if String.eqb resolved "" then None else Some resolved.

(** The arguments of [create_job_intent]. *)
Record JobRequest := {
  rq_prompt : string;
  rq_compute_amount_coins : option string;
  rq_payment_preference : PaymentPreference;
  rq_cai_url : option string;
  rq_execution_cai_url : option string;
  rq_model_id : option string;
  rq_requester_node_id : option string;
  rq_request_payload_preview : pyval;
  rq_reserve_client_ip : option string
}.

(** The job of a priced request; the token drawn is its id. *)
Definition new_job (t : Tick) (mp : MoneyPolicy) (rq : JobRequest) (w : WalletRecord)
    (model_id cai_url execution_cai_url : string) (keys : list string) (client_hash : option string)
    (price : ResolvedPriceQuote) (floor cap : Z) : JobIntent :=
  let q := rq_automatic_quote price in
  let priced (f : AutomaticPriceQuote → option Z) : option Z := q ≫= f in {|
  jb_job_id := token t; jb_created_at := now t; jb_source_wallet_id := wr_wallet_id w;
  jb_source_wallet_address := wr_address w; jb_model_id := model_id; jb_cai_url := cai_url;
  jb_prompt := rq_prompt rq; jb_payment_preference := rq_payment_preference rq;
  jb_requested_compute_cost_atomic := rq_compute_cost_atomic price;
  jb_execution_cai_url := Some execution_cai_url;
  jb_requester_node_id :=
    match rq_requester_node_id rq with
    | Some n => if String.eqb (strip n) "" then None else Some (strip n)
    | None => None
    end;
  jb_pricing_mode := rq_pricing_mode price;
  jb_pricing_basis :=
    if String.eqb (strip (rq_pricing_basis price)) "" then "manual" else rq_pricing_basis price;
  jb_pricing_reason := Some (rq_pricing_reason price);
  jb_reserved_prompt_tokens := priced aq_prompt_tokens_estimate;
  jb_reserved_completion_tokens := priced aq_reserved_output_tokens;
  jb_pricing_final_multiplier_bps := aq_final_multiplier_bps <$> q;
  jb_pricing_floor_atomic := (λ _, floor) <$> q;
  jb_pricing_cap_atomic := (λ _, cap) <$> q;
  jb_pricing_input_token_price_atomic := priced aq_input_token_price_atomic;
  jb_pricing_output_token_price_atomic := priced aq_output_token_price_atomic;
  jb_reserve_limit_identity_keys := keys; jb_reserve_client_ip_hash := client_hash;
  jb_status := "created"; jb_receipt_id := None; jb_settlement_id := None; jb_last_error := None;
  jb_execution_attempts := [] |}.

(** [create_job_intent] for the wallet [_ensure_active_job_wallet] gives and the snapshot of
    the network the price is made from. *)
Definition create_job_intent (t : Tick) (mp : MoneyPolicy) (np : NetworkModelPolicy)
    (w : WalletRecord) (snapshot : NetworkStatePricingSnapshot) (rq : JobRequest) : JM JobIntent :=
  stored ← jget (λ s, py_ledger (js_pay s));
  ledger ← on_pay (on_chain_p (chain_backed_ledger_snapshot env wallet_policy t mp stored));
  let wanted := default "" (rq_model_id rq) in
  let model_id :=
    normalize_network_model_id
      (if String.eqb wanted "" then network_default_model_id np else wanted) np in
  match _coalesce_cai_url (rq_cai_url rq) with
  | None => jlift (Err (ValueError "CAI URL is required."))
  | Some cai_url =>
      let execution_cai_url := default cai_url (_coalesce_cai_url (rq_execution_cai_url rq)) in
      keys ← jlift (build_reserve_limit_identity_keys ip_address ip_network (wr_wallet_id w)
                      (rq_reserve_client_ip rq) mp);
      let client_hash := reserve_client_ip_hash ip_address (rq_reserve_client_ip rq) in
      let reserved := extract_reserved_output_tokens (rq_request_payload_preview rq) mp in
      price ← jlift (resolve_compute_price (rq_compute_amount_coins rq) (rq_prompt rq) model_id
                       (compute_reserve_balance_atomic ledger) (Some reserved) mp np snapshot);
      floor ← jlift (pricing_floor_atomic mp);
      cap ← jlift (pricing_cap_atomic mp);
      let job := new_job t mp rq w model_id (rstrip_slash cai_url) (rstrip_slash execution_cai_url)
                   keys client_hash price floor cap in
      jobs ← jget (λ s, list_job_intents (js_jobs s));
      _ ← save_job_intents (jobs ++ [job]);
      _ ← on_pay (append_journal_entry {|
            je_entry_id := token t; je_event_type := "job_intent_created"; je_created_at := now t;
            je_wallet_id := wr_wallet_id w;
            je_amount_atomic := jb_requested_compute_cost_atomic job;
            je_note := "Job intent " +:+ jb_job_id job +:+ " created for model "
                       +:+ jb_model_id job +:+ " using " +:+ jb_pricing_mode job +:+ " pricing." |});
      mret job
  end.
End create.

(** ** Jobs that stopped *)

(** The job with another state. *)
Definition with_job_state (j : JobIntent) (model_id status : string)
    (receipt_id settlement_id last_error : option string) (attempts : list pydict) : JobIntent := {|
  jb_job_id := jb_job_id j; jb_created_at := jb_created_at j;
  jb_source_wallet_id := jb_source_wallet_id j;
  jb_source_wallet_address := jb_source_wallet_address j; jb_model_id := model_id;
  jb_cai_url := jb_cai_url j; jb_prompt := jb_prompt j;
  jb_payment_preference := jb_payment_preference j;
  jb_requested_compute_cost_atomic := jb_requested_compute_cost_atomic j;
  jb_execution_cai_url := jb_execution_cai_url j; jb_requester_node_id := jb_requester_node_id j;
  jb_pricing_mode := jb_pricing_mode j; jb_pricing_basis := jb_pricing_basis j;
  jb_pricing_reason := jb_pricing_reason j;
  jb_reserved_prompt_tokens := jb_reserved_prompt_tokens j;
  jb_reserved_completion_tokens := jb_reserved_completion_tokens j;
  jb_pricing_final_multiplier_bps := jb_pricing_final_multiplier_bps j;
  jb_pricing_floor_atomic := jb_pricing_floor_atomic j;
  jb_pricing_cap_atomic := jb_pricing_cap_atomic j;
  jb_pricing_input_token_price_atomic := jb_pricing_input_token_price_atomic j;
  jb_pricing_output_token_price_atomic := jb_pricing_output_token_price_atomic j;
  jb_reserve_limit_identity_keys := jb_reserve_limit_identity_keys j;
  jb_reserve_client_ip_hash := jb_reserve_client_ip_hash j; jb_status := status;
  jb_receipt_id := receipt_id; jb_settlement_id := settlement_id; jb_last_error := last_error;
  jb_execution_attempts := attempts |}.

Definition with_job_status (j : JobIntent) (status : string) (last_error : option string) : JobIntent :=
  with_job_state j (jb_model_id j) status (jb_receipt_id j) (jb_settlement_id j) last_error
    (jb_execution_attempts j).

(** The settlement whose execution audit names the receipt or the job. *)
Definition audit_names (receipt_id job_id : string) (s : SettlementRecord) : bool :=
  match dget "execution" (sr_balance_audit s) with
  | VDict e =>
      let audit_receipt := str_or_strip (py_or (dget "receipt_id" e) (dget "receiptId" e)) in
      let audit_job := str_or_strip (py_or (dget "job_id" e) (dget "jobId" e)) in
      negb (String.eqb receipt_id "") && String.eqb audit_receipt receipt_id
      || negb (String.eqb job_id "") && String.eqb audit_job job_id
  | _ => false
  end.

Definition _settlement_id_for_receipt_or_job (receipt_id job_id : string)
    (settlements : list SettlementRecord) : option string :=
  let receipt_id := strip receipt_id in
  let job_id := strip job_id in
  if String.eqb receipt_id "" && String.eqb job_id "" then None
  else sr_settlement_id <$> List.find (audit_names receipt_id job_id) (list_settlements settlements).

(** [max(60, int(raw))], 1800 when [int] raises. *)
Definition stale_timeout (env : Environ) (stale_after_seconds : option Z) : Z :=
  match stale_after_seconds with
  | Some n => Z.max 60 n
  | None =>
      let raw := env_or env ["CAI_STALE_RUNNING_JOB_SECONDS"; "CAI_CHAT_COMPLETION_TIMEOUT_SECONDS"] in
      if String.eqb raw "" then 1800
      else match int_of_str raw with Some n => Z.max 60 n | None => 1800 end
  end.

(** The last of the receipts, as listed, of a job. *)
Definition receipt_of_job (job_id : string) (receipts : list ExecutionReceipt) : option ExecutionReceipt :=
  let key := strip job_id in
  List.find (λ r, negb (String.eqb (strip (xr_job_id r)) "") && String.eqb (strip (xr_job_id r)) key)
    (rev receipts).

(** [age] is [(now - created_at).total_seconds()], [None] when the time does not parse. *)
Definition reconciled_job (timeout : Z) (age : string → option Q) (receipts : list ExecutionReceipt)
    (settlements : list SettlementRecord) (j : JobIntent) : option JobIntent :=
  if negb (String.eqb (jb_status j) "running") then None
  else
    match (if filled (jb_receipt_id j) then None else receipt_of_job (jb_job_id j) receipts) with
    | Some r =>
        let settlement_id :=
          if filled (jb_settlement_id j) then jb_settlement_id j
          else _settlement_id_for_receipt_or_job (xr_receipt_id r) (jb_job_id j) settlements in
        Some (with_job_state j (jb_model_id j) "completed" (Some (xr_receipt_id r)) settlement_id None
                (jb_execution_attempts j))
    | None =>
        if filled (jb_receipt_id j) || filled (jb_settlement_id j) then None
        else
          match age (jb_created_at j) with
          | None => None
          | Some a =>
              if Qle_bool a (inject_Z timeout) then None
              else
                Some (with_job_status j "failed"
                        (Some ("Job was marked failed because it remained running beyond "
                               +:+ str_of_Z timeout +:+ " seconds without an execution receipt.")))
          end
    end.

Definition reconcile_stale_running_job_intents (env : Environ) (age : string → option Q)
    (stale_after_seconds : option Z) : JM Z :=
  let timeout := stale_timeout env stale_after_seconds in
  items ← jget (λ s, list_job_intents (js_jobs s));
  receipts ← jget (λ s, list_execution_receipts (js_receipts s));
  settlements ← jget (λ s, s_settlements (py_settlement (js_pay s)));
  let changes := map (reconciled_job timeout age receipts settlements) items in
  let changed := Z.of_nat (length (omap (λ x, x) changes)) in
  if changed =? 0 then mret 0
  else
    _ ← save_job_intents (zip_with (λ j c, default j c) items changes);
    mret changed.
