(* ===== verification/JobExecution.v ===== *)
(** * Executing a job

    [jobs.py], second part, with [job_execution_attempts.py]: the attempts to run a job on the
    cluster and the settlement of what was run.  What the cluster answers in an attempt is an
    argument ([JobAttempt]: the code gets it over HTTP); so are clock readings, as exact
    rationals.  The network audit of the run is an argument too. *)
From Stdlib Require Import Ascii QArith.
From S2P Require Import Prelude.
From S2P Require Import PyStr.
From S2P Require Import PyVal.
From S2P Require Import Doubles.
From S2P Require Import Money.
From S2P Require Import Signing.
From S2P Require Import ChainTx.
From S2P Require Import Ledger.
From S2P Require Import ChainStore.
From S2P Require Import ChainOps.
From S2P Require Import Apportion.
From S2P Require Import SettlementData.
From S2P Require Import Funding.
From S2P Require Import Validators.
From S2P Require Import Settlement.
From S2P Require Import ChainSync.
From S2P Require Import Payouts.
From S2P Require Import Envelope.
From S2P Require Import Pricing.
From S2P Require Import Eligibility.
From S2P Require Import Jobs.
Local Open Scope Z_scope.
Set Default Proof Using "Type".

(** ** Errors of an attempt *)

(** An exception of an attempt: its type and its text. *)
Record Failure := {
  fl_type : string;
  fl_message : string
}.

Definition any_fragment (fragments : list string) (message : string) : bool :=
  existsb (λ f, contains f message) fragments.

Definition startup_fragments : list string :=
  ["no usable cai placement preview found"; "timed out waiting for cai instance";
   "no cycles found with sufficient memory"; "winerror 10048";
   "only one usage of each socket address"; "no output chunks were received from the runner";
   "returned an empty response body"; "returned invalid json";
   "closed the response before returning a complete json body"; "out of memory"; "bad allocation";
   "failed to allocate compute pp buffers"; "memory allocation failure"].

Definition non_retryable_fragments : list string :=
  ["active wallet must"; "wallet balance is insufficient"; "cannot settle execution reward";
   "worker participant eligibility failed"; "did not report any worker participants";
   "final token-priced settlement could not be funded"].

Definition retryable_fragments : list string :=
  ["timed out"; "timeout"; "temporarily unavailable"; "service unavailable"; "http error 400";
   "http error 408"; "http error 409"; "http error 425"; "http error 429"; "http error 500";
   "http error 502"; "http error 503"; "http error 504"; "connection reset"; "connection refused";
   "connection aborted"; "remote end closed"; "incomplete read"; "closed the response";
   "empty response body"; "invalid json"; "no output chunks"; "runner"; "runtime"; "route";
   "lease expired"; "winerror 10048"; "winerror 10054"; "winerror 10060"; "winerror 10061"].

Definition should_retry_cai_startup_error (e : Failure) : bool :=
  any_fragment startup_fragments (lower (fl_message e)).

Definition should_retry_job_execution_error (e : Failure) : bool :=
  let message := lower (fl_message e) in
  if any_fragment non_retryable_fragments message then false
  else should_retry_cai_startup_error e || any_fragment retryable_fragments message.

(** ** Attempt records *)

Definition strs (l : list string) : pyval := VList (map VStr l).
Definition when_some {A} (o : option A) (f : A → pydict) : pydict :=
  match o with Some a => f a | None => [] end.

(** The optional arguments of [execution_attempt_record]. *)
Record AttemptDetails := {
  ad_participant_node_ids : list string;
  ad_instance_id : option string;
  ad_error : option Failure;
  ad_timeout_sec : option Z;
  ad_phase : string;
  ad_phase_message : string;
  ad_attempt_duration_ms : option Z;
  ad_readiness_duration_ms : option Z;
  ad_response_duration_ms : option Z
}.

Definition execution_attempt_record (now : string) (attempt : Z) (status started_at : string)
    (completed_at : option string) (excluded_node_ids : list string) (retry_scheduled : bool)
    (d : AttemptDetails) : pydict :=
  [("attempt", VInt attempt); ("status", VStr status); ("startedAt", VStr started_at);
   ("completedAt", val_opt completed_at); ("participantNodeIds", strs (ad_participant_node_ids d));
   ("excludedNodeIds", strs excluded_node_ids); ("retryScheduled", VBool retry_scheduled)]
  ++ (if filled (ad_instance_id d) then [("instanceId", VStr (default "" (ad_instance_id d)))] else [])
  ++ [("phase", VStr (ad_phase d)); ("phaseStartedAt", VStr now);
      ("phaseMessage", VStr (ad_phase_message d))]
  ++ when_some (ad_timeout_sec d) (λ z, [("timeoutSec", VInt z)])
  ++ when_some (ad_attempt_duration_ms d) (λ z, [("attemptDurationMs", VInt z)])
  ++ when_some (ad_readiness_duration_ms d) (λ z, [("readinessDurationMs", VInt z)])
  ++ when_some (ad_response_duration_ms d) (λ z, [("responseDurationMs", VInt z)])
  ++ when_some (ad_error d) (λ e, [("errorType", VStr (fl_type e)); ("message", VStr (fl_message e))]).

(** [attempts[-1] = record] *)
Definition set_last {A} (l : list A) (x : A) : list A := removelast l ++ [x].

(** The new fields of the latest record. *)
Definition phase_fields (now phase message : string) (participants : option (list string))
    (instance_id : option string) (timeout_sec : option Z) (current : pydict) : pydict :=
  let d := dset "phaseMessage" (VStr message)
             (dset "phaseStartedAt" (VStr now) (dset "phase" (VStr phase) current)) in
  let d := match participants with Some l => dset "participantNodeIds" (strs l) d | None => d end in
  let d := if filled instance_id then dset "instanceId" (VStr (default "" instance_id)) d else d in
  match timeout_sec with Some z => dset "timeoutSec" (VInt z) d | None => d end.

Definition with_attempts (j : JobIntent) (attempts : list pydict) : JobIntent :=
  with_job_state j (jb_model_id j) (jb_status j) (jb_receipt_id j) (jb_settlement_id j)
    (jb_last_error j) attempts.

Definition update_latest_execution_attempt_phase (now phase message : string)
    (participants : option (list string)) (instance_id : option string) (timeout_sec : option Z)
    (j : JobIntent) : JM JobIntent :=
  match last (jb_execution_attempts j) with
  | None => mret j
  | Some current =>
      let j' := with_attempts j
                  (set_last (jb_execution_attempts j)
                     (phase_fields now phase message participants instance_id timeout_sec current)) in
      _ ← update_job_intent j'; mret j'
  end.

(** ** One attempt *)

(** What happens in an attempt: the clock when it starts, when the instance is ready and when
    it ends; the instance or the error of getting one ready; the response, the snapshot after
    it, or the error; and the participants of the instance that is running after a failure. *)
Record JobAttempt := {
  at_now : string;
  at_begin : Q;
  at_ready : InstanceSnapshot + Failure;
  at_ready_clock : Q;
  at_response : (pydict * InstanceSnapshot) + Failure;
  at_end : Q;
  at_failed_snapshot : option InstanceSnapshot
}.

(** [max(0, int(round((now - started) * 1000.0)))] *)
Definition elapsed_ms (started stopped : Q) : Z := Z.max 0 (round_of ((stopped - started) * 1000)).

Definition qmin (x y : Q) : Q := if Qle_bool x y then x else y.
Definition qmax (x y : Q) : Q := if Qle_bool x y then y else x.

(** [max(1, int(math.ceil(min(requested, remaining))))], or the text of the [TimeoutError]. *)
Definition _bounded_execution_timeout_sec (requested deadline clock : Q) (phase : string)
  : Z + Failure :=
  let remaining := (deadline - clock)%Q in
  if Qle_bool remaining 0 then
    inr {| fl_type := "TimeoutError";
           fl_message := "CAI job execution timeout expired before " +:+ phase +:+ "." |}
  else
    let m := qmin requested remaining in
    inl (Z.max 1 (- (- Qnum m / Zpos (Qden m)))).

(** [_require_settleable_instance_snapshot] on the snapshots of this library, which come from
    instances of the cluster and not from a task-level run. *)
Definition require_settleable_instance_snapshot (s : InstanceSnapshot) : option Failure :=
  if String.eqb (strip (is_snapshot_source s)) "planned_definition"
  then Some {| fl_type := "RuntimeError";
               fl_message := "Cannot settle execution reward from a planned placement snapshot. CAI must expose the actual command-bound or live instance before worker rewards can be recorded." |}
  else None.

(** The limits of the attempts, in seconds. *)
Record Limits := {
  lm_deadline : Q;
  lm_attempt_timeout : Q;
  lm_first_response_timeout : Q;
  lm_max_attempts : nat
}.

Definition ready_message : string :=
  "Preparing execution route and waiting for CAI instance readiness.".

(** What an attempt ends with: the response and its instance, or an error with what is known
    of the run. *)
Record AttemptEnd := {
  ae_result : (pydict * InstanceSnapshot) + Failure;
  ae_snapshot : option InstanceSnapshot;
  ae_timeout_sec : Z;
  ae_readiness_ms : option Z;
  ae_response_ms : option Z
}.

(** The body of the [try]: its two phase updates and its end. *)
Definition run_attempt (a : JobAttempt) (number : Z) (attempt_deadline response_budget : Q)
    (timeout_sec : Z) (j : JobIntent) : JM (JobIntent * AttemptEnd) :=
  j ← update_latest_execution_attempt_phase (at_now a) "instance_readiness" ready_message None None None j;
  match at_ready a with
  | inr e =>
      mret (j, {| ae_result := inr e; ae_snapshot := None; ae_timeout_sec := timeout_sec;
                  ae_readiness_ms := Some (elapsed_ms (at_begin a) (at_end a)); ae_response_ms := None |})
  | inl s =>
      let readiness := Some (elapsed_ms (at_begin a) (at_ready_clock a)) in
      match _bounded_execution_timeout_sec response_budget attempt_deadline (at_ready_clock a)
              ("attempt " +:+ str_of_Z number +:+ " model response") with
      | inr e =>
          mret (j, {| ae_result := inr e; ae_snapshot := Some s; ae_timeout_sec := timeout_sec;
                      ae_readiness_ms := readiness; ae_response_ms := None |})
      | inl submit =>
          j ← update_latest_execution_attempt_phase (at_now a) "first_response_wait"
                "CAI instance is ready; waiting for the model response."
                (Some (participant_node_ids (Some s))) (Some (is_instance_id s)) (Some submit) j;
          let response_ms := Some (elapsed_ms (at_ready_clock a) (at_end a)) in
          let ended r snap :=
            {| ae_result := r; ae_snapshot := Some snap; ae_timeout_sec := submit;
               ae_readiness_ms := readiness; ae_response_ms := response_ms |} in
          mret (j,
            match at_response a with
            | inr e => ended (inr e) s
            | inl (response, s') =>
                match require_settleable_instance_snapshot s' with
                | Some e => ended (inr e) s'
                | None => ended (inl (response, s')) s'
                end
            end)
      end
  end.

Definition merge_nodes (failed nodes : list string) : list string :=
  dedup_keep_first [] (failed ++ nodes).

(** The participants of a failed attempt. *)
Definition failed_nodes (a : JobAttempt) (e : AttemptEnd) : list string :=
  match participant_node_ids (ae_snapshot e) with
  | [] => participant_node_ids (at_failed_snapshot a)
  | l => l
  end.

(** The record of a finished attempt. *)
Definition final_record (a : JobAttempt) (number : Z) (excluded : list string) (retry : bool)
    (e : AttemptEnd) : pydict :=
  let details nodes error phase message := {|
    ad_participant_node_ids := nodes; ad_instance_id := is_instance_id <$> ae_snapshot e;
    ad_error := error; ad_timeout_sec := Some (ae_timeout_sec e); ad_phase := phase;
    ad_phase_message := message;
    ad_attempt_duration_ms := Some (elapsed_ms (at_begin a) (at_end a));
    ad_readiness_duration_ms := ae_readiness_ms e; ad_response_duration_ms := ae_response_ms e |} in
  let record status := execution_attempt_record (at_now a) number status (at_now a) (Some (at_now a))
                         excluded retry in
  match ae_result e with
  | inl _ =>
      record "completed"
        (details (participant_node_ids (ae_snapshot e)) None "completed"
           "Execution attempt completed successfully.")
  | inr err =>
      if retry then
        record "retrying"
          (details (failed_nodes a e) (Some err) "retry_scheduled"
             "Execution attempt failed; retrying with another route.")
      else
        record "failed"
          (details (failed_nodes a e) (Some err) "failed"
             "Execution attempt failed and no retry is scheduled.")
  end.

(** The record of an attempt the deadline did not let start. *)
Definition expired_record (a : JobAttempt) (number : Z) (excluded : list string) (e : Failure) : pydict :=
  execution_attempt_record (at_now a) number "failed" (at_now a) (Some (at_now a)) excluded false
    {| ad_participant_node_ids := []; ad_instance_id := None; ad_error := Some e;
       ad_timeout_sec := None; ad_phase := "deadline_expired";
       ad_phase_message := "Execution deadline expired before a new attempt could start.";
       ad_attempt_duration_ms := Some (elapsed_ms (at_begin a) (at_begin a));
       ad_readiness_duration_ms := None; ad_response_duration_ms := None |}.

Definition running_record (a : JobAttempt) (number : Z) (excluded : list string) (timeout_sec : Z) : pydict :=
  execution_attempt_record (at_now a) number "running" (at_now a) None excluded false
    {| ad_participant_node_ids := []; ad_instance_id := None; ad_error := None;
       ad_timeout_sec := Some timeout_sec; ad_phase := "instance_readiness";
       ad_phase_message := ready_message; ad_attempt_duration_ms := None;
       ad_readiness_duration_ms := None; ad_response_duration_ms := None |}.

(** The exception an attempt raises out of the job. *)
Definition raised_error (e : Failure) : exn := OtherError (fl_type e) (fl_message e).

(** The job after a failed attempt. *)
Definition after_failure (j : JobIntent) (attempts : list pydict) (status last_error : string) : JobIntent :=
  with_job_state j (jb_model_id j) status (jb_receipt_id j) (jb_settlement_id j) (Some last_error) attempts.

(** The attempts: the response with its instance and the job, or the error raised.  [number]
    is the next attempt, [failed] the nodes the earlier ones ran on, in order of appearance;
    the code sorts them for the record and for the request. *)
Fixpoint attempt_loop (lm : Limits) (answers : list JobAttempt) (number : Z) (left : nat)
    (failed : list string) (j : JobIntent) : JM (JobIntent * (pydict * InstanceSnapshot)) :=
  match left, answers with
  | S left', a :: answers' =>
      let excluded := py_sorted str_leb failed in
      let attempts := jb_execution_attempts j in
      let deadline := qmin (lm_deadline lm) (at_begin a + qmax 1 (lm_attempt_timeout lm)) in
      match _bounded_execution_timeout_sec (lm_attempt_timeout lm) deadline (at_begin a)
              ("attempt " +:+ str_of_Z number +:+ " instance readiness") with
      | inr e =>
          let attempts' := attempts ++ [expired_record a number excluded e] in
          _ ← update_job_intent (after_failure j attempts' "failed" (fl_message e));
          jlift (Err (raised_error e))
      | inl timeout_sec =>
          let j := with_job_state j (jb_model_id j) "running" (jb_receipt_id j) (jb_settlement_id j)
                     (jb_last_error j) (attempts ++ [running_record a number excluded timeout_sec]) in
          _ ← update_job_intent j;
          run ← run_attempt a number deadline (lm_first_response_timeout lm) timeout_sec j;
          let '(j, e) := run in
          match ae_result e with
          | inl ok =>
              let j' := with_attempts j (set_last (jb_execution_attempts j)
                                           (final_record a number excluded false e)) in
              _ ← update_job_intent j'; mret (j', ok)
          | inr err =>
              let retry :=
                (0 <? Z.of_nat left') && should_retry_job_execution_error err
                && negb (Qle_bool (lm_deadline lm - at_end a) 1) in
              let attempts' := set_last (jb_execution_attempts j)
                                 (final_record a number excluded retry e) in
              if retry then
                let j' := after_failure j attempts' "running"
                            ("Execution attempt " +:+ str_of_Z number +:+ " failed; retrying: "
                             +:+ fl_message err) in
                _ ← update_job_intent j';
                attempt_loop lm answers' (number + 1) left' (merge_nodes failed (failed_nodes a e)) j'
              else
                _ ← update_job_intent (after_failure j attempts' "failed" (fl_message err));
                jlift (Err (raised_error err))
          end
      end
  | _, _ => jlift (Err (ValueError "no attempt"))
  end.

(** * Settling a job

    [jobs.py], third part: [execute_job_intent] before and after the attempts, for a node that
    is not itself a validator ([apply_local_validator_attestation] returns at once) and without
    the task-level transport.  The step after the run is [settle_run]: eligibility, price by
    usage, payouts, receipt, settlement, envelope.  What the cluster and the peers answer are
    arguments ([RunAnswers]); each operation reads its own clock and token ([tk]). *)


(** ** The model of the request *)

Definition _request_payload_model_id (request_payload_override : pyval) : option string :=
  match request_payload_override with
  | VDict d => let m := str_or_strip (dget "model" d) in if String.eqb m "" then None else Some m
  | _ => None
  end.

Definition _request_payload_model_matches_job (payload_model_id : option string)
    (job_model_id execution_model_id : string) (np : NetworkModelPolicy) : bool :=
  match payload_model_id with
  | None => true
  | Some m =>
      String.eqb m job_model_id || String.eqb m execution_model_id
      || String.eqb (normalize_network_model_id m np) job_model_id
      || String.eqb (resolve_execution_model_id m np) execution_model_id
  end.

Definition _validate_request_payload_model_matches_job (job_model_id execution_model_id : string)
    (request_payload_override : pyval) (np : NetworkModelPolicy) : result unit :=
  let m := _request_payload_model_id request_payload_override in
  if _request_payload_model_matches_job m job_model_id execution_model_id np then Ok tt
  else
    Err (ValueError
      ("Request payload model '" +:+ default "None" m +:+ "' does not match metered job model '"
       +:+ job_model_id +:+ "' or execution model '" +:+ execution_model_id
       +:+ "'. Refusing to execute a different model than the job selected.")).

Definition _model_selection_audit (job_model_id execution_model_id : string)
    (request_payload_override : pyval) (np : NetworkModelPolicy) : pyval :=
  let m := _request_payload_model_id request_payload_override in
  let matches_job := _request_payload_model_matches_job m job_model_id execution_model_id np in
  VDict
    [("status", VStr (if matches_job then "matched" else "mismatch"));
     ("jobModelId", VStr job_model_id); ("executionModelId", VStr execution_model_id);
     ("requestPayloadModelId", val_opt m);
     ("normalizedRequestPayloadModelId", val_opt ((λ x, normalize_network_model_id x np) <$> m));
     ("requestPayloadExecutionModelId", val_opt ((λ x, resolve_execution_model_id x np) <$> m));
     ("requestPayloadMatchesJob", VBool matches_job);
     ("requestPayloadModelOverridden",
      VBool (match m with Some x => negb (String.eqb x execution_model_id) | None => false end))].

(** ** Reward addresses *)

Definition set_rewards (s : PayoutStore) (r : gmap string string) : PayoutStore :=
  with_settlement s
    (let ss := py_settlement s in
     {| s_chain := s_chain ss; s_settlements := s_settlements ss; s_payouts := s_payouts ss;
        s_attestations := s_attestations ss; s_validators := s_validators ss; s_rewards := r |}).

(** The address a node reports: its identity in the state, else the summary it answers with. *)
Definition reported_reward_address (identities : pydict) (summary : string → option pydict)
    (node_id : string) : option string :=
  match (worker_identity_state (dget node_id identities)).2 with
  | Some a => Some a
  | None =>
      match summary node_id with
      | None => None
      | Some d =>
          match py_or (dget "worker" d) (VDict []) with
          | VDict w =>
              let a := str_or_strip (dget "worker_reward_address" w) in
              if String.eqb a "" then None else Some a
          | _ => None
          end
      end
  end.

Definition bind_reward (identities : pydict) (summary : string → option pydict)
    (rewards : gmap string string) (r : RewardShare) : gmap string string :=
  let node_id := strip (rw_node_id r) in
  if String.eqb node_id "" then rewards
  else
    match reported_reward_address identities summary node_id with
    | Some a => <[node_id := normalize_address a]> rewards
    | None => rewards
    end.

Definition _sync_worker_reward_bindings_from_cai (state_payload : pyval)
    (summary : string → option pydict) (participants : list RewardShare) : PM unit := λ s,
  match state_payload with
  | VDict ((_ :: _) as state) =>
      match py_or (dget "nodeIdentities" state) (VDict []) with
      | VDict identities =>
          (set_rewards s (foldl (bind_reward identities summary) (s_rewards (py_settlement s))
                            participants), Ok tt)
      | _ =>
          if existsb (λ r, negb (String.eqb (strip (rw_node_id r)) "")) participants
          then (s, Err AttributeError) else (s, Ok tt)
      end
  | _ => (s, Ok tt)
  end.

(** ** Before the attempts *)

(** What the code knows of the job when the attempts start. *)
Record StartedJob := {
  sj_job : JobIntent;
  sj_funding_wallet : WalletRecord;
  sj_ledger : LedgerState;
  sj_decision : FundingDecision;
  sj_execution_model_id : string
}.

(** What the cluster answers after the run: the state, the network audit made from it
    (preflight audit included), the capability records, the summaries of the nodes, the bonded
    validators after the synchronisation and its audit. *)
Record RunAnswers := {
  ra_state_payload : pyval;
  ra_network_audit : pydict;
  ra_require_verified : bool;
  ra_capability_records : list CapabilityRecord;
  ra_verified_node_ids : gset string;
  ra_summary : string → option pydict;
  ra_bonded : list ValidatorRecord;
  ra_sync_audit : option pyval
}.

(** What a settled run leaves. *)
Record SettledRun := {
  se_receipt : ExecutionReceipt;
  se_settlement : SettlementRecord;
  se_decision : FundingDecision;
  se_audit : pydict
}.

Section execute.
Context `{SignatureBackend} (env : Environ) (wallet_policy : option WalletPolicy).
Context (is_today : string → bool) (ip_address ip_network : string → option string).
Context (lottery_key : string → string → Z → Q).
Context (keys_of : WalletRecord → WalletKeys) (material : WalletRecord → option SigningMaterial).
Context (age_seconds : string → option Z).
Context (mp : MoneyPolicy) (np : NetworkModelPolicy).

(** The job is marked failed and the error raised. *)
Definition fail_job {A} (j : JobIntent) (message : string) (e : exn) : JM A :=
  _ ← update_job_intent (with_job_status j "failed" (Some message)); jlift (Err e).

Definition _chain_backed_funding_wallet (t : Tick) (w : WalletRecord) : JM WalletRecord :=
  _ ← on_pay (on_chain_p (ensure_chain_genesis env wallet_policy t (Some mp)));
  balance ← on_pay (on_chain_p (chain_balance_atomic env wallet_policy t (wr_address w)));
  mret (with_spendable w balance).

(** [plan_funding] for a cost of the job. *)
Definition plan_job (t : Tick) (ledger : LedgerState) (w : WalletRecord) (cost : Z) (j : JobIntent)
  : JM FundingDecision :=
  s ← jget (λ s, py_settlement (js_pay s));
  jlift (plan_funding env wallet_policy is_today ip_address ip_network (now t) (s_chain s)
           (list_settlements (s_settlements s)) ledger w cost (jb_payment_preference j) mp None None
           (Some (jb_reserve_limit_identity_keys j)) (jb_reserve_client_ip_hash j)).

(** [execute_job_intent] up to the attempts; the store is what the preflight synchronisation
    left, [wallet] and [unlocked_wallet_id] the session's. *)
Definition start_job (t : Tick) (wallet : option WalletRecord) (unlocked_wallet_id : option string)
    (request_payload_override : pyval) (job_id : string) : JM StartedJob :=
  job ← jget (λ s, resolve_job_intent job_id (js_jobs s));
  match job with
  | None => jlift (Err (job_not_found job_id))
  | Some j =>
      match wallet with
      | None => jlift (Err (ValueError "Active wallet must match the job owner."))
      | Some w =>
          if negb (String.eqb (wr_wallet_id w) (jb_source_wallet_id j))
          then jlift (Err (ValueError "Active wallet must match the job owner."))
          else
            funding_wallet ← _chain_backed_funding_wallet t w;
            stored ← jget (λ s, py_ledger (js_pay s));
            ledger ← on_pay (on_chain_p (chain_backed_ledger_snapshot env wallet_policy t mp stored));
            decision ← plan_job t ledger funding_wallet (jb_requested_compute_cost_atomic j) j;
            if negb (fd_can_fund decision)
            then fail_job j (fd_reason decision) (ValueError (fd_reason decision))
            else if negb (fd_wallet_after_atomic decision =? spendable_balance_atomic funding_wallet)
                    && negb (bool_decide (unlocked_wallet_id = Some (wr_wallet_id w)))
            then jlift (Err (ValueError "Active wallet must be unlocked before executing a job."))
            else
              let model_id := normalize_network_model_id (jb_model_id j) np in
              let j := with_job_state j model_id "running" (jb_receipt_id j) (jb_settlement_id j) None
                         (jb_execution_attempts j) in
              _ ← update_job_intent j;
              let execution_model_id := resolve_execution_model_id model_id np in
              match _validate_request_payload_model_matches_job model_id execution_model_id
                      request_payload_override np with
              | Err (ValueError m) => fail_job j m (ValueError m)
              | Err e => jlift (Err e)
              | Ok _ =>
                  mret {| sj_job := j; sj_funding_wallet := funding_wallet; sj_ledger := ledger;
                          sj_decision := decision; sj_execution_model_id := execution_model_id |}
              end
      end
  end.

(** ** After the attempts *)

(** The audit of the run before the eligibility is known. *)
Definition run_audit (request_payload_override : pyval) (j : JobIntent) (execution_model_id : string)
    (network_audit : pydict) : pydict :=
  let audit :=
    match jb_execution_attempts j with
    | [] => network_audit
    | l => dset "executionAttemptCount" (VInt (Z.of_nat (length l)))
             (dset "executionAttempts" (VList (map VDict l)) network_audit)
    end in
  dset "modelSelection"
    (_model_selection_audit (jb_model_id j) execution_model_id request_payload_override np) audit.

(** The cost the job is settled at: by its usage when the price has a multiplier. *)
Definition actual_cost (j : JobIntent) (usage : option Usage) : result (Z * bool) :=
  match usage, jb_pricing_final_multiplier_bps j with
  | Some u, Some bps =>
      if String.eqb (jb_pricing_basis j) "llm_tokens" then
        price ← calculate_token_priced_cost (Some (us_prompt_tokens u)) (Some (us_completion_tokens u))
                  bps mp (jb_pricing_input_token_price_atomic j)
                  (jb_pricing_output_token_price_atomic j) (jb_pricing_floor_atomic j)
                  (jb_pricing_cap_atomic j);
        Ok (tc_compute_cost_atomic price, true)
      else Ok (jb_requested_compute_cost_atomic j, false)
  | _, _ => Ok (jb_requested_compute_cost_atomic j, false)
  end.

(** The funding of the actual cost; the reservation is not applied, so it is planned anew. *)
Definition final_decision (t : Tick) (sj : StartedJob) (j : JobIntent) (cost : Z) : JM FundingDecision :=
  if cost =? jb_requested_compute_cost_atomic j then mret (sj_decision sj)
  else
    d ← plan_job t (sj_ledger sj) (sj_funding_wallet sj) cost j;
    if fd_can_fund d then mret d
    else
      let message :=
        "Execution completed, but final token-priced settlement could not be funded: "
        +:+ fd_reason d in
      fail_job j message (ValueError message).

Definition run_receipt (t : Tick) (j : JobIntent) (cai_url execution_model_id instance_id : string)
    (shares : list RewardShare) (response : pydict) (d : FundingDecision) (usage_priced : bool)
    (usage : option Usage * option string * option pyval) (audit : pydict) : ExecutionReceipt := {|
  xr_receipt_id := token t; xr_created_at := now t; xr_job_id := jb_job_id j; xr_cai_url := cai_url;
  xr_model_id := jb_model_id j; xr_execution_model_id := execution_model_id;
  xr_instance_id := instance_id; xr_worker_payouts := shares; xr_response := response;
  xr_pricing_mode := jb_pricing_mode j; xr_pricing_basis := jb_pricing_basis j; xr_usage := usage.1.1;
  xr_reserved_prompt_tokens := jb_reserved_prompt_tokens j;
  xr_reserved_completion_tokens := jb_reserved_completion_tokens j;
  xr_reserved_compute_cost_atomic := jb_requested_compute_cost_atomic j;
  xr_actual_compute_cost_atomic := fq_compute_cost_atomic (fd_fee_quote d);
  xr_reservation_surplus_atomic :=
    Z.max (jb_requested_compute_cost_atomic j - fq_compute_cost_atomic (fd_fee_quote d)) 0;
  xr_usage_priced := usage_priced; xr_token_usage_source := usage.1.2;
  xr_token_usage_audit := usage.2; xr_network_audit := audit |}.

Definition receipt_audit (r : ExecutionReceipt) (payouts : list WorkerPayoutRecord) : ExecutionAudit := {|
  ex_receipt_id := xr_receipt_id r; ex_job_id := xr_job_id r; ex_model_id := xr_model_id r;
  ex_execution_model_id := xr_execution_model_id r; ex_pricing_mode := xr_pricing_mode r;
  ex_pricing_basis := xr_pricing_basis r; ex_prompt_tokens := us_prompt_tokens <$> xr_usage r;
  ex_completion_tokens := us_completion_tokens <$> xr_usage r;
  ex_total_tokens := us_total_tokens <$> xr_usage r;
  ex_reserved_prompt_tokens := xr_reserved_prompt_tokens r;
  ex_reserved_completion_tokens := xr_reserved_completion_tokens r;
  ex_reserved_compute_cost_atomic := Some (xr_reserved_compute_cost_atomic r);
  ex_actual_compute_cost_atomic := Some (xr_actual_compute_cost_atomic r);
  ex_reservation_surplus_atomic := xr_reservation_surplus_atomic r;
  ex_usage_priced := xr_usage_priced r; ex_token_usage_source := xr_token_usage_source r;
  ex_token_usage_audit := match xr_token_usage_audit r with Some (VDict d) => d | _ => [] end;
  ex_network_audit := xr_network_audit r; ex_worker_payouts := payouts |}.

(** What a run is settled at. *)
Record PricedRun := {
  px_decision : FundingDecision;
  px_shares : list RewardShare;
  px_usage : option Usage * option string * option pyval;
  px_usage_priced : bool;
  px_audit : pydict
}.

(** [execute_job_intent] from the end of the attempts to the receipt: eligibility, participants
    to pay, usage, cost, funding, shares and reward addresses. *)
Definition price_run (t : Tick) (ra : RunAnswers) (request_payload_override : pyval)
    (sj : StartedJob) (j : JobIntent) (response : pydict) (snapshot : InstanceSnapshot) : JM PricedRun :=
  let model := sj_execution_model_id sj in
  let audit := run_audit request_payload_override j model (ra_network_audit ra) in
  eligibility ← jlift (build_participant_eligibility_audit np age_seconds
      (participant_node_ids (Some snapshot)) (ra_state_payload ra) (jb_model_id j) model audit
      (ra_require_verified ra) (ra_capability_records ra) (ra_verified_node_ids ra) 300);
  let audit := dset "participantEligibility" (eligibility_dict np age_seconds eligibility) audit in
  if negb (can_settle eligibility) then
    let message := "Cannot settle execution reward: worker participant eligibility failed: "
                   +:+ join "; " (ea_fatal_reasons eligibility) in
    fail_job j message (OtherError "RuntimeError" message)
  else
    let '(participants, audit) := settlement_participants_for_reward (is_participants snapshot) audit in
    proof_usage ← jlift (extract_cai_owned_transport_token_usage audit);
    let usage := merge_llm_token_usage_audit (extract_llm_token_usage response) proof_usage in
    cost ← jlift (actual_cost j usage.1.1);
    d ← final_decision t sj j cost.1;
    let shares := distribute_worker_reward (fq_worker_reward_atomic (fd_fee_quote d)) participants in
    _ ← on_pay (_sync_worker_reward_bindings_from_cai (ra_state_payload ra) (ra_summary ra) shares);
    if (0 <? fq_worker_reward_atomic (fd_fee_quote d)) && bool_decide (shares = []) then
      let message := "Cannot settle execution reward: CAI did not report any worker participants for the completed job." in
      fail_job j message (OtherError "RuntimeError" message)
    else
      mret {| px_decision := d; px_shares := shares; px_usage := usage; px_usage_priced := cost.2;
              px_audit := audit |}.

(** The receipt, the settlement with its payouts and audit, and its signature.  [tk] are the
    draws of clock and token: the receipt's, the settlement's, the payouts' and the
    signature's. *)
Definition record_run (tk : nat → Tick) (payout_id : nat → string) (ra : RunAnswers)
    (cai_url : string) (sj : StartedJob) (j : JobIntent) (response : pydict)
    (instance_id : string) (px : PricedRun) : JM SettledRun :=
  let model := sj_execution_model_id sj in
  let d := px_decision px in
  let receipt := run_receipt (tk 1%nat) j cai_url model instance_id (px_shares px) response d
                   (px_usage_priced px) (px_usage px) (px_audit px) in
  receipts ← jget (λ s, list_execution_receipts (js_receipts s));
  _ ← save_execution_receipts (receipts ++ [receipt]);
  let w := sj_funding_wallet sj in
  settlement ← on_pay (record_funding_settlement lottery_key (tk 2%nat) (ra_bonded ra)
      (wr_wallet_id w) (wr_address w) d (Some ("CAI job " +:+ jb_job_id j +:+ " completed")) mp
      (ra_sync_audit ra));
  payouts ← on_pay (record_worker_payouts (tk 3%nat) payout_id (sr_settlement_id settlement)
      (xr_receipt_id receipt) model (xr_worker_payouts receipt) mp);
  _ ← on_pay (record_settlement_execution_audit (sr_settlement_id settlement)
                (receipt_audit receipt payouts));
  _ ← on_pay (sign_settlement_envelope keys_of material (tk 4%nat) (sr_settlement_id settlement) mp);
  mret {| se_receipt := receipt; se_settlement := settlement; se_decision := d; se_audit := px_audit px |}.

Definition settle_run (tk : nat → Tick) (payout_id : nat → string) (ra : RunAnswers)
    (request_payload_override : pyval) (cai_url : string) (sj : StartedJob) (j : JobIntent)
    (response : pydict) (snapshot : InstanceSnapshot) : JM SettledRun :=
  px ← price_run (tk 0%nat) ra request_payload_override sj j response snapshot;
  record_run tk payout_id ra cai_url sj j response (is_instance_id snapshot) px.

(** ** The votes of the committee *)

(** What a committee member answers, [None] when its record has no address or it does not
    answer. *)
Definition VoteAnswers := string → option pydict.

(** The attestation of one answer: an id outside the committee raises, an answer that
    contradicts the stored vote is logged. *)
Definition record_remote_attestation (t : Tick) (settlement_id accepted_note member : string)
    (payload : pydict) : PM bool := λ s,
  if negb (truthy (dget "attested" payload)) then (s, Ok false)
  else
    let accepted := truthy (dget "accepted" payload) in
    let validator_id := lower (strip (py_str (py_or (dget "validatorId" payload) (VStr member)))) in
    let note :=
      py_str (py_or (dget "note" payload)
                (VStr (if accepted then accepted_note else "Remote validator rejected settlement."))) in
    match record_validator_attestation env wallet_policy t settlement_id validator_id accepted (Some note)
            false s with
    | (s', Ok _) =>
        match dget "chain" payload with
        | VDict c =>
            ((on_chain_p (merge_remote_chain_payload env wallet_policy t
                            (s_validators (py_settlement s')) (VDict c)) s').1, Ok true)
        | _ => (s', Ok true)
        end
    | (s', Err (ConflictingAttestationError _)) => (s', Ok false)
    | (s', Err e) => (s', Err e)
    end.

Fixpoint request_attestations (tk : nat → Tick) (settlement_id accepted_note : string)
    (local_validator_id : option string) (answers : VoteAnswers) (members : list string) : PM Z :=
  match members with
  | [] => mret 0
  | v :: members' =>
      let member := lower (strip v) in
      record ← pget (λ s, get_validator_record member (s_validators (py_settlement s)));
      recorded ←
        (if bool_decide (local_validator_id = Some member) then mret false
         else match record, answers member with
              | Some _, Some payload =>
                  record_remote_attestation (tk (length members)) settlement_id accepted_note member
                    payload
              | _, _ => mret false
              end);
      n ← request_attestations tk settlement_id accepted_note local_validator_id answers members';
      mret (if (recorded : bool) then n + 1 else n)
  end.

(** [request_remote_committee_attestations] after its synchronisation of the validators; the
    number of attestations recorded. *)
Definition request_remote_committee_attestations (tk : nat → Tick)
    (settlement_id accepted_note : string) (local_validator_id : option string)
    (answers : VoteAnswers) : PM Z :=
  settlement ← pget (λ s, resolve_settlement settlement_id (s_settlements (py_settlement s)));
  match settlement with
  | None => plift (Err (ValueError ("Settlement '" +:+ settlement_id +:+ "' not found.")))
  | Some s =>
      request_attestations tk (sr_settlement_id s) accepted_note local_validator_id answers
        (sr_committee_validator_ids s)
  end.

(** ** The end of the job *)

Definition _apply_settlement_after_canonical_chain_sync (t : Tick) (settlement_id : string) : PM unit :=
  settlement ← pget (λ s, resolve_settlement settlement_id (s_settlements (py_settlement s)));
  match settlement with
  | None => mret tt
  | Some s =>
      history ← on_chain_p (chain_settlement_history env wallet_policy t settlement_id (Some 1) true);
      current ←
        (if String.eqb (sr_status s) "finalized" && negb (bool_decide (length (history : list pyval) = 0%nat)) then
           _ ← apply_finalized_settlement env wallet_policy t mp settlement_id None;
           again ← pget (λ s, resolve_settlement settlement_id (s_settlements (py_settlement s)));
           mret (default s again)
         else mret s);
      if String.eqb (sr_status current) "applied" then
        _ ← reconcile_worker_payouts t;
        _ ← on_settlements (record_chain_entries_for_finalized_settlements env wallet_policy t mp false);
        mret tt
      else mret tt
  end.

Definition job_entry (t : Tick) (event_type wallet_id note : string) (amount : Z) : JournalEntry := {|
  je_entry_id := token t; je_event_type := event_type; je_created_at := now t;
  je_wallet_id := wallet_id; je_amount_atomic := amount; je_note := note |}.

Definition with_network_audit (r : ExecutionReceipt) (audit : pydict) : ExecutionReceipt := {|
  xr_receipt_id := xr_receipt_id r; xr_created_at := xr_created_at r; xr_job_id := xr_job_id r;
  xr_cai_url := xr_cai_url r; xr_model_id := xr_model_id r;
  xr_execution_model_id := xr_execution_model_id r; xr_instance_id := xr_instance_id r;
  xr_worker_payouts := xr_worker_payouts r; xr_response := xr_response r;
  xr_pricing_mode := xr_pricing_mode r; xr_pricing_basis := xr_pricing_basis r;
  xr_usage := xr_usage r; xr_reserved_prompt_tokens := xr_reserved_prompt_tokens r;
  xr_reserved_completion_tokens := xr_reserved_completion_tokens r;
  xr_reserved_compute_cost_atomic := xr_reserved_compute_cost_atomic r;
  xr_actual_compute_cost_atomic := xr_actual_compute_cost_atomic r;
  xr_reservation_surplus_atomic := xr_reservation_surplus_atomic r;
  xr_usage_priced := xr_usage_priced r; xr_token_usage_source := xr_token_usage_source r;
  xr_token_usage_audit := xr_token_usage_audit r; xr_network_audit := audit |}.

(** The end: the receipt with the audit of the tail, the job completed, the journal. *)
Definition finish_job (tk : nat → Tick) (wallet_id : string) (tail_audit : pyval)
    (settlement_warning : option string) (se : SettledRun) (j : JobIntent)
  : JM (JobIntent * ExecutionReceipt) :=
  let receipt := with_network_audit (se_receipt se) (dset "settlementTail" tail_audit (se_audit se)) in
  _ ← update_execution_receipt receipt;
  let settlement_id := sr_settlement_id (se_settlement se) in
  let j := with_job_state j (jb_model_id j) "completed" (Some (xr_receipt_id receipt))
             (Some settlement_id) None (jb_execution_attempts j) in
  _ ← update_job_intent j;
  let surplus := xr_reservation_surplus_atomic receipt in
  _ ← on_pay (append_journal_entry (job_entry (tk 0%nat) "execution_receipt_recorded" wallet_id
        ("Receipt " +:+ xr_receipt_id receipt +:+ " recorded for job " +:+ jb_job_id j +:+ " with "
         +:+ str_of_Z (Z.of_nat (length (xr_worker_payouts receipt))) +:+ " worker payout(s)."
         +:+ (if 0 <? surplus
              then " Reservation surplus released logically: " +:+ str_of_Z surplus +:+ " atomic."
              else ""))
        (fq_compute_cost_atomic (fd_fee_quote (se_decision se)))));
  _ ← (if filled settlement_warning then
         on_pay (append_journal_entry (job_entry (tk 1%nat) "execution_settlement_warning" wallet_id
           ("Settlement tail warning for receipt " +:+ xr_receipt_id receipt +:+ " and settlement "
            +:+ settlement_id +:+ ": " +:+ default "" settlement_warning) 0))
       else mret tt);
  mret (j, receipt).

(** ** The whole job *)

(** What happens while a job is executed, beside the store: the session, the attempts and the
    answers; [ex_tail_audit] is the audit of the tail and the text of an error in it. *)
Record Execution := {
  en_wallet : option WalletRecord;
  en_unlocked_wallet_id : option string;
  en_local_validator_id : option string;
  en_request_payload : pyval;
  en_limits : Limits;
  en_attempts : list JobAttempt;
  en_answers : RunAnswers;
  en_votes : VoteAnswers;
  en_ticks : nat → Tick;
  en_payout_id : nat → string;
  en_tail_audit : option exn → pyval;
  en_exception_text : exn → string
}.

(** The error of a call that is caught. *)
Definition caught {A} (m : JM A) : JM (option exn) := λ s,
  match m s with (s', Ok _) => (s', Ok None) | (s', Err e) => (s', Ok (Some e)) end.

Definition ticks_from (tk : nat → Tick) (n : nat) : nat → Tick := λ i, tk (n + i)%nat.

Definition execute_job_intent (x : Execution) (job_id : string) : JM (JobIntent * ExecutionReceipt) :=
  let tk := en_ticks x in
  sj ← start_job (tk 0%nat) (en_wallet x) (en_unlocked_wallet_id x) (en_request_payload x) job_id;
  run ← attempt_loop (en_limits x) (en_attempts x) 1 (lm_max_attempts (en_limits x)) [] (sj_job sj);
  let '(j, (response, snapshot)) := run in
  let cai_url :=
    rstrip_slash (let u := default "" (jb_execution_cai_url j) in
                  if String.eqb u "" then jb_cai_url j else u) in
  se ← settle_run (ticks_from tk 1) (en_payout_id x) (en_answers x) (en_request_payload x) cai_url sj j
         response snapshot;
  let settlement_id := sr_settlement_id (se_settlement se) in
  _ ← on_pay (request_remote_committee_attestations (ticks_from tk 10) settlement_id
                "Remote committee validator accepted CAI execution receipt."
                (en_local_validator_id x) (en_votes x));
  failure ← caught (on_pay (_apply_settlement_after_canonical_chain_sync (tk 6%nat) settlement_id));
  finish_job (ticks_from tk 7) (wr_wallet_id (sj_funding_wallet sj)) (en_tail_audit x failure)
    (en_exception_text x <$> failure) se j.
End execute.
