(* ===== verification/JobProps.v ===== *)
(** * Properties of job execution

    The file of jobs as a map, the attempts, and the repair of jobs that stopped. *)
From Stdlib Require Import Ascii QArith.
From S2P Require Import Prelude.
From S2P Require Import PyStr.
From S2P Require Import PyVal.
From S2P Require Import Money.
From S2P Require Import Signing.
From S2P Require Import ChainTx.
From S2P Require Import Ledger.
From S2P Require Import ChainStore.
From S2P Require Import ChainOps.
From S2P Require Import Apportion.
From S2P Require Import SettlementData.
From S2P Require Import Funding.
From S2P Require Import Validators.
From S2P Require Import Settlement.
From S2P Require Import PeerFacts.
From S2P Require Import FundingProps.
From S2P Require Import FinalityProps.
From S2P Require Import Payouts.
From S2P Require Import PayoutProps.
From S2P Require Import Envelope.
From S2P Require Import EnvelopeProps.
From S2P Require Import Pricing.
From S2P Require Import Eligibility.
From S2P Require Import Jobs.
From S2P Require Import JobExecution.
Local Open Scope Z_scope.
Set Default Proof Using "Type".

Lemma JM_bind_eq {A B} (m : JM A) (f : A → JM B) st :
  (m ≫= f) st = match m st with (s', Ok a) => f a s' | (s', Err e) => (s', Err e) end.
Proof. done. Qed.

(** ** The file of jobs as a map *)

(** The jobs as the code reads them, by id. *)
Definition job_view (s : JobStore) (i : string) : option JobIntent := resolve_job_intent i (js_jobs s).

Lemma StronglySorted_map {A B} (f : A → B) (R : B → B → Prop) (l : list A) :
  StronglySorted R (map f l) ↔ StronglySorted (λ x y, R (f x) (f y)) l.
Proof.
  induction l as [|x l IH]; cbn [map]; [split; constructor|].
  split; intros H; inversion H as [|? ? Hs Hf]; subst; constructor; try (by apply IH);
    by rewrite Forall_map in *.
Qed.

Lemma newest_first_stable {A} (created : A → string) (l l' : list A) :
  map created l' = map created (newest_first created l) → newest_first created l' = l'.
Proof.
  intros H. apply py_sorted_id.
  apply (StronglySorted_map created (λ x y, str_leb y x = true)). rewrite H.
  apply StronglySorted_map, newest_first_sorted.
Qed.

Lemma put_job_spec job j0 l :
  List.find (λ j, String.eqb (jb_job_id j) (jb_job_id job)) l = Some j0 →
  jb_created_at j0 = jb_created_at job →
  ∃ l', put_job job l = Some l' ∧ map jb_created_at l' = map jb_created_at l
    ∧ ∀ i, List.find (λ j, String.eqb (jb_job_id j) i) l'
           = if decide (i = jb_job_id job) then Some job
             else List.find (λ j, String.eqb (jb_job_id j) i) l.
Proof.
  induction l as [|x l IH]; [done|]; cbn [List.find put_job]; intros Hf Hc.
  destruct (String.eqb_spec (jb_job_id x) (jb_job_id job)) as [Hx|Hx].
  - injection Hf as ->. exists (job :: l). split_and!; [done|cbn; by rewrite Hc|].
    intros i. cbn [List.find]. case_decide as Hi.
    + subst i. by rewrite String.eqb_refl.
    + destruct (String.eqb_spec (jb_job_id job) i) as [?|_]; [congruence|].
      destruct (String.eqb_spec (jb_job_id j0) i) as [?|_]; [congruence|done].
  - destruct (IH Hf Hc) as (l' & -> & Hm & Hl). exists (x :: l'). split_and!; [done|cbn; by rewrite Hm|].
    intros i. cbn [List.find]. rewrite Hl. case_decide as Hi; [|done].
    subst i. by destruct (String.eqb_spec (jb_job_id x) (jb_job_id job)).
Qed.

(** [s'] is [s] with the job put in the map. *)
Definition job_put (j : JobIntent) (s s' : JobStore) : Prop :=
  js_pay s' = js_pay s ∧ js_receipts s' = js_receipts s
  ∧ ∀ i, job_view s' i = if decide (i = jb_job_id j) then Some j else job_view s i.

(** The job is stored, in a version of the same age. *)
Definition job_stored (j : JobIntent) (s : JobStore) : Prop :=
  ∃ j0, job_view s (jb_job_id j) = Some j0 ∧ jb_created_at j0 = jb_created_at j.

Lemma update_job_intent_put j s :
  job_stored j s → ∃ s', update_job_intent j s = (s', Ok tt) ∧ job_put j s s'.
Proof.
  intros (j0 & Hj & Hc). unfold update_job_intent. rewrite JM_bind_eq. cbn [jget].
  destruct (put_job_spec j j0 (list_job_intents (js_jobs s)) Hj Hc) as (l' & -> & Hm & Hl).
  exists (with_jobs s l'). split; [done|]. split_and!; [done..|]. intros i.
  unfold job_view at 1, resolve_job_intent at 1, list_job_intents. cbn [js_jobs with_jobs].
  rewrite (newest_first_stable _ _ _ Hm). apply Hl.
Qed.

Lemma job_put_stored j j' s s' :
  job_put j s s' → jb_job_id j' = jb_job_id j → jb_created_at j' = jb_created_at j → job_stored j' s'.
Proof.
  intros (_ & _ & H) Hi Hc. exists j. split; [|done]. rewrite H, Hi. by rewrite decide_True.
Qed.

Lemma job_put_trans j j' s s1 s2 :
  jb_job_id j' = jb_job_id j → job_put j s s1 → job_put j' s1 s2 → job_put j' s s2.
Proof.
  intros Hi (? & ? & H1) (? & ? & H2). split_and!; [congruence..|].
  intros i. rewrite H2, H1. case_decide; [done|]. rewrite decide_False; [done|congruence].
Qed.

Lemma job_put_view j s s' : job_put j s s' → job_view s' (jb_job_id j) = Some j.
Proof. intros (_ & _ & H). rewrite H. by rewrite decide_True. Qed.

(** ** The attempts *)

(** A record of an attempt: its number, its end, the nodes it ran on and those it excluded. *)
Definition attempt_entry (r : pydict) (number : Z) (status : string) (nodes excluded : list string) : Prop :=
  dget "attempt" r = VInt number ∧ dget "status" r = VStr status
  ∧ dget "participantNodeIds" r = strs nodes ∧ dget "excludedNodeIds" r = strs excluded.

(** The error of a record is one the code retries. *)
Definition retryable_entry (r : pydict) : Prop :=
  ∃ e, dget "errorType" r = VStr (fl_type e) ∧ dget "message" r = VStr (fl_message e)
     ∧ should_retry_job_execution_error e = true.

(** The records of a run from attempt [number] on, with the nodes that failed before: all but
    the last are retries of retryable errors, and the nodes of a retry are excluded from the
    attempts after it. *)
Inductive attempts_follow : Z → list string → list pydict → string → Prop :=
| follow_last number failed r nodes status :
    status = "completed" ∨ status = "failed" →
    attempt_entry r number status nodes (py_sorted str_leb failed) →
    attempts_follow number failed [r] status
| follow_retry number failed r nodes rest status :
    attempt_entry r number "retrying" nodes (py_sorted str_leb failed) → retryable_entry r →
    attempts_follow (number + 1) (merge_nodes failed nodes) rest status →
    attempts_follow number failed (r :: rest) status.

(** The job with other attempts, status and error; everything else is kept. *)
Definition run_of (j : JobIntent) (status : string) (last_error : option string) (attempts : list pydict)
  : JobIntent :=
  with_job_state j (jb_model_id j) status (jb_receipt_id j) (jb_settlement_id j) last_error attempts.

Lemma set_last_snoc {A} (l : list A) x y : set_last (l ++ [x]) y = l ++ [y].
Proof. unfold set_last. by rewrite removelast_last. Qed.

Lemma update_phase_put now phase message ps iid ts j prior r s :
  jb_execution_attempts j = prior ++ [r] → job_stored j s →
  ∃ s' r', update_latest_execution_attempt_phase now phase message ps iid ts j s
           = (s', Ok (run_of j (jb_status j) (jb_last_error j) (prior ++ [r'])))
    ∧ job_put (run_of j (jb_status j) (jb_last_error j) (prior ++ [r'])) s s'.
Proof.
  intros Ha Hs. unfold update_latest_execution_attempt_phase. rewrite Ha, last_snoc, set_last_snoc.
  destruct (update_job_intent_put (with_attempts j (prior ++ [phase_fields now phase message ps iid ts r])) s)
    as (s' & Hu & Hp); [exact Hs|].
  exists s', (phase_fields now phase message ps iid ts r). rewrite JM_bind_eq, Hu. by split.
Qed.

(** What the body of the [try] may give. *)
Definition end_of (a : JobAttempt) (e : AttemptEnd) : Prop :=
  match ae_result e with
  | inl (response, snap) =>
      at_response a = inl (response, snap) ∧ ae_snapshot e = Some snap
      ∧ require_settleable_instance_snapshot snap = None
  | inr _ => True
  end.

Lemma run_attempt_put a n d b t j prior r s :
  jb_execution_attempts j = prior ++ [r] → job_stored j s →
  ∃ s' r' e, run_attempt a n d b t j s
             = (s', Ok (run_of j (jb_status j) (jb_last_error j) (prior ++ [r']), e))
    ∧ job_put (run_of j (jb_status j) (jb_last_error j) (prior ++ [r'])) s s' ∧ end_of a e.
Proof.
  intros Ha Hs. unfold run_attempt. rewrite JM_bind_eq.
  destruct (update_phase_put (at_now a) "instance_readiness" ready_message None None None j prior r s Ha Hs)
    as (s1 & r1 & -> & Hp1).
  destruct (at_ready a) as [snap|e]; [|by eexists s1, r1, _].
  destruct (_bounded_execution_timeout_sec _ _ _ _) as [submit|e]; [|by eexists s1, r1, _].
  rewrite JM_bind_eq.
  destruct (update_phase_put (at_now a) "first_response_wait"
    "CAI instance is ready; waiting for the model response." (Some (participant_node_ids (Some snap)))
    (Some (is_instance_id snap)) (Some submit)
    (run_of j (jb_status j) (jb_last_error j) (prior ++ [r1])) prior r1 s1) as (s2 & r2 & -> & Hp2);
    [done|by eapply job_put_stored|].
  eexists s2, r2, _. split_and!; [done|eapply job_put_trans; [|exact Hp1|exact Hp2]; done|].
  unfold end_of. destruct (at_response a) as [[response snap']|e]; [|done].
  by destruct (require_settleable_instance_snapshot snap') eqn:?.
Qed.

Lemma execution_attempt_record_entry now n status started completed excluded retry d :
  attempt_entry (execution_attempt_record now n status started completed excluded retry d) n status
    (ad_participant_node_ids d) excluded.
Proof. done. Qed.

Lemma execution_attempt_record_error now n status started completed excluded retry d e :
  ad_error d = Some e → should_retry_job_execution_error e = true →
  retryable_entry (execution_attempt_record now n status started completed excluded retry d).
Proof.
  intros He Hr. exists e. unfold execution_attempt_record. rewrite He.
  destruct (filled (ad_instance_id d)), (ad_timeout_sec d), (ad_attempt_duration_ms d),
    (ad_readiness_duration_ms d), (ad_response_duration_ms d); done.
Qed.

Definition loop_outcome (answers : list JobAttempt) (number : Z) (failed : list string) (j : JobIntent)
    (left : nat) (s s' : JobStore) (r : result (JobIntent * (pydict * InstanceSnapshot))) : Prop :=
  ∃ records, (0 < length records ≤ left)%nat ∧
  match r with
  | Ok (j', (response, snap)) =>
      attempts_follow number failed records "completed"
      ∧ (∃ err, j' = run_of j "running" err (jb_execution_attempts j ++ records))
      ∧ job_put j' s s'
      ∧ (∃ a, a ∈ answers ∧ at_response a = inl (response, snap))
      ∧ require_settleable_instance_snapshot snap = None
  | Err e =>
      attempts_follow number failed records "failed"
      ∧ ∃ f, e = raised_error f
          ∧ job_put (run_of j "failed" (Some (fl_message f)) (jb_execution_attempts j ++ records)) s s'
  end.

Lemma run_of_run_of j st err l st' err' l' :
  run_of (run_of j st err l) st' err' l' = run_of j st' err' l'.
Proof. done. Qed.

Lemma job_stored_run j st err l s : job_stored j s → job_stored (run_of j st err l) s.
Proof. done. Qed.

Lemma final_record_entry a n excluded retry e :
  attempt_entry (final_record a n excluded retry e) n
    match ae_result e with inl _ => "completed" | inr _ => if retry then "retrying" else "failed" end
    match ae_result e with
    | inl _ => participant_node_ids (ae_snapshot e)
    | inr _ => failed_nodes a e
    end excluded.
Proof. unfold final_record. destruct (ae_result e), retry; apply execution_attempt_record_entry. Qed.

Lemma final_record_retryable a n excluded e err :
  ae_result e = inr err → should_retry_job_execution_error err = true →
  retryable_entry (final_record a n excluded true e).
Proof.
  intros He Hr. unfold final_record. rewrite He. by eapply execution_attempt_record_error.
Qed.

Lemma update_last_put j st err prior r x s s0 :
  jb_execution_attempts j = prior ++ [r] → job_put j s s0 →
  ∃ s', update_job_intent (run_of j st err (set_last (jb_execution_attempts j) x)) s0 = (s', Ok tt)
      ∧ job_put (run_of j st err (prior ++ [x])) s s'.
Proof.
  intros Ha Hp. rewrite Ha, set_last_snoc.
  destruct (update_job_intent_put (run_of j st err (prior ++ [x])) s0) as (s' & Hu & Hp');
    [by eapply job_put_stored|].
  exists s'. split; [exact Hu|]. eapply job_put_trans; [|exact Hp|exact Hp']; done.
Qed.

Lemma set_last_run j st err l x y : set_last (jb_execution_attempts (run_of j st err (l ++ [x]))) y = l ++ [y].
Proof. apply set_last_snoc. Qed.

Lemma outcome_after_retry a answers' number failed nodes j left' x msg s s3 s' r :
  let j3 := run_of j "running" (Some msg) (jb_execution_attempts j ++ [x]) in
  loop_outcome answers' (number + 1) (merge_nodes failed nodes) j3 left' s3 s' r →
  job_put j3 s s3 → attempt_entry x number "retrying" nodes (py_sorted str_leb failed) → retryable_entry x →
  loop_outcome (a :: answers') number failed j (S left') s s' r.
Proof.
  intros j3 (records & Hl & Hr) Hp Hx Hrx. exists (x :: records). split; [cbn; lia|].
  destruct r as [[j' [response snap]]|e].
  - destruct Hr as (Hf & (err & ->) & Hp' & (b & Hb & ?) & ?).
    assert (∀ st e l, run_of j3 st e (jb_execution_attempts j3 ++ l) = run_of j st e (jb_execution_attempts j ++ x :: l))
      as Hj by (intros; unfold j3; cbn; by rewrite <- app_assoc).
    rewrite Hj in *. split_and!.
    + by eapply follow_retry.
    + by exists err.
    + eapply job_put_trans; [|exact Hp|exact Hp']; done.
    + exists b. split; [by right|done].
    + done.
  - destruct Hr as (Hf & f & -> & Hp'). split; [by eapply follow_retry|]. exists f. split; [done|].
    eapply job_put_trans in Hp'; [|..|exact Hp]; [|done]. unfold j3 in Hp'.
    cbn [jb_execution_attempts run_of with_job_state] in Hp'. rewrite <- app_assoc in Hp'. exact Hp'.
Qed.

(** The loop after an attempt of the stored job [j2] that failed with [err]. *)
Lemma attempt_failed_outcome lm a answers' number left' failed j prior rec2 e err s s2 :
  let j2 := run_of j "running" (jb_last_error j) (prior ++ [rec2]) in
  let excluded := py_sorted str_leb failed in
  let retry := (0 <? Z.of_nat left') && should_retry_job_execution_error err
               && negb (Qle_bool (lm_deadline lm - at_end a) 1) in
  let attempts' := set_last (jb_execution_attempts j2) (final_record a number excluded retry e) in
  prior = jb_execution_attempts j → ae_result e = inr err → job_put j2 s s2 → (left' ≤ length answers')%nat →
  (∀ number failed j s, (0 < left' ≤ length answers')%nat → job_stored j s →
     ∃ s' r, attempt_loop lm answers' number left' failed j s = (s', r)
           ∧ loop_outcome answers' number failed j left' s s' r) →
  ∃ s' r,
    (if retry then
       update_job_intent (after_failure j2 attempts' "running"
         ("Execution attempt " +:+ str_of_Z number +:+ " failed; retrying: " +:+ fl_message err))
       ≫= λ _, attempt_loop lm answers' (number + 1) left' (merge_nodes failed (failed_nodes a e))
                 (after_failure j2 attempts' "running"
                    ("Execution attempt " +:+ str_of_Z number +:+ " failed; retrying: "
                     +:+ fl_message err))
     else update_job_intent (after_failure j2 attempts' "failed" (fl_message err))
          ≫= λ _, jlift (Err (raised_error err))) s2 = (s', r)
    ∧ loop_outcome (a :: answers') number failed j (S left') s s' r.
Proof.
  intros j2 excluded retry attempts' -> He Hp Hl IH.
  pose proof (final_record_entry a number excluded retry e) as Hentry. rewrite He in Hentry.
  set (x := final_record a number excluded retry e) in *.
  destruct retry eqn:Hretry.
  - set (msg := "Execution attempt " +:+ str_of_Z number +:+ " failed; retrying: " +:+ fl_message err).
    destruct (update_last_put j2 "running" (Some msg) (jb_execution_attempts j) rec2 x s s2 eq_refl Hp)
      as (s3 & Hu & Hp3).
    apply andb_prop in Hretry as [Hretry _]. apply andb_prop in Hretry as [Hpos Hagain].
    apply Z.ltb_lt in Hpos.
    set (j3 := run_of j2 "running" (Some msg) (jb_execution_attempts j ++ [x])) in *.
    destruct (IH (number + 1) (merge_nodes failed (failed_nodes a e)) j3 s3) as (s' & r & Hrun & Hout);
      [lia|exists j3; split; [by apply (job_put_view j3 s)|done]|].
    assert (after_failure j2 attempts' "running" msg = j3) as Hj3.
    { unfold after_failure, attempts', j2, j3. by rewrite set_last_run. }
    assert (run_of j2 "running" (Some msg) (set_last (jb_execution_attempts j2) x) = j3) as Hj3'.
    { unfold j2, j3. by rewrite set_last_run. }
    rewrite Hj3' in Hu. rewrite JM_bind_eq, Hj3, Hu.
    exists s', r. split; [exact Hrun|]. eapply (outcome_after_retry a); [exact Hout|exact Hp3|exact Hentry|].
    by eapply final_record_retryable.
  - destruct (update_last_put j2 "failed" (Some (fl_message err)) (jb_execution_attempts j) rec2 x s s2
      eq_refl Hp) as (s3 & Hu & Hp3).
    rewrite JM_bind_eq. unfold after_failure, attempts'. unfold run_of in Hu. rewrite Hu.
    exists s3, (Err (raised_error err)). split; [done|]. exists [x]. split; [cbn; lia|].
    split; [|by exists err]. eapply follow_last; [by right|exact Hentry].
Qed.

Lemma attempt_loop_outcome lm left : ∀ answers number failed j s,
  (0 < left ≤ length answers)%nat → job_stored j s →
  ∃ s' r, attempt_loop lm answers number left failed j s = (s', r)
        ∧ loop_outcome answers number failed j left s s' r.
Proof.
  induction left as [|left' IH]; intros answers number failed j s Hl Hs; [lia|].
  destruct answers as [|a answers']; [cbn in Hl; lia|]. cbn [attempt_loop].
  destruct (_bounded_execution_timeout_sec _ _ _ _) as [timeout|e].
  2: { (* the deadline passed *)
    set (rec := expired_record a number (py_sorted str_leb failed) e).
    destruct (update_job_intent_put (after_failure j (jb_execution_attempts j ++ [rec]) "failed" (fl_message e)) s)
      as (s' & Hu & Hp); [exact Hs|]. rewrite JM_bind_eq, Hu.
    exists s', (Err (raised_error e)). split; [done|]. exists [rec]. split; [cbn; lia|].
    split; [|exists e; by split].
    eapply (follow_last _ _ _ []); [by right|]. apply execution_attempt_record_entry. }
  set (rec := running_record a number (py_sorted str_leb failed) timeout).
  set (prior := jb_execution_attempts j).
  destruct (update_job_intent_put (run_of j "running" (jb_last_error j) (prior ++ [rec])) s)
    as (s1 & Hu1 & Hp1); [exact Hs|].
  unfold run_of in Hu1. rewrite JM_bind_eq, Hu1. clear Hu1. rewrite JM_bind_eq.
  destruct (run_attempt_put a number
    (qmin (lm_deadline lm) (at_begin a + qmax 1 (lm_attempt_timeout lm)))
    (lm_first_response_timeout lm) timeout (run_of j "running" (jb_last_error j) (prior ++ [rec]))
    prior rec s1) as (s2 & rec2 & e & Hrun & Hp2 & Hend); [done|by eapply job_put_stored|].
  unfold run_of at 1 in Hrun. rewrite Hrun. clear Hrun.
  rewrite run_of_run_of in *. cbn [jb_status jb_last_error run_of with_job_state] in *.
  assert (job_put (run_of j "running" (jb_last_error j) (prior ++ [rec2])) s s2) as Hp
    by (eapply job_put_trans; [|exact Hp1|exact Hp2]; done).
  clear Hp1 Hp2 s1. set (j2 := run_of j "running" (jb_last_error j) (prior ++ [rec2])) in *.
  destruct (ae_result e) as [[response snap]|err] eqn:He.
  - (* a response *)
    destruct (update_last_put j2 (jb_status j2) (jb_last_error j2) prior rec2
      (final_record a number (py_sorted str_leb failed) false e) s s2 eq_refl Hp) as (s' & Hu & Hp').
    unfold with_attempts. unfold run_of in Hu. rewrite JM_bind_eq, Hu.
    eexists s', _. split; [done|]. exists [final_record a number (py_sorted str_leb failed) false e].
    split; [cbn; lia|]. pose proof (final_record_entry a number (py_sorted str_leb failed) false e) as Hr.
    unfold end_of in Hend. rewrite He in Hr, Hend. split_and!; try apply Hend.
    + eapply follow_last; [by left|exact Hr].
    + exists (jb_last_error j). unfold j2. by rewrite set_last_run.
    + unfold j2. rewrite set_last_run. exact Hp'.
    + exists a. split; [left|apply Hend].
  - apply (attempt_failed_outcome lm a answers' number left' failed j prior rec2 e err s s2);
      [done..|cbn in Hl; lia|intros; by apply IH].
Qed.

(** ** Repairing jobs that stopped *)

Section reconcile.
Context (timeout : Z) (age : string → option Q) (receipts : list ExecutionReceipt)
  (settlements : list SettlementRecord).

Abbreviation reconciled := (reconciled_job timeout age receipts settlements).

(** A repair keeps the job, which was running and no longer is. *)
Lemma reconciled_job_keeps j j' :
  reconciled j = Some j' →
  jb_job_id j' = jb_job_id j ∧ jb_created_at j' = jb_created_at j
  ∧ jb_status j = "running" ∧ jb_status j' ∈ ["completed"; "failed"].
Proof.
  unfold reconciled_job. destruct (String.eqb_spec (jb_status j) "running") as [Hr|]; [|done]. cbn [negb].
  destruct (if filled (jb_receipt_id j) then None else _) as [r|].
  - intros [= <-]. split_and!; try done. set_solver.
  - destruct (_ || _); [done|]. destruct (age _) as [a|]; [|done]. destruct (Qle_bool _ _); [done|].
    intros [= <-]. split_and!; try done. set_solver.
Qed.

Lemma reconciled_job_idle j : jb_status j ≠ "running" → reconciled j = None.
Proof. intros Hr. destruct (reconciled j) as [j'|] eqn:E; [|done]. by apply reconciled_job_keeps in E as (_ & _ & ? & _). Qed.

Definition repaired (j : JobIntent) : JobIntent := default j (reconciled j).

Lemma repaired_keeps j : jb_job_id (repaired j) = jb_job_id j ∧ jb_created_at (repaired j) = jb_created_at j.
Proof. unfold repaired. destruct (reconciled j) eqn:E; [|done]. by apply reconciled_job_keeps in E as (? & ? & _). Qed.

Lemma repaired_stable j : reconciled (repaired j) = None.
Proof.
  unfold repaired. destruct (reconciled j) as [j'|] eqn:E; [|done].
  apply reconciled_job_idle. apply reconciled_job_keeps in E as (_ & _ & _ & Hs). cbn.
  intros Hr. rewrite Hr in Hs. set_solver.
Qed.

Lemma changes_none l :
  length (omap (λ x, x) (map reconciled l)) = 0%nat → map repaired l = l.
Proof.
  induction l as [|j l IH]; [done|]. cbn. unfold repaired at 1. destruct (reconciled j) eqn:E; [done|].
  intros Hl. by rewrite IH.
Qed.

Lemma changes_zip l : zip_with (λ j c, default j c) l (map reconciled l) = map repaired l.
Proof. induction l as [|j l IH]; [done|]. cbn. by rewrite IH. Qed.

Lemma changes_repaired l : omap (λ x, x) (map reconciled (map repaired l)) = [].
Proof. induction l as [|j l IH]; [done|]. cbn. by rewrite repaired_stable. Qed.
End reconcile.

Lemma find_map_job (f : JobIntent → JobIntent) i l :
  (∀ j, jb_job_id (f j) = jb_job_id j) →
  List.find (λ j, String.eqb (jb_job_id j) i) (map f l)
  = f <$> List.find (λ j, String.eqb (jb_job_id j) i) l.
Proof.
  intros Hf. induction l as [|j l IH]; [done|]. cbn. rewrite Hf. by destruct (String.eqb _ _).
Qed.

(** The repair of a store. *)
Definition repair_of (env : Environ) (age : string → option Q) (stale : option Z) (s : JobStore)
  : JobIntent → JobIntent :=
  repaired (stale_timeout env stale) age (list_execution_receipts (js_receipts s))
    (s_settlements (py_settlement (js_pay s))).

Lemma reconcile_repairs env age stale s :
  ∃ s' n, reconcile_stale_running_job_intents env age stale s = (s', Ok n)
    ∧ js_pay s' = js_pay s ∧ js_receipts s' = js_receipts s
    ∧ list_job_intents (js_jobs s') = map (repair_of env age stale s) (list_job_intents (js_jobs s)).
Proof.
  unfold reconcile_stale_running_job_intents. do 3 (rewrite JM_bind_eq; unfold jget at 1). cbv zeta.
  set (changes := map (reconciled_job _ _ _ _) _). destruct (Z.eqb_spec (Z.of_nat (length (omap (λ x, x) changes))) 0) as [Hz|Hz].
  - exists s, 0. split_and!; try done. symmetry. apply changes_none. unfold changes in Hz. lia.
  - eexists _, _. split; [reflexivity|]. split_and!; try done. cbn [js_jobs with_jobs].
    unfold changes. rewrite changes_zip. eapply newest_first_stable.
    rewrite map_map. apply map_ext. intros j. apply repaired_keeps.
Qed.

Lemma reconcile_view env age stale s s' :
  list_job_intents (js_jobs s') = map (repair_of env age stale s) (list_job_intents (js_jobs s)) →
  ∀ i, job_view s' i = repair_of env age stale s <$> job_view s i.
Proof.
  intros Hl i. unfold job_view, resolve_job_intent. rewrite Hl. apply find_map_job.
  intros j. apply repaired_keeps.
Qed.

Lemma reconcile_idle env age stale s s' :
  js_pay s' = js_pay s → js_receipts s' = js_receipts s →
  list_job_intents (js_jobs s') = map (repair_of env age stale s) (list_job_intents (js_jobs s)) →
  reconcile_stale_running_job_intents env age stale s' = (s', Ok 0).
Proof.
  intros Hp Hr Hl. unfold reconcile_stale_running_job_intents. do 3 (rewrite JM_bind_eq; unfold jget at 1).
  cbv zeta. rewrite Hl, Hp, Hr. unfold repair_of. rewrite changes_repaired. done.
Qed.

(** ** What a repair may do *)

Section reconciliation.
Context (timeout : Z) (age : string → option Q) (receipts : list ExecutionReceipt)
  (settlements : list SettlementRecord).

Definition receipt_for (j : JobIntent) (r : ExecutionReceipt) : Prop :=
  strip (xr_job_id r) ≠ "" ∧ strip (xr_job_id r) = strip (jb_job_id j).

(** The settlement a completed job names: its own, or the first listed one whose execution
    audit names the receipt or the job. *)
Definition settlement_named (j : JobIntent) (receipt_id : string) (o : option string) : Prop :=
  if filled (jb_settlement_id j) then o = jb_settlement_id j
  else if String.eqb (strip receipt_id) "" && String.eqb (strip (jb_job_id j)) "" then o = None
  else ∃ s, first_such (λ s, audit_names (strip receipt_id) (strip (jb_job_id j)) s = true)
              (list_settlements settlements) s ∧ o = sr_settlement_id <$> s.

(** A job that is not running stays.  A running one without a receipt id is completed with the
    last listed receipt of the job; without such a receipt and without a settlement id, it is
    failed when it is older than the limit, and waits otherwise. *)
Inductive reconciliation (j : JobIntent) : JobIntent → Prop :=
| job_not_running : jb_status j ≠ "running" → reconciliation j j
| job_has_receipt r settlement_id :
    jb_status j = "running" → filled (jb_receipt_id j) = false →
    first_such (receipt_for j) (rev receipts) (Some r) →
    settlement_named j (xr_receipt_id r) settlement_id →
    reconciliation j
      (with_job_state j (jb_model_id j) "completed" (Some (xr_receipt_id r)) settlement_id None
         (jb_execution_attempts j))
| job_is_stale a :
    jb_status j = "running" → filled (jb_receipt_id j) = false → filled (jb_settlement_id j) = false →
    Forall (λ r, ¬ receipt_for j r) receipts →
    age (jb_created_at j) = Some a → (inject_Z timeout < a)%Q →
    reconciliation j
      (with_job_status j "failed"
         (Some ("Job was marked failed because it remained running beyond "
                +:+ str_of_Z timeout +:+ " seconds without an execution receipt.")))
| job_waits :
    jb_status j = "running" →
    filled (jb_receipt_id j) = true
    ∨ (Forall (λ r, ¬ receipt_for j r) receipts
       ∧ (filled (jb_settlement_id j) = true
          ∨ ∀ a, age (jb_created_at j) = Some a → (a <= inject_Z timeout)%Q)) →
    reconciliation j j.

Lemma receipt_of_job_first j : first_such (receipt_for j) (rev receipts) (receipt_of_job (jb_job_id j) receipts).
Proof.
  apply find_first. intros r. unfold receipt_for. rewrite andb_true_iff, negb_true_iff, String.eqb_neq, String.eqb_eq.
  done.
Qed.

Lemma settlement_for_named j receipt_id :
  settlement_named j receipt_id
    (if filled (jb_settlement_id j) then jb_settlement_id j
     else _settlement_id_for_receipt_or_job receipt_id (jb_job_id j) settlements).
Proof.
  unfold settlement_named, _settlement_id_for_receipt_or_job. destruct (filled _); [done|].
  cbv zeta. destruct (_ && _); [done|]. eexists. split; [by apply find_first|done].
Qed.

(** What the code does with a job is a reconciliation. *)
Lemma repaired_reconciliation j : reconciliation j (repaired timeout age receipts settlements j).
Proof.
  unfold repaired, reconciled_job. destruct (String.eqb_spec (jb_status j) "running") as [Hrun|Hrun]; cbn [negb default].
  2: by apply job_not_running.
  destruct (filled (jb_receipt_id j)) eqn:Er; cbn [orb]; [by apply job_waits; [|left]|].
  pose proof (receipt_of_job_first j) as Hfirst. destruct (receipt_of_job _ _) as [r|].
  { apply job_has_receipt; [done..|]. apply settlement_for_named. }
  assert (Forall (λ r, ¬ receipt_for j r) receipts) as Hnone.
  { rewrite <- (rev_involutive receipts). by apply Forall_rev. }
  destruct (filled (jb_settlement_id j)) eqn:Es; [apply (job_waits j); auto|].
  destruct (age (jb_created_at j)) as [a|] eqn:Ea.
  2: { apply (job_waits j); [done|]. right. split; [done|]. right. intros a. by rewrite Ea. }
  destruct (Qle_bool a (inject_Z timeout)) eqn:Eq.
  - apply Qle_bool_iff in Eq. apply (job_waits j); [done|]. right. split; [done|]. right.
    intros a'. rewrite Ea. by intros [= <-].
  - apply (job_is_stale j a); try done. apply Qnot_le_lt. intros Hle%Qle_bool_iff. congruence.
Qed.
End reconciliation.

(** With an answer for every attempt, the attempts of a stored job end after at most the
    allowed number of them.  All but the last are retries of retryable errors, each excludes
    the nodes the failed ones ran on, and the last is completed with an answer of the cluster
    or failed; the stored job holds the records and the outcome, and no other job, receipt or
    settlement changes. *)
Theorem attempts_recorded lm answers j s :
  (0 < lm_max_attempts lm ≤ length answers)%nat → job_stored j s →
  ∃ s' r, attempt_loop lm answers 1 (lm_max_attempts lm) [] j s = (s', r)
        ∧ loop_outcome answers 1 [] j (lm_max_attempts lm) s s' r.
Proof. apply attempt_loop_outcome. Qed.

(** C35: reconciling never raises and treats each listed job by itself, as [reconciliation] says:
    a running job without a receipt id is completed with the receipt found for it and the
    settlement whose audit names it; one without receipt and settlement that is older than the
    limit is failed; every other job stays as it is, and so do receipts, settlements and
    wallets.  Reconciling again at the same time (the same ages) changes nothing. *)
Theorem reconcile_settles_running_jobs env age stale s :
  ∃ s' n, reconcile_stale_running_job_intents env age stale s = (s', Ok n)
    ∧ js_pay s' = js_pay s ∧ js_receipts s' = js_receipts s
    ∧ Forall2
        (reconciliation (stale_timeout env stale) age (list_execution_receipts (js_receipts s))
           (s_settlements (py_settlement (js_pay s))))
        (list_job_intents (js_jobs s)) (list_job_intents (js_jobs s'))
    ∧ reconcile_stale_running_job_intents env age stale s' = (s', Ok 0).
Proof.
  destruct (reconcile_repairs env age stale s) as (s' & n & Hrun & Hp & Hr & Hl). exists s', n. split_and!; try done.
  - rewrite Hl. apply Forall2_fmap_r, Forall_Forall2_diag, Forall_true. intros j. apply repaired_reconciliation.
  - by eapply reconcile_idle.
Qed.

(** * Properties of the settlement of a job

    What a run that is settled leaves: one receipt, one pending settlement whose payouts are
    exact, and an execution audit from which a job that stopped afterwards is repaired. *)


(** ** Running the operations *)

Lemma JM_bind_ok {A B} (m : JM A) (f : A → JM B) s s' b :
  (m ≫= f) s = (s', Ok b) ↔ ∃ s1 a, m s = (s1, Ok a) ∧ f a s1 = (s', Ok b).
Proof.
  rewrite JM_bind_eq. destruct (m s) as [s1 [a|e]]; split; [by eauto| |done|].
  - by intros (? & ? & [= <- <-] & ?).
  - by intros (? & ? & ? & ?).
Qed.

Lemma jlift_ok {A} (r : result A) s s' a : jlift r s = (s', Ok a) ↔ s' = s ∧ r = Ok a.
Proof. unfold jlift. split; [by intros [= -> ->]|by intros [-> ->]]. Qed.

Lemma on_pay_ok {A} (m : PM A) s s' a :
  on_pay m s = (s', Ok a) ↔
  ∃ p, m (js_pay s) = (p, Ok a)
     ∧ s' = {| js_pay := p; js_jobs := js_jobs s; js_receipts := js_receipts s |}.
Proof.
  unfold on_pay. destruct (m (js_pay s)) as [p r]. split.
  - intros [= <- ->]. by exists p.
  - by intros (p' & [= -> ->] & ->).
Qed.

Lemma fail_job_not_ok {A} j m e s s' (a : A) : fail_job j m e s ≠ (s', Ok a).
Proof.
  unfold fail_job. rewrite JM_bind_eq. by destruct (update_job_intent _ s) as [? [[]|?]].
Qed.

Lemma filter_newest_first {A} (created : A → string) (P : A → Prop) `{∀ x, Decision (P x)} l :
  filter P (newest_first created l) = newest_first created (filter P l).
Proof.
  apply filter_py_sorted; [intros x y; apply str_leb_total|]. intros x y z Hxy Hyz. by eapply str_leb_trans.
Qed.

Lemma list_settlements_twice l : list_settlements (list_settlements l) = list_settlements l.
Proof. by apply (newest_first_stable _ l). Qed.

(** A settlement that is added hides no other. *)
Lemma resolve_added i s l :
  i ≠ sr_settlement_id s → resolve_settlement i (list_settlements l ++ [s]) = resolve_settlement i l.
Proof.
  intros Hi. unfold resolve_settlement. rewrite !find_head_filter. unfold list_settlements.
  rewrite !filter_newest_first, filter_app, filter_newest_first, (filter_none _ [s]), app_nil_r.
  - f_equal. by eapply newest_first_stable.
  - constructor; [|done]. intros E%String.eqb_eq. congruence.
Qed.

(** ** Who is paid *)

Lemma receipt_participants_nodup ps receipts : ∀ seen,
  NoDup (map pa_node_id (receipt_participants ps seen receipts))
  ∧ ∀ n, n ∈ map pa_node_id (receipt_participants ps seen receipts) → n ∉ seen.
Proof.
  induction receipts as [|r receipts IH]; intros seen; cbn [receipt_participants]; [split; [constructor|set_solver]|].
  destruct (completed_node r) as [[d n]|]; [|apply IH]. case_bool_decide as Hseen; [apply IH|].
  destruct (IH (seen ++ [n])) as [Hnd Hout]. cbn [map receipt_participant pa_node_id]. split.
  - constructor; [|done]. intros Hn%Hout. set_solver.
  - intros m [->|Hm]%elem_of_cons; [done|]. apply Hout in Hm. set_solver.
Qed.

(** The nodes of the completed receipts. *)
Definition completed_nodes (receipts : list pyval) : list string := map snd (omap completed_node receipts).

Lemma receipt_participants_complete ps receipts n : ∀ seen,
  n ∉ seen → n ∈ map pa_node_id (receipt_participants ps seen receipts) ↔ n ∈ completed_nodes receipts.
Proof.
  induction receipts as [|r receipts IH]; intros seen Hn; [done|].
  unfold completed_nodes in *. cbn [receipt_participants omap list_omap].
  destruct (completed_node r) as [[d m]|]; [|by apply IH]. cbn [map]. rewrite elem_of_cons. cbn [snd].
  case_bool_decide as Hseen.
  - rewrite IH by done. split; [by right|]. intros [->|]; done.
  - cbn [map receipt_participant pa_node_id]. rewrite elem_of_cons.
    destruct (decide (n = m)) as [->|Hne]; [split; by left|]. by rewrite IH by set_solver.
Qed.

(** The participants a run pays. *)
Definition payees (ps : list Participant) (network_audit : pydict) : list Participant :=
  (settlement_participants_for_reward ps network_audit).1.

Lemma payees_audit ps audit audit' :
  (∀ k, k ∈ ["caiOwnedTransportExecuted"; "caiOwnedTransportExecutionProof"] → dget k audit' = dget k audit) →
  payees ps audit' = payees ps audit.
Proof.
  intros Hk. unfold payees, settlement_participants_for_reward. rewrite !Hk by set_solver.
  destruct (negb _); [done|]. destruct (dget "caiOwnedTransportExecutionProof" audit) as [| | | | |d]; try done.
  by destruct (dget "shardReceipts" d) as [| | | |[|r l]|].
Qed.

Lemma payees_nodup ps audit : NoDup (map pa_node_id ps) → NoDup (map pa_node_id (payees ps audit)).
Proof.
  intros Hnd. unfold payees, settlement_participants_for_reward. destruct (negb _); [done|].
  destruct (dget "caiOwnedTransportExecutionProof" audit) as [| | | | |d]; try done.
  destruct (dget "shardReceipts" d) as [| | | |[|r l]|]; try constructor.
  apply receipt_participants_nodup.
Qed.

Lemma distribute_nobody total : distribute_worker_reward total [] = [].
Proof. unfold distribute_worker_reward. rewrite bool_decide_true by done. by rewrite orb_true_r. Qed.

(** ** What a run is settled at *)

Lemma funding_of_plan `{SignatureBackend} env wp is_today ip_a ip_n now st settlements ledger w c pref mp tx ip keys hash d :
  plan_funding env wp is_today ip_a ip_n now st settlements ledger w c pref mp tx ip keys hash = Ok d →
  build_fee_quote c mp tx = Ok (fd_fee_quote d).
Proof.
  unfold plan_funding. intros (q & Hq & Hp)%bind_ok.
  apply bind_ok in Hp as (fb & _ & (keys' & _ & (spent & _ & (limits & _ & Hd)%bind_ok)%bind_ok)%bind_ok).
  apply (inj Ok) in Hd as <-. by rewrite funding_decision_quote.
Qed.

Section settled.
Context `{SignatureBackend} (env : Environ) (wallet_policy : option WalletPolicy).
Context (is_today : string → bool) (ip_address ip_network : string → option string).
Context (lottery_key : string → string → Z → Q).
Context (keys_of : WalletRecord → WalletKeys) (material : WalletRecord → option SigningMaterial).
Context (age_seconds : string → option Z).
Context (mp : MoneyPolicy) (np : NetworkModelPolicy).

(** The prices of a job are not negative. *)
Definition prices_nonneg (j : JobIntent) : Prop :=
  0 ≤ jb_requested_compute_cost_atomic j
  ∧ (jb_pricing_final_multiplier_bps j ≠ None →
     ∃ f c, jb_pricing_floor_atomic j = Some f ∧ jb_pricing_cap_atomic j = Some c ∧ 0 ≤ f ≤ c).

Lemma actual_cost_nonneg j u cost priced :
  prices_nonneg j → actual_cost mp j u = Ok (cost, priced) → 0 ≤ cost.
Proof.
  intros [Hreq Hp] Hc. unfold actual_cost in Hc. destruct u as [u|]; [|by injection Hc as <- <-].
  destruct (jb_pricing_final_multiplier_bps j) as [bps|]; [|by injection Hc as <- <-].
  destruct (String.eqb _ _); [|by injection Hc as <- <-].
  destruct (Hp ltac:(done)) as (f & c & Ef & Ec & Hf & Hfc). rewrite Ef, Ec in Hc.
  apply bind_ok in Hc as (price & Hprice & Hc). injection Hc as <- _.
  unfold calculate_token_priced_cost in Hprice.
  apply bind_ok in Hprice as (ip & _ & (op & _ & Hprice)%bind_ok). apply (inj Ok) in Hprice as <-.
  cbn [tc_compute_cost_atomic price_or default]. lia.
Qed.

(** The decision of a started job is made for the cost it requests. *)
Definition decision_funds (j : JobIntent) (sj : StartedJob) : Prop :=
  build_fee_quote (jb_requested_compute_cost_atomic j) mp None = Ok (fd_fee_quote (sj_decision sj)).

Lemma final_decision_ok t sj j cost s s' d :
  decision_funds j sj →
  final_decision env wallet_policy is_today ip_address ip_network mp t sj j cost s = (s', Ok d) →
  s' = s ∧ build_fee_quote cost mp None = Ok (fd_fee_quote d).
Proof using H.
  intros Hd. unfold final_decision. destruct (Z.eqb_spec cost (jb_requested_compute_cost_atomic j)) as [->|_].
  { by intros [= <- <-]. }
  intros (s1 & d1 & Hp & Hf)%JM_bind_ok. unfold plan_job in Hp.
  apply JM_bind_ok in Hp as (s2 & ss & [= <- <-] & [-> Hp]%jlift_ok). apply funding_of_plan in Hp.
  destruct (fd_can_fund d1); [by injection Hf as <- <-|]. by apply fail_job_not_ok in Hf.
Qed.

(** What [price_run] promises: the files keep their records, the cost is the actual one, the
    reward is distributed over the participants to pay. *)
Record priced (ra : RunAnswers) (j : JobIntent) (snapshot : InstanceSnapshot)
    (st st' : JobStore) (px : PricedRun) : Prop := {
  pz_jobs : js_jobs st' = js_jobs st;
  pz_receipts : js_receipts st' = js_receipts st;
  pz_pay : ∃ r, js_pay st' = set_rewards (js_pay st) r;
  pz_shares :
    let paid := payees (is_participants snapshot) (ra_network_audit ra) in
    px_shares px = distribute_worker_reward (fq_worker_reward_atomic (fd_fee_quote (px_decision px))) paid
    ∧ (0 < fq_worker_reward_atomic (fd_fee_quote (px_decision px)) → paid ≠ []);
  pz_cost : ∃ cost, actual_cost mp j (px_usage px).1.1 = Ok (cost, px_usage_priced px)
    ∧ build_fee_quote cost mp None = Ok (fd_fee_quote (px_decision px))
}.

Lemma sync_rewards_ok state summary shares p p' u :
  _sync_worker_reward_bindings_from_cai state summary shares p = (p', Ok u) → ∃ r, p' = set_rewards p r.
Proof.
  assert (p = set_rewards p (s_rewards (py_settlement p))) as Hp by (by destruct p as [[] ? ? ?]).
  unfold _sync_worker_reward_bindings_from_cai.
  destruct state as [| | | | |[|x state]]; try (by intros [= <-]; eauto).
  destruct (py_or _ _); try (destruct (existsb _ _); [done|]; by intros [= <-]; eauto).
  intros [= <-]. eauto.
Qed.

Lemma run_audit_transport k v payload j model audit :
  k ∈ ["caiOwnedTransportExecuted"; "caiOwnedTransportExecutionProof"] →
  dget k (dset "participantEligibility" v (run_audit np payload j model audit)) = dget k audit.
Proof.
  intros Hk. unfold run_audit.
  repeat (apply elem_of_cons in Hk as [->|Hk]); [..|by apply elem_of_nil in Hk];
    destruct (jb_execution_attempts j); by rewrite !dget_dset.
Qed.

Lemma price_run_ok t ra payload sj j response snapshot st st' px :
  decision_funds j sj →
  price_run env wallet_policy is_today ip_address ip_network age_seconds mp np t ra payload sj j response
    snapshot st = (st', Ok px) →
  priced ra j snapshot st st' px.
Proof using H.
  intros Hsj. unfold price_run.
  intros (s1 & el & [-> _]%jlift_ok & Hrun)%JM_bind_ok.
  destruct (negb (can_settle el)); [by apply fail_job_not_ok in Hrun|].
  set (audit := dset "participantEligibility" _ _) in Hrun.
  assert (payees (is_participants snapshot) audit = payees (is_participants snapshot) (ra_network_audit ra)) as Hpaid.
  { apply payees_audit. intros k Hk. by apply run_audit_transport. }
  unfold payees at 1 in Hpaid.
  destruct (settlement_participants_for_reward (is_participants snapshot) audit) as [paid audit']. cbn [fst] in Hpaid.
  apply JM_bind_ok in Hrun as (s2 & proof & [-> _]%jlift_ok & Hrun).
  apply JM_bind_ok in Hrun as (s3 & [cost usage_priced] & [-> Hcost]%jlift_ok & Hrun).
  apply JM_bind_ok in Hrun as (s4 & d & Hd & Hrun). apply (final_decision_ok _ _ _ _ _ _ _ Hsj) in Hd as [-> Hq].
  apply JM_bind_ok in Hrun as (s5 & u & Hsync & Hrun). apply on_pay_ok in Hsync as (p & Hsync & ->).
  apply sync_rewards_ok in Hsync as (r & ->). cbn [fst snd] in *.
  set (reward := fq_worker_reward_atomic (fd_fee_quote d)) in *.
  destruct ((0 <? reward) && bool_decide (distribute_worker_reward reward paid = [])) eqn:Hshares;
    [by apply fail_job_not_ok in Hrun|].
  injection Hrun as <- <-. constructor; cbn [px_shares px_decision px_usage px_usage_priced]; try done.
  - by exists r.
  - cbv zeta. rewrite <- Hpaid. split; [done|]. intros Hpos ->.
    by rewrite (proj2 (Z.ltb_lt 0 reward) Hpos), distribute_nobody in Hshares.
  - by exists cost.
Qed.

(** ** What is recorded *)

(** [st'] is [st] with the audit of one settlement replaced. *)
Record settlement_put (s : SettlementRecord) (st st' : PayoutStore) : Prop := {
  sp_rest : st' = with_settlement st (with_settlements (py_settlement st) (s_settlements (py_settlement st')));
  sp_view : ∀ i, resolve_settlement i (s_settlements (py_settlement st'))
                 = if decide (i = sr_settlement_id s) then Some s
                   else resolve_settlement i (s_settlements (py_settlement st));
  sp_ids : map sr_settlement_id (s_settlements (py_settlement st'))
           ≡ₚ map sr_settlement_id (s_settlements (py_settlement st))
}.

Lemma update_settlement_ids i f l :
  (∀ s, sr_settlement_id (f s) = sr_settlement_id s) →
  map sr_settlement_id (update_settlement i f (list_settlements l)) ≡ₚ map sr_settlement_id l.
Proof.
  intros Hf. trans (map sr_settlement_id (list_settlements l)).
  - induction (list_settlements l) as [|s l' IH]; [done|]. cbn. destruct (String.eqb _ _); cbn.
    + by rewrite Hf.
    + by rewrite IH.
  - unfold list_settlements, newest_first. by rewrite (Permutation_map _ (py_sorted_perm _ _)).
Qed.

Lemma save_audit_put s audit st :
  resolve_settlement (sr_settlement_id s) (s_settlements (py_settlement st)) = Some s →
  ∃ st', save_audit s audit st = (st', Ok (with_balance_audit s audit))
       ∧ settlement_put (with_balance_audit s audit) st st'.
Proof.
  intros Hs. eexists. split; [by apply save_audit_stored|]. constructor; [done| |by apply update_settlement_ids]. intros i.
  cbn [py_settlement with_settlement with_settlements s_settlements with_balance_audit sr_settlement_id].
  rewrite resolve_update by done. destruct (String.eqb_spec (sr_settlement_id s) i) as [<-|Hne].
  - rewrite decide_True, Hs by done. done.
  - by rewrite decide_False.
Qed.

Lemma settlement_put_trans s s' st st1 st2 :
  sr_settlement_id s' = sr_settlement_id s → settlement_put s st st1 → settlement_put s' st1 st2 →
  settlement_put s' st st2.
Proof.
  intros Hi [H1 V1 I1] [H2 V2 I2]. constructor.
  - rewrite H2, H1. done.
  - intros i. rewrite V2, V1. case_decide; [done|]. rewrite decide_False; [done|congruence].
  - by rewrite I2.
Qed.

Lemma settlement_put_resolved s st st' :
  settlement_put s st st' → resolve_settlement (sr_settlement_id s) (s_settlements (py_settlement st')) = Some s.
Proof. intros [_ V _]. rewrite V. by rewrite decide_True. Qed.

Lemma execution_audit_put s x st :
  resolve_settlement (sr_settlement_id s) (s_settlements (py_settlement st)) = Some s →
  let s' := with_balance_audit s (dset "execution" (execution_section x) (sr_balance_audit s)) in
  ∃ st', record_settlement_execution_audit (sr_settlement_id s) x st = (st', Ok (Some s'))
       ∧ settlement_put s' st st'.
Proof.
  intros Hs s'. destruct (save_audit_put s (dset "execution" (execution_section x) (sr_balance_audit s)) st Hs)
    as (st' & Hsave & Hput).
  exists st'. split; [|done]. unfold record_settlement_execution_audit. rewrite PayoutProps.PM_bind_eq.
  unfold pget. rewrite Hs, PayoutProps.PM_bind_eq, Hsave. done.
Qed.

Lemma sign_put t s st st' r :
  resolve_settlement (sr_settlement_id s) (s_settlements (py_settlement st)) = Some s →
  sign_settlement_envelope keys_of material t (sr_settlement_id s) mp st = (st', Ok r) →
  ∃ d, settlement_put (with_balance_audit s (dset "signed_envelope" (VDict d) (sr_balance_audit s))) st st'.
Proof using H.
  intros Hs Hrun. unfold sign_settlement_envelope in Hrun. rewrite PayoutProps.PM_bind_eq in Hrun.
  unfold pget at 1 in Hrun. rewrite Hs in Hrun. rewrite PayoutProps.PM_bind_eq in Hrun. unfold pget in Hrun.
  rewrite PayoutProps.PM_bind_eq in Hrun. unfold plift in Hrun.
  destruct (make_envelope _ _ _ _ _ _) as [d|e]; [|done]. exists d.
  destruct (save_audit_put s (dset "signed_envelope" (VDict d) (sr_balance_audit s)) st Hs) as (st1 & Hsave & Hput).
  rewrite PayoutProps.PM_bind_eq, Hsave in Hrun. by injection Hrun as <- _.
Qed.

(** What a recorded run leaves in the files: [s] is the settlement, [records] its payouts. *)
Record run_recorded (tk : nat → Tick) (j : JobIntent) (px : PricedRun) (se : SettledRun)
    (s : SettlementRecord) (records : list WorkerPayoutRecord) (st st' : JobStore) : Prop := {
  rr_jobs : js_jobs st' = js_jobs st;
  rr_receipts : js_receipts st' = list_execution_receipts (js_receipts st) ++ [se_receipt se];
  rr_receipt : xr_receipt_id (se_receipt se) = token (tk 1%nat) ∧ xr_job_id (se_receipt se) = jb_job_id j
    ∧ xr_reserved_compute_cost_atomic (se_receipt se) = jb_requested_compute_cost_atomic j
    ∧ xr_actual_compute_cost_atomic (se_receipt se) = sr_compute_cost_atomic s;
  rr_id : sr_settlement_id s = token (tk 2%nat) ∧ sr_settlement_id (se_settlement se) = token (tk 2%nat);
  rr_stored : resolve_settlement (token (tk 2%nat)) (s_settlements (py_settlement (js_pay st'))) = Some s;
  rr_others : ∀ i, i ≠ token (tk 2%nat) →
    resolve_settlement i (s_settlements (py_settlement (js_pay st')))
    = resolve_settlement i (s_settlements (py_settlement (js_pay st)));
  rr_ids : map sr_settlement_id (s_settlements (py_settlement (js_pay st')))
           ≡ₚ token (tk 2%nat) :: map sr_settlement_id (s_settlements (py_settlement (js_pay st)));
  rr_money : sr_compute_cost_atomic s = fq_compute_cost_atomic (fd_fee_quote (px_decision px))
    ∧ sr_worker_reward_atomic s = fq_worker_reward_atomic (fd_fee_quote (px_decision px));
  rr_pending : is_applied s = false;
  rr_payouts : s_payouts (py_settlement (js_pay st'))
               = list_worker_payouts None (s_payouts (py_settlement (js_pay st))) ++ records;
  rr_named : Forall (λ p, wp_settlement_id p = token (tk 2%nat) ∧ wp_receipt_id p = token (tk 1%nat)) records;
  rr_exact : exact_accounting s records mp;
  rr_audit : audit_section s "execution" = execution_section (receipt_audit (se_receipt se) records);
  rr_untouched : py_wallets (js_pay st') = py_wallets (js_pay st)
    ∧ py_ledger (js_pay st') = py_ledger (js_pay st)
    ∧ s_chain (py_settlement (js_pay st')) = s_chain (py_settlement (js_pay st))
}.

Lemma exact_same_money s s' records :
  sr_compute_cost_atomic s' = sr_compute_cost_atomic s →
  sr_settlement_fee_atomic s' = sr_settlement_fee_atomic s →
  sr_ai_development_fee_atomic s' = sr_ai_development_fee_atomic s →
  sr_worker_reward_atomic s' = sr_worker_reward_atomic s →
  exact_accounting s records mp → exact_accounting s' records mp.
Proof. intros E1 E2 E3 E4 []. constructor; by rewrite ?E1, ?E2, ?E3, ?E4. Qed.

(** The payouts of a run are accepted also when nobody is paid. *)
Lemma run_payouts_recorded tk payout_id bonded w a d note sync receipt_id model c ps st st1 s :
  build_fee_quote c mp None = Ok (fd_fee_quote d) → 0 ≤ c → sane_rates mp →
  NoDup (map pa_node_id ps) → (0 < fq_worker_reward_atomic (fd_fee_quote d) → ps ≠ []) →
  token (tk 2%nat) ∉ map sr_settlement_id (s_settlements (py_settlement st)) →
  (∀ p, p ∈ s_payouts (py_settlement st) → wp_settlement_id p ≠ token (tk 2%nat)) →
  record_funding_settlement lottery_key (tk 2%nat) bonded w a d note mp sync st = (st1, Ok s) →
  let shares := distribute_worker_reward (fq_worker_reward_atomic (fd_fee_quote d)) ps in
  let records := records_of (tk 3%nat) payout_id mp (sr_settlement_id s) receipt_id model
                   (s_rewards (py_settlement st)) shares in
  record_worker_payouts (tk 3%nat) payout_id (sr_settlement_id s) receipt_id model shares mp st1
  = (recorded_store st1 s records (_with_worker_payout_accounting_audit s records mp), Ok records)
  ∧ exact_accounting s records mp
  ∧ (0 < sr_worker_reward_atomic s → map wp_node_id records ≡ₚ map pa_node_id ps).
Proof.
  intros Hq Hc (Hv & Ha & Hsum) Hnd Hps Hfresh Hfreshp Hrun.
  pose proof (funding_settlement_shape _ _ _ _ _ _ _ _ _ _ _ _ Hrun) as (_ & _ & _ & _ & _ & _ & Er).
  destruct ps as [|p0 ps'].
  - assert (fq_worker_reward_atomic (fd_fee_quote d) = 0) as Hz.
    { destruct (fee_quote_total _ _ _ _ Hq Hc Hv Ha Hsum) as (_ & _ & _ & _ & _ & ? & _).
      destruct (Z.eq_dec (fq_worker_reward_atomic (fd_fee_quote d)) 0); [done|]. destruct (Hps ltac:(lia)); done. }
    set (nobody := {| pa_node_id := ""; pa_runner_id := VNone; pa_layer_start := None; pa_layer_end := None;
                      pa_layer_count := None |}).
    destruct (job_payouts_recorded lottery_key (tk 2%nat) (tk 3%nat) payout_id bonded w a d note mp sync c None
      receipt_id model [nobody] st st1 s Hq Hc Hv Ha Hsum) as (Hrec & Hex & _); try done.
    { apply NoDup_singleton. }
    cbv zeta. rewrite Hz. rewrite Er, Hz in Hrec, Hex. split_and!; [exact Hrec|exact Hex|]. rewrite Er, Hz. lia.
  - cbv zeta. rewrite <- Er.
    by apply (job_payouts_recorded lottery_key (tk 2%nat) (tk 3%nat) payout_id bonded w a d note mp sync c None).
Qed.

(** The files after the settlement [s0] is opened and its payouts [records] are stored. *)
Lemma resolve_paid s0 records audit p :
  sr_settlement_id s0 ∉ map sr_settlement_id (s_settlements (py_settlement p)) →
  let opened := with_settlement p
    (let ss := py_settlement p in
     {| s_chain := s_chain ss; s_settlements := list_settlements (s_settlements ss) ++ [s0];
        s_payouts := s_payouts ss; s_attestations := s_attestations ss;
        s_validators := s_validators ss; s_rewards := s_rewards ss |}) in
  ∀ i, resolve_settlement i (s_settlements (py_settlement (recorded_store opened s0 records audit)))
       = if decide (i = sr_settlement_id s0) then Some (with_balance_audit s0 audit)
         else resolve_settlement i (s_settlements (py_settlement p)).
Proof.
  intros Hfresh opened i. cbn [recorded_store py_settlement with_settlement s_settlements opened].
  rewrite resolve_update by done. destruct (String.eqb_spec (sr_settlement_id s0) i) as [<-|Hne].
  - rewrite decide_True by done. rewrite (resolve_fresh (sr_settlement_id s0) s0); [done|done|].
    unfold list_settlements, newest_first. by rewrite (Permutation_map _ (py_sorted_perm _ _)).
  - rewrite decide_False by congruence. apply resolve_added. congruence.
Qed.

(** The audit and the signature change the audit of the settlement alone. *)
Lemma audited_and_signed t s x st1 st2 st3 r1 r2 :
  resolve_settlement (sr_settlement_id s) (s_settlements (py_settlement st1)) = Some s →
  record_settlement_execution_audit (sr_settlement_id s) x st1 = (st2, Ok r1) →
  sign_settlement_envelope keys_of material t (sr_settlement_id s) mp st2 = (st3, Ok r2) →
  ∃ audit, settlement_put (with_balance_audit s audit) st1 st3 ∧ dget "execution" audit = execution_section x.
Proof using H.
  intros Hs Hx Hsign. destruct (execution_audit_put s x st1 Hs) as (st2' & Hx' & Hput).
  rewrite Hx' in Hx. injection Hx as -> _. apply settlement_put_resolved in Hput as Hs2.
  cbn [sr_settlement_id with_balance_audit] in Hs2.
  set (s2 := with_balance_audit s _) in *. change (sr_settlement_id s) with (sr_settlement_id s2) in Hsign.
  destruct (sign_put t s2 st2 st3 r2 Hs2 Hsign) as (d & Hput2).
  exists (dset "signed_envelope" (VDict d) (sr_balance_audit s2)). split.
  - by apply (settlement_put_trans s2 _ st1 st2).
  - unfold s2. cbn [sr_balance_audit with_balance_audit]. by rewrite !dget_dset.
Qed.

Lemma record_run_ok tk payout_id ra url sj j response instance_id px st st' se cost ps :
  build_fee_quote cost mp None = Ok (fd_fee_quote (px_decision px)) → 0 ≤ cost → sane_rates mp →
  px_shares px = distribute_worker_reward (fq_worker_reward_atomic (fd_fee_quote (px_decision px))) ps →
  NoDup (map pa_node_id ps) → (0 < fq_worker_reward_atomic (fd_fee_quote (px_decision px)) → ps ≠ []) →
  token (tk 2%nat) ∉ map sr_settlement_id (s_settlements (py_settlement (js_pay st))) →
  (∀ p, p ∈ s_payouts (py_settlement (js_pay st)) → wp_settlement_id p ≠ token (tk 2%nat)) →
  record_run lottery_key keys_of material mp tk payout_id ra url sj j response instance_id px st = (st', Ok se) →
  ∃ s records, run_recorded tk j px se s records st st'
    ∧ (0 < sr_worker_reward_atomic s → map wp_node_id records ≡ₚ map pa_node_id ps).
Proof using H.
  intros Hq Hc Hrates Hshares Hnd Hps Hfresh Hfreshp Hrun. unfold record_run in Hrun.
  set (receipt := run_receipt _ _ _ _ _ _ _ _ _ _ _) in Hrun.
  apply JM_bind_ok in Hrun as (s1 & l & [= <- <-] & Hrun).
  apply JM_bind_ok in Hrun as (s2 & u & [= <- <-] & Hrun).
  apply JM_bind_ok in Hrun as (s3 & s0 & Hopen & Hrun). apply on_pay_ok in Hopen as (p3 & Hopen & ->).
  cbn [js_pay js_jobs js_receipts with_receipts] in *.
  destruct (run_payouts_recorded tk payout_id _ _ _ _ _ _ (xr_receipt_id receipt) (sj_execution_model_id sj) cost ps
    _ _ _ Hq Hc Hrates Hnd Hps Hfresh Hfreshp Hopen) as (Hrec & Hexact & Hnodes).
  pose proof (funding_settlement_shape _ _ _ _ _ _ _ _ _ _ _ _ Hopen)
    as (Hp3 & Hid & Happ & E1 & E2 & E3 & E4).
  apply JM_bind_ok in Hrun as (s4 & records & Hpay & Hrun). apply on_pay_ok in Hpay as (p4 & Hpay & ->).
  cbn [js_pay js_jobs js_receipts] in *. change (xr_worker_payouts receipt) with (px_shares px) in Hpay.
  rewrite Hshares in Hpay. rewrite Hrec in Hpay. injection Hpay as <- <-.
  apply JM_bind_ok in Hrun as (s5 & x & Haudit & Hrun). apply on_pay_ok in Haudit as (p5 & Haudit & ->).
  apply JM_bind_ok in Hrun as (s6 & y & Hsign & Hrun). apply on_pay_ok in Hsign as (p6 & Hsign & ->).
  injection Hrun as <- <-. cbn [js_pay js_jobs js_receipts] in *.
  set (records := records_of _ _ _ _ _ _ _ _) in *.
  set (audit1 := _with_worker_payout_accounting_audit s0 records mp) in *.
  pose proof (resolve_paid s0 records audit1 (js_pay st) ltac:(by rewrite Hid)) as Hview. cbv zeta in Hview.
  rewrite <- Hp3 in Hview. set (s1 := with_balance_audit s0 audit1) in *.
  destruct (audited_and_signed (tk 4%nat) s1 (receipt_audit receipt records) _ _ _ _ _
    ltac:(by rewrite Hview, decide_True) Haudit Hsign) as (audit & Hput & Hx).
  exists (with_balance_audit s1 audit), records. split; [|exact Hnodes].
  destruct Hput as [Hrest Hput Hids]. subst p3.
  constructor; rewrite <- ?Hid; cbn [js_jobs js_receipts js_pay se_receipt se_settlement]; try done.
  - by rewrite Hput, decide_True.
  - intros i Hi. rewrite Hput, decide_False by done. rewrite Hview. by rewrite decide_False.
  - rewrite Hids. cbn [recorded_store py_settlement with_settlement s_settlements].
    rewrite update_settlement_ids, map_app by done. unfold list_settlements, newest_first.
    rewrite (Permutation_map _ (py_sorted_perm _ _)). by rewrite Permutation_app_comm.
  - by rewrite Hrest.
  - apply Forall_map, Forall_true. intros x'. done.
  - by apply (exact_same_money s0).
  - by rewrite Hrest.
Qed.

(** A settled run leaves one receipt and one settlement with exact payouts. *)
Lemma settle_run_recorded tk payout_id ra payload url sj j response snapshot st st' se :
  decision_funds j sj → prices_nonneg j → sane_rates mp → NoDup (map pa_node_id (is_participants snapshot)) →
  token (tk 2%nat) ∉ map sr_settlement_id (s_settlements (py_settlement (js_pay st))) →
  (∀ p, p ∈ s_payouts (py_settlement (js_pay st)) → wp_settlement_id p ≠ token (tk 2%nat)) →
  settle_run env wallet_policy is_today ip_address ip_network lottery_key keys_of material age_seconds mp np
    tk payout_id ra payload url sj j response snapshot st = (st', Ok se) →
  ∃ px s records, run_recorded tk j px se s records st st'
    ∧ (∃ usage_priced, actual_cost mp j (px_usage px).1.1 = Ok (sr_compute_cost_atomic s, usage_priced))
    ∧ (0 < sr_worker_reward_atomic s →
       map wp_node_id records ≡ₚ map pa_node_id (payees (is_participants snapshot) (ra_network_audit ra))).
Proof using H.
  intros Hsj Hprices Hrates Hnd Hfresh Hfreshp (st1 & px & Hprice & Hrun)%JM_bind_ok.
  apply price_run_ok in Hprice as [Hjobs Hreceipts (r & Hpay) [Hshares Hpaid] (cost & Hcost & Hq)]; [|done].
  destruct (record_run_ok _ _ _ _ _ _ _ _ _ _ _ _ cost _ Hq (actual_cost_nonneg _ _ _ _ Hprices Hcost) Hrates
    Hshares (payees_nodup _ _ Hnd) Hpaid ltac:(by rewrite Hpay) ltac:(by rewrite Hpay) Hrun)
    as (s & records & Hrec & Hnodes).
  exists px, s, records. split_and!; [|..|exact Hnodes].
  - destruct Hrec. constructor; rewrite ?Hjobs, ?Hreceipts, ?Hpay in *; done.
  - exists (px_usage_priced px). destruct (rr_money _ _ _ _ _ _ _ _ Hrec) as [-> _].
    destruct Hrates as (Hv & Ha & Hsum). apply actual_cost_nonneg in Hcost as Hge; [|done].
    by destruct (fee_quote_total _ _ _ _ Hq Hge Hv Ha Hsum) as (-> & _).
Qed.
End settled.
