(* ===== verification/JobRunProps.v ===== *)
(** * A job from start to end

    The whole of [execute_job_intent], and the repair of a job that stopped after it was
    settled. *)
From Stdlib Require Import Ascii QArith.
From S2P Require Import Prelude.
From S2P Require Import PyStr.
From S2P Require Import PyVal.
From S2P Require Import PyOrder.
From S2P Require Import Money.
From S2P Require Import Signing.
From S2P Require Import ChainTx.
From S2P Require Import Ledger.
From S2P Require Import ChainStore.
From S2P Require Import ChainOps.
From S2P Require Import Apportion.
From S2P Require Import SettlementData.
From S2P Require Import Funding.
From S2P Require Import Validators.
From S2P Require Import Settlement.
From S2P Require Import PeerFacts.
From S2P Require Import ChainSync.
From S2P Require Import FundingProps.
From S2P Require Import FinalityProps.
From S2P Require Import Payouts.
From S2P Require Import PayoutProps.
From S2P Require Import Envelope.
From S2P Require Import EnvelopeProps.
From S2P Require Import Pricing.
From S2P Require Import Eligibility.
From S2P Require Import Jobs.
From S2P Require Import JobExecution.
From S2P Require Import JobProps.
Local Open Scope Z_scope.
Set Default Proof Using "Type".

(** ** What the votes and the tail of a job keep *)

(** A settlement with other votes, another status and another application: money, parties and
    committee stay, and so does every section of its audit that an application does not write. *)
Definition same_deal (s s' : SettlementRecord) : Prop :=
  (∃ a r ab rb status applied_at applied_by ai audit,
     s' = with_application (with_votes s a r ab rb status) status applied_at applied_by ai audit)
  ∧ ∀ k, k ∉ application_sections → dget k (sr_balance_audit s') = dget k (sr_balance_audit s).

#[export] Instance same_deal_frame : SettlementFrame same_deal.
Proof.
  constructor; [split| |].
  - intros s. split; [|done].
    exists (sr_accepted_attestations s), (sr_rejected_attestations s), (sr_accepted_bond_atomic s),
      (sr_rejected_bond_atomic s), (sr_status s), (sr_applied_at s), (sr_applied_by_validator_id s),
      (sr_ai_development_credited_wallet_id s), (sr_balance_audit s). by destruct s.
  - intros s s1 s2 [(? & ? & ? & ? & ? & ? & ? & ? & ? & ->) H1] [(? & ? & ? & ? & ? & ? & ? & ? & ? & ->) H2].
    split; [by repeat eexists|]. intros k Hk. by rewrite H2, H1.
  - intros s a r ab rb status. split; [|done].
    by exists a, r, ab, rb, status, (sr_applied_at s), (sr_applied_by_validator_id s),
      (sr_ai_development_credited_wallet_id s), (sr_balance_audit s).
  - intros now s s' [(by_ & ai & ->) _ Hk]. split; [|done].
    by exists (sr_accepted_attestations s), (sr_rejected_attestations s), (sr_accepted_bond_atomic s),
      (sr_rejected_bond_atomic s), (sr_status s'), (sr_applied_at s'), by_, ai, (sr_balance_audit s').
Qed.

(** The exactness of the money reads nothing that votes and applications write. *)
Lemma same_deal_exact mp s s' payouts : same_deal s s' → exact_accounting s payouts mp → exact_accounting s' payouts mp.
Proof. intros [(? & ? & ? & ? & ? & ? & ? & ? & ? & ->) _] [H1 H2 H3 H4 H5]. by constructor. Qed.

(** A payout without what crediting it writes. *)
Definition bare (p : WorkerPayoutRecord) : WorkerPayoutRecord := with_credit p None None "".

Lemma bare_credit p a w status : bare (with_credit p a w status) = bare p.
Proof. done. Qed.

(** The settlements have the ids [ids], the payouts are [bares] but for their credit. *)
Section filed.
Context (ids : list string) (bares : list WorkerPayoutRecord).

Definition filed_settlements (ss : SettlementStore) : Prop :=
  map sr_settlement_id (s_settlements ss) ≡ₚ ids ∧ map bare (s_payouts ss) ≡ₚ bares.

Definition filed (st : PayoutStore) : Prop := filed_settlements (py_settlement st).

(** A call that keeps the files so. *)
Definition sstays {A} (m : SM A) : Prop := ∀ ss, filed_settlements ss → filed_settlements (m ss).1.
Definition stays {A} (m : PM A) : Prop := ∀ st, filed st → filed (m st).1.

Lemma stays_get {A} (f : PayoutStore → A) : stays (pget f).
Proof. by intros st Hst. Qed.

Lemma stays_lift {A} (r : result A) : stays (plift r).
Proof. by intros st Hst. Qed.

Lemma stays_ret {A} (a : A) : stays (mret a).
Proof. by intros st Hst. Qed.

Lemma sstays_get {A} (f : SettlementStore → A) : sstays (sget f).
Proof. by intros st Hst. Qed.

Lemma sstays_ret {A} (a : A) : sstays (mret a).
Proof. by intros st Hst. Qed.

Lemma stays_bind {A B} (m : PM A) (f : A → PM B) :
  stays m → (∀ st st' a, filed st → m st = (st', Ok a) → stays (f a)) → stays (m ≫= f).
Proof.
  intros Hm Hf st Hst. rewrite PayoutProps.PM_bind_eq. specialize (Hm st Hst). destruct (m st) as [st1 [a|e]] eqn:E; [|done].
  by eapply Hf.
Qed.

Lemma sstays_bind {A B} (m : SM A) (f : A → SM B) :
  sstays m → (∀ ss ss' a, filed_settlements ss → m ss = (ss', Ok a) → sstays (f a)) → sstays (m ≫= f).
Proof.
  intros Hm Hf ss Hss. unfold mbind, SM_bind. specialize (Hm ss Hss). destruct (m ss) as [ss1 [a|e]] eqn:E; [|done].
  by eapply Hf.
Qed.

Lemma stays_on_settlements {A} (m : SM A) : sstays m → stays (on_settlements m).
Proof. intros Hm st Hst. unfold on_settlements. specialize (Hm _ Hst). by destruct (m _). Qed.

Lemma sstays_on_chain {A} (m : M A) : sstays (on_chain m).
Proof. intros ss Hss. unfold on_chain. by destruct (m _). Qed.

Lemma stays_on_chain {A} (m : M A) : stays (on_chain_p m).
Proof. apply stays_on_settlements, sstays_on_chain. Qed.

Lemma sstays_settlements l : map sr_settlement_id l ≡ₚ ids → sstays (save_settlements l).
Proof. intros Hl ss [_ Hb]. by split. Qed.

Lemma sstays_payouts l : map bare l ≡ₚ bares → sstays (save_worker_payouts l).
Proof. intros Hl ss [Hi _]. by split. Qed.

Lemma filed_ids ss : filed_settlements ss → map sr_settlement_id (list_settlements (s_settlements ss)) ≡ₚ ids.
Proof. intros [Hi _]. unfold list_settlements, newest_first. by rewrite (Permutation_map _ (py_sorted_perm _ _)). Qed.

Lemma listed_bares ss : filed_settlements ss → map bare (list_worker_payouts None (s_payouts ss)) ≡ₚ bares.
Proof. intros [_ Hb]. unfold list_worker_payouts, newest_first. by rewrite (Permutation_map _ (py_sorted_perm _ _)). Qed.

Lemma updated_ids i f l :
  (∀ x, sr_settlement_id x = i → sr_settlement_id (f x) = i) → map sr_settlement_id (update_settlement i f l) = map sr_settlement_id l.
Proof.
  intros Hf. induction l as [|x l IH]; [done|]. cbn. destruct (String.eqb_spec (sr_settlement_id x) i) as [E|_]; cbn.
  - by rewrite (Hf x E), E.
  - by rewrite IH.
Qed.

Lemma stays_save_item l item : map sr_settlement_id l ≡ₚ ids → stays (save_item l item).
Proof. intros Hl. apply stays_on_settlements, sstays_settlements. rewrite updated_ids; [exact Hl|done]. Qed.

Lemma sstays_refresh i : sstays (refresh_settlement_finality i).
Proof.
  apply sstays_bind; [apply sstays_get|]. intros ss ss' l Hss [= <- <-].
  apply sstays_bind; [apply sstays_get|]. intros _ _ attestations _ _. cbv beta zeta.
  destruct (List.find _ _); [|apply sstays_ret]. apply sstays_bind; [|intros; apply sstays_ret]. apply sstays_settlements.
  rewrite updated_ids by done. by apply filed_ids.
Qed.

Lemma sstays_attestation aid now i v accepted note : sstays (record_attestation aid now i v accepted note).
Proof.
  apply sstays_bind; [apply sstays_get|]. intros _ _ s _ _. cbv beta zeta. destruct (_ && _); [by intros st Hst|].
  apply sstays_bind; [apply sstays_get|]. intros _ _ file _ _. cbv beta zeta. destruct (filter _ _) as [|item l].
  - apply sstays_bind; [by intros st Hst|]. intros _ _ _ _ _. cbv beta zeta.
    apply sstays_bind; [apply sstays_refresh|intros; apply sstays_ret].
  - destruct (Bool.eqb _ _); [|by intros st Hst]. apply sstays_bind; [apply sstays_refresh|intros; apply sstays_ret].
Qed.

Lemma stays_credit t ty amount note w : stays (credit_local t ty amount note w).
Proof.
  apply stays_bind; [|by intros _ _ _ _ _ st Hst]. apply stays_bind; [apply stays_get|]. intros _ _ wallets _ _. cbv beta zeta.
  destruct (put_wallet _ _); by intros st Hst.
Qed.

(** Crediting a list of payouts writes no file and keeps what they are. *)
Lemma credit_record t b item :
  stays (_apply_finalized_worker_payout_record t b item)
  ∧ ∀ st st' item', _apply_finalized_worker_payout_record t b item st = (st', Ok item') → bare item' = bare item.
Proof.
  unfold _apply_finalized_worker_payout_record. destruct (wp_recipient_address item) as [address|].
  2: { split; [apply stays_ret|]. by intros st st' item' [= <- <-]. }
  split.
  - apply stays_bind; [apply stays_get|]. intros _ _ wallets _ _. cbv beta zeta. destruct (find_wallet_by_address _ _); [|apply stays_ret].
    apply stays_bind; [|intros; apply stays_ret]. case_bool_decide; [apply stays_ret|apply stays_credit].
  - intros st st' item'. rewrite PayoutProps.PM_bind_eq. unfold pget. destruct (find_wallet_by_address _ _).
    + rewrite PayoutProps.PM_bind_eq. match goal with |- context [match ?m st with _ => _ end] => destruct (m st) as [st1 [u|e]] end; by intros [= <- <-].
    + by intros [= <- <-].
Qed.

Lemma apply_payouts_credit t rewards i l :
  stays (apply_payouts t rewards i l)
  ∧ ∀ st st' r, apply_payouts t rewards i l st = (st', Ok r) → map bare r.1 = map bare l.
Proof.
  induction l as [|item l [IHs IHb]]; cbn [apply_payouts].
  { split; [apply stays_ret|]. by intros st st' r [= <- <-]. }
  destruct (_ || _).
  - split; [apply stays_bind; [exact IHs|intros; apply stays_ret]|]. intros st st' r. rewrite PayoutProps.PM_bind_eq.
    destruct (apply_payouts t rewards i l st) as [st1 [rest|e]] eqn:E; [|done]. intros [= <- <-]. cbn. by rewrite (IHb _ _ _ E).
  - match goal with |- context [_apply_finalized_worker_payout_record t false ?p] =>
      destruct (credit_record t false p) as [Hs Hb] end. split.
    + apply stays_bind; [exact Hs|]. intros _ _ item' _ _. apply stays_bind; [exact IHs|intros; apply stays_ret].
    + intros st st' r. rewrite PayoutProps.PM_bind_eq.
      destruct (_apply_finalized_worker_payout_record _ _ _ st) as [st1 [item'|e]] eqn:E1; [|done].
      rewrite PayoutProps.PM_bind_eq.
      destruct (apply_payouts t rewards i l st1) as [st2 [rest|e]] eqn:E2; [|done]. intros [= <- <-]. cbn.
      by rewrite (IHb _ _ _ E2), (Hb _ _ _ E1).
Qed.

Lemma reconcile_payouts_credit t rewards ss l :
  stays (reconcile_payouts t rewards ss l)
  ∧ ∀ st st' r, reconcile_payouts t rewards ss l st = (st', Ok r) → map bare r.1 = map bare l.
Proof.
  induction l as [|item l [IHs IHb]]; cbn [reconcile_payouts].
  { split; [apply stays_ret|]. by intros st st' r [= <- <-]. }
  assert (stays (rest ← reconcile_payouts t rewards ss l; mret (item :: rest.1, rest.2))
    ∧ ∀ st st' r, (rest ← reconcile_payouts t rewards ss l; mret (item :: rest.1, rest.2)) st = (st', Ok r) →
        map bare r.1 = map bare (item :: l)) as Hskip.
  { split; [apply stays_bind; [exact IHs|intros; apply stays_ret]|]. intros st st' r. rewrite PayoutProps.PM_bind_eq.
    destruct (reconcile_payouts t rewards ss l st) as [st1 [rest|e]] eqn:E; [|done]. intros [= <- <-]. cbn. by rewrite (IHb _ _ _ E). }
  destruct (reward_address rewards item) as [address|]; [destruct (is_credited item)|]; [exact Hskip| |exact Hskip].
  match goal with |- stays (?m ≫= _) ∧ _ => set (credit := m) end.
  assert (stays credit ∧ ∀ st st' item', credit st = (st', Ok item') → bare item' = bare item) as [Hs Hb].
  { subst credit. destruct (settlement_by_id _ _) as [s|]; [destruct (is_applied s); [exact (credit_record t true _)|]|];
      (split; [apply stays_ret|by intros st st' item' [= <- <-]]). }
  split.
  - apply stays_bind; [exact Hs|]. intros _ _ item' _ _. apply stays_bind; [exact IHs|intros; apply stays_ret].
  - intros st st' r. rewrite PayoutProps.PM_bind_eq. destruct (credit st) as [st1 [item'|e]] eqn:E1; [|done].
    rewrite PayoutProps.PM_bind_eq.
    destruct (reconcile_payouts t rewards ss l st1) as [st2 [rest|e]] eqn:E2; [|done]. intros [= <- <-]. cbn.
    by rewrite (IHb _ _ _ E2), (Hb _ _ _ E1).
Qed.

(** Crediting all listed payouts and saving them. *)
Lemma stays_credit_all (m : list WorkerPayoutRecord → PM (list WorkerPayoutRecord * list WorkerPayoutRecord)) l :
  map bare l ≡ₚ bares → stays (m l) → (∀ st st' r, m l st = (st', Ok r) → map bare r.1 = map bare l) →
  stays (rest ← m l; _ ← (match rest.2 with [] => mret tt | _ => on_settlements (save_worker_payouts rest.1) end); mret rest.2).
Proof.
  intros Hl Hs Hb. apply stays_bind; [exact Hs|]. intros st st' rest _ E.
  apply stays_bind; [|intros; apply stays_ret]. destruct rest.2; [apply stays_ret|].
  apply stays_on_settlements, sstays_payouts. by rewrite (Hb _ _ _ E).
Qed.

Lemma stays_worker_payouts t s : stays (_apply_finalized_worker_payouts t s).
Proof.
  apply stays_bind; [apply stays_get|]. intros st st' l Hst [= <- <-]. apply stays_bind; [apply stays_get|]. intros _ _ rewards _ _. cbv beta zeta.
  destruct (apply_payouts_credit t rewards (sr_settlement_id s) (list_worker_payouts None (s_payouts (py_settlement st)))).
  by apply (stays_credit_all (apply_payouts t rewards (sr_settlement_id s))); [apply listed_bares|..].
Qed.

Lemma stays_reconcile t : stays (reconcile_worker_payouts t).
Proof.
  apply stays_bind; [apply stays_get|]. intros st st' l Hst [= <- <-]. apply stays_bind; [apply stays_get|]. intros _ _ ss _ _. cbv beta zeta.
  apply stays_bind; [apply stays_get|]. intros _ _ rewards _ _. cbv beta zeta.
  destruct (reconcile_payouts_credit t rewards ss (list_worker_payouts None (s_payouts (py_settlement st)))).
  by apply (stays_credit_all (reconcile_payouts t rewards ss)); [apply listed_bares|..].
Qed.

Section application.
Context `{SignatureBackend} (env : Environ) (policy : option WalletPolicy).

Lemma bare_set_recipient i address l : map bare (set_recipient i address l) = map bare l.
Proof. induction l as [|p l IH]; [done|]. cbn. destruct (String.eqb _ _); cbn; [done|by rewrite IH]. Qed.

Lemma bare_update_recipients rewards ps : ∀ acc, map bare (foldl (update_recipient rewards) acc ps).1 = map bare acc.1.
Proof.
  induction ps as [|p ps IH]; intros acc; [done|]. cbn [foldl]. rewrite IH. unfold update_recipient.
  destruct (_ || _); [done|]. apply bare_set_recipient.
Qed.

Lemma sstays_chain_entries t mp s : sstays (record_chain_entries_for_settlement env policy t mp s).
Proof.
  unfold record_chain_entries_for_settlement. destruct (negb _); [apply sstays_ret|].
  do 2 (apply sstays_bind; [apply sstays_on_chain|]; intros _ _ ? _ _).
  do 3 (apply sstays_bind; [apply sstays_get|]; intros _ _ ? _ _).
  apply sstays_bind; [apply sstays_get|]. intros ss ss' all Hss [= <- <-].
  pose proof (bare_update_recipients a2 a3 (list_worker_payouts None (s_payouts ss), false)) as Hbare.
  destruct (foldl _ _ _) as [updated changed]. cbn [fst] in Hbare. apply sstays_bind.
  { destruct changed; [|apply sstays_ret]. apply sstays_payouts. rewrite Hbare. by apply listed_bares. }
  intros _ _ _ _ _. cbv beta zeta. apply sstays_bind.
  { destruct (pending_transactions _ _); [apply sstays_ret|].
    apply sstays_bind; [apply sstays_on_chain|intros; apply sstays_ret]. }
  intros _ _ _ _ _. cbv beta zeta. apply sstays_bind; [|intros; apply sstays_ret]. apply sstays_bind; [apply sstays_on_chain|].
  intros _ _ [|e l] _ _; [apply sstays_ret|]. apply sstays_bind; [apply sstays_get|]. intros ss1 ss1' l1 Hss1 [= <- <-].
  destruct (List.find _ _); [|apply sstays_ret]. apply sstays_settlements. rewrite updated_ids by done. by apply filed_ids.
Qed.

Lemma stays_debit t mp s : stays (debit_source env policy t mp s).
Proof.
  unfold debit_source. destruct (_ <=? 0); [apply stays_ret|]. apply stays_bind; [apply stays_get|]. intros _ _ wallets _ _. cbv beta zeta.
  apply stays_bind; [apply stays_on_chain|]. intros _ _ _ _ _. cbv beta zeta. destruct (some_or _ _).
  - apply stays_bind; [apply stays_on_chain|]. intros _ _ [|] _ _; [|apply stays_ret].
    apply stays_bind; [apply stays_on_chain|]. intros _ _ before _ _. cbv beta zeta. destruct (before <? _); [apply stays_lift|].
    apply stays_bind; [|intros _ _ _ _ _ st Hst; by apply Hst].
    apply stays_bind; [apply stays_get|]. intros _ _ l _ _. cbv beta zeta. destruct (put_wallet _ _); by intros st Hst.
  - apply stays_bind; [apply stays_on_chain|]. intros _ _ before _ _. cbv beta zeta. destruct (before <? _); [apply stays_lift|apply stays_ret].
Qed.

Lemma stays_funding t mp v l s : map sr_settlement_id l ≡ₚ ids → stays (apply_funding env policy t mp v l s).
Proof.
  intros Hl. unfold apply_funding. destruct (filled _).
  { destruct (String.eqb _ _); [apply stays_ret|]. apply stays_bind; [by apply stays_save_item|intros; apply stays_ret]. }
  apply stays_bind; [apply stays_get|]. intros _ _ stored _ _. cbv beta zeta. apply stays_bind; [apply stays_on_chain|]. intros _ _ ledger _ _. cbv beta zeta.
  destruct (_ <? _); [apply stays_lift|]. apply stays_bind; [apply stays_debit|]. intros _ _ wallet _ _. cbv beta zeta.
  apply stays_bind; [by intros st Hst|]. intros _ _ _ _ _. cbv beta zeta. apply stays_bind; [apply stays_lift|]. intros _ _ audit _ _. cbv beta zeta.
  apply stays_bind; [by apply stays_save_item|intros; apply stays_ret].
Qed.

Lemma stays_ai_fee t s : stays (_apply_finalized_ai_development_fee t s).
Proof.
  unfold _apply_finalized_ai_development_fee. destruct (_ || _); [apply stays_ret|].
  apply stays_bind; [apply stays_get|]. intros _ _ wallets _ _. cbv beta zeta. destruct (some_or _ _); [|apply stays_ret].
  apply stays_bind; [apply stays_credit|intros; apply stays_ret].
Qed.

Lemma stays_apply t mp i v : stays (apply_finalized_settlement env policy t mp i v).
Proof.
  apply stays_bind; [apply stays_get|]. intros st st' l Hst [= <- <-]. destruct (List.find _ _) as [s|]; [|apply stays_ret].
  destruct (negb _); [apply stays_ret|]. apply stays_bind; [by apply stays_funding, filed_ids|]. intros _ _ s1 _ _. cbv beta zeta.
  apply stays_bind; [apply stays_ai_fee|]. intros _ _ [s2 credited] _ _. cbv beta zeta. apply stays_bind.
  { destruct credited; [by apply stays_save_item, filed_ids|apply stays_ret]. }
  intros _ _ _ _ _. cbv beta zeta. apply stays_bind; [apply stays_worker_payouts|]. intros _ _ _ _ _. cbv beta zeta.
  apply stays_bind; [apply stays_on_settlements, sstays_chain_entries|intros; apply stays_ret].
Qed.

Lemma stays_vote t i v accepted note ap : stays (record_validator_attestation env policy t i v accepted note ap).
Proof.
  apply stays_bind; [apply stays_on_settlements, sstays_attestation|]. intros _ _ [a x] _ _. cbv beta zeta.
  destruct (_ && _); [|apply stays_ret]. apply stays_bind; [apply stays_apply|intros; apply stays_ret].
Qed.

Lemma stays_remote_vote t i note member payload : stays (record_remote_attestation env policy t i note member payload).
Proof.
  intros st Hst. unfold record_remote_attestation. destruct (negb _); [done|].
  pose proof (stays_vote t i (lower (strip (py_str (py_or (dget "validatorId" payload) (VStr member)))))
    (truthy (dget "accepted" payload))
    (Some (py_str (py_or (dget "note" payload)
       (VStr (if truthy (dget "accepted" payload) then note else "Remote validator rejected settlement."))))) false st Hst) as Hv.
  destruct (record_validator_attestation _ _ _ _ _ _ _ _ _) as [st1 [a|e]]; [|by destruct e].
  destruct (dget "chain" payload); try done. by apply stays_on_chain.
Qed.

Lemma stays_votes tk i note local answers : stays (request_remote_committee_attestations env policy tk i note local answers).
Proof.
  apply stays_bind; [apply stays_get|]. intros _ _ s _ _. cbv beta zeta. destruct s as [s|]; [|apply stays_lift].
  induction (sr_committee_validator_ids s) as [|v members IH]; cbn [request_attestations]; [apply stays_ret|].
  apply stays_bind; [apply stays_get|]. intros _ _ record _ _. cbv beta zeta. apply stays_bind.
  { case_bool_decide; [apply stays_ret|]. destruct record; [|apply stays_ret]. destruct (answers _); [|apply stays_ret].
    apply stays_remote_vote. }
  intros _ _ recorded _ _. cbv beta zeta. apply stays_bind; [exact IH|intros; apply stays_ret].
Qed.

Lemma sstays_finalized_entries t mp b : sstays (record_chain_entries_for_finalized_settlements env policy t mp b).
Proof.
  apply sstays_bind; [apply sstays_get|]. intros _ _ l _ _. induction l as [|s l IH]; [apply sstays_ret|].
  destruct (negb _); [exact IH|]. apply sstays_bind.
  { destruct b; [|apply sstays_ret]. apply sstays_bind; [apply sstays_on_chain|intros; apply sstays_ret]. }
  intros _ _ skip _ _. cbv beta zeta. apply sstays_bind; [destruct skip; [apply sstays_ret|apply sstays_chain_entries]|].
  intros _ _ n _ _. apply sstays_bind; [exact IH|intros; apply sstays_ret].
Qed.

Lemma stays_sync t mp i : stays (_apply_settlement_after_canonical_chain_sync env policy mp t i).
Proof.
  apply stays_bind; [apply stays_get|]. intros _ _ [s|] _ _; [|apply stays_ret].
  apply stays_bind; [apply stays_on_chain|]. intros _ _ history _ _. apply stays_bind.
  { destruct (_ && _); [|apply stays_ret]. apply stays_bind; [apply stays_apply|]. intros _ _ _ _ _.
    apply stays_bind; [apply stays_get|intros; apply stays_ret]. }
  intros _ _ current _ _. destruct (String.eqb _ _); [|apply stays_ret].
  apply stays_bind; [apply stays_reconcile|]. intros _ _ _ _ _.
  apply stays_bind; [apply stays_on_settlements, sstays_finalized_entries|intros; apply stays_ret].
Qed.
End application.
End filed.

(** ** Finding records *)

Lemma find_some_only {A} (f : A → bool) (P : A → Prop) (l : list A) (x : A) :
  x ∈ l → f x = true → (∀ y, y ∈ l → f y = true → P y) → ∃ y, List.find f l = Some y ∧ P y.
Proof.
  intros Hx Hf HP. destruct (List.find f l) as [y|] eqn:E.
  - exists y. split; [done|]. apply List.find_some in E as [Hy Hfy]. apply HP; [by apply list_elem_of_In|done].
  - apply list_elem_of_In in Hx. apply (List.find_none _ _ E) in Hx. congruence.
Qed.

Lemma same_key {A B} (f : A → B) l x y : NoDup (map f l) → x ∈ l → y ∈ l → f x = f y → x = y.
Proof.
  induction l as [|z l IH]; [by intros _ ?%elem_of_nil|]. intros [Hz Hnd]%NoDup_cons Hx Hy E.
  apply elem_of_cons in Hx as [->|Hx], Hy as [->|Hy]; [done|..|by apply IH].
  - destruct Hz. rewrite E. by apply list_elem_of_fmap_2.
  - destruct Hz. rewrite <- E. by apply list_elem_of_fmap_2.
Qed.

Lemma resolve_member l x :
  NoDup (map sr_settlement_id l) → x ∈ l → resolve_settlement (sr_settlement_id x) l = Some x.
Proof.
  intros Hnd Hx. destruct (find_some_only (λ s, String.eqb (sr_settlement_id s) (sr_settlement_id x)) (λ y, y = x)
    (list_settlements l) x) as (y & Hy & ->).
  - by apply elem_of_py_sorted.
  - apply String.eqb_refl.
  - intros y Hy Hid%String.eqb_eq. apply elem_of_py_sorted in Hy. by eapply (same_key sr_settlement_id).
  - exact Hy.
Qed.

(** ** The tail *)

Section tail.
Context `{SignatureBackend} (env : Environ) (policy : option WalletPolicy).
Context (R : SettlementRecord → SettlementRecord → Prop) {HR : SettlementFrame R}.

Lemma on_settlements_bind {A B} (m : SM A) (f : A → SM B) st :
  on_settlements (m ≫= f) st = (on_settlements m ≫= λ a, on_settlements (f a)) st.
Proof. unfold on_settlements, mbind, SM_bind, PM_bind. by destruct (m _) as [ss [a|e]]. Qed.

(** The settlements a list names are the stored ones. *)
Definition stored_list (st : PayoutStore) : list SettlementRecord → Prop := Forall (λ s, working (sr_settlement_id s) st s).

(** Recording the entries of one settlement of a list changes that settlement only. *)
Lemma entries_step t mp s l st st' r :
  NoDup (map sr_settlement_id (s :: l)) → stored_list st (s :: l) →
  on_settlements (record_chain_entries_for_settlement env policy t mp s) st = (st', r) →
  kept_by R st st' ∧ stored_list st' l.
Proof using HR.
  intros [Hs _]%NoDup_cons [Hw Hl]%Forall_cons Hrun. apply (chain_entries_stored env policy t mp (sr_settlement_id s) s st) in Hrun as [Hsa _]; [|done].
  split; [by eapply application_kept_by|]. apply Forall_forall. intros x Hx. rewrite Forall_forall in Hl. specialize (Hl x Hx). unfold working in *.
  rewrite (sa_others _ _ _ _ Hsa); [done|]. intros E. apply Hs. rewrite <- E. by apply list_elem_of_fmap_2.
Qed.

Lemma entries_kept_by t mp b st :
  NoDup (map sr_settlement_id (s_settlements (py_settlement st))) →
  kept_by R st (on_settlements (record_chain_entries_for_finalized_settlements env policy t mp b) st).1.
Proof using HR.
  intros Hids. unfold record_chain_entries_for_finalized_settlements. rewrite on_settlements_bind, PayoutProps.PM_bind_eq.
  assert (on_settlements (sget (λ st, list_settlements (s_settlements st))) st
          = (st, Ok (list_settlements (s_settlements (py_settlement st))))) as -> by (by destruct st).
  match goal with |- kept_by R st (on_settlements (?g _) st).1 => set (go := g) end.
  assert (∀ l st, NoDup (map sr_settlement_id l) → stored_list st l → kept_by R st (on_settlements (go l) st).1) as Hgo.
  { clear st Hids. induction l as [|s l IH]; intros st Hnd Hl; [by destruct st|].
    pose proof Hnd as [_ Hnd']%NoDup_cons. pose proof Hl as [_ Hl']%Forall_cons. cbn [go].
    destruct (negb _); [by apply IH|]. rewrite on_settlements_bind, PayoutProps.PM_bind_eq.
    match goal with |- context [match on_settlements ?m st with _ => _ end] =>
      assert (kept st (on_settlements m st).1) as Hk by
        (destruct b; [rewrite on_settlements_bind; apply pkeeps_bind; [apply pkeeps_on_chain|done]|by destruct st]);
      destruct (on_settlements m st) as [st1 [skip|e]] end; [|by apply kept_kept_by].
    cbn [fst] in Hk. transitivity st1; [by apply kept_kept_by|].
    assert (stored_list st1 (s :: l)) as Hl1.
    { eapply Forall_impl; [exact Hl|]. intros x Hx. by eapply kept_working. }
    pose proof Hl1 as [_ Hl1']%Forall_cons. rewrite on_settlements_bind, PayoutProps.PM_bind_eq.
    assert (∀ st2 n, kept_by R st1 st2 → stored_list st2 l →
      kept_by R st1 (on_settlements (rest ← go l; mret (n + rest)) st2).1) as Hrest.
    { intros st2 n Hk2 Hl2. transitivity st2; [done|]. rewrite on_settlements_bind, PayoutProps.PM_bind_eq.
      pose proof (IH st2 Hnd' Hl2) as Hlast. destruct (on_settlements (go l) st2) as [st3 [x|e]]; [|done].
      by destruct st3. }
    destruct skip.
    - assert (on_settlements (mret 0) st1 = (st1, Ok 0)) as -> by (by destruct st1). by apply Hrest.
    - destruct (on_settlements (record_chain_entries_for_settlement _ _ _ _ _) st1) as [st2 r2] eqn:E.
      destruct (entries_step _ _ _ _ _ _ _ Hnd Hl1 E) as [Hk2 Hl2]. destruct r2 as [n|e]; [|done].
      by apply Hrest. }
  apply Hgo.
  - unfold list_settlements, newest_first. by rewrite (Permutation_map _ (py_sorted_perm _ _)).
  - apply Forall_forall. intros s Hs. apply resolve_member; [done|]. by apply elem_of_py_sorted in Hs.
Qed.

Lemma kept_by_bind {A B} (m : PM A) (f : A → PM B) st :
  kept_by R st (m st).1 → (∀ st1 a, m st = (st1, Ok a) → kept_by R st1 (f a st1).1) → kept_by R st ((m ≫= f) st).1.
Proof using HR.
  intros Hm Hf. rewrite PayoutProps.PM_bind_eq. destruct (m st) as [st1 [a|e]]; [|done].
  transitivity st1; [done|by apply Hf].
Qed.

Lemma quiet_kept_by {A} (m : PM A) st : pkeeps m → kept_by R st (m st).1.
Proof using HR. intros Hm. by apply kept_kept_by. Qed.

Lemma remote_vote_kept_by t i note member payload st :
  kept_by R st (record_remote_attestation env policy t i note member payload st).1.
Proof using HR.
  unfold record_remote_attestation. destruct (negb _); [reflexivity|].
  match goal with |- context [record_validator_attestation env policy t i ?v ?b ?n false st] =>
    pose proof (vote_kept_by env policy R t i v b n false st) as Hv end.
  destruct (record_validator_attestation _ _ _ _ _ _ _ _ _) as [st1 [a|e]]; [|by destruct e].
  destruct (dget "chain" payload); try exact Hv. transitivity st1; [exact Hv|].
  apply (quiet_kept_by (on_chain_p _)), pkeeps_on_chain.
Qed.

Lemma votes_kept_by tk i note local answers st :
  kept_by R st (request_remote_committee_attestations env policy tk i note local answers st).1.
Proof using HR.
  apply kept_by_bind; [by apply quiet_kept_by|]. intros st1 s [= <- _]. destruct s as [s|]; [|reflexivity].
  revert st. induction (sr_committee_validator_ids s) as [|v members IH]; intros st; cbn [request_attestations]; [reflexivity|].
  apply kept_by_bind; [by apply quiet_kept_by|]. intros st1 record [= <- _]. apply kept_by_bind.
  { case_bool_decide; [reflexivity|]. destruct record; [|reflexivity]. destruct (answers _); [|reflexivity].
    apply remote_vote_kept_by. }
  intros st1 recorded _. apply kept_by_bind; [apply IH|]. intros; reflexivity.
Qed.

Lemma sync_kept_by t mp i st :
  NoDup (map sr_settlement_id (s_settlements (py_settlement st))) →
  kept_by R st (_apply_settlement_after_canonical_chain_sync env policy mp t i st).1.
Proof using HR.
  intros Hids. set (ids := map sr_settlement_id (s_settlements (py_settlement st))) in *.
  set (bares := map bare (s_payouts (py_settlement st))).
  assert (filed ids bares st) as Hst by by split.
  apply kept_by_bind; [by apply quiet_kept_by|]. intros st1 s [= <- _]. destruct s as [s|]; [|reflexivity].
  pose proof (stays_on_chain ids bares (chain_settlement_history env policy t i (Some 1) true) st Hst) as Hst1.
  apply kept_by_bind; [apply quiet_kept_by, pkeeps_on_chain|]. intros st1 history E. rewrite E in Hst1. clear E Hst.
  set (apply_it := if _ && _ then _ else _).
  assert (kept_by R st1 (apply_it st1).1 ∧ filed ids bares (apply_it st1).1) as [Hk2 Hst2].
  { subst apply_it. destruct (_ && _); [|by split]. split.
    - apply kept_by_bind; [by apply apply_kept_by|]. intros st2 a _. by apply kept_by_bind; [by apply quiet_kept_by|].
    - apply stays_bind; [apply stays_apply|..|done]. intros _ _ _ _ _.
      apply stays_bind; [apply stays_get|intros; apply stays_ret]. }
  clearbody apply_it. apply kept_by_bind; [exact Hk2|]. intros st2 current E. rewrite E in Hst2. clear E.
  match goal with |- context [if ?b then _ else _] => destruct b end; [|reflexivity].
  pose proof (stays_reconcile ids bares t st2 Hst2) as Hst3.
  apply kept_by_bind; [apply quiet_kept_by, pkeeps_reconcile_worker_payouts|]. intros st3 l E. rewrite E in Hst3.
  apply kept_by_bind; [apply entries_kept_by|intros; reflexivity]. destruct Hst3 as [Hi _]. cbn [fst] in Hi. by rewrite Hi.
Qed.
End tail.

(** ** The stages *)

Definition settlements_of (s : JobStore) : list SettlementRecord := s_settlements (py_settlement (js_pay s)).
Definition payouts_in (s : JobStore) : list WorkerPayoutRecord := s_payouts (py_settlement (js_pay s)).

(** Receipts, settlements and payouts are the same. *)
Definition same_records (s s' : JobStore) : Prop :=
  js_receipts s' = js_receipts s ∧ settlements_of s' = settlements_of s ∧ payouts_in s' = payouts_in s.

Lemma on_chain_kept {A} (m : M A) s s' r :
  on_pay (on_chain_p m) s = (s', r) → same_records s s' ∧ js_jobs s' = js_jobs s.
Proof.
  unfold on_pay, on_chain_p, on_settlements, on_chain.
  destruct (m _) as [c r']. intros [= <- <-]. done.
Qed.

Lemma same_records_trans s s1 s2 : same_records s s1 → same_records s1 s2 → same_records s s2.
Proof. intros (? & ? & ?) (? & ? & ?). split_and!; congruence. Qed.

Lemma job_put_records j s s' : job_put j s s' → same_records s s'.
Proof. intros (Hp & Hr & _). unfold same_records, settlements_of, payouts_in. by rewrite Hp, Hr. Qed.

Lemma job_view_id s i j : job_view s i = Some j → jb_job_id j = i.
Proof. intros [_ Hi]%List.find_some. by apply String.eqb_eq. Qed.

Lemma job_view_jobs s s' : js_jobs s' = js_jobs s → ∀ i, job_view s' i = job_view s i.
Proof. intros E i. unfold job_view. by rewrite E. Qed.

Lemma put_receipt_perm r0 r l : ∀ l0,
  l ≡ₚ r0 :: l0 → xr_receipt_id r0 = xr_receipt_id r → xr_receipt_id r ∉ map xr_receipt_id l0 →
  put_receipt r l ≡ₚ r :: l0.
Proof.
  induction l as [|x l IH]; intros l0 Hp Hid Hfresh; [by apply Permutation_nil_cons in Hp|].
  cbn [put_receipt]. assert (x ∈ r0 :: l0) as Hx by (rewrite <- Hp; left).
  destruct (String.eqb_spec (xr_receipt_id x) (xr_receipt_id r)) as [Hx'|Hx'].
  - apply elem_of_cons in Hx as [->|Hx]; [by apply Permutation_cons_inv in Hp as ->|].
    destruct Hfresh. rewrite <- Hx'. by apply list_elem_of_fmap_2.
  - apply elem_of_cons in Hx as [->|Hx]; [congruence|].
    apply elem_of_Permutation in Hx as (l0' & Hl0). rewrite Hl0 in Hp. rewrite Permutation_swap in Hp.
    apply Permutation_cons_inv in Hp. rewrite (IH l0' Hp Hid).
    + rewrite Permutation_swap. by rewrite Hl0.
    + rewrite Hl0 in Hfresh. cbn in Hfresh. set_solver.
Qed.

Section run.
Context `{SignatureBackend} (env : Environ) (wallet_policy : option WalletPolicy).
Context (is_today : string → bool) (ip_address ip_network : string → option string).
Context (lottery_key : string → string → Z → Q).
Context (keys_of : WalletRecord → WalletKeys) (material : WalletRecord → option SigningMaterial).
Context (age_seconds : string → option Z).
Context (mp : MoneyPolicy) (np : NetworkModelPolicy).

(** The wallet and the ledger are read from the chain; no record changes. *)
Lemma funding_wallet_kept t w s s' w' :
  _chain_backed_funding_wallet env wallet_policy mp t w s = (s', Ok w') →
  same_records s s' ∧ js_jobs s' = js_jobs s ∧ wr_wallet_id w' = wr_wallet_id w.
Proof using H.
  intros (s1 & u & Hg & (s2 & b & Hb & Hw)%JM_bind_ok)%JM_bind_ok.
  injection Hw as <- <-. apply on_chain_kept in Hg as [Hg ?], Hb as [Hb ?].
  split_and!; [by eapply same_records_trans|congruence|done].
Qed.

(** A started job is stored as running, with the decision for its requested cost. *)
Lemma start_job_ok t w unlocked payload i st st' sj :
  start_job env wallet_policy is_today ip_address ip_network mp np t w unlocked payload i st = (st', Ok sj) →
  ∃ j0 model s1, job_view st i = Some j0
    ∧ sj_job sj = with_job_state j0 model "running" (jb_receipt_id j0) (jb_settlement_id j0) None
                    (jb_execution_attempts j0)
    ∧ decision_funds mp (sj_job sj) sj
    ∧ same_records st s1 ∧ js_jobs s1 = js_jobs st ∧ job_put (sj_job sj) s1 st'.
Proof using H.
  unfold start_job. intros (s0 & job & [= <- <-] & Hrun)%JM_bind_ok.
  fold (job_view st i) in Hrun. destruct (job_view st i) as [j0|] eqn:Hj; [|done].
  destruct w as [w|]; [|done]. destruct (negb (String.eqb _ _)); [done|].
  apply JM_bind_ok in Hrun as (s1 & fw & Hw & Hrun). apply funding_wallet_kept in Hw as (Hk1 & Hjobs1 & _).
  apply JM_bind_ok in Hrun as (s2 & stored & [= <- <-] & Hrun).
  apply JM_bind_ok in Hrun as (s3 & ledger & Hl & Hrun). apply on_chain_kept in Hl as [Hk3 Hjobs3].
  apply JM_bind_ok in Hrun as (s4 & d & Hd & Hrun). unfold plan_job in Hd.
  apply JM_bind_ok in Hd as (s5 & ss & [= <- <-] & [-> Hd]%jlift_ok). apply funding_of_plan in Hd.
  destruct (negb (fd_can_fund d)); [by apply fail_job_not_ok in Hrun|].
  destruct (_ && _); [done|]. set (model := normalize_network_model_id (jb_model_id j0) np) in Hrun.
  set (j1 := with_job_state j0 model _ _ _ _ _) in Hrun.
  assert (job_stored j1 s3) as Hstored.
  { exists j0. split; [|done]. unfold job_view. rewrite Hjobs3, Hjobs1.
    cbn [jb_job_id j1 with_job_state]. apply job_view_id in Hj as Hid. rewrite Hid. exact Hj. }
  destruct (update_job_intent_put j1 s3 Hstored) as (s6 & Hu & Hput).
  rewrite JM_bind_eq, Hu in Hrun.
  destruct (_validate_request_payload_model_matches_job _ _ _ _) as [?|[]]; try done;
    [|by apply fail_job_not_ok in Hrun].
  injection Hrun as <- <-. exists j0, model, s3. split_and!; try done; [|congruence].
  by eapply same_records_trans.
Qed.

(** The end of a job: the receipt replaced, the job completed. *)
Lemma finish_job_ok tk wallet_id audit warning se j s s' j' r :
  job_stored j s →
  finish_job tk wallet_id audit warning se j s = (s', Ok (j', r)) →
  j' = with_job_state j (jb_model_id j) "completed" (Some (xr_receipt_id (se_receipt se)))
         (Some (sr_settlement_id (se_settlement se))) None (jb_execution_attempts j)
  ∧ r = with_network_audit (se_receipt se) (dset "settlementTail" audit (se_audit se))
  ∧ js_receipts s' = put_receipt r (list_execution_receipts (js_receipts s))
  ∧ py_settlement (js_pay s') = py_settlement (js_pay s)
  ∧ ∀ i, job_view s' i = if decide (i = jb_job_id j') then Some j' else job_view s i.
Proof.
  intros Hstored Hrun. unfold finish_job in Hrun.
  set (receipt := with_network_audit _ _) in Hrun.
  apply JM_bind_ok in Hrun as (s1 & u & (s0 & items & [= <- <-] & [= <- <-])%JM_bind_ok & Hrun).
  set (j1 := with_job_state j _ "completed" _ _ _ _) in Hrun.
  destruct (update_job_intent_put j1
    (with_receipts s (put_receipt receipt (list_execution_receipts (js_receipts s)))) Hstored) as (s2 & Hu & Hput).
  rewrite JM_bind_eq, Hu in Hrun.
  apply JM_bind_ok in Hrun as (s3 & v & (p3 & [= <- _] & ->)%on_pay_ok & Hrun).
  apply JM_bind_ok in Hrun as (s4 & w & Hw & Hrun). injection Hrun as <- <- <-.
  assert (js_receipts s4 = js_receipts s2 ∧ js_jobs s4 = js_jobs s2
          ∧ py_settlement (js_pay s4) = py_settlement (js_pay s2)) as (Hr & Hj & Hs).
  { destruct (filled warning); [|by injection Hw as <-]. by apply on_pay_ok in Hw as (p4 & [= <- _] & ->). }
  destruct Hput as (Hp2 & Hr2 & Hview). split_and!; [done|done|by rewrite Hr, Hr2|by rewrite Hs, Hp2|].
  intros i. rewrite (job_view_jobs _ _ Hj). apply Hview.
Qed.

(** After the settlement the votes and the tail change neither jobs nor receipts. *)
Lemma run_tail_ok x se wallet_id j st st' j' r :
  job_stored j st →
  (_ ← on_pay (request_remote_committee_attestations env wallet_policy (ticks_from (en_ticks x) 10)
                 (sr_settlement_id (se_settlement se))
                 "Remote committee validator accepted CAI execution receipt."
                 (en_local_validator_id x) (en_votes x));
   failure ← caught (on_pay (_apply_settlement_after_canonical_chain_sync env wallet_policy mp
                               (en_ticks x 6%nat) (sr_settlement_id (se_settlement se))));
   finish_job (ticks_from (en_ticks x) 7) wallet_id (en_tail_audit x failure)
     (en_exception_text x <$> failure) se j) st = (st', Ok (j', r)) →
  NoDup (map sr_settlement_id (settlements_of st)) →
  kept_by same_deal (js_pay st) (js_pay st')
  ∧ map sr_settlement_id (settlements_of st') ≡ₚ map sr_settlement_id (settlements_of st)
  ∧ map bare (payouts_in st') ≡ₚ map bare (payouts_in st)
  ∧ ∃ audit,
  j' = with_job_state j (jb_model_id j) "completed" (Some (xr_receipt_id (se_receipt se)))
         (Some (sr_settlement_id (se_settlement se))) None (jb_execution_attempts j)
  ∧ r = with_network_audit (se_receipt se) audit
  ∧ js_receipts st' = put_receipt r (list_execution_receipts (js_receipts st))
  ∧ ∀ i, job_view st' i = if decide (i = jb_job_id j') then Some j' else job_view st i.
Proof using H.
  intros Hstored (s1 & n & (p1 & Hvotes & ->)%on_pay_ok & Hrun)%JM_bind_ok Hids.
  apply JM_bind_ok in Hrun as (s2 & failure & Hcaught & Hrun).
  set (ids := map sr_settlement_id (settlements_of st)) in *. set (bares := map bare (payouts_in st)).
  assert (kept_by same_deal (js_pay st) p1 ∧ filed ids bares p1) as [Hk1 Hf1].
  { change p1 with (p1, Ok n : result Z).1. rewrite <- Hvotes. split; [apply votes_kept_by, _|by apply stays_votes]. }
  assert (js_receipts s2 = js_receipts st ∧ js_jobs s2 = js_jobs st
          ∧ kept_by same_deal p1 (js_pay s2) ∧ filed ids bares (js_pay s2)) as (Hr & Hj & Hk2 & Hf2).
  { unfold caught, on_pay in Hcaught. cbn [js_pay] in Hcaught.
    pose proof (sync_kept_by env wallet_policy same_deal (en_ticks x 6%nat) mp (sr_settlement_id (se_settlement se)) p1
      ltac:(destruct Hf1 as [Hi _]; by rewrite Hi)) as Hk.
    pose proof (stays_sync ids bares env wallet_policy (en_ticks x 6%nat) mp (sr_settlement_id (se_settlement se)) p1 Hf1) as Hf.
    destruct (_apply_settlement_after_canonical_chain_sync _ _ _ _ _ _) as [p2 [u|e]]; by injection Hcaught as <- _. }
  assert (job_stored j s2) as Hstored2.
  { destruct Hstored as (j0 & Hv & Hc). exists j0. split; [|done]. by rewrite (job_view_jobs _ _ Hj). }
  apply finish_job_ok in Hrun as (-> & Er & Erec & Es & Hview); [|done].
  destruct Hf2 as [Hi Hb]. split_and!.
  - transitivity p1; [exact Hk1|]. transitivity (js_pay s2); [exact Hk2|]. intros k s Hs. exists s. by rewrite Es.
  - unfold settlements_of. rewrite Es. exact Hi.
  - unfold payouts_in. rewrite Es. exact Hb.
  - eexists. split_and!; [done|exact Er|by rewrite <- Hr|].
    intros k. rewrite Hview. by rewrite (job_view_jobs _ _ Hj).
Qed.

Definition executed (x : Execution) : string → JM (JobIntent * ExecutionReceipt) :=
  execute_job_intent env wallet_policy is_today ip_address ip_network lottery_key keys_of material
    age_seconds mp np x.

(** The tokens a run draws are new: the receipt's and the settlement's. *)
Definition fresh_tokens (x : Execution) (s : JobStore) : Prop :=
  token (en_ticks x 2%nat) ∉ map xr_receipt_id (js_receipts s)
  ∧ token (en_ticks x 3%nat) ∉ map sr_settlement_id (settlements_of s)
  ∧ ∀ p, p ∈ payouts_in s → wp_settlement_id p ≠ token (en_ticks x 3%nat).

(** An instance runs each node once. *)
Definition nodes_distinct (a : JobAttempt) : Prop :=
  match at_response a with
  | inl (_, snapshot) => NoDup (map pa_node_id (is_participants snapshot))
  | inr _ => True
  end.

(** The exactness of payouts does not depend on their credit. *)
Lemma exact_bare s payouts payouts' :
  map bare payouts' = map bare payouts → exact_accounting s payouts mp → exact_accounting s payouts' mp.
Proof.
  intros E [H1 H2 H3 H4 H5].
  assert (∀ {A} (f : WorkerPayoutRecord → A), (∀ p, f (bare p) = f p) → map f payouts' = map f payouts) as Hmap.
  { intros A f Hf. rewrite <- (map_ext _ _ Hf payouts), <- (map_ext _ _ Hf payouts'), <- !(map_map bare f). by rewrite E. }
  constructor; [done|done|by rewrite (Hmap Z (λ p, Z.max 0 (wp_reward_atomic p)))|done|].
  intros Hpos. destruct (H5 Hpos) as [Hne Hall]. split.
  - intros ->. by destruct payouts.
  - intros p Hp. rewrite (Hmap _ payout_party) by done. assert (bare p ∈ map bare payouts) as Hin.
    { rewrite <- E. by apply list_elem_of_fmap_2. }
    apply list_elem_of_fmap in Hin as (q & Hq & Hqin). specialize (Hall q Hqin).
    change (wp_reward_atomic (bare p) = award (sr_worker_reward_atomic s) (map payout_party payouts) (payout_party (bare p))).
    by rewrite Hq.
Qed.

(** What is stored of a run, whatever the votes and the tail did to it since: one settlement
    [s] more, its payouts, and the old ones. *)
Record settled_for (x : Execution) (s : SettlementRecord) (payouts : list WorkerPayoutRecord)
    (paid : list string) (st st' : JobStore) : Prop := {
  sf_ids : map sr_settlement_id (settlements_of st')
           ≡ₚ token (en_ticks x 3%nat) :: map sr_settlement_id (settlements_of st);
  sf_stored : resolve_settlement (token (en_ticks x 3%nat)) (settlements_of st') = Some s;
  sf_others : kept_by same_deal (js_pay st) (js_pay st');
  sf_payouts : ∃ old, payouts_in st' ≡ₚ payouts ++ old ∧ map bare old ≡ₚ map bare (payouts_in st);
  sf_named : Forall (λ p, wp_settlement_id p = token (en_ticks x 3%nat)
                          ∧ wp_receipt_id p = token (en_ticks x 2%nat)) payouts;
  sf_exact : exact_accounting s payouts mp;
  sf_paid : 0 < sr_worker_reward_atomic s → map wp_node_id payouts ≡ₚ paid
}.

Lemma tail_settled x j px se s records paid st s2 s3 st' :
  run_recorded mp (ticks_from (en_ticks x) 1) j px se s records s2 s3 → same_records st s2 → fresh_tokens x st →
  (0 < sr_worker_reward_atomic s → map wp_node_id records ≡ₚ paid) →
  kept_by same_deal (js_pay s3) (js_pay st') →
  map sr_settlement_id (settlements_of st') ≡ₚ map sr_settlement_id (settlements_of s3) →
  map bare (payouts_in st') ≡ₚ map bare (payouts_in s3) →
  ∃ s' payouts, same_deal s s' ∧ settled_for x s' payouts paid st st'.
Proof.
  intros Hrec (Ek1 & Ek2 & Ek3) (_ & Hfresh & _) Hpaid Hkept Hids Hbares.
  destruct (Hkept _ _ (rr_stored _ _ _ _ _ _ _ _ _ Hrec)) as (s' & Hs' & Hdeal).
  pose proof (rr_payouts _ _ _ _ _ _ _ _ _ Hrec) as Hp. fold (payouts_in s3) (payouts_in s2) in Hp.
  rewrite Hp, Permutation_app_comm, map_app in Hbares. symmetry in Hbares. rewrite <- map_app in Hbares. symmetry in Hbares.
  apply Permutation_sym, Permutation_map_inv in Hbares as (l & El & Hl).
  rewrite map_app in El. symmetry in El. apply map_eq_app in El as (payouts & old & -> & Erec & Eold).
  exists s', payouts. split; [done|]. constructor.
  - rewrite Hids. unfold settlements_of at 1. rewrite (rr_ids _ _ _ _ _ _ _ _ _ Hrec). fold (settlements_of s2).
    by rewrite Ek2.
  - exact Hs'.
  - intros k old' Hk. fold (settlements_of st) in Hk. rewrite <- Ek2 in Hk. apply Hkept. unfold settlements_of in Hk.
    rewrite (rr_others _ _ _ _ _ _ _ _ _ Hrec); [exact Hk|]. intros ->. apply Hfresh.
    fold (settlements_of s2) in Hk. rewrite Ek2 in Hk. unfold resolve_settlement in Hk.
    apply List.find_some in Hk as [Hin Hid%String.eqb_eq]. apply list_elem_of_In, elem_of_py_sorted in Hin.
    apply list_elem_of_fmap. exists old'. split; [exact (eq_sym Hid)|done].
  - exists old. split; [done|]. rewrite Eold. unfold list_worker_payouts, newest_first.
    rewrite (Permutation_map _ (py_sorted_perm _ _)). by rewrite Ek3.
  - pose proof (rr_named _ _ _ _ _ _ _ _ _ Hrec) as Hnamed. rewrite Forall_forall in *. intros p Hin.
    assert (bare p ∈ map bare records) as (q & Hq & Hqin)%list_elem_of_fmap
      by (rewrite <- Erec; by apply list_elem_of_fmap_2).
    specialize (Hnamed q Hqin). change (wp_settlement_id (bare p) = token (en_ticks x 3%nat) ∧ wp_receipt_id (bare p) = token (en_ticks x 2%nat)).
    rewrite Hq. exact Hnamed.
  - apply (exact_bare _ records); [done|]. eapply same_deal_exact; [exact Hdeal|]. apply Hrec.
  - destruct Hdeal as [(? & ? & ? & ? & ? & ? & ? & ? & ? & ->) _]. intros Hpos. rewrite <- (Hpaid Hpos).
    change (map wp_node_id payouts) with (map (λ p, wp_node_id (bare p)) payouts).
    rewrite <- (map_map bare wp_node_id), Erec, map_map. done.
Qed.


(** ** The votes of the committee keep the audits *)

(** What the repair reads of a settlement. *)
Definition audit_key (s : SettlementRecord) : string * string * pyval :=
  (sr_settlement_id s, sr_created_at s, audit_section s "execution").

Definition audits_kept (p p' : PayoutStore) : Prop :=
  map audit_key (list_settlements (s_settlements (py_settlement p')))
  = map audit_key (list_settlements (s_settlements (py_settlement p))).

Lemma audits_kept_refl p p' :
  s_settlements (py_settlement p') = s_settlements (py_settlement p) → audits_kept p p'.
Proof. unfold audits_kept. by intros ->. Qed.

Lemma audits_kept_trans p p1 p2 : audits_kept p p1 → audits_kept p1 p2 → audits_kept p p2.
Proof. unfold audits_kept. by intros -> ->. Qed.

Lemma map_update_settlement {B} (g : SettlementRecord → B) i f l :
  (∀ s, g (f s) = g s) → map g (update_settlement i f l) = map g l.
Proof.
  intros Hf. induction l as [|s l IH]; [done|]. cbn. destruct (String.eqb _ _); cbn; by rewrite ?Hf, ?IH.
Qed.

Lemma refresh_audits i ss ss' r p :
  refresh_settlement_finality i ss = (ss', r) → s_settlements ss = s_settlements (py_settlement p) →
  audits_kept p (with_settlement p ss').
Proof.
  unfold refresh_settlement_finality, sget, mbind, SM_bind. intros Hrun Hss. rewrite Hss in Hrun.
  destruct (List.find _ _) as [s|]; injection Hrun as <- _; [|by apply audits_kept_refl].
  unfold audits_kept. cbn [py_settlement with_settlement s_settlements].
  assert (map sr_created_at (update_settlement i (refreshed (s_attestations ss))
            (list_settlements (s_settlements (py_settlement p))))
          = map sr_created_at (list_settlements (s_settlements (py_settlement p)))) as Hc
    by (by apply map_update_settlement).
  unfold list_settlements at 1. rewrite (newest_first_stable _ _ _ Hc). by apply map_update_settlement.
Qed.

Lemma attestation_audits t i v accepted note p p' r :
  record_validator_attestation env wallet_policy t i v accepted note false p = (p', r) → audits_kept p p'.
Proof using H.
  unfold record_validator_attestation. rewrite PayoutProps.PM_bind_eq. unfold on_settlements.
  destruct (record_attestation _ _ _ _ _ _ _) as [ss r'] eqn:Hrun. intros Hend.
  assert (p' = with_settlement p ss) as -> by (destruct r' as [[a x]|e]; by injection Hend as <- _).
  unfold record_attestation, sget, mbind, SM_bind in Hrun.
  destruct (negb _ && negb _); [injection Hrun as <- _; by apply audits_kept_refl|].
  destruct (filter _ _) as [|item l]; [|destruct (Bool.eqb _ _); [|injection Hrun as <- _; by apply audits_kept_refl]];
    cbn [save_attestations] in Hrun;
    match type of Hrun with context [refresh_settlement_finality i ?ss0] =>
      destruct (refresh_settlement_finality i ss0) as [ss1 r1] eqn:Hf end;
    apply (refresh_audits _ _ _ _ p) in Hf; try done; by destruct r1; injection Hrun as <- _.
Qed.

Lemma remote_attestation_audits t i note v payload p p' r :
  record_remote_attestation env wallet_policy t i note v payload p = (p', r) → audits_kept p p'.
Proof using H.
  unfold record_remote_attestation. destruct (negb _); [intros [= <- _]; by apply audits_kept_refl|].
  destruct (record_validator_attestation _ _ _ _ _ _ _ _ p) as [p1 [a|e]] eqn:Ha; apply attestation_audits in Ha.
  - destruct (dget "chain" payload) as [| | | | |c]; [intros [= <- _]; exact Ha..|].
    intros [<- _]%pair_equal_spec. eapply audits_kept_trans; [exact Ha|]. apply audits_kept_refl.
    unfold on_chain_p, on_settlements, on_chain. by destruct (merge_remote_chain_payload _ _ _ _ _ _).
  - destruct e; intros [= <- _]; exact Ha.
Qed.

Lemma request_attestations_audits tk i note local answers members : ∀ p p' r,
  request_attestations env wallet_policy tk i note local answers members p = (p', r) → audits_kept p p'.
Proof using H.
  induction members as [|v members IH]; intros p p' r; cbn [request_attestations].
  { intros [= <- _]. by apply audits_kept_refl. }
  rewrite !PayoutProps.PM_bind_eq. unfold pget at 1. rewrite PayoutProps.PM_bind_eq.
  match goal with |- context [match ?m p with _ => _ end] => destruct (m p) as [p1 [b|e]] eqn:Hm end.
  - assert (audits_kept p p1) as Hk.
    { destruct (bool_decide _); [injection Hm as <- _; by apply audits_kept_refl|].
      destruct (get_validator_record _ _); [|injection Hm as <- _; by apply audits_kept_refl].
      destruct (answers _); [|injection Hm as <- _; by apply audits_kept_refl].
      by eapply remote_attestation_audits. }
    rewrite PayoutProps.PM_bind_eq.
    destruct (request_attestations _ _ _ _ _ _ _ _ p1) as [p2 [n|e]] eqn:Hrest; intros [= <- _];
      (eapply audits_kept_trans; [exact Hk|by eapply IH]).
  - intros [= <- _]. destruct (bool_decide _); [done|]. destruct (get_validator_record _ _); [|done].
    destruct (answers _); [|done]. by eapply remote_attestation_audits.
Qed.

Lemma votes_audits tk i note local answers p p' r :
  request_remote_committee_attestations env wallet_policy tk i note local answers p = (p', r) → audits_kept p p'.
Proof using H.
  unfold request_remote_committee_attestations. rewrite PayoutProps.PM_bind_eq. unfold pget.
  destruct (resolve_settlement _ _); [|intros [= <- _]; by apply audits_kept_refl].
  apply request_attestations_audits.
Qed.

(** ** Repairing a settled job *)

(** The settlement named by an execution audit is found by its key alone. *)
Definition key_names (receipt_id job_id : string) (k : string * string * pyval) : bool :=
  match k.2 with
  | VDict e =>
      let audit_receipt := str_or_strip (py_or (dget "receipt_id" e) (dget "receiptId" e)) in
      let audit_job := str_or_strip (py_or (dget "job_id" e) (dget "jobId" e)) in
      negb (String.eqb receipt_id "") && String.eqb audit_receipt receipt_id
      || negb (String.eqb job_id "") && String.eqb audit_job job_id
  | _ => false
  end.

Lemma find_audit_key r i l :
  sr_settlement_id <$> List.find (audit_names r i) l = (λ k, k.1.1) <$> List.find (key_names r i) (map audit_key l).
Proof.
  induction l as [|s l IH]; [done|]. cbn [map List.find].
  change (key_names r i (audit_key s)) with (audit_names r i s). by destruct (audit_names r i s).
Qed.

Lemma settlement_id_kept r i p p' :
  audits_kept p p' →
  _settlement_id_for_receipt_or_job r i (s_settlements (py_settlement p'))
  = _settlement_id_for_receipt_or_job r i (s_settlements (py_settlement p)).
Proof.
  intros Hk. unfold _settlement_id_for_receipt_or_job. destruct (_ && _); [done|].
  by rewrite !find_audit_key, Hk.
Qed.

Lemma execution_section_job x :
  ∃ e, execution_section x = VDict e ∧ dget "job_id" e = VStr (ex_job_id x) ∧ dget "jobId" e = VNone.
Proof. eexists. split; [reflexivity|done]. Qed.

Lemma execution_section_named receipt records r i s :
  audit_section s "execution" = execution_section (receipt_audit receipt records) →
  strip (xr_job_id receipt) = i → i ≠ "" → audit_names r i s = true.
Proof.
  intros Ha <- Hi. unfold audit_names. unfold audit_section in Ha. rewrite Ha.
  destruct (execution_section_job (receipt_audit receipt records)) as (e & -> & -> & ->).
  cbn [receipt_audit ex_job_id].
  rewrite (proj2 (String.eqb_neq (strip (xr_job_id receipt)) "") Hi).
  assert (str_or_strip (py_or (VStr (xr_job_id receipt)) VNone) = strip (xr_job_id receipt)) as ->.
  { unfold str_or_strip, py_or. assert (truthy (VStr (xr_job_id receipt)) = true) as E.
    { cbn. apply negb_true_iff, String.eqb_neq. by intros E; rewrite E in Hi. }
    by rewrite !E. }
  by rewrite String.eqb_refl, orb_true_r.
Qed.

(** The settlement of a recorded run is the one the repair finds for its job. *)
Lemma recorded_settlement_found tk j px se s records st st' :
  run_recorded mp tk j px se s records st st' → strip (jb_job_id j) ≠ "" →
  NoDup (map sr_settlement_id (settlements_of st)) →
  token (tk 2%nat) ∉ map sr_settlement_id (settlements_of st) →
  (∀ x, x ∈ settlements_of st →
     audit_names (strip (xr_receipt_id (se_receipt se))) (strip (jb_job_id j)) x = false) →
  _settlement_id_for_receipt_or_job (xr_receipt_id (se_receipt se)) (jb_job_id j) (settlements_of st')
  = Some (token (tk 2%nat)).
Proof.
  intros Hrec Hi Hnd Hfresh Hother. unfold _settlement_id_for_receipt_or_job.
  rewrite (proj2 (String.eqb_neq (strip (jb_job_id j)) "") Hi), andb_false_r.
  destruct (rr_receipt _ _ _ _ _ _ _ _ _ Hrec) as (_ & Hjob & _). destruct (rr_id _ _ _ _ _ _ _ _ _ Hrec) as [Hs _].
  assert (NoDup (map sr_settlement_id (settlements_of st'))) as Hnd'.
  { unfold settlements_of. rewrite (rr_ids _ _ _ _ _ _ _ _ _ Hrec). by constructor. }
  pose proof (rr_stored _ _ _ _ _ _ _ _ _ Hrec) as Hstored.
  destruct (find_some_only (audit_names (strip (xr_receipt_id (se_receipt se))) (strip (jb_job_id j)))
    (λ y, sr_settlement_id y = token (tk 2%nat)) (list_settlements (settlements_of st')) s) as (y & -> & Hy).
  - unfold resolve_settlement in Hstored. apply List.find_some in Hstored as [Hin _]. by apply list_elem_of_In.
  - eapply execution_section_named; [apply (rr_audit _ _ _ _ _ _ _ _ _ Hrec)|by rewrite Hjob|done].
  - intros y Hy Hnames. apply elem_of_py_sorted in Hy.
    destruct (decide (sr_settlement_id y = token (tk 2%nat))) as [|Hne]; [done|].
    pose proof (resolve_member _ _ Hnd' Hy) as Hres. unfold settlements_of in Hres.
    rewrite (rr_others _ _ _ _ _ _ _ _ _ Hrec) in Hres by done.
    unfold resolve_settlement in Hres. apply List.find_some in Hres as [Hin _].
    apply list_elem_of_In, elem_of_py_sorted, Hother in Hin. congruence.
  - cbn. by rewrite Hy.
Qed.

(** The receipt of a recorded run is the one the repair finds for its job. *)
Lemma recorded_receipt_found tk j px se s records st st' :
  run_recorded mp tk j px se s records st st' → strip (jb_job_id j) ≠ "" →
  (∀ r, r ∈ js_receipts st → strip (xr_job_id r) ≠ strip (jb_job_id j)) →
  receipt_of_job (jb_job_id j) (list_execution_receipts (js_receipts st')) = Some (se_receipt se).
Proof.
  intros Hrec Hi Hother. destruct (rr_receipt _ _ _ _ _ _ _ _ _ Hrec) as (_ & Hjob & _). unfold receipt_of_job.
  assert (∀ r, r ∈ rev (list_execution_receipts (js_receipts st')) ↔ r = se_receipt se ∨ r ∈ js_receipts st) as Hin.
  { intros r. rewrite list_elem_of_In, <- in_rev, <- list_elem_of_In. unfold list_execution_receipts at 1, newest_first.
    rewrite elem_of_py_sorted, (rr_receipts _ _ _ _ _ _ _ _ _ Hrec), elem_of_app.
    unfold list_execution_receipts, newest_first. rewrite elem_of_py_sorted. set_solver. }
  destruct (find_some_only (λ r, negb (String.eqb (strip (xr_job_id r)) "")
                                 && String.eqb (strip (xr_job_id r)) (strip (jb_job_id j)))
    (λ r, r = se_receipt se) (rev (list_execution_receipts (js_receipts st'))) (se_receipt se)) as (y & -> & ->).
  - apply Hin. by left.
  - rewrite Hjob, String.eqb_refl. by rewrite (proj2 (String.eqb_neq _ _) Hi).
  - intros y Hy [_ E%String.eqb_eq]%andb_prop. apply Hin in Hy as [|Hy]; [done|]. by apply Hother in Hy.
  - done.
Qed.

(** C36: a job that is run for the first time and stops after [settle_run], that is after the
    execution audit was stored, during the votes of the committee (an error of theirs included) or
    after them, is completed by the next repair with the receipt and the settlement of that run.
    It is running and has neither receipt nor settlement id, no earlier receipt is of that job and
    no earlier execution audit names it: a job that is executed again keeps its old receipt id and
    is not repaired, and one that stops before the execution audit is completed without a
    settlement id. *)
Theorem interrupted_job_repaired tk payout_id ra payload url sj j response snapshot st st1 se
    tk' note local answers st2 r env' age stale :
  decision_funds mp j sj → prices_nonneg j → sane_rates mp → NoDup (map pa_node_id (is_participants snapshot)) →
  NoDup (map sr_settlement_id (settlements_of st)) →
  token (tk 2%nat) ∉ map sr_settlement_id (settlements_of st) →
  (∀ p, p ∈ payouts_in st → wp_settlement_id p ≠ token (tk 2%nat)) →
  job_view st (jb_job_id j) = Some j → strip (jb_job_id j) ≠ "" →
  jb_status j = "running" → jb_receipt_id j = None → jb_settlement_id j = None →
  (∀ x, x ∈ js_receipts st → strip (xr_job_id x) ≠ strip (jb_job_id j)) →
  (∀ x, x ∈ settlements_of st → audit_names (strip (token (tk 1%nat))) (strip (jb_job_id j)) x = false) →
  settle_run env wallet_policy is_today ip_address ip_network lottery_key keys_of material age_seconds mp np
    tk payout_id ra payload url sj j response snapshot st = (st1, Ok se) →
  on_pay (request_remote_committee_attestations env wallet_policy tk' (sr_settlement_id (se_settlement se))
            note local answers) st1 = (st2, r) →
  ∃ st3 n, reconcile_stale_running_job_intents env' age stale st2 = (st3, Ok n)
    ∧ js_pay st3 = js_pay st2 ∧ js_receipts st3 = js_receipts st2
    ∧ job_view st3 (jb_job_id j)
      = Some (with_job_state j (jb_model_id j) "completed" (Some (xr_receipt_id (se_receipt se)))
                (Some (sr_settlement_id (se_settlement se))) None (jb_execution_attempts j)).
Proof using H.
  intros Hsj Hprices Hrates Hnd Hids Hfresh Hfreshp Hview Hi Hstatus Hnor Hnos Hreceipts Hother Hsettle Hvotes.
  apply settle_run_recorded in Hsettle as (px & s & records & Hrec & _); try done.
  destruct (rr_receipt _ _ _ _ _ _ _ _ _ Hrec) as (Hrid & _). destruct (rr_id _ _ _ _ _ _ _ _ _ Hrec) as [_ Hsid].
  pose proof (recorded_receipt_found _ _ _ _ _ _ _ _ Hrec Hi Hreceipts) as Hfind.
  pose proof (recorded_settlement_found _ _ _ _ _ _ _ _ Hrec Hi Hids Hfresh
    ltac:(by rewrite Hrid)) as Hfound.
  unfold on_pay in Hvotes.
  destruct (request_remote_committee_attestations _ _ _ _ _ _ _ (js_pay st1)) as [p2 r2] eqn:Hv.
  apply votes_audits in Hv. apply pair_equal_spec in Hvotes as [<- _].
  destruct (reconcile_repairs env' age stale {| js_pay := p2; js_jobs := js_jobs st1; js_receipts := js_receipts st1 |})
    as (st3 & n & Hrun & Hp & Hr & Hl).
  exists st3, n. split_and!; [done..|]. rewrite (reconcile_view _ _ _ _ _ Hl).
  assert (job_view {| js_pay := p2; js_jobs := js_jobs st1; js_receipts := js_receipts st1 |} (jb_job_id j) = Some j) as ->.
  { rewrite <- Hview. apply job_view_jobs. exact (rr_jobs _ _ _ _ _ _ _ _ _ Hrec). }
  cbn [fmap option_fmap option_map]. f_equal. unfold repair_of, repaired, reconciled_job. cbn [js_receipts js_pay].
  rewrite Hstatus, Hnor, Hnos, Hfind. cbn [negb filled default].
  rewrite (settlement_id_kept _ _ _ _ Hv). fold (settlements_of st1). rewrite Hfound, Hsid. done.
Qed.
End run.
