(* ===== verification/JobPriceProps.v ===== *)
(** * Properties of the price of a job

    What a job reserves when it is created bounds what it costs when it has run; the tokens
    of a pipeline are counted once; who is paid when the owned transport ran the job. *)
From Stdlib Require Import Ascii QArith.
From S2P Require Import Prelude.
From S2P Require Import PyStr.
From S2P Require Import PyVal.
From S2P Require Import Money.
From S2P Require Import Signing.
From S2P Require Import ChainTx.
From S2P Require Import Ledger.
From S2P Require Import Apportion.
From S2P Require Import SettlementData.
From S2P Require Import Funding.
From S2P Require Import PeerFacts.
From S2P Require Import FundingProps.
From S2P Require Import Payouts.
From S2P Require Import Envelope.
From S2P Require Import Pricing.
From S2P Require Import Eligibility.
From S2P Require Import Jobs.
From S2P Require Import JobExecution.
From S2P Require Import JobProps.
Local Open Scope Z_scope.
Set Default Proof Using "Type".

(** ** Reservations *)

Section price.
Context `{SignatureBackend} (env : Environ) (wallet_policy : option WalletPolicy).
Context (ip_address ip_network : string → option string).

(** The tokens the price of a request reserves. *)
Definition reserved_output (mp : MoneyPolicy) (rq : JobRequest) : Z :=
  extract_reserved_output_tokens (rq_request_payload_preview rq) mp.

(** A job is created from a price of the request, with the policy's bounds. *)
Lemma created_job t mp np w snapshot rq s s' j :
  create_job_intent env wallet_policy ip_address ip_network t mp np w snapshot rq s = (s', Ok j) →
  ∃ model_id url eurl keys hash reserve price floor cap,
    resolve_compute_price (rq_compute_amount_coins rq) (rq_prompt rq) model_id reserve
      (Some (reserved_output mp rq)) mp np snapshot = Ok price
    ∧ pricing_floor_atomic mp = Ok floor ∧ pricing_cap_atomic mp = Ok cap
    ∧ j = new_job t mp rq w model_id url eurl keys hash price floor cap
    ∧ js_jobs s' = list_job_intents (js_jobs s) ++ [j].
Proof using H.
  unfold create_job_intent. intros (s1 & stored & [= <- <-] & Hrun)%JM_bind_ok.
  apply JM_bind_ok in Hrun as (s2 & ledger & (p & _ & ->)%on_pay_ok & Hrun).
  destruct (_coalesce_cai_url (rq_cai_url rq)) as [url|]; [|done].
  apply JM_bind_ok in Hrun as (s3 & keys & [-> _]%jlift_ok & Hrun).
  apply JM_bind_ok in Hrun as (s4 & price & [-> Hprice]%jlift_ok & Hrun).
  apply JM_bind_ok in Hrun as (s5 & floor & [-> Hfloor]%jlift_ok & Hrun).
  apply JM_bind_ok in Hrun as (s6 & cap & [-> Hcap]%jlift_ok & Hrun).
  apply JM_bind_ok in Hrun as (s7 & jobs & [= <- <-] & Hrun).
  apply JM_bind_ok in Hrun as (s8 & u & [= <- <-] & Hrun).
  apply JM_bind_ok in Hrun as (s9 & v & (p' & _ & ->)%on_pay_ok & Hrun).
  injection Hrun as <- <-. by eexists _, _, _, _, _, _, price, floor, cap.
Qed.

(** A price is given by hand, or by the tokens or characters of the prompt. *)
Lemma resolved_price coins prompt model reserve output mp np snapshot price :
  resolve_compute_price coins prompt model reserve (Some output) mp np snapshot = Ok price →
  match rq_automatic_quote price with
  | None => rq_pricing_basis price = "manual"
  | Some q =>
      rq_compute_cost_atomic price = aq_compute_cost_atomic q
      ∧ ((rq_pricing_basis price = "prompt_chars" ∧ automatic_token_pricing_enabled mp = false)
         ∨ ∃ floor cap ip op tc,
             rq_pricing_basis price = "llm_tokens"
             ∧ pricing_floor_atomic mp = Ok floor ∧ pricing_cap_atomic mp = Ok cap
             ∧ coins_to_atomic (automatic_price_per_input_token_coins mp) mp = Ok ip
             ∧ coins_to_atomic (automatic_price_per_output_token_coins mp) mp = Ok op
             ∧ aq_input_token_price_atomic q = Some ip ∧ aq_output_token_price_atomic q = Some op
             ∧ calculate_token_priced_cost (Some (estimate_prompt_token_upper_bound prompt))
                 (Some (resolve_reserved_output_tokens (Some output) mp)) (aq_final_multiplier_bps q) mp
                 (Some ip) (Some op) (Some floor) (Some cap) = Ok tc
             ∧ aq_compute_cost_atomic q = tc_compute_cost_atomic tc)
  end.
Proof.
  unfold resolve_compute_price. destruct coins as [coins|].
  { by intros (cost & _ & [= <-])%bind_ok. }
  destruct (String.eqb _ _); [done|]. intros (q & Hq & [= <-])%bind_ok. cbn [rq_automatic_quote rq_pricing_basis].
  split; [done|]. unfold quote_automatic_compute_price in Hq.
  apply bind_ok in Hq as (floor & Hfloor & (cap & Hcap & (per & _ & (bp & Hbp & (tc & Htc & Hq)%bind_ok)%bind_ok)%bind_ok)%bind_ok).
  apply (inj Ok) in Hq as <-. unfold base_price in Hbp.
  destruct (automatic_token_pricing_enabled mp).
  - right. apply bind_ok in Hbp as (ip & Hip & (op & Hop & [= <-])%bind_ok).
    by exists floor, cap, ip, op, tc.
  - left. by injection Hbp as <-.
Qed.

Lemma reserved_output_resolved mp rq :
  resolve_reserved_output_tokens (Some (reserved_output mp rq)) mp = reserved_output mp rq.
Proof.
  assert (0 < reserved_output mp rq) as Hpos.
  { assert (∀ o, 0 < resolve_reserved_output_tokens o mp) as Hr.
    { intros [n|]; cbn; [destruct (Z.ltb_spec 0 n); lia|lia]. }
    unfold reserved_output, extract_reserved_output_tokens.
    destruct (rq_request_payload_preview rq); try apply Hr; by destruct (first_positive _ _). }
  unfold resolve_reserved_output_tokens. by rewrite (proj2 (Z.ltb_lt _ _) Hpos).
Qed.

(** A policy with ordered price bounds and prices that are not negative. *)
Definition sane_prices (mp : MoneyPolicy) : Prop :=
  (∀ f c, pricing_floor_atomic mp = Ok f → pricing_cap_atomic mp = Ok c → 0 ≤ f ≤ c)
  ∧ (∀ p, coins_to_atomic (automatic_price_per_input_token_coins mp) mp = Ok p → 0 ≤ p)
  ∧ (∀ p, coins_to_atomic (automatic_price_per_output_token_coins mp) mp = Ok p → 0 ≤ p).

(** The cost of a usage of a created job. *)
Definition covered (mp : MoneyPolicy) (rq : JobRequest) (j : JobIntent) (u : Usage) : Prop :=
  ∃ cost priced, actual_cost mp j (Some u) = Ok (cost, priced)
  ∧ (priced = false → cost = jb_requested_compute_cost_atomic j)
  ∧ (priced = true → ∃ floor cap,
       pricing_floor_atomic mp = Ok floor ∧ pricing_cap_atomic mp = Ok cap
       ∧ floor ≤ cost ≤ cap ∧ floor ≤ jb_requested_compute_cost_atomic j ≤ cap
       ∧ (us_prompt_tokens u ≤ estimate_prompt_token_upper_bound (rq_prompt rq) →
          us_completion_tokens u ≤ reserved_output mp rq →
          cost ≤ jb_requested_compute_cost_atomic j)).

(** C34: for a job that is priced by tokens, the cost of the run stays between the protocol's floor
    and cap, and usage within the reserved prompt and output tokens never costs more than what
    was reserved when the job was created.  A cost given by hand, or priced by characters, is
    charged unchanged, whatever the floor and the cap are. *)
Theorem reservation_covers_usage t mp np w snapshot rq s s' j u :
  sane_prices mp →
  create_job_intent env wallet_policy ip_address ip_network t mp np w snapshot rq s = (s', Ok j) →
  covered mp rq j u.
Proof using H.
  intros (Hbounds & Hin & Hout) Hrun.
  apply created_job in Hrun as (model & url & eurl & keys & hash & reserve & price & floor & cap & Hprice
    & Hfloor & Hcap & -> & _).
  apply resolved_price in Hprice. unfold covered, actual_cost.
  cbn [jb_pricing_final_multiplier_bps jb_pricing_basis jb_requested_compute_cost_atomic new_job].
  destruct (rq_automatic_quote price) as [q|] eqn:Hq; cbn [fmap option_fmap option_map];
    [|by exists (rq_compute_cost_atomic price), false].
  destruct Hprice as (Hcost & [[-> _]|(floor' & cap' & ip & op & tc & -> & Ef & Ec & Eip & Eop & Hip & Hop & Htc & Hqc)]).
  { by exists (rq_compute_cost_atomic price), false. }
  rewrite Hfloor in Ef. injection Ef as <-. rewrite Hcap in Ec. injection Ec as <-.
  cbn [jb_pricing_floor_atomic jb_pricing_cap_atomic jb_pricing_input_token_price_atomic
    jb_pricing_output_token_price_atomic new_job]. rewrite Hq. cbn [fmap option_fmap option_map mbind option_bind].
  rewrite Hip, Hop, reserved_output_resolved in *.
  destruct (calculate_token_priced_cost (Some (us_prompt_tokens u)) (Some (us_completion_tokens u))
    (aq_final_multiplier_bps q) mp (Some ip) (Some op) (Some floor) (Some cap)) as [uc|e] eqn:Huc; [|done].
  pose proof (Hin _ Eip). pose proof (Hout _ Eop). pose proof (Hbounds _ _ Hfloor Hcap).
  assert (∀ p1 o1 c1, calculate_token_priced_cost (Some p1) (Some o1) (aq_final_multiplier_bps q) mp (Some ip)
    (Some op) (Some floor) (Some cap) = Ok c1 → floor ≤ tc_compute_cost_atomic c1 ≤ cap) as Hrange.
  { intros p1 o1 c1 Hc1. destruct (token_price_bounded_monotone (Some p1) (Some p1) (Some o1) (Some o1)
      (aq_final_multiplier_bps q) (aq_final_multiplier_bps q) mp ip op floor cap c1 c1) as (? & ? & _); try done; lia. }
  exists (tc_compute_cost_atomic uc), true. split_and!; [done|done|]. intros _. exists floor, cap.
  rewrite Hcost, Hqc. split_and!; try done; try by (eapply Hrange); try by eapply (Hrange _ _ tc).
  intros Hp Ho. destruct (token_price_bounded_monotone (Some (us_prompt_tokens u))
    (Some (estimate_prompt_token_upper_bound (rq_prompt rq))) (Some (us_completion_tokens u))
    (Some (reserved_output mp rq)) (aq_final_multiplier_bps q) (aq_final_multiplier_bps q) mp ip op floor cap uc tc)
    as (? & _); try done; lia.
Qed.
End price.

(** ** The tokens of a pipeline *)

Lemma max_or_same d x l : Forall (λ y, y = x) l → l ≠ [] → max_or d l = x.
Proof.
  intros Hl Hne. destruct l as [|y l]; [done|]. inversion Hl as [|? ? -> Hl']; subst. cbn. clear Hl Hne.
  induction Hl' as [|z l -> Hl' IH]; [done|]. cbn. by rewrite Z.max_id.
Qed.

Lemma omap_all {A B} (f : A → option B) (g : A → B) l : Forall (λ x, f x = Some (g x)) l → omap f l = map g l.
Proof. induction 1 as [|x l Hx Hl IH]; [done|]. cbn. rewrite Hx. by rewrite <- IH. Qed.

Lemma max_opt_same {A} (f : A → option Z) x l : Forall (λ e, f e = Some x) l → l ≠ [] → max_opt (omap f l) = Some x.
Proof.
  intros Hl Hne. rewrite (omap_all f (λ _, x)) by done. destruct l as [|e l]; [done|]. cbn [map max_opt]. f_equal.
  apply max_or_same; [|done]. constructor; [done|]. apply Forall_map, Forall_forall. done.
Qed.

(** The shards of a pipeline all see one stream of tokens: however many executors report
    the same prompt and completion counts, the proof's usage is those counts, once, and it is
    the usage the job is priced by, whatever the response reports. *)
Theorem pipeline_tokens_counted_once audit proof receipts l p c response :
  truthy (dget "caiOwnedTransportExecuted" audit) = true →
  dget "caiOwnedTransportExecutionProof" audit = VDict proof →
  dget "shardReceipts" proof = VList receipts → executor_usages receipts = Ok l → l ≠ [] →
  Forall (λ e, eu_prompt e = Some p ∧ eu_completion e = Some c) l →
  let u := {| us_prompt_tokens := p; us_completion_tokens := c; us_total_tokens := p + c |} in
  ∃ a, extract_cai_owned_transport_token_usage audit = Ok (Some (u, a))
     ∧ (merge_llm_token_usage_audit response (Some (u, a))).1.1 = Some u.
Proof.
  intros Hx Hp Hr Hl Hne Hall u. apply Forall_and in Hall as [Hprompt Hcompletion].
  assert (logical_usage l = Some u) as Hu.
  { unfold logical_usage. cbv zeta.
    by rewrite (max_opt_same eu_prompt p l Hprompt Hne), (max_opt_same eu_completion c l Hcompletion Hne). }
  exists (proof_audit proof l u). split; [|reflexivity]. unfold extract_cai_owned_transport_token_usage.
  rewrite Hx, Hp, Hr. cbn [negb]. rewrite Hl. cbn [mbind result_bind]. by rewrite Hu.
Qed.

(** ** Who is paid *)

Lemma receipt_participants_layers ps receipts : ∀ seen,
  Forall (λ p, 1 ≤ default 0 (pa_layer_count p)) (receipt_participants ps seen receipts).
Proof.
  induction receipts as [|r receipts IH]; intros seen; cbn [receipt_participants]; [constructor|].
  destruct (completed_node r) as [[d n]|]; [|apply IH]. case_bool_decide; [apply IH|]. constructor; [|apply IH].
  cbn. lia.
Qed.

(** When the owned transport ran a job, its receipts alone decide who is paid: the nodes
    with a completed shard receipt, each once and with at least one layer; every other
    participant of the instance is listed as skipped. *)
Theorem proof_decides_payees ps audit proof receipts :
  truthy (dget "caiOwnedTransportExecuted" audit) = true →
  dget "caiOwnedTransportExecutionProof" audit = VDict proof →
  dget "shardReceipts" proof = VList receipts → receipts ≠ [] →
  let '(paid, audit') := settlement_participants_for_reward ps audit in
  NoDup (map pa_node_id paid)
  ∧ (∀ n, n ∈ map pa_node_id paid ↔ n ∈ completed_nodes receipts)
  ∧ Forall (λ p, 1 ≤ default 0 (pa_layer_count p)) paid
  ∧ dget "rewardPayoutNodeIds" audit' = VList (map VStr (map pa_node_id paid))
  ∧ ∀ n, n ∈ skipped_nodes ps (map pa_node_id paid)
         ↔ n ≠ "" ∧ n ∉ completed_nodes receipts ∧ ∃ p, p ∈ ps ∧ strip (pa_node_id p) = n.
Proof.
  intros Hx Hp Hr Hne. unfold settlement_participants_for_reward. rewrite Hx, Hp, Hr. cbn [negb].
  destruct receipts as [|r rs]; [done|]. set (receipts := r :: rs) in *.
  pose proof (λ n, receipt_participants_complete ps receipts n [] (not_elem_of_nil n)) as Hpaid.
  split_and!.
  - apply receipt_participants_nodup.
  - exact Hpaid.
  - apply receipt_participants_layers.
  - destruct (skipped_nodes _ _); by rewrite !dget_dset.
  - intros n. unfold skipped_nodes. rewrite elem_of_py_sorted, elem_of_dedup, list_elem_of_In, filter_In.
    rewrite <- list_elem_of_In, list_elem_of_fmap, andb_true_iff, !negb_true_iff, String.eqb_neq, bool_decide_eq_false, Hpaid.
    split.
    + intros [[(q & Hn & Hq) [He Hc]] _]. split_and!; [done|done|]. by exists q.
    + intros (He & Hc & q & Hq & Hn). split; [|apply not_elem_of_nil]. split; [|done]. by exists q.
Qed.

(** * Properties of the eligibility of a run

    A run is settled exactly when each of its participants may work for it, and a run that is
    not eligible leaves nothing but a failed job. *)


Section eligible.
Context (np : NetworkModelPolicy) (age_seconds : string → option Z).

(** A participant that may work for a run: not switched off, allowed a model of the run,
    verified when that is required, and seen recently when it says when it was seen. *)
Record may_work (accepted : gset string) (stale_after_seconds : Z) (i : ParticipantItem) : Prop := {
  mw_enabled : (worker_identity_state (pv_identity (it_view i))).1 ≠ Some false;
  mw_model : ∀ l, identity_allowed_model_ids np (pv_identity (it_view i)) = Some l → l ≠ [] →
    ∃ m, m ∈ l ∧ m ∈ accepted;
  mw_verified : it_verified i ≠ Some false;
  mw_recent : ∀ age, last_seen_age age_seconds (pv_identity (it_view i)) = Some age →
    age ≤ Z.max 0 stale_after_seconds
}.

Lemma fact_nil b m : fact b m = [] ↔ b = false.
Proof. by destruct b. Qed.

Lemma model_allowed_iff o accepted :
  worker_model_allowed o accepted ≠ Some false ↔ ∀ l, o = Some l → l ≠ [] → ∃ m, m ∈ l ∧ m ∈ accepted.
Proof.
  destruct o as [[|x l]|]; cbn [worker_model_allowed].
  - split; [|done]. by intros _ l [= <-].
  - split.
    + intros Hb l' [= <-] _. case_bool_decide as Hx; [|done]. by apply Exists_exists in Hx.
    + intros Hl [= Hb%bool_decide_eq_false]. apply Hb, Exists_exists. by apply Hl.
  - done.
Qed.

Lemma reasons_nil_iff v accepted verified stale :
  participant_reasons np age_seconds v accepted verified stale = []
  ↔ (worker_identity_state (pv_identity v)).1 ≠ Some false
    ∧ worker_model_allowed (identity_allowed_model_ids np (pv_identity v)) accepted ≠ Some false
    ∧ verified ≠ Some false
    ∧ ∀ age, last_seen_age age_seconds (pv_identity v) = Some age → age ≤ Z.max 0 stale.
Proof.
  unfold participant_reasons. rewrite !app_nil, !fact_nil, !bool_decide_eq_false.
  destruct (last_seen_age age_seconds (pv_identity v)) as [age|].
  - rewrite fact_nil, Z.ltb_ge. naive_solver.
  - naive_solver.
Qed.

Lemma item_reasons_nil identities by_node accepted rv verified stale n :
  let i := participant_item np age_seconds identities by_node accepted rv verified stale n in
  it_reasons i = [] ↔ may_work accepted stale i.
Proof.
  cbv zeta. cbn [participant_item it_reasons]. rewrite reasons_nil_iff, model_allowed_iff.
  split; [intros (? & ? & ? & ?); by constructor|intros []; done].
Qed.

Lemma concat_map_nil {A B} (f : A → list B) l : concat (map f l) = [] ↔ ∀ x, x ∈ l → f x = [].
Proof.
  induction l as [|x l IH]; [split; [by intros _ x ?%elem_of_nil|done]|].
  cbn. rewrite app_nil, IH. setoid_rewrite elem_of_cons. naive_solver.
Qed.

(** The audit lists every node once asked for, and its verdict is the conjunction of the
    verdicts on the participants, the route, the compute cell and the transport. *)
Lemma can_settle_iff nodes state req exec audit rv records verified stale a :
  build_participant_eligibility_audit np age_seconds nodes state req exec audit rv records verified stale = Ok a →
  map it_node_id (ea_participants a) = nodes
  ∧ (can_settle a = true
     ↔ (∀ i, i ∈ ea_participants a → may_work (ea_checked_model_ids a) stale i)
       ∧ ea_route_reachable a ≠ Some false
       ∧ (compute_cell_reasons audit).1 = []
       ∧ (strategy_flag audit "requiresCaiOwnedTransport" = true →
          strategy_flag audit "caiOwnedTransportExecuted" = true)).
Proof.
  intros (route & _ & [= <-])%bind_ok. cbn [ea_participants ea_checked_model_ids ea_route_reachable].
  set (items := map (participant_item _ _ _ _ _ _ _ _) nodes).
  split; [unfold items; rewrite map_map; apply map_id|].
  unfold can_settle. rewrite bool_decide_eq_true. cbn [ea_fatal_reasons].
  rewrite length_zero_iff_nil, !app_nil, !fact_nil, bool_decide_eq_false, andb_false_iff, negb_false_iff, concat_map_nil.
  assert (∀ i, i ∈ items → map (λ r, it_node_id i +:+ ": " +:+ r) (it_reasons i) = [] ↔
    may_work (accepted_worker_model_ids np req ∪ accepted_worker_model_ids np exec) stale i) as Hitem.
  { intros i (n & -> & _)%list_elem_of_fmap. rewrite <- item_reasons_nil.
    split; [by intros E%map_eq_nil|by intros ->]. }
  destruct (strategy_flag audit "requiresCaiOwnedTransport"); naive_solver.
Qed.
End eligible.

Section run.
Context `{SignatureBackend} (env : Environ) (wallet_policy : option WalletPolicy).
Context (is_today : string → bool) (ip_address ip_network : string → option string).
Context (lottery_key : string → string → Z → Q).
Context (keys_of : WalletRecord → WalletKeys) (material : WalletRecord → option SigningMaterial).
Context (age_seconds : string → option Z).
Context (mp : MoneyPolicy) (np : NetworkModelPolicy).

(** A run is let through to its settlement exactly when every participant may work for it,
    the route between them is not known to be broken, the compute cell is not known to be
    unsafe, and a transport that was required was used; otherwise the job is marked failed with
    the reasons, the error is raised, and no receipt, settlement, wallet or chain changes. *)
Theorem run_settles_iff_eligible tk payout_id ra payload url sj j response snapshot st a :
  let audit := run_audit np payload j (sj_execution_model_id sj) (ra_network_audit ra) in
  build_participant_eligibility_audit np age_seconds (participant_node_ids (Some snapshot))
    (ra_state_payload ra) (jb_model_id j) (sj_execution_model_id sj) audit (ra_require_verified ra)
    (ra_capability_records ra) (ra_verified_node_ids ra) 300 = Ok a →
  job_stored j st →
  (can_settle a = true
   ↔ (∀ i, i ∈ ea_participants a → may_work np age_seconds (ea_checked_model_ids a) 300 i)
     ∧ ea_route_reachable a ≠ Some false
     ∧ (compute_cell_reasons audit).1 = []
     ∧ (strategy_flag audit "requiresCaiOwnedTransport" = true →
        strategy_flag audit "caiOwnedTransportExecuted" = true))
  ∧ (can_settle a = false →
     ∃ st' m, settle_run env wallet_policy is_today ip_address ip_network lottery_key keys_of material
                age_seconds mp np tk payout_id ra payload url sj j response snapshot st
              = (st', Err (OtherError "RuntimeError" m))
       ∧ job_put (with_job_status j "failed" (Some m)) st st').
Proof.
  intros audit Ha Hstored. split; [by eapply can_settle_iff|]. intros Hno.
  set (m := "Cannot settle execution reward: worker participant eligibility failed: "
            +:+ join "; " (ea_fatal_reasons a)).
  destruct (update_job_intent_put (with_job_status j "failed" (Some m)) st Hstored) as (st' & Hu & Hput).
  exists st', m. split; [|exact Hput]. unfold settle_run, price_run. fold audit. rewrite !JM_bind_eq.
  unfold jlift at 1. rewrite Ha, Hno. cbn [negb]. unfold fail_job. fold m. by rewrite JM_bind_eq, Hu.
Qed.
End run.
