(* ===== verification/JobWitness.v ===== *)
(** * Witnesses for jobs

    A job that is created with an automatic price, runs on a second attempt after the first
    timed out, and is settled for the tokens it used. *)
From Stdlib Require Import Ascii QArith.
From S2P Require Import Prelude.
From S2P Require Import PyStr.
From S2P Require Import PyVal.
From S2P Require Import Money.
From S2P Require Import Signing.
From S2P Require Import ChainTx.
From S2P Require Import Ledger.
From S2P Require Import ChainStore.
From S2P Require Import ChainOps.
From S2P Require Import Apportion.
From S2P Require Import SettlementData.
From S2P Require Import Funding.
From S2P Require Import Validators.
From S2P Require Import Settlement.
From S2P Require Import Demo.
From S2P Require Import ChainSyncProps.
From S2P Require Import FundingProps.
From S2P Require Import Payouts.
From S2P Require Import PayoutProps.
From S2P Require Import Envelope.
From S2P Require Import PayoutWitness.
From S2P Require Import Pricing.
From S2P Require Import Eligibility.
From S2P Require Import Jobs.
From S2P Require Import JobExecution.
From S2P Require Import JobProps.
From S2P Require Import JobRunProps.
From S2P Require Import JobPriceProps.
Import Signing.Transparent.
Local Open Scope Z_scope.
Set Default Proof Using "Type".

(** ** Creating a job *)

Definition run_policy : NetworkModelPolicy := default_network_model_policy no_env.

Definition run_files : JobStore := {|
  js_pay := {| py_settlement := {| s_chain := empty_store; s_settlements := []; s_payouts := [];
                                   s_attestations := []; s_validators := []; s_rewards := ∅ |};
               py_wallets := [demo_wallet]; py_journal := []; py_ledger := demo_ledger |};
  js_jobs := []; js_receipts := [] |}.

Definition run_request : JobRequest := {|
  rq_prompt := "Why is the sky blue?"; rq_compute_amount_coins := None;
  rq_payment_preference := AUTO; rq_cai_url := Some "http://127.0.0.1:52415/";
  rq_execution_cai_url := None; rq_model_id := None; rq_requester_node_id := Some "n0";
  rq_request_payload_preview := VDict [("max_tokens", VInt 300)]; rq_reserve_client_ip := None |}.

Definition run_snapshot : NetworkStatePricingSnapshot :=
  {| reachable := true; topology_connections := 2; average_cpu_usage := None |}.

Definition run_tick (i : nat) : Tick := {|
  now := "2026-03-01T00:00:0" +:+ str_of_Z (Z.of_nat i); token := "t" +:+ str_of_Z (Z.of_nat i);
  new_stat := (4096 + Z.of_nat i, Z.of_nat i) |}.

Definition job_created : JobStore * result JobIntent :=
  create_job_intent no_env None (λ _, None) (λ _, None) tick1 mainnet_money run_policy demo_wallet
    run_snapshot run_request run_files.


Definition created_store : JobStore := job_created.1.

Definition no_job : JobIntent := {|
  jb_job_id := ""; jb_created_at := ""; jb_source_wallet_id := ""; jb_source_wallet_address := "";
  jb_model_id := ""; jb_cai_url := ""; jb_prompt := ""; jb_payment_preference := AUTO;
  jb_requested_compute_cost_atomic := 0; jb_execution_cai_url := None; jb_requester_node_id := None;
  jb_pricing_mode := ""; jb_pricing_basis := ""; jb_pricing_reason := None;
  jb_reserved_prompt_tokens := None; jb_reserved_completion_tokens := None;
  jb_pricing_final_multiplier_bps := None; jb_pricing_floor_atomic := None; jb_pricing_cap_atomic := None;
  jb_pricing_input_token_price_atomic := None; jb_pricing_output_token_price_atomic := None;
  jb_reserve_limit_identity_keys := []; jb_reserve_client_ip_hash := None; jb_status := "";
  jb_receipt_id := None; jb_settlement_id := None; jb_last_error := None; jb_execution_attempts := [] |}.

(** The value of a run, [a] when it raised. *)
Definition value_or {A} (a : A) (r : result A) : A := match r with Ok v => v | Err _ => a end.

Definition created : JobIntent := value_or no_job job_created.2.

(** ** Running it: the first attempt times out, the second answers *)

Definition run_instance : InstanceSnapshot := {|
  is_instance_id := "i1"; is_snapshot_source := "state";
  is_participants := [participant "n1" 0 21; participant "n2" 21 32]; is_relay_routes_by_node := VNone |}.

Definition timeout : Failure :=
  {| fl_type := "RuntimeError"; fl_message := "Timed out waiting for CAI instance 'i0'." |}.

Definition silent_attempt : JobAttempt := {|
  at_now := "2026-03-01T00:00:01"; at_begin := 0; at_ready := inr timeout; at_ready_clock := 60;
  at_response := inr timeout; at_end := 60;
  at_failed_snapshot := Some {| is_instance_id := "i0"; is_snapshot_source := "state";
                                is_participants := [participant "n9" 0 32];
                                is_relay_routes_by_node := VNone |} |}.

Definition run_response : pydict :=
  [("id", VStr "r"); ("usage", VDict [("prompt_tokens", VInt 18); ("completion_tokens", VInt 200)])].

Definition answered_attempt : JobAttempt := {|
  at_now := "2026-03-01T00:01:10"; at_begin := 70; at_ready := inl run_instance; at_ready_clock := 75;
  at_response := inl (run_response, run_instance); at_end := 95; at_failed_snapshot := None |}.

Definition run_limits : Limits := {|
  lm_deadline := 1800; lm_attempt_timeout := 600; lm_first_response_timeout := 300; lm_max_attempts := 2 |}.

Definition run_answers : RunAnswers := {|
  ra_state_payload := VDict [("nodeIdentities", VDict
    [("n1", VDict [("workerEnabled", VBool true); ("workerRewardAddress", VStr "CAI_W1")])])];
  ra_network_audit := [("participantCount", VInt 2); ("transportMode", VStr "multi_worker_direct")];
  ra_require_verified := false; ra_capability_records := []; ra_verified_node_ids := ∅;
  ra_summary := λ _, None; ra_bonded := []; ra_sync_audit := None |}.

Definition run_execution : Execution := {|
  en_wallet := Some demo_wallet; en_unlocked_wallet_id := Some "w"; en_local_validator_id := None;
  en_request_payload := VNone; en_limits := run_limits; en_attempts := [silent_attempt; answered_attempt];
  en_answers := run_answers; en_votes := λ _, None; en_ticks := run_tick;
  en_payout_id := λ i, "p" +:+ str_of_Z (Z.of_nat i); en_tail_audit := λ _, VNone;
  en_exception_text := λ _, "" |}.

Definition job_executed : JobStore * result (JobIntent * ExecutionReceipt) :=
  executed no_env None (λ _, true) (λ _, None) (λ _, None) job_lottery
    (λ _, {| wk_signing_scheme := None; wk_address_scheme := None; wk_public_key_b64 := None;
             wk_pq_public_key_b64 := None |})
    (λ _, None) (λ _, None) mainnet_money run_policy run_execution "00" created_store.


Lemma run_value {S A} (x : S * result A) (a : A) :
  is_ok x.2 = true → x = (x.1, Ok (value_or a x.2)).
Proof. by destruct x as [s [v|e]]. Qed.

Lemma created_ok : job_created = (created_store, Ok created).
Proof. refine (run_value job_created no_job _). vm_compute. reflexivity. Qed.

Lemma created_stored : job_view created_store "00" = Some created.
Proof. vm_compute. reflexivity. Qed.

Lemma created_id : jb_job_id created = "00".
Proof. vm_compute. reflexivity. Qed.

Lemma created_job_stored : job_stored created created_store.
Proof. exists created. split; [|reflexivity]. rewrite created_id. exact created_stored. Qed.

Lemma attempts_recorded_witness :
  ∃ s' r, attempt_loop run_limits [silent_attempt; answered_attempt] 1 2 [] created created_store = (s', r)
        ∧ loop_outcome [silent_attempt; answered_attempt] 1 [] created 2 created_store s' r.
Proof.
  apply (attempts_recorded run_limits [silent_attempt; answered_attempt] created created_store).
  - vm_compute. lia.
  - exact created_job_stored.
Defined.

Lemma sane_mainnet : sane_rates mainnet_money.
Proof. repeat split; apply Z.leb_le; vm_compute; reflexivity. Qed.

Strategy expand [job_executed job_created created_store].

Definition no_execution : JobIntent * ExecutionReceipt :=
  (no_job, run_receipt tick1 no_job "" "" "" [] [] no_decision false (None, None, None) []).

Definition executed_value : JobIntent * ExecutionReceipt :=
  value_or no_execution job_executed.2.

Lemma run_pair {S A B} (x : S * result (A * B)) (a : A * B) :
  is_ok x.2 = true →
  x = (x.1, Ok ((value_or a x.2).1, (value_or a x.2).2)).
Proof. by destruct x as [s [[v w]|e]]. Qed.

Lemma executed_ok : job_executed = (job_executed.1, Ok (executed_value.1, executed_value.2)).
Proof. refine (run_pair job_executed no_execution _). vm_compute. reflexivity. Qed.

Lemma run_nodes : NoDup (map pa_node_id (is_participants run_instance)).
Proof. apply (bool_decide_eq_true_1 _). vm_compute. reflexivity. Qed.

Lemma created_prices : prices_nonneg created.
Proof.
  split; [apply Z.leb_le; vm_compute; reflexivity|]. intros _. exists 100000, 500000.
  split_and!; try (vm_compute; reflexivity); apply Z.leb_le; vm_compute; reflexivity.
Qed.

Lemma created_empty :
  js_receipts created_store = [] ∧ settlements_of created_store = [] ∧ payouts_in created_store = [].
Proof. vm_compute. done. Qed.

Lemma run_tokens : fresh_tokens run_execution created_store.
Proof.
  destruct created_empty as (Hr & Hs & Hp). unfold fresh_tokens. rewrite Hr, Hs, Hp.
  clear. split; [apply not_elem_of_nil|]. split; [apply not_elem_of_nil|].
  intros p Hp'. exfalso. exact (not_elem_of_nil _ Hp').
Qed.


(** ** The prices of that job *)

Lemma sane_mainnet_prices : sane_prices mainnet_money.
Proof.
  assert (∀ (r : result Z) (z : Z), r = Ok z → ∀ p, r = Ok p → p = z) as Hdet by (intros r z ->; by intros p [= ->]).
  split; [|split].
  - intros f c Hf Hc. rewrite (Hdet (pricing_floor_atomic mainnet_money) 100000 eq_refl f Hf).
    rewrite (Hdet (pricing_cap_atomic mainnet_money) 500000 eq_refl c Hc). done.
  - intros p Hp. rewrite (Hdet _ 300 eq_refl p Hp). done.
  - intros p Hp. rewrite (Hdet _ 600 eq_refl p Hp). done.
Qed.

Lemma reservation_covers_usage_witness :
  covered mainnet_money run_request created
    {| us_prompt_tokens := 18; us_completion_tokens := 200; us_total_tokens := 218 |}.
Proof.
  apply (reservation_covers_usage no_env None (λ _, None) (λ _, None) tick1 mainnet_money run_policy demo_wallet
    run_snapshot run_request run_files created_store created).
  - exact sane_mainnet_prices.
  - exact created_ok.
Defined.

(** ** The owned transport *)

(** A completed receipt of a node with the token counts of the stream. *)
Definition shard_receipt (node : string) : pyval :=
  VDict [("nodeId", VStr node); ("status", VStr "completed"); ("layerStart", VInt 0); ("layerEnd", VInt 8);
         ("metrics", VDict [("promptTokenCount", VInt 18); ("completionTokenCount", VInt 200)])].

Definition shard_receipts : list pyval := [shard_receipt "n1"; shard_receipt "n2"].

Definition proof_audit_payload : pydict :=
  [("caiOwnedTransportExecuted", VBool true);
   ("caiOwnedTransportExecutionProof", VDict [("shardReceipts", VList shard_receipts)])].

Definition shard_usages : list ExecutorUsage := value_or [] (executor_usages shard_receipts).

Lemma pipeline_tokens_counted_once_witness :
  ∃ a, extract_cai_owned_transport_token_usage proof_audit_payload
       = Ok (Some ({| us_prompt_tokens := 18; us_completion_tokens := 200; us_total_tokens := 18 + 200 |}, a)).
Proof.
  destruct (pipeline_tokens_counted_once proof_audit_payload [("shardReceipts", VList shard_receipts)]
    shard_receipts shard_usages 18 200 None) as (a & Ha & _).
  - reflexivity.
  - reflexivity.
  - reflexivity.
  - vm_compute. reflexivity.
  - vm_compute. discriminate.
  - repeat constructor.
  - exists a. exact Ha.
Defined.

Lemma proof_decides_payees_witness :
  let '(paid, _) := settlement_participants_for_reward
                      [participant "n1" 0 8; participant "n2" 8 16; participant "n3" 16 24] proof_audit_payload in
  NoDup (map pa_node_id paid) ∧ ∀ n, n ∈ map pa_node_id paid ↔ n ∈ completed_nodes shard_receipts.
Proof.
  pose proof (proof_decides_payees [participant "n1" 0 8; participant "n2" 8 16; participant "n3" 16 24]
    proof_audit_payload [("shardReceipts", VList shard_receipts)] shard_receipts) as Hp.
  destruct (settlement_participants_for_reward _ proof_audit_payload) as [paid audit'].
  destruct Hp as (Hnd & Hpaid & _); [reflexivity|reflexivity|reflexivity|discriminate|].
  split; [exact Hnd|exact Hpaid].
Defined.

(** ** Eligibility and repair *)

Definition started : JobStore * result StartedJob :=
  start_job no_env None (λ _, true) (λ _, None) (λ _, None) mainnet_money run_policy (run_tick 0)
    (Some demo_wallet) (Some "w") VNone "00" created_store.

Definition no_start : StartedJob := {|
  sj_job := no_job; sj_funding_wallet := demo_wallet; sj_ledger := demo_ledger; sj_decision := no_decision;
  sj_execution_model_id := "" |}.

Definition start_value : StartedJob := value_or no_start started.2.

(** The job of the run, stored without attempts. *)
Definition running_job : JobIntent := sj_job start_value.

Definition run_eligibility (answers : RunAnswers) : result EligibilityAudit :=
  build_participant_eligibility_audit run_policy (λ _, None) (participant_node_ids (Some run_instance))
    (ra_state_payload answers) (jb_model_id running_job) (sj_execution_model_id start_value)
    (run_audit run_policy VNone running_job (sj_execution_model_id start_value) (ra_network_audit answers))
    (ra_require_verified answers) (ra_capability_records answers) (ra_verified_node_ids answers) 300.

(** The answers when the second node has switched its worker off. *)
Definition disabled_answers : RunAnswers := {|
  ra_state_payload := VDict [("nodeIdentities", VDict [("n2", VDict [("workerEnabled", VBool false)])])];
  ra_network_audit := ra_network_audit run_answers; ra_require_verified := false;
  ra_capability_records := []; ra_verified_node_ids := ∅; ra_summary := λ _, None; ra_bonded := [];
  ra_sync_audit := None |}.

Definition no_eligibility : EligibilityAudit := {|
  ea_participant_node_ids := []; ea_checked_model_ids := ∅; ea_route_reachable := None;
  ea_fatal_reasons := []; ea_warnings := []; ea_participants := [] |}.

Definition disabled_audit : EligibilityAudit := value_or no_eligibility (run_eligibility disabled_answers).

Strategy expand [started start_value running_job run_eligibility disabled_audit].

Lemma value_of {A} (r : result A) (a : A) : is_ok r = true → r = Ok (value_or a r).
Proof. by destruct r. Qed.

Lemma disabled_built : run_eligibility disabled_answers = Ok disabled_audit.
Proof. refine (value_of (run_eligibility disabled_answers) no_eligibility _). vm_compute. reflexivity. Qed.

Lemma running_stored : job_view started.1 (jb_job_id running_job) = Some running_job.
Proof. vm_compute. reflexivity. Qed.

Lemma run_settles_iff_eligible_witness :
  can_settle disabled_audit = false
  ∧ ∃ st' m, settle_run no_env None (λ _, true) (λ _, None) (λ _, None) job_lottery
      (λ _, {| wk_signing_scheme := None; wk_address_scheme := None; wk_public_key_b64 := None;
               wk_pq_public_key_b64 := None |})
      (λ _, None) (λ _, None) mainnet_money run_policy (ticks_from run_tick 1) (λ _, "") disabled_answers VNone ""
      start_value running_job run_response run_instance started.1 = (st', Err (OtherError "RuntimeError" m)).
Proof.
  assert (can_settle disabled_audit = false) as Hno by (vm_compute; reflexivity).
  split; [exact Hno|].
  destruct (run_settles_iff_eligible no_env None (λ _, true) (λ _, None) (λ _, None) job_lottery
    (λ _, {| wk_signing_scheme := None; wk_address_scheme := None; wk_public_key_b64 := None;
             wk_pq_public_key_b64 := None |})
    (λ _, None) (λ _, None) mainnet_money run_policy (ticks_from run_tick 1) (λ _, "") disabled_answers VNone ""
    start_value running_job run_response run_instance started.1 disabled_audit) as [_ Hfail].
  - exact disabled_built.
  - exists running_job. split; [exact running_stored|reflexivity].
  - destruct (Hfail Hno) as (st' & m & Hrun & _). exists st', m. exact Hrun.
Defined.

(** The job runs its one attempt, is settled, and stops before it is marked completed. *)
Definition attempted : JobStore * result (JobIntent * (pydict * InstanceSnapshot)) :=
  attempt_loop run_limits [answered_attempt] 1 1 [] running_job started.1.

Definition no_attempt : JobIntent * (pydict * InstanceSnapshot) := (no_job, ([], run_instance)).
Definition attempted_job : JobIntent := (value_or no_attempt attempted.2).1.

Definition settled : JobStore * result SettledRun :=
  settle_run no_env None (λ _, true) (λ _, None) (λ _, None) job_lottery
    (λ _, {| wk_signing_scheme := None; wk_address_scheme := None; wk_public_key_b64 := None;
             wk_pq_public_key_b64 := None |})
    (λ _, None) (λ _, None) mainnet_money run_policy (ticks_from run_tick 1) job_id run_answers VNone ""
    start_value attempted_job run_response run_instance attempted.1.

Definition no_settlement : SettledRun := {|
  se_receipt := no_execution.2; se_settlement := job_settlement; se_decision := no_decision; se_audit := [] |}.

Definition settled_value : SettledRun := value_or no_settlement settled.2.

Strategy expand [attempted attempted_job settled settled_value].

Lemma settled_ok : settled = (settled.1, Ok settled_value).
Proof. refine (run_value settled no_settlement _). vm_compute. reflexivity. Qed.

Lemma attempted_store_empty :
  js_receipts attempted.1 = [] ∧ settlements_of attempted.1 = [] ∧ payouts_in attempted.1 = [].
Proof. vm_compute. done. Qed.

Lemma attempted_stored : job_view attempted.1 (jb_job_id attempted_job) = Some attempted_job.
Proof. vm_compute. reflexivity. Qed.

Lemma attempted_state :
  jb_status attempted_job = "running" ∧ jb_receipt_id attempted_job = None ∧ jb_settlement_id attempted_job = None
  ∧ strip (jb_job_id attempted_job) ≠ "".
Proof. vm_compute. done. Qed.

Lemma attempted_prices : prices_nonneg attempted_job.
Proof.
  split; [apply Z.leb_le; vm_compute; reflexivity|]. intros _. exists 100000, 500000.
  split_and!; try (vm_compute; reflexivity); apply Z.leb_le; vm_compute; reflexivity.
Qed.

Lemma attempted_funded : decision_funds mainnet_money attempted_job start_value.
Proof. vm_compute. reflexivity. Qed.

(** The votes: nobody answers. *)
Definition voted : JobStore * result Z :=
  on_pay (request_remote_committee_attestations no_env None run_tick (sr_settlement_id (se_settlement settled_value))
            "" None (λ _, None)) settled.1.

Strategy expand [voted].

Lemma interrupted_job_repaired_witness :
  ∃ st3 n, reconcile_stale_running_job_intents no_env (λ _, None) None voted.1 = (st3, Ok n)
    ∧ jb_status <$> job_view st3 (jb_job_id attempted_job) = Some "completed".
Proof.
  destruct attempted_store_empty as (Hr & Hs & Hp). destruct attempted_state as (Hstatus & Hnor & Hnos & Hid).
  destruct (interrupted_job_repaired no_env None (λ _, true) (λ _, None) (λ _, None) job_lottery
    (λ _, {| wk_signing_scheme := None; wk_address_scheme := None; wk_public_key_b64 := None;
             wk_pq_public_key_b64 := None |})
    (λ _, None) (λ _, None) mainnet_money run_policy (ticks_from run_tick 1) job_id run_answers VNone ""
    start_value attempted_job run_response run_instance attempted.1 settled.1 settled_value
    run_tick "" None (λ _, None) voted.1 voted.2 no_env (λ _, None) None) as (st3 & n & Hrun & _ & _ & Hview).
  - exact attempted_funded.
  - exact attempted_prices.
  - exact sane_mainnet.
  - exact run_nodes.
  - rewrite Hs. constructor.
  - rewrite Hs. apply not_elem_of_nil.
  - rewrite Hp. intros p Hin. exfalso. exact (not_elem_of_nil _ Hin).
  - exact attempted_stored.
  - exact Hid.
  - exact Hstatus.
  - exact Hnor.
  - exact Hnos.
  - rewrite Hr. intros x Hin. exfalso. exact (not_elem_of_nil _ Hin).
  - rewrite Hs. intros x Hin. exfalso. exact (not_elem_of_nil _ Hin).
  - exact settled_ok.
  - exact (surjective_pairing voted).
  - exists st3, n. split; [exact Hrun|]. rewrite Hview. reflexivity.
Defined.
