(* ===== verification/Transport.v ===== *)
(** * The owned transport: sessions

    [cai_owned_transport_common.py], [cai_owned_transport_ids.py],
    [cai_owned_transport_storage.py] and, of [decentralized_compute.py], how sessions are created:
    the store with the file of the sessions, the payload files and the replay cache, the checks
    that a validator makes, and the records of batches.

    Times are microseconds; [datetime.isoformat] and [datetime.fromisoformat] are parameters.
    Durations are whole seconds and JSON numbers integers. *)
From Stdlib Require Import Ascii.
From S2P Require Import Prelude.
From S2P Require Import PyStr.
From S2P Require Import PyVal.
From S2P Require Import Sha256.
From S2P Require Import PyOrder.
From S2P Require Import Money.
From S2P Require Import ChainTx.
From S2P Require Import SettlementData.
Local Open Scope Z_scope.
Set Default Proof Using "Type".

(** ** Protocol *)

Definition CAI_OWNED_TRANSPORT_PROTOCOL : string := "cai-owned-llm-shard-transport".
Definition CAI_OWNED_TRANSPORT_PROTOCOL_VERSION : Z := 1.
Definition CAI_OWNED_TRANSPORT_HASH_CHAIN_SCHEMA_VERSION : Z := 1.
Definition CAI_OWNED_TRANSPORT_BATCH_PHASES : list string :=
  ["prefill_activation_batches"; "decode_activation_batches"].
Definition CAI_OWNED_TRANSPORT_DEFAULT_BATCH_LEASE_SECONDS : Z := 60.
Definition CAI_OWNED_TRANSPORT_DEFAULT_BATCH_CLAIM_TIMEOUT_SECONDS : Z := 120.
Definition CAI_OWNED_TRANSPORT_DEFAULT_MAX_BATCH_ATTEMPTS : Z := 3.
Definition CAI_OWNED_TRANSPORT_REPLAY_CACHE_RETENTION_SECONDS : Z := 24 * 60 * 60.

(** ** Common functions *)

(** The items of a sequence given as a JSON value. *)
Definition clean_node_ids (node_ids : list pyval) : list string :=
  dedup_keep_first []
    (List.filter (λ n, negb (String.eqb n "")) (map str_or_strip node_ids)).

Definition clean_ids (node_ids : list string) : list string := clean_node_ids (map VStr node_ids).

Definition safe_id_char (c : ascii) : bool :=
  let n := code c in
  (48 <=? n) && (n <=? 57) || (65 <=? n) && (n <=? 90) || (97 <=? n) && (n <=? 122)
  || (n =? 95) || (n =? 45).

Definition is_safe_transport_file_id (value : pyval) (prefix : string) : bool :=
  let clean := str_or_strip value in
  negb (String.eqb clean "") && startswith prefix clean && all_chars safe_id_char clean.

Definition require_safe_transport_file_id (value : pyval) (prefix : string) : result string :=
  if is_safe_transport_file_id value prefix then Ok (str_or_strip value)
  else Err (ValueError "CAI-owned transport storage id is invalid.").

Definition hex_char (c : ascii) : bool :=
  let n := code c in (48 <=? n) && (n <=? 57) || (97 <=? n) && (n <=? 102).

Definition normalize_sha256_hex (value : pyval) (field_name : string) : result string :=
  let clean := lower (str_or_strip value) in
  if (String.length clean =? 64)%nat && all_chars hex_char clean then Ok clean
  else Err (ValueError ("CAI-owned transport " +:+ field_name +:+ " must be sha256 hex.")).

Definition optional_sha256_hex (value : pyval) (field_name : string) : result (option string) :=
  if String.eqb (str_or_strip value) "" then Ok None
  else h ← normalize_sha256_hex value field_name; Ok (Some h).

(** [int(v)] with [None], [TypeError] and [ValueError] giving [None]. *)
Definition optional_int (v : pyval) : option Z :=
  match v with
  | VNone => None
  | _ => match py_int v with Ok z => Some z | Err _ => None end
  end.

(** [json.loads(json.dumps(value, sort_keys=True))] *)
Fixpoint jsonable (v : pyval) : pyval :=
  match v with
  | VList l => VList (map jsonable l)
  | VDict d => VDict (py_sorted key_leb (map (λ kv, (kv.1, jsonable kv.2)) d))
  | _ => v
  end.

Definition jsonable_dict (d : pydict) : pyval := jsonable (VDict d).

(** [str(chain_id or "").strip().lower()], else the policy's network. *)
Definition cai_owned_transport_chain_id (network : string) (chain_id : option string) : string :=
  or_str (lower (strip (default "" chain_id))) network.

Definition payload_chain_id (payload : pydict) : string :=
  lower (str_or_strip (py_or (dget "chainId" payload) (dget "chain_id" payload))).

Definition payload_network (payload : pydict) : string := lower (str_or_strip (dget "network" payload)).

Definition cai_owned_transport_payload_chain_id (payload : pydict) : string :=
  or_str (payload_chain_id payload) (payload_network payload).

(** The chain id of the payload, or the error. *)
Definition validate_cai_owned_transport_chain_id (payload : pydict)
    (expected_chain_id payload_name : string) : string + string :=
  let chain_id := payload_chain_id payload in
  let network := payload_network payload in
  if negb (String.eqb chain_id "") && negb (String.eqb network "") && negb (String.eqb chain_id network)
  then inr ("CAI-owned transport " +:+ payload_name +:+ " has mismatched chain id '" +:+ chain_id
            +:+ "' and network '" +:+ network +:+ "'.")
  else
    let incoming := or_str chain_id network in
    if String.eqb incoming "" then
      inr ("CAI-owned transport " +:+ payload_name +:+ " chain id is missing.")
    else
      let expected := lower (strip expected_chain_id) in
      if negb (String.eqb expected "") && negb (String.eqb incoming expected)
      then inr ("CAI-owned transport " +:+ payload_name +:+ " is for chain '" +:+ incoming
                +:+ "', expected '" +:+ expected +:+ "'.")
      else inl incoming.

(** The error of a batch that is recorded again, if any. *)
Definition validate_cai_owned_transport_batch_replay (existing_batch : pydict)
    (phase source_node_id sink_node_id : string) (payload_sha256_hex : option string) : option string :=
  let differs k v := negb (String.eqb (str_or_strip (dget k existing_batch)) (strip v)) in
  let message what := Some ("CAI-owned transport batch replay " +:+ what +:+ " does not match.") in
  if differs "phase" phase then message "phase"
  else if differs "sourceNodeId" source_node_id then message "source node"
  else if differs "sinkNodeId" sink_node_id then message "sink node"
  else if negb (String.eqb (lower (str_or_strip (dget "payloadSha256Hex" existing_batch)))
                  (lower (strip (default "" payload_sha256_hex))))
  then message "payload hash"
  else None.

(** [cai_owned_transport_ids.py] *)
Definition cai_owned_transport_batch_id (session_id phase source_node_id sink_node_id : string)
    (sequence : Z) (payload_sha256_hex : string) : string :=
  let fingerprint :=
    canonical (VDict
      [("payloadSha256Hex", VStr (lower (strip payload_sha256_hex))); ("phase", VStr (strip phase));
       ("sequence", VInt (Z.max 0 sequence)); ("sessionId", VStr (strip session_id));
       ("sinkNodeId", VStr (strip sink_node_id)); ("sourceNodeId", VStr (strip source_node_id))]) in
  "caibatch_" +:+ take_str 24 (sha256_hexdigest fingerprint).

Definition cai_owned_transport_stage_id (session_id phase : string) (sequence : Z)
    (executor_node_id : string) (layer_start layer_end : Z) : string :=
  let fingerprint :=
    canonical (VDict
      [("executorNodeId", VStr (strip executor_node_id)); ("layerEnd", VInt layer_end);
       ("layerStart", VInt layer_start); ("phase", VStr (strip phase));
       ("protocol", VStr CAI_OWNED_TRANSPORT_PROTOCOL);
       ("protocolVersion", VInt CAI_OWNED_TRANSPORT_PROTOCOL_VERSION);
       ("sequence", VInt (Z.max 0 sequence)); ("sessionId", VStr (strip session_id))]) in
  "caistage_" +:+ take_str 24 (sha256_hexdigest fingerprint).

Definition cai_owned_transport_dag_hash (dag : pydict) : string :=
  sha256_hexdigest (canonical (VDict (dpop "dagHashSha256Hex" dag))).

(** ** Sessions *)

Record TransportSession := {
  ts_session_id : string;
  ts_instance_id : string;
  ts_participant_node_ids : list string;
  ts_status : string;
  ts_created_at : string;
  ts_updated_at : string;
  ts_executor_node_ids : list string;
  ts_chain_id : option string;
  ts_model_id : option string;
  ts_task_id : option string;
  ts_source_node_id : option string;
  ts_execution_mode : option string;
  ts_route_policy : pydict;
  ts_dispatch_records : list pydict;
  ts_batch_records : list pydict;
  ts_shard_receipts : list pydict;
  ts_proof : option pydict;
  ts_completed_at : option string;
  ts_last_error : option string
}.

(** The file of the sessions, the payload files and the replay cache. *)
Record TransportStore := {
  tp_sessions : list TransportSession;
  tp_payloads : gmap string string;
  tp_replays : list pydict
}.

Definition TM (A : Type) : Type := TransportStore → TransportStore * result A.

#[export] Instance TM_ret : MRet TM := fun _ a s => (s, Ok a).
#[export] Instance TM_bind : MBind TM := fun _ _ f m s =>
  match m s with (s', Ok a) => f a s' | (s', Err e) => (s', Err e) end.

Definition tget {A} (f : TransportStore → A) : TM A := λ s, (s, Ok (f s)).
Definition tlift {A} (r : result A) : TM A := λ s, (s, r).

Definition with_sessions (s : TransportStore) (l : list TransportSession) : TransportStore :=
  {| tp_sessions := l; tp_payloads := tp_payloads s; tp_replays := tp_replays s |}.

Definition with_payload (key payload : string) : TM unit := λ s,
  ({| tp_sessions := tp_sessions s; tp_payloads := <[key := payload]> (tp_payloads s);
      tp_replays := tp_replays s |}, Ok tt).

(** [(created_at, session_id)], the greatest first. *)
Definition session_leb (x y : TransportSession) : bool :=
  if String.eqb (ts_created_at x) (ts_created_at y)
  then str_leb (ts_session_id y) (ts_session_id x)
  else str_leb (ts_created_at y) (ts_created_at x).

Definition list_cai_owned_transport_sessions (file : list TransportSession) : list TransportSession :=
  py_sorted session_leb file.

Definition has_id (session_id : string) (r : TransportSession) : bool :=
  String.eqb (ts_session_id r) session_id.

Definition cai_owned_transport_session_record (session_id : string) (file : list TransportSession)
  : option TransportSession :=
  List.find (has_id (strip session_id)) (list_cai_owned_transport_sessions file).

Fixpoint put_session (r : TransportSession) (l : list TransportSession) : list TransportSession :=
  match l with
  | [] => []
  | x :: l' => if has_id (ts_session_id r) x then r :: l' else x :: put_session r l'
  end.

Definition session_not_found (session_id : string) : exn :=
  ValueError ("CAI-owned transport session '" +:+ session_id +:+ "' not found.").

(** The operations read the file, work on the session with the id and write the file when they
    change it; [f] gives the changed session and the result. *)
Definition on_session {A} (session_id : string)
    (f : TransportSession → option TransportSession * result A) : TM A := λ s,
  let records := list_cai_owned_transport_sessions (tp_sessions s) in
  match List.find (has_id (strip session_id)) records with
  | None => (s, Err (session_not_found (strip session_id)))
  | Some r =>
      match f r with
      | (Some r', a) => (with_sessions s (put_session r' records), a)
      | (None, a) => (s, a)
      end
  end.

(** A change that is saved unless it raises; the changed session is returned. *)
Definition change_session (session_id : string) (f : TransportSession → result TransportSession)
  : TM TransportSession :=
  on_session session_id (λ r, match f r with Ok r' => (Some r', Ok r') | Err e => (None, Err e) end).

(** The executors, the participants when there are none. *)
Definition executors_of (r : TransportSession) : list string :=
  match ts_executor_node_ids r with [] => ts_participant_node_ids r | l => l end.

Definition opt_text (v : pyval) : option string :=
  let s := str_or_strip v in if String.eqb s "" then None else Some s.

Definition with_outcome (r : TransportSession) (status updated_at : string)
    (last_error : option string) : TransportSession := {|
  ts_session_id := ts_session_id r; ts_instance_id := ts_instance_id r;
  ts_participant_node_ids := ts_participant_node_ids r; ts_status := status;
  ts_created_at := ts_created_at r; ts_updated_at := updated_at;
  ts_executor_node_ids := ts_executor_node_ids r; ts_chain_id := ts_chain_id r;
  ts_model_id := ts_model_id r; ts_task_id := ts_task_id r;
  ts_source_node_id := ts_source_node_id r; ts_execution_mode := ts_execution_mode r;
  ts_route_policy := ts_route_policy r; ts_dispatch_records := ts_dispatch_records r;
  ts_batch_records := ts_batch_records r; ts_shard_receipts := ts_shard_receipts r;
  ts_proof := ts_proof r; ts_completed_at := ts_completed_at r; ts_last_error := last_error |}.

(** The session with other records. *)
Definition with_records (r : TransportSession) (batches receipts : list pydict) : TransportSession := {|
  ts_session_id := ts_session_id r; ts_instance_id := ts_instance_id r;
  ts_participant_node_ids := ts_participant_node_ids r; ts_status := ts_status r;
  ts_created_at := ts_created_at r; ts_updated_at := ts_updated_at r;
  ts_executor_node_ids := ts_executor_node_ids r; ts_chain_id := ts_chain_id r;
  ts_model_id := ts_model_id r; ts_task_id := ts_task_id r;
  ts_source_node_id := ts_source_node_id r; ts_execution_mode := ts_execution_mode r;
  ts_route_policy := ts_route_policy r; ts_dispatch_records := ts_dispatch_records r;
  ts_batch_records := batches; ts_shard_receipts := receipts; ts_proof := ts_proof r;
  ts_completed_at := ts_completed_at r; ts_last_error := ts_last_error r |}.

(** A session that was only created is running once it has records. *)
Definition started_status (r : TransportSession) : string :=
  if String.eqb (ts_status r) "created" then "running" else ts_status r.

Definition require_session_participant (r : TransportSession) (node_id : string) : result string :=
  let clean := strip node_id in
  if String.eqb clean "" then
    Err (ValueError "CAI-owned transport participant node id is required.")
  else if bool_decide (clean ∈ ts_participant_node_ids r) then Ok clean
  else Err (ValueError ("Node '" +:+ clean +:+ "' is not part of CAI-owned transport session '"
                        +:+ ts_session_id r +:+ "'.")).

(** [str(batch.get(k) or "").strip()] *)
Definition batch_text (k : string) (b : pydict) : string := str_or_strip (dget k b).

(** [str(batch.get("status") or "recorded").strip()] *)
Definition batch_status (b : pydict) : string :=
  strip (py_str (py_or (dget "status" b) (VStr "recorded"))).

Definition has_batch_id (batch_id : string) (b : pydict) : bool :=
  String.eqb (batch_text "batchId" b) batch_id.

(** [{**d, **items}] *)
Definition dupdate (d items : pydict) : pydict := foldl (λ d kv, dset kv.1 kv.2 d) d items.

(** The first batch with the id is replaced; the error is raised when there is none. *)
Fixpoint change_batch {A} (missing : exn) (batch_id : string) (f : pydict → result (pydict * A))
    (batches : list pydict) : result (list pydict * A) :=
  match batches with
  | [] => Err missing
  | b :: l =>
      if has_batch_id batch_id b then '(b', a) ← f b; Ok (b' :: l, a)
      else '(l', a) ← change_batch missing batch_id f l; Ok (b :: l', a)
  end.

Definition batch_not_found (batch_id session_id : string) : exn :=
  ValueError ("CAI-owned transport batch '" +:+ batch_id +:+ "' not found in session '"
              +:+ session_id +:+ "'.").

Definition not_local : exn := ValueError "CAI-owned transport batch is not assigned to local node.".

(** [int(v or 0)], zero when it is not a number *)
Definition count_of (v : pyval) : Z := match py_int (py_or v (VInt 0)) with Ok z => z | Err _ => 0 end.

Definition find_batch (batch_id : string) (r : TransportSession) : option pydict :=
  List.find (has_batch_id (strip batch_id)) (ts_batch_records r).

(** [_cai_owned_transport_batch_record] *)
Definition batch_record (session_id batch_id : string) (s : TransportStore) : option pydict :=
  r ← cai_owned_transport_session_record session_id (tp_sessions s); find_batch batch_id r.

(** [batch["metadata"]] when it is a dictionary *)
Definition metadata_of (b : pydict) : pydict := default [] (as_dict (dget "metadata" b)).

(** The sequence number of the batch, or of its metadata. *)
Definition batch_sequence (b : pydict) : option Z :=
  match optional_int (dget "sequence" b) with
  | Some z => Some z
  | None => optional_int (dget "sequence" (metadata_of b))
  end.

(** [batch["previousBatchId"]], or that of its metadata *)
Definition previous_batch (b : pydict) : string :=
  or_str (batch_text "previousBatchId" b) (batch_text "previousBatchId" (metadata_of b)).

(** [isinstance(values, Sequence)] and the like: the values of a field that may be missing, a
    text or a list. *)
Definition cai_owned_transport_receipt_values (values : pyval) : list pyval :=
  match values with
  | VStr _ => [values]
  | VList l => l
  | _ => []
  end.

(** The values without repetition, in the order of their first appearance. *)
Definition append_new {A} `{EqDecision A} (l : list A) (x : A) : list A :=
  if bool_decide (x ∈ l) then l else l ++ [x].

(** ** Checks *)

(** A validator accepts, gives the error it answers with, or raises. *)
Inductive verdict (A : Type) : Type :=
| Accepts (a : A)
| Refuses (message : string)
| Raises (e : exn).
Arguments Accepts {A} _.
Arguments Refuses {A} _.
Arguments Raises {A} _.

#[export] Instance verdict_ret : MRet verdict := @Accepts.
#[export] Instance verdict_bind : MBind verdict := fun _ _ f m =>
  match m with Accepts a => f a | Refuses message => Refuses message | Raises e => Raises e end.

(** [if not b: return False, message] *)
Definition check (b : bool) (message : string) : verdict unit :=
  if b then Accepts tt else Refuses message.

(** A call that may raise *)
Definition calls {A} (r : result A) : verdict A :=
  match r with Ok a => Accepts a | Err e => Raises e end.

(** A call in a [try] whose handler answers with the error of the exception. *)
Definition tries {A} (r : result A) (message : exn → string) : verdict A :=
  match r with Ok a => Accepts a | Err e => Refuses (message e) end.

Definition is_accepted {A} (v : verdict A) : bool := match v with Accepts _ => true | _ => false end.

(** The chain id check as a verdict. *)
Definition check_chain_id (payload : pydict) (expected_chain_id payload_name : string) : verdict string :=
  match validate_cai_owned_transport_chain_id payload expected_chain_id payload_name with
  | inl chain_id => Accepts chain_id
  | inr message => Refuses message
  end.

(** [str(exc)] *)
Definition exn_text (e : exn) : string :=
  match e with ValueError m => m | OtherError _ m => m | KeyError k => repr_str k | _ => "" end.

(** [set(l1) <= set(l2)] and [set(l1) == set(l2)] *)
Definition subset_of (l1 l2 : list string) : bool := forallb (λ x, bool_decide (x ∈ l2)) l1.
Definition same_set (l1 l2 : list string) : bool := subset_of l1 l2 && subset_of l2 l1.

(** [v == w]: the order of the keys of a dictionary does not count, [True] is one. *)
Fixpoint py_eqb (v w : pyval) {struct v} : bool :=
  match v, w with
  | VNone, VNone => true
  | VBool b, VBool c => Bool.eqb b c
  | VBool b, VInt y => (if b then 1 else 0) =? y
  | VInt x, VBool c => x =? (if c then 1 else 0)
  | VInt x, VInt y => x =? y
  | VStr s, VStr t => String.eqb s t
  | VList l, VList m =>
      (fix go (l m : list pyval) : bool :=
         match l, m with
         | [], [] => true
         | x :: l', y :: m' => py_eqb x y && go l' m'
         | _, _ => false
         end) l m
  | VDict d, VDict e =>
      (length d =? length e)%nat
      && (fix go (d : list (string * pyval)) : bool :=
            match d with
            | [] => true
            | (k, x) :: d' => match dlookup k e with Some y => py_eqb x y | None => false end && go d'
            end) d
  | _, _ => false
  end.

(** [[str(x).strip() ...]] of a list field given as a JSON value; a text gives its characters. *)
Definition node_ids_field (v : pyval) : result (list string) :=
  l ← py_list (py_or v (VList [])); Ok (clean_node_ids l).

(** ** Checks that keep a record of what they accept *)

Definition VM (A : Type) : Type := TransportStore → TransportStore * verdict A.

#[export] Instance VM_ret : MRet VM := fun _ a s => (s, Accepts a).
#[export] Instance VM_bind : MBind VM := fun _ _ f m s =>
  match m s with
  | (s', Accepts a) => f a s'
  | (s', Refuses message) => (s', Refuses message)
  | (s', Raises e) => (s', Raises e)
  end.

Definition vlift {A} (v : verdict A) : VM A := λ s, (s, v).

(** [valid, error = validate(...); if not valid: raise ValueError(error)] *)
Definition raise_refusal {A} (m : VM A) : TM A := λ s,
  match m s with
  | (s', Accepts a) => (s', Ok a)
  | (s', Refuses message) => (s', Err (ValueError message))
  | (s', Raises e) => (s', Err e)
  end.

(** [for x in l: check(x)] *)
Fixpoint check_all {A} (f : A → VM unit) (l : list A) : VM unit :=
  match l with [] => mret tt | x :: l' => _ ← f x; check_all f l' end.

Definition with_replays (s : TransportStore) (l : list pydict) : TransportStore :=
  {| tp_sessions := tp_sessions s; tp_payloads := tp_payloads s; tp_replays := l |}.

Fixpoint foldV {A B} (f : B → A → VM B) (b : B) (l : list A) : VM B :=
  match l with [] => mret b | x :: l' => b' ← f b x; foldV f b' l' end.

Definition is_nil {A} (l : list A) : bool := match l with [] => true | _ => false end.

Definition raise_unless (b : bool) (message : string) : result unit :=
  if b then Ok tt else Err (ValueError message).

(** The schema and the protocol a payload says it has. *)
Definition check_protocol (what : string) (payload : pydict) : verdict unit :=
  schema ← calls (int_field "schemaVersion" payload);
  _ ← check (schema =? 1) ("CAI-owned transport " +:+ what +:+ " schema is unsupported.");
  _ ← check (String.eqb (str_or_strip (dget "protocol" payload)) CAI_OWNED_TRANSPORT_PROTOCOL)
        ("CAI-owned transport " +:+ what +:+ " protocol is invalid.");
  version ← calls (int_field "protocolVersion" payload);
  check (version =? CAI_OWNED_TRANSPORT_PROTOCOL_VERSION)
    ("CAI-owned transport " +:+ what +:+ " protocol version is unsupported.").

(** ** New sessions *)

Record SessionRequest := {
  sq_instance_id : string;
  sq_participant_node_ids : list string;
  sq_executor_node_ids : list string;
  sq_session_id : string;
  sq_chain_id : option string;
  sq_model_id : option string;
  sq_task_id : option string;
  sq_source_node_id : string;
  sq_execution_mode : option string;
  sq_route_policy : pydict
}.

Definition or_list {A} (l m : list A) : list A := match l with [] => m | _ => l end.

Definition new_session (now session_id chain_id : string) (participants executors : list string)
    (q : SessionRequest) : TransportSession := {|
  ts_session_id := session_id; ts_instance_id := strip (sq_instance_id q);
  ts_participant_node_ids := participants; ts_status := "created"; ts_created_at := now;
  ts_updated_at := now; ts_executor_node_ids := executors; ts_chain_id := Some chain_id;
  ts_model_id := opt_text (val_opt (sq_model_id q)); ts_task_id := opt_text (val_opt (sq_task_id q));
  ts_source_node_id := Some (or_str (strip (sq_source_node_id q)) (default "" (head participants)));
  ts_execution_mode := opt_text (val_opt (sq_execution_mode q)); ts_route_policy := sq_route_policy q;
  ts_dispatch_records := []; ts_batch_records := []; ts_shard_receipts := []; ts_proof := None;
  ts_completed_at := None; ts_last_error := None |}.

(** A session with the same id is taken for a repetition when it agrees with the request. *)
Definition session_agrees (instance_id chain_id : string) (participants executors : list string)
    (r : TransportSession) : bool :=
  String.eqb (ts_instance_id r) instance_id
  && bool_decide (ts_participant_node_ids r = participants)
  && bool_decide (executors_of r = executors)
  && (String.eqb (default "" (ts_chain_id r)) "" || String.eqb (default "" (ts_chain_id r)) chain_id).

(** [fresh] is the random identifier. *)
Definition create_cai_owned_transport_session (policy_network now fresh : string) (q : SessionRequest)
  : TM TransportSession := λ s,
  let instance_id := strip (sq_instance_id q) in
  let participants := clean_ids (sq_participant_node_ids q) in
  let executors := clean_ids (or_list (sq_executor_node_ids q) participants) in
  let chain_id := cai_owned_transport_chain_id policy_network (sq_chain_id q) in
  match
    _ ← raise_unless (negb (String.eqb instance_id ""))
          "CAI-owned transport session requires an instance id.";
    _ ← raise_unless (negb (is_nil participants))
          "CAI-owned transport session requires participant nodes.";
    _ ← raise_unless (negb (is_nil executors)) "CAI-owned transport session requires executor nodes.";
    _ ← raise_unless (subset_of executors participants)
          "CAI-owned transport session executors must be participants.";
    raise_unless (bool_decide (sq_chain_id q = None) || String.eqb chain_id policy_network)
      ("CAI-owned transport session is for chain '" +:+ chain_id +:+ "', expected '"
       +:+ policy_network +:+ "'.")
  with
  | Err e => (s, Err e)
  | Ok _ =>
      let session_id := or_str (strip (sq_session_id q)) ("caiot_" +:+ fresh) in
      let records := list_cai_owned_transport_sessions (tp_sessions s) in
      match List.find (has_id session_id) records with
      | Some r =>
          if session_agrees instance_id chain_id participants executors r then (s, Ok r)
          else (s, Err (ValueError
            "CAI-owned transport session id is already used by another instance, participant set, or chain id."))
      | None =>
          let r := new_session now session_id chain_id participants executors q in
          (with_sessions s (records ++ [r]), Ok r)
      end
  end.

Definition deterministic_cai_owned_transport_session_id (default_network instance_id : string)
    (participant_node_ids executor_node_ids : list string) (task_id chain_id : option string)
  : result string :=
  let instance_id := strip instance_id in
  let participants := clean_ids participant_node_ids in
  let executors := clean_ids (or_list executor_node_ids participants) in
  _ ← raise_unless (negb (String.eqb instance_id ""))
        "CAI-owned transport deterministic session requires instance id.";
  _ ← raise_unless (negb (is_nil participants))
        "CAI-owned transport deterministic session requires participant nodes.";
  _ ← raise_unless (negb (is_nil executors) && subset_of executors participants)
        "CAI-owned transport deterministic session requires executor participants.";
  Ok ("caiot_" +:+ take_str 24 (sha256_hexdigest (canonical (VDict
    [("instanceId", VStr instance_id); ("participantNodeIds", VList (map VStr participants));
     ("executorNodeIds", VList (map VStr executors)); ("protocol", VStr CAI_OWNED_TRANSPORT_PROTOCOL);
     ("protocolVersion", VInt CAI_OWNED_TRANSPORT_PROTOCOL_VERSION);
     ("chainId", VStr (cai_owned_transport_chain_id default_network chain_id));
     ("taskId", val_opt (opt_text (val_opt task_id)))])))).
