(* ===== verification/TransportBatch.v ===== *)
(** * The owned transport: operations on batches

    [cai_owned_transport_batch_lifecycle.py] and, of [decentralized_compute.py], what happens to
    a batch of a session from its recording to its end: recording, claims with leases,
    heartbeats, failures, time-outs and the status a batch is given.  [now] is the clock in
    microseconds; [iso] and [parse_iso] are [datetime.isoformat] and [datetime.fromisoformat] (a
    time without zone is in UTC). *)
From Stdlib Require Import Ascii.
From S2P Require Import Prelude.
From S2P Require Import PyStr.
From S2P Require Import PyVal.
From S2P Require Import Sha256.
From S2P Require Import Money.
From S2P Require Import ChainTx.
From S2P Require Import PeerPayload.
From S2P Require Import Transport.
Local Open Scope Z_scope.
Set Default Proof Using "Type".

(** ** Numbers of the caller *)

Definition coerce_cai_owned_transport_batch_lease_seconds (value : option Z) : Z :=
  match value with
  | None => CAI_OWNED_TRANSPORT_DEFAULT_BATCH_LEASE_SECONDS
  | Some s => Z.max 0 s
  end.

Definition coerce_cai_owned_transport_batch_claim_timeout_seconds (value : option Z) : Z :=
  match value with
  | None => CAI_OWNED_TRANSPORT_DEFAULT_BATCH_CLAIM_TIMEOUT_SECONDS
  | Some s => Z.max 0 s
  end.

Definition coerce_cai_owned_transport_max_attempts (value : option Z) : Z :=
  match value with
  | None => CAI_OWNED_TRANSPORT_DEFAULT_MAX_BATCH_ATTEMPTS
  | Some n => Z.max 1 n
  end.

Definition cai_owned_transport_batch_attempt_count (b : pydict) : Z :=
  Z.max 0 (count_of (dget "attemptCount" b)).

(** [timedelta(seconds=s)] *)
Definition seconds (s : Z) : Z := s * 1000000.

(** ** The token of the local runtime *)

(** [bool | str | None]; [None] asks the environment. *)
Definition _cai_owned_transport_local_runtime_auth_required (env : Environ)
    (value : option (bool + string)) : bool :=
  match value with
  | Some (inl b) => b
  | Some (inr s) => bool_decide (lower (strip s) ∈ strict_flag_words)
  | None => strict_env env "CAI_REQUIRE_LOCAL_RUNTIME_AUTH"
  end.

(** The error, if any. *)
Definition validate_cai_owned_transport_local_runtime_auth (env : Environ)
    (runtime_auth_token : option string) (require_auth : option (bool + string)) : option string :=
  let expected := strip (default "" (env "CAI_LOCAL_RUNTIME_TOKEN")) in
  if negb (_cai_owned_transport_local_runtime_auth_required env require_auth
           || negb (String.eqb expected ""))
  then None
  else if String.eqb expected "" then
    Some "CAI-owned transport local runtime auth token is not configured."
  else
    let incoming := strip (default "" runtime_auth_token) in
    if String.eqb incoming "" then
      Some "CAI-owned transport local runtime auth token is missing."
    else if negb (String.eqb incoming expected) then
      Some "CAI-owned transport local runtime auth token is invalid."
    else None.

Definition require_cai_owned_transport_local_runtime_auth (env : Environ)
    (runtime_auth_token : option string) (require_auth : option (bool + string)) : result unit :=
  match validate_cai_owned_transport_local_runtime_auth env runtime_auth_token require_auth with
  | Some e => Err (ValueError e)
  | None => Ok tt
  end.

(** What a runtime says about itself when it asks for work. *)
Record RuntimeCaller := {
  rc_node_id : string;
  rc_runtime_id : string;
  rc_auth_token : option string;
  rc_require_auth : option (bool + string)
}.

Definition authenticate (env : Environ) (c : RuntimeCaller) : result unit :=
  require_cai_owned_transport_local_runtime_auth env (rc_auth_token c) (rc_require_auth c).

Section clock.
Context (iso : Z → string) (parse_iso : string → option Z).

Definition parse_cai_owned_transport_datetime (v : pyval) : option Z :=
  match v with VNone => None | _ => parse_iso (py_str v) end.

(** ** Leases *)

Definition apply_cai_owned_transport_batch_lease (now : Z) (lease_seconds : option Z) (b : pydict)
  : pydict :=
  let s := coerce_cai_owned_transport_batch_lease_seconds lease_seconds in
  dupdate b
    [("heartbeatAt", VStr (iso now)); ("leaseSeconds", VInt s);
     ("leaseExpiresAt", VStr (iso (now + seconds s)))].

Definition cai_owned_transport_batch_lease_expired (now : Z) (b : pydict) : bool :=
  match parse_cai_owned_transport_datetime (dget "leaseExpiresAt" b) with
  | None => true
  | Some expires => expires <=? now
  end.

Definition cai_owned_transport_batch_claim_expired (now timeout_seconds : Z) (b : pydict) : bool :=
  match
    match parse_cai_owned_transport_datetime (dget "updatedAt" b) with
    | Some t => Some t
    | None => parse_cai_owned_transport_datetime (dget "createdAt" b)
    end
  with
  | None => true
  | Some reference => reference + seconds timeout_seconds <=? now
  end.

Definition mark_cai_owned_transport_batch_timed_out (now : Z) (error reason : string) (b : pydict)
  : pydict :=
  dupdate b
    [("status", VStr "timed_out"); ("updatedAt", VStr (iso now)); ("timedOutAt", VStr (iso now));
     ("timeoutReason", VStr reason); ("lastError", VStr error); ("error", VStr error);
     ("retryable", VBool false)].

Definition clear_cai_owned_transport_batch_runtime_claim (b : pydict) : pydict :=
  let runtime_id := batch_text "runtimeId" b in
  let b := if String.eqb runtime_id "" then b else dset "previousRuntimeId" (VStr runtime_id) b in
  foldr dpop b ["runtimeId"; "heartbeatAt"; "leaseExpiresAt"; "leaseSeconds"; "claimedByNodeId"].

(** The session with changed batches. *)
Definition save_batches (now : Z) (status : string) (r : TransportSession) (batches : list pydict)
  : TransportSession :=
  with_outcome (with_records r batches (ts_shard_receipts r)) status (iso now) (ts_last_error r).

(** ** Recording *)

Record NewBatch := {
  nb_phase : string;
  nb_source_node_id : string;
  nb_sink_node_id : string;
  nb_batch_id : string;
  nb_payload_size_bytes : Z;
  nb_payload_sha256_hex : option string;
  nb_metadata : pydict;
  nb_route_audit : option pydict;
  nb_status : string
}.

Definition new_batch_dict (now : Z) (r : TransportSession) (batch_id phase source sink : string)
    (n : NewBatch) : pydict :=
  [("batchId", VStr batch_id); ("chainId", val_opt (ts_chain_id r));
   ("status", VStr (or_str (strip (nb_status n)) "recorded")); ("phase", VStr phase);
   ("sourceNodeId", VStr source); ("sinkNodeId", VStr sink);
   ("payloadSizeBytes", VInt (Z.max 0 (nb_payload_size_bytes n)));
   ("payloadSha256Hex", val_opt (opt_text (val_opt (nb_payload_sha256_hex n))));
   ("metadata", VDict (nb_metadata n)); ("createdAt", VStr (iso now))]
  ++ match nb_route_audit n with Some a => [("routeAudit", jsonable_dict a)] | None => [] end.

(** [fresh] is the random identifier.  The session is saved when the batch is new. *)
Definition record_cai_owned_transport_batch (now : Z) (fresh session_id : string) (n : NewBatch)
  : TM TransportSession :=
  on_session session_id (λ r,
    match
      (if String.eqb (ts_status r) "completed"
       then Err (ValueError "Cannot append batch records to a completed session.") else Ok tt) ≫= λ _,
      source ← require_session_participant r (nb_source_node_id n);
      sink ← require_session_participant r (nb_sink_node_id n);
      let phase := strip (nb_phase n) in
      if String.eqb phase "" then Err (ValueError "CAI-owned transport batch phase is required.")
      else
      batch_id ← (if String.eqb (strip (nb_batch_id n)) "" then Ok ("caibatch_" +:+ fresh)
                  else require_safe_transport_file_id (VStr (nb_batch_id n)) "caibatch_");
      match List.find (has_batch_id batch_id) (ts_batch_records r) with
      | Some existing =>
          match validate_cai_owned_transport_batch_replay existing phase source sink
                  (nb_payload_sha256_hex n) with
          | Some e => Err (ValueError e)
          | None => Ok None
          end
      | None =>
          Ok (Some (save_batches now (started_status r) r
                      (ts_batch_records r ++ [new_batch_dict now r batch_id phase source sink n])))
      end
    with
    | Err e => (None, Err e)
    | Ok None => (None, Ok r)
    | Ok (Some r') => (Some r', Ok r')
    end).

(** ** Inbox *)

(** The session and the batch of every item; [status] [None] takes any status. *)
Definition list_cai_owned_transport_batch_inbox (local_node_id : string) (status : option string)
    (session_id : string) (file : list TransportSession)
  : result (list (TransportSession * pydict)) :=
  let local := strip local_node_id in
  if String.eqb local "" then
    Err (ValueError "CAI-owned transport inbox requires local node id.")
  else
    let clean_session_id := strip session_id in
    Ok (r ← List.filter (λ r, String.eqb clean_session_id "" || has_id clean_session_id r)
              (list_cai_owned_transport_sessions file);
        b ← List.filter
              (λ b, String.eqb (batch_text "sinkNodeId" b) local
                    && match status with
                       | None => true
                       | Some st => String.eqb (batch_status b) (strip st)
                       end) (ts_batch_records r);
        [(r, b)]).

(** ** Claims *)

Definition closed_statuses : list string := ["processed"; "failed"; "timed_out"; "delivered"].

(** The claimed batch; [false] when the runtime that holds it renewed its lease. *)
Definition claim_batch (now : Z) (local runtime_id : string) (lease_seconds : option Z) (b : pydict)
  : result (pydict * bool) :=
  if negb (String.eqb (batch_text "sinkNodeId" b) local) then Err not_local
  else
  let current_status := batch_status b in
  let existing_runtime_id := batch_text "runtimeId" b in
  let processing := String.eqb current_status "processing" in
  let stale := processing && cai_owned_transport_batch_lease_expired now b in
  if processing && negb stale then
    if negb (String.eqb runtime_id "") && String.eqb existing_runtime_id runtime_id then
      Ok (apply_cai_owned_transport_batch_lease now lease_seconds
            (dset "updatedAt" (VStr (iso now)) b), false)
    else Err (ValueError "CAI-owned transport batch is already processing.")
  else if bool_decide (current_status ∈ closed_statuses) then
    Err (ValueError ("CAI-owned transport batch is already " +:+ current_status +:+ "."))
  else
    let t := VStr (iso now) in
    let b1 := dupdate b
      ([("status", VStr "processing"); ("claimedAt", t); ("startedAt", t); ("updatedAt", t);
        ("claimedByNodeId", VStr local)]
       ++ (if stale then
             ("reclaimedAt", t)
             :: (if String.eqb existing_runtime_id "" then []
                 else [("previousRuntimeId", VStr existing_runtime_id)])
           else [])
       ++ (if String.eqb runtime_id "" then [] else [("runtimeId", VStr runtime_id)])) in
    let b2 := dset "attemptCount" (VInt (count_of (dget "attemptCount" b1) + 1)) b1 in
    Ok (apply_cai_owned_transport_batch_lease now lease_seconds b2, true).

Definition claim_cai_owned_transport_batch (env : Environ) (now : Z) (session_id batch_id : string)
    (c : RuntimeCaller) (lease_seconds : option Z) : TM TransportSession :=
  _ ← tlift (authenticate env c);
  clean_batch_id ← tlift (require_safe_transport_file_id (VStr batch_id) "caibatch_");
  change_session session_id (λ r,
    if String.eqb (ts_status r) "completed" then
      Err (ValueError "Cannot claim batches on a completed session.")
    else
    local ← require_session_participant r (rc_node_id c);
    '(batches, claimed) ← change_batch (batch_not_found clean_batch_id (ts_session_id r))
        clean_batch_id (claim_batch now local (strip (rc_runtime_id c)) lease_seconds)
        (ts_batch_records r);
    Ok (save_batches now (if (claimed : bool) then started_status r else ts_status r) r batches)).

(** ** Heartbeats *)

(** What the holder of a batch must show. *)
Definition require_holder (now : Z) (local runtime_id : string) (b : pydict) : result unit :=
  if negb (String.eqb (batch_text "sinkNodeId" b) local) then Err not_local
  else if negb (String.eqb (batch_text "status" b) "processing") then
    Err (ValueError "CAI-owned transport batch is not processing.")
  else if negb (String.eqb runtime_id "") && negb (String.eqb (batch_text "runtimeId" b) runtime_id)
  then Err (ValueError "CAI-owned transport batch runtime id does not match.")
  else if cai_owned_transport_batch_lease_expired now b then
    Err (ValueError "CAI-owned transport batch lease has expired.")
  else Ok tt.

Definition heartbeat_batch (now : Z) (local runtime_id : string) (lease_seconds : option Z)
    (b : pydict) : result (pydict * unit) :=
  _ ← require_holder now local runtime_id b;
  Ok (apply_cai_owned_transport_batch_lease now lease_seconds (dset "updatedAt" (VStr (iso now)) b), tt).

Definition heartbeat_cai_owned_transport_batch (env : Environ) (now : Z)
    (session_id batch_id : string) (c : RuntimeCaller) (lease_seconds : option Z)
  : TM TransportSession :=
  _ ← tlift (authenticate env c);
  clean_batch_id ← tlift (require_safe_transport_file_id (VStr batch_id) "caibatch_");
  change_session session_id (λ r,
    if String.eqb (ts_status r) "completed" then
      Err (ValueError "Cannot heartbeat batches on a completed session.")
    else
    local ← require_session_participant r (rc_node_id c);
    '(batches, _) ← change_batch (batch_not_found clean_batch_id (ts_session_id r)) clean_batch_id
        (heartbeat_batch now local (strip (rc_runtime_id c)) lease_seconds) (ts_batch_records r);
    Ok (save_batches now (ts_status r) r batches)).

(** ** The next batch of a node *)

(** [urllib.parse.quote(s, safe='')] *)
Definition unreserved (c : ascii) : bool :=
  let n := code c in
  (48 <=? n) && (n <=? 57) || (65 <=? n) && (n <=? 90) || (97 <=? n) && (n <=? 122)
  || (n =? 95) || (n =? 46) || (n =? 45) || (n =? 126).

Definition upper_hex (d : Z) : ascii :=
  if d <? 10 then ascii_of_N (Z.to_N (d + 48)) else ascii_of_N (Z.to_N (d + 55)).

Fixpoint quote (s : string) : string :=
  match s with
  | EmptyString => ""
  | String c s' =>
      if unreserved c then String c (quote s')
      else String "%" (String (upper_hex (code c / 16)) (String (upper_hex (code c mod 16)) (quote s')))
  end.

Definition vstrs (l : list string) : pyval := VList (map VStr l).

Definition cai_owned_transport_batch_work_item (r : TransportSession) (b : pydict) : pydict :=
  [("sessionId", VStr (ts_session_id r)); ("instanceId", VStr (ts_instance_id r));
   ("network", val_opt (ts_chain_id r)); ("chainId", val_opt (ts_chain_id r));
   ("modelId", val_opt (ts_model_id r)); ("taskId", val_opt (ts_task_id r));
   ("sourceNodeId", val_opt (ts_source_node_id r));
   ("participantNodeIds", vstrs (ts_participant_node_ids r));
   ("executorNodeIds", vstrs (executors_of r)); ("batch", VDict b);
   ("payloadEndpoint",
    VStr ("/v1/cai/transport/sessions/" +:+ quote (ts_session_id r) +:+ "/batches/"
          +:+ quote (batch_text "batchId" b) +:+ "/payload"));
   ("payloadStorageKey", dget "payloadStorageKey" (metadata_of b));
   ("payloadSha256Hex", dget "payloadSha256Hex" b); ("payloadSizeBytes", dget "payloadSizeBytes" b)].

(** The first item of the inbox that can be claimed: the session and the claimed batch. *)
Fixpoint claim_first (env : Environ) (now : Z) (c : RuntimeCaller) (lease_seconds : option Z)
    (only_stale : bool) (items : list (TransportSession * pydict))
  : TM (option (TransportSession * pydict)) :=
  match items with
  | [] => mret None
  | (r, b) :: rest =>
      let skip := claim_first env now c lease_seconds only_stale rest in
      let batch_id := batch_text "batchId" b in
      let session_id := strip (ts_session_id r) in
      if only_stale && negb (cai_owned_transport_batch_lease_expired now b) then skip
      else if String.eqb batch_id "" || String.eqb session_id "" then skip
      else λ s,
        match claim_cai_owned_transport_batch env now session_id batch_id c lease_seconds s with
        | (s', Ok record) =>
            match find_batch batch_id record with
            | Some claimed => (s', Ok (Some (record, claimed)))
            | None => skip s'
            end
        | (s', Err (ValueError message)) =>
            if contains "already processing" message then skip s' else (s', Err (ValueError message))
        | (s', Err e) => (s', Err e)
        end
  end.

Fixpoint claim_statuses (env : Environ) (now : Z) (c : RuntimeCaller) (lease_seconds : option Z)
    (session_id : string) (statuses : list (option string)) : TM (option (TransportSession * pydict)) :=
  match statuses with
  | [] => mret None
  | status :: rest =>
      items ← (λ s, (s, list_cai_owned_transport_batch_inbox (rc_node_id c) status session_id
                          (tp_sessions s)));
      found ← claim_first env now c lease_seconds (bool_decide (status = Some "processing")) items;
      match found with
      | Some item => mret (Some item)
      | None => claim_statuses env now c lease_seconds session_id rest
      end
  end.

Definition claim_next_cai_owned_transport_batch (env : Environ) (now : Z) (c : RuntimeCaller)
    (status : option string) (session_id : string) (lease_seconds : option Z) : TM (option pydict) :=
  _ ← tlift (authenticate env c);
  let local := strip (rc_node_id c) in
  if String.eqb local "" then
    tlift (Err (ValueError "CAI-owned transport claim-next requires local node id."))
  else
    let clean_status := option_map strip status in
    let caller := {| rc_node_id := local; rc_runtime_id := rc_runtime_id c;
                     rc_auth_token := rc_auth_token c; rc_require_auth := rc_require_auth c |} in
    found ← claim_statuses env now caller lease_seconds session_id
        (clean_status :: if bool_decide (clean_status = Some "received") then [Some "processing"] else []);
    mret (option_map (λ item, cai_owned_transport_batch_work_item item.1 item.2) found).

(** ** The status of a batch *)

(** The values given with a status; [None] leaves the field as it is. *)
Record BatchMark := {
  bm_metrics : option pydict;
  bm_error : option string;
  bm_input_hash : option string;
  bm_output_hash : option string;
  bm_output_size : option Z;
  bm_output_key : option string;
  bm_previous_batch_id : option string;
  bm_hash_chain : option string;
  bm_route_audit : option pydict;
  bm_runtime_audit : option pydict
}.

Definition no_mark : BatchMark := {|
  bm_metrics := None; bm_error := None; bm_input_hash := None; bm_output_hash := None;
  bm_output_size := None; bm_output_key := None; bm_previous_batch_id := None;
  bm_hash_chain := None; bm_route_audit := None; bm_runtime_audit := None |}.

(** [if value is not None: updated_batch[key] = f(value)] *)
Definition set_some {A} (value : option A) (f : A → result pydict) (b : pydict) : result pydict :=
  match value with None => Ok b | Some a => items ← f a; Ok (dupdate b items) end.

Definition set_hash (key : string) (value : option string) : pydict → result pydict :=
  set_some value (λ h, n ← normalize_sha256_hex (VStr h) key; Ok [(key, VStr n)]).

Definition mark_batch (now : Z) (local status : string) (m : BatchMark) (b : pydict)
  : result (pydict * unit) :=
  if negb (String.eqb local "") && negb (String.eqb (batch_text "sinkNodeId" b) local)
  then Err not_local
  else
  let b := dupdate b [("status", VStr status); ("updatedAt", VStr (iso now))] in
  let b := if bool_decide (status ∈ ["processed"; "failed"])
           then dset "processedAt" (VStr (iso now)) b else b in
  b ← set_some (bm_metrics m) (λ d, Ok [("metrics", VDict d)]) b;
  b ← set_some (bm_error m) (λ e, Ok [("error", VStr e)]) b;
  b ← set_hash "inputPayloadSha256Hex" (bm_input_hash m) b;
  b ← set_hash "outputPayloadSha256Hex" (bm_output_hash m) b;
  b ← set_some (bm_output_size m) (λ n, Ok [("outputPayloadSizeBytes", VInt (Z.max 0 n))]) b;
  b ← set_some (bm_output_key m)
        (λ k, Ok [("outputPayloadStorage", VStr "local_file");
                  ("outputPayloadStorageKey", VStr (strip k))]) b;
  b ← set_some (bm_previous_batch_id m)
        (λ p, if String.eqb (strip p) "" then Ok [("previousBatchId", VNone)]
              else i ← require_safe_transport_file_id (VStr p) "caibatch_";
                   Ok [("previousBatchId", VStr i)]) b;
  b ← set_hash "hashChainSha256Hex" (bm_hash_chain m) b;
  b ← set_some (bm_route_audit m) (λ a, Ok [("routeAudit", jsonable_dict a)]) b;
  b ← set_some (bm_runtime_audit m) (λ a, Ok [("runtimeAudit", jsonable_dict a)]) b;
  Ok (b, tt).

(** [node_id] is empty when the caller gives none. *)
Definition mark_cai_owned_transport_batch_status (now : Z)
    (session_id batch_id status node_id : string) (m : BatchMark) : TM TransportSession :=
  clean_batch_id ← tlift (require_safe_transport_file_id (VStr batch_id) "caibatch_");
  let clean_status := strip status in
  if String.eqb clean_status "" then
    tlift (Err (ValueError "CAI-owned transport batch status is required."))
  else
  change_session session_id (λ r,
    if String.eqb (ts_status r) "completed" then
      Err (ValueError "Cannot update batches on a completed session.")
    else
    let local := strip node_id in
    _ ← (if String.eqb local "" then Ok "" else require_session_participant r local);
    '(batches, _) ← change_batch (batch_not_found clean_batch_id (ts_session_id r)) clean_batch_id
        (mark_batch now local clean_status m) (ts_batch_records r);
    Ok (save_batches now (ts_status r) r batches)).

(** ** Failures *)

Definition _require_cai_owned_transport_batch_completion_owner (now : Z)
    (session_id batch_id : string) (c : RuntimeCaller) : TM unit :=
  if String.eqb (strip (rc_runtime_id c)) "" then mret tt
  else λ s,
    (s, match cai_owned_transport_session_record session_id (tp_sessions s) with
        | None => Err (session_not_found session_id)
        | Some r =>
            local ← require_session_participant r (rc_node_id c);
            clean_batch_id ← require_safe_transport_file_id (VStr batch_id) "caibatch_";
            match find_batch clean_batch_id r with
            | None => Err (batch_not_found clean_batch_id (ts_session_id r))
            | Some b => require_holder now local (strip (rc_runtime_id c)) b
            end
        end).

(** What a work item answers when it failed. *)
Record FailedItem := {
  fi_status : string;
  fi_retry_scheduled : bool;
  fi_attempt_count : Z;
  fi_max_attempts : Z;
  fi_error : string
}.

Definition fail_batch (now : Z) (local error : string) (retryable : bool) (max_attempts : Z)
    (metrics : option pydict) (b : pydict) : result (pydict * FailedItem) :=
  if negb (String.eqb (batch_text "sinkNodeId" b) local) then Err not_local
  else
  let attempt_count := count_of (dget "attemptCount" b) in
  let failure_count := count_of (dget "failureCount" b) in
  let final_failure := negb retryable || (max_attempts <=? attempt_count) in
  let t := VStr (iso now) in
  let b1 := dupdate b
    ([("updatedAt", t); ("lastFailedAt", t); ("lastError", VStr error); ("error", VStr error);
      ("retryable", VBool retryable); ("maxAttempts", VInt max_attempts);
      ("failureCount", VInt (failure_count + 1))]
     ++ match metrics with Some d => [("metrics", VDict d)] | None => [] end) in
  let b2 :=
    if final_failure then dupdate b1 [("status", VStr "failed"); ("failedAt", t); ("processedAt", t)]
    else clear_cai_owned_transport_batch_runtime_claim
           (dupdate b1 [("status", VStr "received"); ("retryScheduledAt", t)]) in
  Ok (b2, {| fi_status := if final_failure then "failed" else "received";
             fi_retry_scheduled := negb final_failure; fi_attempt_count := attempt_count;
             fi_max_attempts := max_attempts; fi_error := error |}).

Definition fail_cai_owned_transport_work_item (env : Environ) (now : Z)
    (session_id batch_id : string) (c : RuntimeCaller) (error : string) (retryable : bool)
    (max_attempts : option Z) (metrics : option pydict) : TM FailedItem :=
  _ ← tlift (authenticate env c);
  _ ← _require_cai_owned_transport_batch_completion_owner now session_id batch_id c;
  clean_batch_id ← tlift (require_safe_transport_file_id (VStr batch_id) "caibatch_");
  on_session session_id (λ r,
    match
      local ← require_session_participant r (rc_node_id c);
      change_batch (batch_not_found clean_batch_id (ts_session_id r)) clean_batch_id
        (fail_batch now local (or_str (strip error) "CAI-owned transport work item failed.") retryable
           (coerce_cai_owned_transport_max_attempts max_attempts) metrics) (ts_batch_records r)
    with
    | Ok (batches, item) => (Some (save_batches now (ts_status r) r batches), Ok item)
    | Err e => (None, Err e)
    end).

(** ** Time-outs *)

(** What the coordinator does with one batch. *)
Inductive TimeoutVerdict := KeepBatch | RetryBatch | TimeOutBatch (error reason : string).

Definition timeout_verdict (now timeout_seconds max_attempts : Z) (b : pydict) : TimeoutVerdict :=
  let status := batch_status b in
  if String.eqb status "received" && cai_owned_transport_batch_claim_expired now timeout_seconds b then
    TimeOutBatch "CAI-owned transport batch was not claimed before coordinator timeout." "claim_timeout"
  else if String.eqb status "processing" && cai_owned_transport_batch_lease_expired now b then
    if cai_owned_transport_batch_attempt_count b <? max_attempts then RetryBatch
    else TimeOutBatch "CAI-owned transport batch lease expired and max attempts were exhausted."
           "lease_timeout"
  else KeepBatch.

Definition apply_verdict (now timeout_seconds max_attempts : Z) (b : pydict) : pydict :=
  match timeout_verdict now timeout_seconds max_attempts b with
  | KeepBatch => b
  | RetryBatch =>
      clear_cai_owned_transport_batch_runtime_claim
        (dupdate b
           [("status", VStr "received"); ("updatedAt", VStr (iso now));
            ("retryScheduledAt", VStr (iso now));
            ("lastError", VStr "CAI-owned transport batch lease expired; retry scheduled.");
            ("retryable", VBool true); ("maxAttempts", VInt max_attempts)])
  | TimeOutBatch error reason =>
      mark_cai_owned_transport_batch_timed_out now error reason
        (if String.eqb reason "lease_timeout" then dset "maxAttempts" (VInt max_attempts) b else b)
  end.

Definition is_retried (now timeout_seconds max_attempts : Z) (b : pydict) : bool :=
  match timeout_verdict now timeout_seconds max_attempts b with RetryBatch => true | _ => false end.

Definition timed_out_error (now timeout_seconds max_attempts : Z) (b : pydict) : option string :=
  match timeout_verdict now timeout_seconds max_attempts b with
  | TimeOutBatch error _ => Some error
  | _ => None
  end.

Record Reconciled := {
  rd_status : string;
  rd_timed_out_batch_ids : list string;
  rd_retry_scheduled_batch_ids : list string;
  rd_session : TransportSession
}.

Definition filled_ids (l : list pydict) : list string :=
  List.filter (λ i, negb (String.eqb i "")) (map (batch_text "batchId") l).

Definition reconcile_cai_owned_transport_session_timeouts (now : Z) (session_id : string)
    (received_timeout_sec max_attempts : option Z) : TM Reconciled :=
  let timeout := coerce_cai_owned_transport_batch_claim_timeout_seconds received_timeout_sec in
  let attempts := coerce_cai_owned_transport_max_attempts max_attempts in
  on_session session_id (λ r,
    if String.eqb (ts_status r) "completed" then
      (None, Ok {| rd_status := "completed"; rd_timed_out_batch_ids := [];
                   rd_retry_scheduled_batch_ids := []; rd_session := r |})
    else
    let batches := ts_batch_records r in
    let errors := omap (timed_out_error now timeout attempts) batches in
    let timed_out :=
      filled_ids (List.filter (λ b, bool_decide (is_Some (timed_out_error now timeout attempts b))) batches) in
    let retried := filled_ids (List.filter (is_retried now timeout attempts) batches) in
    let updated := map (apply_verdict now timeout attempts) batches in
    let status := match timed_out, retried with
                  | _ :: _, _ => "failed"
                  | [], _ :: _ => started_status r
                  | [], [] => ts_status r
                  end in
    let last_error := match timed_out with _ :: _ => head errors | [] => ts_last_error r end in
    let changed := match timed_out, retried with [], [] => false | _, _ => true end in
    let r' := with_outcome (with_records r updated (ts_shard_receipts r)) status
                (if changed then iso now else ts_updated_at r) last_error in
    (if changed then Some r' else None,
     Ok {| rd_status := status; rd_timed_out_batch_ids := timed_out;
           rd_retry_scheduled_batch_ids := retried; rd_session := r' |})).

Definition fail_cai_owned_transport_session (now : Z) (session_id : string) (error : string)
  : TM TransportSession :=
  change_session session_id (λ r,
    if String.eqb (ts_status r) "completed" then
      Err (ValueError "Cannot fail a completed CAI-owned transport session.")
    else Ok (with_outcome r "failed" (iso now) (opt_text (VStr error)))).

End clock.

(** * Receipts

    [cai_owned_transport_receipts.py] and, of [decentralized_compute.py], the hash chain of a batch,
    the receipts of the nodes that processed batches, the end of the processing of a batch and the
    receipts that nodes send to the coordinator. *)


(** ** Fields of receipts *)

Definition clean_cai_owned_transport_receipt_batch_ids (values : pyval) : result (list string) :=
  foldM (λ cleaned v, i ← require_safe_transport_file_id v "caibatch_"; Ok (append_new cleaned i))
    [] (cai_owned_transport_receipt_values values).

Definition clean_cai_owned_transport_receipt_stage_ids (values : pyval) : result (list string) :=
  foldM (λ cleaned v,
    let stage_id := str_or_strip v in
    if String.eqb stage_id "" then Ok cleaned
    else if negb (is_safe_transport_file_id (VStr stage_id) "caistage_") then
      Err (ValueError "CAI-owned transport shard receipt stage id is invalid.")
    else Ok (append_new cleaned stage_id))
    [] (cai_owned_transport_receipt_values values).

Definition clean_cai_owned_transport_receipt_sequences (values : pyval) : list Z :=
  foldl (λ cleaned v,
    match py_int v with Ok z => append_new cleaned (Z.max 0 z) | Err _ => cleaned end)
    [] (cai_owned_transport_receipt_values values).

Definition clean_cai_owned_transport_receipt_hashes (field_name : string) (values : pyval)
  : result (list string) :=
  foldM (λ cleaned v,
    if String.eqb (str_or_strip v) "" then Ok cleaned
    else h ← normalize_sha256_hex v field_name; Ok (append_new cleaned h))
    [] (cai_owned_transport_receipt_values values).

Definition clean_cai_owned_transport_receipt_audits (values : pyval) : list pydict :=
  match values with
  | VDict d => [d]
  | _ => omap as_dict (cai_owned_transport_receipt_values values)
  end.

(** [max(..., default=0)] of the field, negative and unreadable values aside *)
Definition max_receipt_count (field_name : string) (receipts : list pyval) : Z :=
  foldl Z.max 0
    (omap (λ v, d ← as_dict v;
                match py_int (py_or (dget field_name d) (VInt 0)) with
                | Ok z => Some (Z.max 0 z) | Err _ => None end) receipts).

Definition append_unique (value : string) (values : list string) : list string :=
  let clean := strip value in if String.eqb clean "" then values else append_new values clean.

Definition append_unique_metric (field_name : string) (value : pyval) (metrics : pydict) : pydict :=
  let clean := str_or_strip value in
  if String.eqb clean "" then metrics
  else
    match dlookup field_name metrics with
    | None => dset field_name (VList [VStr clean]) metrics
    | Some (VList l) =>
        if bool_decide (VStr clean ∈ l) then metrics
        else dset field_name (VList (l ++ [VStr clean])) metrics
    | Some _ => metrics
    end.

Definition first_metric_value (fields : list string) (metrics : pydict) : pyval :=
  default VNone (List.find (λ v, negb (is_none v)) (map (λ k, dget k metrics) fields)).

(** The batch ids of a proof's receipts and the errors in them. *)
Definition proof_batch_id (acc : list string * list string) (v : pyval) : list string * list string :=
  let batch_id := str_or_strip v in
  if String.eqb batch_id "" then acc
  else if negb (is_safe_transport_file_id (VStr batch_id) "caibatch_") then
    (acc.1, acc.2 ++ ["CAI-owned transport proof shard receipt batch id is invalid."])
  else if bool_decide (batch_id ∈ acc.1) then
    (acc.1, acc.2 ++ ["CAI-owned transport proof duplicates batch id '" +:+ batch_id +:+ "'."])
  else (acc.1 ++ [batch_id], acc.2).

Definition cai_owned_transport_proof_batch_ids (proof : pydict) : list string * list string :=
  match dget "shardReceipts" proof with
  | VList receipts =>
      foldl (λ acc v,
        match v with
        | VDict receipt =>
            match py_or (dget "batchIds" receipt) (VList []) with
            | VList ids => foldl proof_batch_id acc ids
            | _ => (acc.1, acc.2 ++ ["CAI-owned transport proof shard receipt batch ids are invalid."])
            end
        | _ => acc
        end) ([], []) receipts
  | _ => ([], ["CAI-owned transport proof shard receipts are missing."])
  end.

(** The elements of a value in a [for] loop: the characters of a text, the keys of a dictionary. *)
Definition iterated (v : pyval) : result (list pyval) := py_list (py_or v (VList [])).

(** The batch ids of a session's receipts. *)
Definition cai_owned_transport_shard_receipt_batch_ids (receipts : list pyval)
  : result (list string * list string) :=
  foldM (λ acc v,
    match v with
    | VDict receipt =>
        ids ← iterated (dget "batchIds" receipt);
        Ok (foldl (λ acc v,
              let batch_id := str_or_strip v in
              if String.eqb batch_id "" then acc
              else if negb (is_safe_transport_file_id (VStr batch_id) "caibatch_") then
                (acc.1, acc.2 ++ ["CAI-owned transport shard receipt batch id is invalid."])
              else (append_new acc.1 batch_id, acc.2)) acc ids)
    | _ => Ok acc
    end) ([], []) receipts.

(** ** The hash chain of a batch *)

Record BatchHashChain := {
  hc_session_id : string;
  hc_batch_id : string;
  hc_sequence : Z;
  hc_previous_batch_id : option string;
  hc_input : string;
  hc_output : string
}.

Definition hash_chain_body (h : BatchHashChain) : pyval := VDict
  [("schemaVersion", VInt CAI_OWNED_TRANSPORT_HASH_CHAIN_SCHEMA_VERSION);
   ("sessionId", VStr (hc_session_id h)); ("batchId", VStr (hc_batch_id h));
   ("sequence", VInt (hc_sequence h)); ("previousBatchId", val_opt (hc_previous_batch_id h));
   ("inputPayloadSha256Hex", VStr (hc_input h)); ("outputPayloadSha256Hex", VStr (hc_output h))].

Definition hash_chain_digest (h : BatchHashChain) : string :=
  sha256_hexdigest (canonical (hash_chain_body h)).

Definition build_cai_owned_transport_batch_hash_chain (session_id batch_id input output : string)
    (sequence : Z) (previous_batch_id : string) : result BatchHashChain :=
  let clean_session_id := strip session_id in
  if String.eqb clean_session_id "" then
    Err (ValueError "CAI-owned transport hash chain session id is required.")
  else
  clean_batch_id ← require_safe_transport_file_id (VStr batch_id) "caibatch_";
  previous ← (if String.eqb (strip previous_batch_id) "" then Ok None
              else i ← require_safe_transport_file_id (VStr previous_batch_id) "caibatch_"; Ok (Some i));
  input_hash ← normalize_sha256_hex (VStr input) "inputPayloadSha256Hex";
  output_hash ← normalize_sha256_hex (VStr output) "outputPayloadSha256Hex";
  Ok {| hc_session_id := clean_session_id; hc_batch_id := clean_batch_id;
        hc_sequence := Z.max 0 sequence; hc_previous_batch_id := previous;
        hc_input := input_hash; hc_output := output_hash |}.

(** ** Receipts of the processed batches *)

Record ShardReceipt := {
  sr_activation_batch_count : Z;
  sr_decode_batch_count : Z;
  sr_layer_start : option Z;
  sr_layer_end : option Z;
  sr_batch_ids : list string;
  sr_stage_ids : list string;
  sr_sequences : list Z;
  sr_inputs : list string;
  sr_outputs : list string;
  sr_hash_chains : list string;
  sr_route_audits : list pydict;
  sr_runtime_audits : list pydict;
  sr_metrics : pydict
}.

Definition no_receipt : ShardReceipt := {|
  sr_activation_batch_count := 0; sr_decode_batch_count := 0; sr_layer_start := None;
  sr_layer_end := None; sr_batch_ids := []; sr_stage_ids := []; sr_sequences := [];
  sr_inputs := []; sr_outputs := []; sr_hash_chains := []; sr_route_audits := [];
  sr_runtime_audits := [];
  sr_metrics :=
    [("processedBatchCount", VInt 0); ("payloadSizeBytes", VInt 0);
     ("outputPayloadSizeBytes", VInt 0); ("promptTokenCount", VInt 0);
     ("completionTokenCount", VInt 0); ("inputTokenCount", VInt 0);
     ("outputTokenCount", VInt 0); ("tokenCount", VInt 0)] |}.

Definition metric (k : string) (metrics : pydict) : Z :=
  match dget k metrics with VInt z => z | _ => 0 end.

Definition add_metric (k : string) (n : Z) (metrics : pydict) : pydict :=
  dset k (VInt (metric k metrics + n)) metrics.

(** [metrics[k] += max(0, int(v or 0))] unless the value is not a number *)
Definition add_number (k : string) (v : pyval) (metrics : pydict) : pydict :=
  match py_int (py_or v (VInt 0)) with
  | Ok z => add_metric k (Z.max 0 z) metrics
  | Err _ => metrics
  end.

Definition add_given (k : string) (v : pyval) (metrics : pydict) : pydict :=
  if is_none v then metrics else add_number k v metrics.

Definition if_missing (v w : pyval) : pyval := match v with VNone => w | _ => v end.

(** [max(0.0, float(v))] appended to the latencies *)
Definition add_latency (v : pyval) (metrics : pydict) : pydict :=
  match py_int v with
  | Err _ => metrics
  | Ok z =>
      match dlookup "processingLatencyMs" metrics with
      | Some (VList l) => dset "processingLatencyMs" (VList (l ++ [VInt (Z.max 0 z)])) metrics
      | _ => dset "processingLatencyMs" (VList [VInt (Z.max 0 z)]) metrics
      end
  end.

(** The metrics that the batch's own metrics add. *)
Definition add_batch_metrics (phase : string) (direct_final_output : bool) (bm metrics : pydict)
  : pydict :=
  let input := first_metric_value ["inputTokens"; "inputTokenCount"] bm in
  let output := first_metric_value ["outputTokens"; "outputTokenCount"] bm in
  let prompt := first_metric_value ["promptTokens"; "promptTokenCount"] bm in
  let completion := first_metric_value ["completionTokens"; "completionTokenCount"] bm in
  let decode := String.eqb phase "decode_activation_batches" in
  let prompt :=
    if String.eqb phase "prefill_activation_batches" || decode && direct_final_output
    then if_missing prompt input else prompt in
  let completion := if decode then if_missing completion output else completion in
  let metrics := add_given "inputTokenCount" input metrics in
  let metrics := add_given "outputTokenCount" output metrics in
  let metrics :=
    add_given "tokenCount" (first_metric_value ["tokens"; "tokenCount"; "totalTokens"] bm) metrics in
  let metrics := add_given "promptTokenCount" prompt metrics in
  let metrics := add_given "completionTokenCount" completion metrics in
  let latency := if_missing (dget "processingLatencyMs" bm) (dget "latencyMs" bm) in
  let metrics := if is_none latency then metrics else add_latency latency metrics in
  let metrics :=
    append_unique_metric "adapterIds" (py_or (dget "adapterId" bm) (dget "adapter" bm)) metrics in
  let metrics := append_unique_metric "adapterVersions" (dget "adapterVersion" bm) metrics in
  append_unique_metric "runtimeVersions" (dget "runtimeVersion" bm) metrics.

Definition add_runtime_audit (audit metrics : pydict) : pydict :=
  let metrics := append_unique_metric "runtimeVersions" (dget "runtimeVersion" audit) metrics in
  let metrics := append_unique_metric "adapterIds" (dget "adapterId" audit) metrics in
  append_unique_metric "adapterVersions" (dget "adapterVersion" audit) metrics.

Definition merge_with (f : Z → Z → Z) (x y : option Z) : option Z :=
  match x, y with
  | Some a, Some b => Some (f a b)
  | Some a, None => Some a
  | None, _ => y
  end.

Definition opt_cons_hash (k : string) (b : pydict) (values : list string) : list string :=
  append_unique (lower (batch_text k b)) values.

(** The receipt with one more batch. *)
Definition tally_batch (r : ShardReceipt) (b : pydict) : ShardReceipt :=
  let phase := batch_text "phase" b in
  let metadata := metadata_of b in
  let runtime_audit := as_dict (dget "runtimeAudit" b) in
  let metrics := match runtime_audit with
                 | Some a => add_runtime_audit a (sr_metrics r) | None => sr_metrics r end in
  let metrics := add_metric "processedBatchCount" 1 metrics in
  let metrics := add_number "payloadSizeBytes" (dget "payloadSizeBytes" b) metrics in
  let metrics := add_number "outputPayloadSizeBytes" (dget "outputPayloadSizeBytes" b) metrics in
  let metrics :=
    match dget "metrics" b with
    | VDict bm =>
        add_batch_metrics phase (truthy (dget "singleExecutorDirectFinalOutput" metadata)) bm metrics
    | _ => metrics
    end in {|
    sr_activation_batch_count :=
      sr_activation_batch_count r + (if String.eqb phase "prefill_activation_batches" then 1 else 0);
    sr_decode_batch_count :=
      sr_decode_batch_count r + (if String.eqb phase "decode_activation_batches" then 1 else 0);
    sr_layer_start := merge_with Z.min (sr_layer_start r) (optional_int (dget "layerStart" metadata));
    sr_layer_end := merge_with Z.max (sr_layer_end r) (optional_int (dget "layerEnd" metadata));
    sr_batch_ids := sr_batch_ids r ++ [batch_text "batchId" b];
    sr_stage_ids := append_unique (str_or_strip (dget "stageId" metadata)) (sr_stage_ids r);
    sr_sequences := sr_sequences r ++ match batch_sequence b with Some z => [z] | None => [] end;
    sr_inputs := opt_cons_hash "inputPayloadSha256Hex" b (opt_cons_hash "payloadSha256Hex" b (sr_inputs r));
    sr_outputs := opt_cons_hash "outputPayloadSha256Hex" b (sr_outputs r);
    sr_hash_chains := opt_cons_hash "hashChainSha256Hex" b (sr_hash_chains r);
    sr_route_audits := sr_route_audits r ++ option_list (as_dict (dget "routeAudit" b));
    sr_runtime_audits := sr_runtime_audits r ++ option_list runtime_audit;
    sr_metrics := metrics |}.

Definition processed_by (node_id : string) (b : pydict) : bool :=
  String.eqb (batch_text "status" b) "processed" && String.eqb (batch_text "sinkNodeId" b) node_id.

Definition vzs (l : list Z) : pyval := VList (map VInt l).
Definition vdicts (l : list pydict) : pyval := VList (map VDict l).
Definition val_z (o : option Z) : pyval := match o with Some z => VInt z | None => VNone end.

Definition shard_receipt_dict (r : TransportSession) (node_id : string) (s : ShardReceipt) : pydict :=
  [("nodeId", VStr node_id); ("network", val_opt (ts_chain_id r)); ("chainId", val_opt (ts_chain_id r));
   ("status", VStr "completed"); ("activationBatchCount", VInt (sr_activation_batch_count s));
   ("decodeBatchCount", VInt (sr_decode_batch_count s)); ("layerStart", val_z (sr_layer_start s));
   ("layerEnd", val_z (sr_layer_end s)); ("batchIds", vstrs (sr_batch_ids s));
   ("stageIds", vstrs (sr_stage_ids s)); ("sequences", vzs (sr_sequences s));
   ("inputPayloadSha256Hexes", vstrs (sr_inputs s)); ("outputPayloadSha256Hexes", vstrs (sr_outputs s));
   ("hashChainSha256Hexes", vstrs (sr_hash_chains s)); ("routeAudits", vdicts (sr_route_audits s));
   ("runtimeAudits", vdicts (sr_runtime_audits s)); ("metrics", VDict (sr_metrics s))].

(** The receipt of a node, when it processed a batch. *)
Definition node_receipt (r : TransportSession) (node_id : string) : option pydict :=
  match List.filter (processed_by node_id) (ts_batch_records r) with
  | [] => None
  | l => if String.eqb node_id "" then None
         else Some (shard_receipt_dict r node_id (foldl tally_batch no_receipt l))
  end.

Definition cai_owned_transport_shard_receipts_from_processed_batches (r : TransportSession)
  : list pydict :=
  omap (node_receipt r) (ts_participant_node_ids r).

(** ** Output payloads *)

(** The path of the output payload under the storage root. *)
Definition cai_owned_transport_batch_output_payload_path (session_id batch_id : string) : result string :=
  s ← require_safe_transport_file_id (VStr session_id) "caiot_";
  b ← require_safe_transport_file_id (VStr batch_id) "caibatch_";
  Ok (s +:+ "/" +:+ b +:+ ".out.bin").

Definition file_not_found (what batch_id : string) : exn :=
  OtherError "FileNotFoundError" ("CAI-owned transport " +:+ what +:+ " not found: " +:+ batch_id).

Record StoredOutput := {
  so_key : string;
  so_size : Z;
  so_sha256_hex : string
}.

Definition store_cai_owned_transport_batch_output_payload (session_id batch_id payload : string)
  : TM StoredOutput :=
  let clean_session_id := strip session_id in
  clean_batch_id ← tlift (require_safe_transport_file_id (VStr batch_id) "caibatch_");
  _ ← (λ s, (s, match batch_record clean_session_id clean_batch_id s with
                | None => Err (file_not_found "batch" clean_batch_id)
                | Some _ => Ok tt
                end));
  path ← tlift (cai_owned_transport_batch_output_payload_path clean_session_id clean_batch_id);
  _ ← with_payload path payload;
  mret {| so_key := clean_session_id +:+ "/" +:+ clean_batch_id +:+ ".out.bin";
          so_size := Z.of_nat (String.length payload); so_sha256_hex := sha256_hexdigest payload |}.

(** The output payload, when it is the one its hash names. *)
Definition verified_cai_owned_transport_batch_output_payload (session_id batch_id : string)
    (s : TransportStore) : result string :=
  let clean_session_id := strip session_id in
  clean_batch_id ← require_safe_transport_file_id (VStr batch_id) "caibatch_";
  match batch_record clean_session_id clean_batch_id s with
  | None => Err (file_not_found "batch" clean_batch_id)
  | Some b =>
      path ← cai_owned_transport_batch_output_payload_path clean_session_id clean_batch_id;
      match tp_payloads s !! path with
      | None => Err (file_not_found "output payload" clean_batch_id)
      | Some payload =>
          let expected := lower (batch_text "outputPayloadSha256Hex" b) in
          if negb (String.eqb expected "") && negb (String.eqb (sha256_hexdigest payload) expected)
          then Err (ValueError "CAI-owned transport output payload hash does not match.")
          else Ok payload
      end
  end.

(** ** Receipts of the coordinator *)

Record ReceiptFields := {
  rf_node_id : string;
  rf_chain_id : option string;
  rf_status : string;
  rf_activation_batch_count : Z;
  rf_decode_batch_count : Z;
  rf_layer_start : pyval;
  rf_layer_end : pyval;
  rf_metrics : pydict;
  rf_batch_ids : pyval;
  rf_stage_ids : pyval;
  rf_sequences : pyval;
  rf_inputs : pyval;
  rf_outputs : pyval;
  rf_hash_chains : pyval;
  rf_route_audits : pyval;
  rf_runtime_audits : pyval;
  rf_signature : option pydict;
  rf_signer_node_id : string;
  rf_recorded_at : option string
}.

(** The cleaned fields a receipt carries, from its status on. *)
Definition receipt_fields (status : string) (f : ReceiptFields) : result pydict :=
  batch_ids ← clean_cai_owned_transport_receipt_batch_ids (rf_batch_ids f);
  stage_ids ← clean_cai_owned_transport_receipt_stage_ids (rf_stage_ids f);
  inputs ← clean_cai_owned_transport_receipt_hashes "inputPayloadSha256Hexes" (rf_inputs f);
  outputs ← clean_cai_owned_transport_receipt_hashes "outputPayloadSha256Hexes" (rf_outputs f);
  hash_chains ← clean_cai_owned_transport_receipt_hashes "hashChainSha256Hexes" (rf_hash_chains f);
  Ok [("status", VStr status);
      ("activationBatchCount", VInt (Z.max 0 (rf_activation_batch_count f)));
      ("decodeBatchCount", VInt (Z.max 0 (rf_decode_batch_count f)));
      ("layerStart", rf_layer_start f); ("layerEnd", rf_layer_end f);
      ("metrics", VDict (rf_metrics f)); ("batchIds", vstrs batch_ids);
      ("stageIds", vstrs stage_ids);
      ("sequences", vzs (clean_cai_owned_transport_receipt_sequences (rf_sequences f)));
      ("inputPayloadSha256Hexes", vstrs inputs); ("outputPayloadSha256Hexes", vstrs outputs);
      ("hashChainSha256Hexes", vstrs hash_chains);
      ("routeAudits", vdicts (clean_cai_owned_transport_receipt_audits (rf_route_audits f)));
      ("runtimeAudits", vdicts (clean_cai_owned_transport_receipt_audits (rf_runtime_audits f)))].

Section coordinator.
Context (iso : Z → string) (default_network policy_network : string).

Definition signed_fields (now : string) (f : ReceiptFields) : pydict :=
  match rf_signature f with
  | None => [("recordedAt", VStr now)]
  | Some signature =>
      (match rf_recorded_at f with
       | Some t => [("recordedAt", val_opt (opt_text (VStr t)))] | None => [] end)
      ++ (if String.eqb (strip (rf_signer_node_id f)) "" then []
          else [("signerNodeId", VStr (strip (rf_signer_node_id f)))])
      ++ [("signature", VDict signature)]
  end.

(** The session with the receipt of the node in place of its older ones. *)
Definition put_shard_receipt (node_id : string) (receipt : pydict) (receipts : list pydict) : list pydict :=
  List.filter (λ item, negb (String.eqb (batch_text "nodeId" item) node_id)) receipts ++ [receipt].

Definition record_cai_owned_transport_shard_receipt (now : Z) (session_id : string) (f : ReceiptFields)
  : TM TransportSession :=
  change_session session_id (λ r,
    if String.eqb (ts_status r) "completed" then
      Err (ValueError "Cannot append shard receipts to a completed session.")
    else
    let record_chain_id := or_str (default "" (ts_chain_id r)) policy_network in
    match rf_chain_id f with
    | None => Err (ValueError "CAI-owned transport shard receipt chain id is missing.")
    | Some chain_id =>
        if negb (String.eqb (cai_owned_transport_chain_id default_network (Some chain_id)) record_chain_id)
        then Err (ValueError "CAI-owned transport shard receipt chain id does not match.")
        else
        node_id ← require_session_participant r (rf_node_id f);
        fields ← receipt_fields (or_str (strip (rf_status f)) "completed") f;
        let receipt :=
          [("nodeId", VStr node_id); ("network", VStr record_chain_id); ("chainId", VStr record_chain_id)]
          ++ fields ++ signed_fields (iso now) f in
        Ok (with_outcome
              (with_records r (ts_batch_records r) (put_shard_receipt node_id receipt (ts_shard_receipts r)))
              (started_status r) (iso now) (ts_last_error r))
    end).

(** The body that a node sends to the coordinator, before it is signed. *)
Definition shard_receipt_payload (f : ReceiptFields) : result pydict :=
  let chain_id := cai_owned_transport_chain_id default_network (rf_chain_id f) in
  fields ← receipt_fields (or_str (strip (rf_status f)) "completed") f;
  Ok ([("nodeId", VStr (strip (rf_node_id f))); ("chainId", VStr chain_id); ("network", VStr chain_id)]
      ++ fields).

(** The fields of a receipt made from processed batches. *)
Definition fields_of_receipt (node_id : string) (chain_id : option string) (receipt : pydict)
  : result ReceiptFields :=
  activation ← py_int (py_or (dget "activationBatchCount" receipt) (VInt 0));
  decode ← py_int (py_or (dget "decodeBatchCount" receipt) (VInt 0));
  let sequence k := match dget k receipt with VList l => VList l | _ => VNone end in
  Ok {| rf_node_id := node_id; rf_chain_id := chain_id; rf_status := "completed";
        rf_activation_batch_count := activation; rf_decode_batch_count := decode;
        rf_layer_start := val_z (optional_int (dget "layerStart" receipt));
        rf_layer_end := val_z (optional_int (dget "layerEnd" receipt));
        rf_metrics := default [] (as_dict (dget "metrics" receipt));
        rf_batch_ids := sequence "batchIds"; rf_stage_ids := sequence "stageIds";
        rf_sequences := sequence "sequences"; rf_inputs := sequence "inputPayloadSha256Hexes";
        rf_outputs := sequence "outputPayloadSha256Hexes";
        rf_hash_chains := sequence "hashChainSha256Hexes"; rf_route_audits := sequence "routeAudits";
        rf_runtime_audits := sequence "runtimeAudits"; rf_signature := None;
        rf_signer_node_id := ""; rf_recorded_at := None |}.

(** ** The end of the processing *)

Record Processing := {
  pc_metrics : option pydict;
  pc_output_payload : option string;
  pc_output_hash : option string;
  pc_route_audit : option pydict;
  pc_runtime_audit : option pydict
}.

Record ProcessedItem := {
  pi_session_id : string;
  pi_batch_id : string;
  pi_node_id : string;
  pi_receipt : pydict;
  pi_output : option StoredOutput;
  pi_coordinator_response : pyval
}.

(** [send] signs the body and posts it to the coordinator, when there is one. *)
Definition coordinator_response (send : option (pydict → result pyval)) (r : TransportSession)
    (node_id : string) (receipt : pydict) : pyval :=
  match send with
  | None => VNone
  | Some post =>
      match f ← fields_of_receipt node_id (ts_chain_id r) receipt;
            payload ← shard_receipt_payload f; post payload with
      | Ok answer => answer
      | Err e => VDict [("status", VStr "failed"); ("error", VStr (exn_text e)); ("retryable", VBool true)]
      end
  end.

Definition processed_mark (p : Processing) (output_hash : option string) (stored : option StoredOutput)
    (chain : option BatchHashChain) : BatchMark := {|
  bm_metrics := pc_metrics p; bm_error := None; bm_input_hash := option_map hc_input chain;
  bm_output_hash := output_hash; bm_output_size := option_map so_size stored;
  bm_output_key := option_map so_key stored;
  bm_previous_batch_id := h ← chain; hc_previous_batch_id h;
  bm_hash_chain := option_map hash_chain_digest chain;
  bm_route_audit := pc_route_audit p; bm_runtime_audit := pc_runtime_audit p |}.

(** [output_payload_sha256_hex or output_payload_metadata["outputPayloadSha256Hex"]] *)
Definition resolved_output_hash (given : option string) (stored : option StoredOutput) : option string :=
  match stored with
  | Some o => Some (or_str (default "" given) (so_sha256_hex o))
  | None => given
  end.

Definition complete_cai_owned_transport_batch_processing (parse_iso : string → option Z) (now : Z)
    (session_id batch_id : string) (c : RuntimeCaller) (p : Processing)
    (send : option (pydict → result pyval)) : TM ProcessedItem :=
  _ ← _require_cai_owned_transport_batch_completion_owner parse_iso now session_id batch_id c;
  source ← (λ s, (s, match batch_record session_id batch_id s with
                     | None => Err (ValueError ("CAI-owned transport batch '" +:+ batch_id +:+ "' not found."))
                     | Some b => Ok b
                     end));
  stored ← match pc_output_payload p with
           | None => mret None
           | Some payload =>
               o ← store_cai_owned_transport_batch_output_payload session_id batch_id payload;
               mret (Some o)
           end;
  let output_hash := resolved_output_hash (pc_output_hash p) stored in
  let input_hash := batch_text "payloadSha256Hex" source in
  chain ← (if negb (String.eqb (default "" output_hash) "") && negb (String.eqb input_hash "") then
             h ← tlift (build_cai_owned_transport_batch_hash_chain session_id batch_id input_hash
                          (default "" output_hash) (default 0 (batch_sequence source))
                          (previous_batch source));
             mret (Some h)
           else mret None);
  r ← mark_cai_owned_transport_batch_status iso now session_id batch_id "processed" (rc_node_id c)
        (processed_mark p output_hash stored chain);
  let node_id := strip (rc_node_id c) in
  match List.find (λ d, String.eqb (batch_text "nodeId" d) node_id)
          (cai_owned_transport_shard_receipts_from_processed_batches r) with
  | None => tlift (Err (ValueError "CAI-owned transport processed batch receipt was not found."))
  | Some receipt =>
      mret {| pi_session_id := ts_session_id r; pi_batch_id := strip batch_id; pi_node_id := node_id;
              pi_receipt := receipt; pi_output := stored;
              pi_coordinator_response := coordinator_response send r node_id receipt |}
  end.

Definition complete_cai_owned_transport_work_item (env : Environ) (parse_iso : string → option Z)
    (now : Z) (session_id batch_id : string) (c : RuntimeCaller) (p : Processing)
    (send : option (pydict → result pyval)) : TM ProcessedItem :=
  _ ← tlift (authenticate env c);
  complete_cai_owned_transport_batch_processing parse_iso now session_id batch_id c p send.

End coordinator.
