(* ===== verification/TransportPlan.v ===== *)
(** * The owned transport: the execution plan

    [cai_owned_transport_execution_plan.py] and, of [decentralized_compute.py], the DAG of the
    stages of an execution: how the layers of a model are cut among the executors, how the DAG is
    built, and how a node checks the DAG it is given. *)
From Stdlib Require Import Ascii.
From S2P Require Import Prelude.
From S2P Require Import PyStr.
From S2P Require Import PyVal.
From S2P Require Import Sha256.
From S2P Require Import ChainTx.
From S2P Require Import Transport.
From S2P Require Import TransportBatch.
Local Open Scope Z_scope.
Set Default Proof Using "Type".

(** ** Execution modes *)

Definition execution_mode_for_compute_cell (profile : pydict) : string :=
  let profile_name := str_or_strip (dget "profile" profile) in
  let rpc_ready := truthy (dget "readyForLlamaCppRpc" profile) in
  if String.eqb profile_name "single_node" then "single_node"
  else if String.eqb profile_name "low_latency_sharded_cell" && rpc_ready then
    "llama_cpp_rpc_low_latency"
  else if String.eqb profile_name "proven_unknown_latency_sharded_cell" && rpc_ready then
    "llama_cpp_rpc_proven_unknown_latency"
  else "cai_owned_transport_required".

Definition execution_reason (execution_mode : string) (profile : pydict) : string :=
  if String.eqb execution_mode "single_node" then
    "No remote shard participant is required for this execution."
  else if String.eqb execution_mode "llama_cpp_rpc_low_latency" then
    "Standard llama.cpp RPC is allowed because the compute-cell is low-latency."
  else if String.eqb execution_mode "llama_cpp_rpc_proven_unknown_latency" then
    "Standard llama.cpp RPC is provisionally allowed, but CAI should still measure latency before production placement."
  else
    let profile_reason := str_or_strip (dget "reason" profile) in
    if String.eqb profile_reason "" then
      "CAI-owned transport is required for WAN-safe distributed execution."
    else profile_reason +:+ " CAI-owned transport is required for WAN-safe distributed execution.".

Definition clean_sink_node_ids (source_node_id : string) (sink_node_ids : list string) : list string :=
  List.filter (λ n, negb (String.eqb n (strip source_node_id))) (clean_ids sink_node_ids).

(** ** Ranges of layers *)

Record LayerRange := {
  lr_node_id : string;
  lr_start : Z;
  lr_end : Z
}.

Definition range_dict (r : LayerRange) : pyval := VDict
  [("nodeId", VStr (lr_node_id r)); ("layerStart", VInt (lr_start r)); ("layerEnd", VInt (lr_end r));
   ("layerCount", VInt (lr_end r - lr_start r))].

(** The ranges from a layer on; the first [extra] executors get one layer more. *)
Fixpoint layer_ranges_from (base extra index start : Z) (executors : list string) : list LayerRange :=
  match executors with
  | [] => []
  | n :: l =>
      let stop := start + (base + (if index <? extra then 1 else 0)) in
      {| lr_node_id := n; lr_start := start; lr_end := stop |}
      :: layer_ranges_from base extra (index + 1) stop l
  end.


Definition cai_owned_transport_layer_ranges (executor_node_ids : list string) (total_layers : Z)
  : list LayerRange :=
  let executors := clean_ids executor_node_ids in
  if (total_layers <=? 0) || is_nil executors then []
  else
    let n := Z.of_nat (length executors) in
    layer_ranges_from (total_layers / n) (total_layers mod n) 0 0 executors.

(** The field under the first of the keys that the item has. *)
Definition first_key (keys : list string) (d : pydict) : pyval :=
  match List.find (λ k, dmem k d) keys with Some k => dget k d | None => VNone end.

Definition invalid_ranges : exn :=
  ValueError "CAI-owned transport execution DAG shard ranges are invalid.".

Definition normal_range (expected_node_id : string) (expected_start : Z) (item : pyval)
  : result LayerRange :=
  match item with
  | VDict d =>
      let node_id := str_or_strip (py_or (dget "nodeId" d) (dget "node_id" d)) in
      if negb (String.eqb node_id expected_node_id) then
        Err (ValueError "CAI-owned transport execution DAG shard ranges do not match executor order.")
      else
      match optional_int (first_key ["layerStart"; "layer_start"; "start"] d),
            optional_int (first_key ["layerEnd"; "layer_end"; "end"] d) with
      | Some layer_start, Some layer_end =>
          if layer_end <=? layer_start then Err invalid_ranges
          else if negb (layer_start =? expected_start) then
            Err (ValueError "CAI-owned transport execution DAG shard ranges must be contiguous.")
          else
          match optional_int (first_key ["layerCount"; "layer_count"] d) with
          | Some n =>
              if n =? layer_end - layer_start
              then Ok {| lr_node_id := node_id; lr_start := layer_start; lr_end := layer_end |}
              else Err (ValueError
                "CAI-owned transport execution DAG shard range layer count is invalid.")
          | None => Ok {| lr_node_id := node_id; lr_start := layer_start; lr_end := layer_end |}
          end
      | _, _ => Err invalid_ranges
      end
  | _ => Err invalid_ranges
  end.

Fixpoint normal_ranges (total_layers expected_start : Z) (executors : list string)
    (items : list pyval) : result (list LayerRange) :=
  match executors, items with
  | n :: executors', item :: items' =>
      r ← normal_range n expected_start item;
      l ← normal_ranges total_layers (lr_end r) executors' items';
      Ok (r :: l)
  | _, _ =>
      if expected_start =? total_layers then Ok []
      else Err (ValueError
        "CAI-owned transport execution DAG shard ranges do not cover total layer count.")
  end.

Definition normalize_cai_owned_transport_shard_ranges (executor_node_ids : list string)
    (total_layers : Z) (shard_ranges : pyval) : result (list LayerRange) :=
  let executors := clean_ids executor_node_ids in
  if (total_layers <=? 0) || is_nil executors then Ok []
  else
    match shard_ranges with
    | VNone => Ok (cai_owned_transport_layer_ranges executors total_layers)
    | VList items =>
        if negb (length items =? length executors)%nat then Err invalid_ranges
        else normal_ranges total_layers 0 executors items
    | _ => Err invalid_ranges
    end.

(** ** Building the DAG *)

Definition prefill : string := "prefill_activation_batches".
Definition decode : string := "decode_activation_batches".
Definition full_pipeline : string := "full_prefill_decode".
Definition single_pass : string := "single_pass_final_decode".

Record Stage := {
  sg_id : string;
  sg_sequence : Z;
  sg_phase : string;
  sg_source : string;
  sg_executor : string;
  sg_output_to : string;
  sg_depends : list string;
  sg_layers : LayerRange;
  sg_input : option string;
  sg_output : option string;
  sg_role : string;
  sg_direct : bool
}.

Definition stage_dict (s : Stage) : pyval := VDict
  ([("stageId", VStr (sg_id s)); ("sequence", VInt (sg_sequence s)); ("phase", VStr (sg_phase s));
    ("sourceNodeId", VStr (sg_source s)); ("sinkNodeId", VStr (sg_executor s));
    ("executorNodeId", VStr (sg_executor s)); ("outputToNodeId", VStr (sg_output_to s));
    ("dependsOnStageIds", vstrs (sg_depends s)); ("layerStart", VInt (lr_start (sg_layers s)));
    ("layerEnd", VInt (lr_end (sg_layers s)));
    ("expectedInputPayloadSha256Hex", val_opt (sg_input s));
    ("expectedOutputPayloadSha256Hex", val_opt (sg_output s)); ("payloadRole", VStr (sg_role s))]
   ++ if sg_direct s then [("singleExecutorDirectFinalOutput", VBool true)] else []).

(** The node before and the node after a shard: the requester at both ends. *)
Definition node_before (requester : string) (ranges : list LayerRange) (index : nat) : string :=
  match index with O => requester | S i => default "" (lr_node_id <$> ranges !! i) end.

Definition node_after (requester : string) (ranges : list LayerRange) (index : nat) : string :=
  default requester (lr_node_id <$> ranges !! S index).

(** What every stage of the DAG shares. *)
Record DagInput := {
  di_session_id : string;
  di_requester : string;
  di_ranges : list LayerRange;
  di_input_hash : option string;
  di_output_hash : option string
}.

(** The stage of a shard in a phase; the hashes are those of the ends of the execution. *)
Definition stage_at (x : DagInput) (phase role : string) (takes_input gives_output direct : bool)
    (sequence index : nat) (depends : list string) (r : LayerRange) : Stage := {|
  sg_id := cai_owned_transport_stage_id (di_session_id x) phase (Z.of_nat sequence) (lr_node_id r)
             (lr_start r) (lr_end r);
  sg_sequence := Z.of_nat sequence; sg_phase := phase;
  sg_source := node_before (di_requester x) (di_ranges x) index; sg_executor := lr_node_id r;
  sg_output_to := node_after (di_requester x) (di_ranges x) index; sg_depends := depends;
  sg_layers := r; sg_input := if takes_input then di_input_hash x else None;
  sg_output := if gives_output then di_output_hash x else None; sg_role := role;
  sg_direct := direct |}.

Definition is_last (x : DagInput) (index : nat) : bool := (S index =? length (di_ranges x))%nat.

Definition single_pass_stage (x : DagInput) (sequence index : nat) : list string → LayerRange → Stage :=
  let last := is_last x index in
  stage_at x (if last then decode else prefill) (if last then "final_output" else "prefill_activation")
    (index =? 0)%nat last false sequence index.

Definition prefill_stage (x : DagInput) (sequence index : nat) : list string → LayerRange → Stage :=
  stage_at x prefill "prefill_activation" (index =? 0)%nat false false sequence index.

Definition decode_stage (x : DagInput) (sequence index : nat) : list string → LayerRange → Stage :=
  stage_at x decode "decode_activation" false (is_last x index) false sequence index.

Definition direct_stage (x : DagInput) (sequence index : nat) : list string → LayerRange → Stage :=
  stage_at x decode "final_output" true true true sequence index.

(** The stages of the shards from an index on, each after the one before. *)
Fixpoint chain_stages (stage : nat → nat → list string → LayerRange → Stage)
    (sequence index : nat) (previous : list string) (ranges : list LayerRange) : list Stage :=
  match ranges with
  | [] => []
  | r :: ranges' =>
      let s := stage sequence index previous r in
      s :: chain_stages stage (S sequence) (S index) [sg_id s] ranges'
  end.

Definition dag_stages (x : DagInput) (direct : bool) (pipeline_mode : string) : list Stage :=
  let ranges := di_ranges x in
  if direct then chain_stages (direct_stage x) 0 0 [] ranges
  else if String.eqb pipeline_mode single_pass then
    chain_stages (single_pass_stage x) 0 0 [] ranges
  else
    let first := chain_stages (prefill_stage x) 0 0 [] ranges in
    first ++ chain_stages (decode_stage x) (length ranges) 0
               (match last first with Some s => [sg_id s] | None => [] end) ranges.

Record DagRequest := {
  dr_session_id : string;
  dr_requester_node_id : string;
  dr_executor_node_ids : list string;
  dr_total_layer_count : Z;
  dr_shard_ranges : pyval;
  dr_chain_id : option string;
  dr_model_id : option string;
  dr_task_id : option string;
  dr_coordinator_node_id : option string;
  dr_input_payload_sha256_hex : pyval;
  dr_expected_output_payload_sha256_hex : pyval;
  dr_created_at : string;
  dr_single_executor_direct_final_output : bool;
  dr_execution_pipeline_mode : option string
}.

Definition build_cai_owned_transport_execution_dag (default_network : string) (q : DagRequest)
  : result pydict :=
  let session_id := strip (dr_session_id q) in
  _ ← raise_unless (negb (String.eqb session_id ""))
        "CAI-owned transport execution DAG requires session id.";
  let requester := strip (dr_requester_node_id q) in
  _ ← raise_unless (negb (String.eqb requester ""))
        "CAI-owned transport execution DAG requires requester node.";
  let executors := clean_ids (dr_executor_node_ids q) in
  _ ← raise_unless (negb (is_nil executors)) "CAI-owned transport execution DAG requires executors.";
  let total_layers := dr_total_layer_count q in
  _ ← raise_unless (0 <? total_layers)
        "CAI-owned transport execution DAG total layer count is invalid.";
  _ ← raise_unless (Z.of_nat (length executors) <=? total_layers)
        "CAI-owned transport execution DAG executor count exceeds total layer count.";
  let chain_id := cai_owned_transport_chain_id default_network (dr_chain_id q) in
  let coordinator := or_str (strip (default "" (dr_coordinator_node_id q))) requester in
  let participants := clean_ids (requester :: coordinator :: executors) in
  input_hash ← optional_sha256_hex (dr_input_payload_sha256_hex q) "inputPayloadSha256Hex";
  output_hash ← optional_sha256_hex (dr_expected_output_payload_sha256_hex q)
                  "expectedOutputPayloadSha256Hex";
  ranges ← normalize_cai_owned_transport_shard_ranges executors total_layers (dr_shard_ranges q);
  let direct := dr_single_executor_direct_final_output q && (length ranges =? 1)%nat in
  let pipeline_mode := or_str (strip (default "" (dr_execution_pipeline_mode q))) full_pipeline in
  _ ← raise_unless (bool_decide (pipeline_mode ∈ [full_pipeline; single_pass]))
        "CAI-owned transport execution DAG pipeline mode is invalid.";
  let x := {| di_session_id := session_id; di_requester := requester; di_ranges := ranges;
              di_input_hash := input_hash; di_output_hash := output_hash |} in
  let mode := if direct then single_pass else pipeline_mode in
  let stages := dag_stages x direct mode in
  let dag :=
    [("schemaVersion", VInt 1); ("protocol", VStr CAI_OWNED_TRANSPORT_PROTOCOL);
     ("protocolVersion", VInt CAI_OWNED_TRANSPORT_PROTOCOL_VERSION); ("network", VStr chain_id);
     ("chainId", VStr chain_id); ("sessionId", VStr session_id);
     ("taskId", val_opt (opt_text (val_opt (dr_task_id q))));
     ("modelId", val_opt (opt_text (val_opt (dr_model_id q))));
     ("requesterNodeId", VStr requester); ("coordinatorNodeId", VStr coordinator);
     ("executorNodeIds", vstrs executors); ("participantNodeIds", vstrs participants);
     ("totalLayerCount", VInt total_layers); ("shardRanges", VList (map range_dict ranges));
     ("stages", VList (map stage_dict stages)); ("stageCount", VInt (Z.of_nat (length stages)));
     ("singleExecutorDirectFinalOutput", VBool direct); ("executionPipelineMode", VStr mode);
     ("createdAt", VStr (dr_created_at q))] in
  Ok (dset "dagHashSha256Hex" (VStr (cai_owned_transport_dag_hash dag)) dag).

(** ** Checking a DAG *)

(** What the checks of the stages share. *)
Record DagFrame := {
  df_session_id : string;
  df_requester : string;
  df_ranges : list LayerRange;
  df_direct : bool;
  df_mode : string
}.

(** The phase and the shard of a position. *)
Definition expected_position (f : DagFrame) (sequence : nat) : string * nat :=
  let n := length (df_ranges f) in
  if df_direct f then (decode, O)
  else if String.eqb (df_mode f) single_pass then
    (if (S sequence =? n)%nat then decode else prefill, sequence)
  else (default "" (CAI_OWNED_TRANSPORT_BATCH_PHASES !! (sequence / n)%nat), (sequence mod n)%nat).

(** The stage before, as the list of the dependencies it stands for. *)
Definition previous_id (previous : option pydict) : list string :=
  match previous with
  | Some d => [py_str (py_or (dget "stageId" d) (VStr ""))]
  | None => []
  end.

Definition expected_dependencies (f : DagFrame) (sequence index : nat) (phase : string)
    (previous : option pydict) (last_prefill : option string) : list string :=
  if df_direct f then []
  else if String.eqb (df_mode f) single_pass then
    (if (0 <? sequence)%nat then previous_id previous else [])
  else if (0 <? index)%nat then previous_id previous
  else if String.eqb phase decode then option_list last_prefill
  else [].

Definition check_stage_hash (stage : pydict) (field_name : string) : verdict unit :=
  if truthy (dget field_name stage) then
    _ ← tries (normalize_sha256_hex (dget field_name stage) field_name) exn_text; Accepts tt
  else Accepts tt.

Definition bad_route : string := "CAI-owned transport execution DAG stage route is invalid.".
Definition bad_layers : string := "CAI-owned transport execution DAG stage layer range is invalid.".
Definition bad_dependencies : string :=
  "CAI-owned transport execution DAG stage dependencies are invalid.".

(** The checks of one stage; the id of the stage is returned. *)
Definition check_stage (f : DagFrame) (sequence : nat) (previous : option pydict)
    (last_prefill : option string) (seen : list string) (stage : pydict) : verdict string :=
  _ ← check (bool_decide (optional_int (dget "sequence" stage) = Some (Z.of_nat sequence)))
        "CAI-owned transport execution DAG stage sequence is invalid.";
  let position := expected_position f sequence in
  let index := position.2 in
  match df_ranges f !! index with
  | None => Raises IndexError
  | Some range =>
      let phase := batch_text "phase" stage in
      _ ← check (String.eqb phase position.1)
            "CAI-owned transport execution DAG stage phase is unsupported.";
      let executor := batch_text "executorNodeId" stage in
      _ ← check (String.eqb executor (lr_node_id range))
            "CAI-owned transport execution DAG stage executor is invalid.";
      _ ← check (String.eqb (batch_text "sinkNodeId" stage) executor)
            "CAI-owned transport execution DAG stage sink is invalid.";
      _ ← check (String.eqb (batch_text "sourceNodeId" stage)
                   (node_before (df_requester f) (df_ranges f) index)) bad_route;
      _ ← check (String.eqb (batch_text "outputToNodeId" stage)
                   (node_after (df_requester f) (df_ranges f) index)) bad_route;
      match optional_int (dget "layerStart" stage), optional_int (dget "layerEnd" stage) with
      | Some layer_start, Some layer_end =>
          _ ← check (layer_start <? layer_end) bad_layers;
          _ ← check ((layer_start =? lr_start range) && (layer_end =? lr_end range)) bad_layers;
          let stage_id := cai_owned_transport_stage_id (df_session_id f) phase (Z.of_nat sequence)
                            executor layer_start layer_end in
          _ ← check (String.eqb (batch_text "stageId" stage) stage_id)
                "CAI-owned transport execution DAG stage id does not match.";
          match py_or (dget "dependsOnStageIds" stage) (VList []) with
          | VList depends =>
              _ ← check (py_eqb (VList depends)
                           (vstrs (expected_dependencies f sequence index phase previous last_prefill)))
                    bad_dependencies;
              _ ← check (forallb (λ d, bool_decide (str_or_strip d ∈ seen)) depends)
                    "CAI-owned transport execution DAG stage dependency is invalid.";
              _ ← check_stage_hash stage "expectedInputPayloadSha256Hex";
              _ ← check_stage_hash stage "expectedOutputPayloadSha256Hex";
              Accepts stage_id
          | _ => Refuses bad_dependencies
          end
      | _, _ => Refuses bad_layers
      end
  end.

Fixpoint check_stages (f : DagFrame) (sequence : nat) (previous : option pydict)
    (last_prefill : option string) (seen : list string) (stages : list pyval) : verdict unit :=
  match stages with
  | [] => Accepts tt
  | VDict stage :: stages' =>
      stage_id ← check_stage f sequence previous last_prefill seen stage;
      let index := (expected_position f sequence).2 in
      let last_prefill' :=
        if String.eqb (batch_text "phase" stage) prefill && (S index =? length (df_ranges f))%nat
        then Some stage_id else last_prefill in
      check_stages f (S sequence) (Some stage) last_prefill' (stage_id :: seen) stages'
  | _ :: _ => Refuses "CAI-owned transport execution DAG stage is invalid."
  end.

Definition validate_cai_owned_transport_execution_dag (default_network : string) (v : pyval)
    (chain_id : option string) (session_id : string) (participant_node_ids : list string)
  : verdict unit :=
  match v with
  | VDict dag =>
      _ ← check_protocol "execution DAG" dag;
      _ ← check_chain_id dag (cai_owned_transport_chain_id default_network chain_id) "execution DAG";
      let clean_session_id := batch_text "sessionId" dag in
      _ ← check (negb (String.eqb clean_session_id ""))
            "CAI-owned transport execution DAG session id is missing.";
      _ ← check (String.eqb (strip session_id) "" || String.eqb clean_session_id (strip session_id))
            "CAI-owned transport execution DAG session id does not match.";
      let requester := batch_text "requesterNodeId" dag in
      let coordinator := batch_text "coordinatorNodeId" dag in
      executors ← calls (node_ids_field (dget "executorNodeIds" dag));
      participants ← calls (node_ids_field (dget "participantNodeIds" dag));
      let expected := clean_ids participant_node_ids in
      _ ← check (negb (String.eqb requester "" || String.eqb coordinator "" || is_nil executors))
            "CAI-owned transport execution DAG participants are missing.";
      _ ← check (is_nil expected || same_set participants expected)
            "CAI-owned transport execution DAG participant set does not match.";
      _ ← check (subset_of (requester :: coordinator :: executors) participants)
            "CAI-owned transport execution DAG participant list is incomplete.";
      total_layers ← tries (int_field "totalLayerCount" dag)
        (λ _, "CAI-owned transport execution DAG total layer count is invalid.");
      _ ← check (0 <? total_layers) "CAI-owned transport execution DAG total layer count is invalid.";
      _ ← check (Z.of_nat (length executors) <=? total_layers)
            "CAI-owned transport execution DAG executor count exceeds total layer count.";
      ranges ← tries (normalize_cai_owned_transport_shard_ranges executors total_layers
                        (dget "shardRanges" dag)) exn_text;
      _ ← check (py_eqb (dget "shardRanges" dag) (VList (map range_dict ranges)))
            "CAI-owned transport execution DAG shard ranges are not normalized.";
      match dget "stages" dag with
      | VList ((_ :: _) as stages) =>
          count ← calls (int_field "stageCount" dag);
          _ ← check (count =? Z.of_nat (length stages))
                "CAI-owned transport execution DAG stage count does not match.";
          let direct := truthy (dget "singleExecutorDirectFinalOutput" dag) in
          _ ← check (negb (direct && negb (length executors =? 1)%nat))
                "CAI-owned transport execution DAG direct final output requires one executor.";
          let given_mode := batch_text "executionPipelineMode" dag in
          let expected_count :=
            if direct then 1%nat
            else if String.eqb given_mode single_pass then length executors
            else (length executors * 2)%nat in
          _ ← check (length stages =? expected_count)%nat
                "CAI-owned transport execution DAG stage count is invalid.";
          let mode := if direct then single_pass else or_str given_mode full_pipeline in
          _ ← check (bool_decide (mode ∈ [full_pipeline; single_pass]))
                "CAI-owned transport execution DAG pipeline mode is invalid.";
          _ ← check_stages {| df_session_id := clean_session_id; df_requester := requester;
                              df_ranges := ranges; df_direct := direct; df_mode := mode |}
                0 None None [] stages;
          check (String.eqb (lower (batch_text "dagHashSha256Hex" dag))
                   (cai_owned_transport_dag_hash dag))
            "CAI-owned transport execution DAG hash does not match."
      | _ => Refuses "CAI-owned transport execution DAG stages are missing."
      end
  | _ => Refuses "CAI-owned transport execution DAG is missing."
  end.

(** ** The route of the outputs *)

(** [[dict(stage) for stage in dag.get("stages") or [] if isinstance(stage, dict)]] *)
Definition dag_stage_list (dag : pydict) : result (list pydict) :=
  l ← iterated (dget "stages" dag); Ok (omap as_dict (l : list pyval)).

Definition route_step (stage : pydict) : result pydict :=
  sequence ← int_field "sequence" stage;
  Ok [("sinkNodeId", VStr (batch_text "sinkNodeId" stage)); ("phase", VStr (batch_text "phase" stage));
      ("sequence", VInt sequence); ("stageId", dget "stageId" stage);
      ("executorNodeId", dget "executorNodeId" stage); ("layerStart", dget "layerStart" stage);
      ("layerEnd", dget "layerEnd" stage)].

Definition cai_owned_transport_output_route_plan_from_dag (dag : pydict) (requester_node_id : string)
  : result (list pydict) :=
  stages ← dag_stage_list dag;
  let requester := strip requester_node_id in
  match last stages with
  | None => Ok []
  | Some final_stage =>
      if String.eqb requester "" then Ok []
      else
      steps ← mapM_r route_step (tail stages);
      sequence ← int_field "sequence" final_stage;
      let final :=
        [("sinkNodeId", VStr requester); ("phase", VStr (batch_text "phase" final_stage));
         ("sequence", VInt (sequence + 1)); ("stageId", VStr "final_result");
         ("finalOutput", VBool true)] in
      Ok (List.filter (λ item, truthy (dget "sinkNodeId" item) && truthy (dget "phase" item))
            (steps ++ [final]))
  end.
