(* ===== verification/TransportEnvelope.v ===== *)
(** * The owned transport: signed payloads and batch envelopes

    [cai_owned_transport_auth.py] (signatures of payloads), the replay cache of
    [cai_owned_transport_storage.py], [cai_owned_transport_payload_codec.py] and, of
    [decentralized_compute.py], the frames, the LLM handoff and the envelopes that carry a batch
    from one node to the next.  [gzip] and [gunzip] are Python's [gzip] module. *)
From Stdlib Require Import Ascii.
From S2P Require Import Prelude.
From S2P Require Import PyStr.
From S2P Require Import PyVal.
From S2P Require Import Sha256.
From S2P Require Import Money.
From S2P Require Import Signing.
From S2P Require Import ChainTx.
From S2P Require Import PeerPayload.
From S2P Require Import Transport.
From S2P Require Import TransportBatch.
Local Open Scope Z_scope.
Set Default Proof Using "Type".

(** ** Trusted signers *)

Definition _looks_like_cai_public_key_address (value : string) : bool :=
  let normalized := lower (strip value) in
  (String.length normalized =? 32)%nat && all_chars hex_char normalized.

(** The first of the fields that has a text. *)
Definition _trusted_identity_text (identity : pydict) (keys : list string) : option string :=
  head (omap (λ k, match dget k identity with
                   | VNone => None
                   | v => let t := strip (py_str v) in if String.eqb t "" then None else Some t
                   end) keys).

(** The public key and the address a node is trusted with, [None] when it is not known. *)
Definition _cai_owned_transport_trusted_signer_identity (trusted : option pydict)
    (signer_node_id : string) : verdict (option (option string * string)) :=
  match match trusted with Some t => dget signer_node_id t | None => VNone end with
  | VNone => Accepts None
  | identity =>
      let '(public_key, address) :=
        match identity with
        | VStr s =>
            let normalized := strip s in
            if _looks_like_cai_public_key_address normalized then (None, Some (lower normalized))
            else (if String.eqb normalized "" then None else Some normalized, None)
        | VDict d =>
            (_trusted_identity_text d
               ["node_public_key_b64"; "nodePublicKeyB64"; "public_key_b64"; "publicKeyB64";
                "signing_public_key_b64"; "signingPublicKeyB64"],
             _trusted_identity_text d
               ["node_public_key_address"; "nodePublicKeyAddress"; "public_key_address";
                "publicKeyAddress"; "signing_public_key_address"; "signingPublicKeyAddress"])
        | _ => (None, None)
        end in
      let address := lower (strip (default "" address)) in
      match public_key with
      | Some key =>
          derived ← tries (address_from_public_key_b64 key)
                      (λ _, "trusted signer public key is invalid");
          _ ← check (String.eqb address "" || String.eqb address derived)
                "trusted signer public key address mismatch";
          Accepts (Some (Some key, derived))
      | None =>
          _ ← check (negb (String.eqb address "")) "trusted signer identity is missing public key";
          Accepts (Some (None, address))
      end
  end.

Section transport.
Context `{SignatureBackend} (env : Environ).
Context (iso : Z → string) (parse_iso : string → option Z).
Context (gzip : string → string) (gunzip : string → option string).
Context (default_network policy_network : string).

(** ** The replay cache *)

Definition _cai_owned_transport_replay_record_expired (now retention : Z) (record : pydict) : bool :=
  match parse_cai_owned_transport_datetime parse_iso (dget "expiresAt" record) with
  | Some t => t <=? now
  | None =>
      match parse_cai_owned_transport_datetime parse_iso (dget "seenAt" record) with
      | Some t => t + seconds retention <=? now
      | None => false
      end
  end.

Definition replay_retention (retention_seconds : option Z) : Z :=
  match retention_seconds with
  | None => CAI_OWNED_TRANSPORT_REPLAY_CACHE_RETENTION_SECONDS
  | Some s => Z.max 0 s
  end.

Definition cai_owned_transport_payload_replay_key (payload : pydict) : option string :=
  match dget "signature" payload with
  | VDict signature =>
      let signature_b64 := str_or_strip (dget "signature_b64" signature) in
      let public_key_b64 := str_or_strip (dget "public_key_b64" signature) in
      if String.eqb signature_b64 "" || String.eqb public_key_b64 "" then None
      else Some (sha256_hexdigest (canonical (VDict
        [("body", peer_payload_signing_body payload);
         ("signature", VDict
            [("scheme", dget "scheme" signature); ("public_key_b64", VStr public_key_b64);
             ("signature_b64", VStr signature_b64)])])))
  | _ => None
  end.

Definition text_or_none (v : pyval) : pyval := val_opt (opt_text v).

Definition record_cai_owned_transport_payload_replay (now : Z) (payload : pydict)
    (payload_name : string) (retention_seconds : option Z) : VM unit := λ s,
  match cai_owned_transport_payload_replay_key payload with
  | None => (s, Refuses (payload_name +:+ " payload signature is required for replay cache"))
  | Some key =>
      let retention := replay_retention retention_seconds in
      let records := List.filter
        (λ r, negb (_cai_owned_transport_replay_record_expired now retention r)) (tp_replays s) in
      if existsb (λ r, String.eqb (py_str (py_or (dget "replayKey" r) (VStr ""))) key) records
      then (s, Refuses (payload_name +:+ " payload signature replay detected"))
      else
        let signature := default [] (as_dict (dget "signature" payload)) in
        let record :=
          [("replayKey", VStr key); ("payloadName", VStr payload_name);
           ("signerNodeId", text_or_none (dget "signerNodeId" payload));
           ("publicKeyAddress",
            text_or_none (VStr (lower (str_or_strip (dget "public_key_address" signature)))));
           ("sessionId", text_or_none (dget "sessionId" payload));
           ("batchId", text_or_none (dget "batchId" payload));
           ("createdAt", text_or_none (dget "createdAt" payload));
           ("seenAt", VStr (iso now)); ("expiresAt", VStr (iso (now + seconds retention)))] in
        (with_replays s (records ++ [record]), Accepts tt)
  end.

Definition cleanup_cai_owned_transport_replay_cache (now : Z) (retention_seconds : option Z) : TM Z := λ s,
  let kept := List.filter
    (λ r, negb (_cai_owned_transport_replay_record_expired now (replay_retention retention_seconds) r))
    (tp_replays s) in
  (with_replays s kept, Ok (Z.of_nat (length (tp_replays s)) - Z.of_nat (length kept))).

(** ** Signatures *)

(** What the caller asks of signatures. *)
Record SignatureRules := {
  rl_require : option bool;
  rl_trusted : option pydict;
  rl_require_trusted : bool;
  rl_record_replay : bool;
  rl_replay_policy : option WalletPolicy;
  rl_retention_seconds : option Z
}.

Definition default_rules : SignatureRules := {|
  rl_require := None; rl_trusted := None; rl_require_trusted := false; rl_record_replay := false;
  rl_replay_policy := None; rl_retention_seconds := None |}.

(** The signature's key against the one the node is trusted with. *)
Definition check_trusted_key (payload_name : string) (signature : pydict)
    (trusted : option string * string) : verdict unit :=
  let key := str_or_strip (dget "public_key_b64" signature) in
  let declared := lower (str_or_strip (dget "public_key_address" signature)) in
  address ← (if String.eqb declared "" && negb (String.eqb key "") then
               tries (address_from_public_key_b64 key)
                 (λ _, payload_name +:+ " payload signature public key is invalid")
             else Accepts declared);
  _ ← check (String.eqb (default "" trusted.1) "" || String.eqb key ""
             || String.eqb (default "" trusted.1) key)
        (payload_name +:+ " payload signer public key is not trusted for node");
  check (String.eqb trusted.2 "" || String.eqb address "" || String.eqb trusted.2 address)
    (payload_name +:+ " payload signer public key address is not trusted for node").

(** [expected] is empty when any allowed node may sign. *)
Definition validate_cai_owned_transport_payload_signature (now : Z) (rules : SignatureRules)
    (payload_name expected : string) (allowed : list string) (v : pyval) : VM unit :=
  match v with
  | VDict payload =>
      let required :=
        match rl_require rules with
        | Some b => b
        | None => peer_payload_signatures_required env (rl_replay_policy rules)
        end in
      let checked := verify_peer_payload_signature v payload_name
                       (required || rl_require_trusted rules) false in
      _ ← vlift (check checked.1 (default "" checked.2));
      match dget "signature" payload with
      | VDict signature =>
          let signer := str_or_strip (dget "signerNodeId" payload) in
          _ ← vlift (check (negb (String.eqb signer ""))
                       (payload_name +:+ " payload signer node id is missing"));
          _ ← vlift (check (String.eqb (strip expected) "" || String.eqb signer (strip expected))
                       (payload_name +:+ " payload signer node id does not match"));
          _ ← vlift (check (is_nil (clean_ids allowed) || bool_decide (signer ∈ clean_ids allowed))
                       (payload_name +:+ " payload signer node id is not allowed"));
          trusted ← vlift (match _cai_owned_transport_trusted_signer_identity (rl_trusted rules) signer with
                           | Refuses m => Refuses (payload_name +:+ " payload " +:+ m)
                           | o => o
                           end);
          _ ← vlift (match trusted with
                     | None => check (negb (rl_require_trusted rules))
                                 (payload_name +:+ " payload signer is not trusted for node")
                     | Some t => check_trusted_key payload_name signature t
                     end);
          if rl_record_replay rules
          then record_cai_owned_transport_payload_replay now payload payload_name
                 (rl_retention_seconds rules)
          else mret tt
      | _ =>
          vlift (check (negb (rl_record_replay rules))
                   (payload_name +:+ " payload signature is required for replay cache"))
      end
  | _ => vlift (Refuses (payload_name +:+ " payload is missing"))
  end.

(** [max_age] in seconds *)
Definition validate_cai_owned_transport_created_at (now : Z) (payload : pydict) (payload_name : string)
    (max_age : option Z) : verdict unit :=
  match parse_cai_owned_transport_datetime parse_iso (dget "createdAt" payload) with
  | None => Refuses ("CAI-owned transport " +:+ payload_name +:+ " createdAt is invalid.")
  | Some created_at =>
      _ ← check (created_at <=? now + seconds (5 * 60))
            ("CAI-owned transport " +:+ payload_name +:+ " createdAt is too far in the future.");
      match max_age with
      | Some age => check (now <=? created_at + seconds (Z.max 0 age))
                      ("CAI-owned transport " +:+ payload_name +:+ " has expired.")
      | None => Accepts tt
      end
  end.

(** ** Payload codec *)

(** [base64.b64decode(s, validate=True)] takes the letters of the alphabet and the padding that
    completes them, nothing else. *)
Fixpoint strict_b64 (position : nat) (s : string) : bool :=
  match s with
  | EmptyString => (position mod 4 =? 0)%nat
  | String c s' =>
      if is_Some_dec (b64_value c) then strict_b64 (S position) s'
      else match (position mod 4)%nat with
           | 2%nat => String.eqb s "=="
           | 3%nat => String.eqb s "="
           | _ => false
           end
  end.

Definition not_base64 : exn :=
  ValueError "CAI-owned transport batch envelope payload is not valid base64.".

Definition _decode_cai_owned_transport_base64_payload_chunk (v : pyval) : result string :=
  match v with
  | VStr s =>
      if is_ascii s && strict_b64 0 s then
        match decode_bytes s with Ok l => Ok (str_of_bytes l) | Err _ => Err not_base64 end
      else Err not_base64
  | _ => Err not_base64
  end.

Definition encoded_cai_owned_transport_payload_bytes_from_envelope (envelope : pydict) : result string :=
  match dget "payloadBase64" envelope, dget "payloadChunksBase64" envelope with
  | VNone, VNone => Err (ValueError "CAI-owned transport batch envelope payload is missing.")
  | VNone, VList [] =>
      Err (ValueError "CAI-owned transport batch envelope payload chunks are missing.")
  | VNone, VList chunks =>
      match optional_int (dget "payloadChunkCount" envelope) with
      | Some n =>
          if negb (n =? Z.of_nat (length chunks)) then
            Err (ValueError "CAI-owned transport batch envelope payload chunk count does not match.")
          else l ← mapM_r _decode_cai_owned_transport_base64_payload_chunk chunks;
               Ok (String.concat "" l)
      | None => l ← mapM_r _decode_cai_owned_transport_base64_payload_chunk chunks;
                Ok (String.concat "" l)
      end
  | VNone, _ => Err (ValueError "CAI-owned transport batch envelope payload chunks are invalid.")
  | VStr s, VNone => _decode_cai_owned_transport_base64_payload_chunk (VStr s)
  | _, VNone => Err (ValueError "CAI-owned transport batch envelope payload is missing.")
  | _, _ => Err (ValueError "CAI-owned transport batch envelope payload is ambiguous.")
  end.

Definition b64 (payload : string) : string := encode_bytes (bytes_of_str payload).

(** The pieces of [size] bytes, [fuel] at most. *)
Fixpoint pieces (fuel : nat) (size : nat) (s : string) : list string :=
  match fuel with
  | O => []
  | S fuel' => if String.eqb s "" then [] else take_str size s :: pieces fuel' size (drop_str size s)
  end.

Definition cai_owned_transport_encoded_payload_fields (encoded : string) (chunk_size : option Z) : pydict :=
  let single := [("payloadBase64", VStr (b64 encoded))] in
  match chunk_size with
  | None => single
  | Some n =>
      if (n <=? 0) || (Z.of_nat (String.length encoded) <=? n) then single
      else
        let chunks := map b64 (pieces (String.length encoded) (Z.to_nat n) encoded) in
        [("payloadChunksBase64", vstrs chunks);
         ("payloadChunkCount", VInt (Z.of_nat (length chunks))); ("payloadChunkSizeBytes", VInt n)]
  end.

Definition bad_compression : exn :=
  ValueError "CAI-owned transport batch envelope payload compression is unsupported.".

Definition normalize_cai_owned_transport_payload_compression (value : option string)
  : result (option string) :=
  let clean := lower (strip (default "" value)) in
  if String.eqb clean "" || String.eqb clean "none" then Ok None
  else if String.eqb clean "gzip" then Ok (Some clean) else Err bad_compression.

Definition encode_cai_owned_transport_payload_bytes (compression : option string) (payload : string)
  : string :=
  match compression with None => payload | Some _ => gzip payload end.

Definition decode_cai_owned_transport_payload_bytes (compression payload : string) : result string :=
  if String.eqb compression "" then Ok payload
  else if String.eqb compression "gzip" then
    match gunzip payload with
    | Some p => Ok p
    | None => Err (ValueError "CAI-owned transport batch envelope payload compression is invalid.")
    end
  else Err bad_compression.

Definition envelope_compression (envelope : pydict) : string :=
  lower (str_or_strip (dget "payloadCompression" envelope)).

Definition decode_cai_owned_transport_batch_payload (envelope : pydict) : result string :=
  encoded ← encoded_cai_owned_transport_payload_bytes_from_envelope envelope;
  decode_cai_owned_transport_payload_bytes (envelope_compression envelope) encoded.

(** ** Frames and the LLM handoff *)

(** A range of two optional fields: both numbers when given, not negative, in order. *)
Definition check_range (start_field end_field message : string) (d : pydict) : verdict unit :=
  let bound k := optional_int (dget k d) in
  let given k := is_none (dget k d) || bool_decide (is_Some (bound k)) in
  _ ← check (given start_field) message;
  _ ← check (given end_field) message;
  _ ← check (0 <=? default 0 (bound start_field)) message;
  _ ← check (0 <=? default 0 (bound end_field)) message;
  match bound start_field, bound end_field with
  | Some a, Some b => check (a <=? b) message
  | _, _ => Accepts tt
  end.

Definition check_hash_field (d : pydict) (field_name : string) : verdict unit :=
  if is_none (dget field_name d) then Accepts tt
  else _ ← tries (normalize_sha256_hex (dget field_name d) field_name) exn_text; Accepts tt.

Definition check_optional_dict (what : string) (d : pydict) (field_name : string) : verdict unit :=
  check (is_none (dget field_name d) || bool_decide (is_Some (as_dict (dget field_name d))))
    (what +:+ field_name +:+ " is invalid.").

(** [int(value)] of every item, at least [least] *)
Definition check_dimensions (least : Z) (message : string) (items : list pyval) : verdict unit :=
  check (forallb (λ v, match py_int v with Ok z => least <=? z | Err _ => false end) items) message.

Fixpoint all_checks (l : list (verdict unit)) : verdict unit :=
  match l with [] => Accepts tt | v :: l' => _ ← v; all_checks l' end.

(** The bounds of the frame that the handoff must repeat. *)
Definition check_frame_bound (handoff frame : pydict) (label field_name : string) : verdict unit :=
  match optional_int (dget field_name frame), optional_int (dget field_name handoff) with
  | Some a, Some b =>
      check (a =? b) ("CAI-owned LLM handoff " +:+ label +:+ " does not match frame.")
  | _, _ => Accepts tt
  end.

Definition check_handoff_range (frame handoff : pydict) (start_field end_field label : string)
  : verdict unit :=
  _ ← check_range start_field end_field ("CAI-owned LLM handoff " +:+ label +:+ " is invalid.") handoff;
  _ ← check_frame_bound handoff frame label start_field;
  check_frame_bound handoff frame label end_field.

Definition check_tensor (frame tensor : pydict) : verdict unit :=
  let dtype := str_or_strip (dget "dtype" tensor) in
  _ ← check (negb (String.eqb dtype "") && is_ascii dtype)
        "CAI-owned LLM handoff tensor dtype is invalid.";
  _ ← check (bool_decide (str_or_strip (dget "encoding" tensor)
               ∈ ["raw-le"; "ggml-tensor-v1"; "safetensors-fragment-v1"]))
        "CAI-owned LLM handoff tensor encoding is unsupported.";
  let bad_shape := "CAI-owned LLM handoff tensor shape is invalid." in
  match dget "shape" tensor with
  | VList ((_ :: _) as shape) =>
      _ ← check_dimensions 1 bad_shape shape;
      if is_none (dget "sha256Hex" tensor) then Accepts tt
      else
        h ← tries (normalize_sha256_hex (dget "sha256Hex" tensor) "tensor.sha256Hex") exn_text;
        let frame_hash := lower (str_or_strip (dget "payloadSha256Hex" frame)) in
        check (String.eqb frame_hash "" || String.eqb h frame_hash)
          "CAI-owned LLM handoff tensor hash does not match frame payload."
  | _ => Refuses bad_shape
  end.

(** [frame] is the metadata of the frame the handoff comes with. *)
Definition validate_cai_owned_llm_handoff_metadata (v : pyval) (expected_model_id : string)
    (frame : pydict) : verdict unit :=
  match v with
  | VDict handoff =>
      schema ← tries (int_field "schemaVersion" handoff) (λ _, "CAI-owned LLM handoff schema is invalid.");
      _ ← check (schema =? 1) "CAI-owned LLM handoff schema is unsupported.";
      _ ← check (String.eqb (str_or_strip (dget "abi" handoff)) "cai-llm-shard-handoff-v1")
            "CAI-owned LLM handoff ABI is unsupported.";
      let backend := str_or_strip (dget "backend" handoff) in
      _ ← check (negb (String.eqb backend "") && is_ascii backend)
            "CAI-owned LLM handoff backend is invalid.";
      _ ← check (truthy (dget "requiresPatchedBackend" handoff))
            "CAI-owned LLM handoff must require a patched backend.";
      let model_id := str_or_strip (dget "modelId" handoff) in
      _ ← check (negb (String.eqb model_id "")) "CAI-owned LLM handoff model id is missing.";
      _ ← check (String.eqb (strip expected_model_id) "" || String.eqb model_id (strip expected_model_id))
            "CAI-owned LLM handoff model id does not match.";
      _ ← all_checks (map (check_hash_field handoff) ["modelSha256Hex"; "tokenizerConfigHash"]);
      _ ← check_handoff_range frame handoff "layerStart" "layerEnd" "layer range";
      _ ← check_handoff_range frame handoff "tokenStart" "tokenEnd" "token window";
      match dget "tensor" handoff with
      | VDict tensor =>
          _ ← check_tensor frame tensor;
          all_checks (map (check_optional_dict "CAI-owned LLM handoff " handoff)
                        ["kvCache"; "decodeState"; "extraMetadata"])
      | _ => Refuses "CAI-owned LLM handoff tensor is missing."
      end
  | _ => Refuses "CAI-owned LLM handoff metadata is missing."
  end.

Definition validate_cai_owned_transport_frame_metadata (v : pyval) (expected_model_id : string)
    (require_llm_handoff : bool) : verdict unit :=
  match v with
  | VDict metadata =>
      schema ← tries (int_field "frameSchemaVersion" metadata)
                 (λ _, "CAI-owned transport frame schema is invalid.");
      _ ← check (schema =? 1) "CAI-owned transport frame schema is unsupported.";
      _ ← check (bool_decide (str_or_strip (dget "frameKind" metadata)
                   ∈ ["activation"; "decode"; "kv_cache"; "logits"; "bytes_test"]))
            "CAI-owned transport frame kind is unsupported.";
      let model_id := str_or_strip (dget "modelId" metadata) in
      _ ← check (negb (String.eqb model_id "")) "CAI-owned transport frame model id is missing.";
      _ ← check (String.eqb (strip expected_model_id) "" || String.eqb model_id (strip expected_model_id))
            "CAI-owned transport frame model id does not match.";
      _ ← all_checks (map (check_hash_field metadata) ["tokenizerConfigHash"; "payloadSha256Hex"]);
      _ ← check_range "layerStart" "layerEnd" "CAI-owned transport frame layer range is invalid." metadata;
      _ ← check_range "tokenStart" "tokenEnd" "CAI-owned transport frame token window is invalid." metadata;
      let dtype := str_or_strip (dget "dtype" metadata) in
      _ ← check (is_none (dget "dtype" metadata) || negb (String.eqb dtype "") && is_ascii dtype)
            "CAI-owned transport frame dtype is invalid.";
      _ ← match dget "shape" metadata with
          | VNone => Accepts tt
          | VList shape => check_dimensions 0 "CAI-owned transport frame shape is invalid." shape
          | _ => Refuses "CAI-owned transport frame shape is invalid."
          end;
      _ ← all_checks (map (check_optional_dict "CAI-owned transport frame " metadata)
                        ["kvCacheMetadata"; "activationMetadata"; "extraMetadata"]);
      if negb (is_none (dget "llmHandoff" metadata)) || require_llm_handoff
      then validate_cai_owned_llm_handoff_metadata (dget "llmHandoff" metadata) model_id metadata
      else Accepts tt
  | _ => Refuses "CAI-owned transport frame metadata is missing."
  end.

(** ** Envelopes *)

Record EnvelopeRequest := {
  ev_session_id : string;
  ev_phase : string;
  ev_source_node_id : string;
  ev_sink_node_id : string;
  ev_sequence : Z;
  ev_payload : string;
  ev_chain_id : option string;
  ev_metadata : pydict;
  ev_route_audit : option pydict;
  ev_compression : option string;
  ev_chunk_size : option Z;
  ev_created_at : string
}.

Definition build_cai_owned_transport_batch_envelope (q : EnvelopeRequest) : result pydict :=
  let session_id := strip (ev_session_id q) in
  let phase := strip (ev_phase q) in
  let source := strip (ev_source_node_id q) in
  let sink := strip (ev_sink_node_id q) in
  if String.eqb session_id "" then
    Err (ValueError "CAI-owned transport batch envelope requires session id.")
  else if negb (bool_decide (phase ∈ CAI_OWNED_TRANSPORT_BATCH_PHASES)) then
    Err (ValueError "CAI-owned transport batch envelope phase is unsupported.")
  else if String.eqb source "" || String.eqb sink "" then
    Err (ValueError "CAI-owned transport batch envelope requires source and sink.")
  else
  let chain_id := cai_owned_transport_chain_id default_network (ev_chain_id q) in
  let payload_hash := sha256_hexdigest (ev_payload q) in
  compression ← normalize_cai_owned_transport_payload_compression (ev_compression q);
  let encoded := encode_cai_owned_transport_payload_bytes compression (ev_payload q) in
  let payload_fields := cai_owned_transport_encoded_payload_fields encoded (ev_chunk_size q) in
  let sequence := Z.max 0 (ev_sequence q) in
  let batch_id := cai_owned_transport_batch_id session_id phase source sink sequence payload_hash in
  Ok ([("schemaVersion", VInt 1); ("protocol", VStr CAI_OWNED_TRANSPORT_PROTOCOL);
       ("protocolVersion", VInt CAI_OWNED_TRANSPORT_PROTOCOL_VERSION); ("network", VStr chain_id);
       ("chainId", VStr chain_id); ("batchId", VStr batch_id); ("sessionId", VStr session_id);
       ("phase", VStr phase); ("sourceNodeId", VStr source); ("sinkNodeId", VStr sink);
       ("sequence", VInt sequence); ("payloadEncoding", VStr "base64");
       ("payloadSizeBytes", VInt (Z.of_nat (String.length (ev_payload q))));
       ("payloadSha256Hex", VStr payload_hash); ("metadata", VDict (ev_metadata q));
       ("createdAt", VStr (ev_created_at q))]
      ++ payload_fields
      ++ (if bool_decide (is_Some compression) || dmem "payloadChunksBase64" payload_fields
          then [("payloadEncodedSizeBytes", VInt (Z.of_nat (String.length encoded)))] else [])
      ++ match compression with Some c => [("payloadCompression", VStr c)] | None => [] end
      ++ match ev_route_audit q with Some a => [("routeAudit", jsonable_dict a)] | None => [] end).

(** The checks that need the payload, and the batch id that the contents give. *)
Definition check_payload (envelope : pydict) : verdict string :=
  encoded ← tries (encoded_cai_owned_transport_payload_bytes_from_envelope envelope) exn_text;
  let compression := envelope_compression envelope in
  _ ← check (String.eqb compression "" || String.eqb compression "gzip") (exn_text bad_compression);
  payload ← tries (decode_cai_owned_transport_payload_bytes compression encoded) exn_text;
  _ ← (if is_none (dget "payloadEncodedSizeBytes" envelope) then Accepts tt
       else
         n ← tries (int_field "payloadEncodedSizeBytes" envelope)
               (λ _, "CAI-owned transport batch envelope encoded payload size is invalid.");
         check (n =? Z.of_nat (String.length encoded))
           "CAI-owned transport batch envelope encoded payload size does not match.");
  n ← tries (int_field "payloadSizeBytes" envelope)
        (λ _, "CAI-owned transport batch envelope payload size is invalid.");
  _ ← check (n =? Z.of_nat (String.length payload))
        "CAI-owned transport batch envelope payload size does not match.";
  let declared_hash := lower (str_or_strip (dget "payloadSha256Hex" envelope)) in
  _ ← check (String.eqb declared_hash (sha256_hexdigest payload))
        "CAI-owned transport batch envelope payload hash does not match.";
  Accepts declared_hash.

Definition check_envelope_metadata (declared_hash : string) (v : pyval) : verdict unit :=
  match v with
  | VNone => Accepts tt
  | VDict metadata =>
      if is_none (dget "frameSchemaVersion" metadata) then Accepts tt
      else
        _ ← validate_cai_owned_transport_frame_metadata v "" false;
        if is_none (dget "payloadSha256Hex" metadata) then Accepts tt
        else
          h ← calls (normalize_sha256_hex (dget "payloadSha256Hex" metadata) "payloadSha256Hex");
          check (String.eqb h declared_hash) "CAI-owned transport frame payload hash does not match."
  | _ => Refuses "CAI-owned transport batch envelope metadata is invalid."
  end.

(** What an envelope must say before its signature is looked at: its source. *)
Definition check_envelope_head (now : Z) (session_id : string) (participants : list string)
    (chain_id : option string) (envelope : pydict) : verdict string :=
  _ ← check_protocol "batch envelope" envelope;
  _ ← check_chain_id envelope (cai_owned_transport_chain_id default_network chain_id) "batch envelope";
  _ ← validate_cai_owned_transport_created_at now envelope "batch envelope" (Some (15 * 60));
  let envelope_session_id := str_or_strip (dget "sessionId" envelope) in
  _ ← check (negb (String.eqb envelope_session_id ""))
        "CAI-owned transport batch envelope session id is missing.";
  _ ← check (String.eqb (strip session_id) "" || String.eqb envelope_session_id (strip session_id))
        "CAI-owned transport batch envelope session id does not match.";
  _ ← check (is_safe_transport_file_id (dget "batchId" envelope) "caibatch_")
        "CAI-owned transport batch envelope batch id is invalid.";
  _ ← check (bool_decide (str_or_strip (dget "phase" envelope) ∈ CAI_OWNED_TRANSPORT_BATCH_PHASES))
        "CAI-owned transport batch envelope phase is unsupported.";
  let source := str_or_strip (dget "sourceNodeId" envelope) in
  let sink := str_or_strip (dget "sinkNodeId" envelope) in
  _ ← check (negb (String.eqb source "" || String.eqb sink ""))
        "CAI-owned transport batch envelope source or sink is missing.";
  _ ← check (is_nil (clean_ids participants)
             || bool_decide (source ∈ clean_ids participants) && bool_decide (sink ∈ clean_ids participants))
        "CAI-owned transport batch envelope participant is not allowed.";
  Accepts source.

(** What follows the signature. *)
Definition check_envelope_body (envelope : pydict) : verdict unit :=
  sequence ← tries (int_field "sequence" envelope)
               (λ _, "CAI-owned transport batch envelope sequence is invalid.");
  _ ← check (0 <=? sequence) "CAI-owned transport batch envelope sequence is invalid.";
  _ ← check (String.eqb (str_or_strip (dget "payloadEncoding" envelope)) "base64")
        "CAI-owned transport batch envelope payload encoding is unsupported.";
  declared_hash ← check_payload envelope;
  _ ← check_envelope_metadata declared_hash (dget "metadata" envelope);
  _ ← check (is_none (dget "routeAudit" envelope)
             || bool_decide (is_Some (as_dict (dget "routeAudit" envelope))))
        "CAI-owned transport batch envelope route audit is invalid.";
  check (String.eqb (str_or_strip (dget "batchId" envelope))
           (cai_owned_transport_batch_id (str_or_strip (dget "sessionId" envelope))
              (str_or_strip (dget "phase" envelope)) (str_or_strip (dget "sourceNodeId" envelope))
              (str_or_strip (dget "sinkNodeId" envelope)) sequence declared_hash))
    "CAI-owned transport batch envelope batch id does not match.".

Definition validate_cai_owned_transport_batch_envelope (now : Z) (rules : SignatureRules)
    (session_id : string) (participants : list string) (chain_id : option string) (v : pyval) : VM unit :=
  match v with
  | VDict envelope =>
      source ← vlift (check_envelope_head now session_id participants chain_id envelope);
      _ ← validate_cai_owned_transport_payload_signature now rules
            "CAI-owned transport batch envelope" source participants v;
      vlift (check_envelope_body envelope)
  | _ => vlift (Refuses "CAI-owned transport batch envelope is missing.")
  end.

(** ** Session offers *)

(** [str(v or "")] *)
Definition str_value (v : pyval) : string := py_str (py_or v (VStr "")).

Definition build_cai_owned_transport_session_offer (created_at : string) (q : SessionRequest)
  : result pydict :=
  let instance_id := strip (sq_instance_id q) in
  let participants := clean_ids (sq_participant_node_ids q) in
  let executors := clean_ids (or_list (sq_executor_node_ids q) participants) in
  _ ← raise_unless (negb (is_nil executors) && subset_of executors participants)
        "CAI-owned transport session offer executors must be participants.";
  let chain_id := cai_owned_transport_chain_id default_network (sq_chain_id q) in
  deterministic_id ← deterministic_cai_owned_transport_session_id default_network instance_id
                       participants executors (sq_task_id q) (Some chain_id);
  let session_id := or_str (strip (sq_session_id q)) deterministic_id in
  _ ← raise_unless (String.eqb session_id deterministic_id)
        "CAI-owned transport session offer id must be deterministic.";
  let source := or_str (strip (sq_source_node_id q)) (default "" (head participants)) in
  _ ← raise_unless (bool_decide (source ∈ participants))
        "CAI-owned transport session offer source is not a participant.";
  let text o := val_opt (opt_text (val_opt o)) in
  Ok [("schemaVersion", VInt 1); ("protocol", VStr CAI_OWNED_TRANSPORT_PROTOCOL);
      ("protocolVersion", VInt CAI_OWNED_TRANSPORT_PROTOCOL_VERSION); ("network", VStr chain_id);
      ("chainId", VStr chain_id); ("sessionId", VStr session_id); ("instanceId", VStr instance_id);
      ("modelId", text (sq_model_id q)); ("taskId", text (sq_task_id q)); ("sourceNodeId", VStr source);
      ("participantNodeIds", vstrs participants); ("executorNodeIds", vstrs executors);
      ("executionMode", text (sq_execution_mode q)); ("routePolicy", VDict (sq_route_policy q));
      ("createdAt", VStr created_at)].

(** An optional text of a payload *)
Definition given_text (v : pyval) : option string :=
  match v with VNone => None | _ => Some (str_value v) end.

Definition validate_cai_owned_transport_session_offer (now : Z) (rules : SignatureRules)
    (session_id local_node_id : string) (chain_id : option string) (v : pyval) : VM unit :=
  match v with
  | VDict offer =>
      _ ← vlift (check_protocol "session offer" offer);
      offer_chain_id ← vlift (check_chain_id offer (cai_owned_transport_chain_id default_network chain_id)
                                "session offer");
      _ ← vlift (validate_cai_owned_transport_created_at now offer "session offer" (Some (15 * 60)));
      let clean_session_id := str_or_strip (dget "sessionId" offer) in
      _ ← vlift (check (negb (String.eqb clean_session_id ""))
                   "CAI-owned transport session offer session id is missing.");
      _ ← vlift (check (String.eqb (strip session_id) "" || String.eqb clean_session_id (strip session_id))
                   "CAI-owned transport session offer session id does not match.");
      let instance_id := str_or_strip (dget "instanceId" offer) in
      _ ← vlift (check (negb (String.eqb instance_id ""))
                   "CAI-owned transport session offer instance id is missing.");
      participants ← vlift (calls (node_ids_field (dget "participantNodeIds" offer)));
      _ ← vlift (check (negb (is_nil participants))
                   "CAI-owned transport session offer participants are missing.");
      executors ← vlift (if truthy (dget "executorNodeIds" offer)
                         then calls (node_ids_field (dget "executorNodeIds" offer))
                         else Accepts participants);
      _ ← vlift (check (negb (is_nil executors)) "CAI-owned transport session offer executors are missing.");
      _ ← vlift (check (subset_of executors participants)
                   "CAI-owned transport session offer executors must be participants.");
      let source := str_or_strip (dget "sourceNodeId" offer) in
      _ ← vlift (check (String.eqb source "" || bool_decide (source ∈ participants))
                   "CAI-owned transport session offer source is not a participant.");
      let local := strip local_node_id in
      _ ← vlift (check (String.eqb local "" || bool_decide (local ∈ participants))
                   "CAI-owned transport session offer does not include local node.");
      _ ← validate_cai_owned_transport_payload_signature now rules "CAI-owned transport session offer"
            (or_str source (default "" (head participants))) participants v;
      deterministic_id ← vlift (tries
        (deterministic_cai_owned_transport_session_id default_network instance_id participants executors
           (given_text (dget "taskId" offer)) (Some offer_chain_id)) exn_text);
      vlift (check (String.eqb clean_session_id deterministic_id)
               "CAI-owned transport session offer id is not deterministic.")
  | _ => vlift (Refuses "CAI-owned transport session offer is missing.")
  end.

(** The ids of a list field, as they are. *)
Definition raw_ids (v : pyval) : result (list string) :=
  l ← py_list (py_or v (VList [])); Ok (map str_or_strip l).

Definition create_cai_owned_transport_session_from_offer (now : Z) (rules : SignatureRules)
    (session_id local_node_id : string) (v : pyval) : TM TransportSession :=
  _ ← raise_refusal (validate_cai_owned_transport_session_offer now rules session_id local_node_id
                       (Some policy_network) v);
  let offer := default [] (as_dict v) in
  participants ← tlift (raw_ids (dget "participantNodeIds" offer));
  executors ← tlift (raw_ids (dget "executorNodeIds" offer));
  create_cai_owned_transport_session policy_network (iso now) ""
    {| sq_instance_id := str_or_strip (dget "instanceId" offer);
       sq_participant_node_ids := participants; sq_executor_node_ids := executors;
       sq_session_id := str_or_strip (dget "sessionId" offer);
       sq_chain_id := opt_text (VStr (cai_owned_transport_payload_chain_id offer));
       sq_model_id := given_text (dget "modelId" offer); sq_task_id := given_text (dget "taskId" offer);
       sq_source_node_id := str_value (dget "sourceNodeId" offer);
       sq_execution_mode := given_text (dget "executionMode" offer);
       sq_route_policy := default [] (as_dict (dget "routePolicy" offer)) |}.

(** ** Recording an envelope *)

(** The output of a shard that leaves the executors, or says it is the final one. *)
Definition _is_cai_owned_transport_final_output_batch (r : TransportSession) (b : pydict) : bool :=
  match dget "metadata" b with
  | VDict metadata =>
      let source := batch_text "sourceNodeId" b in
      let sink := batch_text "sinkNodeId" b in
      let executors := List.filter (λ n, negb (String.eqb n "")) (map strip (executors_of r)) in
      String.eqb (str_or_strip (dget "payloadRole" metadata)) "shard_output"
      && negb (String.eqb source "") && negb (String.eqb sink "")
      && bool_decide (source ∈ executors)
      && (negb (bool_decide (sink ∈ executors)) || truthy (dget "finalOutput" metadata))
  | _ => false
  end.

Definition cai_owned_transport_batch_payload_path (session_id batch_id : string) : result string :=
  s ← require_safe_transport_file_id (VStr session_id) "caiot_";
  b ← require_safe_transport_file_id (VStr batch_id) "caibatch_";
  Ok (s +:+ "/" +:+ b +:+ ".bin").

(** The receipts that come with the metadata of a delivered batch. *)
Definition _cai_owned_transport_embedded_shard_receipts (metadata : pydict) : result (list pydict) :=
  let values := map (λ k, dget k metadata)
                  ["upstreamShardReceipts"; "caiOwnedShardReceipts"; "shardReceipts"] in
  match List.find (λ v, negb (is_none v)) values with
  | None => Ok []
  | Some (VDict d) => Ok [d]
  | Some (VList l) =>
      let receipts := omap as_dict l in
      if (length receipts =? length l)%nat then Ok receipts
      else Err (ValueError "CAI-owned transport embedded shard receipt is invalid.")
  | Some _ => Err (ValueError "CAI-owned transport embedded shard receipts are invalid.")
  end.

Definition embedded_fields (receipt : pydict) : result ReceiptFields :=
  activation ← int_field "activationBatchCount" receipt;
  decode ← int_field "decodeBatchCount" receipt;
  let opt v := match v with VNone => None | _ => Some (str_value v) end in
  Ok {| rf_node_id := str_value (either "nodeId" "node_id" receipt);
        rf_chain_id := opt (py_or (either "chainId" "chain_id" receipt) (dget "network" receipt));
        rf_status := py_str (py_or (dget "status" receipt) (VStr "completed"));
        rf_activation_batch_count := activation; rf_decode_batch_count := decode;
        rf_layer_start := val_z (optional_int (dget "layerStart" receipt));
        rf_layer_end := val_z (optional_int (dget "layerEnd" receipt));
        rf_metrics := default [] (as_dict (dget "metrics" receipt));
        rf_batch_ids := either "batchIds" "batch_ids" receipt;
        rf_stage_ids := either "stageIds" "stage_ids" receipt;
        rf_sequences := dget "sequences" receipt;
        rf_inputs := either "inputPayloadSha256Hexes" "input_payload_sha256_hexes" receipt;
        rf_outputs := either "outputPayloadSha256Hexes" "output_payload_sha256_hexes" receipt;
        rf_hash_chains := either "hashChainSha256Hexes" "hash_chain_sha256_hexes" receipt;
        rf_route_audits := either "routeAudits" "route_audits" receipt;
        rf_runtime_audits := either "runtimeAudits" "runtime_audits" receipt;
        rf_signature := as_dict (dget "signature" receipt);
        rf_signer_node_id := str_value (either "signerNodeId" "signer_node_id" receipt);
        rf_recorded_at := opt (either "recordedAt" "recorded_at" receipt) |}.

Fixpoint _record_cai_owned_transport_embedded_shard_receipts (now : Z) (r : TransportSession)
    (receipts : list pydict) : TM TransportSession :=
  match receipts with
  | [] => mret r
  | receipt :: rest =>
      f ← tlift (embedded_fields receipt);
      r' ← record_cai_owned_transport_shard_receipt iso default_network policy_network now
             (ts_session_id r) f;
      _record_cai_owned_transport_embedded_shard_receipts now r' rest
  end.

(** The metadata the batch is recorded with. *)
Definition recorded_metadata (session_id batch_id : string) (envelope : pydict) : result pydict :=
  given ← py_dict (py_or (dget "metadata" envelope) (VDict []));
  Ok (dupdate given
        ([("transportBatchId", VStr batch_id)]
         ++ map (λ k, (k, dget k envelope))
              ["chainId"; "sequence"; "payloadEncoding"; "payloadCompression";
               "payloadEncodedSizeBytes"; "payloadChunkCount"; "payloadChunkSizeBytes"]
         ++ [("envelopeSchemaVersion", dget "schemaVersion" envelope);
             ("payloadStorage", VStr "local_file");
             ("payloadStorageKey", VStr (session_id +:+ "/" +:+ batch_id +:+ ".bin"))])).

Definition record_cai_owned_transport_batch_envelope (now : Z) (rules : SignatureRules)
    (session_id : string) (v : pyval) (local_node_id : string) : TM TransportSession := λ s,
  let clean_session_id := strip session_id in
  match cai_owned_transport_session_record clean_session_id (tp_sessions s) with
  | None => (s, Err (session_not_found clean_session_id))
  | Some r =>
      (_ ← raise_refusal (validate_cai_owned_transport_batch_envelope now rules clean_session_id
              (ts_participant_node_ids r) (ts_chain_id r) v);
       let envelope := default [] (as_dict v) in
       let local := strip local_node_id in
       let sink := str_or_strip (dget "sinkNodeId" envelope) in
       _ ← tlift (raise_unless (String.eqb local "" || String.eqb sink local)
             "CAI-owned transport batch envelope is not addressed to local node.");
       batch_id ← tlift (require_safe_transport_file_id (dget "batchId" envelope) "caibatch_");
       payload ← tlift (decode_cai_owned_transport_batch_payload envelope);
       path ← tlift (cai_owned_transport_batch_payload_path clean_session_id batch_id);
       _ ← with_payload path payload;
       metadata ← tlift (recorded_metadata clean_session_id batch_id envelope);
       let route_audit :=
         match dget "routeAudit" envelope with
         | VNone => as_dict (dget "routeAudit" metadata)
         | a => as_dict a
         end in
       let source := str_value (dget "sourceNodeId" envelope) in
       let final := _is_cai_owned_transport_final_output_batch r
         [("sourceNodeId", VStr source); ("sinkNodeId", VStr sink); ("metadata", VDict metadata)] in
       let metadata :=
         if final then dupdate metadata [("finalOutput", VBool true); ("deliveredToNodeId", VStr sink)]
         else metadata in
       size ← tlift (int_field "payloadSizeBytes" envelope);
       r' ← record_cai_owned_transport_batch iso now "" clean_session_id
         {| nb_phase := str_value (dget "phase" envelope); nb_source_node_id := source;
            nb_sink_node_id := sink; nb_batch_id := batch_id; nb_payload_size_bytes := size;
            nb_payload_sha256_hex := Some (str_value (dget "payloadSha256Hex" envelope));
            nb_metadata := metadata; nb_route_audit := route_audit;
            nb_status := if final then "delivered" else "received" |};
       if final then
         receipts ← tlift (_cai_owned_transport_embedded_shard_receipts metadata);
         _record_cai_owned_transport_embedded_shard_receipts now r' receipts
       else mret r') s
  end.

End transport.
