(* ===== verification/TransportAudit.v ===== *)
(** * The owned transport: execution proofs

    [cai_owned_transport_versioning.py] and, of [decentralized_compute.py], the proof of an
    execution, the audit of a session against its batches and its DAG, the completion of a
    session and the completion notices of other nodes. *)
From Stdlib Require Import Ascii.
From S2P Require Import Prelude.
From S2P Require Import PyStr.
From S2P Require Import PyVal.
From S2P Require Import PyOrder.
From S2P Require Import Sha256.
From S2P Require Import Money.
From S2P Require Import Signing.
From S2P Require Import ChainTx.
From S2P Require Import PeerPayload.
From S2P Require Import Transport.
From S2P Require Import TransportBatch.
From S2P Require Import TransportPlan.
From S2P Require Import TransportEnvelope.
Local Open Scope Z_scope.
Set Default Proof Using "Type".

(** ** Versions *)

(** [Some ""] when there is no label, [None] when it is not valid. *)
Definition version_char (c : ascii) : bool :=
  let n := code c in
  (48 <=? n) && (n <=? 57) || (65 <=? n) && (n <=? 90) || (97 <=? n) && (n <=? 122)
  || bool_decide (n ∈ [46; 95; 58; 47; 43; 45]).

Definition cai_owned_transport_version_label (v : pyval) : option string :=
  let clean := str_or_strip v in
  if String.eqb clean "" then Some ""
  else if (String.length clean <=? 128)%nat && all_chars version_char clean then Some clean else None.

Definition cai_owned_transport_int_list (v : pyval) : list Z :=
  match v with
  | VList l => foldl (λ cleaned x, match optional_int x with Some z => append_new cleaned z | None => cleaned end) [] l
  | _ => []
  end.

(** The errors of [cai_owned_transport_version_compatibility]; compatible when there is none. *)
Definition cai_owned_transport_version_errors (payload : pydict)
    (require_runtime_versions require_protocol_version : bool) : list string :=
  let protocol := str_or_strip (dget "protocol" payload) in
  let versions := cai_owned_transport_int_list
    (if_missing (dget "compatibleProtocolVersions" payload) (dget "compatible_protocol_versions" payload)) in
  let label a b := cai_owned_transport_version_label (if_missing (dget a payload) (dget b payload)) in
  let runtime_version := label "runtimeVersion" "runtime_version" in
  let adapter_id := label "adapterId" "adapter_id" in
  let adapter_version := label "adapterVersion" "adapter_version" in
  let missing o := String.eqb (default "" o) "" in
  let fact (b : bool) m := if b then [m] else [] in
  fact (negb (String.eqb protocol "") && negb (String.eqb protocol CAI_OWNED_TRANSPORT_PROTOCOL))
    "CAI-owned transport protocol is incompatible."
  ++ match optional_int (dget "protocolVersion" payload) with
     | None => fact require_protocol_version "CAI-owned transport protocol version is missing."
     | Some z => fact (negb (z =? CAI_OWNED_TRANSPORT_PROTOCOL_VERSION))
                   "CAI-owned transport protocol version is unsupported."
     end
  ++ fact (negb (is_nil versions) && negb (bool_decide (CAI_OWNED_TRANSPORT_PROTOCOL_VERSION ∈ versions)))
       "CAI-owned transport compatible protocol set excludes CAI."
  ++ fact (require_runtime_versions && missing runtime_version)
       "CAI-owned transport runtime version is missing."
  ++ fact (require_runtime_versions && missing adapter_version)
       "CAI-owned transport adapter version is missing."
  ++ fact (bool_decide (runtime_version = None)) "CAI-owned transport runtime version is invalid."
  ++ fact (bool_decide (adapter_id = None)) "CAI-owned transport adapter id is invalid."
  ++ fact (bool_decide (adapter_version = None)) "CAI-owned transport adapter version is invalid.".

(** ** Proofs *)

Record ProofRequest := {
  pq_session_id : string;
  pq_instance_id : string;
  pq_participant_node_ids : list string;
  pq_executor_node_ids : list string;
  pq_chain_id : option string;
  pq_model_id : option string;
  pq_task_id : option string;
  pq_activation_batch_count : Z;
  pq_decode_batch_count : Z;
  pq_shard_receipts : option (list pyval);
  pq_completed_at : string
}.

Definition build_cai_owned_transport_execution_proof (default_network : string) (q : ProofRequest)
  : result pydict :=
  let participants := clean_ids (pq_participant_node_ids q) in
  let executors := clean_ids (or_list (pq_executor_node_ids q) participants) in
  _ ← raise_unless (subset_of executors participants)
        "CAI-owned transport proof executors must be participants.";
  let chain_id := cai_owned_transport_chain_id default_network (pq_chain_id q) in
  let activation := VInt (Z.max 0 (pq_activation_batch_count q)) in
  let decode := VInt (Z.max 0 (pq_decode_batch_count q)) in
  let receipts :=
    match pq_shard_receipts q with
    | Some l => l
    | None =>
        map (λ n, VDict
          [("nodeId", VStr n); ("network", VStr chain_id); ("chainId", VStr chain_id);
           ("status", VStr "completed"); ("activationBatchCount", activation);
           ("decodeBatchCount", decode)]) executors
    end in
  Ok [("schemaVersion", VInt 1); ("protocol", VStr CAI_OWNED_TRANSPORT_PROTOCOL);
      ("protocolVersion", VInt CAI_OWNED_TRANSPORT_PROTOCOL_VERSION); ("network", VStr chain_id);
      ("chainId", VStr chain_id); ("sessionId", VStr (strip (pq_session_id q)));
      ("instanceId", VStr (strip (pq_instance_id q)));
      ("taskId", val_opt (opt_text (val_opt (pq_task_id q))));
      ("modelId", val_opt (opt_text (val_opt (pq_model_id q))));
      ("participantNodeIds", vstrs participants); ("executorNodeIds", vstrs executors);
      ("activationBatchCount", activation); ("decodeBatchCount", decode);
      ("shardReceipts", VList receipts); ("completed", VBool true);
      ("completedAt", VStr (pq_completed_at q))].

(** What the receipts seen so far name. *)
Record SeenReceipts := {
  sn_node_ids : list string;
  sn_stage_ids : list string;
  sn_hash_chains : list string
}.

Definition no_receipts_seen : SeenReceipts :=
  {| sn_node_ids := []; sn_stage_ids := []; sn_hash_chains := [] |}.

(** [[str(x).strip() for x in ids]], each safe and new *)
Fixpoint check_stage_ids (seen : list string) (ids : list pyval) : verdict (list string) :=
  match ids with
  | [] => Accepts seen
  | v :: ids' =>
      let stage_id := str_or_strip v in
      if String.eqb stage_id "" then check_stage_ids seen ids'
      else
        _ ← check (is_safe_transport_file_id (VStr stage_id) "caistage_")
              "CAI-owned transport proof shard receipt stage id is invalid.";
        _ ← check (negb (bool_decide (stage_id ∈ seen)))
              ("CAI-owned transport proof duplicates stage id '" +:+ stage_id +:+ "'.");
        check_stage_ids (seen ++ [stage_id]) ids'
  end.

(** The hashes of a field of a receipt. *)
Definition check_receipt_hashes (receipt : pydict) (field_name : string) : verdict (list string) :=
  match dget field_name receipt with
  | VNone => Accepts []
  | VList l => tries (mapM_r (λ v, normalize_sha256_hex v field_name) l) exn_text
  | _ => Refuses ("CAI-owned transport proof shard receipt " +:+ field_name +:+ " is invalid.")
  end.

Definition check_runtime_audit (v : pyval) : verdict unit :=
  match v with
  | VDict audit =>
      let errors := cai_owned_transport_version_errors audit true false in
      check (is_nil errors) (join "; " errors)
  | _ => Refuses "CAI-owned transport proof shard receipt runtime audit is invalid."
  end.

Definition check_runtime_audits (v : pyval) : verdict unit :=
  match v with
  | VNone => Accepts tt
  | VDict _ => check_runtime_audit v
  | VList l => all_checks (map check_runtime_audit l)
  | _ => Refuses "CAI-owned transport proof shard receipt runtime audits are invalid."
  end.

(** The hashes and the batch ids that the execution audit of a proof repeats. *)
Definition text_set (v : pyval) : option (list string) :=
  match py_or v (VList []) with
  | VList l => Some (List.filter (λ s, negb (String.eqb s "")) (map str_or_strip l))
  | _ => None
  end.

Definition check_execution_audit (receipt_batch_ids hash_chains : list string) (v : pyval)
  : verdict unit :=
  match v with
  | VNone => Accepts tt
  | VDict audit =>
      _ ← check (truthy (dget "verified" audit)) "CAI-owned transport execution audit is not verified.";
      errors ← tries (int_field "errorCount" audit)
                 (λ _, "CAI-owned transport execution audit error count is invalid.");
      _ ← check (errors =? 0) "CAI-owned transport execution audit contains errors.";
      _ ← check (match dget "errors" audit with VList (_ :: _) => false | _ => true end)
            "CAI-owned transport execution audit contains errors.";
      match text_set (dget "receiptBatchIds" audit) with
      | None => Refuses "CAI-owned transport execution audit receipt batch ids are invalid."
      | Some receipt_ids =>
          match text_set (dget "processedBatchIds" audit) with
          | None => Refuses "CAI-owned transport execution audit processed batch ids are invalid."
          | Some processed =>
              _ ← check (is_nil receipt_ids || same_set receipt_ids receipt_batch_ids)
                    "CAI-owned transport proof receipt batch ids do not match execution audit.";
              _ ← check (subset_of processed receipt_batch_ids)
                    "CAI-owned transport proof is missing audited processed batch ids.";
              match py_or (dget "hashChainSha256Hexes" audit) (VList []) with
              | VList l =>
                  hashes ← tries (mapM_r (λ v, normalize_sha256_hex v "hashChainSha256Hexes") l) exn_text;
                  check (subset_of hashes hash_chains)
                    "CAI-owned transport proof hash chain does not match execution audit."
              | _ => Refuses "CAI-owned transport execution audit hash chains are invalid."
              end
          end
      end
  | _ => Refuses "CAI-owned transport execution audit is invalid."
  end.

Section audit.
Context `{SignatureBackend} (env : Environ).
Context (iso : Z → string) (parse_iso : string → option Z).
Context (default_network : string).

(** One receipt of a proof. *)
Definition check_proof_receipt (now : Z) (rules : SignatureRules) (chain_id : string)
    (executors : list string) (seen : SeenReceipts) (v : pyval) : VM SeenReceipts :=
  match v with
  | VDict item =>
      _ ← vlift (check_chain_id item chain_id "proof shard receipt");
      let node_id := str_or_strip (dget "nodeId" item) in
      _ ← vlift (check (negb (String.eqb node_id ""))
                   "CAI-owned transport proof shard receipt node id is missing.");
      _ ← validate_cai_owned_transport_payload_signature env iso parse_iso now rules
            "CAI-owned transport shard receipt" node_id executors v;
      stage_ids ← vlift (match py_or (dget "stageIds" item) (VList []) with
                         | VList l => check_stage_ids (sn_stage_ids seen) l
                         | _ => Refuses "CAI-owned transport proof shard receipt stage ids are invalid."
                         end);
      _ ← vlift (check_receipt_hashes item "inputPayloadSha256Hexes");
      _ ← vlift (check_receipt_hashes item "outputPayloadSha256Hexes");
      chains ← vlift (check_receipt_hashes item "hashChainSha256Hexes");
      _ ← vlift (check_runtime_audits (dget "runtimeAudits" item));
      mret {| sn_node_ids := sn_node_ids seen ++ [node_id]; sn_stage_ids := stage_ids;
              sn_hash_chains := sn_hash_chains seen ++ chains |}
  | _ => vlift (Refuses "CAI-owned transport proof shard receipt is invalid.")
  end.

(** Who the proof is about, as the caller expects it. *)
Record ProofExpectation := {
  px_participant_node_ids : list string;
  px_executor_node_ids : list string;
  px_model_id : option string;
  px_chain_id : option string
}.

Definition is_completed_receipt (v : pyval) : bool :=
  match v with VDict d => String.eqb (str_or_strip (dget "status" d)) "completed" | _ => true end.

Definition validate_cai_owned_transport_execution_proof (now : Z) (rules : SignatureRules)
    (x : ProofExpectation) (v : pyval) : VM unit :=
  match v with
  | VDict proof =>
      _ ← vlift (check_protocol "proof" proof);
      chain_id ← vlift (check_chain_id proof
                   (cai_owned_transport_chain_id default_network (px_chain_id x)) "execution proof");
      _ ← vlift (check (negb (String.eqb (str_or_strip (dget "sessionId" proof)) ""))
                   "CAI-owned transport proof session id is missing.");
      _ ← vlift (check (truthy (dget "completed" proof))
                   "CAI-owned transport proof is not marked completed.");
      participants ← vlift (calls (node_ids_field (dget "participantNodeIds" proof)));
      let expected_participants := clean_ids (px_participant_node_ids x) in
      _ ← vlift (check (is_nil expected_participants || same_set participants expected_participants)
                   "CAI-owned transport proof participant set does not match.");
      executors ← vlift (if truthy (dget "executorNodeIds" proof)
                         then calls (node_ids_field (dget "executorNodeIds" proof))
                         else Accepts participants);
      let expected_executors := clean_ids (px_executor_node_ids x) in
      _ ← vlift (check (negb (is_nil executors)) "CAI-owned transport proof executors are missing.");
      _ ← vlift (check (subset_of executors participants)
                   "CAI-owned transport proof executors must be participants.");
      _ ← vlift (check (is_nil expected_executors || same_set executors expected_executors)
                   "CAI-owned transport proof executor set does not match.");
      _ ← validate_cai_owned_transport_payload_signature env iso parse_iso now rules
            "CAI-owned transport execution proof" "" participants v;
      let model := strip (default "" (px_model_id x)) in
      let proof_model := str_or_strip (dget "modelId" proof) in
      _ ← vlift (check (String.eqb model "" || String.eqb proof_model "" || String.eqb proof_model model)
                   "CAI-owned transport proof model id does not match.");
      match dget "shardReceipts" proof with
      | VList ((_ :: _) as receipts) =>
          seen ← foldV (check_proof_receipt now rules chain_id executors) no_receipts_seen receipts;
          _ ← vlift (check (subset_of (sn_node_ids seen) participants)
                       "CAI-owned transport proof shard receipt node is not a participant.");
          _ ← vlift (check (subset_of (sn_node_ids seen) executors)
                       "CAI-owned transport proof shard receipt node is not an executor.");
          _ ← vlift (check (subset_of (or_list expected_executors executors) (sn_node_ids seen))
                       "CAI-owned transport proof does not cover every executor.");
          let ids := cai_owned_transport_proof_batch_ids proof in
          _ ← vlift (check (is_nil ids.2) (default "" (head ids.2)));
          _ ← vlift (check (forallb is_completed_receipt receipts)
                       "CAI-owned transport proof contains incomplete shard receipts.");
          vlift (check_execution_audit ids.1 (sn_hash_chains seen) (dget "executionAudit" proof))
      | _ => vlift (Refuses "CAI-owned transport proof shard receipts are missing.")
      end
  | _ => vlift (Refuses "CAI-owned transport proof is missing.")
  end.

(** ** The audit of a batch *)

Definition batch_error (batch_id what : string) : string :=
  "CAI-owned transport batch '" +:+ batch_id +:+ "' " +:+ what.

(** The error of a processed batch, if any, and its hash when it could be read. *)
Definition _validate_cai_owned_transport_processed_batch_execution_audit (session_id : string)
    (known_batch_ids : list string) (s : TransportStore) (b : pydict) : option string * option string :=
  let batch_id := batch_text "batchId" b in
  let input_hash := str_or_strip (py_or (dget "inputPayloadSha256Hex" b) (dget "payloadSha256Hex" b)) in
  let output_hash := batch_text "outputPayloadSha256Hex" b in
  let chain_hash := batch_text "hashChainSha256Hex" b in
  let previous := previous_batch b in
  if String.eqb input_hash "" then (Some (batch_error batch_id "is missing input hash."), None)
  else if String.eqb output_hash "" then (Some (batch_error batch_id "is missing output hash."), None)
  else if String.eqb chain_hash "" then (Some (batch_error batch_id "is missing hash chain."), None)
  else if negb (String.eqb previous "") && negb (bool_decide (previous ∈ known_batch_ids)) then
    (Some (batch_error batch_id ("previous batch '" +:+ previous +:+ "' is not in this session.")), None)
  else
    match
      h ← build_cai_owned_transport_batch_hash_chain session_id batch_id input_hash output_hash
            (default 0 (batch_sequence b)) previous;
      c ← normalize_sha256_hex (VStr chain_hash) "hashChainSha256Hex";
      Ok (hash_chain_digest h, c)
    with
    | Err e => (Some (exn_text e), None)
    | Ok (expected, chain) =>
        if negb (String.eqb expected chain) then
          (Some (batch_error batch_id "hash chain does not match."), Some chain)
        else if negb (String.eqb (batch_text "outputPayloadStorageKey" b) "") then
          match verified_cai_owned_transport_batch_output_payload session_id batch_id s with
          | Ok _ => (None, Some chain)
          | Err e =>
              (Some (batch_error batch_id ("output payload is not verifiable: " +:+ exn_text e)),
               Some chain)
          end
        else (None, Some chain)
    end.

(** ** The audit of a session *)

(** What the batches of a session say. *)
Record BatchTally := {
  bt_processed : list string;
  bt_final_outputs : list string;
  bt_blocked : list string;
  bt_hash_chains : list string;
  bt_errors : list string
}.

Definition tally_of (errors processed final blocked chains : list string) : BatchTally :=
  {| bt_processed := processed; bt_final_outputs := final; bt_blocked := blocked;
     bt_hash_chains := chains; bt_errors := errors |}.

Definition blocked_statuses : list string := ["failed"; "timed_out"; "hash_mismatch"].

Definition audit_batch (r : TransportSession) (known_batch_ids : list string) (s : TransportStore)
    (b : pydict) : BatchTally :=
  let batch_id := batch_text "batchId" b in
  let status := batch_status b in
  if String.eqb batch_id "" then tally_of ["CAI-owned transport batch id is missing."] [] [] [] []
  else if bool_decide (status ∈ blocked_statuses) then
    tally_of [batch_error batch_id ("is " +:+ status +:+ ".")] [] [] [batch_id] []
  else if _is_cai_owned_transport_final_output_batch r b then tally_of [] [] [batch_id] [] []
  else if negb (String.eqb status "processed") then
    tally_of [batch_error batch_id "is not processed."] [] [] [] []
  else
    let '(error, chain) := _validate_cai_owned_transport_processed_batch_execution_audit
                             (ts_session_id r) known_batch_ids s b in
    tally_of (option_list error) [batch_id] [] [] (option_list chain).

Definition tally_app (a b : BatchTally) : BatchTally :=
  {| bt_processed := bt_processed a ++ bt_processed b;
     bt_final_outputs := bt_final_outputs a ++ bt_final_outputs b;
     bt_blocked := bt_blocked a ++ bt_blocked b;
     bt_hash_chains := bt_hash_chains a ++ bt_hash_chains b;
     bt_errors := bt_errors a ++ bt_errors b |}.

(** The coverage of the DAG of the session, when it has one, and the errors. *)
Record DagCoverage := {
  dc_hash : pyval;
  dc_expected : list string;
  dc_processed : list string;
  dc_missing : list string;
  dc_unknown : list string;
  dc_errors : list string
}.

Definition filled_texts (l : list string) : list string := List.filter (λ s, negb (String.eqb s "")) l.

Definition receipt_stage_ids (v : pydict) : result (list string) :=
  l ← iterated (dget "stageIds" v); Ok (filled_texts (map str_or_strip l)).

Definition _validate_cai_owned_transport_execution_dag_coverage (r : TransportSession)
    (final_output_batch_ids : list string) : result (option DagCoverage) :=
  match dget "executionDag" (ts_route_policy r) with
  | VDict dag =>
      valid ← match validate_cai_owned_transport_execution_dag default_network (VDict dag)
                      (ts_chain_id r) (ts_session_id r) (ts_participant_node_ids r) with
              | Accepts _ => Ok []
              | Refuses m => Ok [m]
              | Raises e => Err e
              end;
      stages ← dag_stage_list dag;
      let expected := filled_texts (map (batch_text "stageId") stages) in
      receipts ← mapM_r receipt_stage_ids (ts_shard_receipts r);
      let processed :=
        filled_texts (map (λ b, str_or_strip (dget "stageId" (metadata_of b)))
                  (List.filter (λ b, String.eqb (batch_text "status" b) "processed") (ts_batch_records r)))
        ++ concat receipts in
      let missing := List.filter (λ i, negb (bool_decide (i ∈ processed))) expected in
      let unknown := List.filter (λ i, negb (bool_decide (i ∈ expected))) processed in
      Ok (Some {|
        dc_hash := dget "dagHashSha256Hex" dag; dc_expected := expected; dc_processed := processed;
        dc_missing := missing; dc_unknown := unknown;
        dc_errors :=
          valid
          ++ (if is_nil missing then [] else
                ["CAI-owned transport execution DAG is missing processed stage ids: " +:+ join ", " missing])
          ++ (if is_nil unknown then [] else
                ["CAI-owned transport execution DAG has unknown processed stage ids: " +:+ join ", " unknown])
          ++ (if negb (is_nil expected) && is_nil final_output_batch_ids
              then ["CAI-owned transport execution DAG final output is missing."] else []) |})
  | _ => Ok None
  end.

Definition dag_audit_dict (final_output_batch_ids : list string) (c : DagCoverage) : pyval := VDict
  [("verified", VBool (is_nil (dc_errors c))); ("dagHashSha256Hex", dc_hash c);
   ("expectedStageIds", vstrs (dc_expected c)); ("processedStageIds", vstrs (dc_processed c));
   ("missingStageIds", vstrs (dc_missing c)); ("unknownStageIds", vstrs (dc_unknown c));
   ("finalOutputBatchIds", vstrs final_output_batch_ids)].

Record ExecutionAuditResult := {
  xa_session_id : string;
  xa_tally : BatchTally;
  xa_receipt_batch_ids : list string;
  xa_dag : option DagCoverage;
  xa_batch_count : Z;
  xa_errors : list string;
  xa_verified_at : string
}.

Definition execution_audit_dict (a : ExecutionAuditResult) : pydict :=
  let t := xa_tally a in
  [("verified", VBool (is_nil (xa_errors a))); ("sessionId", VStr (xa_session_id a));
   ("processedBatchIds", vstrs (bt_processed t)); ("finalOutputBatchIds", vstrs (bt_final_outputs t));
   ("blockedBatchIds", vstrs (bt_blocked t));
   ("receiptBatchIds", vstrs (py_sorted str_leb (xa_receipt_batch_ids a)));
   ("hashChainSha256Hexes", vstrs (bt_hash_chains t));
   ("executionDag", match xa_dag a with Some c => dag_audit_dict (bt_final_outputs t) c | None => VNone end);
   ("batchRecordCount", VInt (xa_batch_count a));
   ("processedBatchCount", VInt (Z.of_nat (length (bt_processed t))));
   ("finalOutputBatchCount", VInt (Z.of_nat (length (bt_final_outputs t))));
   ("errorCount", VInt (Z.of_nat (length (xa_errors a)))); ("errors", vstrs (xa_errors a));
   ("verifiedAt", VStr (xa_verified_at a))].

(** The errors of the coverage of the processed batches by the proof. *)
Definition coverage_errors (processed receipt_batch_ids : list string) : list string :=
  let missing := List.filter (λ i, negb (bool_decide (i ∈ receipt_batch_ids))) processed in
  if negb (is_nil processed) && is_nil receipt_batch_ids then
    ["CAI-owned transport proof does not cover processed batches."]
  else if is_nil missing then []
  else ["CAI-owned transport proof is missing processed batch ids: " +:+ join ", " missing].

Definition validate_cai_owned_transport_session_execution_audit (now : Z) (r : TransportSession)
    (proof : pydict) (s : TransportStore) : result ExecutionAuditResult :=
  let batches := ts_batch_records r in
  known ← cai_owned_transport_shard_receipt_batch_ids (map VDict (ts_shard_receipts r));
  let known_batch_ids := filled_texts (map (batch_text "batchId") batches) ++ known.1 in
  let t := foldr (λ b, tally_app (audit_batch r known_batch_ids s b)) (tally_of [] [] [] [] []) batches in
  dag ← _validate_cai_owned_transport_execution_dag_coverage r (bt_final_outputs t);
  let receipts := cai_owned_transport_proof_batch_ids proof in
  Ok {| xa_session_id := ts_session_id r; xa_tally := t; xa_receipt_batch_ids := receipts.1;
        xa_dag := dag; xa_batch_count := Z.of_nat (length batches);
        xa_errors :=
          known.2 ++ bt_errors t ++ match dag with Some c => dc_errors c | None => [] end
          ++ receipts.2 ++ coverage_errors (bt_processed t) receipts.1
          ++ (if is_nil batches then ["CAI-owned transport session has no batch records."] else [])
          ++ (if is_nil (bt_processed t) && is_nil receipts.1
              then ["CAI-owned transport session has no processed batches."] else []);
        xa_verified_at := iso now |}.

(** ** Completion *)

(** The end of a session: completed with a proof, or failed with an error. *)
Definition with_end (r : TransportSession) (status updated_at : string) (proof : option pydict)
    (completed_at last_error : option string) : TransportSession := {|
  ts_session_id := ts_session_id r; ts_instance_id := ts_instance_id r;
  ts_participant_node_ids := ts_participant_node_ids r; ts_status := status;
  ts_created_at := ts_created_at r; ts_updated_at := updated_at;
  ts_executor_node_ids := ts_executor_node_ids r; ts_chain_id := ts_chain_id r;
  ts_model_id := ts_model_id r; ts_task_id := ts_task_id r;
  ts_source_node_id := ts_source_node_id r; ts_execution_mode := ts_execution_mode r;
  ts_route_policy := ts_route_policy r; ts_dispatch_records := ts_dispatch_records r;
  ts_batch_records := ts_batch_records r; ts_shard_receipts := ts_shard_receipts r;
  ts_proof := proof; ts_completed_at := completed_at; ts_last_error := last_error |}.

Definition completed_session (now : string) (proof : pydict) (r : TransportSession) : TransportSession :=
  with_end r "completed" now (Some proof)
    (Some (py_str (py_or (dget "completedAt" proof) (VStr now)))) None.

(** What the caller gives to complete a session. *)
Record CompletionRequest := {
  cq_activation_batch_count : Z;
  cq_decode_batch_count : Z;
  cq_shard_receipts : option (list pyval);
  cq_proof : option pydict
}.

(** The receipts the proof is built from: those given, those recorded, or those of the batches. *)
Definition completion_receipts (q : CompletionRequest) (r : TransportSession) : list pyval :=
  match cq_shard_receipts q, ts_shard_receipts r with
  | Some l, _ => l
  | None, [] => map VDict (cai_owned_transport_shard_receipts_from_processed_batches r)
  | None, l => map VDict l
  end.

Definition or_count (n m : Z) : Z := if n =? 0 then m else n.

Definition completion_proof (now : Z) (q : CompletionRequest) (r : TransportSession) : result pydict :=
  match cq_proof q with
  | Some ((_ :: _) as proof) => Ok proof
  | _ =>
      let receipts :=
        match cq_proof q with Some _ => cq_shard_receipts q | None => Some (completion_receipts q r) end in
      let count k n :=
        match cq_proof q with
        | Some _ => n | None => or_count n (max_receipt_count k (completion_receipts q r)) end in
      build_cai_owned_transport_execution_proof default_network
        {| pq_session_id := ts_session_id r; pq_instance_id := ts_instance_id r;
           pq_participant_node_ids := ts_participant_node_ids r; pq_executor_node_ids := executors_of r;
           pq_chain_id := ts_chain_id r; pq_model_id := ts_model_id r; pq_task_id := ts_task_id r;
           pq_activation_batch_count := count "activationBatchCount" (cq_activation_batch_count q);
           pq_decode_batch_count := count "decodeBatchCount" (cq_decode_batch_count q);
           pq_shard_receipts := receipts; pq_completed_at := iso now |}
  end.

Definition session_expectation (r : TransportSession) : ProofExpectation := {|
  px_participant_node_ids := ts_participant_node_ids r; px_executor_node_ids := executors_of r;
  px_model_id := ts_model_id r; px_chain_id := ts_chain_id r |}.

(** The proof with the audit of the session in it. *)
Definition audited_proof (proof : pydict) (a : ExecutionAuditResult) : pydict :=
  dset "executionAudit" (VDict (execution_audit_dict a)) proof.

Definition complete_cai_owned_transport_session (now : Z) (session_id : string) (q : CompletionRequest)
  : TM TransportSession := λ s,
  on_session session_id (λ r,
    let failed error := Some (with_end r "failed" (iso now) (ts_proof r) (ts_completed_at r) (Some error)) in
    match
      proof ← completion_proof now q r;
      a ← validate_cai_owned_transport_session_execution_audit now r proof s;
      Ok (proof, a)
    with
    | Err e => (None, Err e)
    | Ok (proof, a) =>
        match xa_errors a with
        | error :: _ => (failed error, Err (ValueError error))
        | [] =>
            let proof' := audited_proof proof a in
            match (validate_cai_owned_transport_execution_proof now default_rules
                     (session_expectation r) (VDict proof') s).2 with
            | Accepts _ =>
                let r' := completed_session (iso now) proof' r in (Some r', Ok r')
            | Refuses error => (failed error, Err (ValueError error))
            | Raises e => (None, Err e)
            end
        end
    end) s.

(** ** Completion notices *)

(** [sorted(local - covered)[:5]] *)
Definition not_covered (local covered : list string) : list string :=
  take 5 (py_sorted str_leb (remove_dups (List.filter (λ i, negb (bool_decide (i ∈ covered))) local))).

Definition receipt_output_hashes (v : pyval) : result (list string) :=
  match v with
  | VDict d =>
      clean_cai_owned_transport_receipt_hashes "outputPayloadSha256Hexes"
        (match dget "outputPayloadSha256Hexes" d with VList l => VList l | _ => VList [] end)
  | _ => Ok []
  end.

(** The error, if any: a processed or delivered batch of this node, or an output of it, that the
    proof does not name. *)
Definition _validate_cai_owned_transport_completion_notice_coverage (r : TransportSession)
    (proof : pydict) : result (option string) :=
  let own := List.filter (λ b, bool_decide (batch_text "status" b ∈ ["processed"; "delivered"]))
               (ts_batch_records r) in
  let receipts := match dget "shardReceipts" proof with VList l => l | _ => [] end in
  ids ← cai_owned_transport_shard_receipt_batch_ids receipts;
  match head ids.2 with
  | Some error => Ok (Some error)
  | None =>
      audited ← match dget "executionAudit" proof with
                | VDict audit =>
                    clean_cai_owned_transport_receipt_batch_ids
                      (match dget "receiptBatchIds" audit with VList l => VList l | _ => VList [] end)
                | _ => Ok []
                end;
      match not_covered (filled_texts (map (batch_text "batchId") own)) (ids.1 ++ audited) with
      | (_ :: _) as missing =>
          Ok (Some ("CAI-owned transport completion proof does not cover local processed batch ids: "
                    +:+ join ", " missing))
      | [] =>
          hashes ← mapM_r receipt_output_hashes receipts;
          match not_covered (filled_texts (map (λ b, lower (batch_text "outputPayloadSha256Hex" b)) own))
                  (concat hashes) with
          | (_ :: _) as missing =>
              Ok (Some ("CAI-owned transport completion proof does not cover local output payload hashes: "
                        +:+ join ", " missing))
          | [] => Ok None
          end
      end
  end.

Definition accept_cai_owned_transport_completion_notice (now : Z) (session_id : string) (v : pyval)
  : TM TransportSession := λ s,
  match v with
  | VDict proof =>
      if negb (String.eqb (str_or_strip (dget "sessionId" proof)) (strip session_id)) then
        (s, Err (ValueError "CAI-owned transport completion proof session id mismatch."))
      else
      on_session session_id (λ r,
        if String.eqb (ts_status r) "completed" then (None, Ok r)
        else if String.eqb (ts_status r) "failed" then
          (None, Err (ValueError "Cannot complete a failed CAI-owned transport session."))
        else
        match (validate_cai_owned_transport_execution_proof now default_rules
                 (session_expectation r) v s).2 with
        | Refuses error => (None, Err (ValueError error))
        | Raises e => (None, Err e)
        | Accepts _ =>
            let unverified :=
              match dget "executionAudit" proof with
              | VDict audit => match dget "verified" audit with VBool false => true | _ => false end
              | _ => false
              end in
            if unverified then
              (None, Err (ValueError "CAI-owned transport completion proof audit is not verified."))
            else
            match _validate_cai_owned_transport_completion_notice_coverage r proof with
            | Err e => (None, Err e)
            | Ok (Some error) => (None, Err (ValueError error))
            | Ok None => let r' := completed_session (iso now) proof r in (Some r', Ok r')
            end
        end) s
  | _ => (s, Err (ValueError "CAI-owned transport completion proof must be an object."))
  end.

(** The proof of the latest completed session of an instance that is valid. *)
Definition latest_completed_cai_owned_transport_proof_for_instance (now : Z) (instance_id : string)
    (participant_node_ids : list string) (model_id : option string) (s : TransportStore)
  : option pydict :=
  let clean_instance_id := strip instance_id in
  if String.eqb clean_instance_id "" then None
  else
    head (omap (λ r,
      proof ← ts_proof r;
      if String.eqb (ts_instance_id r) clean_instance_id && String.eqb (ts_status r) "completed"
         && is_accepted (validate_cai_owned_transport_execution_proof now default_rules
              {| px_participant_node_ids := []; px_executor_node_ids := participant_node_ids;
                 px_model_id := model_id; px_chain_id := ts_chain_id r |} (VDict proof) s).2
      then Some proof else None) (list_cai_owned_transport_sessions (tp_sessions s))).

End audit.
