(* ===== verification/TransportFacts.v ===== *)
(** * Facts of the owned transport

    How the file of the sessions behaves as a map, which fields of a batch an operation can change,
    and when an operation leaves a batch as it is. *)
From Stdlib Require Import Ascii.
From S2P Require Import Prelude.
From S2P Require Import PyStr.
From S2P Require Import PyVal.
From S2P Require Import Sha256.
From S2P Require Import Money.
From S2P Require Import Signing.
From S2P Require Import ChainTx.
From S2P Require Import PeerPayload.
From S2P Require Import PeerFacts.
From S2P Require Import Transport.
From S2P Require Import TransportBatch.
From S2P Require Import TransportPlan.
From S2P Require Import TransportEnvelope.
From S2P Require Import TransportAudit.
Local Open Scope Z_scope.
Set Default Proof Using "Type".

(** ** The file of the sessions *)

Lemma session_leb_total x y : session_leb x y = true ∨ session_leb y x = true.
Proof.
  unfold session_leb. rewrite (String.eqb_sym (ts_created_at y)).
  destruct (String.eqb _ _); apply str_leb_total.
Qed.

Lemma session_leb_trans x y z : session_leb x y = true → session_leb y z = true → session_leb x z = true.
Proof.
  unfold session_leb.
  destruct (String.eqb_spec (ts_created_at x) (ts_created_at y)) as [->|Hxy],
    (String.eqb_spec (ts_created_at y) (ts_created_at z)) as [Hyz|Hyz].
  - intros ??. eauto using str_leb_trans.
  - done.
  - rewrite <- Hyz, (proj2 (String.eqb_neq _ _) Hxy). done.
  - intros H1 H2. destruct (String.eqb_spec (ts_created_at x) (ts_created_at z)) as [E|E].
    + destruct Hxy. rewrite E in *. by apply str_leb_antisym.
    + eauto using str_leb_trans.
Qed.

Lemma find_app_some {A} (p : A → bool) l k x : List.find p l = Some x → List.find p (l ++ k) = Some x.
Proof. induction l as [|y l IH]; cbn; [done|]. by destruct (p y). Qed.

Definition same_session_key (x y : TransportSession) : Prop :=
  ts_session_id x = ts_session_id y ∧ ts_created_at x = ts_created_at y.

Lemma same_key_leb x x' y y' : same_session_key x x' → same_session_key y y' → session_leb x y = session_leb x' y'.
Proof. unfold session_leb. by intros [-> ->] [-> ->]. Qed.

Lemma put_session_keys r l r0 :
  List.find (has_id (ts_session_id r)) l = Some r0 → same_session_key r0 r → Forall2 same_session_key l (put_session r l).
Proof.
  induction l as [|x l IH]; cbn; [done|]. intros Hf Hk.
  assert (∀ l, Forall2 same_session_key l l) as Hrefl by (induction l0; constructor; done).
  destruct (has_id _ x) eqn:E; [injection Hf as ->|]; constructor; eauto. done.
Qed.

Lemma same_keys_sorted l l' :
  Forall2 same_session_key l l' → StronglySorted (λ x y, session_leb x y = true) l →
  StronglySorted (λ x y, session_leb x y = true) l'.
Proof.
  intros H2. induction H2 as [|x x' l l' Hx Hl IH]; intros Hs; [constructor|].
  inversion Hs as [|? ? Hs' Hall]; subst. constructor; [by apply IH|].
  clear IH Hs Hs'. induction Hl as [|y y' l l' Hy Hl IH]; constructor; inversion Hall; subst; [|by apply IH].
  by rewrite <- (same_key_leb x x' y y').
Qed.

Lemma sessions_sorted l :
  StronglySorted (λ x y, session_leb x y = true) (list_cai_owned_transport_sessions l).
Proof. apply py_sorted_sorted; [apply session_leb_total|apply session_leb_trans]. Qed.

Lemma sessions_listed_again l :
  StronglySorted (λ x y, session_leb x y = true) l → list_cai_owned_transport_sessions l = l.
Proof. apply py_sorted_id. Qed.

Lemma find_put_session r r0 i l :
  List.find (has_id (ts_session_id r)) l = Some r0 →
  List.find (has_id i) (put_session r l)
  = if String.eqb (ts_session_id r) i then Some r else List.find (has_id i) l.
Proof.
  induction l as [|x l IH]; [done|]. cbn [put_session List.find].
  change (has_id (ts_session_id r) x) with (String.eqb (ts_session_id x) (ts_session_id r)).
  destruct (String.eqb_spec (ts_session_id x) (ts_session_id r)) as [E|E]; intros Hf; cbn [List.find];
    unfold has_id in *.
  - rewrite E. by destruct (String.eqb (ts_session_id r) i).
  - rewrite IH by done. destruct (String.eqb_spec (ts_session_id x) i) as [<-|]; [|done].
    by rewrite (proj2 (String.eqb_neq _ _)) by congruence.
Qed.

(** The session with an id, as the operations find it. *)
Definition session_of (sid : string) (s : TransportStore) : option TransportSession :=
  List.find (has_id (strip sid)) (list_cai_owned_transport_sessions (tp_sessions s)).

Lemma session_of_id sid s r : session_of sid s = Some r → ts_session_id r = strip sid.
Proof. intros [_ E]%List.find_some. by apply String.eqb_eq in E. Qed.

Lemma batch_record_session sid bid s :
  batch_record sid bid s = r ← session_of sid s; find_batch bid r.
Proof. done. Qed.

(** What an operation on a session does to the store. *)
Lemma on_session_cases {A} id (f : TransportSession → option TransportSession * result A) s :
  match session_of id s with
  | None => on_session id f s = (s, Err (session_not_found (strip id)))
  | Some r =>
      match f r with
      | (None, a) => on_session id f s = (s, a)
      | (Some r', a) =>
          (on_session id f s).2 = a
          ∧ (same_session_key r r' →
             ∀ i, session_of i (on_session id f s).1
                  = if String.eqb (strip id) (strip i) then Some r' else session_of i s)
      end
  end.
Proof.
  unfold on_session, session_of. destruct (List.find _ _) as [r|] eqn:Ef; [|done].
  pose proof (proj2 (List.find_some _ _ Ef)) as Hid. apply String.eqb_eq in Hid.
  destruct (f r) as [[r'|] a]; [|done]. split; [done|]. intros Hk i. cbn [fst with_sessions tp_sessions].
  assert (ts_session_id r' = strip id) as Hid' by (destruct Hk; congruence).
  rewrite sessions_listed_again.
  - rewrite (find_put_session r' r), Hid'; [done|by rewrite Hid'].
  - eapply same_keys_sorted; [|apply sessions_sorted]. eapply put_session_keys; [by rewrite Hid'|done].
Qed.

(** A change of the session with the id, saved or refused. *)
Lemma change_session_ok id f s r r' :
  session_of id s = Some r → f r = Ok r' → same_session_key r r' →
  (change_session id f s).2 = Ok r'
  ∧ ∀ i, session_of i (change_session id f s).1
         = if String.eqb (strip id) (strip i) then Some r' else session_of i s.
Proof.
  intros Hr Hf Hk. unfold change_session.
  pose proof (on_session_cases id (λ r, match f r with Ok r' => (Some r', Ok r') | Err e => (None, Err e) end) s)
    as Hc. cbn beta in Hc. rewrite Hr, Hf in Hc. destruct Hc as [-> Hc]. auto.
Qed.

Lemma change_session_refused id f s r :
  session_of id s = Some r → is_ok (f r) = false →
  is_ok (change_session id f s).2 = false ∧ (change_session id f s).1 = s.
Proof.
  intros Hr Hf. unfold change_session.
  pose proof (on_session_cases id (λ r, match f r with Ok r' => (Some r', Ok r') | Err e => (None, Err e) end) s)
    as Hc. cbn beta in Hc. rewrite Hr in Hc. destruct (f r); [done|]. by rewrite Hc.
Qed.

Lemma session_of_append i s r :
  has_id (strip i) r = false →
  session_of i (with_sessions s (list_cai_owned_transport_sessions (tp_sessions s) ++ [r])) = session_of i s.
Proof.
  intros Hr. unfold session_of. rewrite !find_head_filter. cbn [tp_sessions with_sessions].
  unfold list_cai_owned_transport_sessions at 1.
  rewrite filter_py_sorted by (apply session_leb_total || apply session_leb_trans).
  rewrite filter_app, (filter_none _ [r]), app_nil_r; [|constructor; [by rewrite Hr|done]].
  rewrite py_sorted_id; [done|]. unfold list_cai_owned_transport_sessions.
  rewrite filter_py_sorted by (apply session_leb_total || apply session_leb_trans).
  apply py_sorted_sorted; [apply session_leb_total|apply session_leb_trans].
Qed.

(** ** The batches of a session *)

Lemma change_batch_find {A} missing cid (f : pydict → result (pydict * A)) l l' a bid :
  change_batch missing cid f l = Ok (l', a) →
  ∃ b b', List.find (has_batch_id cid) l = Some b ∧ f b = Ok (b', a)
    ∧ (batch_text "batchId" b' = batch_text "batchId" b →
       List.find (has_batch_id bid) l'
       = if String.eqb cid bid then Some b' else List.find (has_batch_id bid) l).
Proof.
  revert l'. induction l as [|b l IH]; intros l'; [done|]. cbn [change_batch List.find].
  destruct (has_batch_id cid b) eqn:E.
  - intros H. apply bind_ok in H as ([b' a'] & Hf & [= <- <-]). exists b, b'. split_and!; [done..|].
    intros Hid. cbn. unfold has_batch_id in *. apply String.eqb_eq in E. rewrite Hid, E.
    by destruct (String.eqb cid bid).
  - intros H. apply bind_ok in H as ([l1 a1] & Hl & [= <- <-]).
    destruct (IH _ Hl) as (b1 & b' & Hb & Hf & Hfind). exists b1, b'. split_and!; [done..|].
    intros Hid. cbn. rewrite (Hfind Hid). unfold has_batch_id in *. apply String.eqb_neq in E.
    destruct (String.eqb_spec (batch_text "batchId" b) bid) as [<-|]; [|done].
    by rewrite (proj2 (String.eqb_neq _ _)) by congruence.
Qed.

(** The changed batch stands where the batch was. *)
Lemma change_batch_ok {A} missing cid (f : pydict → result (pydict * A)) l b b' a :
  List.find (has_batch_id cid) l = Some b → f b = Ok (b', a) →
  ∃ l', change_batch missing cid f l = Ok (l', a).
Proof.
  intros Hb Hf. induction l as [|x l IH]; [done|]. cbn [List.find change_batch] in *.
  destruct (has_batch_id cid x); [injection Hb as ->; rewrite Hf; by eexists|].
  destruct (IH Hb) as [l' ->]. by eexists.
Qed.

Lemma change_batch_refused {A} missing cid (f : pydict → result (pydict * A)) l b :
  List.find (has_batch_id cid) l = Some b → is_ok (f b) = false → is_ok (change_batch missing cid f l) = false.
Proof.
  intros Hb Hf. destruct (change_batch missing cid f l) as [[l' a]|e] eqn:E; [|done].
  destruct (change_batch_find _ _ _ _ _ _ cid E) as (b1 & b' & Hb1 & Hf1 & _).
  rewrite Hb in Hb1. injection Hb1 as <-. by rewrite Hf1 in Hf.
Qed.

Lemma find_batch_map (f : pydict → pydict) bid l :
  (∀ b, batch_text "batchId" (f b) = batch_text "batchId" b) →
  List.find (has_batch_id bid) (map f l) = f <$> List.find (has_batch_id bid) l.
Proof.
  intros Hf. induction l as [|b l IH]; [done|]. cbn [map List.find]. unfold has_batch_id in *.
  rewrite Hf. by destruct (String.eqb _ _).
Qed.

(** Fields that an update does not name. *)
Lemma dget_dupdate k d items :
  k ∉ items.*1 → dget k (dupdate d items) = dget k d.
Proof.
  revert d. induction items as [|[k' v] items IH]; intros d; [done|]. cbn [dupdate foldl fmap list_fmap].
  rewrite not_elem_of_cons. intros [Hk Hi]. change (dget k (dupdate (dset k' v d) items) = dget k d).
  rewrite IH by done. rewrite dget_dset. by rewrite (proj2 (String.eqb_neq _ _)) by done.
Qed.

(** The last value that an update gives to a field. *)
Lemma dget_dupdate_in k v d items1 items2 :
  k ∉ items2.*1 → dget k (dupdate d (items1 ++ (k, v) :: items2)) = v.
Proof.
  intros Hk. unfold dupdate. rewrite foldl_app. cbn [foldl].
  change (dget k (dupdate (dset k v (dupdate d items1)) items2) = v).
  rewrite dget_dupdate by done. by rewrite dget_dset, String.eqb_refl.
Qed.

Lemma dget_dupdate_head k v d items : k ∉ items.*1 → dget k (dupdate d ((k, v) :: items)) = v.
Proof. apply (dget_dupdate_in k v d []). Qed.

Lemma dlookup_dpop k k' d : dlookup k (dpop k' d) = if String.eqb k k' then None else dlookup k d.
Proof.
  induction d as [|[a x] d IH]; [by destruct (String.eqb k k')|]. rewrite dpop_cons. cbn [dlookup].
  destruct (String.eqb_spec k' a) as [->|Ha]; cbn [dlookup]; rewrite IH.
  - by destruct (String.eqb k a).
  - destruct (String.eqb_spec k a) as [->|Hk]; [|done].
    by rewrite (proj2 (String.eqb_neq a k')) by congruence.
Qed.

Lemma dget_dpop k k' d : dget k (dpop k' d) = if String.eqb k k' then VNone else dget k d.
Proof. unfold dget. rewrite dlookup_dpop. by destruct (String.eqb k k'). Qed.

Ltac fields :=
  rewrite ?dget_dset, ?dget_dpop, ?dget_dupdate by (cbn; repeat (rewrite not_elem_of_cons; split; [done|]); apply not_elem_of_nil);
  try done.

Section fields.
Context (iso : Z → string) (parse_iso : string → option Z).

Lemma lease_fields k now lease b :
  k ∉ ["heartbeatAt"; "leaseSeconds"; "leaseExpiresAt"] →
  dget k (apply_cai_owned_transport_batch_lease iso now lease b) = dget k b.
Proof. intros Hk. unfold apply_cai_owned_transport_batch_lease. by rewrite dget_dupdate. Qed.

Lemma cleared_fields k b :
  k ∉ ["previousRuntimeId"; "runtimeId"; "heartbeatAt"; "leaseExpiresAt"; "leaseSeconds"; "claimedByNodeId"] →
  dget k (clear_cai_owned_transport_batch_runtime_claim b) = dget k b.
Proof.
  rewrite !not_elem_of_cons. intros (H0 & H1 & H2 & H3 & H4 & H5 & _).
  unfold clear_cai_owned_transport_batch_runtime_claim. cbn [foldr]. rewrite !dget_dpop.
  repeat rewrite (proj2 (String.eqb_neq k _)) by done.
  destruct (String.eqb _ _); [done|]. rewrite dget_dset. by rewrite (proj2 (String.eqb_neq k _)) by done.
Qed.
End fields.

(** ** What operations leave of a batch *)

(** No operation changes the id or the ends of a batch. *)
Definition fixed_fields : list string := ["batchId"; "sinkNodeId"; "sourceNodeId"; "phase"; "payloadSha256Hex"].

Definition same_batch (b b' : pydict) : Prop := ∀ k, k ∈ fixed_fields → dget k b' = dget k b.

Lemma same_batch_id b b' : same_batch b b' → batch_text "batchId" b' = batch_text "batchId" b.
Proof. intros Hs. unfold batch_text. rewrite Hs; [done|]. apply elem_of_cons. by left. Qed.

(** [k] is none of the keys, for concrete keys. *)
Ltac not_key :=
  repeat first [apply not_elem_of_nil | apply not_elem_of_cons; split; [done|]].

Lemma set_some_same {A} (v : option A) f b b' :
  set_some v f b = Ok b' → (∀ a items, f a = Ok items → Forall (λ kv, kv.1 ∉ fixed_fields) items) →
  same_batch b b'.
Proof.
  destruct v as [a|]; cbn; [|by intros [= <-]]. intros H Hf k Hk.
  apply bind_ok in H as (items & Ha & [= <-]). apply dget_dupdate. intros Hin.
  apply list_elem_of_fmap in Hin as (kv & -> & Hkv). specialize (Hf _ _ Ha).
  rewrite Forall_forall in Hf. by apply (Hf kv).
Qed.

(** The items that an update of a mark sets. *)
Ltac other_items :=
  let a := fresh in let items := fresh in let Hi := fresh in
  intros a items Hi; clear -Hi; repeat case_in Hi;
  lazymatch type of Hi with Ok _ = _ => idtac | _ => apply bind_ok in Hi as (? & _ & Hi) end;
  injection Hi as <-; repeat constructor; cbn; unfold fixed_fields; not_key.

#[export] Instance same_batch_preorder : PreOrder same_batch.
Proof. split; [by intros b k|]. intros a b c H1 H2 k Hk. by rewrite H2, H1. Qed.

Section same.
Context (iso : Z → string) (parse_iso : string → option Z).

(** Case analysis on the fixed field and on the branches that lead to the result. *)
Ltac same_fields H k Hk :=
  unfold fixed_fields in Hk; rewrite !elem_of_cons, elem_of_nil in Hk;
  destruct_or?; subst k; repeat case_in H; try done; simplify_eq;
  repeat first [rewrite dget_dupdate by (cbn; not_key) | rewrite dget_dset; cbn [String.eqb Ascii.eqb Bool.eqb]
               | rewrite dget_dpop; cbn [String.eqb Ascii.eqb Bool.eqb]];
  try done.

(** A fixed field [k] is not one that an update sets. *)
Ltac other_field :=
  repeat first
    [ rewrite dget_dupdate by (cbn; set_solver)
    | rewrite dget_dset, (proj2 (String.eqb_neq _ _)) by set_solver ];
  try done.

Lemma claim_same now local rt lease b b' x :
  claim_batch iso parse_iso now local rt lease b = Ok (b', x) → same_batch b b'.
Proof.
  unfold claim_batch, apply_cai_owned_transport_batch_lease. intros H k Hk. same_fields H k Hk.
Qed.

Lemma heartbeat_same now local rt lease b b' x :
  heartbeat_batch iso parse_iso now local rt lease b = Ok (b', x) → same_batch b b'.
Proof.
  unfold heartbeat_batch, apply_cai_owned_transport_batch_lease. intros H k Hk.
  apply bind_ok in H as (_ & _ & H). same_fields H k Hk.
Qed.

Lemma fail_same now local e rt n m b b' x :
  fail_batch iso now local e rt n m b = Ok (b', x) → same_batch b b'.
Proof.
  clear parse_iso. unfold fail_batch. intros H k Hk. destruct (negb (String.eqb _ _)); [done|]. injection H as <- _.
  unfold fixed_fields in Hk.
  destruct (negb rt || _); [|rewrite cleared_fields by set_solver]; destruct m; other_field.
Qed.

Lemma verdict_same now t n b : same_batch b (apply_verdict iso parse_iso now t n b).
Proof.
  unfold apply_verdict, mark_cai_owned_transport_batch_timed_out. intros k Hk. unfold fixed_fields in Hk.
  destruct (timeout_verdict _ _ _ _ _) as [| |e r]; [done| |].
  - rewrite cleared_fields by set_solver. other_field.
  - destruct (String.eqb r _); other_field.
Qed.

Lemma mark_same now local status m b b' x :
  mark_batch iso now local status m b = Ok (b', x) → same_batch b b'.
Proof.
  clear parse_iso. unfold mark_batch, set_hash. destruct (negb _ && negb _); [done|]. cbv zeta. intros H.
  repeat (apply bind_ok in H as (? & ?Hs & H)). injection H as <- _.
  repeat match goal with
  | Hs : set_some _ _ _ = Ok ?b' |- same_batch _ ?b' =>
      etrans; [|apply (set_some_same _ _ _ _ Hs); other_items]; clear Hs
  end.
  intros k Hk. unfold fixed_fields in Hk. destruct (bool_decide _); other_field.
Qed.
End same.

(** ** Operations that leave a batch alone *)

Section keeps.
Context (sid bid : string) (b0 : pydict).

Definition holds (s : TransportStore) : Prop := batch_record sid bid s = Some b0.
Definition keeps {A} (m : TM A) : Prop := ∀ s, holds s → holds (m s).1.

Lemma holds_ret {A} (a : A) : keeps (mret a).
Proof. by intros s. Qed.

Lemma holds_lift {A} (r : result A) : keeps (tlift r).
Proof. by intros s. Qed.

Lemma TM_bind_eq {A B} (m : TM A) (f : A → TM B) s :
  (m ≫= f) s = match m s with (s', Ok a) => f a s' | (s', Err e) => (s', Err e) end.
Proof. done. Qed.

Lemma lift_bind {A B} (r : result A) (f : A → TM B) s a : r = Ok a → (tlift r ≫= f) s = f a s.
Proof. by intros ->. Qed.

Lemma holds_bind {A B} (m : TM A) (f : A → TM B) : keeps m → (∀ a, keeps (f a)) → keeps (m ≫= f).
Proof.
  intros Hm Hf s Hs. rewrite TM_bind_eq. specialize (Hm s Hs).
  destruct (m s) as [s' [a|e]]; [by apply Hf|done].
Qed.

(** A lifted result that is needed later. *)
Lemma keeps_lifted {A B} (r : result A) (f : A → TM B) :
  (∀ a, r = Ok a → keeps (f a)) → keeps (tlift r ≫= f).
Proof. intros Hf s Hs. rewrite TM_bind_eq. cbn. destruct r as [a|e]; [by apply (Hf a)|done]. Qed.

Lemma holds_read {A} (f : TransportStore → result A) : keeps (λ s, (s, f s)).
Proof. by intros s. Qed.

Lemma keeps_on_session {A} id (f : TransportSession → option TransportSession * result A) :
  (∀ r r' a, f r = (Some r', a) →
     same_session_key r r' ∧ (strip id = strip sid → find_batch bid r = Some b0 → find_batch bid r' = Some b0)) →
  keeps (on_session id f).
Proof.
  intros Hf s Hs. unfold holds in *. rewrite batch_record_session in *.
  pose proof (on_session_cases id f s) as Hc. destruct (session_of id s) as [r|] eqn:Er; [|by rewrite Hc].
  destruct (f r) as [[r'|] a] eqn:Efr; [|by rewrite Hc]. destruct Hc as [_ Hc].
  destruct (Hf _ _ _ Efr) as [Hk Hb]. rewrite (Hc Hk).
  destruct (String.eqb_spec (strip id) (strip sid)) as [E|E]; [|done]. cbn.
  apply Hb; [done|]. unfold session_of in *. rewrite E in Er. by rewrite Er in Hs.
Qed.

(** A change of the batches by [change_batch] keeps the batch, when it refuses it. *)
Lemma keeps_change {A} (missing : exn) cid id (g : pydict → result (pydict * A)) r l a :
  change_batch missing cid g (ts_batch_records r) = Ok (l, a) →
  (∀ b b' a, g b = Ok (b', a) → same_batch b b') →
  (strip id = strip sid → cid = strip bid → is_ok (g b0) = false) →
  strip id = strip sid → find_batch bid r = Some b0 → List.find (has_batch_id (strip bid)) l = Some b0.
Proof.
  intros H Hg Hr E Hb. destruct (change_batch_find _ _ _ _ _ _ (strip bid) H) as (b & b' & Hf & Hgb & Hl).
  rewrite Hl by (eapply same_batch_id, Hg, Hgb). unfold find_batch in Hb.
  destruct (String.eqb_spec cid (strip bid)) as [->|]; [|done].
  rewrite Hf in Hb. injection Hb as ->. specialize (Hr E eq_refl). by rewrite Hgb in Hr.
Qed.

Lemma keeps_change_session id f :
  (∀ r r', f r = Ok r' →
     same_session_key r r' ∧ (strip id = strip sid → find_batch bid r = Some b0 → find_batch bid r' = Some b0)) →
  keeps (change_session id f).
Proof.
  intros Hf. apply keeps_on_session. intros r r' a H. destruct (f r) as [r1|] eqn:E; [|done].
  injection H as <- _. by apply Hf.
Qed.

(** The result of the change is saved as a session with the same key and the changed batches. *)
Lemma saved_batches iso now status r l : same_session_key r (save_batches iso now status r l)
  ∧ ∀ bid, find_batch bid (save_batches iso now status r l) = List.find (has_batch_id (strip bid)) l.
Proof. done. Qed.

Section operations.
Context `{SignatureBackend} (env : Environ).
Context (iso : Z → string) (parse_iso : string → option Z).
Context (gzip : string → string) (gunzip : string → option string).
Context (default_network policy_network : string).
Context (now : Z).

Lemma safe_id v p i : require_safe_transport_file_id v p = Ok i → i = str_or_strip v.
Proof. unfold require_safe_transport_file_id. destruct (is_safe_transport_file_id _ _); [by intros [= <-]|done]. Qed.

(** What the batch answers to a runtime that may not touch it. *)
Definition refuses (runtime_id : string) : Prop :=
  (∀ local lease, is_ok (claim_batch iso parse_iso now local runtime_id lease b0) = false)
  ∧ (∀ local, is_ok (require_holder parse_iso now local runtime_id b0) = false).

Lemma keeps_claim id cid c lease :
  refuses (strip (rc_runtime_id c)) → keeps (claim_cai_owned_transport_batch iso parse_iso env now id cid c lease).
Proof.
  intros [Hc _]. unfold claim_cai_owned_transport_batch. apply holds_bind; [apply holds_lift|intros _].
  apply holds_bind; [apply holds_lift|intros i].
  apply keeps_change_session. intros r r' Hop. destruct (String.eqb _ _); [done|].
  apply bind_ok in Hop as (local & _ & Hop). apply bind_ok in Hop as ([l x] & Hl & [= <-]).
  destruct (saved_batches iso now (if x then started_status r else ts_status r) r l) as [Hk Hf].
  split; [done|]. intros E Hb. rewrite Hf. eapply (keeps_change _ _ id); eauto using claim_same.
Qed.

Lemma keeps_heartbeat id cid c lease :
  refuses (strip (rc_runtime_id c)) → keeps (heartbeat_cai_owned_transport_batch iso parse_iso env now id cid c lease).
Proof.
  intros [_ Hc]. unfold heartbeat_cai_owned_transport_batch. apply holds_bind; [apply holds_lift|intros _].
  apply holds_bind; [apply holds_lift|intros i].
  apply keeps_change_session. intros r r' Hop. destruct (String.eqb _ _); [done|].
  apply bind_ok in Hop as (local & _ & Hop). apply bind_ok in Hop as ([l x] & Hl & [= <-]).
  destruct (saved_batches iso now (ts_status r) r l) as [Hk Hf].
  split; [done|]. intros E Hb. rewrite Hf. eapply (keeps_change _ _ id); eauto using heartbeat_same.
  intros _ _. unfold heartbeat_batch. specialize (Hc local). by destruct (require_holder _ _ _ _ _).
Qed.

(** The owner check stops a runtime that the batch refuses. *)
Lemma owner_stops c id cid s :
  refuses (strip (rc_runtime_id c)) → strip (rc_runtime_id c) ≠ "" → holds s →
  strip id = strip sid → strip cid = strip bid →
  is_ok (_require_cai_owned_transport_batch_completion_owner parse_iso now id cid c s).2 = false.
Proof.
  intros [_ Hc] Hrt Hs Eid Ebid. unfold _require_cai_owned_transport_batch_completion_owner.
  rewrite (proj2 (String.eqb_neq _ _) Hrt). cbn. unfold holds in Hs. rewrite batch_record_session in Hs.
  unfold session_of, cai_owned_transport_session_record in *. rewrite Eid.
  destruct (List.find _ _) as [r|]; [|done]. cbn in Hs.
  destruct (require_session_participant r _) as [local|e]; [|done]. cbn.
  destruct (require_safe_transport_file_id _ _) as [i|e] eqn:Ei; [|done]. cbn.
  apply safe_id in Ei as ->. rewrite str_or_strip_str. unfold find_batch in *.
  rewrite strip_idem, Ebid, Hs. apply Hc.
Qed.

(** After the owner check an operation works on another batch, or has been stopped. *)
Lemma keeps_owned {A} c id cid (m : TM A) :
  refuses (strip (rc_runtime_id c)) → strip (rc_runtime_id c) ≠ "" →
  (¬ (strip id = strip sid ∧ strip cid = strip bid) → keeps m) →
  keeps (_require_cai_owned_transport_batch_completion_owner parse_iso now id cid c ≫= λ _, m).
Proof.
  intros Hc Hrt Hm s Hs. pose proof (owner_stops c id cid s Hc Hrt Hs) as Hstop.
  assert (∀ s, (_require_cai_owned_transport_batch_completion_owner parse_iso now id cid c s).1 = s) as Hread.
  { intros s'. unfold _require_cai_owned_transport_batch_completion_owner. by destruct (String.eqb _ _). }
  specialize (Hread s). rewrite TM_bind_eq.
  destruct (_require_cai_owned_transport_batch_completion_owner _ _ _ _ _ s) as [s' [u|e]]; cbn in *;
    subst s'; [|done].
  apply Hm; [|done]. intros [E1 E2]. by specialize (Hstop E1 E2).
Qed.

Lemma keeps_fail id cid c error retryable n metrics :
  refuses (strip (rc_runtime_id c)) → strip (rc_runtime_id c) ≠ "" →
  keeps (fail_cai_owned_transport_work_item iso parse_iso env now id cid c error retryable n metrics).
Proof.
  intros Hc Hrt. unfold fail_cai_owned_transport_work_item. apply holds_bind; [apply holds_lift|intros _].
  apply keeps_owned; [done..|]. intros Hother.
  apply keeps_lifted. intros i Ei. apply safe_id in Ei as ->. rewrite str_or_strip_str.
  apply keeps_on_session. intros r r' a Hr.
  destruct (require_session_participant r (rc_node_id c)) as [local|e]; [|done]. cbn in Hr.
  destruct (change_batch _ _ _ _) as [[l item]|e] eqn:El; [|done]. injection Hr as <- _.
  destruct (saved_batches iso now (ts_status r) r l) as [Hk Hf]. split; [done|]. intros E Hb. rewrite Hf.
  eapply (keeps_change _ _ id); eauto using fail_same. intros ? Eb. by destruct Hother.
Qed.

Lemma keeps_mark id cid status node m :
  ¬ (strip id = strip sid ∧ strip cid = strip bid) →
  keeps (mark_cai_owned_transport_batch_status iso now id cid status node m).
Proof.
  intros Hother. unfold mark_cai_owned_transport_batch_status. apply keeps_lifted.
  intros i Ei. apply safe_id in Ei as ->. rewrite str_or_strip_str.
  destruct (String.eqb _ _); [apply holds_lift|]. apply keeps_change_session.
  intros r r' Hop. destruct (String.eqb (ts_status r) _); [done|].
  apply bind_ok in Hop as (u & _ & Hop). apply bind_ok in Hop as ([l x] & Hl & [= <-]).
  destruct (saved_batches iso now (ts_status r) r l) as [Hk Hf]. split; [done|]. intros E Hb. rewrite Hf.
  eapply (keeps_change _ _ id); eauto using mark_same. intros ? Eb. by destruct Hother.
Qed.

(** Payloads and the replay cache are not where the batches are. *)
Lemma holds_sessions s s' : tp_sessions s' = tp_sessions s → holds s → holds s'.
Proof. unfold holds, batch_record, cai_owned_transport_session_record. by intros ->. Qed.

Lemma keeps_payload key payload : keeps (with_payload key payload).
Proof. intros s. by apply holds_sessions. Qed.

Lemma keeps_store id cid payload :
  keeps (store_cai_owned_transport_batch_output_payload id cid payload).
Proof.
  unfold store_cai_owned_transport_batch_output_payload. apply holds_bind; [apply holds_lift|intros i].
  apply holds_bind; [apply holds_read|intros _]. apply holds_bind; [apply holds_lift|intros path].
  apply holds_bind; [apply keeps_payload|intros _]. apply holds_ret.
Qed.

Lemma keeps_complete id cid c p send :
  refuses (strip (rc_runtime_id c)) → strip (rc_runtime_id c) ≠ "" →
  keeps (complete_cai_owned_transport_work_item iso default_network env parse_iso now id cid c p send).
Proof.
  intros Hc Hrt. unfold complete_cai_owned_transport_work_item. apply holds_bind; [apply holds_lift|intros _].
  unfold complete_cai_owned_transport_batch_processing. apply keeps_owned; [done..|]. intros Hother.
  apply holds_bind; [apply holds_read|intros source].
  apply holds_bind.
  { destruct (pc_output_payload p); [|apply holds_ret].
    apply holds_bind; [apply keeps_store|intros o; apply holds_ret]. }
  intros stored. apply holds_bind.
  { destruct (negb _ && negb _); [|apply holds_ret].
    apply holds_bind; [apply holds_lift|intros h; apply holds_ret]. }
  intros chain. apply holds_bind; [by apply keeps_mark|]. intros r.
  destruct (List.find _ _); [apply holds_ret|apply holds_lift].
Qed.

Lemma keeps_claim_first c lease stale items :
  refuses (strip (rc_runtime_id c)) → keeps (claim_first iso parse_iso env now c lease stale items).
Proof.
  intros Hc. induction items as [|[r b] items IH]; [apply holds_ret|]. cbn [claim_first].
  destruct (stale && _); [done|]. destruct (_ || _); [done|]. intros s Hs.
  pose proof (keeps_claim (strip (ts_session_id r)) (batch_text "batchId" b) c lease Hc s Hs) as Hk.
  destruct (claim_cai_owned_transport_batch _ _ _ _ _ _ _ _ s) as [s' [r'|[m| | | | | | | |]]]; try done.
  - destruct (find_batch _ r'); [done|by apply IH].
  - destruct (contains _ m); [by apply IH|done].
Qed.

Lemma keeps_claim_next c status id lease :
  refuses (strip (rc_runtime_id c)) →
  keeps (claim_next_cai_owned_transport_batch iso parse_iso env now c status id lease).
Proof.
  intros Hc. unfold claim_next_cai_owned_transport_batch. apply holds_bind; [apply holds_lift|intros _].
  destruct (String.eqb _ _); [apply holds_lift|]. apply holds_bind; [|intros o; apply holds_ret].
  induction (_ :: _) as [|st statuses IH]; [apply holds_ret|]. cbn [claim_statuses].
  apply holds_bind; [apply holds_read|intros items]. apply holds_bind; [by apply keeps_claim_first|].
  intros [x|]; [apply holds_ret|done].
Qed.

Lemma keeps_reconcile id timeout n :
  apply_verdict iso parse_iso now (coerce_cai_owned_transport_batch_claim_timeout_seconds timeout)
    (coerce_cai_owned_transport_max_attempts n) b0 = b0 →
  keeps (reconcile_cai_owned_transport_session_timeouts iso parse_iso now id timeout n).
Proof.
  intros Hb0. apply keeps_on_session. intros r r' a Hr. destruct (String.eqb _ _); [done|]. cbv zeta in Hr.
  repeat case_in Hr; try done; injection Hr as <- _; (split; [done|]); intros _ Hb;
    unfold find_batch in *; cbn [ts_batch_records with_outcome with_records];
    (rewrite find_batch_map; [by rewrite Hb; cbn; rewrite Hb0|intros b; apply same_batch_id, verdict_same]).
Qed.

(** Operations that do not change the batches of a session. *)
Lemma keeps_same_batches {A} id (f : TransportSession → option TransportSession * result A) :
  (∀ r r' a, f r = (Some r', a) → same_session_key r r' ∧ ts_batch_records r' = ts_batch_records r) →
  keeps (on_session id f).
Proof.
  intros Hf. apply keeps_on_session. intros r r' a Hr. destruct (Hf _ _ _ Hr) as [Hk Hl].
  split; [done|]. intros _. unfold find_batch. by rewrite Hl.
Qed.

Lemma keeps_fail_session id error : keeps (fail_cai_owned_transport_session iso now id error).
Proof.
  apply keeps_same_batches. intros r r' a. destruct (String.eqb _ _); [done|]. by intros [= <- _].
Qed.

Lemma keeps_receipt id f :
  keeps (record_cai_owned_transport_shard_receipt iso default_network policy_network now id f).
Proof.
  apply keeps_same_batches. intros r r' a. cbv zeta. destruct (String.eqb (ts_status r) _); [done|].
  destruct (rf_chain_id f); [|done]. destruct (negb _); [done|].
  destruct (require_session_participant _ _); [|done]. cbn.
  destruct (receipt_fields _ f); [|done]. by intros [= <- _].
Qed.

Lemma keeps_complete_session id q :
  keeps (complete_cai_owned_transport_session env iso parse_iso default_network now id q).
Proof.
  intros s Hs. unfold complete_cai_owned_transport_session. refine (keeps_same_batches id _ _ s Hs).
  intros r r' a Hr. repeat case_in Hr; simplify_eq; done.
Qed.

Lemma keeps_notice id v :
  keeps (accept_cai_owned_transport_completion_notice env iso parse_iso default_network now id v).
Proof.
  intros s Hs. unfold accept_cai_owned_transport_completion_notice.
  destruct v as [| | | | |proof]; try exact Hs. destruct (negb _); [exact Hs|].
  refine (keeps_same_batches id _ _ s Hs). intros r r' a Hr. cbv zeta in Hr.
  repeat case_in Hr; simplify_eq; done.
Qed.

Lemma keeps_record fresh id n :
  keeps (record_cai_owned_transport_batch iso now fresh id n).
Proof.
  apply keeps_on_session. intros r r' a Hr.
  destruct (_ ≫= _) as [[r1|]|e] eqn:E; try done. injection Hr as <- _.
  apply bind_ok in E as (? & _ & E). apply bind_ok in E as (source & _ & E).
  apply bind_ok in E as (sink & _ & E). cbv zeta in E.
  destruct (String.eqb (strip (nb_phase n)) ""); [done|].
  apply bind_ok in E as (cid & _ & E).
  destruct (List.find _ _) as [b|] eqn:Ef.
  { by destruct (validate_cai_owned_transport_batch_replay _ _ _ _ _). }
  injection E as <-. split; [done|]. intros _ Hb. unfold find_batch in *. cbn.
  by apply find_app_some.
Qed.

Lemma keeps_create fresh t q :
  keeps (create_cai_owned_transport_session policy_network t fresh q).
Proof.
  intros s Hs. unfold create_cai_owned_transport_session.
  destruct (_ ≫= _); [|done]. cbv zeta.
  set (i := or_str (strip (sq_session_id q)) _).
  destruct (List.find (has_id i) _) as [r|] eqn:Ef; [by destruct (session_agrees _ _ _ _ _)|].
  unfold holds in *. rewrite batch_record_session in *. cbn [fst]. rewrite session_of_append; [done|].
  unfold has_id. cbn. apply String.eqb_neq. intros ->. unfold session_of in Hs. by rewrite Ef in Hs.
Qed.

(** Checks only write to the replay cache. *)
Definition checks_only {A} (m : VM A) : Prop := ∀ s, tp_sessions (m s).1 = tp_sessions s.

Lemma checks_lift {A} (v : verdict A) : checks_only (vlift v).
Proof. by intros s. Qed.

Lemma checks_bind {A B} (m : VM A) (f : A → VM B) :
  checks_only m → (∀ a, checks_only (f a)) → checks_only (m ≫= f).
Proof.
  intros Hm Hf s. change ((m ≫= f) s) with (VM_bind _ _ f m s). unfold VM_bind. specialize (Hm s).
  destruct (m s) as [s' [a|message|e]]; cbn in *; [by rewrite Hf|done..].
Qed.

Lemma checks_signature rules name expected allowed v :
  checks_only (validate_cai_owned_transport_payload_signature env iso parse_iso now rules name expected allowed v).
Proof.
  unfold validate_cai_owned_transport_payload_signature.
  destruct v as [| | | | |payload]; try apply checks_lift. cbv zeta. apply checks_bind; [apply checks_lift|intros _].
  destruct (dget "signature" payload); try apply checks_lift.
  repeat (apply checks_bind; [apply checks_lift|intros ?]).
  destruct (rl_record_replay rules); [|apply checks_lift]. intros s.
  unfold record_cai_owned_transport_payload_replay.
  destruct (cai_owned_transport_payload_replay_key payload); [|done]. by destruct (existsb _ _).
Qed.

Lemma keeps_checked {A} (m : VM A) : checks_only m → keeps (raise_refusal m).
Proof.
  intros Hm s Hs. unfold raise_refusal. specialize (Hm s).
  destruct (m s) as [s' [a|message|e]]; cbn in *; by apply (holds_sessions s).
Qed.

Lemma keeps_embedded r receipts :
  keeps (_record_cai_owned_transport_embedded_shard_receipts iso default_network policy_network now r receipts).
Proof.
  revert r. induction receipts as [|receipt receipts IH]; intros r; [apply holds_ret|].
  cbn [_record_cai_owned_transport_embedded_shard_receipts].
  apply holds_bind; [apply holds_lift|intros f]. apply holds_bind; [apply keeps_receipt|intros r'; apply IH].
Qed.

Lemma keeps_envelope rules id v local :
  keeps (record_cai_owned_transport_batch_envelope env iso parse_iso gunzip default_network policy_network
           now rules id v local).
Proof.
  intros s Hs. unfold record_cai_owned_transport_batch_envelope.
  destruct (cai_owned_transport_session_record _ _) as [r|]; [|done]. revert s Hs.
  apply holds_bind.
  { apply keeps_checked. unfold validate_cai_owned_transport_batch_envelope.
    destruct v; try apply checks_lift. apply checks_bind; [apply checks_lift|intros source].
    apply checks_bind; [apply checks_signature|intros _; apply checks_lift]. }
  intros _. cbv zeta.
  do 4 (apply holds_bind; [apply holds_lift|intros ?]). apply holds_bind; [apply keeps_payload|intros _].
  do 2 (apply holds_bind; [apply holds_lift|intros ?]). apply holds_bind; [apply keeps_record|intros r'].
  destruct (_is_cai_owned_transport_final_output_batch _ _); [|apply holds_ret].
  apply holds_bind; [apply holds_lift|intros receipts; apply keeps_embedded].
Qed.

Lemma keeps_offer rules id local v :
  keeps (create_cai_owned_transport_session_from_offer env iso parse_iso default_network policy_network
           now rules id local v).
Proof.
  unfold create_cai_owned_transport_session_from_offer. apply holds_bind.
  { apply keeps_checked. unfold validate_cai_owned_transport_session_offer.
    destruct v as [| | | | |offer]; try apply checks_lift. cbv zeta.
    repeat (apply checks_bind; [first [apply checks_signature|apply checks_lift]|intros ?]).
    apply checks_lift. }
  intros _. cbv zeta. do 2 (apply holds_bind; [apply holds_lift|intros ?]). apply keeps_create.
Qed.

End operations.
End keeps.
