(* ===== verification/TransportProps.v ===== *)
(** * Leases, claims, time-outs and replays

    A node's operations on its sessions as a list of timed steps: what a lease protects, what
    happens to a batch that is closed, claimed or overdue, and that a signed payload counts once. *)
From Stdlib Require Import Ascii.
From S2P Require Import Prelude.
From S2P Require Import PyStr.
From S2P Require Import PyVal.
From S2P Require Import Sha256.
From S2P Require Import Money.
From S2P Require Import Signing.
From S2P Require Import ChainTx.
From S2P Require Import PeerPayload.
From S2P Require Import PeerFacts.
From S2P Require Import Transport.
From S2P Require Import TransportBatch.
From S2P Require Import TransportPlan.
From S2P Require Import TransportEnvelope.
From S2P Require Import TransportAudit.
From S2P Require Import TransportFacts.
From S2P Require Import Demo.
Import Signing.Transparent.
Local Open Scope Z_scope.
Set Default Proof Using "Type".

(** ** Sequences of operations *)

(** An operation of a node on its sessions. *)
Inductive TransportOp :=
| OpCreate (fresh : string) (q : SessionRequest)
| OpAcceptOffer (rules : SignatureRules) (id local : string) (offer : pyval)
| OpRecord (fresh id : string) (n : NewBatch)
| OpEnvelope (rules : SignatureRules) (id : string) (envelope : pyval) (local : string)
| OpClaim (id batch_id : string) (c : RuntimeCaller) (lease : option Z)
| OpClaimNext (c : RuntimeCaller) (status : option string) (id : string) (lease : option Z)
| OpHeartbeat (id batch_id : string) (c : RuntimeCaller) (lease : option Z)
| OpComplete (id batch_id : string) (c : RuntimeCaller) (p : Processing)
    (send : option (pydict → result pyval))
| OpFail (id batch_id : string) (c : RuntimeCaller) (error : string) (retryable : bool)
    (max_attempts : option Z) (metrics : option pydict)
| OpMark (id batch_id status node_id : string) (m : BatchMark)
| OpReceipt (id : string) (f : ReceiptFields)
| OpReconcile (id : string) (timeout max_attempts : option Z)
| OpFailSession (id error : string)
| OpCompleteSession (id : string) (q : CompletionRequest)
| OpNotice (id : string) (proof : pyval).

(** The runtime that works on batches in an operation. *)
Definition op_caller (o : TransportOp) : option RuntimeCaller :=
  match o with
  | OpClaim _ _ c _ | OpClaimNext c _ _ _ | OpHeartbeat _ _ c _ | OpComplete _ _ c _ _
  | OpFail _ _ c _ _ _ _ => Some c
  | _ => None
  end.

(** The batch an operation marks by hand, without a claim. *)
Definition op_marks (o : TransportOp) : option (string * string) :=
  match o with OpMark id batch_id _ _ _ => Some (strip id, strip batch_id) | _ => None end.

(** Work on the batch has ended. *)
Definition batch_closed (b : pydict) : Prop := batch_status b ∈ closed_statuses.

Lemma closed_status b st : batch_closed b → st ∈ ["processing"; "received"] → batch_status b ≠ st.
Proof.
  unfold batch_closed. intros Hc Hst E. rewrite E in Hc. revert Hc.
  assert (Forall (λ st, st ∉ closed_statuses) ["processing"; "received"]) as Hall
    by (repeat constructor; unfold closed_statuses; not_key).
  rewrite Forall_forall in Hall. by apply Hall.
Qed.

Lemma status_text b : batch_text "status" b ≠ "" → batch_status b = batch_text "status" b.
Proof.
  unfold batch_text, batch_status, str_or_strip, py_or. by destruct (truthy (dget "status" b)).
Qed.

Lemma closed_text b : batch_closed b → batch_text "status" b ≠ "processing".
Proof.
  intros Hc E. apply (closed_status b "processing"); [done|constructor|].
  by rewrite status_text, E by (by rewrite E).
Qed.

Section run.
Context `{SignatureBackend} (env : Environ).
Context (iso : Z → string) (parse_iso : string → option Z).
Context (gunzip : string → option string).
Context (default_network policy_network : string).

Definition run_op (now : Z) (o : TransportOp) (s : TransportStore) : TransportStore :=
  match o with
  | OpCreate fresh q => (create_cai_owned_transport_session policy_network (iso now) fresh q s).1
  | OpAcceptOffer rules id local v =>
      (create_cai_owned_transport_session_from_offer env iso parse_iso default_network policy_network
         now rules id local v s).1
  | OpRecord fresh id n => (record_cai_owned_transport_batch iso now fresh id n s).1
  | OpEnvelope rules id v local =>
      (record_cai_owned_transport_batch_envelope env iso parse_iso gunzip default_network policy_network
         now rules id v local s).1
  | OpClaim id b c lease => (claim_cai_owned_transport_batch iso parse_iso env now id b c lease s).1
  | OpClaimNext c status id lease =>
      (claim_next_cai_owned_transport_batch iso parse_iso env now c status id lease s).1
  | OpHeartbeat id b c lease => (heartbeat_cai_owned_transport_batch iso parse_iso env now id b c lease s).1
  | OpComplete id b c p send =>
      (complete_cai_owned_transport_work_item iso default_network env parse_iso now id b c p send s).1
  | OpFail id b c error retryable n metrics =>
      (fail_cai_owned_transport_work_item iso parse_iso env now id b c error retryable n metrics s).1
  | OpMark id b status node m => (mark_cai_owned_transport_batch_status iso now id b status node m s).1
  | OpReceipt id f =>
      (record_cai_owned_transport_shard_receipt iso default_network policy_network now id f s).1
  | OpReconcile id timeout n =>
      (reconcile_cai_owned_transport_session_timeouts iso parse_iso now id timeout n s).1
  | OpFailSession id error => (fail_cai_owned_transport_session iso now id error s).1
  | OpCompleteSession id q =>
      (complete_cai_owned_transport_session env iso parse_iso default_network now id q s).1
  | OpNotice id v =>
      (accept_cai_owned_transport_completion_notice env iso parse_iso default_network now id v s).1
  end.

(** Operations with the times they are performed at. *)
Definition run_ops (ops : list (Z * TransportOp)) (s : TransportStore) : TransportStore :=
  foldl (λ s o, run_op o.1 o.2 s) s ops.

(** The batch is held by a runtime until [expires]. *)
Definition leased (runtime_id : string) (expires : Z) (b : pydict) : Prop :=
  batch_text "status" b = "processing" ∧ batch_text "runtimeId" b = runtime_id
  ∧ parse_cai_owned_transport_datetime parse_iso (dget "leaseExpiresAt" b) = Some expires.

Lemma leased_refuses now rt expires b other :
  leased rt expires b → now < expires → other ≠ "" → other ≠ rt →
  refuses b iso parse_iso now other.
Proof.
  intros (Hst & Hrt & Hexp) Hnow Hne Hother.
  assert (cai_owned_transport_batch_lease_expired parse_iso now b = false) as Hlive.
  { unfold cai_owned_transport_batch_lease_expired. rewrite Hexp. by apply Z.leb_gt. }
  split; [intros local lease|intros local].
  - unfold claim_batch. destruct (negb (String.eqb _ local)); [done|]. cbv zeta.
    rewrite status_text, Hst, Hlive, Hrt by (by rewrite Hst). cbn [andb negb String.eqb Ascii.eqb Bool.eqb].
    rewrite (proj2 (String.eqb_neq rt _)) by done. by rewrite andb_false_r.
  - unfold require_holder. destruct (negb (String.eqb _ local)); [done|].
    rewrite Hst, Hrt. cbn [negb String.eqb Ascii.eqb Bool.eqb].
    by rewrite (proj2 (String.eqb_neq other "")), (proj2 (String.eqb_neq rt _)) by done.
Qed.

Lemma closed_refuses now b other : batch_closed b → refuses b iso parse_iso now other.
Proof.
  intros Hc. pose proof (closed_text b Hc) as Ht. split; [intros local lease|intros local].
  - unfold claim_batch. destruct (negb (String.eqb _ local)); [done|]. cbv zeta.
    rewrite (proj2 (String.eqb_neq _ "processing")) by (by apply closed_status; [|constructor]).
    cbn [andb]. by rewrite bool_decide_eq_true_2.
  - unfold require_holder. destruct (negb (String.eqb _ local)); [done|].
    by rewrite (proj2 (String.eqb_neq _ "processing")).
Qed.

(** Reconciliation leaves alone what is closed or held. *)
Lemma closed_verdict now t n b : batch_closed b → apply_verdict iso parse_iso now t n b = b.
Proof.
  intros Hc. unfold apply_verdict, timeout_verdict.
  rewrite !(proj2 (String.eqb_neq (batch_status b) _)) by (apply closed_status; [done|repeat constructor]).
  done.
Qed.

Lemma leased_verdict now rt expires t n b :
  leased rt expires b → now < expires → apply_verdict iso parse_iso now t n b = b.
Proof.
  intros (Hst & _ & Hexp) Hnow. unfold apply_verdict, timeout_verdict.
  rewrite status_text, Hst by (by rewrite Hst). cbn [andb String.eqb Ascii.eqb Bool.eqb].
  unfold cai_owned_transport_batch_lease_expired. rewrite Hexp. by rewrite (proj2 (Z.leb_gt _ _)).
Qed.

(** One operation keeps a batch that refuses its caller and that time-outs leave alone. *)
Lemma run_op_keeps sid bid b now o s :
  (∀ c, op_caller o = Some c →
     strip (rc_runtime_id c) ≠ "" ∧ refuses b iso parse_iso now (strip (rc_runtime_id c))) →
  op_marks o ≠ Some (strip sid, strip bid) →
  (∀ t n, apply_verdict iso parse_iso now t n b = b) →
  batch_record sid bid s = Some b → batch_record sid bid (run_op now o s) = Some b.
Proof.
  intros Hc Hm Hv Hs. destruct o; cbn [run_op op_caller] in *;
    try (destruct (Hc _ eq_refl) as [Hrt Href]).
  - by apply keeps_create.
  - by apply keeps_offer.
  - by apply keeps_record.
  - by apply keeps_envelope.
  - by apply keeps_claim.
  - by apply keeps_claim_next.
  - by apply keeps_heartbeat.
  - by apply keeps_complete.
  - by apply keeps_fail.
  - apply keeps_mark; [|done]. intros [E1 E2]. apply Hm. cbn [op_marks]. by rewrite E1, E2.
  - by apply keeps_receipt.
  - by apply keeps_reconcile.
  - by apply keeps_fail_session.
  - by apply keeps_complete_session.
  - by apply keeps_notice.
Qed.

(** C15: while a runtime holds a lease on a batch, no sequence of operations that finish before the
    lease expires changes the batch.  The operations are those of [TransportOp]: claims, the next
    claim, heartbeats, completions and failures of callers that name a runtime other than the
    holder, marks of other batches, time-outs of the coordinator, new sessions and batches,
    envelopes, offers, receipts, completion notices, the completion and the failure of the session.
    Excluded are callers that leave their runtime id out, and a mark of the batch itself, which
    looks at no lease ([mark_ignores_lease]). *)
Theorem lease_exclusive sid bid runtime_id expires b ops s
    (Hb : batch_record sid bid s = Some b) (Hlease : leased runtime_id expires b)
    (Hops : ∀ t o, (t, o) ∈ ops →
       t < expires ∧ (∀ c, op_caller o = Some c → strip (rc_runtime_id c) ∉ [""; runtime_id])
       ∧ op_marks o ≠ Some (strip sid, strip bid)) :
  batch_record sid bid (run_ops ops s) = Some b.
Proof.
  revert s Hb. induction ops as [|[t o] ops IH]; intros s Hb; [done|]. cbn.
  apply IH; [intros t' o' Hin; apply Hops; by constructor|].
  destruct (Hops t o ltac:(constructor)) as (Ht & Hc & Hm). apply run_op_keeps; [|done| |done].
  - intros c Hcaller. specialize (Hc c Hcaller). rewrite !not_elem_of_cons in Hc.
    destruct Hc as (Hne & Hother & _). split; [done|]. by eapply leased_refuses.
  - intros timeout n. by eapply leased_verdict.
Qed.

(** A batch that is processed, failed, timed out or delivered stays as it is under every
    sequence of operations whose callers name their runtime and that do not mark it. *)
Theorem closed_batch_is_final sid bid b ops s
    (Hb : batch_record sid bid s = Some b) (Hclosed : batch_closed b)
    (Hops : ∀ t o, (t, o) ∈ ops →
       (∀ c, op_caller o = Some c → strip (rc_runtime_id c) ≠ "") ∧ op_marks o ≠ Some (strip sid, strip bid)) :
  batch_record sid bid (run_ops ops s) = Some b.
Proof.
  revert s Hb. induction ops as [|[t o] ops IH]; intros s Hb; [done|]. cbn.
  apply IH; [intros t' o' Hin; apply (Hops t'); by constructor|].
  destruct (Hops t o ltac:(constructor)) as [Hc Hm]. apply run_op_keeps; [|done| |done].
  - intros c Hcaller. split; [by apply Hc|by apply closed_refuses].
  - intros timeout n. by apply closed_verdict.
Qed.
End run.

(** ** Claims *)

Section claims.
Context (env : Environ) (iso : Z → string) (parse_iso : string → option Z).
Context (iso_parse : ∀ t, parse_iso (iso t) = Some t).

(** The batch is open, and no other runtime holds it. *)
Definition claimable (now : Z) (runtime_id : string) (b : pydict) : bool :=
  negb (bool_decide (batch_status b ∈ closed_statuses))
  && (negb (String.eqb (batch_status b) "processing")
      || cai_owned_transport_batch_lease_expired parse_iso now b
      || negb (String.eqb runtime_id "") && String.eqb (batch_text "runtimeId" b) runtime_id).

Lemma claim_refused now local rt lease b :
  claimable now rt b = false → is_ok (claim_batch iso parse_iso now local rt lease b) = false.
Proof.
  unfold claimable, claim_batch. intros Hc. destruct (negb (String.eqb _ local)); [done|]. cbv zeta.
  destruct (String.eqb_spec (batch_status b) "processing") as [E|E]; cbn [andb negb orb] in *.
  - rewrite E in *. destruct (cai_owned_transport_batch_lease_expired _ _ _); cbn [andb negb orb] in *; [done|].
    destruct (negb (String.eqb rt "") && _); [|done]. done.
  - rewrite andb_true_r in Hc. by destruct (bool_decide _).
Qed.

Lemma lease_leased now lease rt b :
  batch_text "status" b = "processing" → batch_text "runtimeId" b = rt →
  leased parse_iso rt (now + seconds (coerce_cai_owned_transport_batch_lease_seconds lease))
    (apply_cai_owned_transport_batch_lease iso now lease b).
Proof using iso_parse.
  intros Hst Hrt. unfold leased, batch_text in *.
  rewrite !lease_fields by not_key. split_and!; [done..|].
  unfold apply_cai_owned_transport_batch_lease.
  change [("heartbeatAt", ?a); ("leaseSeconds", ?x); ("leaseExpiresAt", ?y)]
    with ([("heartbeatAt", a); ("leaseSeconds", x)] ++ ("leaseExpiresAt", y) :: []).
  rewrite dget_dupdate_in by not_key. apply iso_parse.
Qed.

(** A runtime holds a lease on the batch. *)
Definition held (now : Z) (b : pydict) : bool :=
  String.eqb (batch_status b) "processing" && negb (cai_owned_transport_batch_lease_expired parse_iso now b).

Lemma count_of_int z : count_of (VInt z) = z.
Proof. unfold count_of, py_or. cbn. destruct (Z.eqb_spec z 0); by subst. Qed.

(** The claimed batch. *)
Lemma claim_taken now local rt lease b :
  claimable now rt b = true → batch_text "sinkNodeId" b = local → rt ≠ "" → strip rt = rt →
  ∃ b', claim_batch iso parse_iso now local rt lease b = Ok (b', negb (held now b))
    ∧ leased parse_iso rt (now + seconds (coerce_cai_owned_transport_batch_lease_seconds lease)) b'
    ∧ count_of (dget "attemptCount" b')
      = count_of (dget "attemptCount" b) + (if held now b then 0 else 1).
Proof using iso_parse.
  unfold held.
  unfold claimable, claim_batch. intros [Hopen Hfree]%andb_true_iff Hlocal Hrt Hstrip.
  apply negb_true_iff in Hopen. rewrite Hlocal, String.eqb_refl, Hopen. cbn [negb]. cbv zeta.
  apply String.eqb_neq in Hrt. rewrite Hrt in *. cbn [negb andb] in *.
  assert (∀ p e : bool, p && negb (p && e) = p && negb e) as -> by (by intros [] []).
  destruct (String.eqb (batch_status b) "processing" && negb _) eqn:Eheld.
  - apply andb_true_iff in Eheld as [Ep Elive]. rewrite Ep in *. cbn [andb negb orb] in *.
    apply negb_true_iff in Elive. rewrite Elive in *. cbn [orb] in Hfree. rewrite Hfree.
    eexists. split; [done|]. split; [|rewrite lease_fields by not_key; rewrite dget_dset; cbn; lia].
    apply String.eqb_eq in Ep, Hfree. apply lease_leased; unfold batch_text; rewrite dget_dset; cbn [String.eqb Ascii.eqb Bool.eqb].
    + change (batch_text "status" b = "processing"). rewrite <- Ep. symmetry. apply status_text.
      intros E. unfold batch_status, batch_text, str_or_strip, py_or in *.
      destruct (truthy (dget "status" b)); [congruence|done].
    + done.
  - eexists. split; [done|]. split.
    + apply lease_leased; unfold batch_text; rewrite dget_dset; cbn [String.eqb Ascii.eqb Bool.eqb].
      * cbn [app]. rewrite dget_dupdate_head; [done|].
        repeat case_match; cbn; not_key.
      * rewrite app_assoc, dget_dupdate_in by not_key. by rewrite str_or_strip_str.
    + rewrite lease_fields by not_key. rewrite dget_dset. cbn [String.eqb Ascii.eqb Bool.eqb].
      rewrite count_of_int. rewrite dget_dupdate; [done|].
      repeat case_match; cbn; not_key.
Qed.
(** C38: what a claim by the node a batch is addressed to does, in a session that is not completed:
    a batch that is open and not held by another runtime is leased to the caller for the time it
    asked for, with one more attempt counted unless the caller held it already; a batch that is
    closed or held by another runtime is refused and nothing changes. *)
Theorem claim_outcome now id bid c lease s r b
    (Hauth : authenticate env c = Ok tt) (Hr : session_of id s = Some r)
    (Hopen : ts_status r ≠ "completed") (Hsafe : is_safe_transport_file_id (VStr bid) "caibatch_" = true)
    (Hnode : strip (rc_node_id c) ∈ ts_participant_node_ids r) (Hne : strip (rc_node_id c) ≠ "")
    (Hb : find_batch bid r = Some b) (Hsink : batch_text "sinkNodeId" b = strip (rc_node_id c))
    (Hrt : strip (rc_runtime_id c) ≠ "") :
  let run := claim_cai_owned_transport_batch iso parse_iso env now id bid c lease s in
  if claimable now (strip (rc_runtime_id c)) b then
    ∃ r' b', run.2 = Ok r' ∧ session_of id run.1 = Some r' ∧ find_batch bid r' = Some b'
      ∧ leased parse_iso (strip (rc_runtime_id c))
          (now + seconds (coerce_cai_owned_transport_batch_lease_seconds lease)) b'
      ∧ count_of (dget "attemptCount" b')
        = count_of (dget "attemptCount" b) + (if held now b then 0 else 1)
  else is_ok run.2 = false ∧ run.1 = s.
Proof using iso_parse.
  cbv zeta. unfold claim_cai_owned_transport_batch. rewrite (lift_bind _ _ _ _ Hauth).
  assert (require_safe_transport_file_id (VStr bid) "caibatch_" = Ok (strip bid)) as Hid.
  { unfold require_safe_transport_file_id. by rewrite Hsafe, str_or_strip_str. }
  rewrite (lift_bind _ _ _ _ Hid).
  assert (require_session_participant r (rc_node_id c) = Ok (strip (rc_node_id c))) as Hlocal.
  { unfold require_session_participant. by rewrite (proj2 (String.eqb_neq _ _) Hne), bool_decide_eq_true_2. }
  destruct (claimable now _ b) eqn:Ec.
  - destruct (claim_taken now _ _ lease b Ec Hsink Hrt (strip_idem _)) as (b' & Hclaim & Hl & Hn).
    destruct (change_batch_ok (batch_not_found (strip bid) (ts_session_id r)) _ _ _ _ _ _ Hb Hclaim) as (l & Hl').
    destruct (change_batch_find _ _ _ _ _ _ (strip bid) Hl') as (b1 & b1' & Hb1 & Hf1 & Hfind).
    unfold find_batch in Hb. rewrite Hb in Hb1. injection Hb1 as <-. rewrite Hclaim in Hf1. injection Hf1 as <-.
    rewrite String.eqb_refl in Hfind.
    match goal with |- context [change_session id ?f s] =>
      destruct (change_session_ok id f s r (save_batches iso now
        (if negb (held now b) then started_status r else ts_status r) r l)) as [Hres Hs];
        [done| |done|]
    end.
    { rewrite (proj2 (String.eqb_neq _ _) Hopen), Hlocal. cbn. by rewrite Hl'. }
    eexists _, b'. split_and!; [exact Hres| | |done|done].
    + rewrite Hs. by rewrite String.eqb_refl.
    + apply Hfind. eapply same_batch_id, claim_same, Hclaim.
  - apply (change_session_refused id _ s r); [done|].
    rewrite (proj2 (String.eqb_neq _ _) Hopen), Hlocal. cbn.
    pose proof (change_batch_refused (batch_not_found (strip bid) (ts_session_id r)) _ _ _ _ Hb
      (claim_refused now (strip (rc_node_id c)) _ lease b Ec)) as Herr.
    by destruct (change_batch _ _ _ _).
Qed.
End claims.

(** ** Time-outs *)

Section timeouts.
Context (iso : Z → string) (parse_iso : string → option Z).
Context (iso_parse : ∀ t, parse_iso (iso t) = Some t).

Lemma batch_status_set st b : st ∉ ["" : string] → strip st = st → dget "status" b = VStr st → batch_status b = st.
Proof.
  intros Hne Hst Hb. rewrite not_elem_of_cons in Hne. unfold batch_status, py_or. rewrite Hb. cbn.
  by rewrite (proj2 (String.eqb_neq _ _)) by apply Hne.
Qed.

Lemma apply_verdict_settled now t n b :
  0 < t → timeout_verdict parse_iso now t n (apply_verdict iso parse_iso now t n b) = KeepBatch.
Proof using iso_parse.
  intros Ht. unfold apply_verdict. destruct (timeout_verdict parse_iso now t n b) as [| |e reason] eqn:Ev.
  - done.
  - set (b' := clear_cai_owned_transport_batch_runtime_claim _).
    assert (dget "status" b' = VStr "received" ∧ dget "updatedAt" b' = VStr (iso now)) as [Hst Hup].
    { subst b'. rewrite !cleared_fields by not_key. split; [by rewrite dget_dupdate_head by (cbn; not_key)|].
      apply (dget_dupdate_in "updatedAt" _ b [("status", VStr "received")]). cbn; not_key. }
    unfold timeout_verdict. rewrite (batch_status_set "received" b') by (done || not_key).
    cbn [andb String.eqb Ascii.eqb Bool.eqb].
    unfold cai_owned_transport_batch_claim_expired, parse_cai_owned_transport_datetime. rewrite Hup. cbn [py_str].
    rewrite iso_parse. unfold seconds. by rewrite (proj2 (Z.leb_gt _ _)) by lia.
  - set (b' := mark_cai_owned_transport_batch_timed_out _ _ _ _ _).
    assert (dget "status" b' = VStr "timed_out") as Hst.
    { subst b'. unfold mark_cai_owned_transport_batch_timed_out. by rewrite dget_dupdate_head by (cbn; not_key). }
    unfold timeout_verdict. by rewrite (batch_status_set "timed_out" b') by (done || not_key).
Qed.

Lemma filled_ids_nil p l :
  Forall (λ b, batch_text "batchId" b ≠ "") l → filled_ids (List.filter p l) = [] →
  Forall (λ b, p b = false) l.
Proof.
  induction 1 as [|b l Hb Hl IH]; [constructor|]. cbn. destruct (p b) eqn:E.
  - cbn. unfold filled_ids in *. cbn. by rewrite (proj2 (String.eqb_neq _ _) Hb).
  - intros Hn. constructor; [done|]. by apply IH.
Qed.

Lemma kept_batches now t n l :
  Forall (λ b, is_retried parse_iso now t n b = false) l →
  Forall (λ b, bool_decide (is_Some (timed_out_error parse_iso now t n b)) = false) l →
  Forall (λ b, timeout_verdict parse_iso now t n b = KeepBatch) l
  ∧ map (apply_verdict iso parse_iso now t n) l = l.
Proof.
  intros Hr. revert Hr. induction 1 as [|b l Hb Hl IH]; [by repeat constructor|].
  inversion 1 as [|? ? Ht Hts]; subst. destruct (IH Hts) as [Hk Hm].
  assert (timeout_verdict parse_iso now t n b = KeepBatch) as Hv.
  { unfold is_retried, timed_out_error in *. by destruct (timeout_verdict _ _ _ _ b). }
  split; [by constructor|]. cbn. unfold apply_verdict at 1. by rewrite Hv, Hm.
Qed.

Lemma none_found now t n l :
  Forall (λ b, timeout_verdict parse_iso now t n b = KeepBatch) l →
  List.filter (λ b, bool_decide (is_Some (timed_out_error parse_iso now t n b))) l = []
  ∧ List.filter (is_retried parse_iso now t n) l = [].
Proof.
  induction 1 as [|b l Hb Hl [IH1 IH2]]; [done|]. cbn.
  assert (timed_out_error parse_iso now t n b = None) as He by (unfold timed_out_error; by rewrite Hb).
  rewrite bool_decide_eq_false_2 by (rewrite He; by intros [? ?]). split; [done|].
  unfold is_retried at 1. by rewrite Hb.
Qed.

(** Nothing overdue: the store stays as it is. *)
Lemma quiet_look now id timeout n s r :
  session_of id s = Some r →
  Forall (λ b, timeout_verdict parse_iso now (coerce_cai_owned_transport_batch_claim_timeout_seconds timeout)
                 (coerce_cai_owned_transport_max_attempts n) b = KeepBatch) (ts_batch_records r) →
  (reconcile_cai_owned_transport_session_timeouts iso parse_iso now id timeout n s).1 = s.
Proof.
  intros Hr Hk. unfold reconcile_cai_owned_transport_session_timeouts.
  match goal with |- (on_session id ?f s).1 = s => pose proof (on_session_cases id f s) as Hc end.
  cbn beta zeta in Hc. rewrite Hr in Hc. destruct (none_found _ _ _ _ Hk) as [H1 H2].
  rewrite H1, H2 in Hc. destruct (String.eqb _ _); cbn in Hc; by rewrite Hc.
Qed.

(** The session after a look. *)
Lemma look_result now id timeout n s r :
  session_of id s = Some r → ts_status r ≠ "completed" →
  Forall (λ b, batch_text "batchId" b ≠ "") (ts_batch_records r) →
  let t := coerce_cai_owned_transport_batch_claim_timeout_seconds timeout in
  let m := coerce_cai_owned_transport_max_attempts n in
  ∃ r', session_of id (reconcile_cai_owned_transport_session_timeouts iso parse_iso now id timeout n s).1 = Some r'
    ∧ ts_batch_records r' = map (apply_verdict iso parse_iso now t m) (ts_batch_records r)
    ∧ (Exists (λ b, is_Some (timed_out_error parse_iso now t m b)) (ts_batch_records r) → ts_status r' = "failed")
    ∧ (Forall (λ b, timeout_verdict parse_iso now t m b = KeepBatch) (ts_batch_records r) → r' = r).
Proof.
  intros Hr Hopen Hids. cbv zeta. set (t := coerce_cai_owned_transport_batch_claim_timeout_seconds timeout).
  set (m := coerce_cai_owned_transport_max_attempts n).
  unfold reconcile_cai_owned_transport_session_timeouts.
  match goal with |- context [on_session id ?f s] =>
    set (F := f); pose proof (on_session_cases id F s) as Hc; remember (F r) as o eqn:Ho
  end.
  rewrite Hr, <- Ho in Hc. unfold F in Ho. cbn beta zeta in Ho.
  rewrite (proj2 (String.eqb_neq _ _) Hopen) in Ho. fold t m in Ho.
  destruct (filled_ids (List.filter (λ b, bool_decide _) _)) as [|i0 ids] eqn:Et;
    [destruct (filled_ids (List.filter (is_retried _ _ _ _) _)) as [|j js] eqn:Ej|];
    cbn in Ho; subst o.
  - destruct (kept_batches now t m (ts_batch_records r)) as [Hk Hm]; [by apply filled_ids_nil..|].
    exists r. rewrite Hc. split_and!; [done..| |done]. intros [b [Hin Hb]]%Exists_exists.
    rewrite Forall_forall in Hk. unfold timed_out_error in Hb. rewrite Hk in Hb by done. by destruct Hb.
  - destruct Hc as [_ Hc]. eexists. rewrite Hc by done. rewrite String.eqb_refl. split_and!; [done..| |].
    + intros [b [Hin Hb]]%Exists_exists. apply filled_ids_nil in Et; [|done]. rewrite Forall_forall in Et.
      specialize (Et b Hin). cbn in Et. by rewrite bool_decide_eq_true_2 in Et.
    + intros Hk. destruct (none_found _ _ _ _ Hk) as [_ H2]. by rewrite H2 in Ej.
  - destruct Hc as [_ Hc]. eexists. rewrite Hc by done. rewrite String.eqb_refl. split_and!; [done..|].
    intros Hk. destruct (none_found _ _ _ _ Hk) as [H1 _]. by rewrite H1 in Et.
Qed.

(** What overdue means, for a look at time [now] with [t] seconds to claim a batch and at most
    [m] attempts. *)
Section overdue.
Context (now t m : Z).

Definition time_of (k : string) (b : pydict) : option Z := parse_cai_owned_transport_datetime parse_iso (dget k b).

(** When a received batch was last touched: its update or, without one, its creation. *)
Definition touched_at (b : pydict) : option Z :=
  match time_of "updatedAt" b with Some u => Some u | None => time_of "createdAt" b end.

(** Received and not claimed for [t] seconds, as far as its times can be read. *)
Definition unclaimed (b : pydict) : Prop :=
  batch_status b = "received" ∧ ∀ u, touched_at b = Some u → u + seconds t ≤ now.

(** In processing under a lease that has ended, or that has no end that can be read. *)
Definition lease_lost (b : pydict) : Prop :=
  batch_status b = "processing" ∧ ∀ e, time_of "leaseExpiresAt" b = Some e → e ≤ now.

Definition overdue (b : pydict) : Prop := unclaimed b ∨ lease_lost b.

(** Without an attempt left. *)
Definition hopeless (b : pydict) : Prop :=
  unclaimed b ∨ (lease_lost b ∧ m ≤ cai_owned_transport_batch_attempt_count b).

(** The identity, the payload hash and the attempts of a batch stay. *)
Definition same_work (b b' : pydict) : Prop := same_batch b b' ∧ dget "attemptCount" b' = dget "attemptCount" b.

Definition timed_out_as (reason : string) (b b' : pydict) : Prop :=
  batch_status b' = "timed_out" ∧ dget "timeoutReason" b' = VStr reason
  ∧ dget "retryable" b' = VBool false ∧ same_work b b'.

(** Open again, from [now] on and without a holder. *)
Definition open_again (b b' : pydict) : Prop :=
  batch_status b' = "received" ∧ time_of "updatedAt" b' = Some now
  ∧ dget "runtimeId" b' = VNone ∧ dget "leaseExpiresAt" b' = VNone ∧ same_work b b'.

Inductive looked_at (b : pydict) : pydict → Prop :=
| looked_in_time : ¬ overdue b → looked_at b b
| looked_unclaimed b' : unclaimed b → timed_out_as "claim_timeout" b b' → looked_at b b'
| looked_retried b' :
    lease_lost b → cai_owned_transport_batch_attempt_count b < m → open_again b b' → looked_at b b'
| looked_exhausted b' :
    lease_lost b → m ≤ cai_owned_transport_batch_attempt_count b →
    timed_out_as "lease_timeout" b b' → looked_at b b'.

Lemma unclaimed_expired b :
  unclaimed b ↔ batch_status b = "received" ∧ cai_owned_transport_batch_claim_expired parse_iso now t b = true.
Proof.
  unfold unclaimed, cai_owned_transport_batch_claim_expired. fold (time_of "updatedAt" b) (time_of "createdAt" b).
  fold (touched_at b). destruct (touched_at b) as [u|]; [|naive_solver].
  rewrite Z.leb_le. naive_solver.
Qed.

Lemma lease_lost_expired b :
  lease_lost b ↔ batch_status b = "processing" ∧ cai_owned_transport_batch_lease_expired parse_iso now b = true.
Proof.
  unfold lease_lost, cai_owned_transport_batch_lease_expired. fold (time_of "leaseExpiresAt" b).
  destruct (time_of _ b) as [e|]; [|naive_solver]. rewrite Z.leb_le. naive_solver.
Qed.

(** The code's verdict on a batch. *)
Lemma verdict_means b :
  match timeout_verdict parse_iso now t m b with
  | KeepBatch => ¬ overdue b
  | RetryBatch => lease_lost b ∧ cai_owned_transport_batch_attempt_count b < m
  | TimeOutBatch _ reason =>
      (unclaimed b ∧ reason = "claim_timeout")
      ∨ (lease_lost b ∧ m ≤ cai_owned_transport_batch_attempt_count b ∧ reason = "lease_timeout")
  end.
Proof.
  pose proof (unclaimed_expired b) as Hu. pose proof (lease_lost_expired b) as Hl.
  unfold overdue, timeout_verdict.
  destruct (String.eqb_spec (batch_status b) "received") as [Er|Er]; cbn [andb].
  - assert (¬ lease_lost b) as Hno by (intros [Ep _]; congruence).
    destruct (cai_owned_transport_batch_claim_expired _ _ _ _); [left; split; [by apply Hu|done]|].
    rewrite Er. cbn [String.eqb Ascii.eqb Bool.eqb andb]. intros [Hun|?]; [|done]. by apply Hu in Hun as [_ ?].
  - assert (¬ unclaimed b) as Hno by (by intros [? _]).
    destruct (String.eqb_spec (batch_status b) "processing") as [Ep|Ep]; cbn [andb].
    2: { intros [?|[? _]]; done. }
    destruct (cai_owned_transport_batch_lease_expired _ _ _).
    + assert (lease_lost b) as Hlost by by apply Hl.
      destruct (Z.ltb_spec (cai_owned_transport_batch_attempt_count b) m); [by split|by right].
    + intros [?|Hlost]; [done|]. by apply Hl in Hlost as [_ ?].
Qed.

Lemma verdict_keeps b : timeout_verdict parse_iso now t m b = KeepBatch ↔ ¬ overdue b.
Proof.
  pose proof (verdict_means b) as Hv. unfold overdue in *. destruct (timeout_verdict _ _ _ _ b); naive_solver.
Qed.

Lemma verdict_times_out b : is_Some (timed_out_error parse_iso now t m b) ↔ hopeless b.
Proof.
  pose proof (verdict_means b) as Hv. unfold timed_out_error, hopeless, overdue in *.
  assert (unclaimed b → ¬ lease_lost b) by (intros [E _] [E' _]; congruence).
  destruct (timeout_verdict _ _ _ _ b) as [| |e reason].
  - split; [by intros [? ?]|naive_solver].
  - split; [by intros [? ?]|]. destruct Hv. intros [?|[_ ?]]; [tauto|lia].
  - split; [naive_solver|eauto].
Qed.

Lemma looked_at_verdict b : looked_at b (apply_verdict iso parse_iso now t m b).
Proof using iso_parse.
  pose proof (verdict_means b) as Hv. pose proof (verdict_same iso parse_iso now t m b) as Hsame.
  unfold apply_verdict in *. destruct (timeout_verdict parse_iso now t m b) as [| |e reason] eqn:Ev.
  - by apply looked_in_time.
  - destruct Hv as [Hlost Hatt]. apply looked_retried; [done..|].
    set (b1 := dupdate b _) in *. unfold open_again, time_of, same_work. split_and!.
    + apply batch_status_set; [not_key|done|]. rewrite cleared_fields by not_key. by apply dget_dupdate_head; cbn; not_key.
    + rewrite cleared_fields by not_key.
      assert (dget "updatedAt" b1 = VStr (iso now)) as ->; [|apply iso_parse].
      apply (dget_dupdate_in "updatedAt" _ b [("status", VStr "received")]). cbn. not_key.
    + unfold clear_cai_owned_transport_batch_runtime_claim. cbn [foldr]. by rewrite !dget_dpop.
    + unfold clear_cai_owned_transport_batch_runtime_claim. cbn [foldr]. by rewrite !dget_dpop.
    + done.
    + rewrite cleared_fields by not_key. apply dget_dupdate. cbn. not_key.
  - assert (∀ b0, timed_out_as reason b0 (mark_cai_owned_transport_batch_timed_out iso now e reason b0)) as Hmark.
    { intros b0. unfold timed_out_as, same_work, mark_cai_owned_transport_batch_timed_out. split_and!.
      - apply batch_status_set; [not_key|done|]. by apply dget_dupdate_head; cbn; not_key.
      - apply (dget_dupdate_in "timeoutReason" _ b0
          [("status", VStr "timed_out"); ("updatedAt", VStr (iso now)); ("timedOutAt", VStr (iso now))]). cbn. not_key.
      - apply (dget_dupdate_in "retryable" _ b0
          [("status", VStr "timed_out"); ("updatedAt", VStr (iso now)); ("timedOutAt", VStr (iso now));
           ("timeoutReason", VStr reason); ("lastError", VStr e); ("error", VStr e)] []). cbn. not_key.
      - intros k Hk. apply dget_dupdate. cbn. unfold fixed_fields in Hk. set_solver.
      - apply dget_dupdate. cbn. not_key. }
    destruct Hv as [[Hun ->]|(Hlost & Hatt & ->)].
    + by apply looked_unclaimed.
    + apply looked_exhausted; [done..|]. destruct (Hmark (dset "maxAttempts" (VInt m) b)) as (H1 & H2 & H3 & _ & H5).
      split_and!; [done..|]. split; [exact Hsame|]. etransitivity; [exact H5|]. by rewrite dget_dset.
Qed.
End overdue.

(** C39: after a coordinator has looked for time-outs in a session that is not completed, no batch
    of it is overdue: one that was received and not claimed in time is timed out; one whose lease
    has ended is open again without a holder while it has attempts left, and timed out otherwise;
    every other batch is as it was.  The session has failed when a batch timed out, and stays as it
    was when none was overdue.  A second look at the same time changes nothing. *)
Theorem reconcile_settles now id timeout n s r
    (Hr : session_of id s = Some r) (Hopen : ts_status r ≠ "completed")
    (Hids : Forall (λ b, batch_text "batchId" b ≠ "") (ts_batch_records r))
    (Htimeout : 0 < coerce_cai_owned_transport_batch_claim_timeout_seconds timeout) :
  let t := coerce_cai_owned_transport_batch_claim_timeout_seconds timeout in
  let m := coerce_cai_owned_transport_max_attempts n in
  let look := reconcile_cai_owned_transport_session_timeouts iso parse_iso now id timeout n in
  ∃ r', session_of id (look s).1 = Some r'
    ∧ Forall2 (looked_at now t m) (ts_batch_records r) (ts_batch_records r')
    ∧ Forall (λ b, ¬ overdue now t b) (ts_batch_records r')
    ∧ (Exists (hopeless now t m) (ts_batch_records r) → ts_status r' = "failed")
    ∧ (Forall (λ b, ¬ overdue now t b) (ts_batch_records r) → r' = r)
    ∧ (look (look s).1).1 = (look s).1.
Proof using iso_parse.
  cbv zeta. set (t := coerce_cai_owned_transport_batch_claim_timeout_seconds timeout) in *.
  set (m := coerce_cai_owned_transport_max_attempts n).
  destruct (look_result now id timeout n s r Hr Hopen Hids) as (r' & Hr' & Hb & Hf & Hq). fold t m in Hb, Hf, Hq.
  assert (Forall (λ b, timeout_verdict parse_iso now t m b = KeepBatch) (ts_batch_records r')) as Hl.
  { rewrite Hb. apply Forall_forall. intros b Hin. apply list_elem_of_In, in_map_iff in Hin as (b1 & <- & _).
    by apply apply_verdict_settled. }
  exists r'. split_and!; [done| | | | |].
  - rewrite Hb. apply Forall2_fmap_r, Forall_Forall2_diag, Forall_true. intros b. apply looked_at_verdict.
  - eapply Forall_impl; [exact Hl|]. intros b. apply verdict_keeps.
  - intros He. apply Hf. eapply Exists_impl; [exact He|]. intros b. apply verdict_times_out.
  - intros Hk. apply Hq. eapply Forall_impl; [exact Hk|]. intros b. apply verdict_keeps.
  - by apply (quiet_look _ _ _ _ _ r').
Qed.
End timeouts.

(** ** Signed payloads and replays *)

Section replays.
Context `{SignatureBackend} (env : Environ).
Context (iso : Z → string) (parse_iso : string → option Z).
Context (iso_parse : ∀ t, parse_iso (iso t) = Some t).

(** What touches the replay cache: the check of a signed payload and the clean-up. *)
Inductive ReplayOp :=
| ReplayCheck (rules : SignatureRules) (name expected : string) (allowed : list string) (v : pyval)
| ReplayCleanup (retention : option Z).

Definition check_payload (now : Z) (rules : SignatureRules) (name expected : string)
    (allowed : list string) (v : pyval) (s : TransportStore) : TransportStore * verdict unit :=
  validate_cai_owned_transport_payload_signature env iso parse_iso now rules name expected allowed v s.

Definition run_replay_op (s : TransportStore) (o : Z * ReplayOp) : TransportStore :=
  match o.2 with
  | ReplayCheck rules name expected allowed v => (check_payload o.1 rules name expected allowed v s).1
  | ReplayCleanup retention =>
      (cleanup_cai_owned_transport_replay_cache parse_iso o.1 retention s).1
  end.

(** The cache has a record of the key that expires at [t]. *)
Definition replay_known (key : string) (t : Z) (s : TransportStore) : Prop :=
  ∃ r, r ∈ tp_replays s ∧ dget "replayKey" r = VStr key ∧ dget "expiresAt" r = VStr (iso t).

Lemma replay_kept now retention t (r : pydict) :
  dget "expiresAt" r = VStr (iso t) → now < t →
  _cai_owned_transport_replay_record_expired parse_iso now retention r = false.
Proof using iso_parse.
  intros He Hlt. unfold _cai_owned_transport_replay_record_expired. rewrite He.
  cbn [parse_cai_owned_transport_datetime py_str]. rewrite iso_parse. lia.
Qed.

Lemma replays_kept now retention key t (l : list pydict) r :
  r ∈ l → dget "expiresAt" r = VStr (iso t) → now < t →
  r ∈ List.filter (λ r, negb (_cai_owned_transport_replay_record_expired parse_iso now retention r)) l
  ∧ (dget "replayKey" r = VStr key → key ≠ "" →
     existsb (λ r, String.eqb (py_str (py_or (dget "replayKey" r) (VStr ""))) key)
       (List.filter (λ r, negb (_cai_owned_transport_replay_record_expired parse_iso now retention r)) l)
     = true).
Proof using iso_parse.
  intros Hr He Hlt.
  assert (r ∈ List.filter (λ r, negb (_cai_owned_transport_replay_record_expired parse_iso now retention r)) l)
    as Hin
    by (apply list_elem_of_In, filter_In; rewrite <- list_elem_of_In, (replay_kept _ _ t); done).
  split; [done|]. intros Hk Hne. apply existsb_exists. exists r. rewrite <- list_elem_of_In.
  split; [done|]. rewrite Hk. unfold py_or. cbn [truthy].
  rewrite (proj2 (String.eqb_neq _ _) Hne). cbn [negb py_str]. apply String.eqb_refl.
Qed.

(** Recording a payload keeps the records that have not expired, refuses the keys they have, and
    leaves a record of the key it takes. *)
Lemma record_replay_spec now payload name retention s :
  let run := record_cai_owned_transport_payload_replay iso parse_iso now payload name retention s in
  (∀ key t, now < t → replay_known key t s → replay_known key t run.1)
  ∧ (∀ key t, now < t → key ≠ "" → replay_known key t s →
       cai_owned_transport_payload_replay_key payload = Some key → is_accepted run.2 = false)
  ∧ (is_accepted run.2 = true → ∃ key, cai_owned_transport_payload_replay_key payload = Some key
       ∧ replay_known key (now + seconds (replay_retention retention)) run.1).
Proof using iso_parse.
  cbn zeta. unfold record_cai_owned_transport_payload_replay.
  destruct (cai_owned_transport_payload_replay_key payload) as [k|]; [|by split_and!].
  set (kept := List.filter _ _).
  assert (∀ key t, now < t → replay_known key t s →
            ∃ r, r ∈ kept ∧ dget "replayKey" r = VStr key ∧ dget "expiresAt" r = VStr (iso t)) as Hkept.
  { intros key t Hlt (r & Hr & Hk & He). exists r. split; [|done]. by eapply (replays_kept _ _ key t). }
  destruct (existsb _ kept) eqn:E; cbn [fst snd is_accepted]; split_and!; try done.
  - intros key t Hlt Hk. destruct (Hkept key t Hlt Hk) as (r & Hr & Hrk & Hre).
    exists r. split; [|done]. cbn [with_replays tp_replays]. apply elem_of_app. by left.
  - intros key t Hlt Hne (r & Hr & Hk & He) [= ->].
    destruct (replays_kept now (replay_retention retention) key t _ r Hr He Hlt) as [_ Hex].
    specialize (Hex Hk Hne). unfold kept in E. congruence.
  - intros _. exists k. split; [done|]. cbn [with_replays tp_replays].
    eexists. split; [apply elem_of_app; right; by left|split; reflexivity].
Qed.

(** A check ends with the record of the payload, when the rules ask for it. *)
Lemma check_payload_cases now rules name expected allowed v s :
  let run := check_payload now rules name expected allowed v s in
  (run.1 = s ∧ (rl_record_replay rules = true → is_accepted run.2 = false))
  ∨ ∃ payload, v = VDict payload ∧ rl_record_replay rules = true
      ∧ run = record_cai_owned_transport_payload_replay iso parse_iso now payload name
                (rl_retention_seconds rules) s.
Proof.
  unfold check_payload, validate_cai_owned_transport_payload_signature. cbv zeta.
  destruct v as [| | | | |payload]; try (by left).
  assert (∀ {A} (c : verdict A) (f : A → VM unit) (P : TransportStore * verdict unit → Prop),
            (∀ a, P (f a s)) → (∀ m, P (s, Refuses m)) → (∀ e, P (s, Raises e)) → P ((vlift c ≫= f) s))
    as Hstep by (intros A c f P Hf Hm He; destruct c; [apply Hf|apply Hm|apply He]).
  apply (Hstep _ _ _ (λ run, (run.1 = s ∧ (rl_record_replay rules = true → is_accepted run.2 = false))
     ∨ ∃ p, VDict payload = VDict p ∧ rl_record_replay rules = true
      ∧ run = record_cai_owned_transport_payload_replay iso parse_iso now p name (rl_retention_seconds rules) s));
    [intros _|by left..].
  destruct (dget "signature" payload);
    try (left; split; [done|intros ->; done]).
  do 5 (apply (Hstep _ _ _ (λ run, (run.1 = s ∧ (rl_record_replay rules = true → is_accepted run.2 = false))
     ∨ ∃ p, VDict payload = VDict p ∧ rl_record_replay rules = true
      ∧ run = record_cai_owned_transport_payload_replay iso parse_iso now p name (rl_retention_seconds rules) s));
    [intros ?|by left..]).
  destruct (rl_record_replay rules); [right; by exists payload|by left].
Qed.

Lemma replay_known_kept key t o s :
  o.1 < t → replay_known key t s → replay_known key t (run_replay_op s o).
Proof using iso_parse.
  destruct o as [now [rules name expected allowed v|retention]]; cbn [fst]; intros Hlt Hk.
  - unfold run_replay_op. cbn [fst snd].
    destruct (check_payload_cases now rules name expected allowed v s) as [[-> _]|(p & _ & _ & ->)]; [done|].
    by apply record_replay_spec.
  - destruct Hk as (r & Hr & Hk & He). exists r. split; [|done].
    by eapply (replays_kept now (replay_retention retention) key t).
Qed.

(** C40: a signed payload is accepted once: after a check that records it, no later check that
    looks for replays accepts a payload with the same body and signature before the retention time
    has passed, whatever other payloads were checked and however often the cache was cleaned in
    between. *)
Theorem payload_accepted_once t1 rules1 name1 expected1 allowed1 payload1 s ops
    t2 rules2 name2 expected2 allowed2 payload2
    (Hrecorded : rl_record_replay rules1 = true) (Hlooks : rl_record_replay rules2 = true)
    (Haccepted : is_accepted (check_payload t1 rules1 name1 expected1 allowed1 (VDict payload1) s).2 = true)
    (Hsame : cai_owned_transport_payload_replay_key payload2
             = cai_owned_transport_payload_replay_key payload1)
    (Hops : ∀ t o, (t, o) ∈ ops → t < t1 + seconds (replay_retention (rl_retention_seconds rules1)))
    (Hsoon : t2 < t1 + seconds (replay_retention (rl_retention_seconds rules1))) :
  let s1 := (check_payload t1 rules1 name1 expected1 allowed1 (VDict payload1) s).1 in
  is_accepted (check_payload t2 rules2 name2 expected2 allowed2 (VDict payload2)
                 (foldl run_replay_op s1 ops)).2 = false.
Proof using iso_parse.
  cbn zeta. set (expiry := t1 + _) in *.
  destruct (check_payload_cases t1 rules1 name1 expected1 allowed1 (VDict payload1) s)
    as [[_ Hno]|(p & [= <-] & _ & E)]; [by rewrite (Hno Hrecorded) in Haccepted|].
  rewrite E in Haccepted |- *.
  destruct (record_replay_spec t1 payload1 name1 (rl_retention_seconds rules1) s) as (_ & _ & Hk).
  destruct (Hk Haccepted) as (key & Hkey & Hknown). fold expiry in Hknown.
  assert (key ≠ "") as Hne.
  { revert Hkey. unfold cai_owned_transport_payload_replay_key. repeat case_match; try done.
    intros [= <-]. apply sha256_nonempty. }
  revert Hknown. generalize (record_cai_owned_transport_payload_replay iso parse_iso t1 payload1 name1
    (rl_retention_seconds rules1) s).1. clear E Hk Haccepted.
  induction ops as [|[t o] ops IH]; intros s1 Hknown; cbn [foldl].
  - destruct (check_payload_cases t2 rules2 name2 expected2 allowed2 (VDict payload2) s1)
      as [[_ Hno]|(p & [= <-] & _ & ->)]; [by apply Hno|].
    destruct (record_replay_spec t2 payload2 name2 (rl_retention_seconds rules2) s1) as (_ & Hr & _).
    eapply Hr; [exact Hsoon|exact Hne|done|congruence].
  - apply IH; [intros t' o' Hin; eapply Hops; by right|].
    apply replay_known_kept; [eapply Hops; by left|done].
Qed.
End replays.

(** ** A session with one batch *)

Definition demo_iso : Z → string := str_of_Z.
Definition demo_parse_iso : string → option Z := int_of_str.

Lemma demo_iso_parse t : demo_parse_iso (demo_iso t) = Some t.
Proof. apply int_of_str_of_Z. Qed.

Definition demo_run (ops : list (Z * TransportOp)) (s : TransportStore) : TransportStore :=
  run_ops no_env demo_iso demo_parse_iso Some "mainnet" "mainnet" ops s.

Definition demo_caller (runtime_id : string) : RuntimeCaller :=
  {| rc_node_id := "b"; rc_runtime_id := runtime_id; rc_auth_token := None; rc_require_auth := None |}.

(** Node [a] hands a batch to node [b], whose runtime [rt1] claims it at second ten. *)
Definition demo_received : TransportStore := Eval vm_compute in demo_run
  [(0, OpCreate "0"
      {| sq_instance_id := "i"; sq_participant_node_ids := ["a"; "b"]; sq_executor_node_ids := ["b"];
         sq_session_id := "caiot_1"; sq_chain_id := None; sq_model_id := None; sq_task_id := None;
         sq_source_node_id := "a"; sq_execution_mode := None; sq_route_policy := [] |});
   (0, OpRecord "0" "caiot_1"
      {| nb_phase := "prefill_activation_batches"; nb_source_node_id := "a"; nb_sink_node_id := "b";
         nb_batch_id := "caibatch_1"; nb_payload_size_bytes := 3;
         nb_payload_sha256_hex := Some (sha256_hexdigest "abc"); nb_metadata := [];
         nb_route_audit := None; nb_status := "received" |})]
  {| tp_sessions := []; tp_payloads := ∅; tp_replays := [] |}.

Definition demo_claimed : TransportStore := Eval vm_compute in
  demo_run [(seconds 10, OpClaim "caiot_1" "caibatch_1" (demo_caller "rt1") None)] demo_received.

Definition demo_batch (s : TransportStore) : pydict :=
  default [] (batch_record "caiot_1" "caibatch_1" s).

(** Another runtime claims the batch, takes the next one, reports and fails it, and the coordinator
    looks for time-outs. *)
Definition demo_attack : list (Z * TransportOp) :=
  [(seconds 20, OpClaim "caiot_1" "caibatch_1" (demo_caller "rt2") None);
   (seconds 21, OpClaimNext (demo_caller "rt2") (Some "received") "caiot_1" None);
   (seconds 22, OpHeartbeat "caiot_1" "caibatch_1" (demo_caller "rt2") None);
   (seconds 23, OpFail "caiot_1" "caibatch_1" (demo_caller "rt2") "stolen" true None None);
   (seconds 24, OpMark "caiot_1" "caibatch_2" "processed" "" no_mark);
   (seconds 69, OpReconcile "caiot_1" None None)].

Lemma lease_exclusive_witness :
  batch_record "caiot_1" "caibatch_1"
    (run_ops no_env demo_iso demo_parse_iso Some "mainnet" "mainnet" demo_attack demo_claimed)
  = Some (demo_batch demo_claimed).
Proof.
  apply (lease_exclusive no_env demo_iso demo_parse_iso Some "mainnet" "mainnet" "caiot_1" "caibatch_1"
           "rt1" (seconds 70) (demo_batch demo_claimed) demo_attack demo_claimed).
  - vm_compute. reflexivity.
  - split_and!; vm_compute; reflexivity.
  - intros t o Ho. unfold demo_attack in Ho. rewrite !elem_of_cons in Ho.
    repeat destruct Ho as [[= -> ->]|Ho]; [..|by apply elem_of_nil in Ho];
      (split; [reflexivity|split; [intros c Hc; simplify_eq/=; vm_compute; set_solver|vm_compute; discriminate]]).
Defined.

(** A mark of the batch takes it from its holder, without a runtime, a token or a node. *)
Lemma mark_ignores_lease :
  batch_status (demo_batch (demo_run [(seconds 20, OpMark "caiot_1" "caibatch_1" "processed" "" no_mark)]
                              demo_claimed)) = "processed".
Proof. vm_compute. reflexivity. Qed.

Definition demo_session (s : TransportStore) : TransportSession :=
  default (new_session "" "" "" [] []
    {| sq_instance_id := ""; sq_participant_node_ids := []; sq_executor_node_ids := []; sq_session_id := "";
       sq_chain_id := None; sq_model_id := None; sq_task_id := None; sq_source_node_id := "";
       sq_execution_mode := None; sq_route_policy := [] |}) (session_of "caiot_1" s).

Lemma claim_outcome_witness :
  let run := claim_cai_owned_transport_batch demo_iso demo_parse_iso no_env (seconds 10) "caiot_1"
               "caibatch_1" (demo_caller "rt1") None demo_received in
  ∃ r' b', run.2 = Ok r' ∧ session_of "caiot_1" run.1 = Some r' ∧ find_batch "caibatch_1" r' = Some b'
    ∧ leased demo_parse_iso "rt1" (seconds 70) b'
    ∧ count_of (dget "attemptCount" b') = count_of (dget "attemptCount" (demo_batch demo_received)) + 1.
Proof.
  apply (claim_outcome no_env demo_iso demo_parse_iso demo_iso_parse (seconds 10) "caiot_1"
    "caibatch_1" (demo_caller "rt1") None demo_received (demo_session demo_received)
    (demo_batch demo_received)); try (vm_compute; reflexivity); try discriminate.
  vm_compute. right. left.
Defined.

(** The lease of the claimed batch is over at second eighty. *)
Lemma reconcile_settles_witness :
  let look := reconcile_cai_owned_transport_session_timeouts demo_iso demo_parse_iso (seconds 80) "caiot_1"
                None None in
  ∃ r', session_of "caiot_1" (look demo_claimed).1 = Some r'
    ∧ Forall2 (looked_at demo_parse_iso (seconds 80) 120 3)
        (ts_batch_records (demo_session demo_claimed)) (ts_batch_records r')
    ∧ Forall (λ b, ¬ overdue demo_parse_iso (seconds 80) 120 b) (ts_batch_records r').
Proof.
  destruct (reconcile_settles demo_iso demo_parse_iso demo_iso_parse (seconds 80) "caiot_1" None None
    demo_claimed (demo_session demo_claimed)) as (r' & Hr & Hl & Hk & _).
  - vm_compute. reflexivity.
  - discriminate.
  - repeat constructor. discriminate.
  - reflexivity.
  - exists r'. split; [exact Hr|split; [exact Hl|exact Hk]].
Defined.

(** A signed payload, checked twice within a day. *)
Definition demo_rules : SignatureRules := {|
  rl_require := Some true; rl_trusted := None; rl_require_trusted := false; rl_record_replay := true;
  rl_replay_policy := None; rl_retention_seconds := None |}.

Definition demo_unsigned : pydict := [("signerNodeId", VStr "a"); ("body", VStr "work")].

Definition demo_signed : pydict := demo_unsigned ++
  [("signature", VDict
     [("scheme", VStr PEER_PAYLOAD_SIGNATURE_SCHEME_ED25519);
      ("public_key_b64", VStr (encode_bytes demo_seed));
      ("signature_b64",
       VStr match sign_payload_b64 demo_seed (VDict demo_unsigned) with Ok s => s | Err _ => "" end)])].

Lemma payload_accepted_once_witness :
  let check t s := check_payload no_env demo_iso demo_parse_iso t demo_rules "offer" "a" ["a"; "b"]
                     (VDict demo_signed) s in
  let s1 := (check 0 demo_received).1 in
  is_accepted (check 0 demo_received).2 = true
  ∧ is_accepted (check (seconds 3600)
      (foldl (run_replay_op no_env demo_iso demo_parse_iso) s1 [(seconds 60, ReplayCleanup None)])).2 = false.
Proof.
  split; [vm_compute; reflexivity|].
  apply (payload_accepted_once no_env demo_iso demo_parse_iso demo_iso_parse 0 demo_rules "offer" "a"
    ["a"; "b"] demo_signed demo_received [(seconds 60, ReplayCleanup None)] (seconds 3600) demo_rules
    "offer" "a" ["a"; "b"] demo_signed); try reflexivity.
  intros t o Ho. apply elem_of_cons in Ho. destruct Ho as [Ho|Ho]; [|by apply elem_of_nil in Ho].
  injection Ho as -> ->. reflexivity.
Defined.
