(* ===== verification/TransportPlanProps.v ===== *)
(** * The execution plan is what its check accepts

    How the layers are cut among the executors, that a DAG a coordinator builds is accepted by
    every node, and that a node accepts no other stages than those the plan calls for. *)
From Stdlib Require Import Ascii.
From S2P Require Import Prelude.
From S2P Require Import PyStr.
From S2P Require Import PyVal.
From S2P Require Import Sha256.
From S2P Require Import Money.
From S2P Require Import ChainTx.
From S2P Require Import PeerFacts.
From S2P Require Import Transport.
From S2P Require Import TransportBatch.
From S2P Require Import TransportPlan.
Local Open Scope Z_scope.
Set Default Proof Using "Type".

(** ** Ranges of layers *)

(** The executors take the layers from [start] to [total] one after the other, each at least one. *)
Fixpoint cut_of_layers (start total : Z) (executors : list string) (ranges : list LayerRange) : Prop :=
  match executors, ranges with
  | [], [] => start = total
  | n :: executors', r :: ranges' =>
      lr_node_id r = n ∧ lr_start r = start ∧ start < lr_end r
      ∧ cut_of_layers (lr_end r) total executors' ranges'
  | _, _ => False
  end.

Lemma cut_of_layers_nodes start total executors ranges :
  cut_of_layers start total executors ranges → map lr_node_id ranges = executors.
Proof.
  revert start ranges. induction executors as [|n l IH]; intros start [|r ranges] H; cbn in *; try done.
  destruct H as (-> & _ & _ & H). f_equal. by eapply IH.
Qed.

Lemma cut_of_layers_le start total executors ranges :
  cut_of_layers start total executors ranges → start <= total.
Proof.
  revert start ranges. induction executors as [|n l IH]; intros start [|r ranges] H; cbn in *; try done;
    [lia|].
  destruct H as (_ & _ & ? & H%IH). lia.
Qed.

Lemma cut_of_layers_start start total executors ranges i r :
  cut_of_layers start total executors ranges → ranges !! i = Some r →
  start <= lr_start r < lr_end r.
Proof.
  revert start executors i.
  induction ranges as [|r0 ranges IH]; intros start [|n l] [|i] H; cbn in *; try done;
    destruct H as (_ & ? & ? & H); intros Hr.
  - simplify_eq. lia.
  - pose proof (IH _ _ _ H Hr). lia.
Qed.

(** Every layer is in exactly one range. *)
Lemma cut_of_layers_unique start total executors ranges layer :
  cut_of_layers start total executors ranges → start <= layer < total →
  exists! i, ∃ r, ranges !! i = Some r ∧ lr_start r <= layer < lr_end r.
Proof.
  revert start executors. induction ranges as [|r ranges IH]; intros start [|n l] H Hl; cbn in *; try done;
    [lia|].
  destruct H as (_ & Hs & Hlt & H). destruct (decide (layer < lr_end r)).
  - exists O. split; [by exists r; split; [|lia]|]. intros [|i] (r' & Hr & Hin); [done|].
    cbn in Hr. pose proof (cut_of_layers_start _ _ _ _ _ _ H Hr). lia.
  - destruct (IH _ _ H ltac:(lia)) as (i & Hi & Hu). exists (S i). split; [done|].
    intros [|j] (r' & Hr & Hin); cbn in Hr; [simplify_eq; lia|]. f_equal. apply Hu. eauto.
Qed.

Lemma layer_ranges_cut base extra executors : ∀ index start,
  0 < base → 0 <= index → 0 <= extra <= index + Z.of_nat (length executors) →
  cut_of_layers start
    (start + base * Z.of_nat (length executors) + Z.max 0 (extra - index)) executors
    (layer_ranges_from base extra index start executors).
Proof.
  induction executors as [|n l IH]; intros index start Hb Hi He; cbn [length] in *; [cbn; lia|].
  cbn [layer_ranges_from cut_of_layers lr_node_id lr_start lr_end].
  destruct (Z.ltb_spec index extra); (split; [done|split; [done|split; [lia|]]]).
  - eassert (start + base * Z.of_nat (S (length l)) + Z.max 0 (extra - index) = _) as ->;
      [|apply IH; lia]. lia.
  - eassert (start + base * Z.of_nat (S (length l)) + Z.max 0 (extra - index) = _) as ->;
      [|apply IH; lia]. lia.
Qed.

(** *** Node ids *)

(** A cleaned id is not empty and has no spaces around it. *)
Lemma clean_node_ids_spec l :
  NoDup (clean_node_ids l) ∧ ∀ n, n ∈ clean_node_ids l → n ≠ "" ∧ strip n = n.
Proof.
  unfold clean_node_ids. split; [apply dedup_keep_first_nodup|]. intros n [Hn _]%elem_of_dedup. apply list_elem_of_In, filter_In in Hn as [Hn Hne].
  apply negb_true_iff, String.eqb_neq in Hne.
  apply in_map_iff in Hn as (m & <- & Hm). split; [done|apply strip_idem].
Qed.

Lemma clean_ids_spec l : NoDup (clean_ids l) ∧ ∀ n, n ∈ clean_ids l → n ≠ "" ∧ strip n = n.
Proof. apply clean_node_ids_spec. Qed.

Lemma filled_map_id (l : list string) :
  (∀ n, n ∈ l → n ≠ "" ∧ strip n = n) →
  List.filter (λ n, negb (String.eqb n "")) (map str_or_strip (map VStr l)) = l.
Proof.
  induction l as [|n l IH]; intros H; [done|]. cbn [map List.filter]. rewrite str_or_strip_str.
  destruct (H n) as [Hne ->]; [by left|]. apply String.eqb_neq in Hne as ->. cbn [negb].
  f_equal. apply IH. intros m Hm. apply H. by right.
Qed.

Lemma clean_ids_id l : NoDup l → (∀ n, n ∈ l → n ≠ "" ∧ strip n = n) → clean_ids l = l.
Proof.
  intros Hd H. unfold clean_ids, clean_node_ids. rewrite filled_map_id by done.
  apply dedup_keep_first_id; [done|]. intros; apply not_elem_of_nil.
Qed.

Lemma clean_node_ids_idem l : clean_ids (clean_node_ids l) = clean_node_ids l.
Proof. destruct (clean_node_ids_spec l) as [Hd Hn]. by apply clean_ids_id. Qed.

Lemma clean_ids_idem l : clean_ids (clean_ids l) = clean_ids l.
Proof. apply clean_node_ids_idem. Qed.

Lemma is_nil_length {A} (l : list A) : is_nil l = false → (0 < length l)%nat.
Proof. destruct l; cbn; [done|lia]. Qed.

Lemma default_ranges_cut executors total :
  let ns := clean_ids executors in
  0 < Z.of_nat (length ns) <= total →
  cut_of_layers 0 total ns (cai_owned_transport_layer_ranges executors total).
Proof.
  cbn zeta. intros Hn. unfold cai_owned_transport_layer_ranges.
  assert (is_nil (clean_ids executors) = false) as -> by (destruct (clean_ids executors); cbn in *; [lia|done]).
  rewrite (proj2 (Z.leb_gt _ _)) by lia. cbn [orb].
  set (n := Z.of_nat (length (clean_ids executors))) in *.
  pose proof (Z.mod_pos_bound total n ltac:(lia)).
  pose proof (Z.div_mod total n ltac:(lia)).
  assert (0 < total / n) by (apply Z.div_str_pos; lia).
  eassert (total = _) as E; [|rewrite E at 1; apply layer_ranges_cut; lia]. lia.
Qed.

Lemma normal_range_ok n start item r :
  normal_range n start item = Ok r → lr_node_id r = n ∧ lr_start r = start ∧ start < lr_end r.
Proof.
  unfold normal_range. intros Hr. repeat case_match; try done; simplify_eq; cbn;
    rewrite ?negb_false_iff, ?String.eqb_eq, ?Z.leb_gt, ?Z.eqb_eq in *; subst; eauto with lia.
Qed.

Lemma normal_ranges_cut total executors : ∀ start items ranges,
  length items = length executors → normal_ranges total start executors items = Ok ranges →
  cut_of_layers start total executors ranges.
Proof.
  induction executors as [|n l IH]; intros start [|item items] ranges Hl H; cbn in *; try done.
  - case_match; try done. by simplify_eq; cbn; apply Z.eqb_eq.
  - destruct (normal_range n start item) as [r|] eqn:Er; [|done]. cbn in H.
    destruct (normal_ranges _ _ _ _) as [rs|] eqn:Ers; [|done]. cbn in H. simplify_eq. cbn.
    apply normal_range_ok in Er as (? & ? & ?). eauto 10 with lia.
Qed.

Lemma normalized_ranges_cut executors total v ranges :
  let ns := clean_ids executors in
  is_nil ns = false → Z.of_nat (length ns) <= total →
  normalize_cai_owned_transport_shard_ranges executors total v = Ok ranges →
  cut_of_layers 0 total ns ranges.
Proof.
  cbn zeta. intros Hne Hle. unfold normalize_cai_owned_transport_shard_ranges.
  pose proof (is_nil_length _ Hne). rewrite Hne, (proj2 (Z.leb_gt _ _)) by lia. cbn [orb].
  destruct v; try done; intros Hr.
  - simplify_eq. rewrite <- (clean_ids_idem executors) at 1. apply default_ranges_cut.
    rewrite clean_ids_idem. lia.
  - case_match eqn:El; [done|]. apply negb_false_iff, Nat.eqb_eq in El.
    by eapply normal_ranges_cut.
Qed.

(** ** Stages *)

(** A stage is the one the plan has at a position. *)
Record stage_in_place (f : DagFrame) (sequence : nat) (depends : list string) (s : Stage) : Prop := {
  ip_range : df_ranges f !! (expected_position f sequence).2 = Some (sg_layers s);
  ip_sequence : sg_sequence s = Z.of_nat sequence;
  ip_phase : sg_phase s = (expected_position f sequence).1;
  ip_executor : sg_executor s = lr_node_id (sg_layers s);
  ip_source : sg_source s = node_before (df_requester f) (df_ranges f) (expected_position f sequence).2;
  ip_output_to : sg_output_to s = node_after (df_requester f) (df_ranges f) (expected_position f sequence).2;
  ip_depends : sg_depends s = depends;
  ip_id : sg_id s = cai_owned_transport_stage_id (df_session_id f) (sg_phase s) (sg_sequence s)
                      (sg_executor s) (lr_start (sg_layers s)) (lr_end (sg_layers s))
}.

Fixpoint stages_in_place (f : DagFrame) (sequence : nat) (depends : list string) (l : list Stage) : Prop :=
  match l with
  | [] => True
  | s :: l' => stage_in_place f sequence depends s ∧ stages_in_place f (S sequence) [sg_id s] l'
  end.

Lemma stages_in_place_app f l1 l2 : ∀ sequence depends,
  stages_in_place f sequence depends l1 →
  stages_in_place f (sequence + length l1)
    (match last l1 with Some s => [sg_id s] | None => depends end) l2 →
  stages_in_place f sequence depends (l1 ++ l2).
Proof.
  induction l1 as [|s l1 IH]; intros sequence depends H1 H2.
  - cbn in *. by rewrite Nat.add_0_r in H2.
  - destruct H1 as [Hs H1]. split; [done|]. apply IH; [done|].
    cbn [length] in H2. rewrite Nat.add_succ_r in H2. cbn [Nat.add].
    rewrite last_cons in H2. destruct (last l1); exact H2.
Qed.

Lemma chain_in_place f stage ranges : ∀ sequence index previous,
  (∀ k r depends, ranges !! k = Some r →
     stage_in_place f (sequence + k) depends (stage (sequence + k)%nat (index + k)%nat depends r)) →
  stages_in_place f sequence previous (chain_stages stage sequence index previous ranges).
Proof.
  induction ranges as [|r ranges IH]; intros sequence index previous H; [done|].
  cbn [chain_stages stages_in_place]. split.
  - pose proof (H O r previous eq_refl) as Hr. by rewrite !Nat.add_0_r in Hr.
  - apply IH. intros k r' depends Hr. rewrite !Nat.add_succ_comm. by apply (H (S k)).
Qed.

Lemma chain_stages_length stage ranges : ∀ sequence index previous,
  length (chain_stages stage sequence index previous ranges) = length ranges.
Proof. induction ranges as [|r ranges IH]; intros; cbn; [done|by rewrite IH]. Qed.

(** The modes that the builder and the check take. *)
Definition plan_of (x : DagInput) (direct : bool) (mode : string) : DagFrame := {|
  df_session_id := di_session_id x; df_requester := di_requester x; df_ranges := di_ranges x;
  df_direct := direct; df_mode := mode |}.

Definition stage_count (f : DagFrame) : nat :=
  let n := length (df_ranges f) in
  if df_direct f then 1%nat else if String.eqb (df_mode f) single_pass then n else (n * 2)%nat.

Lemma position_full f k :
  df_direct f = false → String.eqb (df_mode f) single_pass = false →
  (k < length (df_ranges f))%nat →
  expected_position f k = (prefill, k)
  ∧ expected_position f (length (df_ranges f) + k) = (decode, k).
Proof.
  intros Hd Hm Hk. unfold expected_position. rewrite Hd, Hm. split.
  - by rewrite Nat.div_small, Nat.mod_small by lia.
  - rewrite <- (Nat.mul_1_l (length (df_ranges f))) at 1 3.
    rewrite (Nat.add_comm (1 * _)), Nat.div_add, Nat.Div0.mod_add, Nat.div_small, Nat.mod_small by lia.
    done.
Qed.

Lemma dag_stages_in_place x direct mode :
  (direct = true → length (di_ranges x) = 1%nat) →
  stages_in_place (plan_of x direct mode) 0 [] (dag_stages x direct mode)
  ∧ length (dag_stages x direct mode) = stage_count (plan_of x direct mode).
Proof.
  intros Hdirect. unfold dag_stages, stage_count. cbn [plan_of df_ranges df_direct df_mode].
  destruct direct; [|destruct (String.eqb mode single_pass) eqn:Hm].
  - rewrite chain_stages_length. split; [|auto]. apply chain_in_place. intros k r depends Hr.
    assert (k = O) as -> by (apply lookup_lt_Some in Hr; rewrite Hdirect in Hr by done; lia).
    by split.
  - rewrite chain_stages_length. split; [|done]. apply chain_in_place. intros k r depends Hr.
    assert (expected_position (plan_of x false mode) (0 + k)
            = (if is_last x (0 + k) then decode else prefill, (0 + k)%nat)) as He
      by (unfold expected_position; cbn; by rewrite Hm).
    split; by rewrite ?He.
  - rewrite length_app, !chain_stages_length. split; [|lia].
    apply stages_in_place_app; rewrite ?chain_stages_length; apply chain_in_place;
      intros k r depends Hr; pose proof (lookup_lt_Some _ _ _ Hr);
      destruct (position_full (plan_of x false mode) k) as [Hp Hd]; try done;
      cbn [df_ranges plan_of] in Hd; split; rewrite ?Nat.add_0_l, ?Hp, ?Hd; done.
Qed.

(** ** The check of the stages *)

Lemma py_eqb_strs l w : py_eqb (VList l) (vstrs w) = true ↔ l = map VStr w.
Proof.
  unfold vstrs. revert w. induction l as [|v l IH]; intros [|t w]; cbn; try (split; intros; done).
  rewrite andb_true_iff. cbn in IH. rewrite IH. split; intros Hv.
  - destruct Hv as [Hv ->]. destruct v; try done. by apply String.eqb_eq in Hv as ->.
  - simplify_eq. cbn. by rewrite String.eqb_refl.
Qed.

Lemma check_accepts b message u : check b message = Accepts u ↔ b = true.
Proof. destruct b, u; done. Qed.

Lemma verdict_bind_ok {A B} (m : verdict A) (f : A → verdict B) b :
  m ≫= f = Accepts b ↔ ∃ a, m = Accepts a ∧ f a = Accepts b.
Proof. destruct m; cbn; naive_solver. Qed.

(** One more check that was passed. *)
Tactic Notation "accepted" hyp(H) "as" simple_intropattern(p) :=
  apply verdict_bind_ok in H; destruct H as p.

(** What a stage of an accepted DAG says. *)
Record stage_agrees (s : Stage) (d : pydict) : Prop := {
  ag_sequence : optional_int (dget "sequence" d) = Some (sg_sequence s);
  ag_phase : batch_text "phase" d = sg_phase s;
  ag_executor : batch_text "executorNodeId" d = sg_executor s;
  ag_sink : batch_text "sinkNodeId" d = sg_executor s;
  ag_source : batch_text "sourceNodeId" d = sg_source s;
  ag_output_to : batch_text "outputToNodeId" d = sg_output_to s;
  ag_layer_start : optional_int (dget "layerStart" d) = Some (lr_start (sg_layers s));
  ag_layer_end : optional_int (dget "layerEnd" d) = Some (lr_end (sg_layers s));
  ag_id : batch_text "stageId" d = sg_id s;
  ag_depends : ∃ l, py_or (dget "dependsOnStageIds" d) (VList []) = VList l
                    ∧ map str_or_strip l = sg_depends s
}.

(** What the loop over the stages knows of the stage before. *)
Definition known_before (f : DagFrame) (sequence : nat) (previous : option pydict)
    (last_prefill : option string) (depends : list string) : Prop :=
  (sequence = O ∧ previous = None ∧ depends = [])
  ∨ ((0 < sequence)%nat ∧ ∃ d, previous = Some d ∧ depends = [batch_text "stageId" d]
     ∧ (df_direct f = false → String.eqb (df_mode f) single_pass = false →
        sequence = length (df_ranges f) → last_prefill = Some (batch_text "stageId" d))).

Lemma expected_dependencies_known f sequence previous last_prefill depends :
  (sequence < stage_count f)%nat → known_before f sequence previous last_prefill depends →
  let p := expected_position f sequence in
  let expected := expected_dependencies f sequence p.2 p.1 previous last_prefill in
  (depends = [] ∧ expected = [])
  ∨ ∃ d, previous = Some d ∧ depends = [batch_text "stageId" d]
         ∧ (expected = previous_id (Some d) ∨ expected = depends).
Proof.
  unfold stage_count, expected_dependencies. intros Hlt Hk. cbn zeta.
  destruct (df_direct f) eqn:Ed; [|destruct (String.eqb (df_mode f) single_pass) eqn:Em].
  - left. destruct Hk as [(-> & -> & ->)|(? & _)]; [done|lia].
  - destruct Hk as [(-> & -> & ->)|(Hpos & d & -> & -> & _)]; [by left|right].
    apply Nat.ltb_lt in Hpos as ->. by exists d; auto.
  - set (n := length (df_ranges f)) in *.
    destruct (Nat.lt_ge_cases sequence n) as [Hn|Hn].
    + destruct (position_full f sequence Ed Em Hn) as [-> _]. cbn [fst snd].
      destruct Hk as [(-> & -> & ->)|(Hpos & d & -> & -> & _)]; [by left|right].
      apply Nat.ltb_lt in Hpos as ->. by exists d; auto.
    + destruct (position_full f (sequence - n) Ed Em ltac:(lia)) as [_ Hp].
      fold n in Hp. replace (n + (sequence - n))%nat with sequence in Hp by lia.
      rewrite Hp. cbn [fst snd].
      destruct Hk as [(-> & _)|(Hpos & d & -> & -> & Hl)]; [lia|right].
      exists d. split_and!; [done..|]. case_match eqn:E; [by left|].
      apply Nat.ltb_ge in E. rewrite (Hl Ed Em) by lia. by right.
Qed.

(** What is known before the next stage. *)
Lemma known_after f sequence last_prefill s d i depends :
  stage_in_place f sequence depends s → batch_text "stageId" d = i → batch_text "phase" d = sg_phase s →
  known_before f (S sequence) (Some d)
    (if String.eqb (batch_text "phase" d) prefill
        && (S (expected_position f sequence).2 =? length (df_ranges f))%nat
     then Some i else last_prefill) [i].
Proof.
  intros Hs <- Hp. right. split; [lia|]. exists d. split_and!; [done..|].
  intros Ed Em Hn. destruct (position_full f sequence Ed Em ltac:(lia)) as [He _].
  rewrite Hp, (ip_phase _ _ _ _ Hs), He. cbn [fst snd]. by rewrite Hn, Nat.eqb_refl.
Qed.

Lemma check_stage_sound f sequence previous last_prefill seen d i s depends :
  (sequence < stage_count f)%nat → known_before f sequence previous last_prefill depends →
  stage_in_place f sequence depends s →
  check_stage f sequence previous last_prefill seen d = Accepts i →
  stage_agrees s d ∧ i = sg_id s.
Proof.
  intros Hlt Hk Hs H. pose proof (expected_dependencies_known _ _ _ _ _ Hlt Hk) as Hdeps.
  destruct Hs as [Hr Hseq Hph Hex Hsrc Hout Hdep Hid]. unfold check_stage in H.
  rewrite Hr in H. cbn zeta in Hdeps.
  accepted H as ([] & H1%check_accepts%bool_decide_eq_true & H).
  accepted H as ([] & H2%check_accepts%String.eqb_eq & H).
  accepted H as ([] & H3%check_accepts%String.eqb_eq & H).
  accepted H as ([] & H4%check_accepts%String.eqb_eq & H).
  accepted H as ([] & H5%check_accepts%String.eqb_eq & H).
  accepted H as ([] & H6%check_accepts%String.eqb_eq & H).
  destruct (optional_int (dget "layerStart" d)) as [a|] eqn:Ha; [|done].
  destruct (optional_int (dget "layerEnd" d)) as [b|] eqn:Hb; [|done].
  accepted H as ([] & _ & H).
  accepted H as ([] & [Hls%Z.eqb_eq Hle%Z.eqb_eq]%check_accepts%andb_true_iff & H).
  accepted H as ([] & Hsid%check_accepts%String.eqb_eq & H).
  destruct (py_or (dget "dependsOnStageIds" d) (VList [])) as [| | | |l|] eqn:El; try done.
  accepted H as ([] & ->%check_accepts%py_eqb_strs & H).
  do 3 accepted H as ([] & _ & H). injection H as <-.
  assert (batch_text "stageId" d = sg_id s) as Hi by congruence.
  split; [|congruence]. split; try congruence.
  eexists; split; [done|]. rewrite H2, Hdep.
  destruct Hdeps as [[-> ->]|(d' & -> & -> & [-> | ->])]; [done|..];
    cbn [previous_id map]; rewrite str_or_strip_str; [done|].
  unfold batch_text, str_or_strip. by rewrite strip_idem.
Qed.

Lemma check_stages_sound f vs : ∀ sequence previous last_prefill seen depends l,
  (sequence + length l = stage_count f)%nat → length vs = length l →
  known_before f sequence previous last_prefill depends → stages_in_place f sequence depends l →
  check_stages f sequence previous last_prefill seen vs = Accepts tt →
  ∃ ds, vs = map VDict ds ∧ Forall2 stage_agrees l ds.
Proof.
  induction vs as [|v vs IH]; intros sequence previous last_prefill seen depends [|s l] Hc Hl Hk Hs H;
    try done.
  - by exists [].
  - cbn in Hc, Hl. destruct Hs as [Hs Hs']. destruct v as [| | | | |d]; try done. cbn [check_stages] in H.
    accepted H as (i & Hi & H).
    assert (sequence < stage_count f)%nat as Hlt by lia.
    destruct (check_stage_sound _ _ _ _ _ _ _ _ _ Hlt Hk Hs Hi) as [Ha ->].
    destruct (IH (S sequence) _ _ _ _ l ltac:(lia) ltac:(lia)
                (known_after f sequence last_prefill s d (sg_id s) depends Hs (ag_id _ _ Ha)
                   (ag_phase _ _ Ha)) Hs' H) as (ds & -> & Hds).
    exists (d :: ds). split; [done|]. by constructor.
Qed.

(** ** Stages as they are built are accepted *)

Definition hash_normal (o : option string) : Prop :=
  ∀ h k, o = Some h → normalize_sha256_hex (VStr h) k = Ok h.

(** The names and the ranges of a plan are clean. *)
Record plan_clean (f : DagFrame) : Prop := {
  pc_requester : strip (df_requester f) = df_requester f;
  pc_names : Forall (λ r, strip (lr_node_id r) = lr_node_id r ∧ lr_start r < lr_end r) (df_ranges f)
}.

Definition stage_fields (s : Stage) : pydict := default [] (as_dict (stage_dict s)).

Lemma stage_id_plain i p n e a b : all_chars plain (cai_owned_transport_stage_id i p n e a b) = true.
Proof.
  unfold cai_owned_transport_stage_id. rewrite all_chars_app, all_chars_take; [done|].
  apply sha256_plain.
Qed.

Lemma plain_strip s : all_chars plain s = true → strip s = s.
Proof. intros Hs. by apply strip_no_space, plain_not_space. Qed.

Lemma batch_text_str k d s : dget k d = VStr s → batch_text k d = strip s.
Proof. unfold batch_text. intros ->. apply str_or_strip_str. Qed.

Lemma route_clean f i :
  plan_clean f →
  strip (node_before (df_requester f) (df_ranges f) i) = node_before (df_requester f) (df_ranges f) i
  ∧ strip (node_after (df_requester f) (df_ranges f) i) = node_after (df_requester f) (df_ranges f) i.
Proof.
  intros [Hq Hn]. rewrite Forall_lookup in Hn.
  split; [destruct i as [|i]; cbn; [done|]|unfold node_after];
    destruct (df_ranges f !! _) eqn:E; cbn; try done; by apply Hn in E as [? _].
Qed.

Lemma check_stage_hash_normal k d o :
  dget k d = val_opt o → hash_normal o → check_stage_hash d k = Accepts tt.
Proof.
  unfold check_stage_hash. intros -> Hn. destruct o as [h|]; [|done]. cbn [val_opt].
  case_match; [|done]. by rewrite (Hn h k eq_refl).
Qed.

Lemma depends_accepted (l seen : list string) :
  Forall (λ i, strip i = i ∧ i ∈ seen) l →
  py_or (vstrs l) (VList []) = vstrs l
  ∧ forallb (λ d, bool_decide (str_or_strip d ∈ seen)) (map VStr l) = true.
Proof.
  intros Hl. split; [by destruct l|]. induction Hl as [|i l [Hi Hin] _ IH]; [done|].
  cbn [map forallb]. rewrite str_or_strip_str, Hi, IH. by rewrite bool_decide_eq_true_2.
Qed.

Lemma check_stage_built f sequence previous last_prefill (seen : list string) s depends :
  (sequence < stage_count f)%nat → plan_clean f →
  known_before f sequence previous last_prefill depends →
  (∀ d, previous = Some d → previous_id previous = [batch_text "stageId" d]) →
  Forall (λ i, strip i = i ∧ i ∈ seen) depends →
  stage_in_place f sequence depends s → hash_normal (sg_input s) → hash_normal (sg_output s) →
  check_stage f sequence previous last_prefill seen (stage_fields s) = Accepts (sg_id s).
Proof.
  intros Hlt Hclean Hk Hprev Hseen Hs Hin Hout.
  pose proof (expected_dependencies_known _ _ _ _ _ Hlt Hk) as Hdeps. cbn zeta in Hdeps.
  assert (expected_dependencies f sequence (expected_position f sequence).2
            (expected_position f sequence).1 previous last_prefill = depends) as Hexp.
  { destruct Hdeps as [[-> ->]|(d & -> & -> & [-> | ->])]; [done| |done]. by apply Hprev. }
  pose proof (route_clean f (expected_position f sequence).2 Hclean) as [Hb Ha].
  destruct Hclean as [_ Hn]. destruct Hs as [Hr Hseq Hph Hex Hsrc Hto Hdep Hid].
  rewrite Forall_lookup in Hn. destruct (Hn _ _ Hr) as [Hname Hrange].
  assert (strip (sg_phase s) = sg_phase s) as Hphs.
  { rewrite Hph. unfold expected_position. repeat case_match; try done; cbn [fst].
    by destruct (_ / _)%nat as [|[|]]. }
  assert (optional_int (dget "sequence" (stage_fields s)) = Some (Z.of_nat sequence)) as Es
    by (rewrite <- Hseq; done).
  assert (batch_text "stageId" (stage_fields s) = sg_id s) as Ei
    by (rewrite (batch_text_str "stageId" (stage_fields s) (sg_id s) eq_refl), Hid; apply plain_strip, stage_id_plain).
  unfold check_stage. rewrite Hr, Es, bool_decide_eq_true_2 by done. cbn [check mbind verdict_bind].
  rewrite !(batch_text_str "phase" (stage_fields s) (sg_phase s) eq_refl),
    (batch_text_str "executorNodeId" (stage_fields s) (sg_executor s) eq_refl),
    (batch_text_str "sinkNodeId" (stage_fields s) (sg_executor s) eq_refl),
    (batch_text_str "sourceNodeId" (stage_fields s) (sg_source s) eq_refl),
    (batch_text_str "outputToNodeId" (stage_fields s) (sg_output_to s) eq_refl), Ei, Hphs, Hex, Hname, Hsrc, Hto, Hb, Ha.
  rewrite Hph, !String.eqb_refl. cbn [check mbind verdict_bind].
  change (optional_int (dget "layerStart" (stage_fields s))) with (Some (lr_start (sg_layers s))).
  change (optional_int (dget "layerEnd" (stage_fields s))) with (Some (lr_end (sg_layers s))).
  cbv beta iota. rewrite (proj2 (Z.ltb_lt _ _) Hrange), !Z.eqb_refl. cbn [check mbind verdict_bind andb].
  rewrite Hph, Hseq, Hex in Hid. rewrite <- Hid, String.eqb_refl. cbn [check mbind verdict_bind].
  destruct (depends_accepted _ _ Hseen) as [Eor Efa].
  change (dget "dependsOnStageIds" (stage_fields s)) with (vstrs (sg_depends s)).
  rewrite Hdep, Eor, Hexp. cbn [vstrs].
  rewrite (proj2 (py_eqb_strs _ _) eq_refl), Efa. cbn [check mbind verdict_bind].
  rewrite (check_stage_hash_normal "expectedInputPayloadSha256Hex" (stage_fields s) (sg_input s) eq_refl Hin),
    (check_stage_hash_normal "expectedOutputPayloadSha256Hex" (stage_fields s) (sg_output s) eq_refl Hout). cbn [mbind verdict_bind].
  done.
Qed.

Lemma check_stages_built f l : ∀ sequence previous last_prefill (seen depends : list string),
  (sequence + length l = stage_count f)%nat → plan_clean f →
  known_before f sequence previous last_prefill depends →
  (∀ d, previous = Some d → previous_id previous = [batch_text "stageId" d]) →
  Forall (λ i, strip i = i ∧ i ∈ seen) depends →
  stages_in_place f sequence depends l →
  Forall (λ s, hash_normal (sg_input s) ∧ hash_normal (sg_output s)) l →
  check_stages f sequence previous last_prefill seen (map stage_dict l) = Accepts tt.
Proof.
  induction l as [|s l IH]; intros sequence previous last_prefill seen depends Hc Hclean Hk Hp Hd Hs Hh;
    [done|].
  cbn [length] in Hc. destruct Hs as [Hs Hs']. apply Forall_cons in Hh as [[Hi Ho] Hh].
  assert (sequence < stage_count f)%nat as Hlt by lia. cbn [map].
  change (stage_dict s) with (VDict (stage_fields s)). cbn [check_stages].
  rewrite (check_stage_built _ _ _ _ _ _ _ Hlt Hclean Hk Hp Hd Hs Hi Ho). cbn [mbind verdict_bind].
  assert (sg_id s = strip (sg_id s)) as Hid
    by (rewrite (ip_id _ _ _ _ Hs); symmetry; apply plain_strip, stage_id_plain).
  assert (batch_text "stageId" (stage_fields s) = sg_id s) as Ei
    by (by rewrite (batch_text_str "stageId" (stage_fields s) (sg_id s) eq_refl)).
  apply IH with [sg_id s]; try done; [lia| | |].
  - eapply known_after; [done..|].
    rewrite (batch_text_str "phase" (stage_fields s) (sg_phase s) eq_refl), (ip_phase _ _ _ _ Hs).
    unfold expected_position. repeat case_match; try done; cbn [fst].
    by destruct (_ / _)%nat as [|[|]].
  - intros d [= <-]. rewrite Ei. cbn [previous_id].
    change (dget "stageId" (stage_fields s)) with (VStr (sg_id s)). f_equal.
    unfold py_or. cbn [truthy]. by case_match eqn:E; [|apply negb_false_iff, String.eqb_eq in E].
  - constructor; [|constructor]. split; [done|by left].
Qed.

(** ** The whole DAG *)

Lemma normalize_idem v k h k' : normalize_sha256_hex v k = Ok h → normalize_sha256_hex (VStr h) k' = Ok h.
Proof.
  unfold normalize_sha256_hex. case_match eqn:E; [|done]. intros [= <-].
  set (h := lower (str_or_strip v)) in *. apply andb_true_iff in E as [El Ea].
  assert (lower (str_or_strip (VStr h)) = h) as ->; [|by rewrite El, Ea].
  rewrite str_or_strip_str, strip_no_space; [apply lower_idem|].
  revert Ea. apply all_chars_weaken. intros c. unfold hex_char, not_space, is_space.
  rewrite orb_true_iff, !andb_true_iff, !Z.leb_le. intros Hc.
  rewrite negb_true_iff, !orb_false_iff, !andb_false_iff, !Z.leb_gt, ?Z.eqb_neq.
  unfold code in *. lia.
Qed.

Lemma optional_hash_normal v k o : optional_sha256_hex v k = Ok o → hash_normal o.
Proof.
  unfold optional_sha256_hex. case_match; [by intros [= <-]|].
  destruct (normalize_sha256_hex v k) eqn:E; [|done]. intros [= <-] h k' [= <-]. by eapply normalize_idem.
Qed.

Lemma chain_id_accepted net c payload name :
  lower (strip net) = net → net ≠ "" →
  dget "chainId" payload = VStr (cai_owned_transport_chain_id net c) →
  dget "network" payload = VStr (cai_owned_transport_chain_id net c) →
  check_chain_id payload (cai_owned_transport_chain_id net c) name
  = Accepts (cai_owned_transport_chain_id net c).
Proof.
  intros Hnet Hne Hc Hn. set (id := cai_owned_transport_chain_id net c) in *.
  assert (lower (strip id) = id ∧ id ≠ "") as [Hid Hid'].
  { unfold id, cai_owned_transport_chain_id, or_str. case_match eqn:E; [done|]. split.
    - by rewrite strip_lower, strip_idem, lower_idem.
    - by apply String.eqb_neq. }
  assert (truthy (VStr id) = true) as Ht by (cbn; by apply negb_true_iff, String.eqb_neq).
  unfold check_chain_id, validate_cai_owned_transport_chain_id, payload_chain_id, payload_network.
  rewrite Hc, Hn. unfold py_or. rewrite Ht, !str_or_strip_str, !Hid. unfold or_str.
  apply String.eqb_neq in Hid'. rewrite Hid', String.eqb_refl. cbn [negb andb]. by rewrite Hid'.
Qed.

Lemma py_eqb_ranges l : py_eqb (VList (map range_dict l)) (VList (map range_dict l)) = true.
Proof.
  induction l as [|r l IH]; [done|]. cbn in *. by rewrite String.eqb_refl, !Z.eqb_refl, IH.
Qed.

(** Ranges that were normalized once are taken as they are. *)
Lemma ranges_normalized executors total ranges :
  let ns := clean_ids executors in
  is_nil ns = false → cut_of_layers 0 total ns ranges →
  normalize_cai_owned_transport_shard_ranges ns total (VList (map range_dict ranges)) = Ok ranges.
Proof.
  cbn zeta. intros Hne Hcut. unfold normalize_cai_owned_transport_shard_ranges.
  rewrite clean_ids_idem, Hne. destruct (clean_ids_spec executors) as [_ Hs].
  assert (length ranges = length (clean_ids executors)) as Hlen
    by (rewrite <- (cut_of_layers_nodes _ _ _ _ Hcut); by rewrite length_map).
  assert (0 < total) as Htot.
  { destruct (clean_ids executors), ranges; try done. cbn in Hcut.
    destruct Hcut as (_ & _ & ? & ?%cut_of_layers_le). lia. }
  rewrite (proj2 (Z.leb_gt _ _) Htot), length_map, Hlen, Nat.eqb_refl. cbn [orb negb]. clear Hne Htot Hlen.
  revert Hcut Hs. generalize 0, (clean_ids executors).
  induction ranges as [|r ranges IH]; intros start [|n ns] Hcut Hs; cbn in Hcut; try done.
  - cbn. by rewrite (proj2 (Z.eqb_eq _ _) Hcut).
  - destruct Hcut as (<- & <- & Hlt & Hcut). cbn [map normal_ranges].
    destruct (Hs (lr_node_id r)) as (Hn & Hstrip); [by left|].
    assert (normal_range (lr_node_id r) (lr_start r) (range_dict r) = Ok r) as ->.
    { unfold normal_range, range_dict. cbn -[str_or_strip].
      assert (py_or (VStr (lr_node_id r)) VNone = VStr (lr_node_id r)) as ->
        by (unfold py_or; cbn [truthy]; by rewrite (proj2 (String.eqb_neq _ _) Hn)).
      rewrite str_or_strip_str, Hstrip, String.eqb_refl, (proj2 (Z.leb_gt _ _) Hlt), !Z.eqb_refl.
      by destruct r. }
    cbn [mbind result_bind]. rewrite IH; [done|done|]. intros m Hm. apply Hs. by right.
Qed.

Lemma raise_unless_ok b message u : raise_unless b message = Ok u ↔ b = true.
Proof. destruct b, u; done. Qed.

Lemma Forall_stages x direct mode :
  hash_normal (di_input_hash x) → hash_normal (di_output_hash x) →
  Forall (λ s, hash_normal (sg_input s) ∧ hash_normal (sg_output s)) (dag_stages x direct mode).
Proof.
  intros Hi Ho. assert (∀ b h, hash_normal h → hash_normal (if b : bool then h else None)) as Hb
    by (intros [] h Hh; [done|intros ? ? [=]]).
  assert (∀ stage ranges sequence index previous,
    (∀ a b c r, hash_normal (sg_input (stage a b c r)) ∧ hash_normal (sg_output (stage a b c r))) →
    Forall (λ s, hash_normal (sg_input s) ∧ hash_normal (sg_output s))
      (chain_stages stage sequence index previous ranges)) as Hchain.
  { intros stage ranges. induction ranges as [|r ranges IH]; intros; cbn [chain_stages]; [constructor|].
    constructor; [auto|by apply IH]. }
  unfold dag_stages. repeat case_match; rewrite ?Forall_app; split_and?; apply Hchain;
    intros; cbn [direct_stage single_pass_stage prefill_stage decode_stage stage_at sg_input sg_output];
    split; first [assumption | apply Hb; assumption | intros ? ? [=]].
Qed.

(** What a call that builds a DAG has found. *)
Record built_from (net : string) (q : DagRequest) (x : DagInput) (executors : list string)
    (direct : bool) (mode : string) : Prop := {
  bf_session : di_session_id x = strip (dr_session_id q) ∧ di_session_id x ≠ "";
  bf_requester : di_requester x = strip (dr_requester_node_id q) ∧ di_requester x ≠ "";
  bf_executors : executors = clean_ids (dr_executor_node_ids q) ∧ is_nil executors = false;
  bf_layers : 0 < dr_total_layer_count q ∧ Z.of_nat (length executors) <= dr_total_layer_count q;
  bf_ranges : normalize_cai_owned_transport_shard_ranges executors (dr_total_layer_count q)
                (dr_shard_ranges q) = Ok (di_ranges x);
  bf_input : hash_normal (di_input_hash x);
  bf_output : hash_normal (di_output_hash x);
  bf_direct : direct = true → length (di_ranges x) = 1%nat ∧ mode = single_pass;
  bf_mode : mode ∈ [full_pipeline; single_pass]
}.

Definition dag_coordinator (q : DagRequest) : string :=
  or_str (strip (default "" (dr_coordinator_node_id q))) (strip (dr_requester_node_id q)).

Definition dag_participants (q : DagRequest) : list string :=
  clean_ids (strip (dr_requester_node_id q) :: dag_coordinator q :: clean_ids (dr_executor_node_ids q)).

Definition dag_body (net : string) (q : DagRequest) (x : DagInput) (executors : list string)
    (direct : bool) (mode : string) : pydict :=
  let stages := dag_stages x direct mode in
  let chain_id := cai_owned_transport_chain_id net (dr_chain_id q) in
  [("schemaVersion", VInt 1); ("protocol", VStr CAI_OWNED_TRANSPORT_PROTOCOL);
   ("protocolVersion", VInt CAI_OWNED_TRANSPORT_PROTOCOL_VERSION); ("network", VStr chain_id);
   ("chainId", VStr chain_id); ("sessionId", VStr (di_session_id x));
   ("taskId", val_opt (opt_text (val_opt (dr_task_id q))));
   ("modelId", val_opt (opt_text (val_opt (dr_model_id q))));
   ("requesterNodeId", VStr (di_requester x)); ("coordinatorNodeId", VStr (dag_coordinator q));
   ("executorNodeIds", vstrs executors); ("participantNodeIds", vstrs (dag_participants q));
   ("totalLayerCount", VInt (dr_total_layer_count q));
   ("shardRanges", VList (map range_dict (di_ranges x))); ("stages", VList (map stage_dict stages));
   ("stageCount", VInt (Z.of_nat (length stages))); ("singleExecutorDirectFinalOutput", VBool direct);
   ("executionPipelineMode", VStr mode); ("createdAt", VStr (dr_created_at q))].

Lemma build_dag_inv net q dag :
  build_cai_owned_transport_execution_dag net q = Ok dag →
  ∃ x executors direct mode, built_from net q x executors direct mode
    ∧ dag = dset "dagHashSha256Hex" (VStr (cai_owned_transport_dag_hash (dag_body net q x executors direct mode)))
              (dag_body net q x executors direct mode).
Proof.
  unfold build_cai_owned_transport_execution_dag. intros H.
  apply bind_ok in H as ([] & H1%raise_unless_ok & H). apply bind_ok in H as ([] & H2%raise_unless_ok & H).
  apply bind_ok in H as ([] & H3%raise_unless_ok & H). apply bind_ok in H as ([] & H4%raise_unless_ok & H).
  apply bind_ok in H as ([] & H5%raise_unless_ok & H). apply bind_ok in H as (hi & Hi & H).
  apply bind_ok in H as (ho & Ho & H). apply bind_ok in H as (ranges & Hr & H).
  apply bind_ok in H as ([] & H6%raise_unless_ok%bool_decide_eq_true & H).
  rewrite negb_true_iff in *. rewrite String.eqb_neq in *. apply Z.ltb_lt in H4. apply Z.leb_le in H5.
  injection H as <-.
  eexists {| di_ranges := ranges; di_input_hash := hi; di_output_hash := ho |}, _, _, _.
  split; [|reflexivity].
  split; cbn; try done; try by eapply optional_hash_normal.
  - intros E. rewrite E. apply andb_true_iff in E as [_ E%Nat.eqb_eq]. done.
  - case_match; [set_solver|done].
Qed.

Lemma same_set_refl l : same_set l l = true.
Proof.
  unfold same_set, subset_of. rewrite andb_diag. apply forallb_forall. intros x Hx.
  by apply bool_decide_eq_true_2, list_elem_of_In.
Qed.

Lemma node_ids_clean l : node_ids_field (vstrs (clean_ids l)) = Ok (clean_ids l).
Proof.
  unfold node_ids_field. assert (py_or (vstrs (clean_ids l)) (VList []) = vstrs (clean_ids l)) as ->
    by (by destruct (clean_ids l)).
  cbn [vstrs py_list mbind result_bind]. f_equal. apply (clean_ids_idem l).
Qed.

Lemma clean_ids_elem l n : n ∈ l → strip n ≠ "" → strip n ∈ clean_ids l.
Proof.
  intros Hn Hne. unfold clean_ids, clean_node_ids.
  assert (strip n ∈ List.filter (λ n, negb (String.eqb n "")) (map str_or_strip (map VStr l))) as Hin.
  { apply list_elem_of_In, filter_In. split; [|by apply negb_true_iff, String.eqb_neq].
    rewrite map_map. apply in_map_iff. exists n. by rewrite str_or_strip_str, <- list_elem_of_In. }
  apply elem_of_dedup. split; [done|apply not_elem_of_nil].
Qed.

Lemma check_true {A} b message (f : unit → verdict A) : b = true → (check b message ≫= f) = f tt.
Proof. by intros ->. Qed.

Lemma calls_ok {A B} (r : result A) (f : A → verdict B) a : r = Ok a → (calls r ≫= f) = f a.
Proof. by intros ->. Qed.

Lemma tries_ok {A B} (r : result A) message (f : A → verdict B) a : r = Ok a → (tries r message ≫= f) = f a.
Proof. by intros ->. Qed.

Lemma calls_accepts {A} (r : result A) a : calls r = Accepts a ↔ r = Ok a.
Proof. destruct r; cbn; split; congruence. Qed.

Lemma tries_accepts {A} (r : result A) message a : tries r message = Accepts a ↔ r = Ok a.
Proof. destruct r; cbn; split; congruence. Qed.

Lemma int_field_int k d z : dget k d = VInt z → int_field k d = Ok z.
Proof. unfold int_field, py_or. intros ->. cbn [truthy]. by destruct (Z.eqb_spec z 0) as [->|]. Qed.

Section plan.
Context (net : string) (Hnet : lower (strip net) = net) (Hnet' : net ≠ "").

Lemma built_stages_accepted q x executors direct mode :
  built_from net q x executors direct mode →
  let ranges := di_ranges x in
  cut_of_layers 0 (dr_total_layer_count q) executors ranges ∧ length ranges = length executors
  ∧ length (dag_stages x direct mode) = stage_count (plan_of x direct mode)
  ∧ check_stages (plan_of x direct mode) 0 None None [] (map stage_dict (dag_stages x direct mode))
    = Accepts tt.
Proof.
  intros [[Hs Hs'] [Hq Hq'] [-> He] [Ht Hle] Hr Hi Ho Hd Hm]. cbn zeta.
  rewrite <- clean_ids_idem in He, Hle.
  assert (cut_of_layers 0 (dr_total_layer_count q) (clean_ids (dr_executor_node_ids q)) (di_ranges x)) as Hcut
    by (rewrite <- clean_ids_idem; by eapply normalized_ranges_cut).
  pose proof (cut_of_layers_nodes _ _ _ _ Hcut) as Hnodes.
  destruct (dag_stages_in_place x direct mode) as [Hin Hlen]; [by intros [? _]%Hd|].
  split_and!; [done|by rewrite <- Hnodes, length_map|done|].
  apply check_stages_built with (depends := []); try done;
    [|by left|by apply Forall_stages].
  split; cbn; [rewrite Hq; apply strip_idem|].
  apply Forall_lookup. intros i r Hri. split; [|by pose proof (cut_of_layers_start _ _ _ _ _ _ Hcut Hri); lia].
  destruct (clean_ids_spec (dr_executor_node_ids q)) as [_ Hspec]. rewrite <- Hnodes in Hspec.
  apply Hspec, list_elem_of_In, in_map, list_elem_of_In. by eapply list_elem_of_lookup_2.
Qed.

Lemma coordinator_clean q :
  strip (dr_requester_node_id q) ≠ "" →
  strip (dag_coordinator q) = dag_coordinator q ∧ dag_coordinator q ≠ "".
Proof.
  intros Hq. unfold dag_coordinator, or_str. case_match eqn:E.
  - split; [apply strip_idem|done].
  - split; [apply strip_idem|by apply String.eqb_neq].
Qed.

Lemma participants_complete q :
  strip (dr_requester_node_id q) ≠ "" →
  subset_of (strip (dr_requester_node_id q) :: dag_coordinator q :: clean_ids (dr_executor_node_ids q))
    (dag_participants q) = true.
Proof.
  intros Hq. destruct (coordinator_clean q Hq) as [Hc Hc'].
  destruct (clean_ids_spec (dr_executor_node_ids q)) as [_ Hex].
  unfold subset_of. apply forallb_forall. intros n Hn%list_elem_of_In. apply bool_decide_eq_true_2.
  assert (strip n = n ∧ n ≠ "") as [Hs Hne].
  { rewrite !elem_of_cons in Hn. destruct Hn as [->|[->|Hn]]; [by rewrite strip_idem|done|].
    by destruct (Hex n Hn). }
  unfold dag_participants. rewrite <- Hs. apply clean_ids_elem; [done|by rewrite Hs].
Qed.

(** C37: a coordinator's execution plan is accepted by every node it is sent to: for each request
    the builder takes, whatever the pipeline mode, the shard ranges and the number of executors,
    the check of the DAG passes for the session and its participants; every layer of the model is
    in exactly one shard, and the shards are those of the executors, in order, none of them empty. *)
Theorem built_plan_accepted q dag sid participants
    (Hbuilt : build_cai_owned_transport_execution_dag net q = Ok dag)
    (Hsid : strip sid ∈ [""; strip (dr_session_id q)])
    (Hps : clean_ids participants = [] ∨ clean_ids participants = dag_participants q) :
  validate_cai_owned_transport_execution_dag net (VDict dag) (dr_chain_id q) sid participants
  = Accepts tt
  ∧ ∃ ranges, dget "shardRanges" dag = VList (map range_dict ranges)
      ∧ map lr_node_id ranges = clean_ids (dr_executor_node_ids q)
      ∧ Forall (λ r, lr_start r < lr_end r) ranges
      ∧ ∀ layer, 0 <= layer < dr_total_layer_count q →
          exists! i, ∃ r, ranges !! i = Some r ∧ lr_start r <= layer < lr_end r.
Proof using Hnet Hnet'.
  apply build_dag_inv in Hbuilt as (x & executors & direct & mode & Hx & ->).
  destruct (built_stages_accepted _ _ _ _ _ Hx) as (Hcut & Hlr & Hlen & Hstages).
  destruct Hx as [[Hs Hs'] [Hq Hq'] [-> He] [Ht Hle] Hr Hi Ho Hd Hm].
  split; [|exists (di_ranges x); split_and!; [done|by eapply cut_of_layers_nodes| |]].
  - set (body := dag_body net q x (clean_ids (dr_executor_node_ids q)) direct mode).
    set (dag := dset _ _ body). unfold validate_cai_owned_transport_execution_dag.
    change (check_protocol "execution DAG" dag) with (Accepts tt).
    rewrite (chain_id_accepted net (dr_chain_id q) dag "execution DAG" Hnet Hnet' eq_refl eq_refl).
    cbn [mbind verdict_bind].
    rewrite (batch_text_str "sessionId" dag (di_session_id x) eq_refl).
    rewrite Hs, strip_idem. rewrite Hs in Hs'. rewrite (proj2 (String.eqb_neq _ _) Hs').
    cbn [negb check mbind verdict_bind].
    rewrite check_true by (apply orb_true_iff; rewrite !String.eqb_eq; set_solver).
    change (dget "executorNodeIds" dag) with (vstrs (clean_ids (dr_executor_node_ids q))).
    change (dget "participantNodeIds" dag) with (vstrs (dag_participants q)).
    rewrite (calls_ok _ _ _ (node_ids_clean _)).
    rewrite (calls_ok _ _ (dag_participants q) (node_ids_clean _)).
    rewrite !(batch_text_str "requesterNodeId" dag (di_requester x) eq_refl),
      !(batch_text_str "coordinatorNodeId" dag (dag_coordinator q) eq_refl).
    destruct (coordinator_clean q) as [Hc Hc']; [by rewrite <- Hq|]. rewrite Hc.
    assert (strip (di_requester x) = di_requester x) as -> by (rewrite Hq; apply strip_idem).
    rewrite check_true by (by rewrite He, !(proj2 (String.eqb_neq _ _))).
    rewrite check_true
      by (destruct Hps as [-> | ->]; [done|]; by rewrite same_set_refl, orb_true_r).
    rewrite check_true by (rewrite Hq; apply participants_complete; by rewrite <- Hq).
    rewrite (tries_ok _ _ _ _ (int_field_int "totalLayerCount" dag _ eq_refl)).
    rewrite check_true by by apply Z.ltb_lt. rewrite check_true by by apply Z.leb_le.
    change (dget "shardRanges" dag) with (VList (map range_dict (di_ranges x))).
    rewrite (tries_ok _ _ _ _ (ranges_normalized _ _ _ He Hcut)), check_true by apply py_eqb_ranges.
    change (dget "stages" dag) with (VList (map stage_dict (dag_stages x direct mode))).
    change (truthy (dget "singleExecutorDirectFinalOutput" dag)) with direct.
    rewrite !(batch_text_str "executionPipelineMode" dag mode eq_refl).
    assert (strip mode = mode) as -> by (by apply list_elem_of_In in Hm as [<-|[<-|[]]]).
    assert ((if direct then single_pass else or_str mode full_pipeline) = mode) as ->.
    { destruct direct; [by destruct (Hd eq_refl)|]. by apply list_elem_of_In in Hm as [<-|[<-|[]]]. }
    destruct (map stage_dict (dag_stages x direct mode)) as [|v vs] eqn:Evs.
    { exfalso. apply (f_equal length) in Evs. rewrite length_map, Hlen in Evs.
      unfold stage_count in Evs. cbn in Evs, Hlr. destruct (clean_ids (dr_executor_node_ids q)); [done|].
      rewrite Hlr in Evs. by repeat case_match. }
    rewrite <- Evs in Hstages |- *.
    rewrite (calls_ok _ _ _ (int_field_int "stageCount" dag _ eq_refl)), length_map.
    rewrite check_true by apply Z.eqb_refl.
    rewrite check_true
      by (destruct direct; [|done]; destruct (Hd eq_refl) as [Hone _]; by rewrite <- Hlr, Hone).
    rewrite check_true by (rewrite Hlen, <- Hlr; apply Nat.eqb_refl).
    rewrite check_true by by apply bool_decide_eq_true_2.
    rewrite <- Hs. change {| df_session_id := _ |} with (plan_of x direct mode). rewrite Hstages.
    cbn [mbind verdict_bind].
    rewrite (batch_text_str "dagHashSha256Hex" dag (cai_owned_transport_dag_hash body) eq_refl).
    change (cai_owned_transport_dag_hash dag) with (cai_owned_transport_dag_hash body).
    rewrite plain_strip, lower_plain by apply sha256_plain. by rewrite String.eqb_refl.
  - rewrite Forall_lookup. intros i r Hri.
    by pose proof (cut_of_layers_start _ _ _ _ _ _ Hcut Hri); lia.
  - intros layer Hl. by eapply cut_of_layers_unique.
Qed.

(** C16: a node that accepts an execution plan has been given the plan and no other one: the
    layers are cut among the executors so that each is in exactly one shard, and the stages are,
    one for one, those that building the plan for these shards gives, with their sequence number,
    phase, executor, route, layers, dependencies and id. *)
Theorem accepted_plan_is_the_plan dag chain_id sid participants
    (Haccepted : validate_cai_owned_transport_execution_dag net (VDict dag) chain_id sid participants
                 = Accepts tt) :
  ∃ executors total x mode ds,
    let direct := truthy (dget "singleExecutorDirectFinalOutput" dag) in
    node_ids_field (dget "executorNodeIds" dag) = Ok executors
    ∧ int_field "totalLayerCount" dag = Ok total
    ∧ di_session_id x = batch_text "sessionId" dag ∧ di_requester x = batch_text "requesterNodeId" dag
    ∧ map lr_node_id (di_ranges x) = executors
    ∧ (∀ layer, 0 <= layer < total →
         exists! i, ∃ r, di_ranges x !! i = Some r ∧ lr_start r <= layer < lr_end r)
    ∧ mode = (if direct then single_pass
              else or_str (batch_text "executionPipelineMode" dag) full_pipeline)
    ∧ dget "stages" dag = VList (map VDict ds)
    ∧ Forall2 stage_agrees (dag_stages x direct mode) ds.
Proof.
  unfold validate_cai_owned_transport_execution_dag in Haccepted. rename Haccepted into H.
  accepted H as ([] & _ & H). accepted H as (c & _ & H). accepted H as ([] & _ & H).
  accepted H as ([] & _ & H). accepted H as (executors & He%calls_accepts & H). accepted H as (ps & _ & H).
  accepted H as ([] & Hne%check_accepts & H). do 2 accepted H as ([] & _ & H).
  accepted H as (total & Ht%tries_accepts & H). accepted H as ([] & Hpos%check_accepts%Z.ltb_lt & H).
  accepted H as ([] & Hle%check_accepts%Z.leb_le & H). accepted H as (ranges & Hr%tries_accepts & H).
  accepted H as ([] & _ & H). destruct (dget "stages" dag) as [| | | |[|v vs]|] eqn:Evs; try done.
  accepted H as (count & _ & H). accepted H as ([] & _ & H).
  accepted H as ([] & Hone%check_accepts & H). accepted H as ([] & Hcount%check_accepts%Nat.eqb_eq & H).
  accepted H as ([] & _ & H). accepted H as ([] & Hstages & _).
  set (direct := truthy (dget "singleExecutorDirectFinalOutput" dag)) in *.
  set (mode := if direct then _ else or_str _ _) in *.
  set (x := {| di_session_id := batch_text "sessionId" dag;
               di_requester := batch_text "requesterNodeId" dag; di_ranges := ranges;
               di_input_hash := None; di_output_hash := None |}).
  assert (clean_ids executors = executors) as Hclean.
  { unfold node_ids_field in He. apply bind_ok in He as (l & _ & [= <-]). apply clean_node_ids_idem. }
  assert (is_nil executors = false) as Hnil by (destruct (is_nil executors); [by rewrite orb_true_r in Hne|done]).
  assert (cut_of_layers 0 total executors ranges) as Hcut
    by (rewrite <- Hclean; eapply normalized_ranges_cut; by rewrite ?Hclean).
  pose proof (cut_of_layers_nodes _ _ _ _ Hcut) as Hnodes.
  assert (length ranges = length executors) as Hlen by (by rewrite <- Hnodes, length_map).
  assert (direct = true → length ranges = 1%nat) as Hd.
  { intros E. rewrite Hlen. apply Nat.eqb_eq. rewrite E in Hone. by destruct (_ =? 1)%nat. }
  destruct (dag_stages_in_place x direct mode Hd) as [Hin Hl].
  assert (length (v :: vs) = length (dag_stages x direct mode)) as Hlv.
  { rewrite Hl, Hcount. unfold stage_count. cbn [plan_of df_direct df_ranges df_mode x di_ranges].
    rewrite Hlen. unfold mode. destruct direct; [done|]. unfold or_str.
    destruct (String.eqb (batch_text "executionPipelineMode" dag) "") eqn:E; [|done].
    by apply String.eqb_eq in E as ->. }
  destruct (check_stages_sound (plan_of x direct mode) (v :: vs) 0 None None [] []
              (dag_stages x direct mode)) as (ds & -> & Hds); [by rewrite Hl|done|by left|done|exact Hstages|].
  exists executors, total, x, mode, ds. split_and!; try done.
  intros layer Hlayer. by eapply cut_of_layers_unique.
Qed.
End plan.

(** ** A plan with three executors *)

Definition demo_plan_request : DagRequest := {|
  dr_session_id := "caiot_1"; dr_requester_node_id := " req "; dr_executor_node_ids := ["a"; "b"; "c"; "a"];
  dr_total_layer_count := 8; dr_shard_ranges := VNone; dr_chain_id := None; dr_model_id := Some "m";
  dr_task_id := None; dr_coordinator_node_id := None; dr_input_payload_sha256_hex := VNone;
  dr_expected_output_payload_sha256_hex := VNone; dr_created_at := "2026-02-01T00:00:00+00:00";
  dr_single_executor_direct_final_output := false; dr_execution_pipeline_mode := None |}.

Definition demo_plan : pydict :=
  match build_cai_owned_transport_execution_dag "mainnet" demo_plan_request with
  | Ok dag => dag
  | Err _ => []
  end.

Lemma built_plan_accepted_witness :
  validate_cai_owned_transport_execution_dag "mainnet" (VDict demo_plan) None "caiot_1" ["req"; "a"; "b"; "c"]
  = Accepts tt.
Proof.
  apply (built_plan_accepted "mainnet" eq_refl ltac:(discriminate) demo_plan_request demo_plan "caiot_1"
           ["req"; "a"; "b"; "c"]).
  - vm_compute. reflexivity.
  - right. left.
  - right. reflexivity.
Defined.

Lemma accepted_plan_is_the_plan_witness :
  ∃ ds, dget "stages" demo_plan = VList (map VDict ds) ∧ length ds = 6%nat.
Proof.
  destruct (accepted_plan_is_the_plan "mainnet" demo_plan None "caiot_1" ["req"; "a"; "b"; "c"])
    as (executors & total & x & mode & ds & _ & _ & _ & _ & _ & _ & _ & Hds & _).
  - vm_compute. reflexivity.
  - exists ds. split; [exact Hds|]. apply (f_equal (λ v, match v with VList l => length l | _ => O end)) in Hds.
    rewrite length_map in Hds. rewrite <- Hds. vm_compute. reflexivity.
Defined.
