(* ===== verification/TransportAuditProps.v ===== *)
(** * A completed session is a proven one

    What the coordinator has checked when a session is completed: its batches, their hash chains
    and outputs, its execution plan, and that the receipts of the proof are those of the
    executors, who are the nodes a job then pays. *)
From Stdlib Require Import Ascii.
From S2P Require Import Prelude.
From S2P Require Import PyStr.
From S2P Require Import PyVal.
From S2P Require Import Sha256.
From S2P Require Import Money.
From S2P Require Import Signing.
From S2P Require Import ChainTx.
From S2P Require Import PeerPayload.
From S2P Require Import SettlementData.
From S2P Require Import Apportion.
From S2P Require Import Eligibility.
From S2P Require Import JobProps.
From S2P Require Import PeerFacts.
From S2P Require Import Transport.
From S2P Require Import TransportBatch.
From S2P Require Import TransportPlan.
From S2P Require Import TransportEnvelope.
From S2P Require Import TransportAudit.
From S2P Require Import TransportFacts.
From S2P Require Import Demo.
From S2P Require Import TransportProps.
From S2P Require Import TransportPlanProps.
Import Signing.Transparent.
Local Open Scope Z_scope.
Set Default Proof Using "Type".

(** ** Checks in sequence *)

Lemma VM_bind_ok {A B} (m : VM A) (f : A → VM B) s b :
  ((m ≫= f) s).2 = Accepts b → ∃ a, (m s).2 = Accepts a ∧ (f a (m s).1).2 = Accepts b.
Proof.
  unfold mbind, VM_bind. destruct (m s) as [s' [a|e|e]]; cbn; [eauto|done..].
Qed.

Tactic Notation "verified" hyp(H) "as" simple_intropattern(p) :=
  apply VM_bind_ok in H; destruct H as p.

(** ** The batches of an audited session *)

(** The hash chain and the output of a processed batch. *)
Record batch_verified (r : TransportSession) (known_batch_ids : list string) (s : TransportStore)
    (b : pydict) : Prop := {
  bv_status : batch_status b = "processed";
  bv_previous : previous_batch b = "" ∨ previous_batch b ∈ known_batch_ids;
  bv_chain : ∃ h,
    build_cai_owned_transport_batch_hash_chain (ts_session_id r) (batch_text "batchId" b)
      (str_or_strip (py_or (dget "inputPayloadSha256Hex" b) (dget "payloadSha256Hex" b)))
      (batch_text "outputPayloadSha256Hex" b) (default 0 (batch_sequence b)) (previous_batch b) = Ok h
    ∧ lower (batch_text "hashChainSha256Hex" b) = hash_chain_digest h;
  bv_output : batch_text "outputPayloadStorageKey" b ≠ "" →
    is_Some (match verified_cai_owned_transport_batch_output_payload (ts_session_id r)
                     (batch_text "batchId" b) s with Ok p => Some p | Err _ => None end)
}.

Lemma normalized_text t k c : normalize_sha256_hex (VStr t) k = Ok c → strip t = t → lower t = c.
Proof.
  unfold normalize_sha256_hex. rewrite str_or_strip_str. intros Hn Hs. rewrite Hs in Hn.
  case_match; congruence.
Qed.

Lemma batch_text_stripped k b : strip (batch_text k b) = batch_text k b.
Proof. apply strip_idem. Qed.

Lemma audit_batch_clean r known s b :
  bt_errors (audit_batch r known s b) = [] →
  _is_cai_owned_transport_final_output_batch r b = true
  ∨ (batch_verified r known s b ∧ bt_processed (audit_batch r known s b) = [batch_text "batchId" b]).
Proof.
  unfold audit_batch. case_match; [done|]. case_bool_decide; [done|].
  destruct (_is_cai_owned_transport_final_output_batch r b); [by left|].
  destruct (String.eqb (batch_status b) "processed") eqn:Est; [|done]. cbn [negb].
  destruct (_validate_cai_owned_transport_processed_batch_execution_audit _ _ _ _) as [e c] eqn:Ev.
  cbn. destruct e; [done|]. intros _. right. split; [|done]. revert Ev.
  unfold _validate_cai_owned_transport_processed_batch_execution_audit.
  do 3 (case_match; [done|]).
  destruct (negb (String.eqb (previous_batch b) "") && negb (bool_decide (previous_batch b ∈ known))) eqn:Ep;
    [done|].
  match goal with |- context [mbind ?f ?m] => destruct (mbind f m) as [[expected chain]|] eqn:Eh end;
    [|done].
  apply bind_ok in Eh as (h & Hh & Eh). apply bind_ok in Eh as (c' & Hc & [= <- <-]).
  destruct (String.eqb_spec (hash_chain_digest h) c') as [<-|]; [|done]. cbn [negb].
  intros Hout. split.
  - by apply String.eqb_eq.
  - apply andb_false_iff in Ep as [Ep|Ep]; apply negb_false_iff in Ep; [left; by apply String.eqb_eq|].
    right. by apply bool_decide_eq_true in Ep.
  - exists h. split; [done|]. eapply normalized_text; [done|]. apply batch_text_stripped.
  - intros Hk%String.eqb_neq. rewrite Hk in Hout. cbn [negb] in Hout. by case_match.
Qed.

(** ** The audit of a session *)

(** The batches that a batch of the session may name as the one before. *)
Definition session_batch_ids (r : TransportSession) : result (list string) :=
  known ← cai_owned_transport_shard_receipt_batch_ids (map VDict (ts_shard_receipts r));
  Ok (filled_texts (map (batch_text "batchId") (ts_batch_records r)) ++ known.1).

Lemma tally_fold (f : pydict → BatchTally) t l :
  bt_errors (foldr (λ b, tally_app (f b)) t l) = concat (map (λ b, bt_errors (f b)) l) ++ bt_errors t
  ∧ bt_processed (foldr (λ b, tally_app (f b)) t l)
    = concat (map (λ b, bt_processed (f b)) l) ++ bt_processed t.
Proof.
  induction l as [|b l [IH1 IH2]]; [done|]. cbn [foldr map concat tally_app bt_errors bt_processed].
  by rewrite IH1, IH2, !app_assoc.
Qed.

Lemma concat_nil_inv {A B} (f : A → list B) l x : concat (map f l) = [] → x ∈ l → f x = [].
Proof.
  induction l as [|y l IH]; cbn; [intros _ []%elem_of_nil|].
  intros [Hy Hl]%app_nil [->|Hx]%elem_of_cons; auto.
Qed.

Lemma elem_of_concat_map {A B} (f : A → list B) l x y : x ∈ l → y ∈ f x → y ∈ concat (map f l).
Proof.
  intros Hx Hy. apply list_elem_of_In, in_concat. exists (f x).
  split; [by apply in_map, list_elem_of_In|by apply list_elem_of_In].
Qed.

Lemma missing_nil (l known : list string) x :
  List.filter (λ i, negb (bool_decide (i ∈ known))) l = [] → x ∈ l → x ∈ known.
Proof.
  intros Hf Hx. destruct (decide (x ∈ known)) as [|Hn]; [done|]. exfalso.
  assert (x ∈ List.filter (λ i, negb (bool_decide (i ∈ known))) l) as Hin; [|rewrite Hf in Hin; set_solver].
  apply list_elem_of_In, filter_In. split; [by apply list_elem_of_In|]. by rewrite bool_decide_eq_false_2.
Qed.

Lemma if_nil {A B} (l : list A) (x : B) : (if is_nil l then [] else [x]) = [] → l = [].
Proof. by destruct l. Qed.

Lemma coverage_complete processed ids x : coverage_errors processed ids = [] → x ∈ processed → x ∈ ids.
Proof.
  unfold coverage_errors. case_match; [done|]. intros Hn%if_nil Hx. by eapply missing_nil.
Qed.

(** A stage was executed: a processed batch or a receipt names it. *)
Definition stage_executed (r : TransportSession) (stage_id : string) : Prop :=
  (∃ b, b ∈ ts_batch_records r ∧ batch_text "status" b = "processed"
        ∧ str_or_strip (dget "stageId" (metadata_of b)) = stage_id)
  ∨ ∃ receipt ids, receipt ∈ ts_shard_receipts r ∧ receipt_stage_ids receipt = Ok ids ∧ stage_id ∈ ids.

Lemma elem_of_filled x l : x ∈ filled_texts l ↔ x ∈ l ∧ x ≠ "".
Proof.
  unfold filled_texts. by rewrite !list_elem_of_In, filter_In, negb_true_iff, String.eqb_neq.
Qed.

Lemma mapM_r_elem {A B} (f : A → result B) l l' y :
  mapM_r f l = Ok l' → y ∈ l' → ∃ x, x ∈ l ∧ f x = Ok y.
Proof.
  revert l'. induction l as [|x l IH]; intros l' H Hy; cbn in H; [injection H as <-; set_solver|].
  apply bind_ok in H as (z & Hz & H). apply bind_ok in H as (l0 & Hl & [= <-]).
  apply elem_of_cons in Hy as [->|Hy]; [exists x; split; [by left|done]|].
  destruct (IH _ Hl Hy) as (x' & ? & ?). exists x'. split; [by right|done].
Qed.

Lemma executed_stage r receipts i :
  mapM_r receipt_stage_ids (ts_shard_receipts r) = Ok receipts →
  i ∈ filled_texts (map (λ b, str_or_strip (dget "stageId" (metadata_of b)))
        (List.filter (λ b, String.eqb (batch_text "status" b) "processed") (ts_batch_records r)))
      ++ concat receipts →
  stage_executed r i.
Proof.
  intros Hr [[Hi _]%elem_of_filled|Hi]%elem_of_app.
  - left. apply list_elem_of_In, in_map_iff in Hi as (b & <- & [Hb Hs%String.eqb_eq]%filter_In).
    exists b. by rewrite list_elem_of_In.
  - right. apply list_elem_of_In, in_concat in Hi as (ids & Hids%list_elem_of_In & Hi%list_elem_of_In).
    destruct (mapM_r_elem _ _ _ _ Hr Hids) as (receipt & ? & ?). eauto.
Qed.

(** ** The proof of a session *)

(** The node that a receipt is of. *)
Definition receipt_node (v : pyval) : string :=
  match v with VDict d => str_or_strip (dget "nodeId" d) | _ => "" end.

Lemma subset_of_elem l1 l2 x : subset_of l1 l2 = true → x ∈ l1 → x ∈ l2.
Proof.
  unfold subset_of. rewrite forallb_forall. intros Hs Hx%list_elem_of_In. apply Hs in Hx.
  by apply bool_decide_eq_true in Hx.
Qed.

Lemma same_set_elem l1 l2 x : same_set l1 l2 = true → x ∈ l1 ↔ x ∈ l2.
Proof.
  unfold same_set. intros [H1 H2]%andb_true_iff. split; by apply subset_of_elem.
Qed.

Section completion.
Context `{SignatureBackend} (env : Environ).
Context (iso : Z → string) (parse_iso : string → option Z).
Context (default_network : string).

Lemma dag_coverage_clean r final c :
  _validate_cai_owned_transport_execution_dag_coverage default_network r final = Ok c →
  match c with Some c => dc_errors c | None => [] end = [] →
  ∀ dag, dget "executionDag" (ts_route_policy r) = VDict dag →
    validate_cai_owned_transport_execution_dag default_network (VDict dag) (ts_chain_id r)
      (ts_session_id r) (ts_participant_node_ids r) = Accepts tt
    ∧ ∃ stages, dag_stage_list dag = Ok stages
        ∧ ∀ d, d ∈ stages → batch_text "stageId" d ≠ "" → stage_executed r (batch_text "stageId" d).
Proof.
  unfold _validate_cai_owned_transport_execution_dag_coverage. intros Hc He dag Hdag. rewrite Hdag in Hc.
  apply bind_ok in Hc as (valid & Hv & Hc). apply bind_ok in Hc as (stages & Hst & Hc).
  apply bind_ok in Hc as (receipts & Hr & [= <-]). cbn in He.
  apply app_nil in He as [-> He]. apply app_nil in He as [Hm%if_nil _].
  split; [by destruct (validate_cai_owned_transport_execution_dag _ _ _ _ _) as [[]| |]|].
  exists stages. split; [done|]. intros d Hd Hne. eapply executed_stage; [done|].
  eapply missing_nil; [exact Hm|]. apply elem_of_filled. split; [|done].
  apply list_elem_of_In, in_map, list_elem_of_In, Hd.
Qed.

Lemma session_audit_clean now r proof s a :
  validate_cai_owned_transport_session_execution_audit iso default_network now r proof s = Ok a →
  xa_errors a = [] →
  ts_batch_records r ≠ []
  ∧ (∃ known, session_batch_ids r = Ok known
     ∧ ∀ b, b ∈ ts_batch_records r →
         _is_cai_owned_transport_final_output_batch r b = true
         ∨ (batch_verified r known s b
            ∧ batch_text "batchId" b ∈ (cai_owned_transport_proof_batch_ids proof).1))
  ∧ ∀ dag, dget "executionDag" (ts_route_policy r) = VDict dag →
      validate_cai_owned_transport_execution_dag default_network (VDict dag) (ts_chain_id r)
        (ts_session_id r) (ts_participant_node_ids r) = Accepts tt
      ∧ ∃ stages, dag_stage_list dag = Ok stages
          ∧ ∀ d, d ∈ stages → batch_text "stageId" d ≠ "" → stage_executed r (batch_text "stageId" d).
Proof.
  unfold validate_cai_owned_transport_session_execution_audit, session_batch_ids. intros Ha He.
  apply bind_ok in Ha as (known & Hk & Ha). apply bind_ok in Ha as (dag & Hdag & [= <-]).
  cbn [xa_errors] in He. rewrite Hk. cbn [mbind result_bind].
  set (ids := filled_texts _ ++ known.1) in *.
  destruct (tally_fold (audit_batch r ids s) (tally_of [] [] [] [] []) (ts_batch_records r)) as [Hte Htp].
  apply app_nil in He as [_ He]. apply app_nil in He as [Ht He]. apply app_nil in He as [Hd He].
  apply app_nil in He as [_ He]. apply app_nil in He as [Hcov He]. apply app_nil in He as [Hne _].
  rewrite Hte in Ht. apply app_nil in Ht as [Ht _]. split_and!.
  - intros E. by rewrite E in Hne.
  - exists ids. split; [done|]. intros b Hb.
    destruct (audit_batch_clean r ids s b (concat_nil_inv _ _ _ Ht Hb)) as [|[Hv Hp]]; [by left|right].
    split; [done|]. eapply coverage_complete; [exact Hcov|]. rewrite Htp. apply elem_of_app. left.
    eapply elem_of_concat_map; [exact Hb|]. cbn beta. rewrite Hp. by left.
  - by eapply dag_coverage_clean.
Qed.

Lemma receipts_seen now rules chain_id executors receipts : ∀ seen s seen',
  (foldV (check_proof_receipt env iso parse_iso now rules chain_id executors) seen receipts s).2
  = Accepts seen' →
  sn_node_ids seen' = sn_node_ids seen ++ map receipt_node receipts
  ∧ Forall (λ v, is_Some (as_dict v) ∧ receipt_node v ≠ "") receipts.
Proof.
  induction receipts as [|v receipts IH]; intros seen s seen' Hf.
  - injection Hf as <-. cbn. by rewrite app_nil_r.
  - cbn [foldV] in Hf. verified Hf as (seen1 & H1 & Hf). apply IH in Hf as [-> Hall].
    destruct v as [| | | | |d]; try done. cbn [check_proof_receipt] in H1.
    verified H1 as (c & _ & H1). verified H1 as ([] & Hne & H1).
    apply check_accepts in Hne. rewrite negb_true_iff, String.eqb_neq in Hne.
    verified H1 as (u & _ & H1). verified H1 as (ids & _ & H1). do 2 verified H1 as (? & _ & H1).
    verified H1 as (chains & _ & H1). verified H1 as (u' & _ & [= <-]). cbn [sn_node_ids map receipt_node].
    rewrite <- app_assoc. split; [done|]. constructor; [|done]. split; [by eexists|done].
Qed.

Lemma completed_nodes_all receipts :
  Forall (λ v, is_Some (as_dict v) ∧ receipt_node v ≠ "") receipts →
  forallb is_completed_receipt receipts = true →
  completed_nodes receipts = map receipt_node receipts.
Proof.
  unfold completed_nodes.
  induction 1 as [|v receipts [[d Hd] Hne] _ IH]; intros Hc; [done|]. destruct v; try done.
  cbn [forallb is_completed_receipt] in Hc. apply andb_true_iff in Hc as [Hc Hcs].
  cbn [map receipt_node omap list_omap completed_node] in *.
  rewrite Hc, (proj2 (String.eqb_neq _ _) Hne). cbn [andb negb map snd]. by rewrite IH.
Qed.

(** What an accepted proof says of the receipts. *)
Lemma proof_accepted now rules x proof s :
  clean_ids (px_executor_node_ids x) ≠ [] →
  (validate_cai_owned_transport_execution_proof env iso parse_iso default_network now rules x
     (VDict proof) s).2 = Accepts tt →
  ∃ receipts, dget "shardReceipts" proof = VList receipts ∧ receipts ≠ []
    ∧ ∀ n, n ∈ completed_nodes receipts ↔ n ∈ clean_ids (px_executor_node_ids x).
Proof.
  intros Hne Hv. unfold validate_cai_owned_transport_execution_proof in Hv.
  verified Hv as (u & _ & Hv). verified Hv as (c & _ & Hv). do 2 verified Hv as (? & _ & Hv).
  verified Hv as (ps & _ & Hv). verified Hv as (? & _ & Hv). verified Hv as (executors & _ & Hv).
  do 2 verified Hv as (? & _ & Hv). verified Hv as ([] & Hsame & Hv). apply check_accepts in Hsame.
  do 2 verified Hv as (? & _ & Hv).
  destruct (dget "shardReceipts" proof) as [| | | |[|v receipts]|]; try done.
  verified Hv as (seen & Hseen & Hv). verified Hv as (? & _ & Hv).
  verified Hv as ([] & Hsub & Hv). apply check_accepts in Hsub.
  verified Hv as ([] & Hcov & Hv). apply check_accepts in Hcov.
  verified Hv as (? & _ & Hv). verified Hv as ([] & Hdone & _). apply check_accepts in Hdone.
  apply receipts_seen in Hseen as [Hnodes Hall]. cbn [sn_node_ids no_receipts_seen app] in Hnodes.
  exists (v :: receipts). split_and!; [done..|]. intros n.
  rewrite (completed_nodes_all _ Hall Hdone), <- Hnodes.
  assert (same_set executors (clean_ids (px_executor_node_ids x)) = true) as Hset
    by (destruct (clean_ids (px_executor_node_ids x)); done).
  split.
  - intros Hn. apply (same_set_elem _ _ _ Hset). by eapply subset_of_elem.
  - intros Hn. eapply subset_of_elem; [exact Hcov|].
    destruct (clean_ids (px_executor_node_ids x)); done.
Qed.

(** The nodes a job pays when its execution has a proof with receipts. *)
Lemma payees_of_receipts ps audit proof receipts n :
  truthy (dget "caiOwnedTransportExecuted" audit) = true →
  dget "caiOwnedTransportExecutionProof" audit = VDict proof →
  dget "shardReceipts" proof = VList receipts → receipts ≠ [] →
  n ∈ map pa_node_id (payees ps audit) ↔ n ∈ completed_nodes receipts.
Proof.
  intros Hx Hp Hr Hne. unfold payees, settlement_participants_for_reward. rewrite Hx, Hp, Hr. cbn [negb].
  destruct receipts as [|v rs]; [done|]. apply receipt_participants_complete, not_elem_of_nil.
Qed.

(** C14: C14: [complete_cai_owned_transport_session] completes a session only with a proof of the whole
    execution.  Every batch that is not a final output of an executor is verified: it is processed, has the hash chain over its input and its
    output, an output that is stored still has its hash, and the batch is in a receipt of the
    proof; when the session has an execution plan it is one the check accepts and each of its
    stages was executed; and a job that settles with the proof pays exactly the executors of the
    session.  The copy of a participant that is completed by a notice of its peer
    ([accept_cai_owned_transport_completion_notice]) is checked against the notice's proof only. *)
Theorem completed_session_is_proven now id q s r r'
    (Hr : session_of id s = Some r) (Hex : clean_ids (executors_of r) ≠ [])
    (Hok : (complete_cai_owned_transport_session env iso parse_iso default_network now id q s).2 = Ok r') :
  session_of id (complete_cai_owned_transport_session env iso parse_iso default_network now id q s).1
  = Some r'
  ∧ ts_status r' = "completed" ∧ ts_batch_records r' = ts_batch_records r ∧ ts_batch_records r ≠ []
  ∧ (∀ dag, dget "executionDag" (ts_route_policy r) = VDict dag →
       validate_cai_owned_transport_execution_dag default_network (VDict dag) (ts_chain_id r)
         (ts_session_id r) (ts_participant_node_ids r) = Accepts tt
       ∧ ∃ stages, dag_stage_list dag = Ok stages
           ∧ ∀ d, d ∈ stages → batch_text "stageId" d ≠ "" → stage_executed r (batch_text "stageId" d))
  ∧ ∃ proof known, ts_proof r' = Some proof ∧ session_batch_ids r = Ok known
    ∧ (∀ b, b ∈ ts_batch_records r →
         _is_cai_owned_transport_final_output_batch r b = true
         ∨ (batch_verified r known s b
            ∧ batch_text "batchId" b ∈ (cai_owned_transport_proof_batch_ids proof).1))
    ∧ ∀ ps audit, truthy (dget "caiOwnedTransportExecuted" audit) = true →
        dget "caiOwnedTransportExecutionProof" audit = VDict proof →
        ∀ n, n ∈ map pa_node_id (payees ps audit) ↔ n ∈ clean_ids (executors_of r).
Proof.
  revert Hok. unfold complete_cai_owned_transport_session.
  match goal with |- context [on_session id ?f s] => pose proof (on_session_cases id f s) as Hc; set (g := f) in * end.
  rewrite Hr in Hc.
  destruct (g r) as [saved answer] eqn:Eg. intros Hok. revert Eg. unfold g.
  destruct (completion_proof _ _ _ _) as [proof|] eqn:Eproof; cbn [mbind result_bind];
    [|intros [= <- <-]; by rewrite Hc in Hok].
  destruct (validate_cai_owned_transport_session_execution_audit _ _ _ _ _ _) as [a|] eqn:Ea;
    cbn [mbind result_bind]; [|intros [= <- <-]; by rewrite Hc in Hok].
  destruct (xa_errors a) as [|e es] eqn:Ee; [|intros [= <- <-]; destruct Hc as [Hc _]; congruence].
  destruct (validate_cai_owned_transport_execution_proof _ _ _ _ _ _ _ _ _) as [s' [[]|e|e]] eqn:Ev;
    cbn [snd]; intros [= <- <-];
    [|destruct Hc as [Hc _]; congruence|by rewrite Hc in Hok].
  destruct Hc as [Hc Hs]. rewrite Hc in Hok. injection Hok as <-.
  destruct (session_audit_clean _ _ _ _ _ Ea Ee) as (Hne & (known & Hk & Hb) & Hdag).
  destruct (proof_accepted now default_rules (session_expectation r) (audited_proof proof a) s) as
    (receipts & Hreceipts & Hrne & Hnodes); [done|by rewrite Ev|].
  split_and!; try done.
  - specialize (Hs ltac:(by split) id). by rewrite String.eqb_refl in Hs.
  - exists (audited_proof proof a), known. split_and!; [done|done| |].
    + intros b Hin. destruct (Hb b Hin) as [|[Hv Hp]]; [by left|right]. split; [done|].
      unfold cai_owned_transport_proof_batch_ids, audited_proof in *.
      by rewrite dget_dset.
    + intros ps audit Hx Hp n. by rewrite (payees_of_receipts ps audit _ _ n Hx Hp Hreceipts Hrne).
Qed.
End completion.

(** ** The session of the one batch, completed *)

Definition demo_finished : TransportStore := Eval vm_compute in demo_run
  [(seconds 20, OpComplete "caiot_1" "caibatch_1" (demo_caller "rt1")
      {| pc_metrics := None; pc_output_payload := Some "out"; pc_output_hash := None;
         pc_route_audit := None; pc_runtime_audit := None |} None)] demo_claimed.

Definition demo_completion : TransportStore * result TransportSession := Eval vm_compute in
  complete_cai_owned_transport_session no_env demo_iso demo_parse_iso "mainnet" (seconds 30) "caiot_1"
    {| cq_activation_batch_count := 0; cq_decode_batch_count := 0; cq_shard_receipts := None;
       cq_proof := None |} demo_finished.

Definition demo_completed : TransportSession :=
  match demo_completion.2 with Ok r => r | Err _ => demo_session demo_finished end.

Lemma completed_session_is_proven_witness :
  ts_status demo_completed = "completed"
  ∧ ∃ proof, ts_proof demo_completed = Some proof
    ∧ ∀ ps n, n ∈ map pa_node_id (payees ps
        [("caiOwnedTransportExecuted", VBool true); ("caiOwnedTransportExecutionProof", VDict proof)])
      ↔ n ∈ ["b"].
Proof.
  destruct (completed_session_is_proven no_env demo_iso demo_parse_iso "mainnet" (seconds 30) "caiot_1"
    {| cq_activation_batch_count := 0; cq_decode_batch_count := 0; cq_shard_receipts := None;
       cq_proof := None |} demo_finished (demo_session demo_finished) demo_completed)
    as (_ & Hst & _ & _ & _ & proof & known & Hp & _ & _ & Hpay).
  - vm_compute. reflexivity.
  - discriminate.
  - vm_compute. reflexivity.
  - split; [exact Hst|]. exists proof. split; [exact Hp|]. intros ps n.
    exact (Hpay ps [("caiOwnedTransportExecuted", VBool true); ("caiOwnedTransportExecutionProof", VDict proof)]
             eq_refl eq_refl n).
Defined.
